(* ===== verification/_CoqProject ===== *)
-Q . S2P
Prelude.v
Blocks.v
Monad.v
State.v
Locks.v
Kalloc.v
Codec.v
Mem.v
Strings.v
Vm.v
VmWalk.v
VmSpace.v
UserMem.v
VmGrow.v
MetaImage.v
RaidCore.v
Raid0.v
RaidPair.v
ParityArray.v
ParityVolume.v
Raid4.v
Raid5.v
RaidCtl.v
RaidOps.v
RaidLevels.v
Boot.v
RaidProps.v
RaidFacts.v
RaidWitness.v
Syscall.v
SysRaid.v
SysWitness.v
Pipe.v
PipeSystem.v
Grep.v
Bio.v
BioCache.v
BioBoot.v
Log.v
LogSteps.v
LogCrash.v
LogGroup.v
LogSafe.v
Txn.v
Fs.v
FsImage.v
FsInv.v
FsAlloc.v
FsRead.v
FsWritei.v
FsTrunc.v
FsInode.v
FsDir.v
FsNamex.v
File.v
FileWrite.v
FsCrash.v
FsProps.v
Mkfs.v
MkfsFiles.v
MkfsMain.v
MkfsBoot.v
FsWitness.v
SysFile.v
SysCreate.v
SysOpen.v
Sh.v
Virtio.v
VirtioWorld.v
VirtioSteps.v
VirtioSystem.v
PairProtocol.v
PairSafe.v
Proc.v
ProcInv.v
ProcProps.v
Umalloc.v
Console.v
