(* ===== verification/Prelude.v ===== *)
(** * Verification of the xv6 RAID kernel

    The program is an xv6 kernel for RISC-V (src/kernel) with a RAID subsystem
    over several virtio disks, its user programs (src/user) and the builder of
    its file system image (src/mkfs).  This library models the kernel's data
    structures and routines as Rocq functions and proves what they do.

    ** How code is modelled

    A C function is a function from a state to an [outcome] (Monad.v): it
    returns, panics, waits for something only another process or cpu can do, or
    accesses memory it must not.  [wp m Q s] says that [m] returns from [s] with
    a result and a state in [Q]: it is total correctness, so every theorem of
    this form also says that the code terminates and neither panics, faults nor
    waits.  Integers are [Z] with the wrap-around of their C type written out
    ([u8], [u32], [u64], [i32]).  Where several processes run at once (mirrored
    pairs, pipes, the disk driver, the group commit of the log, the process
    table, the console) the unit of interleaving is what the code does under
    its lock, and the system is a step relation or a sequence of actions.

    ** Parts, files and theorems

    - Prelude.v, Blocks.v, Monad.v, Codec.v, Mem.v: integers, ranges, arrays,
      blocks and their exclusive or, the monad, layouts of C structures, byte
      memory.
    - State.v, Locks.v, Kalloc.v: the globals of the RAID code, kernel/spinlock.c
      and sleeplock.c, kernel/kalloc.c.
    - Strings.v: kernel/string.c on byte memory; overlapping [memmove],
      termination and bounds of [safestrcpy].
    - Vm.v (the operations of kernel/vm.c), VmWalk.v (page tables as trees),
      VmSpace.v ([mappages], [copyout], [copyin]), VmGrow.v (memory holds bytes;
      [uvmalloc] and its undoing).  UserMem.v states what vm.c promises to its
      clients as the class [UserMemory].
    - RAID.  MetaImage.v: the bytes of [struct RAIDMeta].  RaidCore.v: the code
      all levels share and the invariant [raid_wf].  Raid0.v, RaidPair.v (RAID1
      and RAID0+1), ParityArray.v, ParityVolume.v, Raid4.v, Raid5.v: the levels
      (kernel/raid0.c, raid1.c, raid0_1.c, raid4.c, raid5.c).  RaidCtl.v,
      RaidOps.v: [loadraid], [setraidtype], [raidfail], [raidrepair],
      [raiddestroy] of kernel/raid.c.  RaidLevels.v: the class [RaidLevel], a
      volume that survives failures, with the five levels as instances; clients
      are proved against it.  Boot.v: power-on states and reboots.
      RaidProps.v: histories refine a volume; data survives failures.
      RaidFacts.v: placement, parity, mirroring, repair, refusals and the flaws
      of the code.  PairProtocol.v, PairSafe.v: a mirrored pair used by any
      number of processes, with disks failing at any moment, is an atomic disk;
      two concurrent repairs break it.
    - Syscall.v, SysRaid.v: kernel/syscall.c and kernel/sysraid.c; the array as
      a user program sees it, by composition of the two interfaces above.
    - Pipe.v, PipeSystem.v: kernel/pipe.c with any number of readers and
      writers; order of the bytes, the one byte a read of a bad address loses,
      no lost wakeups.
    - Bio.v, BioCache.v, BioBoot.v: kernel/bio.c; the linked list of buffers
      implements the class [BufferCache], in the order of last use.
    - Log.v, LogSteps.v, LogCrash.v, LogGroup.v, LogSafe.v: kernel/log.c over
      [BufferCache]; group commit refines an abstract log and is crash safe,
      crashes during recovery included.
    - The file system.  Txn.v: what the log promises to fs.c, as the class
      [Transactions].  Fs.v: kernel/fs.c.  FsImage.v, FsInv.v: the bytes of its
      blocks and the invariant (every block free or used once, directories,
      link counts).  FsAlloc.v, FsRead.v, FsWritei.v, FsTrunc.v, FsInode.v,
      FsDir.v, FsNamex.v: the effect of each operation on the files and on no
      other file.  File.v, FileWrite.v: kernel/file.c.  FsCrash.v: [fsinit], and
      a write to a file across crashes.  FsProps.v: what is written is read
      back, a path leads where the directories say, a round of a write is one
      transaction that fits the log.
    - Mkfs.v, MkfsFiles.v, MkfsMain.v, MkfsBoot.v: mkfs/mkfs.c; the image is a
      consistent file system with the given files, the kernel boots from it and
      [namei] finds them.
    - SysFile.v, SysCreate.v, SysOpen.v: kernel/sysfile.c; [create], and [open]
      with [O_CREATE] as one transaction across crashes.
    - Proc.v, ProcInv.v, ProcProps.v: the process table of kernel/proc.c on all
      processors at once; an exit status is returned once, no wakeup of a parent
      is lost, a process runs on one processor, the locks do not deadlock.
    - Virtio.v, VirtioWorld.v, VirtioSteps.v, VirtioSystem.v:
      kernel/virtio_disk.c with any number of processes, those that sleep for
      descriptors included, the interrupt handler and a device; the driver
      refines an atomic disk and every request can be completed, unless a
      process is killed while it sleeps until its request is served.
    - Console.v: kernel/console.c and kernel/uart.c; the input ring refines a
      terminal with line editing, output is sent in order, and neither loses a
      wakeup.
    - User programs.  Grep.v: user/grep.c; the matcher is equivalent to a
      semantics of its patterns, and the line loop prints the matching lines of
      what it has read, also when a read fails.
      Sh.v: user/sh.c; the parser accepts exactly the lines of a grammar, and
      the processes of a command get the descriptors the command says.
      Umalloc.v: user/umalloc.c; [malloc] and [free] refine an allocator of
      disjoint blocks.
    - RaidWitness.v, SysWitness.v, FsWitness.v apply theorems to concrete
      machines; the other witnesses are beside their theorems.

    ** Assumptions

    The device of VirtioWorld.v is a relation; it is assumed to do nothing but
    serve submitted chains ([device_serves]) and to serve one if it can
    ([device_live]).  Below the RAID code and below the buffer cache a disk is a
    map of blocks, written in the order of the calls.  [ConfigOK] bounds the
    configuration of the Makefile (1 to 8 disks, sizes within the C types).
    The serial device of Console.v interrupts whenever it becomes ready for a
    character.  In Umalloc.v all memory of the machine is 128 megabytes and a
    process below that size gets it or not as the kernel likes.  The system
    calls of Sh.v succeed or fail as they like.

    ** Fuel

    Loops over an index are folds over its range.  The remaining loops are given
    a bound that the proofs show to be enough: walks over the buffer list
    [NBUF + 1], [free_chain] [NUM + 1], [virtio_disk_intr] 2^16 (the ring index
    wraps there), string loops the number of accessible bytes plus one, pipe and
    [grep] loops the bytes that remain, [readi] and [writei] [MAXFILE + 2]
    blocks, [namex] the length of the path plus one, [filewrite] [n / 3072 + 2]
    rounds, [iappend] of mkfs [n / BSIZE + 3] rounds, the parser of the shell the
    length of the line plus two, a walk over the free blocks of a process the
    number of headers that its size has room for (twice for [malloc], which
    starts again after [morecore]), [consoleread] the characters asked for and
    [uartstart] the size of its ring.

    ** Not modelled

    Assembly and what works on hardware registers only: entry.S, kernelvec.S,
    swtch.S, trampoline.S, start.c, trap.c, plic.c, the accessors of riscv.h,
    the register accesses of [virtio_disk_init] and [uartinit], the set-up of the
    kernel page table; traps and context switches appear as the steps of Proc.v.
    The memory, registers and files of a process are opaque to the process
    table, so that [exit]'s closing of the files and [fork]'s copying of them
    are not part of it.  exec.c: what it calls is modelled, [exec] is not.
    printf.c of the kernel and of the user library, [procdump] and the messages
    of programs only print.  ramdisk.c is not linked.  Test programs, and the
    small user programs (cat, wc, ls, init and the like) on top of the calls. *)

From stdpp Require Import base numbers list gmap strings.
From Stdlib Require Import ZArith Lia.
Open Scope Z_scope.

(** ** Machine integers *)

Definition u8 (z : Z) : Z := z mod 2 ^ 8.
Definition u16 (z : Z) : Z := z mod 2 ^ 16.
Definition u32 (z : Z) : Z := z mod 2 ^ 32.
Definition u64 (z : Z) : Z := z mod 2 ^ 64.
Definition i32 (z : Z) : Z := (z + 2 ^ 31) mod 2 ^ 32 - 2 ^ 31.

(** [return -1] in a function of return type [uint64]. *)
Definition ERR : Z := u64 (-1).

Lemma u8_small z : 0 <= z < 2 ^ 8 -> u8 z = z.
Proof. apply Z.mod_small. Qed.
Lemma u32_small z : 0 <= z < 2 ^ 32 -> u32 z = z.
Proof. apply Z.mod_small. Qed.
Lemma u64_small z : 0 <= z < 2 ^ 64 -> u64 z = z.
Proof. apply Z.mod_small. Qed.
Lemma i32_small z : - 2 ^ 31 <= z < 2 ^ 31 -> i32 z = z.
Proof. intros H. unfold i32. rewrite Z.mod_small; lia. Qed.

Lemma u32_range z : 0 <= u32 z < 2 ^ 32.
Proof. apply Z.mod_pos_bound; lia. Qed.
Lemma i32_range z : - 2 ^ 31 <= i32 z < 2 ^ 31.
Proof. unfold i32. pose proof (Z.mod_pos_bound (z + 2 ^ 31) (2 ^ 32)). lia. Qed.

(** ** Ranges: the index set of a C loop [for (i = lo; i < hi; i++)] *)

Definition range (lo hi : Z) : list Z := seqZ lo (hi - lo).

Lemma elem_of_range lo hi i : i ∈ range lo hi <-> lo <= i < hi.
Proof. unfold range. rewrite elem_of_seqZ. lia. Qed.
Lemma range_NoDup lo hi : NoDup (range lo hi).
Proof. apply NoDup_seqZ. Qed.
Lemma range_nil lo hi : hi <= lo -> range lo hi = [].
Proof. intros. unfold range. apply seqZ_nil. lia. Qed.
Lemma range_cons lo hi : lo < hi -> range lo hi = lo :: range (lo + 1) hi.
Proof.
  intros. unfold range. rewrite seqZ_cons by lia.
  f_equal. f_equal; lia.
Qed.
Lemma range_len lo hi : length (range lo hi) = Z.to_nat (hi - lo).
Proof. unfold range. apply length_seqZ. Qed.
Lemma range_shift d lo hi : range lo hi = map (Z.add d) (range (lo - d) (hi - d)).
Proof.
  unfold range. replace (hi - d - (lo - d)) with (hi - lo) by lia.
  change (map (Z.add d)) with (fmap (M := list) (Z.add d)). rewrite fmap_add_seqZ. f_equal. lia.
Qed.
Lemma range_app lo mid hi : lo <= mid <= hi -> range lo hi = range lo mid ++ range mid hi.
Proof.
  intros. unfold range. replace (hi - lo) with ((mid - lo) + (hi - mid)) by lia.
  rewrite seqZ_app by lia. do 2 f_equal; lia.
Qed.
Lemma range_snoc lo hi : lo < hi -> range lo hi = range lo (hi - 1) ++ [hi - 1].
Proof.
  intros. rewrite (range_app lo (hi - 1) hi) by lia.
  rewrite (range_cons (hi - 1)), (range_nil (hi - 1 + 1)) by lia. done.
Qed.

(** ** Arrays indexed by C integers *)

Definition znth {A} (l : list A) (i : Z) : option A :=
  if i <? 0 then None else l !! Z.to_nat i.
Definition zset {A} (l : list A) (i : Z) (x : A) : list A :=
  if i <? 0 then l else <[Z.to_nat i := x]> l.

Lemma znth_Some_lt {A} (l : list A) i x : znth l i = Some x -> 0 <= i < Z.of_nat (length l).
Proof.
  unfold znth. destruct (Z.ltb_spec i 0); [done|]. intros Hx%lookup_lt_Some. lia.
Qed.
Lemma znth_is_Some {A} (l : list A) i :
  0 <= i < Z.of_nat (length l) -> exists x, znth l i = Some x.
Proof.
  intros. unfold znth. destruct (Z.ltb_spec i 0); [lia|].
  apply lookup_lt_is_Some_2. lia.
Qed.
Lemma znth_zset_eq {A} (l : list A) i x :
  0 <= i < Z.of_nat (length l) -> znth (zset l i x) i = Some x.
Proof.
  intros. unfold znth, zset. destruct (Z.ltb_spec i 0); [lia|].
  apply list_lookup_insert_eq. lia.
Qed.
Lemma znth_zset_ne {A} (l : list A) i j x : i <> j -> znth (zset l i x) j = znth l j.
Proof.
  intros. unfold znth, zset. destruct (Z.ltb_spec i 0), (Z.ltb_spec j 0); try done.
  apply list_lookup_insert_ne. lia.
Qed.
Lemma znth_cons {A} (x : A) l k : znth (x :: l) k = if k =? 0 then Some x else znth l (k - 1).
Proof.
  unfold znth. destruct (Z.eqb_spec k 0) as [->|]; [done|]. destruct (Z.ltb_spec k 0), (Z.ltb_spec (k - 1) 0); try done; try lia.
  replace (Z.to_nat k) with (S (Z.to_nat (k - 1))) by lia. done.
Qed.
Lemma zset_length {A} (l : list A) i x : length (zset l i x) = length l.
Proof. unfold zset. destruct (i <? 0); [done|]. apply length_insert. Qed.
Lemma zset_zset {A} (l : list A) i x y : zset (zset l i x) i y = zset l i y.
Proof. unfold zset. destruct (i <? 0); [done|]. apply list_insert_insert_eq. Qed.
Lemma zset_id {A} (l : list A) i x : znth l i = Some x -> zset l i x = l.
Proof. unfold znth, zset. destruct (i <? 0); [done|]. apply list_insert_id. Qed.
Lemma znth_replicate {A} n (x : A) i : 0 <= i < Z.of_nat n -> znth (replicate n x) i = Some x.
Proof.
  intros. unfold znth. destruct (Z.ltb_spec i 0); [lia|].
  apply lookup_replicate_2. lia.
Qed.
