(* ===== verification/Blocks.v ===== *)
(** * Disk blocks and their exclusive-or

    A block is the [uchar data[BSIZE]] of the C code: a list of [BSIZE] bytes.
    The parity loops of raid4.c and raid5.c, [parity[j] ^= buff[j]] for every
    [j < BSIZE], are the pointwise [bxor].  [xsum g l] is the parity of the
    blocks [g i] for [i] in [l]; the lemmas below are the algebra the RAID4 and
    RAID5 proofs use. *)

From stdpp Require Import base numbers list sets.
From Stdlib Require Import ZArith Lia Permutation.
From S2P Require Import Prelude.
Open Scope Z_scope.

Definition BSIZE : Z := 1024.

Abbreviation block := (list Z).

Definition zblk : block := replicate (Z.to_nat BSIZE) 0.

Definition is_byte (z : Z) : Prop := 0 <= z < 256.

Arguments BSIZE : simpl never.
Arguments zblk : simpl never.

Definition wf_block (b : block) : Prop := length b = Z.to_nat BSIZE /\ Forall is_byte b.

Definition bxor (a b : block) : block := zip_with Z.lxor a b.
Arguments bxor : simpl never.

(** ** The algebra of [bxor] *)

Lemma bxor_comm a b : bxor a b = bxor b a.
Proof.
  unfold bxor. revert b. induction a as [|x a IH]; intros [|y b]; simpl; auto.
  rewrite IH, Z.lxor_comm. done.
Qed.

Lemma bxor_assoc a b c : bxor a (bxor b c) = bxor (bxor a b) c.
Proof.
  unfold bxor. revert b c. induction a as [|x a IH]; intros [|y b] [|z c]; simpl; auto.
  rewrite IH, Z.lxor_assoc. done.
Qed.

Lemma bxor_length a b : length (bxor a b) = (length a `min` length b)%nat.
Proof. apply length_zip_with. Qed.

Lemma bxor_zeros_l n a : (length a <= n)%nat -> bxor (replicate n 0) a = a.
Proof.
  unfold bxor. revert n. induction a as [|x a IH]; intros [|n] Hn; simpl in *; auto; try lia.
  rewrite IH by lia. done.
Qed.

Lemma bxor_diag a : bxor a a = replicate (length a) 0.
Proof. unfold bxor. induction a; simpl; [done|]. rewrite Z.lxor_nilpotent. by f_equal. Qed.

Lemma lxor_byte x y : is_byte x -> is_byte y -> is_byte (Z.lxor x y).
Proof.
  intros Hx Hy. unfold is_byte in *.
  assert (0 <= Z.lxor x y) by (apply Z.lxor_nonneg; lia). split; [done|].
  destruct (decide (Z.lxor x y = 0)) as [->|]; [lia|].
  apply Z.log2_lt_pow2 with (b := 8); [lia|].
  pose proof (Z.log2_lxor x y ltac:(lia) ltac:(lia)).
  assert (forall z, 0 <= z < 256 -> Z.log2 z <= 7).
  { intros z Hz. apply Z.lt_succ_r. destruct (decide (z = 0)) as [->|]; [simpl; lia|].
    apply Z.log2_lt_pow2; simpl; lia. }
  pose proof (H1 x Hx). pose proof (H1 y Hy). lia.
Qed.

Lemma zblk_length : length zblk = Z.to_nat BSIZE.
Proof. apply length_replicate. Qed.


Lemma bxor_zblk_short a : (length a <= Z.to_nat BSIZE)%nat -> bxor zblk a = a.
Proof. apply bxor_zeros_l. Qed.

Lemma wf_zblk : wf_block zblk.
Proof.
  split; [apply zblk_length|]. apply Forall_replicate. unfold is_byte. lia.
Qed.

Lemma bxor_self a : wf_block a -> bxor a a = zblk.
Proof. intros [Ha _]. rewrite bxor_diag, Ha. done. Qed.

Lemma zblk_eq : zblk = replicate (Z.to_nat BSIZE) 0.
Proof. done. Qed.
#[global] Opaque zblk.

Lemma wf_bxor a b : wf_block a -> wf_block b -> wf_block (bxor a b).
Proof.
  intros [Ha Fa] [Hb Fb]. split; [rewrite bxor_length; lia|].
  unfold bxor. clear Ha Hb. revert b Fb.
  induction Fa as [|x a Hx Fa IH]; intros [|y b] Fb; simpl; auto.
  inversion Fb; subst. constructor; auto using lxor_byte.
Qed.

Lemma bxor_zblk_l a : wf_block a -> bxor zblk a = a.
Proof. intros [Ha _]. apply bxor_zblk_short. lia. Qed.
Lemma bxor_zblk_r a : wf_block a -> bxor a zblk = a.
Proof. intros. rewrite bxor_comm. by apply bxor_zblk_l. Qed.

(** Cancellation: what one xor adds, the same xor removes. *)
Lemma bxor_cancel_l a b : wf_block a -> wf_block b -> bxor a (bxor a b) = b.
Proof. intros. rewrite bxor_assoc, bxor_self by done. by apply bxor_zblk_l. Qed.

Lemma bxor_eq_zblk a b : wf_block a -> wf_block b -> bxor a b = zblk -> a = b.
Proof.
  intros Ha Hb H. rewrite <- (bxor_cancel_l b a), (bxor_comm b a), H by done.
  by apply bxor_zblk_r.
Qed.

Create HintDb block.
#[export] Hint Resolve wf_zblk wf_bxor : block.

(** ** Parity of a family of blocks *)

Fixpoint xsum (g : Z -> block) (l : list Z) : block :=
  match l with
  | [] => zblk
  | i :: l => bxor (g i) (xsum g l)
  end.

Lemma wf_xsum g l : (forall i, i ∈ l -> wf_block (g i)) -> wf_block (xsum g l).
Proof. induction l; simpl; intros H; auto with block. apply wf_bxor; set_solver. Qed.

Lemma xsum_ext g h l : (forall i, i ∈ l -> g i = h i) -> xsum g l = xsum h l.
Proof. induction l; simpl; intros H; [done|]. rewrite H, IHl; set_solver. Qed.

Lemma xsum_perm g l1 l2 : l1 ≡ₚ l2 -> xsum g l1 = xsum g l2.
Proof.
  induction 1; simpl; try congruence.
  rewrite !bxor_assoc, (bxor_comm (g y)). done.
Qed.

Lemma xsum_length g l : (length (xsum g l) <= Z.to_nat BSIZE)%nat.
Proof.
  induction l; simpl; [by rewrite zblk_length|].
  rewrite bxor_length. lia.
Qed.

(** The accumulating loop of the code computes [xsum]. *)
Lemma fold_left_xsum g l acc :
  (length acc <= Z.to_nat BSIZE)%nat ->
  fold_left (fun p i => bxor p (g i)) l acc = bxor acc (xsum g l).
Proof.
  revert acc. induction l as [|i l IH]; simpl; intros acc Hacc.
  - symmetry. rewrite bxor_comm. by apply bxor_zblk_short.
  - rewrite IH, bxor_assoc; [done|]. rewrite bxor_length. lia.
Qed.

Lemma fold_left_xsum0 g l : fold_left (fun p i => bxor p (g i)) l zblk = xsum g l.
Proof.
  rewrite fold_left_xsum by (by rewrite zblk_length).
  apply bxor_zblk_short, xsum_length.
Qed.

Definition others (d : Z) (l : list Z) : list Z := filter (fun i => i ≠ d) l.

Lemma elem_of_others d l i : i ∈ others d l <-> i <> d /\ i ∈ l.
Proof. unfold others. rewrite list_elem_of_filter. done. Qed.

Lemma others_notin d l : d ∉ l -> others d l = l.
Proof.
  unfold others. induction l as [|i l IH]; intros H; [done|].
  rewrite filter_cons_True by set_solver. rewrite IH; set_solver.
Qed.

Lemma xsum_split g d l :
  NoDup l -> d ∈ l -> xsum g l = bxor (g d) (xsum g (others d l)).
Proof.
  intros Hnd Hd. induction Hnd as [|i l Hi Hnd IH]; [set_solver|].
  unfold others. destruct (decide (i = d)) as [->|Hne].
  - rewrite filter_cons_False by tauto. simpl. fold (others d l). by rewrite others_notin.
  - rewrite filter_cons_True by done. simpl. fold (others d l).
    rewrite IH by set_solver. rewrite !bxor_assoc, (bxor_comm (g i)). done.
Qed.

(** If the whole family has zero parity, each block is the parity of the
    others: the reconstruction rule of RAID4 and RAID5. *)
Lemma xsum_reconstruct g d l :
  NoDup l -> d ∈ l -> (forall i, i ∈ l -> wf_block (g i)) ->
  xsum g l = zblk -> xsum g (others d l) = g d.
Proof.
  intros Hnd Hd Hwf Hz. rewrite (xsum_split g d l) in Hz by done.
  symmetry. apply bxor_eq_zblk; auto. apply wf_xsum. intros i Hi.
  apply Hwf. by apply elem_of_others in Hi as [_ Hi].
Qed.

(** Changing one block of the family changes the parity by the same amount. *)
Lemma xsum_shift g h p delta l :
  NoDup l -> p ∈ l -> h p = bxor (g p) delta -> (forall i, i ∈ l -> i <> p -> h i = g i) ->
  xsum h l = bxor (xsum g l) delta.
Proof.
  intros Hnd Hp Hhp Hh. rewrite (xsum_split h p l), (xsum_split g p l), Hhp by done.
  rewrite (xsum_ext h g (others p l)).
  - rewrite <- !bxor_assoc, (bxor_comm delta). done.
  - intros i [Hne Hi]%elem_of_others. by apply Hh.
Qed.

(** Two changes by the same amount cancel: why the read-modify-write of a data
    block and of the parity block keeps the parity of the row. *)
Lemma xsum_shift2 g h p q delta l :
  NoDup l -> p ∈ l -> q ∈ l -> p <> q ->
  (forall i, i ∈ l -> wf_block (g i)) -> wf_block delta ->
  h p = bxor (g p) delta -> h q = bxor (g q) delta ->
  (forall i, i ∈ l -> i <> p -> i <> q -> h i = g i) ->
  xsum h l = xsum g l.
Proof.
  intros Hnd Hp Hq Hpq Hwf Hd Hhp Hhq Hh.
  set (k := fun i => if decide (i = p) then h p else g i).
  assert (Hk : xsum k l = bxor (xsum g l) delta).
  { apply (xsum_shift _ _ p); auto; unfold k.
    - by rewrite decide_True.
    - intros i _ Hi. by rewrite decide_False. }
  rewrite (xsum_shift k h q delta), Hk; auto.
  - rewrite <- bxor_assoc, bxor_self by done. apply bxor_zblk_r. by apply wf_xsum.
  - unfold k. rewrite decide_False by congruence. done.
  - intros i Hi Hne. unfold k. destruct (decide (i = p)) as [->|]; [done|]. by apply Hh.
Qed.

Lemma others_NoDup d l : NoDup l -> NoDup (others d l).
Proof. intros. by apply NoDup_filter. Qed.
