(* ===== verification/Monad.v ===== *)
(** * Kernel code as state transformers

    A C function of the kernel is a function of the kernel state to an
    [outcome]: it returns ([Done]), it calls [panic] ([Panic]), it waits for an
    event that no code of this thread of control can produce ([Blocked]: a spin
    on a held spinlock, or a [sleep]), or it accesses memory it must not access
    ([Fault]: a null or out-of-range pointer, for which the kernel's
    [kerneltrap] panics).  [wp m Q s] says that [m] started in [s] returns, and
    that the result and the final state satisfy [Q]: total correctness. *)

From stdpp Require Import base numbers list sets strings.
From Stdlib Require Import ZArith Lia.
From S2P Require Import Prelude.
Open Scope Z_scope.

Inductive outcome (S A : Type) : Type :=
| Done (a : A) (s : S)
| Panic (msg : string) (s : S)
| Blocked (s : S)
| Fault (s : S).
Arguments Done {S A} a s.
Arguments Panic {S A} msg s.
Arguments Blocked {S A} s.
Arguments Fault {S A} s.

Definition M (S A : Type) : Type := S -> outcome S A.

Section operations.
Context {S : Type}.

Definition ret {A} (a : A) : M S A := fun s => Done a s.
Definition bind {A B} (m : M S A) (k : A -> M S B) : M S B := fun s =>
  match m s with
  | Done a s' => k a s'
  | Panic msg s' => Panic msg s'
  | Blocked s' => Blocked s'
  | Fault s' => Fault s'
  end.
Definition gets {A} (f : S -> A) : M S A := fun s => Done (f s) s.
Definition modify (f : S -> S) : M S unit := fun s => Done tt (f s).
Definition panic {A} (msg : string) : M S A := fun s => Panic msg s.
Definition blocked {A} : M S A := fun s => Blocked s.
Definition fault {A} : M S A := fun s => Fault s.

(** Reading through a pointer or an index that may be out of range. *)
Definition deref {A} (o : option A) : M S A :=
  match o with Some a => ret a | None => fault end.

Definition when (b : bool) (m : M S unit) : M S unit := if b then m else ret tt.

(** [for (i in l) body(i)] *)
Fixpoint forM {B} (l : list B) (body : B -> M S unit) : M S unit :=
  match l with
  | [] => ret tt
  | i :: l => bind (body i) (fun _ => forM l body)
  end.

(** A loop that carries a local variable. *)
Fixpoint foldM {A B} (l : list B) (a : A) (body : A -> B -> M S A) : M S A :=
  match l with
  | [] => ret a
  | i :: l => bind (body a i) (fun a' => foldM l a' body)
  end.

End operations.

Arguments ret {S A} a s /.
Arguments bind {S A B} m k s /.
Arguments gets {S A} f s /.
Arguments modify {S} f s /.
Arguments panic {S A} msg s /.
Arguments blocked {S A} s /.
Arguments fault {S A} s /.

Declare Scope kernel_scope.
Delimit Scope kernel_scope with kernel.
Notation "'let!' x ':=' m 'in' k" := (bind m (fun x => k))
  (at level 10, x pattern, m at level 200, k at level 200) : kernel_scope.
Notation "m ;; k" := (bind m (fun _ => k))
  (at level 100, k at level 200, right associativity) : kernel_scope.
Open Scope kernel_scope.

(** ** Weakest preconditions *)

Definition wp {S A} (m : M S A) (Q : A -> S -> Prop) (s : S) : Prop :=
  match m s with Done a s' => Q a s' | _ => False end.

Section wp.
Context {S : Type}.
Implicit Types s : S.

Lemma wp_Done {A} (m : M S A) Q s : wp m Q s <-> exists a s', m s = Done a s' /\ Q a s'.
Proof.
  unfold wp. split.
  - destruct (m s); naive_solver.
  - intros (a & s' & -> & HQ). done.
Qed.

Lemma wp_mono {A} (m : M S A) (Q R : A -> S -> Prop) s :
  wp m Q s -> (forall a s', Q a s' -> R a s') -> wp m R s.
Proof. unfold wp. destruct (m s); naive_solver. Qed.

Lemma wp_ret {A} (a : A) Q s : Q a s -> wp (ret a) Q s.
Proof. done. Qed.
Lemma wp_bind {A B} (m : M S A) (k : A -> M S B) Q s :
  wp m (fun a s' => wp (k a) Q s') s -> wp (bind m k) Q s.
Proof. unfold wp, bind. destruct (m s); done. Qed.
Lemma wp_bind_inv {A B} (m : M S A) (k : A -> M S B) Q s :
  wp (bind m k) Q s -> wp m (fun a s' => wp (k a) Q s') s.
Proof. unfold wp, bind. destruct (m s); done. Qed.
Lemma wp_bind_assoc {A B C} (m : M S A) (k : A -> M S B) (h : B -> M S C) Q s :
  wp (bind (bind m k) h) Q s -> wp (bind m (fun a => bind (k a) h)) Q s.
Proof. unfold wp, bind. destruct (m s); done. Qed.
Lemma wp_gets {A} (f : S -> A) (Q : A -> S -> Prop) s : Q (f s) s -> wp (gets f) Q s.
Proof. done. Qed.
Lemma wp_modify (f : S -> S) (Q : unit -> S -> Prop) s : Q tt (f s) -> wp (modify f) Q s.
Proof. done. Qed.
Lemma wp_deref {A} (o : option A) a Q s : o = Some a -> Q a s -> wp (deref o) Q s.
Proof. intros ->. done. Qed.
Lemma wp_when (b : bool) m (Q : unit -> S -> Prop) s :
  (b = true -> wp m Q s) -> (b = false -> Q tt s) -> wp (when b m) Q s.
Proof. intros H1 H2. destruct b; simpl; [by apply H1|]. by apply wp_ret, H2. Qed.

Lemma wp_forM (I : Z -> S -> Prop) lo hi body (Q : unit -> S -> Prop) s :
  lo <= hi ->
  I lo s ->
  (forall i s', lo <= i < hi -> I i s' -> wp (body i) (fun _ s'' => I (i + 1) s'') s') ->
  (forall s', I hi s' -> Q tt s') ->
  wp (forM (range lo hi) body) Q s.
Proof.
  intros Hle HI Hbody HQ. remember (Z.to_nat (hi - lo)) as n eqn:Hn.
  revert lo s Hle Hn HI Hbody. induction n as [|n IH]; intros lo s Hle Hn HI Hbody.
  - assert (lo = hi) as -> by lia. rewrite range_nil by lia. by apply wp_ret, HQ.
  - rewrite range_cons by lia. simpl. apply wp_bind.
    eapply wp_mono; [apply Hbody; [lia|done]|].
    intros [] s' HI'. apply (IH (lo + 1)); [lia|lia|done|]. intros. apply Hbody; [lia|done].
Qed.

Lemma wp_foldM {A} (I : Z -> A -> S -> Prop) lo hi a body (Q : A -> S -> Prop) s :
  lo <= hi ->
  I lo a s ->
  (forall i a' s', lo <= i < hi -> I i a' s' -> wp (body a' i) (fun a'' s'' => I (i + 1) a'' s'') s') ->
  (forall a' s', I hi a' s' -> Q a' s') ->
  wp (foldM (range lo hi) a body) Q s.
Proof.
  intros Hle HI Hbody HQ. remember (Z.to_nat (hi - lo)) as n eqn:Hn.
  revert lo a s Hle Hn HI Hbody. induction n as [|n IH]; intros lo a s Hle Hn HI Hbody.
  - assert (lo = hi) as -> by lia. rewrite range_nil by lia. by apply wp_ret, HQ.
  - rewrite range_cons by lia. simpl. apply wp_bind.
    eapply wp_mono; [apply Hbody; [lia|done]|].
    intros a' s' HI'. apply (IH (lo + 1)); [lia|lia|done|]. intros. apply Hbody; [lia|done].
Qed.

(** A loop that only reads the state and folds a pure function. *)
Lemma wp_foldM_pure {A B} (l : list B) (f : A -> B -> A) (body : A -> B -> M S A) a
    (Q : A -> S -> Prop) s :
  (forall a' i, i ∈ l -> body a' i s = Done (f a' i) s) ->
  Q (fold_left f l a) s ->
  wp (foldM l a body) Q s.
Proof.
  revert a. induction l as [|i l IH]; intros a Hbody HQ; simpl in *; [done|].
  apply wp_bind. unfold wp. rewrite Hbody by set_solver. apply IH; [|done].
  intros. apply Hbody. set_solver.
Qed.

End wp.

(** Running code of one part of the state inside a larger state. *)
Definition lift {S T A} (get : T -> S) (put : S -> T -> T) (m : M S A) : M T A := fun t =>
  match m (get t) with
  | Done a s => Done a (put s t)
  | Panic msg s => Panic msg (put s t)
  | Blocked s => Blocked (put s t)
  | Fault s => Fault (put s t)
  end.

Lemma wp_lift {S T A} (get : T -> S) (put : S -> T -> T) (m : M S A) (Q : A -> T -> Prop) t :
  wp m (fun a s => Q a (put s t)) (get t) -> wp (lift get put m) Q t.
Proof. unfold wp, lift. by destruct (m (get t)). Qed.

(** One symbolic execution step. *)
Ltac wp_step :=
  match goal with
  | |- wp (ret _) _ _ => apply wp_ret
  | |- wp (bind _ _) _ _ => apply wp_bind
  | |- wp (gets _) _ _ => apply wp_gets
  | |- wp (modify _) _ _ => apply wp_modify
  end; cbv beta.
Ltac wp_steps := repeat wp_step.

(** A call whose specification is a lemma [wp m Q s]. *)
Tactic Notation "wp_use" uconstr(H) := eapply wp_mono; [eapply H|cbv beta].

(** ** Invariants of code on every outcome

    [keeps P m]: started in a state with [P], [m] leaves a state with [P],
    however it ends. *)

Definition all_outcomes {S A} (P : S -> Prop) (o : outcome S A) : Prop :=
  match o with Done _ s | Panic _ s | Blocked s | Fault s => P s end.
Definition keeps {S A} (P : S -> Prop) (m : M S A) : Prop := forall s, P s -> all_outcomes P (m s).

Section keeps.
Context {S : Type} (P : S -> Prop).

Lemma keeps_ret {A} (a : A) : keeps P (ret a).
Proof. by intros s Hs. Qed.
Lemma keeps_bind {A B} (m : M S A) (k : A -> M S B) : keeps P m -> (forall a, keeps P (k a)) -> keeps P (bind m k).
Proof. intros Hm Hk s Hs. specialize (Hm s Hs). unfold bind. destruct (m s); simpl in *; auto. by apply Hk. Qed.
Lemma keeps_gets {A} (f : S -> A) : keeps P (gets f).
Proof. by intros s Hs. Qed.
Lemma keeps_modify (f : S -> S) : (forall s, P s -> P (f s)) -> keeps P (modify f).
Proof. intros Hf s Hs. by apply Hf. Qed.
Lemma keeps_panic {A} msg : keeps P (panic (A := A) msg).
Proof. by intros s Hs. Qed.
Lemma keeps_blocked {A} : keeps P (blocked (A := A)).
Proof. by intros s Hs. Qed.
Lemma keeps_fault {A} : keeps P (fault (A := A)).
Proof. by intros s Hs. Qed.
Lemma keeps_deref {A} (o : option A) : keeps P (deref o).
Proof. destruct o; by intros s Hs. Qed.
Lemma keeps_if {A} (b : bool) (m1 m2 : M S A) : keeps P m1 -> keeps P m2 -> keeps P (if b then m1 else m2).
Proof. by destruct b. Qed.
Lemma keeps_forM {B} (l : list B) (body : B -> M S unit) : (forall i, keeps P (body i)) -> keeps P (forM l body).
Proof. intros Hb. induction l as [|i l IH]; [apply keeps_ret|by apply keeps_bind]. Qed.
Lemma keeps_foldM {A B} (l : list B) (a : A) (body : A -> B -> M S A) :
  (forall a i, keeps P (body a i)) -> keeps P (foldM l a body).
Proof. intros Hb. revert a. induction l as [|i l IH]; intros a; [apply keeps_ret|by apply keeps_bind]. Qed.
End keeps.

Lemma keeps_lift {S T A} (P : S -> Prop) (Q : T -> Prop) (get : T -> S) (put : S -> T -> T) (m : M S A) :
  keeps P m -> (forall t, Q t -> P (get t)) -> (forall s t, Q t -> P s -> Q (put s t)) -> keeps Q (lift get put m).
Proof.
  intros Hm Hget Hput t Ht. specialize (Hm (get t) (Hget t Ht)). unfold lift.
  destruct (m (get t)); simpl in *; by apply Hput.
Qed.

Create HintDb keeps.
#[export] Hint Resolve keeps_ret keeps_bind keeps_gets keeps_modify keeps_panic keeps_blocked keeps_fault
  keeps_deref keeps_if keeps_forM keeps_foldM : keeps.
