(* ===== verification/State.v ===== *)
(** * The kernel state the RAID code works on

    The build-time constants ([Config]), the structures of kernel/raid.h,
    spinlock.h and sleeplock.h, and the global variables of the kernel that
    the RAID code reads and writes, gathered in the record [State].

    The locks that C embeds in [struct DiskInfo], [struct DiskPair] and
    [struct RAID4Data] are kept in two maps of the state keyed by the place the
    lock lives at ([spinid], [sleepid]).  A [struct DiskInfo*] that points to
    [raidmeta.diskinfo[k]] is the index [k]. *)

From stdpp Require Import base numbers list gmap strings countable.
From Stdlib Require Import ZArith Lia.
From S2P Require Import Prelude Blocks Monad.
Open Scope Z_scope.

(** ** Build-time constants *)

(** [DISKS] and [DISK_SIZE_BYTES] are the [-D] macros of the Makefile; the
    other fields are addresses the linker chooses. *)
Class Config := {
  DISKS : Z;
  DISK_SIZE_BYTES : Z;
  kernel_end : Z;                  (* the symbol [end] of kernel.ld *)
  addr_raidmeta : Z;               (* &raidmeta *)
  addr_string : string -> Z;       (* the address of a string literal *)
  addr_raidread : Z -> Z;          (* the address of raid0read, raid1read, ... *)
  addr_raidwrite : Z -> Z;
}.

Definition PGSIZE : Z := 4096.
Definition KERNBASE : Z := 0x80000000.
Definition PHYSTOP : Z := KERNBASE + 32 * 1024 * 1024.
Definition CLUSTER_SIZE : Z := 128.

(** [enum RAID_TYPE] *)
Definition RAID0 : Z := 0.
Definition RAID1 : Z := 1.
Definition RAID0_1 : Z := 2.
Definition RAID4 : Z := 3.
Definition RAID5 : Z := 4.

Section config.
Context `{Config}.
(** The number of blocks of a disk, and the number of entries of
    [cluster_loaded]. *)
Definition nblocks : Z := DISK_SIZE_BYTES / BSIZE.
Definition nclusters : Z := nblocks / CLUSTER_SIZE.
End config.

(** What the development needs of the constants: the Makefile's range of
    [DISKS], disks of a whole number of clusters and small enough for the
    metadata to fit one block, and addresses of 64 bits, the functions'
    different from each other and from null. *)
Class ConfigOK `{Config} : Prop := {
  DISKS_range : 1 <= DISKS <= 8;
  disk_size_clusters : DISK_SIZE_BYTES = nclusters * (CLUSTER_SIZE * BSIZE);
  nclusters_range : 1 <= nclusters <= 400;
  kernel_end_range : KERNBASE < kernel_end < PHYSTOP;
  addr_raidmeta_range : 0 <= addr_raidmeta < 2 ^ 63;
  addr_string_range : forall x, 0 <= addr_string x < 2 ^ 64;
  addr_raidread_range : forall t, RAID0 <= t <= RAID5 -> 0 < addr_raidread t < 2 ^ 64;
  addr_raidwrite_range : forall t, RAID0 <= t <= RAID5 -> 0 < addr_raidwrite t < 2 ^ 64;
  addr_raidread_inj : forall t u, RAID0 <= t <= RAID5 -> RAID0 <= u <= RAID5 ->
    addr_raidread t = addr_raidread u -> t = u;
  addr_raidwrite_inj : forall t u, RAID0 <= t <= RAID5 -> RAID0 <= u <= RAID5 ->
    addr_raidwrite t = addr_raidwrite u -> t = u;
}.

(** ** Locks *)

(** [struct spinlock] *)
Record spinlock := mk_spinlock {
  sp_locked : Z;
  sp_name : Z;
  sp_cpu : Z;
}.

(** [struct sleeplock], whose [lk] is the spinlock [LkOf] of its place. *)
Record sleeplock := mk_sleeplock {
  sl_locked : Z;
  sl_name : Z;
  sl_pid : Z;
}.

(** Where a sleeplock lives: [raidmeta.diskinfo[i].lock] or the [clusterlock]
    of [raidmeta.data.raid4] and [raidmeta.data.raid5], which overlay each other. *)
Inductive sleepid :=
| DiskLock (i : Z)
| ClusterLock.

(** Where a spinlock lives: [kmem.lock], [diskpair[k].mutex], [repairlock], or
    the [lk] of a sleeplock. *)
Inductive spinid :=
| KmemLock
| PairMutex (k : Z)
| RepairLock
| LkOf (i : sleepid).

#[export] Instance sleepid_eq_dec : EqDecision sleepid.
Proof. solve_decision. Defined.
#[export] Instance sleepid_countable : Countable sleepid.
Proof.
  refine (inj_countable' (fun x => match x with DiskLock i => Some i | ClusterLock => None end)
    (fun o => match o with Some i => DiskLock i | None => ClusterLock end) _).
  by intros [].
Defined.
#[export] Instance spinid_eq_dec : EqDecision spinid.
Proof. solve_decision. Defined.
#[export] Instance spinid_countable : Countable spinid.
Proof.
  refine (inj_countable' (fun x => match x with
      | KmemLock => inl (inl ()) | RepairLock => inl (inr ())
      | PairMutex k => inr (inl k) | LkOf i => inr (inr i) end)
    (fun o => match o with
      | inl (inl _) => KmemLock | inl (inr _) => RepairLock
      | inr (inl k) => PairMutex k | inr (inr i) => LkOf i end) _).
  by intros [].
Defined.

Definition zero_spinlock : spinlock := mk_spinlock 0 0 0.
Definition zero_sleeplock : sleeplock := mk_sleeplock 0 0 0.

(** The part of [struct cpu] and of the hart that lock code uses. *)
Record cpu := mk_cpu {
  cpu_addr : Z;       (* mycpu() *)
  noff : Z;           (* depth of push_off() nesting *)
  intena : bool;      (* were interrupts enabled before push_off()? *)
  sie : bool;         (* sstatus.SIE: are interrupts enabled now? *)
}.

(** ** RAID metadata *)

Record DiskInfo := mk_DiskInfo {
  di_valid : Z;
  di_diskn : Z;
}.

Record DiskPair := mk_DiskPair {
  dp_disk0 : Z;
  dp_disk1 : Z;
  dp_writing : Z;
  dp_reading0 : Z;
  dp_reading1 : Z;
}.

(** [struct RAID4Data] and [struct RAID5Data], which have the same fields. *)
Record ParityData := mk_ParityData {
  pd_cluster_loaded : list Z;
  pd_writecount : Z;
  pd_repairing : Z;
}.

(** The union [raidmeta.data], by the member last initialised. *)
Inductive RAIDData :=
| DataNone
| DataPairs (ps : list DiskPair)
| DataParity (d : ParityData).

Record RAIDMeta := mk_RAIDMeta {
  rm_type : Z;
  rm_diskinfo : list DiskInfo;
  rm_isDestroyed : Z;
  rm_data : RAIDData;
  rm_read : Z;
  rm_write : Z;
}.

(** ** The state *)

Record State := mkState {
  st_cpu : cpu;
  st_pid : Z;                            (* myproc()->pid *)
  st_spin : gmap spinid spinlock;
  st_sleep : gmap sleepid sleeplock;
  st_free : list Z;                      (* kmem.freelist *)
  st_meta : RAIDMeta;                    (* raidmeta *)
  st_disk : gmap (Z * Z) block;          (* the RAID disks: (disk, block) *)
}.

Definition set_cpu (c : cpu) (s : State) : State :=
  mkState c (st_pid s) (st_spin s) (st_sleep s) (st_free s) (st_meta s) (st_disk s).
Definition set_spin (m : gmap spinid spinlock) (s : State) : State :=
  mkState (st_cpu s) (st_pid s) m (st_sleep s) (st_free s) (st_meta s) (st_disk s).
Definition set_sleep (m : gmap sleepid sleeplock) (s : State) : State :=
  mkState (st_cpu s) (st_pid s) (st_spin s) m (st_free s) (st_meta s) (st_disk s).
Definition set_free (l : list Z) (s : State) : State :=
  mkState (st_cpu s) (st_pid s) (st_spin s) (st_sleep s) l (st_meta s) (st_disk s).
Definition set_meta (m : RAIDMeta) (s : State) : State :=
  mkState (st_cpu s) (st_pid s) (st_spin s) (st_sleep s) (st_free s) m (st_disk s).
Definition set_disk (d : gmap (Z * Z) block) (s : State) : State :=
  mkState (st_cpu s) (st_pid s) (st_spin s) (st_sleep s) (st_free s) (st_meta s) d.

Abbreviation K := (M State).

(** The contents of block [b] of disk [d]; a disk image starts as zeroes. *)
Definition blk (s : State) (d b : Z) : block := default zblk (st_disk s !! (d, b)).

(** Field updates of [raidmeta]. *)
Definition set_type (t : Z) (m : RAIDMeta) : RAIDMeta :=
  mk_RAIDMeta t (rm_diskinfo m) (rm_isDestroyed m) (rm_data m) (rm_read m) (rm_write m).
Definition set_diskinfo (l : list DiskInfo) (m : RAIDMeta) : RAIDMeta :=
  mk_RAIDMeta (rm_type m) l (rm_isDestroyed m) (rm_data m) (rm_read m) (rm_write m).
Definition set_isDestroyed (z : Z) (m : RAIDMeta) : RAIDMeta :=
  mk_RAIDMeta (rm_type m) (rm_diskinfo m) z (rm_data m) (rm_read m) (rm_write m).
Definition set_data (d : RAIDData) (m : RAIDMeta) : RAIDMeta :=
  mk_RAIDMeta (rm_type m) (rm_diskinfo m) (rm_isDestroyed m) d (rm_read m) (rm_write m).
Definition set_fns (r w : Z) (m : RAIDMeta) : RAIDMeta :=
  mk_RAIDMeta (rm_type m) (rm_diskinfo m) (rm_isDestroyed m) (rm_data m) r w.
Definition mod_meta (f : RAIDMeta -> RAIDMeta) : K unit := modify (fun s => set_meta (f (st_meta s)) s).

(** Keeps a state that the rules build up as one record of updated fields. *)
Ltac norm_head st :=
  lazymatch st with
  | mkState _ _ _ _ _ _ _ => st
  | set_cpu ?x ?s => lazymatch norm_head s with
    | mkState _ ?b ?c ?d ?e ?f ?g => constr:(mkState x b c d e f g) end
  | set_spin ?x ?s => lazymatch norm_head s with
    | mkState ?a ?b _ ?d ?e ?f ?g => constr:(mkState a b x d e f g) end
  | set_sleep ?x ?s => lazymatch norm_head s with
    | mkState ?a ?b ?c _ ?e ?f ?g => constr:(mkState a b c x e f g) end
  | set_free ?x ?s => lazymatch norm_head s with
    | mkState ?a ?b ?c ?d _ ?f ?g => constr:(mkState a b c d x f g) end
  | set_meta ?x ?s => lazymatch norm_head s with
    | mkState ?a ?b ?c ?d ?e _ ?g => constr:(mkState a b c d e x g) end
  | set_disk ?x ?s => lazymatch norm_head s with
    | mkState ?a ?b ?c ?d ?e ?f _ => constr:(mkState a b c d e f x) end
  | ?s => constr:(mkState (st_cpu s) (st_pid s) (st_spin s) (st_sleep s) (st_free s) (st_meta s) (st_disk s))
  end.
Ltac norm_fields := cbn [st_cpu st_pid st_spin st_sleep st_free st_meta st_disk
                         set_cpu set_spin set_sleep set_free set_meta set_disk].
Ltac norm_term st :=
  let st1 := norm_head st in
  eval cbn [st_cpu st_pid st_spin st_sleep st_free st_meta st_disk
            set_cpu set_spin set_sleep set_free set_meta set_disk] in st1.
Ltac norm_state :=
  lazymatch goal with
  | |- wp ?m ?Q ?st =>
    tryif is_var st then idtac
    else (let st' := norm_term st in change (wp m Q st'))
  | |- _ => idtac
  end.

Lemma state_eq s t : st_cpu s = st_cpu t -> st_pid s = st_pid t -> st_spin s = st_spin t ->
  st_sleep s = st_sleep t -> st_free s = st_free t -> st_meta s = st_meta t ->
  st_disk s = st_disk t -> s = t.
Proof. destruct s, t; simpl. by intros -> -> -> -> -> -> ->. Qed.
Ltac state_eq := apply state_eq; norm_fields; try done.
Ltac kstep := wp_steps; norm_state.

Lemma set_data_id d m : rm_data m = d -> set_data d m = m.
Proof. destruct m; simpl. by intros ->. Qed.
