(* ===== verification/Locks.v ===== *)
(** * Spinlocks and sleeplocks

    kernel/spinlock.c and kernel/sleeplock.c, run by one thread of control:
    an [acquire] of a lock that another cpu holds spins for ever and a
    [sleep] waits for a [wakeup] by another process, so both are [Blocked]
    here. *)

From stdpp Require Import base numbers list gmap strings.
From Stdlib Require Import ZArith Lia.
From S2P Require Import Prelude Blocks Monad State.
Open Scope Z_scope.

(** ** spinlock.c *)

Definition initlock (i : spinid) (name : Z) : K unit :=
  modify (fun s => set_spin (<[i := mk_spinlock 0 name 0]> (st_spin s)) s).

Definition holding (i : spinid) : K bool :=
  let! lk := bind (gets (fun s => st_spin s !! i)) deref in
  let! c := gets st_cpu in
  ret (negb (sp_locked lk =? 0) && (sp_cpu lk =? cpu_addr c)).

Definition push_off : K unit :=
  let! c := gets st_cpu in
  let old := sie c in
  let c := mk_cpu (cpu_addr c) (noff c) (intena c) false in
  let c := if noff c =? 0 then mk_cpu (cpu_addr c) (noff c) old (sie c) else c in
  modify (set_cpu (mk_cpu (cpu_addr c) (noff c + 1) (intena c) (sie c))).

Definition pop_off : K unit :=
  let! c := gets st_cpu in
  if sie c then panic "pop_off - interruptible"
  else if noff c <? 1 then panic "pop_off"
  else
    let c := mk_cpu (cpu_addr c) (noff c - 1) (intena c) (sie c) in
    modify (set_cpu (if (noff c =? 0) && intena c
                     then mk_cpu (cpu_addr c) (noff c) (intena c) true else c)).

Definition acquire (i : spinid) : K unit :=
  push_off;;
  let! h := holding i in
  if h : bool then panic "acquire"
  else
    let! lk := bind (gets (fun s => st_spin s !! i)) deref in
    if negb (sp_locked lk =? 0) then blocked
    else modify (fun s =>
      set_spin (<[i := mk_spinlock 1 (sp_name lk) (cpu_addr (st_cpu s))]> (st_spin s)) s).

Definition release (i : spinid) : K unit :=
  let! h := holding i in
  if negb h then panic "release"
  else
    let! lk := bind (gets (fun s => st_spin s !! i)) deref in
    modify (fun s => set_spin (<[i := mk_spinlock 0 (sp_name lk) 0]> (st_spin s)) s);;
    pop_off.

(** proc.c: [sleep] gives up the lock and the cpu until another process calls
    [wakeup]; what follows a [sleep] runs only after that.  [wakeup] changes
    the state of other processes only. *)
Definition sleep {A} (lk : spinid) : K A := release lk;; blocked.
Definition wakeup : K unit := ret tt.

(** ** sleeplock.c *)

Section sleeplock.
Context `{Config}.

Definition initsleeplock (i : sleepid) (name : Z) : K unit :=
  initlock (LkOf i) (addr_string "sleep lock");;
  modify (fun s => set_sleep (<[i := mk_sleeplock 0 name 0]> (st_sleep s)) s).
End sleeplock.

Definition acquiresleep (i : sleepid) : K unit :=
  acquire (LkOf i);;
  let! lk := bind (gets (fun s => st_sleep s !! i)) deref in
  (if negb (sl_locked lk =? 0) then sleep (LkOf i) else ret tt);;
  modify (fun s => set_sleep (<[i := mk_sleeplock 1 (sl_name lk) (st_pid s)]> (st_sleep s)) s);;
  release (LkOf i).

Definition releasesleep (i : sleepid) : K unit :=
  acquire (LkOf i);;
  let! lk := bind (gets (fun s => st_sleep s !! i)) deref in
  modify (fun s => set_sleep (<[i := mk_sleeplock 0 (sl_name lk) 0]> (st_sleep s)) s);;
  wakeup;;
  release (LkOf i).

Definition holdingsleep (i : sleepid) : K bool :=
  acquire (LkOf i);;
  let! lk := bind (gets (fun s => st_sleep s !! i)) deref in
  let! s := gets id in
  release (LkOf i);;
  ret (negb (sl_locked lk =? 0) && (sl_pid lk =? st_pid s)).

(** ** A cpu outside any critical section *)

Definition cpu_quiet (c : cpu) : Prop :=
  noff c = 0 /\ intena c = sie c /\ cpu_addr c <> 0.

Definition cpu_inside (c : cpu) : cpu := mk_cpu (cpu_addr c) 1 (intena c) false.

Definition free_spin (s : State) (i : spinid) : Prop :=
  exists n, st_spin s !! i = Some (mk_spinlock 0 n 0).
Definition free_sleep (s : State) (i : sleepid) : Prop :=
  free_spin s (LkOf i) /\ exists n, st_sleep s !! i = Some (mk_sleeplock 0 n 0).

Definition spin_held (i : spinid) (s : State) : State :=
  match st_spin s !! i with
  | Some lk => set_cpu (cpu_inside (st_cpu s))
      (set_spin (<[i := mk_spinlock 1 (sp_name lk) (cpu_addr (st_cpu s))]> (st_spin s)) s)
  | None => s
  end.

Lemma set_spin_id s : set_spin (st_spin s) s = s.
Proof. by destruct s. Qed.
Lemma set_sleep_id s : set_sleep (st_sleep s) s = s.
Proof. by destruct s. Qed.
Lemma set_disk_id s : set_disk (st_disk s) s = s.
Proof. by destruct s. Qed.
Lemma set_meta_id s : set_meta (st_meta s) s = s.
Proof. by destruct s. Qed.
Lemma set_free_id s : set_free (st_free s) s = s.
Proof. by destruct s. Qed.

(** [acquire] of a free lock by a cpu outside critical sections. *)
Lemma acquire_free s i : cpu_quiet (st_cpu s) -> free_spin s i ->
  acquire i s = Done tt (spin_held i s).
Proof.
  intros (Hn & Hi & Ha) [n Hlk]. destruct s as [[a no ie si] pid sp sl fr me di]; simpl in *.
  subst no si. unfold acquire, push_off, holding, spin_held. simpl. rewrite Hlk. simpl.
  rewrite Hlk.
  done.
Qed.

(** [release] undoes it exactly, whatever the critical section did to the
    rest of the state. *)
Lemma release_held s i n c :
  cpu_quiet c -> st_cpu s = cpu_inside c ->
  st_spin s !! i = Some (mk_spinlock 1 n (cpu_addr c)) ->
  release i s = Done tt (set_cpu c (set_spin (<[i := mk_spinlock 0 n 0]> (st_spin s)) s)).
Proof.
  intros (Hn & Hi & Ha) Hc Hlk. destruct s as [c' pid sp sl fr me di]; simpl in *. subst c'.
  destruct c as [a no ie si]; simpl in *. subst no si.
  unfold release, pop_off, holding. simpl.
  rewrite Hlk. simpl. rewrite Z.eqb_refl. simpl. rewrite Hlk. simpl. by destruct ie.
Qed.

Lemma acquiresleep_free s i n : cpu_quiet (st_cpu s) -> free_spin s (LkOf i) ->
  st_sleep s !! i = Some (mk_sleeplock 0 n 0) ->
  acquiresleep i s = Done tt (set_sleep (<[i := mk_sleeplock 1 n (st_pid s)]> (st_sleep s)) s).
Proof.
  intros Hc Hf Hs. unfold acquiresleep. simpl. rewrite acquire_free by done.
  destruct Hf as [m Hm]. unfold spin_held. rewrite Hm.
  simpl. rewrite Hs. simpl.
  erewrite release_held; [|done|done|simpl; apply lookup_insert_eq].
  simpl. rewrite insert_insert_eq, insert_id by done. by destruct s.
Qed.

Lemma releasesleep_held s i l n p : cpu_quiet (st_cpu s) -> free_spin s (LkOf i) ->
  st_sleep s !! i = Some (mk_sleeplock l n p) ->
  releasesleep i s = Done tt (set_sleep (<[i := mk_sleeplock 0 n 0]> (st_sleep s)) s).
Proof.
  intros Hc Hf Hs. unfold releasesleep. simpl. rewrite acquire_free by done.
  destruct Hf as [m Hm]. unfold spin_held. rewrite Hm.
  simpl. rewrite Hs. simpl.
  erewrite release_held; [|done|done|simpl; apply lookup_insert_eq].
  simpl. rewrite insert_insert_eq, insert_id by done. by destruct s.
Qed.

(** A sleeplock that is held blocks the next [acquiresleep]. *)
Lemma acquiresleep_blocks s i l n p : cpu_quiet (st_cpu s) -> free_spin s (LkOf i) ->
  st_sleep s !! i = Some (mk_sleeplock l n p) -> l <> 0 ->
  acquiresleep i s = Blocked s.
Proof.
  intros Hc Hf Hs Hl. unfold acquiresleep. simpl. rewrite acquire_free by done.
  destruct Hf as [m Hm]. unfold spin_held. rewrite Hm.
  simpl. rewrite Hs. simpl.
  rewrite (proj2 (Z.eqb_neq l 0) Hl). simpl. unfold sleep. simpl.
  erewrite release_held; [|done|done|simpl; apply lookup_insert_eq].
  simpl. rewrite insert_insert_eq, insert_id by done. by destruct s.
Qed.

(** ** Proof rules

    Each rule gives the state after the call as an update of the state before;
    the rules for the releases undo the update of the matching acquire, so a
    balanced section restores the lock maps and the cpu exactly. *)

Lemma wp_acquire i n (Q : unit -> State -> Prop) s :
  cpu_quiet (st_cpu s) -> st_spin s !! i = Some (mk_spinlock 0 n 0) ->
  Q tt (set_cpu (cpu_inside (st_cpu s))
         (set_spin (<[i := mk_spinlock 1 n (cpu_addr (st_cpu s))]> (st_spin s)) s)) ->
  wp (acquire i) Q s.
Proof.
  intros Hc Hn HQ. unfold wp. rewrite acquire_free by (try done; by eexists).
  unfold spin_held. by rewrite Hn.
Qed.

Lemma wp_release i n c m0 (Q : unit -> State -> Prop) s :
  cpu_quiet c -> st_cpu s = cpu_inside c ->
  m0 !! i = Some (mk_spinlock 0 n 0) ->
  st_spin s = <[i := mk_spinlock 1 n (cpu_addr c)]> m0 ->
  Q tt (set_cpu c (set_spin m0 s)) ->
  wp (release i) Q s.
Proof.
  intros Hc Hcpu Hm Hsp HQ. unfold wp.
  erewrite release_held; [|done|done|rewrite Hsp; apply lookup_insert_eq].
  by rewrite Hsp, insert_insert_eq, insert_id.
Qed.

Lemma wp_acquiresleep i n (Q : unit -> State -> Prop) s :
  cpu_quiet (st_cpu s) -> free_spin s (LkOf i) -> st_sleep s !! i = Some (mk_sleeplock 0 n 0) ->
  Q tt (set_sleep (<[i := mk_sleeplock 1 n (st_pid s)]> (st_sleep s)) s) ->
  wp (acquiresleep i) Q s.
Proof. intros. unfold wp. by erewrite acquiresleep_free. Qed.

Lemma wp_releasesleep i l n p (Q : unit -> State -> Prop) s :
  cpu_quiet (st_cpu s) -> free_spin s (LkOf i) -> st_sleep s !! i = Some (mk_sleeplock l n p) ->
  Q tt (set_sleep (<[i := mk_sleeplock 0 n 0]> (st_sleep s)) s) ->
  wp (releasesleep i) Q s.
Proof. intros. unfold wp. by erewrite releasesleep_held. Qed.

Lemma wp_unlock i n p m0 (Q : unit -> State -> Prop) s :
  cpu_quiet (st_cpu s) -> free_spin s (LkOf i) ->
  m0 !! i = Some (mk_sleeplock 0 n 0) -> st_sleep s = <[i := mk_sleeplock 1 n p]> m0 ->
  Q tt (set_sleep m0 s) ->
  wp (releasesleep i) Q s.
Proof.
  intros Hc Hf Hm Hs HQ. eapply wp_releasesleep; [done|done|rewrite Hs; apply lookup_insert_eq|].
  by rewrite Hs, insert_insert_eq, insert_id.
Qed.
