(* ===== verification/Kalloc.v ===== *)
(** * The physical page allocator: kernel/kalloc.c

    [kmem.freelist] is the list of the addresses of the free pages, the head
    of the C list first.  The junk that [kalloc] and [kfree] fill a page with
    is not part of the state: no page content is. *)

From stdpp Require Import base numbers list gmap strings.
From Stdlib Require Import ZArith Lia.
From S2P Require Import Prelude Blocks Monad State Locks.
Open Scope Z_scope.

Section kalloc.
Context `{Config}.

Definition PGROUNDUP (sz : Z) : Z := Z.land (u64 (sz + PGSIZE - 1)) (Z.lnot (PGSIZE - 1)).

Definition kfree (pa : Z) : K unit :=
  if negb (pa mod PGSIZE =? 0) || (pa <? kernel_end) || (PHYSTOP <=? pa) then panic "kfree"
  else
    acquire KmemLock;;
    modify (fun s => set_free (pa :: st_free s) s);;
    release KmemLock.

(** [for(; p + PGSIZE <= pa_end; p += PGSIZE) kfree(p)] from [p = PGROUNDUP(pa_start)] *)
Definition pages (pa_start pa_end : Z) : list Z :=
  let p := PGROUNDUP pa_start in
  map (fun k => p + k * PGSIZE) (range 0 ((pa_end - p) / PGSIZE)).

Definition freerange (pa_start pa_end : Z) : K unit := forM (pages pa_start pa_end) kfree.

Definition kinit : K unit :=
  initlock KmemLock (addr_string "kmem");;
  freerange kernel_end PHYSTOP.

(** Returns the address of the page, 0 if there is none. *)
Definition kalloc : K Z :=
  acquire KmemLock;;
  let! l := gets st_free in
  match l with
  | [] => release KmemLock;; ret 0
  | r :: next => modify (set_free next);; release KmemLock;; ret r
  end.

(** ** Properties *)

Definition page_ok (pa : Z) : Prop := pa mod PGSIZE = 0 /\ kernel_end <= pa < PHYSTOP.

Definition free_wf (s : State) : Prop := NoDup (st_free s) /\ Forall page_ok (st_free s).

Lemma kfree_done s pa : cpu_quiet (st_cpu s) -> free_spin s KmemLock -> page_ok pa ->
  kfree pa s = Done tt (set_free (pa :: st_free s) s).
Proof.
  intros Hc Hf [Ha Hr]. unfold kfree.
  rewrite (proj2 (Z.eqb_eq _ _) Ha).
  destruct (Z.ltb_spec pa kernel_end); [lia|]. destruct (Z.leb_spec PHYSTOP pa); [lia|]. simpl.
  rewrite acquire_free by done. destruct Hf as [n Hn]. unfold spin_held. rewrite Hn. simpl.
  erewrite release_held; [|done|done|simpl; apply lookup_insert_eq].
  simpl. rewrite insert_insert_eq, insert_id by done. by destruct s.
Qed.

Lemma kalloc_done s : cpu_quiet (st_cpu s) -> free_spin s KmemLock ->
  kalloc s = match st_free s with
             | [] => Done 0 s
             | r :: next => Done r (set_free next s)
             end.
Proof.
  intros Hc Hf. unfold kalloc. simpl. rewrite acquire_free by done.
  destruct Hf as [n Hn]. unfold spin_held. rewrite Hn. simpl.
  destruct (st_free s) as [|r next] eqn:Hs; simpl;
    (erewrite release_held; [|done|done|simpl; apply lookup_insert_eq]);
    simpl; rewrite insert_insert_eq, insert_id by done; destruct s; simpl in *; by subst.
Qed.

(** A page that a function allocates and frees leaves the state as it was:
    the pattern of every RAID routine that needs scratch buffers. *)
Lemma free_after_alloc s r next : st_free s = r :: next -> set_free (r :: next) (set_free next s) = s.
Proof. destruct s; simpl. by intros ->. Qed.

Lemma page_nonzero `{!ConfigOK} pa : page_ok pa -> pa <> 0.
Proof. intros [_ Hp]. pose proof kernel_end_range. unfold KERNBASE in *. lia. Qed.

Lemma PGROUNDUP_spec sz : 0 <= sz < 2 ^ 63 ->
  PGROUNDUP sz mod PGSIZE = 0 /\ sz <= PGROUNDUP sz < sz + PGSIZE.
Proof.
  intros Hr. unfold PGROUNDUP, PGSIZE. rewrite u64_small by lia.
  change (Z.lnot (4096 - 1)) with (Z.lnot (Z.ones 12)).
  rewrite <- Z.ldiff_land, Z.ldiff_ones_r, Z.shiftl_mul_pow2, Z.shiftr_div_pow2 by lia.
  change (2 ^ 12) with 4096. rewrite Z_mod_mult. split; [done|].
  pose proof (Z.div_mod (sz + 4096 - 1) 4096 ltac:(lia)).
  pose proof (Z.mod_pos_bound (sz + 4096 - 1) 4096 ltac:(lia)). lia.
Qed.

Lemma pages_ok `{!ConfigOK} : Forall page_ok (pages kernel_end PHYSTOP).
Proof.
  unfold pages. apply Forall_forall. intros pa (k & -> & Hk%elem_of_range)%list_elem_of_fmap.
  pose proof kernel_end_range as He. unfold PHYSTOP, KERNBASE in *.
  destruct (PGROUNDUP_spec kernel_end) as [Hm Hb]; [lia|].
  unfold page_ok, PGSIZE, PHYSTOP, KERNBASE in *. split.
  - rewrite Z.add_mod, Hm, Z_mod_mult by lia. done.
  - pose proof (Z.mul_div_le (0x80000000 + 32 * 1024 * 1024 - PGROUNDUP kernel_end) 4096 ltac:(lia)).
    nia.
Qed.

Lemma pages_NoDup lo hi : NoDup (pages lo hi).
Proof.
  unfold pages. apply NoDup_fmap; [|apply range_NoDup].
  intros x y Hxy. unfold PGSIZE in Hxy. lia.
Qed.

Lemma freerange_done l s : cpu_quiet (st_cpu s) -> free_spin s KmemLock -> Forall page_ok l ->
  forM l kfree s = Done tt (set_free (reverse l ++ st_free s) s).
Proof.
  revert s. induction l as [|pa l IH]; intros s Hc Hf Hl; simpl; [by destruct s|].
  inversion Hl as [|x y Hpa Hl']; subst. rewrite kfree_done by done.
  rewrite IH by done. simpl. rewrite reverse_cons, <- app_assoc. done.
Qed.

(** Every page-aligned address from the end of the kernel to PHYSTOP is one of
    the pages [freerange] visits. *)
Lemma page_in_pages `{!ConfigOK} pa : page_ok pa -> pa ∈ pages kernel_end PHYSTOP.
Proof.
  intros [Hm Hr]. pose proof kernel_end_range as He. unfold PHYSTOP, KERNBASE, PGSIZE in *.
  destruct (PGROUNDUP_spec kernel_end) as [Hm' Hb]; [lia|].
  unfold pages. apply list_elem_of_fmap. unfold PGSIZE in *.
  exists ((pa - PGROUNDUP kernel_end) / 4096).
  generalize dependent (PGROUNDUP kernel_end). intros p Hm' Hb.
  assert (Hd : (pa - p) mod 4096 = 0) by (rewrite Zminus_mod, Hm, Hm'; done).
  pose proof (Z.div_mod (pa - p) 4096 ltac:(lia)).
  pose proof (Z.div_mod (0x80000000 + 32 * 1024 * 1024 - p) 4096 ltac:(lia)).
  pose proof (Z.mod_pos_bound (0x80000000 + 32 * 1024 * 1024 - p) 4096 ltac:(lia)).
  assert ((0x80000000 + 32 * 1024 * 1024 - p) mod 4096 = 0)
    by (rewrite Zminus_mod, Hm'; done).
  split; [lia|]. apply elem_of_range. lia.
Qed.

(** After [kinit] the free list holds every page between the end of the kernel
    and PHYSTOP exactly once, and nothing else. *)
Lemma kinit_free_list `{!ConfigOK} s : cpu_quiet (st_cpu s) -> st_free s = [] ->
  wp kinit (fun _ s' => NoDup (st_free s') /\ (forall pa, pa ∈ st_free s' <-> page_ok pa)) s.
Proof.
  intros Hc He. unfold kinit, initlock. wp_steps. unfold freerange, wp.
  rewrite freerange_done; [|done|eexists; apply lookup_insert_eq|apply pages_ok].
  simpl. rewrite He, app_nil_r. split; [rewrite reverse_Permutation; apply pages_NoDup|].
  intros pa. rewrite reverse_Permutation. split; [|apply page_in_pages].
  intros Hpa. pose proof pages_ok as Hf. rewrite Forall_forall in Hf. auto.
Qed.

(** [kalloc] hands out a page that is no longer free, so it is never handed
    out twice; it returns 0 only when no page is left. *)
Lemma kalloc_fresh `{!ConfigOK} s : cpu_quiet (st_cpu s) -> free_spin s KmemLock -> free_wf s ->
  wp kalloc (fun r s' => free_wf s' /\
    ((r = 0) <-> (st_free s = [])) /\
    (r <> 0 -> page_ok r /\ (r ∉ st_free s') /\ st_free s = (r :: st_free s'))) s.
Proof.
  intros Hc Hf [Hnd Hok]. unfold wp. rewrite kalloc_done by done.
  destruct (st_free s) as [|r next] eqn:Hs.
  - unfold free_wf. rewrite Hs. naive_solver.
  - inversion Hnd; subst. inversion Hok; subst. pose proof (page_nonzero r ltac:(done)).
    unfold free_wf. simpl. naive_solver.
Qed.

End kalloc.
