(* ===== verification/Codec.v ===== *)
(** * The byte layout of C structures

    [memmove(data, &raidmeta, sizeof(raidmeta))] stores the bytes of a struct.
    A [codec] is the layout of one C type: its size, the bytes of a value, and
    the value some bytes hold.  Its law, [CodecOK], is that reading back what
    was stored gives the value stored, cut to the width of the type; zeroed
    memory holds the value of [CodecZero].  Layouts of structs and arrays are
    composed from those of their fields, and their laws with them. *)

From stdpp Require Import base numbers list.
From Stdlib Require Import ZArith Lia.
From S2P Require Import Prelude Blocks.
Open Scope Z_scope.

Record codec (A : Type) := mk_codec {
  c_size : nat;
  c_enc : A -> list Z;
  c_dec : list Z -> A;
  c_wf : A -> Prop;                (* arrays have the length of the type *)
  c_norm : A -> A;                 (* the value the type can hold *)
}.
Arguments mk_codec {A}.
Arguments c_size {A} c.
Arguments c_enc {A} c a.
Arguments c_dec {A} c l.
Arguments c_wf {A} c a.
Arguments c_norm {A} c a.

Class CodecOK {A} (c : codec A) : Prop := {
  enc_length : forall a, c_wf c a -> length (c_enc c a) = c_size c;
  dec_enc : forall a rest, c_wf c a -> c_dec c (c_enc c a ++ rest) = c_norm c a;
}.

(** The value of zeroed memory. *)
Class CodecZero {A} (c : codec A) (z : A) : Prop :=
  dec_zero : forall k, (c_size c <= k)%nat -> c_dec c (replicate k 0) = z.

(** ** Little-endian integers *)

Fixpoint le_bytes (n : nat) (z : Z) : list Z :=
  match n with
  | O => []
  | S n => z mod 256 :: le_bytes n (z / 256)
  end.

Fixpoint le_val (l : list Z) : Z :=
  match l with
  | [] => 0
  | b :: l => b + 256 * le_val l
  end.

Lemma le_bytes_length n z : length (le_bytes n z) = n.
Proof. revert z. induction n; simpl; auto. Qed.

Lemma le_val_bytes n z : le_val (le_bytes n z) = z mod 256 ^ Z.of_nat n.
Proof.
  revert z. induction n as [|n IH]; intros z; cbn [le_bytes le_val].
  - change (256 ^ Z.of_nat 0) with 1. by rewrite Z.mod_1_r.
  - rewrite IH, Nat2Z.inj_succ, Z.pow_succ_r by lia.
    rewrite (Z.rem_mul_r z 256) by (try apply Z.pow_nonzero; try apply Z.pow_pos_nonneg; lia). done.
Qed.

Lemma le_val_zero k : le_val (replicate k 0) = 0.
Proof. induction k; cbn [replicate le_val]; lia. Qed.

Definition c_uint (n : nat) : codec Z :=
  mk_codec n (le_bytes n) (fun l => le_val (take n l)) (fun _ => True)
    (fun z => z mod 256 ^ Z.of_nat n).

#[export] Instance c_uint_ok n : CodecOK (c_uint n).
Proof.
  constructor; cbn [c_uint c_size c_enc c_dec c_norm]; intros.
  - apply le_bytes_length.
  - rewrite take_app_length' by (by rewrite le_bytes_length). apply le_val_bytes.
Qed.

#[export] Instance c_uint_zero n : CodecZero (c_uint n) 0.
Proof. intros k _. cbn [c_uint c_dec]. rewrite take_replicate. apply le_val_zero. Qed.

(** [int], in two's complement. *)
Definition c_int : codec Z :=
  mk_codec 4 (fun z => le_bytes 4 (u32 z)) (fun l => i32 (le_val (take 4 l))) (fun _ => True) i32.

#[export] Instance c_int_ok : CodecOK c_int.
Proof.
  constructor; cbn [c_int c_size c_enc c_dec c_norm]; intros.
  - apply le_bytes_length.
  - rewrite take_app_length' by (by rewrite le_bytes_length).
    rewrite le_val_bytes. change (256 ^ Z.of_nat 4) with (2 ^ 32). unfold i32, u32.
    rewrite Z.mod_mod by lia. by rewrite Zplus_mod_idemp_l.
Qed.

#[export] Instance c_int_zero : CodecZero c_int 0.
Proof. intros k _. cbn [c_int c_dec]. rewrite take_replicate, le_val_zero. done. Qed.

(** ** Padding, structs, arrays *)

Definition c_pad (n : nat) : codec unit :=
  mk_codec n (fun _ => replicate n 0) (fun _ => tt) (fun _ => True) (fun _ => tt).

#[export] Instance c_pad_ok n : CodecOK (c_pad n).
Proof. constructor; simpl; intros; [apply length_replicate|done]. Qed.
#[export] Instance c_pad_zero n : CodecZero (c_pad n) tt.
Proof. done. Qed.

Definition c_pair {A B} (c1 : codec A) (c2 : codec B) : codec (A * B) :=
  mk_codec (c_size c1 + c_size c2)
    (fun p => c_enc c1 p.1 ++ c_enc c2 p.2)
    (fun l => (c_dec c1 l, c_dec c2 (drop (c_size c1) l)))
    (fun p => c_wf c1 p.1 /\ c_wf c2 p.2)
    (fun p => (c_norm c1 p.1, c_norm c2 p.2)).

#[export] Instance c_pair_ok {A B} (c1 : codec A) (c2 : codec B) :
  CodecOK c1 -> CodecOK c2 -> CodecOK (c_pair c1 c2).
Proof.
  intros H1 H2. constructor; simpl.
  - intros [a b] [Ha Hb]; simpl in *. rewrite length_app, !enc_length by done. done.
  - intros [a b] rest [Ha Hb]; simpl in *. rewrite <- app_assoc, dec_enc by done.
    rewrite drop_app_length' by (by rewrite enc_length). by rewrite dec_enc.
Qed.

#[export] Instance c_pair_zero {A B} (c1 : codec A) (c2 : codec B) z1 z2 :
  CodecZero c1 z1 -> CodecZero c2 z2 -> CodecZero (c_pair c1 c2) (z1, z2).
Proof.
  intros H1 H2 k Hk. simpl in *. rewrite drop_replicate, (dec_zero (c := c1)), (dec_zero (c := c2)) by lia. done.
Qed.

(** [T a[n]] *)
Fixpoint dec_array {A} (c : codec A) (n : nat) (l : list Z) : list A :=
  match n with
  | O => []
  | S n => c_dec c l :: dec_array c n (drop (c_size c) l)
  end.

Definition c_array {A} (n : nat) (c : codec A) : codec (list A) :=
  mk_codec (n * c_size c) (fun x => concat (map (c_enc c) x)) (dec_array c n)
    (fun x => length x = n /\ Forall (c_wf c) x) (map (c_norm c)).

#[export] Instance c_array_ok {A} n (c : codec A) : CodecOK c -> CodecOK (c_array n c).
Proof.
  intros Hc. constructor; simpl.
  - intros a [Hl Hf]. subst n. induction Hf; simpl; [done|].
    rewrite length_app, enc_length by done. lia.
  - intros a rest [Hl Hf]. subst n. revert rest. induction Hf; simpl; intros; [done|].
    rewrite <- app_assoc, dec_enc by done.
    rewrite drop_app_length' by (by rewrite enc_length). by rewrite IHHf.
Qed.

#[export] Instance c_array_zero {A} n (c : codec A) z : CodecZero c z -> CodecZero (c_array n c) (replicate n z).
Proof.
  intros Hz. induction n as [|n IH]; intros k Hk; simpl in *; [done|].
  rewrite drop_replicate, (dec_zero (c := c)) by lia. f_equal. apply IH. simpl. lia.
Qed.

(** A record as the tuple of its fields. *)
Definition c_iso {A B} (f : B -> A) (g : A -> B) (c : codec A) : codec B :=
  mk_codec (c_size c) (fun b => c_enc c (f b)) (fun l => g (c_dec c l))
    (fun b => c_wf c (f b)) (fun b => g (c_norm c (f b))).

#[export] Instance c_iso_ok {A B} (f : B -> A) (g : A -> B) (c : codec A) :
  CodecOK c -> CodecOK (c_iso f g c).
Proof.
  intros Hc. constructor; simpl.
  - intros b Hb. by apply enc_length.
  - intros b rest Hb. by rewrite dec_enc.
Qed.

#[export] Instance c_iso_zero {A B} (f : B -> A) (g : A -> B) (c : codec A) z :
  CodecZero c z -> CodecZero (c_iso f g c) (g z).
Proof. intros Hz k Hk. simpl in *. by rewrite (dec_zero (c := c)). Qed.

(** Raw bytes, the storage of a union. *)
Definition c_bytes (n : nat) : codec (list Z) :=
  mk_codec n (fun l => l) (take n) (fun l => length l = n) (fun l => l).

#[export] Instance c_bytes_ok n : CodecOK (c_bytes n).
Proof. constructor; simpl; [done|]. intros a rest Ha. by apply take_app_length'. Qed.
#[export] Instance c_bytes_zero n : CodecZero (c_bytes n) (replicate n 0).
Proof. intros k Hk. simpl in *. rewrite take_replicate. f_equal. lia. Qed.

Declare Scope codec_scope.
Delimit Scope codec_scope with codec.
Infix ">>" := c_pair (at level 60, right associativity) : codec_scope.
