(* ===== verification/Mem.v ===== *)
(** * Byte-addressed memory

    The memory the kernel's string and copy routines work on: a finite map
    from addresses to bytes.  An address outside the map is not accessible,
    and touching it is a [Fault]. *)

From stdpp Require Import base numbers list gmap.
From Stdlib Require Import ZArith Lia.
From S2P Require Import Prelude Blocks Monad Codec.
Open Scope Z_scope.

Abbreviation mem := (gmap Z Z).

Definition load (a : Z) : M mem Z := bind (gets (fun m => m !! a)) deref.
Definition store (a v : Z) : M mem unit :=
  let! _ := load a in modify (fun m => <[a := u8 v]> m).

(** The bytes [l] are at address [a]. *)
Definition bytes_at (m : mem) (a : Z) (l : list Z) : Prop :=
  forall i b, l !! i = Some b -> m !! (a + Z.of_nat i) = Some b.

(** [n] accessible bytes at address [a]. *)
Definition mapped (m : mem) (a n : Z) : Prop :=
  forall x, a <= x < a + n -> is_Some (m !! x).

Fixpoint write_bytes (m : mem) (a : Z) (l : list Z) : mem :=
  match l with
  | [] => m
  | b :: l => write_bytes (<[a := b]> m) (a + 1) l
  end.

Section lemmas.
Implicit Types m : mem.

Lemma load_done m a b : m !! a = Some b -> load a m = Done b m.
Proof. intros Hm. unfold load. simpl. by rewrite Hm. Qed.
Lemma store_done m a v : is_Some (m !! a) -> store a v m = Done tt (<[a := u8 v]> m).
Proof. intros [b Hb]. unfold store. simpl. by rewrite (load_done _ _ _ Hb). Qed.

Lemma bind_load {B} (k : Z -> M mem B) m a b : m !! a = Some b -> bind (load a) k m = k b m.
Proof. intros Hm. unfold bind. by rewrite (load_done _ _ _ Hm). Qed.
Lemma wp_load a b (Q : Z -> mem -> Prop) m : m !! a = Some b -> Q b m -> wp (load a) Q m.
Proof. intros Hm HQ. unfold wp. by rewrite (load_done _ _ _ Hm). Qed.
Lemma wp_store a v (Q : unit -> mem -> Prop) m :
  is_Some (m !! a) -> Q tt (<[a := u8 v]> m) -> wp (store a v) Q m.
Proof. intros Hm HQ. unfold wp. by rewrite (store_done _ _ _ Hm). Qed.

(** ** [bytes_at] *)

Lemma bytes_at_cons m a b l : bytes_at m a (b :: l) <-> m !! a = Some b /\ bytes_at m (a + 1) l.
Proof.
  split.
  - intros Hm. split; [specialize (Hm 0%nat b eq_refl); by rewrite Z.add_0_r in Hm|].
    intros i x Hi. specialize (Hm (S i) x Hi). by replace (a + 1 + Z.of_nat i) with (a + Z.of_nat (S i)) by lia.
  - intros [Ha Hm] [|i] x Hi; simpl in Hi; [simplify_eq; by rewrite Z.add_0_r|].
    replace (a + Z.of_nat (S i)) with (a + 1 + Z.of_nat i) by lia. by apply Hm.
Qed.

Lemma bytes_at_app m a l1 l2 :
  bytes_at m a (l1 ++ l2) <-> bytes_at m a l1 /\ bytes_at m (a + Z.of_nat (length l1)) l2.
Proof.
  revert a. induction l1 as [|b l1 IH]; intros a; simpl.
  - rewrite Z.add_0_r. split; [|naive_solver]. intros Hm. split; [by intros i x Hi|done].
  - rewrite !bytes_at_cons, IH. replace (a + Z.of_nat (S (length l1))) with (a + 1 + Z.of_nat (length l1)) by lia.
    naive_solver.
Qed.

Lemma bytes_at_mapped m a l : bytes_at m a l -> mapped m a (Z.of_nat (length l)).
Proof.
  intros Hm x Hx. destruct (lookup_lt_is_Some_2 l (Z.to_nat (x - a))) as [b Hb]; [lia|].
  exists b. specialize (Hm _ _ Hb). by replace (a + Z.of_nat (Z.to_nat (x - a))) with x in Hm by lia.
Qed.

Lemma bytes_at_insert_ne m a l x v : ~ (a <= x < a + Z.of_nat (length l)) ->
  bytes_at m a l -> bytes_at (<[x := v]> m) a l.
Proof.
  intros Hx Hm i b Hi. pose proof (lookup_lt_Some _ _ _ Hi).
  rewrite lookup_insert_ne by lia. by apply Hm.
Qed.

Lemma mapped_le m a n b k : a <= b -> b + k <= a + n -> mapped m a n -> mapped m b k.
Proof. intros ?? Hm x Hx. apply Hm. lia. Qed.

Lemma mapped_insert m a n x v : mapped m a n -> mapped (<[x := v]> m) a n.
Proof.
  intros Hm y Hy. destruct (decide (x = y)) as [->|]; [rewrite lookup_insert_eq; eauto|].
  rewrite lookup_insert_ne by done. by apply Hm.
Qed.

(** ** [write_bytes] *)

Lemma write_bytes_lookup m a l x :
  write_bytes m a l !! x =
    if decide (a <= x < a + Z.of_nat (length l)) then l !! Z.to_nat (x - a) else m !! x.
Proof.
  revert m a. induction l as [|b l IH]; intros m a; simpl.
  - destruct decide; [lia|done].
  - rewrite IH. destruct decide as [H1|H1], decide as [H2|H2]; try lia.
    + replace (Z.to_nat (x - a)) with (S (Z.to_nat (x - (a + 1)))) by lia. done.
    + assert (x = a) as -> by lia. rewrite lookup_insert_eq. by replace (Z.to_nat (a - a)) with 0%nat by lia.
    + rewrite lookup_insert_ne by lia. done.
Qed.

Lemma write_bytes_in m a l x : a <= x < a + Z.of_nat (length l) ->
  write_bytes m a l !! x = l !! Z.to_nat (x - a).
Proof. intros Hx. rewrite write_bytes_lookup. by rewrite decide_True. Qed.
Lemma write_bytes_out m a l x : ~ (a <= x < a + Z.of_nat (length l)) ->
  write_bytes m a l !! x = m !! x.
Proof. intros Hx. rewrite write_bytes_lookup. by rewrite decide_False. Qed.

Lemma write_bytes_at m a l : bytes_at (write_bytes m a l) a l.
Proof.
  intros i b Hi. pose proof (lookup_lt_Some _ _ _ Hi). rewrite write_bytes_in by lia.
  by replace (Z.to_nat (a + Z.of_nat i - a)) with i by lia.
Qed.

Lemma write_bytes_same m a l : bytes_at m a l -> write_bytes m a l = m.
Proof.
  intros Hm. apply map_eq. intros x. destruct (decide (a <= x < a + Z.of_nat (length l))) as [Hx|Hx].
  - rewrite write_bytes_in by done. destruct (lookup_lt_is_Some_2 l (Z.to_nat (x - a))) as [b Hb]; [lia|].
    rewrite Hb. specialize (Hm _ _ Hb). by replace (a + Z.of_nat (Z.to_nat (x - a))) with x in Hm by lia.
  - by rewrite write_bytes_out.
Qed.

Lemma write_bytes_app m a l1 l2 :
  write_bytes m a (l1 ++ l2) = write_bytes (write_bytes m a l1) (a + Z.of_nat (length l1)) l2.
Proof.
  revert m a. induction l1 as [|b l1 IH]; intros m a; simpl; [by rewrite Z.add_0_r|].
  rewrite IH. f_equal. lia.
Qed.

Lemma write_bytes_insert_comm m a l x v : ~ (a <= x < a + Z.of_nat (length l)) ->
  write_bytes (<[x := v]> m) a l = <[x := v]> (write_bytes m a l).
Proof.
  intros Hx. apply map_eq. intros y. destruct (decide (x = y)) as [->|Hne].
  - rewrite lookup_insert_eq, write_bytes_out by done. by rewrite lookup_insert_eq.
  - rewrite (lookup_insert_ne (write_bytes _ _ _)) by done. rewrite !write_bytes_lookup.
    destruct decide; [done|]. by rewrite lookup_insert_ne.
Qed.

Lemma mapped_write_bytes m a n b l : mapped m a n -> mapped (write_bytes m b l) a n.
Proof. revert m b. induction l as [|x l IH]; intros m b Hm; simpl; [done|]. by apply IH, mapped_insert. Qed.

Lemma bytes_at_write_ne m a l b l' :
  a + Z.of_nat (length l) <= b \/ b + Z.of_nat (length l') <= a ->
  bytes_at m a l -> bytes_at (write_bytes m b l') a l.
Proof.
  intros Hd Hm i x Hi. pose proof (lookup_lt_Some _ _ _ Hi). rewrite write_bytes_out by lia. by apply Hm.
Qed.

(** The [n] bytes at [a], as a list. *)
Definition read_bytes (m : mem) (a n : Z) : list Z :=
  map (fun x => default 0 (m !! x)) (range a (a + n)).

Lemma read_bytes_length m a n : length (read_bytes m a n) = Z.to_nat n.
Proof. unfold read_bytes, range. rewrite length_map, length_seqZ. lia. Qed.

Lemma read_bytes_at m a n : mapped m a n -> bytes_at m a (read_bytes m a n).
Proof.
  intros Hm i b Hi. unfold read_bytes, range in Hi. change (map ?f ?l) with (f <$> l) in Hi.
  rewrite list_lookup_fmap in Hi. apply fmap_Some in Hi as (x & Hx & ->).
  apply lookup_seqZ in Hx as [-> Hx]. destruct (Hm (a + Z.of_nat i)) as [b Hb]; [lia|]. by rewrite Hb.
Qed.

Lemma bytes_at_read m a l : bytes_at m a l -> read_bytes m a (Z.of_nat (length l)) = l.
Proof.
  intros Hm. apply list_eq. intros i. unfold read_bytes, range. change (map ?f ?l) with (f <$> l).
  rewrite list_lookup_fmap. destruct (l !! i) as [b|] eqn:Hi.
  - pose proof (lookup_lt_Some _ _ _ Hi). rewrite lookup_seqZ_lt by lia. simpl. by rewrite (Hm _ _ Hi).
  - apply lookup_ge_None in Hi. rewrite lookup_seqZ_ge by lia. done.
Qed.

(** ** 64-bit words, as [struct] fields and page-table entries are stored *)

Definition load64 (a : Z) : M mem Z :=
  let! l := foldM (range 0 8) [] (fun l i => let! b := load (a + i) in ret (l ++ [b])) in
  ret (le_val l).
Definition store64 (a v : Z) : M mem unit :=
  forM (zip (range 0 8) (le_bytes 8 v)) (fun p => store (a + p.1) p.2).

Definition is_bytes (l : list Z) : Prop := Forall (fun b => 0 <= b < 256) l.

(** All of memory holds bytes. *)
Definition mem_ok (m : mem) : Prop := forall x b, m !! x = Some b -> 0 <= b < 256.

Lemma mem_ok_write (m : mem) a l : mem_ok m -> is_bytes l -> mem_ok (write_bytes m a l).
Proof.
  intros Hm Hl x b. rewrite write_bytes_lookup. case_decide; [|apply Hm].
  intros Hb. unfold is_bytes in Hl. rewrite Forall_lookup in Hl. by apply (Hl _ _ Hb).
Qed.

(** The word at an address. *)
Definition rd64 (m : mem) (a : Z) : Z := le_val (read_bytes m a 8).

Lemma le_bytes_is_bytes n z : is_bytes (le_bytes n z).
Proof.
  revert z. induction n as [|n IH]; intros z; simpl; constructor; [apply Z.mod_pos_bound; lia|apply IH].
Qed.

Lemma foldM_load a n l (m : mem) k : mapped m (a + k) (n - k) -> k <= n ->
  foldM (range k n) l (fun l i => let! b := load (a + i) in ret (l ++ [b])) m =
    Done (l ++ read_bytes m (a + k) (n - k)) m.
Proof.
  remember (Z.to_nat (n - k)) as j eqn:Hj. revert k l Hj. induction j as [|j IH]; intros k l Hj Hm Hk.
  - assert (n = k) as -> by lia. rewrite range_nil by lia. unfold read_bytes. rewrite range_nil by lia.
    simpl. by rewrite app_nil_r.
  - rewrite range_cons by lia. cbn [foldM]. destruct (Hm (a + k)) as [b Hb]; [lia|].
    unfold bind at 1. rewrite (bind_load _ _ _ _ Hb). unfold ret.
    rewrite IH by (try (eapply mapped_le; [| |exact Hm]); lia). f_equal.
    rewrite <- app_assoc. f_equal. unfold read_bytes. rewrite (range_cons (a + k)) by lia.
    simpl. rewrite Hb. do 3 f_equal; lia.
Qed.

Lemma load64_done (m : mem) a : mapped m a 8 -> load64 a m = Done (rd64 m a) m.
Proof.
  intros Hm. unfold load64. cbn [bind]. rewrite foldM_load by (rewrite ?Z.add_0_r; done || lia).
  cbn [ret]. by rewrite Z.add_0_r.
Qed.

Lemma forM_store_bytes (bs : list Z) k a (m : mem) : is_bytes bs -> mapped m (a + k) (Z.of_nat (length bs)) ->
  forM (zip (range k (k + Z.of_nat (length bs))) bs) (fun p => store (a + p.1) p.2) m =
    Done tt (write_bytes m (a + k) bs).
Proof.
  revert k m. induction bs as [|b bs IH]; intros k m Hb Hm; cbn [length] in *.
  - by rewrite zip_with_nil_r.
  - rewrite range_cons by lia. simpl. inversion Hb; subst.
    rewrite store_done by (apply Hm; lia). rewrite u8_small by lia.
    replace (k + Z.of_nat (S (length bs))) with (k + 1 + Z.of_nat (length bs)) by lia.
    rewrite IH; [|done|apply mapped_insert; eapply mapped_le; [| |exact Hm]; lia].
    by rewrite Z.add_assoc.
Qed.

Lemma store64_done (m : mem) a v : mapped m a 8 ->
  store64 a v m = Done tt (write_bytes m a (le_bytes 8 v)).
Proof.
  intros Hm. unfold store64.
  replace 8 with (0 + Z.of_nat (length (le_bytes 8 v))) by (by rewrite le_bytes_length).
  rewrite forM_store_bytes; [by rewrite Z.add_0_r|apply le_bytes_is_bytes|].
  rewrite Z.add_0_r. by rewrite le_bytes_length.
Qed.

Lemma rd64_write_eq (m : mem) a v : rd64 (write_bytes m a (le_bytes 8 v)) a = u64 v.
Proof.
  unfold rd64. pose proof (bytes_at_read _ _ _ (write_bytes_at m a (le_bytes 8 v))) as Hr.
  rewrite le_bytes_length in Hr. change (Z.of_nat 8) with 8 in Hr. rewrite Hr, le_val_bytes. done.
Qed.

Lemma read_bytes_ext (m m' : mem) a n : (forall x, a <= x < a + n -> m' !! x = m !! x) ->
  read_bytes m' a n = read_bytes m a n.
Proof.
  intros Hm. unfold read_bytes. apply map_ext_in. intros x Hx%list_elem_of_In%elem_of_range.
  by rewrite Hm.
Qed.

Lemma rd64_ext (m m' : mem) a : (forall x, a <= x < a + 8 -> m' !! x = m !! x) -> rd64 m' a = rd64 m a.
Proof. intros Hm. unfold rd64. by rewrite (read_bytes_ext m m'). Qed.

Lemma rd64_write_ne (m : mem) a b l : a + 8 <= b \/ b + Z.of_nat (length l) <= a ->
  rd64 (write_bytes m b l) a = rd64 m a.
Proof. intros Hd. apply rd64_ext. intros x Hx. rewrite write_bytes_out by lia. done. Qed.

Lemma rd64_zero (m : mem) a n b : (forall x, a <= x < a + n -> m !! x = Some 0) -> a <= b -> b + 8 <= a + n ->
  rd64 m b = 0.
Proof.
  intros Hm Hb1 Hb2. unfold rd64. replace (read_bytes m b 8) with (replicate 8 0); [done|].
  unfold read_bytes. change (replicate 8 0) with (map (fun _ => 0) (range 0 8)).
  apply list_eq. intros i. change (map ?f ?l) with (f <$> l). rewrite !list_lookup_fmap. unfold range.
  destruct (decide (i < 8)%nat).
  - rewrite !lookup_seqZ_lt by lia. simpl. rewrite Hm by lia. done.
  - rewrite !lookup_seqZ_ge by lia. done.
Qed.

End lemmas.
