(* ===== verification/Strings.v ===== *)
(** * The string routines: kernel/string.c

    [memset], [memcmp], [memmove], [strncmp], [strncpy], [safestrcpy],
    [strcat], [itoa] and [strlen], on the memory of Mem.v.  [char] is unsigned
    on RISC-V.  A loop that runs to the end of a string is given as fuel one
    more than the number of accessible bytes: it stops at a NUL or faults
    before the fuel runs out ([strend_stops]). *)

From stdpp Require Import base numbers list gmap fin_maps.
From Stdlib Require Import ZArith Lia.
From S2P Require Import Prelude Blocks Monad Codec Mem.
Open Scope Z_scope.

Definition memset (dst c n : Z) : M mem Z :=
  forM (range 0 (u32 n)) (fun i => store (dst + i) c);;
  ret dst.

(** [while(n-- > 0)], the number of rounds left as a [nat]. *)
Fixpoint memcmp_loop (n : nat) (s1 s2 : Z) : M mem Z :=
  match n with
  | O => ret 0
  | S n =>
    let! c1 := load s1 in
    let! c2 := load s2 in
    if negb (c1 =? c2) then ret (c1 - c2) else memcmp_loop n (s1 + 1) (s2 + 1)
  end.
Definition memcmp (v1 v2 n : Z) : M mem Z := memcmp_loop (Z.to_nat (u32 n)) v1 v2.

Fixpoint copy_up (n : nat) (d s : Z) : M mem unit :=
  match n with
  | O => ret tt
  | S n => (let! c := load s in store d c);; copy_up n (d + 1) (s + 1)
  end.
Fixpoint copy_down (n : nat) (d s : Z) : M mem unit :=
  match n with
  | O => ret tt
  | S n => (let! c := load (s - 1) in store (d - 1) c);; copy_down n (d - 1) (s - 1)
  end.
Definition memmove (dst src n : Z) : M mem Z :=
  let n := u32 n in
  if n =? 0 then ret dst
  else if (src <? dst) && (dst <? src + n)
  then copy_down (Z.to_nat n) (dst + n) (src + n);; ret dst
  else copy_up (Z.to_nat n) dst src;; ret dst.

Definition memcpy (dst src n : Z) : M mem Z := memmove dst src n.

Fixpoint strncmp_loop (n : nat) (p q : Z) : M mem Z :=
  match n with
  | O => ret 0
  | S n =>
    let! c := load p in
    if c =? 0 then let! d := load q in ret (c - d)
    else
      let! d := load q in
      if c =? d then strncmp_loop n (p + 1) (q + 1) else ret (c - d)
  end.
Definition strncmp (p q n : Z) : M mem Z := strncmp_loop (Z.to_nat (u32 n)) p q.

Fixpoint zero_fill (n : nat) (s : Z) : M mem unit :=
  match n with
  | O => ret tt
  | S n => store s 0;; zero_fill n (s + 1)
  end.
Fixpoint strncpy_loop (n : nat) (s t : Z) : M mem unit :=
  match n with
  | O => ret tt
  | S n =>
    let! c := load t in
    store s c;;
    if c =? 0 then zero_fill n (s + 1) else strncpy_loop n (s + 1) (t + 1)
  end.
Definition strncpy (s t n : Z) : M mem Z := strncpy_loop (Z.to_nat n) s t;; ret s.

(** [while(--n > 0 && ( *s++ = *t++ ) != 0); *s = 0], [n] rounds left. *)
Fixpoint safestrcpy_loop (n : nat) (s t : Z) : M mem unit :=
  match n with
  | O => store s 0
  | S n =>
    let! c := load t in
    store s c;;
    if c =? 0 then store (s + 1) 0 else safestrcpy_loop n (s + 1) (t + 1)
  end.
Definition safestrcpy (s t n : Z) : M mem Z :=
  if n <=? 0 then ret s
  else safestrcpy_loop (Z.to_nat (n - 1)) s t;; ret s.

(** [while( *os ) os++] *)
Fixpoint strend (fuel : nat) (a : Z) : M mem Z :=
  match fuel with
  | O => blocked
  | S fuel => let! c := load a in if c =? 0 then ret a else strend fuel (a + 1)
  end.

Definition strlen (s : Z) : M mem Z :=
  let! fuel := gets (fun m => S (size m)) in
  let! e := strend fuel s in
  ret (i32 (e - s)).

(** [while( *s2 ) *os++ = *s2++; *os = 0] *)
Fixpoint strcat_loop (fuel : nat) (os s2 : Z) : M mem unit :=
  match fuel with
  | O => blocked
  | S fuel =>
    let! c := load s2 in
    if c =? 0 then store os 0
    else store os c;; strcat_loop fuel (os + 1) (s2 + 1)
  end.
Definition strcat (s1 s2 : Z) : M mem Z :=
  let! fuel := gets (fun m => S (size m)) in
  let! os := strend fuel s1 in
  strcat_loop fuel os s2;;
  ret s1.

(** [digits[]], with its NUL. *)
Definition digits : list Z :=
  [48; 49; 50; 51; 52; 53; 54; 55; 56; 57; 97; 98; 99; 100; 101; 102; 0].

(** [do buf[i++] = digits[xx % base]; while((xx /= base) != 0)]: the bytes of
    [buf] from the last one written, [room] places left in it. *)
Fixpoint itoa_digits (room : nat) (xx base : Z) (buf : list Z) : M mem (list Z) :=
  match room with
  | O => fault
  | S room =>
    if base =? 0 then fault
    else
      let! c := deref (znth digits (Z.rem xx base)) in
      let xx := Z.quot xx base in
      if xx =? 0 then ret (c :: buf) else itoa_digits room xx base (c :: buf)
  end.

Definition itoa (xx base result : Z) : M mem unit :=
  let! buf := itoa_digits 16 xx base [] in
  let! fuel := gets (fun m => S (size m)) in
  let! result := strend fuel result in
  forM (zip (range 0 (Z.of_nat (length buf))) buf) (fun p => store (result + p.1) p.2);;
  store (result + Z.of_nat (length buf)) 0.

(** ** Specifications *)

(** A C string: nonzero bytes, then a NUL. *)
Definition cstring (m : mem) (a : Z) (l : list Z) : Prop :=
  bytes_at m a (l ++ [0]) /\ Forall (fun b => 0 < b < 256) l.

(** The sign of the comparison of two byte sequences in dictionary order, as
    far as both go. *)
Fixpoint lexcmp (l1 l2 : list Z) : Z :=
  match l1, l2 with
  | a :: l1, b :: l2 => if a =? b then lexcmp l1 l2 else Z.sgn (a - b)
  | _, _ => 0
  end.

Lemma lexcmp_eq l1 l2 : length l1 = length l2 -> lexcmp l1 l2 = 0 <-> l1 = l2.
Proof.
  revert l2. induction l1 as [|a l1 IH]; intros [|b l2] Hl; simpl in *; try done.
  destruct (Z.eqb_spec a b) as [->|Hne].
  - rewrite IH by lia. naive_solver.
  - split; [|by intros [= ? ?]]. intros Hs%Z.sgn_null_iff. lia.
Qed.

Lemma zero_fill_done n s (m : mem) : mapped m s (Z.of_nat n) ->
  zero_fill n s m = Done tt (write_bytes m s (replicate n 0)).
Proof.
  revert s m. induction n as [|n IH]; intros s m Hm; simpl; [done|].
  rewrite store_done by (apply Hm; lia). apply IH.
  apply mapped_insert. eapply mapped_le; [| |exact Hm]; lia.
Qed.

Lemma memset_done dst c n (m : mem) : 0 <= n < 2 ^ 32 -> mapped m dst n ->
  memset dst c n m = Done dst (write_bytes m dst (replicate (Z.to_nat n) (u8 c))).
Proof.
  intros Hn Hm. unfold memset. rewrite u32_small by lia.
  enough (forall k (m : mem), 0 <= k <= n -> mapped m (dst + k) (n - k) ->
    forM (range k n) (fun i => store (dst + i) c) m =
      Done tt (write_bytes m (dst + k) (replicate (Z.to_nat (n - k)) (u8 c)))) as He.
  { simpl. rewrite He, Z.add_0_r, Z.sub_0_r by (rewrite ?Z.add_0_r, ?Z.sub_0_r; done || lia). done. }
  clear m Hm. intros k. remember (Z.to_nat (n - k)) as j eqn:Hj. revert k Hj.
  induction j as [|j IH]; intros k Hj m Hk Hm; [by rewrite range_nil by lia|].
  rewrite range_cons by lia. simpl. rewrite store_done by (apply Hm; lia).
  rewrite IH; [|lia|lia|apply mapped_insert; eapply mapped_le; [| |exact Hm]; lia].
  by rewrite Z.add_assoc.
Qed.

Lemma memcmp_done l1 l2 v1 v2 (m : mem) : length l1 = length l2 -> Z.of_nat (length l1) < 2 ^ 32 ->
  bytes_at m v1 l1 -> bytes_at m v2 l2 ->
  exists r, memcmp v1 v2 (Z.of_nat (length l1)) m = Done r m /\ Z.sgn r = lexcmp l1 l2.
Proof.
  intros Hl Hn. unfold memcmp. rewrite u32_small, Nat2Z.id by lia. clear Hn.
  revert l2 v1 v2 Hl. induction l1 as [|a l1 IH]; intros [|b l2] v1 v2 Hl H1 H2; simpl in *; try done.
  - eauto.
  - apply bytes_at_cons in H1 as [Ha H1], H2 as [Hb H2].
    rewrite (load_done _ _ _ Ha), (load_done _ _ _ Hb).
    destruct (Z.eqb_spec a b); simpl; [apply IH; auto with lia|]. eauto.
Qed.

Lemma copy_up_done l d s (m : mem) : is_bytes l -> bytes_at m s l -> mapped m d (Z.of_nat (length l)) ->
  d <= s \/ s + Z.of_nat (length l) <= d ->
  copy_up (length l) d s m = Done tt (write_bytes m d l).
Proof.
  revert d s m. induction l as [|b l IH]; intros d s m Hb Hs Hd Ho; simpl in *; [done|].
  apply bytes_at_cons in Hs as [Hs0 Hs]. inversion Hb; subst.
  rewrite (load_done _ _ _ Hs0), store_done by (apply Hd; lia). rewrite u8_small by lia.
  apply IH; [done|apply bytes_at_insert_ne; [lia|done]| |lia].
  apply mapped_insert. eapply mapped_le; [| |exact Hd]; lia.
Qed.

Lemma copy_down_done l d s (m : mem) : is_bytes l -> bytes_at m s l -> mapped m d (Z.of_nat (length l)) ->
  s < d ->
  copy_down (length l) (d + Z.of_nat (length l)) (s + Z.of_nat (length l)) m = Done tt (write_bytes m d l).
Proof.
  revert m. induction l as [|b l IH] using rev_ind; intros m Hb Hs Hd Ho; simpl in *; [done|].
  rewrite length_app in *. simpl in *. rewrite Nat.add_1_r in *. cbn [copy_down].
  apply bytes_at_app in Hs as [Hs Hs0]. apply bytes_at_cons in Hs0 as [Hs0 _].
  apply Forall_app in Hb as [Hb Hb0]. inversion Hb0; subst.
  replace (s + Z.of_nat (S (length l)) - 1) with (s + Z.of_nat (length l)) by lia.
  replace (d + Z.of_nat (S (length l)) - 1) with (d + Z.of_nat (length l)) by lia.
  simpl. rewrite (load_done _ _ _ Hs0), store_done by (apply Hd; lia). rewrite u8_small by lia.
  rewrite IH; [|done|apply bytes_at_insert_ne; [lia|done]| |done].
  - rewrite write_bytes_app. simpl. by rewrite write_bytes_insert_comm by lia.
  - apply mapped_insert. eapply mapped_le; [| |exact Hd]; lia.
Qed.

Lemma memmove_done l dst src (m : mem) : is_bytes l -> Z.of_nat (length l) < 2 ^ 32 ->
  bytes_at m src l -> mapped m dst (Z.of_nat (length l)) ->
  memmove dst src (Z.of_nat (length l)) m = Done dst (write_bytes m dst l).
Proof.
  intros Hb Hn Hs Hd. unfold memmove. rewrite u32_small, Nat2Z.id by lia.
  destruct (Z.eqb_spec (Z.of_nat (length l)) 0) as [Hz|_].
  { destruct l; [done|simpl in Hz; lia]. }
  destruct (Z.ltb_spec src dst) as [Hlt|Hlt], (Z.ltb_spec dst (src + Z.of_nat (length l))) as [Ho|Ho]; simpl.
  1: by rewrite copy_down_done.
  all: by rewrite copy_up_done by (done || lia).
Qed.

Lemma cstring_cons (m : mem) a b l : cstring m a (b :: l) <-> m !! a = Some b /\ 0 < b < 256 /\ cstring m (a + 1) l.
Proof. unfold cstring. simpl. rewrite bytes_at_cons, Forall_cons. naive_solver. Qed.
Lemma cstring_nil (m : mem) a : cstring m a [] <-> m !! a = Some 0.
Proof. unfold cstring. simpl. rewrite bytes_at_cons. split; [by intros [[? _] _]|]. intros Ha. by repeat split. Qed.

Lemma cstring_bytes (m : mem) a l : cstring m a l -> bytes_at m a l.
Proof. intros [Hm _]. by apply bytes_at_app in Hm as [Hm _]. Qed.

Lemma strncmp_done n l1 l2 p q (m : mem) : 0 <= n < 2 ^ 32 -> cstring m p l1 -> cstring m q l2 ->
  exists r, strncmp p q n m = Done r m /\
    Z.sgn r = lexcmp (take (Z.to_nat n) (l1 ++ [0])) (take (Z.to_nat n) (l2 ++ [0])).
Proof.
  intros Hn. unfold strncmp. rewrite u32_small by lia. generalize (Z.to_nat n). clear Hn. intros k.
  revert l1 l2 p q. induction k as [|k IH]; intros l1 l2 p q H1 H2; simpl; [by eexists|].
  destruct l1 as [|a l1].
  - apply cstring_nil in H1. rewrite (load_done _ _ _ H1). simpl. destruct l2 as [|b l2].
    + apply cstring_nil in H2. rewrite (load_done _ _ _ H2). exists 0. by rewrite take_nil.
    + apply cstring_cons in H2 as (H2 & Hb & _). rewrite (load_done _ _ _ H2).
      exists (0 - b). split; [done|]. by destruct b; [lia|..].
  - apply cstring_cons in H1 as (H1 & Ha & Hl1). rewrite (load_done _ _ _ H1).
    destruct (Z.eqb_spec a 0); [lia|]. destruct l2 as [|b l2].
    + apply cstring_nil in H2. rewrite (bind_load _ _ _ _ H2). simpl.
      destruct (Z.eqb_spec a 0); [lia|]. by exists (a - 0).
    + apply cstring_cons in H2 as (H2 & Hb & Hl2). rewrite (bind_load _ _ _ _ H2). simpl.
      destruct (Z.eqb_spec a b); [by apply IH|]. by exists (a - b).
Qed.

Lemma cstring_insert_ne (m : mem) a l x v : x < a \/ a + Z.of_nat (length l) < x ->
  cstring m a l -> cstring (<[x := v]> m) a l.
Proof.
  intros Hx [Hm Hb]. split; [|done]. apply bytes_at_insert_ne; [|done]. rewrite length_app. simpl. lia.
Qed.

(** The bytes [strncpy] writes: the string, then NULs. *)
Definition padded (n : nat) (l : list Z) : list Z := take n (l ++ replicate n 0).

Lemma strncpy_done n l s t (m : mem) : cstring m t l -> mapped m s n ->
  s + n <= t \/ t + Z.of_nat (length l) < s ->
  strncpy s t n m = Done s (write_bytes m s (padded (Z.to_nat n) l)).
Proof.
  intros Ht Hs Ho. unfold strncpy, padded. simpl.
  destruct (Z.le_gt_cases n 0) as [Hz|Hz].
  { by replace (Z.to_nat n) with 0%nat by lia. }
  rewrite <- (Z2Nat.id n) in Hs, Ho by lia. generalize dependent (Z.to_nat n). clear Hz. intros k Hs Ho.
  enough (strncpy_loop k s t m = Done tt (write_bytes m s (take k (l ++ replicate k 0)))) as -> by done.
  revert s t l m Ht Hs Ho. induction k as [|k IH]; intros s t l m Ht Hs Ho; [done|].
  cbn [strncpy_loop]. destruct l as [|b l].
  - apply cstring_nil in Ht. simpl. rewrite (load_done _ _ _ Ht), store_done by (apply Hs; lia). simpl.
    rewrite zero_fill_done by (apply mapped_insert; eapply mapped_le; [| |exact Hs]; lia).
    by rewrite take_ge by (by rewrite length_replicate).
  - apply cstring_cons in Ht as (Hb & Hr & Ht). simpl in *.
    rewrite (load_done _ _ _ Hb), store_done by (apply Hs; lia). rewrite u8_small by lia.
    destruct (Z.eqb_spec b 0); [lia|].
    rewrite (IH (s + 1) (t + 1) l); [|apply cstring_insert_ne; [lia|done]|
      apply mapped_insert; eapply mapped_le; [| |exact Hs]; lia|lia].
    do 2 f_equal. change (0 :: replicate k 0) with (replicate (S k) 0).
    symmetry. rewrite (replicate_S_end k), app_assoc. apply take_app_le.
    rewrite length_app, length_replicate. lia.
Qed.

(** The bytes [safestrcpy] writes: a prefix of the string and a NUL, which
    may be followed by one more. *)
Lemma safestrcpy_done n l s t (m : mem) : 0 < n -> cstring m t l -> mapped m s n ->
  s + n <= t \/ t + Z.of_nat (length l) < s ->
  safestrcpy s t n m = Done s (write_bytes m s (take (Z.to_nat (n - 1)) (l ++ [0]) ++ [0])).
Proof.
  intros Hn Ht Hs Ho. unfold safestrcpy. destruct (Z.leb_spec n 0); [lia|]. simpl.
  replace n with (Z.of_nat (Z.to_nat (n - 1)) + 1) in Hs, Ho by lia.
  generalize dependent (Z.to_nat (n - 1)). clear H Hn. intros k Hs Ho.
  enough (safestrcpy_loop k s t m = Done tt (write_bytes m s (take k (l ++ [0]) ++ [0]))) as -> by done.
  revert s t l m Ht Hs Ho. induction k as [|k IH]; intros s t l m Ht Hs Ho.
  - simpl. by rewrite store_done by (apply Hs; lia).
  - cbn [safestrcpy_loop]. destruct l as [|b l].
    + apply cstring_nil in Ht. simpl. rewrite (load_done _ _ _ Ht), store_done by (apply Hs; lia). simpl.
      rewrite take_nil. rewrite store_done by (apply mapped_insert with (n := Z.of_nat (S k) + 1) (a := s); [done|lia]).
      done.
    + apply cstring_cons in Ht as (Hb & Hr & Ht). simpl in *.
      rewrite (load_done _ _ _ Hb), store_done by (apply Hs; lia). rewrite u8_small by lia.
      destruct (Z.eqb_spec b 0); [lia|].
      rewrite (IH (s + 1) (t + 1) l); [done|apply cstring_insert_ne; [lia|done]| |lia].
      apply mapped_insert; eapply mapped_le; [| |exact Hs]; lia.
Qed.

(** ** Loops to the end of a string *)

Lemma mapped_size (m : mem) a n : 0 <= n -> mapped m a n -> n <= Z.of_nat (size m).
Proof.
  intros Hn Hm. rewrite <- (size_dom (D := gset Z)).
  assert (list_to_set (range a (a + n)) ⊆ dom m) as Hs%subseteq_size.
  { intros x Hx%elem_of_list_to_set%elem_of_range. apply elem_of_dom, Hm. lia. }
  rewrite size_list_to_set in Hs by apply range_NoDup.
  unfold range in Hs. rewrite length_seqZ in Hs. lia.
Qed.

Lemma strend_done fuel l a (m : mem) : cstring m a l -> (length l < fuel)%nat ->
  strend fuel a m = Done (a + Z.of_nat (length l)) m.
Proof.
  revert fuel a. induction l as [|b l IH]; intros [|fuel] a Ha Hf; simpl in *; try lia.
  - apply cstring_nil in Ha. rewrite (load_done _ _ _ Ha). simpl. by rewrite Z.add_0_r.
  - apply cstring_cons in Ha as (Hb & Hr & Ha). rewrite (load_done _ _ _ Hb).
    destruct (Z.eqb_spec b 0); [lia|]. rewrite IH by (done || lia). f_equal. lia.
Qed.

Lemma cstring_fuel (m : mem) a l : cstring m a l -> (length l < S (size m))%nat.
Proof.
  intros [Hm _]. apply bytes_at_mapped, mapped_size in Hm; [|lia]. rewrite length_app in Hm. simpl in Hm. lia.
Qed.

(** The fuel does not run out: the loop ends at a NUL or leaves the memory. *)
Lemma strend_stops (m : mem) a :
  (exists l, cstring m a l /\ strend (S (size m)) a m = Done (a + Z.of_nat (length l)) m) \/
  strend (S (size m)) a m = Fault m \/ (exists x b, m !! x = Some b /\ ~ (0 <= b < 256)).
Proof.
  enough (forall n k, (size m < n + k)%nat -> mapped m (a - Z.of_nat k) (Z.of_nat k) ->
    (exists l, cstring m a l /\ strend n a m = Done (a + Z.of_nat (length l)) m) \/
    strend n a m = Fault m \/ (exists x b, m !! x = Some b /\ ~ (0 <= b < 256))) as He.
  { apply (He (S (size m)) 0%nat); [lia|]. intros x Hx. lia. }
  intros n. revert a. induction n as [|n IH]; intros a k Hk Hm.
  { apply mapped_size in Hm; lia. }
  cbn [strend]. unfold bind. destruct (m !! a) as [b|] eqn:Hb.
  2:{ right. left. unfold load. simpl. by rewrite Hb. }
  rewrite (load_done _ _ _ Hb). destruct (Z.eqb_spec b 0) as [->|Hne].
  { left. exists []. split; [by apply cstring_nil|]. simpl. by rewrite Z.add_0_r. }
  destruct (decide (0 <= b < 256)) as [Hr|Hr]; [|right; right; by exists a, b].
  destruct (IH (a + 1) (S k)) as [(l & Hl & He)|[He|He]]; [lia| |left|right; by left|right; by right].
  - intros x Hx. destruct (decide (x = a)) as [->|]; [eauto|]. apply Hm. lia.
  - exists (b :: l). split; [apply cstring_cons; auto with lia|]. rewrite He. f_equal. simpl. lia.
Qed.

Lemma strlen_done l s (m : mem) : cstring m s l -> Z.of_nat (length l) < 2 ^ 31 ->
  strlen s m = Done (Z.of_nat (length l)) m.
Proof.
  intros Hs Hl. unfold strlen. cbn [bind gets]. rewrite (strend_done _ _ _ _ Hs) by (by eapply cstring_fuel).
  simpl. f_equal. rewrite i32_small; lia.
Qed.

Lemma strcat_loop_done fuel l2 os s2 (m : mem) : cstring m s2 l2 -> (length l2 < fuel)%nat ->
  mapped m os (Z.of_nat (length l2) + 1) ->
  os + Z.of_nat (length l2) < s2 \/ s2 + Z.of_nat (length l2) < os ->
  strcat_loop fuel os s2 m = Done tt (write_bytes m os (l2 ++ [0])).
Proof.
  revert fuel os s2 m. induction l2 as [|b l IH]; intros [|fuel] os s2 m Hs Hf Hm Ho; simpl in *; try lia.
  - apply cstring_nil in Hs. rewrite (load_done _ _ _ Hs). simpl. by rewrite store_done by (apply Hm; lia).
  - apply cstring_cons in Hs as (Hb & Hr & Hs). rewrite (load_done _ _ _ Hb).
    destruct (Z.eqb_spec b 0); [lia|]. simpl. rewrite store_done by (apply Hm; lia). rewrite u8_small by lia.
    apply IH; [apply cstring_insert_ne; [lia|done]|lia| |lia].
    apply mapped_insert. eapply mapped_le; [| |exact Hm]; lia.
Qed.

Lemma strcat_done l1 l2 s1 s2 (m : mem) : cstring m s1 l1 -> cstring m s2 l2 ->
  mapped m (s1 + Z.of_nat (length l1)) (Z.of_nat (length l2) + 1) ->
  s1 + Z.of_nat (length l1) + Z.of_nat (length l2) < s2 \/
    s2 + Z.of_nat (length l2) < s1 + Z.of_nat (length l1) ->
  strcat s1 s2 m = Done s1 (write_bytes m (s1 + Z.of_nat (length l1)) (l2 ++ [0])).
Proof.
  intros H1 H2 Hm Ho. unfold strcat. cbn [bind gets].
  rewrite (strend_done _ _ _ _ H1) by (by eapply cstring_fuel).
  by rewrite (strcat_loop_done _ l2) by (done || by eapply cstring_fuel).
Qed.

(** ** [itoa] *)

(** The digit a byte of [digits] stands for, and the value of a numeral. *)
Definition digit_val (c : Z) : Z := if c <? 97 then c - 48 else c - 87.
Definition numeral (base : Z) (l : list Z) : Z :=
  fold_left (fun acc c => acc * base + digit_val c) l 0.

Lemma digit_lookup d : 0 <= d < 16 ->
  exists c, znth digits d = Some c /\ 0 < c < 256 /\ digit_val c = d.
Proof.
  intros Hd. assert (d = 0 \/ d = 1 \/ d = 2 \/ d = 3 \/ d = 4 \/ d = 5 \/ d = 6 \/ d = 7 \/ d = 8 \/
    d = 9 \/ d = 10 \/ d = 11 \/ d = 12 \/ d = 13 \/ d = 14 \/ d = 15) as Hi by lia.
  repeat destruct Hi as [->|Hi]; [..|subst d]; (eexists; split; [reflexivity|]; done).
Qed.

Lemma numeral_cons base l acc : fold_left (fun a c => a * base + digit_val c) l acc =
  acc * base ^ Z.of_nat (length l) + numeral base l.
Proof.
  unfold numeral. revert acc. induction l as [|c l IH]; intros acc; cbn [fold_left length].
  - change (base ^ Z.of_nat 0) with 1. lia.
  - rewrite IH, (IH (0 * base + _)), Nat2Z.inj_succ, Z.pow_succ_r by lia. lia.
Qed.

(** Every nonnegative [xx] that fits the 16 bytes of [buf] is written in full,
    most significant digit first. *)
Lemma itoa_digits_done room xx base buf (m : mem) : 2 <= base <= 16 -> 0 <= xx < base ^ Z.of_nat room ->
  (0 < room)%nat -> Forall (fun c => 0 < c < 256) buf ->
  exists l, itoa_digits room xx base buf m = Done l m /\ Forall (fun c => 0 < c < 256) l /\
    (0 < length l <= room + length buf)%nat /\
    numeral base l = xx * base ^ Z.of_nat (length buf) + numeral base buf.
Proof.
  intros Hb. revert xx buf. induction room as [|room IH]; intros xx buf Hx Hr Hf; [lia|].
  rewrite Nat2Z.inj_succ, Z.pow_succ_r in Hx by lia. cbn [itoa_digits].
  destruct (Z.eqb_spec base 0); [lia|]. rewrite Z.rem_mod_nonneg, Z.quot_div_nonneg by lia.
  pose proof (Z.mod_pos_bound xx base ltac:(lia)) as Hm.
  pose proof (Z.div_mod xx base ltac:(lia)) as Hd.
  destruct (digit_lookup (xx mod base)) as (c & Hc & Hcr & Hcv); [lia|]. rewrite Hc. simpl.
  assert (Hnum : numeral base (c :: buf) = xx mod base * base ^ Z.of_nat (length buf) + numeral base buf).
  { unfold numeral. cbn [fold_left]. rewrite numeral_cons, Hcv. f_equal. }
  destruct (Z.eqb_spec (xx / base) 0) as [Hz|Hz].
  - exists (c :: buf). split_and!; [done|by constructor|simpl; lia|simpl; lia|]. rewrite Hnum.
    rewrite (Z.mod_small xx) by (apply Z.div_small_iff in Hz; lia). done.
  - destruct (IH (xx / base) (c :: buf)) as (l & Hl & Hlf & Hll & Hln).
    + split; [apply Z.div_pos; lia|]. apply Z.div_lt_upper_bound; lia.
    + destruct room; [|lia]. change (base ^ Z.of_nat 0) with 1 in Hx. rewrite Z.div_small in Hz; lia.
    + by constructor.
    + exists l. split_and!; [done|done|lia|simpl in *; lia|]. rewrite Hln, Hnum. cbn [length].
      rewrite Nat2Z.inj_succ, Z.pow_succ_r by lia. nia.
Qed.

Lemma itoa_done xx base result l0 (m : mem) : 2 <= base <= 16 -> 0 <= xx < base ^ 16 -> cstring m result l0 ->
  mapped m (result + Z.of_nat (length l0)) 17 ->
  exists l, itoa xx base result m = Done tt (write_bytes m (result + Z.of_nat (length l0)) (l ++ [0])) /\
    Forall (fun c => 0 < c < 256) l /\ (0 < length l <= 16)%nat /\ numeral base l = xx.
Proof.
  intros Hb Hx H0 Hm.
  destruct (itoa_digits_done 16 xx base [] m) as (l & Hl & Hf & Hll & Hn); [done|done|lia|done|].
  clear Hx. cbn [length] in *. rewrite Nat.add_0_r in Hll.
  change (numeral base []) with 0 in Hn. change (base ^ Z.of_nat 0) with 1 in Hn.
  exists l. split_and!; [|done|lia|lia|lia].
  unfold itoa. cbn [bind]. rewrite Hl. cbn [gets].
  rewrite (strend_done _ _ _ _ H0) by (by eapply cstring_fuel).
  replace (range 0 (Z.of_nat (length l))) with (range 0 (0 + Z.of_nat (length l))) by done.
  rewrite forM_store_bytes; [|eapply Forall_impl; [exact Hf|simpl; lia]|eapply mapped_le; [| |exact Hm]; lia].
  rewrite Z.add_0_r, store_done.
  - rewrite write_bytes_app. done.
  - apply (mapped_write_bytes _ _ _ _ _ Hm). lia.
Qed.

(** ** Properties *)

(** [memmove] copies correctly whether or not the source and the
    destination overlap: afterwards the destination holds the bytes the source
    held before the call, no other byte has changed, and [dst] is returned. *)
Theorem memmove_overlapping l dst src (m : mem) :
  is_bytes l -> Z.of_nat (length l) < 2 ^ 32 ->
  bytes_at m src l -> mapped m dst (Z.of_nat (length l)) ->
  wp (memmove dst src (Z.of_nat (length l))) (fun r m' =>
    r = dst /\ bytes_at m' dst l /\
    (forall x, ~ (dst <= x < dst + Z.of_nat (length l)) -> m' !! x = m !! x)) m.
Proof.
  intros Hb Hn Hs Hd. unfold wp. rewrite memmove_done by done.
  split_and!; [done|apply write_bytes_at|]. intros x Hx. by rewrite write_bytes_out.
Qed.

(** [safestrcpy] always leaves a terminated string: the longest prefix of
    the source that fits [n - 1] bytes, followed by a NUL, and it writes no
    byte outside the [n] bytes of the destination. *)
Theorem safestrcpy_terminates n l s t (m : mem) :
  0 < n -> cstring m t l -> mapped m s n ->
  s + n <= t \/ t + Z.of_nat (length l) < s ->
  wp (safestrcpy s t n) (fun r m' =>
    r = s /\ cstring m' s (take (Z.to_nat (n - 1)) l) /\
    (forall x, ~ (s <= x < s + n) -> m' !! x = m !! x)) m.
Proof.
  intros Hn Ht Hs Ho. unfold wp. rewrite (safestrcpy_done n l) by done.
  split_and!; [done| |].
  - split; [|apply Forall_take, Ht]. destruct (decide (length l < Z.to_nat (n - 1)))%nat as [Hl|Hl].
    + rewrite take_ge by (rewrite length_app; simpl; lia). rewrite take_ge by lia.
      eapply proj1, bytes_at_app, write_bytes_at.
    + rewrite take_app_le by lia. apply write_bytes_at.
  - intros x Hx. rewrite write_bytes_out; [done|]. rewrite length_app, length_take. simpl. lia.
Qed.

(** [itoa] appends to the string at [result] a numeral that denotes [xx],
    for every base from 2 to 16 and every [xx] of at most 16 digits. *)
Theorem itoa_appends xx base result l0 (m : mem) :
  2 <= base <= 16 -> 0 <= xx < base ^ 16 -> cstring m result l0 ->
  mapped m (result + Z.of_nat (length l0)) 17 ->
  wp (itoa xx base result) (fun _ m' => exists l,
    cstring m' result (l0 ++ l) /\ numeral base l = xx /\ (0 < length l <= 16)%nat) m.
Proof.
  intros Hb Hx [H0 Hf0] Hm. destruct (itoa_done xx base result l0 m) as (l & Hl & Hf & Hll & Hn); [done..|].
  unfold wp. rewrite Hl. exists l. split_and!; [|done|lia|lia].
  split; [|by apply Forall_app]. rewrite <- app_assoc. apply bytes_at_app. split; [|apply write_bytes_at].
  apply bytes_at_write_ne; [by left|]. by apply bytes_at_app in H0 as [? _].
Qed.

(** ** Concrete instances *)

Definition ex_mem : mem := write_bytes ∅ 100 ([97; 98; 99; 100; 0] ++ replicate 40 0).

Lemma mapped_check (m : mem) a n : forallb (fun x => bool_decide (is_Some (m !! x))) (range a (a + n)) = true ->
  mapped m a n.
Proof.
  intros Hm x Hx. rewrite forallb_forall in Hm. specialize (Hm x).
  apply bool_decide_eq_true in Hm; [done|]. apply list_elem_of_In, elem_of_range. lia.
Qed.
Lemma bytes_check (m : mem) a l : read_bytes m a (Z.of_nat (length l)) = l ->
  forallb (fun x => bool_decide (is_Some (m !! x))) (range a (a + Z.of_nat (length l))) = true -> bytes_at m a l.
Proof. intros Hr Hm. rewrite <- Hr. apply read_bytes_at. by apply mapped_check. Qed.

Lemma memmove_overlapping_witness :
  wp (memmove 101 100 4) (fun r m' => r = 101 /\ bytes_at m' 101 [97; 98; 99; 100] /\
    (forall x, ~ (101 <= x < 101 + 4) -> m' !! x = ex_mem !! x)) ex_mem.
Proof.
  apply (memmove_overlapping [97; 98; 99; 100] 101 100 ex_mem).
  - by repeat constructor.
  - done.
  - by apply bytes_check; vm_compute.
  - by apply mapped_check; vm_compute.
Defined.

Lemma safestrcpy_terminates_witness :
  wp (safestrcpy 110 100 3) (fun r m' => r = 110 /\ cstring m' 110 [97; 98] /\
    (forall x, ~ (110 <= x < 110 + 3) -> m' !! x = ex_mem !! x)) ex_mem.
Proof.
  apply (safestrcpy_terminates 3 [97; 98; 99; 100] 110 100 ex_mem).
  - lia.
  - split; [by apply bytes_check; vm_compute|by repeat constructor].
  - by apply mapped_check; vm_compute.
  - simpl. lia.
Defined.

Lemma itoa_appends_witness :
  wp (itoa 37 10 100) (fun _ m' => exists l,
    cstring m' 100 ([97; 98; 99; 100] ++ l) /\ numeral 10 l = 37 /\ (0 < length l <= 16)%nat) ex_mem.
Proof.
  apply (itoa_appends 37 10 100 [97; 98; 99; 100] ex_mem).
  - lia.
  - lia.
  - split; [by apply bytes_check; vm_compute|by repeat constructor].
  - by apply mapped_check; vm_compute.
Defined.
