(* ===== verification/Vm.v ===== *)
(** * Virtual memory: kernel/vm.c

    Page tables of the Sv39 scheme in physical memory, the operations that
    walk, extend and shrink them, and the copies between kernel and user
    memory.  The state is the kernel state of State.v, whose free list
    [kalloc] takes pages from, with the contents of physical memory.  A
    kernel buffer that [copyout] reads or [copyin] fills is a list of bytes. *)

From stdpp Require Import base numbers list gmap strings.
From Stdlib Require Import ZArith Lia.
From S2P Require Import Prelude Blocks Monad State Locks Kalloc Codec Mem Strings.
Open Scope Z_scope.

Record vmstate := mk_vm { vm_k : State; vm_mem : mem }.
Abbreviation V := (M vmstate).

Definition in_k {A} (c : K A) : V A := lift vm_k (fun k s => mk_vm k (vm_mem s)) c.
Definition in_mem {A} (c : M mem A) : V A := lift vm_mem (fun m s => mk_vm (vm_k s) m) c.

(** ** riscv.h *)

Definition PTE_V : Z := Z.shiftl 1 0.
Definition PTE_R : Z := Z.shiftl 1 1.
Definition PTE_W : Z := Z.shiftl 1 2.
Definition PTE_X : Z := Z.shiftl 1 3.
Definition PTE_U : Z := Z.shiftl 1 4.
Definition PA2PTE (pa : Z) : Z := u64 (Z.shiftl (Z.shiftr (u64 pa) 12) 10).
Definition PTE2PA (pte : Z) : Z := u64 (Z.shiftl (Z.shiftr pte 10) 12).
Definition PTE_FLAGS (pte : Z) : Z := Z.land pte 0x3FF.
Definition PX (level va : Z) : Z := Z.land (Z.shiftr (u64 va) (12 + 9 * level)) 0x1FF.
Definition MAXVA : Z := Z.shiftl 1 (9 + 9 + 9 + 12 - 1).
Definition PGROUNDDOWN (a : Z) : Z := Z.land a (Z.lnot (PGSIZE - 1)).

(** [pte & flag] as a condition *)
Definition has (pte flag : Z) : bool := negb (Z.land pte flag =? 0).

Section vm.
Context `{Config}.

(** ** kalloc.c with the contents of the pages

    [kalloc] fills the page it returns with 5s, [kfree] the page it takes
    with 1s. *)

Definition vkalloc : V Z :=
  let! r := in_k kalloc in
  (if negb (r =? 0) then let! _ := in_mem (memset r 5 PGSIZE) in ret tt else ret tt);;
  ret r.

Definition vkfree (pa : Z) : V unit :=
  if negb (pa mod PGSIZE =? 0) || (pa <? kernel_end) || (PHYSTOP <=? pa) then panic "kfree"
  else
    let! _ := in_mem (memset pa 1 PGSIZE) in
    in_k (kfree pa).

(** ** walk, walkaddr *)

(** The loop over the levels; the address of the level-0 entry, or 0. *)
Fixpoint walk_levels (levels : list Z) (pagetable va : Z) (alloc : bool) : V Z :=
  match levels with
  | [] => ret (pagetable + 8 * PX 0 va)
  | level :: levels =>
    let pte := pagetable + 8 * PX level va in
    let! v := in_mem (load64 pte) in
    if has v PTE_V then walk_levels levels (PTE2PA v) va alloc
    else if negb alloc then ret 0
    else
      let! pagetable := vkalloc in
      if pagetable =? 0 then ret 0
      else
        let! _ := in_mem (memset pagetable 0 PGSIZE) in
        in_mem (store64 pte (Z.lor (PA2PTE pagetable) PTE_V));;
        walk_levels levels pagetable va alloc
  end.

Definition walk (pagetable va : Z) (alloc : bool) : V Z :=
  if MAXVA <=? va then ret 0 else walk_levels [2; 1] pagetable va alloc.

Definition walkaddr (pagetable va : Z) : V Z :=
  if MAXVA <=? va then ret 0
  else
    let! pte := walk pagetable va false in
    if pte =? 0 then ret 0
    else
      let! v := in_mem (load64 pte) in
      if negb (has v PTE_V) then ret 0
      else if negb (has v PTE_U) then ret 0
      else ret (PTE2PA v).

(** ** mappages, uvmunmap *)

(** The loop of [mappages]: from [a] to [last], with at most [fuel] rounds. *)
Fixpoint mappages_loop (fuel : nat) (pagetable a last pa perm : Z) : V Z :=
  match fuel with
  | O => blocked
  | S fuel =>
    let! pte := walk pagetable a true in
    if pte =? 0 then ret (-1)
    else
      let! v := in_mem (load64 pte) in
      if has v PTE_V then panic "mappages: remap"
      else
        in_mem (store64 pte (Z.lor (Z.lor (PA2PTE pa) perm) PTE_V));;
        if a =? last then ret 0
        else mappages_loop fuel pagetable (u64 (a + PGSIZE)) last (u64 (pa + PGSIZE)) perm
  end.

(** The loop ends at [last] or, if it never meets [last], at [MAXVA]. *)
Definition mappages_rounds (a last : Z) : nat :=
  S (Z.to_nat (((if a <=? last then last else MAXVA) - a) / PGSIZE)).

Definition mappages (pagetable va size pa perm : Z) : V Z :=
  if size =? 0 then panic "mappages: size"
  else
    let a := PGROUNDDOWN va in
    let last := PGROUNDDOWN (u64 (va + size - 1)) in
    mappages_loop (mappages_rounds a last) pagetable a last pa perm.

Definition kvmmap (kpgtbl va pa sz perm : Z) : V unit :=
  let! r := mappages kpgtbl va sz pa perm in
  if negb (r =? 0) then panic "kvmmap" else ret tt.

(** [npages] is an [int] or a quotient of a 64-bit size; [va + npages*PGSIZE]
    does not wrap for the sizes below [MAXVA] the kernel passes. *)
Definition uvmunmap (pagetable va npages : Z) (do_free : bool) : V unit :=
  if negb (va mod PGSIZE =? 0) then panic "uvmunmap: not aligned"
  else
    forM (range 0 npages) (fun k =>
      let a := va + k * PGSIZE in
      let! pte := walk pagetable a false in
      if pte =? 0 then panic "uvmunmap: walk"
      else
        let! v := in_mem (load64 pte) in
        if negb (has v PTE_V) then panic "uvmunmap: not mapped"
        else if PTE_FLAGS v =? PTE_V then panic "uvmunmap: not a leaf"
        else
          (if do_free then vkfree (PTE2PA v) else ret tt);;
          in_mem (store64 pte 0)).

(** ** User address spaces *)

Definition uvmcreate : V Z :=
  let! pagetable := vkalloc in
  if pagetable =? 0 then ret 0
  else
    let! _ := in_mem (memset pagetable 0 PGSIZE) in
    ret pagetable.

(** Copies between a kernel buffer and physical memory. *)
Definition put_bytes (a : Z) (l : list Z) : M mem unit :=
  forM (zip (range 0 (Z.of_nat (length l))) l) (fun p => store (a + p.1) p.2).
Definition get_bytes (a n : Z) : M mem (list Z) :=
  foldM (range 0 n) [] (fun l i => let! b := load (a + i) in ret (l ++ [b])).

Definition uvmfirst (pagetable : Z) (src : list Z) : V unit :=
  if PGSIZE <=? Z.of_nat (length src) then panic "uvmfirst: more than a page"
  else
    let! mem := vkalloc in
    let! _ := in_mem (memset mem 0 PGSIZE) in
    let! _ := mappages pagetable 0 PGSIZE mem (Z.lor (Z.lor (Z.lor PTE_W PTE_R) PTE_X) PTE_U) in
    in_mem (put_bytes mem src).

Definition uvmdealloc (pagetable oldsz newsz : Z) : V Z :=
  if oldsz <=? newsz then ret oldsz
  else
    (if PGROUNDUP newsz <? PGROUNDUP oldsz then
       let npages := i32 ((PGROUNDUP oldsz - PGROUNDUP newsz) / PGSIZE) in
       uvmunmap pagetable (PGROUNDUP newsz) npages true
     else ret tt);;
    ret newsz.

Fixpoint uvmalloc_loop (rounds : nat) (pagetable a oldsz newsz xperm : Z) : V Z :=
  match rounds with
  | O => ret newsz
  | S rounds =>
    let! mem := vkalloc in
    if mem =? 0 then let! _ := uvmdealloc pagetable a oldsz in ret 0
    else
      let! _ := in_mem (memset mem 0 PGSIZE) in
      let! r := mappages pagetable a PGSIZE mem (Z.lor (Z.lor PTE_R PTE_U) xperm) in
      if negb (r =? 0) then
        vkfree mem;;
        let! _ := uvmdealloc pagetable a oldsz in ret 0
      else uvmalloc_loop rounds pagetable (a + PGSIZE) oldsz newsz xperm
  end.

(** [for(a = oldsz; a < newsz; a += PGSIZE)] runs once for every page. *)
Definition uvmalloc (pagetable oldsz newsz xperm : Z) : V Z :=
  if newsz <? oldsz then ret oldsz
  else
    let oldsz := PGROUNDUP oldsz in
    uvmalloc_loop (Z.to_nat ((newsz - oldsz + PGSIZE - 1) / PGSIZE)) pagetable oldsz oldsz newsz xperm.

(** [freewalk] recurses through the three levels of a page table; a deeper
    chain of entries, which no operation builds, is [Blocked] here. *)
Fixpoint freewalk (depth : nat) (pagetable : Z) : V unit :=
  match depth with
  | O => blocked
  | S depth =>
    forM (range 0 512) (fun i =>
      let! pte := in_mem (load64 (pagetable + 8 * i)) in
      if has pte PTE_V && negb (has pte (Z.lor (Z.lor PTE_R PTE_W) PTE_X)) then
        freewalk depth (PTE2PA pte);;
        in_mem (store64 (pagetable + 8 * i) 0)
      else if has pte PTE_V then panic "freewalk: leaf"
      else ret tt);;
    vkfree pagetable
  end.

Definition uvmfree (pagetable sz : Z) : V unit :=
  (if 0 <? sz then uvmunmap pagetable 0 (PGROUNDUP sz / PGSIZE) true else ret tt);;
  freewalk 3 pagetable.

Fixpoint uvmcopy_loop (rounds : nat) (old new i : Z) : V Z :=
  match rounds with
  | O => ret 0
  | S rounds =>
    let! pte := walk old i false in
    if pte =? 0 then panic "uvmcopy: pte should exist"
    else
      let! v := in_mem (load64 pte) in
      if negb (has v PTE_V) then panic "uvmcopy: page not present"
      else
        let pa := PTE2PA v in
        let flags := PTE_FLAGS v in
        let! mem := vkalloc in
        if mem =? 0 then uvmunmap new 0 (i / PGSIZE) true;; ret (-1)
        else
          let! _ := in_mem (memmove mem pa PGSIZE) in
          let! r := mappages new i PGSIZE mem flags in
          if negb (r =? 0) then
            vkfree mem;;
            uvmunmap new 0 (i / PGSIZE) true;; ret (-1)
          else uvmcopy_loop rounds old new (i + PGSIZE)
  end.
Definition uvmcopy (old new sz : Z) : V Z :=
  uvmcopy_loop (Z.to_nat ((sz + PGSIZE - 1) / PGSIZE)) old new 0.

Definition uvmclear (pagetable va : Z) : V unit :=
  let! pte := walk pagetable va false in
  if pte =? 0 then panic "uvmclear"
  else
    let! v := in_mem (load64 pte) in
    in_mem (store64 pte (Z.land v (Z.lnot PTE_U))).

(** ** Copies between kernel and user memory

    Every round copies at least one byte, so as many rounds as bytes are
    enough. *)

Fixpoint copyout_loop (fuel : nat) (pagetable dstva : Z) (src : list Z) : V Z :=
  match fuel with
  | O => ret 0
  | S fuel =>
    if Z.of_nat (length src) =? 0 then ret 0
    else
      let va0 := PGROUNDDOWN dstva in
      let! pa0 := walkaddr pagetable va0 in
      if pa0 =? 0 then ret (-1)
      else
        let n := Z.min (PGSIZE - (dstva - va0)) (Z.of_nat (length src)) in
        in_mem (put_bytes (pa0 + (dstva - va0)) (take (Z.to_nat n) src));;
        copyout_loop fuel pagetable (u64 (va0 + PGSIZE)) (drop (Z.to_nat n) src)
  end.
Definition copyout (pagetable dstva : Z) (src : list Z) : V Z :=
  copyout_loop (length src) pagetable dstva src.

(** The result and the bytes copied so far. *)
Fixpoint copyin_loop (fuel : nat) (pagetable : Z) (dst : list Z) (srcva len : Z) : V (Z * list Z) :=
  match fuel with
  | O => ret (0, dst)
  | S fuel =>
    if len =? 0 then ret (0, dst)
    else
      let va0 := PGROUNDDOWN srcva in
      let! pa0 := walkaddr pagetable va0 in
      if pa0 =? 0 then ret (-1, dst)
      else
        let n := Z.min (PGSIZE - (srcva - va0)) len in
        let! bs := in_mem (get_bytes (pa0 + (srcva - va0)) n) in
        copyin_loop fuel pagetable (dst ++ bs) (u64 (va0 + PGSIZE)) (len - n)
  end.
Definition copyin (pagetable srcva len : Z) : V (Z * list Z) :=
  copyin_loop (Z.to_nat len) pagetable [] srcva len.

(** The bytes of one page up to a NUL: the bytes copied and whether a NUL
    ended them. *)
Fixpoint copystr_page (n : nat) (p : Z) : M mem (list Z * bool) :=
  match n with
  | O => ret ([], false)
  | S n =>
    let! c := load p in
    if c =? 0 then ret ([0], true)
    else
      let! r := copystr_page n (p + 1) in
      ret (c :: r.1, r.2)
  end.
Fixpoint copyinstr_loop (fuel : nat) (pagetable : Z) (dst : list Z) (srcva max : Z) : V (Z * list Z) :=
  match fuel with
  | O => ret (-1, dst)
  | S fuel =>
    if max =? 0 then ret (-1, dst)
    else
      let va0 := PGROUNDDOWN srcva in
      let! pa0 := walkaddr pagetable va0 in
      if pa0 =? 0 then ret (-1, dst)
      else
        let n := Z.min (PGSIZE - (srcva - va0)) max in
        let! r := in_mem (copystr_page (Z.to_nat n) (pa0 + (srcva - va0))) in
        if r.2 then ret (0, dst ++ r.1)
        else copyinstr_loop fuel pagetable (dst ++ r.1) (u64 (va0 + PGSIZE)) (max - n)
  end.
Definition copyinstr (pagetable srcva max : Z) : V (Z * list Z) :=
  copyinstr_loop (Z.to_nat max) pagetable [] srcva max.

End vm.
