(* ===== verification/VmWalk.v ===== *)
(** * Page tables as trees: what [walk] does

    The pages of a page table are the nodes reached from the root along paths
    of indices ([node]).  The invariant [pt_inv] says that every node is a
    page of its own, reached along one path only, and not on the free list.
    [walk] keeps it and changes no translation ([xlate]), and with [alloc] it
    ends at the level-0 entry of the address or runs out of pages. *)

From stdpp Require Import base numbers list gmap strings.
From Stdlib Require Import ZArith Lia.
From S2P Require Import Prelude Blocks Monad State Locks Kalloc Codec Mem Strings Vm.
Open Scope Z_scope.

#[local] Arguments write_bytes : simpl never.
#[local] Arguments le_bytes : simpl never.

(** ** Page-table entries *)

Lemma has_testbit v k : 0 <= k -> has v (Z.shiftl 1 k) = Z.testbit v k.
Proof.
  intros Hk. unfold has. rewrite Z.shiftl_1_l. destruct (Z.testbit v k) eqn:Hb.
  - destruct (Z.eqb_spec (Z.land v (2 ^ k)) 0) as [Hz|]; [|done].
    apply (f_equal (fun x => Z.testbit x k)) in Hz. rewrite Z.land_spec, Z.pow2_bits_true, Hb, Z.bits_0 in Hz; done.
  - replace (Z.land v (2 ^ k)) with 0; [done|]. apply Z.bits_inj'. intros n Hn.
    rewrite Z.bits_0, Z.land_spec, Z.pow2_bits_eqb by done. destruct (Z.eqb_spec k n) as [->|]; [by rewrite Hb|].
    by rewrite andb_false_r.
Qed.

Lemma PX_range l va : 0 <= PX l va < 512.
Proof.
  unfold PX. change 0x1FF with (Z.ones 9). rewrite Z.land_ones by lia. apply Z.mod_pos_bound. lia.
Qed.

Lemma PX_div l va : 0 <= l -> 0 <= va < 2 ^ 64 -> PX l va = va / 2 ^ (12 + 9 * l) mod 512.
Proof.
  intros Hl Hv. unfold PX. rewrite u64_small by done. change 0x1FF with (Z.ones 9).
  by rewrite Z.land_ones, Z.shiftr_div_pow2 by lia.
Qed.

(** A page-aligned address below MAXVA is determined by its three indices. *)
Lemma PX_inj va wa : 0 <= va < MAXVA -> 0 <= wa < MAXVA -> va mod PGSIZE = 0 -> wa mod PGSIZE = 0 ->
  PX 2 va = PX 2 wa -> PX 1 va = PX 1 wa -> PX 0 va = PX 0 wa -> va = wa.
Proof.
  unfold MAXVA, PGSIZE. change (Z.shiftl 1 _) with (2 ^ 38). intros Hv Hw Hva Hwa.
  rewrite !PX_div by lia. simpl (12 + _).
  change (2 ^ (12 + 9 * 2)) with (4096 * 512 * 512). change (2 ^ (12 + 9 * 1)) with (4096 * 512).
  change (2 ^ (12 + 9 * 0)) with 4096. rewrite <- !Z.div_div by lia.
  assert (Hs : forall x, 0 <= x < 2 ^ 38 -> 0 <= x / 4096 / 512 / 512 < 512).
  { intros x Hx. rewrite !Z.div_div by lia. split; [apply Z.div_pos; lia|].
    apply Z.div_lt_upper_bound; lia. }
  pose proof (Hs va Hv). pose proof (Hs wa Hw). rewrite !(Z.mod_small (_ / 512)) by lia.
  pose proof (Z.div_mod va 4096 ltac:(lia)). pose proof (Z.div_mod wa 4096 ltac:(lia)).
  pose proof (Z.div_mod (va / 4096) 512 ltac:(lia)). pose proof (Z.div_mod (wa / 4096) 512 ltac:(lia)).
  pose proof (Z.div_mod (va / 4096 / 512) 512 ltac:(lia)). pose proof (Z.div_mod (wa / 4096 / 512) 512 ltac:(lia)).
  lia.
Qed.

Section pte.
Variables (pa perm : Z).
Hypothesis Hpa : 0 <= pa < 2 ^ 56.
Hypothesis Hal : pa mod PGSIZE = 0.
Hypothesis Hperm : 0 <= perm < 1024.

Lemma PA2PTE_mul : PA2PTE pa = pa / PGSIZE * 1024.
Proof.
  unfold PA2PTE, PGSIZE. rewrite (u64_small pa) by lia.
  rewrite Z.shiftl_mul_pow2, Z.shiftr_div_pow2 by lia. change (2 ^ 12) with 4096. change (2 ^ 10) with 1024.
  apply u64_small. pose proof (Z.div_mod pa 4096 ltac:(lia)). pose proof (Z.mod_pos_bound pa 4096 ltac:(lia)). lia.
Qed.

Lemma PA2PTE_lor : Z.lor (PA2PTE pa) perm = pa / PGSIZE * 1024 + perm.
Proof.
  rewrite PA2PTE_mul. symmetry.
  rewrite <- Z.lxor_lor; [apply Z.add_nocarry_lxor|]; apply Z.bits_inj'; intros n Hn;
    rewrite Z.land_spec, Z.bits_0; change 1024 with (2 ^ 10); destruct (Z.lt_ge_cases n 10).
  all: try (by rewrite Z.mul_pow2_bits_low).
  all: rewrite (Z.bits_above_log2 perm n), andb_false_r; [done|lia|].
  all: destruct (Z.eq_dec perm 0) as [->|]; [simpl; lia|]; apply Z.log2_lt_pow2; [lia|];
    apply Z.lt_le_trans with (2 ^ 10); [lia|]; apply Z.pow_le_mono_r; lia.
Qed.

Lemma PTE2PA_lor : PTE2PA (Z.lor (PA2PTE pa) perm) = pa.
Proof.
  rewrite PA2PTE_lor. unfold PTE2PA, PGSIZE in *. rewrite Z.shiftl_mul_pow2, Z.shiftr_div_pow2 by lia.
  change (2 ^ 12) with 4096. change (2 ^ 10) with 1024.
  rewrite Z.div_add_l, (Z.div_small perm), Z.add_0_r by lia.
  pose proof (Z.div_mod pa 4096 ltac:(lia)). rewrite u64_small; lia.
Qed.

Lemma PTE_FLAGS_lor : PTE_FLAGS (Z.lor (PA2PTE pa) perm) = perm.
Proof.
  rewrite PA2PTE_lor. unfold PTE_FLAGS. change 0x3FF with (Z.ones 10). rewrite Z.land_ones by lia.
  change (2 ^ 10) with 1024. rewrite Z.add_comm, Z.mod_add, Z.mod_small by lia. done.
Qed.

Lemma pte_range : 0 <= Z.lor (PA2PTE pa) perm < 2 ^ 64.
Proof.
  rewrite PA2PTE_lor. unfold PGSIZE. pose proof (Z.div_pos pa 4096 ltac:(lia) ltac:(lia)).
  pose proof (Z.mul_div_le pa 4096 ltac:(lia)). lia.
Qed.
End pte.

Lemma has_lor_V x : has (Z.lor x PTE_V) PTE_V = true.
Proof. unfold PTE_V. rewrite has_testbit, Z.lor_spec by lia. apply orb_true_r. Qed.

(** The entry [PA2PTE(pa) | perm | PTE_V]. *)
Definition mk_pte (pa perm : Z) : Z := Z.lor (Z.lor (PA2PTE pa) perm) PTE_V.

Lemma lor_V_range perm : 0 <= perm < 1024 -> 0 <= Z.lor perm PTE_V < 1024.
Proof.
  intros Hp. change PTE_V with 1. split; [apply Z.lor_nonneg; lia|].
  destruct (Z.eq_dec perm 0) as [->|]; [done|]. apply (Z.log2_lt_cancel _ 1024).
  rewrite Z.log2_lor by lia. change (Z.log2 1) with 0. rewrite Z.max_l by apply Z.log2_nonneg.
  change (Z.log2 1024) with 10. apply Z.log2_lt_pow2; lia.
Qed.

Lemma mk_pte_facts pa perm : 0 <= pa < 2 ^ 56 -> pa mod PGSIZE = 0 -> 0 <= perm < 1024 ->
  has (mk_pte pa perm) PTE_V = true /\ PTE2PA (mk_pte pa perm) = pa /\
  PTE_FLAGS (mk_pte pa perm) = Z.lor perm PTE_V /\ u64 (mk_pte pa perm) = mk_pte pa perm.
Proof.
  intros Hpa Hal Hperm. pose proof (lor_V_range perm Hperm) as Hv. unfold mk_pte.
  split; [apply has_lor_V|]. rewrite <- Z.lor_assoc. split_and!.
  - by apply PTE2PA_lor.
  - by apply PTE_FLAGS_lor.
  - apply u64_small. by apply pte_range.
Qed.

(** ** The tree of a page table *)

Definition child (m : mem) (page i : Z) : option Z :=
  let v := rd64 m (page + 8 * i) in if has v PTE_V then Some (PTE2PA v) else None.

Fixpoint node (m : mem) (root : Z) (path : list Z) : option Z :=
  match path with
  | [] => Some root
  | i :: path => child m root i ≫= (fun c => node m c path)
  end.

(** The paths of the pages of a page table: at most two indices. *)
Definition path_ok (p : list Z) : Prop := (length p <= 2)%nat /\ Forall (fun i => 0 <= i < 512) p.

(** The valid level-0 entry of an address. *)
Definition xlate (m : mem) (root va : Z) : option Z :=
  node m root [PX 2 va; PX 1 va] ≫= (fun c =>
  let v := rd64 m (c + 8 * PX 0 va) in if has v PTE_V then Some v else None).

Lemma node_snoc m root p i : node m root (p ++ [i]) = (node m root p ≫= fun c => child m c i).
Proof.
  revert root. induction p as [|j p IH]; intros root; simpl; [by destruct (child m root i)|].
  destruct (child m root j); simpl; [apply IH|done].
Qed.

Lemma path_ok_snoc p i : path_ok (p ++ [i]) <-> (length p < 2)%nat /\ path_ok p /\ 0 <= i < 512.
Proof. unfold path_ok. rewrite length_app, Forall_app, Forall_singleton. simpl. naive_solver lia. Qed.

Lemma path_ok_va va : path_ok [PX 2 va; PX 1 va].
Proof. split; [simpl; lia|]. repeat constructor; apply PX_range. Qed.

Section tree.
Context `{Config}.

Lemma pages_disjoint a b : page_ok a -> page_ok b -> a <> b -> a + PGSIZE <= b \/ b + PGSIZE <= a.
Proof.
  unfold page_ok, PGSIZE. intros [Ha _] [Hb _] Hne.
  pose proof (Z.div_mod a 4096 ltac:(lia)). pose proof (Z.div_mod b 4096 ltac:(lia)). lia.
Qed.

(** The page allocator's part of the state. *)
Record vm_ok (s : vmstate) : Prop := {
  vo_cpu : cpu_quiet (st_cpu (vm_k s));
  vo_lock : free_spin (vm_k s) KmemLock;
  vo_free : free_wf (vm_k s);
  vo_mapped : forall p, p ∈ st_free (vm_k s) -> mapped (vm_mem s) p PGSIZE;
}.

Record pt_wf (free : list Z) (m : mem) (root : Z) : Prop := {
  pw_node : forall p c, path_ok p -> node m root p = Some c ->
    page_ok c /\ (c ∉ free) /\ mapped m c PGSIZE;
  pw_inj : forall p q c, path_ok p -> path_ok q -> node m root p = Some c -> node m root q = Some c -> p = q;
}.

Definition pt_inv (s : vmstate) (root : Z) : Prop :=
  vm_ok s /\ pt_wf (st_free (vm_k s)) (vm_mem s) root.

(** Entries are read from nodes only, so memory elsewhere does not matter. *)
Lemma node_frame m m' root p : path_ok p ->
  (forall q c i, (length q < 2)%nat -> path_ok q -> node m root q = Some c -> 0 <= i < 512 ->
    rd64 m' (c + 8 * i) = rd64 m (c + 8 * i)) ->
  node m' root p = node m root p.
Proof.
  intros Hp Hm. induction p as [|i p IH] using rev_ind; [done|].
  apply path_ok_snoc in Hp as (Hl & Hp & Hi). rewrite !node_snoc, IH by done.
  destruct (node m root p) as [c|] eqn:Hc; simpl; [|done]. unfold child. by rewrite (Hm p c i).
Qed.

(** ** Linking a new page

    [pg] is a zeroed page, taken from the free list, that becomes the child
    [i] of the node [c0] at path [p]. *)

Section link.
Variables (free : list Z) (m m1 : mem) (root pg c0 i : Z) (p : list Z).
Hypothesis Hwf : pt_wf free m root.
Hypothesis Hpg : pg ∈ free.
Hypothesis Hpgok : page_ok pg.
Hypothesis Hpgr : 0 <= pg < 2 ^ 56.
Hypothesis Hsame : forall x, ~ (pg <= x < pg + PGSIZE) -> m1 !! x = m !! x.
Hypothesis Hzero : forall x, pg <= x < pg + PGSIZE -> m1 !! x = Some 0.
Hypothesis Hp : path_ok p.
Hypothesis Hlen : (length p < 2)%nat.
Hypothesis Hi : 0 <= i < 512.
Hypothesis Hc0 : node m root p = Some c0.
Hypothesis Hnone : child m c0 i = None.

Let m' := write_bytes m1 (c0 + 8 * i) (le_bytes 8 (mk_pte pg 0)).

Lemma link_ne q c : path_ok q -> node m root q = Some c -> c <> pg.
Proof. intros Hq Hc ->. destruct (pw_node _ _ _ Hwf q pg Hq Hc) as (_ & Hn & _). done. Qed.

(** The entries of the old nodes: only the one written changes. *)
Lemma link_entry q c j : path_ok q -> node m root q = Some c -> 0 <= j < 512 -> ~ (q = p /\ j = i) ->
  rd64 m' (c + 8 * j) = rd64 m (c + 8 * j).
Proof.
  intros Hq Hc Hj Hne. pose proof (link_ne q c Hq Hc) as Hcpg.
  destruct (pw_node _ _ _ Hwf q c Hq Hc) as (Hcok & _ & _).
  destruct (pw_node _ _ _ Hwf p c0 Hp Hc0) as (Hc0ok & _ & _).
  unfold m'. rewrite rd64_write_ne.
  - apply rd64_ext. intros x Hx. apply Hsame.
    destruct (pages_disjoint c pg Hcok Hpgok Hcpg); unfold PGSIZE in *; lia.
  - rewrite le_bytes_length. destruct (decide (c = c0)) as [->|Hcc].
    + assert (q = p) by (by eapply (pw_inj _ _ _ Hwf)). destruct (decide (j = i)); [naive_solver|]. lia.
    + destruct (pages_disjoint c c0 Hcok Hc0ok Hcc); unfold PGSIZE in *; lia.
Qed.

Lemma link_entry_new : rd64 m' (c0 + 8 * i) = mk_pte pg 0.
Proof.
  unfold m'. rewrite rd64_write_eq. apply mk_pte_facts; [done|apply Hpgok|lia].
Qed.

Lemma link_entry_zero j : 0 <= j < 512 -> rd64 m' (pg + 8 * j) = 0.
Proof.
  intros Hj. pose proof (link_ne p c0 Hp Hc0) as Hne.
  destruct (pw_node _ _ _ Hwf p c0 Hp Hc0) as (Hc0ok & _ & _).
  unfold m'. rewrite rd64_write_ne.
  - apply (rd64_zero _ pg PGSIZE); unfold PGSIZE in *; [done|lia|lia].
  - rewrite le_bytes_length. destruct (pages_disjoint c0 pg Hc0ok Hpgok Hne); unfold PGSIZE in *; lia.
Qed.

Lemma link_node q : path_ok q ->
  node m' root q = if decide (q = p ++ [i]) then Some pg else node m root q.
Proof.
  induction q as [|j q IH] using rev_ind; intros Hq.
  { rewrite decide_False; [done|]. by destruct p. }
  apply path_ok_snoc in Hq as (Hl & Hq & Hj). rewrite !node_snoc, IH by done. clear IH.
  destruct (decide (q = p ++ [i])) as [->|Hq1].
  { rewrite decide_False.
    2:{ intros [He _]%app_inj_tail. apply (f_equal length) in He. rewrite length_app in He. simpl in He. lia. }
    simpl. rewrite node_snoc, Hc0. simpl. rewrite Hnone. unfold child. by rewrite link_entry_zero. }
  destruct (decide (q ++ [j] = p ++ [i])) as [[-> ->]%app_inj_tail|Hne].
  - rewrite Hc0. simpl. unfold child. rewrite link_entry_new.
    destruct (mk_pte_facts pg 0) as (-> & -> & _); [done|apply Hpgok|lia|done].
  - destruct (node m root q) as [c|] eqn:Hc; simpl; [|done]. unfold child.
    rewrite (link_entry q c j); [done|done|done|done|]. intros [-> ->]. done.
Qed.

Lemma link_mapped x n : mapped m x n -> mapped m' x n.
Proof.
  intros Hm. apply mapped_write_bytes. intros y Hy. destruct (decide (pg <= y < pg + PGSIZE)).
  - rewrite Hzero by done. eauto.
  - rewrite Hsame by done. by apply Hm.
Qed.

Lemma link_wf free' : mapped m pg PGSIZE -> pg ∉ free' -> (forall x, x ∈ free' -> x ∈ free) ->
  pt_wf free' m' root.
Proof.
  intros Hmp Hpf Hsub. constructor.
  - intros q c Hq. rewrite link_node by done. destruct decide as [->|Hq1].
    { intros [= <-]. split_and!; [done|done|]. by apply link_mapped. }
    intros Hc. destruct (pw_node _ _ _ Hwf q c Hq Hc) as (? & Hn & ?).
    split_and!; [done|naive_solver|]. by apply link_mapped.
  - intros q r c Hq Hr. rewrite !link_node by done.
    destruct (decide (q = _)) as [->|], (decide (r = _)) as [->|]; try done.
    + intros [= <-] Hc. by destruct (link_ne r pg Hr Hc).
    + intros Hc [= <-]. by destruct (link_ne q pg Hq Hc).
    + by apply (pw_inj _ _ _ Hwf).
Qed.

Lemma link_xlate va : xlate m' root va = xlate m root va.
Proof.
  unfold xlate. rewrite link_node by apply path_ok_va. destruct decide as [He|Hne].
  - rewrite He, node_snoc, Hc0. simpl. rewrite Hnone. simpl. rewrite link_entry_zero by apply PX_range. done.
  - destruct (node m root [PX 2 va; PX 1 va]) as [c|] eqn:Hc; simpl; [|done].
    rewrite (link_entry [PX 2 va; PX 1 va] c); [done|apply path_ok_va|done|apply PX_range|].
    intros [He _]. rewrite <- He in Hlen. simpl in Hlen. lia.
Qed.

End link.

(** ** Writing a level-0 entry *)

Section leaf.
Variables (free : list Z) (m : mem) (root va c v : Z).
Hypothesis Hwf : pt_wf free m root.
Hypothesis Hc : node m root [PX 2 va; PX 1 va] = Some c.

Let m' := write_bytes m (c + 8 * PX 0 va) (le_bytes 8 v).

Lemma leaf_entry q d j : path_ok q -> node m root q = Some d -> 0 <= j < 512 ->
  ~ (q = [PX 2 va; PX 1 va] /\ j = PX 0 va) -> rd64 m' (d + 8 * j) = rd64 m (d + 8 * j).
Proof.
  intros Hq Hd Hj Hne. pose proof (PX_range 0 va).
  destruct (pw_node _ _ _ Hwf q d Hq Hd) as (Hdok & _).
  destruct (pw_node _ _ _ Hwf _ c (path_ok_va va) Hc) as (Hcok & _).
  unfold m'. rewrite rd64_write_ne; [done|]. rewrite le_bytes_length.
  destruct (decide (d = c)) as [->|Hdc].
  - assert (q = [PX 2 va; PX 1 va]) by (eapply (pw_inj _ _ _ Hwf); [done|apply path_ok_va|done|done]).
    destruct (decide (j = PX 0 va)); [naive_solver|]. lia.
  - destruct (pages_disjoint d c Hdok Hcok Hdc); unfold PGSIZE in *; lia.
Qed.

Lemma leaf_node q : path_ok q -> node m' root q = node m root q.
Proof.
  intros Hq. apply node_frame; [done|]. intros r d j Hl Hr Hd Hj. apply (leaf_entry r); [done..|].
  intros [-> _]. simpl in Hl. lia.
Qed.

Lemma leaf_wf : pt_wf free m' root.
Proof.
  constructor.
  - intros p d Hp. rewrite leaf_node by done. intros Hd.
    destruct (pw_node _ _ _ Hwf p d Hp Hd) as (? & ? & ?). split_and!; [done|done|]. by apply mapped_write_bytes.
  - intros p q d Hp Hq. rewrite !leaf_node by done. by apply (pw_inj _ _ _ Hwf).
Qed.

Lemma leaf_xlate wa : 0 <= va < MAXVA -> va mod PGSIZE = 0 -> 0 <= wa < MAXVA -> wa mod PGSIZE = 0 ->
  xlate m' root wa = if decide (wa = va) then (if has (u64 v) PTE_V then Some (u64 v) else None)
                     else xlate m root wa.
Proof.
  intros Hva Hal Hwa Hwl. unfold xlate. rewrite leaf_node by apply path_ok_va. destruct decide as [->|Hne].
  - rewrite Hc. simpl. unfold m'. by rewrite rd64_write_eq.
  - destruct (node m root [PX 2 wa; PX 1 wa]) as [d|] eqn:Hd; simpl; [|done].
    rewrite (leaf_entry [PX 2 wa; PX 1 wa] d); [done|apply path_ok_va|done|apply PX_range|].
    intros [[= H2 H1] H0]. apply Hne. by apply PX_inj.
Qed.

End leaf.

(** ** Running [kalloc] and [kfree] *)

(** A page full of one byte. *)
Definition page_fill (b : Z) : list Z := replicate (Z.to_nat PGSIZE) b.
Lemma page_fill_length b : Z.of_nat (length (page_fill b)) = PGSIZE.
Proof. unfold page_fill. by rewrite length_replicate, Z2Nat.id. Qed.
Lemma page_fill_lookup m p b x : p <= x < p + PGSIZE -> write_bytes m p (page_fill b) !! x = Some b.
Proof.
  intros Hx. rewrite write_bytes_in by (by rewrite page_fill_length).
  apply lookup_replicate_2. apply Nat2Z.inj_lt. rewrite !Z2Nat.id; unfold PGSIZE in *; lia.
Qed.
Lemma page_fill_out m p b x : ~ (p <= x < p + PGSIZE) -> write_bytes m p (page_fill b) !! x = m !! x.
Proof. intros Hx. apply write_bytes_out. by rewrite page_fill_length. Qed.
Lemma memset_page m p c : 0 <= c < 256 -> mapped m p PGSIZE ->
  memset p c PGSIZE m = Done p (write_bytes m p (page_fill c)).
Proof. intros Hc Hm. rewrite memset_done by (done || unfold PGSIZE; lia). by rewrite u8_small by lia. Qed.
#[global] Opaque page_fill.

Lemma wp_in_mem {A} (c : M mem A) a m' (Q : A -> vmstate -> Prop) s :
  c (vm_mem s) = Done a m' -> Q a (mk_vm (vm_k s) m') -> wp (in_mem c) Q s.
Proof. intros Hc HQ. apply wp_lift. unfold wp. by rewrite Hc. Qed.
Lemma wp_in_k {A} (c : K A) a k' (Q : A -> vmstate -> Prop) s :
  c (vm_k s) = Done a k' -> Q a (mk_vm k' (vm_mem s)) -> wp (in_k c) Q s.
Proof. intros Hc HQ. apply wp_lift. unfold wp. by rewrite Hc. Qed.

Context `{!ConfigOK}.

Lemma page_range pa : page_ok pa -> 0 < pa < 2 ^ 56.
Proof. intros [_ Hp]. pose proof kernel_end_range. unfold PHYSTOP, KERNBASE in *. lia. Qed.

Lemma wp_vkalloc (Q : Z -> vmstate -> Prop) s : vm_ok s ->
  (st_free (vm_k s) = [] -> Q 0 s) ->
  (forall r next, st_free (vm_k s) = r :: next -> page_ok r ->
    Q r (mk_vm (set_free next (vm_k s)) (write_bytes (vm_mem s) r (page_fill 5)))) ->
  wp vkalloc Q s.
Proof.
  intros [Hc Hl [Hnd Hok] Hm] HQ0 HQ1. unfold vkalloc. apply wp_bind.
  pose proof (kalloc_done (vm_k s) Hc Hl) as Hk. destruct (st_free (vm_k s)) as [|r next] eqn:Hf.
  - eapply wp_in_k; [exact Hk|]. simpl. wp_steps. destruct s. by apply HQ0.
  - eapply wp_in_k; [exact Hk|]. inversion Hok as [|? ? Hr]; subst. pose proof (page_range r Hr).
    destruct (Z.eqb_spec r 0); [lia|]. simpl. wp_steps.
    eapply wp_in_mem; [apply memset_page; [lia|apply Hm; set_solver]|].
    wp_steps. apply HQ1; done.
Qed.

Lemma wp_vkfree pa (Q : unit -> vmstate -> Prop) s : vm_ok s -> page_ok pa -> mapped (vm_mem s) pa PGSIZE ->
  Q tt (mk_vm (set_free (pa :: st_free (vm_k s)) (vm_k s))
    (write_bytes (vm_mem s) pa (page_fill 1))) ->
  wp (vkfree pa) Q s.
Proof.
  intros [Hc Hl Hw Hm] Hpa Hmp HQ. pose proof Hpa as [Ha Hr]. unfold vkfree.
  rewrite (proj2 (Z.eqb_eq _ _) Ha).
  destruct (Z.ltb_spec pa kernel_end); [lia|]. destruct (Z.leb_spec PHYSTOP pa); [lia|]. simpl. wp_steps.
  eapply wp_in_mem; [apply memset_page; [lia|done]|]. by eapply wp_in_k; [apply kfree_done|].
Qed.

(** ** [walk] *)

(** What walking with [alloc] may do to the state: take pages from the free
    list for new nodes.  No translation changes, and no page that was neither
    free nor a node does. *)
Record grown (root : Z) (s s' : vmstate) : Prop := {
  gr_inv : pt_inv s' root;
  gr_node : forall p c, path_ok p -> node (vm_mem s) root p = Some c -> node (vm_mem s') root p = Some c;
  gr_xlate : forall va, xlate (vm_mem s') root va = xlate (vm_mem s) root va;
  gr_free : exists l, st_free (vm_k s) = l ++ st_free (vm_k s');
  gr_state : vm_k s' = set_free (st_free (vm_k s')) (vm_k s);
  gr_same : forall pg, page_ok pg -> pg ∉ st_free (vm_k s) ->
    (forall p, path_ok p -> node (vm_mem s) root p <> Some pg) ->
    (forall p, path_ok p -> node (vm_mem s') root p <> Some pg) /\
    (forall x, pg <= x < pg + PGSIZE -> vm_mem s' !! x = vm_mem s !! x);
  gr_mapped : forall a n, mapped (vm_mem s) a n -> mapped (vm_mem s') a n;
}.

Lemma grown_refl root s : pt_inv s root -> grown root s s.
Proof.
  intros Hi. constructor; try done; [by exists []|by destruct s as [[]]].
Qed.

Lemma grown_trans root s1 s2 s3 : grown root s1 s2 -> grown root s2 s3 -> grown root s1 s3.
Proof.
  intros [I1 N1 X1 [l1 F1] S1 D1 M1] [I2 N2 X2 [l2 F2] S2 D2 M2]. constructor; [done|auto|..].
  - intros va. by rewrite X2.
  - exists (l1 ++ l2). by rewrite <- app_assoc, <- F2.
  - rewrite S2, S1. done.
  - intros pg Hpg Hf Hn. destruct (D1 pg Hpg Hf Hn) as [Hn2 Hs2].
    destruct (D2 pg Hpg) as [Hn3 Hs3]; [rewrite F1 in Hf; set_solver|done|].
    split; [done|]. intros x Hx. rewrite Hs3 by done. by apply Hs2.
  - auto.
Qed.

Lemma entry_mapped (m : mem) c i : mapped m c PGSIZE -> 0 <= i < 512 -> mapped m (c + 8 * i) 8.
Proof. intros Hm Hi. eapply mapped_le; [| |exact Hm]; unfold PGSIZE; lia. Qed.

(** The first page of the free list. *)
Lemma free_head s root pg next : pt_inv s root -> st_free (vm_k s) = pg :: next ->
  page_ok pg /\ mapped (vm_mem s) pg PGSIZE /\ (pg ∉ next) /\ free_wf (set_free next (vm_k s)).
Proof.
  intros [[Hc Hl [Hnd Hok] Hm] Hwf] Hfree. unfold free_wf. simpl. rewrite Hfree in *.
  inversion Hnd; inversion Hok; subst. split_and!; [done|apply Hm; set_solver|done|done|done].
Qed.

Section link_state.
Variables (s : vmstate) (root c0 i pg : Z) (p next : list Z).
Hypothesis Hinv : pt_inv s root.
Hypothesis Hp : path_ok p.
Hypothesis Hlen : (length p < 2)%nat.
Hypothesis Hi : 0 <= i < 512.
Hypothesis Hc0 : node (vm_mem s) root p = Some c0.
Hypothesis Hnone : child (vm_mem s) c0 i = None.
Hypothesis Hfree : st_free (vm_k s) = pg :: next.

Let m1 := write_bytes (write_bytes (vm_mem s) pg (page_fill 5)) pg (page_fill 0).
Let s' := mk_vm (set_free next (vm_k s)) (write_bytes m1 (c0 + 8 * i) (le_bytes 8 (mk_pte pg 0))).

Lemma link_m1_same x : ~ (pg <= x < pg + PGSIZE) -> m1 !! x = vm_mem s !! x.
Proof. intros Hx. unfold m1. by rewrite !page_fill_out. Qed.
Lemma link_m1_zero x : pg <= x < pg + PGSIZE -> m1 !! x = Some 0.
Proof. intros Hx. unfold m1. by rewrite page_fill_lookup. Qed.

Lemma link_grown : grown root s s' /\ node (vm_mem s') root (p ++ [i]) = Some pg.
Proof.
  destruct (free_head s root pg next Hinv Hfree) as (Hpg & Hmp & Hpn & Hfw). pose proof (page_range pg Hpg) as Hr.
  destruct Hinv as [Hvo Hwf].
  assert (Hin : pg ∈ st_free (vm_k s)) by (rewrite Hfree; set_solver).
  assert (Hnode : forall q, path_ok q -> node (vm_mem s') root q =
      if decide (q = p ++ [i]) then Some pg else node (vm_mem s) root q).
  { intros q Hq. eapply link_node with (free := st_free (vm_k s));
      try done; [lia|apply link_m1_same|apply link_m1_zero]. }
  split; [|rewrite Hnode by (by apply path_ok_snoc); by rewrite decide_True].
  assert (Hmap : forall a n, mapped (vm_mem s) a n -> mapped (vm_mem s') a n).
  { intros a n Hm. unfold s', m1. do 3 apply mapped_write_bytes. exact Hm. }
  constructor.
  - split.
    + destruct Hvo as [Hc Hl Hf Hm]. constructor; [done|done|done|]. intros q Hq. apply Hmap, Hm.
      rewrite Hfree. simpl in Hq. set_solver.
    + simpl. eapply link_wf with (free := st_free (vm_k s)); try done; [lia|apply link_m1_same|apply link_m1_zero|].
      rewrite Hfree. set_solver.
  - intros q c Hq Hc. rewrite Hnode by done. destruct decide as [->|]; [|done].
    rewrite node_snoc, Hc0 in Hc. simpl in Hc. by rewrite Hnone in Hc.
  - intros va. eapply link_xlate with (free := st_free (vm_k s));
      try done; [lia|apply link_m1_same|apply link_m1_zero].
  - exists [pg]. done.
  - done.
  - intros q Hq Hqf Hqn. assert (q <> pg) as Hne by (intros ->; done). split.
    + intros r Hrk. rewrite Hnode by done. destruct decide; [congruence|]. by apply Hqn.
    + intros x Hx. destruct (pw_node _ _ _ Hwf p c0 Hp Hc0) as (Hc0ok & _).
      assert (q <> c0) as Hne2 by (intros ->; by apply (Hqn p)).
      destruct (pages_disjoint q pg Hq Hpg Hne), (pages_disjoint q c0 Hq Hc0ok Hne2);
        simpl; (rewrite write_bytes_out; [apply link_m1_same|rewrite le_bytes_length]); unfold PGSIZE in *; lia.
  - done.
Qed.
End link_state.

Lemma wp_walk_step levels level va alloc p c root (Q : Z -> vmstate -> Prop) s :
  pt_inv s root -> path_ok p -> (length p < 2)%nat -> node (vm_mem s) root p = Some c ->
  (forall s' c', grown root s s' -> (alloc = false -> s' = s) ->
    (length (st_free (vm_k s)) <= S (length (st_free (vm_k s'))))%nat ->
    node (vm_mem s') root (p ++ [PX level va]) = Some c' ->
    wp (walk_levels levels c' va alloc) Q s') ->
  (node (vm_mem s) root (p ++ [PX level va]) = None ->
    alloc = false \/ st_free (vm_k s) = [] -> Q 0 s) ->
  wp (walk_levels (level :: levels) c va alloc) Q s.
Proof.
  intros Hinv Hp Hlen Hc Hgo Hz. pose proof (PX_range level va) as Hi. pose proof Hinv as [Hvo Hwf].
  destruct (pw_node _ _ _ Hwf p c Hp Hc) as (Hcok & Hcf & Hcm).
  cbn [walk_levels]. apply wp_bind. eapply wp_in_mem; [apply load64_done; by apply entry_mapped|].
  replace (mk_vm (vm_k s) (vm_mem s)) with s by (by destruct s).
  destruct (has _ PTE_V) eqn:Hv.
  { apply Hgo; [by apply grown_refl|done|lia|]. rewrite node_snoc, Hc. simpl. unfold child. by rewrite Hv. }
  assert (Hn : child (vm_mem s) c (PX level va) = None) by (unfold child; by rewrite Hv).
  assert (Hn' : node (vm_mem s) root (p ++ [PX level va]) = None) by (by rewrite node_snoc, Hc).
  destruct alloc; simpl; [|apply wp_ret, Hz; auto].
  apply wp_bind, wp_vkalloc; [done|intros Hf; apply wp_ret, Hz; auto|].
  intros pg next Hf Hpg. pose proof (page_range pg Hpg). destruct (Z.eqb_spec pg 0); [lia|].
  apply wp_bind. eapply wp_in_mem.
  { apply memset_page; [lia|]. simpl. apply mapped_write_bytes, (vo_mapped _ Hvo). rewrite Hf. set_solver. }
  apply wp_bind. eapply wp_in_mem.
  { apply store64_done. simpl. do 2 apply mapped_write_bytes. by apply entry_mapped. }
  simpl. rewrite <- (Z.lor_0_r (PA2PTE pg)).
  destruct (link_grown s root c (PX level va) pg p next) as [Hg Hnode]; [done..|].
  apply Hgo; [done|done| |done]. rewrite Hf. simpl. lia.
Qed.

(** [walk] without [alloc] only looks. *)
Lemma wp_walk_look root va (Q : Z -> vmstate -> Prop) s : pt_inv s root ->
  (MAXVA <= va -> Q 0 s) ->
  (va < MAXVA -> node (vm_mem s) root [PX 2 va; PX 1 va] = None -> Q 0 s) ->
  (forall c, va < MAXVA -> node (vm_mem s) root [PX 2 va; PX 1 va] = Some c -> Q (c + 8 * PX 0 va) s) ->
  wp (walk root va false) Q s.
Proof.
  intros Hinv H1 H2 H3. unfold walk. destruct (Z.leb_spec MAXVA va); [by apply wp_ret, H1|].
  apply wp_walk_step with (p := []) (root := root); [done|by repeat constructor|simpl; lia|done| |].
  - intros s1 c1 _ Hs _ Hc. rewrite Hs in * by done.
    apply wp_walk_step with (p := [PX 2 va]) (root := root); [done| |simpl; lia|done| |].
    + split; [simpl; lia|]. repeat constructor; apply PX_range.
    + intros s2 c2 _ Hs2 _ Hc2. rewrite Hs2 in * by done. apply wp_ret. by apply H3.
    + intros Hn _. by apply H2.
  - intros Hn _. apply H2; [done|]. change [PX 2 va; PX 1 va] with (([] ++ [PX 2 va]) ++ [PX 1 va]).
    by rewrite node_snoc, Hn.
Qed.

(** [walk] with [alloc] finds the level-0 entry, or fewer than the two pages
    it may need are free. *)
Lemma wp_walk_alloc root va (Q : Z -> vmstate -> Prop) s : pt_inv s root ->
  (MAXVA <= va -> Q 0 s) ->
  (forall s', va < MAXVA -> grown root s s' -> (length (st_free (vm_k s)) < 2)%nat -> Q 0 s') ->
  (forall s' c, va < MAXVA -> grown root s s' ->
    (length (st_free (vm_k s)) <= 2 + length (st_free (vm_k s')))%nat ->
    node (vm_mem s') root [PX 2 va; PX 1 va] = Some c -> Q (c + 8 * PX 0 va) s') ->
  wp (walk root va true) Q s.
Proof.
  intros Hinv H1 H2 H3. unfold walk. destruct (Z.leb_spec MAXVA va); [by apply wp_ret, H1|].
  apply wp_walk_step with (p := []) (root := root); [done|by repeat constructor|simpl; lia|done| |].
  - intros s1 c1 Hg1 _ Hl1 Hc.
    apply wp_walk_step with (p := [PX 2 va]) (root := root); [apply Hg1| |simpl; lia|done| |].
    + split; [simpl; lia|]. repeat constructor; apply PX_range.
    + intros s2 c2 Hg2 _ Hl2 Hc2. apply wp_ret. apply H3; [done|by eapply grown_trans|lia|done].
    + intros _ [?|Hf]; [done|]. rewrite Hf in Hl1. simpl in Hl1. apply H2; [done|done|lia].
  - intros _ [?|Hf]; [done|]. apply H2; [done|by apply grown_refl|]. rewrite Hf. simpl. lia.
Qed.

End tree.
