(* ===== verification/VmSpace.v ===== *)
(** * Address spaces: [mappages], [walkaddr], [copyout], [copyin]

    What the operations of kernel/vm.c do to the translations of a page table
    and to the memory a process sees through it. *)

From stdpp Require Import base numbers list gmap strings.
From Stdlib Require Import ZArith Lia.
From S2P Require Import Prelude Blocks Monad State Locks Kalloc Codec Mem Strings Vm VmWalk.
Open Scope Z_scope.

#[local] Arguments write_bytes : simpl never.
#[local] Arguments le_bytes : simpl never.

(** The page-aligned addresses a page table translates. *)
Definition va_ok (va : Z) : Prop := 0 <= va < MAXVA /\ va mod PGSIZE = 0.

Lemma MAXVA_eq : MAXVA = 2 ^ 38.
Proof. done. Qed.

Lemma PGROUNDDOWN_spec a : 0 <= a ->
  PGROUNDDOWN a mod PGSIZE = 0 /\ PGROUNDDOWN a <= a < PGROUNDDOWN a + PGSIZE /\ 0 <= PGROUNDDOWN a.
Proof.
  intros Ha. unfold PGROUNDDOWN, PGSIZE. change (Z.lnot (4096 - 1)) with (Z.lnot (Z.ones 12)).
  rewrite <- Z.ldiff_land, Z.ldiff_ones_r, Z.shiftl_mul_pow2, Z.shiftr_div_pow2 by lia.
  change (2 ^ 12) with 4096. rewrite Z_mod_mult.
  pose proof (Z.div_mod a 4096 ltac:(lia)). pose proof (Z.mod_pos_bound a 4096 ltac:(lia)).
  pose proof (Z.div_pos a 4096 Ha ltac:(lia)). lia.
Qed.

Lemma PGROUNDDOWN_aligned a : 0 <= a -> a mod PGSIZE = 0 -> PGROUNDDOWN a = a.
Proof.
  intros Ha Hal. destruct (PGROUNDDOWN_spec a Ha) as (Hm & Hr & _). unfold PGSIZE in *.
  pose proof (Z.div_mod a 4096 ltac:(lia)). pose proof (Z.div_mod (PGROUNDDOWN a) 4096 ltac:(lia)). lia.
Qed.

Lemma aligned_sub a b : a mod PGSIZE = 0 -> b mod PGSIZE = 0 -> a < b -> a + PGSIZE <= b.
Proof.
  unfold PGSIZE. intros Ha Hb Hlt. pose proof (Z.div_mod a 4096 ltac:(lia)).
  pose proof (Z.div_mod b 4096 ltac:(lia)). lia.
Qed.
Lemma aligned_add a : a mod PGSIZE = 0 -> (a + PGSIZE) mod PGSIZE = 0.
Proof. intros Ha. rewrite Z.add_mod, Ha, Z.mod_same by done. done. Qed.

Section space.
Context `{Config} `{Hcfg : !ConfigOK}.

(** What an operation on a page table leaves alone: pages that are neither
    free nor nodes, and the kernel state but for the free list. *)
Record kept (root : Z) (s s' : vmstate) : Prop := {
  kp_inv : pt_inv s' root;
  kp_free : exists l, st_free (vm_k s) = l ++ st_free (vm_k s');
  kp_state : vm_k s' = set_free (st_free (vm_k s')) (vm_k s);
  kp_same : forall pg, page_ok pg -> pg ∉ st_free (vm_k s) ->
    (forall p, path_ok p -> node (vm_mem s) root p <> Some pg) ->
    (forall p, path_ok p -> node (vm_mem s') root p <> Some pg) /\
    (forall x, pg <= x < pg + PGSIZE -> vm_mem s' !! x = vm_mem s !! x);
  kp_mapped : forall a n, mapped (vm_mem s) a n -> mapped (vm_mem s') a n;
}.

Lemma grown_kept root s s' : grown root s s' -> kept root s s'.
Proof. intros []. by constructor. Qed.

Lemma kept_refl root s : pt_inv s root -> kept root s s.
Proof. intros Hi. by apply grown_kept, grown_refl. Qed.

Lemma kept_trans root s1 s2 s3 : kept root s1 s2 -> kept root s2 s3 -> kept root s1 s3.
Proof.
  intros [I1 [l1 F1] S1 D1 M1] [I2 [l2 F2] S2 D2 M2]. constructor; [done|..].
  - exists (l1 ++ l2). by rewrite <- app_assoc, <- F2.
  - rewrite S2, S1. done.
  - intros pg Hpg Hf Hn. destruct (D1 pg Hpg Hf Hn) as [Hn2 Hs2].
    destruct (D2 pg Hpg) as [Hn3 Hs3]; [rewrite F1 in Hf; set_solver|done|].
    split; [done|]. intros x Hx. rewrite Hs3 by done. by apply Hs2.
  - auto.
Qed.

(** Storing a level-0 entry. *)
Definition put_leaf (c va v : Z) (s : vmstate) : vmstate :=
  mk_vm (vm_k s) (write_bytes (vm_mem s) (c + 8 * PX 0 va) (le_bytes 8 v)).

Lemma leaf_inv root c va v s : pt_inv s root -> node (vm_mem s) root [PX 2 va; PX 1 va] = Some c ->
  pt_inv (put_leaf c va v s) root.
Proof.
  intros [[Hc Hl Hf Hm] Hwf] Hn. split; [|by apply leaf_wf]. constructor; [done|done|done|].
  intros p Hp. apply mapped_write_bytes. by apply Hm.
Qed.

Lemma leaf_kept root c va v s : pt_inv s root -> node (vm_mem s) root [PX 2 va; PX 1 va] = Some c ->
  kept root s (put_leaf c va v s).
Proof.
  intros Hi Hn. pose proof Hi as [Hvo Hwf]. constructor.
  - by apply leaf_inv.
  - by exists [].
  - by destruct s as [[]].
  - intros pg Hpg Hf Hpn. split.
    + intros p Hp. unfold put_leaf. cbn [vm_mem]. by rewrite (leaf_node _ _ _ _ _ _ Hwf Hn) by done; apply Hpn.
    + intros x Hx. unfold put_leaf. cbn [vm_mem]. pose proof (PX_range 0 va).
      destruct (pw_node _ _ _ Hwf _ c (path_ok_va va) Hn) as (Hcok & _).
      assert (pg <> c) as Hne by (intros ->; by apply (Hpn _ (path_ok_va va))).
      rewrite write_bytes_out; [done|]. rewrite le_bytes_length.
      destruct (pages_disjoint pg c Hpg Hcok Hne); unfold PGSIZE in *; lia.
  - intros a n Hm. by apply mapped_write_bytes.
Qed.

(** ** [mappages] *)

(** [f] with the pages from [a] on, [j] of them, mapped to the pages from [pa]. *)
Definition map_range (f : Z -> option Z) (a j pa perm wa : Z) : option Z :=
  if decide (a <= wa < a + j * PGSIZE) then Some (mk_pte (pa + (wa - a)) perm) else f wa.

Lemma map_range_step f g a j pa perm wa : va_ok wa -> a mod PGSIZE = 0 -> 0 <= j ->
  (forall wa, va_ok wa -> g wa = if decide (wa = a) then Some (mk_pte pa perm) else f wa) ->
  map_range g (a + PGSIZE) j (pa + PGSIZE) perm wa = map_range f a (j + 1) pa perm wa.
Proof.
  intros Hwa Ha Hj Hg. unfold map_range. destruct decide as [Hr|Hr].
  - rewrite decide_True by (unfold PGSIZE in *; lia). do 2 f_equal. lia.
  - rewrite Hg by done. destruct decide as [->|Hne].
    + rewrite decide_True by (unfold PGSIZE in *; lia). do 2 f_equal. lia.
    + rewrite decide_False; [done|]. intros Hr2. destruct Hwa as [_ Hwa].
      pose proof (aligned_sub a wa Ha Hwa ltac:(lia)). lia.
Qed.

Lemma put_leaf_xlate root a c pa perm s wa : pt_inv s root ->
  node (vm_mem s) root [PX 2 a; PX 1 a] = Some c -> va_ok a -> va_ok wa ->
  0 <= pa < 2 ^ 56 -> pa mod PGSIZE = 0 -> 0 <= perm < 1024 ->
  xlate (vm_mem (put_leaf c a (mk_pte pa perm) s)) root wa =
    if decide (wa = a) then Some (mk_pte pa perm) else xlate (vm_mem s) root wa.
Proof.
  intros [_ Hwf] Hn [Ha Hal] [Hwa Hwal] Hpa Hpal Hp.
  destruct (mk_pte_facts pa perm) as (Hv & _ & _ & Hu); [done..|].
  unfold put_leaf. cbn [vm_mem]. rewrite (leaf_xlate _ _ _ _ _ _ Hwf Hn) by done. by rewrite Hu, Hv.
Qed.

Lemma leaf_facts root va c s : pt_inv s root -> node (vm_mem s) root [PX 2 va; PX 1 va] = Some c ->
  c + 8 * PX 0 va <> 0 /\ mapped (vm_mem s) (c + 8 * PX 0 va) 8.
Proof.
  intros [_ Hwf] Hn. pose proof (PX_range 0 va).
  destruct (pw_node _ _ _ Hwf _ c (path_ok_va va) Hn) as (Hcok & _ & Hcm).
  pose proof (page_range c Hcok). split; [lia|by apply entry_mapped].
Qed.

Lemma wp_load_leaf root va c (Q : Z -> vmstate -> Prop) s : pt_inv s root ->
  node (vm_mem s) root [PX 2 va; PX 1 va] = Some c ->
  Q (rd64 (vm_mem s) (c + 8 * PX 0 va)) s -> wp (in_mem (load64 (c + 8 * PX 0 va))) Q s.
Proof.
  intros Hi Hn HQ. eapply wp_in_mem; [apply load64_done; by eapply leaf_facts|]. by destruct s.
Qed.

Lemma wp_store_leaf root va c v (Q : unit -> vmstate -> Prop) s : pt_inv s root ->
  node (vm_mem s) root [PX 2 va; PX 1 va] = Some c ->
  Q tt (put_leaf c va v s) -> wp (in_mem (store64 (c + 8 * PX 0 va) v)) Q s.
Proof.
  intros Hi Hn HQ. eapply wp_in_mem; [apply store64_done; by eapply leaf_facts|]. done.
Qed.

Lemma xlate_leaf m root va c : node m root [PX 2 va; PX 1 va] = Some c ->
  xlate m root va = let v := rd64 m (c + 8 * PX 0 va) in if has v PTE_V then Some v else None.
Proof. intros Hn. unfold xlate. by rewrite Hn. Qed.

Lemma mappages_loop_spec fuel root a last pa perm s :
  pt_inv s root -> va_ok a -> va_ok last -> a <= last ->
  0 <= perm < 1024 -> 0 <= pa -> pa + (last - a) + PGSIZE <= 2 ^ 56 -> pa mod PGSIZE = 0 ->
  (forall wa, va_ok wa -> a <= wa <= last -> xlate (vm_mem s) root wa = None) ->
  (last - a) / PGSIZE < Z.of_nat fuel ->
  wp (mappages_loop fuel root a last pa perm) (fun r s' => kept root s s' /\
    exists j, (0 <= j) /\
      (forall wa, va_ok wa ->
        xlate (vm_mem s') root wa = map_range (xlate (vm_mem s) root) a j pa perm wa) /\
      ((r = 0 /\ a + j * PGSIZE = last + PGSIZE /\
        Z.of_nat (length (st_free (vm_k s))) <=
          Z.of_nat (length (st_free (vm_k s'))) + 2 * ((last - a) / PGSIZE + 1)) \/
       (r = -1 /\ a + j * PGSIZE <= last /\
        Z.of_nat (length (st_free (vm_k s))) < 2 * ((last - a) / PGSIZE + 1)))) s.
Proof.
  revert a pa s. induction fuel as [|fuel IH]; intros a pa s Hi Ha Hl Hal Hp Hpa Hpr Hpal Hun Hf.
  { pose proof (Z.div_pos (last - a) PGSIZE ltac:(lia) ltac:(done)). lia. }
  cbn [mappages_loop]. apply wp_bind. apply wp_walk_alloc; [done|destruct Ha; lia| |].
  { intros s' _ Hg Hfr. apply wp_ret. split; [by apply grown_kept|]. exists 0. split_and!; [lia| |right].
    - intros wa _. unfold map_range. rewrite decide_False by lia. apply Hg.
    - pose proof (Z.div_pos (last - a) PGSIZE ltac:(lia) ltac:(done)). split_and!; [done|lia|lia]. }
  intros s' c _ Hg Hcnt Hn. pose proof (gr_inv _ _ _ Hg) as Hi'.
  destruct (leaf_facts root a c s' Hi' Hn) as [Hnz _]. rewrite (proj2 (Z.eqb_neq _ _) Hnz).
  apply wp_bind. eapply wp_load_leaf; [done|done|].
  pose proof (Hun a Ha ltac:(lia)) as Hx. rewrite <- (gr_xlate _ _ _ Hg), (xlate_leaf _ _ _ _ Hn) in Hx. cbv zeta in Hx.
  destruct (has _ PTE_V); [done|]. apply wp_bind. eapply wp_store_leaf; [done|done|].
  change (Z.lor (Z.lor (PA2PTE pa) perm) PTE_V) with (mk_pte pa perm).
  assert (Hk : kept root s (put_leaf c a (mk_pte pa perm) s')).
  { eapply kept_trans; [by apply grown_kept|]. by apply leaf_kept. }
  assert (Hxl : forall wa, va_ok wa -> xlate (vm_mem (put_leaf c a (mk_pte pa perm) s')) root wa =
      if decide (wa = a) then Some (mk_pte pa perm) else xlate (vm_mem s) root wa).
  { intros wa Hwa. rewrite put_leaf_xlate by (done || unfold PGSIZE in *; lia). by rewrite (gr_xlate _ _ _ Hg). }
  destruct (Z.eqb_spec a last) as [->|Hne].
  { apply wp_ret. split; [done|]. exists 1. rewrite Z.sub_diag, Z.div_0_l by done.
    split_and!; [lia| |left; cbn [put_leaf vm_k]; split_and!; lia].
    intros wa Hwa. rewrite Hxl by done. unfold map_range. destruct Hwa as [Hwa1 Hwa2], Ha as [Ha1 Ha2].
    destruct decide as [->|]; [rewrite decide_True by (unfold PGSIZE; lia); do 2 f_equal; lia|].
    rewrite decide_False; [done|]. intros Hr. destruct (Z.lt_trichotomy last wa) as [Hlt|[]]; [|done|lia].
    pose proof (aligned_sub last wa Ha2 Hwa2 Hlt). lia. }
  destruct Ha as [Ha1 Ha2], Hl as [Hl1 Hl2]. pose proof (aligned_sub a last Ha2 Hl2 ltac:(lia)) as Hstep.
  rewrite MAXVA_eq in *. rewrite !u64_small by (unfold PGSIZE in *; lia).
  assert (Hdiv : (last - a) / PGSIZE = (last - (a + PGSIZE)) / PGSIZE + 1).
  { replace (last - a) with (last - (a + PGSIZE) + 1 * PGSIZE) by lia. by rewrite Z.div_add. }
  eapply wp_mono; [apply IH|].
  - apply Hk.
  - split; [rewrite MAXVA_eq; unfold PGSIZE in *; lia|by apply aligned_add].
  - by split.
  - done.
  - done.
  - unfold PGSIZE; lia.
  - lia.
  - by apply aligned_add.
  - intros wa Hwa Hr. rewrite Hxl by done. rewrite decide_False by (unfold PGSIZE in *; lia). apply Hun; [done|].
    unfold PGSIZE in *; lia.
  - lia.
  - cbv beta. intros r s3 [Hk3 (j & Hj & Hx3 & Hr)]. split; [by eapply kept_trans|]. exists (j + 1).
    cbn [put_leaf vm_k] in Hr.
    split_and!; [lia| |destruct Hr as [(-> & Hr & Hfr)|(-> & Hr & Hfr)]; [left|right]; split_and!; (done || lia)].
    intros wa Hwa. rewrite Hx3 by done. by apply map_range_step.
Qed.
Lemma mappages_spec root va size pa perm s :
  pt_inv s root -> 0 <= va -> 0 < size -> va + size <= MAXVA ->
  0 <= perm < 1024 -> 0 <= pa -> pa + size + 2 * PGSIZE <= 2 ^ 56 -> pa mod PGSIZE = 0 ->
  let a := PGROUNDDOWN va in
  let last := PGROUNDDOWN (va + size - 1) in
  (forall wa, va_ok wa -> a <= wa <= last -> xlate (vm_mem s) root wa = None) ->
  wp (mappages root va size pa perm) (fun r s' => kept root s s' /\
    exists j, (0 <= j) /\
      (forall wa, va_ok wa ->
        xlate (vm_mem s') root wa = map_range (xlate (vm_mem s) root) a j pa perm wa) /\
      ((r = 0 /\ a + j * PGSIZE = last + PGSIZE /\
        Z.of_nat (length (st_free (vm_k s))) <=
          Z.of_nat (length (st_free (vm_k s'))) + 2 * ((last - a) / PGSIZE + 1)) \/
       (r = -1 /\ a + j * PGSIZE <= last /\
        Z.of_nat (length (st_free (vm_k s))) < 2 * ((last - a) / PGSIZE + 1)))) s.
Proof.
  intros Hi Hva Hsz Hmax Hp Hpa Hpr Hpal a last Hun. unfold mappages.
  destruct (Z.eqb_spec size 0); [lia|]. rewrite MAXVA_eq in *.
  rewrite u64_small by lia. fold a last.
  destruct (PGROUNDDOWN_spec va Hva) as (Ha1 & Ha2 & Ha3).
  destruct (PGROUNDDOWN_spec (va + size - 1) ltac:(lia)) as (Hl1 & Hl2 & Hl3). fold a in Ha1, Ha2, Ha3. fold last in Hl1, Hl2, Hl3.
  assert (Hle : a <= last).
  { destruct (Z.le_gt_cases a last); [done|]. pose proof (aligned_sub last a Hl1 Ha1 ltac:(lia)). lia. }
  apply mappages_loop_spec; try done.
  - split; [rewrite MAXVA_eq; lia|done].
  - split; [rewrite MAXVA_eq; lia|done].
  - unfold PGSIZE in *; lia.
  - unfold mappages_rounds. destruct (Z.leb_spec a last); [|lia].
    pose proof (Z.div_pos (last - a) PGSIZE ltac:(lia) ltac:(done)). lia.
Qed.

(** ** What a process sees *)

(** The physical page of a user address, 0 if there is none. *)
Definition uaddr (m : mem) (root va : Z) : Z :=
  if MAXVA <=? va then 0
  else match xlate m root va with
       | Some v => if has v PTE_U then PTE2PA v else 0
       | None => 0
       end.

Lemma wp_walkaddr root va (Q : Z -> vmstate -> Prop) s : pt_inv s root ->
  Q (uaddr (vm_mem s) root va) s -> wp (walkaddr root va) Q s.
Proof.
  intros Hi. unfold walkaddr, uaddr. destruct (Z.leb_spec MAXVA va); [by apply wp_ret|]. intros HQ.
  apply wp_bind, wp_walk_look; [done|lia| |].
  - intros _ Hn. apply wp_ret. unfold xlate in HQ. by rewrite Hn in HQ.
  - intros c _ Hn. destruct (leaf_facts root va c s Hi Hn) as [Hnz _]. rewrite (proj2 (Z.eqb_neq _ _) Hnz).
    apply wp_bind. eapply wp_load_leaf; [done|done|]. rewrite (xlate_leaf _ _ _ _ Hn) in HQ. cbv zeta in HQ.
    destruct (has _ PTE_V); simpl; [|by apply wp_ret].
    destruct (has _ PTE_U); simpl; by apply wp_ret.
Qed.

(** The byte at a user address. *)
Definition ubyte (m : mem) (root va : Z) : option Z :=
  let pa := uaddr m root (PGROUNDDOWN va) in
  if pa =? 0 then None else m !! (pa + (va - PGROUNDDOWN va)).

(** A page of data: not free, not part of the page table. *)
Record frame_ok (s : vmstate) (root pa : Z) : Prop := {
  fo_page : page_ok pa;
  fo_free : pa ∉ st_free (vm_k s);
  fo_node : forall p, path_ok p -> node (vm_mem s) root p <> Some pa;
  fo_mapped : mapped (vm_mem s) pa PGSIZE;
}.

(** Every user page is a page of data of its own. *)
Record user_ok (s : vmstate) (root : Z) : Prop := {
  uo_inv : pt_inv s root;
  uo_frame : forall va, va_ok va -> uaddr (vm_mem s) root va <> 0 -> frame_ok s root (uaddr (vm_mem s) root va);
  uo_inj : forall va wa, va_ok va -> va_ok wa -> uaddr (vm_mem s) root va <> 0 ->
    uaddr (vm_mem s) root va = uaddr (vm_mem s) root wa -> va = wa;
}.

(** Writing inside a page of data changes no translation. *)
Section data_write.
Variables (s : vmstate) (root pa x : Z) (l : list Z).
Hypothesis Hi : pt_inv s root.
Hypothesis Hf : frame_ok s root pa.
Hypothesis Hx : pa <= x /\ x + Z.of_nat (length l) <= pa + PGSIZE.

Let m' := write_bytes (vm_mem s) x l.

Lemma data_entry p c i : path_ok p -> node (vm_mem s) root p = Some c -> 0 <= i < 512 ->
  rd64 m' (c + 8 * i) = rd64 (vm_mem s) (c + 8 * i).
Proof.
  intros Hp Hc Hr. destruct Hi as [_ Hwf]. destruct (pw_node _ _ _ Hwf p c Hp Hc) as (Hcok & _).
  assert (c <> pa) as Hne by (intros ->; by apply (fo_node _ _ _ Hf p)).
  apply rd64_write_ne.
  destruct (pages_disjoint c pa Hcok (fo_page _ _ _ Hf) Hne); unfold PGSIZE in *; lia.
Qed.

Lemma data_node p : path_ok p -> node m' root p = node (vm_mem s) root p.
Proof. intros Hp. apply node_frame; [done|]. intros q c i _ Hq Hc Hr. by apply (data_entry q). Qed.

Lemma data_xlate va : xlate m' root va = xlate (vm_mem s) root va.
Proof.
  unfold xlate. rewrite data_node by apply path_ok_va.
  destruct (node (vm_mem s) root [PX 2 va; PX 1 va]) as [c|] eqn:Hc; simpl; [|done].
  rewrite (data_entry [PX 2 va; PX 1 va] c); [done|apply path_ok_va|done|apply PX_range].
Qed.

Lemma data_uaddr va : uaddr m' root va = uaddr (vm_mem s) root va.
Proof. unfold uaddr. by rewrite data_xlate. Qed.

Lemma data_inv : pt_inv (mk_vm (vm_k s) m') root.
Proof.
  destruct Hi as [[Hc Hl Hfr Hm] Hwf]. split.
  - constructor; [done|done|done|]. intros p Hp. apply mapped_write_bytes. by apply Hm.
  - constructor.
    + cbn [vm_k vm_mem]. intros p c Hp. rewrite data_node by done. intros Hc2. destruct (pw_node _ _ _ Hwf p c Hp Hc2) as (? & ? & ?).
      split_and!; [done|done|]. by apply mapped_write_bytes.
    + cbn [vm_k vm_mem]. intros p q c Hp Hq. rewrite !data_node by done. by apply (pw_inj _ _ _ Hwf).
Qed.

Lemma data_user : user_ok s root -> user_ok (mk_vm (vm_k s) m') root.
Proof.
  intros [_ Hfr Hinj]. constructor; [apply data_inv| |].
  - cbn [vm_k vm_mem]. intros va Hva. rewrite data_uaddr. intros Hnz. destruct (Hfr va Hva Hnz). constructor; [done|done| |].
    + cbn [vm_k vm_mem]. intros p Hp. rewrite data_node by done. auto.
    + by apply mapped_write_bytes.
  - cbn [vm_k vm_mem]. intros va wa. rewrite !data_uaddr. apply Hinj.
Qed.
End data_write.

Lemma PGROUNDDOWN_in a x : 0 <= a -> a mod PGSIZE = 0 -> a <= x < a + PGSIZE -> PGROUNDDOWN x = a.
Proof.
  intros Ha Hal Hx. destruct (PGROUNDDOWN_spec x ltac:(lia)) as (Hm & Hr & _).
  destruct (Z.lt_trichotomy (PGROUNDDOWN x) a) as [Hlt|[He|Hlt]]; [|done|].
  - pose proof (aligned_sub _ _ Hm Hal Hlt). lia.
  - pose proof (aligned_sub _ _ Hal Hm Hlt). lia.
Qed.

Lemma uaddr_va m root va : 0 <= va -> uaddr m root (PGROUNDDOWN va) <> 0 -> va_ok (PGROUNDDOWN va).
Proof.
  intros Hva Hu. destruct (PGROUNDDOWN_spec va Hva) as (Hm & Hr & H0). unfold uaddr in Hu.
  destruct (Z.leb_spec MAXVA (PGROUNDDOWN va)); [done|]. by split.
Qed.

(** Writing part of one user page. *)
Lemma user_write s root va l : user_ok s root -> 0 <= va ->
  let va0 := PGROUNDDOWN va in
  let pa0 := uaddr (vm_mem s) root va0 in
  pa0 <> 0 -> va - va0 + Z.of_nat (length l) <= PGSIZE ->
  let s' := mk_vm (vm_k s) (write_bytes (vm_mem s) (pa0 + (va - va0)) l) in
  user_ok s' root /\ (forall wa, uaddr (vm_mem s') root wa = uaddr (vm_mem s) root wa) /\
  (forall wa, 0 <= wa -> ubyte (vm_mem s') root wa =
    if decide (va <= wa < va + Z.of_nat (length l)) then l !! Z.to_nat (wa - va) else ubyte (vm_mem s) root wa).
Proof.
  intros Hu Hva va0 pa0 Hnz Hlen s'. pose proof (uaddr_va _ _ _ Hva Hnz) as Hv0.
  destruct (PGROUNDDOWN_spec va Hva) as (Hm & Hr & H0). fold va0 in Hm, Hr, H0, Hv0.
  pose proof (uo_frame _ _ Hu va0 Hv0 Hnz) as Hf. fold pa0 in Hf.
  assert (Hx : pa0 <= pa0 + (va - va0) /\ pa0 + (va - va0) + Z.of_nat (length l) <= pa0 + PGSIZE) by lia.
  assert (Hsame : forall wa, uaddr (vm_mem s') root wa = uaddr (vm_mem s) root wa).
  { intros wa. apply data_uaddr with (pa := pa0); [apply Hu|done|done]. }
  split_and!; [apply data_user with (pa := pa0); [apply Hu|done|done|done]|done|].
  intros wa Hwa. unfold ubyte. rewrite Hsame. destruct decide as [Hin|Hout].
  - rewrite (PGROUNDDOWN_in va0 wa) by (done || lia). fold pa0. rewrite (proj2 (Z.eqb_neq _ _) Hnz).
    unfold s'. cbn [vm_mem]. rewrite write_bytes_in by lia. f_equal. lia.
  - destruct (Z.eqb_spec (uaddr (vm_mem s) root (PGROUNDDOWN wa)) 0) as [|Hwz]; [done|].
    pose proof (uaddr_va _ _ _ Hwa Hwz) as Hw0. destruct (PGROUNDDOWN_spec wa Hwa) as (Hwm & Hwr & _).
    unfold s'. cbn [vm_mem]. apply write_bytes_out. destruct (decide (PGROUNDDOWN wa = va0)) as [He|Hne].
    + rewrite He in *. fold pa0. lia.
    + assert (uaddr (vm_mem s) root (PGROUNDDOWN wa) <> pa0) as Hd.
      { intros He. apply Hne. by apply (uo_inj _ _ Hu). }
      destruct (pages_disjoint _ _ (fo_page _ _ _ (uo_frame _ _ Hu _ Hw0 Hwz)) (fo_page _ _ _ Hf) Hd); lia.
Qed.

Lemma put_bytes_done a l (m : mem) : is_bytes l -> mapped m a (Z.of_nat (length l)) ->
  put_bytes a l m = Done tt (write_bytes m a l).
Proof.
  intros Hb Hm. unfold put_bytes. rewrite <- (Z.add_0_l (Z.of_nat (length l))).
  rewrite forM_store_bytes; [by rewrite Z.add_0_r|done|by rewrite Z.add_0_r].
Qed.
Lemma get_bytes_done a n (m : mem) : 0 <= n -> mapped m a n -> get_bytes a n m = Done (read_bytes m a n) m.
Proof.
  intros Hn Hm. unfold get_bytes. rewrite foldM_load; [|by rewrite Z.add_0_r, Z.sub_0_r|done].
  by rewrite Z.add_0_r, Z.sub_0_r.
Qed.

(** The bytes of a range of user memory, if all of it is there. *)
Definition ubytes (m : mem) (root va : Z) (l : list Z) : Prop :=
  forall i b, l !! i = Some b -> ubyte m root (va + Z.of_nat i) = Some b.

Lemma ubytes_app m root va l1 l2 : ubytes m root va (l1 ++ l2) <->
  ubytes m root va l1 /\ ubytes m root (va + Z.of_nat (length l1)) l2.
Proof.
  unfold ubytes. split.
  - intros Hu. split; intros i b Hi.
    + apply Hu. by apply lookup_app_l_Some.
    + rewrite <- Z.add_assoc, <- Nat2Z.inj_add. apply Hu. rewrite lookup_app_r by lia.
      by rewrite Nat.add_comm, Nat.add_sub.
  - intros [H1 H2] i b [Hi|[Hl Hi]]%lookup_app_Some; [by apply H1|].
    replace (va + Z.of_nat i) with (va + Z.of_nat (length l1) + Z.of_nat (i - length l1)) by lia. by apply H2.
Qed.

(** The user pages a range of addresses touches. *)
Definition umapped (m : mem) (root va n : Z) : Prop :=
  forall x, va <= x < va + n -> uaddr m root (PGROUNDDOWN x) <> 0.

Lemma uaddr_top m root va : MAXVA <= va -> uaddr m root va = 0.
Proof. intros Hm. unfold uaddr. by destruct (Z.leb_spec MAXVA va); [|lia]. Qed.

Lemma copyout_loop_spec fuel root dstva src s : user_ok s root -> is_bytes src -> 0 <= dstva < 2 ^ 64 ->
  (length src <= fuel)%nat ->
  wp (copyout_loop fuel root dstva src) (fun r s' =>
    user_ok s' root /\ vm_k s' = vm_k s /\ (mem_ok (vm_mem s) -> mem_ok (vm_mem s')) /\
    (forall wa, uaddr (vm_mem s') root wa = uaddr (vm_mem s) root wa) /\
    (forall wa, 0 <= wa -> ~ (dstva <= wa < dstva + Z.of_nat (length src)) ->
      ubyte (vm_mem s') root wa = ubyte (vm_mem s) root wa) /\
    ((r = 0 /\ umapped (vm_mem s) root dstva (Z.of_nat (length src)) /\ ubytes (vm_mem s') root dstva src) \/
     (r = -1 /\ ~ umapped (vm_mem s) root dstva (Z.of_nat (length src))))) s.
Proof.
  revert dstva src s. induction fuel as [|fuel IH]; intros dstva src s Hu Hb Hd Hf; cbn [copyout_loop].
  { destruct src; [|simpl in Hf; lia]. apply wp_ret. split_and!; try done. left. split_and!; [done|intros x; simpl; lia|by intros i b Hi]. }
  destruct (Z.eqb_spec (Z.of_nat (length src)) 0) as [Hz|Hz].
  { destruct src; [|simpl in Hz; lia]. apply wp_ret. split_and!; try done. left. split_and!; [done|intros x; simpl; lia|by intros i b Hi]. }
  destruct (PGROUNDDOWN_spec dstva ltac:(lia)) as (Hm & Hr & H0). set (va0 := PGROUNDDOWN dstva) in *.
  apply wp_bind, wp_walkaddr; [apply Hu|]. destruct (Z.eqb_spec (uaddr (vm_mem s) root va0) 0) as [He|Hne].
  { apply wp_ret. split_and!; try done. right. split; [done|]. intros Hum. apply (Hum dstva); [lia|done]. }
  pose proof (uaddr_va _ _ _ (proj1 Hd) Hne) as [Hv0 _]. fold va0 in Hv0. rewrite MAXVA_eq in Hv0.
  set (n := Z.to_nat (Z.min (PGSIZE - (dstva - va0)) (Z.of_nat (length src)))) in *.
  assert (Hn : Z.of_nat (length (take n src)) = Z.min (PGSIZE - (dstva - va0)) (Z.of_nat (length src))).
  { rewrite length_take. lia. }
  destruct (user_write s root dstva (take n src)) as (Hu' & Hsame & Hbyte); [done|lia|done|fold va0; lia|].
  fold va0 in Hu', Hsame, Hbyte. apply wp_bind. eapply wp_in_mem.
  { apply put_bytes_done; [by apply Forall_take|].
    pose proof (uo_frame _ _ Hu va0 (uaddr_va _ _ _ (proj1 Hd) Hne) Hne) as Hfr.
    eapply mapped_le; [| |apply (fo_mapped _ _ _ Hfr)]; lia. }
  rewrite u64_small by (unfold PGSIZE in *; lia).
  eapply wp_mono; [apply IH; [done|by apply Forall_drop|unfold PGSIZE in *; lia|rewrite length_drop; lia]|].
  assert (Hdl : Z.of_nat (length (drop n src)) = Z.of_nat (length src) - Z.of_nat (length (take n src)))
    by (rewrite length_drop, length_take; lia).
  assert (Hnext : Z.of_nat (length (drop n src)) = 0 \/ va0 + PGSIZE = dstva + Z.of_nat (length (take n src))) by lia.
  intros r s2 (Hu2 & Hk2 & Hmem2 & Hsame2 & Hbyte2 & Hr2). split_and!; [done|done| | | |].
  - intros Hmem. apply Hmem2, mem_ok_write; [done|by apply Forall_take].
  - intros wa. by rewrite Hsame2.
  - intros wa Hwa Hout. rewrite Hbyte2, Hbyte, decide_False by (done || lia). done.
  - assert (Hmap : umapped (vm_mem s) root dstva (Z.of_nat (length src)) <->
        umapped (vm_mem s) root (va0 + PGSIZE) (Z.of_nat (length (drop n src)))).
    { split; intros Hum x Hx; [apply Hum; lia|]. destruct (Z.lt_ge_cases x (va0 + PGSIZE)).
      - rewrite (PGROUNDDOWN_in va0) by (done || lia). done.
      - apply Hum. lia. }
    destruct Hr2 as [(-> & Hum & Hbs)|(-> & Hum)]; [left|right]; (split; [done|]).
    + split; [apply Hmap; intros x Hx; rewrite <- Hsame; by apply Hum|].
      rewrite <- (take_drop n src). apply ubytes_app. split.
      * intros i b Hi. pose proof (lookup_lt_Some _ _ _ Hi).
        rewrite Hbyte2, Hbyte, decide_True by lia. rewrite <- Hi. f_equal. lia.
      * destruct Hnext as [Hnil|<-]; [|done]. destruct (drop n src); [by intros i b Hi|simpl in Hnil; lia].
    + rewrite Hmap. intros Hm2. apply Hum. intros x Hx. rewrite Hsame. by apply Hm2.
Qed.

(** The bytes of one user page are the bytes of its physical page. *)
Lemma user_page_bytes s root va n : user_ok s root -> 0 <= va -> 0 <= n ->
  let va0 := PGROUNDDOWN va in
  let pa0 := uaddr (vm_mem s) root va0 in
  pa0 <> 0 -> va - va0 + n <= PGSIZE ->
  mapped (vm_mem s) (pa0 + (va - va0)) n /\
  ubytes (vm_mem s) root va (read_bytes (vm_mem s) (pa0 + (va - va0)) n).
Proof.
  intros Hu Hva Hn va0 pa0 Hnz Hlen. pose proof (uaddr_va _ _ _ Hva Hnz) as Hv0.
  destruct (PGROUNDDOWN_spec va Hva) as (Hm & Hr & H0). fold va0 in Hm, Hr, H0, Hv0.
  pose proof (uo_frame _ _ Hu va0 Hv0 Hnz) as Hf. fold pa0 in Hf.
  assert (Hmp : mapped (vm_mem s) (pa0 + (va - va0)) n).
  { eapply mapped_le; [| |apply (fo_mapped _ _ _ Hf)]; lia. }
  split; [done|]. intros i b Hi. pose proof (lookup_lt_Some _ _ _ Hi) as Hl. rewrite read_bytes_length in Hl.
  unfold ubyte. rewrite (PGROUNDDOWN_in va0) by (done || lia). fold pa0. rewrite (proj2 (Z.eqb_neq _ _) Hnz).
  rewrite <- (read_bytes_at _ _ _ Hmp _ _ Hi). f_equal. lia.
Qed.

Lemma copyin_loop_spec fuel root dst srcva len s : user_ok s root -> 0 <= srcva < 2 ^ 64 -> 0 <= len ->
  len <= Z.of_nat fuel ->
  wp (copyin_loop fuel root dst srcva len) (fun r s' => s' = s /\
    ((r.1 = 0 /\ umapped (vm_mem s) root srcva len /\
        exists l, r.2 = dst ++ l /\ Z.of_nat (length l) = len /\ ubytes (vm_mem s) root srcva l) \/
     (r.1 = -1 /\ ~ umapped (vm_mem s) root srcva len))) s.
Proof.
  revert dst srcva len. induction fuel as [|fuel IH]; intros dst srcva len Hu Hs Hl Hf; cbn [copyin_loop].
  { apply wp_ret. split; [done|]. left. split_and!; [done|intros x; lia|].
    exists []. rewrite app_nil_r. split_and!; [done|simpl; lia|by intros i b Hi]. }
  destruct (Z.eqb_spec len 0) as [->|Hz].
  { apply wp_ret. split; [done|]. left. split_and!; [done|intros x; lia|].
    exists []. rewrite app_nil_r. split_and!; [done|done|by intros i b Hi]. }
  destruct (PGROUNDDOWN_spec srcva ltac:(lia)) as (Hm & Hr & H0). set (va0 := PGROUNDDOWN srcva) in *.
  apply wp_bind, wp_walkaddr; [apply Hu|]. destruct (Z.eqb_spec (uaddr (vm_mem s) root va0) 0) as [He|Hne].
  { apply wp_ret. split; [done|]. right. split; [done|]. intros Hum. apply (Hum srcva); [lia|done]. }
  pose proof (uaddr_va _ _ _ (proj1 Hs) Hne) as [Hv0 _]. fold va0 in Hv0. rewrite MAXVA_eq in Hv0.
  set (n := Z.min (PGSIZE - (srcva - va0)) len) in *.
  destruct (user_page_bytes s root srcva n) as [Hmp Hub]; [done|lia|lia|done|fold va0; lia|]. fold va0 in Hmp, Hub.
  apply wp_bind. eapply wp_in_mem; [apply get_bytes_done; [lia|done]|].
  replace (mk_vm (vm_k s) (vm_mem s)) with s by (by destruct s).
  rewrite u64_small by (unfold PGSIZE in *; lia).
  eapply wp_mono; [apply IH; [done|unfold PGSIZE in *; lia|lia|lia]|].
  assert (Hnext : len - n = 0 \/ va0 + PGSIZE = srcva + n) by lia.
  assert (Hmap : umapped (vm_mem s) root srcva len <-> umapped (vm_mem s) root (va0 + PGSIZE) (len - n)).
  { split; intros Hum x Hx; [apply Hum; lia|]. destruct (Z.lt_ge_cases x (va0 + PGSIZE)).
    - rewrite (PGROUNDDOWN_in va0) by (done || lia). done.
    - apply Hum. lia. }
  intros r s2 [-> [(-> & Hum & l & -> & Hll & Hbs)|(-> & Hum)]]; (split; [done|]).
  - left. split_and!; [done|by apply Hmap|]. eexists. rewrite <- app_assoc. split; [done|].
    split; [rewrite length_app, read_bytes_length; lia|]. apply ubytes_app. split; [done|].
    rewrite read_bytes_length, Z2Nat.id by lia. destruct Hnext as [Hnil|<-]; [|done].
    destruct l; [by intros i b Hi|simpl in Hll; lia].
  - right. by rewrite Hmap.
Qed.

Lemma ubytes_inj m root va l1 l2 : length l1 = length l2 -> ubytes m root va l1 -> ubytes m root va l2 -> l1 = l2.
Proof.
  intros Hl H1 H2. apply list_eq_same_length with (n := length l1); [done|done|].
  intros i x y _ Hx Hy. specialize (H1 i x Hx). specialize (H2 i y Hy). congruence.
Qed.

(** ** Properties *)

(** C33: [copyout] followed by [copyin] of the same range gives back the bytes
    copied, exactly when every page of the range is a user page; otherwise
    [copyout] fails.  Either way no byte of user memory outside the range and
    no translation changes. *)
Theorem copyout_copyin root va src s : user_ok s root -> is_bytes src -> 0 <= va < 2 ^ 64 ->
  wp (let! r := copyout root va src in
      let! q := copyin root va (Z.of_nat (length src)) in
      ret (r, q)) (fun p s' =>
    user_ok s' root /\
    (forall wa, uaddr (vm_mem s') root wa = uaddr (vm_mem s) root wa) /\
    (forall wa, 0 <= wa -> ~ (va <= wa < va + Z.of_nat (length src)) ->
      ubyte (vm_mem s') root wa = ubyte (vm_mem s) root wa) /\
    (umapped (vm_mem s) root va (Z.of_nat (length src)) -> p = (0, (0, src))) /\
    (~ umapped (vm_mem s) root va (Z.of_nat (length src)) -> p.1 = -1)) s.
Proof.
  intros Hu Hb Hva. apply wp_bind. eapply wp_mono; [by apply copyout_loop_spec|].
  intros r s1 (Hu1 & Hk & _ & Hsame & Hout & Hr). apply wp_bind.
  eapply wp_mono; [apply copyin_loop_spec; [done|done|lia|lia]|].
  intros [r2 l2] s2 [-> Hr2]. apply wp_ret. split_and!; [done|done|done| |].
  - intros Hum. destruct Hr as [(-> & _ & Hbs)|(_ & Hn)]; [|done].
    destruct Hr2 as [(Hr2 & _ & l & Hl & Hll & Hbs2)|(_ & Hn)]; simpl in *; subst.
    + do 2 f_equal. eapply ubytes_inj; [|exact Hbs2|exact Hbs]. lia.
    + destruct Hn. intros x Hx. rewrite Hsame. by apply Hum.
  - intros Hum. by destruct Hr as [(_ & Hm & _)|(-> & _)].
Qed.

(** The number of pages a range of [size] bytes from a page boundary touches. *)
Definition npages (size : Z) : Z := (size + PGSIZE - 1) / PGSIZE.

(** C34: [mappages] maps every page of the range to the corresponding physical
    page with the given permissions and changes no other translation and no
    page of data.  It succeeds whenever two pages are free for every page of
    the range; if it returns -1 it has mapped an initial part of the range. *)
Theorem mappages_maps root va size pa perm s :
  pt_inv s root -> va_ok va -> 0 < size -> va + size <= MAXVA ->
  0 <= perm < 1024 -> 0 <= pa -> pa + size + 2 * PGSIZE <= 2 ^ 56 -> pa mod PGSIZE = 0 ->
  (forall wa, va_ok wa -> va <= wa < va + size -> xlate (vm_mem s) root wa = None) ->
  wp (mappages root va size pa perm) (fun r s' => kept root s s' /\
    ((r = 0 /\ forall wa, va_ok wa -> xlate (vm_mem s') root wa =
        if decide (va <= wa < va + size) then Some (mk_pte (pa + (wa - va)) perm)
        else xlate (vm_mem s) root wa) \/
     (r = -1 /\ Z.of_nat (length (st_free (vm_k s))) < 2 * npages size /\
        exists j, 0 <= j * PGSIZE < size /\ forall wa, va_ok wa ->
          xlate (vm_mem s') root wa = map_range (xlate (vm_mem s) root) va j pa perm wa))) s.
Proof.
  intros Hi [Hva Hal] Hsz Hmax Hp Hpa Hpr Hpal Hun.
  destruct (PGROUNDDOWN_spec (va + size - 1) ltac:(lia)) as (Hl1 & Hl2 & Hl3).
  eapply wp_mono; [apply mappages_spec; try done; [lia|]|].
  - rewrite PGROUNDDOWN_aligned by (done || lia). intros wa Hwa Hr. apply Hun; [done|lia].
  - rewrite PGROUNDDOWN_aligned by (done || lia).
    intros r s' [Hk (j & Hj & Hx & Hr)]. split; [done|].
    destruct Hr as [(-> & Hr & _)|(-> & Hr & Hf)]; [left|right].
    + split; [done|]. intros wa Hwa. rewrite Hx by done. unfold map_range. apply decide_ext.
      split; intros Hw; [|lia]. destruct (Z.lt_ge_cases wa (va + size)); [lia|]. destruct Hwa as [_ Hwa].
      pose proof (aligned_sub (PGROUNDDOWN (va + size - 1)) wa Hl1 Hwa ltac:(lia)). lia.
    + split_and!; [done| |exists j; split; [unfold PGSIZE in *; lia|done]].
      enough (npages size = (PGROUNDDOWN (va + size - 1) - va) / PGSIZE + 1) as -> by done.
      unfold npages, PGSIZE in *. set (last := PGROUNDDOWN (va + size - 1)) in *.
      pose proof (Z.div_mod (size + 4096 - 1) 4096 ltac:(lia)). pose proof (Z.mod_pos_bound (size + 4096 - 1) 4096 ltac:(lia)).
      pose proof (Z.div_mod (last - va) 4096 ltac:(lia)). pose proof (Z.mod_pos_bound (last - va) 4096 ltac:(lia)).
      pose proof (Z.div_mod last 4096 ltac:(lia)). pose proof (Z.div_mod va 4096 ltac:(lia)). lia.
Qed.

End space.
