(* ===== verification/UserMem.v ===== *)
(** * User memory as an interface

    What vm.c promises to the code that moves data between the kernel and a
    process (syscall.c, sysraid.c, pipe.c): [copyout] and [copyin] transfer
    exactly the bytes of a range all of whose pages are user pages, fail on any
    other range, and touch nothing else.  [UserMemory] names the operations and
    what a client may observe, [UserMemoryOK] the laws; page tables with the
    invariant of VmSpace.v satisfy them. *)

From stdpp Require Import base numbers list gmap strings.
From Stdlib Require Import ZArith Lia.
From S2P Require Import Prelude Blocks Monad State Locks Kalloc Codec Mem Strings Vm VmWalk VmSpace.
Open Scope Z_scope.

Class UserMemory (U : Type) := {
  um_copyout : Z -> list Z -> M U Z;
  um_copyin : Z -> Z -> M U (Z * list Z);
  um_ok : U -> Prop;
  um_there : U -> Z -> Prop;        (* the address is on a user page *)
  um_byte : U -> Z -> option Z;     (* the byte a user program reads there *)
  um_same : U -> U -> Prop;         (* nothing but user memory differs *)
}.

Section client.
Context `{UM : UserMemory U}.

Definition um_range (u : U) (va n : Z) : Prop := forall x, va <= x < va + n -> um_there u x.
Definition um_bytes (u : U) (va : Z) (l : list Z) : Prop :=
  forall i b, l !! i = Some b -> um_byte u (va + Z.of_nat i) = Some b.

(** [u'] is [u] but for the [n] bytes from [va] on. *)
Record um_changed (va n : Z) (u u' : U) : Prop := {
  uc_ok : um_ok u';
  uc_same : um_same u u';
  uc_there : forall x, um_there u' x <-> um_there u x;
  uc_byte : forall x, 0 <= x -> ~ (va <= x < va + n) -> um_byte u' x = um_byte u x;
}.

Lemma um_bytes_inj u va l1 l2 : length l1 = length l2 -> um_bytes u va l1 -> um_bytes u va l2 -> l1 = l2.
Proof.
  intros Hl H1 H2. apply list_eq_same_length with (n := length l1); [done|done|].
  intros i x y _ Hx Hy. specialize (H1 i x Hx). specialize (H2 i y Hy). congruence.
Qed.

Lemma um_range_changed va n u u' a m : um_changed va n u u' -> um_range u' a m <-> um_range u a m.
Proof. intros Hc. unfold um_range. by setoid_rewrite (uc_there _ _ _ _ Hc). Qed.

(** Bytes away from a change stay. *)
Lemma um_bytes_changed va n u u' a l : um_changed va n u u' -> 0 <= a ->
  a + Z.of_nat (length l) <= va \/ va + n <= a -> um_bytes u a l -> um_bytes u' a l.
Proof.
  intros Hc Ha Hd Hb i b Hi. pose proof (lookup_lt_Some _ _ _ Hi).
  rewrite (uc_byte _ _ _ _ Hc) by lia. by apply Hb.
Qed.
End client.

Class UserMemoryOK U {UM : UserMemory U} : Prop := {
  um_copyout_ok va src (u : U) : um_ok u -> is_bytes src -> 0 <= va < 2 ^ 64 ->
    wp (um_copyout va src) (fun r u' => um_changed va (Z.of_nat (length src)) u u' /\
      ((r = 0 /\ um_range u va (Z.of_nat (length src)) /\ um_bytes u' va src) \/
       (r = -1 /\ ~ um_range u va (Z.of_nat (length src))))) u;
  um_copyin_ok va n (u : U) : um_ok u -> 0 <= n -> 0 <= va < 2 ^ 64 ->
    wp (um_copyin va n) (fun r u' => u' = u /\
      ((r.1 = 0 /\ um_range u va n /\ Z.of_nat (length r.2) = n /\ is_bytes r.2 /\ um_bytes u va r.2) \/
       (r.1 = -1 /\ ~ um_range u va n))) u;
  um_same_refl (u : U) : um_same u u;
  um_same_trans (u v w : U) : um_same u v -> um_same v w -> um_same u w;
}.

Section laws.
Context `{UserMemoryOK U}.

Lemma um_changed_refl va n u : um_ok u -> um_changed va n u u.
Proof. intros Hu. constructor; [done|apply um_same_refl|done|done]. Qed.

Lemma um_changed_trans va n u v w : um_changed va n u v -> um_changed va n v w -> um_changed va n u w.
Proof.
  intros [H1 S1 T1 B1] [H2 S2 T2 B2]. constructor; [done|by eapply um_same_trans| |].
  - intros x. by rewrite T2.
  - intros x Hx Hn. by rewrite B2, B1.
Qed.

Lemma um_changed_widen va n a m u v : um_changed a m u v -> va <= a -> a + m <= va + n -> um_changed va n u v.
Proof. intros [H1 S1 T1 B1] Ha Hm. constructor; [done..|]. intros x Hx Hn. apply B1; [done|lia]. Qed.
End laws.

(** ** Page tables provide user memory *)

Section vm_user.
Context `{ConfigOK}.

Definition vm_user (root : Z) : UserMemory vmstate := {|
  um_copyout := copyout root;
  um_copyin := copyin root;
  um_ok s := user_ok s root /\ mem_ok (vm_mem s);
  um_there s x := uaddr (vm_mem s) root (PGROUNDDOWN x) <> 0;
  um_byte s x := ubyte (vm_mem s) root x;
  um_same s s' := vm_k s' = vm_k s;
|}.

Lemma ubytes_are_bytes m root va l : mem_ok m -> ubytes m root va l -> is_bytes l.
Proof.
  intros Hm Hl. unfold is_bytes. rewrite Forall_lookup. intros i b Hi. specialize (Hl i b Hi). unfold ubyte in Hl.
  destruct (_ =? 0) in Hl; [done|]. by apply Hm in Hl.
Qed.

Lemma vm_user_ok root : UserMemoryOK vmstate (UM := vm_user root).
Proof.
  constructor.
  - intros va src s [Hu Hm] Hb Hva. simpl. eapply wp_mono; [by apply copyout_loop_spec|].
    intros r s' (Hu' & Hk & Hm' & Hs & Hby & Hr). split; [|exact Hr].
    constructor; simpl; [by auto|done| |done]. intros x. by rewrite Hs.
  - intros va n s [Hu Hm] Hn Hva. simpl. eapply wp_mono; [apply copyin_loop_spec; [done|done|done|lia]|].
    intros [r l] s' [-> Hr]. split; [done|]. destruct Hr as [(Hr & Hum & l' & Hl & Hlen & Hbs)|Hr]; [left|by right].
    simpl in Hl. subst l'. split_and!; try done. by eapply ubytes_are_bytes.
  - done.
  - intros u v w E1 E2. simpl in *. congruence.
Qed.

(** Kernel code that keeps the free pages, and leaves the allocator's lock
    free, keeps user memory. *)
Lemma user_ok_kernel root k s : cpu_quiet (st_cpu k) -> free_spin k KmemLock ->
  st_free k = st_free (vm_k s) -> user_ok s root -> user_ok (mk_vm k (vm_mem s)) root.
Proof.
  intros Hc Hl Hf [[[H1 H2 H3 H4] Hwf] Hfr Hinj]. constructor; [split; [constructor|]| |]; cbn [vm_k].
  - done.
  - done.
  - unfold free_wf in *. by rewrite Hf.
  - by rewrite Hf.
  - by rewrite Hf.
  - intros va Hva Hnz. destruct (Hfr va Hva Hnz) as [F1 F2 F3 F4]. constructor; try done. cbn [vm_k]. by rewrite Hf.
  - exact Hinj.
Qed.
End vm_user.
