(* ===== verification/VmGrow.v ===== *)
(** * Memory holds bytes

    The type invariant of memory, [mem_ok], that every location holds a value of
    the type [uchar], through the operations that [uvmalloc] uses, however they
    end.  The second part is what [uvmalloc], [uvmdealloc] and [uvmunmap] do to
    an address space. *)

From stdpp Require Import base numbers list gmap strings.
From Stdlib Require Import ZArith Lia.
From S2P Require Import Prelude Blocks Monad State Locks Kalloc Codec Mem Strings Vm VmWalk VmSpace.
Open Scope Z_scope.

(** ** Stores *)

Lemma keeps_load a : keeps mem_ok (load a).
Proof. unfold load. auto with keeps. Qed.
Lemma keeps_store a v : keeps mem_ok (store a v).
Proof.
  unfold store. apply keeps_bind; [apply keeps_load|]. intros _. apply keeps_modify. intros m Hm x b.
  rewrite lookup_insert. case_decide; [intros [= <-]|by apply Hm]. apply Z.mod_pos_bound. done.
Qed.
#[export] Hint Resolve keeps_load keeps_store : keeps.

Lemma keeps_memset d c n : keeps mem_ok (memset d c n).
Proof. unfold memset. auto with keeps. Qed.
Lemma keeps_copy_up n d s : keeps mem_ok (copy_up n d s).
Proof. revert d s. induction n; simpl; auto with keeps. Qed.
Lemma keeps_copy_down n d s : keeps mem_ok (copy_down n d s).
Proof. revert d s. induction n; simpl; auto with keeps. Qed.
#[export] Hint Resolve keeps_memset keeps_copy_up keeps_copy_down : keeps.
Lemma keeps_memmove d s n : keeps mem_ok (memmove d s n).
Proof. unfold memmove. auto 6 with keeps. Qed.

Lemma keeps_zero_fill n s : keeps mem_ok (zero_fill n s).
Proof. revert s. induction n; simpl; auto with keeps. Qed.
#[export] Hint Resolve keeps_memmove keeps_zero_fill : keeps.
(** ** Operations of vm.c *)

Definition bytes_ok (s : vmstate) : Prop := mem_ok (vm_mem s).

Lemma keeps_in_k {A} (c : K A) : keeps bytes_ok (in_k c).
Proof. apply (keeps_lift (fun _ => True)); [|done|done]. intros s _. by destruct (c s). Qed.
Lemma keeps_in_mem {A} (c : M mem A) : keeps mem_ok c -> keeps bytes_ok (in_mem c).
Proof. intros Hc. by apply (keeps_lift mem_ok). Qed.
Lemma keeps_load64 a : keeps mem_ok (load64 a).
Proof. unfold load64. auto 6 with keeps. Qed.
Lemma keeps_store64 a v : keeps mem_ok (store64 a v).
Proof. unfold store64. auto 6 with keeps. Qed.
Lemma keeps_put_bytes a l : keeps mem_ok (put_bytes a l).
Proof. unfold put_bytes. auto with keeps. Qed.
Lemma keeps_get_bytes a n : keeps mem_ok (get_bytes a n).
Proof. unfold get_bytes. auto with keeps. Qed.
#[export] Hint Resolve keeps_in_k keeps_in_mem keeps_load64 keeps_store64 keeps_put_bytes keeps_get_bytes : keeps.

Section vm.
Context `{Config}.

Lemma keeps_vkalloc : keeps bytes_ok vkalloc.
Proof. unfold vkalloc. auto 7 with keeps. Qed.
Lemma keeps_vkfree pa : keeps bytes_ok (vkfree pa).
Proof. unfold vkfree. auto 7 with keeps. Qed.
#[local] Hint Resolve keeps_vkalloc keeps_vkfree : keeps.

Lemma keeps_walk root va alloc : keeps bytes_ok (walk root va alloc).
Proof.
  unfold walk. apply keeps_if; [auto with keeps|]. generalize [2; 1] as l. intros l. revert root.
  induction l; simpl; auto 10 with keeps.
Qed.
#[local] Hint Resolve keeps_walk : keeps.
Lemma keeps_walkaddr root va : keeps bytes_ok (walkaddr root va).
Proof. unfold walkaddr. auto 10 with keeps. Qed.
Lemma keeps_mappages root va size pa perm : keeps bytes_ok (mappages root va size pa perm).
Proof.
  unfold mappages. apply keeps_if; [auto with keeps|]. generalize (mappages_rounds (PGROUNDDOWN va) (PGROUNDDOWN (u64 (va + size - 1)))) as k.
  generalize (PGROUNDDOWN va) (PGROUNDDOWN (u64 (va + size - 1))). intros a last k. revert a pa.
  induction k; simpl; auto 10 with keeps.
Qed.
Lemma keeps_uvmunmap root va n f : keeps bytes_ok (uvmunmap root va n f).
Proof. unfold uvmunmap. auto 12 with keeps. Qed.
#[local] Hint Resolve keeps_walkaddr keeps_mappages keeps_uvmunmap : keeps.
Lemma keeps_uvmdealloc root o n : keeps bytes_ok (uvmdealloc root o n).
Proof. unfold uvmdealloc. auto with keeps. Qed.
#[local] Hint Resolve keeps_uvmdealloc : keeps.
Lemma keeps_uvmalloc_loop k root a o n x : keeps bytes_ok (uvmalloc_loop k root a o n x).
Proof. revert a. induction k; simpl; auto 10 with keeps. Qed.
End vm.

(** * Growing and shrinking a process: [uvmalloc], [uvmdealloc], [uvmunmap]

    A process grows by zeroed pages of its own; when memory runs out half way
    everything that was added is taken away again. *)

#[local] Arguments write_bytes : simpl never.
#[local] Arguments le_bytes : simpl never.

Lemma lor_1024 a b : 0 <= a < 1024 -> 0 <= b < 1024 -> 0 <= Z.lor a b < 1024.
Proof.
  intros Ha Hb. split; [apply Z.lor_nonneg; lia|]. apply (Z.log2_lt_cancel _ 1024).
  rewrite Z.log2_lor by lia. change (Z.log2 1024) with 10.
  destruct (Z.eq_dec a 0) as [->|], (Z.eq_dec b 0) as [->|]; [done|..];
    apply Z.max_lub_lt; try (by apply Z.log2_lt_pow2; lia); done.
Qed.

Section grow.
Context `{Config} `{Hcfg : !ConfigOK}.

(** Two states in which a page holds the same bytes. *)
Definition same_page (m m' : mem) (pg : Z) : Prop := forall x, pg <= x < pg + PGSIZE -> m' !! x = m !! x.

Lemma frame_kept root s s' pg : kept root s s' -> frame_ok s root pg ->
  frame_ok s' root pg /\ same_page (vm_mem s) (vm_mem s') pg.
Proof.
  intros [_ [l Hl] _ Hs Hm] [Hp Hf Hn Hmp]. destruct (Hs pg Hp Hf Hn) as [Hn' Hx].
  split; [|done]. constructor; [done| |done|by apply Hm]. rewrite Hl in Hf. set_solver.
Qed.

(** ** Freeing a page of data *)

Definition freed (pa : Z) (s : vmstate) : vmstate :=
  mk_vm (set_free (pa :: st_free (vm_k s)) (vm_k s)) (write_bytes (vm_mem s) pa (page_fill 1)).

Section free_frame.
Variables (s : vmstate) (root pa : Z).
Hypothesis Hi : pt_inv s root.
Hypothesis Hf : frame_ok s root pa.

Lemma freed_bounds : pa <= pa /\ pa + Z.of_nat (length (page_fill 1)) <= pa + PGSIZE.
Proof. rewrite page_fill_length. lia. Qed.

Lemma freed_node p : path_ok p -> node (vm_mem (freed pa s)) root p = node (vm_mem s) root p.
Proof. unfold freed. cbn [vm_mem]. apply data_node with (pa := pa); [done|done|apply freed_bounds]. Qed.

Lemma freed_xlate va : xlate (vm_mem (freed pa s)) root va = xlate (vm_mem s) root va.
Proof. unfold freed. cbn [vm_mem]. apply data_xlate with (pa := pa); [done|done|apply freed_bounds]. Qed.

Lemma freed_inv : pt_inv (freed pa s) root.
Proof.
  destruct (data_inv s root pa pa (page_fill 1) Hi Hf freed_bounds) as [[Hc Hl [Hnd Hok] Hm] [Hwn Hwi]].
  destruct Hf as [Hp Hfr Hn Hmp]. split.
  - constructor; [done|done| |].
    + split; constructor; done.
    + intros p Hp2. cbn in Hp2. apply elem_of_cons in Hp2 as [->|Hp2]; [by apply mapped_write_bytes|by apply Hm].
  - constructor; [|done]. intros p c Hp2 Hc2. destruct (Hwn p c Hp2 Hc2) as (? & Hcf & ?).
    split_and!; [done| |done]. cbn. apply not_elem_of_cons. split; [|done]. intros ->.
    apply (Hn p Hp2). by rewrite <- freed_node.
Qed.

(** Other pages of data stay what they are. *)
Lemma freed_frame pg : frame_ok s root pg -> pg <> pa ->
  frame_ok (freed pa s) root pg /\ same_page (vm_mem s) (vm_mem (freed pa s)) pg.
Proof.
  intros [Hp Hfr Hn Hmp] Hne. split.
  - constructor; [done|cbn; by apply not_elem_of_cons| |by apply mapped_write_bytes].
    intros p Hp2. rewrite freed_node by done. auto.
  - intros x Hx. apply page_fill_out.
    destruct (pages_disjoint pg pa Hp (fo_page _ _ _ Hf) Hne); lia.
Qed.
End free_frame.

Lemma leaf_frame root c va v s pg : pt_inv s root -> node (vm_mem s) root [PX 2 va; PX 1 va] = Some c ->
  frame_ok s root pg ->
  frame_ok (put_leaf c va v s) root pg /\ same_page (vm_mem s) (vm_mem (put_leaf c va v s)) pg.
Proof. intros Hi Hn. apply frame_kept. by apply leaf_kept. Qed.

(** ** [uvmunmap] *)

(** The pages of a range are mapped to pages of data of their own. *)
Record owned (s : vmstate) (root lo hi : Z) (fr : Z -> Z) : Prop := {
  ow_xlate : forall va, va_ok va -> lo <= va < hi ->
    exists v, xlate (vm_mem s) root va = Some v /\ PTE2PA v = fr va /\ PTE_FLAGS v <> PTE_V;
  ow_frame : forall va, va_ok va -> lo <= va < hi -> frame_ok s root (fr va);
  ow_inj : forall va wa, va_ok va -> va_ok wa -> lo <= va < hi -> lo <= wa < hi -> fr va = fr wa -> va = wa;
}.

(** [s'] is [s] with the pages of a range unmapped and freed. *)
Record unmapped (root lo hi : Z) (fr : Z -> Z) (s s' : vmstate) : Prop := {
  um_inv : pt_inv s' root;
  um_xlate : forall va, va_ok va ->
    xlate (vm_mem s') root va = if decide (lo <= va < hi) then None else xlate (vm_mem s) root va;
  um_free : forall pg, pg ∈ st_free (vm_k s') <->
    pg ∈ st_free (vm_k s) \/ exists va, va_ok va /\ lo <= va < hi /\ pg = fr va;
  um_state : vm_k s' = set_free (st_free (vm_k s')) (vm_k s);
  um_frame : forall pg, frame_ok s root pg -> (forall va, va_ok va -> lo <= va < hi -> pg <> fr va) ->
    frame_ok s' root pg /\ same_page (vm_mem s) (vm_mem s') pg;
}.

Lemma unmapped_refl root lo fr s : pt_inv s root -> unmapped root lo lo fr s s.
Proof.
  intros Hi. constructor; try done.
  - intros va _. by rewrite decide_False by lia.
  - intros pg. split; [auto|]. intros [?|(va & _ & Hr & _)]; [done|lia].
  - by destruct s as [[]].
Qed.

Lemma unmapped_step root lo hi fr s s1 c v :
  owned s root lo (hi + PGSIZE) fr -> va_ok lo -> va_ok hi -> lo <= hi ->
  unmapped root lo hi fr s s1 -> xlate (vm_mem s) root hi = Some v -> PTE2PA v = fr hi ->
  node (vm_mem (freed (fr hi) s1)) root [PX 2 hi; PX 1 hi] = Some c ->
  unmapped root lo (hi + PGSIZE) fr s (put_leaf c hi 0 (freed (fr hi) s1)).
Proof.
  intros [Hox Hof Hoi] Hlo Hhi Hle [Hi Hx Hfr Hst Hdf] Hxh Hfh Hn.
  assert (Hin : lo <= hi < hi + PGSIZE) by (unfold PGSIZE; lia).
  assert (Hf1 : frame_ok s1 root (fr hi)).
  { apply Hdf; [by apply Hof|]. intros va Hva Hr He. assert (hi = va) as -> by (apply Hoi; try done; unfold PGSIZE in *; lia). lia. }
  assert (Hlast : forall va, va_ok va -> lo <= va < hi + PGSIZE <-> lo <= va < hi \/ va = hi).
  { intros va [_ Hal]. split; [|unfold PGSIZE; lia]. intros Hr. destruct (Z.lt_trichotomy va hi) as [|[|Hgt]]; [lia|lia|].
    pose proof (aligned_sub hi va (proj2 Hhi) Hal Hgt). lia. }
  pose proof (freed_inv s1 root (fr hi) Hi Hf1) as Hi2. constructor.
  - by apply leaf_inv.
  - intros va Hva. unfold put_leaf. cbn [vm_mem].
    rewrite (leaf_xlate _ _ _ _ _ _ (proj2 Hi2) Hn) by (apply Hhi || apply Hva).
    rewrite freed_xlate, Hx by done. change (has (u64 0) PTE_V) with false. cbv iota.
    destruct (decide (va = hi)) as [->|Hne]; [by rewrite decide_True|].
    apply decide_ext. rewrite Hlast by done. tauto.
  - intros pg. cbn. rewrite elem_of_cons, Hfr. split.
    + intros [->|[?|(va & Hva & Hr & ->)]]; [right; by exists hi|auto|right]. exists va. split_and!; [done|lia|unfold PGSIZE in *; lia|done].
    + intros [?|(va & Hva & Hr & ->)]; [auto|]. apply Hlast in Hr as [Hr| ->]; [right; right; by exists va|auto|done].
  - unfold put_leaf, freed. cbn [vm_k]. rewrite Hst. reflexivity.
  - intros pg Hpg Hne. destruct (Hdf pg Hpg) as [Hp1 Hs1].
    { intros va Hva Hr. apply Hne; [done|]. unfold PGSIZE; lia. }
    destruct (freed_frame s1 root (fr hi) Hi Hf1 pg Hp1 (Hne hi Hhi ltac:(lia))) as [Hp2 Hs2].
    destruct (leaf_frame root c hi 0 (freed (fr hi) s1) pg Hi2 Hn Hp2) as [Hp3 Hs3].
    split; [done|]. intros x Hxx. rewrite Hs3, Hs2, Hs1 by done. done.
Qed.

Lemma uvmunmap_spec root lo n fr s : pt_inv s root -> va_ok lo -> 0 <= n -> lo + n * PGSIZE <= MAXVA ->
  owned s root lo (lo + n * PGSIZE) fr ->
  wp (uvmunmap root lo n true) (fun _ s' => unmapped root lo (lo + n * PGSIZE) fr s s') s.
Proof.
  intros Hi Hlo Hn Hmax How. unfold uvmunmap. rewrite (proj2 (Z.eqb_eq _ _) (proj2 Hlo)). cbn [negb].
  apply wp_forM with (I := fun k s1 => unmapped root lo (lo + k * PGSIZE) fr s s1); [done| | |auto].
  { rewrite Z.mul_0_l, Z.add_0_r. by apply unmapped_refl. }
  intros k s1 Hk Hu. set (a := lo + k * PGSIZE) in *.
  assert (Ha : va_ok a).
  { destruct Hlo as [Hl1 Hl2]. split; [unfold a, PGSIZE in *; lia|]. unfold a. by rewrite Z_mod_plus_full. }
  assert (Hr : lo <= a < lo + n * PGSIZE) by (unfold a, PGSIZE; lia).
  destruct (ow_xlate _ _ _ _ _ How a Ha Hr) as (v & Hv & Hpa & Hfl).
  pose proof (um_inv _ _ _ _ _ _ Hu) as Hi1.
  assert (Hv1 : xlate (vm_mem s1) root a = Some v).
  { rewrite (um_xlate _ _ _ _ _ _ Hu) by done. by rewrite decide_False by lia. }
  apply wp_bind, wp_walk_look; [done|destruct Ha; lia| |].
  { intros _ Hno. unfold xlate in Hv1. by rewrite Hno in Hv1. }
  intros c _ Hc. destruct (leaf_facts root a c s1 Hi1 Hc) as [Hnz _]. rewrite (proj2 (Z.eqb_neq _ _) Hnz).
  apply wp_bind. eapply wp_load_leaf; [done|done|].
  rewrite (xlate_leaf _ _ _ _ Hc) in Hv1. cbv zeta in Hv1. destruct (has _ PTE_V); [|done]. injection Hv1 as ->.
  cbn [negb]. rewrite (proj2 (Z.eqb_neq _ _) Hfl). rewrite Hpa.
  assert (How' : owned s root lo (a + PGSIZE) fr).
  { destruct How as [O1 O2 O3]. constructor; intros.
    - apply O1; [done|unfold a, PGSIZE in *; lia].
    - apply O2; [done|unfold a, PGSIZE in *; lia].
    - apply O3; (done || unfold a, PGSIZE in *; lia). }
  assert (Hf1 : frame_ok s1 root (fr a)).
  { apply (um_frame _ _ _ _ _ _ Hu); [by apply (ow_frame _ _ _ _ _ How)|]. intros va Hva Hr2 He.
    assert (a = va) as -> by (apply (ow_inj _ _ _ _ _ How); try done; unfold a, PGSIZE in *; lia). lia. }
  apply wp_bind, wp_vkfree; [apply Hi1|apply Hf1|apply Hf1|]. fold (freed (fr a) s1).
  assert (Hc2 : node (vm_mem (freed (fr a) s1)) root [PX 2 a; PX 1 a] = Some c).
  { by rewrite (freed_node s1 root (fr a) Hi1 Hf1) by apply path_ok_va. }
  eapply wp_store_leaf; [by apply freed_inv|done|].
  replace (lo + (k + 1) * PGSIZE) with (a + PGSIZE) by (unfold a; lia).
  by apply (unmapped_step root lo a fr s s1 c v); [..|lia|done|done|done|done].
Qed.
(** ** [uvmdealloc] *)

Lemma PGROUNDUP_aligned x : 0 <= x < 2 ^ 63 -> x mod PGSIZE = 0 -> PGROUNDUP x = x.
Proof.
  intros Hx Hal. destruct (PGROUNDUP_spec x Hx) as [Hm Hr].
  destruct (Z.eq_dec (PGROUNDUP x) x); [done|]. pose proof (aligned_sub x _ Hal Hm ltac:(lia)). lia.
Qed.

Lemma uvmdealloc_spec root lo hi fr s : pt_inv s root -> va_ok lo -> hi mod PGSIZE = 0 -> lo <= hi <= MAXVA ->
  owned s root lo hi fr ->
  wp (uvmdealloc root hi lo) (fun _ s' => unmapped root lo hi fr s s') s.
Proof.
  intros Hi Hlo Hhi Hr How. unfold uvmdealloc. destruct (Z.leb_spec hi lo).
  { assert (hi = lo) as -> by lia. by apply wp_ret, unmapped_refl. }
  pose proof Hlo as [Hl1 Hl2]. rewrite MAXVA_eq in Hr. rewrite !PGROUNDUP_aligned by (done || lia).
  destruct (Z.ltb_spec lo hi); [|lia]. apply wp_bind.
  assert (Hd : (hi - lo) mod PGSIZE = 0) by (by rewrite Zminus_mod, Hhi, Hl2).
  pose proof (Z.div_mod (hi - lo) PGSIZE ltac:(done)) as Hdm. rewrite Hd in Hdm.
  rewrite i32_small by (unfold PGSIZE in *; lia).
  assert (He : lo + (hi - lo) / PGSIZE * PGSIZE = hi) by lia.
  eapply wp_mono; [apply uvmunmap_spec with (fr := fr); rewrite ?He, ?MAXVA_eq; try done; try lia|].
  { apply Z.div_pos; [lia|done]. }
  rewrite He. intros _ s' Hu. by apply wp_ret.
Qed.

(** ** [uvmalloc] *)

(** A fresh page, zeroed. *)
Definition taken (r : Z) (next : list Z) (s : vmstate) : vmstate :=
  mk_vm (set_free next (vm_k s)) (write_bytes (write_bytes (vm_mem s) r (page_fill 5)) r (page_fill 0)).

Section take_page.
Variables (s : vmstate) (root r : Z) (next : list Z).
Hypothesis Hi : pt_inv s root.
Hypothesis Hfree : st_free (vm_k s) = r :: next.

Lemma taken_out x : ~ (r <= x < r + PGSIZE) -> vm_mem (taken r next s) !! x = vm_mem s !! x.
Proof. intros Hx. unfold taken. cbn [vm_mem]. by rewrite !page_fill_out. Qed.
Lemma taken_zero x : r <= x < r + PGSIZE -> vm_mem (taken r next s) !! x = Some 0.
Proof. intros Hx. unfold taken. cbn [vm_mem]. by rewrite page_fill_lookup. Qed.
Lemma taken_mapped a n : mapped (vm_mem s) a n -> mapped (vm_mem (taken r next s)) a n.
Proof. intros Hm. unfold taken. cbn [vm_mem]. by do 2 apply mapped_write_bytes. Qed.

Lemma taken_page : page_ok r /\ mapped (vm_mem s) r PGSIZE /\ (r ∉ next) /\ free_wf (set_free next (vm_k s)).
Proof. exact (free_head s root r next Hi Hfree). Qed.

Lemma taken_entry p c i : path_ok p -> node (vm_mem s) root p = Some c -> 0 <= i < 512 ->
  rd64 (vm_mem (taken r next s)) (c + 8 * i) = rd64 (vm_mem s) (c + 8 * i).
Proof.
  intros Hp Hc Hr. destruct taken_page as (Hrok & _). destruct Hi as [_ Hwf].
  destruct (pw_node _ _ _ Hwf p c Hp Hc) as (Hcok & Hcf & _).
  assert (c <> r) as Hne by (intros ->; apply Hcf; rewrite Hfree; set_solver).
  apply rd64_ext. intros x Hx. apply taken_out.
  destruct (pages_disjoint c r Hcok Hrok Hne); unfold PGSIZE in *; lia.
Qed.

Lemma taken_node p : path_ok p -> node (vm_mem (taken r next s)) root p = node (vm_mem s) root p.
Proof. intros Hp. apply node_frame; [done|]. intros q c i _ Hq Hc Hr. by apply (taken_entry q). Qed.

Lemma taken_xlate va : xlate (vm_mem (taken r next s)) root va = xlate (vm_mem s) root va.
Proof.
  unfold xlate. rewrite taken_node by apply path_ok_va.
  destruct (node (vm_mem s) root [PX 2 va; PX 1 va]) as [c|] eqn:Hc; simpl; [|done].
  rewrite (taken_entry [PX 2 va; PX 1 va] c); [done|apply path_ok_va|done|apply PX_range].
Qed.

Lemma taken_kept : kept root s (taken r next s).
Proof.
  destruct taken_page as (Hrok & Hrm & Hrn & Hfw). destruct Hi as [[Hc Hl Hf Hm] Hwf]. constructor.
  - split.
    + constructor; [done|done|done|]. intros p Hp. apply taken_mapped, Hm. rewrite Hfree. cbn in Hp. set_solver.
    + constructor.
      * intros p c Hp. rewrite taken_node by done. intros Hc2.
        destruct (pw_node _ _ _ Hwf p c Hp Hc2) as (? & Hcf & ?). split_and!; [done| |by apply taken_mapped].
        rewrite Hfree in Hcf. cbn. set_solver.
      * intros p q c Hp Hq. rewrite !taken_node by done. by apply (pw_inj _ _ _ Hwf).
  - by exists [r].
  - done.
  - intros pg Hpg Hpf Hpn. split; [intros p Hp; rewrite taken_node by done; auto|].
    intros x Hx. apply taken_out. assert (pg <> r) as Hne by (intros ->; apply Hpf; rewrite Hfree; set_solver).
    destruct (pages_disjoint pg r Hpg Hrok Hne); lia.
  - apply taken_mapped.
Qed.

Lemma taken_frame : frame_ok (taken r next s) root r.
Proof.
  destruct taken_page as (Hrok & Hrm & Hrn & _). destruct Hi as [_ Hwf].
  constructor; [done|done| |by apply taken_mapped]. intros p Hp. rewrite taken_node by done. intros Hc.
  destruct (pw_node _ _ _ Hwf p r Hp Hc) as (_ & Hrf & _). apply Hrf. rewrite Hfree. set_solver.
Qed.
End take_page.

(** [s] is [s0] with the pages from [lo] to [hi] added: zeroed, and different
    from each other and from every page of data of [s0]. *)
Record grew (root lo hi perm : Z) (fr : Z -> Z) (s0 s : vmstate) : Prop := {
  gw_inv : pt_inv s root;
  gw_xlate : forall va, va_ok va -> xlate (vm_mem s) root va =
    if decide (lo <= va < hi) then Some (mk_pte (fr va) perm) else xlate (vm_mem s0) root va;
  gw_frame : forall va, va_ok va -> lo <= va < hi -> frame_ok s root (fr va);
  gw_inj : forall va wa, va_ok va -> va_ok wa -> lo <= va < hi -> lo <= wa < hi -> fr va = fr wa -> va = wa;
  gw_zero : forall va x, va_ok va -> lo <= va < hi -> fr va <= x < fr va + PGSIZE -> vm_mem s !! x = Some 0;
  gw_data : forall pg, frame_ok s0 root pg -> frame_ok s root pg /\ same_page (vm_mem s0) (vm_mem s) pg /\
    (forall va, va_ok va -> lo <= va < hi -> fr va <> pg);
}.

Lemma grew_refl root lo perm fr s : pt_inv s root -> grew root lo lo perm fr s s.
Proof.
  intros Hi. constructor; try done; try (intros; lia).
  - intros va _. by rewrite decide_False by lia.
  - intros pg Hpg. split_and!; [done|done|intros; lia].
Qed.

Lemma grew_owned root lo hi perm fr s0 s : 0 <= perm < 1024 -> Z.lor perm PTE_V <> PTE_V ->
  grew root lo hi perm fr s0 s -> owned s root lo hi fr.
Proof.
  intros Hp Hv [Hi Hx Hf Hj _ _]. constructor; [|done|done]. intros va Hva Hr.
  destruct (fo_page _ _ _ (Hf va Hva Hr)) as [Hal _]. pose proof (page_range _ (fo_page _ _ _ (Hf va Hva Hr))).
  destruct (mk_pte_facts (fr va) perm) as (_ & Hpa & Hfl & _); [lia|done|done|].
  exists (mk_pte (fr va) perm). rewrite Hx, decide_True by done. split_and!; [done|done|]. by rewrite Hfl.
Qed.

(** A state in which nothing [s0] had has changed. *)
Record restored (root : Z) (s0 s : vmstate) : Prop := {
  rs_inv : pt_inv s root;
  rs_xlate : forall va, va_ok va -> xlate (vm_mem s) root va = xlate (vm_mem s0) root va;
  rs_data : forall pg, frame_ok s0 root pg -> frame_ok s root pg /\ same_page (vm_mem s0) (vm_mem s) pg;
}.

Lemma undo_growth root lo hi perm fr s0 s s' : 
  (forall va, va_ok va -> lo <= va < hi -> xlate (vm_mem s0) root va = None) ->
  grew root lo hi perm fr s0 s -> unmapped root lo hi fr s s' -> restored root s0 s'.
Proof.
  intros Hun [Hi Hx Hf Hj Hz Hd] [Ui Ux Uf Us Ud]. constructor; [done| |].
  - intros va Hva. rewrite Ux, Hx by done. destruct decide as [Hr|]; [|done]. by rewrite Hun.
  - intros pg Hpg. destruct (Hd pg Hpg) as (Hp1 & Hs1 & Hne). destruct (Ud pg Hp1) as [Hp2 Hs2].
    { intros va Hva Hr He. by apply (Hne va). }
    split; [done|]. intros x Hxx. by rewrite Hs2, Hs1.
Qed.

(** Steps that keep every page of data, but for one that is not in use yet. *)
Lemma grew_mono root lo hi perm fr s0 s s' r : grew root lo hi perm fr s0 s -> pt_inv s' root ->
  (forall va, va_ok va -> xlate (vm_mem s') root va = xlate (vm_mem s) root va) ->
  (forall pg, frame_ok s root pg -> pg <> r -> frame_ok s' root pg /\ same_page (vm_mem s) (vm_mem s') pg) ->
  (forall va, va_ok va -> lo <= va < hi -> fr va <> r) -> (forall pg, frame_ok s0 root pg -> pg <> r) ->
  grew root lo hi perm fr s0 s'.
Proof.
  intros [Hi Hx Hf Hj Hz Hd] Hi' Hx' Hk Hr1 Hr2. constructor; [done| | |done| |].
  - intros va Hva. by rewrite Hx', Hx.
  - intros va Hva Hr. by apply Hk; [apply Hf|apply Hr1].
  - intros va x Hva Hr Hxx. destruct (Hk (fr va)) as [_ Hs]; [by apply Hf|by apply Hr1|].
    rewrite Hs by done. by apply (Hz va).
  - intros pg Hpg. destruct (Hd pg Hpg) as (Hp & Hs & Hne). destruct (Hk pg Hp (Hr2 pg Hpg)) as [Hp' Hs'].
    split_and!; [done| |done]. intros x Hxx. by rewrite Hs', Hs.
Qed.

Lemma free_not_frame s root r pg : r ∈ st_free (vm_k s) -> frame_ok s root pg -> pg <> r.
Proof. intros Hr Hf ->. by apply (fo_free _ _ _ Hf). Qed.

Lemma grew_taken root lo hi perm fr s0 s r next : grew root lo hi perm fr s0 s ->
  st_free (vm_k s) = r :: next -> grew root lo hi perm fr s0 (taken r next s).
Proof.
  intros Hg Hfree. pose proof (gw_inv _ _ _ _ _ _ _ Hg) as Hi.
  assert (Hin : r ∈ st_free (vm_k s)) by (rewrite Hfree; set_solver).
  pose proof (taken_kept s root r next Hi Hfree) as Hk.
  eapply grew_mono with (r := r); [done|apply Hk|intros; by apply taken_xlate| | |].
  - intros pg Hpg _. by apply (frame_kept root s).
  - intros va Hva Hr. eapply free_not_frame; [done|]. by apply (gw_frame _ _ _ _ _ _ _ Hg).
  - intros pg Hpg. eapply free_not_frame; [done|]. by apply (gw_data _ _ _ _ _ _ _ Hg).
Qed.

(** One more page. *)
Lemma grew_step root lo a perm fr s0 s r next s' : grew root lo a perm fr s0 s ->
  va_ok a -> lo <= a -> st_free (vm_k s) = r :: next -> kept root (taken r next s) s' ->
  (forall va, va_ok va ->
    xlate (vm_mem s') root va = map_range (xlate (vm_mem (taken r next s)) root) a 1 r perm va) ->
  grew root lo (a + PGSIZE) perm (fun va => if decide (va = a) then r else fr va) s0 s'.
Proof.
  intros Hg Ha Hlo Hfree Hk Hx'. pose proof (gw_inv _ _ _ _ _ _ _ Hg) as Hi.
  assert (Hin : r ∈ st_free (vm_k s)) by (rewrite Hfree; set_solver).
  assert (Hold : forall va, va_ok va -> lo <= va < a -> fr va <> r).
  { intros va Hva Hr. eapply free_not_frame; [done|]. by apply (gw_frame _ _ _ _ _ _ _ Hg). }
  pose proof (grew_taken _ _ _ _ _ _ _ _ _ Hg Hfree) as Ht.
  pose proof (taken_frame s root r next Hi Hfree) as Hrf.
  assert (Hlast : forall va, va_ok va -> lo <= va < a + PGSIZE -> va <> a -> lo <= va < a).
  { intros va [_ Hal] Hr Hne. destruct (Z.lt_trichotomy va a) as [|[|Hgt]]; [lia|done|].
    pose proof (aligned_sub a va (proj2 Ha) Hal Hgt). lia. }
  destruct (frame_kept root _ s' r Hk Hrf) as [Hrf' Hrs].
  constructor; [apply Hk|..].
  - intros va Hva. rewrite Hx' by done. unfold map_range. rewrite Z.mul_1_l.
    destruct (decide (va = a)) as [->|Hne].
    { rewrite !decide_True by (unfold PGSIZE; lia). do 2 f_equal. lia. }
    rewrite decide_False by (intros Hr; specialize (Hlast va Hva ltac:(lia) Hne); lia).
    rewrite (gw_xlate _ _ _ _ _ _ _ Ht) by done. apply decide_ext. split; [unfold PGSIZE; lia|]. auto.
  - intros va Hva Hr. destruct decide; [done|]. eapply frame_kept; [done|].
    apply (gw_frame _ _ _ _ _ _ _ Ht); auto.
  - intros va wa Hva Hwa Hr1 Hr2. destruct decide as [->|], decide as [->|]; try done.
    + intros He. by destruct (Hold wa); auto.
    + intros He. by destruct (Hold va); auto.
    + apply (gw_inj _ _ _ _ _ _ _ Ht); auto.
  - intros va x Hva Hr Hxx. destruct decide as [->|].
    + rewrite Hrs by done. by apply taken_zero.
    + destruct (frame_kept root _ s' (fr va) Hk) as [_ Hs]; [apply (gw_frame _ _ _ _ _ _ _ Ht); auto|].
      rewrite Hs by done. apply (gw_zero _ _ _ _ _ _ _ Ht va); auto.
  - intros pg Hpg. destruct (gw_data _ _ _ _ _ _ _ Ht pg Hpg) as (Hp & Hs & Hne).
    destruct (frame_kept root _ s' pg Hk Hp) as [Hp' Hs']. split_and!; [done|intros x Hxx; by rewrite Hs', Hs|].
    intros va Hva Hr. destruct decide as [->|]; [|apply Hne; auto].
    intros <-. apply (free_not_frame s root r r); [done|by apply (gw_data _ _ _ _ _ _ _ Hg)|done].
Qed.

(** The page that could not be mapped is given back. *)
Lemma grew_discard root lo hi perm fr s0 s r next s' : grew root lo hi perm fr s0 s ->
  st_free (vm_k s) = r :: next -> kept root (taken r next s) s' ->
  (forall va, va_ok va -> xlate (vm_mem s') root va = xlate (vm_mem (taken r next s)) root va) ->
  frame_ok s' root r -> grew root lo hi perm fr s0 (freed r s').
Proof.
  intros Hg Hfree Hk Hx' Hrf. pose proof (gw_inv _ _ _ _ _ _ _ Hg) as Hi.
  assert (Hin : r ∈ st_free (vm_k s)) by (rewrite Hfree; set_solver).
  eapply grew_mono with (r := r) (s := taken r next s); [by apply grew_taken| | | | |].
  - apply freed_inv; [apply Hk|done].
  - intros va Hva. rewrite freed_xlate by (done || apply Hk). by apply Hx'.
  - intros pg Hpg Hne. destruct (frame_kept root _ s' pg Hk Hpg) as [Hp1 Hs1].
    destruct (freed_frame s' root r (kp_inv _ _ _ Hk) Hrf pg Hp1 Hne) as [Hp2 Hs2].
    split; [done|]. intros x Hxx. by rewrite Hs2, Hs1.
  - intros va Hva Hr. eapply free_not_frame; [done|]. by apply (gw_frame _ _ _ _ _ _ _ Hg).
  - intros pg Hpg. eapply free_not_frame; [done|]. by apply (gw_data _ _ _ _ _ _ _ Hg).
Qed.

Lemma map_one_page root a pa perm s : pt_inv s root -> va_ok a -> 0 <= perm < 1024 -> page_ok pa ->
  xlate (vm_mem s) root a = None ->
  wp (mappages root a PGSIZE pa perm) (fun ret s' => kept root s s' /\
    ((ret = 0 /\ (length (st_free (vm_k s)) <= 2 + length (st_free (vm_k s')))%nat /\ forall va, va_ok va ->
        xlate (vm_mem s') root va = map_range (xlate (vm_mem s) root) a 1 pa perm va) \/
     (ret = -1 /\ (length (st_free (vm_k s)) < 2)%nat /\ forall va, va_ok va ->
        xlate (vm_mem s') root va = xlate (vm_mem s) root va))) s.
Proof.
  intros Hi [Ha Hal] Hp Hpa Hx. pose proof (page_range pa Hpa). destruct Hpa as [Hpal Hpr].
  assert (Hlast : PGROUNDDOWN (a + PGSIZE - 1) = a) by (apply PGROUNDDOWN_in; [lia|done|unfold PGSIZE; lia]).
  assert (Hmax : a + PGSIZE <= MAXVA) by (apply aligned_sub; [done|done|lia]).
  eapply wp_mono; [apply mappages_spec; try done; try lia|].
  - unfold PHYSTOP, KERNBASE, PGSIZE in *. lia.
  - rewrite Hlast, PGROUNDDOWN_aligned by (done || lia). intros wa Hwa Hr. by assert (wa = a) as -> by lia.
  - rewrite Hlast, PGROUNDDOWN_aligned by (done || lia). intros ret s' [Hk (j & Hj & Hx' & Hr)]. split; [done|].
    rewrite Z.sub_diag, Z.div_0_l in Hr by done.
    destruct Hr as [(-> & Hr & ?)|(-> & Hr & ?)]; [left|right]; (split_and!; [done|lia|]); intros va Hva; rewrite Hx' by done.
    + assert (j = 1) as -> by (unfold PGSIZE in *; lia). done.
    + assert (j = 0) as -> by (unfold PGSIZE in *; lia). unfold map_range. by rewrite decide_False by lia.
Qed.

Lemma uvmalloc_loop_spec rounds root lo a perm fr newsz xperm s0 s :
  perm = Z.lor (Z.lor PTE_R PTE_U) xperm -> 0 <= perm < 1024 -> Z.lor perm PTE_V <> PTE_V ->
  va_ok lo -> a mod PGSIZE = 0 -> lo <= a -> a + Z.of_nat rounds * PGSIZE <= MAXVA ->
  (forall va, va_ok va -> lo <= va < a + Z.of_nat rounds * PGSIZE -> xlate (vm_mem s0) root va = None) ->
  grew root lo a perm fr s0 s ->
  wp (uvmalloc_loop rounds root a lo newsz xperm) (fun ret s' =>
    (ret = newsz /\ (length (st_free (vm_k s)) <= 3 * rounds + length (st_free (vm_k s')))%nat /\
      exists fr', grew root lo (a + Z.of_nat rounds * PGSIZE) perm fr' s0 s') \/
    (ret = 0 /\ restored root s0 s' /\ (length (st_free (vm_k s)) < 3 * rounds)%nat)) s.
Proof.
  intros Hperm Hp Hv Hlo. revert a fr s. induction rounds as [|rounds IH]; intros a fr s Hal Hla Hmax Hun Hg.
  { apply wp_ret. left. split_and!; [done|lia|]. exists fr. by rewrite Z.mul_0_l, Z.add_0_r. }
  pose proof (gw_inv _ _ _ _ _ _ _ Hg) as Hi. destruct Hlo as [Hlo1 Hlo2]. rewrite MAXVA_eq in Hmax, Hlo1.
  assert (Ha : va_ok a) by (split; [rewrite MAXVA_eq; unfold PGSIZE in *; lia|done]).
  assert (Hun' : forall va, va_ok va -> lo <= va < a -> xlate (vm_mem s0) root va = None)
    by (intros va Hva Hr; apply Hun; [done|unfold PGSIZE; lia]).
  assert (Hundo : (length (st_free (vm_k s)) < 3)%nat -> forall s1, grew root lo a perm fr s0 s1 ->
    wp (let! _ := uvmdealloc root a lo in ret 0) (fun ret s' =>
      (ret = newsz /\ (length (st_free (vm_k s)) <= 3 * S rounds + length (st_free (vm_k s')))%nat /\
        exists fr', grew root lo (a + Z.of_nat (S rounds) * PGSIZE) perm fr' s0 s') \/
      (ret = 0 /\ restored root s0 s' /\ (length (st_free (vm_k s)) < 3 * S rounds)%nat)) s1).
  { intros Hfew s1 Hg1. apply wp_bind. eapply wp_mono; [apply uvmdealloc_spec with (fr := fr)|].
    - apply Hg1.
    - split; [rewrite MAXVA_eq|]; done.
    - done.
    - rewrite MAXVA_eq. unfold PGSIZE in *. lia.
    - by eapply grew_owned.
    - intros ? s2 Hu. apply wp_ret. right. split_and!; [done|by eapply undo_growth|lia]. }
  cbn [uvmalloc_loop]. apply wp_bind, wp_vkalloc; [apply Hi|intros Hnil; apply Hundo; [rewrite Hnil; simpl; lia|done]|].
  intros r next Hfree Hr. pose proof (page_range r Hr). destruct (Z.eqb_spec r 0); [lia|].
  destruct (free_head s root r next Hi Hfree) as (_ & Hrm & _ & _).
  apply wp_bind. eapply wp_in_mem; [apply memset_page; [lia|by apply mapped_write_bytes]|]. cbn [vm_k vm_mem].
  fold (taken r next s). rewrite <- Hperm. apply wp_bind.
  pose proof (taken_kept s root r next Hi Hfree) as Hk1.
  eapply wp_mono; [apply map_one_page; try done; [apply Hk1|]|].
  { rewrite taken_xlate, (gw_xlate _ _ _ _ _ _ _ Hg), decide_False by (done || lia).
    apply Hun; [done|unfold PGSIZE; lia]. }
  intros ret s2 [Hk2 [(-> & Hcnt & Hx2)|(-> & Hcnt & Hx2)]]; cbn [Z.eqb negb]; cbn [taken vm_k set_free st_free] in Hcnt.
  - replace (a + Z.of_nat (S rounds) * PGSIZE) with (a + PGSIZE + Z.of_nat rounds * PGSIZE) in * by lia.
    eapply wp_mono; [eapply IH; [by apply aligned_add|unfold PGSIZE; lia|by rewrite MAXVA_eq|done|by eapply grew_step]|].
    rewrite Hfree. cbn [length].
    intros ret s3 [(-> & Hmany & Hg3)|(-> & Hrs & Hfew)]; [left|right]; (split_and!; [done|lia || done|lia || done]).
  - destruct (frame_kept root _ s2 r Hk2 (taken_frame s root r next Hi Hfree)) as [Hrf _].
    apply wp_bind, wp_vkfree; [apply Hk2|done|apply Hrf|]. fold (freed r s2). apply Hundo; [rewrite Hfree; simpl; lia|].
    eapply grew_discard; [done|done|done|done|done].
Qed.

(** C35: [uvmalloc] grows a process by zeroed pages of its own, readable and
    accessible to the user, from the page after [oldsz] up to [newsz], and
    changes nothing else.  It succeeds whenever three pages are free for every
    page to add; if it returns 0 every translation and every page of data is as
    before. *)
Theorem uvmalloc_grows root oldsz newsz xperm s :
  let perm := Z.lor (Z.lor PTE_R PTE_U) xperm in
  let lo := PGROUNDUP oldsz in
  pt_inv s root -> 0 <= xperm < 1024 -> 0 <= oldsz <= newsz -> 0 < newsz <= MAXVA - PGSIZE ->
  (forall va, va_ok va -> lo <= va -> va < newsz -> xlate (vm_mem s) root va = None) ->
  wp (uvmalloc root oldsz newsz xperm) (fun ret s' =>
    (ret = newsz /\ exists fr, grew root lo (PGROUNDUP newsz) perm fr s s') \/
    (ret = 0 /\ restored root s s' /\
     Z.of_nat (length (st_free (vm_k s))) < 3 * ((PGROUNDUP newsz - lo) / PGSIZE))) s.
Proof.
  intros perm lo Hi Hxp Ho Hn Hun. rewrite MAXVA_eq in Hn. unfold PGSIZE in Hn. unfold uvmalloc.
  destruct (Z.ltb_spec newsz oldsz); [lia|]. fold lo.
  destruct (PGROUNDUP_spec oldsz ltac:(lia)) as [Hl1 Hl2]. fold lo in Hl1, Hl2.
  destruct (PGROUNDUP_spec newsz ltac:(lia)) as [Hn1 Hn2].
  set (q := (newsz - lo + PGSIZE - 1) / PGSIZE).
  assert (Hq : 0 <= q /\ lo + q * PGSIZE = PGROUNDUP newsz).
  { unfold q, PGSIZE in *. pose proof (Z.div_mod (newsz - lo + 4096 - 1) 4096 ltac:(lia)).
    pose proof (Z.mod_pos_bound (newsz - lo + 4096 - 1) 4096 ltac:(lia)).
    pose proof (Z.div_mod lo 4096 ltac:(lia)). pose proof (Z.div_mod (PGROUNDUP newsz) 4096 ltac:(lia)). lia. }
  assert (Hhi : lo + Z.of_nat (Z.to_nat q) * PGSIZE = PGROUNDUP newsz) by (rewrite Z2Nat.id; lia).
  assert (Hlo : va_ok lo) by (split; [rewrite MAXVA_eq; unfold PGSIZE in *; lia|done]).
  rewrite <- Hhi. replace (lo + Z.of_nat (Z.to_nat q) * PGSIZE - lo) with (Z.of_nat (Z.to_nat q) * PGSIZE) by lia.
  rewrite Z.div_mul by done. eapply wp_mono; [eapply uvmalloc_loop_spec with (fr := id) (perm := perm)|].
  - done.
  - apply lor_1024; [|done]. apply lor_1024; done.
  - intros He. apply (f_equal (fun z => Z.testbit z 1)) in He. unfold perm in He. by rewrite !Z.lor_spec in He.
  - done.
  - done.
  - lia.
  - rewrite Hhi, MAXVA_eq. unfold PGSIZE in *. lia.
  - rewrite Hhi. intros va Hva Hr. apply Hun; [done|lia|].
    pose proof (aligned_sub va (PGROUNDUP newsz) (proj2 Hva) Hn1 ltac:(lia)). lia.
  - by apply grew_refl.
  - intros ret s' [(-> & _ & Hg)|(-> & Hr & Hfew)]; [by left|right; split_and!; [done|done|lia]].
Qed.

End grow.
