(* ===== verification/MetaImage.v ===== *)
(** * The on-disk image of [struct RAIDMeta]

    The layout of the structures of kernel/raid.h, kernel/spinlock.h and
    kernel/sleeplock.h under the RISC-V LP64 ABI: the bytes that
    [writeraidmeta] copies to the last block of a disk and that [loadraid]
    copies back.  [raidmeta_image] collects from the state what the C struct
    holds in one place (the locks included), [restore_image] puts it back.
    Padding, and the bytes of the union that the member in use does not cover,
    are zero in the image. *)

From stdpp Require Import base numbers list gmap strings.
From Stdlib Require Import ZArith Lia.
From S2P Require Import Prelude Blocks Monad State Codec.
Open Scope Z_scope.

(** ** Struct values with their locks inside *)

Record sleepimg := mk_sleepimg { im_sleep : sleeplock; im_lk : spinlock }.
Record diskimg := mk_diskimg { im_info : DiskInfo; im_lock : sleepimg }.
Record pairimg := mk_pairimg { im_mutex : spinlock; im_pair : DiskPair }.
Record parityimg := mk_parityimg {
  im_parity : ParityData;
  im_clusterlock : sleepimg;
  im_repairlock : spinlock;
}.
Inductive dataimg :=
| ImNone
| ImPairs (ps : list pairimg)
| ImParity (d : parityimg).

Record RAIDImage := mk_RAIDImage {
  im_type : Z;
  im_diskinfo : list diskimg;
  im_isDestroyed : Z;
  im_data : list Z;                (* the bytes of the union *)
  im_read : Z;
  im_write : Z;
}.

Section layout.
Context `{Config}.
Local Open Scope codec_scope.

Definition c_spinlock : codec spinlock :=
  c_iso (fun l => (sp_locked l, (tt, (sp_name l, sp_cpu l))))
        (fun '(a, (_, (b, c))) => mk_spinlock a b c)
        (c_uint 4 >> c_pad 4 >> c_uint 8 >> c_uint 8).

Definition c_sleeplock : codec sleepimg :=
  c_iso (fun l => (sl_locked (im_sleep l), (tt, (im_lk l, (sl_name (im_sleep l), (sl_pid (im_sleep l), tt))))))
        (fun '(a, (_, (lk, (n, (p, _))))) => mk_sleepimg (mk_sleeplock a n p) lk)
        (c_uint 4 >> c_pad 4 >> c_spinlock >> c_uint 8 >> c_int >> c_pad 4).

Definition c_DiskInfo : codec diskimg :=
  c_iso (fun d => (di_valid (im_info d), (di_diskn (im_info d), (tt, im_lock d))))
        (fun '(v, (n, (_, l))) => mk_diskimg (mk_DiskInfo v n) l)
        (c_uint 1 >> c_uint 1 >> c_pad 6 >> c_sleeplock).

(** [&raidmeta.diskinfo[k]] *)
Definition c_diskptr : codec Z :=
  c_iso (fun k => addr_raidmeta + 8 + 56 * k) (fun a => (a - addr_raidmeta - 8) / 56) (c_uint 8).

Definition c_DiskPair : codec pairimg :=
  c_iso (fun p => (im_mutex p, (dp_disk0 (im_pair p), (dp_disk1 (im_pair p),
                   (dp_writing (im_pair p), (dp_reading0 (im_pair p), (dp_reading1 (im_pair p), tt)))))))
        (fun '(m, (a, (b, (w, (r0, (r1, _)))))) => mk_pairimg m (mk_DiskPair a b w r0 r1))
        (c_spinlock >> c_diskptr >> c_diskptr >> c_uint 1 >> c_uint 1 >> c_uint 1 >> c_pad 5).

Definition ncl : nat := Z.to_nat nclusters.

(** [struct RAID4Data], [struct RAID5Data]: the lock is aligned to 8 bytes. *)
Definition c_ParityData : codec parityimg :=
  c_iso (fun d => (pd_cluster_loaded (im_parity d), (tt, (im_clusterlock d, (im_repairlock d,
                   (pd_writecount (im_parity d), pd_repairing (im_parity d)))))))
        (fun '(l, (_, (cl, (rl, (w, r))))) => mk_parityimg (mk_ParityData l w r) cl rl)
        (c_array ncl (c_uint 1) >> c_pad ((8 - ncl mod 8) mod 8) >> c_sleeplock >> c_spinlock
         >> c_int >> c_int).

Definition npairs_raid1 : Z := (DISKS + 1) / 2.
Definition npairs_raid0_1 : Z := DISKS / 2.

Definition sizeof_union : nat :=
  Nat.max (Z.to_nat npairs_raid1 * c_size c_DiskPair) (c_size c_ParityData).

(** The bytes of the union, and how the member for [type] reads them. *)
Definition union_bytes (d : dataimg) : list Z :=
  let bytes := match d with
    | ImNone => []
    | ImPairs ps => c_enc (c_array (length ps) c_DiskPair) ps
    | ImParity d => c_enc c_ParityData d
    end in
  bytes ++ replicate (sizeof_union - length bytes) 0.

Definition union_read (type : Z) (l : list Z) : dataimg :=
  if type =? RAID1 then ImPairs (c_dec (c_array (Z.to_nat npairs_raid1) c_DiskPair) l)
  else if type =? RAID0_1 then ImPairs (c_dec (c_array (Z.to_nat npairs_raid0_1) c_DiskPair) l)
  else if (type =? RAID4) || (type =? RAID5) then ImParity (c_dec c_ParityData l)
  else ImNone.

Definition c_RAIDMeta : codec RAIDImage :=
  c_iso (fun m => (im_type m, (tt, (im_diskinfo m, (im_isDestroyed m, (tt,
                   (im_data m, (im_read m, im_write m))))))))
        (fun '(t, (_, (di, (d, (_, (u, (r, w))))))) => mk_RAIDImage t di d u r w)
        (c_uint 4 >> c_pad 4 >> c_array (Z.to_nat (DISKS + 1)) c_DiskInfo >> c_int >> c_pad 4
         >> c_bytes sizeof_union >> c_uint 8 >> c_uint 8).

Definition sizeof_raidmeta : Z := Z.of_nat (c_size c_RAIDMeta).

(** ** Collecting and restoring the struct *)

Definition get_spin (s : State) (i : spinid) : spinlock :=
  default (mk_spinlock 0 0 0) (st_spin s !! i).
Definition get_sleep (s : State) (i : sleepid) : sleepimg :=
  mk_sleepimg (default (mk_sleeplock 0 0 0) (st_sleep s !! i)) (get_spin s (LkOf i)).

Definition data_image (s : State) : dataimg :=
  match rm_data (st_meta s) with
  | DataNone => ImNone
  | DataPairs ps => ImPairs (imap (fun k p => mk_pairimg (get_spin s (PairMutex (Z.of_nat k))) p) ps)
  | DataParity d => ImParity (mk_parityimg d (get_sleep s ClusterLock) (get_spin s RepairLock))
  end.

Definition raidmeta_image (s : State) : RAIDImage :=
  let m := st_meta s in
  mk_RAIDImage (rm_type m)
    (imap (fun k d => mk_diskimg d (get_sleep s (DiskLock (Z.of_nat k)))) (rm_diskinfo m))
    (rm_isDestroyed m) (union_bytes (data_image s)) (rm_read m) (rm_write m).

Definition put_sleep (i : sleepid) (l : sleepimg) (s : State) : State :=
  set_spin (<[LkOf i := im_lk l]> (st_spin s)) (set_sleep (<[i := im_sleep l]> (st_sleep s)) s).

Fixpoint put_disklocks (k : Z) (l : list diskimg) (s : State) : State :=
  match l with
  | [] => s
  | d :: l => put_disklocks (k + 1) l (put_sleep (DiskLock k) (im_lock d) s)
  end.

Fixpoint put_mutexes (k : Z) (l : list pairimg) (s : State) : State :=
  match l with
  | [] => s
  | p :: l => put_mutexes (k + 1) l (set_spin (<[PairMutex k := im_mutex p]> (st_spin s)) s)
  end.

Definition restore_data (d : dataimg) (s : State) : RAIDData * State :=
  match d with
  | ImNone => (DataNone, s)
  | ImPairs ps => (DataPairs (map im_pair ps), put_mutexes 0 ps s)
  | ImParity d => (DataParity (im_parity d),
      set_spin (<[RepairLock := im_repairlock d]> (st_spin (put_sleep ClusterLock (im_clusterlock d) s)))
        (put_sleep ClusterLock (im_clusterlock d) s))
  end.

Definition restore_image (m : RAIDImage) (s : State) : State :=
  let '(d, s) := restore_data (union_read (im_type m) (im_data m)) (put_disklocks 0 (im_diskinfo m) s) in
  set_meta (mk_RAIDMeta (im_type m) (map im_info (im_diskinfo m)) (im_isDestroyed m) d
              (im_read m) (im_write m)) s.

(** [uchar data[BSIZE] = {0}; memmove(data, &raidmeta, sizeof(raidmeta))] *)
Definition meta_block (s : State) : block :=
  let bytes := c_enc c_RAIDMeta (raidmeta_image s) in
  bytes ++ replicate (Z.to_nat BSIZE - length bytes) 0.

(** [memmove(&raidmeta, data, sizeof(raidmeta))] *)
Definition load_meta (b : block) (s : State) : State := restore_image (c_dec c_RAIDMeta b) s.

(** ** Reading back what was stored *)

#[export] Instance c_spinlock_ok : CodecOK c_spinlock := _.
#[export] Instance c_sleeplock_ok : CodecOK c_sleeplock := _.
#[export] Instance c_DiskInfo_ok : CodecOK c_DiskInfo := _.
#[export] Instance c_DiskPair_ok : CodecOK c_DiskPair := _.
#[export] Instance c_ParityData_ok : CodecOK c_ParityData := _.
#[export] Instance c_RAIDMeta_ok : CodecOK c_RAIDMeta := _.

(** The arrays of [raidmeta] have their declared lengths. *)
Definition data_fits (d : RAIDData) : Prop :=
  match d with
  | DataNone => True
  | DataPairs ps => (length ps <= Z.to_nat npairs_raid1)%nat
  | DataParity d => length (pd_cluster_loaded d) = ncl
  end.
Definition meta_sized (m : RAIDMeta) : Prop :=
  length (rm_diskinfo m) = Z.to_nat (DISKS + 1) /\ data_fits (rm_data m).

Lemma c_spinlock_wf l : c_wf c_spinlock l.
Proof. done. Qed.
Lemma c_sleeplock_wf l : c_wf c_sleeplock l.
Proof. done. Qed.

Lemma union_bytes_length s : data_fits (rm_data (st_meta s)) -> length (union_bytes (data_image s)) = sizeof_union.
Proof.
  intros Hd. unfold union_bytes, data_image. rewrite length_app, length_replicate.
  destruct (rm_data (st_meta s)) as [|ps|d]; cbn [data_fits] in Hd.
  - simpl length at 1 2. lia.
  - set (l := imap _ ps). assert (Hl : length l = length ps) by apply length_imap.
    rewrite (enc_length (c := c_array (length l) c_DiskPair) l).
    + cbn [c_array c_size]. rewrite Hl. unfold sizeof_union. nia.
    + split; [done|]. apply Forall_true. intros []. done.
  - rewrite (enc_length (c := c_ParityData)); [unfold sizeof_union; lia|].
    split; [|done]. split; [done|]. by apply Forall_true.
Qed.

Lemma raidmeta_image_wf s : meta_sized (st_meta s) -> c_wf c_RAIDMeta (raidmeta_image s).
Proof.
  intros [Hl Hd]. repeat split; simpl.
  - by rewrite length_imap.
  - apply Forall_true. done.
  - by apply union_bytes_length.
Qed.

(** The block [writeraidmeta] stores gives back the struct. *)
Lemma meta_block_dec s : meta_sized (st_meta s) ->
  c_dec c_RAIDMeta (meta_block s) = c_norm c_RAIDMeta (raidmeta_image s).
Proof. intros Hs. unfold meta_block. apply dec_enc. by apply raidmeta_image_wf. Qed.

(** What [memmove(&raidmeta, data, ...)] gives when [data] is such a block. *)
Lemma load_meta_block s s0 : meta_sized (st_meta s) ->
  load_meta (meta_block s) s0 = restore_image (c_norm c_RAIDMeta (raidmeta_image s)) s0.
Proof. intros Hs. unfold load_meta. by rewrite meta_block_dec. Qed.

(** The fields of what is restored. *)
Lemma restore_meta m s0 : st_meta (restore_image m s0) =
  mk_RAIDMeta (im_type m) (map im_info (im_diskinfo m)) (im_isDestroyed m)
    (restore_data (union_read (im_type m) (im_data m)) (put_disklocks 0 (im_diskinfo m) s0)).1
    (im_read m) (im_write m).
Proof. unfold restore_image. by destruct (restore_data _ _). Qed.

Lemma put_disklocks_other k l s : st_free (put_disklocks k l s) = st_free s /\
  st_disk (put_disklocks k l s) = st_disk s /\ st_cpu (put_disklocks k l s) = st_cpu s /\
  st_pid (put_disklocks k l s) = st_pid s.
Proof. revert k s. induction l as [|d l IH]; intros k s; simpl; [done|].
  exact (IH (k + 1) (put_sleep (DiskLock k) (im_lock d) s)). Qed.

Lemma put_mutexes_other k l s : st_free (put_mutexes k l s) = st_free s /\
  st_disk (put_mutexes k l s) = st_disk s /\ st_cpu (put_mutexes k l s) = st_cpu s /\
  st_pid (put_mutexes k l s) = st_pid s /\ st_sleep (put_mutexes k l s) = st_sleep s.
Proof. revert k s. induction l as [|p l IH]; intros k s; simpl; [done|].
  exact (IH (k + 1) (set_spin (<[PairMutex k := im_mutex p]> (st_spin s)) s)). Qed.

Lemma restore_other m s : st_free (restore_image m s) = st_free s /\
  st_disk (restore_image m s) = st_disk s /\ st_cpu (restore_image m s) = st_cpu s /\
  st_pid (restore_image m s) = st_pid s.
Proof.
  unfold restore_image, restore_data.
  pose proof (put_disklocks_other 0 (im_diskinfo m) s).
  destruct (union_read _ _) as [|ps|d]; simpl; [done| |done].
  pose proof (put_mutexes_other 0 ps (put_disklocks 0 (im_diskinfo m) s)). naive_solver congruence.
Qed.

(** Restoring leaves every spinlock either as it was or as the image has it. *)
Lemma put_disklocks_spin (P : spinlock -> Prop) k l s i :
  (forall d, d ∈ l -> P (im_lk (im_lock d))) -> (exists x, st_spin s !! i = Some x /\ P x) ->
  exists x, st_spin (put_disklocks k l s) !! i = Some x /\ P x.
Proof.
  revert k s. induction l as [|d l IH]; intros k s Hl Hi; simpl; [done|].
  apply IH; [set_solver|]. simpl. destruct (decide (LkOf (DiskLock k) = i)) as [<-|Hne].
  - rewrite lookup_insert_eq. eexists. split; [done|]. apply Hl. set_solver.
  - by rewrite lookup_insert_ne.
Qed.

Lemma put_mutexes_spin (P : spinlock -> Prop) k l s i :
  (forall p, p ∈ l -> P (im_mutex p)) -> (exists x, st_spin s !! i = Some x /\ P x) ->
  exists x, st_spin (put_mutexes k l s) !! i = Some x /\ P x.
Proof.
  revert k s. induction l as [|p l IH]; intros k s Hl Hi; simpl; [done|].
  apply IH; [set_solver|]. simpl. destruct (decide (PairMutex k = i)) as [<-|Hne].
  - rewrite lookup_insert_eq. eexists. split; [done|]. apply Hl. set_solver.
  - by rewrite lookup_insert_ne.
Qed.

End layout.
