(* ===== verification/RaidCore.v ===== *)
(** * The RAID code shared by all levels

    The block interface of kernel/virtio_disk.c that the RAID code calls, and
    the routines of kernel/raid.c every level uses: [diskblockn],
    [raidblockn], [writeraidmeta], and the loops that take and release the
    lock of every disk.  The invariant of the metadata, [raid_wf], and the
    specifications of these routines. *)

From stdpp Require Import base numbers list gmap strings.
From Stdlib Require Import ZArith Lia.
From S2P Require Import Prelude Blocks Monad State Locks Kalloc Codec MetaImage.
Open Scope Z_scope.

Section core.
Context `{Config}.

(** ** virtio_disk.c: [read_block], [write_block]

    [transfer_buffer[diskn]] exists for the disks 1 to DISKS; a request beyond
    the end of the disk completes with an error status, on which
    [virtio_disk_intr] panics. *)

Definition block_in_range (blockno : Z) : bool := (0 <=? blockno) && (blockno <? nblocks).
Definition raid_disk (diskn : Z) : bool := (1 <=? diskn) && (diskn <=? DISKS).

Definition read_block (diskn blockno : Z) : K block :=
  if negb (raid_disk diskn) then fault
  else if negb (block_in_range blockno) then panic ": virtio_disk_intr status"
  else gets (fun s => blk s diskn blockno).

Definition write_block (diskn blockno : Z) (data : block) : K unit :=
  if negb (raid_disk diskn) then fault
  else if negb (block_in_range blockno) then panic ": virtio_disk_intr status"
  else modify (fun s => set_disk (<[(diskn, blockno) := data]> (st_disk s)) s).

(** ** Access to [raidmeta] *)

Definition diskinfo (i : Z) : K DiskInfo :=
  bind (gets (fun s => znth (rm_diskinfo (st_meta s)) i)) deref.

Definition is_valid (d : DiskInfo) : bool := negb (di_valid d =? 0).

Definition put_diskinfo (i : Z) (d : DiskInfo) : K unit :=
  let! l := gets (fun s => rm_diskinfo (st_meta s)) in
  let! _ := deref (znth l i) in
  mod_meta (set_diskinfo (zset l i d)).

Definition set_valid (i v : Z) : K unit :=
  let! d := diskinfo i in put_diskinfo i (mk_DiskInfo v (di_diskn d)).

(** [for (int i = 0; i < DISKS; i++) acquiresleep(&raidmeta.diskinfo[i].lock)] *)
Definition acquire_disks : K unit := forM (range 0 DISKS) (fun i => acquiresleep (DiskLock i)).
Definition release_disks : K unit := forM (range 0 DISKS) (fun i => releasesleep (DiskLock i)).

(** ** raid.c *)

Definition diskblockn : Z := u64 (DISK_SIZE_BYTES / BSIZE - 1).

Definition raidblockn : K Z :=
  let! type := gets (fun s => rm_type (st_meta s)) in
  if type =? RAID0 then ret (u64 (diskblockn * DISKS))
  else if type =? RAID1 then ret (u64 (diskblockn * ((DISKS + 1) / 2)))
  else if type =? RAID0_1 then ret (u64 (diskblockn * (DISKS / 2)))
  else if type =? RAID4 then ret (u64 (diskblockn * (DISKS - 1)))
  else if type =? RAID5 then ret (u64 (diskblockn * (DISKS - 1)))
  else panic "bad raid type".

(** Copying [raidmeta] to or from a block needs it to fit. *)
Definition meta_fits : K unit := if sizeof_raidmeta <=? BSIZE then ret tt else fault.

Definition writeraidmeta : K unit :=
  acquire_disks;;
  forM (range 1 (DISKS + 1)) (fun i =>
    let! d := diskinfo i in
    when (is_valid d)
      (meta_fits;;
       let! data := gets meta_block in
       let lastblockondisk := i32 diskblockn in
       write_block i lastblockondisk data));;
  release_disks.

(** The guard [vblkn < 0 || vblkn >= raidblockn()] of every read and write. *)
Definition bad_vblkn (vblkn n : Z) : bool := (vblkn <? 0) || (n <=? u64 vblkn).

(** The head of every [raidNread] and [raidNwrite]: the type check and the
    guard; the result says whether [vblkn] is out of range. *)
Definition enter_level (t vblkn : Z) : K bool :=
  let! type := gets (fun s => rm_type (st_meta s)) in
  if negb (type =? t) then panic "wrong raid function called"
  else
    let! n := raidblockn in
    ret (bad_vblkn vblkn n).

(** [for (i < DISKS) if (i != diskn && !diskinfo[i].valid) return -1] *)
Fixpoint other_invalid (diskn : Z) (l : list Z) : K bool :=
  match l with
  | [] => ret false
  | i :: l =>
    if i =? diskn then other_invalid diskn l
    else let! d := diskinfo i in
         if negb (is_valid d) then ret true else other_invalid diskn l
  end.

(** A scratch page that [kalloc] did not return faults at its first use. *)
Definition use_page (page : Z) : K unit := if page =? 0 then fault else ret tt.

End core.

(** * The invariant of the RAID state, and the specifications of the shared code

    [raid_wf]: no lock is held, the metadata describes DISKS disks, and the
    blocks that hold data are blocks.  [ready]: an array of a given level with a
    given set of failed disks, with two pages free for scratch buffers.  Every
    operation of every level preserves them. *)

Section wf.
Context `{Config}.

(** The places where locks of the RAID code live. *)
Definition sleep_place (i : sleepid) : Prop :=
  match i with DiskLock k => 0 <= k <= DISKS | ClusterLock => True end.
Definition spin_place (i : spinid) : Prop :=
  match i with
  | KmemLock | RepairLock => True
  | PairMutex k => 0 <= k < npairs_raid1
  | LkOf i => sleep_place i
  end.

(** The cpu is outside critical sections and no spinlock is held. *)
Definition spins_free (s : State) : Prop :=
  cpu_quiet (st_cpu s) /\ forall i, spin_place i -> free_spin s i.

(** No disk lock is held either. *)
Definition locks_free (s : State) : Prop :=
  spins_free s /\
  forall k, 0 <= k <= DISKS -> exists n, st_sleep s !! DiskLock k = Some (mk_sleeplock 0 n 0).

Lemma sf_cpu s : spins_free s -> cpu_quiet (st_cpu s).
Proof. by intros [? ?]. Qed.
Lemma sf_spin s : spins_free s -> forall i, spin_place i -> free_spin s i.
Proof. by intros [? ?]. Qed.
Lemma lf_cpu s : locks_free s -> cpu_quiet (st_cpu s).
Proof. intros [? ?]. by apply sf_cpu. Qed.
Lemma lf_spin s : locks_free s -> forall i, spin_place i -> free_spin s i.
Proof. intros [? ?]. by apply sf_spin. Qed.
Lemma lf_sleep s : locks_free s -> forall k, 0 <= k <= DISKS ->
  exists n, st_sleep s !! DiskLock k = Some (mk_sleeplock 0 n 0).
Proof. by intros [? ?]. Qed.

Definition info_wf (l : list DiskInfo) : Prop :=
  (forall i, 0 <= i < DISKS -> exists v, (v = 0 \/ v = 1) /\ znth l i = Some (mk_DiskInfo v (i + 1))) /\
  (exists n, 0 <= n < 256 /\ znth l DISKS = Some (mk_DiskInfo 0 n)) /\
  length l = Z.to_nat (DISKS + 1).

Definition pages_wf (l : list Z) : Prop := Forall page_ok l /\ (2 <= length l)%nat.

(** The rows that hold data are below the last, which holds the metadata. *)
Definition data_row (b : Z) : Prop := 0 <= b < diskblockn.
Definition blocks_wf (s : State) : Prop := forall d b, data_row b -> wf_block (blk s d b).

Record raid_wf (s : State) : Prop := {
  wf_locks : locks_free s;
  wf_info : info_wf (rm_diskinfo (st_meta s));
  wf_blocks : blocks_wf s;
}.

(** Is disk [i + 1] marked valid? *)
Definition dvalid (s : State) (i : Z) : bool :=
  match znth (rm_diskinfo (st_meta s)) i with Some d => is_valid d | None => false end.

(** ** Constants *)

Context `{!ConfigOK}.

Lemma nblocks_val : nblocks = nclusters * CLUSTER_SIZE.
Proof.
  pose proof disk_size_clusters as Hd. unfold nblocks at 1. rewrite Hd.
  unfold CLUSTER_SIZE, BSIZE. rewrite Z.mul_assoc. apply Z_div_mult. lia.
Qed.

Lemma nblocks_range : 128 <= nblocks <= 51200.
Proof. rewrite nblocks_val. pose proof nclusters_range. unfold CLUSTER_SIZE. lia. Qed.

Lemma diskblockn_val : diskblockn = nblocks - 1.
Proof.
  unfold diskblockn. fold nblocks. pose proof nblocks_range. apply u64_small. lia.
Qed.

Lemma diskblockn_range : 127 <= diskblockn < 51200.
Proof. rewrite diskblockn_val. pose proof nblocks_range. lia. Qed.

Lemma diskblockn_i32 : i32 diskblockn = diskblockn.
Proof. apply i32_small. pose proof diskblockn_range. lia. Qed.

(** ** Reading the metadata *)

Lemma diskinfo_at s i : info_wf (rm_diskinfo (st_meta s)) -> 0 <= i < DISKS ->
  znth (rm_diskinfo (st_meta s)) i = Some (mk_DiskInfo (if dvalid s i then 1 else 0) (i + 1)).
Proof.
  intros [Hd _] Hi. destruct (Hd i Hi) as (v & Hv & Hz). unfold dvalid. rewrite Hz.
  destruct Hv as [-> | ->]; done.
Qed.

Lemma wp_diskinfo i d Q s : znth (rm_diskinfo (st_meta s)) i = Some d -> Q d s -> wp (diskinfo i) Q s.
Proof. intros Hz HQ. unfold diskinfo. apply wp_bind, wp_gets. by eapply wp_deref. Qed.

Lemma is_valid_bool (b : bool) n : is_valid (mk_DiskInfo (if b then 1 else 0) n) = b.
Proof. by destruct b. Qed.

Lemma wp_read_block d b (Q : block -> State -> Prop) s :
  1 <= d <= DISKS -> 0 <= b <= diskblockn -> Q (blk s d b) s -> wp (read_block d b) Q s.
Proof.
  intros Hd Hb HQ. rewrite diskblockn_val in Hb. unfold read_block, raid_disk, block_in_range.
  rewrite !(proj2 (Z.leb_le _ _)) by lia. rewrite (proj2 (Z.ltb_lt _ _)) by lia. by apply wp_gets.
Qed.

Lemma wp_write_block d b data (Q : unit -> State -> Prop) s :
  1 <= d <= DISKS -> 0 <= b <= diskblockn ->
  Q tt (set_disk (<[(d, b) := data]> (st_disk s)) s) -> wp (write_block d b data) Q s.
Proof.
  intros Hd Hb HQ. rewrite diskblockn_val in Hb. unfold write_block, raid_disk, block_in_range.
  rewrite !(proj2 (Z.leb_le _ _)) by lia. rewrite (proj2 (Z.ltb_lt _ _)) by lia. by apply wp_modify.
Qed.

(** ** Critical sections *)

(** The map of sleeplocks when the locks of the disks below [k] are held. *)
Definition held_below (k pid : Z) (m0 m : gmap sleepid sleeplock) : Prop :=
  forall x, m !! x = match x with
    | DiskLock i => if (0 <=? i) && (i <? k)
                    then (fun l => mk_sleeplock 1 (sl_name l) pid) <$> m0 !! x else m0 !! x
    | ClusterLock => m0 !! x
    end.

Lemma free_spin_eq s s' i : st_spin s' = st_spin s -> free_spin s i -> free_spin s' i.
Proof. unfold free_spin. by intros ->. Qed.

Lemma held_below_0 pid m : held_below 0 pid m m.
Proof. intros [i|]; [|done]. by destruct (Z.leb_spec 0 i), (Z.ltb_spec i 0); try lia. Qed.

Lemma held_below_S k pid m0 m n : 0 <= k -> m0 !! DiskLock k = Some (mk_sleeplock 0 n 0) ->
  held_below k pid m0 m -> held_below (k + 1) pid m0 (<[DiskLock k := mk_sleeplock 1 n pid]> m).
Proof.
  intros Hk Hm Hh [i|].
  - destruct (decide (i = k)) as [->|Hne].
    + rewrite lookup_insert_eq, Hm.
      by destruct (Z.leb_spec 0 k), (Z.ltb_spec k (k + 1)); try lia.
    + rewrite lookup_insert_ne by congruence. rewrite (Hh (DiskLock i)).
      by destruct (Z.leb_spec 0 i), (Z.ltb_spec i (k + 1)), (Z.ltb_spec i k); try lia.
  - rewrite lookup_insert_ne by done. apply (Hh ClusterLock).
Qed.

Lemma held_below_lookup k pid m0 m i n : held_below k pid m0 m -> 0 <= i < k ->
  m0 !! DiskLock i = Some (mk_sleeplock 0 n 0) -> m !! DiskLock i = Some (mk_sleeplock 1 n pid).
Proof.
  intros Hh Hi Hm. rewrite (Hh (DiskLock i)), Hm.
  by destruct (Z.leb_spec 0 i), (Z.ltb_spec i k); try lia.
Qed.

Lemma wp_acquire_disks (Q : unit -> State -> Prop) s : locks_free s ->
  (forall m, held_below DISKS (st_pid s) (st_sleep s) m -> Q tt (set_sleep m s)) ->
  wp acquire_disks Q s.
Proof.
  intros [[Hc Hsp] Hsl] HQ. pose proof DISKS_range. unfold acquire_disks.
  apply (wp_forM (fun k s' => exists m, s' = set_sleep m s /\ held_below k (st_pid s) (st_sleep s) m)).
  - lia.
  - exists (st_sleep s). split; [by rewrite set_sleep_id|apply held_below_0].
  - intros i s' Hi (m & -> & Hm). destruct (Hsl i) as [n Hn]; [lia|].
    apply (wp_acquiresleep _ n); [done|apply Hsp; simpl; lia| |].
    + simpl. rewrite (Hm (DiskLock i)).
      by destruct (Z.leb_spec 0 i), (Z.ltb_spec i i); try lia.
    + eexists. split; [done|]. by apply held_below_S; [lia| |].
  - intros s' (m & -> & Hm). by apply HQ.
Qed.

(** Releasing them restores the map of sleeplocks, whatever the section did to
    the rest of the state. *)
Lemma wp_release_disks m (Q : unit -> State -> Prop) s0 s : locks_free s0 ->
  held_below DISKS (st_pid s0) (st_sleep s0) m ->
  st_sleep s = m -> st_cpu s = st_cpu s0 -> st_spin s = st_spin s0 ->
  Q tt (set_sleep (st_sleep s0) s) ->
  wp release_disks Q s.
Proof.
  intros [[Hc Hsp] Hsl] Hm Hs Hcpu Hspin HQ. pose proof DISKS_range. unfold release_disks.
  apply (wp_forM (fun k s' => exists m', s' = set_sleep m' s /\
    forall x, m' !! x = match x with
      | DiskLock i => if (0 <=? i) && (i <? k) then st_sleep s0 !! x else m !! x
      | ClusterLock => m !! x end)).
  - lia.
  - exists m. rewrite <- Hs, set_sleep_id. split; [done|]. intros [i|]; [|done].
    by destruct (Z.leb_spec 0 i), (Z.ltb_spec i 0); try lia.
  - intros i s' Hi (m' & -> & Hm'). destruct (Hsl i) as [n Hn]; [lia|].
    eapply (wp_releasesleep _ 1 n (st_pid s0)); simpl.
    + by rewrite Hcpu.
    + eapply free_spin_eq; [exact Hspin|]. apply Hsp. simpl. lia.
    + rewrite (Hm' (DiskLock i)). destruct (Z.leb_spec 0 i), (Z.ltb_spec i i); try lia. simpl.
      by apply (held_below_lookup DISKS (st_pid s0) (st_sleep s0)).
    + eexists. split; [done|]. intros [j|].
      * destruct (decide (i = j)) as [->|Hne].
        -- rewrite lookup_insert_eq. by destruct (Z.leb_spec 0 j), (Z.ltb_spec j (j + 1)); try lia.
        -- rewrite lookup_insert_ne, (Hm' (DiskLock j)) by congruence.
           by destruct (Z.leb_spec 0 j), (Z.ltb_spec j (i + 1)), (Z.ltb_spec j i); try lia.
      * rewrite lookup_insert_ne by done. apply (Hm' ClusterLock).
  - intros s' (m' & -> & Hm'). replace m' with (st_sleep s0); [done|].
    symmetry. apply map_eq. intros x. rewrite Hm'. destruct x as [i|]; [|apply (Hm ClusterLock)].
    destruct (Z.leb_spec 0 i); simpl; [|rewrite (Hm (DiskLock i)); by rewrite (proj2 (Z.leb_gt 0 i)) by lia].
    destruct (Z.ltb_spec i DISKS); [done|]. rewrite (Hm (DiskLock i)).
    rewrite (proj2 (Z.leb_le 0 i)), (proj2 (Z.ltb_ge i DISKS)) by lia. done.
Qed.

(** Two disk locks, released in the opposite order. *)
Lemma wp_acquire_two i j n1 n2 (Q : unit -> State -> Prop) s : locks_free s ->
  0 <= i < DISKS -> 0 <= j < DISKS -> i <> j ->
  st_sleep s !! DiskLock i = Some (mk_sleeplock 0 n1 0) ->
  st_sleep s !! DiskLock j = Some (mk_sleeplock 0 n2 0) ->
  Q tt (set_sleep (<[DiskLock j := mk_sleeplock 1 n2 (st_pid s)]>
                  (<[DiskLock i := mk_sleeplock 1 n1 (st_pid s)]> (st_sleep s))) s) ->
  wp (acquiresleep (DiskLock i);; acquiresleep (DiskLock j)) Q s.
Proof.
  intros [[Hc Hsp] Hsl] Hi Hj Hij H1 H2 HQ. kstep.
  eapply wp_acquiresleep; [done|apply Hsp; simpl; lia|done|]. kstep.
  eapply wp_acquiresleep; [done|apply Hsp; simpl; lia| |].
  - norm_fields. by rewrite lookup_insert_ne by congruence.
  - exact HQ.
Qed.

Lemma wp_release_two i j n1 n2 p (Q : unit -> State -> Prop) s0 s : locks_free s0 ->
  0 <= i < DISKS -> 0 <= j < DISKS -> i <> j ->
  st_sleep s0 !! DiskLock i = Some (mk_sleeplock 0 n1 0) ->
  st_sleep s0 !! DiskLock j = Some (mk_sleeplock 0 n2 0) ->
  st_sleep s = <[DiskLock j := mk_sleeplock 1 n2 p]> (<[DiskLock i := mk_sleeplock 1 n1 p]> (st_sleep s0)) ->
  st_cpu s = st_cpu s0 -> st_spin s = st_spin s0 ->
  Q tt (set_sleep (st_sleep s0) s) ->
  wp (releasesleep (DiskLock j);; releasesleep (DiskLock i)) Q s.
Proof.
  intros [[Hc Hsp] Hsl] Hi Hj Hij H1 H2 Hs Hcpu Hspin HQ. kstep.
  eapply wp_unlock; [by rewrite Hcpu|eapply free_spin_eq; [done|apply Hsp; simpl; lia]| |exact Hs|].
  { by rewrite lookup_insert_ne by congruence. }
  kstep. eapply wp_unlock; [norm_fields; by rewrite Hcpu|eapply free_spin_eq; [done|apply Hsp; simpl; lia]
    |exact H1|done|]. exact HQ.
Qed.

(** ** The metadata fits a block *)

Lemma sizeof_raidmeta_val : sizeof_raidmeta = 32 + 56 * (DISKS + 1) + Z.of_nat sizeof_union.
Proof.
  pose proof DISKS_range. unfold sizeof_raidmeta, c_RAIDMeta, c_array.
  cbn [c_iso c_pair c_size c_uint c_pad c_int c_bytes].
  change (c_size c_DiskInfo) with 56%nat. lia.
Qed.

Lemma sizeof_union_bound : Z.of_nat sizeof_union <= Z.max (48 * npairs_raid1) (nclusters + 88).
Proof.
  pose proof nclusters_range. pose proof DISKS_range. unfold sizeof_union, c_ParityData, c_array.
  cbn [c_iso c_pair c_size c_uint c_pad c_int].
  change (c_size c_DiskPair) with 48%nat. change (c_size c_sleeplock) with 48%nat.
  change (c_size c_spinlock) with 24%nat.
  pose proof (Nat.mod_upper_bound (8 - ncl mod 8) 8 ltac:(lia)). unfold ncl in *.
  assert (0 <= npairs_raid1) by (unfold npairs_raid1; apply Z.div_pos; lia).
  lia.
Qed.

Lemma sizeof_raidmeta_fits : sizeof_raidmeta <= BSIZE.
Proof.
  rewrite sizeof_raidmeta_val. pose proof sizeof_union_bound. pose proof DISKS_range.
  pose proof nclusters_range.
  assert (npairs_raid1 < 5) by (unfold npairs_raid1; apply Z.div_lt_upper_bound; lia).
  unfold BSIZE. lia.
Qed.

Lemma wp_meta_fits (Q : unit -> State -> Prop) s : Q tt s -> wp meta_fits Q s.
Proof.
  intros HQ. unfold meta_fits. rewrite (proj2 (Z.leb_le _ _) sizeof_raidmeta_fits). by apply wp_ret.
Qed.

(** ** [writeraidmeta]

    The metadata goes to the last block of disk [i] for every [i] whose
    [diskinfo[i]] is valid; nothing else changes. *)

Definition meta_disks (m : gmap sleepid sleeplock) (k : Z) (s : State) (D : gmap (Z * Z) block) : Prop :=
  forall d b, D !! (d, b) =
    if (b =? diskblockn) && (1 <=? d) && (d <? k) && dvalid s d
    then Some (meta_block (set_sleep m s)) else st_disk s !! (d, b).

Lemma meta_disks_1 m s : meta_disks m 1 s (st_disk s).
Proof.
  intros d b. destruct (Z.leb_spec 1 d), (Z.ltb_spec d 1); try lia; by rewrite ?andb_false_r.
Qed.

Lemma meta_disks_S m k s D : 1 <= k -> meta_disks m k s D ->
  meta_disks m (k + 1) s
    (if dvalid s k then <[(k, diskblockn) := meta_block (set_sleep m s)]> D else D).
Proof.
  intros Hk HD d b. destruct (decide (d = k)) as [->|Hne].
  - destruct (dvalid s k) eqn:Hv.
    + destruct (Z.eqb_spec b diskblockn) as [->|Hb].
      * rewrite lookup_insert_eq. destruct (Z.leb_spec 1 k), (Z.ltb_spec k (k + 1)); try lia. done.
      * rewrite lookup_insert_ne by congruence. rewrite HD.
        destruct (Z.eqb_spec b diskblockn); [done|]. done.
    + rewrite HD, Hv, !andb_false_r. done.
  - transitivity (D !! (d, b)).
    { destruct (dvalid s k); [|done]. apply lookup_insert_ne. congruence. }
    rewrite HD. destruct (Z.ltb_spec d (k + 1)), (Z.ltb_spec d k); try lia; done.
Qed.

Lemma wp_writeraidmeta (Q : unit -> State -> Prop) s : raid_wf s ->
  (forall m D, held_below DISKS (st_pid s) (st_sleep s) m -> meta_disks m (DISKS + 1) s D ->
     Q tt (set_disk D s)) ->
  wp writeraidmeta Q s.
Proof.
  intros Hwf HQ. pose proof DISKS_range. pose proof diskblockn_range.
  pose proof (wf_locks s Hwf) as Hl. destruct (wf_info s Hwf) as (Hd & (nl & _ & Hlast) & _).
  unfold writeraidmeta. wp_steps. apply wp_acquire_disks; [done|]. intros m Hm.
  wp_steps.
  apply (wp_forM (fun k s' => exists D, s' = set_disk D (set_sleep m s) /\ meta_disks m k s D)).
  - lia.
  - exists (st_disk s). split; [done|apply meta_disks_1].
  - intros i s' Hi (D & -> & HD). wp_steps.
    assert (exists d, znth (rm_diskinfo (st_meta s)) i = Some d) as [d Hdi].
    { destruct (decide (i = DISKS)) as [->|]; [eauto|]. destruct (Hd i) as (v & _ & Hv); [lia|]. eauto. }
    apply (wp_diskinfo i d); [done|].
    assert (Hv : is_valid d = dvalid s i) by (unfold dvalid; by rewrite Hdi).
    pose proof (meta_disks_S m i s D ltac:(lia) HD) as HS. rewrite <- Hv in HS.
    apply wp_when; intros Hb; rewrite Hb in HS; [|by eexists].
    wp_steps. apply wp_meta_fits. wp_steps. rewrite diskblockn_i32.
    apply wp_write_block; [lia|lia|]. eexists. split; [|exact HS]. done.
  - intros s' (D & -> & HD).
    apply (wp_release_disks m _ s); try done. by apply (HQ m).
Qed.

(** ** The size of the array *)

Definition capacity (t : Z) : Z :=
  if t =? RAID0 then diskblockn * DISKS
  else if t =? RAID1 then diskblockn * ((DISKS + 1) / 2)
  else if t =? RAID0_1 then diskblockn * (DISKS / 2)
  else diskblockn * (DISKS - 1).

Lemma capacity_range t : 0 <= capacity t < 2 ^ 31.
Proof.
  pose proof DISKS_range. pose proof diskblockn_range. unfold capacity.
  assert (0 <= (DISKS + 1) / 2 < 5) by (split; [apply Z.div_pos|apply Z.div_lt_upper_bound]; lia).
  assert (0 <= DISKS / 2 < 5) by (split; [apply Z.div_pos|apply Z.div_lt_upper_bound]; lia).
  repeat case_match; nia.
Qed.

Lemma wp_raidblockn (Q : Z -> State -> Prop) s :
  RAID0 <= rm_type (st_meta s) <= RAID5 -> Q (capacity (rm_type (st_meta s))) s ->
  wp raidblockn Q s.
Proof.
  intros Ht HQ. pose proof (capacity_range (rm_type (st_meta s))) as Hc.
  unfold raidblockn. wp_steps. unfold RAID0, RAID5 in Ht.
  unfold capacity in *. unfold RAID0, RAID1, RAID0_1, RAID4, RAID5 in *.
  repeat (case_match; [wp_steps; rewrite u64_small by lia; done|]).
  rewrite !Z.eqb_neq in *. lia.
Qed.

(** The argument of the read and write system calls is an [int]. *)
Definition is_int (z : Z) : Prop := - 2 ^ 31 <= z < 2 ^ 31.

Lemma bad_vblkn_false v n : 0 <= v < n -> n < 2 ^ 31 -> bad_vblkn v n = false.
Proof.
  intros. unfold bad_vblkn. rewrite u64_small by lia.
  destruct (Z.ltb_spec v 0); [lia|]. destruct (Z.leb_spec n v); [lia|done].
Qed.

Lemma bad_vblkn_true v n : is_int v -> ~ (0 <= v < n) -> bad_vblkn v n = true.
Proof.
  intros Hv Hn. unfold bad_vblkn, is_int in *. destruct (Z.ltb_spec v 0); [done|].
  rewrite u64_small by lia. destruct (Z.leb_spec n v); [done|lia].
Qed.

(** ** The state between two operations *)

(** An array of level [t] whose failed disks are the set [F]. *)
Record ready (t : Z) (F : gset Z) (s : State) : Prop := {
  rd_wf : raid_wf s;
  rd_type : rm_type (st_meta s) = t;
  rd_read : rm_read (st_meta s) = addr_raidread t;
  rd_write : rm_write (st_meta s) = addr_raidwrite t;
  rd_alive : rm_isDestroyed (st_meta s) = 0;
  rd_pages : pages_wf (st_free s);
  rd_cluster : exists n, st_sleep s !! ClusterLock = Some (mk_sleeplock 0 n 0);
  rd_failed : forall i, 0 <= i < DISKS -> dvalid s i = bool_decide (i + 1 ∉ F);
  rd_range : forall d, d ∈ F -> 1 <= d <= DISKS;
  rd_fits : data_fits (rm_data (st_meta s));
}.

Lemma ready_locks t F s : ready t F s -> locks_free s.
Proof. intros Hr. apply wf_locks, (rd_wf _ _ _ Hr). Qed.

Lemma wp_enter_level t F v (Q : bool -> State -> Prop) s : ready t F s -> RAID0 <= t <= RAID5 ->
  0 <= v < capacity t -> Q false s -> wp (enter_level t v) Q s.
Proof.
  intros Hr Ht Hv HQ. pose proof (capacity_range t). unfold enter_level. wp_steps.
  rewrite (rd_type _ _ _ Hr), Z.eqb_refl. simpl. wp_steps.
  apply wp_raidblockn; rewrite (rd_type _ _ _ Hr); [done|]. wp_steps.
  by rewrite bad_vblkn_false by lia.
Qed.

Lemma wp_enter_level_out t F v (Q : bool -> State -> Prop) s : ready t F s -> RAID0 <= t <= RAID5 ->
  is_int v -> ~ (0 <= v < capacity t) -> Q true s -> wp (enter_level t v) Q s.
Proof.
  intros Hr Ht Hi Hv HQ. unfold enter_level. wp_steps.
  rewrite (rd_type _ _ _ Hr), Z.eqb_refl. simpl. wp_steps.
  apply wp_raidblockn; rewrite (rd_type _ _ _ Hr); [done|]. wp_steps.
  by rewrite bad_vblkn_true by done.
Qed.

(** An operation that writes blocks only. *)
Lemma raid_wf_set_disk s D : raid_wf s ->
  (forall d b, data_row b -> wf_block (default zblk (D !! (d, b)))) -> raid_wf (set_disk D s).
Proof. intros [? ? ?] HD. by constructor. Qed.

(** The invariant depends on the locks, the disk table and the data rows. *)
Lemma raid_wf_ext s s' : raid_wf s -> st_cpu s' = st_cpu s -> st_spin s' = st_spin s ->
  (forall k, st_sleep s' !! DiskLock k = st_sleep s !! DiskLock k) ->
  rm_diskinfo (st_meta s') = rm_diskinfo (st_meta s) -> blocks_wf s' -> raid_wf s'.
Proof.
  intros [[[Hc Hsp] Hsl] Hi Hb] Hc' Hsp' Hsl' Hi' Hb'. constructor; [split; [split|]| |done].
  - by rewrite Hc'.
  - intros i Hp. eapply free_spin_eq; [exact Hsp'|]. by apply Hsp.
  - intros k Hk. rewrite Hsl'. by apply Hsl.
  - by rewrite Hi'.
Qed.

Lemma ready_set_disk t F s D : ready t F s ->
  (forall d b, data_row b -> wf_block (default zblk (D !! (d, b)))) -> ready t F (set_disk D s).
Proof. intros [] HD. constructor; try done. by apply raid_wf_set_disk. Qed.

Lemma blk_insert s d b x d' b' :
  blk (set_disk (<[(d, b) := x]> (st_disk s)) s) d' b' =
    if bool_decide (d = d' /\ b = b') then x else blk s d' b'.
Proof.
  unfold blk. simpl. case_bool_decide as Hc.
  - destruct Hc as [-> ->]. by rewrite lookup_insert_eq.
  - rewrite lookup_insert_ne; [done|]. intros [= -> ->]. tauto.
Qed.

Lemma wf_insert s d b x : blocks_wf s -> wf_block x ->
  forall d' b', data_row b' -> wf_block (default zblk (<[(d, b) := x]> (st_disk s) !! (d', b'))).
Proof.
  intros Hs Hx d' b' Hb'. change (wf_block (blk (set_disk (<[(d, b) := x]> (st_disk s)) s) d' b')).
  rewrite blk_insert. case_bool_decide; [done|]. by apply Hs.
Qed.

(** [writeraidmeta] touches no data row. *)
Lemma meta_disks_data m k s D d b : meta_disks m k s D -> data_row b ->
  blk (set_disk D s) d b = blk s d b.
Proof.
  intros HD [_ Hb]. unfold blk. simpl. rewrite HD.
  destruct (Z.eqb_spec b diskblockn); [lia|done].
Qed.

Lemma meta_disks_wf m k s D : blocks_wf s -> meta_disks m k s D ->
  forall d b, data_row b -> wf_block (default zblk (D !! (d, b))).
Proof.
  intros Hs HD d b Hb. pose proof (meta_disks_data m k s D d b HD Hb) as Hd.
  unfold blk in Hd. simpl in Hd. rewrite Hd. by apply Hs.
Qed.

End wf.

#[export] Hint Resolve rd_wf wf_info wf_locks wf_blocks ready_locks : block.

(** The side conditions of the lock rules, in a state whose locks are those of
    a state with all locks free. *)
Ltac solve_lock :=
  match goal with
  | Hl : spins_free ?s |- cpu_quiet _ => exact (sf_cpu s Hl)
  | Hl : spins_free ?s |- free_spin _ _ => apply (sf_spin s Hl); cbn [spin_place sleep_place]; lia
  | Hl : locks_free ?s |- cpu_quiet _ => exact (lf_cpu s Hl)
  | Hl : locks_free ?s |- free_spin _ _ => apply (lf_spin s Hl); cbn [spin_place sleep_place]; lia
  end.
