(* ===== verification/Raid0.v ===== *)
(** * RAID0: kernel/raid0.c

    Striping without redundancy: virtual block [v] is block [v / DISKS] of disk
    [v % DISKS + 1]. *)

From stdpp Require Import base numbers list gmap strings.
From Stdlib Require Import ZArith Lia.
From S2P Require Import Prelude Blocks Monad State Locks Kalloc Codec MetaImage RaidCore.
Open Scope Z_scope.

Section raid0.
Context `{Config}.

Definition raid0read (vblkn : Z) (data : block) : K (Z * block) :=
  let! bad := enter_level RAID0 vblkn in
  if bad : bool then ret (ERR, data)
  else
    let diskn := u32 (Z.rem vblkn DISKS) in
    let pblkn := u32 (Z.quot vblkn DISKS) in
    let! d := diskinfo diskn in
    if negb (is_valid d) then ret (ERR, data)
    else
      acquiresleep (DiskLock diskn);;
      let! data := read_block (di_diskn d) (i32 pblkn) in
      releasesleep (DiskLock diskn);;
      ret (0, data).

Definition raid0write (vblkn : Z) (data : block) : K Z :=
  let! bad := enter_level RAID0 vblkn in
  if bad : bool then ret ERR
  else
    let diskn := u32 (Z.rem vblkn DISKS) in
    let pblkn := u32 (Z.quot vblkn DISKS) in
    let! d := diskinfo diskn in
    if negb (is_valid d) then ret ERR
    else
      acquiresleep (DiskLock diskn);;
      write_block (di_diskn d) (i32 pblkn) data;;
      releasesleep (DiskLock diskn);;
      ret 0.

(** ** Correctness *)

Context `{!ConfigOK}.

Lemma raid0_addr v : 0 <= v < capacity RAID0 ->
  u32 (Z.rem v DISKS) = v mod DISKS /\ i32 (u32 (Z.quot v DISKS)) = v / DISKS /\
  0 <= v mod DISKS < DISKS /\ data_row (v / DISKS).
Proof.
  intros Hv. pose proof DISKS_range. pose proof (capacity_range RAID0).
  change (capacity RAID0) with (diskblockn * DISKS) in *.
  rewrite Z.rem_mod_nonneg, Z.quot_div_nonneg by lia.
  assert (0 <= v mod DISKS < DISKS) by (apply Z.mod_pos_bound; lia).
  assert (0 <= v / DISKS < diskblockn).
  { split; [apply Z.div_pos; lia|]. apply Z.div_lt_upper_bound; lia. }
  pose proof diskblockn_range.
  rewrite !u32_small by lia. rewrite i32_small by lia. done.
Qed.

(** The virtual block [v] as it is on the disks. *)
Definition raid0_block (s : State) (v : Z) : block := blk s (v mod DISKS + 1) (v / DISKS).

Lemma raid0_addr_inj v w : v mod DISKS = w mod DISKS -> v / DISKS = w / DISKS -> v = w.
Proof.
  intros Hm Hd. pose proof DISKS_range.
  rewrite (Z.div_mod v DISKS), (Z.div_mod w DISKS), Hm, Hd by lia. done.
Qed.

(** A read of a block whose disk is valid returns it and changes nothing. *)
Lemma raid0read_spec F v buf s : ready RAID0 F s -> 0 <= v < capacity RAID0 ->
  v mod DISKS + 1 ∉ F ->
  wp (raid0read v buf) (fun r s' => r = (0, raid0_block s v) /\ s' = s) s.
Proof.
  intros Hr Hv HF. pose proof (ready_locks _ _ _ Hr) as Hl.
  destruct (raid0_addr v Hv) as (Hd & Hp & Hdr & Hrow).
  unfold raid0read. wp_steps. eapply wp_enter_level; [done|done|done|].
  rewrite Hd, Hp. wp_steps.
  eapply wp_diskinfo; [by apply diskinfo_at; [eauto with block|]|].
  rewrite is_valid_bool, (rd_failed _ _ _ Hr) by lia.
  rewrite bool_decide_eq_true_2 by done. simpl. wp_steps.
  destruct (lf_sleep s Hl (v mod DISKS)) as [n Hn]; [lia|].
  eapply wp_acquiresleep; [solve_lock|solve_lock|done|]. wp_steps.
  unfold data_row in Hrow. apply wp_read_block; [lia|lia|]. wp_steps.
  eapply wp_unlock; [solve_lock|solve_lock|done|done|]. wp_steps.
  split; [done|by destruct s].
Qed.

Lemma raid0write_spec F v data s : ready RAID0 F s -> 0 <= v < capacity RAID0 ->
  v mod DISKS + 1 ∉ F ->
  wp (raid0write v data) (fun r s' => r = 0 /\
    s' = set_disk (<[(v mod DISKS + 1, v / DISKS) := data]> (st_disk s)) s) s.
Proof.
  intros Hr Hv HF. pose proof (ready_locks _ _ _ Hr) as Hl.
  destruct (raid0_addr v Hv) as (Hd & Hp & Hdr & Hrow).
  unfold raid0write. wp_steps. eapply wp_enter_level; [done|done|done|].
  rewrite Hd, Hp. wp_steps.
  eapply wp_diskinfo; [by apply diskinfo_at; [eauto with block|]|].
  rewrite is_valid_bool, (rd_failed _ _ _ Hr) by lia.
  rewrite bool_decide_eq_true_2 by done. simpl. wp_steps.
  destruct (lf_sleep s Hl (v mod DISKS)) as [n Hn]; [lia|].
  eapply wp_acquiresleep; [solve_lock|solve_lock|done|]. wp_steps.
  unfold data_row in Hrow. apply wp_write_block; [lia|lia|]. wp_steps.
  eapply wp_unlock; [solve_lock|solve_lock|done|done|]. wp_steps. done.
Qed.

End raid0.
