(* ===== verification/RaidPair.v ===== *)
(** * Mirrored pairs: RAID1 and RAID0+1

    [readdiskpair] and [writediskpair] of kernel/raid.c, and the levels built
    on them in kernel/raid1.c and kernel/raid0_1.c. *)

From stdpp Require Import base numbers list gmap strings.
From Stdlib Require Import ZArith Lia.
From S2P Require Import Prelude Blocks Monad State Locks Kalloc Codec MetaImage RaidCore.
Open Scope Z_scope.

(** [diskpair->disk[i]] *)
Definition dp_disk (p : DiskPair) (i : Z) : option Z :=
  if i =? 0 then Some (dp_disk0 p) else if i =? 1 then Some (dp_disk1 p) else None.
Definition dp_reading (p : DiskPair) (i : Z) : Z :=
  if i =? 0 then dp_reading0 p else dp_reading1 p.
Definition set_reading (i v : Z) (p : DiskPair) : DiskPair :=
  if i =? 0 then mk_DiskPair (dp_disk0 p) (dp_disk1 p) (dp_writing p) v (dp_reading1 p)
  else mk_DiskPair (dp_disk0 p) (dp_disk1 p) (dp_writing p) (dp_reading0 p) v.
Definition set_writing (v : Z) (p : DiskPair) : DiskPair :=
  mk_DiskPair (dp_disk0 p) (dp_disk1 p) v (dp_reading0 p) (dp_reading1 p).

Section pair.
Context `{Config}.

(** [raiddata->diskpair[k]] *)
Definition get_pair (k : Z) : K DiskPair :=
  let! d := gets (fun s => rm_data (st_meta s)) in
  match d with DataPairs ps => deref (znth ps k) | _ => fault end.

Definition mod_pair (k : Z) (f : DiskPair -> DiskPair) : K unit :=
  let! p := get_pair k in
  mod_meta (fun m => match rm_data m with
                     | DataPairs ps => set_data (DataPairs (zset ps k (f p))) m
                     | _ => m
                     end).

(** The waiting loop of [readdiskpair], under the mutex: the side it may read,
    or [None] when both disks have failed.  The mutex is released on return. *)
Definition readdiskpair_wait (k : Z) : K (option Z) :=
  let! p := get_pair k in
  let! d0 := diskinfo (dp_disk0 p) in
  let! d1 := diskinfo (dp_disk1 p) in
  if negb (is_valid d0) && negb (is_valid d1) then release (PairMutex k);; ret None
  else if negb (dp_writing p =? 0) then sleep (PairMutex k)
  else if (dp_reading0 p =? 0) && is_valid d0 then
    mod_pair k (set_reading 0 1);; release (PairMutex k);; ret (Some 0)
  else if (dp_reading1 p =? 0) && is_valid d1 then
    mod_pair k (set_reading 1 1);; release (PairMutex k);; ret (Some 1)
  else sleep (PairMutex k).

Definition readdiskpair (k pblkn : Z) (data : block) : K (Z * block) :=
  acquire (PairMutex k);;
  let! side := readdiskpair_wait k in
  match side with
  | None => ret (ERR, data)
  | Some i =>
    let! p := get_pair k in
    let! j := deref (dp_disk p i) in
    let! d := diskinfo j in
    acquiresleep (DiskLock j);;
    let! data := read_block (di_diskn d) pblkn in
    releasesleep (DiskLock j);;
    acquire (PairMutex k);;
    mod_pair k (set_reading i 0);;
    release (PairMutex k);;
    wakeup;;
    ret (0, data)
  end.

(** The waiting loop of [writediskpair]: whether a disk of the pair is left.
    The mutex is released on return. *)
Definition writediskpair_wait (k : Z) : K bool :=
  let! p := get_pair k in
  let! d0 := diskinfo (dp_disk0 p) in
  let! d1 := diskinfo (dp_disk1 p) in
  if negb (is_valid d0) && negb (is_valid d1) then release (PairMutex k);; ret false
  else if negb (dp_writing p =? 0) then sleep (PairMutex k)
  else if (dp_reading0 p =? 1) || (dp_reading1 p =? 1) then sleep (PairMutex k)
  else mod_pair k (set_writing 1);; release (PairMutex k);; ret true.

(** Both disks of the pair, in the order of the loops [for (i < 2)]. *)
Definition write_if_valid (j pblkn : Z) (data : block) : K unit :=
  let! d := diskinfo j in when (is_valid d) (write_block (di_diskn d) pblkn data).

Definition writediskpair (k pblkn : Z) (data : block) : K Z :=
  acquire (PairMutex k);;
  let! ok := writediskpair_wait k in
  if negb ok then ret ERR
  else
    let! p := get_pair k in
    acquiresleep (DiskLock (dp_disk0 p));;
    acquiresleep (DiskLock (dp_disk1 p));;
    write_if_valid (dp_disk0 p) pblkn data;;
    write_if_valid (dp_disk1 p) pblkn data;;
    releasesleep (DiskLock (dp_disk0 p));;
    releasesleep (DiskLock (dp_disk1 p));;
    acquire (PairMutex k);;
    mod_pair k (set_writing 0);;
    release (PairMutex k);;
    wakeup;;
    ret 0.

(** ** raid1.c *)

Definition raid1read (vblkn : Z) (data : block) : K (Z * block) :=
  let! bad := enter_level RAID1 vblkn in
  if bad : bool then ret (ERR, data)
  else
    let pairNum := i32 (u64 vblkn / diskblockn) in
    let pblkn := i32 (u64 vblkn mod diskblockn) in
    readdiskpair pairNum pblkn data.

Definition raid1write (vblkn : Z) (data : block) : K Z :=
  let! bad := enter_level RAID1 vblkn in
  if bad : bool then ret ERR
  else
    let pairNum := i32 (u64 vblkn / diskblockn) in
    let pblkn := i32 (u64 vblkn mod diskblockn) in
    writediskpair pairNum pblkn data.

(** ** raid0_1.c *)

Definition raid0_1read (vblkn : Z) (data : block) : K (Z * block) :=
  let! bad := enter_level RAID0_1 vblkn in
  if bad : bool then ret (ERR, data)
  else
    let pairn := u32 (Z.rem vblkn (DISKS / 2)) in
    let pblkn := u32 (Z.quot vblkn (DISKS / 2)) in
    readdiskpair pairn (i32 pblkn) data.

Definition raid0_1write (vblkn : Z) (data : block) : K Z :=
  let! bad := enter_level RAID0_1 vblkn in
  if bad : bool then ret ERR
  else
    let pairn := u32 (Z.rem vblkn (DISKS / 2)) in
    let pblkn := u32 (Z.quot vblkn (DISKS / 2)) in
    writediskpair pairn (i32 pblkn) data.

(** ** Correctness *)

Context `{!ConfigOK}.

(** The pairs of a mirrored level between two operations: pair [k] is the disks
    [d0 k] and [d1 k], nobody reads or writes. *)
Definition idle_pairs (n : Z) (d0 d1 : Z -> Z) : list DiskPair :=
  map (fun i => mk_DiskPair (d0 i) (d1 i) 0 0 0) (range 0 n).

Record pairing (n : Z) (d0 d1 : Z -> Z) : Prop := {
  pg_n : 0 <= n <= npairs_raid1;
  pg_d0 : forall k, 0 <= k < n -> 0 <= d0 k < DISKS;
  pg_d1 : forall k, 0 <= k < n -> 0 <= d1 k <= DISKS;
  pg_ne : forall k, 0 <= k < n -> d0 k <> d1 k;
}.

Lemma idle_pair_at n d0 d1 k : 0 <= k < n ->
  znth (idle_pairs n d0 d1) k = Some (mk_DiskPair (d0 k) (d1 k) 0 0 0).
Proof.
  intros Hk. unfold znth, idle_pairs. destruct (Z.ltb_spec k 0); [lia|].
  rewrite list_lookup_fmap. unfold range. rewrite lookup_seqZ_lt by lia. simpl.
  by rewrite Z2Nat.id by lia.
Qed.

Lemma idle_pairs_restore n d0 d1 k p : 0 <= k < n ->
  zset (zset (idle_pairs n d0 d1) k p) k (mk_DiskPair (d0 k) (d1 k) 0 0 0) = idle_pairs n d0 d1.
Proof. intros Hk. rewrite zset_zset. by apply zset_id, idle_pair_at. Qed.

Lemma diskinfo_at_le s i : raid_wf s -> 0 <= i <= DISKS ->
  exists n, znth (rm_diskinfo (st_meta s)) i = Some (mk_DiskInfo (if dvalid s i then 1 else 0) n) /\
    (dvalid s i = true -> i < DISKS /\ n = i + 1).
Proof.
  intros Hwf Hi. destruct (decide (i < DISKS)) as [Hlt|Hge].
  - exists (i + 1). split; [apply diskinfo_at; [by apply wf_info|lia]|lia].
  - assert (i = DISKS) as -> by lia. destruct (wf_info s Hwf) as (_ & (n & _ & Hn) & _).
    unfold dvalid. rewrite Hn. by exists n.
Qed.

Lemma wp_get_pair ps k p (Q : DiskPair -> State -> Prop) s :
  rm_data (st_meta s) = DataPairs ps -> znth ps k = Some p -> Q p s -> wp (get_pair k) Q s.
Proof. intros Hps Hp HQ. unfold get_pair. wp_steps. rewrite Hps. by eapply wp_deref. Qed.

Abbreviation put_pairs ps s := (set_meta (set_data (DataPairs ps) (st_meta s)) s).

Lemma wp_mod_pair ps k p f (Q : unit -> State -> Prop) s :
  rm_data (st_meta s) = DataPairs ps -> znth ps k = Some p ->
  Q tt (put_pairs (zset ps k (f p)) s) -> wp (mod_pair k f) Q s.
Proof.
  intros Hps Hp HQ. unfold mod_pair, mod_meta. wp_steps. eapply wp_get_pair; [done|done|].
  wp_steps. by rewrite Hps.
Qed.

Lemma put_pairs_id ps s : rm_data (st_meta s) = DataPairs ps -> put_pairs ps s = s.
Proof. destruct s as [? ? ? ? ? [] ?]; simpl. by intros ->. Qed.

(** Which disk of the pair a read uses: the first that is valid. *)
Definition read_side (s : State) (a b : Z) : Z := if dvalid s a then a else b.

Section one_pair.
Variables (n : Z) (d0 d1 : Z -> Z) (k : Z) (s : State).
Hypothesis Hpg : pairing n d0 d1.
Hypothesis Hk : 0 <= k < n.
Hypothesis Hwf : raid_wf s.
Hypothesis Hps : rm_data (st_meta s) = DataPairs (idle_pairs n d0 d1).

Let Hl : locks_free s := wf_locks s Hwf.

Lemma mutex_free : exists nm, st_spin s !! PairMutex k = Some (mk_spinlock 0 nm 0).
Proof. apply (lf_spin s Hl). simpl. destruct Hpg. lia. Qed.

Lemma readdiskpair_wait_spec (Q : option Z -> State -> Prop) nm c m0 :
  c = st_cpu s -> m0 = st_spin s ->
  st_spin s !! PairMutex k = Some (mk_spinlock 0 nm 0) ->
  (if dvalid s (d0 k) then
     Q (Some 0) (put_pairs (zset (idle_pairs n d0 d1) k (mk_DiskPair (d0 k) (d1 k) 0 1 0)) s)
   else if dvalid s (d1 k) then
     Q (Some 1) (put_pairs (zset (idle_pairs n d0 d1) k (mk_DiskPair (d0 k) (d1 k) 0 0 1)) s)
   else Q None s) ->
  wp (readdiskpair_wait k) Q
    (set_cpu (cpu_inside c) (set_spin (<[PairMutex k := mk_spinlock 1 nm (cpu_addr c)]> m0) s)).
Proof.
  intros -> -> Hnm HQ. pose proof (lf_cpu s Hl) as Hc. unfold readdiskpair_wait. wp_steps.
  eapply wp_get_pair; [done|by apply idle_pair_at|]. wp_steps. cbn [dp_disk0 dp_disk1 dp_writing dp_reading0 dp_reading1].
  destruct (diskinfo_at_le s (d0 k)) as (n0 & Hz0 & _); [done|destruct (pg_d0 _ _ _ Hpg k Hk); lia|].
  destruct (diskinfo_at_le s (d1 k)) as (n1 & Hz1 & _); [done|by apply (pg_d1 _ _ _ Hpg)|].
  eapply wp_diskinfo; [exact Hz0|]. wp_steps. eapply wp_diskinfo; [exact Hz1|].
  rewrite !is_valid_bool.
  destruct (dvalid s (d0 k)) eqn:E0; [|destruct (dvalid s (d1 k)) eqn:E1]; cbn [negb andb Z.eqb].
  - wp_steps. eapply wp_mod_pair; [done|by apply idle_pair_at|]. wp_steps.
    eapply wp_release; [exact Hc|done|done|done|]. wp_steps. done.
  - wp_steps. eapply wp_mod_pair; [done|by apply idle_pair_at|]. wp_steps.
    eapply wp_release; [exact Hc|done|done|done|]. wp_steps. done.
  - wp_steps. eapply wp_release; [exact Hc|done|done|done|]. wp_steps. by destruct s.
Qed.

(** The transfer of a read from disk index [j], the side [i] of the pair. *)
Lemma read_transfer_spec i j b p (Q : Z * block -> State -> Prop) :
  dp_disk p i = Some j -> set_reading i 0 p = mk_DiskPair (d0 k) (d1 k) 0 0 0 ->
  0 <= j < DISKS -> data_row b ->
  Q (0, blk s (j + 1) b) s ->
  wp (let! p := get_pair k in
      let! j := deref (dp_disk p i) in
      let! d := diskinfo j in
      acquiresleep (DiskLock j);;
      let! data := read_block (di_diskn d) b in
      releasesleep (DiskLock j);;
      acquire (PairMutex k);;
      mod_pair k (set_reading i 0);;
      release (PairMutex k);;
      wakeup;;
      ret (0, data)) Q (put_pairs (zset (idle_pairs n d0 d1) k p) s).
Proof.
  intros Hj Hp Hr [Hb1 Hb2] HQ. destruct mutex_free as [nm Hnm]. pose proof (lf_cpu s Hl) as Hc.
  assert (Hz : znth (zset (idle_pairs n d0 d1) k p) k = Some p).
  { apply znth_zset_eq. eapply znth_Some_lt. by apply idle_pair_at. }
  wp_steps. eapply wp_get_pair; [done|done|]. wp_steps. eapply wp_deref; [exact Hj|].
  wp_steps. eapply wp_diskinfo; [exact (diskinfo_at s j (wf_info s Hwf) Hr)|]. wp_steps.
  destruct (lf_sleep s Hl j) as [m Hm]; [lia|].
  eapply wp_acquiresleep; [solve_lock|solve_lock|exact Hm|]. wp_steps.
  cbn [di_diskn]. apply wp_read_block; [lia|lia|]. wp_steps.
  eapply wp_unlock; [solve_lock|solve_lock|exact Hm|done|]. wp_steps.
  eapply wp_acquire; [exact Hc|exact Hnm|]. wp_steps.
  eapply wp_mod_pair; [done|exact Hz|]. wp_steps.
  eapply wp_release; [exact Hc|done|exact Hnm|done|]. unfold wakeup. wp_steps.
  rewrite Hp, idle_pairs_restore by done.
  match goal with |- Q ?r ?s' => replace r with (0, blk s (j + 1) b) by done;
    replace s' with s; [done|] end.
  rewrite <- (put_pairs_id _ s Hps) at 1. by destruct s.
Qed.

Lemma readdiskpair_spec b buf : data_row b ->
  wp (readdiskpair k b buf) (fun r s' => s' = s /\
    r = if dvalid s (d0 k) || dvalid s (d1 k)
        then (0, blk s (read_side s (d0 k) (d1 k) + 1) b) else (ERR, buf)) s.
Proof.
  intros Hb. destruct mutex_free as [nm Hnm]. pose proof (lf_cpu s Hl) as Hc.
  unfold readdiskpair, read_side. wp_steps. eapply wp_acquire; [exact Hc|exact Hnm|]. wp_steps.
  eapply readdiskpair_wait_spec; [done|done|exact Hnm|].
  destruct (dvalid s (d0 k)) eqn:E0; [|destruct (dvalid s (d1 k)) eqn:E1]; cbn [orb].
  - eapply (read_transfer_spec 0 (d0 k)); [done|done|by apply (pg_d0 _ _ _ Hpg)|done|done].
  - eapply (read_transfer_spec 1 (d1 k)); [done|done| |done|done].
    pose proof (pg_d1 _ _ _ Hpg k Hk) as Hr.
    destruct (diskinfo_at_le s (d1 k) Hwf Hr) as (? & _ & Hv). destruct (Hv E1). lia.
  - by wp_steps.
Qed.

Definition write_disk_if (D : gmap (Z * Z) block) (v : bool) (j b : Z) (data : block) :=
  if v then <[(j + 1, b) := data]> D else D.

Lemma wp_write_if_valid j b data D (Q : unit -> State -> Prop) s' :
  st_meta s' = st_meta s \/ rm_diskinfo (st_meta s') = rm_diskinfo (st_meta s) ->
  st_disk s' = D -> 0 <= j <= DISKS -> data_row b ->
  Q tt (set_disk (write_disk_if D (dvalid s j) j b data) s') ->
  wp (write_if_valid j b data) Q s'.
Proof.
  intros Hm HD Hj [Hb1 Hb2] HQ. destruct (diskinfo_at_le s j Hwf Hj) as (nj & Hz & Hv).
  assert (Hd : rm_diskinfo (st_meta s') = rm_diskinfo (st_meta s)) by (destruct Hm as [-> | ?]; done).
  unfold write_if_valid. wp_steps. eapply wp_diskinfo; [rewrite Hd; exact Hz|].
  rewrite is_valid_bool. apply wp_when; intros E.
  - destruct (Hv E) as [Hlt ->]. cbn [di_diskn]. apply wp_write_block; [lia|lia|].
    rewrite E in HQ. simpl in HQ. by rewrite HD.
  - rewrite E in HQ. simpl in HQ. rewrite <- HD in HQ. by destruct s'.
Qed.

(** A write goes to every valid disk of the pair. *)
Lemma writediskpair_spec b data : data_row b ->
  wp (writediskpair k b data) (fun r s' =>
    if dvalid s (d0 k) || dvalid s (d1 k)
    then r = 0 /\ s' = set_disk
      (write_disk_if (write_disk_if (st_disk s) (dvalid s (d0 k)) (d0 k) b data)
         (dvalid s (d1 k)) (d1 k) b data) s
    else r = ERR /\ s' = s) s.
Proof.
  intros Hb. destruct mutex_free as [nm Hnm]. pose proof (lf_cpu s Hl) as Hc.
  pose proof (pg_ne _ _ _ Hpg k Hk) as Hne. pose proof (pg_d1 _ _ _ Hpg k Hk) as Hr1.
  pose proof (pg_d0 _ _ _ Hpg k Hk) as Hr0.
  unfold writediskpair. kstep. eapply wp_acquire; [exact Hc|exact Hnm|]. kstep.
  unfold writediskpair_wait. kstep. eapply wp_get_pair; [done|by apply idle_pair_at|].
  kstep. cbn [dp_disk0 dp_disk1 dp_writing dp_reading0 dp_reading1].
  destruct (diskinfo_at_le s (d0 k)) as (n0 & Hz0 & _); [done|lia|].
  destruct (diskinfo_at_le s (d1 k)) as (n1 & Hz1 & _); [done|done|].
  eapply wp_diskinfo; [exact Hz0|]. kstep. eapply wp_diskinfo; [exact Hz1|].
  rewrite !is_valid_bool, <- negb_orb.
  destruct (dvalid s (d0 k) || dvalid s (d1 k)) eqn:E; cbn [negb Z.eqb orb].
  - kstep. eapply wp_mod_pair; [done|by apply idle_pair_at|]. kstep.
    eapply wp_release; [exact Hc|done|exact Hnm|done|]. kstep. cbn [negb].
    assert (Hz : znth (zset (idle_pairs n d0 d1) k (mk_DiskPair (d0 k) (d1 k) 1 0 0)) k
      = Some (mk_DiskPair (d0 k) (d1 k) 1 0 0)).
    { apply znth_zset_eq. eapply znth_Some_lt. by apply idle_pair_at. }
    kstep. eapply wp_get_pair; [done|exact Hz|]. kstep. cbn [dp_disk0 dp_disk1].
    destruct (lf_sleep s Hl (d0 k)) as [a Ha]; [lia|].
    destruct (lf_sleep s Hl (d1 k)) as [c Hcl]; [lia|].
    eapply wp_acquiresleep; [solve_lock|solve_lock|exact Ha|]. kstep.
    eapply wp_acquiresleep;
      [solve_lock|solve_lock|simpl; rewrite lookup_insert_ne by congruence; exact Hcl|]. kstep.
    eapply wp_write_if_valid; [by right|done|lia|done|]. kstep.
    eapply wp_write_if_valid; [by right|done|done|done|]. kstep.
    rewrite insert_insert_ne by congruence.
    eapply wp_unlock; [solve_lock|solve_lock| |simpl; done|].
    { rewrite lookup_insert_ne by congruence. exact Ha. }
    kstep. eapply wp_unlock; [solve_lock|solve_lock|exact Hcl|done|]. kstep.
    eapply wp_acquire; [exact Hc|exact Hnm|]. kstep.
    eapply wp_mod_pair; [done|exact Hz|]. kstep.
    eapply wp_release; [exact Hc|done|exact Hnm|done|]. unfold wakeup. kstep.
    cbn [set_writing dp_disk0 dp_disk1 dp_writing dp_reading0 dp_reading1].
    rewrite idle_pairs_restore by done. split; [done|].
    state_eq.
    exact (set_data_id _ (st_meta s) Hps).
  - kstep. eapply wp_release; [exact Hc|done|exact Hnm|done|]. kstep.
    split; [done|by destruct s].
Qed.

End one_pair.

(** ** The two mirrored levels

    The number of pairs, the disk indices of pair [k], and the pair and the row
    of virtual block [v], for [t] one of RAID1 and RAID0_1. *)

Definition mirrored (t : Z) : Prop := t = RAID1 \/ t = RAID0_1.
Definition m_n (t : Z) : Z := if t =? RAID1 then npairs_raid1 else npairs_raid0_1.
Definition m_d0 (t k : Z) : Z := if t =? RAID1 then k * 2 else k.
Definition m_d1 (t k : Z) : Z := if t =? RAID1 then k * 2 + 1 else k + DISKS / 2.
Definition m_pair (t v : Z) : Z := if t =? RAID1 then v / diskblockn else v mod (DISKS / 2).
Definition m_row (t v : Z) : Z := if t =? RAID1 then v mod diskblockn else v / (DISKS / 2).

Lemma m_pairing t : mirrored t -> pairing (m_n t) (m_d0 t) (m_d1 t).
Proof.
  pose proof DISKS_range. intros [-> | ->]; unfold m_n, m_d0, m_d1, npairs_raid1, npairs_raid0_1; simpl;
    constructor; unfold npairs_raid1; intros; Z.div_mod_to_equations; lia.
Qed.

Lemma m_addr t v : mirrored t -> 0 <= v < capacity t -> 0 <= m_pair t v < m_n t /\ data_row (m_row t v).
Proof.
  pose proof DISKS_range. pose proof diskblockn_range. unfold data_row.
  intros [-> | ->]; unfold capacity, m_pair, m_row, m_n, npairs_raid1, npairs_raid0_1; simpl; intros Hv.
  - split; [|by apply Z.mod_pos_bound; lia].
    split; [apply Z.div_pos; lia|]. apply Z.div_lt_upper_bound; lia.
  - assert (0 < DISKS / 2) by nia. split; [by apply Z.mod_pos_bound|].
    split; [apply Z.div_pos; lia|]. apply Z.div_lt_upper_bound; lia.
Qed.

Lemma m_addr_inj t v w : mirrored t -> 0 <= v < capacity t -> 0 <= w < capacity t ->
  m_pair t v = m_pair t w -> m_row t v = m_row t w -> v = w.
Proof.
  pose proof DISKS_range. pose proof diskblockn_range.
  intros [-> | ->]; unfold capacity, m_pair, m_row; simpl; intros Hv Hw Hp Hr.
  - rewrite (Z.div_mod v diskblockn), (Z.div_mod w diskblockn), Hp, Hr by lia. done.
  - assert (0 < DISKS / 2) by nia.
    rewrite (Z.div_mod v (DISKS / 2)), (Z.div_mod w (DISKS / 2)), Hp, Hr by lia. done.
Qed.

(** Different pairs have different disks. *)
Lemma m_disks_inj t k k' : mirrored t -> 0 <= k < m_n t -> 0 <= k' < m_n t -> k <> k' ->
  m_d0 t k <> m_d0 t k' /\ m_d0 t k <> m_d1 t k' /\ m_d1 t k <> m_d0 t k' /\ m_d1 t k <> m_d1 t k'.
Proof.
  intros [-> | ->]; unfold m_n, m_d0, m_d1, npairs_raid1, npairs_raid0_1; simpl; lia.
Qed.

Definition mirror_read (t : Z) := if t =? RAID1 then raid1read else raid0_1read.
Definition mirror_write (t : Z) := if t =? RAID1 then raid1write else raid0_1write.

Lemma m_addr_raid1 v : 0 <= v < capacity RAID1 ->
  i32 (u64 v / diskblockn) = m_pair RAID1 v /\ i32 (u64 v mod diskblockn) = m_row RAID1 v.
Proof.
  intros Hv. pose proof (capacity_range RAID1). destruct (m_addr RAID1 v) as [Hp [Hr1 Hr2]]; [by left|done|].
  rewrite u64_small by lia. unfold m_pair, m_row in *. simpl in *.
  pose proof diskblockn_range. pose proof DISKS_range.
  change (m_n RAID1) with ((DISKS + 1) / 2) in Hp.
  assert ((DISKS + 1) / 2 < 5) by (apply Z.div_lt_upper_bound; lia).
  rewrite !i32_small by lia. done.
Qed.

Lemma m_addr_raid0_1 v : 0 <= v < capacity RAID0_1 ->
  u32 (Z.rem v (DISKS / 2)) = m_pair RAID0_1 v /\ i32 (u32 (Z.quot v (DISKS / 2))) = m_row RAID0_1 v.
Proof.
  intros Hv. pose proof (capacity_range RAID0_1). destruct (m_addr RAID0_1 v) as [Hp [Hr1 Hr2]]; [by right|done|].
  pose proof diskblockn_range. pose proof DISKS_range.
  assert (0 < DISKS / 2 < 5).
  { split; [|apply Z.div_lt_upper_bound; lia].
    change (capacity RAID0_1) with (diskblockn * (DISKS / 2)) in Hv. nia. }
  rewrite Z.rem_mod_nonneg, Z.quot_div_nonneg by lia.
  change (m_n RAID0_1) with (DISKS / 2) in Hp.
  unfold m_pair, m_row in *. simpl in *. rewrite !u32_small by lia. rewrite i32_small by lia. done.
Qed.

Definition mirror_ready (t : Z) (F : gset Z) (s : State) : Prop :=
  ready t F s /\ rm_data (st_meta s) = DataPairs (idle_pairs (m_n t) (m_d0 t) (m_d1 t)).

Lemma mirror_read_spec t F v buf s : mirrored t -> mirror_ready t F s -> 0 <= v < capacity t ->
  let a := m_d0 t (m_pair t v) in let b := m_d1 t (m_pair t v) in
  wp (mirror_read t v buf) (fun r s' => s' = s /\
    r = if dvalid s a || dvalid s b then (0, blk s (read_side s a b + 1) (m_row t v)) else (ERR, buf)) s.
Proof.
  intros Ht [Hr Hps] Hv a b. destruct (m_addr t v Ht Hv) as [Hp Hrow]. subst a b.
  pose proof (readdiskpair_spec _ _ _ _ s (m_pairing t Ht) Hp (rd_wf _ _ _ Hr) Hps _ buf Hrow) as Hspec.
  destruct Ht as [-> | ->]; unfold mirror_read; simpl.
  - unfold raid1read. wp_steps. eapply wp_enter_level; [done|done|done|].
    destruct (m_addr_raid1 v Hv) as [-> ->]. done.
  - unfold raid0_1read. wp_steps. eapply wp_enter_level; [done|done|done|].
    destruct (m_addr_raid0_1 v Hv) as [-> ->]. done.
Qed.

Lemma mirror_write_spec t F v data s : mirrored t -> mirror_ready t F s -> 0 <= v < capacity t ->
  let a := m_d0 t (m_pair t v) in let b := m_d1 t (m_pair t v) in
  wp (mirror_write t v data) (fun r s' =>
    if dvalid s a || dvalid s b
    then r = 0 /\ s' = set_disk
      (write_disk_if (write_disk_if (st_disk s) (dvalid s a) a (m_row t v) data)
         (dvalid s b) b (m_row t v) data) s
    else r = ERR /\ s' = s) s.
Proof.
  intros Ht [Hr Hps] Hv a b. destruct (m_addr t v Ht Hv) as [Hp Hrow]. subst a b.
  pose proof (writediskpair_spec _ _ _ _ s (m_pairing t Ht) Hp (rd_wf _ _ _ Hr) Hps _ data Hrow) as Hspec.
  destruct Ht as [-> | ->]; unfold mirror_write; simpl.
  - unfold raid1write. wp_steps. eapply wp_enter_level; [done|done|done|].
    destruct (m_addr_raid1 v Hv) as [-> ->]. done.
  - unfold raid0_1write. wp_steps. eapply wp_enter_level; [done|done|done|].
    destruct (m_addr_raid0_1 v Hv) as [-> ->]. done.
Qed.

End pair.
