(* ===== verification/ParityArray.v ===== *)
(** * What RAID4 and RAID5 share

    [struct RAID4Data] and [struct RAID5Data] have the same fields; the code of
    kernel/raid4.c and kernel/raid5.c around them is the same. *)

From stdpp Require Import base numbers list gmap strings sets.
From Stdlib Require Import ZArith Lia.
From S2P Require Import Prelude Blocks Monad State Locks Kalloc Codec MetaImage RaidCore.
Open Scope Z_scope.

Definition set_writecount (v : Z) (d : ParityData) : ParityData :=
  mk_ParityData (pd_cluster_loaded d) v (pd_repairing d).
Definition set_repairing (v : Z) (d : ParityData) : ParityData :=
  mk_ParityData (pd_cluster_loaded d) (pd_writecount d) v.
Definition set_loaded (l : list Z) (d : ParityData) : ParityData :=
  mk_ParityData l (pd_writecount d) (pd_repairing d).

Section parity.
Context `{Config}.

(** [raidmeta.data.raid4], [raidmeta.data.raid5] *)
Definition get_parity : K ParityData :=
  let! d := gets (fun s => rm_data (st_meta s)) in
  match d with DataParity d => ret d | _ => fault end.

Definition put_parity (d : ParityData) : K unit := mod_meta (set_data (DataParity d)).

(** [raiddata->cluster_loaded[clustern]] *)
Definition cluster_loaded (clustern : Z) : K bool :=
  let! d := get_parity in
  let! v := deref (znth (pd_cluster_loaded d) clustern) in
  ret (negb (v =? 0)).

Definition mark_loaded (clustern : Z) : K unit :=
  let! d := get_parity in
  let! _ := deref (znth (pd_cluster_loaded d) clustern) in
  put_parity (set_loaded (zset (pd_cluster_loaded d) clustern 1) d).

(** Entering a write: wait while a repair is in progress, then count the write. *)
Definition write_begin : K unit :=
  acquire RepairLock;;
  let! d := get_parity in
  (if negb (pd_repairing d =? 0) then sleep RepairLock else ret tt);;
  put_parity (set_writecount (i32 (pd_writecount d + 1)) d);;
  release RepairLock.

(** Leaving a write: the last one wakes a waiting repair. *)
Definition write_end : K unit :=
  acquire RepairLock;;
  let! d := get_parity in
  put_parity (set_writecount (i32 (pd_writecount d - 1)) d);;
  when (i32 (pd_writecount d - 1) =? 0) wakeup;;
  release RepairLock.

(** Entering and leaving a repair. *)
Definition repair_begin : K unit :=
  acquire RepairLock;;
  let! d := get_parity in
  put_parity (set_repairing (i32 (pd_repairing d + 1)) d);;
  let! d := get_parity in
  (if negb (pd_writecount d =? 0) && negb (pd_repairing d =? 0) then sleep RepairLock else ret tt);;
  release RepairLock.

Definition repair_end : K unit :=
  acquire RepairLock;;
  let! d := get_parity in
  put_parity (set_repairing (i32 (pd_repairing d - 1)) d);;
  when (i32 (pd_repairing d - 1) =? 0) wakeup;;
  release RepairLock.

(** [parity = 0; for (i < DISKS) if (i != diskn) parity ^= block b of disk i] *)
Definition xor_others (diskn b : Z) : K block :=
  foldM (range 0 DISKS) zblk (fun parity i =>
    if i =? diskn then ret parity
    else
      let! d := diskinfo i in
      let! buff := read_block (di_diskn d) b in
      ret (bxor parity buff)).

(** The loop of [raidrepair] for RAID4 and RAID5. *)
Definition repair_block (newpg diskn b : Z) : K unit :=
  let clustern := u64 (Z.quot b CLUSTER_SIZE) in
  acquiresleep ClusterLock;;
  let! loaded := cluster_loaded clustern in
  releasesleep ClusterLock;;
  when loaded
    (use_page newpg;;
     let! parity := xor_others diskn b in
     let! d := diskinfo diskn in
     write_block (di_diskn d) b parity).

(** ** Specifications *)

Context `{!ConfigOK}.

Abbreviation put_data d s := (set_meta (set_data (DataParity d) (st_meta s)) s).

Lemma wp_get_parity d (Q : ParityData -> State -> Prop) s :
  rm_data (st_meta s) = DataParity d -> Q d s -> wp get_parity Q s.
Proof. intros Hd HQ. unfold get_parity. wp_steps. rewrite Hd. by wp_steps. Qed.

(** The four sections under [repairlock]. *)
Lemma wp_write_begin l (Q : unit -> State -> Prop) s : spins_free s ->
  rm_data (st_meta s) = DataParity (mk_ParityData l 0 0) ->
  Q tt (put_data (mk_ParityData l 1 0) s) -> wp write_begin Q s.
Proof.
  intros Hl Hd HQ. destruct (sf_spin s Hl RepairLock I) as [n Hn]. pose proof (sf_cpu s Hl) as Hc.
  unfold write_begin, put_parity, mod_meta. kstep. eapply wp_acquire; [done|done|]. kstep.
  eapply wp_get_parity; [exact Hd|]. kstep. cbn [pd_repairing Z.eqb negb]. kstep.
  eapply wp_release; [done|done|done|done|]. exact HQ.
Qed.

Lemma wp_write_end l (Q : unit -> State -> Prop) s : spins_free s ->
  rm_data (st_meta s) = DataParity (mk_ParityData l 1 0) ->
  Q tt (put_data (mk_ParityData l 0 0) s) -> wp write_end Q s.
Proof.
  intros Hl Hd HQ. destruct (sf_spin s Hl RepairLock I) as [n Hn]. pose proof (sf_cpu s Hl) as Hc.
  unfold write_end, put_parity, mod_meta. kstep. eapply wp_acquire; [done|done|]. kstep.
  eapply wp_get_parity; [exact Hd|]. kstep. apply wp_when; [|done]. intros _. unfold wakeup. kstep.
  eapply wp_release; [done|done|done|done|]. exact HQ.
Qed.

Lemma wp_repair_begin l (Q : unit -> State -> Prop) s : spins_free s ->
  rm_data (st_meta s) = DataParity (mk_ParityData l 0 0) ->
  Q tt (put_data (mk_ParityData l 0 1) s) -> wp repair_begin Q s.
Proof.
  intros Hl Hd HQ. destruct (sf_spin s Hl RepairLock I) as [n Hn]. pose proof (sf_cpu s Hl) as Hc.
  unfold repair_begin, put_parity, mod_meta. kstep. eapply wp_acquire; [done|done|]. kstep.
  eapply wp_get_parity; [exact Hd|]. kstep. eapply wp_get_parity; [done|]. kstep.
  cbn [pd_writecount set_repairing Z.eqb negb andb]. kstep.
  eapply wp_release; [done|done|done|done|]. exact HQ.
Qed.

Lemma wp_repair_end l (Q : unit -> State -> Prop) s : spins_free s ->
  rm_data (st_meta s) = DataParity (mk_ParityData l 0 1) ->
  Q tt (put_data (mk_ParityData l 0 0) s) -> wp repair_end Q s.
Proof.
  intros Hl Hd HQ. destruct (sf_spin s Hl RepairLock I) as [n Hn]. pose proof (sf_cpu s Hl) as Hc.
  unfold repair_end, put_parity, mod_meta. kstep. eapply wp_acquire; [done|done|]. kstep.
  eapply wp_get_parity; [exact Hd|]. kstep. apply wp_when; [|done]. intros _. unfold wakeup. kstep.
  eapply wp_release; [done|done|done|done|]. exact HQ.
Qed.

Lemma wp_cluster_loaded d c v (Q : bool -> State -> Prop) s :
  rm_data (st_meta s) = DataParity d -> znth (pd_cluster_loaded d) c = Some v ->
  Q (negb (v =? 0)) s -> wp (cluster_loaded c) Q s.
Proof.
  intros Hd Hv HQ. unfold cluster_loaded. wp_steps. eapply wp_get_parity; [done|]. wp_steps.
  eapply wp_deref; [done|]. by wp_steps.
Qed.

Lemma wp_mark_loaded d c v (Q : unit -> State -> Prop) s :
  rm_data (st_meta s) = DataParity d -> znth (pd_cluster_loaded d) c = Some v ->
  Q tt (put_data (set_loaded (zset (pd_cluster_loaded d) c 1) d) s) -> wp (mark_loaded c) Q s.
Proof.
  intros Hd Hv HQ. unfold mark_loaded, put_parity, mod_meta. wp_steps.
  eapply wp_get_parity; [done|]. wp_steps. eapply wp_deref; [done|]. by wp_steps.
Qed.

(** The parity of row [b] without disk index [d]. *)
Definition xothers (s : State) (d b : Z) : block :=
  xsum (fun i => blk s (i + 1) b) (others d (range 0 DISKS)).

Lemma fold_left_skip {A} (f : A -> Z -> A) d l a :
  fold_left (fun p i => if i =? d then p else f p i) l a = fold_left f (others d l) a.
Proof.
  revert a. induction l as [|i l IH]; intros a; [done|]. unfold others. simpl.
  destruct (Z.eqb_spec i d) as [->|Hne].
  - rewrite filter_cons_False by tauto. apply IH.
  - rewrite filter_cons_True by done. simpl. apply IH.
Qed.

Lemma wp_xor_others d b (Q : block -> State -> Prop) s : info_wf (rm_diskinfo (st_meta s)) -> 0 <= b <= diskblockn ->
  Q (xothers s d b) s -> wp (xor_others d b) Q s.
Proof.
  intros Hwf Hb HQ. unfold xor_others.
  eapply (wp_foldM_pure _ (fun p i => if i =? d then p else bxor p (blk s (i + 1) b))).
  - intros a i Hi%elem_of_range. destruct (i =? d); [done|].
    assert (wp (let! d0 := diskinfo i in let! buff := read_block (di_diskn d0) b in ret (bxor a buff))
      (fun r s' => r = bxor a (blk s (i + 1) b) /\ s' = s) s) as Hw.
    { wp_steps. eapply wp_diskinfo; [by apply diskinfo_at|]. wp_steps.
      apply wp_read_block; simpl; [lia|lia|]. by wp_steps. }
    apply wp_Done in Hw as (r & s' & Hr & -> & ->). done.
  - rewrite fold_left_skip, fold_left_xsum0. done.
Qed.

(** No disk but [d] has failed. *)
Lemma wp_other_invalid d l (Q : bool -> State -> Prop) s : info_wf (rm_diskinfo (st_meta s)) ->
  (forall i, i ∈ l -> 0 <= i < DISKS) ->
  Q (existsb (fun i => negb (i =? d) && negb (dvalid s i)) l) s -> wp (other_invalid d l) Q s.
Proof.
  intros Hwf. induction l as [|i l IH]; simpl; intros Hl HQ; [done|].
  destruct (i =? d) eqn:E; simpl in *; [apply IH; [set_solver|done]|].
  wp_steps. eapply wp_diskinfo; [apply diskinfo_at; [done|apply Hl; set_solver]|].
  rewrite is_valid_bool. destruct (dvalid s i); simpl in *; [apply IH; [set_solver|done]|done].
Qed.

Lemma wp_kalloc r next (Q : Z -> State -> Prop) s : spins_free s -> st_free s = r :: next ->
  Q r (set_free next s) -> wp kalloc Q s.
Proof.
  intros Hl Hs HQ. unfold wp. rewrite kalloc_done, Hs; [done|apply (sf_cpu s Hl)|by apply (sf_spin s Hl KmemLock)].
Qed.

Lemma wp_kfree r (Q : unit -> State -> Prop) s : spins_free s -> page_ok r ->
  Q tt (set_free (r :: st_free s) s) -> wp (kfree r) Q s.
Proof.
  intros Hl Hr HQ. unfold wp. rewrite kfree_done; [done|apply (sf_cpu s Hl)|by apply (sf_spin s Hl KmemLock)|done].
Qed.

Lemma wp_use_page r (Q : unit -> State -> Prop) s : page_ok r -> Q tt s -> wp (use_page r) Q s.
Proof.
  intros Hr HQ. unfold use_page. rewrite (proj2 (Z.eqb_neq r 0)) by (by apply page_nonzero). done.
Qed.

(** ** Reading *)

Lemma readinvalid_spec d b r next (Q : block -> State -> Prop) s :
  spins_free s -> info_wf (rm_diskinfo (st_meta s)) -> 0 <= b <= diskblockn ->
  st_free s = r :: next -> page_ok r -> Q (xothers s d b) s ->
  wp (let! newpg := kalloc in
      use_page newpg;;
      let! parity := xor_others d b in
      kfree newpg;;
      ret parity) Q s.
Proof.
  intros Hl Hi Hb Hf Hr HQ. kstep. eapply wp_kalloc; [done|done|]. kstep.
  apply wp_use_page; [done|]. kstep. apply wp_xor_others; [done|done|]. kstep.
  apply wp_kfree; [done|done|]. kstep. norm_fields. rewrite <- Hf. by destruct s.
Qed.

Lemma degraded_read_spec d b s : raid_wf s -> pages_wf (st_free s) -> 0 <= b <= diskblockn ->
  wp (acquire_disks;;
      let! data := (let! newpg := kalloc in
                    use_page newpg;;
                    let! parity := xor_others d b in
                    kfree newpg;;
                    ret parity) in
      release_disks;;
      ret (0, data)) (fun r s' => s' = s /\ r = (0, xothers s d b)) s.
Proof.
  intros [Hl Hi _] [Hp Hlen] Hb. destruct (st_free s) as [|r next] eqn:Hf; [simpl in Hlen; lia|].
  inversion Hp as [|? ? Hr ?]; subst.
  kstep. apply wp_acquire_disks; [done|]. intros m Hm.
  apply wp_bind. eapply (readinvalid_spec _ _ r next); try done; [apply Hl|].
  kstep. eapply (wp_release_disks m _ s); try done. kstep. split; [state_eq|done].
Qed.

(** The block of disk index [d] in row [b]: on the disk, or, when the disk has
    failed, what the other disks of the row determine. *)
Definition lblk (s : State) (d b : Z) : block := if dvalid s d then blk s (d + 1) b else xothers s d b.

End parity.

(** * The parity invariant of RAID4 and RAID5

    Row [b] of the array is block [b] of every disk; [pd b] is the index of the
    disk that holds its parity.  The lemmas of this file are about rows and do
    not depend on where the parity is; Raid4.v and Raid5.v instantiate [pd]. *)

Section array.
Context `{ConfigOK}.

Definition rowf (s : State) (b i : Z) : block := blk s (i + 1) b.

(** What [loadcluster] writes as the parity of row [b]: failed disks are left out. *)
Definition row_parity (s : State) (p b : Z) : block :=
  xsum (rowf s b) (filter (fun i => dvalid s i = true) (others p (range 0 DISKS))).

(** The disks after the rows from [lo] to [hi] are loaded. *)
Definition loaded_rows (pd : Z -> Z) (lo hi : Z) (s : State) (D : gmap (Z * Z) block) : Prop :=
  forall d b, D !! (d, b) =
    if (lo <=? b) && (b <? hi) && (d =? pd b + 1) && dvalid s (pd b)
    then Some (row_parity s (pd b) b) else st_disk s !! (d, b).

Lemma loaded_rows_0 pd lo s : loaded_rows pd lo lo s (st_disk s).
Proof. intros d b. by destruct (Z.leb_spec lo b), (Z.ltb_spec b lo); try lia. Qed.

Lemma loaded_rows_S pd lo hi s D : lo <= hi -> loaded_rows pd lo hi s D ->
  loaded_rows pd lo (hi + 1) s
    (if dvalid s (pd hi) then <[(pd hi + 1, hi) := row_parity s (pd hi) hi]> D else D).
Proof.
  intros Hlh HD d b. destruct (decide (b = hi)) as [->|Hne].
  - assert (HD' : D !! (d, hi) = st_disk s !! (d, hi)).
    { rewrite HD. by destruct (Z.leb_spec lo hi), (Z.ltb_spec hi hi); try lia. }
    destruct (Z.leb_spec lo hi), (Z.ltb_spec hi (hi + 1)); try lia. simpl.
    destruct (dvalid s (pd hi)) eqn:Hv; [|by rewrite andb_false_r].
    destruct (Z.eqb_spec d (pd hi + 1)) as [->|Hd]; simpl; [by rewrite lookup_insert_eq|].
    by rewrite lookup_insert_ne by congruence.
  - transitivity (D !! (d, b)).
    { destruct (dvalid s (pd hi)); [|done]. apply lookup_insert_ne. congruence. }
    rewrite HD. by destruct (Z.ltb_spec b (hi + 1)), (Z.ltb_spec b hi); try lia.
Qed.

Lemma load_loop pd lo hi body (Q : unit -> State -> Prop) s : lo <= hi ->
  (forall i D, lo <= i < hi -> loaded_rows pd lo i s D ->
     wp (body i) (fun _ s' => s' = set_disk
       (if dvalid s (pd i) then <[(pd i + 1, i) := row_parity s (pd i) i]> D else D) s)
       (set_disk D s)) ->
  (forall D, loaded_rows pd lo hi s D -> Q tt (set_disk D s)) ->
  wp (forM (range lo hi) body) Q s.
Proof.
  intros Hlh Hbody HQ.
  apply (wp_forM (fun k s' => exists D, s' = set_disk D s /\ loaded_rows pd lo k s D)).
  - done.
  - exists (st_disk s). split; [by rewrite set_disk_id|apply loaded_rows_0].
  - intros i s' Hi (D & -> & HD). eapply wp_mono; [by apply Hbody|]. intros [] s' ->.
    eexists. split; [done|]. apply loaded_rows_S; [lia|done].
  - intros s' (D & -> & HD). by apply HQ.
Qed.

Lemma fold_left_cond {A} (c : Z -> bool) (f : A -> Z -> A) l a :
  fold_left (fun p i => if c i then f p i else p) l a =
  fold_left f (filter (fun i => c i = true) l) a.
Proof.
  revert a. induction l as [|i l IH]; intros a; [done|]. simpl.
  destruct (c i) eqn:E.
  - rewrite filter_cons_True by done. apply IH.
  - rewrite filter_cons_False by congruence. apply IH.
Qed.

(** The loop of [loadcluster] over the disks of a row that satisfy [f]. *)
Lemma wp_xor_cond (f : DiskInfo -> Z -> bool) l i (Q : block -> State -> Prop) s :
  info_wf (rm_diskinfo (st_meta s)) -> (forall k, k ∈ l -> 0 <= k < DISKS) -> 0 <= i <= diskblockn ->
  Q (xsum (rowf s i) (filter (fun k => f (mk_DiskInfo (if dvalid s k then 1 else 0) (k + 1)) k = true) l)) s ->
  wp (foldM l zblk (fun parity k =>
        let! d := diskinfo k in
        if f d k then
          let! data := read_block (di_diskn d) i in
          ret (bxor parity data)
        else ret parity)) Q s.
Proof.
  intros Hi Hl Hb HQ.
  set (g := fun k => f (mk_DiskInfo (if dvalid s k then 1 else 0) (k + 1)) k).
  eapply (wp_foldM_pure _ (fun p k => if g k then bxor p (blk s (k + 1) i) else p)).
  - intros a k Hk. specialize (Hl k Hk).
    assert (Hw : wp (let! d := diskinfo k in
        if f d k then let! data := read_block (di_diskn d) i in ret (bxor a data) else ret a)
      (fun r s' => r = (if g k then bxor a (blk s (k + 1) i) else a) /\ s' = s) s).
    { wp_steps. eapply wp_diskinfo; [by apply diskinfo_at|]. change (f _ k) with (g k).
      destruct (g k); [|done]. wp_steps. apply wp_read_block; simpl; [lia|lia|]. by wp_steps. }
    apply wp_Done in Hw as (r & s' & Hr & -> & ->). done.
  - rewrite fold_left_cond, fold_left_xsum0. exact HQ.
Qed.

Lemma filter_all (c : Z -> bool) (l : list Z) : (forall i, i ∈ l -> c i = true) -> filter (fun i => c i = true) l = l.
Proof.
  induction l as [|i l IH]; intros Hc; [done|]. rewrite filter_cons_True by (apply Hc; set_solver).
  f_equal. apply IH. set_solver.
Qed.

Lemma others_last : others (DISKS - 1) (range 0 DISKS) = range 0 (DISKS - 1).
Proof.
  pose proof DISKS_range. rewrite (range_snoc 0 DISKS) by lia. unfold others.
  rewrite filter_app. rewrite (filter_cons_False _ (DISKS - 1)) by tauto.
  rewrite filter_nil, app_nil_r. apply (others_notin (DISKS - 1)).
  rewrite elem_of_range. lia.
Qed.

(** ** After a load *)

Context (pd : Z -> Z).
Hypothesis pd_range : forall b, 0 <= b -> 0 <= pd b < DISKS.

Lemma loaded_blk lo hi s D d b : loaded_rows pd lo hi s D ->
  blk (set_disk D s) d b =
    if bool_decide (lo <= b < hi /\ d = pd b + 1 /\ dvalid s (pd b) = true)
    then row_parity s (pd b) b else blk s d b.
Proof.
  intros HD. unfold blk. simpl. rewrite HD. case_bool_decide as Hc.
  - destruct Hc as (Hb & -> & ->). rewrite Z.eqb_refl.
    by destruct (Z.leb_spec lo b), (Z.ltb_spec b hi); try lia.
  - destruct (Z.leb_spec lo b), (Z.ltb_spec b hi), (Z.eqb_spec d (pd b + 1)),
      (dvalid s (pd b)); simpl; try done. exfalso. apply Hc. auto.
Qed.

Lemma wf_row_parity s b : blocks_wf s -> data_row b -> wf_block (row_parity s (pd b) b).
Proof. intros Hs Hb. apply wf_xsum. intros i _. by apply Hs. Qed.

Lemma loaded_wf lo hi s D : blocks_wf s -> loaded_rows pd lo hi s D ->
  forall d b, data_row b -> wf_block (blk (set_disk D s) d b).
Proof.
  intros Hs HD d b Hb. rewrite (loaded_blk lo hi) by done.
  case_bool_decide; [by apply wf_row_parity|by apply Hs].
Qed.

(** Rows of zero parity. *)
Definition row_ok (s : State) (b : Z) : Prop := xsum (rowf s b) (range 0 DISKS) = zblk.

(** When no disk has failed, a row whose parity disk holds the parity of the
    others has zero parity. *)
Lemma loaded_row_ok s s' b : blocks_wf s -> data_row b ->
  (forall i, 0 <= i < DISKS -> dvalid s i = true) ->
  rowf s' b (pd b) = row_parity s (pd b) b ->
  (forall i, i <> pd b -> rowf s' b i = rowf s b i) -> row_ok s' b.
Proof.
  intros Hs Hrow Hv Hpar Hrest. destruct (Hrow) as [Hb _]. pose proof (pd_range b Hb) as Hp. unfold row_ok.
  rewrite (xsum_split _ (pd b)) by (try apply range_NoDup; by apply elem_of_range).
  rewrite Hpar. rewrite (xsum_ext _ (rowf s b)) by (intros i [Hne _]%elem_of_others; by apply Hrest).
  unfold row_parity at 1. rewrite (filter_all (dvalid s)); [apply bxor_self, wf_xsum; intros; by apply Hs|].
  intros i [_ Hi%elem_of_range]%elem_of_others. by apply Hv.
Qed.

(** ** After a write *)

(** What a write of [data] to the block of disk index [d] in row [b], whose
    parity is on disk index [p], leaves on the disks. *)
Definition new_parity (s : State) (d p b : Z) (data : block) : block :=
  bxor (blk s (p + 1) b) (bxor (lblk s d b) data).

Definition parity_written (s : State) (d p b : Z) (data : block) : State :=
  if negb (dvalid s d) then
    set_disk (<[(p + 1, b) := new_parity s d p b data]> (st_disk s)) s
  else if negb (dvalid s p) then
    set_disk (<[(d + 1, b) := data]> (st_disk s)) s
  else
    set_disk (<[(p + 1, b) := new_parity s d p b data]> (<[(d + 1, b) := data]> (st_disk s))) s.

Lemma parity_written_only s d p b data : exists D, parity_written s d p b data = set_disk D s.
Proof. unfold parity_written. destruct (negb (dvalid s d)), (negb (dvalid s p)); eexists; reflexivity. Qed.

Lemma parity_written_meta s d p b data : st_meta (parity_written s d p b data) = st_meta s.
Proof. unfold parity_written. by repeat case_match. Qed.

Lemma parity_written_dvalid s d p b data i : dvalid (parity_written s d p b data) i = dvalid s i.
Proof. unfold dvalid. by rewrite parity_written_meta. Qed.

Lemma parity_written_rowf s d p b data b' i : d <> p ->
  rowf (parity_written s d p b data) b' i =
    if bool_decide (b' = b /\ i = d /\ dvalid s d = true) then data
    else if bool_decide (b' = b /\ i = p /\ (dvalid s d = true -> dvalid s p = true))
    then new_parity s d p b data
    else rowf s b' i.
Proof.
  intros Hdp. unfold parity_written, rowf, blk.
  destruct (decide (b' = b)) as [->|Hb].
  - destruct (decide (i = d)) as [->|Hd]; [|destruct (decide (i = p)) as [->|Hp]];
      destruct (dvalid s d) eqn:Ed, (dvalid s p) eqn:Ep; simpl;
      repeat first [rewrite lookup_insert_eq | rewrite lookup_insert_ne by (intros [=]; lia)];
      repeat case_bool_decide; intuition congruence.
  - rewrite !bool_decide_eq_false_2 by tauto.
    repeat case_match; simpl; by rewrite ?lookup_insert_ne by congruence.
Qed.

Lemma parity_written_data s d p b data : d <> p -> dvalid s d = true ->
  rowf (parity_written s d p b data) b d = data.
Proof. intros Hdp Hv. rewrite parity_written_rowf by done. by rewrite bool_decide_eq_true_2 by auto. Qed.

Lemma parity_written_parity s d p b data : d <> p -> (dvalid s d = true -> dvalid s p = true) ->
  rowf (parity_written s d p b data) b p = new_parity s d p b data.
Proof.
  intros Hdp Hv. rewrite parity_written_rowf by done.
  rewrite bool_decide_eq_false_2 by (intros (_ & ? & _); congruence).
  by rewrite bool_decide_eq_true_2 by auto.
Qed.

Lemma parity_written_rest s d p b data b' i : d <> p -> (b' <> b \/ i <> d /\ i <> p) ->
  rowf (parity_written s d p b data) b' i = rowf s b' i.
Proof.
  intros Hdp Hi. rewrite parity_written_rowf by done.
  by rewrite !bool_decide_eq_false_2 by tauto.
Qed.

Section written.
Variables (s : State) (d b : Z) (data : block).
Hypothesis Hwf : blocks_wf s.
Hypothesis Hd : 0 <= d < DISKS.
Hypothesis Hb : data_row b.
Hypothesis Hdp : d <> pd b.
Hypothesis Hdata : wf_block data.
(** At most one disk has failed. *)
Hypothesis Hone : forall i j, 0 <= i < DISKS -> 0 <= j < DISKS ->
  dvalid s i = false -> dvalid s j = false -> i = j.

Let p := pd b.
Let s' := parity_written s d p b data.

Lemma wf_xothers i b' : data_row b' -> wf_block (xothers s i b').
Proof. intros. apply wf_xsum. intros. by apply Hwf. Qed.
Lemma wf_lblk i b' : data_row b' -> wf_block (lblk s i b').
Proof. intros. unfold lblk. case_match; [by apply Hwf|by apply wf_xothers]. Qed.
Lemma wf_delta : wf_block (bxor (lblk s d b) data).
Proof. apply wf_bxor; [by apply wf_lblk|done]. Qed.

Lemma p_range : 0 <= p < DISKS.
Proof. apply pd_range. destruct Hb. lia. Qed.

Lemma written_wf : blocks_wf s'.
Proof.
  intros e b' Hb'.
  replace (blk s' e b') with (rowf s' b' (e - 1)) by (unfold rowf; f_equal; lia).
  unfold s'. rewrite parity_written_rowf by done. repeat case_bool_decide; [done| |by apply Hwf].
  destruct H2 as (-> & _). apply wf_bxor; [by apply Hwf|apply wf_delta].
Qed.

(** The written block reads back. *)
Lemma written_same : lblk s' d b = data.
Proof.
  pose proof p_range. unfold lblk, s'. rewrite parity_written_dvalid.
  destruct (dvalid s d) eqn:Ed.
  - change (blk _ (d + 1) b) with (rowf (parity_written s d p b data) b d).
    by apply parity_written_data.
  - unfold xothers. change (fun i => blk (parity_written s d p b data) (i + 1) b)
      with (rowf (parity_written s d p b data) b).
    rewrite (xsum_shift (rowf s b) _ p (bxor (lblk s d b) data)).
    + change (xsum (rowf s b) (others d (range 0 DISKS))) with (xothers s d b).
      unfold lblk. rewrite Ed. apply bxor_cancel_l; [by apply wf_xothers|done].
    + apply others_NoDup, range_NoDup.
    + apply elem_of_others. split; [done|]. by apply elem_of_range.
    + apply parity_written_parity; [done|congruence].
    + intros i [Hi _]%elem_of_others Hip. apply parity_written_rest; auto.
Qed.

(** Every other data block reads as before. *)
Lemma written_other d' b' : 0 <= d' < DISKS -> data_row b' -> d' <> pd b' ->
  (d', b') <> (d, b) -> lblk s' d' b' = lblk s d' b'.
Proof.
  intros Hd' Hb' Hdp' Hne. pose proof p_range. unfold lblk, s'. rewrite parity_written_dvalid.
  destruct (decide (b' = b)) as [->|Hbb].
  - assert (d' <> d) by congruence. destruct (dvalid s d') eqn:Ed'.
    + change (rowf (parity_written s d p b data) b d' = rowf s b d').
      apply parity_written_rest; auto.
    + assert (dvalid s d = true).
      { destruct (dvalid s d) eqn:E; [done|]. exfalso. apply H2. by apply Hone. }
      assert (dvalid s p = true).
      { destruct (dvalid s p) eqn:E; [done|]. exfalso. apply Hdp'. by apply Hone. }
      apply (xsum_shift2 (rowf s b) _ p d (bxor (lblk s d b) data)).
      * apply others_NoDup, range_NoDup.
      * apply elem_of_others. split; [done|]. by apply elem_of_range.
      * apply elem_of_others. split; [done|]. by apply elem_of_range.
      * done.
      * intros. by apply Hwf.
      * apply wf_delta.
      * change (rowf (parity_written s d p b data) b p = bxor (rowf s b p) (bxor (lblk s d b) data)).
        by apply parity_written_parity.
      * change (rowf (parity_written s d p b data) b d = bxor (rowf s b d) (bxor (lblk s d b) data)).
        rewrite parity_written_data by done. unfold lblk. rewrite H3. symmetry. apply bxor_cancel_l; [by apply Hwf|done].
      * intros i _ Hip Hid. change (rowf (parity_written s d p b data) b i = rowf s b i).
        apply parity_written_rest; auto.
  - assert (E : forall i, blk (parity_written s d p b data) (i + 1) b' = blk s (i + 1) b').
    { intros i. change (rowf (parity_written s d p b data) b' i = rowf s b' i).
      apply parity_written_rest; auto. }
    rewrite E. unfold xothers. by rewrite (xsum_ext _ (fun i => blk s (i + 1) b')).
Qed.

(** With all disks valid, rows of zero parity keep zero parity. *)
Lemma written_row_ok b' : (forall i, 0 <= i < DISKS -> dvalid s i = true) ->
  data_row b' -> row_ok s b' -> row_ok s' b'.
Proof.
  intros Hv Hb' Hok. pose proof p_range. unfold row_ok, s' in *. rewrite <- Hok.
  destruct (decide (b' = b)) as [->|Hbb].
  - apply (xsum_shift2 _ _ p d (bxor (lblk s d b) data)).
    + apply range_NoDup.
    + by apply elem_of_range.
    + by apply elem_of_range.
    + done.
    + intros. by apply Hwf.
    + apply wf_delta.
    + apply parity_written_parity; auto.
    + rewrite parity_written_data by auto. unfold lblk. rewrite Hv by done. symmetry. apply bxor_cancel_l; [by apply Hwf|done].
    + intros i _ Hip Hid. apply parity_written_rest; auto.
  - apply xsum_ext. intros i _. apply parity_written_rest; auto.
Qed.

End written.

End array.
