(* ===== verification/ParityVolume.v ===== *)
(** * The sections RAID4 and RAID5 have in common

    [ParityLayout]: where a level keeps the parity of a row and its data blocks.
    Against this interface the file proves the effect of [loadcluster], of the
    three cases of a write and of a whole write, once for both levels. *)

From stdpp Require Import base numbers list sets gmap strings.
From Stdlib Require Import ZArith Lia.
From S2P Require Import Prelude Blocks Monad State Locks Kalloc Codec MetaImage RaidCore ParityArray.
Open Scope Z_scope.

(** The layout of a level: the index of the parity disk of a row, and the disk
    index and the row of a virtual block. *)
Class ParityLayout `{Config} (t : Z) := {
  pl_parity : Z -> Z;
  pl_disk : Z -> Z;
  pl_row : Z -> Z;
}.
Arguments pl_parity {_} t {_}.
Arguments pl_disk {_} t {_}.
Arguments pl_row {_} t {_}.

Class ParityLayoutOK `{Config} (t : Z) {L : ParityLayout t} : Prop := {
  pl_parity_range b : 0 <= b -> 0 <= pl_parity t b < DISKS;
  pl_disk_range v : 0 <= v < capacity t -> 0 <= pl_disk t v < DISKS;
  pl_row_range v : 0 <= v < capacity t -> data_row (pl_row t v);
  pl_disk_parity v : 0 <= v < capacity t -> pl_disk t v <> pl_parity t (pl_row t v);
  pl_inj v w : 0 <= v < capacity t -> 0 <= w < capacity t ->
    pl_disk t v = pl_disk t w -> pl_row t v = pl_row t w -> v = w;
}.

Section volume.
Context `{ConfigOK}.

Definition cluster_of (b : Z) : Z := b / CLUSTER_SIZE.

Lemma cluster_of_range b : data_row b -> 0 <= cluster_of b < nclusters.
Proof.
  unfold data_row, cluster_of. rewrite diskblockn_val, nblocks_val. intros Hb. unfold CLUSTER_SIZE in *.
  split; [apply Z.div_pos; lia|apply Z.div_lt_upper_bound; lia].
Qed.

(** Is the cluster of row [b] marked loaded? *)
Definition loaded_at (l : list Z) (b : Z) : Prop := exists x, znth l (cluster_of b) = Some x /\ x <> 0.

Abbreviation put_data d s := (set_meta (set_data (DataParity d) (st_meta s)) s).

Context (t : Z) `{!ParityLayout t, !ParityLayoutOK t}.

(** ** Loading a cluster *)

(** The state after [loadcluster]: the cluster is marked, and the data rows of
    the cluster have their parity. *)
Definition load_post (c : Z) (d : ParityData) (s s' : State) : Prop :=
  exists D, s' = set_disk D (put_data (set_loaded (zset (pd_cluster_loaded d) c 1) d) s) /\
  forall e b, data_row b -> blk s' e b =
    if bool_decide (cluster_of b = c /\ e = pl_parity t b + 1 /\ dvalid s (pl_parity t b) = true)
    then row_parity s (pl_parity t b) b else blk s e b.

Lemma cluster_rows b c : c * CLUSTER_SIZE <= b < c * CLUSTER_SIZE + CLUSTER_SIZE <-> cluster_of b = c.
Proof.
  unfold cluster_of, CLUSTER_SIZE. split; intros Hb.
  - symmetry. apply (Z.div_unique b 128 c (b - c * 128)); lia.
  - subst c. pose proof (Z.div_mod b 128). pose proof (Z.mod_pos_bound b 128). lia.
Qed.

Lemma row_parity_ext s s' p b : (forall i, dvalid s' i = dvalid s i) ->
  (forall e, blk s' e b = blk s e b) -> row_parity s' p b = row_parity s p b.
Proof.
  intros Hv Hb. unfold row_parity.
  rewrite (list_filter_iff (fun i => dvalid s' i = true) (fun i => dvalid s i = true))
    by (intros; by rewrite Hv).
  apply xsum_ext. intros i _. apply Hb.
Qed.

Lemma wp_loadcluster c d r next body (Q : Z -> State -> Prop) s :
  raid_wf s -> 0 <= c < nclusters -> rm_data (st_meta s) = DataParity d ->
  length (pd_cluster_loaded d) = Z.to_nat nclusters ->
  st_free s = r :: next -> page_ok r ->
  (forall i s', c * CLUSTER_SIZE <= i < c * CLUSTER_SIZE + CLUSTER_SIZE -> st_meta s' = st_meta s ->
     0 <= i <= diskblockn ->
     wp (body r i) (fun _ s'' => s'' = set_disk
       (if dvalid s' (pl_parity t i)
        then <[(pl_parity t i + 1, i) := row_parity s' (pl_parity t i) i]> (st_disk s')
        else st_disk s') s') s') ->
  (forall s', load_post c d s s' -> Q 0 s') ->
  wp (let! page := kalloc in
      acquire_disks;;
      let startblock := u64 (c * CLUSTER_SIZE) in
      forM (range startblock (startblock + CLUSTER_SIZE)) (body page);;
      mark_loaded c;;
      release_disks;;
      writeraidmeta;;
      kfree page;;
      ret 0) Q s.
Proof.
  intros Hwf Hc Hd Hlen Hf Hr Hbody HQ. destruct Hwf as [Hl Hi Hb].
  pose proof nclusters_range as Hn. pose proof nblocks_val as Hnb. pose proof diskblockn_val as Hdb.
  rewrite u64_small by (unfold CLUSTER_SIZE; lia). cbv zeta.
  destruct (znth_is_Some (pd_cluster_loaded d) c) as [x Hx]; [lia|].
  kstep. eapply wp_kalloc; [apply Hl|done|]. kstep.
  apply wp_acquire_disks; [done|]. intros m Hm. kstep.
  apply (load_loop (pl_parity t)); [unfold CLUSTER_SIZE; lia| |].
  - intros i D Hi' HD. unfold set_disk. norm_fields. eapply wp_mono.
    { apply Hbody; [done|done|]. unfold CLUSTER_SIZE in *. nia. }
    intros [] s' ->. state_eq.
    match goal with |- (if ?a then _ else _) = (if ?b then _ else _) => change a with b end.
    case_match; [|done]. f_equal. apply row_parity_ext; [done|]. intros e.
    unfold blk. norm_fields. rewrite HD.
    by destruct (Z.leb_spec (c * CLUSTER_SIZE) i), (Z.ltb_spec i i); try lia.
  - intros D HD. kstep. eapply wp_mark_loaded; [done|done|]. kstep.
    eapply (wp_release_disks m _ s); try done. kstep.
    assert (HB : forall e b, data_row b -> default zblk (D !! (e, b)) =
      if bool_decide (cluster_of b = c /\ e = pl_parity t b + 1 /\ dvalid s (pl_parity t b) = true)
      then row_parity s (pl_parity t b) b else blk s e b).
    { intros e b _. pose proof (loaded_blk (pl_parity t) _ _ _ _ e b HD) as HE.
      unfold blk in HE at 1. simpl in HE. rewrite HE.
      repeat case_bool_decide; rewrite cluster_rows in *; tauto. }
    apply wp_writeraidmeta.
    { constructor; [done|done|]. intros e b Hrow. unfold blk. norm_fields. rewrite HB by done.
      case_match; [|by apply Hb]. by apply wf_row_parity. }
    intros m' D' _ HD'. kstep. apply wp_kfree; [apply Hl|done|].
    kstep. norm_fields. rewrite <- Hf. apply HQ.
    exists D'. split; [state_eq|].
    intros e b Hrow. rewrite <- HB by done. exact (meta_disks_data _ _ _ _ e b HD' Hrow).
Qed.

(** ** A write *)

Lemma parity_written_eq s d p b data :
  parity_written s d p b data = set_disk (st_disk (parity_written s d p b data)) s.
Proof. unfold parity_written. by repeat case_match. Qed.

Lemma parity_written_disk s s' d p b data : st_disk s' = st_disk s ->
  rm_diskinfo (st_meta s') = rm_diskinfo (st_meta s) ->
  st_disk (parity_written s' d p b data) = st_disk (parity_written s d p b data).
Proof.
  intros Hd Hi. unfold parity_written, new_parity, lblk, xothers, blk, dvalid. rewrite Hd, Hi.
  by repeat case_match.
Qed.

(** The state after a write to row [b]: the cluster of the row is loaded first. *)
Definition write_post (l : list Z) (d p b : Z) (data : block) (s s' : State) : Prop :=
  exists s1, s' = parity_written s1 d p b data /\
    ((loaded_at l b /\ s1 = s) \/
     (~ loaded_at l b /\ load_post (cluster_of b) (mk_ParityData l 0 0) s s1)).

Definition one_page (s : State) : Prop := exists r next, st_free s = r :: next /\ page_ok r.

(** What the write needs of [loadcluster] and of its three cases. *)
Definition load_spec (c : Z) (load : K Z) : Prop :=
  forall d s (Q : Z -> State -> Prop), raid_wf s -> rm_type (st_meta s) = t ->
    rm_data (st_meta s) = DataParity d -> length (pd_cluster_loaded d) = Z.to_nat nclusters ->
    one_page s -> (forall s', load_post c d s s' -> Q 0 s') -> wp load Q s.

Definition case_spec (d p b : Z) (data : block) (c : State -> Prop) (m : K unit) : Prop :=
  forall s (Q : unit -> State -> Prop), raid_wf s -> one_page s -> c s ->
    Q tt (parity_written s d p b data) -> wp m Q s.

Lemma load_post_wf c d s s' : raid_wf s -> load_post c d s s' -> raid_wf s'.
Proof.
  intros Hwf (D & -> & HB). eapply raid_wf_ext; try done. intros e b Hb. rewrite HB by done.
  case_match; [apply wf_row_parity|]; try apply (wf_blocks _ Hwf); done.
Qed.

(** Counting the write in and out does not matter to the load. *)
Lemma load_post_frame c l s w m f s1 :
  load_post c (mk_ParityData l 1 0)
    (mkState (st_cpu s) (st_pid s) (st_spin s) m f (set_data (DataParity (mk_ParityData l 1 0)) (st_meta s)) (st_disk s)) s1 ->
  load_post c (mk_ParityData l w 0) s
    (set_disk (st_disk s1) (put_data (mk_ParityData (zset l c 1) w 0) s)).
Proof. intros (D & -> & HB). exists D. split; [done|]. exact HB. Qed.

(** From the release of [clusterlock] on: the metadata says one write is in
    progress, [page] is allocated. *)
Lemma wp_write_tail F l d b D data page next n caseA caseB caseC (Q : Z -> State -> Prop) s :
  ready t F s -> 0 <= d < DISKS -> data_row b ->
  (forall e r, data_row r -> wf_block (default zblk (D !! (e, r)))) ->
  st_free s = page :: next -> st_sleep s !! ClusterLock = Some (mk_sleeplock 0 n 0) ->
  (forall page, page_ok page -> case_spec d (pl_parity t b) b data (fun s => dvalid s d = false) (caseA page)) ->
  case_spec d (pl_parity t b) b data (fun s => dvalid s d = true /\ dvalid s (pl_parity t b) = false) caseB ->
  (forall page, page_ok page -> case_spec d (pl_parity t b) b data
     (fun s => dvalid s d = true /\ dvalid s (pl_parity t b) = true) (caseC page)) ->
  Q 0 (parity_written (set_disk D (put_data (mk_ParityData l 0 0) s)) d (pl_parity t b) b data) ->
  wp (releasesleep ClusterLock;;
      let! di := diskinfo d in
      let! dp := diskinfo (pl_parity t b) in
      (if negb (is_valid di) then caseA page
       else if negb (is_valid dp) then caseB
       else caseC page);;
      kfree page;;
      write_end;;
      ret 0) Q
   (mkState (st_cpu s) (st_pid s) (st_spin s)
     (<[ClusterLock := mk_sleeplock 1 n (st_pid s)]> (st_sleep s)) next
     (set_data (DataParity (mk_ParityData l 1 0)) (st_meta s)) D).
Proof.
  intros Hr Hdk Hb HD Hf Hcl HA HB HC HQ. pose proof (rd_wf _ _ _ Hr) as Hwf.
  destruct Hwf as [Hl Hi _]. destruct (rd_pages _ _ _ Hr) as [Hp Hlen]. rewrite Hf in Hp, Hlen.
  pose proof (pl_parity_range b ltac:(destruct Hb; lia)) as Hpr.
  inversion Hp as [|? ? Hpage Hnext]; subst.
  destruct next as [|r2 next]; [simpl in Hlen; lia|]. inversion Hnext as [|? ? Hr2 _]; subst.
  kstep. eapply wp_releasesleep; norm_fields; [solve_lock|solve_lock|by rewrite lookup_insert_eq|].
  kstep. rewrite insert_insert_eq, insert_id by done.
  eapply wp_diskinfo; [by apply (diskinfo_at s)|]. kstep.
  eapply wp_diskinfo; [by apply (diskinfo_at s)|]. kstep. rewrite !is_valid_bool.
  set (s2 := mkState _ _ _ _ _ _ _).
  assert (Hwf2 : raid_wf s2) by done.
  assert (H1 : one_page s2) by (by exists r2, next).
  assert (Hend : wp (kfree page;; write_end;; ret 0) Q (parity_written s2 d (pl_parity t b) b data)).
  { rewrite parity_written_eq in HQ |- *.
    rewrite (parity_written_disk s2) in HQ by done. unfold s2 at 2. kstep.
    apply wp_kfree; [apply Hl|done|]. kstep. eapply (wp_write_end l); [apply Hl|done|]. kstep.
    match goal with |- Q 0 ?a => match type of HQ with Q 0 ?b => replace a with b end end; [done|].
    state_eq. }
  change (dvalid s d) with (dvalid s2 d). change (dvalid s (pl_parity t b)) with (dvalid s2 (pl_parity t b)).
  destruct (dvalid s2 d) eqn:Ed; [destruct (dvalid s2 (pl_parity t b)) eqn:Ep|]; simpl.
  - by apply HC.
  - by apply HB.
  - by apply HA.
Qed.

Lemma wp_parity_write F l d b data load caseA caseB caseC (Q : Z -> State -> Prop) s :
  ready t F s -> rm_data (st_meta s) = DataParity (mk_ParityData l 0 0) ->
  length l = Z.to_nat nclusters -> 0 <= d < DISKS -> data_row b -> 
  load_spec (cluster_of b) load ->
  (forall page, page_ok page -> case_spec d (pl_parity t b) b data (fun s => dvalid s d = false) (caseA page)) ->
  case_spec d (pl_parity t b) b data (fun s => dvalid s d = true /\ dvalid s (pl_parity t b) = false) caseB ->
  (forall page, page_ok page -> case_spec d (pl_parity t b) b data
     (fun s => dvalid s d = true /\ dvalid s (pl_parity t b) = true) (caseC page)) ->
  (forall s', write_post l d (pl_parity t b) b data s s' -> Q 0 s') ->
  wp (let! page := kalloc in
      write_begin;;
      acquiresleep ClusterLock;;
      let! loaded := cluster_loaded (cluster_of b) in
      (if loaded : bool then ret 0 else load);;
      releasesleep ClusterLock;;
      let! di := diskinfo d in
      let! dp := diskinfo (pl_parity t b) in
      (if negb (is_valid di) then caseA page
       else if negb (is_valid dp) then caseB
       else caseC page);;
      kfree page;;
      write_end;;
      ret 0) Q s.
Proof.
  intros Hr Hd Hlen Hdk Hb Hload HA HB HC HQ. pose proof (rd_wf _ _ _ Hr) as Hwf.
  destruct Hwf as [Hl Hi Hbl]. destruct (rd_pages _ _ _ Hr) as [Hp Hpl].
  destruct (rd_cluster _ _ _ Hr) as [n Hcl].
  destruct (st_free s) as [|page [|r2 next]] eqn:Hf; [simpl in Hpl; lia|simpl in Hpl; lia|].
  pose proof Hp as [Hpage [Hr2 _]%Forall_cons]%Forall_cons.
  pose proof (cluster_of_range b Hb) as Hc.
  destruct (znth_is_Some l (cluster_of b)) as [x Hx]; [lia|].
  kstep. eapply wp_kalloc; [apply Hl|done|]. kstep. eapply (wp_write_begin l); [apply Hl|done|]. kstep.
  eapply wp_acquiresleep; norm_fields; [solve_lock|solve_lock|done|]. kstep.
  eapply wp_cluster_loaded; [done|exact Hx|]. kstep.
  destruct (Z.eqb_spec x 0) as [->|Hx0]; cbn [negb].
  - eapply Hload; [eapply (raid_wf_ext s); try done; intros k; by apply lookup_insert_ne|apply (rd_type _ _ _ Hr)|done|done|by exists r2, next|].
    intros s1 Hpost.
    pose proof (load_post_frame (cluster_of b) l s 0 _ _ s1 Hpost) as Hpost0.
    pose proof (wf_blocks _ (load_post_wf _ _ _ _ (rd_wf _ _ _ Hr) Hpost0)) as Hwf1.
    destruct Hpost as (D & -> & _). norm_state.
    refine (wp_write_tail F (zset l (cluster_of b) 1) d b D data page (r2 :: next) n
      caseA caseB caseC Q s Hr Hdk Hb Hwf1 Hf Hcl HA HB HC _).
    apply HQ. eexists. split; [done|]. right. split; [|done]. intros (y & Hy & Hy0). congruence.
  - apply wp_ret. refine (wp_write_tail F l d b _ data page (r2 :: next) n
      caseA caseB caseC Q s Hr Hdk Hb Hbl Hf Hcl HA HB HC _). apply HQ. eexists. split; [done|]. left. split; [by exists x|].
    destruct s. simpl in *. unfold set_disk. norm_fields. f_equal. by apply set_data_id.
Qed.

Lemma ready_all_valid F s : ready t F s -> F = ∅ -> forall i, 0 <= i < DISKS -> dvalid s i = true.
Proof.
  intros Hr -> i Hi. rewrite (rd_failed _ _ _ Hr) by done. apply bool_decide_eq_true. set_solver.
Qed.

Lemma ready_one F s : ready t F s -> (forall d e, d ∈ F -> e ∈ F -> d = e) ->
  forall i j, 0 <= i < DISKS -> 0 <= j < DISKS -> dvalid s i = false -> dvalid s j = false -> i = j.
Proof.
  intros Hr Hone i j Hi Hj Hvi Hvj. rewrite (rd_failed _ _ _ Hr), bool_decide_eq_false in Hvi by done.
  rewrite (rd_failed _ _ _ Hr), bool_decide_eq_false in Hvj by done.
  assert (i + 1 = j + 1); [|lia]. apply Hone; by apply dec_stable.
Qed.

(** With at most one failed disk the check for a second one passes. *)
Lemma wp_no_other_invalid F d (Q : bool -> State -> Prop) s : ready t F s ->
  (forall d e, d ∈ F -> e ∈ F -> d = e) -> 0 <= d < DISKS -> dvalid s d = false -> Q false s ->
  wp (other_invalid d (range 0 DISKS)) Q s.
Proof.
  intros Hr Hone Hd Hv HQ.
  apply wp_other_invalid; [apply (rd_wf _ _ _ Hr)|intros i; by rewrite elem_of_range|].
  destruct (existsb _ _) eqn:E; [|done]. exfalso.
  apply existsb_exists in E as (i & Hi & Hiv). apply list_elem_of_In, elem_of_range in Hi.
  apply andb_true_iff in Hiv as [Hne%negb_true_iff%Z.eqb_neq Hiv%negb_true_iff].
  apply Hne. by apply (ready_one F s).
Qed.

Lemma wp_check_failed F d (Q : bool -> State -> Prop) s : ready t F s ->
  (forall d e, d ∈ F -> e ∈ F -> d = e) -> 0 <= d < DISKS -> Q false s ->
  wp (if negb (is_valid (mk_DiskInfo (if dvalid s d then 1 else 0) (d + 1)))
      then other_invalid d (range 0 DISKS) else ret false) Q s.
Proof.
  intros Hr Hone Hd HQ. rewrite is_valid_bool. destruct (dvalid s d) eqn:E; [done|].
  by apply (wp_no_other_invalid F).
Qed.

(** A read of a data block. *)
Lemma wp_parity_read F d b (Q : Z * block -> State -> Prop) data0 s : ready t F s ->
  (forall d e, d ∈ F -> e ∈ F -> d = e) -> 0 <= d < DISKS -> data_row b -> Q (0, lblk s d b) s ->
  wp (let! di := diskinfo d in
      if negb (is_valid di) then
        let! bad := other_invalid d (range 0 DISKS) in
        if bad : bool then ret (ERR, data0)
        else
          acquire_disks;;
          let! data := (let! newpg := kalloc in
                        use_page newpg;;
                        let! parity := xor_others d b in
                        kfree newpg;;
                        ret parity) in
          release_disks;;
          ret (0, data)
      else
        acquiresleep (DiskLock d);;
        let! data := read_block (d + 1) b in
        releasesleep (DiskLock d);;
        ret (0, data)) Q s.
Proof.
  intros Hr Hone Hd Hb HQ. pose proof (rd_wf _ _ _ Hr) as Hwf. pose proof (wf_locks _ Hwf) as Hl.
  unfold data_row in Hb. kstep. eapply wp_diskinfo; [apply diskinfo_at; [apply (wf_info _ Hwf)|done]|].
  rewrite is_valid_bool. unfold lblk in HQ. destruct (dvalid s d) eqn:Ed; cbn [negb].
  - destruct (lf_sleep s Hl d) as [n Hn]; [lia|].
    kstep. eapply wp_acquiresleep; [solve_lock|solve_lock|done|]. kstep.
    apply wp_read_block; [lia|lia|]. kstep.
    eapply wp_unlock; [solve_lock|solve_lock|done|done|]. kstep.
    match goal with |- Q _ ?s' => replace s' with s by state_eq end. exact HQ.
  - apply wp_bind. eapply (wp_no_other_invalid F); try done.
    eapply wp_mono; [apply degraded_read_spec; [done|apply (rd_pages _ _ _ Hr)|lia]|].
    by intros ? ? [-> ->].
Qed.

(** ** The volume *)

(** [vol]: the last data written to each virtual block since the array was
    made; [F]: the failed disks, at most one.  Every block of [vol] is in a
    loaded cluster and is what its row determines. *)
Record parity_vol (vol : gmap Z block) (F : gset Z) (l : list Z) (s : State) : Prop := {
  pv_ready : ready t F s;
  pv_data : rm_data (st_meta s) = DataParity (mk_ParityData l 0 0);
  pv_length : length l = Z.to_nat nclusters;
  pv_bytes : Forall (fun x => 0 <= x < 256) l;
  pv_one : forall d e, d ∈ F -> e ∈ F -> d = e;
  pv_parity : F = ∅ -> forall b, data_row b -> loaded_at l b -> row_ok s b;
  pv_vol : forall v x, vol !! v = Some x ->
    0 <= v < capacity t /\ loaded_at l (pl_row t v) /\ lblk s (pl_disk t v) (pl_row t v) = x;
}.

Lemma loaded_at_zset l c b : 0 <= c < nclusters -> length l = Z.to_nat nclusters ->
  loaded_at (zset l c 1) b <-> cluster_of b = c \/ loaded_at l b.
Proof.
  intros Hc Hlen. unfold loaded_at. destruct (decide (cluster_of b = c)) as [->|Hne].
  - rewrite znth_zset_eq by lia. split; [by left|]. intros _. by exists 1.
  - rewrite znth_zset_ne by done. tauto.
Qed.

(** A row that keeps its blocks keeps what it determines. *)
Lemma lblk_ext s s' d b : (forall i, dvalid s' i = dvalid s i) ->
  (forall e, blk s' e b = blk s e b) -> lblk s' d b = lblk s d b.
Proof.
  intros Hv Hb. unfold lblk. rewrite Hv. case_match; [apply Hb|]. apply xsum_ext. intros. apply Hb.
Qed.

Lemma row_ok_ext s s' b : (forall e, blk s' e b = blk s e b) -> row_ok s b -> row_ok s' b.
Proof.
  intros Hb Hok. unfold row_ok. rewrite <- Hok. apply xsum_ext. intros. apply Hb.
Qed.

(** The rows of other clusters are not touched by a load. *)
Lemma load_post_rest c d s s' b : load_post c d s s' -> data_row b -> cluster_of b <> c ->
  forall e, blk s' e b = blk s e b.
Proof. intros (D & _ & HB) Hb Hc e. rewrite HB by done. by rewrite bool_decide_eq_false_2 by tauto. Qed.

Lemma load_post_row_ok c d s s' b : raid_wf s -> load_post c d s s' -> data_row b -> cluster_of b = c ->
  (forall i, 0 <= i < DISKS -> dvalid s i = true) -> row_ok s' b.
Proof.
  intros Hwf (D & _ & HB) Hb Hc Hv.
  pose proof (pl_parity_range b ltac:(destruct Hb; lia)) as Hp.
  apply (loaded_row_ok (pl_parity t) pl_parity_range s); [apply Hwf|done|done| |].
  - unfold rowf. rewrite HB by done. by rewrite bool_decide_eq_true_2 by auto.
  - intros i Hi. unfold rowf. rewrite HB by done. by rewrite bool_decide_eq_false_2 by lia.
Qed.

Lemma load_vol vol F l s s' c : parity_vol vol F l s -> 0 <= c < nclusters ->
  (forall b, cluster_of b = c -> ~ loaded_at l b) ->
  load_post c (mk_ParityData l 0 0) s s' -> parity_vol vol F (zset l c 1) s'.
Proof.
  intros [Hr Hd Hlen Hbytes Hone Hpar Hvol] Hc Hnl Hpost. pose proof (load_post_wf _ _ _ _ (rd_wf _ _ _ Hr) Hpost) as Hwf'.
  pose proof Hpost as (D & Hs' & _). constructor.
  - destruct Hr. subst s'. constructor; try done. simpl. by rewrite zset_length.
  - by subst s'.
  - by rewrite zset_length.
  - unfold zset. destruct (_ <? 0); [done|]. apply Forall_insert; [done|lia].
  - done.
  - intros HF b Hb [Hcb|Hlb]%loaded_at_zset; try done.
    + eapply (load_post_row_ok c _ s); [exact (rd_wf _ _ _ Hr)|done|done|done|by eapply ready_all_valid].
    + apply (row_ok_ext s); [|by apply Hpar].
      eapply load_post_rest; try done. intros Hcb. by apply (Hnl b).
  - intros v x Hv. destruct (Hvol v x Hv) as (Hvr & Hlv & Hx). split; [done|].
    split; [apply loaded_at_zset; auto|]. rewrite <- Hx. apply lblk_ext; [by subst s'|].
    eapply load_post_rest; [done|by apply pl_row_range|]. intros Hcb. by apply (Hnl (pl_row t v)).
Qed.

Lemma written_vol vol F l s v data : parity_vol vol F l s -> 0 <= v < capacity t -> wf_block data ->
  loaded_at l (pl_row t v) ->
  parity_vol (<[v := data]> vol) F l
    (parity_written s (pl_disk t v) (pl_parity t (pl_row t v)) (pl_row t v) data).
Proof.
  intros [Hr Hd Hlen Hbytes Hone Hpar Hvol] Hv Hdata Hl.
  pose proof (pl_disk_range v Hv) as Hdk. pose proof (pl_row_range v Hv) as Hrow.
  pose proof (pl_disk_parity v Hv) as Hdp. pose proof (wf_blocks _ (rd_wf _ _ _ Hr)) as Hwf.
  pose proof (ready_one F s Hr Hone) as Hone'.
  constructor; try done.
  - rewrite parity_written_eq. apply ready_set_disk; [done|]. by apply (written_wf (pl_parity t)).
  - by rewrite parity_written_meta.
  - intros HF b Hb Hlb. apply (written_row_ok (pl_parity t) pl_parity_range); try done; [by eapply ready_all_valid|auto].
  - intros w x. destruct (decide (v = w)) as [<-|Hvw].
    + rewrite lookup_insert_eq. intros [= <-]. split; [done|]. split; [done|].
      by apply (written_same (pl_parity t) pl_parity_range).
    + rewrite lookup_insert_ne by done. intros Hw. destruct (Hvol w x Hw) as (Hwr & Hlw & Hx).
      split; [done|]. split; [done|]. rewrite <- Hx.
      apply (written_other (pl_parity t) pl_parity_range); try done; [by apply pl_disk_range|by apply pl_row_range|by apply pl_disk_parity|].
      intros [= Hd1 Hr1]. apply Hvw. by apply (pl_inj v w).
Qed.

Lemma write_vol vol F l s s' v data : parity_vol vol F l s -> 0 <= v < capacity t -> wf_block data ->
  write_post l (pl_disk t v) (pl_parity t (pl_row t v)) (pl_row t v) data s s' ->
  exists l', parity_vol (<[v := data]> vol) F l' s'.
Proof.
  intros Hpv Hv Hdata (s1 & -> & [[Hl ->]|[Hl Hpost]]).
  - exists l. by apply written_vol.
  - pose proof (cluster_of_range _ (pl_row_range v Hv)) as Hc.
    exists (zset l (cluster_of (pl_row t v)) 1). apply written_vol; try done.
    + eapply load_vol; try done. intros b Hb. unfold loaded_at. by rewrite Hb.
    + apply loaded_at_zset; [done|by apply (pv_length _ _ _ _ Hpv)|by left].
Qed.

End volume.
