(* ===== verification/Raid4.v ===== *)
(** * RAID4: kernel/raid4.c

    Striping over the disks 1 to DISKS-1 with the parity of each row on disk
    DISKS.  The parity of a cluster of rows is computed at the first write to
    the cluster ([loadclusterraid4]). *)

From stdpp Require Import base numbers list sets gmap strings.
From Stdlib Require Import ZArith Lia.
From S2P Require Import Prelude Blocks Monad State Locks Kalloc Codec MetaImage RaidCore ParityArray ParityVolume.
Open Scope Z_scope.

Section raid4.
Context `{Config}.

Definition loadclusterraid4 (clustern : Z) : K Z :=
  let! type := gets (fun s => rm_type (st_meta s)) in
  if negb (type =? RAID4) then panic "wrong raid function called"
  else if nclusters <=? clustern then panic "Wrong cluster number in loading..."
  else
    let! page := kalloc in
    acquire_disks;;
    let startblock := u64 (clustern * CLUSTER_SIZE) in
    forM (range startblock (startblock + CLUSTER_SIZE)) (fun i =>
      use_page page;;
      let! parity := foldM (range 0 (DISKS - 1)) zblk (fun parity diskn =>
        let! d := diskinfo diskn in
        if is_valid d then
          let! data := read_block (di_diskn d) i in
          ret (bxor parity data)
        else ret parity) in
      let! d := diskinfo (DISKS - 1) in
      when (is_valid d) (write_block DISKS i parity));;
    mark_loaded clustern;;
    release_disks;;
    writeraidmeta;;
    kfree page;;
    ret 0.

(** Reads the block of a failed disk from the other disks. *)
Definition readinvalidraid4 (diskn blockn : Z) : K block :=
  let! newpg := kalloc in
  use_page newpg;;
  let! parity := xor_others diskn blockn in
  kfree newpg;;
  ret parity.

Definition raid4read (vblkn : Z) (data : block) : K (Z * block) :=
  let! bad := enter_level RAID4 vblkn in
  if bad : bool then ret (ERR, data)
  else
    let diskn := u64 (Z.rem vblkn (DISKS - 1)) in
    let pblkn := u64 (Z.quot vblkn (DISKS - 1)) in
    let! d := diskinfo diskn in
    if negb (is_valid d) then
      let! bad := other_invalid diskn (range 0 DISKS) in
      if bad : bool then ret (ERR, data)
      else
        acquire_disks;;
        let! data := readinvalidraid4 (i32 diskn) (i32 pblkn) in
        release_disks;;
        ret (0, data)
    else
      acquiresleep (DiskLock diskn);;
      let! data := read_block (i32 (diskn + 1)) (i32 pblkn) in
      releasesleep (DiskLock diskn);;
      ret (0, data).

(** The three cases of a write, after the cluster is loaded: the data disk has
    failed, the parity disk has failed, neither has. *)
Definition raid4write_data_failed (page diskn pblkn : Z) (data : block) : K unit :=
  acquire_disks;;
  let! prevdata := readinvalidraid4 (i32 diskn) (i32 pblkn) in
  use_page page;;
  let! parity := read_block DISKS (i32 pblkn) in
  let parity := bxor parity (bxor prevdata data) in
  write_block DISKS (i32 pblkn) parity;;
  release_disks.

Definition raid4write_parity_failed (diskn pblkn : Z) (data : block) : K unit :=
  acquiresleep (DiskLock diskn);;
  write_block (i32 (diskn + 1)) (i32 pblkn) data;;
  releasesleep (DiskLock diskn).

Definition raid4write_both (page diskn pblkn : Z) (data : block) : K unit :=
  acquiresleep (DiskLock diskn);;
  acquiresleep (DiskLock (DISKS - 1));;
  use_page page;;
  let! prevdata := read_block (i32 (diskn + 1)) (i32 pblkn) in
  let! parity := read_block DISKS (i32 pblkn) in
  let parity := bxor parity (bxor prevdata data) in
  write_block (i32 (diskn + 1)) (i32 pblkn) data;;
  write_block DISKS (i32 pblkn) parity;;
  releasesleep (DiskLock (DISKS - 1));;
  releasesleep (DiskLock diskn).

Definition raid4write (vblkn : Z) (data : block) : K Z :=
  let! bad := enter_level RAID4 vblkn in
  if bad : bool then ret ERR
  else
    let diskn := u64 (Z.rem vblkn (DISKS - 1)) in
    let pblkn := u64 (Z.quot vblkn (DISKS - 1)) in
    let! d := diskinfo diskn in
    let! bad := (if negb (is_valid d) then other_invalid diskn (range 0 DISKS) else ret false) in
    if bad : bool then ret ERR
    else
      let clustern := pblkn / CLUSTER_SIZE in
      let! page := kalloc in
      write_begin;;
      acquiresleep ClusterLock;;
      let! loaded := cluster_loaded clustern in
      (if loaded : bool then ret 0 else loadclusterraid4 clustern);;
      releasesleep ClusterLock;;
      let! d := diskinfo diskn in
      let! dp := diskinfo (DISKS - 1) in
      (if negb (is_valid d) then raid4write_data_failed page diskn pblkn data
       else if negb (is_valid dp) then raid4write_parity_failed diskn pblkn data
       else raid4write_both page diskn pblkn data);;
      kfree page;;
      write_end;;
      ret 0.

(** ** Specifications *)

Context `{!ConfigOK}.

#[export] Instance raid4_layout : ParityLayout RAID4 := {|
  pl_parity b := DISKS - 1;
  pl_disk v := v mod (DISKS - 1);
  pl_row v := v / (DISKS - 1);
|}.

#[export] Instance raid4_layout_ok : ParityLayoutOK RAID4.
Proof.
  pose proof DISKS_range as HD. pose proof diskblockn_range as Hb.
  change (capacity RAID4) with (diskblockn * (DISKS - 1)).
  constructor; simpl; change (capacity RAID4) with (diskblockn * (DISKS - 1)).
  - lia.
  - intros v Hv. pose proof (Z.mod_pos_bound v (DISKS - 1)). nia.
  - intros v Hv. split; [apply Z.div_pos; nia|apply Z.div_lt_upper_bound; nia].
  - intros v Hv. pose proof (Z.mod_pos_bound v (DISKS - 1)). nia.
  - intros v w Hv Hw Hm Hq. rewrite (Z.div_mod v (DISKS - 1)), (Z.div_mod w (DISKS - 1)) by nia. congruence.
Qed.

Abbreviation disk4 := (pl_disk RAID4).
Abbreviation row4 := (pl_row RAID4).

(** The address the code computes is the layout's. *)
Lemma raid4_addr v : 0 <= v < capacity RAID4 ->
  u64 (Z.rem v (DISKS - 1)) = disk4 v /\ u64 (Z.quot v (DISKS - 1)) = row4 v /\
  i32 (disk4 v) = disk4 v /\ i32 (row4 v) = row4 v /\ i32 (disk4 v + 1) = disk4 v + 1.
Proof.
  intros Hv. pose proof (pl_disk_range v Hv) as Hd. pose proof (pl_row_range v Hv) as Hr.
  pose proof DISKS_range. pose proof diskblockn_range. unfold data_row in Hr.
  assert (DISKS <> 1). { intros E. unfold capacity in Hv. simpl in Hv. rewrite E in Hv. lia. }
  rewrite Z.rem_mod_nonneg, Z.quot_div_nonneg by lia.
  change (v mod (DISKS - 1)) with (disk4 v). change (v / (DISKS - 1)) with (row4 v).
  rewrite !u64_small, !i32_small by lia. done.
Qed.

Lemma raid4_load_body page i (s : State) : info_wf (rm_diskinfo (st_meta s)) -> page_ok page ->
  0 <= i <= diskblockn ->
  wp (use_page page;;
      let! parity := foldM (range 0 (DISKS - 1)) zblk (fun parity diskn =>
        let! d := diskinfo diskn in
        if is_valid d then
          let! data := read_block (di_diskn d) i in
          ret (bxor parity data)
        else ret parity) in
      let! d := diskinfo (DISKS - 1) in
      when (is_valid d) (write_block DISKS i parity))
    (fun _ s' => s' = set_disk
       (if dvalid s (DISKS - 1) then <[(DISKS - 1 + 1, i) := row_parity s (DISKS - 1) i]> (st_disk s)
        else st_disk s) s) s.
Proof.
  intros Hi Hp Hb. pose proof DISKS_range. wp_steps. apply wp_use_page; [done|]. wp_steps.
  apply (wp_xor_cond (fun d _ => is_valid d)); [done|intros k Hk%elem_of_range; lia|lia|].
  rewrite (list_filter_iff _ (fun k => dvalid s k = true)) by (intros; by rewrite is_valid_bool).
  wp_steps. eapply wp_diskinfo; [apply diskinfo_at; [done|lia]|]. rewrite is_valid_bool.
  apply wp_when; intros ->; [|by rewrite set_disk_id].
  apply wp_write_block; [lia|lia|]. unfold row_parity. rewrite others_last.
  by replace (DISKS - 1 + 1) with DISKS by lia.
Qed.

Lemma loadclusterraid4_spec c : 0 <= c < nclusters -> load_spec RAID4 c (loadclusterraid4 c).
Proof.
  intros Hc d s Q Hwf Ht Hd Hlen (r & next & Hf & Hr) HQ. unfold loadclusterraid4. wp_steps.
  rewrite Ht. simpl. destruct (Z.leb_spec nclusters c); [lia|].
  eapply (wp_loadcluster RAID4 c d r next (fun page i => _)); try done.
  intros i s' Hi Hm Hb. apply raid4_load_body; [rewrite Hm; apply (wf_info _ Hwf)|done|done].
Qed.

(** The three cases of a write. *)

Lemma raid4write_data_failed_spec v data page : 0 <= v < capacity RAID4 -> page_ok page ->
  case_spec (disk4 v) (DISKS - 1) (row4 v) data (fun s => dvalid s (disk4 v) = false)
    (raid4write_data_failed page (disk4 v) (row4 v) data).
Proof.
  intros Hv Hpage s Q [Hl Hi Hb] (r & next & Hf & Hr) Hd HQ.
  destruct (raid4_addr v Hv) as (_ & _ & Ed & Er & Ed1).
  pose proof (pl_row_range v Hv) as Hrow. unfold data_row in Hrow. pose proof DISKS_range.
  unfold raid4write_data_failed. rewrite Ed, Er.
  kstep. apply wp_acquire_disks; [done|]. intros m Hm.
  apply wp_bind. eapply (readinvalid_spec _ _ r next); try done; [apply Hl|lia|].
  kstep. apply wp_use_page; [done|]. kstep.
  apply wp_read_block; [lia|lia|]. kstep. apply wp_write_block; [lia|lia|]. kstep.
  eapply (wp_release_disks m _ s); try done.
  unfold parity_written, new_parity, lblk in HQ. rewrite Hd in HQ. simpl in HQ.
  replace (DISKS - 1 + 1) with DISKS in HQ by lia. exact HQ.
Qed.

Lemma raid4write_parity_failed_spec v data : 0 <= v < capacity RAID4 ->
  case_spec (disk4 v) (DISKS - 1) (row4 v) data
    (fun s => dvalid s (disk4 v) = true /\ dvalid s (DISKS - 1) = false)
    (raid4write_parity_failed (disk4 v) (row4 v) data).
Proof.
  intros Hv s Q [Hl Hi Hb] _ [Hd Hp] HQ.
  destruct (raid4_addr v Hv) as (_ & _ & Ed & Er & Ed1).
  pose proof (pl_disk_range v Hv) as Hdk.
  pose proof (pl_row_range v Hv) as Hrow. unfold data_row in Hrow. pose proof DISKS_range.
  destruct (lf_sleep s Hl (disk4 v)) as [n Hn]; [lia|].
  unfold raid4write_parity_failed. rewrite Er, Ed1.
  kstep. eapply wp_acquiresleep; [solve_lock|solve_lock|done|]. kstep.
  apply wp_write_block; [lia|lia|]. kstep.
  eapply wp_releasesleep; norm_fields; [solve_lock|solve_lock|by rewrite lookup_insert_eq|].
  unfold parity_written in HQ. rewrite Hd, Hp in HQ. simpl in HQ.
  rewrite insert_insert_eq, insert_id by done. exact HQ.
Qed.

Lemma raid4write_both_spec v data page : 0 <= v < capacity RAID4 -> page_ok page ->
  case_spec (disk4 v) (DISKS - 1) (row4 v) data
    (fun s => dvalid s (disk4 v) = true /\ dvalid s (DISKS - 1) = true)
    (raid4write_both page (disk4 v) (row4 v) data).
Proof.
  intros Hv Hpage s Q [Hl Hi Hb] _ [Hd Hp] HQ.
  destruct (raid4_addr v Hv) as (_ & _ & Ed & Er & Ed1).
  pose proof (pl_disk_range v Hv) as Hdk. pose proof (pl_disk_parity v Hv) as Hdp. simpl in Hdp.
  pose proof (pl_row_range v Hv) as Hrow. unfold data_row in Hrow. pose proof DISKS_range.
  destruct (lf_sleep s Hl (disk4 v)) as [n Hn]; [lia|].
  destruct (lf_sleep s Hl (DISKS - 1)) as [n' Hn']; [lia|].
  unfold raid4write_both. rewrite Er, Ed1.
  apply wp_bind_assoc, wp_bind. eapply wp_acquire_two; [done|lia|lia|done|done|done|].
  kstep. apply wp_use_page; [done|]. kstep.
  apply wp_read_block; [lia|lia|]. kstep. apply wp_read_block; [lia|lia|]. kstep.
  apply wp_write_block; [lia|lia|]. kstep. apply wp_write_block; [lia|lia|]. norm_state.
  eapply (wp_release_two (disk4 v) (DISKS - 1) n n' _ _ s); try done.
  { lia. }
  unfold parity_written, new_parity, lblk in HQ. rewrite Hd, Hp in HQ. simpl in HQ.
  replace (DISKS - 1 + 1) with DISKS in HQ by lia. exact HQ.
Qed.

(** ** Reading and writing *)

Lemma raid4read_spec F v data0 s : ready RAID4 F s -> (forall d e, d ∈ F -> e ∈ F -> d = e) ->
  0 <= v < capacity RAID4 ->
  wp (raid4read v data0) (fun r s' => s' = s /\ r = (0, lblk s (disk4 v) (row4 v))) s.
Proof.
  intros Hr Hone Hv. destruct (raid4_addr v Hv) as (E1 & E2 & E3 & E4 & E5).
  unfold raid4read, readinvalidraid4. apply wp_bind. eapply wp_enter_level; [done|done|done|].
  rewrite E1, E2, E3, E4, E5.
  by apply (wp_parity_read RAID4 F); [| |apply pl_disk_range|apply pl_row_range|].
Qed.

Lemma raid4write_spec F l v data s : ready RAID4 F s -> (forall d e, d ∈ F -> e ∈ F -> d = e) ->
  rm_data (st_meta s) = DataParity (mk_ParityData l 0 0) -> length l = Z.to_nat nclusters ->
  0 <= v < capacity RAID4 ->
  wp (raid4write v data) (fun r s' => r = 0 /\
    write_post RAID4 l (disk4 v) (DISKS - 1) (row4 v) data s s') s.
Proof.
  intros Hr Hone Hd Hlen Hv. destruct (raid4_addr v Hv) as (E1 & E2 & E3 & E4 & E5).
  pose proof (pl_disk_range v Hv) as Hdk. pose proof (pl_row_range v Hv) as Hrow.
  unfold raid4write. apply wp_bind. eapply wp_enter_level; [done|done|done|]. rewrite E1, E2.
  apply wp_bind. eapply wp_diskinfo; [apply diskinfo_at; [apply (wf_info _ (rd_wf _ _ _ Hr))|done]|].
  apply wp_bind. apply (wp_check_failed RAID4 F); [done|done|done|].
  change (row4 v / CLUSTER_SIZE) with (cluster_of (row4 v)). cbv beta iota zeta.
  change (DISKS - 1) with (pl_parity RAID4 (row4 v)).
  apply (wp_parity_write RAID4 F l (disk4 v) (row4 v) data
    (loadclusterraid4 (cluster_of (row4 v)))
    (fun page => raid4write_data_failed page (disk4 v) (row4 v) data)
    (raid4write_parity_failed (disk4 v) (row4 v) data)
    (fun page => raid4write_both page (disk4 v) (row4 v) data)).
  1-5: done.
  - by apply loadclusterraid4_spec, cluster_of_range.
  - intros. by apply raid4write_data_failed_spec.
  - by apply raid4write_parity_failed_spec.
  - intros. by apply raid4write_both_spec.
  - done.
Qed.

End raid4.
