(* ===== verification/Raid5.v ===== *)
(** * RAID5: kernel/raid5.c

    Striping with rotating parity: the parity of row [r] is on disk
    [r % DISKS + 1], the data blocks of the row follow it cyclically. *)

From stdpp Require Import base numbers list sets gmap strings.
From Stdlib Require Import ZArith Lia.
From S2P Require Import Prelude Blocks Monad State Locks Kalloc Codec MetaImage RaidCore ParityArray ParityVolume.
Open Scope Z_scope.

Section raid5.
Context `{Config}.

Definition loadclusterraid5 (clustern : Z) : K Z :=
  let! type := gets (fun s => rm_type (st_meta s)) in
  if negb (type =? RAID5) then panic "wrong raid function called"
  else if nclusters <=? clustern then panic "Wrong cluster number in loading..."
  else
    let! page := kalloc in
    acquire_disks;;
    let startblock := u64 (clustern * CLUSTER_SIZE) in
    forM (range startblock (startblock + CLUSTER_SIZE)) (fun i =>
      use_page page;;
      let paritydiskn := u32 (Z.rem i DISKS) in
      let! parity := foldM (range 0 DISKS) zblk (fun parity diskn =>
        let! d := diskinfo diskn in
        if is_valid d && negb (diskn =? paritydiskn) then
          let! data := read_block (di_diskn d) i in
          ret (bxor parity data)
        else ret parity) in
      let! d := diskinfo paritydiskn in
      when (is_valid d) (write_block (di_diskn d) i parity));;
    mark_loaded clustern;;
    release_disks;;
    writeraidmeta;;
    kfree page;;
    ret 0.

(** Reads the block of a failed disk from the other disks. *)
Definition readinvalidraid5 (diskn blockn : Z) : K block :=
  let! newpg := kalloc in
  use_page newpg;;
  let! parity := xor_others diskn blockn in
  kfree newpg;;
  ret parity.

(** Where a virtual block lives. *)
Definition stripe_of (vblkn : Z) : Z := u64 (Z.quot vblkn (DISKS - 1)).
Definition paritydiskn_of (vblkn : Z) : Z := stripe_of vblkn mod DISKS.
Definition stripepos_of (vblkn : Z) : Z := u64 (Z.rem vblkn (DISKS - 1)).
Definition diskn_of (vblkn : Z) : Z := u64 (paritydiskn_of vblkn + 1 + stripepos_of vblkn) mod DISKS.

Definition raid5read (vblkn : Z) (data : block) : K (Z * block) :=
  let! bad := enter_level RAID5 vblkn in
  if bad : bool then ret (ERR, data)
  else
    let stripe := stripe_of vblkn in
    let diskn := diskn_of vblkn in
    let! d := diskinfo diskn in
    if negb (is_valid d) then
      let! bad := other_invalid diskn (range 0 DISKS) in
      if bad : bool then ret (ERR, data)
      else
        acquire_disks;;
        let! data := readinvalidraid5 (i32 diskn) (i32 stripe) in
        release_disks;;
        ret (0, data)
    else
      acquiresleep (DiskLock diskn);;
      let! data := read_block (i32 (diskn + 1)) (i32 stripe) in
      releasesleep (DiskLock diskn);;
      ret (0, data).

Definition raid5write_data_failed (page diskn paritydiskn stripe : Z) (data : block) : K unit :=
  acquire_disks;;
  let! prevdata := readinvalidraid5 (i32 diskn) (i32 stripe) in
  use_page page;;
  let! dp := diskinfo paritydiskn in
  let! parity := read_block (di_diskn dp) (i32 stripe) in
  let parity := bxor parity (bxor prevdata data) in
  write_block (di_diskn dp) (i32 stripe) parity;;
  release_disks.

Definition raid5write_parity_failed (diskn stripe : Z) (data : block) : K unit :=
  acquiresleep (DiskLock diskn);;
  write_block (i32 (diskn + 1)) (i32 stripe) data;;
  releasesleep (DiskLock diskn).

(** The two disk locks are taken in increasing order of the disk number. *)
Definition raid5write_both (page diskn paritydiskn stripe : Z) (data : block) : K unit :=
  (if diskn <? paritydiskn
   then acquiresleep (DiskLock diskn);; acquiresleep (DiskLock paritydiskn)
   else acquiresleep (DiskLock paritydiskn);; acquiresleep (DiskLock diskn));;
  use_page page;;
  let! dp := diskinfo paritydiskn in
  let! prevdata := read_block (i32 (diskn + 1)) (i32 stripe) in
  let! parity := read_block (di_diskn dp) (i32 stripe) in
  let parity := bxor parity (bxor prevdata data) in
  write_block (i32 (diskn + 1)) (i32 stripe) data;;
  write_block (di_diskn dp) (i32 stripe) parity;;
  (if diskn <? paritydiskn
   then releasesleep (DiskLock paritydiskn);; releasesleep (DiskLock diskn)
   else releasesleep (DiskLock diskn);; releasesleep (DiskLock paritydiskn)).

Definition raid5write (vblkn : Z) (data : block) : K Z :=
  let! bad := enter_level RAID5 vblkn in
  if bad : bool then ret ERR
  else
    let stripe := stripe_of vblkn in
    let paritydiskn := paritydiskn_of vblkn in
    let diskn := diskn_of vblkn in
    let! d := diskinfo diskn in
    let! bad := (if negb (is_valid d) then other_invalid diskn (range 0 DISKS) else ret false) in
    if bad : bool then ret ERR
    else
      let clustern := stripe / CLUSTER_SIZE in
      let! page := kalloc in
      write_begin;;
      acquiresleep ClusterLock;;
      let! loaded := cluster_loaded clustern in
      (if loaded : bool then ret 0 else loadclusterraid5 clustern);;
      releasesleep ClusterLock;;
      let! d := diskinfo diskn in
      let! dp := diskinfo paritydiskn in
      (if negb (is_valid d) then raid5write_data_failed page diskn paritydiskn stripe data
       else if negb (is_valid dp) then raid5write_parity_failed diskn stripe data
       else raid5write_both page diskn paritydiskn stripe data);;
      kfree page;;
      write_end;;
      ret 0.

(** ** Specifications *)

Context `{!ConfigOK}.

#[export] Instance raid5_layout : ParityLayout RAID5 := {|
  pl_parity b := b mod DISKS;
  pl_disk v := ((v / (DISKS - 1)) mod DISKS + 1 + v mod (DISKS - 1)) mod DISKS;
  pl_row v := v / (DISKS - 1);
|}.

(** Rotating by [p + 1] places sends the positions of a stripe one to one to
    the disks other than [p]. *)
Lemma rotate_ne n p x : 0 <= p < n -> 0 <= x < n - 1 -> (p + 1 + x) mod n <> p.
Proof.
  intros Hp Hx. destruct (Z.lt_ge_cases (p + 1 + x) n).
  - rewrite Z.mod_small; lia.
  - rewrite <- (Z.mod_unique_pos (p + 1 + x) n 1 (p + 1 + x - n)); lia.
Qed.

Lemma rotate_inj n p x y : 0 <= p < n -> 0 <= x < n - 1 -> 0 <= y < n - 1 ->
  (p + 1 + x) mod n = (p + 1 + y) mod n -> x = y.
Proof.
  intros Hp Hx Hy.
  assert (Hm : forall z, 0 <= z < n - 1 ->
    (p + 1 + z) mod n = p + 1 + z \/ (p + 1 + z) mod n = p + 1 + z - n).
  { intros z Hz. destruct (Z.lt_ge_cases (p + 1 + z) n).
    - left. apply Z.mod_small. lia.
    - right. symmetry. apply (Z.mod_unique_pos _ n 1); lia. }
  destruct (Hm x Hx) as [-> | ->], (Hm y Hy) as [-> | ->]; lia.
Qed.

#[export] Instance raid5_layout_ok : ParityLayoutOK RAID5.
Proof.
  pose proof DISKS_range as HD. pose proof diskblockn_range as Hb.
  constructor; simpl; change (capacity RAID5) with (diskblockn * (DISKS - 1)).
  - intros. apply Z.mod_pos_bound. lia.
  - intros v Hv. apply Z.mod_pos_bound. lia.
  - intros v Hv. split; [apply Z.div_pos; nia|apply Z.div_lt_upper_bound; nia].
  - intros v Hv. apply rotate_ne; apply Z.mod_pos_bound; nia.
  - intros v w Hv Hw Hm Hq. rewrite (Z.div_mod v (DISKS - 1)), (Z.div_mod w (DISKS - 1)) by nia.
    rewrite Hq in *. f_equal. eapply (rotate_inj DISKS); [| | |exact Hm]; apply Z.mod_pos_bound; nia.
Qed.

Abbreviation disk5 := (pl_disk RAID5).
Abbreviation row5 := (pl_row RAID5).
Abbreviation par5 v := (pl_parity RAID5 (row5 v)).

(** The address the code computes is the layout's. *)
Lemma raid5_addr v : 0 <= v < capacity RAID5 ->
  diskn_of v = disk5 v /\ stripe_of v = row5 v /\ paritydiskn_of v = par5 v /\
  i32 (disk5 v) = disk5 v /\ i32 (row5 v) = row5 v /\ i32 (disk5 v + 1) = disk5 v + 1.
Proof.
  intros Hv. pose proof (pl_disk_range v Hv) as Hd. pose proof (pl_row_range v Hv) as Hr.
  pose proof DISKS_range. pose proof diskblockn_range. unfold data_row in Hr.
  assert (DISKS <> 1). { intros E. unfold capacity in Hv. simpl in Hv. rewrite E in Hv. lia. }
  assert (Es : stripe_of v = row5 v).
  { unfold stripe_of. rewrite Z.quot_div_nonneg by lia. apply u64_small. simpl in *. lia. }
  assert (Ep : paritydiskn_of v = par5 v) by (unfold paritydiskn_of; by rewrite Es).
  assert (Ed : diskn_of v = disk5 v).
  { unfold diskn_of, stripepos_of. rewrite Ep, Z.rem_mod_nonneg by lia.
    assert (0 <= v mod (DISKS - 1) < DISKS - 1) by (apply Z.mod_pos_bound; lia).
    assert (0 <= par5 v < DISKS) by (apply pl_parity_range; lia).
    rewrite (u64_small (v mod _)) by lia. rewrite u64_small by lia. done. }
  rewrite !i32_small by lia. done.
Qed.

Lemma raid5_load_body page i (s : State) : info_wf (rm_diskinfo (st_meta s)) -> page_ok page ->
  0 <= i <= diskblockn ->
  wp (use_page page;;
      let paritydiskn := u32 (Z.rem i DISKS) in
      let! parity := foldM (range 0 DISKS) zblk (fun parity diskn =>
        let! d := diskinfo diskn in
        if is_valid d && negb (diskn =? paritydiskn) then
          let! data := read_block (di_diskn d) i in
          ret (bxor parity data)
        else ret parity) in
      let! d := diskinfo paritydiskn in
      when (is_valid d) (write_block (di_diskn d) i parity))
    (fun _ s' => s' = set_disk
       (if dvalid s (pl_parity RAID5 i)
        then <[(pl_parity RAID5 i + 1, i) := row_parity s (pl_parity RAID5 i) i]> (st_disk s)
        else st_disk s) s) s.
Proof.
  intros Hi Hp Hb. pose proof DISKS_range. 
  assert (Hpr : 0 <= pl_parity RAID5 i < DISKS) by (apply pl_parity_range; lia).
  assert (Ep : u32 (Z.rem i DISKS) = pl_parity RAID5 i).
  { rewrite Z.rem_mod_nonneg by lia. apply u32_small. simpl in *. lia. }
  rewrite Ep. cbv zeta. wp_steps. apply wp_use_page; [done|]. wp_steps.
  apply (wp_xor_cond (fun d k => is_valid d && negb (k =? pl_parity RAID5 i)));
    [done|intros k Hk%elem_of_range; lia|lia|].
  replace (filter _ _) with (filter (fun k => dvalid s k = true) (others (pl_parity RAID5 i) (range 0 DISKS))).
  2:{ unfold others. rewrite list_filter_filter. apply list_filter_iff. intros k.
      rewrite is_valid_bool, andb_true_iff, negb_true_iff, Z.eqb_neq. done. }
  wp_steps. eapply wp_diskinfo; [by apply diskinfo_at|]. rewrite is_valid_bool.
  apply wp_when; intros ->; [|by rewrite set_disk_id].
  cbn [di_diskn]. apply wp_write_block; [lia|lia|done].
Qed.

Lemma loadclusterraid5_spec c : 0 <= c < nclusters -> load_spec RAID5 c (loadclusterraid5 c).
Proof.
  intros Hc d s Q Hwf Ht Hd Hlen (r & next & Hf & Hr) HQ. unfold loadclusterraid5. wp_steps.
  rewrite Ht. simpl. destruct (Z.leb_spec nclusters c); [lia|].
  eapply (wp_loadcluster RAID5 c d r next (fun page i => _)); try done.
  intros i s' Hi Hm Hb. apply raid5_load_body; [rewrite Hm; apply (wf_info _ Hwf)|done|done].
Qed.

(** The three cases of a write. *)

Lemma raid5write_data_failed_spec v data page : 0 <= v < capacity RAID5 -> page_ok page ->
  case_spec (disk5 v) (par5 v) (row5 v) data (fun s => dvalid s (disk5 v) = false)
    (raid5write_data_failed page (disk5 v) (par5 v) (row5 v) data).
Proof.
  intros Hv Hpage s Q [Hl Hi Hb] (r & next & Hf & Hr) Hd HQ.
  destruct (raid5_addr v Hv) as (_ & _ & _ & Ed & Er & Ed1).
  pose proof (pl_row_range v Hv) as Hrow. unfold data_row in Hrow. pose proof DISKS_range.
  assert (Hp : 0 <= par5 v < DISKS) by (apply pl_parity_range; lia).
  unfold raid5write_data_failed. rewrite Ed, Er.
  kstep. apply wp_acquire_disks; [done|]. intros m Hm.
  apply wp_bind. eapply (readinvalid_spec _ _ r next); try done; [apply Hl|lia|].
  kstep. apply wp_use_page; [done|]. kstep. eapply wp_diskinfo; [by apply (diskinfo_at s)|]. kstep.
  cbn [di_diskn].
  apply wp_read_block; [lia|lia|]. kstep. apply wp_write_block; [lia|lia|]. kstep.
  eapply (wp_release_disks m _ s); try done.
  unfold parity_written, new_parity, lblk in HQ. rewrite Hd in HQ. exact HQ.
Qed.

Lemma raid5write_parity_failed_spec v data : 0 <= v < capacity RAID5 ->
  case_spec (disk5 v) (par5 v) (row5 v) data
    (fun s => dvalid s (disk5 v) = true /\ dvalid s (par5 v) = false)
    (raid5write_parity_failed (disk5 v) (row5 v) data).
Proof.
  intros Hv s Q [Hl Hi Hb] _ [Hd Hp] HQ.
  destruct (raid5_addr v Hv) as (_ & _ & _ & Ed & Er & Ed1).
  pose proof (pl_disk_range v Hv) as Hdk.
  pose proof (pl_row_range v Hv) as Hrow. unfold data_row in Hrow. pose proof DISKS_range.
  destruct (lf_sleep s Hl (disk5 v)) as [n Hn]; [lia|].
  unfold raid5write_parity_failed. rewrite Er, Ed1.
  kstep. eapply wp_acquiresleep; [solve_lock|solve_lock|done|]. kstep.
  apply wp_write_block; [lia|lia|]. kstep.
  eapply wp_unlock; [solve_lock|solve_lock|done|done|].
  unfold parity_written in HQ. rewrite Hd, Hp in HQ. exact HQ.
Qed.

(** The body of the last case, between the acquisition of the two locks in
    either order and their release. *)
Lemma raid5write_both_spec v data page : 0 <= v < capacity RAID5 -> page_ok page ->
  case_spec (disk5 v) (par5 v) (row5 v) data
    (fun s => dvalid s (disk5 v) = true /\ dvalid s (par5 v) = true)
    (raid5write_both page (disk5 v) (par5 v) (row5 v) data).
Proof.
  intros Hv Hpage s Q [Hl Hi Hb] _ [Hd Hp] HQ.
  destruct (raid5_addr v Hv) as (_ & _ & _ & Ed & Er & Ed1).
  pose proof (pl_disk_range v Hv) as Hdk. pose proof (pl_disk_parity v Hv) as Hdp.
  pose proof (pl_row_range v Hv) as Hrow. unfold data_row in Hrow. pose proof DISKS_range.
  assert (Hpr : 0 <= par5 v < DISKS) by (apply pl_parity_range; lia).
  destruct (lf_sleep s Hl (disk5 v)) as [n Hn]; [lia|].
  destruct (lf_sleep s Hl (par5 v)) as [n' Hn']; [lia|].
  unfold parity_written, new_parity, lblk in HQ. rewrite Hd, Hp in HQ. cbn [negb] in HQ.
  unfold raid5write_both. rewrite Er, Ed1. destruct (disk5 v <? par5 v);
    (apply wp_bind; eapply wp_acquire_two; [done|done|done|done|done|done|]);
    (kstep; apply wp_use_page; [done|]); (kstep; eapply wp_diskinfo; [by apply (diskinfo_at s)|]);
    (kstep; cbn [di_diskn]; apply wp_read_block; [lia|lia|]); (kstep; apply wp_read_block; [lia|lia|]);
    (kstep; apply wp_write_block; [lia|lia|]); (kstep; apply wp_write_block; [lia|lia|]); norm_state.
  - eapply (wp_release_two (disk5 v) (par5 v) n n' _ _ s); done.
  - eapply (wp_release_two (par5 v) (disk5 v) n' n _ _ s); done.
Qed.

(** ** Reading and writing *)

Lemma raid5read_spec F v data0 s : ready RAID5 F s -> (forall d e, d ∈ F -> e ∈ F -> d = e) ->
  0 <= v < capacity RAID5 ->
  wp (raid5read v data0) (fun r s' => s' = s /\ r = (0, lblk s (disk5 v) (row5 v))) s.
Proof.
  intros Hr Hone Hv. destruct (raid5_addr v Hv) as (E1 & E2 & E3 & E4 & E5 & E6).
  unfold raid5read, readinvalidraid5. apply wp_bind. eapply wp_enter_level; [done|done|done|].
  rewrite E1, E2, E4, E5, E6.
  by apply (wp_parity_read RAID5 F); [| |apply pl_disk_range|apply pl_row_range|].
Qed.

Lemma raid5write_spec F l v data s : ready RAID5 F s -> (forall d e, d ∈ F -> e ∈ F -> d = e) ->
  rm_data (st_meta s) = DataParity (mk_ParityData l 0 0) -> length l = Z.to_nat nclusters ->
  0 <= v < capacity RAID5 ->
  wp (raid5write v data) (fun r s' => r = 0 /\
    write_post RAID5 l (disk5 v) (par5 v) (row5 v) data s s') s.
Proof.
  intros Hr Hone Hd Hlen Hv. destruct (raid5_addr v Hv) as (E1 & E2 & E3 & E4 & E5 & E6).
  pose proof (pl_disk_range v Hv) as Hdk. pose proof (pl_row_range v Hv) as Hrow.
  unfold raid5write. apply wp_bind. eapply wp_enter_level; [done|done|done|]. rewrite E1, E2, E3.
  apply wp_bind. eapply wp_diskinfo; [apply diskinfo_at; [apply (wf_info _ (rd_wf _ _ _ Hr))|done]|].
  apply wp_bind. apply (wp_check_failed RAID5 F); [done|done|done|].
  change (row5 v / CLUSTER_SIZE) with (cluster_of (row5 v)). cbv beta iota zeta.
  apply (wp_parity_write RAID5 F l (disk5 v) (row5 v) data
    (loadclusterraid5 (cluster_of (row5 v)))
    (fun page => raid5write_data_failed page (disk5 v) (par5 v) (row5 v) data)
    (raid5write_parity_failed (disk5 v) (row5 v) data)
    (fun page => raid5write_both page (disk5 v) (par5 v) (row5 v) data)).
  1-5: done.
  - by apply loadclusterraid5_spec, cluster_of_range.
  - intros. by apply raid5write_data_failed_spec.
  - by apply raid5write_parity_failed_spec.
  - intros. by apply raid5write_both_spec.
  - done.
Qed.

End raid5.
