(* ===== verification/RaidCtl.v ===== *)
(** * The control operations of kernel/raid.c

    Booting ([loadraid]), choosing a level ([setraidtype]), the dispatch of
    reads and writes to the level ([readraid], [writeraid]), failing and
    repairing a disk, destroying the array. *)

From stdpp Require Import base numbers list gmap strings.
From Stdlib Require Import ZArith Lia.
From S2P Require Import Prelude Blocks Monad State Locks Kalloc Codec MetaImage RaidCore.
From S2P Require Import Raid0 RaidPair ParityArray Raid4 Raid5.
Open Scope Z_scope.

Section ctl.
Context `{Config}.

(** [readtable], [writetable] and the call through a pointer taken from them. *)
Definition readtable : list (Z * (Z -> block -> K (Z * block))) :=
  [ (addr_raidread RAID0, raid0read); (addr_raidread RAID1, raid1read);
    (addr_raidread RAID0_1, raid0_1read); (addr_raidread RAID4, raid4read);
    (addr_raidread RAID5, raid5read) ].
Definition writetable : list (Z * (Z -> block -> K Z)) :=
  [ (addr_raidwrite RAID0, raid0write); (addr_raidwrite RAID1, raid1write);
    (addr_raidwrite RAID0_1, raid0_1write); (addr_raidwrite RAID4, raid4write);
    (addr_raidwrite RAID5, raid5write) ].

Fixpoint fn_at {F} (table : list (Z * F)) (addr : Z) : option F :=
  match table with
  | [] => None
  | (a, f) :: table => if a =? addr then Some f else fn_at table addr
  end.

Definition check_destroyed : K unit :=
  let! d := gets (fun s => rm_isDestroyed (st_meta s)) in
  if negb (d =? 0) then panic "RAID structure was destroyed" else ret tt.

(** [raidmeta.read = readtable[type]; raidmeta.write = writetable[type]] *)
Definition set_level_fns (type : Z) : K unit :=
  mod_meta (set_fns (addr_raidread type) (addr_raidwrite type)).

Definition loadraid : K unit :=
  let lastblockondisk := i32 diskblockn in
  let! data := read_block 1 lastblockondisk in
  meta_fits;;
  modify (load_meta data);;
  check_destroyed;;
  let prevState := existsb (fun b => negb (b =? 0)) data in
  forM (range 0 DISKS) (fun i => initsleeplock (DiskLock i) (addr_string "diskinfolock"));;
  if prevState then ret tt
  else
    forM (range 0 DISKS) (fun i => put_diskinfo i (mk_DiskInfo 1 (u8 (i + 1))));;
    set_valid DISKS 0;;
    let! type := gets (fun s => rm_type (st_meta s)) in
    (if (RAID0 <=? type) && (type <=? RAID5) then set_level_fns type
     else mod_meta (set_fns 0 0));;
    writeraidmeta.

(** The pairs of a mirrored level: [disk0 k] and [disk1 k] for pair [k < n]. *)
Definition init_pairs (n : Z) (disk0 disk1 : Z -> Z) : K unit :=
  forM (range 0 n) (fun i => initlock (PairMutex i) (addr_string "raidlock"));;
  mod_meta (set_data (DataPairs (map (fun i => mk_DiskPair (disk0 i) (disk1 i) 0 0 0) (range 0 n)))).

(** [israidable]: the number of failed disks. *)
Definition count_invalid : K Z :=
  foldM (range 0 DISKS) 0 (fun n i =>
    let! d := diskinfo i in
    ret (if negb (is_valid d) then n + 1 else n)).

Definition fresh_parity : ParityData := mk_ParityData (replicate (Z.to_nat nclusters) 0) 0 0.

Definition setraidtype (type : Z) : K Z :=
  if (type <? RAID0) || (RAID5 <? type) then panic "invalid raid type"
  else
    mod_meta (set_type type);;
    set_level_fns type;;
    mod_meta (set_isDestroyed 0);;
    if type =? RAID0 then writeraidmeta;; ret 0
    else if type =? RAID1 then
      init_pairs npairs_raid1 (fun i => i * 2) (fun i => i * 2 + 1);;
      writeraidmeta;; ret 0
    else if type =? RAID0_1 then
      init_pairs npairs_raid0_1 (fun i => i) (fun i => i + DISKS / 2);;
      writeraidmeta;; ret 0
    else if type =? RAID4 then
      let! israidable := count_invalid in
      if 1 <? israidable then ret ERR
      else
        initsleeplock ClusterLock (addr_string "clusterlock");;
        initlock RepairLock (addr_string "repairlock_raid4");;
        put_parity fresh_parity;;
        writeraidmeta;; ret 0
    else
      let! israidable := count_invalid in
      if 1 <? israidable then ret ERR
      else
        initlock RepairLock (addr_string "repairlock_raid5");;
        initsleeplock ClusterLock (addr_string "clusterlock");;
        put_parity fresh_parity;;
        writeraidmeta;; ret 0.

Definition readraid (vblkn : Z) (data : block) : K (Z * block) :=
  check_destroyed;;
  let! f := gets (fun s => rm_read (st_meta s)) in
  if negb (f =? 0) then
    let! fn := deref (fn_at readtable f) in fn vblkn data
  else ret (ERR, data).

Definition writeraid (vblkn : Z) (data : block) : K Z :=
  check_destroyed;;
  let! f := gets (fun s => rm_write (st_meta s)) in
  if negb (f =? 0) then
    let! fn := deref (fn_at writetable f) in fn vblkn data
  else ret ERR.

Definition raidfail (diskn : Z) : K Z :=
  check_destroyed;;
  let diskn := i32 (diskn - 1) in
  if (diskn <? 0) || (DISKS <=? diskn) then ret ERR
  else
    set_valid diskn 0;;
    writeraidmeta;;
    ret 0.

(** The waiting loop of a repair of a mirrored disk. *)
Definition repair_wait (k : Z) : K unit :=
  let! p := get_pair k in
  if negb (dp_writing p =? 0) || negb (dp_reading0 p =? 0) || negb (dp_reading1 p =? 0)
  then sleep (PairMutex k)
  else mod_pair k (set_writing 1);; release (PairMutex k).

(** [case RAID1] and [case RAID0_1] of [raidrepair], which differ in the pair
    [k] and the side [side] of the surviving disk. *)
Definition repair_mirror (diskn k side : Z) : K Z :=
  let! p := get_pair k in
  let! mirror := deref (dp_disk p side) in
  let! dpair := diskinfo mirror in
  if negb (is_valid dpair) then ret ERR
  else
    acquire (PairMutex k);;
    repair_wait k;;
    acquiresleep (DiskLock (dp_disk0 p));;
    acquiresleep (DiskLock (dp_disk1 p));;
    let! d := diskinfo diskn in
    forM (range 0 (diskblockn + 1)) (fun i =>
      let! data := read_block (di_diskn dpair) i in
      write_block (di_diskn d) i data);;
    releasesleep (DiskLock (dp_disk0 p));;
    releasesleep (DiskLock (dp_disk1 p));;
    set_valid diskn 1;;
    acquire (PairMutex k);;
    mod_pair k (set_writing 0);;
    release (PairMutex k);;
    wakeup;;
    writeraidmeta;;
    ret 0.

Definition repair_raid1 (diskn : Z) : K Z :=
  repair_mirror diskn (Z.quot diskn 2) (1 - Z.rem diskn 2).

(** With fewer than two disks [DISKS / 2] is 0 and the code divides by it. *)
Definition repair_raid0_1 (diskn : Z) : K Z :=
  if DISKS / 2 =? 0 then fault
  else repair_mirror diskn (Z.rem diskn (DISKS / 2)) (1 - Z.quot diskn (DISKS / 2)).

(** [case RAID4] and [case RAID5] of [raidrepair], which are the same code. *)
Definition repair_parity (diskn : Z) : K Z :=
  let! bad := other_invalid diskn (range 0 DISKS) in
  if bad : bool then ret ERR
  else
    repair_begin;;
    let! newpg := kalloc in
    acquire_disks;;
    forM (range 0 (diskblockn + 1)) (fun b => repair_block newpg diskn b);;
    set_valid diskn 1;;
    release_disks;;
    kfree newpg;;
    repair_end;;
    writeraidmeta;;
    ret 0.

Definition raidrepair (diskn : Z) : K Z :=
  check_destroyed;;
  let! type := gets (fun s => rm_type (st_meta s)) in
  if (type <? RAID0) || (RAID5 <? type) then panic "raid not initialized"
  else
    let diskn := i32 (diskn - 1) in
    if (diskn <? 0) || (DISKS <=? diskn) then ret ERR
    else
      let! d := diskinfo diskn in
      if is_valid d then ret 0
      else if type =? RAID0 then ret ERR
      else if type =? RAID1 then repair_raid1 diskn
      else if type =? RAID0_1 then repair_raid0_1 diskn
      else repair_parity diskn.

Definition raiddestroy : K Z :=
  check_destroyed;;
  mod_meta (set_isDestroyed 1);;
  writeraidmeta;;
  ret 0.

End ctl.
