(* ===== verification/RaidOps.v ===== *)
(** * Specifications of the control operations

    What [setraidtype], [raidfail], [raidrepair] and [raiddestroy] of
    kernel/raid.c do to an array, on every branch.  The data rows are those the
    levels use; the last row of each disk holds a copy of the metadata. *)

From stdpp Require Import base numbers list sets gmap strings.
From Stdlib Require Import ZArith Lia.
From S2P Require Import Prelude Blocks Monad State Locks Kalloc Codec MetaImage RaidCore.
From S2P Require Import Raid0 RaidPair ParityArray ParityVolume Raid4 Raid5 RaidCtl.
Open Scope Z_scope.

Section ops.
Context `{ConfigOK}.

(** ** The disk table *)

(** The state with [diskinfo[i].valid = v]. *)
Definition with_valid (i v : Z) (s : State) : State :=
  set_meta (set_diskinfo (zset (rm_diskinfo (st_meta s)) i (mk_DiskInfo v (i + 1))) (st_meta s)) s.

Lemma wp_set_valid i v (Q : unit -> State -> Prop) s :
  info_wf (rm_diskinfo (st_meta s)) -> 0 <= i < DISKS ->
  Q tt (set_meta (set_diskinfo (zset (rm_diskinfo (st_meta s)) i (mk_DiskInfo v (i + 1))) (st_meta s)) s) ->
  wp (set_valid i v) Q s.
Proof.
  intros Hi Hr HQ. unfold set_valid, put_diskinfo, mod_meta. wp_steps.
  eapply wp_diskinfo; [by apply diskinfo_at|]. wp_steps.
  eapply wp_deref; [by apply diskinfo_at|]. by wp_steps.
Qed.

Lemma info_wf_zset l i v : info_wf l -> 0 <= i < DISKS -> v = 0 \/ v = 1 ->
  info_wf (zset l i (mk_DiskInfo v (i + 1))).
Proof.
  intros (Hd & Hl & Hlen) Hi Hv. split; [|split].
  - intros j Hj. destruct (decide (i = j)) as [<-|Hne].
    + exists v. split; [done|]. apply znth_zset_eq. lia.
    + rewrite znth_zset_ne by done. by apply Hd.
  - rewrite znth_zset_ne by lia. done.
  - by rewrite zset_length.
Qed.

Lemma dvalid_with_valid i v s j : info_wf (rm_diskinfo (st_meta s)) -> 0 <= i < DISKS ->
  dvalid (with_valid i v s) j = if j =? i then negb (v =? 0) else dvalid s j.
Proof.
  intros (_ & _ & Hlen) Hi. unfold dvalid, with_valid. simpl.
  destruct (Z.eqb_spec j i) as [->|Hne].
  - rewrite znth_zset_eq by lia. done.
  - by rewrite znth_zset_ne by congruence.
Qed.

(** Equal but for the last row of the disks. *)
Definition same_data (s s' : State) : Prop :=
  exists D, s' = set_disk D s /\ forall d b, data_row b -> blk s' d b = blk s d b.

(** Disk 1, where [loadraid] looks for it, has the current metadata, as it was
    with the disk locks held. *)
Definition saved (s : State) : Prop :=
  exists m, held_below DISKS (st_pid s) (st_sleep s) m /\
    st_disk s !! (1, diskblockn) = Some (meta_block (set_sleep m s)).

(** [writeraidmeta] stores the metadata on disk 1 if disk 2 is valid. *)
Lemma wp_writemeta (Q : unit -> State -> Prop) s : raid_wf s ->
  (forall s', same_data s s' -> (dvalid s 1 = true -> saved s') -> Q tt s') -> wp writeraidmeta Q s.
Proof.
  intros Hwf HQ. pose proof DISKS_range. apply wp_writeraidmeta; [done|]. intros m D Hm HD. apply HQ.
  - exists D. split; [done|]. intros d b Hb. by eapply meta_disks_data.
  - intros Hv. exists m. split; [done|]. simpl. rewrite HD, Hv, Z.eqb_refl.
    by destruct (Z.ltb_spec 1 (DISKS + 1)); [|lia].
Qed.

Lemma same_data_wf s s' : same_data s s' -> raid_wf s -> raid_wf s'.
Proof.
  intros (D & -> & HD) Hwf. apply raid_wf_set_disk; [done|]. intros d b Hb.
  change (wf_block (blk (set_disk D s) d b)). rewrite HD by done. by apply Hwf.
Qed.

Lemma same_data_ready t F s s' : same_data s s' -> ready t F s -> ready t F s'.
Proof.
  intros Hsd Hr. pose proof (same_data_wf _ _ Hsd (rd_wf _ _ _ Hr)).
  destruct Hsd as (D & -> & _). destruct Hr. by constructor.
Qed.

Lemma ready_with_valid t F i v s : ready t F s -> 0 <= i < DISKS -> v = 0 \/ v = 1 ->
  ready t (if v =? 0 then {[i + 1]} ∪ F else F ∖ {[i + 1]}) (with_valid i v s).
Proof.
  intros Hr Hi Hv. pose proof (rd_wf _ _ _ Hr) as [Hl Hinf Hb]. destruct Hr. constructor; try done.
  - constructor; [done| |done]. by apply info_wf_zset.
  - intros j Hj. rewrite dvalid_with_valid, rd_failed by done.
    destruct (Z.eqb_spec j i) as [->|Hne], Hv as [-> | ->]; simpl; symmetry.
    + apply bool_decide_eq_false. set_solver.
    + apply bool_decide_eq_true. set_solver.
    + apply bool_decide_ext. assert (j + 1 <> i + 1) by lia. set_solver.
    + apply bool_decide_ext. assert (j + 1 <> i + 1) by lia. set_solver.
  - destruct Hv as [-> | ->]; simpl; intros d; [|set_solver].
    rewrite elem_of_union, elem_of_singleton. intros [->|]; [lia|auto].
Qed.

Lemma wp_check_destroyed (Q : unit -> State -> Prop) s :
  rm_isDestroyed (st_meta s) = 0 -> Q tt s -> wp check_destroyed Q s.
Proof. intros Hd HQ. unfold check_destroyed. wp_steps. by rewrite Hd. Qed.

Lemma i32_pred d : is_int d -> 1 <= d <= DISKS -> i32 (d - 1) = d - 1.
Proof. intros. pose proof DISKS_range. apply i32_small. unfold is_int in *. lia. Qed.

(** ** [raidfail] *)

Lemma raidfail_spec t F d s : ready t F s -> 1 <= d <= DISKS ->
  wp (raidfail d) (fun r s' => r = 0 /\ same_data (with_valid (d - 1) 0 s) s' /\
    ready t ({[d]} ∪ F) s' /\ (dvalid s' 1 = true -> saved s')) s.
Proof.
  intros Hr Hd. pose proof DISKS_range. unfold raidfail. wp_steps.
  apply wp_check_destroyed; [apply (rd_alive _ _ _ Hr)|].
  rewrite i32_small by lia. destruct (Z.ltb_spec (d - 1) 0), (Z.leb_spec DISKS (d - 1)); try lia. simpl.
  wp_steps. apply wp_set_valid; [apply (wf_info _ (rd_wf _ _ _ Hr))|lia|]. wp_steps.
  pose proof (ready_with_valid t F (d - 1) 0 s Hr ltac:(lia) ltac:(lia)) as Hr'.
  replace (d - 1 + 1) with d in Hr' by lia. simpl in Hr'.
  apply wp_writemeta; [exact (rd_wf _ _ _ Hr')|]. intros s' Hs' Hsv. wp_steps.
  split; [done|]. split; [exact Hs'|]. split; [by eapply same_data_ready|].
  by destruct Hs' as (D & -> & _).
Qed.

Lemma bad_diskn d : is_int d -> ~ (1 <= d <= DISKS) -> (i32 (d - 1) <? 0) || (DISKS <=? i32 (d - 1)) = true.
Proof.
  intros Hd Hn. pose proof DISKS_range. unfold is_int in *.
  destruct (decide (d = - 2 ^ 31)) as [->|Hne].
  - change (i32 (- 2 ^ 31 - 1)) with (2 ^ 31 - 1). rewrite orb_true_iff, Z.leb_le. lia.
  - rewrite i32_small by lia. rewrite orb_true_iff, Z.ltb_lt, Z.leb_le. lia.
Qed.

Lemma raidfail_out d s : is_int d -> ~ (1 <= d <= DISKS) -> rm_isDestroyed (st_meta s) = 0 ->
  wp (raidfail d) (fun r s' => r = ERR /\ s' = s) s.
Proof.
  intros Hi Hd Hde. unfold raidfail. wp_steps. apply wp_check_destroyed; [done|].
  by rewrite bad_diskn.
Qed.

(** ** [raidrepair] of a mirrored level *)

(** The disks after the rows below [hi] of disk [src] are copied to disk [dst]. *)
Definition copied (src dst hi : Z) (s : State) (D : gmap (Z * Z) block) : Prop :=
  forall e b, D !! (e, b) =
    if (e =? dst) && (0 <=? b) && (b <? hi) then Some (blk s src b) else st_disk s !! (e, b).

Lemma wp_copy src dst (Q : unit -> State -> Prop) s :
  1 <= src <= DISKS -> 1 <= dst <= DISKS -> src <> dst ->
  (forall D, copied src dst (diskblockn + 1) s D -> Q tt (set_disk D s)) ->
  wp (forM (range 0 (diskblockn + 1)) (fun i =>
        let! data := read_block src i in write_block dst i data)) Q s.
Proof.
  intros Hs Hd Hne HQ. pose proof diskblockn_range.
  apply (wp_forM (fun k s' => exists D, s' = set_disk D s /\ copied src dst k s D)).
  - lia.
  - exists (st_disk s). split; [by rewrite set_disk_id|]. intros e b.
    destruct (Z.leb_spec 0 b), (Z.ltb_spec b 0); try lia; by rewrite ?andb_false_r.
  - intros i s' Hi (D & -> & HD). wp_steps. apply wp_read_block; [lia|lia|]. apply wp_write_block; [lia|lia|].
    eexists. split; [done|]. intros e b. norm_fields.
    assert (Hsrc : blk (set_disk D s) src i = blk s src i).
    { unfold blk. simpl. rewrite HD. by destruct (Z.eqb_spec src dst). }
    rewrite Hsrc. destruct (decide ((dst, i) = (e, b))) as [[= -> ->]|Hn].
    + rewrite lookup_insert_eq, Z.eqb_refl. by destruct (Z.leb_spec 0 b), (Z.ltb_spec b (b + 1)); try lia.
    + rewrite lookup_insert_ne, HD by done. destruct (Z.eqb_spec e dst) as [->|]; [|done].
      by destruct (Z.leb_spec 0 b), (Z.ltb_spec b i), (Z.ltb_spec b (i + 1)); simpl; try done; try lia;
        exfalso; apply Hn; f_equal; lia.
  - intros s' (D & -> & HD). by apply HQ.
Qed.

(** The array after the repair of disk index [i] with the rows [f]. *)
Definition repaired (i : Z) (f : Z -> option block) (s s' : State) : Prop :=
  exists D, s' = set_disk D (with_valid i 1 s) /\
  forall e b, data_row b -> blk s' e b = if e =? i + 1 then default (blk s e b) (f b) else blk s e b.

Lemma same_data_trans s s' s'' : same_data s s' -> same_data s' s'' -> same_data s s''.
Proof.
  intros (D & -> & HD) (D' & -> & HD'). exists D'. split; [done|].
  intros d b Hb. by rewrite HD', HD.
Qed.

Lemma repaired_wf i f s s' : raid_wf s -> 0 <= i < DISKS ->
  (forall b x, data_row b -> f b = Some x -> wf_block x) -> repaired i f s s' -> raid_wf s'.
Proof.
  intros [Hl Hi Hb] Hr Hf (D & -> & HB). constructor; [done|by apply info_wf_zset; auto|].
  intros e b Hrow. rewrite HB by done. destruct (e =? i + 1); [|by apply Hb].
  destruct (f b) eqn:E; [by eapply Hf|by apply Hb].
Qed.

Lemma repaired_ready t F i f s s' : ready t F s -> 0 <= i < DISKS ->
  (forall b x, data_row b -> f b = Some x -> wf_block x) -> repaired i f s s' ->
  ready t (F ∖ {[i + 1]}) s'.
Proof.
  intros Hr Hi Hf Hrep. pose proof (repaired_wf _ _ _ _ (rd_wf _ _ _ Hr) Hi Hf Hrep) as Hwf.
  pose proof (ready_with_valid t F i 1 s Hr Hi ltac:(auto)) as Hr'. simpl in Hr'.
  destruct Hrep as (D & -> & _). destruct Hr'. by constructor.
Qed.

Lemma wp_repaired_meta i f s s1 : raid_wf s1 -> repaired i f s s1 ->
  wp (writeraidmeta;; ret 0)
    (fun r s' => r = 0 /\ repaired i f s s' /\ (dvalid s' 1 = true -> saved s')) s1.
Proof.
  intros Hwf (D & -> & HB). wp_steps. apply wp_writemeta; [done|]. intros s' (D' & -> & HD') Hsv.
  wp_steps. split; [done|]. split; [|exact Hsv]. exists D'. split; [done|].
  intros e b Hb. by rewrite HD', HB.
Qed.

Lemma copied_repaired i j s D : copied (j + 1) (i + 1) (diskblockn + 1) s D ->
  repaired i (fun b => Some (blk s (j + 1) b)) s (set_disk D (with_valid i 1 s)).
Proof.
  intros HD. exists D. split; [done|]. intros e b [Hb1 Hb2]. unfold blk. simpl. rewrite HD.
  destruct (Z.leb_spec 0 b), (Z.ltb_spec b (diskblockn + 1)); try lia. by destruct (e =? i + 1).
Qed.

(** From the locks of the two disks on, with [writing] set in pair [k]. *)
Lemma repair_transfer_spec t F k i j s : mirrored t -> mirror_ready t F s -> 0 <= k < m_n t ->
  0 <= i < DISKS -> 0 <= j < DISKS -> i <> j ->
  wp (acquiresleep (DiskLock (m_d0 t k));;
      acquiresleep (DiskLock (m_d1 t k));;
      let! d := diskinfo i in
      forM (range 0 (diskblockn + 1)) (fun b =>
        let! data := read_block (j + 1) b in
        write_block (di_diskn d) b data);;
      releasesleep (DiskLock (m_d0 t k));;
      releasesleep (DiskLock (m_d1 t k));;
      set_valid i 1;;
      acquire (PairMutex k);;
      mod_pair k (set_writing 0);;
      release (PairMutex k);;
      wakeup;;
      writeraidmeta;;
      ret 0) (fun r s' => r = 0 /\ repaired i (fun b => Some (blk s (j + 1) b)) s s' /\
      (dvalid s' 1 = true -> saved s'))
    (set_meta (set_data (DataPairs
       (zset (idle_pairs (m_n t) (m_d0 t) (m_d1 t)) k (mk_DiskPair (m_d0 t k) (m_d1 t k) 1 0 0)))
       (st_meta s)) s).
Proof.
  intros Ht [Hr Hps] Hk Hi Hj Hij. pose proof (rd_wf _ _ _ Hr) as Hwf. pose proof (wf_locks _ Hwf) as Hl.
  pose proof (m_pairing t Ht) as Hpg. pose proof DISKS_range.
  pose proof (pg_ne _ _ _ Hpg k Hk) as Hne. pose proof (pg_d1 _ _ _ Hpg k Hk) as Hr1.
  pose proof (pg_d0 _ _ _ Hpg k Hk) as Hr0.
  destruct (mutex_free _ _ _ _ _ Hpg Hk Hwf) as [nm Hnm]. pose proof (lf_cpu s Hl) as Hc.
  set (ps := zset (idle_pairs _ _ _) k _).
  assert (Hz : znth ps k = Some (mk_DiskPair (m_d0 t k) (m_d1 t k) 1 0 0)).
  { apply znth_zset_eq. eapply znth_Some_lt. by apply idle_pair_at. }
  destruct (lf_sleep s Hl (m_d0 t k)) as [a Ha]; [lia|].
  destruct (lf_sleep s Hl (m_d1 t k)) as [c Hcl]; [lia|]. kstep.
  eapply wp_acquiresleep; [solve_lock|solve_lock|exact Ha|]. kstep.
  eapply wp_acquiresleep;
    [solve_lock|solve_lock|norm_fields; rewrite lookup_insert_ne by congruence; exact Hcl|]. kstep.
  eapply wp_diskinfo; [by apply (diskinfo_at s); [apply Hwf|]|]. kstep. cbn [di_diskn].
  apply wp_copy; [lia|lia|lia|]. intros D HD. kstep. rewrite insert_insert_ne by congruence.
  eapply wp_unlock; [solve_lock|solve_lock| |norm_fields; done|].
  { rewrite lookup_insert_ne by congruence. exact Ha. }
  kstep. eapply wp_unlock; [solve_lock|solve_lock|exact Hcl|done|]. kstep.
  apply wp_set_valid; [apply (wf_info _ Hwf)|done|]. kstep.
  eapply wp_acquire; [exact Hc|exact Hnm|]. kstep.
  eapply wp_mod_pair; [done|exact Hz|]. kstep.
  eapply wp_release; [exact Hc|done|exact Hnm|done|]. unfold wakeup. kstep.
  cbn [set_writing dp_disk0 dp_disk1 dp_writing dp_reading0 dp_reading1].
  unfold ps. rewrite idle_pairs_restore by done.
  pose proof (copied_repaired i j s D HD) as Hrep.
  match goal with |- wp _ _ ?st => replace st with (set_disk D (with_valid i 1 s)) end.
  2:{ unfold with_valid. state_eq. rewrite <- Hps. by destruct (st_meta s). }
  apply wp_bind_inv, wp_repaired_meta; [|done].
  eapply repaired_wf; [exact Hwf|exact Hi| |exact Hrep]. intros b x Hb [= <-]. by apply Hwf.
Qed.

Lemma repair_mirror_spec t F k i j side s : mirrored t -> mirror_ready t F s -> 0 <= k < m_n t ->
  0 <= i < DISKS ->
  (side = 1 /\ i = m_d0 t k /\ j = m_d1 t k \/ side = 0 /\ i = m_d1 t k /\ j = m_d0 t k) ->
  wp (repair_mirror i k side) (fun r s' =>
    if dvalid s j then r = 0 /\ repaired i (fun b => Some (blk s (j + 1) b)) s s' /\
      (dvalid s' 1 = true -> saved s')
    else r = ERR /\ s' = s) s.
Proof.
  intros Ht [Hr Hps] Hk Hi Hside. pose proof (rd_wf _ _ _ Hr) as Hwf. pose proof (wf_locks _ Hwf) as Hl.
  pose proof (m_pairing t Ht) as Hpg.
  pose proof (pg_ne _ _ _ Hpg k Hk) as Hne. pose proof (pg_d1 _ _ _ Hpg k Hk) as Hr1.
  pose proof (pg_d0 _ _ _ Hpg k Hk) as Hr0.
  destruct (mutex_free _ _ _ _ _ Hpg Hk Hwf) as [nm Hnm]. pose proof (lf_cpu s Hl) as Hc.
  assert (Hj : 0 <= j <= DISKS) by (destruct Hside as [(_ & _ & ->)|(_ & _ & ->)]; lia).
  destruct (diskinfo_at_le s j Hwf Hj) as (nj & Hzj & Hvj).
  assert (Hside' : dp_disk (mk_DiskPair (m_d0 t k) (m_d1 t k) 0 0 0) side = Some j).
  { destruct Hside as [(-> & _ & ->)|(-> & _ & ->)]; done. }
  unfold repair_mirror. kstep. eapply wp_get_pair; [done|by apply idle_pair_at|].
  kstep. eapply wp_deref; [exact Hside'|]. kstep. eapply wp_diskinfo; [exact Hzj|].
  rewrite is_valid_bool. destruct (dvalid s j) eqn:Ej; cbn [negb]; [|by wp_steps].
  destruct (Hvj eq_refl) as [Hjlt ->].
  kstep. eapply wp_acquire; [exact Hc|exact Hnm|]. kstep. unfold repair_wait. kstep.
  eapply wp_get_pair; [done|by apply idle_pair_at|]. cbn [dp_writing dp_reading0 dp_reading1 Z.eqb negb orb].
  kstep. eapply wp_mod_pair; [done|by apply idle_pair_at|]. kstep.
  eapply wp_release; [exact Hc|done|exact Hnm|done|]. cbv beta. cbn [dp_disk0 dp_disk1 di_diskn].
  eapply (repair_transfer_spec t F); try done; [lia|].
  destruct Hside as [(_ & -> & ->)|(_ & -> & ->)]; congruence.
Qed.

(** ** [raidrepair] of a parity level *)

Definition loadedb (l : list Z) (b : Z) : bool :=
  match znth l (cluster_of b) with Some x => negb (x =? 0) | None => false end.

Lemma loadedb_spec l b : loadedb l b = true <-> loaded_at l b.
Proof.
  unfold loadedb, loaded_at. destruct (znth l (cluster_of b)) as [x|].
  - rewrite negb_true_iff, Z.eqb_neq. naive_solver.
  - naive_solver.
Qed.

(** The disks after the loaded rows below [hi] of disk index [i] are rebuilt. *)
Definition rebuilt (l : list Z) (i hi : Z) (s : State) (D : gmap (Z * Z) block) : Prop :=
  forall e b, D !! (e, b) =
    if (e =? i + 1) && (0 <=? b) && (b <? hi) && loadedb l b
    then Some (xothers s i b) else st_disk s !! (e, b).

Lemma rebuilt_xothers l i hi s D b : rebuilt l i hi s D -> xothers (set_disk D s) i b = xothers s i b.
Proof.
  intros HD. apply xsum_ext. intros k [Hk _]%elem_of_others. unfold blk. simpl. rewrite HD.
  by destruct (Z.eqb_spec (k + 1) (i + 1)); [lia|].
Qed.

Lemma rebuilt_S l i hi s D : 0 <= hi -> rebuilt l i hi s D ->
  rebuilt l i (hi + 1) s (if loadedb l hi then <[(i + 1, hi) := xothers s i hi]> D else D).
Proof.
  intros Hhi HD e b. destruct (decide (b = hi)) as [->|Hne].
  - assert (HD' : D !! (e, hi) = st_disk s !! (e, hi)).
    { rewrite HD. destruct (Z.ltb_spec hi hi); [lia|]. by rewrite andb_false_r. }
    destruct (Z.leb_spec 0 hi), (Z.ltb_spec hi (hi + 1)); try lia. rewrite !andb_true_r.
    destruct (loadedb l hi); [|by rewrite andb_false_r]. rewrite andb_true_r.
    destruct (Z.eqb_spec e (i + 1)) as [->|Hd]; [by rewrite lookup_insert_eq|].
    by rewrite lookup_insert_ne by congruence.
  - transitivity (D !! (e, b)).
    { destruct (loadedb l hi); [|done]. apply lookup_insert_ne. congruence. }
    rewrite HD. by destruct (Z.ltb_spec b (hi + 1)), (Z.ltb_spec b hi); try lia.
Qed.

Lemma rebuilt_repaired l i s D : rebuilt l i (diskblockn + 1) s D ->
  repaired i (fun b => if loadedb l b then Some (xothers s i b) else None) s (set_disk D (with_valid i 1 s)).
Proof.
  intros HD. exists D. split; [done|]. intros e b [Hb1 Hb2]. unfold blk. simpl. rewrite HD.
  destruct (Z.leb_spec 0 b), (Z.ltb_spec b (diskblockn + 1)); try lia. rewrite !andb_true_r.
  by destruct (e =? i + 1), (loadedb l b).
Qed.

(** One row of the repair, in a state with the disk locks held. *)
Lemma repair_block_spec l i b page n s : spins_free s -> info_wf (rm_diskinfo (st_meta s)) ->
  rm_data (st_meta s) = DataParity (mk_ParityData l 0 1) -> length l = Z.to_nat nclusters ->
  st_sleep s !! ClusterLock = Some (mk_sleeplock 0 n 0) -> page_ok page ->
  0 <= i < DISKS -> 0 <= b <= diskblockn ->
  wp (repair_block page i b) (fun _ s' =>
    s' = set_disk (if loadedb l b then <[(i + 1, b) := xothers s i b]> (st_disk s) else st_disk s) s) s.
Proof.
  intros Hl Hi Hd Hlen Hcl Hp Hr Hb. unfold repair_block.
  pose proof diskblockn_range. pose proof diskblockn_val. pose proof nblocks_val. pose proof nclusters_range.
  assert (Ec : u64 (Z.quot b CLUSTER_SIZE) = cluster_of b).
  { rewrite Z.quot_div_nonneg by (unfold CLUSTER_SIZE; lia). apply u64_small.
    split; [apply Z.div_pos|apply Z.div_lt_upper_bound]; unfold CLUSTER_SIZE; lia. }
  assert (Hc : 0 <= cluster_of b < nclusters).
  { unfold cluster_of. split; [apply Z.div_pos|apply Z.div_lt_upper_bound]; unfold CLUSTER_SIZE in *; lia. }
  rewrite Ec. cbv zeta. destruct (znth_is_Some l (cluster_of b)) as [x Hx]; [lia|].
  kstep. eapply wp_acquiresleep; [solve_lock|solve_lock|done|]. kstep.
  eapply wp_cluster_loaded; [done|exact Hx|]. kstep.
  eapply wp_unlock; [solve_lock|solve_lock|done|done|]. kstep.
  unfold loadedb. rewrite Hx. apply wp_when; intros ->; [|state_eq].
  kstep. apply wp_use_page; [done|]. kstep. apply wp_xor_others; [done|done|]. kstep.
  eapply wp_diskinfo; [by apply (diskinfo_at s)|]. kstep. cbn [di_diskn].
  apply wp_write_block; [lia|done|]. state_eq.
Qed.

Lemma repair_parity_spec t F l i s : ready t F s -> (forall d e, d ∈ F -> e ∈ F -> d = e) ->
  rm_data (st_meta s) = DataParity (mk_ParityData l 0 0) -> length l = Z.to_nat nclusters ->
  0 <= i < DISKS -> dvalid s i = false ->
  wp (repair_parity i) (fun r s' => r = 0 /\
    repaired i (fun b => if loadedb l b then Some (xothers s i b) else None) s s' /\
    (dvalid s' 1 = true -> saved s')) s.
Proof.
  intros Hr Hone Hd Hlen Hi Hv. pose proof (rd_wf _ _ _ Hr) as [Hl Hinf Hbl].
  destruct (rd_pages _ _ _ Hr) as [Hp Hpl]. destruct (rd_cluster _ _ _ Hr) as [n Hcl].
  destruct (st_free s) as [|page next] eqn:Hf; [simpl in Hpl; lia|].
  apply Forall_cons in Hp as [Hpage _]. pose proof diskblockn_range.
  unfold repair_parity. apply wp_bind. apply (wp_no_other_invalid t F); [done|done|done|done|].
  kstep. eapply (wp_repair_begin l); [apply Hl|done|]. kstep.
  eapply wp_kalloc; [apply Hl|done|]. kstep. apply wp_acquire_disks; [done|]. intros m Hm. kstep.
  apply (wp_forM (fun k s' => exists D, rebuilt l i k s D /\ s' =
    mkState (st_cpu s) (st_pid s) (st_spin s) m next
      (set_data (DataParity (mk_ParityData l 0 1)) (st_meta s)) D)).
  - lia.
  - exists (st_disk s). split; [|done]. intros e b.
    destruct (Z.leb_spec 0 b), (Z.ltb_spec b 0); try lia; by rewrite ?andb_false_r.
  - intros b s' Hb (D & HD & ->). eapply wp_mono.
    { eapply (repair_block_spec l i b page n); try done; [apply Hl|exact (eq_trans (Hm ClusterLock) Hcl)|lia]. }
    intros [] s' ->. eexists. split; [apply rebuilt_S; [lia|exact HD]|].
    pose proof (rebuilt_xothers l i b s D b HD) as HE. state_eq. case_match; [|done]. f_equal. exact HE.
  - intros s' (D & HD & ->). kstep. apply wp_set_valid; [done|done|]. kstep.
    eapply (wp_release_disks m _ s); try done. kstep. apply wp_kfree; [apply Hl|done|]. kstep.
    eapply (wp_repair_end l); [apply Hl|done|]. kstep. pose proof (rebuilt_repaired l i s D HD) as Hrep.
    match goal with |- wp _ _ ?st => replace st with (set_disk D (with_valid i 1 s)) end.
    2:{ unfold with_valid. state_eq. rewrite <- Hd. by destruct (st_meta s). }
    apply wp_bind_inv, wp_repaired_meta; [|done].
    eapply repaired_wf; [exact (rd_wf _ _ _ Hr)|exact Hi| |exact Hrep].
    intros b x Hb. cbv beta. destruct (loadedb l b); [|done]. intros [= <-]. apply wf_xsum. intros. by apply Hbl.
Qed.

(** ** [setraidtype] *)

(** The state a level can be chosen in: as [ready], whatever the level was. *)
Record settled (F : gset Z) (s : State) : Prop := {
  se_wf : raid_wf s;
  se_pages : pages_wf (st_free s);
  se_cluster : exists n, st_sleep s !! ClusterLock = Some (mk_sleeplock 0 n 0);
  se_failed : forall i, 0 <= i < DISKS -> dvalid s i = bool_decide (i + 1 ∉ F);
  se_range : forall d, d ∈ F -> 1 <= d <= DISKS;
  se_fits : data_fits (rm_data (st_meta s));
}.

Lemma ready_settled t F s : ready t F s -> settled F s.
Proof. by intros []. Qed.

Lemma free_spin_insert s i j nm :
  free_spin s i -> free_spin (set_spin (<[j := mk_spinlock 0 nm 0]> (st_spin s)) s) i.
Proof.
  unfold free_spin. simpl. intros Hi. destruct (decide (j = i)) as [->|Hne].
  - rewrite lookup_insert_eq. by eexists.
  - by rewrite lookup_insert_ne.
Qed.

Lemma settled_initlock F i nm s : settled F s ->
  settled F (set_spin (<[i := mk_spinlock 0 nm 0]> (st_spin s)) s).
Proof.
  intros [[[[Hc Hsp] Hsl] Hi Hb] ? ? ? ? ?]. constructor; try done. constructor; [|done|done].
  split; [|done]. split; [done|]. intros k Hk. by apply free_spin_insert, Hsp.
Qed.

(** What [setraidtype] may change: the spinlocks, [clusterlock], the metadata. *)
Definition same_rows (s s' : State) : Prop := forall d b, data_row b -> blk s' d b = blk s d b.

Lemma settled_meta F f s : settled F s -> rm_diskinfo (f (st_meta s)) = rm_diskinfo (st_meta s) ->
  data_fits (rm_data (f (st_meta s))) -> settled F (set_meta (f (st_meta s)) s).
Proof.
  intros [[Hl Hi Hb] Hp Hc Hf Hr Hfit] E Hfit'. constructor; try done.
  - constructor; [done| |done]. simpl. by rewrite E.
  - intros i Hir. unfold dvalid. simpl. rewrite E. by apply Hf.
Qed.

Lemma settled_cluster F n s : settled F s ->
  settled F (set_sleep (<[ClusterLock := mk_sleeplock 0 n 0]> (st_sleep s)) s).
Proof.
  intros [Hwf Hp Hc Hf Hr Hfit]. constructor; try done.
  - eapply raid_wf_ext; try done; [|apply Hwf]. intros k. simpl. by rewrite lookup_insert_ne.
  - exists n. simpl. apply lookup_insert_eq.
Qed.

(** The last step: write the metadata. *)
Lemma wp_set_finish t F (Q : unit -> State -> Prop) s : settled F s ->
  rm_type (st_meta s) = t -> rm_read (st_meta s) = addr_raidread t ->
  rm_write (st_meta s) = addr_raidwrite t -> rm_isDestroyed (st_meta s) = 0 ->
  (forall s', ready t F s' -> st_meta s' = st_meta s -> same_rows s s' ->
     (dvalid s' 1 = true -> saved s') -> Q tt s') ->
  wp writeraidmeta Q s.
Proof.
  intros [Hwf Hp Hc Hf Hr Hfit] Ht Hrd Hwr Hde HQ. apply wp_writemeta; [done|].
  intros s' Hs Hsv. pose proof (same_data_wf _ _ Hs Hwf) as Hwf'.
  destruct Hs as (D & -> & HD). apply HQ; [by constructor|done|exact HD|exact Hsv].
Qed.

Lemma wp_init_pairs F n d0 d1 (Q : unit -> State -> Prop) s : settled F s -> 0 <= n ->
  (forall m, settled F (set_spin m s) ->
     Q tt (set_meta (set_data (DataPairs (idle_pairs n d0 d1)) (st_meta s)) (set_spin m s))) ->
  wp (init_pairs n d0 d1) Q s.
Proof.
  intros Hs Hn HQ. unfold init_pairs, mod_meta, initlock. wp_steps.
  apply (wp_forM (fun k s' => exists m, s' = set_spin m s /\ settled F (set_spin m s))).
  - done.
  - exists (st_spin s). by rewrite set_spin_id.
  - intros i s' Hi (m & -> & Hm). wp_steps. eexists. split; [done|].
    exact (settled_initlock F (PairMutex i) _ _ Hm).
  - intros s' (m & -> & Hm). wp_steps. by apply HQ.
Qed.

Lemma wp_count_invalid (Q : Z -> State -> Prop) s : info_wf (rm_diskinfo (st_meta s)) ->
  Q (Z.of_nat (length (filter (fun i => dvalid s i = false) (range 0 DISKS)))) s ->
  wp count_invalid Q s.
Proof.
  intros Hi HQ. unfold count_invalid.
  eapply (wp_foldM_pure _ (fun n i => if dvalid s i then n else n + 1)).
  - intros a i Hr%elem_of_range.
    assert (Hw : wp (let! d := diskinfo i in ret (if negb (is_valid d) then a + 1 else a))
      (fun r s' => r = (if dvalid s i then a else a + 1) /\ s' = s) s).
    { wp_steps. eapply wp_diskinfo; [by apply diskinfo_at|]. wp_steps. rewrite is_valid_bool.
      by destruct (dvalid s i). }
    apply wp_Done in Hw as (r & s' & Hr' & -> & ->). done.
  - assert (E : forall (l : list Z) n, fold_left (fun n i => if dvalid s i then n else n + 1) l n =
      n + Z.of_nat (length (filter (fun i => dvalid s i = false) l))).
    { induction l as [|i l IH]; intros n; simpl; [lia|]. rewrite IH, filter_cons.
      destruct (dvalid s i); simpl; lia. }
    rewrite E. exact HQ.
Qed.

Lemma count_failed F s : settled F s ->
  length (filter (fun i => dvalid s i = false) (range 0 DISKS)) = size F.
Proof.
  intros Hs. rewrite <- (length_fmap (fun i => i + 1)).
  rewrite <- (size_list_to_set (C := gset Z)).
  - f_equal. apply leibniz_equiv. intros d. rewrite elem_of_list_to_set, list_elem_of_fmap.
    split.
    + intros (i & -> & [Hv Hi%elem_of_range]%list_elem_of_filter).
      rewrite (se_failed _ _ Hs), bool_decide_eq_false in Hv by done. by apply dec_stable.
    + intros Hd. pose proof (se_range _ _ Hs d Hd). exists (d - 1). split; [lia|].
      apply list_elem_of_filter. split; [|apply elem_of_range; lia].
      rewrite (se_failed _ _ Hs) by lia. apply bool_decide_eq_false.
      replace (d - 1 + 1) with d by lia. tauto.
  - apply NoDup_fmap; [intros ? ? ?; lia|]. apply NoDup_filter, range_NoDup.
Qed.

Lemma size_le_1 (F : gset Z) : (size F <= 1)%nat -> forall d e, d ∈ F -> e ∈ F -> d = e.
Proof.
  intros Hs d e Hd He. assert (size F = 1%nat).
  { assert (size F <> 0%nat); [|lia]. intros E%size_empty_inv. set_solver. }
  by apply (size_singleton_inv F).
Qed.

(** The data of the union that [setraidtype] sets up. *)
Definition fresh_data (t : Z) (old : RAIDData) : RAIDData :=
  if t =? RAID0 then old
  else if (t =? RAID1) || (t =? RAID0_1) then DataPairs (idle_pairs (m_n t) (m_d0 t) (m_d1 t))
  else DataParity fresh_parity.

Definition is_level (t : Z) : Prop := RAID0 <= t <= RAID5.
Definition is_parity (t : Z) : Prop := t = RAID4 \/ t = RAID5.

Lemma idle_pairs_fit t d0 d1 : mirrored t -> data_fits (DataPairs (idle_pairs (m_n t) d0 d1)).
Proof.
  intros Ht. pose proof (pg_n _ _ _ (m_pairing t Ht)). simpl. unfold idle_pairs, range.
  rewrite length_map, length_seqZ. lia.
Qed.

(** A level is set up on an array on which it can run. *)
Lemma setraidtype_spec t F s : settled F s -> is_level t -> (is_parity t -> (size F <= 1)%nat) ->
  wp (setraidtype t) (fun r s' => r = 0 /\ ready t F s' /\
    rm_data (st_meta s') = fresh_data t (rm_data (st_meta s)) /\ same_rows s s' /\
    (dvalid s' 1 = true -> saved s')) s.
Proof.
  intros Hs Ht HF. unfold is_level, RAID0, RAID5 in Ht. unfold setraidtype.
  destruct (Z.ltb_spec t RAID0); [unfold RAID0 in *; lia|].
  destruct (Z.ltb_spec RAID5 t); [unfold RAID5 in *; lia|]. simpl.
  unfold set_level_fns, mod_meta. wp_steps.
  pose (f m := set_isDestroyed 0 (set_fns (addr_raidread t) (addr_raidwrite t) (set_type t m))).
  pose proof (settled_meta F f s Hs ltac:(done) (se_fits _ _ Hs)) as Hs1.
  set (s1 := set_meta (f (st_meta s)) s) in *.
  match goal with |- wp _ _ ?st => change st with s1 end.
  assert (t = 0 \/ t = 1 \/ t = 2 \/ t = 3 \/ t = 4) as [-> | [-> | [-> | [-> | ->]]]] by lia; simpl.
  - wp_steps. eapply (wp_set_finish RAID0 F); try done. intros s' Hr Hm Hrow Hsv. wp_steps. split; [done|]. split; [done|]. by rewrite Hm.
  - apply wp_bind. apply (wp_init_pairs F); [done|apply (m_pairing RAID1); by left|].
    intros m Hs2. wp_steps. eapply (wp_set_finish RAID1 F); try done.
    { by apply (settled_meta F (set_data (DataPairs (idle_pairs (m_n RAID1) _ _))) _ Hs2), idle_pairs_fit; [|by left]. }
    intros s' Hr Hm Hrow Hsv. wp_steps. split; [done|]. split; [done|]. by rewrite Hm.
  - apply wp_bind. apply (wp_init_pairs F); [done|apply (m_pairing RAID0_1); by right|].
    intros m Hs2. wp_steps. eapply (wp_set_finish RAID0_1 F); try done.
    { by apply (settled_meta F (set_data (DataPairs (idle_pairs (m_n RAID0_1) _ _))) _ Hs2), idle_pairs_fit; [|by right]. }
    intros s' Hr Hm Hrow Hsv. wp_steps. split; [done|]. split; [done|]. by rewrite Hm.
  - eapply wp_bind, wp_count_invalid; [apply (wf_info _ (se_wf _ _ Hs1))|].
    rewrite (count_failed F) by done.
    rewrite (proj2 (Z.ltb_ge _ _)) by (pose proof (HF (or_introl eq_refl)); lia).
    unfold initsleeplock, put_parity, initlock, mod_meta. wp_steps. eapply (wp_set_finish RAID4 F); try done.
    { refine (settled_meta F (set_data (DataParity fresh_parity)) _ _ eq_refl (length_replicate _ _)).
      by apply settled_initlock, settled_cluster, settled_initlock. }
    intros s' Hr Hm Hrow Hsv. wp_steps. split; [done|]. split; [done|]. by rewrite Hm.
  - eapply wp_bind, wp_count_invalid; [apply (wf_info _ (se_wf _ _ Hs1))|].
    rewrite (count_failed F) by done.
    rewrite (proj2 (Z.ltb_ge _ _)) by (pose proof (HF (or_intror eq_refl)); lia).
    unfold initsleeplock, put_parity, initlock, mod_meta. wp_steps. eapply (wp_set_finish RAID5 F); try done.
    { refine (settled_meta F (set_data (DataParity fresh_parity)) _ _ eq_refl (length_replicate _ _)).
      by apply settled_cluster, settled_initlock, settled_initlock. }
    intros s' Hr Hm Hrow Hsv. wp_steps. split; [done|]. split; [done|]. by rewrite Hm.
Qed.

(** RAID4 and RAID5 need all disks but one.  The refusal comes after the type
    and the function pointers are already those of the new level. *)
Lemma setraidtype_refused t F s : settled F s -> is_parity t -> (1 < size F)%nat ->
  wp (setraidtype t) (fun r s' => r = ERR /\ s' = set_meta (set_isDestroyed 0
    (set_fns (addr_raidread t) (addr_raidwrite t) (set_type t (st_meta s)))) s) s.
Proof.
  intros Hs Ht HF.
  pose (f m := set_isDestroyed 0 (set_fns (addr_raidread t) (addr_raidwrite t) (set_type t m))).
  pose proof (settled_meta F f s Hs ltac:(done) (se_fits _ _ Hs)) as Hs1. unfold setraidtype, set_level_fns, mod_meta.
  destruct Ht as [-> | ->]; simpl; wp_steps; apply wp_count_invalid;
    try apply (wf_info _ (se_wf _ _ Hs1)); rewrite (count_failed F) by exact Hs1;
    rewrite (proj2 (Z.ltb_lt _ _)) by lia; by wp_steps.
Qed.

End ops.
