(* ===== verification/RaidLevels.v ===== *)
(** * The volume a RAID level implements

    [RaidLevel]: what an array of a level promises to its users.  A volume is a
    partial map from virtual block numbers to the data last written there; the
    operations are those of kernel/raid.c, called through the function pointers
    of [raidmeta].  The five levels are instances of the interface. *)

From stdpp Require Import base numbers list sets gmap strings.
From Stdlib Require Import ZArith Lia.
From S2P Require Import Prelude Blocks Monad State Locks Kalloc Codec MetaImage RaidCore.
From S2P Require Import Raid0 RaidPair ParityArray ParityVolume Raid4 Raid5 RaidCtl RaidOps.
Open Scope Z_scope.

(** The interface: which sets of failed disks the level survives, and when a
    state holds a volume. *)
Class RaidLevel `{Config} (t : Z) := {
  lv_tolerates : gset Z -> Prop;
  lv_inv : gmap Z block -> gset Z -> State -> Prop;
}.
Arguments lv_tolerates {_} t {_}.
Arguments lv_inv {_} t {_}.

(** The data of a level between two operations. *)
Definition level_data `{Config} (t : Z) (d : RAIDData) : Prop :=
  if t =? RAID0 then True
  else if (t =? RAID1) || (t =? RAID0_1) then d = DataPairs (idle_pairs (m_n t) (m_d0 t) (m_d1 t))
  else exists l, d = DataParity (mk_ParityData l 0 0) /\ length l = Z.to_nat nclusters /\
    Forall (fun x => 0 <= x < 256) l.

(** Equal but for data rows. *)
Definition same_meta `{Config} (s s' : State) : Prop :=
  exists D, s' = set_disk D s /\ forall d, D !! (d, diskblockn) = st_disk s !! (d, diskblockn).

(** Equal but for the metadata and the disks: the locks, the cpu and the free
    pages are as before. *)
Definition same_kernel (s s' : State) : Prop := exists m D, s' = set_disk D (set_meta m s).

Class RaidLevelOK `{Config} (t : Z) {L : RaidLevel t} : Prop := {
  lv_ready vol F s : lv_inv t vol F s -> ready t F s;
  lv_data vol F s : lv_inv t vol F s -> level_data t (rm_data (st_meta s));
  lv_sub F F' : lv_tolerates t F -> F' ⊆ F -> lv_tolerates t F';
  lv_ext vol F s s' : lv_inv t vol F s -> ready t F s' -> same_rows s s' ->
    (t <> RAID0 -> rm_data (st_meta s') = rm_data (st_meta s)) -> lv_inv t vol F s';
  lv_init F s : settled F s -> lv_tolerates t F ->
    wp (setraidtype t) (fun r s' => r = 0 /\ lv_inv t ∅ F s' /\ (dvalid s' 1 = true -> saved s')) s;
  lv_read vol F v buf s : lv_inv t vol F s -> lv_tolerates t F -> 0 <= v < capacity t ->
    wp (readraid v buf) (fun r s' => s' = s /\ r.1 = 0 /\ forall x, vol !! v = Some x -> r.2 = x) s;
  lv_write vol F v data s : lv_inv t vol F s -> lv_tolerates t F -> 0 <= v < capacity t -> wf_block data ->
    wp (writeraid v data) (fun r s' => r = 0 /\ lv_inv t (<[v := data]> vol) F s' /\
      (~ is_parity t -> same_meta s s') /\ same_kernel s s') s;
  lv_fail vol F d s : lv_inv t vol F s -> lv_tolerates t ({[d]} ∪ F) -> 1 <= d <= DISKS ->
    wp (raidfail d) (fun r s' => r = 0 /\ lv_inv t vol ({[d]} ∪ F) s' /\ (dvalid s' 1 = true -> saved s') /\
      same_kernel s s') s;
  lv_repair vol F d s : lv_inv t vol F s -> lv_tolerates t F -> d ∈ F ->
    wp (raidrepair d) (fun r s' => r = 0 /\ lv_inv t vol (F ∖ {[d]}) s' /\ (dvalid s' 1 = true -> saved s') /\
      same_kernel s s') s;
}.

Section levels.
Context `{ConfigOK}.

(** ** Dispatch *)

Definition level_read (t : Z) : Z -> block -> K (Z * block) :=
  if t =? RAID0 then raid0read else if t =? RAID1 then raid1read
  else if t =? RAID0_1 then raid0_1read else if t =? RAID4 then raid4read else raid5read.
Definition level_write (t : Z) : Z -> block -> K Z :=
  if t =? RAID0 then raid0write else if t =? RAID1 then raid1write
  else if t =? RAID0_1 then raid0_1write else if t =? RAID4 then raid4write else raid5write.

Lemma is_level_cases t : is_level t -> t = RAID0 \/ t = RAID1 \/ t = RAID0_1 \/ t = RAID4 \/ t = RAID5.
Proof. unfold is_level, RAID0, RAID1, RAID0_1, RAID4, RAID5. lia. Qed.

Lemma fn_at_levels {A} (addr : Z -> Z) (f : Z -> A) t :
  (forall t u, is_level t -> is_level u -> addr t = addr u -> t = u) -> is_level t ->
  fn_at [(addr RAID0, f RAID0); (addr RAID1, f RAID1); (addr RAID0_1, f RAID0_1);
         (addr RAID4, f RAID4); (addr RAID5, f RAID5)] (addr t) = Some (f t).
Proof.
  intros Hinj Ht.
  assert (E : forall u, is_level u -> (addr u =? addr t) = (u =? t)).
  { intros u Hu. apply Bool.eq_iff_eq_true. rewrite !Z.eqb_eq.
    split; [by apply Hinj|congruence]. }
  simpl. rewrite !E by done. destruct (is_level_cases t Ht) as [-> | [-> | [-> | [-> | ->]]]]; done.
Qed.

Lemma wp_readraid t F v buf (Q : Z * block -> State -> Prop) s : ready t F s -> is_level t ->
  wp (level_read t v buf) Q s -> wp (readraid v buf) Q s.
Proof.
  intros Hr Ht HQ. unfold readraid. wp_steps. apply wp_check_destroyed; [apply (rd_alive _ _ _ Hr)|].
  wp_steps. rewrite (rd_read _ _ _ Hr).
  rewrite (proj2 (Z.eqb_neq _ 0)) by (pose proof (addr_raidread_range t Ht); lia). simpl.
  wp_steps. eapply wp_deref; [|exact HQ].
  apply (fn_at_levels addr_raidread level_read); [apply addr_raidread_inj|done].
Qed.

Lemma wp_writeraid t F v data (Q : Z -> State -> Prop) s : ready t F s -> is_level t ->
  wp (level_write t v data) Q s -> wp (writeraid v data) Q s.
Proof.
  intros Hr Ht HQ. unfold writeraid. wp_steps. apply wp_check_destroyed; [apply (rd_alive _ _ _ Hr)|].
  wp_steps. rewrite (rd_write _ _ _ Hr).
  rewrite (proj2 (Z.eqb_neq _ 0)) by (pose proof (addr_raidwrite_range t Ht); lia). simpl.
  wp_steps. eapply wp_deref; [|exact HQ].
  apply (fn_at_levels addr_raidwrite level_write); [apply addr_raidwrite_inj|done].
Qed.

(** Block numbers out of range are refused by every level. *)
Lemma readraid_out t F v buf s : ready t F s -> is_level t -> is_int v -> ~ (0 <= v < capacity t) ->
  wp (readraid v buf) (fun r s' => r = (ERR, buf) /\ s' = s) s.
Proof.
  intros Hr Ht Hi Hv. eapply wp_readraid; [done|done|].
  destruct (is_level_cases t Ht) as [-> | [-> | [-> | [-> | ->]]]];
    unfold level_read, raid0read, raid1read, raid0_1read, raid4read, raid5read; simpl;
    apply wp_bind; (eapply wp_enter_level_out; [exact Hr|done|done|done|done]).
Qed.

Lemma writeraid_out t F v data s : ready t F s -> is_level t -> is_int v -> ~ (0 <= v < capacity t) ->
  wp (writeraid v data) (fun r s' => r = ERR /\ s' = s) s.
Proof.
  intros Hr Ht Hi Hv. eapply wp_writeraid; [done|done|].
  destruct (is_level_cases t Ht) as [-> | [-> | [-> | [-> | ->]]]];
    unfold level_write, raid0write, raid1write, raid0_1write, raid4write, raid5write; simpl;
    apply wp_bind; (eapply wp_enter_level_out; [exact Hr|done|done|done|done]).
Qed.

(** The head of [raidrepair]. *)
Lemma wp_raidrepair t F d (Q : Z -> State -> Prop) s : ready t F s -> is_level t -> 1 <= d <= DISKS ->
  (if dvalid s (d - 1) then Q 0 s
   else wp (if t =? RAID0 then ret ERR else if t =? RAID1 then repair_raid1 (d - 1)
            else if t =? RAID0_1 then repair_raid0_1 (d - 1) else repair_parity (d - 1)) Q s) ->
  wp (raidrepair d) Q s.
Proof.
  intros Hr Ht Hd HQ. pose proof DISKS_range. unfold raidrepair. wp_steps.
  apply wp_check_destroyed; [apply (rd_alive _ _ _ Hr)|]. wp_steps. rewrite (rd_type _ _ _ Hr).
  unfold is_level in Ht. rewrite (proj2 (Z.ltb_ge _ _)), (proj2 (Z.ltb_ge RAID5 t)) by lia.
  rewrite i32_small by lia. cbn [orb].
  destruct (Z.ltb_spec (d - 1) 0), (Z.leb_spec DISKS (d - 1)); try lia. cbn [orb].
  wp_steps. eapply wp_diskinfo; [apply diskinfo_at; [apply (wf_info _ (rd_wf _ _ _ Hr))|lia]|].
  rewrite is_valid_bool. destruct (dvalid s (d - 1)); [by wp_steps|done].
Qed.

Lemma raidrepair_out t F d s : ready t F s -> is_level t -> is_int d -> ~ (1 <= d <= DISKS) ->
  wp (raidrepair d) (fun r s' => r = ERR /\ s' = s) s.
Proof.
  intros Hr Ht Hi Hd. unfold raidrepair. wp_steps.
  apply wp_check_destroyed; [apply (rd_alive _ _ _ Hr)|]. wp_steps. rewrite (rd_type _ _ _ Hr).
  unfold is_level in Ht. rewrite (proj2 (Z.ltb_ge _ _)), (proj2 (Z.ltb_ge RAID5 t)) by lia. cbn [orb].
  by rewrite bad_diskn.
Qed.

Lemma raidrepair_valid t F d s : ready t F s -> is_level t -> 1 <= d <= DISKS -> d ∉ F ->
  wp (raidrepair d) (fun r s' => r = 0 /\ s' = s) s.
Proof.
  intros Hr Ht Hd HF. eapply wp_raidrepair; [done|done|done|].
  rewrite (rd_failed _ _ _ Hr) by lia. replace (d - 1 + 1) with d by lia.
  by rewrite bool_decide_eq_true_2.
Qed.

Lemma ready_failed t F d s : ready t F s -> d ∈ F -> 1 <= d <= DISKS /\ dvalid s (d - 1) = false.
Proof.
  intros Hr Hd. pose proof (rd_range _ _ _ Hr d Hd). split; [done|].
  rewrite (rd_failed _ _ _ Hr) by lia. apply bool_decide_eq_false. replace (d - 1 + 1) with d by lia. tauto.
Qed.

Lemma raidrepair_failed t F d (Q : Z -> State -> Prop) s : ready t F s -> is_level t -> d ∈ F ->
  wp (if t =? RAID0 then ret ERR else if t =? RAID1 then repair_raid1 (d - 1)
      else if t =? RAID0_1 then repair_raid0_1 (d - 1) else repair_parity (d - 1)) Q s ->
  wp (raidrepair d) Q s.
Proof.
  intros Hr Ht HF HQ. destruct (ready_failed _ _ _ _ Hr HF) as [Hd Hv].
  eapply wp_raidrepair; [done|done|done|]. by rewrite Hv.
Qed.

Lemma same_kernel_disk D s : same_kernel s (set_disk D s).
Proof. exists (st_meta s), D. by destruct s. Qed.
Lemma same_meta_kernel s s' : same_meta s s' -> same_kernel s s'.
Proof. intros (D & -> & _). apply same_kernel_disk. Qed.

Lemma with_valid_kernel i v D s : same_kernel s (set_disk D (with_valid i v s)).
Proof. by eexists _, D. Qed.
Lemma repaired_kernel i f s s' : repaired i f s s' -> same_kernel s s'.
Proof. intros (D & -> & _). apply with_valid_kernel. Qed.

Lemma same_meta_insert s d b x : data_row b -> same_meta s (set_disk (<[(d, b) := x]> (st_disk s)) s).
Proof.
  intros [_ Hb]. eexists. split; [done|]. intros e. apply lookup_insert_ne. intros [=]. lia.
Qed.

(** ** RAID0 survives no failure *)

#[export] Instance raid0_level : RaidLevel RAID0 := {|
  lv_tolerates F := F = ∅;
  lv_inv vol F s := ready RAID0 F s /\
    forall v x, vol !! v = Some x -> 0 <= v < capacity RAID0 /\ raid0_block s v = x;
|}.

#[export] Instance raid0_level_ok : RaidLevelOK RAID0.
Proof.
  constructor; simpl.
  - by intros ? ? ? [? _].
  - done.
  - set_solver.
  - intros vol F s s' [Hr Hvol] Hr' Hrow _. split; [done|]. intros v x Hv.
    destruct (Hvol v x Hv) as [Hvr <-]. split; [done|]. apply Hrow. by apply raid0_addr.
  - intros F s Hs HF. eapply wp_mono; [apply setraidtype_spec; [exact Hs|done|by intros [?|?]]|].
    intros r s' (-> & Hr & _ & _ & Hsv). split; [done|]. split; [|done].
    split; [done|]. intros v x Hv. by rewrite lookup_empty in Hv.
  - intros vol F v buf s [Hr Hvol] -> Hv. eapply wp_readraid; [exact Hr|done|].
    eapply wp_mono; [eapply raid0read_spec; [exact Hr|exact Hv|set_solver]|].
    intros r s' (-> & ->). split; [done|]. split; [done|]. intros x Hx. by destruct (Hvol v x Hx) as [_ <-].
  - intros vol F v data s [Hr Hvol] -> Hv Hd. eapply wp_writeraid; [exact Hr|done|].
    eapply wp_mono; [eapply raid0write_spec; [exact Hr|exact Hv|set_solver]|].
    destruct (raid0_addr v Hv) as (_ & _ & _ & Hrow).
    intros r s' (-> & ->). split; [done|]. split; [split|split; [intros _; by apply same_meta_insert|apply same_kernel_disk]].
    + apply ready_set_disk; [done|]. apply wf_insert; [apply (wf_blocks _ (rd_wf _ _ _ Hr))|done].
    + intros w x. unfold raid0_block. rewrite blk_insert. destruct (decide (v = w)) as [<-|Hne].
      * rewrite lookup_insert_eq. intros [= <-]. by rewrite bool_decide_eq_true_2.
      * rewrite lookup_insert_ne by done. intros Hw. destruct (Hvol w x Hw) as [Hwr Hx]. split; [done|].
        rewrite bool_decide_eq_false_2; [exact Hx|]. intros [E1 E2]. apply Hne, raid0_addr_inj; lia.
  - intros. set_solver.
  - intros. set_solver.
Qed.

(** ** The mirrored levels survive while every pair has a disk *)

Definition disk_ok (F : gset Z) (i : Z) : Prop := i < DISKS /\ i + 1 ∉ F.

(** With an odd number of disks RAID0+1 does not use the last one. *)
Definition mirror_tolerates (t : Z) (F : gset Z) : Prop :=
  (forall k, 0 <= k < m_n t -> disk_ok F (m_d0 t k) \/ disk_ok F (m_d1 t k)) /\
  (t = RAID0_1 -> forall d, d ∈ F -> d <= 2 * (DISKS / 2)).

Definition mirror_inv (t : Z) (vol : gmap Z block) (F : gset Z) (s : State) : Prop :=
  mirror_ready t F s /\
  forall v x, vol !! v = Some x -> 0 <= v < capacity t /\
    forall j, j = m_d0 t (m_pair t v) \/ j = m_d1 t (m_pair t v) ->
      dvalid s j = true -> blk s (j + 1) (m_row t v) = x.

Section mirror.
Variable t : Z.
Hypothesis Ht : mirrored t.

Lemma mirrored_level : is_level t.
Proof. unfold is_level. destruct Ht as [-> | ->]; done. Qed.

Lemma dvalid_disk_ok F s i : ready t F s -> 0 <= i <= DISKS -> dvalid s i = true <-> disk_ok F i.
Proof.
  intros Hr Hi. unfold disk_ok. destruct (decide (i < DISKS)).
  - rewrite (rd_failed _ _ _ Hr), bool_decide_eq_true by lia. tauto.
  - destruct (diskinfo_at_le s i (rd_wf _ _ _ Hr) Hi) as (n' & _ & Hv).
    split; [intros E; destruct (Hv E); lia|lia].
Qed.

Lemma pair_alive F s k : ready t F s -> mirror_tolerates t F -> 0 <= k < m_n t ->
  dvalid s (m_d0 t k) || dvalid s (m_d1 t k) = true.
Proof.
  intros Hr [HF _] Hk. pose proof (m_pairing t Ht) as Hpg.
  pose proof (pg_d1 _ _ _ Hpg k Hk). pose proof (pg_d0 _ _ _ Hpg k Hk).
  apply orb_true_iff. rewrite !(dvalid_disk_ok F) by (done || lia). by apply HF.
Qed.

Lemma mirror_level_read vol F v buf s : mirror_inv t vol F s -> mirror_tolerates t F ->
  0 <= v < capacity t ->
  wp (readraid v buf) (fun r s' => s' = s /\ r.1 = 0 /\ forall x, vol !! v = Some x -> r.2 = x) s.
Proof.
  intros [Hm Hvol] HF Hv. pose proof Hm as [Hr _]. destruct (m_addr t v Ht Hv) as [Hp Hrow].
  pose proof (pair_alive F s _ Hr HF Hp) as Halive.
  eapply wp_readraid; [exact Hr|apply mirrored_level|].
  replace (level_read t) with (mirror_read t) by (destruct Ht as [-> | ->]; done).
  eapply wp_mono; [by apply (mirror_read_spec t F)|]. rewrite Halive.
  intros r s' (-> & ->). split; [done|]. split; [done|]. simpl. intros x Hx.
  destruct (Hvol v x Hx) as [_ Hb]. apply Hb; unfold read_side; destruct (dvalid s (m_d0 t (m_pair t v))) eqn:E; auto.
Qed.

Lemma write_disk_if_blk s c j b data e b' :
  blk (set_disk (write_disk_if (st_disk s) c j b data) s) e b' =
    if c && bool_decide (j + 1 = e /\ b = b') then data else blk s e b'.
Proof. destruct c; simpl; [apply blk_insert|by rewrite set_disk_id]. Qed.

Lemma same_meta_write_if s c0 c1 j0 j1 b data : data_row b ->
  same_meta s (set_disk (write_disk_if (write_disk_if (st_disk s) c0 j0 b data) c1 j1 b data) s).
Proof.
  intros [_ Hb]. eexists. split; [done|]. intros e.
  destruct c0, c1; simpl; rewrite ?lookup_insert_ne by (intros [=]; lia); done.
Qed.

Lemma mirror_level_write vol F v data s : mirror_inv t vol F s -> mirror_tolerates t F ->
  0 <= v < capacity t -> wf_block data ->
  wp (writeraid v data) (fun r s' => r = 0 /\ mirror_inv t (<[v := data]> vol) F s' /\ same_meta s s') s.
Proof.
  intros [Hm Hvol] HF Hv Hd. pose proof Hm as [Hr Hps]. destruct (m_addr t v Ht Hv) as [Hp Hrow].
  pose proof (pair_alive F s _ Hr HF Hp) as Halive.
  eapply wp_writeraid; [exact Hr|apply mirrored_level|].
  replace (level_write t) with (mirror_write t) by (destruct Ht as [-> | ->]; done).
  eapply wp_mono; [by apply (mirror_write_spec t F)|]. rewrite Halive.
  intros r s' (-> & ->). split; [done|]. split; [|by apply same_meta_write_if].
  set (s1 := set_disk (write_disk_if (st_disk s) (dvalid s (m_d0 t (m_pair t v))) (m_d0 t (m_pair t v)) (m_row t v) data) s).
  match goal with |- mirror_inv _ _ _ ?st => change st with (set_disk (write_disk_if (st_disk s1)
    (dvalid s (m_d1 t (m_pair t v))) (m_d1 t (m_pair t v)) (m_row t v) data) s1) end.
  assert (HB : forall e b, blk (set_disk (write_disk_if (st_disk s1)
      (dvalid s (m_d1 t (m_pair t v))) (m_d1 t (m_pair t v)) (m_row t v) data) s1) e b =
    if dvalid s (m_d1 t (m_pair t v)) && bool_decide (m_d1 t (m_pair t v) + 1 = e /\ m_row t v = b) then data
    else if dvalid s (m_d0 t (m_pair t v)) && bool_decide (m_d0 t (m_pair t v) + 1 = e /\ m_row t v = b) then data
    else blk s e b).
  { intros e b. rewrite write_disk_if_blk. unfold s1. by rewrite write_disk_if_blk. }
  split; [split|].
  - destruct Hr. constructor; try done. constructor; [apply rd_wf|apply rd_wf|].
    intros e b Hb. rewrite HB. repeat case_match; try done. by apply rd_wf.
  - done.
  - intros w x. destruct (decide (v = w)) as [<-|Hne].
    + rewrite lookup_insert_eq. intros [= <-]. split; [done|]. intros j Hj Hvj. rewrite HB.
      change (dvalid s j = true) in Hvj. destruct Hj as [-> | ->].
      * rewrite Hvj, (bool_decide_eq_true_2 (m_d0 t (m_pair t v) + 1 = _ /\ _)) by done. by case_match.
      * by rewrite Hvj, bool_decide_eq_true_2 by done.
    + rewrite lookup_insert_ne by done. intros Hw. destruct (Hvol w x Hw) as [Hwr Hx]. split; [done|].
      intros j Hj Hvj. rewrite HB. rewrite <- (Hx j Hj Hvj). destruct (m_addr t w Ht Hwr) as [Hpw Hroww].
      assert (Hdiff : forall i, (i = m_d0 t (m_pair t v) \/ i = m_d1 t (m_pair t v)) ->
        ~ (i + 1 = j + 1 /\ m_row t v = m_row t w)).
      { intros i Hi [E1 E2]. destruct (decide (m_pair t v = m_pair t w)) as [E|E].
        - apply Hne. by apply (m_addr_inj t).
        - destruct (m_disks_inj t _ _ Ht Hp Hpw E) as (? & ? & ? & ?).
          assert (i = j) by lia. destruct Hi as [-> | ->], Hj as [-> | ->]; done. }
      rewrite !bool_decide_eq_false_2 by auto. by rewrite !andb_false_r.
Qed.

Lemma mirror_ext vol F s s' : mirror_inv t vol F s -> ready t F s' -> same_rows s s' ->
  (t <> RAID0 -> rm_data (st_meta s') = rm_data (st_meta s)) -> mirror_inv t vol F s'.
Proof.
  intros [[Hr Hd] Hvol] Hr' Hrow Hd'. split.
  - split; [done|]. rewrite Hd'; [done|]. destruct Ht as [-> | ->]; done.
  - intros v x Hv. destruct (Hvol v x Hv) as [Hvr Hx]. split; [done|]. intros j Hj Hvj.
    destruct (m_addr t v Ht Hvr) as [Hp Hrw]. rewrite Hrow by done. apply Hx; [done|].
    pose proof (m_pairing t Ht) as Hpg.
    pose proof (pg_d1 _ _ _ Hpg _ Hp). pose proof (pg_d0 _ _ _ Hpg _ Hp).
    rewrite (dvalid_disk_ok F) in * by (done || (destruct Hj as [-> | ->]; lia)). done.
Qed.

Lemma mirror_level_init F s : settled F s ->
  wp (setraidtype t) (fun r s' => r = 0 /\ mirror_inv t ∅ F s' /\ (dvalid s' 1 = true -> saved s')) s.
Proof.
  intros Hs. eapply wp_mono.
  { apply setraidtype_spec; [exact Hs|apply mirrored_level|].
    intros [E|E]; exfalso; destruct Ht as [E'|E']; rewrite E' in E; done. }
  intros r s' (-> & Hr & Hd & _ & Hsv). split; [done|]. split; [|done]. split.
  - split; [done|]. rewrite Hd. destruct Ht as [-> | ->]; done.
  - intros v x Hv. by rewrite lookup_empty in Hv.
Qed.

Lemma mirror_level_fail vol F d s : mirror_inv t vol F s -> 1 <= d <= DISKS ->
  wp (raidfail d) (fun r s' => r = 0 /\ mirror_inv t vol ({[d]} ∪ F) s' /\ (dvalid s' 1 = true -> saved s') /\
      same_kernel s s') s.
Proof.
  intros [[Hr Hps] Hvol] Hd. eapply wp_mono; [by apply (raidfail_spec t F)|].
  intros r s' (-> & (D & Hs' & HD) & Hr' & Hsv). split; [done|].
  split; [|split; [done|subst s'; apply with_valid_kernel]].
  split; [split; [done|by subst s']|].
  intros v x Hv. destruct (Hvol v x Hv) as [Hvr Hx]. split; [done|]. intros j Hj Hvj.
  rewrite HD by (by apply (m_addr t v Ht)). apply Hx; [done|].
  subst s'. change (dvalid (with_valid (d - 1) 0 s) j = true) in Hvj.
  rewrite dvalid_with_valid in Hvj; [|apply (wf_info _ (rd_wf _ _ _ Hr))|lia].
  by destruct (j =? d - 1).
Qed.

(** The pair and the side of a disk the level uses. *)
Lemma mirror_partner F d : mirror_tolerates t F -> d ∈ F -> 1 <= d <= DISKS ->
  exists k side j, 0 <= k < m_n t /\ disk_ok F j /\ 0 <= j < DISKS /\
    (if t =? RAID1 then repair_raid1 (d - 1) else repair_raid0_1 (d - 1)) = repair_mirror (d - 1) k side /\
    (side = 1 /\ d - 1 = m_d0 t k /\ j = m_d1 t k \/ side = 0 /\ d - 1 = m_d1 t k /\ j = m_d0 t k).
Proof.
  intros [HF Hodd] Hd Hr. pose proof DISKS_range.
  assert (Hex : exists k side, 0 <= k < m_n t /\
    (if t =? RAID1 then repair_raid1 (d - 1) else repair_raid0_1 (d - 1)) = repair_mirror (d - 1) k side /\
    (side = 1 /\ d - 1 = m_d0 t k \/ side = 0 /\ d - 1 = m_d1 t k)).
  { destruct Ht as [-> | ->]; simpl.
    - exists ((d - 1) / 2), (1 - (d - 1) mod 2). unfold repair_raid1.
      rewrite Z.quot_div_nonneg, Z.rem_mod_nonneg by lia.
      unfold m_n, m_d0, m_d1, npairs_raid1. simpl.
      split; [Z.div_mod_to_equations; lia|]. split; [done|]. Z.div_mod_to_equations; lia.
    - pose proof (Hodd eq_refl d Hd). assert (0 < DISKS / 2) by lia.
      exists ((d - 1) mod (DISKS / 2)), (1 - (d - 1) / (DISKS / 2)). unfold repair_raid0_1.
      rewrite (proj2 (Z.eqb_neq (DISKS / 2) 0)) by lia.
      rewrite Z.quot_div_nonneg, Z.rem_mod_nonneg by lia.
      unfold m_n, m_d0, m_d1, npairs_raid0_1. simpl.
      split; [apply Z.mod_pos_bound; lia|]. split; [done|].
      assert ((d - 1) / (DISKS / 2) = 0 \/ (d - 1) / (DISKS / 2) = 1) as E.
      { assert (0 <= (d - 1) / (DISKS / 2) < 2); [|lia].
        split; [apply Z.div_pos; lia|apply Z.div_lt_upper_bound; lia]. }
      pose proof (Z.div_mod (d - 1) (DISKS / 2)). destruct E as [E|E]; rewrite E in *; lia. }
  destruct Hex as (k & side & Hk & Hrep & Hside). pose proof (m_pairing t Ht) as Hpg.
  pose proof (pg_d1 _ _ _ Hpg k Hk). pose proof (pg_d0 _ _ _ Hpg k Hk).
  assert (Hbad : ~ disk_ok F (d - 1)).
  { intros [_ Hn]. apply Hn. by replace (d - 1 + 1) with d by lia. }
  destruct Hside as [[-> Hs]|[-> Hs]]; rewrite Hs in Hbad.
  - exists k, 1, (m_d1 t k). destruct (HF k Hk) as [?|Hok]; [done|].
    split; [done|]. split; [done|]. split; [destruct Hok; lia|]. auto.
  - exists k, 0, (m_d0 t k). destruct (HF k Hk) as [Hok|?]; [|done].
    split; [done|]. split; [done|]. split; [destruct Hok; lia|]. auto.
Qed.

Lemma mirror_level_repair vol F d s : mirror_inv t vol F s -> mirror_tolerates t F -> d ∈ F ->
  wp (raidrepair d) (fun r s' => r = 0 /\ mirror_inv t vol (F ∖ {[d]}) s' /\ (dvalid s' 1 = true -> saved s') /\
      same_kernel s s') s.
Proof.
  intros [Hm Hvol] HF Hd. pose proof Hm as [Hr Hps]. destruct (ready_failed _ _ _ _ Hr Hd) as [Hdr Hdv].
  destruct (mirror_partner F d HF Hd Hdr) as (k & side & j & Hk & Hj & Hjr & Hrep & Hside).
  eapply raidrepair_failed; [exact Hr|apply mirrored_level|exact Hd|].
  assert (E : (if t =? RAID0 then ret ERR else if t =? RAID1 then repair_raid1 (d - 1)
      else if t =? RAID0_1 then repair_raid0_1 (d - 1) else repair_parity (d - 1)) =
    (if t =? RAID1 then repair_raid1 (d - 1) else repair_raid0_1 (d - 1))).
  { destruct Ht as [-> | ->]; reflexivity. }
  rewrite E, Hrep. clear E.
  eapply wp_mono; [apply (repair_mirror_spec t F k (d - 1) j side); [done|done|done|lia|done]|].
  rewrite (proj2 (dvalid_disk_ok F s j Hr ltac:(lia)) Hj).
  intros r s' (-> & Hrp & Hsv). split; [done|]. split; [|split; [done|by eapply repaired_kernel]].
  assert (Hr' : ready t (F ∖ {[d]}) s').
  { replace d with (d - 1 + 1) by lia. eapply repaired_ready; [exact Hr|lia| |exact Hrp].
    intros b x Hb [= <-]. by apply (wf_blocks _ (rd_wf _ _ _ Hr)). }
  destruct Hrp as (D & Hs' & HB). split; [split; [done|by subst s']|].
  intros v x Hv. destruct (Hvol v x Hv) as [Hvr Hx]. split; [done|].
  destruct (m_addr t v Ht Hvr) as [Hp Hrow]. intros i Hi Hvi. rewrite HB by done.
  destruct (Z.eqb_spec (i + 1) (d - 1 + 1)) as [E|E]; simpl.
  - assert (i = d - 1) as -> by lia.
    assert (k = m_pair t v) as ->.
    { destruct (decide (k = m_pair t v)) as [|Hne]; [done|].
      destruct (m_disks_inj t _ _ Ht Hk Hp Hne) as (? & ? & ? & ?).
      destruct Hside as [(_ & E1 & _)|(_ & E1 & _)], Hi as [E2|E2]; congruence. }
    apply Hx; [destruct Hside as [(_ & _ & ->)|(_ & _ & ->)]; auto|].
    by apply (dvalid_disk_ok F); [done|lia|].
  - apply Hx; [done|]. subst s'. change (dvalid (with_valid (d - 1) 1 s) i = true) in Hvi.
    rewrite dvalid_with_valid in Hvi; [|apply (wf_info _ (rd_wf _ _ _ Hr))|lia].
    destruct (Z.eqb_spec i (d - 1)); [lia|done].
Qed.

Lemma mirror_tolerates_sub F F' : mirror_tolerates t F -> F' ⊆ F -> mirror_tolerates t F'.
Proof.
  intros [H1 H2] Hs. split; [|set_solver]. intros k Hk. unfold disk_ok in *.
  destruct (H1 k Hk) as [[? ?]|[? ?]]; [left|right]; set_solver.
Qed.

End mirror.

#[export] Instance raid1_level : RaidLevel RAID1 := {|
  lv_tolerates := mirror_tolerates RAID1; lv_inv := mirror_inv RAID1 |}.
#[export] Instance raid0_1_level : RaidLevel RAID0_1 := {|
  lv_tolerates := mirror_tolerates RAID0_1; lv_inv := mirror_inv RAID0_1 |}.

#[export] Instance raid1_level_ok : RaidLevelOK RAID1.
Proof.
  assert (Ht : mirrored RAID1) by (by left).
  constructor; simpl; eauto using mirror_level_init, mirror_level_read, mirror_level_write,
    mirror_level_fail, mirror_level_repair, mirror_tolerates_sub, mirror_ext.
  - by intros ? ? ? [[? _] _].
  - by intros ? ? ? [[_ ?] _].
  - intros vol F v data s Hi HF Hv Hd. eapply wp_mono; [by eapply mirror_level_write|].
    intros r s' (-> & Hi' & Hm). auto using same_meta_kernel.
Qed.

#[export] Instance raid0_1_level_ok : RaidLevelOK RAID0_1.
Proof.
  assert (Ht : mirrored RAID0_1) by (by right).
  constructor; simpl; eauto using mirror_level_init, mirror_level_read, mirror_level_write,
    mirror_level_fail, mirror_level_repair, mirror_tolerates_sub, mirror_ext.
  - by intros ? ? ? [[? _] _].
  - by intros ? ? ? [[_ ?] _].
  - intros vol F v data s Hi HF Hv Hd. eapply wp_mono; [by eapply mirror_level_write|].
    intros r s' (-> & Hi' & Hm). auto using same_meta_kernel.
Qed.

(** ** The parity levels survive one failure *)

Section parity.
Variable t : Z.
Context `{!ParityLayout t, !ParityLayoutOK t}.
Hypothesis Ht : is_parity t.

Definition parity_tolerates (F : gset Z) : Prop := (size F <= 1)%nat.
Definition parity_inv (vol : gmap Z block) (F : gset Z) (s : State) : Prop :=
  exists l, parity_vol t vol F l s.

Lemma parity_is_level : is_level t.
Proof. unfold is_level. destruct Ht as [-> | ->]; done. Qed.

Lemma parity_level_init F s : settled F s -> parity_tolerates F ->
  wp (setraidtype t) (fun r s' => r = 0 /\ parity_inv ∅ F s' /\ (dvalid s' 1 = true -> saved s')) s.
Proof.
  intros Hs HF. eapply wp_mono; [apply setraidtype_spec; [exact Hs|apply parity_is_level|done]|].
  intros r s' (-> & Hr & Hd & _ & Hsv). split; [done|]. split; [|done]. pose proof nclusters_range.
  exists (replicate (Z.to_nat nclusters) 0). constructor.
  - done.
  - rewrite Hd. destruct Ht as [-> | ->]; done.
  - apply length_replicate.
  - apply Forall_replicate. lia.
  - by apply size_le_1.
  - intros _ b Hb (x & Hx & Hx0). rewrite znth_replicate in Hx; [congruence|].
    pose proof (cluster_of_range b Hb). lia.
  - intros v x Hv. by rewrite lookup_empty in Hv.
Qed.

(** With the parity right, the other disks determine a block. *)
Lemma row_ok_xothers s i b : blocks_wf s -> data_row b -> 0 <= i < DISKS -> row_ok s b ->
  xothers s i b = blk s (i + 1) b.
Proof.
  intros Hs Hb Hi Hok.
  apply (xsum_reconstruct (rowf s b) i (range 0 DISKS)); [apply range_NoDup|by apply elem_of_range| |done].
  intros. by apply Hs.
Qed.

Lemma parity_level_fail vol F d s : parity_inv vol F s -> parity_tolerates ({[d]} ∪ F) -> 1 <= d <= DISKS ->
  wp (raidfail d) (fun r s' => r = 0 /\ parity_inv vol ({[d]} ∪ F) s' /\ (dvalid s' 1 = true -> saved s') /\
      same_kernel s s') s.
Proof.
  intros (l & [Hr Hd Hlen Hbytes Hone Hpar Hvol]) HF Hdr. eapply wp_mono; [by apply (raidfail_spec t F)|].
  intros r s' (-> & (D & Hs' & HD) & Hr' & Hsv). split; [done|].
  split; [|split; [done|subst s'; apply with_valid_kernel]]. exists l. constructor; try done.
  - by subst s'.
  - by apply size_le_1.
  - intros E. exfalso. set_solver.
  - intros v x Hv. destruct (Hvol v x Hv) as (Hvr & Hlv & Hx). split; [done|]. split; [done|].
    rewrite <- Hx. pose proof (pl_row_range v Hvr) as Hrow. pose proof (pl_disk_range v Hvr) as Hdk.
    assert (HB : forall e, blk s' e (pl_row t v) = blk s e (pl_row t v)) by (intros; by apply HD).
    assert (HX : xothers s' (pl_disk t v) (pl_row t v) = xothers s (pl_disk t v) (pl_row t v)).
    { apply xsum_ext. intros. apply HB. }
    unfold lblk. rewrite HX, HB.
    assert (Hdv : dvalid s' (pl_disk t v) = if pl_disk t v =? d - 1 then false else dvalid s (pl_disk t v)).
    { subst s'. apply (dvalid_with_valid (d - 1) 0 s); [apply (wf_info _ (rd_wf _ _ _ Hr))|lia]. }
    rewrite Hdv. destruct (Z.eqb_spec (pl_disk t v) (d - 1)) as [E|E]; [|done].
    destruct (dvalid s (pl_disk t v)) eqn:Ev; [|done].
    apply row_ok_xothers; [apply (wf_blocks _ (rd_wf _ _ _ Hr))|done|done|].
    apply Hpar; [|done|done]. apply set_eq. intros e. split; [|set_solver]. intros He. exfalso.
    rewrite (rd_failed _ _ _ Hr), bool_decide_eq_true, E in Ev by done. apply Ev.
    replace (d - 1 + 1) with e; [done|].
    replace (d - 1 + 1) with d by lia. apply (size_le_1 _ HF); set_solver.
Qed.

Lemma repaired_row_ok l i s s' b : blocks_wf s -> 0 <= i < DISKS -> data_row b -> loaded_at l b ->
  repaired i (fun b => if loadedb l b then Some (xothers s i b) else None) s s' -> row_ok s' b.
Proof.
  intros Hs Hi Hb Hl (D & _ & HB). unfold row_ok.
  rewrite (xsum_split _ i) by (try apply range_NoDup; by apply elem_of_range).
  unfold rowf at 1. rewrite HB, Z.eqb_refl, (proj2 (loadedb_spec l b) Hl) by done. simpl.
  replace (xsum (rowf s' b) _) with (xothers s i b).
  - apply bxor_self, wf_xsum. intros. by apply Hs.
  - apply xsum_ext. intros k [Hk _]%elem_of_others. unfold rowf. rewrite HB by done.
    by destruct (Z.eqb_spec (k + 1) (i + 1)); [lia|].
Qed.

Lemma parity_level_repair vol F d s : parity_inv vol F s -> d ∈ F ->
  wp (raidrepair d) (fun r s' => r = 0 /\ parity_inv vol (F ∖ {[d]}) s' /\ (dvalid s' 1 = true -> saved s') /\
      same_kernel s s') s.
Proof.
  intros (l & [Hr Hd Hlen Hbytes Hone Hpar Hvol]) HdF. destruct (ready_failed _ _ _ _ Hr HdF) as [Hdr Hdv].
  pose proof (wf_blocks _ (rd_wf _ _ _ Hr)) as Hwf.
  eapply raidrepair_failed; [exact Hr|apply parity_is_level|exact HdF|].
  assert (E : (if t =? RAID0 then ret ERR else if t =? RAID1 then repair_raid1 (d - 1)
      else if t =? RAID0_1 then repair_raid0_1 (d - 1) else repair_parity (d - 1)) = repair_parity (d - 1)).
  { destruct Ht as [-> | ->]; reflexivity. }
  rewrite E. clear E.
  eapply wp_mono; [apply (repair_parity_spec t F l); [done|done|done|done|lia|done]|].
  intros r s' (-> & Hrp & Hsv). split; [done|]. split; [|split; [done|by eapply repaired_kernel]]. exists l.
  assert (Hr' : ready t (F ∖ {[d]}) s').
  { replace d with (d - 1 + 1) by lia. eapply repaired_ready; [exact Hr|lia| |exact Hrp].
    intros b x Hb. cbv beta. destruct (loadedb l b); [|done]. intros [= <-]. apply wf_xsum. intros. by apply Hwf. }
  constructor; try done.
  - by destruct Hrp as (D & -> & _).
  - set_solver.
  - intros _ b Hb Hl. eapply (repaired_row_ok l (d - 1) s); try done. lia.
  - intros v x Hv. destruct (Hvol v x Hv) as (Hvr & Hlv & Hx). split; [done|]. split; [done|].
    rewrite <- Hx. pose proof (pl_row_range v Hvr) as Hrow. pose proof (pl_disk_range v Hvr) as Hdk.
    assert (HF' : F ∖ {[d]} = ∅) by set_solver.
    destruct Hrp as (D & _ & HB). unfold lblk. rewrite (ready_all_valid t _ s' Hr' HF') by done.
    rewrite HB by done. replace (d - 1 + 1) with d by lia.
    destruct (Z.eqb_spec (pl_disk t v + 1) d) as [Ed|Ed].
    + replace (pl_disk t v) with (d - 1) by lia.
      by rewrite (proj2 (loadedb_spec l _) Hlv), Hdv.
    + destruct (dvalid s (pl_disk t v)) eqn:Ev; [done|]. exfalso. apply Ed.
      apply Hone; [|done]. rewrite (rd_failed _ _ _ Hr), bool_decide_eq_false in Ev by done. by apply dec_stable.
Qed.

Lemma parity_tolerates_sub F F' : parity_tolerates F -> F' ⊆ F -> parity_tolerates F'.
Proof. unfold parity_tolerates. intros HF Hs. pose proof (subseteq_size _ _ Hs). lia. Qed.

Lemma lblk_ready F s s' d b : ready t F s -> ready t F s' -> same_rows s s' -> data_row b ->
  0 <= d < DISKS -> lblk s' d b = lblk s d b.
Proof.
  intros Hr Hr' Hrow Hb Hd. unfold lblk. rewrite (rd_failed _ _ _ Hr), (rd_failed _ _ _ Hr') by done.
  case_match; [by apply Hrow|]. apply xsum_ext. intros. by apply Hrow.
Qed.

Lemma parity_ext vol F s s' : parity_inv vol F s -> ready t F s' -> same_rows s s' ->
  (t <> RAID0 -> rm_data (st_meta s') = rm_data (st_meta s)) -> parity_inv vol F s'.
Proof.
  intros (l & [Hr Hd Hlen Hbytes Hone Hpar Hvol]) Hr' Hrow Hd'. exists l. constructor; try done.
  - rewrite Hd'; [done|]. destruct Ht as [-> | ->]; done.
  - intros HF b Hb Hl. apply (row_ok_ext s); [|by apply Hpar]. intros. by apply Hrow.
  - intros v x Hv. destruct (Hvol v x Hv) as (Hvr & Hl & <-). split; [done|]. split; [done|].
    apply (lblk_ready F); [done|done|done|by apply pl_row_range|by apply pl_disk_range].
Qed.

Definition parity_level : RaidLevel t := {|
  lv_tolerates := parity_tolerates; lv_inv := parity_inv |}.

(** The laws follow from the specifications of the level's read and write. *)
Hypothesis level_read_spec : forall F v buf s, ready t F s ->
  (forall d e, d ∈ F -> e ∈ F -> d = e) -> 0 <= v < capacity t ->
  wp (level_read t v buf) (fun r s' => s' = s /\ r = (0, lblk s (pl_disk t v) (pl_row t v))) s.
Hypothesis level_write_spec : forall F l v data s, ready t F s ->
  (forall d e, d ∈ F -> e ∈ F -> d = e) ->
  rm_data (st_meta s) = DataParity (mk_ParityData l 0 0) -> length l = Z.to_nat nclusters ->
  0 <= v < capacity t ->
  wp (level_write t v data) (fun r s' => r = 0 /\
    write_post t l (pl_disk t v) (pl_parity t (pl_row t v)) (pl_row t v) data s s') s.

Lemma parity_level_ok : RaidLevelOK t (L := parity_level).
Proof.
  constructor; simpl.
  - intros vol F s [l Hv]. apply Hv.
  - intros vol F s [l [_ Hd Hlen Hbytes _ _ _]]. destruct Ht as [-> | ->]; by exists l.
  - apply parity_tolerates_sub.
  - apply parity_ext.
  - apply parity_level_init.
  - intros vol F v buf s [l [Hr Hd Hlen Hbytes Hone Hpar Hvol]] HF Hv. eapply wp_readraid; [exact Hr|apply parity_is_level|].
    eapply wp_mono; [by eapply level_read_spec|]. intros r s' [-> ->].
    split; [done|]. split; [done|]. intros x Hx. by apply Hvol.
  - intros vol F v data s [l Hpv] HF Hv Hdata. pose proof Hpv as [Hr Hd Hlen _ Hone _ _].
    eapply wp_writeraid; [exact Hr|apply parity_is_level|]. eapply wp_mono; [by eapply level_write_spec|].
    intros r s' [-> Hw]. split; [done|]. split; [by eapply write_vol|]. split; [done|].
    destruct Hw as (s1 & -> & Hs1). destruct (parity_written_only s1 (pl_disk t v) (pl_parity t (pl_row t v))
      (pl_row t v) data) as [D ->]. destruct Hs1 as [[_ ->]|[_ (D1 & -> & _)]]; [apply same_kernel_disk|].
    by eexists _, D.
  - apply parity_level_fail.
  - intros vol F d s Hv _. by apply parity_level_repair.
Qed.

End parity.

#[export] Instance raid4_level : RaidLevel RAID4 := parity_level RAID4.
#[export] Instance raid5_level : RaidLevel RAID5 := parity_level RAID5.

#[export] Instance raid4_level_ok : RaidLevelOK RAID4.
Proof. exact (parity_level_ok RAID4 (or_introl eq_refl) raid4read_spec raid4write_spec). Qed.
#[export] Instance raid5_level_ok : RaidLevelOK RAID5.
Proof. exact (parity_level_ok RAID5 (or_intror eq_refl) raid5read_spec raid5write_spec). Qed.

(** ** The level of an array chosen at run time *)

Definition any_level (t : Z) : RaidLevel t := {|
  lv_tolerates F :=
    if t =? RAID0 then lv_tolerates RAID0 F else if t =? RAID1 then lv_tolerates RAID1 F
    else if t =? RAID0_1 then lv_tolerates RAID0_1 F else if t =? RAID4 then lv_tolerates RAID4 F
    else lv_tolerates RAID5 F;
  lv_inv vol F s :=
    if t =? RAID0 then lv_inv RAID0 vol F s else if t =? RAID1 then lv_inv RAID1 vol F s
    else if t =? RAID0_1 then lv_inv RAID0_1 vol F s else if t =? RAID4 then lv_inv RAID4 vol F s
    else lv_inv RAID5 vol F s;
|}.

Lemma any_level_ok t : is_level t -> RaidLevelOK t (L := any_level t).
Proof.
  intros Ht. destruct (is_level_cases t Ht) as [-> | [-> | [-> | [-> | ->]]]].
  - exact raid0_level_ok.
  - exact raid1_level_ok.
  - exact raid0_1_level_ok.
  - exact raid4_level_ok.
  - exact raid5_level_ok.
Qed.

End levels.
