(* ===== verification/Boot.v ===== *)
(** * Boot states and concrete configurations

    The state the kernel has when [forkret] calls [loadraid] for the first
    process: the bss zero, some free pages, whatever is on the disks.  The
    configuration of the Makefile ([makefile_config]: 6 disks of 8 MB) and a
    small one for the examples. *)

From stdpp Require Import base numbers list gmap strings sets.
From Stdlib Require Import ZArith Lia.
From S2P Require Import Prelude Blocks Monad State Locks Kalloc Codec MetaImage RaidCore Raid0 RaidPair ParityArray ParityVolume Raid4 Raid5 RaidCtl RaidOps RaidLevels.
Open Scope Z_scope.

Section boot.
Context `{Config}.

Definition zero_meta : RAIDMeta :=
  mk_RAIDMeta 0 (replicate (Z.to_nat (DISKS + 1)) (mk_DiskInfo 0 0)) 0 DataNone 0 0.

Definition zero_spins : gmap spinid spinlock :=
  list_to_map (map (fun i => (i, mk_spinlock 0 0 0))
    (KmemLock :: RepairLock :: LkOf ClusterLock ::
     map (fun i => LkOf (DiskLock i)) (range 0 (DISKS + 1)) ++
     map PairMutex (range 0 npairs_raid1))).
Definition zero_sleeps : gmap sleepid sleeplock :=
  list_to_map (map (fun i => (i, mk_sleeplock 0 0 0))
    (ClusterLock :: map DiskLock (range 0 (DISKS + 1)))).

Definition boot_state (free : list Z) (disks : gmap (Z * Z) block) : State :=
  mkState (mk_cpu 1 0 true true) 1 zero_spins zero_sleeps free zero_meta disks.

(** Turning the machine off and on: the disks keep their contents; [free] is
    what [kinit] makes of the memory. *)
Definition power_cycle (free : list Z) (s : State) : State := boot_state free (st_disk s).

Lemma zero_map_lookup {I A} `{Countable I} (l : list I) (x : A) i : i ∈ l ->
  (list_to_map (map (fun i => (i, x)) l) : gmap I A) !! i = Some x.
Proof.
  induction l as [|j l IH]; intros Hi; [by apply elem_of_nil in Hi|]. simpl.
  destruct (decide (j = i)) as [->|Hne]; [apply lookup_insert_eq|].
  rewrite lookup_insert_ne by done. apply IH. by apply elem_of_cons in Hi as [->|].
Qed.

Context `{!ConfigOK}.

Lemma zero_spins_free i : spin_place i -> zero_spins !! i = Some (mk_spinlock 0 0 0).
Proof.
  intros Hi. apply zero_map_lookup. rewrite !elem_of_cons, elem_of_app.
  destruct i as [|k| |[k|]]; simpl in Hi; auto.
  - do 4 right. apply list_elem_of_fmap. exists k. by rewrite elem_of_range.
  - do 3 right. left. apply list_elem_of_fmap. exists k. rewrite elem_of_range. auto with lia.
Qed.

Lemma zero_sleeps_free i : sleep_place i -> zero_sleeps !! i = Some (mk_sleeplock 0 0 0).
Proof.
  intros Hi. apply zero_map_lookup. rewrite elem_of_cons.
  destruct i as [k|]; simpl in Hi; auto. right. apply list_elem_of_fmap.
  exists k. rewrite elem_of_range. auto with lia.
Qed.

Lemma boot_spins_free free disks : spins_free (boot_state free disks).
Proof. split; [done|]. intros i Hi. exists 0. by apply zero_spins_free. Qed.

End boot.

(** Numbered addresses stand for the linker's. *)
Definition config_of (disks bytes : Z) : Config := {|
  DISKS := disks;
  DISK_SIZE_BYTES := bytes;
  kernel_end := 0x80022000;
  addr_raidmeta := 0x80021000;
  addr_string x := 0x80008000 + Z.of_nat (String.length x) mod 0x1000;
  addr_raidread t := 0x80005000 + 0x100 * t;
  addr_raidwrite t := 0x80006000 + 0x100 * t;
|}.

Lemma config_of_ok n k : 1 <= n <= 8 -> 1 <= k <= 400 ->
  @ConfigOK (config_of n (k * (CLUSTER_SIZE * BSIZE))).
Proof.
  intros Hn Hk.
  assert (Hc : @nclusters (config_of n (k * (CLUSTER_SIZE * BSIZE))) = k).
  { unfold nclusters, nblocks. simpl. unfold CLUSTER_SIZE, BSIZE. rewrite Z.mul_assoc, !Z.div_mul; lia. }
  constructor; rewrite ?Hc; simpl; try done.
  - intros x. pose proof (Z.mod_pos_bound (Z.of_nat (String.length x)) 0x1000). lia.
  - unfold RAID0, RAID5. lia.
  - unfold RAID0, RAID5. lia.
  - lia.
  - lia.
Qed.

(** The Makefile's defaults. *)
Definition makefile_config : Config := config_of 6 (64 * (CLUSTER_SIZE * BSIZE)).
#[export] Instance makefile_config_ok : @ConfigOK makefile_config.
Proof. by apply config_of_ok. Qed.

(** * The metadata survives a reboot

    [writeraidmeta] stores the bytes of [raidmeta] in the last block of the
    disks; [loadraid] reads them back from disk 1.  [stored]: disk 1 has the
    metadata of the array.  An array that is stored comes back after a power
    cycle with its level, its failed disks and its volume. *)

Section reboot.
Context `{ConfigOK}.

Definition free_lk (l : spinlock) : Prop := exists n, l = mk_spinlock 0 n 0.
Definition free_sl (l : sleeplock) : Prop := exists n, l = mk_sleeplock 0 n 0.

(** What the union of a block says, against the [data] of the metadata. *)
Definition data_holds (d : dataimg) (m : RAIDMeta) : Prop :=
  match d with
  | ImNone => rm_type m = RAID0
  | ImPairs ps => rm_data m = DataPairs (map im_pair ps) /\ (length ps <= Z.to_nat npairs_raid1)%nat /\
      forall p, p ∈ ps -> free_lk (im_mutex p)
  | ImParity d => rm_data m = DataParity (im_parity d) /\ free_lk (im_repairlock d) /\
      free_sl (im_sleep (im_clusterlock d)) /\ free_lk (im_lk (im_clusterlock d))
  end.

(** Block [b] has the metadata [m]; its disk locks may be held, but no spinlock. *)
Record holds_meta (b : block) (m : RAIDMeta) : Prop := {
  hm_type : im_type (c_dec c_RAIDMeta b) = rm_type m;
  hm_info : map im_info (im_diskinfo (c_dec c_RAIDMeta b)) = rm_diskinfo m;
  hm_destroyed : im_isDestroyed (c_dec c_RAIDMeta b) = rm_isDestroyed m;
  hm_read : im_read (c_dec c_RAIDMeta b) = rm_read m;
  hm_write : im_write (c_dec c_RAIDMeta b) = rm_write m;
  hm_spins : forall d, d ∈ im_diskinfo (c_dec c_RAIDMeta b) -> free_lk (im_lk (im_lock d));
  hm_last : exists d, znth (im_diskinfo (c_dec c_RAIDMeta b)) DISKS = Some d /\ free_sl (im_sleep (im_lock d));
  hm_data : data_holds (union_read (im_type (c_dec c_RAIDMeta b)) (im_data (c_dec c_RAIDMeta b))) m;
  hm_nonzero : existsb (fun x => negb (x =? 0)) b = true;
}.

Definition stored (s : State) : Prop :=
  exists b, st_disk s !! (1, diskblockn) = Some b /\ holds_meta b (st_meta s).

(** ** What [writeraidmeta] writes *)

Lemma norm_free_lk l : free_lk l -> free_lk (c_norm c_spinlock l).
Proof. intros [n ->]. by eexists. Qed.

Lemma norm_free_sl l : free_sl (im_sleep l) -> free_sl (im_sleep (c_norm c_sleeplock l)).
Proof. destruct l as [x lk]. simpl. intros [n ->]. by eexists. Qed.

Lemma norm_info d : 0 <= di_valid (im_info d) < 256 -> 0 <= di_diskn (im_info d) < 256 ->
  im_info (c_norm c_DiskInfo d) = im_info d.
Proof.
  destruct d as [[v n] l]. cbn -[Z.pow Z.modulo]. change (256 ^ 1) with 256.
  intros. by rewrite !Z.mod_small.
Qed.

Lemma norm_ptr k : 0 <= k <= DISKS -> c_norm c_diskptr k = k.
Proof.
  intros Hk. pose proof DISKS_range. pose proof addr_raidmeta_range.
  cbn -[Z.pow Z.modulo Z.div]. change (256 ^ 8) with (2 ^ 64).
  rewrite Z.mod_small by lia.
  replace (addr_raidmeta + 8 + 56 * k - addr_raidmeta - 8) with (k * 56) by lia.
  by apply Z.div_mul.
Qed.

Lemma norm_pair l p : 0 <= dp_disk0 p <= DISKS -> 0 <= dp_disk1 p <= DISKS ->
  dp_writing p = 0 -> dp_reading0 p = 0 -> dp_reading1 p = 0 ->
  im_pair (c_norm c_DiskPair (mk_pairimg l p)) = p.
Proof.
  destruct p as [a b w r0 r1]. simpl dp_disk0. simpl dp_disk1. simpl dp_writing.
  simpl dp_reading0. simpl dp_reading1. intros Ha Hb -> -> ->.
  pose proof (norm_ptr a Ha) as Ea. pose proof (norm_ptr b Hb) as Eb.
  unfold c_DiskPair. cbn [c_iso c_pair c_norm im_pair im_mutex dp_disk0 dp_disk1 dp_writing dp_reading0 dp_reading1 fst snd].
  rewrite Ea, Eb. done.
Qed.

Lemma le_bytes_nonzero n z : z mod 256 ^ Z.of_nat n <> 0 ->
  existsb (fun x => negb (x =? 0)) (le_bytes n z) = true.
Proof.
  rewrite <- le_val_bytes. intros Hz. apply not_false_iff_true. intros E. apply Hz. clear Hz.
  induction (le_bytes n z) as [|x l IH]; [done|]. simpl in *.
  apply orb_false_iff in E as [E1%negb_false_iff%Z.eqb_eq E2]. rewrite IH by done. lia.
Qed.

Lemma get_spin_free s i : free_spin s i -> free_lk (get_spin s i).
Proof. intros [n Hn]. unfold get_spin. rewrite Hn. by exists n. Qed.

Lemma imap_elem {A B} (f : nat -> A -> B) l y : y ∈ imap f l ->
  exists k x, l !! k = Some x /\ y = f k x.
Proof.
  intros [k Hk]%list_elem_of_lookup. rewrite list_lookup_imap in Hk.
  destruct (l !! k) as [x|] eqn:E; [|done]. simpl in Hk. exists k, x. naive_solver.
Qed.

Lemma znth_lookup {A} (l : list A) (k : nat) : znth l (Z.of_nat k) = l !! k.
Proof. unfold znth. destruct (Z.ltb_spec (Z.of_nat k) 0); [lia|]. by rewrite Nat2Z.id. Qed.

Lemma znth_to_nat {A} (l : list A) i : 0 <= i -> znth l i = l !! Z.to_nat i.
Proof. intros Hi. rewrite <- znth_lookup. by rewrite Z2Nat.id. Qed.

(** The mutexes and pairs of a mirrored level, from the bytes of the union. *)
Lemma union_pairs t s : mirrored t -> spins_free s ->
  rm_data (st_meta s) = DataPairs (idle_pairs (m_n t) (m_d0 t) (m_d1 t)) -> rm_type (st_meta s) = t ->
  data_holds (union_read t (union_bytes (data_image s))) (st_meta s).
Proof.
  intros Ht Hwf Hd Hty. pose proof (m_pairing t Ht) as Hpg. pose proof (idle_pairs_fit t (m_d0 t) (m_d1 t) Ht) as Hfit.
  set (ps := idle_pairs _ _ _) in *. set (img := imap (fun k p => mk_pairimg (get_spin s (PairMutex (Z.of_nat k))) p) ps).
  assert (Hli : length img = Z.to_nat (m_n t)).
  { unfold img. rewrite length_imap. unfold ps, idle_pairs, range. rewrite length_map, length_seqZ. lia. }
  assert (Hu : union_read t (union_bytes (data_image s)) = ImPairs (map (c_norm c_DiskPair) img)).
  { unfold data_image, union_bytes. rewrite Hd. fold img. rewrite Hli.
    unfold union_read. destruct Ht as [-> | ->]; cbn [Z.eqb]; f_equal;
      (rewrite (dec_enc (c := c_array _ c_DiskPair)); [done|]; split; [exact Hli|by apply Forall_true]). }
  rewrite Hu. unfold data_holds. rewrite Hd. split; [|split].
  - f_equal. rewrite map_map. apply list_eq. intros k. unfold img.
    change (map ?f ?l) with (f <$> l). rewrite list_lookup_fmap, list_lookup_imap.
    destruct (ps !! k) as [p|] eqn:Ek; [|done]. cbn [fmap option_fmap option_map]. f_equal. symmetry.
    rewrite <- znth_lookup in Ek.
    pose proof (znth_Some_lt _ _ _ Ek) as Hk.
    assert (Hk' : 0 <= Z.of_nat k < m_n t).
    { revert Hk. unfold ps, idle_pairs, range. rewrite length_map, length_seqZ. lia. }
    unfold ps in Ek. rewrite idle_pair_at in Ek by done. injection Ek as <-.
    pose proof (pg_d0 _ _ _ Hpg _ Hk'). pose proof (pg_d1 _ _ _ Hpg _ Hk').
    apply norm_pair; simpl; lia.
  - rewrite length_map, Hli. pose proof (pg_n _ _ _ Hpg). lia.
  - intros p Hp. change (map ?f ?l) with (f <$> l) in Hp. apply list_elem_of_fmap in Hp as (q & -> & Hq).
    apply imap_elem in Hq as (k & x & Hk & ->).
    apply (norm_free_lk (get_spin s (PairMutex (Z.of_nat k)))), get_spin_free.
    apply (sf_spin _ Hwf). simpl. pose proof (pg_n _ _ _ Hpg).
    apply lookup_lt_Some in Hk. unfold img in Hli. rewrite length_imap in Hli. lia.
Qed.

Lemma union_parity t s l : is_parity t -> spins_free s ->
  rm_data (st_meta s) = DataParity (mk_ParityData l 0 0) -> length l = Z.to_nat nclusters ->
  Forall (fun x => 0 <= x < 256) l -> (exists n, st_sleep s !! ClusterLock = Some (mk_sleeplock 0 n 0)) ->
  data_holds (union_read t (union_bytes (data_image s))) (st_meta s).
Proof.
  intros Ht Hlk Hd Hlen Hl [n Hn].
  set (img := mk_parityimg (mk_ParityData l 0 0) (get_sleep s ClusterLock) (get_spin s RepairLock)).
  assert (Hu : union_read t (union_bytes (data_image s)) = ImParity (c_norm c_ParityData img)).
  { unfold data_image, union_bytes. rewrite Hd. fold img. unfold union_read.
    destruct Ht as [-> | ->]; cbn [Z.eqb orb]; f_equal;
      (rewrite (dec_enc (c := c_ParityData)); [done|]; split; [split; [exact Hlen|by apply Forall_true]|done]). }
  rewrite Hu. unfold data_holds. rewrite Hd. split; [|split; [|split]].
  - unfold c_ParityData. cbn [c_iso c_pair c_norm fst snd im_parity img pd_cluster_loaded pd_writecount pd_repairing].
    do 2 f_equal. cbn [c_array c_norm]. symmetry. clear -Hl. induction Hl as [|x l Hx Hl IH]; [done|].
    cbn [map]. rewrite IH. f_equal. cbn [c_uint c_norm]. change (256 ^ Z.of_nat 1) with 256. by apply Z.mod_small.
  - apply (norm_free_lk (get_spin s RepairLock)), get_spin_free, (sf_spin _ Hlk). done.
  - apply (norm_free_sl (get_sleep s ClusterLock)). unfold get_sleep. rewrite Hn. by exists n.
  - apply (norm_free_lk (get_spin s (LkOf ClusterLock))), get_spin_free, (sf_spin _ Hlk). done.
Qed.

Lemma level_data_holds t s : spins_free s -> is_level t -> level_data t (rm_data (st_meta s)) ->
  rm_type (st_meta s) = t -> (exists n, st_sleep s !! ClusterLock = Some (mk_sleeplock 0 n 0)) ->
  data_holds (union_read t (union_bytes (data_image s))) (st_meta s).
Proof.
  intros Hsp Ht Hd Hty Hcl. destruct (is_level_cases t Ht) as [-> | [-> | [-> | [-> | ->]]]].
  - done.
  - apply union_pairs; [by left|done|exact Hd|done].
  - apply union_pairs; [by right|done|exact Hd|done].
  - destruct Hd as (l & Hd & Hlen & Hl). eapply union_parity; [by left|done|done|done|done|done].
  - destruct Hd as (l & Hd & Hlen & Hl). eapply union_parity; [by right|done|done|done|done|done].
Qed.

Lemma info_entry l k d : info_wf l -> l !! k = Some d ->
  0 <= di_valid d < 256 /\ 0 <= di_diskn d < 256.
Proof.
  intros (Hd & (n & Hn & Hlast) & Hlen) Hk. pose proof DISKS_range.
  pose proof (lookup_lt_Some _ _ _ Hk) as Hlt. rewrite Hlen in Hlt.
  rewrite <- znth_lookup in Hk. destruct (decide (Z.of_nat k = DISKS)) as [E|E].
  - rewrite E, Hlast in Hk. injection Hk as <-. simpl. lia.
  - destruct (Hd (Z.of_nat k)) as (v & Hv & Hz); [lia|]. rewrite Hz in Hk. injection Hk as <-. simpl. lia.
Qed.

Lemma norm_infos s : info_wf (rm_diskinfo (st_meta s)) ->
  map im_info (im_diskinfo (c_norm c_RAIDMeta (raidmeta_image s))) = rm_diskinfo (st_meta s).
Proof.
  intros Hi. unfold c_RAIDMeta.
  cbn [c_iso c_pair c_norm fst snd im_diskinfo raidmeta_image c_array].
  rewrite map_map. apply list_eq. intros k. change (map ?f ?l) with (f <$> l).
  rewrite list_lookup_fmap, list_lookup_imap.
  destruct (rm_diskinfo (st_meta s) !! k) as [d|] eqn:E; [|done].
  cbn [fmap option_fmap option_map]. f_equal.
  destruct (info_entry _ _ _ Hi E). by rewrite norm_info.
Qed.

Lemma meta_block_nonzero s : 0 < rm_read (st_meta s) < 2 ^ 64 ->
  existsb (fun x => negb (x =? 0)) (meta_block s) = true.
Proof.
  intros Hr. unfold meta_block, c_RAIDMeta. cbn [c_iso c_pair c_enc fst snd im_read raidmeta_image].
  rewrite !existsb_app. assert (E : existsb (fun x => negb (x =? 0)) (c_enc (c_uint 8) (rm_read (st_meta s))) = true).
  { apply le_bytes_nonzero. change (256 ^ Z.of_nat 8) with (2 ^ 64). rewrite Z.mod_small by lia. lia. }
  rewrite E. by rewrite !orb_true_r.
Qed.

Lemma held_spins s m : raid_wf s -> forall d, d ∈ im_diskinfo (c_norm c_RAIDMeta (raidmeta_image (set_sleep m s))) ->
  free_lk (im_lk (im_lock d)).
Proof.
  intros Hwf d Hd. unfold c_RAIDMeta in Hd.
  cbn [c_iso c_pair c_norm fst snd im_diskinfo raidmeta_image c_array] in Hd.
  change (map ?f ?l) with (f <$> l) in Hd. apply list_elem_of_fmap in Hd as (q & -> & Hq).
  apply imap_elem in Hq as (k & x & Hk & ->).
  apply (norm_free_lk (get_spin s (LkOf (DiskLock (Z.of_nat k))))), get_spin_free.
  apply (lf_spin _ (wf_locks _ Hwf)). simpl. apply lookup_lt_Some in Hk.
  destruct (wf_info _ Hwf) as (_ & _ & Hlen). simpl in Hk. rewrite Hlen in Hk. lia.
Qed.

Lemma held_last s m : raid_wf s -> held_below DISKS (st_pid s) (st_sleep s) m ->
  exists d, znth (im_diskinfo (c_norm c_RAIDMeta (raidmeta_image (set_sleep m s)))) DISKS = Some d /\
    free_sl (im_sleep (im_lock d)).
Proof.
  intros Hwf Hm. pose proof DISKS_range. unfold c_RAIDMeta.
  cbn [c_iso c_pair c_norm fst snd im_diskinfo raidmeta_image c_array].
  destruct (wf_info _ Hwf) as (_ & (n & _ & Hlast) & _).
  assert (Hz : (rm_diskinfo (st_meta s)) !! Z.to_nat DISKS = Some (mk_DiskInfo 0 n)).
  { by rewrite <- znth_to_nat by lia. }
  rewrite znth_to_nat by lia.
  change (map ?f ?l) with (f <$> l). rewrite list_lookup_fmap, list_lookup_imap.
  change (rm_diskinfo (st_meta (set_sleep m s))) with (rm_diskinfo (st_meta s)). rewrite Hz.
  cbn [fmap option_fmap option_map]. eexists. split; [done|].
  apply (norm_free_sl (get_sleep (set_sleep m s) (DiskLock (Z.of_nat (Z.to_nat DISKS))))).
  unfold get_sleep. cbn [im_sleep st_sleep set_sleep]. rewrite Z2Nat.id by lia.
  rewrite (Hm (DiskLock DISKS)). destruct (Z.leb_spec 0 DISKS), (Z.ltb_spec DISKS DISKS); try lia. simpl.
  destruct (lf_sleep _ (wf_locks _ Hwf) DISKS) as [k Hk]; [lia|]. rewrite Hk. by exists k.
Qed.

(** The block that is written with the disk locks held has the metadata. *)
Lemma meta_block_holds t F m s : ready t F s -> is_level t -> level_data t (rm_data (st_meta s)) ->
  held_below DISKS (st_pid s) (st_sleep s) m -> holds_meta (meta_block (set_sleep m s)) (st_meta s).
Proof.
  intros Hr Ht Hd Hm. pose proof (rd_wf _ _ _ Hr) as Hwf. assert (Hsz : meta_sized (st_meta (set_sleep m s))).
  { split; [apply (wf_info _ Hwf)|apply (rd_fits _ _ _ Hr)]. }
  pose proof (addr_raidread_range t Ht). pose proof (addr_raidwrite_range t Ht).
  constructor; rewrite ?(meta_block_dec _ Hsz).
  - cbn [c_iso c_pair c_norm c_RAIDMeta fst snd im_type raidmeta_image c_uint set_sleep st_meta].
    rewrite (rd_type _ _ _ Hr). unfold is_level, RAID0, RAID5 in Ht. apply Z.mod_small. lia.
  - apply (norm_infos (set_sleep m s)), (wf_info _ Hwf).
  - cbn [c_iso c_pair c_norm c_RAIDMeta fst snd im_isDestroyed raidmeta_image c_int set_sleep st_meta].
    by rewrite (rd_alive _ _ _ Hr).
  - cbn [c_iso c_pair c_norm c_RAIDMeta fst snd im_read raidmeta_image c_uint set_sleep st_meta].
    rewrite (rd_read _ _ _ Hr). apply Z.mod_small. lia.
  - cbn [c_iso c_pair c_norm c_RAIDMeta fst snd im_write raidmeta_image c_uint set_sleep st_meta].
    rewrite (rd_write _ _ _ Hr). apply Z.mod_small. lia.
  - by apply held_spins.
  - by apply held_last.
  - cbn [c_iso c_pair c_norm c_RAIDMeta fst snd im_type im_data raidmeta_image c_uint c_bytes].
    change (rm_type (st_meta (set_sleep m s))) with (rm_type (st_meta s)). rewrite (rd_type _ _ _ Hr).
    rewrite Z.mod_small by (unfold is_level, RAID0, RAID5 in Ht; lia).
    apply (level_data_holds t (set_sleep m s)); [apply (wf_locks _ Hwf)|done|done|apply (rd_type _ _ _ Hr)|].
    destruct (rd_cluster _ _ _ Hr) as [n Hn]. exists n. exact (eq_trans (Hm ClusterLock) Hn).
  - apply meta_block_nonzero. simpl. rewrite (rd_read _ _ _ Hr). lia.
Qed.

Lemma saved_stored t F s : ready t F s -> is_level t -> level_data t (rm_data (st_meta s)) ->
  saved s -> stored s.
Proof. intros Hr Ht Hd (m & Hm & Hb). eexists. split; [exact Hb|]. by eapply meta_block_holds. Qed.

(** ** What [loadraid] makes of it *)

Lemma restore_spins b m s0 i : holds_meta b m -> free_spin s0 i ->
  free_spin (restore_image (c_dec c_RAIDMeta b) s0) i.
Proof.
  intros Hm [n0 Hi]. pose proof (hm_data _ _ Hm) as Hd. pose proof (hm_spins _ _ Hm) as Hsp.
  set (im := c_dec c_RAIDMeta b) in *. clearbody im.
  assert (H1 : exists x, st_spin (put_disklocks 0 (im_diskinfo im) s0) !! i = Some x /\ free_lk x).
  { apply put_disklocks_spin; [done|]. eexists. split; [done|]. by exists n0. }
  unfold restore_image, restore_data. destruct (union_read _ _) as [|ps|d]; unfold free_spin; simpl.
  - destruct H1 as (x & -> & [n ->]). by exists n.
  - destruct Hd as (_ & _ & Hps). destruct (put_mutexes_spin free_lk 0 ps _ i Hps H1) as (x & -> & [n ->]).
    by exists n.
  - destruct Hd as (_ & [n1 E1] & _ & [n2 E2]). rewrite E1, E2.
    destruct (decide (RepairLock = i)) as [<-|H2]; [rewrite lookup_insert_eq; by eexists|].
    rewrite lookup_insert_ne by done.
    destruct (decide (LkOf ClusterLock = i)) as [<-|H3]; [rewrite lookup_insert_eq; by eexists|].
    rewrite lookup_insert_ne by done. destruct H1 as (x & -> & [n ->]). by exists n.
Qed.

Lemma put_disklocks_sleep k l s0 i d : l !! i = Some d ->
  st_sleep (put_disklocks k l s0) !! DiskLock (k + Z.of_nat i) = Some (im_sleep (im_lock d)).
Proof.
  revert k s0 i. induction l as [|e l IH]; intros k s0 i Hi; [done|]. destruct i as [|i]; simpl.
  - injection Hi as ->. replace (k + Z.of_nat 0) with k by lia.
    assert (E : forall l k' s1, k < k' -> st_sleep (put_disklocks k' l s1) !! DiskLock k = st_sleep s1 !! DiskLock k).
    { clear. induction l as [|e l IH]; intros k' s1 Hk; simpl; [done|]. rewrite IH by lia. simpl.
      apply lookup_insert_ne. intros [=]. lia. }
    rewrite E by lia. simpl. apply lookup_insert_eq.
  - replace (k + Z.of_nat (S i)) with (k + 1 + Z.of_nat i) by lia. by apply IH.
Qed.

Lemma put_disklocks_cluster k l s0 :
  st_sleep (put_disklocks k l s0) !! ClusterLock = st_sleep s0 !! ClusterLock.
Proof.
  revert k s0. induction l as [|e l IH]; intros k s0; simpl; [done|]. rewrite IH. simpl.
  by apply lookup_insert_ne.
Qed.

Lemma restore_last b m s0 : holds_meta b m ->
  exists n, st_sleep (restore_image (c_dec c_RAIDMeta b) s0) !! DiskLock DISKS = Some (mk_sleeplock 0 n 0).
Proof.
  intros Hm. pose proof DISKS_range. destruct (hm_last _ _ Hm) as (d & Hd & [n Hn]). exists n.
  set (im := c_dec c_RAIDMeta b) in *. clearbody im. rewrite znth_to_nat in Hd by lia.
  pose proof (put_disklocks_sleep 0 _ s0 _ _ Hd) as E. rewrite Hn, Z2Nat.id in E by lia. simpl in E.
  unfold restore_image, restore_data. destruct (union_read _ _) as [|ps|pd]; simpl.
  - done.
  - by destruct (put_mutexes_other 0 ps (put_disklocks 0 (im_diskinfo im) s0)) as (_ & _ & _ & _ & ->).
  - rewrite lookup_insert_ne by done. done.
Qed.

Lemma restore_cluster b m s0 : holds_meta b m ->
  (exists n, st_sleep s0 !! ClusterLock = Some (mk_sleeplock 0 n 0)) ->
  exists n, st_sleep (restore_image (c_dec c_RAIDMeta b) s0) !! ClusterLock = Some (mk_sleeplock 0 n 0).
Proof.
  intros Hm Hc. pose proof (hm_data _ _ Hm) as Hd. set (im := c_dec c_RAIDMeta b) in *. clearbody im.
  unfold restore_image, restore_data. destruct (union_read _ _) as [|ps|pd]; simpl.
  - by rewrite put_disklocks_cluster.
  - destruct (put_mutexes_other 0 ps (put_disklocks 0 (im_diskinfo im) s0)) as (_ & _ & _ & _ & ->).
    by rewrite put_disklocks_cluster.
  - destruct Hd as (_ & _ & [n Hn] & _). rewrite lookup_insert_eq, Hn. by exists n.
Qed.

Lemma restored_meta b m s0 : holds_meta b m -> exists d,
  st_meta (restore_image (c_dec c_RAIDMeta b) s0) = set_data d m /\
  (rm_type m <> RAID0 -> d = rm_data m) /\ (rm_type m = RAID0 -> d = DataNone).
Proof.
  intros Hm. rewrite restore_meta.
  rewrite (hm_type _ _ Hm), (hm_info _ _ Hm), (hm_destroyed _ _ Hm), (hm_read _ _ Hm), (hm_write _ _ Hm).
  eexists. split; [by destruct m|]. pose proof (hm_data _ _ Hm) as Hd. rewrite (hm_type _ _ Hm) in Hd.
  set (im := c_dec c_RAIDMeta b) in *. clearbody im. split.
  - intros Ht. destruct (union_read _ _) as [|ps|pd]; simpl in *; [done|by destruct Hd as [-> _]|by destruct Hd as [-> _]].
  - intros ->. done.
Qed.

(** The loop that reinitialises the disk locks. *)
Lemma wp_init_disklocks (Q : unit -> State -> Prop) s : spins_free s ->
  (exists n, st_sleep s !! DiskLock DISKS = Some (mk_sleeplock 0 n 0)) ->
  (forall sp sl, locks_free (set_spin sp (set_sleep sl s)) -> sl !! ClusterLock = st_sleep s !! ClusterLock ->
     Q tt (set_spin sp (set_sleep sl s))) ->
  wp (forM (range 0 DISKS) (fun i => initsleeplock (DiskLock i) (addr_string "diskinfolock"))) Q s.
Proof.
  intros [Hc Hsp] Hlast HQ. pose proof DISKS_range.
  apply (wp_forM (fun k s' => exists sp sl, s' = set_spin sp (set_sleep sl s) /\
    (forall i, spin_place i -> free_spin s' i) /\ sl !! ClusterLock = st_sleep s !! ClusterLock /\
    (exists n, sl !! DiskLock DISKS = Some (mk_sleeplock 0 n 0)) /\
    forall i, 0 <= i < k -> exists n, sl !! DiskLock i = Some (mk_sleeplock 0 n 0))).
  - lia.
  - exists (st_spin s), (st_sleep s). split; [by destruct s|]. split; [done|]. split; [done|]. split; [done|]. lia.
  - intros i s' Hi (sp & sl & -> & Hf & Hcl & Hl & Hk). unfold initsleeplock, initlock. wp_steps.
    exists (<[LkOf (DiskLock i) := mk_spinlock 0 (addr_string "sleep lock") 0]> sp),
      (<[DiskLock i := mk_sleeplock 0 (addr_string "diskinfolock") 0]> sl).
    split; [done|]. split; [|split; [|split]].
    + intros j Hj. exact (free_spin_insert _ j (LkOf (DiskLock i)) _ (Hf j Hj)).
    + simpl. by rewrite lookup_insert_ne.
    + simpl. rewrite lookup_insert_ne by (intros [=]; lia). done.
    + intros j Hj. simpl. destruct (decide (i = j)) as [->|Hne].
      * rewrite lookup_insert_eq. by eexists.
      * rewrite lookup_insert_ne by congruence. apply Hk. lia.
  - intros s' (sp & sl & -> & Hf & Hcl & Hl & Hk). apply HQ; [|done]. split; [by split|].
    intros k Hk'. simpl. destruct (decide (k = DISKS)) as [->|]; [done|]. apply Hk. lia.
Qed.

Lemma holds_meta_data b m d : holds_meta b m -> (rm_type m <> RAID0 -> d = rm_data m) ->
  holds_meta b (set_data d m).
Proof.
  intros Hm Hd. constructor; try apply Hm.
  pose proof (hm_data _ _ Hm) as Hh. rewrite (hm_type _ _ Hm) in *.
  set (im := c_dec c_RAIDMeta b) in *. clearbody im. destruct (decide (rm_type m = RAID0)) as [E|E].
  - rewrite E in *. done.
  - rewrite (Hd E). by destruct m.
Qed.

(** Booting with the metadata of [s] on disk 1 gives the array of [s]. *)
Lemma loadraid_block t F free disks b s : ready t F s -> disks !! (1, diskblockn) = Some b ->
  holds_meta b (st_meta s) -> (forall d r, data_row r -> wf_block (default zblk (disks !! (d, r)))) ->
  pages_wf free ->
  wp loadraid (fun _ s' => ready t F s' /\ st_disk s' = disks /\
    (t <> RAID0 -> rm_data (st_meta s') = rm_data (st_meta s)) /\ stored s') (boot_state free disks).
Proof.
  intros Hr Hb Hm Hrows Hp. pose proof DISKS_range. pose proof diskblockn_range.
  unfold loadraid. rewrite diskblockn_i32. cbv zeta. wp_steps. apply wp_read_block; [lia|lia|].
  wp_steps. apply wp_meta_fits. wp_steps.
  replace (blk (boot_state free disks) 1 diskblockn) with b by (unfold blk; simpl; by rewrite Hb).
  unfold load_meta. set (s1 := restore_image _ _).
  destruct (restored_meta b _ (boot_state free disks) Hm) as (d & Hmeta & Hd1 & Hd2). fold s1 in Hmeta.
  destruct (restore_other (c_dec c_RAIDMeta b) (boot_state free disks)) as (Hfree & Hdisk & Hcpu & Hpid).
  fold s1 in Hfree, Hdisk, Hcpu, Hpid.
  assert (Hsp : spins_free s1).
  { split; [by rewrite Hcpu|]. intros i Hi. apply (restore_spins b _ _ i Hm).
    by apply (sf_spin _ (boot_spins_free free disks)). }
  apply wp_check_destroyed; [by rewrite Hmeta; apply (rd_alive _ _ _ Hr)|].
  wp_steps. apply wp_init_disklocks; [done|by apply (restore_last b _ _ Hm)|].
  intros sp sl Hl Hcl. rewrite (hm_nonzero _ _ Hm). wp_steps.
  destruct (restore_cluster b _ (boot_state free disks) Hm) as [nc Hnc].
  { exists 0. by apply zero_sleeps_free. }
  fold s1 in Hnc. rewrite (rd_type _ _ _ Hr) in Hd1, Hd2. pose proof (rd_wf _ _ _ Hr) as [_ Hinf _].
  split; [|split; [|split]].
  - constructor; simpl; rewrite ?Hmeta, ?Hfree; try apply Hr.
    + constructor; [done| |]; simpl; [by rewrite Hmeta|].
      intros e r Hrow. unfold blk. simpl. rewrite Hdisk. by apply Hrows.
    + done.
    + exists nc. by rewrite Hcl.
    + intros i Hi. unfold dvalid. simpl. rewrite Hmeta. apply (rd_failed _ _ _ Hr i Hi).
    + destruct (decide (t = RAID0)) as [E|E]; simpl.
      * by rewrite (Hd2 E).
      * rewrite (Hd1 E). apply (rd_fits _ _ _ Hr).
  - exact Hdisk.
  - intros E. simpl. rewrite Hmeta. simpl. by apply Hd1.
  - exists b. simpl. rewrite Hdisk, Hmeta. split; [done|]. apply holds_meta_data; [done|].
    rewrite (rd_type _ _ _ Hr). exact Hd1.
Qed.

(** After a power cycle [loadraid] finds the array that is stored. *)
Lemma loadraid_stored t F free s : ready t F s -> stored s -> pages_wf free ->
  wp loadraid (fun _ s' => ready t F s' /\ st_disk s' = st_disk s /\
    (t <> RAID0 -> rm_data (st_meta s') = rm_data (st_meta s)) /\ stored s') (power_cycle free s).
Proof.
  intros Hr (b & Hb & Hm) Hp. eapply loadraid_block; [exact Hr|exact Hb|exact Hm| |done].
  intros d r Hrow. by apply (wf_blocks _ (rd_wf _ _ _ Hr)).
Qed.

(** A stored array keeps its volume over a power cycle, at every level. *)
Lemma reboot_level t `{!RaidLevel t, !RaidLevelOK t} vol F free s :
  lv_inv t vol F s -> stored s -> pages_wf free ->
  wp loadraid (fun _ s' => lv_inv t vol F s' /\ stored s') (power_cycle free s).
Proof.
  intros Hi Hs Hp. pose proof (lv_ready _ _ _ Hi) as Hr.
  eapply wp_mono; [by eapply (loadraid_stored t F)|]. intros [] s' (Hr' & Hd & Hdata & Hst).
  split; [|done]. eapply lv_ext; [exact Hi|done| |done]. intros e b _. unfold blk. by rewrite Hd.
Qed.

(** ** The first boot *)

Definition zero_lk : spinlock := mk_spinlock 0 0 0.
Definition zero_disk : diskimg := mk_diskimg (mk_DiskInfo 0 0) (mk_sleepimg (mk_sleeplock 0 0 0) zero_lk).
Definition zero_image : RAIDImage :=
  mk_RAIDImage 0 (replicate (Z.to_nat (DISKS + 1)) zero_disk) 0 (replicate sizeof_union 0) 0 0.

Lemma c_spinlock_zero : CodecZero c_spinlock zero_lk.
Proof. refine (c_iso_zero _ _ _ (0, (tt, (0, 0))) _). Qed.
Lemma c_sleeplock_zero : CodecZero c_sleeplock (mk_sleepimg (mk_sleeplock 0 0 0) zero_lk).
Proof. pose proof c_spinlock_zero. refine (c_iso_zero _ _ _ (0, (tt, (zero_lk, (0, (0, tt))))) _). Qed.
Lemma c_DiskInfo_zero : CodecZero c_DiskInfo zero_disk.
Proof. pose proof c_sleeplock_zero. refine (c_iso_zero _ _ _ (0, (0, (tt, mk_sleepimg (mk_sleeplock 0 0 0) zero_lk))) _). Qed.
Lemma c_RAIDMeta_zero : CodecZero c_RAIDMeta zero_image.
Proof.
  pose proof c_DiskInfo_zero. refine (c_iso_zero _ _ _ (0, (tt, (replicate (Z.to_nat (DISKS + 1)) zero_disk,
    (0, (tt, (replicate sizeof_union 0, (0, 0))))))) _).
Qed.

Lemma zero_block_dec : c_dec c_RAIDMeta zblk = zero_image.
Proof.
  rewrite zblk_eq. apply c_RAIDMeta_zero. pose proof sizeof_raidmeta_fits. unfold sizeof_raidmeta in *. lia.
Qed.

Lemma zero_block_zero : existsb (fun x => negb (x =? 0)) zblk = false.
Proof. rewrite zblk_eq. by induction (Z.to_nat BSIZE). Qed.

Lemma restore_zero_meta s0 : st_meta (restore_image zero_image s0) =
  mk_RAIDMeta 0 (replicate (Z.to_nat (DISKS + 1)) (mk_DiskInfo 0 0)) 0 DataNone 0 0.
Proof.
  rewrite restore_meta. cbn [zero_image im_type im_diskinfo im_isDestroyed im_data im_read im_write].
  change (map ?f ?l) with (f <$> l). rewrite fmap_replicate. done.
Qed.

Lemma restore_zero_spins s0 i : free_spin s0 i -> free_spin (restore_image zero_image s0) i.
Proof.
  intros [n0 Hi]. unfold restore_image, restore_data. simpl. unfold free_spin. simpl.
  destruct (put_disklocks_spin free_lk 0 (replicate (Z.to_nat (DISKS + 1)) zero_disk) s0 i) as (x & -> & [n ->]).
  - intros d [-> _]%elem_of_replicate. by exists 0.
  - eexists. split; [done|]. by exists n0.
  - by exists n.
Qed.

Lemma restore_zero_last s0 :
  exists n, st_sleep (restore_image zero_image s0) !! DiskLock DISKS = Some (mk_sleeplock 0 n 0).
Proof.
  pose proof DISKS_range. exists 0. unfold restore_image, restore_data. simpl.
  pose proof (put_disklocks_sleep 0 (replicate (Z.to_nat (DISKS + 1)) zero_disk) s0 (Z.to_nat DISKS) zero_disk) as E.
  rewrite Z2Nat.id in E by lia. apply E. apply lookup_replicate_2. lia.
Qed.

(** The loop that numbers the disks. *)
Definition numbered (k : Z) (l : list DiskInfo) : Prop :=
  length l = Z.to_nat (DISKS + 1) /\
  (forall i, 0 <= i < k -> znth l i = Some (mk_DiskInfo 1 (i + 1))) /\
  (forall i, k <= i <= DISKS -> znth l i = Some (mk_DiskInfo 0 0)).

Lemma wp_number_disks (Q : unit -> State -> Prop) s :
  rm_diskinfo (st_meta s) = replicate (Z.to_nat (DISKS + 1)) (mk_DiskInfo 0 0) ->
  (forall l, numbered DISKS l -> Q tt (set_meta (set_diskinfo l (st_meta s)) s)) ->
  wp (forM (range 0 DISKS) (fun i => put_diskinfo i (mk_DiskInfo 1 (u8 (i + 1))));; set_valid DISKS 0) Q s.
Proof.
  intros Hd HQ. pose proof DISKS_range. wp_steps.
  apply (wp_forM (fun k s' => exists l, numbered k l /\ s' = set_meta (set_diskinfo l (st_meta s)) s)).
  - lia.
  - exists (replicate (Z.to_nat (DISKS + 1)) (mk_DiskInfo 0 0)). split.
    + split; [apply length_replicate|]. split; [lia|]. intros i Hi. apply znth_replicate. lia.
    + rewrite <- Hd. by destruct s as [? ? ? ? ? [] ?].
  - intros i s' Hi (l & (Hlen & Hn1 & Hn2) & ->). unfold put_diskinfo, mod_meta. wp_steps.
    eapply wp_deref; [apply Hn2; lia|]. wp_steps. eexists. split; [|done].
    rewrite u8_small by lia. split; [by rewrite zset_length|]. split.
    + intros j Hj. destruct (decide (i = j)) as [<-|Hne]; [apply znth_zset_eq; simpl; lia|].
      rewrite znth_zset_ne by done. apply Hn1. lia.
    + intros j Hj. rewrite znth_zset_ne by lia. apply Hn2. lia.
  - intros s' (l & Hn & ->). pose proof Hn as (Hlen & Hn1 & Hn2).
    unfold set_valid, put_diskinfo, mod_meta. wp_steps.
    eapply wp_diskinfo; [apply Hn2; lia|]. wp_steps. eapply wp_deref; [apply Hn2; lia|]. wp_steps.
    norm_fields. cbn [di_diskn rm_diskinfo set_diskinfo].
    rewrite zset_id by (apply Hn2; lia). by apply HQ.
Qed.

Lemma numbered_info l : numbered DISKS l -> info_wf l.
Proof.
  intros (Hlen & Hn1 & Hn2). pose proof DISKS_range. split; [|split].
  - intros i Hi. exists 1. auto.
  - exists 0. split; [lia|]. apply Hn2. lia.
  - done.
Qed.

(** On disks without metadata [loadraid] makes a RAID0 array of all disks. *)
Lemma loadraid_fresh free disks : pages_wf free ->
  default zblk (disks !! (1, diskblockn)) = zblk ->
  (forall d b, data_row b -> wf_block (default zblk (disks !! (d, b)))) ->
  wp loadraid (fun _ s' => lv_inv RAID0 ∅ ∅ s' /\ (2 <= DISKS -> stored s')) (boot_state free disks).
Proof.
  intros Hp Hz Hrows. pose proof DISKS_range. pose proof diskblockn_range.
  unfold loadraid. rewrite diskblockn_i32. cbv zeta. wp_steps. apply wp_read_block; [lia|lia|].
  wp_steps. apply wp_meta_fits. wp_steps.
  change (blk (boot_state free disks) 1 diskblockn) with (default zblk (disks !! (1, diskblockn))).
  rewrite Hz. unfold load_meta. rewrite zero_block_dec, zero_block_zero.
  set (s1 := restore_image _ _).
  pose proof (restore_zero_meta (boot_state free disks)) as Hmeta. fold s1 in Hmeta.
  destruct (restore_other zero_image (boot_state free disks)) as (Hfree & Hdisk & Hcpu & Hpid).
  fold s1 in Hfree, Hdisk, Hcpu, Hpid.
  assert (Hsp : spins_free s1).
  { split; [by rewrite Hcpu|]. intros i Hi. by apply restore_zero_spins, (sf_spin _ (boot_spins_free free disks)). }
  assert (Hlast := restore_zero_last (boot_state free disks)). fold s1 in Hlast.
  assert (Hc0 : st_sleep s1 !! ClusterLock = Some (mk_sleeplock 0 0 0)).
  { unfold s1, restore_image, restore_data. simpl. rewrite put_disklocks_cluster. by apply zero_sleeps_free. }
  clearbody s1. apply wp_check_destroyed; [by rewrite Hmeta|].
  wp_steps. apply wp_init_disklocks; [done|done|].
  intros sp sl Hl Hcl. apply wp_bind_assoc, wp_bind. apply wp_number_disks.
  { simpl. by rewrite Hmeta. }
  intros l Hn. pose proof (numbered_info l Hn) as Hinf. wp_steps. norm_fields. rewrite Hmeta. simpl.
  unfold set_level_fns, mod_meta. wp_steps.
  apply (wp_set_finish RAID0 ∅).
  - constructor; simpl; rewrite ?Hmeta, ?Hfree; try done.
    + constructor; [exact Hl|simpl; rewrite ?Hmeta; exact Hinf|].
      intros d b Hb. unfold blk. simpl. rewrite Hdisk. by apply Hrows.
    + exists 0. by rewrite Hcl.
    + intros i Hi. unfold dvalid. simpl. rewrite ?Hmeta. simpl. destruct Hn as (_ & -> & _); [|done].
      symmetry. apply bool_decide_eq_true. set_solver.
  - simpl. by rewrite ?Hmeta.
  - simpl. by rewrite ?Hmeta.
  - simpl. by rewrite ?Hmeta.
  - simpl. by rewrite ?Hmeta.
  - intros s' Hr Hm Hrow Hsv. split.
    + split; [done|]. intros v x Hv. by rewrite lookup_empty in Hv.
    + intros Hd2. apply (saved_stored RAID0 ∅); [done|done|done|]. apply Hsv.
      rewrite (rd_failed _ _ _ Hr) by lia. apply bool_decide_eq_true. set_solver.
Qed.

End reboot.
