(* ===== verification/RaidProps.v ===== *)
(** * Every history of an array

    A history is a sequence of reads, writes, failures, repairs and reboots of
    an array.  [vstep] says what each operation must do to a volume; the
    theorems say that the kernel's operations do that, at every level, for
    histories in which the failed disks are within what the level survives. *)

From stdpp Require Import base numbers list sets gmap strings.
From Stdlib Require Import ZArith Lia.
From S2P Require Import Prelude Blocks Monad State Locks Kalloc Codec MetaImage RaidCore Raid0 RaidPair ParityArray ParityVolume Raid4 Raid5 RaidCtl RaidOps RaidLevels Boot.
Open Scope Z_scope.

Inductive vop :=
| ORead (vblkn : Z) (buf : block)
| OWrite (vblkn : Z) (data : block)
| OFail (diskn : Z)
| ORepair (diskn : Z)
| OReboot (free : list Z).

Inductive vres :=
| RRead (code : Z) (data : block)
| RCode (code : Z)
| RNone.

(** ** The abstract volume *)

Record volume := mk_volume {
  vo_data : gmap Z block;          (* the last data written to each block *)
  vo_failed : gset Z;              (* the failed disks *)
  vo_stored : bool;                (* is the metadata known to be on disk 1? *)
}.

Section trace.
Context `{ConfigOK}.
Variable t : Z.
Context `{!RaidLevel t, !RaidLevelOK t}.
Hypothesis Hlevel : is_level t.

Definition in_range (v : Z) : bool := (0 <=? v) && (v <? capacity t).
Definition disk_in_range (d : Z) : bool := (1 <=? d) && (d <=? DISKS).
Definition parity_level_b : bool := (t =? RAID4) || (t =? RAID5).

(** The metadata is stored on disk 1 exactly when disk 2 is valid. *)
Definition stores (F : gset Z) : bool := (1 <? DISKS) && bool_decide (2 ∉ F).

(** What the user of the array keeps to. *)
Definition vallowed (V : volume) (o : vop) : Prop :=
  match o with
  | ORead v _ => is_int v
  | OWrite v data => is_int v /\ wf_block data
  | OFail d => is_int d /\ (disk_in_range d = true -> lv_tolerates t ({[d]} ∪ vo_failed V))
  | ORepair d => is_int d
  | OReboot free => vo_stored V = true /\ pages_wf free
  end.

Definition vnext (V : volume) (o : vop) : volume :=
  match o with
  | ORead _ _ => V
  | OWrite v data =>
    if in_range v
    then mk_volume (<[v := data]> (vo_data V)) (vo_failed V) (vo_stored V && negb parity_level_b)
    else V
  | OFail d =>
    if disk_in_range d
    then mk_volume (vo_data V) ({[d]} ∪ vo_failed V) (stores ({[d]} ∪ vo_failed V))
    else V
  | ORepair d =>
    if bool_decide (d ∈ vo_failed V)
    then mk_volume (vo_data V) (vo_failed V ∖ {[d]}) (stores (vo_failed V ∖ {[d]}))
    else V
  | OReboot _ => V
  end.

Definition vresult (V : volume) (o : vop) (r : vres) : Prop :=
  match o, r with
  | ORead v buf, RRead code data =>
    if in_range v then code = 0 /\ forall x, vo_data V !! v = Some x -> data = x
    else code = ERR /\ data = buf
  | OWrite v _, RCode code => code = if in_range v then 0 else ERR
  | OFail d, RCode code => code = if disk_in_range d then 0 else ERR
  | ORepair d, RCode code => code = if disk_in_range d then 0 else ERR
  | OReboot _, RNone => True
  | _, _ => False
  end.

(** ** The kernel *)

Definition exec_op (o : vop) : K vres :=
  match o with
  | ORead v buf => let! r := readraid v buf in ret (RRead r.1 r.2)
  | OWrite v data => let! r := writeraid v data in ret (RCode r)
  | OFail d => let! r := raidfail d in ret (RCode r)
  | ORepair d => let! r := raidrepair d in ret (RCode r)
  | OReboot free => modify (power_cycle free);; loadraid;; ret RNone
  end.

Fixpoint exec_ops (l : list vop) : K (list vres) :=
  match l with
  | [] => ret []
  | o :: l => let! r := exec_op o in let! rs := exec_ops l in ret (r :: rs)
  end.

(** ** Simulation *)

Definition represents (V : volume) (s : State) : Prop :=
  lv_inv t (vo_data V) (vo_failed V) s /\ lv_tolerates t (vo_failed V) /\ (vo_stored V = true -> stored s).

Lemma in_range_spec v : in_range v = true <-> 0 <= v < capacity t.
Proof. unfold in_range. rewrite andb_true_iff, Z.leb_le, Z.ltb_lt. done. Qed.
Lemma disk_in_range_spec d : disk_in_range d = true <-> 1 <= d <= DISKS.
Proof. unfold disk_in_range. rewrite andb_true_iff, !Z.leb_le. done. Qed.

Lemma saved_represents vol F s : lv_inv t vol F s -> (dvalid s 1 = true -> saved s) ->
  stores F = true -> stored s.
Proof.
  intros Hi Hsv [H1%Z.ltb_lt H2]%andb_true_iff. pose proof (lv_ready _ _ _ Hi) as Hr.
  eapply saved_stored; [exact Hr|done|by eapply lv_data|]. apply Hsv.
  rewrite (rd_failed _ _ _ Hr) by lia. exact H2.
Qed.

Lemma same_meta_stored s s' : same_meta s s' -> stored s -> stored s'.
Proof.
  intros (D & -> & HD) (b & Hb & Hm). exists b. split; [|done]. simpl. by rewrite HD.
Qed.

Lemma exec_op_sim V o s : represents V s -> vallowed V o ->
  wp (exec_op o) (fun r s' => vresult V o r /\ represents (vnext V o) s') s.
Proof.
  intros (Hi & HF & Hst) Ho. pose proof (lv_ready _ _ _ Hi) as Hr.
  destruct o as [v buf|v data|d|d|free]; simpl in *; wp_steps.
  - destruct (in_range v) eqn:Ev.
    + eapply wp_mono; [eapply lv_read; [done|done|by apply in_range_spec]|].
      intros r s' (-> & -> & Hx). wp_steps. by repeat split.
    + eapply wp_mono; [eapply (readraid_out t); [done|done|done|rewrite <- in_range_spec; congruence]|].
      intros r s' (-> & ->). wp_steps. by repeat split.
  - destruct Ho as [Hv Hd]. destruct (in_range v) eqn:Ev.
    + eapply wp_mono; [eapply lv_write; [done|done|by apply in_range_spec|done]|].
      intros r s' (-> & Hi' & Hm & _). wp_steps. split; [done|]. split; [done|]. split; [done|]. simpl.
      intros [Hs Hp%negb_true_iff]%andb_true_iff. apply (same_meta_stored s); [|by apply Hst].
      apply Hm. intros [E|E]; unfold parity_level_b in Hp; rewrite E in Hp; done.
    + eapply wp_mono; [eapply (writeraid_out t); [done|done|done|rewrite <- in_range_spec; congruence]|].
      intros r s' (-> & ->). wp_steps. by repeat split.
  - destruct Ho as [Hd Htol]. destruct (disk_in_range d) eqn:Ed.
    + eapply wp_mono; [eapply lv_fail; [done|by apply Htol|by apply disk_in_range_spec]|].
      intros r s' (-> & Hi' & Hsv & _). wp_steps. split; [done|]. split; [done|]. split; [by apply Htol|].
      by eapply saved_represents.
    + eapply wp_mono; [eapply raidfail_out; [done|rewrite <- disk_in_range_spec; congruence|apply (rd_alive _ _ _ Hr)]|].
      intros r s' (-> & ->). wp_steps. by repeat split.
  - case_bool_decide as Ed.
    + pose proof (rd_range _ _ _ Hr d Ed) as Hd. rewrite (proj2 (disk_in_range_spec d) Hd).
      eapply wp_mono; [by eapply lv_repair|].
      intros r s' (-> & Hi' & Hsv & _). wp_steps. split; [done|]. split; [done|].
      split; [eapply lv_sub; [done|set_solver]|]. by eapply saved_represents.
    + destruct (disk_in_range d) eqn:Er.
      * eapply wp_mono; [eapply (raidrepair_valid t); [done|done|by apply disk_in_range_spec|done]|].
        intros r s' (-> & ->). wp_steps. by repeat split.
      * eapply wp_mono; [eapply (raidrepair_out t); [done|done|done|rewrite <- disk_in_range_spec; congruence]|].
        intros r s' (-> & ->). wp_steps. by repeat split.
  - destruct Ho as [Hs Hp]. eapply wp_mono; [eapply (reboot_level t); [done|by apply Hst|done]|].
    intros [] s' [Hi' Hst']. wp_steps. by repeat split.
Qed.

(** A history is allowed when every operation is, in the volume before it. *)
Fixpoint vallowed_all (V : volume) (l : list vop) : Prop :=
  match l with
  | [] => True
  | o :: l => vallowed V o /\ vallowed_all (vnext V o) l
  end.
Fixpoint vresults (V : volume) (l : list vop) (rs : list vres) : Prop :=
  match l, rs with
  | [], [] => True
  | o :: l, r :: rs => vresult V o r /\ vresults (vnext V o) l rs
  | _, _ => False
  end.

Lemma exec_ops_sim V l s : represents V s -> vallowed_all V l ->
  wp (exec_ops l) (fun rs s' => vresults V l rs /\ represents (fold_left vnext l V) s') s.
Proof.
  revert V s. induction l as [|o l IH]; intros V s HV Hl; simpl in *; [by wp_steps|].
  destruct Hl as [Ho Hl]. wp_steps. eapply wp_mono; [by apply (exec_op_sim V)|].
  intros r s' [Hr HV']. wp_steps. eapply wp_mono; [by apply (IH (vnext V o))|].
  intros rs s'' [Hrs HV'']. wp_steps. split; [by split|done].
Qed.

End trace.

(** * Correctness of the RAID subsystem

    The theorems about whole arrays: histories from power-on, survival of a
    failure, placement of blocks, parity and mirroring, repair, persistence of
    the metadata, and the error branches.  Each is applied to a concrete array
    of the Makefile's configuration. *)

(** ** Concrete arrays *)

Definition ex_pages : list Z := [0x80100000; 0x80101000; 0x80102000].
Definition ex_block (x : Z) : block := replicate (Z.to_nat BSIZE) x.

Lemma ex_block_wf x : is_byte x -> wf_block (ex_block x).
Proof. intros Hx. split; [apply length_replicate|by apply Forall_replicate]. Qed.

Lemma ex_pages_wf : @pages_wf makefile_config ex_pages.
Proof. split; [|simpl; lia]. repeat constructor; simpl; unfold PHYSTOP, KERNBASE; lia. Qed.

#[local] Existing Instance any_level.

Section arrays.
Context `{ConfigOK}.

Lemma zero_rows d b : data_row b -> wf_block (default zblk ((∅ : gmap (Z * Z) block) !! (d, b))).
Proof. intros _. rewrite lookup_empty. apply wf_zblk. Qed.

Lemma no_failure_tolerated t : is_level t -> lv_tolerates t ∅.
Proof.
  intros Ht. pose proof DISKS_range.
  destruct (is_level_cases t Ht) as [-> | [-> | [-> | [-> | ->]]]]; simpl.
  - done.
  - split; [|done]. intros k Hk. left. split; [|set_solver].
    apply (pg_d0 _ _ _ (m_pairing RAID1 (or_introl eq_refl)) k Hk).
  - split; [|set_solver]. intros k Hk. left. split; [|set_solver].
    apply (pg_d0 _ _ _ (m_pairing RAID0_1 (or_intror eq_refl)) k Hk).
  - unfold parity_tolerates. rewrite size_empty. lia.
  - unfold parity_tolerates. rewrite size_empty. lia.
Qed.

(** The volume of a new array. *)
Definition new_volume : volume := mk_volume ∅ ∅ (stores ∅).

Lemma boot_level t free disks : is_level t -> pages_wf free ->
  default zblk (disks !! (1, diskblockn)) = zblk ->
  (forall d b, data_row b -> wf_block (default zblk (disks !! (d, b)))) ->
  wp (loadraid;; setraidtype t)
    (fun r s => r = 0 /\ represents t new_volume s)
    (boot_state free disks).
Proof.
  intros Ht Hp Hz Hrows. pose proof (any_level_ok t Ht) as Hok. wp_steps.
  eapply wp_mono; [by apply loadraid_fresh|]. intros [] s [[Hr _] _].
  eapply wp_mono; [apply (lv_init ∅); [by eapply ready_settled|by apply no_failure_tolerated]|].
  intros r s' (-> & Hi & Hsv). split; [done|]. split; [done|]. split; [by apply no_failure_tolerated|].
  by apply (saved_represents t Ht ∅ ∅ s').
Qed.

(** ** Histories *)

(** C1: from power-on with blank disks, [loadraid] and [setraidtype t] make an
    array on which every history of reads, writes, disk failures, repairs and
    reboots gives the results of the abstract volume [vresults], at each of the
    five levels, as long as the failed disks stay within what the level
    survives and a reboot comes while disk 1 has the metadata. No operation of
    the history panics, blocks or faults. *)
Theorem raid_history t free disks l : is_level t -> pages_wf free ->
  default zblk (disks !! (1, diskblockn)) = zblk ->
  (forall d b, data_row b -> wf_block (default zblk (disks !! (d, b)))) ->
  vallowed_all t new_volume l ->
  wp (loadraid;; let! c := setraidtype t in let! rs := exec_ops l in ret (c, rs))
    (fun r s => r.1 = 0 /\ vresults t new_volume l r.2 /\ represents t (fold_left (vnext t) l new_volume) s)
    (boot_state free disks).
Proof.
  intros Ht Hp Hz Hrows Hl. pose proof (any_level_ok t Ht) as Hok.
  apply wp_bind_assoc, wp_bind. eapply wp_mono; [by apply (boot_level t)|].
  intros r s [-> HV]. wp_steps. eapply wp_mono; [by apply (exec_ops_sim t Ht new_volume)|].
  intros rs s' [Hrs HV']. by wp_steps.
Qed.

(** One disk of an array of [t] may fail. *)
Definition redundant (t d : Z) : Prop :=
  is_parity t \/ (mirrored t /\ DISKS mod 2 = 0 /\ 1 <= d <= DISKS).

Lemma redundant_level t d : redundant t d -> is_level t.
Proof. unfold is_level. by intros [[-> | ->]|[[-> | ->] _]]. Qed.

Lemma redundant_tolerates t d : redundant t d -> lv_tolerates t {[d]}.
Proof.
  intros [[-> | ->]|[Ht [Heven Hd]]]; simpl.
  - unfold parity_tolerates. rewrite size_singleton. lia.
  - unfold parity_tolerates. rewrite size_singleton. lia.
  - pose proof (m_pairing t Ht) as Hpg.
    assert (Hm : mirror_tolerates t {[d]}).
    { split.
      - intros k Hk. unfold disk_ok. pose proof (pg_ne _ _ _ Hpg k Hk). pose proof (pg_d0 _ _ _ Hpg k Hk).
        assert (m_d1 t k < DISKS).
        { destruct Ht as [-> | ->]; unfold m_n, m_d1, npairs_raid1, npairs_raid0_1 in *; simpl in *;
            Z.div_mod_to_equations; lia. }
        destruct (decide (m_d0 t k + 1 = d)); [right|left]; rewrite not_elem_of_singleton; lia.
      - intros _ e ->%elem_of_singleton. Z.div_mod_to_equations; lia. }
    destruct Ht as [-> | ->]; exact Hm.
Qed.

(** C2: at RAID4 and RAID5, and at RAID1 and RAID0+1 with an even number of
    disks, a block that was written is read back after any one disk failed, and
    again after that disk was repaired. *)
Theorem raid_survives_failure t vol d v data buf s : redundant t d -> lv_inv t vol ∅ s ->
  1 <= d <= DISKS -> 0 <= v < capacity t -> wf_block data ->
  wp (let! c1 := writeraid v data in
      let! c2 := raidfail d in
      let! r1 := readraid v buf in
      let! c3 := raidrepair d in
      let! r2 := readraid v buf in
      ret (c1, c2, r1, c3, r2))
    (fun r s' => r = (0, 0, (0, data), 0, (0, data)) /\ lv_inv t (<[v := data]> vol) ∅ s') s.
Proof.
  intros Hred Hi Hd Hv Hdata. pose proof (redundant_level t d Hred) as Ht.
  pose proof (any_level_ok t Ht) as Hok. pose proof (redundant_tolerates t d Hred) as Htol.
  wp_steps. eapply wp_mono; [by apply (lv_write vol ∅); [| apply no_failure_tolerated| |]|].
  intros c1 s1 (-> & Hi1 & _). wp_steps.
  eapply wp_mono; [apply (lv_fail (<[v := data]> vol) ∅ d); [done|by rewrite union_empty_r_L|done]|].
  rewrite union_empty_r_L. intros c2 s2 (-> & Hi2 & _). wp_steps.
  eapply wp_mono; [by apply (lv_read (<[v := data]> vol) {[d]})|].
  intros [c data1] s3 (-> & E1 & E2). simpl in *. subst c. wp_steps.
  eapply wp_mono; [apply (lv_repair (<[v := data]> vol) {[d]} d); [done|done|set_solver]|].
  rewrite difference_diag_L. intros c3 s4 (-> & Hi4 & _). wp_steps.
  eapply wp_mono; [by apply (lv_read (<[v := data]> vol) ∅); [|apply no_failure_tolerated|]|].
  intros [c data2] s5 (-> & E3 & E4). simpl in *. subst c. wp_steps.
  rewrite (E2 data), (E4 data) by apply lookup_insert_eq. done.
Qed.

End arrays.
