(* ===== verification/RaidFacts.v ===== *)
(** * What the levels keep true of the disks

    Placement of the blocks, zero parity of the rows of RAID4 and RAID5, equal
    copies of the mirrored levels, and what a repair puts on a disk.  The second
    part is what the code refuses and where it goes wrong. *)

From stdpp Require Import base numbers list sets gmap strings.
From Stdlib Require Import ZArith Lia.
From S2P Require Import Prelude Blocks Monad State Locks Kalloc Codec MetaImage RaidCore Raid0 RaidPair ParityArray ParityVolume Raid4 Raid5 RaidCtl RaidOps RaidLevels Boot RaidProps.
Open Scope Z_scope.

Section facts.
Context `{ConfigOK}.

(** C11: the address computation of RAID5 puts every virtual block on a data disk
    of a row below the metadata row, never on the parity disk of that row, and
    no two virtual blocks in the same place. *)
Theorem raid5_placement v w : 0 <= v < capacity RAID5 -> 0 <= w < capacity RAID5 ->
  0 <= diskn_of v < DISKS /\ 0 <= stripe_of v < diskblockn /\ diskn_of v <> paritydiskn_of v /\
  (diskn_of v = diskn_of w -> stripe_of v = stripe_of w -> v = w).
Proof.
  intros Hv Hw. destruct (raid5_addr v Hv) as (-> & -> & -> & _). destruct (raid5_addr w Hw) as (-> & -> & _).
  split; [by apply pl_disk_range|]. split; [by apply (pl_row_range v Hv)|].
  split; [by apply pl_disk_parity|by apply pl_inj].
Qed.

(** A write touches its data block and parity blocks of its cluster only. *)
Lemma write_post_frame t `{PL : ParityLayout t} l d p b data s s' e r : write_post t l d p b data s s' -> p = pl_parity t b -> data_row r ->
  (e, r) <> (d + 1, b) -> ~ (cluster_of r = cluster_of b /\ e = pl_parity t r + 1) -> blk s' e r = blk s e r.
Proof.
  intros (s1 & -> & Hs1) -> Hr N1 N2. transitivity (blk s1 e r).
  - assert (Hp : (pl_parity t b + 1, b) <> (e, r)) by (intros [= <- <-]; by apply N2).
    unfold parity_written, blk. repeat case_match; cbn [set_disk st_disk]; by rewrite ?lookup_insert_ne by congruence.
  - destruct Hs1 as [[_ ->]|[_ (D & _ & HB)]]; [done|]. rewrite HB by done. case_bool_decide as E; [|done]. exfalso. apply N2. naive_solver.
Qed.

(** C4: with all disks valid, a RAID5 write puts the data in its place and leaves
    every row of its cluster, and every row of a cluster that was loaded before,
    with zero parity.  It changes no other virtual block, whether its cluster is
    loaded or not, and nothing at all, parity included, in the rows of other
    clusters. *)
Theorem raid5write_keeps_parity vol l v data s : parity_vol RAID5 vol ∅ l s ->
  0 <= v < capacity RAID5 -> wf_block data ->
  wp (raid5write v data) (fun r s' => r = 0 /\
    blk s' (diskn_of v + 1) (stripe_of v) = data /\
    (forall b, data_row b -> cluster_of b = cluster_of (stripe_of v) \/ loaded_at l b -> row_ok s' b) /\
    (forall w, 0 <= w < capacity RAID5 -> w <> v -> blk s' (diskn_of w + 1) (stripe_of w) = blk s (diskn_of w + 1) (stripe_of w)) /\
    forall e b, data_row b -> cluster_of b <> cluster_of (stripe_of v) -> blk s' e b = blk s e b) s.
Proof.
  intros Hpv Hv Hdata. destruct (raid5_addr v Hv) as (E1 & E2 & E3 & _).
  pose proof Hpv as [Hr Hd Hlen _ Hone Hpar _].
  eapply wp_mono; [by eapply raid5write_spec|]. intros r s' [-> Hw]. rewrite E1, E2. split; [done|].
  pose proof (pl_disk_range (t := RAID5) v Hv) as Hdv. pose proof (pl_row_range (t := RAID5) v Hv) as Hrv.
  destruct (write_vol RAID5 vol ∅ l s s' v data Hpv Hv Hdata Hw) as (l' & Hpv').
  split_and!.
  - destruct (pv_vol _ _ _ _ _ Hpv' v data) as (_ & _ & Hx); [apply lookup_insert_eq|].
    unfold lblk in Hx. by rewrite (ready_all_valid RAID5 ∅ s' (pv_ready _ _ _ _ _ Hpv')) in Hx by done.
  - intros b Hb Hc. apply (pv_parity _ _ _ _ _ Hpv' eq_refl b Hb). pose proof (pv_data _ _ _ _ _ Hpv') as Hd'.
    destruct Hw as (s1 & -> & Hs1). rewrite parity_written_meta in Hd'. destruct Hs1 as [[Hl ->]|[Hl (D & -> & _)]].
    + rewrite Hd in Hd'. injection Hd' as <-. destruct Hc as [Hc|]; [|done]. unfold loaded_at. by rewrite Hc.
    + injection Hd' as <-. apply loaded_at_zset; [|done|done]. by apply cluster_of_range.
  - intros w Hwr Hne. destruct (raid5_addr w Hwr) as (-> & -> & _). apply (write_post_frame RAID5 l _ _ _ _ _ _ _ _ Hw eq_refl); [by apply (pl_row_range (t := RAID5))| |].
    + intros [= Ed Er]. apply Hne. apply (pl_inj (t := RAID5) w v Hwr Hv); [apply (Z.add_cancel_r _ _ 1); exact Ed|exact Er].
    + intros [_ E]. apply (pl_disk_parity (t := RAID5) w Hwr). lia.
  - intros e b Hb Hc. apply (write_post_frame RAID5 l _ _ _ _ _ _ _ _ Hw eq_refl Hb); [congruence|tauto].
Qed.

(** C16: a RAID4 write to a block of the failed disk changes the parity so that
    the other disks determine the data, which the degraded read returns. *)
Theorem raid4_degraded_write vol l v data buf s : parity_vol RAID4 vol {[v mod (DISKS - 1) + 1]} l s ->
  0 <= v < capacity RAID4 -> wf_block data ->
  wp (let! c := raid4write v data in let! r := raid4read v buf in ret (c, r))
    (fun r s' => r = (0, (0, data)) /\ xothers s' (v mod (DISKS - 1)) (v / (DISKS - 1)) = data /\
       st_meta s' = set_data (rm_data (st_meta s')) (st_meta s)) s.
Proof.
  intros Hpv Hv Hdata. pose proof Hpv as [Hr Hd Hlen _ Hone _ _].
  wp_steps. eapply wp_mono; [by eapply raid4write_spec|]. intros c s1 [-> Hw]. wp_steps.
  destruct (write_vol RAID4 vol _ l s s1 v data Hpv Hv Hdata Hw) as (l' & Hpv').
  pose proof (pv_ready _ _ _ _ _ Hpv') as Hr'.
  destruct (pv_vol _ _ _ _ _ Hpv' v data) as (_ & _ & Hx); [apply lookup_insert_eq|].
  eapply wp_mono; [by eapply raid4read_spec|]. intros r s' [-> ->]. wp_steps. rewrite Hx.
  split; [done|]. split.
  - transitivity (lblk s1 (pl_disk RAID4 v) (pl_row RAID4 v)); [|exact Hx]. unfold lblk.
    destruct (ready_failed _ _ (pl_disk RAID4 v + 1) _ Hr') as [_ Hv'].
    { simpl. set_solver. }
    replace (pl_disk RAID4 v + 1 - 1) with (pl_disk RAID4 v) in Hv' by lia. by rewrite Hv'.
  - destruct Hw as (s2 & -> & [[_ ->]|[_ (D & -> & _)]]); rewrite parity_written_meta; by destruct (st_meta s).
Qed.

(** C17: at the parity levels the repair of a failed disk puts back, in every row
    of a loaded cluster, exactly what was on the disk before it failed, when the
    loaded rows have zero parity, which writes keep. *)
Theorem parity_repair_restores t l d s : is_parity t -> ready t ∅ s ->
  rm_data (st_meta s) = DataParity (mk_ParityData l 0 0) -> length l = Z.to_nat nclusters ->
  (forall b, data_row b -> loaded_at l b -> row_ok s b) -> 1 <= d <= DISKS ->
  wp (raidfail d;; raidrepair d) (fun r s' => r = 0 /\ dvalid s' (d - 1) = true /\
    forall b, data_row b -> loaded_at l b -> blk s' d b = blk s d b) s.
Proof.
  intros Ht Hr Hdat Hlen Hpar Hd.
  wp_steps. eapply wp_mono; [by apply (raidfail_spec t ∅)|]. rewrite union_empty_r_L.
  intros c s1 (-> & (D & Hs1 & HD) & Hr1 & _).
  assert (Hi : 0 <= d - 1 < DISKS) by lia. assert (Hdv : dvalid s1 (d - 1) = false).
  { apply (ready_failed _ _ _ _ Hr1). set_solver. }
  eapply raidrepair_failed; [exact Hr1|by destruct Ht as [-> | ->]|set_solver|].
  assert (E : (if t =? RAID0 then ret ERR else if t =? RAID1 then repair_raid1 (d - 1)
      else if t =? RAID0_1 then repair_raid0_1 (d - 1) else repair_parity (d - 1)) = repair_parity (d - 1)).
  { destruct Ht as [-> | ->]; reflexivity. }
  rewrite E. clear E. eapply wp_mono.
  { apply (repair_parity_spec t {[d]} l); [done|set_solver|by subst s1|done|done|done]. }
  intros r s' (-> & (D' & -> & HB) & _). split; [done|]. split.
  - change (dvalid (with_valid (d - 1) 1 s1) (d - 1) = true).
    rewrite dvalid_with_valid; [by rewrite Z.eqb_refl|apply (wf_info _ (rd_wf _ _ _ Hr1))|done].
  - intros b Hb Hl. rewrite HB by done. replace (d - 1 + 1) with d by lia. rewrite Z.eqb_refl.
    rewrite (proj2 (loadedb_spec l b) Hl). simpl.
    transitivity (xothers s (d - 1) b); [apply xsum_ext; intros; by apply HD|].
    rewrite (row_ok_xothers s (d - 1) b); [by replace (d - 1 + 1) with d by lia| |done|done|by apply Hpar].
    apply (wf_blocks _ (rd_wf _ _ _ Hr)).
Qed.

(** a write to a mirrored level puts the data on both disks of the pair, and
    on nothing else. *)
Theorem mirror_write_both t F v data s : mirrored t -> mirror_ready t F s -> 0 <= v < capacity t ->
  disk_ok F (m_d0 t (m_pair t v)) -> disk_ok F (m_d1 t (m_pair t v)) ->
  wp (writeraid v data) (fun r s' => r = 0 /\ st_meta s' = st_meta s /\
    forall e b, blk s' e b =
      if bool_decide ((e = m_d0 t (m_pair t v) + 1 \/ e = m_d1 t (m_pair t v) + 1) /\ b = m_row t v)
      then data else blk s e b) s.
Proof.
  intros Ht Hm Hv H1 H2. pose proof Hm as [Hr _]. destruct (m_addr t v Ht Hv) as [Hp _].
  pose proof (pg_d1 _ _ _ (m_pairing t Ht) _ Hp). pose proof (pg_d0 _ _ _ (m_pairing t Ht) _ Hp).
  rewrite <- (dvalid_disk_ok t F s) in H1, H2 by (done || lia).
  eapply wp_writeraid; [exact Hr|by apply mirrored_level|].
  replace (level_write t) with (mirror_write t) by (destruct Ht as [-> | ->]; done).
  eapply wp_mono; [by apply (mirror_write_spec t F)|]. rewrite H1, H2. simpl.
  intros r s' [-> ->]. split; [done|]. split; [done|]. intros e b. unfold blk. simpl.
  rewrite !lookup_insert. repeat case_decide; repeat case_bool_decide; simplify_eq; simpl; try done; exfalso; naive_solver.
Qed.


End facts.

(** * Errors, refusals and flaws of the RAID subsystem

    The branches on which an operation refuses its argument, and the situations
    in which the code does not do what it is meant to do: the metadata that
    [writeraidmeta] leaves out, what a reboot forgets, and the repair of the
    unpaired disk of RAID0+1. *)

Section faults.
Context `{ConfigOK}.

(** an argument out of range is refused with -1 by reads, writes, failures
    and repairs at every level, and nothing changes. *)
Theorem out_of_range_refused t F v d data s : ready t F s -> is_level t ->
  is_int v -> is_int d -> ~ (0 <= v < capacity t) -> ~ (1 <= d <= DISKS) ->
  readraid v data s = Done (ERR, data) s /\ writeraid v data s = Done ERR s /\
  raidfail d s = Done ERR s /\ raidrepair d s = Done ERR s.
Proof.
  intros Hr Ht Hv Hd Hvr Hdr.
  pose proof (readraid_out t F v data s Hr Ht Hv Hvr) as H1.
  pose proof (writeraid_out t F v data s Hr Ht Hv Hvr) as H2.
  pose proof (raidfail_out d s Hd Hdr (rd_alive _ _ _ Hr)) as H3.
  pose proof (raidrepair_out t F d s Hr Ht Hd Hdr) as H4.
  apply wp_Done in H1 as (? & ? & ? & -> & ->). apply wp_Done in H2 as (? & ? & ? & -> & ->).
  apply wp_Done in H3 as (? & ? & ? & -> & ->). apply wp_Done in H4 as (? & ? & ? & -> & ->). done.
Qed.

(** RAID4 and RAID5 are refused with -1 when two disks or more have failed.
    By then the level and its functions are already those of the refused level,
    over the data of the level before. *)
Theorem setraidtype_refuses t F s : settled F s -> is_parity t -> (1 < size F)%nat ->
  setraidtype t s = Done ERR (set_meta (set_isDestroyed 0
    (set_fns (addr_raidread t) (addr_raidwrite t) (set_type t (st_meta s)))) s).
Proof.
  intros Hs Ht HF. pose proof (setraidtype_refused t F s Hs Ht HF) as Hw.
  apply wp_Done in Hw as (? & ? & ? & -> & ->). done.
Qed.


(** a failure of disk 2 is forgotten by a reboot: the array comes back with
    disk 2 valid again. *)
Theorem disk2_failure_forgotten t F free s : ready t F s -> stored s -> 2 <= DISKS ->
  2 ∉ F -> pages_wf free ->
  wp (raidfail 2;; modify (power_cycle free);; loadraid)
    (fun _ s' => ready t F s' /\ dvalid s' 1 = true) s.
Proof.
  intros Hr (b & Hb & Hm) H2 HF Hp. pose proof (rd_wf _ _ _ Hr) as Hwf.
  unfold raidfail. wp_steps. apply wp_check_destroyed; [apply (rd_alive _ _ _ Hr)|].
  change (i32 (2 - 1)) with 1. cbv zeta. destruct (Z.leb_spec DISKS 1); [lia|]. cbn [Z.ltb Z.compare orb].
  wp_steps. apply wp_set_valid; [apply (wf_info _ Hwf)|lia|]. wp_steps.
  pose proof (ready_with_valid t F 1 0 s Hr ltac:(lia) ltac:(auto)) as Hr1.
  apply wp_writeraidmeta; [exact (rd_wf _ _ _ Hr1)|]. intros m D _ HD. wp_steps.
  eapply wp_mono; [eapply (loadraid_block t F free D b s); [done| |done| |done]|].
  - rewrite HD. change (dvalid _ 1) with (dvalid (with_valid 1 0 s) 1).
    rewrite (dvalid_with_valid 1 0 s 1) by (done || apply (wf_info _ Hwf) || lia).
    rewrite andb_false_r. exact Hb.
  - eapply meta_disks_wf; [|exact HD]. apply (wf_blocks _ (rd_wf _ _ _ Hr1)).
  - intros [] s' (Hr' & _). split; [done|].
    rewrite (rd_failed _ _ _ Hr') by lia. by apply bool_decide_eq_true.
Qed.

(** with an odd number of disks the last disk belongs to no pair of
    RAID0+1; after it failed, repairing it indexes a pair out of bounds. *)
Theorem raid0_1_unpaired_repair F s : mirror_ready RAID0_1 F s -> DISKS mod 2 = 1 -> 3 <= DISKS -> DISKS ∈ F ->
  raidrepair DISKS s = Fault s.
Proof.
  intros [Hr Hps] Hodd H3 HF. destruct (ready_failed _ _ _ _ Hr HF) as [Hd Hv]. pose proof DISKS_range.
  unfold raidrepair, check_destroyed, bind, gets, ret. rewrite (rd_alive _ _ _ Hr). cbn [negb Z.eqb].
  rewrite (rd_type _ _ _ Hr). change ((RAID0_1 <? RAID0) || (RAID5 <? RAID0_1)) with false. cbv iota.
  rewrite i32_small by lia. destruct (Z.ltb_spec (DISKS - 1) 0), (Z.leb_spec DISKS (DISKS - 1)); try lia. cbn [orb].
  unfold diskinfo, bind, gets. rewrite (diskinfo_at s (DISKS - 1)) by (apply (wf_info _ (rd_wf _ _ _ Hr)) || lia).
  rewrite Hv. simpl.
  assert (Ek : (DISKS - 1) mod (DISKS / 2) = 0).
  { replace (DISKS - 1) with (2 * (DISKS / 2)) by (Z.div_mod_to_equations; lia). apply Z.mod_mul.
    Z.div_mod_to_equations; lia. }
  assert (Eq : (DISKS - 1) / (DISKS / 2) = 2).
  { replace (DISKS - 1) with (2 * (DISKS / 2)) at 1 by (Z.div_mod_to_equations; lia). apply Z.div_mul.
    Z.div_mod_to_equations; lia. }
  assert (0 < DISKS / 2) by (Z.div_mod_to_equations; lia).
  unfold repair_raid0_1. rewrite (proj2 (Z.eqb_neq _ 0)) by lia.
  rewrite Z.quot_div_nonneg, Z.rem_mod_nonneg, Ek, Eq by lia.
  unfold repair_mirror, get_pair, bind, gets. rewrite Hps.
  rewrite (idle_pair_at (m_n RAID0_1) (m_d0 RAID0_1) (m_d1 RAID0_1) 0) by (unfold m_n, npairs_raid0_1; simpl; lia).
  done.
Qed.

(** [raiddestroy] marks the array on the disks; from then on reads, writes,
    failures, repairs and a second destruction panic. *)
Theorem raiddestroy_final t F s : ready t F s ->
  wp raiddestroy (fun r s' => r = 0 /\ rm_isDestroyed (st_meta s') = 1 /\
    forall v d data,
      let msg := "RAID structure was destroyed"%string in
      readraid v data s' = Panic msg s' /\ writeraid v data s' = Panic msg s' /\
      raidfail d s' = Panic msg s' /\ raidrepair d s' = Panic msg s' /\ raiddestroy s' = Panic msg s') s.
Proof.
  intros Hr. unfold raiddestroy at 1. unfold mod_meta. wp_steps.
  apply wp_check_destroyed; [apply (rd_alive _ _ _ Hr)|]. wp_steps.
  apply wp_writemeta; [by destruct (rd_wf _ _ _ Hr)|]. intros s' (D & -> & _) _. wp_steps.
  split; [done|]. split; [done|]. done.
Qed.

End faults.

(** ** On a concrete array *)

(** Two disks of one cluster. *)
Definition two_disks : Config := config_of 2 (1 * (CLUSTER_SIZE * BSIZE)).
#[local] Existing Instance two_disks.

Definition is_blocked {A} (o : outcome State A) : bool :=
  match o with Blocked _ => true | _ => false end.
Definition is_panic {A} (o : outcome State A) : bool :=
  match o with Panic _ _ => true | _ => false end.

(** the first write to a cluster of RAID4 or RAID5 stores the metadata while
    [clusterlock] is held and the write is counted; [loadraid] does not reset
    them. After a reboot the next write waits forever. *)
Theorem parity_write_blocks_after_reboot :
  Forall (fun t => is_blocked
    ((loadraid;; setraidtype t;; writeraid 0 (ex_block 7);;
      modify (power_cycle ex_pages);; loadraid;; writeraid 0 (ex_block 9))
     (boot_state ex_pages ∅)) = true) [RAID4; RAID5].
Proof. repeat constructor. Qed.

(** an array that was destroyed makes every later boot panic. *)
Theorem destroyed_array_boot_panics :
  is_panic ((loadraid;; setraidtype RAID1;; raiddestroy;; modify (power_cycle ex_pages);; loadraid)
    (boot_state ex_pages ∅)) = true.
Proof. reflexivity. Qed.
