(* ===== verification/RaidWitness.v ===== *)
(** * The RAID theorems on concrete arrays

    Arrays of the Makefile's configuration (six disks), and of three disks for
    the flaw of RAID0+1, built by running the kernel's own operations from
    power-on; every theorem about arrays is applied to one of them. *)

From stdpp Require Import base numbers list sets gmap strings.
From Stdlib Require Import ZArith Lia.
From S2P Require Import Prelude Blocks Monad State Locks Kalloc Codec MetaImage RaidCore.
From S2P Require Import Raid0 RaidPair ParityArray ParityVolume Raid4 Raid5 RaidCtl RaidOps RaidLevels Boot RaidProps RaidFacts.
Open Scope Z_scope.

#[local] Existing Instance any_level.

Section examples.
Context `{ConfigOK}.
Variable pages : list Z.
Hypothesis Hpages : pages_wf pages.

Definition final {A} (o : outcome State A) (s0 : State) : State :=
  match o with Done _ s => s | _ => s0 end.

Lemma wp_final {A} (m : K A) (P : State -> Prop) s : wp m (fun _ s' => P s') s -> P (final (m s) s).
Proof. unfold wp, final. by destruct (m s). Qed.

(** A new array of level [t], and the array after a failure of disk [d]. *)
Definition ex_array (t : Z) : State := final ((loadraid;; setraidtype t) (boot_state pages ∅)) (boot_state pages ∅).
Definition ex_failed (t d : Z) : State := final (raidfail d (ex_array t)) (ex_array t).

Lemma ex_array_represents t : is_level t -> represents t new_volume (ex_array t).
Proof.
  intros Ht. apply (wp_final (loadraid;; setraidtype t) (represents t new_volume)).
  eapply wp_mono; [apply boot_level; [done|done| |apply zero_rows]|].
  - by rewrite lookup_empty.
  - by intros r s [_ Hs].
Qed.

Lemma ex_array_inv t : is_level t -> lv_inv t ∅ ∅ (ex_array t).
Proof. intros Ht. apply (ex_array_represents t Ht). Qed.

Lemma ex_array_ready t : is_level t -> ready t ∅ (ex_array t).
Proof. intros Ht. pose proof (any_level_ok t Ht). eapply lv_ready. by apply ex_array_inv. Qed.

Lemma ex_array_stored t : is_level t -> 2 <= DISKS -> stored (ex_array t).
Proof.
  intros Ht Hd. apply (ex_array_represents t Ht). simpl. unfold stores.
  rewrite (proj2 (Z.ltb_lt 1 DISKS)) by lia. apply bool_decide_eq_true. set_solver.
Qed.

Lemma ex_failed_ready t d : is_level t -> 1 <= d <= DISKS -> ready t {[d]} (ex_failed t d).
Proof.
  intros Ht Hd. apply (wp_final (raidfail d) (ready t {[d]})).
  eapply wp_mono; [by apply (raidfail_spec t ∅); [apply ex_array_ready|]|].
  rewrite union_empty_r_L. by intros r s (_ & _ & ? & _).
Qed.

Lemma ex_failed_inv t d : is_level t -> 1 <= d <= DISKS -> lv_tolerates t {[d]} -> lv_inv t ∅ {[d]} (ex_failed t d).
Proof.
  intros Ht Hd Htol. pose proof (any_level_ok t Ht). apply (wp_final (raidfail d) (lv_inv t ∅ {[d]})).
  eapply wp_mono; [apply (lv_fail ∅ ∅ d); [by apply ex_array_inv|by rewrite union_empty_r_L|done]|].
  rewrite union_empty_r_L. by intros r s (_ & ? & _).
Qed.

Lemma ex_failed_data t d : is_level t -> 1 <= d <= DISKS ->
  rm_data (st_meta (ex_failed t d)) = rm_data (st_meta (ex_array t)).
Proof.
  intros Ht Hd. apply (wp_final (raidfail d) (fun s => rm_data (st_meta s) = rm_data (st_meta (ex_array t)))).
  eapply wp_mono; [by apply (raidfail_spec t ∅); [apply ex_array_ready|]|].
  intros r s (_ & (D & -> & _) & _). done.
Qed.

End examples.

#[global] Opaque ex_array ex_failed.
#[local] Existing Instance makefile_config.
Abbreviation array t := (ex_array ex_pages t).
Abbreviation failed t d := (ex_failed ex_pages t d).

Lemma capacity5 : capacity RAID5 = 40955.
Proof. reflexivity. Qed.

(** A block is written at RAID5, disk 3 fails, the block is read, disk 3 is
    repaired, and after a reboot the block is read again. *)
Lemma raid_history_witness : exists l, length l = 6%nat /\
  wp (loadraid;; let! c := setraidtype RAID5 in let! rs := exec_ops l in ret (c, rs))
    (fun r s => r.1 = 0 /\ vresults RAID5 new_volume l r.2 /\
       represents RAID5 (fold_left (vnext RAID5) l new_volume) s)
    (boot_state ex_pages ∅).
Proof.
  exists [OWrite 7 (ex_block 5); OFail 3; ORead 7 zblk; ORepair 3; OReboot ex_pages; ORead 7 zblk].
  split; [done|]. apply (raid_history RAID5 ex_pages ∅).
  - done.
  - apply ex_pages_wf.
  - by rewrite lookup_empty.
  - apply zero_rows.
  - assert (wf_block (ex_block 5)) by (apply ex_block_wf; unfold is_byte; lia).
    assert (parity_tolerates ({[3]} ∪ ∅)).
    { rewrite union_empty_r_L. unfold parity_tolerates. rewrite size_singleton. lia. }
    cbn [vallowed_all vallowed vnext]. split_and!; try done; apply ex_pages_wf.
Defined.

Lemma ex_block_5 : wf_block (ex_block 5).
Proof. apply ex_block_wf. unfold is_byte. lia. Qed.

Lemma raid_survives_failure_witness :
  wp (let! c1 := writeraid 7 (ex_block 5) in
      let! c2 := raidfail 3 in
      let! r1 := readraid 7 zblk in
      let! c3 := raidrepair 3 in
      let! r2 := readraid 7 zblk in
      ret (c1, c2, r1, c3, r2))
    (fun r s' => r = (0, 0, (0, ex_block 5), 0, (0, ex_block 5)) /\
       lv_inv RAID0_1 (<[7 := ex_block 5]> ∅) ∅ s') (array RAID0_1).
Proof.
  apply (raid_survives_failure RAID0_1 ∅ 3).
  - right. split; [by right|]. by split.
  - apply (ex_array_inv ex_pages ex_pages_wf RAID0_1). done.
  - done.
  - by split.
  - apply ex_block_5.
Defined.

Lemma raid5_placement_witness :
  0 <= diskn_of 7 < DISKS /\ 0 <= stripe_of 7 < diskblockn /\ diskn_of 7 <> paritydiskn_of 7 /\
  (diskn_of 7 = diskn_of 12 -> stripe_of 7 = stripe_of 12 -> 7 = 12).
Proof. apply (raid5_placement 7 12); rewrite capacity5; lia. Defined.

(** RAID5 after a first write, which has loaded a cluster. *)
Definition written : State := final (raid5write 7 (ex_block 5) (array RAID5)) (array RAID5).
Lemma ex_written : exists l, parity_vol RAID5 (<[7 := ex_block 5]> ∅) ∅ l written /\ loaded_at l (stripe_of 7) /\
  blk written (diskn_of 7 + 1) (stripe_of 7) = ex_block 5.
Proof.
  assert (H : exists l, parity_vol RAID5 (<[7 := ex_block 5]> ∅) ∅ l written).
  { destruct (ex_array_inv ex_pages ex_pages_wf RAID5 ltac:(done)) as [l Hpv]. pose proof Hpv as [Hr Hd Hlen _ Hone _ _].
    apply (wp_final (raid5write 7 (ex_block 5)) (fun s => exists l, parity_vol RAID5 (<[7 := ex_block 5]> ∅) ∅ l s)).
    eapply wp_mono; [eapply (raid5write_spec ∅ l 7); [exact Hr|exact Hone|exact Hd|exact Hlen|by split]|]. intros r s' [_ Hw].
    apply (write_vol RAID5 ∅ ∅ l _ s' 7 (ex_block 5) Hpv); [by split|apply ex_block_5|exact Hw]. }
  destruct H as [l Hpv]. exists l. split; [exact Hpv|]. destruct (raid5_addr 7 ltac:(by split)) as (-> & -> & _).
  destruct (pv_vol _ _ _ _ _ Hpv 7 (ex_block 5) (lookup_insert_eq _ _ _)) as (_ & Hl & Hx). split; [exact Hl|].
  pose proof (pl_disk_range (t := RAID5) 7 ltac:(by split)) as Hdk. unfold lblk in Hx. by rewrite (ready_all_valid RAID5 ∅ written (pv_ready _ _ _ _ _ Hpv)) in Hx by done.
Qed.
#[global] Opaque written.

(** Block 8 is written next: block 7 of the same cluster stays. *)
Lemma raid5write_keeps_parity_witness : exists l, loaded_at l (stripe_of 7) /\ cluster_of (stripe_of 7) = cluster_of (stripe_of 8) /\
  blk written (diskn_of 7 + 1) (stripe_of 7) = ex_block 5 /\
  wp (raid5write 8 (ex_block 5)) (fun r s' => r = 0 /\
    blk s' (diskn_of 8 + 1) (stripe_of 8) = ex_block 5 /\
    (forall b, data_row b -> cluster_of b = cluster_of (stripe_of 8) \/ loaded_at l b -> row_ok s' b) /\
    (forall w, 0 <= w < capacity RAID5 -> w <> 8 -> blk s' (diskn_of w + 1) (stripe_of w) = blk written (diskn_of w + 1) (stripe_of w)) /\
    forall e b, data_row b -> cluster_of b <> cluster_of (stripe_of 8) -> blk s' e b = blk written e b) written.
Proof.
  destruct ex_written as (l & Hpv & Hl & Hx). exists l. split; [exact Hl|]. split; [vm_compute; reflexivity|]. split; [exact Hx|].
  apply (raid5write_keeps_parity (<[7 := ex_block 5]> ∅) l 8); [exact Hpv|by split|apply ex_block_5].
Defined.

Lemma raid4_degraded_write_witness :
  wp (let! c := raid4write 7 (ex_block 5) in let! r := raid4read 7 zblk in ret (c, r))
    (fun r s' => r = (0, (0, ex_block 5)) /\ xothers s' (7 mod (DISKS - 1)) (7 / (DISKS - 1)) = ex_block 5 /\
       st_meta s' = set_data (rm_data (st_meta s')) (st_meta (failed RAID4 3))) (failed RAID4 3).
Proof.
  assert (Htol : lv_tolerates RAID4 {[3]}).
  { simpl. unfold parity_tolerates. rewrite size_singleton. lia. }
  destruct (ex_failed_inv ex_pages ex_pages_wf RAID4 3 ltac:(done) ltac:(done) Htol) as [l Hpv].
  apply (raid4_degraded_write ∅ l 7 (ex_block 5)); [exact Hpv|by split|apply ex_block_5].
Defined.

(** The disk of block 7 fails and is repaired. *)
Lemma parity_repair_restores_witness : exists l, data_row (stripe_of 7) /\ loaded_at l (stripe_of 7) /\
  blk written (diskn_of 7 + 1) (stripe_of 7) = ex_block 5 /\
  wp (raidfail (diskn_of 7 + 1);; raidrepair (diskn_of 7 + 1)) (fun r s' => r = 0 /\ dvalid s' (diskn_of 7 + 1 - 1) = true /\
    forall b, data_row b -> loaded_at l b -> blk s' (diskn_of 7 + 1) b = blk written (diskn_of 7 + 1) b) written.
Proof.
  destruct ex_written as (l & Hpv & Hl & Hx). pose proof Hpv as [Hr Hd Hlen _ _ Hpar _]. exists l.
  split; [vm_compute; split; [discriminate|reflexivity]|]. split; [exact Hl|]. split; [exact Hx|].
  apply (parity_repair_restores RAID5 l (diskn_of 7 + 1) written (or_intror eq_refl) Hr Hd Hlen (Hpar eq_refl)).
  vm_compute. split; discriminate.
Defined.

Lemma mirror_write_both_witness :
  wp (writeraid 7 (ex_block 5)) (fun r s' => r = 0 /\ st_meta s' = st_meta (array RAID1) /\
    forall e b, blk s' e b =
      if bool_decide ((e = m_d0 RAID1 (m_pair RAID1 7) + 1 \/ e = m_d1 RAID1 (m_pair RAID1 7) + 1) /\ b = m_row RAID1 7)
      then ex_block 5 else blk (array RAID1) e b) (array RAID1).
Proof.
  destruct (ex_array_inv ex_pages ex_pages_wf RAID1 ltac:(done)) as [Hm _].
  apply (mirror_write_both RAID1 ∅ 7); [by left|exact Hm|by split|split; [done|set_solver]|split; [done|set_solver]].
Defined.

(** RAID1 without disk 2, after a write that disk 2 has missed. *)
Definition missed : State := final (writeraid 0 (ex_block 5) (failed RAID1 2)) (failed RAID1 2).
Lemma missed_tolerates : mirror_tolerates RAID1 {[2]}.
Proof. apply (redundant_tolerates RAID1 2). right. split; [by left|by split]. Qed.
Lemma ex_missed : mirror_inv RAID1 (<[0 := ex_block 5]> ∅) {[2]} missed.
Proof.
  apply (wp_final (writeraid 0 (ex_block 5)) (mirror_inv RAID1 (<[0 := ex_block 5]> ∅) {[2]})).
  eapply wp_mono; [apply (mirror_level_write RAID1 (or_introl eq_refl) ∅ {[2]} 0 (ex_block 5))|].
  - exact (ex_failed_inv ex_pages ex_pages_wf RAID1 2 ltac:(done) ltac:(done) missed_tolerates).
  - exact missed_tolerates.
  - by split.
  - apply ex_block_5.
  - by intros r s' (_ & ? & _).
Qed.
#[global] Opaque missed.


Lemma out_of_range_refused_witness :
  readraid 40955 zblk (array RAID5) = Done (ERR, zblk) (array RAID5) /\
  writeraid 40955 zblk (array RAID5) = Done ERR (array RAID5) /\
  raidfail 0 (array RAID5) = Done ERR (array RAID5) /\ raidrepair 0 (array RAID5) = Done ERR (array RAID5).
Proof.
  apply (out_of_range_refused RAID5 ∅); [by apply ex_array_ready; [apply ex_pages_wf|]|done|done|done| |];
    rewrite ?capacity5; simpl; lia.
Defined.

(** Two failed disks. *)
Definition failed_two : State := final (raidfail 2 (failed RAID0 1)) (failed RAID0 1).
Lemma failed_two_ready : ready RAID0 ({[2]} ∪ {[1]}) failed_two.
Proof.
  apply (wp_final (raidfail 2) (ready RAID0 ({[2]} ∪ {[1]}))).
  eapply wp_mono; [apply (raidfail_spec RAID0 {[1]}); [by apply ex_failed_ready; [apply ex_pages_wf| |]|done]|].
  by intros r s (_ & _ & ? & _).
Qed.

Lemma setraidtype_refuses_witness :
  setraidtype RAID5 failed_two = Done ERR (set_meta (set_isDestroyed 0
    (set_fns (addr_raidread RAID5) (addr_raidwrite RAID5) (set_type RAID5 (st_meta failed_two)))) failed_two).
Proof.
  apply (setraidtype_refuses RAID5 ({[2]} ∪ {[1]})); [|by right|].
  - eapply ready_settled, failed_two_ready.
  - by rewrite size_union, !size_singleton by set_solver; lia.
Defined.


Lemma disk2_failure_forgotten_witness :
  wp (raidfail 2;; modify (power_cycle ex_pages);; loadraid)
    (fun _ s' => ready RAID1 ∅ s' /\ dvalid s' 1 = true) (array RAID1).
Proof.
  assert (Hl : is_level RAID1) by done.
  apply (disk2_failure_forgotten RAID1 ∅ ex_pages).
  - exact (ex_array_ready ex_pages ex_pages_wf RAID1 Hl).
  - apply (ex_array_stored ex_pages ex_pages_wf RAID1 Hl). change DISKS with 6. lia.
  - change DISKS with 6. lia.
  - set_solver.
  - exact ex_pages_wf.
Defined.

Lemma raiddestroy_final_witness :
  wp raiddestroy (fun r s' => r = 0 /\ rm_isDestroyed (st_meta s') = 1 /\
    forall v d data,
      let msg := "RAID structure was destroyed"%string in
      readraid v data s' = Panic msg s' /\ writeraid v data s' = Panic msg s' /\
      raidfail d s' = Panic msg s' /\ raidrepair d s' = Panic msg s' /\ raiddestroy s' = Panic msg s') (array RAID4).
Proof. apply (raiddestroy_final RAID4 ∅). by apply ex_array_ready; [apply ex_pages_wf|]. Defined.

(** Three disks, of which RAID0+1 pairs two. *)
Definition three_disks : Config := config_of 3 (1 * (CLUSTER_SIZE * BSIZE)).
#[local] Existing Instance three_disks.
Lemma three_disks_ok : @ConfigOK three_disks.
Proof. by apply config_of_ok. Qed.
#[local] Existing Instance three_disks_ok.
Lemma three_pages_wf : pages_wf ex_pages.
Proof. exact ex_pages_wf. Qed.

Lemma raid0_1_unpaired_repair_witness : raidrepair DISKS (ex_failed ex_pages RAID0_1 3) = Fault (ex_failed ex_pages RAID0_1 3).
Proof.
  assert (Hl : is_level RAID0_1) by done. assert (Hd : 1 <= 3 <= DISKS) by done.
  apply (raid0_1_unpaired_repair {[3]}).
  - split; [exact (ex_failed_ready ex_pages three_pages_wf RAID0_1 3 Hl Hd)|].
    rewrite (ex_failed_data ex_pages three_pages_wf RAID0_1 3 Hl Hd).
    apply (ex_array_inv ex_pages three_pages_wf RAID0_1 Hl).
  - reflexivity.
  - done.
  - change DISKS with 3. set_solver.
Defined.
