(* ===== verification/Syscall.v ===== *)
(** * System calls: kernel/syscall.c, kernel/sysraid.c

    The current process with the registers its trap saved, the functions that
    fetch system call arguments, the handlers of the RAID calls, [sys_getpid]
    and [sys_sbrk], and the dispatch through the table [syscalls].

    [ecall] is a call from user space: the stub that usys.pl generates loads
    the number into a7, the arguments are in a0, a1, ..., and the result is
    what [syscall] leaves in a0.  The table's entries for the other 19 calls
    are an argument of [syscall]. *)

From stdpp Require Import base numbers list gmap strings.
From Stdlib Require Import ZArith Lia.
From S2P Require Import Prelude Blocks Monad State Locks Kalloc Codec Mem Strings Vm.
From S2P Require Import MetaImage RaidCore RaidCtl.
Open Scope Z_scope.

(** The registers of [struct trapframe] a system call uses. *)
Record trapframe := mk_trapframe {
  tf_a0 : Z; tf_a1 : Z; tf_a2 : Z; tf_a3 : Z; tf_a4 : Z; tf_a5 : Z; tf_a7 : Z;
}.
Definition set_a0 (v : Z) (tf : trapframe) : trapframe :=
  mk_trapframe v (tf_a1 tf) (tf_a2 tf) (tf_a3 tf) (tf_a4 tf) (tf_a5 tf) (tf_a7 tf).

(** The private fields of [struct proc]. *)
Record proc := mk_proc { p_sz : Z; p_pagetable : Z; p_trapframe : trapframe }.

Record sysstate := mk_sys {
  sy_vm : vmstate;
  sy_proc : proc;
  sy_unknown : list Z;    (* the numbers printed as unknown system calls *)
}.
Abbreviation Y := (M sysstate).

Definition in_vm {A} (c : V A) : Y A :=
  lift sy_vm (fun v s => mk_sys v (sy_proc s) (sy_unknown s)) c.
Definition in_kernel {A} (c : K A) : Y A := in_vm (in_k c).
Definition myproc : Y proc := gets sy_proc.
Definition put_proc (p : proc) : Y unit := modify (fun s => mk_sys (sy_vm s) p (sy_unknown s)).
Definition put_tf (tf : trapframe) : Y unit :=
  let! p := myproc in put_proc (mk_proc (p_sz p) (p_pagetable p) tf).

Section syscalls.
Context `{Config}.

(** ** Arguments *)

(** The result and the value stored through [ip]. *)
Definition fetchaddr (addr : Z) : Y (Z * Z) :=
  let! p := myproc in
  if (p_sz p <=? addr) || (p_sz p <? u64 (addr + 8)) then ret (-1, 0)
  else
    let! r := in_vm (copyin (p_pagetable p) addr 8) in
    if negb (r.1 =? 0) then ret (-1, 0) else ret (0, le_val r.2).

(** The number of bytes before the first NUL of a buffer. *)
Fixpoint buf_strlen (l : list Z) : Z :=
  match l with
  | [] => 0
  | c :: l => if c =? 0 then 0 else 1 + buf_strlen l
  end.

(** The result and the bytes stored in [buf]. *)
Definition fetchstr (addr max : Z) : Y (Z * list Z) :=
  let! p := myproc in
  let! r := in_vm (copyinstr (p_pagetable p) addr max) in
  if r.1 <? 0 then ret (-1, r.2) else ret (buf_strlen r.2, r.2).

Definition argraw (n : Z) : Y Z :=
  let! p := myproc in
  let tf := p_trapframe p in
  match n with
  | 0 => ret (tf_a0 tf)
  | 1 => ret (tf_a1 tf)
  | 2 => ret (tf_a2 tf)
  | 3 => ret (tf_a3 tf)
  | 4 => ret (tf_a4 tf)
  | 5 => ret (tf_a5 tf)
  | _ => panic "argraw"
  end.

Definition argint (n : Z) : Y Z := let! v := argraw n in ret (i32 v).
Definition argaddr (n : Z) : Y Z := argraw n.
Definition argstr (n max : Z) : Y (Z * list Z) := let! addr := argaddr n in fetchstr addr max.

(** ** sysraid.c *)

Definition sys_init_raid : Y Z :=
  let! type := argint 0 in
  if type <? 0 then ret ERR
  else
    let! _ := in_kernel (setraidtype type) in
    ret 0.

(** [data] is what the uninitialised local buffer of the kernel stack holds.
    The results of [readraid] and the addresses are unsigned, so the tests
    [< 0] on them are constantly false. *)
Definition sys_read_raid (data : block) : Y Z :=
  let! vblkn := argint 0 in
  let! p := myproc in
  let! data_addr := argaddr 1 in
  if data_addr <? 0 then ret ERR
  else
    let! r := in_kernel (readraid vblkn data) in
    if r.1 <? 0 then ret ERR
    else
      let! c := in_vm (copyout (p_pagetable p) data_addr r.2) in
      if c <? 0 then ret ERR else ret 0.

Definition sys_write_raid : Y Z :=
  let! vblkn := argint 0 in
  let! n := (if vblkn <? 0 then ret 0 else in_kernel raidblockn) in
  if bad_vblkn vblkn n then ret ERR
  else
    let! p := myproc in
    let! data_addr := argaddr 1 in
    if data_addr <? 0 then ret ERR
    else
      let! r := in_vm (copyin (p_pagetable p) data_addr BSIZE) in
      if r.1 <? 0 then ret ERR else in_kernel (writeraid vblkn r.2).

Definition sys_disk_fail_raid : Y Z :=
  let! diskn := argint 0 in
  if diskn <? 0 then ret ERR else in_kernel (raidfail diskn).

Definition sys_disk_repaired_raid : Y Z :=
  let! diskn := argint 0 in
  if diskn <? 0 then ret ERR else in_kernel (raidrepair diskn).

Definition sys_info_raid : Y Z :=
  let! blkn_addr := argaddr 0 in
  let! blks_addr := argaddr 1 in
  let! diskn_addr := argaddr 2 in
  if (blkn_addr <? 0) || (blks_addr <? 0) || (diskn_addr <? 0) then ret ERR
  else
    let! n := in_kernel raidblockn in
    let blkn := u32 n in
    let blks := BSIZE in
    let diskn := DISKS in
    let! p := myproc in
    let! c := in_vm (copyout (p_pagetable p) blkn_addr (le_bytes 4 blkn)) in
    if c <? 0 then ret ERR
    else
      let! c := in_vm (copyout (p_pagetable p) blks_addr (le_bytes 4 blks)) in
      if c <? 0 then ret ERR
      else
        let! c := in_vm (copyout (p_pagetable p) diskn_addr (le_bytes 4 diskn)) in
        if c <? 0 then ret ERR else ret 0.

Definition sys_destroy_raid : Y Z := in_kernel raiddestroy.

(** ** sysproc.c, proc.c *)

Definition sys_getpid : Y Z := in_kernel (gets st_pid).

(** [sz + n] is computed in 64 bits without sign. *)
Definition growproc (n : Z) : Y Z :=
  let! p := myproc in
  let sz := p_sz p in
  let! sz :=
    (if 0 <? n then in_vm (uvmalloc (p_pagetable p) sz (u64 (sz + n)) PTE_W)
     else if n <? 0 then in_vm (uvmdealloc (p_pagetable p) sz (u64 (sz + n)))
     else ret sz) in
  if (0 <? n) && (sz =? 0) then ret (-1)
  else put_proc (mk_proc sz (p_pagetable p) (p_trapframe p));; ret 0.

Definition sys_sbrk : Y Z :=
  let! n := argint 0 in
  let! p := myproc in
  let addr := p_sz p in
  let! r := growproc n in
  if r <? 0 then ret ERR else ret addr.

(** ** The table and the dispatch *)

Definition SYS_getpid : Z := 11.
Definition SYS_sbrk : Z := 12.
Definition SYS_close : Z := 21.
Definition SYS_init_raid : Z := 22.
Definition SYS_read_raid : Z := 23.
Definition SYS_write_raid : Z := 24.
Definition SYS_disk_fail_raid : Z := 25.
Definition SYS_disk_repaired_raid : Z := 26.
Definition SYS_info_raid : Z := 27.
Definition SYS_destroy_raid : Z := 28.

Section dispatch.
Variable others : Z -> Y Z.     (* the handlers of the calls 1 to 21 *)
Variable stack : block.         (* the kernel stack under a local buffer *)

(** [NELEM(syscalls)] is 29; the entry 0 is null. *)
Definition syscalls (num : Z) : option (Y Z) :=
  match num with
  | 22 => Some sys_init_raid
  | 23 => Some (sys_read_raid stack)
  | 24 => Some sys_write_raid
  | 25 => Some sys_disk_fail_raid
  | 26 => Some sys_disk_repaired_raid
  | 27 => Some sys_info_raid
  | 28 => Some sys_destroy_raid
  | 11 => Some sys_getpid
  | 12 => Some sys_sbrk
  | _ => if (0 <? num) && (num <=? SYS_close) then Some (others num) else None
  end.

Definition syscall : Y unit :=
  let! p := myproc in
  let num := i32 (tf_a7 (p_trapframe p)) in
  let! a0 := match (if (0 <? num) && (num <? 29) then syscalls num else None) with
             | Some handler => handler
             | None =>
               modify (fun s => mk_sys (sy_vm s) (sy_proc s) (sy_unknown s ++ [num]));;
               ret ERR
             end in
  let! p := myproc in
  put_tf (set_a0 a0 (p_trapframe p)).

(** A system call from user space. *)
Definition ecall (num x y z : Z) : Y Z :=
  let! p := myproc in
  let tf := p_trapframe p in
  put_tf (mk_trapframe x y z (tf_a3 tf) (tf_a4 tf) (tf_a5 tf) num);;
  syscall;;
  let! p := myproc in
  ret (tf_a0 (p_trapframe p)).

End dispatch.
End syscalls.
