(* ===== verification/SysRaid.v ===== *)
(** * The RAID array as user programs see it

    The RAID system calls run the array of RaidLevels.v on data that
    [copyin] and [copyout] move from and to the caller's memory.  The theorems
    put the two together: what a process writes through [write_raid] is what
    [read_raid] puts into its memory, also with a failed disk. *)

From stdpp Require Import base numbers list sets gmap strings.
From Stdlib Require Import ZArith Lia.
From S2P Require Import Prelude Blocks Monad State Locks Kalloc Codec Mem Strings Vm VmWalk VmSpace UserMem.
From S2P Require Import MetaImage RaidCore RaidCtl RaidOps RaidLevels Boot RaidProps Syscall.
Open Scope Z_scope.

#[local] Existing Instance any_level.
#[local] Arguments le_bytes : simpl never.

Section sysraid.
Context `{ConfigOK}.

(** ** The memory of the calling process *)

Definition root_of (s : sysstate) : Z := p_pagetable (sy_proc s).
Definition user_there (s : sysstate) (x : Z) : Prop := uaddr (vm_mem (sy_vm s)) (root_of s) (PGROUNDDOWN x) <> 0.
Definition user_byte (s : sysstate) (x : Z) : option Z := ubyte (vm_mem (sy_vm s)) (root_of s) x.
Definition user_range (s : sysstate) (va n : Z) : Prop := forall x, va <= x < va + n -> user_there s x.
Definition user_bytes (s : sysstate) (va : Z) (l : list Z) : Prop :=
  forall i b, l !! i = Some b -> user_byte s (va + Z.of_nat i) = Some b.

(** The array and the process memory, as they are between two calls. *)
Definition sys_ok (t : Z) (vol : gmap Z block) (F : gset Z) (s : sysstate) : Prop :=
  lv_inv t vol F (vm_k (sy_vm s)) /\ user_ok (sy_vm s) (root_of s) /\ mem_ok (vm_mem (sy_vm s)).

(** The process and its memory but for the bytes [P] are as before. *)
Record user_kept (P : Z -> Prop) (s s' : sysstate) : Prop := {
  uk_root : root_of s' = root_of s;
  uk_there : forall x, user_there s' x <-> user_there s x;
  uk_byte : forall x, 0 <= x -> ~ P x -> user_byte s' x = user_byte s x;
}.

Definition within (va n x : Z) : Prop := va <= x < va + n.

Lemma user_kept_trans P s1 s2 s3 : user_kept P s1 s2 -> user_kept P s2 s3 -> user_kept P s1 s3.
Proof.
  intros [R1 T1 B1] [R2 T2 B2]. constructor; [congruence| |].
  - intros x. by rewrite T2.
  - intros x Hx Hn. by rewrite B2, B1.
Qed.
Lemma user_kept_weaken (P Q : Z -> Prop) s s' : user_kept P s s' -> (forall x, P x -> Q x) -> user_kept Q s s'.
Proof. intros [R T B] HPQ. constructor; [done..|]. intros x Hx Hn. apply B; [done|auto]. Qed.
Lemma user_kept_range P s s' va n : user_kept P s s' -> user_range s' va n <-> user_range s va n.
Proof. intros Hk. unfold user_range. by setoid_rewrite (uk_there _ _ _ Hk). Qed.
Lemma user_kept_bytes P s s' va l : user_kept P s s' -> 0 <= va ->
  (forall x, within va (Z.of_nat (length l)) x -> ~ P x) -> user_bytes s va l -> user_bytes s' va l.
Proof.
  intros Hk Hva Hd Hb i b Hi. pose proof (lookup_lt_Some _ _ _ Hi).
  rewrite (uk_byte _ _ _ Hk); [by apply Hb|lia|]. apply Hd. unfold within. lia.
Qed.

Lemma there_max s x : 0 <= x -> user_there s x -> x < MAXVA.
Proof.
  intros Hx. unfold user_there. destruct (Z.lt_ge_cases x MAXVA); [done|]. intros Hn.
  destruct (uaddr_va _ _ _ Hx Hn) as [Hv Ha]. destruct (PGROUNDDOWN_spec x Hx) as (_ & Hr & _).
  assert (MAXVA mod PGSIZE = 0) as HM by done. pose proof (aligned_sub _ _ Ha HM ltac:(lia)). lia.
Qed.
Lemma range_max s va n : 0 <= va -> 0 < n -> user_range s va n -> va + n <= MAXVA.
Proof. intros Hva Hn Hr. pose proof (there_max s (va + n - 1) ltac:(lia) (Hr (va + n - 1) ltac:(lia))). lia. Qed.

(** ** Calls between the layers *)

Definition with_k (k : State) (s : sysstate) : sysstate :=
  mk_sys (mk_vm k (vm_mem (sy_vm s))) (sy_proc s) (sy_unknown s).

Lemma wp_in_kernel {A} (c : K A) (Q : A -> sysstate -> Prop) s :
  wp c (fun a k => Q a (with_k k s)) (vm_k (sy_vm s)) -> wp (in_kernel c) Q s.
Proof. intros Hc. by apply wp_lift, wp_lift. Qed.

Lemma same_kernel_refl k : same_kernel k k.
Proof. exists (st_meta k), (st_disk k). by destruct k. Qed.
Lemma with_k_kept P k s : user_kept P s (with_k k s).
Proof. by constructor. Qed.
Lemma with_k_id s : with_k (vm_k (sy_vm s)) s = s.
Proof. by destruct s as [[]]. Qed.

Lemma sys_ok_kernel t vol F vol' F' k s : is_level t -> sys_ok t vol F s -> lv_inv t vol' F' k ->
  same_kernel (vm_k (sy_vm s)) k -> sys_ok t vol' F' (with_k k s).
Proof.
  intros Ht (_ & Hu & Hm) Hi (m & D & ->). pose proof (any_level_ok t Ht).
  pose proof (lv_ready _ _ _ Hi) as Hr. pose proof (ready_locks _ _ _ Hr) as [[Hc Hl] _].
  split_and!; [done| |done]. apply user_ok_kernel; [done|by apply Hl|done|done].
Qed.

(** The array with other free pages. *)
Lemma ready_set_free t F l k : ready t F k -> pages_wf l -> ready t F (set_free l k).
Proof. intros [[? ? ?] ? ? ? ? ? ? ? ? ?] Hl. by constructor. Qed.
Lemma inv_set_free t vol F l k : is_level t -> lv_inv t vol F k -> pages_wf l -> lv_inv t vol F (set_free l k).
Proof.
  intros Ht Hi Hl. pose proof (any_level_ok t Ht). apply (lv_ext vol F k); [done| |done|done].
  apply ready_set_free; [by eapply lv_ready|done].
Qed.

(** An array and a process memory with the same free pages. *)
Lemma sys_ok_make t vol F k v root sz tf un : is_level t -> lv_inv t vol F k -> user_ok v root ->
  mem_ok (vm_mem v) -> pages_wf (st_free (vm_k v)) ->
  sys_ok t vol F (mk_sys (mk_vm (set_free (st_free (vm_k v)) k) (vm_mem v)) (mk_proc sz root tf) un).
Proof.
  intros Ht Hi Hu Hm Hp. pose proof (inv_set_free t vol F _ k Ht Hi Hp) as Hi'. pose proof (any_level_ok t Ht).
  split_and!; [done| |done]. destruct (ready_locks _ _ _ (lv_ready _ _ _ Hi')) as [[Hc Hl] _].
  apply (user_ok_kernel root _ v); [done|by apply Hl|done|done].
Qed.

Lemma wp_copyout_sys t vol F va src s : sys_ok t vol F s -> is_bytes src -> 0 <= va < 2 ^ 64 ->
  wp (in_vm (copyout (root_of s) va src)) (fun r s' =>
    sys_ok t vol F s' /\ sy_proc s' = sy_proc s /\
    user_kept (within va (Z.of_nat (length src))) s s' /\
    ((r = 0 /\ user_range s va (Z.of_nat (length src)) /\ user_bytes s' va src) \/
     (r = -1 /\ ~ user_range s va (Z.of_nat (length src))))) s.
Proof.
  intros (Hi & Hu & Hm) Hb Hva. apply wp_lift.
  eapply wp_mono; [by apply (um_copyout_ok (UserMemoryOK := vm_user_ok (root_of s)))|].
  intros r v [[[Hu' Hm'] Hk Ht Hby] Hr]. simpl in Hk. split_and!; try done.
  - split_and!; [|done|done]. cbn [sy_vm]. by rewrite Hk.
Qed.

Lemma wp_copyin_sys t vol F va n s : sys_ok t vol F s -> 0 <= n -> 0 <= va < 2 ^ 64 ->
  wp (in_vm (copyin (root_of s) va n)) (fun r s' => s' = s /\
    ((r.1 = 0 /\ user_range s va n /\ Z.of_nat (length r.2) = n /\ is_bytes r.2 /\ user_bytes s va r.2) \/
     (r.1 = -1 /\ ~ user_range s va n))) s.
Proof.
  intros (Hi & Hu & Hm) Hn Hva. apply wp_lift.
  eapply wp_mono; [by apply (um_copyin_ok (UserMemoryOK := vm_user_ok (root_of s)))|].
  intros r v [-> Hr]. split; [by destruct s|exact Hr].
Qed.

(** ** Entering and leaving the kernel *)

Section calls.
Variable others : Z -> Y Z.
Variable stack : block.

(** The state in which the handler of a call runs, and the one it leaves. *)
Definition entered (num x y z : Z) (s : sysstate) : sysstate :=
  let p := sy_proc s in let tf := p_trapframe p in
  mk_sys (sy_vm s) (mk_proc (p_sz p) (p_pagetable p)
    (mk_trapframe x y z (tf_a3 tf) (tf_a4 tf) (tf_a5 tf) num)) (sy_unknown s).
Definition left (r : Z) (s : sysstate) : sysstate :=
  let p := sy_proc s in
  mk_sys (sy_vm s) (mk_proc (p_sz p) (p_pagetable p) (set_a0 r (p_trapframe p))) (sy_unknown s).

Lemma wp_ecall num x y z h (Q : Z -> sysstate -> Prop) s : 0 < num < 29 -> syscalls others stack num = Some h ->
  wp h (fun r s' => Q r (left r s')) (entered num x y z s) -> wp (ecall others stack num x y z) Q s.
Proof.
  intros Hn Hh Hw. unfold ecall, syscall, put_tf, put_proc, myproc. wp_steps.
  cbn [sy_proc p_trapframe tf_a7]. rewrite i32_small by lia.
  destruct (Z.ltb_spec 0 num), (Z.ltb_spec num 29); try lia. simpl andb. cbv iota. rewrite Hh.
  eapply wp_mono; [exact Hw|]. intros r s' HQ. by wp_steps.
Qed.

Lemma call_kept P num x y z r s s' : user_kept P (entered num x y z s) s' -> user_kept P s (left r s').
Proof. intros [R T B]. by constructor. Qed.

Lemma bytes_range s va l : user_bytes s va l -> user_range s va (Z.of_nat (length l)).
Proof.
  intros Hb x Hx. destruct (lookup_lt_is_Some_2 l (Z.to_nat (x - va)) ltac:(lia)) as [b Hl].
  specialize (Hb _ _ Hl). rewrite Z2Nat.id in Hb by lia. replace (va + (x - va)) with x in Hb by lia.
  unfold user_byte, ubyte in Hb. unfold user_there. by destruct (Z.eqb_spec (uaddr (vm_mem (sy_vm s)) (root_of s) (PGROUNDDOWN x)) 0).
Qed.

Lemma wp_array {A} t vol F (c : K A) (Q : A -> sysstate -> Prop) s : is_level t -> sys_ok t vol F s ->
  wp c (fun a k => exists vol' F', lv_inv t vol' F' k /\ same_kernel (vm_k (sy_vm s)) k /\
    (sys_ok t vol' F' (with_k k s) -> user_kept (fun _ => False) s (with_k k s) -> Q a (with_k k s)))
    (vm_k (sy_vm s)) ->
  wp (in_kernel c) Q s.
Proof.
  intros Ht Hs Hw. apply wp_in_kernel. eapply wp_mono; [exact Hw|].
  intros a k (vol' & F' & Hi & Hk & HQ). apply HQ; [by eapply sys_ok_kernel|apply with_k_kept].
Qed.

Lemma wf_block_bytes x : wf_block x -> is_bytes x /\ Z.of_nat (length x) = BSIZE.
Proof. intros [Hl Hb]. split; [exact Hb|]. rewrite Hl. done. Qed.

Lemma argint_small n v s : argraw n s = Done v s -> 0 <= v < 2 ^ 31 -> argint n s = Done v s.
Proof. intros Ha Hv. unfold argint. simpl. rewrite Ha. by rewrite i32_small by lia. Qed.

Section level.
Variables (t : Z) (F : gset Z).
Hypothesis Ht : is_level t.
Hypothesis HF : lv_tolerates t F.

Lemma write_call vol v wa z data s : sys_ok t vol F s -> 0 <= v < capacity t -> 0 <= wa < 2 ^ 64 ->
  wf_block data -> user_bytes s wa data ->
  wp (ecall others stack SYS_write_raid v wa z) (fun r s' =>
    r = 0 /\ sys_ok t (<[v := data]> vol) F s' /\ user_kept (fun _ => False) s s') s.
Proof.
  intros Hs Hv Hwa Hd Hb. pose proof (any_level_ok t Ht). pose proof (capacity_range t).
  destruct (wf_block_bytes data Hd) as [Hby Hlen]. pose proof (bytes_range _ _ _ Hb) as Hr. rewrite Hlen in Hr.
  eapply wp_ecall; [done|reflexivity|]. set (s1 := entered SYS_write_raid v wa z s).
  assert (Hs1 : sys_ok t vol F s1) by exact Hs.
  unfold sys_write_raid, argaddr, argraw, myproc. apply wp_bind. unfold wp at 1. rewrite (argint_small 0 v) by (reflexivity || lia).
  apply wp_bind. destruct (Z.ltb_spec v 0); [lia|].
  eapply wp_array; [exact Ht|exact Hs1|]. pose proof (lv_ready _ _ _ (proj1 Hs1)) as Hrd.
  apply wp_raidblockn; [rewrite (rd_type _ _ _ Hrd); exact Ht|]. rewrite (rd_type _ _ _ Hrd).
  exists vol, F. split_and!; [apply Hs1|apply same_kernel_refl|].
  rewrite with_k_id. intros _ _. rewrite bad_vblkn_false by lia. wp_steps.
  destruct (Z.ltb_spec (tf_a1 (p_trapframe (sy_proc s1))) 0) as [Hneg|_]; [simpl in Hneg; lia|]. wp_steps.
  eapply wp_mono; [apply (wp_copyin_sys t vol F wa BSIZE s1 Hs1); [done|done]|].
  intros [c l] s2 [-> [(Hc & _ & Hl & Hlb & Hbs)|(_ & Hn)]]; [|by destruct Hn]. simpl in *. subst c. cbn [Z.ltb Z.compare].
  assert (l = data) as ->.
  { eapply (um_bytes_inj (UM := vm_user (root_of s))); [|exact Hbs|exact Hb]. lia. }
  eapply wp_array; [exact Ht|exact Hs1|].
  eapply wp_mono; [apply (lv_write vol F v data); [apply Hs1|done|done|done]|].
  intros r k (-> & Hi & _ & Hk). exists (<[v := data]> vol), F. split_and!; [done|done|].
  intros Hok Hkept. split_and!; [done|exact Hok|]. by eapply call_kept.
Qed.

Lemma read_call vol v ra z x s : sys_ok t vol F s -> 0 <= v < capacity t -> 0 <= ra < 2 ^ 64 ->
  vol !! v = Some x -> wf_block x -> user_range s ra BSIZE ->
  wp (ecall others stack SYS_read_raid v ra z) (fun r s' =>
    r = 0 /\ sys_ok t vol F s' /\ user_bytes s' ra x /\ user_kept (within ra BSIZE) s s') s.
Proof.
  intros Hs Hv Hra Hx Hwf Hr. pose proof (any_level_ok t Ht). pose proof (capacity_range t).
  destruct (wf_block_bytes x Hwf) as [Hby Hlen].
  eapply wp_ecall; [done|reflexivity|]. set (s1 := entered SYS_read_raid v ra z s).
  assert (Hs1 : sys_ok t vol F s1) by exact Hs.
  unfold sys_read_raid, argaddr, argraw, myproc. apply wp_bind. unfold wp at 1. rewrite (argint_small 0 v) by (reflexivity || lia).
  wp_steps. destruct (Z.ltb_spec (tf_a1 (p_trapframe (sy_proc s1))) 0) as [Hneg|_]; [simpl in Hneg; lia|]. wp_steps.
  eapply wp_array; [exact Ht|exact Hs1|].
  eapply wp_mono; [apply (lv_read vol F v stack); [apply Hs1|done|done]|].
  intros [c d] k (-> & Hc & Hd). simpl in Hc, Hd. subst c. rewrite (Hd x Hx).
  exists vol, F. split_and!; [apply Hs1|apply same_kernel_refl|].
  rewrite with_k_id. intros _ _. simpl fst. cbn [Z.ltb Z.compare snd]. wp_steps.
  eapply wp_mono; [apply (wp_copyout_sys t vol F ra x s1 Hs1); [done|done]|].
  rewrite Hlen. intros c s2 (Hs2 & Hp & Hk & [(-> & _ & Hbs)|(_ & Hn)]); [|by destruct Hn].
  cbn [Z.ltb Z.compare]. wp_steps. split_and!; [done|exact Hs2|exact Hbs|]. by eapply call_kept.
Qed.
End level.

Lemma fail_call t F vol d y z s : is_level t -> sys_ok t vol F s -> lv_tolerates t ({[d]} ∪ F) -> 1 <= d <= DISKS ->
  wp (ecall others stack SYS_disk_fail_raid d y z) (fun r s' =>
    r = 0 /\ sys_ok t vol ({[d]} ∪ F) s' /\ user_kept (fun _ => False) s s') s.
Proof.
  intros Ht Hs HF Hd. pose proof (any_level_ok t Ht). pose proof DISKS_range.
  eapply wp_ecall; [done|reflexivity|]. set (s1 := entered SYS_disk_fail_raid d y z s).
  unfold sys_disk_fail_raid. apply wp_bind. unfold wp at 1. rewrite (argint_small 0 d) by (reflexivity || lia).
  destruct (Z.ltb_spec d 0); [lia|]. eapply (wp_array t vol F); [exact Ht|exact Hs|].
  eapply wp_mono; [apply (lv_fail vol F d); [apply Hs|done|done]|].
  intros r k (-> & Hi & _ & Hk). exists vol, ({[d]} ∪ F). split_and!; [done|done|].
  intros Hok Hkept. split_and!; [done|exact Hok|]. by eapply call_kept.
Qed.

Lemma repair_call t F vol d y z s : is_level t -> sys_ok t vol F s -> lv_tolerates t F -> d ∈ F ->
  wp (ecall others stack SYS_disk_repaired_raid d y z) (fun r s' =>
    r = 0 /\ sys_ok t vol (F ∖ {[d]}) s' /\ user_kept (fun _ => False) s s') s.
Proof.
  intros Ht Hs HF Hd. pose proof (any_level_ok t Ht). pose proof DISKS_range.
  pose proof (rd_range _ _ _ (lv_ready _ _ _ (proj1 Hs)) d Hd).
  eapply wp_ecall; [done|reflexivity|]. set (s1 := entered SYS_disk_repaired_raid d y z s).
  unfold sys_disk_repaired_raid. apply wp_bind. unfold wp at 1. rewrite (argint_small 0 d) by (reflexivity || lia).
  destruct (Z.ltb_spec d 0); [lia|]. eapply (wp_array t vol F); [exact Ht|exact Hs|].
  eapply wp_mono; [apply (lv_repair vol F d); [apply Hs|done|done]|].
  intros r k (-> & Hi & _ & Hk). exists vol, (F ∖ {[d]}). split_and!; [done|done|].
  intros Hok Hkept. split_and!; [done|exact Hok|]. by eapply call_kept.
Qed.

Lemma i32_u64 v : is_int v -> i32 (u64 v) = v.
Proof.
  intros Hv. unfold is_int, i32, u64 in *.
  rewrite (Z.mod_eq v (2 ^ 64)) by lia.
  replace (v - 2 ^ 64 * (v / 2 ^ 64) + 2 ^ 31) with (v + 2 ^ 31 + (- (2 ^ 32 * (v / 2 ^ 64))) * 2 ^ 32) by lia.
  rewrite Z.mod_add, Z.mod_small by lia. lia.
Qed.
Lemma argint_u64 n v s : argraw n s = Done (u64 v) s -> is_int v -> argint n s = Done v s.
Proof. intros Ha Hv. unfold argint. simpl. rewrite Ha. by rewrite i32_u64. Qed.

(** A call that changes no memory and returns [r]. *)
Definition only_returns (num x y z r : Z) (s : sysstate) : Prop :=
  ecall others stack num x y z s = Done r (left r (entered num x y z s)).

Lemma only_returns_intro num x y z h r s : 0 < num < 29 -> syscalls others stack num = Some h ->
  wp h (fun r' s' => r' = r /\ s' = entered num x y z s) (entered num x y z s) -> only_returns num x y z r s.
Proof.
  intros Hn Hh Hw. assert (Hwp : wp (ecall others stack num x y z)
    (fun r' s' => r' = r /\ s' = left r (entered num x y z s)) s).
  { eapply wp_ecall; [done|done|]. eapply wp_mono; [exact Hw|]. by intros ? ? [-> ->]. }
  by apply wp_Done in Hwp as (? & ? & ? & -> & ->).
Qed.

(** An array operation that refuses its argument. *)
Lemma wp_refused (c : K Z) r s : wp c (fun r' k => r' = r /\ k = vm_k (sy_vm s)) (vm_k (sy_vm s)) ->
  wp (in_kernel c) (fun r' s' => r' = r /\ s' = s) s.
Proof.
  intros Hw. apply wp_in_kernel. eapply wp_mono; [exact Hw|]. intros r' k [-> ->]. by rewrite with_k_id.
Qed.

Lemma wp_copyout_word t vol F root va z (k : Y Z) (Q : Z -> sysstate -> Prop) s : sys_ok t vol F s ->
  root = root_of s -> 0 <= va < 2 ^ 64 -> user_range s va 4 ->
  (forall s', sys_ok t vol F s' -> root_of s' = root_of s -> user_kept (within va 4) s s' ->
    user_bytes s' va (le_bytes 4 z) -> wp k Q s') ->
  wp (let! c := in_vm (copyout root va (le_bytes 4 z)) in if c <? 0 then ret ERR else k) Q s.
Proof.
  intros Hs -> Hva Hr Hk. apply wp_bind.
  eapply wp_mono; [apply (wp_copyout_sys t vol F va _ s Hs); [apply le_bytes_is_bytes|done]|].
  rewrite le_bytes_length. intros r s' (Hs' & Hp & Hkept & [(-> & _ & Hb)|(_ & Hn)]); [|by destruct Hn].
  apply Hk; [done| |done|done]. unfold root_of. by rewrite Hp.
Qed.

Lemma word_kept P s s' va z : user_kept P s s' -> 0 <= va -> (forall x, within va 4 x -> ~ P x) ->
  user_bytes s va (le_bytes 4 z) -> user_bytes s' va (le_bytes 4 z).
Proof. intros Hk Hva HP. apply (user_kept_bytes _ _ _ _ _ Hk Hva). by rewrite le_bytes_length. Qed.

(** ** Properties *)

(** C12: a block that a process writes with [write_raid] comes back through
    [read_raid] after [disk_fail_raid] of any one disk, and again after
    [disk_repaired_raid], at every redundant level: all five calls return 0,
    the bytes of the caller's buffer are in the two result buffers, and no
    other byte of its memory changes. *)
Theorem raid_calls_survive t d vol v wa ra1 ra2 data s :
  redundant t d -> sys_ok t vol ∅ s -> 1 <= d <= DISKS -> 0 <= v < capacity t -> wf_block data ->
  0 <= wa -> 0 <= ra1 -> 0 <= ra2 -> ra1 + BSIZE <= ra2 \/ ra2 + BSIZE <= ra1 ->
  user_bytes s wa data -> user_range s ra1 BSIZE -> user_range s ra2 BSIZE ->
  wp (let! c1 := ecall others stack SYS_write_raid v wa 0 in
      let! c2 := ecall others stack SYS_disk_fail_raid d 0 0 in
      let! c3 := ecall others stack SYS_read_raid v ra1 0 in
      let! c4 := ecall others stack SYS_disk_repaired_raid d 0 0 in
      let! c5 := ecall others stack SYS_read_raid v ra2 0 in
      ret [c1; c2; c3; c4; c5])
    (fun r s' => r = [0; 0; 0; 0; 0] /\ user_bytes s' ra1 data /\ user_bytes s' ra2 data /\
      user_kept (fun x => within ra1 BSIZE x \/ within ra2 BSIZE x) s s' /\
      sys_ok t (<[v := data]> vol) ∅ s') s.
Proof.
  intros Hred Hs Hd Hv Hdata Hwa Hra1 Hra2 Hdisj Hb Hr1 Hr2. pose proof (redundant_level t d Hred) as Ht.
  pose proof (any_level_ok t Ht). pose proof (redundant_tolerates t d Hred) as Htol.
  pose proof (no_failure_tolerated t Ht) as Htol0. destruct (wf_block_bytes _ Hdata) as [_ Hlen].
  pose proof (bytes_range _ _ _ Hb) as Hrw. rewrite Hlen in Hrw.
  assert (Hmax : forall a, 0 <= a -> user_range s a BSIZE -> 0 <= a < 2 ^ 64).
  { intros a Ha Hr. pose proof (range_max s a BSIZE Ha ltac:(done) Hr) as Hm. rewrite MAXVA_eq in Hm. unfold BSIZE in *. lia. }
  wp_steps. eapply wp_mono; [by apply (write_call t ∅ Ht Htol0 vol); [| | apply Hmax| |]|].
  intros c1 s1 (-> & Hs1 & Hk1). wp_steps.
  eapply wp_mono; [apply (fail_call t ∅ (<[v := data]> vol)); [done|done|by rewrite union_empty_r_L|done]|].
  rewrite union_empty_r_L. intros c2 s2 (-> & Hs2 & Hk2). wp_steps.
  pose proof (user_kept_trans _ _ _ _ Hk1 Hk2) as Hk12.
  eapply wp_mono; [apply (read_call t {[d]} Ht Htol (<[v := data]> vol) v ra1 0 data); [done|done|by apply Hmax|
    apply lookup_insert_eq|done|by apply (user_kept_range _ _ _ _ _ Hk12)]|].
  intros c3 s3 (-> & Hs3 & Hb3 & Hk3). wp_steps.
  eapply wp_mono; [apply (repair_call t {[d]} (<[v := data]> vol)); [done|done|done|set_solver]|].
  rewrite difference_diag_L. intros c4 s4 (-> & Hs4 & Hk4). wp_steps.
  assert (Hk : user_kept (within ra1 BSIZE) s s4).
  { eapply user_kept_trans; [by eapply user_kept_weaken|]. eapply user_kept_trans; [exact Hk3|].
    by eapply user_kept_weaken. }
  eapply wp_mono; [apply (read_call t ∅ Ht Htol0 (<[v := data]> vol) v ra2 0 data); [done|done|by apply Hmax|
    apply lookup_insert_eq|done|by apply (user_kept_range _ _ _ _ _ Hk)]|].
  intros c5 s5 (-> & Hs5 & Hb5 & Hk5). wp_steps. split_and!; [done| |done| |done].
  - eapply (user_kept_bytes _ _ _ _ _ Hk5); [done| |].
    + rewrite Hlen. unfold within. intros x Hx. lia.
    + eapply (user_kept_bytes _ _ _ _ _ Hk4); [done|tauto|done].
  - eapply user_kept_trans; eapply user_kept_weaken; [exact Hk|tauto|exact Hk5|tauto].
Qed.

(** the RAID calls refuse bad arguments with -1 and change nothing: a block
    number out of range or a buffer that is not user memory in [write_raid], a
    disk number out of range in [disk_fail_raid] and [disk_repaired_raid], and
    a negative type in [init_raid]. *)
Theorem raid_calls_refuse t vol F v d wa ty s : is_level t -> sys_ok t vol F s ->
  is_int v -> is_int d -> is_int ty -> ~ (1 <= d <= DISKS) -> ty < 0 -> 0 <= wa < 2 ^ 64 ->
  (~ (0 <= v < capacity t) \/ ~ user_range s wa BSIZE) ->
  only_returns SYS_write_raid (u64 v) wa 0 ERR s /\
  only_returns SYS_disk_fail_raid (u64 d) 0 0 ERR s /\
  only_returns SYS_disk_repaired_raid (u64 d) 0 0 ERR s /\
  only_returns SYS_init_raid (u64 ty) 0 0 ERR s.
Proof.
  intros Ht Hs Hv Hd Hty Hdr Hneg Hwa Hbad. pose proof (any_level_ok t Ht).
  pose proof (lv_ready _ _ _ (proj1 Hs)) as Hrd. pose proof (capacity_range t).
  split_and!; (eapply only_returns_intro; [done|reflexivity|]).
  - unfold sys_write_raid, argaddr, argraw, myproc. apply wp_bind. unfold wp at 1.
    rewrite (argint_u64 0 v) by (reflexivity || done). set (s1 := entered _ _ _ _ _). apply wp_bind.
    assert (Hrd1 : ready t F (vm_k (sy_vm s1))) by exact Hrd.
    destruct (Z.ltb_spec v 0) as [Hv0|Hv0].
    { wp_steps. unfold bad_vblkn. rewrite (proj2 (Z.ltb_lt v 0)) by done. simpl. by wp_steps. }
    apply wp_in_kernel, wp_raidblockn; rewrite (rd_type _ _ _ Hrd1); [done|].
    rewrite (with_k_id s1). destruct (decide (0 <= v < capacity t)) as [Hr|Hr].
    + rewrite bad_vblkn_false by lia. destruct Hbad as [|Hn]; [done|]. wp_steps.
      destruct (Z.ltb_spec (tf_a1 (p_trapframe (sy_proc s1))) 0) as [Hneg1|_]; [simpl in Hneg1; lia|]. wp_steps.
      eapply wp_mono; [apply (wp_copyin_sys t vol F wa BSIZE s1 Hs); [done|done]|].
      intros [c l] s2 [-> [(_ & Hu & _)|(Hc & _)]]; [by destruct Hn|]. simpl in Hc. subst c. simpl. by wp_steps.
    + rewrite bad_vblkn_true by (done || lia). by wp_steps.
  - unfold sys_disk_fail_raid. apply wp_bind. unfold wp at 1. rewrite (argint_u64 0 d) by (reflexivity || done).
    destruct (Z.ltb_spec d 0); [by wp_steps|]. apply wp_refused. apply raidfail_out; [done|done|apply (rd_alive _ _ _ Hrd)].
  - unfold sys_disk_repaired_raid. apply wp_bind. unfold wp at 1. rewrite (argint_u64 0 d) by (reflexivity || done).
    destruct (Z.ltb_spec d 0); [by wp_steps|]. apply wp_refused. by apply (raidrepair_out t F).
  - unfold sys_init_raid. apply wp_bind. unfold wp at 1. rewrite (argint_u64 0 ty) by (reflexivity || done).
    destruct (Z.ltb_spec ty 0); [|lia]. by wp_steps.
Qed.

(** [read_raid] of a block number out of range returns 0, success, and
    copies the uninitialised buffer of the kernel stack into the caller's
    memory: the result of [readraid] is unsigned, so the test [< 0] on it is
    always false. *)
Theorem read_raid_leaks_stack t vol F v ra s : is_level t -> sys_ok t vol F s ->
  is_int v -> ~ (0 <= v < capacity t) -> 0 <= ra < 2 ^ 64 -> wf_block stack -> user_range s ra BSIZE ->
  wp (ecall others stack SYS_read_raid (u64 v) ra 0) (fun r s' => r = 0 /\ user_bytes s' ra stack) s.
Proof.
  intros Ht Hs Hv Hvr Hra Hst Hr. pose proof (any_level_ok t Ht). destruct (wf_block_bytes _ Hst) as [Hby Hlen].
  eapply wp_ecall; [done|reflexivity|]. set (s1 := entered SYS_read_raid (u64 v) ra 0 s).
  assert (Hs1 : sys_ok t vol F s1) by exact Hs.
  unfold sys_read_raid, argaddr, argraw, myproc. apply wp_bind. unfold wp at 1.
  rewrite (argint_u64 0 v) by (reflexivity || done).
  wp_steps. destruct (Z.ltb_spec (tf_a1 (p_trapframe (sy_proc s1))) 0) as [Hneg|_]; [simpl in Hneg; lia|]. wp_steps.
  apply wp_in_kernel. eapply wp_mono; [apply (readraid_out t F v stack); [exact (lv_ready _ _ _ (proj1 Hs1))|done|done|done]|].
  intros r k [-> ->]. rewrite with_k_id. simpl fst. change (ERR <? 0) with false. cbv iota. wp_steps.
  eapply wp_mono; [apply (wp_copyout_sys t vol F ra stack s1 Hs1); [done|done]|].
  rewrite Hlen. intros c s2 (Hs2 & Hp & Hk & [(-> & _ & Hbs)|(_ & Hn)]); [|by destruct Hn].
  cbn [Z.ltb Z.compare]. by wp_steps.
Qed.

(** [info_raid] stores the number of blocks of the array, the block size
    and the number of disks through its three arguments, as 32-bit
    little-endian integers, and changes nothing else. *)
Theorem info_raid_reports t vol F a b c s : is_level t -> sys_ok t vol F s ->
  0 <= a -> a + 4 <= b -> b + 4 <= c -> user_range s a 4 -> user_range s b 4 -> user_range s c 4 ->
  wp (ecall others stack SYS_info_raid a b c) (fun r s' => r = 0 /\ sys_ok t vol F s' /\
    user_bytes s' a (le_bytes 4 (capacity t)) /\ user_bytes s' b (le_bytes 4 BSIZE) /\
    user_bytes s' c (le_bytes 4 DISKS) /\
    user_kept (fun x => within a 4 x \/ within b 4 x \/ within c 4 x) s s') s.
Proof.
  intros Ht Hs Ha Hab Hbc Hra Hrb Hrc. pose proof (any_level_ok t Ht). pose proof (capacity_range t).
  pose proof (range_max s c 4 ltac:(lia) ltac:(done) Hrc) as Hm. rewrite MAXVA_eq in Hm.
  eapply wp_ecall; [done|reflexivity|]. set (s1 := entered SYS_info_raid a b c s).
  assert (Hs1 : sys_ok t vol F s1) by exact Hs.
  assert (Hrd1 : ready t F (vm_k (sy_vm s1))) by exact (lv_ready _ _ _ (proj1 Hs1)).
  unfold sys_info_raid, argaddr, argraw, myproc. wp_steps. cbn [sy_proc p_trapframe tf_a0 tf_a1 tf_a2 s1 entered].
  destruct (Z.ltb_spec a 0), (Z.ltb_spec b 0), (Z.ltb_spec c 0); try lia. cbn [orb]. wp_steps.
  apply wp_in_kernel, wp_raidblockn; rewrite (rd_type _ _ _ Hrd1); [done|]. fold s1. rewrite with_k_id.
  rewrite u32_small by lia. cbv zeta. apply wp_bind, wp_gets.
  eapply (wp_copyout_word t vol F); [exact Hs1|done|lia|done|]. intros s2 Hs2 Hp2 Hk2 Hb2.
  eapply (wp_copyout_word t vol F); [exact Hs2|by rewrite Hp2|lia|by apply (user_kept_range _ _ _ _ _ Hk2)|].
  intros s3 Hs3 Hp3 Hk3 Hb3.
  eapply (wp_copyout_word t vol F); [exact Hs3|by rewrite Hp3, Hp2|lia| |].
  { apply (user_kept_range _ _ _ _ _ Hk3). by apply (user_kept_range _ _ _ _ _ Hk2). }
  intros s4 Hs4 Hp4 Hk4 Hb4. wp_steps. split_and!; [done|exact Hs4| | |exact Hb4|].
  - change (user_bytes s4 a (le_bytes 4 (capacity t))).
    eapply word_kept; [exact Hk4|lia|unfold within; lia|]. eapply word_kept; [exact Hk3|lia|unfold within; lia|done].
  - change (user_bytes s4 b (le_bytes 4 BSIZE)). eapply word_kept; [exact Hk4|lia|unfold within; lia|done].
  - eapply call_kept. eapply user_kept_trans; [|eapply user_kept_trans]; eapply user_kept_weaken;
      [exact Hk2|tauto|exact Hk3|tauto|exact Hk4|tauto].
Qed.

(** [init_raid] does not check what it should.  It returns 0 when
    [setraidtype] refused the level because two disks have failed, and a type
    above RAID5 makes the kernel panic. *)
Theorem init_raid_unchecked t F ty s : is_parity t -> settled F (vm_k (sy_vm s)) -> (1 < size F)%nat ->
  RAID5 < ty < 2 ^ 31 ->
  wp (ecall others stack SYS_init_raid t 0 0) (fun r s' => r = 0 /\ rm_type (st_meta (vm_k (sy_vm s'))) = t) s /\
  exists s', ecall others stack SYS_init_raid ty 0 0 s = Panic "invalid raid type" s'.
Proof.
  intros Ht Hse HF Hty. split.
  - eapply wp_ecall; [done|reflexivity|]. unfold sys_init_raid. apply wp_bind. unfold wp at 1.
    assert (0 <= t < 2 ^ 31) by (destruct Ht as [-> | ->]; done).
    rewrite (argint_small 0 t) by (reflexivity || lia). destruct (Z.ltb_spec t 0); [lia|].
    wp_steps. apply wp_in_kernel. eapply wp_mono; [by apply (setraidtype_refused t F)|].
    intros r k [-> ->]. by wp_steps.
  - assert (Hi : i32 ty = ty) by (apply i32_small; unfold RAID5 in *; lia).
    eexists. unfold ecall, syscall, put_tf, put_proc, myproc, sys_init_raid, bind, gets, modify.
    cbn [sy_proc p_trapframe tf_a7]. change (i32 SYS_init_raid) with 22. cbn [Z.ltb Z.compare Pos.compare Pos.compare_cont andb syscalls].
    unfold sys_init_raid, argint, argraw, myproc, bind, gets, ret. cbn [sy_proc p_trapframe tf_a0]. rewrite Hi.
    destruct (Z.ltb_spec ty 0); [unfold RAID5 in *; lia|]. unfold in_kernel, in_vm, in_k, lift, setraidtype.
    destruct (Z.ltb_spec ty RAID0), (Z.ltb_spec RAID5 ty); unfold RAID0, RAID5 in *; try lia. cbn [orb]. reflexivity.
Qed.
End calls.
End sysraid.
