(* ===== verification/SysWitness.v ===== *)
(** * The theorems on virtual memory and on the system calls on concrete processes

    An empty page table with six free pages, the address space of one page that
    [uvmalloc] makes of it, and a process with this memory on a kernel that has
    booted an array of the Makefile's configuration. *)

From stdpp Require Import base numbers list sets gmap strings.
From Stdlib Require Import ZArith Lia.
From S2P Require Import Prelude Blocks Monad State Locks Kalloc Codec Mem Strings Vm VmWalk VmSpace UserMem VmGrow.
From S2P Require Import MetaImage RaidCore RaidCtl RaidOps RaidLevels Boot RaidProps RaidWitness.
From S2P Require Import Syscall SysRaid.
Open Scope Z_scope.

#[local] Existing Instance makefile_config.

(** ** Empty page tables *)

Lemma empty_child `{Config} (m : mem) root i : (forall x, root <= x < root + PGSIZE -> m !! x = Some 0) ->
  0 <= i < 512 -> child m root i = None.
Proof.
  intros Hz Hi. unfold child. rewrite (rd64_zero m root PGSIZE) by (done || unfold PGSIZE; lia). done.
Qed.

Lemma empty_node `{Config} (m : mem) root p c : (forall x, root <= x < root + PGSIZE -> m !! x = Some 0) ->
  path_ok p -> node m root p = Some c -> p = [] /\ c = root.
Proof.
  intros Hz [_ Hp]. destruct p as [|i p]; [by intros [= <-]|]. inversion Hp; subst. simpl.
  by rewrite empty_child.
Qed.

Lemma empty_pt `{Config} s root : vm_ok s -> (forall x, root <= x < root + PGSIZE -> vm_mem s !! x = Some 0) ->
  page_ok root -> root ∉ st_free (vm_k s) ->
  pt_inv s root /\ forall va, xlate (vm_mem s) root va = None.
Proof.
  intros Hv Hz Hr Hf. split; [split; [done|]; constructor|].
  - intros p c Hp [-> ->]%empty_node; [|done|done]. split_and!; [done|done|]. intros x Hx. rewrite Hz by done. eauto.
  - intros p q c Hp Hq Hc1 Hc2. by destruct (empty_node _ _ p c Hz Hp Hc1) as [-> _], (empty_node _ _ q c Hz Hq Hc2) as [-> _].
  - intros va. unfold xlate. destruct (node _ _ _) as [c|] eqn:Hc; [|done].
    by destruct (empty_node _ _ _ c Hz (path_ok_va va) Hc).
Qed.

(** A process whose memory was all added by [uvmalloc]. *)
Lemma grew_user `{Config} `{!ConfigOK} root lo hi perm fr s0 s :
  0 <= perm < 1024 -> Z.testbit perm 4 = true -> (forall va, xlate (vm_mem s0) root va = None) ->
  grew root lo hi perm fr s0 s ->
  user_ok s root /\ (forall va, va_ok va -> lo <= va < hi -> uaddr (vm_mem s) root va = fr va).
Proof.
  intros Hp Hu Hx0 Hg. pose proof Hg as [Hi Hx Hf Hj _ _].
  assert (Hua : forall va, va_ok va -> uaddr (vm_mem s) root va = if decide (lo <= va < hi) then fr va else 0).
  { intros va Hva. unfold uaddr. destruct (Z.leb_spec MAXVA va); [destruct Hva; lia|]. rewrite Hx by done.
    destruct decide as [Hr|]; [|by rewrite Hx0].
    destruct (fo_page _ _ _ (Hf va Hva Hr)) as [Hal _]. pose proof (page_range _ (fo_page _ _ _ (Hf va Hva Hr))).
    destruct (mk_pte_facts (fr va) perm) as (_ & -> & _ & _); [lia|done|done|].
    unfold PTE_U, mk_pte. rewrite has_testbit, !Z.lor_spec, Hu by lia. by rewrite orb_true_r. }
  split; [constructor|].
  - done.
  - intros va Hva. rewrite Hua by done. destruct decide; [|done]. auto.
  - intros va wa Hva Hwa. rewrite !Hua by done. repeat case_decide; try done.
    intros _ He. by apply Hj.
  - intros va Hva Hr. rewrite Hua by done. by rewrite decide_True.
Qed.

(** ** The example *)

Definition ex_root : Z := 0x80100000.
Definition ex_free : list Z := map (fun k => ex_root + (k + 1) * PGSIZE) (range 0 6).
Definition ex_mem0 : mem := write_bytes ∅ ex_root (replicate (Z.to_nat (7 * PGSIZE)) 0).
Lemma ex_zero x : ex_root <= x < ex_root + 7 * PGSIZE -> ex_mem0 !! x = Some 0.
Proof.
  intros Hx. unfold ex_mem0.
  rewrite write_bytes_in by (rewrite length_replicate, Z2Nat.id; unfold PGSIZE in *; lia).
  apply lookup_replicate_2. apply Nat2Z.inj_lt. rewrite !Z2Nat.id; unfold PGSIZE in *; lia.
Qed.
Lemma ex_bytes : mem_ok ex_mem0.
Proof. apply mem_ok_write; [by intros x b|]. apply Forall_replicate. lia. Qed.
#[global] Opaque ex_mem0.
Definition ex_vm : vmstate := mk_vm (boot_state ex_free ∅) ex_mem0.

Lemma ex_vm_ok : vm_ok ex_vm.
Proof.
  constructor; [done|exists 0; by apply zero_spins_free| |].
  - split; [by apply (bool_decide_unpack (NoDup ex_free)); vm_compute|].
    change (st_free (vm_k ex_vm)) with ex_free. unfold ex_free.
    apply Forall_forall. intros pg (k & -> & Hk%elem_of_range)%list_elem_of_fmap.
    unfold page_ok, ex_root, PGSIZE, PHYSTOP, KERNBASE. cbn [kernel_end makefile_config config_of].
    split; [|lia]. rewrite Z_mod_plus_full. done.
  - change (st_free (vm_k ex_vm)) with ex_free. unfold ex_free.
    intros pg (k & -> & Hk%elem_of_range)%list_elem_of_fmap x Hx. rewrite ex_zero by (unfold PGSIZE in *; lia). eauto.
Qed.

Lemma ex_pt : pt_inv ex_vm ex_root /\ forall va, xlate (vm_mem ex_vm) ex_root va = None.
Proof.
  apply empty_pt; [apply ex_vm_ok|intros x Hx; apply ex_zero; unfold PGSIZE in *; lia|done|].
  by apply (bool_decide_unpack (ex_root ∉ ex_free)); vm_compute.
Qed.

Lemma ex_free_count : length (st_free (vm_k ex_vm)) = 6%nat.
Proof. done. Qed.
Lemma ex_vm_bytes : mem_ok (vm_mem ex_vm).
Proof. apply ex_bytes. Qed.
#[global] Opaque ex_vm.

Lemma mappages_maps_witness :
  wp (mappages ex_root 0x1000 0x1800 0x80200000 PTE_R) (fun r s' => kept ex_root ex_vm s' /\
    r = 0 /\ forall wa, va_ok wa -> xlate (vm_mem s') ex_root wa =
      if decide (0x1000 <= wa < 0x1000 + 0x1800) then Some (mk_pte (0x80200000 + (wa - 0x1000)) PTE_R)
      else None) ex_vm.
Proof.
  eapply wp_mono; [apply (mappages_maps ex_root 0x1000 0x1800 0x80200000 PTE_R ex_vm)|].
  - apply ex_pt.
  - done.
  - lia.
  - done.
  - done.
  - lia.
  - unfold PGSIZE. lia.
  - done.
  - intros wa _ _. apply ex_pt.
  - intros r s' [Hk [[-> Hx]|(_ & Hf & _)]]; [|by rewrite ex_free_count in Hf]. split_and!; [done|done|].
    intros wa Hwa. rewrite Hx by done. destruct decide; [done|apply ex_pt].
Defined.

Lemma uvmalloc_grows_witness :
  wp (uvmalloc ex_root 0 0x1000 PTE_W) (fun ret s' => ret = 0x1000 /\
    exists fr, grew ex_root 0 0x1000 (Z.lor (Z.lor PTE_R PTE_U) PTE_W) fr ex_vm s') ex_vm.
Proof.
  eapply wp_mono; [apply (uvmalloc_grows ex_root 0 0x1000 PTE_W ex_vm)|].
  - apply ex_pt.
  - done.
  - lia.
  - done.
  - intros va _ _ _. apply ex_pt.
  - intros ret s' [[-> [fr Hg]]|(_ & _ & Hf)]; [|by rewrite ex_free_count in Hf].
    split; [done|]. exists fr. exact Hg.
Defined.

(** The address space of one page. *)
Definition after {A} (c : V A) (s : vmstate) : vmstate :=
  match c s with Done _ s' | Panic _ s' | Blocked s' | Fault s' => s' end.
Lemma after_wp {A} (c : V A) (Q : vmstate -> Prop) s : wp c (fun _ s' => Q s') s -> Q (after c s).
Proof. unfold wp, after. by destruct (c s). Qed.

Definition ex_user : vmstate := after (uvmalloc_loop 1 ex_root 0 0 0x1000 PTE_W) ex_vm.

Lemma ex_user_facts : user_ok ex_user ex_root /\ (2 <= length (st_free (vm_k ex_user)))%nat /\
  uaddr (vm_mem ex_user) ex_root 0 <> 0 /\
  forall x, 0 <= x < PGSIZE -> ubyte (vm_mem ex_user) ex_root x = Some 0.
Proof.
  unfold ex_user. apply (after_wp _ (fun s => user_ok s ex_root /\ (2 <= length (st_free (vm_k s)))%nat /\
    uaddr (vm_mem s) ex_root 0 <> 0 /\ forall x, 0 <= x < PGSIZE -> ubyte (vm_mem s) ex_root x = Some 0)).
  set (perm := Z.lor (Z.lor PTE_R PTE_U) PTE_W).
  eapply wp_mono; [apply (uvmalloc_loop_spec 1 ex_root 0 0 perm id 0x1000 PTE_W ex_vm ex_vm)|].
  - reflexivity.
  - split; reflexivity || (intros; discriminate).
  - discriminate.
  - done.
  - reflexivity.
  - lia.
  - discriminate.
  - intros va _ _. apply ex_pt.
  - apply grew_refl, ex_pt.
  - intros ret s' [(_ & Hmany & fr & Hg)|(_ & _ & Hf)]; [|rewrite ex_free_count in Hf; lia].
    rewrite ex_free_count in Hmany.
    destruct (grew_user ex_root 0 (0 + Z.of_nat 1 * PGSIZE) perm fr ex_vm s') as [Huo Hua].
    + split; reflexivity || (intros; discriminate).
    + reflexivity.
    + apply ex_pt.
    + exact Hg.
    + pose proof (page_range _ (fo_page _ _ _ (gw_frame _ _ _ _ _ _ _ Hg 0 ltac:(done) ltac:(done)))) as Hpr.
      split_and!; [done|lia|rewrite Hua by done; lia|]. intros x Hx. unfold ubyte.
      rewrite (PGROUNDDOWN_in 0) by (unfold PGSIZE; done || lia). rewrite Hua by done.
      rewrite (proj2 (Z.eqb_neq _ _)) by lia. apply (gw_zero _ _ _ _ _ _ _ Hg 0); [done|done|lia].
Qed.

Lemma copyout_copyin_witness :
  wp (let! r := copyout ex_root 0xffd [1; 2; 3] in
      let! q := copyin ex_root 0xffd 3 in ret (r, q)) (fun p _ => p = (0, (0, [1; 2; 3]))) ex_user.
Proof.
  eapply wp_mono; [apply (copyout_copyin ex_root 0xffd [1; 2; 3] ex_user)|].
  - apply ex_user_facts.
  - by repeat constructor.
  - done.
  - intros p s' (_ & _ & _ & Hp & _). apply Hp. intros x Hx.
    rewrite (PGROUNDDOWN_in 0) by (unfold PGSIZE; simpl in *; lia || done). apply ex_user_facts.
Defined.

(** ** System calls *)

#[local] Existing Instance any_level.

Definition ex_frees : list Z := st_free (vm_k ex_user).

Lemma ex_frees_wf : pages_wf ex_frees.
Proof. split; [|apply ex_user_facts]. apply (vo_free _ (proj1 (uo_inv _ _ (proj1 ex_user_facts)))). Qed.

Lemma after_keeps {A} (P : vmstate -> Prop) (c : V A) s : keeps P c -> P s -> P (after c s).
Proof. intros Hc Hs. specialize (Hc s Hs). unfold after. by destruct (c s). Qed.
Lemma ex_user_mem : mem_ok (vm_mem ex_user).
Proof. apply (after_keeps bytes_ok); [apply keeps_uvmalloc_loop|apply ex_vm_bytes]. Qed.

(** The kernel with an array of level [t], the free pages being those that the
    process has left, and the state of the process. *)
Definition ex_kernel (t : Z) : State := ex_array ex_frees t.
Definition ex_sys (t : Z) : sysstate :=
  mk_sys (mk_vm (set_free ex_frees (ex_kernel t)) (vm_mem ex_user))
    (mk_proc 0x1000 ex_root (mk_trapframe 0 0 0 0 0 0 0)) [].

Lemma ex_kernel_inv t : is_level t -> lv_inv t ∅ ∅ (ex_kernel t).
Proof. intros Ht. exact (ex_array_inv ex_frees ex_frees_wf t Ht). Qed.
#[global] Opaque ex_kernel.
#[global] Opaque ex_user.

Lemma ex_sys_ok t : is_level t -> sys_ok t ∅ ∅ (ex_sys t).
Proof.
  intros Ht. exact (sys_ok_make t ∅ ∅ (ex_kernel t) ex_user ex_root _ _ _ Ht (ex_kernel_inv t Ht)
    (proj1 ex_user_facts) ex_user_mem ex_frees_wf).
Qed.

Lemma page_range_make k v root sz tf un va n : uaddr (vm_mem v) root 0 <> 0 -> 0 <= va -> va + n <= 0x1000 ->
  user_range (mk_sys (mk_vm k (vm_mem v)) (mk_proc sz root tf) un) va n.
Proof.
  intros Hu Hva Hn x Hx. unfold user_there. rewrite (PGROUNDDOWN_in 0) by (unfold PGSIZE; done || lia). exact Hu.
Qed.
Lemma ex_sys_range t va n : 0 <= va -> va + n <= 0x1000 -> user_range (ex_sys t) va n.
Proof.
  exact (page_range_make _ ex_user ex_root _ _ _ va n (proj1 (proj2 (proj2 ex_user_facts)))).
Qed.

Lemma zero_bytes_make k v root sz tf un : (forall x, 0 <= x < PGSIZE -> ubyte (vm_mem v) root x = Some 0) ->
  user_bytes (mk_sys (mk_vm k (vm_mem v)) (mk_proc sz root tf) un) 0 (ex_block 0).
Proof.
  intros Hz i b Hi. pose proof (lookup_lt_Some _ _ _ Hi) as Hl. unfold ex_block in Hi, Hl. rewrite length_replicate in Hl.
  apply lookup_replicate in Hi as [-> _]. apply Hz. unfold BSIZE, PGSIZE in *. lia.
Qed.
Lemma ex_sys_bytes t : user_bytes (ex_sys t) 0 (ex_block 0).
Proof. exact (zero_bytes_make _ ex_user ex_root _ _ _ (proj2 (proj2 (proj2 ex_user_facts)))). Qed.

Definition ex_others (n : Z) : Y Z := ret 0.

Lemma raid_calls_survive_witness :
  wp (let! c1 := ecall ex_others zblk SYS_write_raid 5 0 0 in
      let! c2 := ecall ex_others zblk SYS_disk_fail_raid 2 0 0 in
      let! c3 := ecall ex_others zblk SYS_read_raid 5 1024 0 in
      let! c4 := ecall ex_others zblk SYS_disk_repaired_raid 2 0 0 in
      let! c5 := ecall ex_others zblk SYS_read_raid 5 2048 0 in
      ret [c1; c2; c3; c4; c5])
    (fun r s' => r = [0; 0; 0; 0; 0] /\ user_bytes s' 1024 (ex_block 0) /\ user_bytes s' 2048 (ex_block 0)) (ex_sys RAID5).
Proof.
  eapply wp_mono; [apply (raid_calls_survive ex_others zblk RAID5 2 ∅ 5 0 1024 2048 (ex_block 0) (ex_sys RAID5))|].
  - left. by right.
  - by apply ex_sys_ok.
  - done.
  - done.
  - by apply ex_block_wf.
  - done.
  - done.
  - done.
  - by left.
  - apply ex_sys_bytes.
  - by apply ex_sys_range.
  - by apply ex_sys_range.
  - intros r s' (Hr & H1 & H2 & _). exact (conj Hr (conj H1 H2)).
Defined.

Lemma raid_calls_refuse_witness :
  only_returns ex_others zblk SYS_write_raid (u64 (-1)) 0 0 ERR (ex_sys RAID1) /\
  only_returns ex_others zblk SYS_disk_fail_raid (u64 7) 0 0 ERR (ex_sys RAID1).
Proof.
  destruct (raid_calls_refuse ex_others zblk RAID1 ∅ ∅ (-1) 7 0 (-1) (ex_sys RAID1)) as (H1 & H2 & _).
  - done.
  - by apply ex_sys_ok.
  - done.
  - done.
  - done.
  - intros [_ Hd]. by vm_compute in Hd.
  - done.
  - done.
  - left. lia.
  - exact (conj H1 H2).
Defined.

Lemma read_raid_leaks_stack_witness :
  wp (ecall ex_others (ex_block 0x5a) SYS_read_raid (u64 (-1)) 0 0)
    (fun r s' => r = 0 /\ user_bytes s' 0 (ex_block 0x5a)) (ex_sys RAID4).
Proof.
  apply (read_raid_leaks_stack ex_others (ex_block 0x5a) RAID4 ∅ ∅ (-1) 0 (ex_sys RAID4)).
  - done.
  - by apply ex_sys_ok.
  - done.
  - lia.
  - done.
  - by apply ex_block_wf.
  - by apply ex_sys_range.
Defined.

Lemma info_raid_reports_witness :
  wp (ecall ex_others zblk SYS_info_raid 8 16 24) (fun r s' => r = 0 /\
    user_bytes s' 24 (le_bytes 4 6)) (ex_sys RAID0).
Proof.
  eapply wp_mono; [apply (info_raid_reports ex_others zblk RAID0 ∅ ∅ 8 16 24 (ex_sys RAID0))|].
  - done.
  - by apply ex_sys_ok.
  - done.
  - done.
  - done.
  - by apply ex_sys_range.
  - by apply ex_sys_range.
  - by apply ex_sys_range.
  - intros r s' (Hr & _ & _ & _ & Hb & _). exact (conj Hr Hb).
Defined.

(** With two failed disks, RAID5 is refused and reported as chosen. *)
Definition ex_two_failed : sysstate :=
  mk_sys (mk_vm failed_two ∅) (mk_proc 0 ex_root (mk_trapframe 0 0 0 0 0 0 0)) [].

Lemma init_raid_unchecked_witness :
  wp (ecall ex_others zblk SYS_init_raid RAID5 0 0)
    (fun r s' => r = 0 /\ rm_type (st_meta (vm_k (sy_vm s'))) = RAID5) ex_two_failed /\
  exists s', ecall ex_others zblk SYS_init_raid 5 0 0 ex_two_failed = Panic "invalid raid type" s'.
Proof.
  apply (init_raid_unchecked ex_others zblk RAID5 ({[2]} ∪ {[1]}) 5 ex_two_failed).
  - by right.
  - exact (ready_settled _ _ _ failed_two_ready).
  - by rewrite size_union, !size_singleton by set_solver; lia.
  - done.
Defined.
