(* ===== verification/Pipe.v ===== *)
(** * Pipes: kernel/pipe.c

    A pipe is a ring of [PIPESIZE] bytes between two 32-bit counters that only
    ever count up and wrap around.  Writers and readers are processes that run
    in turns: a run is what a process does while it holds [pi->lock], from
    [acquire] or the return of [sleep] to [release] or the next [sleep].  The
    bytes move from and to the processes' memory through the interface of
    UserMem.v. *)

From stdpp Require Import base numbers list gmap.
From Stdlib Require Import ZArith Lia.
From S2P Require Import Prelude Monad Mem UserMem.
Open Scope Z_scope.

Definition PIPESIZE : Z := 512.

(** [struct pipe]; its lock is held exactly during a run. *)
Record pipe := mk_pipe {
  pi_data : list Z;
  pi_nread : Z;
  pi_nwrite : Z;
  pi_readopen : bool;
  pi_writeopen : bool;
}.

(** The channels [&pi->nread] and [&pi->nwrite]. *)
Inductive chan := NRead | NWrite.
#[export] Instance chan_eq_dec : EqDecision chan.
Proof. solve_decision. Defined.

(** A process inside [pipewrite], with [i] bytes written, or inside
    [piperead], and the channel it sleeps on. *)
Inductive call :=
| CWrite (addr n i : Z)
| CRead (addr n : Z).
Record task := mk_task { tk_call : call; tk_chan : option chan }.

(** ** The ring *)

(** [pi->data[pi->nwrite++ % PIPESIZE] = ch] *)
Definition put_byte (ch : Z) (p : pipe) : pipe :=
  mk_pipe (<[Z.to_nat (pi_nwrite p mod PIPESIZE) := ch]> (pi_data p))
    (pi_nread p) (u32 (pi_nwrite p + 1)) (pi_readopen p) (pi_writeopen p).
(** [pi->nread++] *)
Definition skip_byte (p : pipe) : pipe :=
  mk_pipe (pi_data p) (u32 (pi_nread p + 1)) (pi_nwrite p) (pi_readopen p) (pi_writeopen p).

Definition full (p : pipe) : bool := pi_nwrite p =? u32 (pi_nread p + PIPESIZE).
Definition empty (p : pipe) : bool := pi_nread p =? pi_nwrite p.

(** The number of bytes in the pipe and the bytes, oldest first. *)
Definition count (p : pipe) : Z := u32 (pi_nwrite p - pi_nread p).
Definition slot (p : pipe) (k : Z) : Z := pi_data p !!! Z.to_nat ((pi_nread p + k) mod PIPESIZE).
Definition contents (p : pipe) : list Z := map (slot p) (range 0 (count p)).

Record pipe_wf (p : pipe) : Prop := {
  pw_length : length (pi_data p) = Z.to_nat PIPESIZE;
  pw_bytes : is_bytes (pi_data p);
  pw_nread : 0 <= pi_nread p < 2 ^ 32;
  pw_nwrite : 0 <= pi_nwrite p < 2 ^ 32;
  pw_count : count p <= PIPESIZE;
}.

Lemma u32_mod_ring z : u32 z mod PIPESIZE = z mod PIPESIZE.
Proof. unfold u32, PIPESIZE. apply Z.mod_mod_divide. by exists (2 ^ 23). Qed.

Lemma count_cases p : pipe_wf p ->
  count p = pi_nwrite p - pi_nread p \/ count p = pi_nwrite p - pi_nread p + 2 ^ 32.
Proof.
  intros [_ _ Hr Hw _]. unfold count, u32.
  destruct (Z.le_gt_cases (pi_nread p) (pi_nwrite p)); [left; rewrite Z.mod_small; lia|right].
  symmetry. apply (Z.mod_unique _ _ (-1)); lia.
Qed.

Lemma nwrite_ring p : pi_nwrite p mod PIPESIZE = (pi_nread p + count p) mod PIPESIZE.
Proof.
  unfold count. rewrite <- (Zplus_mod_idemp_r (u32 _)), u32_mod_ring, Zplus_mod_idemp_r. f_equal. lia.
Qed.

Lemma empty_spec p : pipe_wf p -> empty p = true <-> count p = 0.
Proof.
  intros Hw. unfold empty. rewrite Z.eqb_eq. destruct (count_cases p Hw) as [Hc|Hc], Hw; unfold PIPESIZE in *; lia.
Qed.

Lemma full_spec p : pipe_wf p -> full p = true <-> count p = PIPESIZE.
Proof.
  intros Hw. unfold full. rewrite Z.eqb_eq. destruct Hw as [_ _ Hr Hw Hc]. unfold count in *.
  split; [intros ->|].
  - unfold u32. rewrite Zminus_mod_idemp_l. replace (pi_nread p + PIPESIZE - pi_nread p) with PIPESIZE by lia. done.
  - intros He. rewrite <- He. unfold u32. rewrite Zplus_mod_idemp_r.
    replace (pi_nread p + (pi_nwrite p - pi_nread p)) with (pi_nwrite p) by lia. by rewrite Z.mod_small.
Qed.

Lemma contents_length p : length (contents p) = Z.to_nat (count p).
Proof. unfold contents. rewrite length_map, range_len. f_equal. lia. Qed.

Lemma ring_index z : (Z.to_nat (z mod PIPESIZE) < Z.to_nat PIPESIZE)%nat.
Proof. pose proof (Z.mod_pos_bound z PIPESIZE ltac:(done)). unfold PIPESIZE in *. lia. Qed.

Lemma put_byte_spec ch p : pipe_wf p -> full p = false -> 0 <= ch < 256 ->
  pipe_wf (put_byte ch p) /\ contents (put_byte ch p) = contents p ++ [ch] /\ count (put_byte ch p) = count p + 1.
Proof.
  intros Hw Hf Hch. assert (Hlt : count p < PIPESIZE).
  { pose proof (pw_count _ Hw). destruct (Z.eq_dec (count p) PIPESIZE) as [He|]; [|lia].
    apply full_spec in He; [congruence|done]. }
  assert (H0 : 0 <= count p) by (apply Z.mod_pos_bound; lia).
  assert (Hc : count (put_byte ch p) = count p + 1).
  { unfold count in *. cbn [put_byte pi_nwrite pi_nread]. unfold u32 in *. rewrite Zminus_mod_idemp_l.
    replace (pi_nwrite p + 1 - pi_nread p) with (pi_nwrite p - pi_nread p + 1) by lia.
    rewrite <- Zplus_mod_idemp_l. apply Z.mod_small. unfold PIPESIZE in *. lia. }
  split_and!; [|clear Hch|done].
  - destruct Hw as [Hl Hb Hr Hn _]. constructor; cbn [put_byte pi_data pi_nread pi_nwrite].
    + by rewrite length_insert.
    + by apply Forall_insert.
    + done.
    + apply u32_range.
    + lia.
  - unfold contents. rewrite Hc, range_snoc, Z.add_simpl_r, map_app by lia. simpl map. f_equal.
    + apply list_fmap_ext. intros j k Hk%list_elem_of_lookup_2. apply elem_of_range in Hk. unfold slot. cbn [put_byte pi_data pi_nread].
      rewrite nwrite_ring, list_lookup_total_insert_ne; [done|]. unfold PIPESIZE in *.
      intros He. apply Z2Nat.inj in He; [|apply Z.mod_pos_bound; lia..].
      pose proof (Z.div_mod (pi_nread p + count p) 512 ltac:(lia)). pose proof (Z.div_mod (pi_nread p + k) 512 ltac:(lia)). lia.
    + unfold slot. cbn [put_byte pi_data pi_nread]. rewrite nwrite_ring, list_lookup_total_insert_eq; [done|].
      rewrite (pw_length _ Hw). apply ring_index.
Qed.

Lemma skip_byte_spec p : pipe_wf p -> empty p = false ->
  exists ch, pi_data p !! Z.to_nat (pi_nread p mod PIPESIZE) = Some ch /\ 0 <= ch < 256 /\
  pipe_wf (skip_byte p) /\ contents p = ch :: contents (skip_byte p) /\ count (skip_byte p) = count p - 1.
Proof.
  intros Hw He. assert (H0 : 0 < count p).
  { pose proof (Z.mod_pos_bound (pi_nwrite p - pi_nread p) (2 ^ 32) ltac:(lia)). unfold count in *.
    destruct (Z.eq_dec (count p) 0) as [Hz|]; [|unfold count, u32 in *; lia]. apply empty_spec in Hz; [congruence|done]. }
  assert (Hc : count (skip_byte p) = count p - 1).
  { pose proof (pw_count _ Hw). unfold count in *. cbn [skip_byte pi_nwrite pi_nread]. unfold u32 in *.
    rewrite Zminus_mod_idemp_r. replace (pi_nwrite p - (pi_nread p + 1)) with (pi_nwrite p - pi_nread p - 1) by lia.
    rewrite <- Zminus_mod_idemp_l. apply Z.mod_small. unfold PIPESIZE in *. lia. }
  destruct (lookup_lt_is_Some_2 (pi_data p) (Z.to_nat (pi_nread p mod PIPESIZE))) as [ch Hch].
  { rewrite (pw_length _ Hw). apply ring_index. }
  pose proof (Forall_lookup_1 _ _ _ _ (pw_bytes _ Hw) Hch : 0 <= ch < 256) as Hcb.
  exists ch. split; [done|]. split; [done|]. split_and!; [| |done].
  - destruct Hw as [Hl Hb Hr Hn Hcnt]. constructor; try done; [apply u32_range|lia].
  - unfold contents. rewrite Hc, range_cons by lia. simpl map. f_equal.
    + unfold slot. rewrite Z.add_0_r. by apply list_lookup_total_correct.
    + rewrite (range_shift 1), map_map. apply list_fmap_ext. intros j k _. unfold slot.
      cbn [skip_byte pi_data pi_nread]. do 2 f_equal. rewrite <- (Zplus_mod_idemp_l (u32 _)), u32_mod_ring, Zplus_mod_idemp_l.
      f_equal. lia.
Qed.

Section pipe.
Context `{UM : UserMemory U}.

(** What the running process works on. *)
Record pst := mk_pst {
  ps_pipe : pipe;
  ps_tasks : gmap Z task;     (* the processes inside a call *)
  ps_user : U;                (* the memory of the running process *)
}.
Abbreviation P := (M pst).

Definition with_pipe (p : pipe) (s : pst) : pst := mk_pst p (ps_tasks s) (ps_user s).
Definition on_pipe (f : pipe -> pipe) : P unit := modify (fun s => with_pipe (f (ps_pipe s)) s).
Definition in_user {A} (c : M U A) : P A :=
  lift ps_user (fun u s => mk_pst (ps_pipe s) (ps_tasks s) u) c.

(** [wakeup(chan)] makes every process that sleeps on [chan] runnable. *)
Definition wake (c : chan) (t : task) : task :=
  if decide (tk_chan t = Some c) then mk_task (tk_call t) None else t.
Definition wakeup_chan (c : chan) : P unit :=
  modify (fun s => mk_pst (ps_pipe s) (wake c <$> ps_tasks s) (ps_user s)).

(** What a run ends with: the result of the call, or sleeping on a channel. *)
Inductive outcome_of_run :=
| Returned (r : Z)
| Sleeps (c : chan) (k : call).

(** The loop of [pipewrite] from [i] on.  [killed i] is what [killed(pr)] says
    when [i] bytes are written. *)
Fixpoint pipewrite_loop (rounds : nat) (killed : Z -> bool) (addr n i : Z) : P outcome_of_run :=
  match rounds with
  | O => blocked
  | S rounds =>
    if i <? n then
      let! p := gets ps_pipe in
      if negb (pi_readopen p) || killed i then ret (Returned (-1))
      else if full p then
        wakeup_chan NRead;;
        ret (Sleeps NWrite (CWrite addr n i))
      else
        let! r := in_user (um_copyin (u64 (addr + i)) 1) in
        if r.1 =? -1 then
          wakeup_chan NRead;; ret (Returned i)
        else
          let! ch := deref (head r.2) in
          on_pipe (put_byte ch);;
          pipewrite_loop rounds killed addr n (i + 1)
    else
      wakeup_chan NRead;; ret (Returned i)
  end.
(** A run of a writer that has written [i] bytes; every round but the last
    writes one. *)
Definition pipewrite (killed : Z -> bool) (addr n i : Z) : P outcome_of_run :=
  pipewrite_loop (S (Z.to_nat (n - i))) killed addr n i.

(** The copying loop of [piperead], [rounds = n - i]. *)
Fixpoint piperead_loop (rounds : nat) (addr i : Z) : P Z :=
  match rounds with
  | O => ret i
  | S rounds =>
    let! p := gets ps_pipe in
    if empty p then ret i
    else
      let! ch := deref (pi_data p !! Z.to_nat (pi_nread p mod PIPESIZE)) in
      on_pipe skip_byte;;
      let! c := in_user (um_copyout (u64 (addr + i)) [ch]) in
      if c =? -1 then ret i else piperead_loop rounds addr (i + 1)
  end.
(** A run of a reader. *)
Definition piperead (killed : bool) (addr n : Z) : P outcome_of_run :=
  let! p := gets ps_pipe in
  if empty p && pi_writeopen p then
    if killed then ret (Returned (-1)) else ret (Sleeps NRead (CRead addr n))
  else
    let! i := piperead_loop (Z.to_nat n) addr 0 in
    wakeup_chan NWrite;;
    ret (Returned i).

(** [pipeclose]; the result says whether the page of the pipe was freed. *)
Definition pipeclose (writable : bool) : P bool :=
  (if writable then
     on_pipe (fun p => mk_pipe (pi_data p) (pi_nread p) (pi_nwrite p) (pi_readopen p) false);;
     wakeup_chan NRead
   else
     on_pipe (fun p => mk_pipe (pi_data p) (pi_nread p) (pi_nwrite p) false (pi_writeopen p));;
     wakeup_chan NWrite);;
  let! p := gets ps_pipe in
  ret (negb (pi_readopen p) && negb (pi_writeopen p)).

(** The pipe [pipealloc] sets up in the page [kalloc] returned. *)
Definition new_pipe (page : list Z) : pipe := mk_pipe page 0 0 true true.

End pipe.
Arguments pst U : clear implicits.
