(* ===== verification/PipeSystem.v ===== *)
(** * Pipes: what a run does, and all interleavings of runs

    The functional behaviour of a run of a writer and of a reader, the step
    relation of a system of processes that use one pipe, and the theorems about
    every sequence of steps: bytes come out in the order they went in, and no
    process sleeps while it could proceed.  The one exception is proved too: a
    writer killed in the middle of a run does not wake the readers. *)

From stdpp Require Import base numbers list gmap.
From Stdlib Require Import ZArith Lia.
From S2P Require Import Prelude Monad Mem UserMem Pipe.
Open Scope Z_scope.

Section runs.
Context `{UserMemoryOK U}.

(** The bytes a process has at the addresses [a], [a + 1], ... *)
Definition peek (u : U) (a n : Z) : list Z := omap (fun j => um_byte u (u64 (a + j))) (range 0 n).

Lemma peek_nil (u : U) a n : n <= 0 -> peek u a n = [].
Proof. intros Hn. unfold peek. by rewrite range_nil. Qed.
Lemma peek_cons (u : U) a n b : 0 < n -> um_byte u (u64 a) = Some b -> peek u a n = b :: peek u (a + 1) (n - 1).
Proof.
  intros Hn Hb. unfold peek. rewrite range_cons by lia. simpl. rewrite Z.add_0_r, Hb. f_equal.
  rewrite (range_shift 1). replace (0 + 1 - 1) with 0 by lia. generalize (range 0 (n - 1)). intros l.
  induction l as [|k l IH]; simpl; [done|]. replace (a + (1 + k)) with (a + 1 + k) by lia.
  destruct (um_byte u (u64 (a + 1 + k))); by rewrite IH.
Qed.

Definition ends (p : pipe) : bool * bool := (pi_readopen p, pi_writeopen p).
Definition woken (c : chan) (s : pst U) : gmap Z task := wake c <$> ps_tasks s.

(** One byte copied in. *)
Lemma wp_copyin_byte va (Q : Z * list Z -> pst U -> Prop) s : um_ok (ps_user s) ->
  (forall b, um_byte (ps_user s) (u64 va) = Some b -> 0 <= b < 256 -> Q (0, [b]) s) ->
  (forall l, Q (-1, l) s) -> wp (in_user (um_copyin (u64 va) 1)) Q s.
Proof.
  intros Hu H1 H2. apply wp_lift.
  eapply wp_mono; [apply (um_copyin_ok (u64 va) 1 (ps_user s) Hu); [lia|apply Z.mod_pos_bound; lia]|].
  replace (mk_pst (ps_pipe s) (ps_tasks s) (ps_user s)) with s in * by (by destruct s).
  intros [r l] u [-> Hr]. replace (mk_pst (ps_pipe s) (ps_tasks s) (ps_user s)) with s by (by destruct s). simpl in Hr.
  destruct Hr as [(-> & _ & Hl & Hb & Hbs)|(-> & _)]; [|apply H2].
  destruct l as [|b [|]]; [done| |simpl in Hl; lia]. apply H1; [|by inversion Hb].
  specialize (Hbs 0%nat b eq_refl). by rewrite Z.add_0_r in Hbs.
Qed.

(** How a run of a writer ends when it wrote [k] bytes after the first [i]. *)
Definition write_ends (killed : Z -> bool) (addr n i k : Z) (s : pst U) (r : outcome_of_run) (s' : pst U) : Prop :=
  match r with
  | Returned r =>
    (r = -1 /\ ps_tasks s' = ps_tasks s /\
       (k = 0 /\ (pi_readopen (ps_pipe s) = false \/ killed i = true) \/
        0 < k /\ killed i = false /\ killed (i + k) = true)) \/
    (r = i + k /\ ps_tasks s' = woken NRead s)
  | Sleeps c call => c = NWrite /\ call = CWrite addr n (i + k) /\ ps_tasks s' = woken NRead s /\
    count (ps_pipe s') = PIPESIZE /\ pi_readopen (ps_pipe s) = true
  end.

(** A run of a writer adds bytes of its memory at the end of the pipe. *)
Record write_run (killed : Z -> bool) (addr n i k : Z) (s : pst U) (r : outcome_of_run) (s' : pst U) : Prop := {
  wr_k : 0 <= k /\ (k = 0 \/ k <= n - i);
  wr_user : ps_user s' = ps_user s;
  wr_wf : pipe_wf (ps_pipe s');
  wr_nread : pi_nread (ps_pipe s') = pi_nread (ps_pipe s);
  wr_ends : ends (ps_pipe s') = ends (ps_pipe s);
  wr_contents : contents (ps_pipe s') = contents (ps_pipe s) ++ peek (ps_user s) (addr + i) k;
  wr_count : count (ps_pipe s') = count (ps_pipe s) + k;
  wr_result : write_ends killed addr n i k s r s';
}.

Lemma write_run_stop killed addr n i s r s' : pipe_wf (ps_pipe s) -> ps_pipe s' = ps_pipe s ->
  ps_user s' = ps_user s -> write_ends killed addr n i 0 s r s' -> write_run killed addr n i 0 s r s'.
Proof.
  intros Hw Hp Hu Hr. constructor; rewrite ?Hp; try done; [lia| |lia]. by rewrite peek_nil, app_nil_r by lia.
Qed.

Lemma pipewrite_loop_spec rounds killed addr n i s :
  pipe_wf (ps_pipe s) -> um_ok (ps_user s) -> (Z.to_nat (n - i) < rounds)%nat ->
  wp (pipewrite_loop rounds killed addr n i) (fun r s' => exists k, write_run killed addr n i k s r s') s.
Proof.
  revert i s. induction rounds as [|rounds IH]; intros i s Hw Hu Hr; [lia|]. cbn [pipewrite_loop].
  unfold wakeup_chan, on_pipe. destruct (Z.ltb_spec i n) as [Hin|Hin]; cycle 1.
  { wp_steps. exists 0. apply write_run_stop; [done|done|done|]. right. split; [lia|done]. }
  wp_steps. destruct (pi_readopen (ps_pipe s)) eqn:Hro; cbn [negb orb]; cycle 1.
  { wp_steps. exists 0. apply write_run_stop; [done|done|done|]. left. split_and!; [done|done|]. left. auto. }
  destruct (killed i) eqn:Hk.
  { wp_steps. exists 0. apply write_run_stop; [done|done|done|]. left. split_and!; [done|done|]. left. auto. }
  destruct (full (ps_pipe s)) eqn:Hf.
  { wp_steps. exists 0. apply write_run_stop; [done|done|done|]. simpl. rewrite Z.add_0_r.
    split_and!; try done. by apply full_spec. }
  wp_steps. apply wp_copyin_byte; [done| |]; cycle 1.
  { intros l. simpl. wp_steps. exists 0. apply write_run_stop; [done|done|done|]. right. split; [lia|done]. }
  intros b Hb Hbr. simpl. wp_steps.
  destruct (put_byte_spec b (ps_pipe s) Hw Hf Hbr) as (Hw' & Hcon & Hcnt).
  eapply wp_mono; [apply IH; [done|done|lia]|].
  intros r s' (k & [Hk0 Hus Hwf Hnr Hends Hcon' Hcnt' Hres]).
  cbn [with_pipe ps_pipe ps_user ps_tasks] in *. exists (k + 1). constructor; [lia|done|done|done|done| |lia|].
  - rewrite Hcon', Hcon, <- app_assoc. f_equal. rewrite (peek_cons _ _ (k + 1) b) by (done || lia).
    simpl. f_equal. f_equal; lia.
  - unfold write_ends in *. replace (i + (k + 1)) with (i + 1 + k) by lia. destruct r as [r|]; [|exact Hres].
    destruct Hres as [(-> & Ht & Hwhy)|?]; [left|by right]. split_and!; [done|done|]. right.
    cbn [put_byte pi_readopen with_pipe ps_pipe] in Hwhy. rewrite Hro in Hwhy.
    destruct Hwhy as [[-> [?|?]]|(? & _ & ?)]; [done| |split_and!; [lia|done|done]].
    rewrite Z.add_0_r. split_and!; [lia|done|done].
Qed.

(** A run of a reader moves bytes from the front of the pipe to its memory.  When
    the next address of its buffer is not user memory, [copyout] fails and the
    byte that was just taken out of the pipe is lost. *)
Record read_run (addr n i r : Z) (lost : list Z) (s s' : pst U) : Prop := {
  rr_r : i <= r <= n;
  rr_tasks : ps_tasks s' = ps_tasks s;
  rr_user : um_ok (ps_user s');
  rr_there : forall x, um_there (ps_user s') x <-> um_there (ps_user s) x;
  rr_bytes : forall x, 0 <= x -> (forall j, i <= j < n -> x <> u64 (addr + j)) -> um_byte (ps_user s') x = um_byte (ps_user s) x;
  rr_wf : pipe_wf (ps_pipe s');
  rr_ends : ends (ps_pipe s') = ends (ps_pipe s);
  rr_contents : contents (ps_pipe s) = peek (ps_user s') (addr + i) (r - i) ++ lost ++ contents (ps_pipe s');
  rr_count : count (ps_pipe s') = count (ps_pipe s) - (r - i) - Z.of_nat (length lost);
  rr_nread : pi_nread (ps_pipe s') = u32 (pi_nread (ps_pipe s) + (r - i) + Z.of_nat (length lost));
  rr_all : lost = [] /\ (r = n \/ count (ps_pipe s') = 0) \/ length lost = 1%nat /\ r < n /\ ~ um_there (ps_user s) (u64 (addr + r));
}.

Lemma read_run_stop addr n i s : pipe_wf (ps_pipe s) -> um_ok (ps_user s) -> i <= n ->
  i = n \/ count (ps_pipe s) = 0 -> read_run addr n i i [] s s.
Proof.
  intros Hw Hu Hi Hr. constructor; try done; [by rewrite peek_nil by lia|simpl; lia| |by left].
  simpl. rewrite u32_small; [lia|]. pose proof (pw_nread _ Hw). lia.
Qed.

Lemma wp_copyout_byte va ch (Q : Z -> pst U -> Prop) s : um_ok (ps_user s) -> 0 <= ch < 256 -> 0 <= va < 2 ^ 64 ->
  (forall u, um_changed va 1 (ps_user s) u -> um_byte u va = Some ch -> Q 0 (mk_pst (ps_pipe s) (ps_tasks s) u)) ->
  (forall u, um_changed va 1 (ps_user s) u -> ~ um_there (ps_user s) va -> Q (-1) (mk_pst (ps_pipe s) (ps_tasks s) u)) ->
  wp (in_user (um_copyout va [ch])) Q s.
Proof.
  intros Hu Hch Hva HQ HF. apply wp_lift.
  eapply wp_mono; [apply (um_copyout_ok va [ch] (ps_user s) Hu); [by apply Forall_singleton|done]|].
  intros r u [Hc [(-> & _ & Hb)|(-> & Hn)]].
  - apply HQ; [done|]. specialize (Hb 0%nat ch eq_refl). by rewrite Z.add_0_r in Hb.
  - apply HF; [done|]. intros Ht. destruct Hn. intros x Hx. simpl in Hx. by assert (x = va) as -> by lia.
Qed.

(** The addresses of a buffer differ. *)
Lemma u64_next a j i : i < j < i + 2 ^ 64 -> u64 (a + i) <> u64 (a + j).
Proof.
  intros Hj E. unfold u64 in E. assert (H0 : ((a + j) - (a + i)) mod 2 ^ 64 = 0) by (by rewrite Zminus_mod, E, Z.sub_diag).
  replace ((a + j) - (a + i)) with (j - i) in H0 by lia. rewrite Z.mod_small in H0 by lia. lia.
Qed.

Lemma piperead_loop_spec rounds addr n i s :
  pipe_wf (ps_pipe s) -> um_ok (ps_user s) -> 0 <= i -> i + Z.of_nat rounds = n -> n < 2 ^ 64 ->
  wp (piperead_loop rounds addr i) (fun r s' => exists lost, read_run addr n i r lost s s') s.
Proof.
  revert i s. induction rounds as [|rounds IH]; intros i s Hw Hu Hi Hn Hmax; cbn [piperead_loop].
  { wp_steps. exists []. apply read_run_stop; [done|done|lia|left; lia]. }
  wp_steps. destruct (empty (ps_pipe s)) eqn:He.
  { wp_steps. exists []. apply read_run_stop; [done|done|lia|right; by apply empty_spec]. }
  destruct (skip_byte_spec (ps_pipe s) Hw He) as (ch & Hch & Hcr & Hw' & Hcon & Hcnt).
  rewrite Hch. simpl. unfold on_pipe. wp_steps.
  apply wp_copyout_byte; [done|done|apply Z.mod_pos_bound; lia| |]; cbn [with_pipe ps_pipe ps_tasks ps_user]; intros u Hc Hb; cycle 1.
  { cbn [Z.eqb Z.opp]. wp_steps. exists [ch]. constructor; cbn [with_pipe ps_pipe ps_tasks ps_user length]; try done; [lia|apply Hc|apply Hc| | |lia| |].
    - intros x Hx Hne. apply Hc; [done|]. specialize (Hne i). lia.
    - by rewrite peek_nil by lia.
    - cbn [skip_byte pi_nread]. f_equal. lia.
    - right. split_and!; [done|lia|done]. }
  cbn [Z.eqb Z.opp]. eapply wp_mono; [apply IH; [done|apply Hc|lia|lia|done]|].
  intros r s' (lost & [Hr' Ht Hu' Hth Hbs Hwf Hends Hcon' Hcnt' Hnr Hall]). cbn [ps_pipe ps_tasks ps_user] in *. exists lost.
  assert (Hb' : um_byte (ps_user s') (u64 (addr + i)) = Some ch).
  { rewrite Hbs; [done|apply Z.mod_pos_bound; lia|]. intros j Hj. apply u64_next. lia. }
  constructor; try done; [lia| | | |lia| |].
  - intros x. rewrite Hth. apply Hc.
  - intros x Hx Hne. rewrite Hbs; [|done|intros j Hj; apply Hne; lia]. apply Hc; [done|]. specialize (Hne i). lia.
  - rewrite Hcon, Hcon', (peek_cons _ _ (r - i) ch) by (done || lia). simpl. do 2 f_equal. f_equal; lia.
  - rewrite Hnr. cbn [skip_byte pi_nread]. unfold u32. rewrite <- !Z.add_assoc, Zplus_mod_idemp_l. f_equal. lia.
  - destruct Hall as [?|(? & ? & Hno)]; [by left|right]. split_and!; [done|done|]. intros Hx. by apply Hno, Hc.
Qed.

Lemma pipewrite_spec killed addr n i s : pipe_wf (ps_pipe s) -> um_ok (ps_user s) ->
  wp (pipewrite killed addr n i) (fun r s' => exists k, write_run killed addr n i k s r s') s.
Proof. intros Hw Hu. apply pipewrite_loop_spec; [done|done|lia]. Qed.

Lemma piperead_spec killed addr n s : pipe_wf (ps_pipe s) -> um_ok (ps_user s) -> n < 2 ^ 31 ->
  wp (piperead killed addr n) (fun r s' =>
    match r with
    | Returned r =>
      (r = -1 /\ killed = true /\ s' = s) \/
      (exists lost s1, read_run addr (Z.max 0 n) 0 r lost s s1 /\ s' = mk_pst (ps_pipe s1) (woken NWrite s1) (ps_user s1))
    | Sleeps c call => c = NRead /\ call = CRead addr n /\ s' = s /\
      count (ps_pipe s) = 0 /\ pi_writeopen (ps_pipe s) = true
    end) s.
Proof.
  intros Hw Hu Hn. unfold piperead, wakeup_chan. wp_steps.
  destruct (empty (ps_pipe s) && pi_writeopen (ps_pipe s)) eqn:He.
  - apply andb_true_iff in He as [He Ho]. destruct killed; wp_steps; [by left|]. split_and!; try done. by apply empty_spec.
  - wp_steps. eapply wp_mono; [apply (piperead_loop_spec _ _ (Z.max 0 n)); [done|done|done|lia|lia]|].
    intros r s1 (lost & Hrun). wp_steps. right. by exists lost, s1.
Qed.

End runs.

(** * Pipes: all interleavings of the processes that use one

    The step relation of a system of processes around one pipe, and what holds
    after every sequence of steps: bytes come out in the order they went in,
    and no process sleeps while it could proceed.  The one exception is proved
    too: a writer killed in the middle of a run does not wake the readers. *)

Section system.
Context `{UserMemoryOK U}.

(** The pipe, the processes inside a call and the memory of each process; the
    page of the pipe is freed when both ends are closed. *)
Record world := mk_world {
  w_pipe : pipe;
  w_tasks : gmap Z task;
  w_user : Z -> U;
  w_alive : bool;
}.

Definition at_run (pid : Z) (w : world) : pst U := mk_pst (w_pipe w) (w_tasks w) (w_user w pid).
Definition after_run (pid : Z) (r : outcome_of_run) (s : pst U) (w : world) : world :=
  mk_world (ps_pipe s)
    (match r with
     | Returned _ => delete pid (ps_tasks s)
     | Sleeps c k => <[pid := mk_task k (Some c)]> (ps_tasks s)
     end)
    (fun q => if decide (q = pid) then ps_user s else w_user w q)
    (w_alive w).

(** A call as it starts: a write at its first byte, a read of an [int] number of
    bytes; the buffers are any addresses. *)
Definition call_ok (c : call) : Prop :=
  match c with CWrite _ _ i => 0 <= i | CRead _ n => n < 2 ^ 31 end.

(** A byte that leaves the pipe: a reader finds it in its memory, or it is lost. *)
Inductive byte_out := Got (b : Z) | Lost (b : Z).
Definition out_byte (o : byte_out) : Z := match o with Got b | Lost b => b end.
Definition is_lost (o : byte_out) : bool := match o with Got _ => false | Lost _ => true end.
(** What a reader took out of the pipe [p] beyond the [k] bytes that it returns. *)
Definition lost_bytes (p p' : pipe) (k : Z) : list Z :=
  take (Z.to_nat (u32 (pi_nread p' - pi_nread p) - Z.max 0 k)) (drop (Z.to_nat k) (contents p)).

(** One step, with the bytes a writer moved out of its memory and the bytes that
    a reader took out of the pipe, those found in its memory and the lost ones.
    [kills] restricts what [killed] may answer during a run of a writer. *)
Inductive step (kills : (Z -> bool) -> Prop) : world -> list Z -> list byte_out -> world -> Prop :=
| step_call pid c w : w_alive w = true -> w_tasks w !! pid = None -> call_ok c ->
    step kills w [] [] (mk_world (w_pipe w) (<[pid := mk_task c None]> (w_tasks w)) (w_user w) (w_alive w))
| step_write pid addr n i (killed : Z -> bool) r s w : w_alive w = true ->
    w_tasks w !! pid = Some (mk_task (CWrite addr n i) None) -> kills killed ->
    pipewrite killed addr n i (at_run pid w) = Done r s ->
    step kills w (peek (w_user w pid) (addr + i) (u32 (pi_nwrite (ps_pipe s) - pi_nwrite (w_pipe w)))) []
      (after_run pid r s w)
| step_read pid addr n killed r s w : w_alive w = true ->
    w_tasks w !! pid = Some (mk_task (CRead addr n) None) ->
    piperead killed addr n (at_run pid w) = Done r s ->
    step kills w [] (match r with
      | Returned k => map Got (peek (ps_user s) addr k) ++ map Lost (lost_bytes (w_pipe w) (ps_pipe s) k)
      | Sleeps _ _ => []
      end)
      (after_run pid r s w)
| step_close (writable freed : bool) pid s w : w_alive w = true ->
    (if writable then pi_writeopen (w_pipe w) else pi_readopen (w_pipe w)) = true ->
    pipeclose writable (at_run pid w) = Done freed s ->
    step kills w [] [] (mk_world (ps_pipe s) (ps_tasks s) (w_user w) (negb freed))
| step_kill pid t w : w_tasks w !! pid = Some t ->
    step kills w [] [] (mk_world (w_pipe w) (<[pid := mk_task (tk_call t) None]> (w_tasks w)) (w_user w) (w_alive w)).

Inductive steps (kills : (Z -> bool) -> Prop) (w0 : world) : list Z -> list byte_out -> world -> Prop :=
| steps_refl : steps kills w0 [] [] w0
| steps_trans ins outs w ins' outs' w' : steps kills w0 ins outs w -> step kills w ins' outs' w' ->
    steps kills w0 (ins ++ ins') (outs ++ outs') w'.

(** ** The invariant of the system *)

Record sys_inv (w : world) : Prop := {
  si_pipe : pipe_wf (w_pipe w);
  si_user : forall pid, um_ok (w_user w pid);
  si_task : forall pid t, w_tasks w !! pid = Some t -> call_ok (tk_call t);
}.

Lemma lookup_wake c (m : gmap Z task) pid t : (wake c <$> m) !! pid = Some t ->
  exists t', m !! pid = Some t' /\ tk_call t = tk_call t' /\ tk_chan t <> Some c /\
    (tk_chan t = None \/ tk_chan t = tk_chan t').
Proof.
  rewrite lookup_fmap. destruct (m !! pid) as [t'|]; [|done]. intros [= <-]. exists t'. split; [done|].
  unfold wake. case_decide; simpl; auto.
Qed.

(** Tasks keep their calls when others are woken. *)
Definition tasks_from (m m' : gmap Z task) : Prop :=
  forall pid t, m' !! pid = Some t -> exists t', m !! pid = Some t' /\ tk_call t = tk_call t' /\
    (tk_chan t = None \/ tk_chan t = tk_chan t').
Lemma tasks_from_refl m : tasks_from m m.
Proof. intros pid t Ht. eauto. Qed.
Lemma tasks_from_wake c m : tasks_from m (wake c <$> m).
Proof. intros pid t (t' & ? & ? & _ & ?)%lookup_wake. eauto. Qed.

(** The invariant after a run of process [pid]. *)
Lemma after_run_inv pid r s w : sys_inv w -> pipe_wf (ps_pipe s) -> um_ok (ps_user s) -> tasks_from (w_tasks w) (ps_tasks s) ->
  (forall c k, r = Sleeps c k -> call_ok k) -> sys_inv (after_run pid r s w).
Proof.
  intros [Hp Hu Ht] Hp' Hc Htasks Hk. constructor; [done| |].
  - intros q. simpl. case_decide; [apply Hc|apply Hu].
  - assert (Hold : forall q t, ps_tasks s !! q = Some t -> call_ok (tk_call t)).
    { intros q t Hq. destruct (Htasks q t Hq) as (t' & Hq' & -> & _). exact (Ht q t' Hq'). }
    intros q t. simpl. destruct r as [r|c k].
    + rewrite lookup_delete_Some. intros [_ Hq]. by apply (Hold q).
    + rewrite lookup_insert_Some. intros [[<- <-]|[_ Hq]]; [by eapply Hk|by apply (Hold q)].
Qed.

Lemma wp_done {A} (m : M (pst U) A) (Q : A -> pst U -> Prop) s a s' : wp m Q s -> m s = Done a s' -> Q a s'.
Proof. unfold wp. intros Hw E. by rewrite E in Hw. Qed.

Lemma write_step_spec pid killed addr n i r s w : sys_inv w ->
  pipewrite killed addr n i (at_run pid w) = Done r s ->
  exists k, write_run killed addr n i k (at_run pid w) r s /\
    u32 (pi_nwrite (ps_pipe s) - pi_nwrite (w_pipe w)) = k.
Proof.
  intros Hi Hrun. pose proof (pipewrite_spec killed addr n i (at_run pid w) (si_pipe _ Hi) (si_user _ Hi pid)) as Hw.
  destruct (wp_done _ _ _ _ _ Hw Hrun) as [k Hk]. exists k. split; [done|].
  destruct Hk as [Hk0 _ Hwf Hnr _ _ Hc _]. simpl in *.
  pose proof (count_cases _ Hwf). pose proof (count_cases _ (si_pipe _ Hi)). pose proof (pw_count _ Hwf).
  assert (0 <= count (w_pipe w)) by (apply Z.mod_pos_bound; lia). unfold PIPESIZE in *.
  assert (Hd : pi_nwrite (ps_pipe s) - pi_nwrite (w_pipe w) = k \/
    pi_nwrite (ps_pipe s) - pi_nwrite (w_pipe w) = k - 2 ^ 32 \/
    pi_nwrite (ps_pipe s) - pi_nwrite (w_pipe w) = k + 2 ^ 32) by lia.
  unfold u32. destruct Hd as [->|[-> | ->]]; [by rewrite Z.mod_small by lia| |].
  - symmetry. apply (Z.mod_unique _ _ (-1)); lia.
  - symmetry. apply (Z.mod_unique _ _ 1); lia.
Qed.

Lemma read_lost addr n r lost (s s1 : pst U) : read_run addr n 0 r lost s s1 -> lost = lost_bytes (ps_pipe s) (ps_pipe s1) r.
Proof.
  intros [Hr _ _ _ _ Hwf _ Hcon Hcnt Hnr Hall]. unfold lost_bytes. pose proof (Z.mod_pos_bound (pi_nwrite (ps_pipe s1) - pi_nread (ps_pipe s1)) (2 ^ 32) ltac:(lia)) as H0.
  change (0 <= count (ps_pipe s1) < 2 ^ 32) in H0. assert (Hlen : Z.of_nat (length (peek (ps_user s1) (addr + 0) (r - 0))) = r).
  { pose proof (f_equal length Hcon) as E. rewrite !length_app, !contents_length in E. lia. }
  assert (Et : u32 (pi_nread (ps_pipe s1) - pi_nread (ps_pipe s)) = r + Z.of_nat (length lost)).
  { rewrite Hnr. unfold u32. rewrite Zminus_mod_idemp_l. replace (_ - _) with (r + Z.of_nat (length lost)) by lia. apply Z.mod_small.
    pose proof (Z.mod_pos_bound (pi_nwrite (ps_pipe s) - pi_nread (ps_pipe s)) (2 ^ 32) ltac:(lia)) as H1. change (0 <= count (ps_pipe s) < 2 ^ 32) in H1. lia. }
  rewrite Et, Hcon, drop_app_length' by lia. symmetry. apply take_app_length'. lia.
Qed.
Lemma read_step_spec pid killed addr n r s w : sys_inv w ->
  w_tasks w !! pid = Some (mk_task (CRead addr n) None) ->
  piperead killed addr n (at_run pid w) = Done r s ->
  match r with
  | Returned r =>
    (r = -1 /\ s = at_run pid w) \/
    (exists s1, read_run addr (Z.max 0 n) 0 r (lost_bytes (w_pipe w) (ps_pipe s) r) (at_run pid w) s1 /\
      s = mk_pst (ps_pipe s1) (woken NWrite s1) (ps_user s1))
  | Sleeps c call => c = NRead /\ call = CRead addr n /\ s = at_run pid w /\
    count (w_pipe w) = 0 /\ pi_writeopen (w_pipe w) = true
  end.
Proof.
  intros Hi Ht Hrun. pose proof (si_task _ Hi pid _ Ht) as Hbuf. simpl in Hbuf.
  pose proof (piperead_spec killed addr n (at_run pid w) (si_pipe _ Hi) (si_user _ Hi pid) Hbuf) as Hw.
  pose proof (wp_done _ _ _ _ _ Hw Hrun) as Hr. destruct r as [r|c k]; [|done].
  destruct Hr as [(-> & _ & ->)|(lost & s1 & Hrr & ->)]; [by left|right]. exists s1. split; [|done]. cbn [ps_pipe].
  change (w_pipe w) with (ps_pipe (at_run pid w)). by rewrite <- (read_lost _ _ _ _ _ _ Hrr).
Qed.

(** ** Bytes come out in order *)

Lemma map_out (l : list Z) : map out_byte (map Got l) = l /\ map out_byte (map Lost l) = l.
Proof. split; rewrite map_map; apply map_id. Qed.

Lemma step_fifo kills w ins outs w' : sys_inv w -> step kills w ins outs w' ->
  sys_inv w' /\ contents (w_pipe w) ++ ins = map out_byte outs ++ contents (w_pipe w').
Proof.
  intros Hi Hstep. destruct Hstep as [pid c w Ha Hn Hc|pid addr n i killed r s w Ha Ht Hkill Hrun
    |pid addr n killed r s w Ha Ht Hrun|writable freed pid s w Ha Ho Hrun|pid t w Ht].
  - split; [|by rewrite app_nil_r]. destruct Hi as [Hp Hu Hq]. constructor; [done|done|]. intros q t. simpl.
    rewrite lookup_insert_Some. intros [[<- <-]|[_ Ht]]; [done|by apply (Hq q)].
  - destruct (write_step_spec _ _ _ _ _ _ _ _ Hi Hrun) as (k & Hk & ->).
    pose proof (si_task _ Hi pid _ Ht) as Hi0. simpl in Hi0. pose proof Hk as [Hk0 Hus Hwf Hnr Hends Hcon Hcnt Hres].
    simpl in *. split; [|done]. apply after_run_inv; try done.
    + rewrite Hus. apply Hi.
    + destruct r as [r|c kk]; simpl in Hres; [destruct Hres as [(_ & -> & _)|(_ & ->)]|destruct Hres as (_ & _ & -> & _)];
        apply tasks_from_refl || apply tasks_from_wake.
    + intros c kk ->. simpl in Hres. destruct Hres as (_ & -> & _). simpl. lia.
  - pose proof (read_step_spec _ _ _ _ _ _ _ Hi Ht Hrun) as Hr. rewrite app_nil_r. destruct r as [r|c k].
    + destruct Hr as [(-> & ->)|(s1 & [Hr Htk Hus _ _ Hwf Hends Hcon Hcnt _ Hall] & ->)]; simpl in *.
      * split; [apply after_run_inv; try done; [apply Hi|apply Hi|apply tasks_from_refl]|].
        unfold lost_bytes. rewrite Z.sub_diag. done.
      * split; [eapply after_run_inv; [done|done|exact Hus| |done]; unfold woken; simpl; rewrite Htk; apply tasks_from_wake|].
        rewrite Hcon at 1. by rewrite map_app, (proj1 (map_out _)), (proj2 (map_out _)), Z.add_0_r, Z.sub_0_r, app_assoc.
    + destruct Hr as (-> & -> & -> & _). split; [|done]. apply after_run_inv; try done; [apply Hi|apply Hi|apply tasks_from_refl|].
      * intros c k [= <- <-]. by apply (si_task _ Hi pid _ Ht).
  - destruct Hi as [[? ? ? ? ?] Hu Hq].
    assert (forall c q t, (wake c <$> w_tasks w) !! q = Some t -> call_ok (tk_call t)).
    { intros c q t (t' & Hq' & -> & _)%lookup_wake. by apply (Hq q). }
    rewrite app_nil_r. destruct writable; injection Hrun as <- <-; (split; [constructor; [by constructor|done|simpl; eauto]|done]).
  - split; [|by rewrite app_nil_r]. destruct Hi as [Hp Hu Hq]. constructor; [done|done|]. intros q t'. simpl.
    rewrite lookup_insert_Some. intros [[<- <-]|[_ Ht']]; [by apply (Hq pid t)|by apply (Hq q)].
Qed.

(** ** Nobody sleeps in vain *)

(** A sleeping reader has nothing to read, a sleeping writer no room. *)
Definition rightly_asleep (p : pipe) (c : chan) : Prop :=
  match c with
  | NRead => count p = 0 /\ pi_writeopen p = true
  | NWrite => count p = PIPESIZE /\ pi_readopen p = true
  end.
Definition sleepers_ok (w : world) : Prop :=
  forall pid t c, w_tasks w !! pid = Some t -> tk_chan t = Some c -> rightly_asleep (w_pipe w) c.

(** [killed(pr)] does not change during a run of a writer. *)
Definition steady (killed : Z -> bool) : Prop := forall i j, killed i = killed j.

(** After waking [c], the sleepers are those of the other channel. *)
Lemma woken_sleepers c (m : gmap Z task) (p p' : pipe) :
  (forall pid t d, m !! pid = Some t -> tk_chan t = Some d -> rightly_asleep p d) ->
  (forall d, d <> c -> rightly_asleep p d -> rightly_asleep p' d) ->
  forall pid t d, (wake c <$> m) !! pid = Some t -> tk_chan t = Some d -> rightly_asleep p' d.
Proof.
  intros Hm Hp pid t d (t' & Ht' & _ & Hne & [Hn|He])%lookup_wake Hd; [congruence|].
  apply Hp; [congruence|]. apply (Hm pid t'); [done|congruence].
Qed.

Lemma after_run_sleepers pid r s w :
  (forall q t d, ps_tasks s !! q = Some t -> tk_chan t = Some d -> rightly_asleep (ps_pipe s) d) ->
  (forall c k, r = Sleeps c k -> rightly_asleep (ps_pipe s) c) -> sleepers_ok (after_run pid r s w).
Proof.
  intros Hs Hr q t d. simpl. destruct r as [r|c k].
  - rewrite lookup_delete_Some. intros [_ Hq]. by apply (Hs q).
  - rewrite lookup_insert_Some. intros [[<- <-]|[_ Hq]] Hd; [|by apply (Hs q t)].
    simpl in Hd. injection Hd as <-. by eapply Hr.
Qed.

Lemma write_sleepers pid killed addr n i k r s w : sleepers_ok w -> steady killed ->
  write_run killed addr n i k (at_run pid w) r s -> pipe_wf (w_pipe w) -> sleepers_ok (after_run pid r s w).
Proof.
  intros Hs Hst [Hk0 Hus Hwf Hnr Hends Hcon Hcnt Hres] Hw. simpl in *. injection Hends as Hro Hwo.
  assert (Hmove : forall d, d <> NRead -> rightly_asleep (w_pipe w) d -> rightly_asleep (ps_pipe s) d).
  { intros [|]; [done|]. intros _ [Hc Ho]. pose proof (pw_count _ Hwf). split; [lia|congruence]. }
  apply after_run_sleepers.
  - destruct r as [r|c kk]; simpl in Hres.
    + destruct Hres as [(_ & -> & Hwhy)|(_ & ->)]; [|by eapply woken_sleepers].
      destruct Hwhy as [[-> _]|(_ & Hf & Ht)]; [|by rewrite (Hst i (i + k)), Ht in Hf].
      intros q t d Hq Hd. specialize (Hs q t d Hq Hd). destruct d; simpl in *; rewrite Hcnt, Z.add_0_r; by rewrite ?Hro, ?Hwo.
    + destruct Hres as (_ & _ & -> & _). by eapply woken_sleepers.
  - intros c kk ->. simpl in Hres. destruct Hres as (-> & _ & _ & Hc & Ho). split; [done|congruence].
Qed.

Lemma read_sleepers pid addr n r lost s s1 w : sleepers_ok w ->
  read_run addr n 0 r lost (at_run pid w) s1 -> s = mk_pst (ps_pipe s1) (woken NWrite s1) (ps_user s1) ->
  sleepers_ok (after_run pid (Returned r) s w).
Proof.
  intros Hs [Hr Htk _ _ _ Hwf Hends Hcon Hcnt _ Hall] ->. simpl in *. injection Hends as Hro Hwo.
  apply after_run_sleepers; [|done]. unfold woken. simpl. rewrite Htk. eapply woken_sleepers; [exact Hs|].
  intros [|]; [|done]. intros _ [Hc Ho]. simpl.
  assert (0 <= count (ps_pipe s1)) by (apply Z.mod_pos_bound; lia). split; [lia|congruence].
Qed.

Lemma step_sleepers w ins outs w' : sys_inv w -> sleepers_ok w -> step steady w ins outs w' -> sleepers_ok w'.
Proof.
  intros Hi Hs Hstep. destruct Hstep as [pid c w Ha Hn Hc|pid addr n i killed r s w Ha Ht Hkill Hrun
    |pid addr n killed r s w Ha Ht Hrun|writable freed pid s w Ha Ho Hrun|pid t w Ht].
  - intros q t d. simpl. rewrite lookup_insert_Some. intros [[<- <-]|[_ Hq]]; [done|by apply (Hs q t)].
  - destruct (write_step_spec _ _ _ _ _ _ _ _ Hi Hrun) as (k & Hk & _).
    eapply write_sleepers; [done|done|exact Hk|apply Hi].
  - pose proof (read_step_spec _ _ _ _ _ _ _ Hi Ht Hrun) as Hr. destruct r as [r|c k].
    + destruct Hr as [(-> & ->)|(s1 & Hrr & Hs1)]; [|by eapply read_sleepers].
      apply after_run_sleepers; [exact Hs|done].
    + destruct Hr as (-> & -> & -> & Hc & Ho). apply after_run_sleepers; [exact Hs|]. by intros c k [= <- <-].
  - destruct writable; injection Hrun as <- <-; simpl.
    + intros q t d. eapply (woken_sleepers NRead _ (w_pipe w)); [exact Hs|]. by intros [|].
    + intros q t d. eapply (woken_sleepers NWrite _ (w_pipe w)); [exact Hs|]. by intros [|].
  - intros q t' d. simpl. rewrite lookup_insert_Some. intros [[<- <-]|[_ Hq]]; [done|by apply (Hs q t')].
Qed.

Lemma steps_inv kills w0 ins outs w : sys_inv w0 -> steps kills w0 ins outs w ->
  sys_inv w /\ contents (w_pipe w0) ++ ins = map out_byte outs ++ contents (w_pipe w).
Proof.
  intros Hi Hs. induction Hs as [|ins outs w ins' outs' w' Hs [Hi' Hc] Hstep]; [by rewrite app_nil_r|].
  destruct (step_fifo _ _ _ _ _ Hi' Hstep) as [Hi'' Hc']. split; [done|]. rewrite map_app.
  by rewrite app_assoc, Hc, <- app_assoc, Hc', app_assoc.
Qed.

(** ** Properties *)

(** A byte is lost only by a read whose buffer is not all user memory. *)
Lemma step_lost kills w ins outs w' : sys_inv w -> step kills w ins outs w' ->
  (length (List.filter is_lost outs) <= 1)%nat /\ ((0 < length (List.filter is_lost outs))%nat -> exists pid addr n k,
    w_tasks w !! pid = Some (mk_task (CRead addr n) None) /\ 0 <= k < n /\ ~ um_there (w_user w pid) (u64 (addr + k))).
Proof.
  intros Hi Hstep. destruct Hstep as [| |pid addr n killed r s w Ha Ht Hrun| |]; try (split; simpl; lia).
  pose proof (read_step_spec _ _ _ _ _ _ _ Hi Ht Hrun) as Hr. destruct r as [k|c k]; [|split; simpl; lia].
  assert (Hgot : forall l, List.filter is_lost (map Got l) = []) by (intros l; by induction l).
  assert (Hlost : forall l, List.filter is_lost (map Lost l) = map Lost l) by (intros l; induction l as [|b l IH]; [done|]; simpl; by rewrite IH).
  rewrite List.filter_app, Hgot, Hlost, length_app, length_map. cbn [length plus].
  destruct Hr as [(-> & ->)|(s1 & Rr & ->)].
  - unfold lost_bytes, at_run. cbn [ps_pipe]. rewrite Z.sub_diag. change (Z.to_nat (u32 0 - Z.max 0 (-1))) with 0%nat. split; simpl; lia.
  - destruct (rr_all _ _ _ _ _ _ _ Rr) as [(-> & _)|(-> & Hk & Hno)]; [simpl; lia|]. split; [lia|]. intros _. pose proof (rr_r _ _ _ _ _ _ _ Rr).
    exists pid, addr, n, k. split_and!; [done|lia|lia|exact Hno].
Qed.

(** C19: a pipe is a first-in first-out queue of at most [PIPESIZE] bytes.
    After any sequence of calls, runs, closes and kills of any number of
    processes, with any addresses as their buffers, the bytes that writers moved
    out of their memory, in order, are the bytes that readers took out of the
    pipe, in order, followed by the bytes in the pipe; this includes the
    wrap-around of the counters.  Readers find the bytes they took in their
    memory, but a read that comes to an address of its buffer that is not user
    memory loses the one byte it has just taken. *)
Theorem pipe_fifo kills w0 ins outs w : sys_inv w0 -> contents (w_pipe w0) = [] -> steps kills w0 ins outs w ->
  ins = map out_byte outs ++ contents (w_pipe w) /\ (length (contents (w_pipe w)) <= Z.to_nat PIPESIZE)%nat /\
  forall ins' outs' w', step kills w ins' outs' w' ->
    (length (List.filter is_lost outs') <= 1)%nat /\ ((0 < length (List.filter is_lost outs'))%nat -> exists pid addr n k,
      w_tasks w !! pid = Some (mk_task (CRead addr n) None) /\ 0 <= k < n /\ ~ um_there (w_user w pid) (u64 (addr + k))).
Proof.
  intros Hi H0 Hs. destruct (steps_inv _ _ _ _ _ Hi Hs) as [Hi' Hc]. rewrite H0 in Hc. split; [done|]. split.
  - rewrite contents_length. pose proof (pw_count _ (si_pipe _ Hi')). lia.
  - intros ins' outs' w'. by apply step_lost.
Qed.

(** C37: as long as [killed] does not change in the middle of a writer's run,
    nobody sleeps in vain: a sleeping reader has an empty pipe with an open
    write end before it, a sleeping writer a full pipe with an open read end,
    and every process that is awake can run until it returns or rightly goes
    to sleep. *)
Theorem pipe_no_lost_wakeup w0 ins outs w pid t : sys_inv w0 -> sleepers_ok w0 -> steps steady w0 ins outs w ->
  w_tasks w !! pid = Some t ->
  match tk_chan t with
  | Some c => rightly_asleep (w_pipe w) c
  | None => w_alive w = true -> exists ins' outs' w', step steady w ins' outs' w' /\
      (w_tasks w' !! pid = None \/
       exists c k, w_tasks w' !! pid = Some (mk_task k (Some c)) /\ rightly_asleep (w_pipe w') c)
  end.
Proof.
  intros Hi0 Hs0 Hs Ht. assert (Hw : sys_inv w /\ sleepers_ok w).
  { clear Ht. induction Hs as [|ins outs w ins' outs' w' Hs [Hi Hsl] Hstep]; [done|].
    split; [by eapply step_fifo|by eapply step_sleepers]. }
  destruct Hw as [Hi Hsl]. destruct (tk_chan t) as [c|] eqn:Hc; [by eapply Hsl|]. intros Ha.
  assert (Hafter : forall r s, sleepers_ok (after_run pid r s w) ->
    w_tasks (after_run pid r s w) !! pid = None \/ exists c k,
      w_tasks (after_run pid r s w) !! pid = Some (mk_task k (Some c)) /\ rightly_asleep (w_pipe (after_run pid r s w)) c).
  { intros [r|c k] s Hok; simpl; [left; apply lookup_delete_eq|right]. exists c, k.
    split; [apply lookup_insert_eq|]. apply (Hok pid (mk_task k (Some c)) c); [apply lookup_insert_eq|done]. }
  destruct t as [[addr n i|addr n] ch]; simpl in Hc; subst ch.
  - pose proof (pipewrite_spec (fun _ => false) addr n i (at_run pid w) (si_pipe _ Hi) (si_user _ Hi pid)) as Hw.
    apply wp_Done in Hw as (r & s & Hrun & k & Hk). eexists _, _, (after_run pid r s w).
    pose proof (step_write steady pid addr n i (fun _ => false) r s w Ha Ht (fun _ _ => eq_refl) Hrun) as Hstep.
    split; [exact Hstep|]. apply Hafter. exact (step_sleepers _ _ _ _ Hi Hsl Hstep).
  - pose proof (piperead_spec false addr n (at_run pid w) (si_pipe _ Hi) (si_user _ Hi pid) (si_task _ Hi pid _ Ht)) as Hw.
    apply wp_Done in Hw as (r & s & Hrun & _). eexists _, _, (after_run pid r s w).
    pose proof (step_read steady pid addr n false r s w Ha Ht Hrun) as Hstep.
    split; [exact Hstep|]. apply Hafter. exact (step_sleepers _ _ _ _ Hi Hsl Hstep).
Qed.

End system.
Arguments world U : clear implicits.

(** * The theorems on a concrete system

    Processes whose memory is a map from addresses to bytes, an instance of
    the interface of UserMem.v that can be evaluated, and three processes that
    use one pipe. *)

(** ** Memory as a map *)

Definition flat_there (u : mem) (va n : Z) : bool := forallb (fun k => bool_decide (is_Some (u !! k))) (range va (va + n)).
Definition flat_copyout (va : Z) (src : list Z) : M mem Z := fun u =>
  if flat_there u va (Z.of_nat (length src)) then Done 0 (write_bytes u va src) else Done (-1) u.
Definition flat_copyin (va n : Z) : M mem (Z * list Z) := fun u =>
  if flat_there u va n then Done (0, read_bytes u va n) u else Done (-1, []) u.

#[export] Instance flat_memory : UserMemory mem := {|
  um_copyout := flat_copyout;
  um_copyin := flat_copyin;
  um_ok := mem_ok;
  um_there u x := is_Some (u !! x);
  um_byte u x := u !! x;
  um_same _ _ := True;
|}.

Lemma flat_there_spec u va n : flat_there u va n = true <-> um_range u va n.
Proof.
  unfold flat_there, um_range. rewrite forallb_forall. setoid_rewrite bool_decide_eq_true. simpl.
  split; intros Hr x Hx; apply Hr; [apply list_elem_of_In, elem_of_range; lia|].
  apply list_elem_of_In, elem_of_range in Hx. lia.
Qed.

#[export] Instance flat_memory_ok : UserMemoryOK mem.
Proof.
  constructor; [| |done|done].
  - intros va src u Hu Hb Hva. unfold wp. cbn [um_copyout flat_memory]. unfold flat_copyout.
    destruct (flat_there u va (Z.of_nat (length src))) eqn:Ht.
    + apply flat_there_spec in Ht. split; [constructor; [by apply mem_ok_write|done| |]|left].
      * intros x. simpl. destruct (decide (va <= x < va + Z.of_nat (length src))) as [Hx|Hx].
        -- rewrite write_bytes_in by done. split; [intros _; by apply Ht|]. intros _. apply lookup_lt_is_Some_2. lia.
        -- by rewrite write_bytes_out.
      * intros x _ Hx. simpl. by rewrite write_bytes_out.
      * split_and!; [done|done|]. apply write_bytes_at.
    + split; [by constructor|right]. split; [done|]. rewrite <- flat_there_spec. congruence.
  - intros va n u Hu Hn Hva. unfold wp. cbn [um_copyin flat_memory]. unfold flat_copyin.
    destruct (flat_there u va n) eqn:Ht; (split; [done|]); [left|right; split; [done|rewrite <- flat_there_spec; congruence]].
    apply flat_there_spec in Ht. pose proof (read_bytes_at u va n Ht) as Hat. simpl.
    split_and!; [done|done|rewrite read_bytes_length; lia| |done].
    apply Forall_lookup. intros i b Hi. specialize (Hat i b Hi). by apply Hu in Hat.
Qed.

(** ** A writer and a reader

    The counters start just below their wrap-around. *)

Definition ex_pipe : pipe := mk_pipe (replicate (Z.to_nat PIPESIZE) 5) (2 ^ 32 - 1) (2 ^ 32 - 1) true true.
Definition ex_umem : mem := write_bytes ∅ 100 [1; 2; 3; 4].
Definition ex_world : world mem := mk_world ex_pipe ∅ (fun _ => ex_umem) true.

Lemma ex_world_inv : sys_inv ex_world /\ contents (w_pipe ex_world) = [] /\ sleepers_ok ex_world.
Proof.
  assert (Hm : mem_ok ex_umem) by (apply mem_ok_write; [by intros x b|repeat constructor; lia]).
  split_and!; [constructor; [constructor|done|done]|done|done].
  - apply length_replicate.
  - apply Forall_replicate. lia.
  - done.
  - done.
  - done.
Qed.

(** What the example's processes do. *)
Definition run_or {A} (m : M (pst mem) A) (d : A) (s : pst mem) : A * pst mem :=
  match m s with Done a s' => (a, s') | Panic _ s' | Blocked s' | Fault s' => (d, s') end.
Definition ex_called (pid : Z) (c : call) (w : world mem) : world mem :=
  mk_world (w_pipe w) (<[pid := mk_task c None]> (w_tasks w)) (w_user w) (w_alive w).
Definition ex_wrote (pid : Z) (killed : Z -> bool) (addr n i : Z) (w : world mem) : world mem :=
  let r := run_or (pipewrite killed addr n i) (Returned 0) (at_run pid w) in after_run pid r.1 r.2 w.
Definition ex_read (pid addr n : Z) (w : world mem) : world mem :=
  let r := run_or (piperead false addr n) (Returned 0) (at_run pid w) in after_run pid r.1 r.2 w.

Definition ex_w1 : world mem := ex_called 1 (CWrite 100 3 0) ex_world.
Definition ex_w2 : world mem := ex_wrote 1 (fun _ => false) 100 3 0 ex_w1.
Definition ex_w3 : world mem := ex_called 2 (CRead 102 3) ex_w2.
Definition ex_w4 : world mem := ex_read 2 102 3 ex_w3.

(** Process 2 reads three bytes into a buffer of two. *)
Lemma ex_steps : steps steady ex_world [1; 2; 3] [Got 1; Got 2; Lost 3] ex_w4.
Proof.
  change [1; 2; 3] with ([] ++ [] ++ [1; 2; 3] ++ [] ++ @nil Z). change [Got 1; Got 2; Lost 3] with ([] ++ [] ++ [] ++ [] ++ [Got 1; Got 2; Lost 3]).
  rewrite !app_assoc.
  eapply (steps_trans _ _ _ _ ex_w3); [eapply (steps_trans _ _ _ _ ex_w2); [eapply (steps_trans _ _ _ _ ex_w1);
    [apply (steps_trans _ _ [] [] ex_world); [apply steps_refl|]|]|]|].
  - by apply (step_call steady 1 (CWrite 100 3 0)).
  - exact (step_write steady 1 100 3 0 (fun _ => false) (Returned 3)
      (run_or (pipewrite (fun _ => false) 100 3 0) (Returned 0) (at_run 1 ex_w1)).2 ex_w1
      eq_refl eq_refl (fun _ _ => eq_refl) eq_refl).
  - by apply (step_call steady 2 (CRead 102 3)).
  - exact (step_read steady 2 102 3 false (Returned 2)
      (run_or (piperead false 102 3) (Returned 0) (at_run 2 ex_w3)).2 ex_w3 eq_refl eq_refl eq_refl).
Qed.

Lemma pipe_fifo_witness : steps steady ex_world [1; 2; 3] [Got 1; Got 2; Lost 3] ex_w4 /\
  [1; 2; 3] = map out_byte [Got 1; Got 2; Lost 3] ++ contents (w_pipe ex_w4) /\ (length (contents (w_pipe ex_w4)) <= Z.to_nat PIPESIZE)%nat.
Proof.
  destruct (pipe_fifo steady ex_world [1; 2; 3] [Got 1; Got 2; Lost 3] ex_w4) as (H1 & H2 & _).
  - apply ex_world_inv.
  - apply ex_world_inv.
  - apply ex_steps.
  - split; [apply ex_steps|split; [exact H1|exact H2]].
Defined.

Lemma pipe_no_lost_wakeup_witness : exists ins' outs' w', step steady ex_w1 ins' outs' w' /\
  (w_tasks w' !! 1 = None \/
   exists c k, w_tasks w' !! 1 = Some (mk_task k (Some c)) /\ rightly_asleep (w_pipe w') c).
Proof.
  apply (pipe_no_lost_wakeup ex_world ([] ++ []) ([] ++ []) ex_w1 1 (mk_task (CWrite 100 3 0) None)).
  - apply ex_world_inv.
  - apply ex_world_inv.
  - eapply steps_trans; [apply steps_refl|]. by apply (step_call steady 1 (CWrite 100 3 0)).
  - done.
  - done.
Defined.

(** ** A lost wakeup *)

Definition ex_kill_after (k : Z) (i : Z) : bool := k <=? i.
Definition ex_v1 : world mem := ex_called 2 (CRead 100 2) ex_world.
Definition ex_v2 : world mem := ex_read 2 100 2 ex_v1.
Definition ex_v3 : world mem := ex_called 1 (CWrite 100 3 0) ex_v2.
Definition ex_v4 : world mem := ex_wrote 1 (ex_kill_after 1) 100 3 0 ex_v3.

(** a writer that is killed in the middle of a run returns without waking
    the readers: a reader then sleeps in front of a pipe that holds a byte. *)
Theorem killed_writer_loses_wakeup : exists ins w,
  steps (fun _ => True) ex_world ins [] w /\
  w_tasks w !! 2 = Some (mk_task (CRead 100 2) (Some NRead)) /\ contents (w_pipe w) = [1].
Proof.
  exists ([] ++ [1]), ex_v4. split; [|done].
  eapply (steps_trans _ _ [] [] ex_v3 [1] []).
  - apply (steps_trans _ _ [] [] ex_v2 [] []); [apply (steps_trans _ _ [] [] ex_v1 [] []);
      [apply (steps_trans _ _ [] [] ex_world [] []); [apply steps_refl|]|]|].
    + by apply (step_call _ 2 (CRead 100 2)).
    + exact (step_read (fun _ => True) 2 100 2 false (Sleeps NRead (CRead 100 2))
        (run_or (piperead false 100 2) (Returned 0) (at_run 2 ex_v1)).2 ex_v1 eq_refl eq_refl eq_refl).
    + by apply (step_call _ 1 (CWrite 100 3 0)).
  - exact (step_write (fun _ => True) 1 100 3 0 (ex_kill_after 1) (Returned (-1))
      (run_or (pipewrite (ex_kill_after 1) 100 3 0) (Returned 0) (at_run 1 ex_v3)).2 ex_v3
      eq_refl eq_refl I eq_refl).
Qed.
