(* ===== verification/Grep.v ===== *)
(** * Searching: user/grep.c

    The matcher runs on C strings in memory, with the loads of the code, and is
    proved equivalent to a declarative semantics of its patterns.  [grep] reads
    a file in pieces of any size through a buffer of 1024 bytes; the buffer and
    the output are lists of bytes. *)

From stdpp Require Import base numbers list gmap.
From Stdlib Require Import ZArith Lia.
From S2P Require Import Prelude Monad Mem Strings.
Open Scope Z_scope.

Definition STAR : Z := 42.
Definition DOLLAR : Z := 36.
Definition DOT : Z := 46.
Definition CARET : Z := 94.
Definition NEWLINE : Z := 10.

(** ** match, matchhere, matchstar

    The recursion is bounded by [fuel]; [match_done] shows that what [match]
    passes is enough. *)

Fixpoint matchhere (fuel : nat) (re text : Z) : M mem bool :=
  match fuel with
  | O => blocked
  | S fuel =>
    let! r0 := load re in
    if r0 =? 0 then ret true
    else
      let! r1 := load (re + 1) in
      if r1 =? STAR then matchstar fuel r0 (re + 2) text
      else
        let! t := load text in
        if (r0 =? DOLLAR) && (r1 =? 0) then ret (t =? 0)
        else if negb (t =? 0) && ((r0 =? DOT) || (r0 =? t)) then matchhere fuel (re + 1) (text + 1)
        else ret false
  end
with matchstar (fuel : nat) (c re text : Z) : M mem bool :=
  match fuel with
  | O => blocked
  | S fuel =>
    let! b := matchhere fuel re text in
    if b : bool then ret true
    else
      let! t := load text in
      if negb (t =? 0) && ((t =? c) || (c =? DOT)) then matchstar fuel c re (text + 1)
      else ret false
  end.

(** [do ... while( *text++ != '\0')] *)
Fixpoint match_from (rounds fuel : nat) (re text : Z) : M mem bool :=
  match rounds with
  | O => blocked
  | S rounds =>
    let! b := matchhere fuel re text in
    if b : bool then ret true
    else
      let! t := load text in
      if negb (t =? 0) then match_from rounds fuel re (text + 1) else ret false
  end.

Definition match_ (re text : Z) : M mem bool :=
  let! size := gets (fun m => size m) in
  let fuel := (2 * size + 2)%nat in
  let! r0 := load re in
  if r0 =? CARET then matchhere fuel (re + 1) text
  else match_from (S size) fuel re text.

(** ** What a pattern means *)

Inductive item :=
| One (c : Z)      (* a character, or any character for a dot *)
| Star (c : Z)     (* zero or more of them *)
| End.             (* the end of the text *)

Fixpoint parse (re : list Z) : list item :=
  match re with
  | [] => []
  | c :: re1 =>
    match re1 with
    | [] => [if c =? DOLLAR then End else One c]
    | d :: re2 => if d =? STAR then Star c :: parse re2 else One c :: parse re1
    end
  end.

Definition fits (c t : Z) : Prop := c = DOT \/ c = t.

(** [lang items s rest]: the items match exactly [s], with [rest] after it. *)
Inductive lang : list item -> list Z -> list Z -> Prop :=
| lang_nil rest : lang [] [] rest
| lang_one c t items s rest : fits c t -> lang items s rest -> lang (One c :: items) (t :: s) rest
| lang_star c pre items s rest : Forall (fits c) pre -> lang items s rest -> lang (Star c :: items) (pre ++ s) rest
| lang_end : lang [End] [] [].

Definition matches_here (re text : list Z) : Prop := exists s rest, text = s ++ rest /\ lang (parse re) s rest.

(** A pattern matches a line if, anchored by [^], it matches a prefix, and
    otherwise, if it matches somewhere. *)
Definition matches (re text : list Z) : Prop :=
  match re with
  | c :: re' => if c =? CARET then matches_here re' text else exists pre suf, text = pre ++ suf /\ matches_here re suf
  | [] => True
  end.

(** ** The matcher on lists *)

Fixpoint here (re : list Z) : list Z -> bool :=
  match re with
  | [] => fun _ => true
  | c :: re1 =>
    match re1 with
    | [] => fun text => if c =? DOLLAR then match text with [] => true | _ => false end
                        else match text with [] => false | t :: _ => (c =? DOT) || (c =? t) end
    | d :: re2 =>
      if d =? STAR then
        fix star text := here re2 text ||
          match text with [] => false | t :: text' => ((t =? c) || (c =? DOT)) && star text' end
      else fun text => match text with [] => false | t :: text' => ((c =? DOT) || (c =? t)) && here re1 text' end
    end
  end.
Definition here_star (c : Z) (re : list Z) : list Z -> bool :=
  fix star text := here re text ||
    match text with [] => false | t :: text' => ((t =? c) || (c =? DOT)) && star text' end.

Lemma fits_spec c t : fits c t <-> ((c =? DOT) || (c =? t)) = true.
Proof. unfold fits. by rewrite orb_true_iff, !Z.eqb_eq. Qed.
Lemma fits_spec' c t : fits c t <-> ((t =? c) || (c =? DOT)) = true.
Proof. rewrite fits_spec, orb_comm, (Z.eqb_sym c t). done. Qed.

Lemma here_star_spec c re text : here_star c re text = true <->
  exists pre suf, text = pre ++ suf /\ Forall (fits c) pre /\ here re suf = true.
Proof.
  induction text as [|t text IH]; simpl; rewrite orb_true_iff.
  - split; [intros [Hh|]; [exists [], []|]; done|]. intros (pre & suf & He & _ & Hh).
    symmetry in He. apply app_eq_nil in He as [-> ->]. by left.
  - rewrite andb_true_iff, <- fits_spec', IH. split.
    + intros [Hh|(Hf & pre & suf & -> & Hp & Hh)]; [by exists [], (t :: text)|exists (t :: pre), suf]. auto.
    + intros ([|p pre] & suf & He & Hp & Hh); simpl in He; subst; [by left|].
      injection He as <- ->. inversion Hp; subst. right. split; [done|]. by exists pre, suf.
Qed.

Lemma here_spec re text : here re text = true <-> matches_here re text.
Proof.
  revert text. induction re as [re IH] using (induction_ltof1 _ (@length Z)). unfold ltof in IH. intros text.
  unfold matches_here. destruct re as [|c re1].
  { split; [intros _; exists [], text; by repeat constructor|done]. }
  destruct re1 as [|d re2].
  - simpl. destruct (Z.eqb_spec c DOLLAR) as [->|Hc].
    + split; [destruct text; [|done]; intros _; exists [], []; by repeat constructor|].
      intros (s & rest & -> & Hl). by inversion Hl.
    + destruct text as [|t text].
      * split; [done|]. intros (s & rest & He & Hl). inversion Hl; subst. done.
      * rewrite <- fits_spec. split; [intros Hf; exists [t], text; eauto using lang_one, lang_nil|].
        intros (s & rest & He & Hl). inversion Hl as [|? ? ? ? ? Hf Hl2| |]; subst. by injection He as <- _.
  - simpl parse. change (here (c :: d :: re2) text) with
      ((if d =? STAR then here_star c re2 else fun text => match text with [] => false
        | t :: text' => ((c =? DOT) || (c =? t)) && here (d :: re2) text' end) text).
    destruct (Z.eqb_spec d STAR) as [->|Hd].
    + rewrite here_star_spec. split.
      * intros (pre & suf & -> & Hp & (s & rest & -> & Hl)%IH); [|simpl; lia].
        exists (pre ++ s), rest. split; [by rewrite app_assoc|by constructor].
      * intros (s & rest & -> & Hl). inversion Hl as [| |? pre ? s' ? Hp Hl2|]; subst.
        exists pre, (s' ++ rest). rewrite app_assoc. split_and!; [done|done|]. apply IH; [simpl; lia|]. by exists s', rest.
    + destruct text as [|t text].
      * split; [done|]. intros (s & rest & He & Hl). destruct s; [|done]. inversion Hl.
      * rewrite andb_true_iff, <- fits_spec, IH by (simpl; lia). split.
        -- intros (Hf & s & rest & -> & Hl). exists (t :: s), rest. split; [done|by constructor].
        -- intros (s & rest & He & Hl). inversion Hl as [|? ? ? s' ? Hf Hl2| |]; subst. injection He as <- ->.
           split; [done|]. by exists s', rest.
Qed.

(** ** The matcher on memory *)

(** The character at a C string, NUL at its end. *)
Definition first (l : list Z) : Z := match l with [] => 0 | c :: _ => c end.
Lemma cstring_head m a l : cstring m a l -> m !! a = Some (first l).
Proof. destruct l; [by intros ?%cstring_nil|by intros (? & _)%cstring_cons]. Qed.
Lemma cstring_tail m a c l : cstring m a (c :: l) -> cstring m (a + 1) l /\ c <> 0.
Proof. intros (_ & ? & ?)%cstring_cons. split; [done|lia]. Qed.

Lemma matchhere_done fuel :
  (forall re text R T m, cstring m re R -> cstring m text T -> (length R + length T < fuel)%nat ->
    matchhere fuel re text m = Done (here R T) m) /\
  (forall c re text R T m, cstring m re R -> cstring m text T -> (length R + length T + 1 < fuel)%nat ->
    matchstar fuel c re text m = Done (here_star c R T) m).
Proof.
  induction fuel as [|fuel [IHh IHs]]; [by split; intros; lia|]. split.
  - intros re text R T m HR HT Hf. cbn [matchhere]. rewrite (bind_load _ _ _ _ (cstring_head _ _ _ HR)).
    destruct R as [|c R1]; [done|]. destruct (cstring_tail _ _ _ _ HR) as [HR1 Hc]. cbn [first].
    rewrite (proj2 (Z.eqb_neq _ _) Hc), (bind_load _ _ _ _ (cstring_head _ _ _ HR1)).
    assert (Htext : load text m = Done (first T) m) by (apply load_done, cstring_head, HT).
    destruct R1 as [|d R2]; cbn [first].
    + change (0 =? STAR) with false. cbv iota. unfold bind at 1. rewrite Htext. cbn [Z.eqb]. rewrite andb_true_r. simpl here.
      destruct T as [|t T1]; cbn [first]; [by destruct (c =? DOLLAR)|].
      destruct (cstring_tail _ _ _ _ HT) as [HT1 Ht]. rewrite (proj2 (Z.eqb_neq _ _) Ht). cbn [negb andb].
      destruct (c =? DOLLAR); [done|]. destruct ((c =? DOT) || (c =? t)); [|done].
      rewrite (IHh _ _ [] T1); [done|done|done|simpl in *; lia].
    + destruct (cstring_tail _ _ _ _ HR1) as [HR2 Hd].
      change (here (c :: d :: R2) T) with
        ((if d =? STAR then here_star c R2 else fun text => match text with [] => false
          | t :: text' => ((c =? DOT) || (c =? t)) && here (d :: R2) text' end) T).
      destruct (d =? STAR).
      * replace (re + 2) with (re + 1 + 1) by lia. apply IHs; [done|done|simpl in *; lia].
      * unfold bind at 1. rewrite Htext, (proj2 (Z.eqb_neq _ _) Hd), andb_false_r.
        destruct T as [|t T1]; cbn [first]; [done|].
        destruct (cstring_tail _ _ _ _ HT) as [HT1 Ht]. rewrite (proj2 (Z.eqb_neq _ _) Ht). cbn [negb andb].
        destruct ((c =? DOT) || (c =? t)); [|done]. apply IHh; [done|done|simpl in *; lia].
  - intros c re text R T m HR HT Hf. cbn [matchstar]. unfold bind at 1. rewrite (IHh _ _ R T) by (done || lia).
    assert (Hu : here_star c R T = here R T || match T with [] => false
      | t :: T' => ((t =? c) || (c =? DOT)) && here_star c R T' end) by (by destruct T).
    rewrite Hu. destruct (here R T); [done|]. rewrite (bind_load _ _ _ _ (cstring_head _ _ _ HT)).
    destruct T as [|t T1]; [done|]. cbn [first]. destruct (cstring_tail _ _ _ _ HT) as [HT1 Ht].
    rewrite (proj2 (Z.eqb_neq _ _) Ht). cbn [negb andb orb].
    destruct ((t =? c) || (c =? DOT)); [|done]. apply IHs; [done|done|simpl in *; lia].
Qed.

Fixpoint here_from (re text : list Z) : bool :=
  here re text || match text with [] => false | _ :: text' => here_from re text' end.

Lemma here_from_spec re text : here_from re text = true <-> exists pre suf, text = pre ++ suf /\ matches_here re suf.
Proof.
  induction text as [|t text IH]; simpl; rewrite orb_true_iff, here_spec.
  - split; [intros [?|?]; [by exists [], []|done]|]. intros (pre & suf & He & Hm). symmetry in He.
    apply app_eq_nil in He as [-> ->]. by left.
  - rewrite IH. split.
    + intros [?|(pre & suf & -> & ?)]; [by exists [], (t :: text)|by exists (t :: pre), suf].
    + intros ([|p pre] & suf & He & Hm); simpl in He; [subst; by left|]. injection He as <- ->. right. by exists pre, suf.
Qed.

Lemma match_from_done rounds fuel re text R T m : cstring m re R -> cstring m text T ->
  (length R + length T < fuel)%nat -> (length T < rounds)%nat ->
  match_from rounds fuel re text m = Done (here_from R T) m.
Proof.
  revert text T. induction rounds as [|rounds IH]; intros text T HR HT Hf Hr; [lia|].
  cbn [match_from]. unfold bind at 1. rewrite (proj1 (matchhere_done fuel) _ _ R T) by done.
  assert (Hu : here_from R T = here R T || match T with [] => false | _ :: T' => here_from R T' end) by (by destruct T).
  rewrite Hu. destruct (here R T); [done|]. rewrite (bind_load _ _ _ _ (cstring_head _ _ _ HT)).
  destruct T as [|t T1]; [done|]. cbn [first]. destruct (cstring_tail _ _ _ _ HT) as [HT1 Ht].
  rewrite (proj2 (Z.eqb_neq _ _) Ht). cbn [negb orb]. apply IH; [done|done|simpl in *; lia|simpl in *; lia].
Qed.

(** [match] on lists. *)
Definition matchb (re text : list Z) : bool :=
  match re with
  | c :: re' => if c =? CARET then here re' text else here_from re text
  | [] => true
  end.
Lemma matchb_spec re text : matchb re text = true <-> matches re text.
Proof. destruct re as [|c re]; [done|]. simpl. destruct (c =? CARET); [apply here_spec|apply here_from_spec]. Qed.

Lemma match_done re text R T m : cstring m re R -> cstring m text T -> match_ re text m = Done (matchb R T) m.
Proof.
  intros HR HT. pose proof (cstring_fuel _ _ _ HR) as Hf1. pose proof (cstring_fuel _ _ _ HT) as Hf2.
  unfold match_. cbn [bind gets]. rewrite (load_done _ _ _ (cstring_head _ _ _ HR)).
  destruct R as [|c R']; cbn [first matchb].
  - change (0 =? CARET) with false. cbv iota. rewrite (match_from_done _ _ _ _ [] T) by (done || simpl; lia). by destruct T.
  - destruct (cstring_tail _ _ _ _ HR) as [HR' _]. destruct (c =? CARET).
    + by rewrite (proj1 (matchhere_done _) _ _ R' T) by (done || simpl in *; lia).
    + by rewrite (match_from_done _ _ _ _ (c :: R') T) by (done || simpl in *; lia).
Qed.

(** ** grep *)

(** [q = strchr(p, '\n')]: the line before the newline and what follows it. *)
Fixpoint strchr_line (p : list Z) : option (list Z * list Z) :=
  match p with
  | [] => None
  | c :: p =>
    if c =? 0 then None
    else if c =? NEWLINE then Some ([], p)
    else match strchr_line p with Some (line, rest) => Some (c :: line, rest) | None => None end
  end.

(** The loop over the lines in the buffer: what is left of it, and the output;
    [None] if the loop goes on after [fuel] rounds. *)
Fixpoint grep_lines (fuel : nat) (pattern p out : list Z) : option (list Z * list Z) :=
  match fuel with
  | O => None
  | S fuel =>
    match strchr_line p with
    | None => Some (p, out)
    | Some (line, rest) =>
      grep_lines fuel pattern rest (out ++ if matchb pattern line then line ++ [NEWLINE] else [])
    end
  end.

(** [sizeof(buf)] *)
Definition BUFSIZE : Z := 1024.

(** The number of bytes a [read] of up to [n] bytes returns: none at the end of
    the file, else between 1 and [n], [k] if that is possible. *)
Definition read_count (k n : Z) (file : list Z) : Z := Z.min (Z.max 1 k) (Z.min n (Z.of_nat (length file))).

(** The loop of [grep].  The [j]-th [read] fails if [short j] is [None], and else
    wants to return [short j] bytes.  The result is the output, the number of the
    last [read] and the bytes that were not read; [None] if the loop goes on after
    [rounds] rounds. *)
Fixpoint grep_loop (rounds : nat) (pattern : list Z) (short : nat -> option Z) (j : nat) (buf file out : list Z) : option (list Z * nat * list Z) :=
  match rounds with
  | O => None
  | S rounds =>
    let n := match short j with
             | None => -1
             | Some k => read_count k (BUFSIZE - Z.of_nat (length buf) - 1) file
             end in
    if n <=? 0 then Some (out, j, file)
    else
      let data := buf ++ take (Z.to_nat n) file in
      match grep_lines (S (length data)) pattern data out with
      | None => None
      | Some (rest, out) => grep_loop rounds pattern short (S j) rest (drop (Z.to_nat n) file) out
      end
  end.
(** Every round but the last reads a byte. *)
Definition grep (pattern : list Z) (short : nat -> option Z) (file : list Z) : option (list Z * nat * list Z) :=
  grep_loop (S (length file)) pattern short 0 [] file [].

(** *** What it should print *)

(** The complete lines of a text, and what follows the last newline. *)
Fixpoint lines_rec (cur p : list Z) : list (list Z) * list Z :=
  match p with
  | [] => ([], cur)
  | c :: p =>
    if c =? NEWLINE then let '(ls, r) := lines_rec [] p in (cur :: ls, r)
    else lines_rec (cur ++ [c]) p
  end.
Definition lines : list Z -> list (list Z) * list Z := lines_rec [].
Definition printed (pattern : list Z) (ls : list (list Z)) : list Z :=
  concat (map (fun line => if matchb pattern line then line ++ [NEWLINE] else []) ls).

Lemma lines_rec_app cur a b : lines_rec cur (a ++ b) =
  ((lines_rec cur a).1 ++ (lines_rec (lines_rec cur a).2 b).1, (lines_rec (lines_rec cur a).2 b).2).
Proof.
  revert cur. induction a as [|c a IH]; intros cur; simpl; [by destruct (lines_rec cur b)|].
  destruct (c =? NEWLINE); [|by rewrite IH]. rewrite IH. by destruct (lines_rec [] a).
Qed.

Lemma strchr_line_spec cur p : Forall (fun c => c <> 0) p ->
  match strchr_line p with
  | Some (line, rest) => (length rest < length p)%nat /\ Forall (fun c => c <> 0) rest /\
      lines_rec cur p = ((cur ++ line) :: (lines rest).1, (lines rest).2)
  | None => lines_rec cur p = ([], cur ++ p)
  end.
Proof.
  intros Hp. revert cur. induction Hp as [|c p Hc Hp IH]; intros cur; simpl; [by rewrite app_nil_r|].
  rewrite (proj2 (Z.eqb_neq _ _) Hc). destruct (c =? NEWLINE).
  - rewrite app_nil_r. unfold lines. split_and!; [lia|done|]. by destruct (lines_rec [] p).
  - specialize (IH (cur ++ [c])). destruct (strchr_line p) as [[line rest]|]; rewrite <- app_assoc in IH.
    + destruct IH as (? & ? & ?). split_and!; [lia|done|done].
    + done.
Qed.

Lemma grep_lines_spec fuel pattern p out : Forall (fun c => c <> 0) p -> (length p < fuel)%nat ->
  grep_lines fuel pattern p out = Some ((lines p).2, out ++ printed pattern (lines p).1).
Proof.
  revert p out. induction fuel as [|fuel IH]; intros p out Hp Hf; [lia|]. cbn [grep_lines].
  pose proof (strchr_line_spec [] p Hp) as Hs. destruct (strchr_line p) as [[line rest]|].
  - destruct Hs as (Hl & Hr & He). unfold lines. rewrite He, IH by (done || lia). cbn [fst snd]. do 2 f_equal.
    unfold printed. simpl. by rewrite app_assoc.
  - unfold lines. rewrite Hs. cbn [fst snd printed map concat]. by rewrite app_nil_r.
Qed.

Lemma lines_rest_gen cur p : Forall (fun c => c <> NEWLINE) cur -> Forall (fun c => c <> NEWLINE) (lines_rec cur p).2.
Proof.
  revert cur. induction p as [|c p IH]; intros cur Hc; simpl; [done|]. destruct (Z.eqb_spec c NEWLINE).
  - specialize (IH [] (Forall_nil_2 _)). by destruct (lines_rec [] p).
  - apply IH, Forall_app. split; [done|]. by apply Forall_singleton.
Qed.
Lemma lines_no_newline cur p : Forall (fun c => c <> NEWLINE) p -> lines_rec cur p = ([], cur ++ p).
Proof.
  intros Hp. revert cur. induction Hp as [|c p Hc Hp IH]; intros cur; simpl; [by rewrite app_nil_r|].
  rewrite (proj2 (Z.eqb_neq _ _) Hc), IH. by rewrite <- app_assoc.
Qed.
Lemma lines_rest p : lines (lines_rec [] p).2 = ([], (lines_rec [] p).2).
Proof. apply (lines_no_newline []). by apply lines_rest_gen. Qed.
Lemma lines_rest_nonzero cur p : Forall (fun c => c <> 0) cur -> Forall (fun c => c <> 0) p ->
  Forall (fun c => c <> 0) (lines_rec cur p).2.
Proof.
  intros Hc Hp. revert cur Hc. induction Hp as [|c p Hcc Hp IH]; intros cur Hc; simpl; [done|].
  destruct (c =? NEWLINE); [|apply IH, Forall_app; split; [done|by apply Forall_singleton]].
  specialize (IH [] (Forall_nil_2 _)). by destruct (lines_rec [] p).
Qed.

(** No line is longer than the buffer can hold. *)
Definition lines_fit (p : list Z) : Prop :=
  Forall (fun l => Z.of_nat (length l) < BUFSIZE - 1) (lines p).1 /\ Z.of_nat (length (lines p).2) < BUFSIZE - 1.

Lemma lines_cur cur p : Forall (fun l => Z.of_nat (length l) < BUFSIZE - 1) (lines_rec cur p).1 ->
  Z.of_nat (length (lines_rec cur p).2) < BUFSIZE - 1 -> Z.of_nat (length cur) < BUFSIZE - 1.
Proof.
  revert cur. induction p as [|c p IH]; intros cur; simpl; [done|]. destruct (c =? NEWLINE).
  - destruct (lines_rec [] p). simpl. by intros [? _]%Forall_cons.
  - intros H1 H2. specialize (IH _ H1 H2). rewrite length_app in IH. lia.
Qed.

(** What [pre] holds after the lines of [buf ++ pre] that are read. *)
Lemma grep_loop_spec rounds pattern short j buf file out :
  Forall (fun c => c <> 0) (buf ++ file) -> lines buf = ([], buf) -> lines_fit (buf ++ file) ->
  (length file < rounds)%nat ->
  exists pre unread j', file = pre ++ unread /\ (unread = [] \/ short j' = None) /\
    grep_loop rounds pattern short j buf file out = Some (out ++ printed pattern (lines (buf ++ pre)).1, j', unread).
Proof.
  revert j buf file out. induction rounds as [|rounds IH]; intros j buf file out Hz Hbuf [Hfit1 Hfit2] Hr; [lia|].
  cbn [grep_loop]. set (n := match short j with None => -1 | Some _ => _ end).
  assert (Hroom : Z.of_nat (length buf) < BUFSIZE - 1).
  { unfold lines in *. rewrite lines_rec_app, Hbuf in Hfit1, Hfit2. simpl in Hfit1, Hfit2. by apply (lines_cur buf file). }
  destruct (Z.leb_spec n 0) as [Hn|Hn].
  { exists [], file, j. rewrite app_nil_r, Hbuf. cbn [fst printed map concat]. rewrite app_nil_r. split_and!; [done| |done].
    unfold n in Hn. destruct (short j) as [k|]; [left|by right]. destruct file as [|c file]; [done|]. unfold read_count in Hn. simpl in Hn. lia. }
  assert (Hnf : n <= Z.of_nat (length file)) by (unfold n; destruct (short j); unfold read_count; lia).
  set (data := buf ++ take (Z.to_nat n) file).
  assert (Hsplit : buf ++ file = data ++ drop (Z.to_nat n) file) by (unfold data; by rewrite <- app_assoc, take_drop).
  rewrite Hsplit in *. apply Forall_app in Hz as [Hz1 Hz2]. unfold lines in Hfit1, Hfit2.
  rewrite lines_rec_app in Hfit1, Hfit2. cbn [fst snd] in Hfit1, Hfit2. apply Forall_app in Hfit1 as [_ Hfit1].
  rewrite grep_lines_spec by (done || lia). unfold lines. set (rest := (lines_rec [] data).2) in *.
  assert (Hrest : lines rest = ([], rest)) by apply lines_rest.
  destruct (IH (S j) rest (drop (Z.to_nat n) file) (out ++ printed pattern (lines_rec [] data).1)) as (pre & unread & j' & Hf & He & Hg).
  - apply Forall_app. split; [|done]. by apply lines_rest_nonzero.
  - done.
  - unfold lines_fit, lines in *. rewrite lines_rec_app, Hrest. done.
  - rewrite length_drop. lia.
  - exists (take (Z.to_nat n) file ++ pre), unread, j'. split_and!; [by rewrite <- app_assoc, <- Hf, take_drop|done|]. rewrite Hg. do 3 f_equal.
    rewrite app_assoc. fold data. unfold lines in *. rewrite !lines_rec_app. fold rest. rewrite Hrest. cbn [fst snd app].
    unfold printed. by rewrite map_app, concat_app, app_assoc.
Qed.

#[export] Instance matches_dec re text : Decision (matches re text).
Proof. refine (cast_if (decide (matchb re text = true))); by rewrite <- matchb_spec. Defined.

Lemma printed_filter pattern ls :
  printed pattern ls = concat (map (fun line => line ++ [NEWLINE]) (filter (matches pattern) ls)).
Proof.
  unfold printed. induction ls as [|l ls IH]; [done|]. rewrite filter_cons. simpl. rewrite IH.
  case_decide as Hm; rewrite <- matchb_spec in Hm; destruct (matchb pattern l); done.
Qed.

(** ** Properties *)

(** C27: on two C strings in memory, [match] returns, reads nothing beyond
    their ends, and answers 1 exactly if the pattern matches the text: a
    literal character, a dot for any character, a star for repetition of the
    character before it, a final dollar sign for the end of the text and an
    initial caret for its start. *)
Theorem match_equiv re text R T m : cstring m re R -> cstring m text T ->
  exists b, match_ re text m = Done b m /\ (b = true <-> matches R T).
Proof. intros HR HT. exists (matchb R T). split; [by apply match_done|apply matchb_spec]. Qed.

Definition ex_strings : mem := write_bytes ∅ 10 [97; 98; 42; 36; 0; 120; 97; 98; 98; 0].
Lemma match_equiv_witness :
  exists b, match_ 10 15 ex_strings = Done b ex_strings /\ (b = true <-> matches [97; 98; 42; 36] [120; 97; 98; 98]).
Proof.
  apply (match_equiv 10 15 [97; 98; 42; 36] [120; 97; 98; 98] ex_strings).
  - split; [|repeat constructor; lia]. intros i b Hi. do 5 (destruct i as [|i]; [by injection Hi as <-|]). done.
  - split; [|repeat constructor; lia]. intros i b Hi. do 5 (destruct i as [|i]; [by injection Hi as <-|]). done.
Defined.

(** C40: [grep] returns.  It prints the lines that match, in order, of what it has
    read, however the reads cut the file into pieces, and it has read the whole
    file unless a [read] failed.  This is for a file in which no line has 1023
    characters or more and there is no NUL; characters after the last newline are
    not printed. *)
Theorem grep_prints pattern short file : Forall (fun c => c <> 0) file -> lines_fit file ->
  exists pre unread j, file = pre ++ unread /\ (unread = [] \/ short j = None) /\
    grep pattern short file = Some (concat (map (fun line => line ++ [NEWLINE]) (filter (matches pattern) (lines pre).1)), j, unread).
Proof.
  intros Hz Hf. unfold grep. destruct (grep_loop_spec (S (length file)) pattern short 0 [] file [] Hz eq_refl Hf ltac:(lia)) as (pre & unread & j & H1 & H2 & H3).
  exists pre, unread, j. split_and!; [done|done|]. by rewrite H3, printed_filter.
Qed.

(** Reads of three bytes each, the fourth of which fails; and reads that all succeed. *)
Lemma grep_prints_witness : let file := [97; 98; 10; 120; 10; 97; 99; 10; 97; 97; 10; 98] in
  (exists pre unread j, file = pre ++ unread /\ (unread = [] \/ (if decide (j = 3%nat) then None else Some 3) = None) /\
    grep [97; 46] (fun j => if decide (j = 3%nat) then None else Some 3) file =
      Some (concat (map (fun line => line ++ [NEWLINE]) (filter (matches [97; 46]) (lines pre).1)), j, unread)) /\
  grep [97; 46] (fun j => if decide (j = 3%nat) then None else Some 3) file = Some ([97; 98; 10; 97; 99; 10], 3%nat, [97; 10; 98]) /\
  grep [97; 46] (fun _ => Some 3) file = Some ([97; 98; 10; 97; 99; 10; 97; 97; 10], 4%nat, []).
Proof.
  intros file. split; [|split; vm_compute; reflexivity].
  apply (grep_prints [97; 46] (fun j => if decide (j = 3%nat) then None else Some 3) file).
  - repeat constructor; lia.
  - split; [repeat constructor|]; simpl; unfold BUFSIZE; lia.
Defined.

(** A line that fills the buffer ends the search: the lines after it are not
    printed. *)
Lemma grep_long_line_stops :
  grep [98] (fun _ => Some 512) (replicate 1023 97 ++ [10; 98; 10]) = Some ([], 2%nat, [10; 98; 10]).
Proof. vm_compute. reflexivity. Qed.
