(* ===== verification/Bio.v ===== *)
(** * The buffer cache: kernel/bio.c

    Thirty buffers, linked through [prev] and [next] in the order of their last
    use, as the code links them.  A buffer is known by its index; the list head
    [bcache.head] is index [HEAD].  [bcache.lock] is held for the whole of each
    operation on the list and is not represented; the sleeplock of a buffer is
    the bit [b_lock], held by the process whose code runs.

    [virtio_disk_rw] transfers a buffer to or from disk 0.  Every write to the
    disk is also recorded in [bs_writes], in order: a crash leaves the disk
    with some of the first of them. *)

From stdpp Require Import base numbers list gmap strings.
From Stdlib Require Import ZArith Lia.
From S2P Require Import Prelude Blocks Monad.
Open Scope Z_scope.

Definition MAXOPBLOCKS : Z := 10.
Definition NBUF : Z := MAXOPBLOCKS * 3.
Definition HEAD : Z := NBUF.

(** [struct buf] *)
Record buf := mk_buf {
  b_valid : bool;
  b_dev : Z;
  b_blockno : Z;
  b_lock : bool;
  b_refcnt : Z;
  b_prev : Z;
  b_next : Z;
  b_data : block;
}.
Definition set_prev (p : Z) (b : buf) : buf :=
  mk_buf (b_valid b) (b_dev b) (b_blockno b) (b_lock b) (b_refcnt b) p (b_next b) (b_data b).
Definition set_next (n : Z) (b : buf) : buf :=
  mk_buf (b_valid b) (b_dev b) (b_blockno b) (b_lock b) (b_refcnt b) (b_prev b) n (b_data b).
Definition set_lock (l : bool) (b : buf) : buf :=
  mk_buf (b_valid b) (b_dev b) (b_blockno b) l (b_refcnt b) (b_prev b) (b_next b) (b_data b).
Definition set_refcnt (r : Z) (b : buf) : buf :=
  mk_buf (b_valid b) (b_dev b) (b_blockno b) (b_lock b) r (b_prev b) (b_next b) (b_data b).
Definition set_bdata (v : bool) (d : block) (b : buf) : buf :=
  mk_buf v (b_dev b) (b_blockno b) (b_lock b) (b_refcnt b) (b_prev b) (b_next b) d.
(** [b->dev = dev; b->blockno = blockno; b->valid = 0; b->refcnt = 1] *)
Definition set_block (dev blockno : Z) (b : buf) : buf :=
  mk_buf false dev blockno (b_lock b) 1 (b_prev b) (b_next b) (b_data b).

Record bst := mk_bst {
  bs_buf : gmap Z buf;
  bs_disk : gmap Z block;
  bs_writes : list (Z * block);
}.
Abbreviation B := (M bst).

Definition get_buf (b : Z) : B buf := let! m := gets bs_buf in deref (m !! b).
Definition upd_buf (b : Z) (f : buf -> buf) : B unit :=
  let! x := get_buf b in modify (fun s => mk_bst (<[b := f x]> (bs_buf s)) (bs_disk s) (bs_writes s)).

(** The contents of a block of the disk, zeroes where nothing was written. *)
Definition dblock (d : gmap Z block) (n : Z) : block := default zblk (d !! n).

Definition virtio_disk_rw (b : Z) (write : bool) : B unit :=
  let! x := get_buf b in
  if write then
    modify (fun s => mk_bst (bs_buf s) (<[b_blockno x := b_data x]> (bs_disk s))
      (bs_writes s ++ [(b_blockno x, b_data x)]))
  else
    let! d := gets bs_disk in
    upd_buf b (set_bdata (b_valid x) (dblock d (b_blockno x))).

(** [b->next = bcache.head.next; b->prev = &bcache.head;
    bcache.head.next->prev = b; bcache.head.next = b] *)
Definition push_front (b : Z) : B unit :=
  let! h := get_buf HEAD in
  upd_buf b (set_next (b_next h));;
  upd_buf b (set_prev HEAD);;
  let! h := get_buf HEAD in
  upd_buf (b_next h) (set_prev b);;
  upd_buf HEAD (set_next b).

(** The lock of each buffer is set up before it is linked; in the source it is
    set up between the assignments, none of which reads it. *)
Definition binit : B unit :=
  upd_buf HEAD (set_prev HEAD);;
  upd_buf HEAD (set_next HEAD);;
  forM (range 0 NBUF) (fun b =>
    upd_buf b (set_lock false);;
    push_front b).

(** [acquiresleep], [holdingsleep] and [releasesleep] of a buffer's lock *)
Definition lock_buf (b : Z) : B unit :=
  let! x := get_buf b in
  if b_lock x then blocked else upd_buf b (set_lock true).

(** The first loop of [bget], from [b] along [next]. *)
Fixpoint find_cached (fuel : nat) (b dev blockno : Z) : B (option Z) :=
  match fuel with
  | O => blocked
  | S fuel =>
    if b =? HEAD then ret None
    else
      let! x := get_buf b in
      if (b_dev x =? dev) && (b_blockno x =? blockno) then ret (Some b)
      else find_cached fuel (b_next x) dev blockno
  end.
(** The second loop, from [b] along [prev]. *)
Fixpoint find_unused (fuel : nat) (b : Z) : B (option Z) :=
  match fuel with
  | O => blocked
  | S fuel =>
    if b =? HEAD then ret None
    else
      let! x := get_buf b in
      if b_refcnt x =? 0 then ret (Some b) else find_unused fuel (b_prev x)
  end.

(** Enough rounds to go around the list. *)
Definition all_buffers : nat := S (Z.to_nat NBUF).

Definition bget (dev blockno : Z) : B Z :=
  let! h := get_buf HEAD in
  let! c := find_cached all_buffers (b_next h) dev blockno in
  match c with
  | Some b =>
    let! x := get_buf b in
    upd_buf b (set_refcnt (u32 (b_refcnt x + 1)));;
    lock_buf b;;
    ret b
  | None =>
    let! h := get_buf HEAD in
    let! c := find_unused all_buffers (b_prev h) in
    match c with
    | Some b =>
      upd_buf b (set_block dev blockno);;
      lock_buf b;;
      ret b
    | None => panic "bget: no buffers"
    end
  end.

Definition bread (dev blockno : Z) : B Z :=
  let! b := bget dev blockno in
  let! x := get_buf b in
  (if negb (b_valid x) then
     virtio_disk_rw b false;;
     upd_buf b (fun x => set_bdata true (b_data x) x)
   else ret tt);;
  ret b.

Definition bwrite (b : Z) : B unit :=
  let! x := get_buf b in
  if negb (b_lock x) then panic "bwrite" else virtio_disk_rw b true.

(** [b->next->prev = b->prev; b->prev->next = b->next] *)
Definition unlink (b : Z) : B unit :=
  let! x := get_buf b in
  upd_buf (b_next x) (set_prev (b_prev x));;
  let! x := get_buf b in
  upd_buf (b_prev x) (set_next (b_next x)).

Definition brelse (b : Z) : B unit :=
  let! x := get_buf b in
  if negb (b_lock x) then panic "brelse"
  else
    upd_buf b (set_lock false);;
    let! x := get_buf b in
    upd_buf b (set_refcnt (u32 (b_refcnt x - 1)));;
    let! x := get_buf b in
    if b_refcnt x =? 0 then
      unlink b;;
      push_front b
    else ret tt.

Definition bpin (b : Z) : B unit :=
  let! x := get_buf b in upd_buf b (set_refcnt (u32 (b_refcnt x + 1))).
Definition bunpin (b : Z) : B unit :=
  let! x := get_buf b in upd_buf b (set_refcnt (u32 (b_refcnt x - 1))).

(** The zero-initialised [bcache] over a disk. *)
Definition zero_buf : buf := mk_buf false 0 0 false 0 0 0 zblk.
Definition boot_bst (d : gmap Z block) : bst :=
  mk_bst (list_to_map (map (fun b => (b, zero_buf)) (range 0 (NBUF + 1)))) d [].
