(* ===== verification/BioCache.v ===== *)
(** * The list of buffers

    The buffers that [prev] and [next] link form a list in the order of last
    use.  [chain] relates the pointers to the list; the pointer manipulations
    of bio.c are shown to be what they should be on the list: walking it in
    both directions, unlinking and inserting at the front.  The
    second part is the class [BufferCache], which the linked buffers implement. *)

From stdpp Require Import base numbers list gmap strings.
From Stdlib Require Import ZArith Lia.
From S2P Require Import Prelude Blocks Monad Bio.
Open Scope Z_scope.

(** ** Chains of pointers *)

(** From [x] along [nx] through [l] to [e], and back along [pv]. *)
Fixpoint chain (nx pv : Z -> Z) (x : Z) (l : list Z) (e : Z) : Prop :=
  match l with
  | [] => nx x = e /\ pv e = x
  | y :: l => nx x = y /\ pv y = x /\ chain nx pv y l e
  end.

Lemma chain_app nx pv x l1 y l2 e : chain nx pv x (l1 ++ y :: l2) e <-> chain nx pv x l1 y /\ chain nx pv y l2 e.
Proof. revert x. induction l1 as [|z l1 IH]; intros x; simpl; [tauto|]. rewrite IH. tauto. Qed.

Lemma chain_ext nx pv nx' pv' x l e : (forall z, z = x \/ z ∈ l -> nx' z = nx z) ->
  (forall z, z ∈ l \/ z = e -> pv' z = pv z) -> chain nx pv x l e -> chain nx' pv' x l e.
Proof.
  revert x. induction l as [|y l IH]; intros x Hn Hp; simpl.
  - intros [H1 H2]. rewrite Hn, Hp by auto. done.
  - intros (H1 & H2 & H3). rewrite Hn, Hp by set_solver. split_and!; [done|done|].
    apply IH; [| |done]; intros z Hz; [apply Hn|apply Hp]; set_solver.
Qed.

(** Assignment to one pointer. *)
Definition fupd (f : Z -> Z) (a v : Z) : Z -> Z := fun x => if decide (x = a) then v else f x.
Lemma fupd_eq f a v : fupd f a v a = v.
Proof. unfold fupd. by rewrite decide_True. Qed.
Lemma fupd_ne f a v x : x <> a -> fupd f a v x = f x.
Proof. intros Hx. unfold fupd. by rewrite decide_False. Qed.

Lemma chain_unlink nx pv x b l1 l2 e : NoDup (l1 ++ b :: l2) ->
  (forall z, z ∈ l1 ++ b :: l2 -> z <> x /\ z <> e) ->
  chain nx pv x (l1 ++ b :: l2) e -> chain (fupd nx (pv b) (nx b)) (fupd pv (nx b) (pv b)) x (l1 ++ l2) e.
Proof.
  revert x. induction l1 as [|z l1 IH]; intros x Hnd Hne; simpl.
  - intros (H1 & -> & Hc). simpl in Hnd. apply NoDup_cons in Hnd as [Hb Hnd]. destruct l2 as [|y l2]; simpl in Hc |- *.
    + destruct Hc as [-> _]. by rewrite !fupd_eq.
    + destruct Hc as (-> & _ & Hc). rewrite !fupd_eq. split_and!; [done|done|].
      eapply chain_ext; [| |exact Hc]; intros w Hw; apply fupd_ne; apply NoDup_cons in Hnd as [Hy _].
      * destruct Hw as [-> |Hw]; apply Hne; set_solver.
      * destruct Hw as [Hw| ->]; [set_solver|]. apply not_eq_sym, (Hne y). set_solver.
  - intros (H1 & H2 & Hc). simpl in Hnd. apply NoDup_cons in Hnd as [Hz Hnd].
    apply chain_app in Hc as [Hc1 Hc2].
    assert (Hp : pv b <> x).
    { destruct (exists_last (l := z :: l1) ltac:(done)) as (l' & p & Hl).
      assert (pv b = p /\ p ∈ z :: l1) as [-> Hpl].
      { clear -Hc1 Hl H1. rewrite Hl. split; [|set_solver]. destruct l' as [|? l']; simpl in Hl.
        - injection Hl as -> ->. simpl in Hc1. apply Hc1.
        - injection Hl as -> ->. apply chain_app in Hc1 as [_ Hc1]. apply Hc1. }
      apply (Hne p). set_solver. }
    assert (Hn : nx b <> z).
    { destruct l2 as [|y l2]; simpl in Hc2; destruct Hc2 as [-> _]; [apply not_eq_sym, (Hne z)|]; set_solver. }
    rewrite fupd_ne, fupd_ne by done. split_and!; [done|done|].
    apply IH; [done| |by apply chain_app]. intros w Hw. split; [|apply Hne; set_solver]. set_solver.
Qed.

Lemma chain_push nx pv b l e : NoDup l -> b ∉ l -> b <> e -> e ∉ l -> chain nx pv e l e ->
  chain (fupd (fupd nx b (nx e)) e b) (fupd (fupd pv b e) (nx e) b) e (b :: l) e.
Proof.
  intros Hnd Hb Hbe He Hc. simpl. rewrite fupd_eq.
  assert (Hfirst : nx e <> b /\ (nx e = e -> l = [])).
  { destruct l as [|y l]; simpl in Hc; destruct Hc as [-> _]; [done|]. split; [set_solver|]. intros ->. set_solver. }
  destruct Hfirst as [Hf1 Hf2]. rewrite (fupd_ne _ (nx e)), fupd_eq by done. split_and!; [done|done|].
  destruct l as [|y l]; simpl in Hc |- *.
  - destruct Hc as [H1 H2]. rewrite H1. rewrite fupd_ne, !fupd_eq by done. done.
  - destruct Hc as (H1 & H2 & Hc). rewrite H1 in *. rewrite fupd_ne, !fupd_eq by done. split_and!; [done|done|].
    apply NoDup_cons in Hnd as [Hy Hnd].
    eapply chain_ext; [| |exact Hc]; intros w Hw.
    + rewrite !fupd_ne; [done|set_solver|set_solver].
    + rewrite !fupd_ne; [done|set_solver|]. destruct Hw as [Hw| ->]; [set_solver|]. set_solver.
Qed.

(** ** Buffers in the state *)

Definition bufm (m : gmap Z buf) (b : Z) : buf := default zero_buf (m !! b).
Definition nx (m : gmap Z buf) (b : Z) : Z := b_next (bufm m b).
Definition pv (m : gmap Z buf) (b : Z) : Z := b_prev (bufm m b).

(** All buffers and the head are there. *)
Definition present (m : gmap Z buf) : Prop := forall b, 0 <= b <= NBUF -> is_Some (m !! b).

Lemma bufm_insert m b x c : bufm (<[b := x]> m) c = if decide (c = b) then x else bufm m c.
Proof. unfold bufm. rewrite lookup_insert. destruct (decide (b = c)), (decide (c = b)); congruence || done. Qed.
Lemma present_insert m b x : present m -> present (<[b := x]> m).
Proof. intros Hp c Hc. rewrite lookup_insert_is_Some. destruct (decide (b = c)); auto. Qed.

Definition with_bufs (m : gmap Z buf) (s : bst) : bst := mk_bst m (bs_disk s) (bs_writes s).
Lemma with_bufs_id s : with_bufs (bs_buf s) s = s.
Proof. by destruct s. Qed.

Lemma wp_get b (Q : buf -> bst -> Prop) s : present (bs_buf s) -> 0 <= b <= NBUF ->
  Q (bufm (bs_buf s) b) s -> wp (get_buf b) Q s.
Proof.
  intros Hp Hb HQ. unfold get_buf. wp_steps. destruct (Hp b Hb) as [x Hx]. unfold bufm in HQ. rewrite Hx in HQ |- *.
  by wp_steps.
Qed.
Lemma wp_upd b f (Q : unit -> bst -> Prop) s : present (bs_buf s) -> 0 <= b <= NBUF ->
  Q tt (with_bufs (<[b := f (bufm (bs_buf s) b)]> (bs_buf s)) s) -> wp (upd_buf b f) Q s.
Proof. intros Hp Hb HQ. unfold upd_buf. apply wp_bind, wp_get; [done|done|]. by wp_steps. Qed.

(** The fields other than the pointers. *)
Definition same_info (x y : buf) : Prop :=
  b_valid y = b_valid x /\ b_dev y = b_dev x /\ b_blockno y = b_blockno x /\ b_lock y = b_lock x /\
  b_refcnt y = b_refcnt x /\ b_data y = b_data x.
#[export] Instance same_info_preorder : PreOrder same_info.
Proof. unfold same_info. split; [by intros x|]. intros x y z; naive_solver congruence. Qed.

Record linked (m : gmap Z buf) (l : list Z) : Prop := {
  lk_present : present m;
  lk_nodup : NoDup l;
  lk_range : forall b, b ∈ l -> 0 <= b < NBUF;
  lk_chain : chain (nx m) (pv m) HEAD l HEAD;
}.

Lemma linked_fields m b f l : linked m l -> (forall x, b_next (f x) = b_next x /\ b_prev (f x) = b_prev x) ->
  linked (<[b := f (bufm m b)]> m) l.
Proof.
  intros [Hp Hnd Hr Hc] Hf. constructor; [by apply present_insert|done|done|].
  eapply chain_ext; [| |exact Hc]; intros z _; unfold nx, pv; rewrite bufm_insert; case_decide; subst; by rewrite ?(proj1 (Hf _)), ?(proj2 (Hf _)).
Qed.

Lemma pointer_bounds m l b : linked m l -> b = HEAD \/ b ∈ l -> 0 <= nx m b <= NBUF /\ 0 <= pv m b <= NBUF.
Proof.
  intros [Hp Hnd Hr Hc] Hb. assert (Hall : forall z, z = HEAD \/ z ∈ l -> 0 <= z <= NBUF).
  { intros z [-> |Hz]; [done|]. specialize (Hr z Hz). lia. }
  assert (Hgen : forall x l0, chain (nx m) (pv m) x l0 HEAD -> (forall z, z = x \/ z ∈ l0 -> z = HEAD \/ z ∈ l) ->
    forall z, (z = x \/ z ∈ l0 -> 0 <= nx m z <= NBUF) /\ (z ∈ l0 \/ z = HEAD -> 0 <= pv m z <= NBUF)).
  { intros x l0. revert x. induction l0 as [|y l0 IH]; intros x; simpl.
    - intros [H1 H2] Hin z. split; intros [Hz|Hz]; set_solver.
    - intros (H1 & H2 & H3) Hin z. destruct (IH y H3 ltac:(set_solver) z) as [I1 I2]. split.
      + intros [-> |Hz]; [rewrite H1; apply Hall, Hin; set_solver|]. apply I1. set_solver.
      + intros [Hz|Hz]; [|apply I2; auto]. apply elem_of_cons in Hz as [-> |Hz]; [|apply I2; auto].
        rewrite H2. apply Hall, Hin. auto. }
  destruct (Hgen HEAD l Hc ltac:(done) b) as [I1 I2]. split; [by apply I1|apply I2; tauto].
Qed.

(** Solves equations between fields of buffers in updated maps. *)
Ltac bufs := unfold nx, pv, fupd in *; rewrite ?bufm_insert in *; repeat case_decide; subst; simpl in *; try done; try congruence;
  try (match goal with E : _ = b_next _ |- _ => by rewrite <- E | E : _ = b_prev _ |- _ => by rewrite <- E end).

Lemma push_front_spec b l (Q : unit -> bst -> Prop) s : linked (bs_buf s) l -> 0 <= b < NBUF -> b ∉ l ->
  (forall m, linked m (b :: l) -> (forall c, same_info (bufm (bs_buf s) c) (bufm m c)) -> Q tt (with_bufs m s)) ->
  wp (push_front b) Q s.
Proof.
  intros Hl Hb Hin HQ. pose proof (lk_present _ _ Hl) as Hp. assert (Hbh : b <> HEAD) by (unfold HEAD; lia).
  destruct (pointer_bounds _ _ HEAD Hl (or_introl eq_refl)) as [Hn _].
  assert (HH : 0 <= HEAD <= NBUF) by done. unfold push_front. set (m := bs_buf s) in *.
  apply wp_bind, wp_get; [done|done|]. apply wp_bind, wp_upd; [done|lia|].
  apply wp_bind, wp_upd; [by apply present_insert|lia|]. cbn [with_bufs bs_buf bs_disk bs_writes].
  apply wp_bind, wp_get; [by do 2 apply present_insert|done|]. cbn [with_bufs bs_buf bs_disk bs_writes]. fold m.
  set (m2 := <[b := _]> (<[b := _]> m)). assert (Hm2 : b_next (bufm m2 HEAD) = nx m HEAD) by (unfold m2; bufs).
  rewrite Hm2. assert (Hp2 : present m2) by (unfold m2; by do 2 apply present_insert).
  apply wp_bind, wp_upd; [done|done|]. apply wp_upd; [by apply present_insert|done|]. cbn [with_bufs bs_buf bs_disk bs_writes].
  apply HQ.
  - constructor; [by do 2 apply present_insert|by apply NoDup_cons; split; [|apply Hl]| |].
    { intros c [-> |Hc]%elem_of_cons; [done|by apply (lk_range _ _ Hl)]. }
    eapply chain_ext; [| |apply (chain_push (nx m) (pv m) b l HEAD)].
    + intros z _. unfold m2. fold m. bufs.
    + intros z _. unfold m2. fold m. bufs.
    + apply Hl.
    + done.
    + done.
    + intros Hh%(lk_range _ _ Hl). unfold HEAD in Hh. lia.
    + apply Hl.
  - intros c. unfold m2. fold m. bufs.
Qed.

Lemma unlink_spec b l1 l2 (Q : unit -> bst -> Prop) s : linked (bs_buf s) (l1 ++ b :: l2) ->
  (forall m, linked m (l1 ++ l2) -> (forall c, same_info (bufm (bs_buf s) c) (bufm m c)) -> Q tt (with_bufs m s)) ->
  wp (unlink b) Q s.
Proof.
  intros Hl HQ. pose proof (lk_present _ _ Hl) as Hp.
  assert (Hin : b ∈ l1 ++ b :: l2) by set_solver. pose proof (lk_range _ _ Hl b Hin) as Hb.
  destruct (pointer_bounds _ _ b Hl (or_intror Hin)) as [Hn Hpv]. set (m := bs_buf s) in *.
  unfold unlink. apply wp_bind, wp_get; [done|lia|]. apply wp_bind, wp_upd; [done|done|]. cbn [with_bufs bs_buf bs_disk bs_writes].
  apply wp_bind, wp_get; [by apply present_insert|lia|]. fold m. cbn [with_bufs bs_buf bs_disk bs_writes].
  set (m1 := <[b_next (bufm m b) := _]> m). assert (Hp1 : present m1) by (by apply present_insert).
  assert (Hnn : b_next (bufm m1 b) = nx m b) by (unfold m1; bufs).
  assert (Hloop : nx m b <> b).
  { pose proof (lk_nodup _ _ Hl) as Hnd. pose proof (lk_chain _ _ Hl) as Hc. apply chain_app in Hc as [_ Hc].
    apply NoDup_app in Hnd as (_ & _ & Hnd). apply NoDup_cons in Hnd as [Hnb _].
    destruct l2 as [|y l2]; simpl in Hc; destruct Hc as [-> _]; [unfold HEAD; lia|]. set_solver. }
  assert (Hpp : b_prev (bufm m1 b) = pv m b) by (unfold m1; bufs).
  rewrite Hnn, Hpp. apply wp_upd; [done|done|]. cbn [with_bufs bs_buf bs_disk bs_writes]. apply HQ.
  - destruct Hl as [_ Hnd Hr Hc]. constructor; [by apply present_insert| | |].
    + apply NoDup_app in Hnd as (N1 & N2 & [_ N3]%NoDup_cons). apply NoDup_app. split_and!; [done|set_solver|done].
    + intros c Hc'. apply Hr. set_solver.
    + eapply chain_ext; [| |apply (chain_unlink (nx m) (pv m) HEAD b l1 l2 HEAD); [done| |done]].
      * intros z _. unfold m1. bufs.
      * intros z _. unfold m1. bufs.
      * intros z Hz. specialize (Hr z Hz). unfold HEAD. lia.
  - intros c. unfold m1. bufs.
Qed.

(** ** The loops of [bget] *)

(** The first buffer of [l] that holds the block, and the last unused one. *)
Definition holds (m : gmap Z buf) (dev n b : Z) : bool := (b_dev (bufm m b) =? dev) && (b_blockno (bufm m b) =? n).
Definition cached (m : gmap Z buf) (dev n : Z) (l : list Z) : option Z := find (holds m dev n) l.
Definition unused (m : gmap Z buf) (b : Z) : bool := b_refcnt (bufm m b) =? 0.
Definition recyclable (m : gmap Z buf) (l : list Z) : option Z := find (unused m) (reverse l).

Lemma find_cached_spec fuel x l dev n (Q : option Z -> bst -> Prop) s : present (bs_buf s) ->
  (forall b, b ∈ l -> 0 <= b < NBUF) -> chain (nx (bs_buf s)) (pv (bs_buf s)) x l HEAD -> (length l < fuel)%nat ->
  Q (cached (bs_buf s) dev n l) s -> wp (find_cached fuel (nx (bs_buf s) x) dev n) Q s.
Proof.
  revert x l. induction fuel as [|fuel IH]; intros x l Hp Hr Hc Hf HQ; [lia|]. cbn [find_cached].
  destruct l as [|y l]; simpl in Hc.
  - destruct Hc as [-> _]. rewrite Z.eqb_refl. by wp_steps.
  - destruct Hc as (-> & _ & Hc). pose proof (Hr y ltac:(set_solver)).
    destruct (Z.eqb_spec y HEAD) as [E|_]; [unfold HEAD in E; lia|].
    apply wp_bind, wp_get; [done|lia|]. unfold cached in HQ. simpl in HQ. unfold holds at 1 in HQ.
    destruct ((b_dev (bufm (bs_buf s) y) =? dev) && (b_blockno (bufm (bs_buf s) y) =? n)); [by wp_steps|].
    apply (IH y l); [done|set_solver|done|simpl in Hf; lia|done].
Qed.

Lemma find_unused_spec fuel l e (Q : option Z -> bst -> Prop) s : present (bs_buf s) ->
  (forall b, b ∈ l -> 0 <= b < NBUF) -> chain (nx (bs_buf s)) (pv (bs_buf s)) HEAD l e -> (length l < fuel)%nat ->
  Q (recyclable (bs_buf s) l) s -> wp (find_unused fuel (pv (bs_buf s) e)) Q s.
Proof.
  revert l e. induction fuel as [|fuel IH]; intros l e Hp Hr Hc Hf HQ; [lia|]. cbn [find_unused].
  destruct l as [|y l _] using rev_ind; simpl in Hc.
  - destruct Hc as [_ ->]. rewrite Z.eqb_refl. by wp_steps.
  - apply chain_app in Hc as [Hc [_ ->]]. pose proof (Hr y ltac:(set_solver)).
    destruct (Z.eqb_spec y HEAD) as [E|_]; [unfold HEAD in E; lia|].
    apply wp_bind, wp_get; [done|lia|]. unfold recyclable in HQ. rewrite reverse_app in HQ. simpl in HQ. unfold unused at 1 in HQ.
    destruct (b_refcnt (bufm (bs_buf s) y) =? 0); [by wp_steps|].
    apply (IH l y); [done|set_solver|done|rewrite length_app in Hf; simpl in Hf; lia|done].
Qed.

(** * The buffer cache as an interface

    What bio.c promises to its clients (log.c): [bread] gives the current
    contents of a block, locked for the caller; changes to it are seen by every
    later [bread] and reach the disk with [bwrite]; a buffer with references is
    not recycled.  [BufferCache] names the operations and the observable state,
    [BufferCacheOK] the laws; the linked buffers of Bio.v satisfy them. *)

(** Blocks by number. *)
Abbreviation blocks := (Z -> block).
Definition bupd (V : blocks) (n : Z) (x : block) : blocks := fun k => if decide (k = n) then x else V k.
Lemma bupd_eq V n x : bupd V n x n = x.
Proof. unfold bupd. by rewrite decide_True. Qed.
Lemma bupd_ne V n x k : k <> n -> bupd V n x k = V k.
Proof. intros Hk. unfold bupd. by rewrite decide_False. Qed.

(** What a client can observe: the contents of the blocks [cv_view], of the
    disk [cv_disk], the references to each block, the buffer locked for each
    block, and the writes to the disk so far. *)
Record cview := mk_cview {
  cv_view : blocks;
  cv_disk : blocks;
  cv_refs : gmap Z Z;
  cv_held : gmap Z Z;
  cv_writes : list (Z * block);
}.

(** A cache that nobody uses. *)
Definition fresh (D : blocks) (W : list (Z * block)) : cview := mk_cview D D ∅ ∅ W.

Class BufferCache (C : Type) := {
  c_bread : Z -> M C Z;
  c_bwrite : Z -> M C unit;
  c_brelse : Z -> M C unit;
  c_bpin : Z -> M C unit;
  c_bunpin : Z -> M C unit;
  c_blockno : Z -> M C Z;               (* b->blockno *)
  c_data : Z -> M C block;              (* b->data *)
  c_set_data : Z -> block -> M C unit;  (* a copy into b->data *)
  c_shows : C -> cview -> Prop;
}.

(** One more or one fewer reference. *)
Definition ref (R : gmap Z Z) (n : Z) : gmap Z Z := <[n := default 0 (R !! n) + 1]> R.
Definition unref (R : gmap Z Z) (n : Z) : gmap Z Z :=
  let r := default 0 (R !! n) - 1 in if decide (r = 0) then delete n R else <[n := r]> R.

(** A buffer for block [n] can be had. *)
Definition can_get (v : cview) (n : Z) : Prop :=
  cv_held v !! n = None /\ (is_Some (cv_refs v !! n) \/ Z.of_nat (size (cv_refs v)) < NBUF).
Definition few_refs (v : cview) : Prop := forall n r, cv_refs v !! n = Some r -> r < 2 ^ 31.

Class BufferCacheOK C {BC : BufferCache C} : Prop := {
  bread_ok n v (s : C) : c_shows s v -> can_get v n -> few_refs v ->
    wp (c_bread n) (fun b s' => c_shows s' (mk_cview (cv_view v) (cv_disk v) (ref (cv_refs v) n)
      (<[n := b]> (cv_held v)) (cv_writes v))) s;
  blockno_ok n b v (s : C) : c_shows s v -> cv_held v !! n = Some b ->
    wp (c_blockno b) (fun k s' => k = n /\ s' = s) s;
  data_ok n b v (s : C) : c_shows s v -> cv_held v !! n = Some b ->
    wp (c_data b) (fun x s' => x = cv_view v n /\ s' = s) s;
  set_data_ok n b x v (s : C) : c_shows s v -> cv_held v !! n = Some b ->
    wp (c_set_data b x) (fun _ s' => c_shows s' (mk_cview (bupd (cv_view v) n x) (cv_disk v) (cv_refs v)
      (cv_held v) (cv_writes v))) s;
  bwrite_ok n b v (s : C) : c_shows s v -> cv_held v !! n = Some b ->
    wp (c_bwrite b) (fun _ s' => c_shows s' (mk_cview (cv_view v) (bupd (cv_disk v) n (cv_view v n)) (cv_refs v)
      (cv_held v) (cv_writes v ++ [(n, cv_view v n)]))) s;
  brelse_ok n b v (s : C) : c_shows s v -> cv_held v !! n = Some b ->
    (cv_refs v !! n = Some 1 -> cv_view v n = cv_disk v n) ->
    wp (c_brelse b) (fun _ s' => c_shows s' (mk_cview (cv_view v) (cv_disk v) (unref (cv_refs v) n)
      (delete n (cv_held v)) (cv_writes v))) s;
  bpin_ok n b v (s : C) : c_shows s v -> cv_held v !! n = Some b -> few_refs v ->
    wp (c_bpin b) (fun _ s' => c_shows s' (mk_cview (cv_view v) (cv_disk v) (ref (cv_refs v) n)
      (cv_held v) (cv_writes v))) s;
  bunpin_ok n b r v (s : C) : c_shows s v -> cv_held v !! n = Some b -> cv_refs v !! n = Some r -> 1 < r ->
    wp (c_bunpin b) (fun _ s' => c_shows s' (mk_cview (cv_view v) (cv_disk v) (unref (cv_refs v) n)
      (cv_held v) (cv_writes v))) s;
  shows_ext (s : C) v V D : c_shows s v -> (forall n, V n = cv_view v n) -> (forall n, D n = cv_disk v n) ->
    c_shows s (mk_cview V D (cv_refs v) (cv_held v) (cv_writes v));
  shows_fun (s : C) v v' : c_shows s v -> c_shows s v' ->
    cv_writes v = cv_writes v' /\ forall n, cv_disk v n = cv_disk v' n;
}.

(** ** The linked buffers provide a cache *)

Definition ROOTDEV : Z := 1.

(** Buffer [b] is assigned to block [n] of the root device. *)
Definition mine (m : gmap Z buf) (b n : Z) : Prop :=
  0 <= b < NBUF /\ b_dev (bufm m b) = ROOTDEV /\ b_blockno (bufm m b) = n.

(** A single buffer: references and lock, and its data in the view or, if
    nobody refers to it, as on the disk. *)
Record buf_ok (V D : blocks) (x : buf) : Prop := {
  bo_refs : 0 <= b_refcnt x < 2 ^ 32;
  bo_lock : b_lock x = true -> 0 < b_refcnt x;
  bo_used : 0 < b_refcnt x -> b_valid x = true /\ b_dev x = ROOTDEV /\ V (b_blockno x) = b_data x;
  bo_clean : b_refcnt x = 0 -> b_valid x = true -> b_dev x = ROOTDEV -> b_data x = D (b_blockno x);
}.

Record bio_shows (s : bst) (v : cview) : Prop := {
  sh_list : exists l, linked (bs_buf s) l /\ l ≡ₚ range 0 NBUF;
  sh_uniq : forall b c n, mine (bs_buf s) b n -> mine (bs_buf s) c n -> b = c;
  sh_refs : forall n r, cv_refs v !! n = Some r <->
    exists b, mine (bs_buf s) b n /\ b_refcnt (bufm (bs_buf s) b) = r /\ 0 < r;
  sh_held : forall n b, cv_held v !! n = Some b <-> mine (bs_buf s) b n /\ b_lock (bufm (bs_buf s) b) = true;
  sh_bufs : forall b, 0 <= b < NBUF -> buf_ok (cv_view v) (cv_disk v) (bufm (bs_buf s) b);
  sh_disk : forall n, cv_disk v n = dblock (bs_disk s) n;
  sh_clean : forall n, cv_refs v !! n = None -> cv_view v n = cv_disk v n;
  sh_writes : cv_writes v = bs_writes s;
}.

Lemma mine_same m m' b n : same_info (bufm m b) (bufm m' b) -> mine m' b n <-> mine m b n.
Proof. intros (_ & Hd & Hn & _). unfold mine. by rewrite Hd, Hn. Qed.

(** What happens when one buffer [b] changes to hold block [n]: if it already
    did, or if it was unused and no other buffer has the block. *)
Section change.
Variables (s s' : bst) (v v' : cview) (b n : Z).
Let m := bs_buf s.
Let m' := bs_buf s'.
Hypothesis Hs : bio_shows s v.
Hypothesis Hlist : exists l, linked m' l /\ l ≡ₚ range 0 NBUF.
Hypothesis Hothers : forall c, c <> b -> same_info (bufm m c) (bufm m' c).
Hypothesis Hb : mine m' b n.
Hypothesis Hold : mine m b n \/ (b_refcnt (bufm m b) = 0 /\ forall c, ~ mine m c n).
Hypothesis Hok : buf_ok (cv_view v') (cv_disk v') (bufm m' b).
Hypothesis Hview : forall k, k <> n -> cv_view v' k = cv_view v k.
Hypothesis Hdisk : forall k, k <> n -> cv_disk v' k = cv_disk v k.
Hypothesis Hdsk : forall k, cv_disk v' k = dblock (bs_disk s') k.
Hypothesis Hcl : b_refcnt (bufm m' b) = 0 -> cv_view v' n = cv_disk v' n.
Hypothesis Hwr : cv_writes v' = bs_writes s'.
Hypothesis Hrefs : cv_refs v' = if decide (b_refcnt (bufm m' b) = 0) then delete n (cv_refs v)
  else <[n := b_refcnt (bufm m' b)]> (cv_refs v).
Hypothesis Hheld : cv_held v' = if b_lock (bufm m' b) then <[n := b]> (cv_held v) else delete n (cv_held v).

Lemma change_old c : mine m c n -> c = b.
Proof.
  intros Hc. destruct Hold as [Hb'|[_ Hnone]]; [|by destruct (Hnone c)]. by apply (sh_uniq _ _ Hs c b n).
Qed.
Lemma change_mine c k : mine m' c k -> (c = b /\ k = n) \/ (c <> b /\ k <> n /\ mine m c k).
Proof.
  intros Hc. destruct (decide (c = b)) as [->|Hne].
  - left. split; [done|]. destruct Hc as (_ & _ & <-), Hb as (_ & _ & <-). done.
  - right. apply (mine_same m) in Hc; [|by apply Hothers]. split_and!; [done| |done].
    intros ->. by apply Hne, change_old.
Qed.
Lemma change_other c k : k <> n -> mine m c k -> b_refcnt (bufm m c) <> 0 -> c <> b.
Proof.
  intros Hk Hc Hr ->. destruct Hold as [Hb'|[Hz _]]; [|done].
  apply Hk. destruct Hc as (_ & _ & <-), Hb' as (_ & _ & <-). done.
Qed.
Lemma change_keep c k : k <> n -> c <> b -> mine m c k -> mine m' c k.
Proof. intros Hk Hc Hm. by apply (mine_same m); [apply Hothers|]. Qed.
Lemma change_refs k r : cv_refs v' !! k = Some r <->
  exists c, mine m' c k /\ b_refcnt (bufm m' c) = r /\ 0 < r.
Proof.
  rewrite Hrefs. pose proof (bo_refs _ _ _ Hok) as Hr0. destruct (decide (k = n)) as [->|Hk].
  - split.
    + intros Hx. exists b. split; [done|]. case_decide as Hz; [by rewrite lookup_delete_eq in Hx|].
      rewrite lookup_insert_eq in Hx. injection Hx as <-. split; [done|lia].
    + intros (c & Hc & <- & Hpos). destruct (change_mine c n Hc) as [[-> _]|(_ & ? & _)]; [|done].
      rewrite decide_False by lia. apply lookup_insert_eq.
  - assert (Hl : (if decide (b_refcnt (bufm m' b) = 0) then delete n (cv_refs v)
      else <[n := b_refcnt (bufm m' b)]> (cv_refs v)) !! k = cv_refs v !! k).
    { case_decide; [by rewrite lookup_delete_ne|by rewrite lookup_insert_ne]. }
    rewrite Hl, (sh_refs _ _ Hs k r). fold m. split; intros (c & Hc & <- & Hpos).
    + pose proof (change_other c k Hk Hc ltac:(lia)) as Hne. exists c.
      destruct (Hothers c Hne) as (_ & _ & _ & _ & -> & _). split; [by apply change_keep|done].
    + destruct (change_mine c k Hc) as [[_ ?]|(Hne & _ & Hm)]; [done|]. exists c.
      destruct (Hothers c Hne) as (_ & _ & _ & _ & E & _). rewrite E in *. done.
Qed.

Lemma shows_change : bio_shows s' v'.
Proof.
  constructor; try done.
  - intros c d k Hc Hd. destruct (change_mine c k Hc) as [[Ec Ek]|(Hc1 & Hk & Hc2)],
      (change_mine d k Hd) as [[Ed Ek']|(Hd1 & Hk' & Hd2)]; try congruence. by apply (sh_uniq _ _ Hs c d k).
  - apply change_refs.
  - intros k c. rewrite Hheld. fold m'. destruct (decide (k = n)) as [->|Hk].
    + split.
      * destruct (b_lock (bufm m' b)) eqn:El; [rewrite lookup_insert_eq|by rewrite lookup_delete_eq].
        intros [= <-]. done.
      * intros [Hc Hlk]. destruct (change_mine c n Hc) as [[-> _]|(_ & ? & _)]; [|done].
        rewrite Hlk. apply lookup_insert_eq.
    + assert (Hl : (if b_lock (bufm m' b) then <[n := b]> (cv_held v) else delete n (cv_held v)) !! k = cv_held v !! k).
      { case_match; [by rewrite lookup_insert_ne|by rewrite lookup_delete_ne]. }
      rewrite Hl, (sh_held _ _ Hs k c). fold m. split; intros [Hc Hlk].
      * pose proof (bo_lock _ _ _ (sh_bufs _ _ Hs c (proj1 Hc)) Hlk) as Hpos. fold m in Hpos.
        pose proof (change_other c k Hk Hc ltac:(lia)) as Hne. split; [by apply change_keep|].
        by destruct (Hothers c Hne) as (_ & _ & _ & -> & _).
      * destruct (change_mine c k Hc) as [[_ ?]|(Hne & _ & Hm)]; [done|]. split; [done|].
        by destruct (Hothers c Hne) as (_ & _ & _ & <- & _).
  - intros c Hc. destruct (decide (c = b)) as [->|Hne]; [done|].
    destruct (sh_bufs _ _ Hs c Hc) as [B1 B2 B3 B4]. fold m in B1, B2, B3, B4. fold m'.
    destruct (Hothers c Hne) as (E1 & E2 & E3 & E4 & E5 & E6).
    constructor; rewrite ?E1, ?E2, ?E3, ?E4, ?E5, ?E6; try done.
    + intros Hpos. destruct (B3 Hpos) as (? & Hd & Hv). split_and!; [done|done|]. rewrite Hview; [done|].
      intros Hk. apply Hne, change_old. exact (conj Hc (conj Hd Hk)).
    + intros Hz Hv Hd. rewrite Hdisk; [by apply B4|]. intros Hk. apply Hne, change_old. exact (conj Hc (conj Hd Hk)).
  - intros k Hk. rewrite Hrefs in Hk. destruct (decide (k = n)) as [->|Hkn].
    + apply Hcl. case_decide; [done|]. by rewrite lookup_insert_eq in Hk.
    + rewrite Hview, Hdisk by done. apply (sh_clean _ _ Hs). destruct (decide _) in Hk;
        [by rewrite lookup_delete_ne in Hk|by rewrite lookup_insert_ne in Hk].
Qed.
End change.

#[export] Instance bio_cache : BufferCache bst := {|
  c_bread := bread ROOTDEV;
  c_bwrite := bwrite;
  c_brelse := brelse;
  c_bpin := bpin;
  c_bunpin := bunpin;
  c_blockno b := let! x := get_buf b in ret (b_blockno x);
  c_data b := let! x := get_buf b in ret (b_data x);
  c_set_data b d := upd_buf b (fun x => set_bdata (b_valid x) d x);
  c_shows := bio_shows;
|}.

Section laws.
Variables (s : bst) (v : cview).
Hypothesis Hs : bio_shows s v.

Lemma shows_present : present (bs_buf s).
Proof. destruct (sh_list _ _ Hs) as (l & Hl & _). apply Hl. Qed.

Lemma held_facts n b : cv_held v !! n = Some b ->
  mine (bs_buf s) b n /\ b_lock (bufm (bs_buf s) b) = true /\
  b_valid (bufm (bs_buf s) b) = true /\ b_data (bufm (bs_buf s) b) = cv_view v n /\
  cv_refs v !! n = Some (b_refcnt (bufm (bs_buf s) b)) /\ 0 < b_refcnt (bufm (bs_buf s) b) < 2 ^ 32.
Proof.
  intros [Hm Hl]%(sh_held _ _ Hs). destruct (sh_bufs _ _ Hs b (proj1 Hm)) as [B1 B2 B3 _].
  specialize (B2 Hl). destruct (B3 B2) as (Hv & Hd & Hda). pose proof Hm as (_ & _ & Hn). rewrite Hn in Hda.
  split_and!; try done; [|lia]. apply (sh_refs _ _ Hs). by exists b.
Qed.

(** A buffer that changes without moving in the list. *)
Lemma shows_upd f n b v' d w : mine (bs_buf s) b n ->
  (forall x, b_next (f x) = b_next x /\ b_prev (f x) = b_prev x /\ b_dev (f x) = b_dev x /\ b_blockno (f x) = b_blockno x) ->
  let x := f (bufm (bs_buf s) b) in
  buf_ok (cv_view v') (cv_disk v') x ->
  (forall k, k <> n -> cv_view v' k = cv_view v k) -> (forall k, k <> n -> cv_disk v' k = cv_disk v k) ->
  (forall k, cv_disk v' k = dblock d k) -> (b_refcnt x = 0 -> cv_view v' n = cv_disk v' n) -> cv_writes v' = w ->
  cv_refs v' = (if decide (b_refcnt x = 0) then delete n (cv_refs v) else <[n := b_refcnt x]> (cv_refs v)) ->
  cv_held v' = (if b_lock x then <[n := b]> (cv_held v) else delete n (cv_held v)) ->
  bio_shows (mk_bst (<[b := x]> (bs_buf s)) d w) v'.
Proof.
  intros Hm Hf x Hok Hvw Hdk Hd Hcl Hw Hr Hh.
  assert (Eb : bufm (<[b := x]> (bs_buf s)) b = x) by (by rewrite bufm_insert, decide_True).
  eapply (shows_change s _ v v' b n Hs); cbn [bs_buf bs_disk bs_writes]; rewrite ?Eb; try done.
  - destruct (sh_list _ _ Hs) as (l & Hl & Hp). exists l. split; [|done]. apply linked_fields; [done|]. intros y.
    destruct (Hf y) as (? & ? & _). done.
  - intros c Hc. by rewrite bufm_insert, decide_False.
  - destruct Hm as (H1 & H2 & H3), (Hf (bufm (bs_buf s) b)) as (_ & _ & E1 & E2). unfold mine. rewrite Eb. unfold x.
    by rewrite E1, E2.
  - by left.
Qed.

Lemma bio_data n b : cv_held v !! n = Some b -> wp (c_data b) (fun x s' => x = cv_view v n /\ s' = s) s.
Proof.
  intros (Hm & _ & _ & Hd & _)%held_facts. destruct Hm as [Hr _]. simpl.
  apply wp_bind, wp_get; [apply shows_present|lia|]. by wp_steps.
Qed.

Lemma bio_blockno n b : cv_held v !! n = Some b -> wp (c_blockno b) (fun k s' => k = n /\ s' = s) s.
Proof.
  intros (Hm & _)%held_facts. destruct Hm as (Hr & _ & Hn). simpl.
  apply wp_bind, wp_get; [apply shows_present|lia|]. by wp_steps.
Qed.

Lemma refs_id n b (H : cv_held v !! n = Some b) : cv_refs v = <[n := b_refcnt (bufm (bs_buf s) b)]> (cv_refs v).
Proof. symmetry. apply insert_id. apply (held_facts n b H). Qed.
Lemma held_id n b (H : cv_held v !! n = Some b) : cv_held v = <[n := b]> (cv_held v).
Proof. symmetry. by apply insert_id. Qed.

Lemma bio_set_data n b x : cv_held v !! n = Some b ->
  wp (c_set_data b x) (fun _ s' => bio_shows s' (mk_cview (bupd (cv_view v) n x) (cv_disk v) (cv_refs v)
    (cv_held v) (cv_writes v))) s.
Proof.
  intros H. destruct (held_facts n b H) as (Hm & Hlk & Hv & Hd & Hr & Hpos). simpl.
  pose proof Hm as (Hb & Hdev & Hbn). apply wp_upd; [apply shows_present|lia|].
  apply (shows_upd (fun y => set_bdata (b_valid y) x y) n b); simpl; try done.
  - constructor; simpl; try done; try lia. intros _. rewrite Hbn, bupd_eq. done.
  - intros k Hk. by apply bupd_ne.
  - apply (sh_disk _ _ Hs).
  - lia.
  - by apply (sh_writes _ _ Hs).
  - rewrite decide_False by lia. by apply refs_id.
  - rewrite Hlk. by apply held_id.
Qed.

Lemma bio_bwrite n b : cv_held v !! n = Some b ->
  wp (c_bwrite b) (fun _ s' => bio_shows s' (mk_cview (cv_view v) (bupd (cv_disk v) n (cv_view v n)) (cv_refs v)
    (cv_held v) (cv_writes v ++ [(n, cv_view v n)]))) s.
Proof.
  intros H. destruct (held_facts n b H) as (Hm & Hlk & Hv & Hd & Hr & Hpos). simpl. unfold bwrite, virtio_disk_rw.
  pose proof Hm as (Hb & Hdev & Hbn). apply wp_bind, wp_get; [apply shows_present|lia|]. rewrite Hlk. cbn [negb].
  apply wp_bind, wp_get; [apply shows_present|lia|]. wp_steps. rewrite Hbn, Hd.
  assert (E : bs_buf s = <[b := (fun y => y) (bufm (bs_buf s) b)]> (bs_buf s)).
  { symmetry. apply insert_id. destruct (shows_present b ltac:(lia)) as [y Hy]. unfold bufm. by rewrite Hy. }
  rewrite E. apply (shows_upd (fun y => y) n b); simpl; try done.
  - destruct (sh_bufs _ _ Hs b Hb) as [B1 B2 B3 B4]. constructor; try done. lia.
  - intros k Hk. by apply bupd_ne.
  - intros k. unfold bupd, dblock. case_decide as Hk; [subst; by rewrite lookup_insert_eq|].
    rewrite lookup_insert_ne by done. apply (sh_disk _ _ Hs).
  - lia.
  - by rewrite (sh_writes _ _ Hs).
  - rewrite decide_False by lia. by apply refs_id.
  - rewrite Hlk. by apply held_id.
Qed.

Lemma bio_refcnt n b r : cv_held v !! n = Some b -> 0 < r < 2 ^ 32 ->
  bio_shows (with_bufs (<[b := set_refcnt r (bufm (bs_buf s) b)]> (bs_buf s)) s)
    (mk_cview (cv_view v) (cv_disk v) (<[n := r]> (cv_refs v)) (cv_held v) (cv_writes v)).
Proof.
  intros H Hr0. destruct (held_facts n b H) as (Hm & Hlk & Hv & Hd & Hr & Hpos). pose proof Hm as (Hb & Hdev & Hbn).
  apply (shows_upd (set_refcnt r) n b); simpl; try done.
  - destruct (sh_bufs _ _ Hs b Hb) as [B1 B2 B3 B4]. constructor; simpl; try done; try lia. intros _. apply B3. lia.
  - apply (sh_disk _ _ Hs).
  - lia.
  - by apply (sh_writes _ _ Hs).
  - by rewrite decide_False by lia.
  - rewrite Hlk. by apply held_id.
Qed.

Lemma bio_bpin n b : cv_held v !! n = Some b -> few_refs v ->
  wp (c_bpin b) (fun _ s' => bio_shows s' (mk_cview (cv_view v) (cv_disk v) (ref (cv_refs v) n)
    (cv_held v) (cv_writes v))) s.
Proof.
  intros H Hfew. destruct (held_facts n b H) as (Hm & _ & _ & _ & Hr & Hpos). pose proof Hm as (Hb & _ & _).
  pose proof (Hfew _ _ Hr). simpl. unfold bpin. apply wp_bind, wp_get; [apply shows_present|lia|].
  apply wp_upd; [apply shows_present|lia|]. unfold ref. rewrite Hr. cbn [default from_option id].
  rewrite u32_small by lia. apply bio_refcnt; [done|lia].
Qed.

Lemma bio_bunpin n b r : cv_held v !! n = Some b -> cv_refs v !! n = Some r -> 1 < r ->
  wp (c_bunpin b) (fun _ s' => bio_shows s' (mk_cview (cv_view v) (cv_disk v) (unref (cv_refs v) n)
    (cv_held v) (cv_writes v))) s.
Proof.
  intros H Hrr Hr1. destruct (held_facts n b H) as (Hm & _ & _ & _ & Hr & Hpos). pose proof Hm as (Hb & _ & _).
  rewrite Hr in Hrr. injection Hrr as Hrr. simpl. unfold bunpin. apply wp_bind, wp_get; [apply shows_present|lia|].
  apply wp_upd; [apply shows_present|lia|]. unfold unref. rewrite Hr. cbn [default from_option id].
  rewrite u32_small, decide_False by lia. apply bio_refcnt; [done|lia].
Qed.

(** The state after [brelse]: buffer [b] is unlocked and has one reference
    fewer, whether or not it moved in the list. *)
Lemma brelse_shows n b m' : cv_held v !! n = Some b -> (cv_refs v !! n = Some 1 -> cv_view v n = cv_disk v n) ->
  let x := set_refcnt (b_refcnt (bufm (bs_buf s) b) - 1) (set_lock false (bufm (bs_buf s) b)) in
  (exists l, linked m' l /\ l ≡ₚ range 0 NBUF) ->
  (forall c, same_info (bufm (<[b := x]> (bs_buf s)) c) (bufm m' c)) ->
  bio_shows (mk_bst m' (bs_disk s) (bs_writes s)) (mk_cview (cv_view v) (cv_disk v) (unref (cv_refs v) n)
    (delete n (cv_held v)) (cv_writes v)).
Proof.
  intros H Hclean x Hl' Hsame. destruct (held_facts n b H) as ((Hb & Hdev & Hbn) & Hlk & Hv & Hd & Hr & Hpos).
  assert (Eb : bufm (<[b := x]> (bs_buf s)) b = x) by (by rewrite bufm_insert, decide_True).
  destruct (Hsame b) as (I1 & I2 & I3 & I4 & I5 & I6). rewrite Eb in I1, I2, I3, I4, I5, I6. unfold x in *.
  cbn [set_refcnt set_lock b_refcnt b_lock b_dev b_blockno b_valid b_data] in *.
  eapply (shows_change s _ v _ b n Hs); cbn [bs_buf bs_disk bs_writes cv_view cv_disk cv_refs cv_held cv_writes]; try done.
  - intros c Hc. pose proof (Hsame c) as Hc'. by rewrite bufm_insert, decide_False in Hc'.
  - split_and!; [lia|lia|by rewrite I2|by rewrite I3].
  - by left.
  - constructor; rewrite ?I1, ?I2, ?I3, ?I4, ?I5, ?I6; [lia|done|by rewrite Hbn|].
    intros Hz _ _. rewrite Hbn, Hd. apply Hclean. rewrite Hr. f_equal. lia.
  - apply (sh_disk _ _ Hs).
  - rewrite I5. intros Hz. apply Hclean. rewrite Hr. f_equal. lia.
  - apply (sh_writes _ _ Hs).
  - rewrite I5. unfold unref. by rewrite Hr.
  - by rewrite I4.
Qed.

(** Moving a buffer to the front of the list. *)
Lemma move_front m b l d w (Q : unit -> bst -> Prop) : linked m l -> l ≡ₚ range 0 NBUF -> 0 <= b < NBUF ->
  (forall m' l1 l2, l = l1 ++ b :: l2 -> linked m' (b :: l1 ++ l2) -> (forall c, same_info (bufm m c) (bufm m' c)) ->
    Q tt (mk_bst m' d w)) ->
  wp (unlink b;; push_front b) Q (mk_bst m d w).
Proof.
  intros Hl Hperm Hb HQ. assert (Hin : b ∈ l) by (rewrite Hperm; apply elem_of_range; lia).
  apply list_elem_of_split in Hin as (l1 & l2 & ->).
  apply wp_bind, (unlink_spec b l1 l2); [done|]. intros m2 Hl2 Hi2. cbn [with_bufs bs_buf bs_disk bs_writes] in *.
  pose proof (lk_nodup _ _ Hl) as Hnd. apply NoDup_app in Hnd as (N1 & N2 & [N3 N4]%NoDup_cons).
  apply (push_front_spec b (l1 ++ l2)); [done|lia|set_solver|]. intros m3 Hl3 Hi3.
  cbn [with_bufs bs_buf bs_disk bs_writes] in *. apply (HQ m3 l1 l2); [done|done|].
  intros c. etransitivity; [apply Hi2|apply Hi3].
Qed.

Lemma bio_brelse n b : cv_held v !! n = Some b -> (cv_refs v !! n = Some 1 -> cv_view v n = cv_disk v n) ->
  wp (c_brelse b) (fun _ s' => bio_shows s' (mk_cview (cv_view v) (cv_disk v) (unref (cv_refs v) n)
    (delete n (cv_held v)) (cv_writes v))) s.
Proof.
  intros H Hclean. destruct (held_facts n b H) as ((Hb & Hdev & Hbn) & Hlk & _ & _ & Hr & Hpos).
  pose proof shows_present as Hp. set (m := bs_buf s) in *. set (r := b_refcnt (bufm m b)) in *.
  simpl. unfold brelse. apply wp_bind, wp_get; [done|lia|]. fold m. rewrite Hlk. cbn [negb].
  apply wp_bind, wp_upd; [done|lia|]. fold m. set (m1 := <[b := set_lock false (bufm m b)]> m).
  assert (Hp1 : present m1) by (by apply present_insert).
  apply wp_bind, wp_get; [done|lia|]. apply wp_bind, wp_upd; [done|lia|]. cbn [with_bufs bs_buf bs_disk bs_writes].
  assert (E1 : bufm m1 b = set_lock false (bufm m b)) by (unfold m1; by rewrite bufm_insert, decide_True).
  rewrite E1. cbn [set_lock b_refcnt]. fold r. rewrite u32_small by lia.
  set (x := set_refcnt (r - 1) _). assert (E2 : <[b := x]> m1 = <[b := x]> m) by (unfold m1; apply insert_insert_eq).
  rewrite E2. change (with_bufs (<[b := x]> m) (with_bufs m1 s)) with (mk_bst (<[b := x]> m) (bs_disk s) (bs_writes s)).
  assert (Hp2 : present (<[b := x]> m)) by (by apply present_insert).
  apply wp_bind, wp_get; [done|lia|]. cbn [bs_buf]. rewrite bufm_insert, decide_True by done.
  change (b_refcnt x) with (r - 1). destruct (sh_list _ _ Hs) as (l & Hl & Hperm).
  assert (Hl1 : linked (<[b := x]> m) l)
    by (apply (linked_fields m b (fun y => set_refcnt (r - 1) (set_lock false y))); done).
  destruct (r - 1 =? 0).
  - apply (move_front _ b l); [done|done|done|]. intros m' l1 l2 -> Hl' Hi. apply (brelse_shows n b); [done|done| |done].
    exists (b :: l1 ++ l2). split; [done|]. by rewrite <- Hperm, Permutation_middle.
  - wp_steps. apply (brelse_shows n b); [done|done| |done]. by exists l.
Qed.

(** The state after [bread]: buffer [b] is valid, locked, has one more
    reference than the block had, and the block's contents. *)
Lemma bread_shows n b m' l : few_refs v -> linked m' l -> l ≡ₚ range 0 NBUF ->
  (forall c, c <> b -> bufm m' c = bufm (bs_buf s) c) ->
  (mine (bs_buf s) b n \/ (b_refcnt (bufm (bs_buf s) b) = 0 /\ forall c, ~ mine (bs_buf s) c n)) ->
  mine m' b n -> b_valid (bufm m' b) = true -> b_lock (bufm m' b) = true ->
  b_refcnt (bufm m' b) = default 0 (cv_refs v !! n) + 1 -> b_data (bufm m' b) = cv_view v n ->
  bio_shows (mk_bst m' (bs_disk s) (bs_writes s)) (mk_cview (cv_view v) (cv_disk v) (ref (cv_refs v) n)
    (<[n := b]> (cv_held v)) (cv_writes v)).
Proof.
  intros Hfew Hl Hperm Hoth Hold Hm Hv Hlk Hrc Hd. pose proof Hm as (Hb & Hdev & Hbn).
  assert (Hr : 0 <= default 0 (cv_refs v !! n) < 2 ^ 31).
  { destruct (cv_refs v !! n) as [r|] eqn:Hr; [|simpl; lia]. pose proof (Hfew _ _ Hr).
    apply (sh_refs _ _ Hs) in Hr as (c & _ & _ & Hpos). simpl. lia. }
  eapply (shows_change s _ v _ b n Hs); cbn [bs_buf bs_disk bs_writes cv_view cv_disk cv_refs cv_held cv_writes]; try done.
  - by exists l.
  - intros c Hc. by rewrite Hoth.
  - constructor; [lia|lia| |lia]. intros _. rewrite Hbn, Hd. done.
  - apply (sh_disk _ _ Hs).
  - lia.
  - apply (sh_writes _ _ Hs).
  - rewrite decide_False by lia. unfold ref. by rewrite Hrc.
  - by rewrite Hlk.
Qed.

(** Loading the data of a buffer that was just taken. *)
Lemma load_data b x (Q : Z -> bst -> Prop) m' : present m' -> 0 <= b < NBUF -> bufm m' b = x ->
  (forall m2, bufm m2 b = (if b_valid x then x else set_bdata true (dblock (bs_disk s) (b_blockno x)) x) ->
    (forall c, c <> b -> bufm m2 c = bufm m' c) -> (forall l, linked m' l -> linked m2 l) ->
    Q b (mk_bst m2 (bs_disk s) (bs_writes s))) ->
  wp (let! x := get_buf b in
      (if negb (b_valid x) then
         virtio_disk_rw b false;;
         upd_buf b (fun x => set_bdata true (b_data x) x)
       else ret tt);;
      ret b) Q (mk_bst m' (bs_disk s) (bs_writes s)).
Proof.
  intros Hp Hb Hx HQ. apply wp_bind, wp_get; [done|lia|]. cbn [bs_buf]. rewrite Hx. destruct (b_valid x) eqn:Hv; cbn [negb].
  - wp_steps. by apply HQ.
  - unfold virtio_disk_rw. apply wp_bind, wp_bind, wp_bind, wp_get; [done|lia|]. cbn [bs_buf]. rewrite Hx. wp_steps.
    apply wp_upd; [done|lia|]. cbn [with_bufs bs_buf bs_disk bs_writes]. rewrite Hx.
    apply wp_upd; [by apply present_insert|lia|]. cbn [with_bufs bs_buf bs_disk bs_writes]. wp_steps.
    rewrite bufm_insert, decide_True by done. apply HQ.
    + by rewrite bufm_insert, decide_True.
    + intros c Hc. by rewrite !bufm_insert, !decide_False.
    + intros l Hl. pose proof (linked_fields m' b (set_bdata (b_valid x) (dblock (bs_disk s) (b_blockno x))) l Hl ltac:(done)) as Hl1.
      rewrite Hx in Hl1. pose proof (linked_fields _ b (fun y => set_bdata true (b_data y) y) l Hl1 ltac:(done)) as Hl2.
      by rewrite bufm_insert, decide_True in Hl2.
Qed.

(** Some buffer is unused if fewer than [NBUF] blocks are referenced. *)
Lemma unused_exists l : l ≡ₚ range 0 NBUF -> Z.of_nat (size (cv_refs v)) < NBUF -> recyclable (bs_buf s) l <> None.
Proof.
  intros Hperm Hsz Hnone. set (m := bs_buf s) in *.
  assert (Hall : forall b, 0 <= b < NBUF -> 0 < b_refcnt (bufm m b)).
  { intros b Hb. pose proof (bo_refs _ _ _ (sh_bufs _ _ Hs b Hb)). fold m in H.
    assert (Hu : unused m b = false).
    { apply (find_none _ _ Hnone). apply list_elem_of_In. rewrite elem_of_reverse, Hperm. by apply elem_of_range. }
    unfold unused in Hu. apply Z.eqb_neq in Hu. lia. }
  assert (Hmine : forall b, 0 <= b < NBUF -> mine m b (b_blockno (bufm m b))).
  { intros b Hb. split_and!; [lia|lia| |done]. by apply (bo_used _ _ _ (sh_bufs _ _ Hs b Hb)), Hall. }
  set (ns := map (fun b => b_blockno (bufm m b)) (range 0 NBUF)).
  assert (Hnd : NoDup ns).
  { apply NoDup_fmap_2_strong; [|apply range_NoDup]. intros b c Hb%elem_of_range Hc%elem_of_range Heq.
    apply (sh_uniq _ _ Hs b c (b_blockno (bufm m b))); [by apply Hmine|]. fold m. rewrite Heq. by apply Hmine. }
  assert (Hsub : list_to_set ns ⊆ dom (cv_refs v)).
  { intros k Hk%elem_of_list_to_set. apply list_elem_of_fmap in Hk as (b & -> & Hb%elem_of_range).
    apply elem_of_dom. exists (b_refcnt (bufm m b)). apply (sh_refs _ _ Hs). fold m. exists b.
    split_and!; [by apply Hmine|done|by apply Hall]. }
  apply subseteq_size in Hsub. rewrite size_list_to_set, size_dom in Hsub by done.
  unfold ns in Hsub. rewrite length_map, range_len in Hsub. unfold NBUF, MAXOPBLOCKS in *. lia.
Qed.

(** Locking a buffer that was just changed by [f]. *)
Lemma lock_taken b f (Q : unit -> bst -> Prop) : 0 <= b < NBUF -> b_lock (f (bufm (bs_buf s) b)) = false ->
  Q tt (with_bufs (<[b := set_lock true (f (bufm (bs_buf s) b))]> (bs_buf s)) s) ->
  wp (upd_buf b f;; lock_buf b) Q s.
Proof.
  intros Hb Hlk HQ. pose proof shows_present as Hp. unfold lock_buf. apply wp_bind, wp_upd; [done|lia|].
  assert (Hp1 : present (<[b := f (bufm (bs_buf s) b)]> (bs_buf s))) by (by apply present_insert).
  apply wp_bind, wp_get; [done|lia|]. cbn [with_bufs bs_buf]. rewrite bufm_insert, decide_True, Hlk by done.
  apply wp_upd; [done|lia|]. cbn [with_bufs bs_buf bs_disk bs_writes]. rewrite bufm_insert, decide_True, insert_insert_eq by done.
  exact HQ.
Qed.

Lemma bread_taken n b f (Hl : exists l, linked (bs_buf s) l /\ l ≡ₚ range 0 NBUF) : few_refs v ->
  (forall x, b_next (f x) = b_next x /\ b_prev (f x) = b_prev x) ->
  0 <= b < NBUF -> let x := f (bufm (bs_buf s) b) in
  b_lock x = false -> b_dev x = ROOTDEV -> b_blockno x = n -> b_refcnt x = default 0 (cv_refs v !! n) + 1 ->
  (if b_valid x then b_data x else dblock (bs_disk s) n) = cv_view v n ->
  (mine (bs_buf s) b n \/ (b_refcnt (bufm (bs_buf s) b) = 0 /\ forall c, ~ mine (bs_buf s) c n)) ->
  wp (upd_buf b f;; lock_buf b;; ret b) (fun b s' =>
    wp (let! x := get_buf b in
        (if negb (b_valid x) then
           virtio_disk_rw b false;;
           upd_buf b (fun x => set_bdata true (b_data x) x)
         else ret tt);;
        ret b) (fun b s'' => bio_shows s'' (mk_cview (cv_view v) (cv_disk v) (ref (cv_refs v) n)
          (<[n := b]> (cv_held v)) (cv_writes v))) s') s.
Proof.
  intros Hfew Hf Hb x Hlk Hdev Hbn Hrc Hdata Hold. destruct Hl as (l & Hl & Hperm).
  apply (wp_bind_assoc (upd_buf b f) (fun _ => lock_buf b) (fun _ => ret b)), wp_bind, lock_taken; [done|done|]. apply wp_ret.
  assert (Hl1 : linked (<[b := set_lock true x]> (bs_buf s)) l).
  { apply (linked_fields (bs_buf s) b (fun y => set_lock true (f y))); [done|exact Hf]. }
  apply (load_data b (set_lock true x) _ (<[b := set_lock true x]> (bs_buf s))); [apply Hl1|done|by rewrite bufm_insert, decide_True|].
  intros m2 H2 Ho2 Hl2. simpl in H2. eapply (bread_shows n b m2 l); try done.
  - by apply Hl2.
  - intros c Hc. rewrite Ho2 by done. by rewrite bufm_insert, decide_False.
  - unfold mine. rewrite H2. destruct (b_valid x); simpl; split_and!; lia || done.
  - rewrite H2. destruct (b_valid x) eqn:E; [exact E|done].
  - rewrite H2. by destruct (b_valid x).
  - rewrite H2. by destruct (b_valid x).
  - rewrite H2. destruct (b_valid x); simpl in *; by rewrite ?Hbn.
Qed.

(** The references to a block are those of its buffer. *)
Lemma block_refs n b : few_refs v -> mine (bs_buf s) b n ->
  default 0 (cv_refs v !! n) = b_refcnt (bufm (bs_buf s) b) /\ b_refcnt (bufm (bs_buf s) b) < 2 ^ 31.
Proof.
  intros Hfew Hm. pose proof (bo_refs _ _ _ (sh_bufs _ _ Hs b (proj1 Hm))).
  destruct (cv_refs v !! n) as [r|] eqn:Hr; simpl.
  - pose proof (Hfew _ _ Hr). apply (sh_refs _ _ Hs) in Hr as (c & Hcm & <- & _).
    by rewrite (sh_uniq _ _ Hs b c n Hm Hcm).
  - destruct (Z.eq_dec (b_refcnt (bufm (bs_buf s) b)) 0) as [->|Hne]; [lia|].
    assert (cv_refs v !! n = Some (b_refcnt (bufm (bs_buf s) b))); [|congruence].
    apply (sh_refs _ _ Hs). exists b. split_and!; [done|done|lia].
Qed.

(** The data [bread] returns for a block that has a buffer. *)
Lemma block_data n b : few_refs v -> mine (bs_buf s) b n ->
  (if b_valid (bufm (bs_buf s) b) then b_data (bufm (bs_buf s) b) else dblock (bs_disk s) n) = cv_view v n.
Proof.
  intros Hfew Hm. destruct (block_refs n b Hfew Hm) as [Hrc _]. pose proof Hm as (Hb & Hdev & Hbn).
  pose proof (sh_bufs _ _ Hs b Hb) as Hok. pose proof (bo_refs _ _ _ Hok).
  destruct (Z.eq_dec (b_refcnt (bufm (bs_buf s) b)) 0) as [Hz|Hz].
  - rewrite (sh_clean _ _ Hs n).
    + destruct (b_valid (bufm (bs_buf s) b)) eqn:E; [|by rewrite (sh_disk _ _ Hs)].
      rewrite (bo_clean _ _ _ Hok Hz E Hdev). by rewrite Hbn.
    + destruct (cv_refs v !! n) as [r|] eqn:Hr; [|done]. simpl in Hrc.
      apply (sh_refs _ _ Hs) in Hr as (c & _ & _ & ?). lia.
  - destruct (bo_used _ _ _ Hok ltac:(lia)) as (-> & _ & <-). by rewrite Hbn.
Qed.

Lemma bio_bread n : can_get v n -> few_refs v ->
  wp (c_bread n) (fun b s' => bio_shows s' (mk_cview (cv_view v) (cv_disk v) (ref (cv_refs v) n)
    (<[n := b]> (cv_held v)) (cv_writes v))) s.
Proof.
  intros [Hheld Hfree] Hfew. pose proof shows_present as Hp. pose proof (sh_list _ _ Hs) as Hlist.
  pose proof Hlist as (l & Hl & Hperm).
  assert (Hlen : (length l < all_buffers)%nat) by (rewrite Hperm, range_len; unfold all_buffers; lia).
  pose proof Hl as [_ _ Hrange Hchain]. simpl. unfold bread, bget. apply wp_bind, wp_bind, wp_get; [done|done|].
  apply wp_bind, (find_cached_spec _ HEAD l); [done|done|done|done|].
  destruct (cached (bs_buf s) ROOTDEV n l) as [b|] eqn:Hc.
  - apply find_some in Hc as [Hb%list_elem_of_In [Hdev%Z.eqb_eq Hbn%Z.eqb_eq]%andb_true_iff].
    specialize (Hrange b Hb). assert (Hm : mine (bs_buf s) b n) by done.
    apply wp_bind, wp_get; [done|lia|]. pose proof (bo_refs _ _ _ (sh_bufs _ _ Hs b Hrange)) as Hr0.
    destruct (block_refs n b Hfew Hm) as [Hrc Hbig].
    eapply (bread_taken n b (set_refcnt (u32 (b_refcnt (bufm (bs_buf s) b) + 1)))); simpl; try done.
    + destruct (b_lock (bufm (bs_buf s) b)) eqn:E; [|done].
      assert (cv_held v !! n = Some b); [|congruence]. by apply (sh_held _ _ Hs).
    + rewrite u32_small by lia. by rewrite Hrc.
    + by apply block_data.
    + by left.
  - assert (Hnone : forall c, ~ mine (bs_buf s) c n).
    { intros c (Hcr & Hcd & Hcn). assert (Hin : In c l) by (apply list_elem_of_In; rewrite Hperm; apply elem_of_range; lia).
      pose proof (find_none _ _ Hc c Hin) as Hh. unfold holds in Hh. rewrite Hcd, Hcn, !Z.eqb_refl in Hh. done. }
    assert (Hrn : cv_refs v !! n = None).
    { destruct (cv_refs v !! n) as [r|] eqn:Hr; [|done]. apply (sh_refs _ _ Hs) in Hr as (c & Hm & _). by destruct (Hnone c). }
    destruct Hfree as [[r Hr]|Hsz]; [congruence|].
    apply wp_bind, wp_get; [done|done|]. apply wp_bind, (find_unused_spec _ l HEAD); [done|done|done|done|].
    pose proof (unused_exists l Hperm Hsz) as Hu. destruct (recyclable (bs_buf s) l) as [b|] eqn:Hre; [|done].
    apply find_some in Hre as [Hb%list_elem_of_In Hz%Z.eqb_eq]. rewrite elem_of_reverse in Hb.
    specialize (Hrange b Hb). eapply (bread_taken n b (set_block ROOTDEV n)); simpl; try done.
    + destruct (b_lock (bufm (bs_buf s) b)) eqn:E; [|done]. pose proof (bo_lock _ _ _ (sh_bufs _ _ Hs b Hrange) E). lia.
    + by rewrite Hrn.
    + by rewrite <- (sh_disk _ _ Hs), (sh_clean _ _ Hs n).
    + by right.
Qed.
End laws.

#[export] Instance bio_cache_ok : BufferCacheOK bst.
Proof.
  constructor; eauto using bio_bread, bio_blockno, bio_data, bio_set_data, bio_bwrite, bio_brelse, bio_bpin, bio_bunpin.
  - intros s v V D [L U R H B K C W] HV HD. constructor; simpl; try done.
    + intros b Hb. destruct (B b Hb) as [B1 B2 B3 B4]. constructor; try done.
      * intros Hr. rewrite HV. by apply B3.
      * intros Hr Hv Hd. rewrite HD. by apply B4.
    + intros n. rewrite HD. apply K.
    + intros n Hn. rewrite HV, HD. by apply C.
  - intros s v v' H H'. rewrite (sh_writes _ _ H), (sh_writes _ _ H'). split; [done|].
    intros n. by rewrite (sh_disk _ _ H), (sh_disk _ _ H').
Qed.
