(* ===== verification/BioBoot.v ===== *)
(** * The cache at start, and its replacement order

    [binit] links all buffers and leaves a cache that shows the disk.  The
    order of the list is that of last use: [bget] takes over the unreferenced
    buffer that was released longest ago. *)

From stdpp Require Import base numbers list gmap strings.
From Stdlib Require Import ZArith Lia.
From S2P Require Import Prelude Blocks Monad Bio BioCache.
Open Scope Z_scope.

Lemma boot_buf d b : 0 <= b <= NBUF -> bs_buf (boot_bst d) !! b = Some zero_buf.
Proof.
  intros Hb. cbn [boot_bst bs_buf]. apply elem_of_list_to_map.
  - rewrite <- list_fmap_compose. apply NoDup_fmap_2; [|apply range_NoDup]. intros x y. done.
  - apply list_elem_of_fmap. exists b. split; [done|]. apply elem_of_range. lia.
Qed.

(** Buffers that were never used show the disk. *)
Lemma unused_shows m d l : linked m l -> l ≡ₚ range 0 NBUF -> (forall b, 0 <= b < NBUF -> same_info zero_buf (bufm m b)) ->
  bio_shows (mk_bst m d []) (fresh (dblock d) []).
Proof.
  intros Hl Hperm Hz.
  assert (Hnone : forall b n, ~ mine m b n) by (intros b n (Hb & Hdev & _); destruct (Hz b Hb) as (_ & Hd & _); by rewrite Hd in Hdev).
  constructor; cbn [bs_buf bs_disk bs_writes fresh cv_view cv_disk cv_refs cv_held cv_writes]; try done.
  - by exists l.
  - intros b c n Hb. by destruct (Hnone b n).
  - intros n r. rewrite lookup_empty. split; [done|]. intros (b & Hb & _). by destruct (Hnone b n).
  - intros n b. rewrite lookup_empty. split; [done|]. intros [Hb _]. by destruct (Hnone b n).
  - intros b Hb. destruct (Hz b Hb) as (I1 & I2 & I3 & I4 & I5 & I6). simpl in *.
    constructor; rewrite ?I1, ?I2, ?I3, ?I4, ?I5, ?I6; try done; lia.
Qed.

Lemma binit_zero d m0 : (forall b, 0 <= b <= NBUF -> m0 !! b = Some zero_buf) ->
  wp binit (fun _ s => bio_shows s (fresh (dblock d) [])) (mk_bst m0 d []).
Proof.
  intros Hm0. assert (Hp0 : present m0) by (intros b Hb; exists zero_buf; by apply Hm0).
  assert (Hz0 : forall b, 0 <= b < NBUF -> bufm m0 b = zero_buf) by (intros b Hb; unfold bufm; by rewrite Hm0 by lia).
  unfold binit. apply wp_bind, wp_upd; [done|unfold HEAD, NBUF, MAXOPBLOCKS; lia|]. cbn [with_bufs bs_buf bs_disk bs_writes]. set (x1 := set_prev _ _).
  apply wp_bind, wp_upd; [by apply present_insert|unfold HEAD, NBUF, MAXOPBLOCKS; lia|]. cbn [with_bufs bs_buf bs_disk bs_writes].
  rewrite bufm_insert, decide_True, insert_insert_eq by done. set (m1 := <[HEAD := _]> m0).
  apply (wp_forM (fun i s => exists m, s = mk_bst m d [] /\ linked m (reverse (range 0 i)) /\
    forall b, 0 <= b < NBUF -> same_info zero_buf (bufm m b))).
  - unfold NBUF, MAXOPBLOCKS. lia.
  - exists m1. split; [done|]. split.
    + constructor; [by apply present_insert|apply NoDup_nil_2|set_solver|].
      simpl. unfold nx, pv, m1. by rewrite bufm_insert, decide_True.
    + intros b Hb. unfold m1. rewrite bufm_insert, decide_False, Hz0 by (unfold HEAD; lia). done.
  - intros i s Hi (m & -> & Hl & Hz). apply wp_bind, wp_upd; [apply Hl|lia|]. cbn [with_bufs bs_buf bs_disk bs_writes].
    apply (push_front_spec i (reverse (range 0 i))); [by apply (linked_fields m i (set_lock false))|lia| |].
    + rewrite elem_of_reverse, elem_of_range. lia.
    + intros m' Hl' Hi'. cbn [with_bufs bs_buf bs_disk bs_writes] in *. exists m'. split; [done|]. split.
      * rewrite (range_snoc 0 (i + 1)), reverse_snoc by lia. by replace (i + 1 - 1) with i by lia.
      * intros b Hb. etransitivity; [|apply Hi']. rewrite bufm_insert. case_decide as E; [subst|by apply Hz].
        destruct (Hz i Hi) as (I1 & I2 & I3 & I4 & I5 & I6). by repeat split.
  - intros s (m & -> & Hl & Hz). apply (unused_shows m d (reverse (range 0 NBUF))); [done|apply reverse_Permutation|done].
Qed.

Lemma binit_spec d : wp binit (fun _ s => bio_shows s (fresh (dblock d) [])) (boot_bst d).
Proof. apply binit_zero. apply (boot_buf d). Qed.

(** ** The order of the buffers *)

Lemma split_unique (b : Z) l1 l2 k1 k2 : l1 ++ b :: l2 = k1 ++ b :: k2 -> NoDup (l1 ++ b :: l2) -> k1 = l1 /\ k2 = l2.
Proof.
  revert k1. induction l1 as [|x l1 IH]; intros [|y k1] E Hnd; simplify_eq/=.
  - done.
  - apply NoDup_cons in Hnd as [Hb _]. set_solver.
  - apply NoDup_cons in Hnd as [Hb _]. set_solver.
  - apply NoDup_cons in Hnd as [_ Hnd]. by destruct (IH k1 H0 Hnd) as [-> ->].
Qed.

Section lru.
Variables (s : bst) (v : cview) (l : list Z).
Hypothesis Hs : bio_shows s v.
Hypothesis Hl : linked (bs_buf s) l.
Hypothesis Hperm : l ≡ₚ range 0 NBUF.

Lemma taken_list b f : (forall x, b_next (f x) = b_next x /\ b_prev (f x) = b_prev x) -> 0 <= b < NBUF ->
  b_lock (f (bufm (bs_buf s) b)) = false ->
  wp (upd_buf b f;; lock_buf b;; ret b) (fun b' s' =>
    wp (let! x := get_buf b' in
        (if negb (b_valid x) then
           virtio_disk_rw b' false;;
           upd_buf b' (fun x => set_bdata true (b_data x) x)
         else ret tt);;
        ret b') (fun b'' s'' => b'' = b /\ linked (bs_buf s'') l) s') s.
Proof.
  intros Hf Hb Hlk.
  apply (wp_bind_assoc (upd_buf b f) (fun _ => lock_buf b) (fun _ => ret b)), wp_bind, (lock_taken s v Hs); [done|done|]. apply wp_ret.
  set (x := set_lock true _). assert (Hl1 : linked (<[b := x]> (bs_buf s)) l).
  { apply (linked_fields (bs_buf s) b (fun y => set_lock true (f y))); [done|exact Hf]. }
  apply (load_data s b x _ (<[b := x]> (bs_buf s))); [apply Hl1|done|by rewrite bufm_insert, decide_True|].
  intros m2 _ _ Hl2. split; [done|]. by apply Hl2.
Qed.

Lemma bread_list n : can_get v n ->
  wp (bread ROOTDEV n) (fun b s' => linked (bs_buf s') l /\
    match cached (bs_buf s) ROOTDEV n l with Some b' => b = b' | None => recyclable (bs_buf s) l = Some b end) s.
Proof.
  intros [Hheld Hfree]. pose proof (shows_present s v Hs) as Hp. pose proof Hl as [_ _ Hrange Hchain].
  assert (Hlen : (length l < all_buffers)%nat) by (rewrite Hperm, range_len; unfold all_buffers; lia).
  unfold bread, bget. apply wp_bind, wp_bind, wp_get; [done|done|].
  apply wp_bind, (find_cached_spec _ HEAD l); [done|done|done|done|].
  destruct (cached (bs_buf s) ROOTDEV n l) as [b|] eqn:Hc.
  - apply find_some in Hc as [Hb%list_elem_of_In [Hdev%Z.eqb_eq Hbn%Z.eqb_eq]%andb_true_iff]. specialize (Hrange b Hb).
    apply wp_bind, wp_get; [done|lia|]. eapply wp_mono; [apply taken_list; [done|done|]|].
    + simpl. destruct (b_lock (bufm (bs_buf s) b)) eqn:E; [|done].
      assert (cv_held v !! n = Some b); [|congruence]. by apply (sh_held _ _ Hs).
    + intros b' s' H. eapply wp_mono; [exact H|]. intros b'' s'' [-> H2]. done.
  - assert (Hrn : cv_refs v !! n = None).
    { destruct (cv_refs v !! n) as [r|] eqn:Hr; [|done]. apply (sh_refs _ _ Hs) in Hr as (c & (Hcr & Hcd & Hcn) & _).
      assert (Hin : In c l) by (apply list_elem_of_In; rewrite Hperm; apply elem_of_range; lia).
      pose proof (find_none _ _ Hc c Hin) as Hh. unfold BioCache.holds in Hh. by rewrite Hcd, Hcn, !Z.eqb_refl in Hh. }
    destruct Hfree as [[r Hr]|Hsz]; [congruence|].
    apply wp_bind, wp_get; [done|done|]. apply wp_bind, (find_unused_spec _ l HEAD); [done|done|done|done|].
    pose proof (unused_exists s v Hs l Hperm Hsz) as Hu. destruct (recyclable (bs_buf s) l) as [b|] eqn:Hre; [|done].
    apply find_some in Hre as [Hb%list_elem_of_In Hz%Z.eqb_eq]. rewrite elem_of_reverse in Hb. specialize (Hrange b Hb).
    eapply wp_mono; [apply taken_list; [done|done|]|].
    + simpl. destruct (b_lock (bufm (bs_buf s) b)) eqn:E; [|done]. pose proof (bo_lock _ _ _ (sh_bufs _ _ Hs b Hrange) E). lia.
    + intros b' s' H. eapply wp_mono; [exact H|]. intros b'' s'' [-> H2]. done.
Qed.

Lemma brelse_list n b l1 l2 : cv_held v !! n = Some b -> l = l1 ++ b :: l2 ->
  wp (brelse b) (fun _ s' => linked (bs_buf s') (if b_refcnt (bufm (bs_buf s) b) =? 1 then b :: l1 ++ l2 else l)) s.
Proof.
  intros H El. destruct (held_facts s v Hs n b H) as ((Hb & _) & Hlk & _ & _ & _ & Hpos).
  pose proof (shows_present s v Hs) as Hp. unfold brelse. apply wp_bind, wp_get; [done|lia|]. rewrite Hlk. cbn [negb].
  apply wp_bind, wp_upd; [done|lia|]. apply wp_bind, wp_get; [by apply present_insert|lia|].
  cbn [with_bufs bs_buf]. rewrite bufm_insert, decide_True by done. cbn [set_lock b_refcnt].
  apply wp_bind, wp_upd; [by apply present_insert|lia|]. cbn [with_bufs bs_buf bs_disk bs_writes].
  rewrite bufm_insert, decide_True, insert_insert_eq by done. set (r := b_refcnt (bufm (bs_buf s) b)) in *.
  rewrite u32_small by lia. set (x := set_refcnt (r - 1) _).
  assert (Hl1 : linked (<[b := x]> (bs_buf s)) l)
    by (apply (linked_fields (bs_buf s) b (fun y => set_refcnt (r - 1) (set_lock false y))); done).
  change (with_bufs _ (with_bufs _ s)) with (mk_bst (<[b := x]> (bs_buf s)) (bs_disk s) (bs_writes s)).
  apply wp_bind, wp_get; [apply Hl1|lia|]. cbn [bs_buf]. rewrite bufm_insert, decide_True by done.
  change (b_refcnt x) with (r - 1). replace (r - 1 =? 0) with (r =? 1) by lia. destruct (r =? 1); [|by wp_steps].
  apply (move_front s v Hs _ b l); [done|done|done|]. intros m' k1 k2 E Hm' _. cbn [bs_buf].
  replace (l1 ++ l2) with (k1 ++ k2); [done|]. rewrite El in E.
  pose proof (lk_nodup _ _ Hl) as Hnd. rewrite El in Hnd. by destruct (split_unique _ _ _ _ _ E Hnd) as [-> ->].
Qed.
End lru.

(** C39: replacement is by least recent use.  If the buffers are linked in the
    order [l], [bread] leaves the order as it is and returns the buffer that has
    the block or else the last unreferenced one of [l], reading the disk into
    it; [brelse] of the last reference moves the buffer to the front, of another
    reference leaves the order alone.  So the order is that of the last [brelse]
    that left the buffer without references; [bunpin] does not change it. *)
Theorem bcache_lru s v l n : bio_shows s v -> linked (bs_buf s) l -> l ≡ₚ range 0 NBUF -> can_get v n ->
  wp (bread ROOTDEV n) (fun b s' => linked (bs_buf s') l /\
    match cached (bs_buf s) ROOTDEV n l with Some b' => b = b' | None => recyclable (bs_buf s) l = Some b end) s /\
  forall k b l1 l2, cv_held v !! k = Some b -> l = l1 ++ b :: l2 ->
    wp (brelse b) (fun _ s' => linked (bs_buf s') (if b_refcnt (bufm (bs_buf s) b) =? 1 then b :: l1 ++ l2 else l)) s.
Proof.
  intros Hs Hl Hperm Hn. split; [by apply (bread_list s v l)|].
  intros k b l1 l2 Hk El. by apply (brelse_list s v l Hs Hl Hperm k b l1 l2).
Qed.

Lemma booted : exists s, binit (boot_bst ∅) = Done tt s /\ bio_shows s (fresh (dblock ∅) []).
Proof. destruct (proj1 (wp_Done _ _ _) (binit_spec ∅)) as ([] & s & Hr & Hs). by exists s. Qed.

Lemma bcache_lru_witness : exists s l, bio_shows s (fresh (dblock ∅) []) /\ linked (bs_buf s) l /\
  wp (bread ROOTDEV 7) (fun b s' => linked (bs_buf s') l /\
    match cached (bs_buf s) ROOTDEV 7 l with Some b' => b = b' | None => recyclable (bs_buf s) l = Some b end) s.
Proof.
  destruct booted as (s & _ & Hs). destruct (sh_list _ _ Hs) as (l & Hl & Hp). exists s, l. split; [exact Hs|]. split; [exact Hl|].
  apply (bcache_lru s (fresh (dblock ∅) []) l 7 Hs Hl Hp). split; [reflexivity|]. right. reflexivity.
Defined.
