(* ===== verification/Log.v ===== *)
(** * The log: kernel/log.c

    File system calls put the blocks they change into a transaction; the last
    call to end commits it: the blocks are copied to the log, the header block
    is written, which is the commit, the blocks are copied to their places and
    the header is cleared.  [initlog] repeats the copying after a crash.

    The code runs on the buffer cache through the interface of BioCache.v.
    [log.lock] protects single steps of the bookkeeping and is not
    represented; where the code would sleep, the model is [Blocked]. *)

From stdpp Require Import base numbers list gmap strings.
From Stdlib Require Import ZArith Lia.
From S2P Require Import Prelude Blocks Monad Codec Bio BioCache.
Open Scope Z_scope.

Definition LOGSIZE : Z := MAXOPBLOCKS * 3.

(** ** Integers in a block *)

Definition get32 (d : block) (off : Z) : Z := i32 (le_val (take 4 (drop (Z.to_nat off) d))).
Definition put32 (d : block) (off v : Z) : block :=
  take (Z.to_nat off) d ++ le_bytes 4 v ++ drop (Z.to_nat off + 4) d.

(** [struct log] with its [struct logheader]: [lg_n] is [lh.n], [lg_block] the
    array [lh.block] of [LOGSIZE] entries. *)
Record log := mk_log {
  lg_start : Z;
  lg_size : Z;
  lg_outstanding : Z;
  lg_committing : bool;
  lg_n : Z;
  lg_block : list Z;
}.
Definition set_n (n : Z) (l : log) : log :=
  mk_log (lg_start l) (lg_size l) (lg_outstanding l) (lg_committing l) n (lg_block l).
Definition set_blocks (bs : list Z) (l : log) : log :=
  mk_log (lg_start l) (lg_size l) (lg_outstanding l) (lg_committing l) (lg_n l) bs.
Definition set_ops (o : Z) (c : bool) (l : log) : log :=
  mk_log (lg_start l) (lg_size l) o c (lg_n l) (lg_block l).

Section log.
Context `{BC : BufferCache C}.

Record lst := mk_lst { l_cache : C; l_log : log }.
Abbreviation L := (M lst).

Definition in_cache {A} (c : M C A) : L A := lift l_cache (fun x s => mk_lst x (l_log s)) c.
Definition the_log : L log := gets l_log.
Definition mod_log (f : log -> log) : L unit := modify (fun s => mk_lst (l_cache s) (f (l_log s))).

(** [log.lh.block[i]], and the assignment to it *)
Definition lh_block (i : Z) : L Z := let! l := the_log in deref (znth (lg_block l) i).
Definition set_lh_block (i b : Z) : L unit :=
  let! _ := lh_block i in mod_log (fun l => set_blocks (zset (lg_block l) i b) l).

Definition install_trans (recovering : bool) : L unit :=
  let! l := the_log in
  forM (range 0 (lg_n l)) (fun tail =>
    let! lbuf := in_cache (c_bread (lg_start l + tail + 1)) in
    let! home := lh_block tail in
    let! dbuf := in_cache (c_bread home) in
    let! x := in_cache (c_data lbuf) in
    in_cache (c_set_data dbuf x);;
    in_cache (c_bwrite dbuf);;
    (if recovering then ret tt else in_cache (c_bunpin dbuf));;
    in_cache (c_brelse lbuf);;
    in_cache (c_brelse dbuf)).

Definition read_head : L unit :=
  let! l := the_log in
  let! buf := in_cache (c_bread (lg_start l)) in
  let! x := in_cache (c_data buf) in
  mod_log (set_n (get32 x 0));;
  forM (range 0 (get32 x 0)) (fun i => set_lh_block i (get32 x (4 + 4 * i)));;
  in_cache (c_brelse buf).

Definition write_head : L unit :=
  let! l := the_log in
  let! buf := in_cache (c_bread (lg_start l)) in
  let! x := in_cache (c_data buf) in
  in_cache (c_set_data buf (put32 x 0 (lg_n l)));;
  forM (range 0 (lg_n l)) (fun i =>
    let! b := lh_block i in
    let! x := in_cache (c_data buf) in
    in_cache (c_set_data buf (put32 x (4 + 4 * i) b)));;
  in_cache (c_bwrite buf);;
  in_cache (c_brelse buf).

Definition recover_from_log : L unit :=
  read_head;;
  install_trans true;;
  mod_log (set_n 0);;
  write_head.

(** [sizeof(struct logheader)] is [4 + 4 * LOGSIZE]. *)
Definition initlog (start nlog : Z) : L unit :=
  if BSIZE <=? 4 + 4 * LOGSIZE then panic "initlog: too big logheader"
  else
    mod_log (fun l => mk_log start nlog (lg_outstanding l) (lg_committing l) (lg_n l) (lg_block l));;
    recover_from_log.

(** The loop of [begin_op] either passes or sleeps. *)
Definition begin_op : L unit :=
  let! l := the_log in
  if lg_committing l then blocked
  else if LOGSIZE <? lg_n l + (lg_outstanding l + 1) * MAXOPBLOCKS then blocked
  else mod_log (fun l => set_ops (lg_outstanding l + 1) (lg_committing l) l).

Definition write_log : L unit :=
  let! l := the_log in
  forM (range 0 (lg_n l)) (fun tail =>
    let! to := in_cache (c_bread (lg_start l + tail + 1)) in
    let! home := lh_block tail in
    let! from := in_cache (c_bread home) in
    let! x := in_cache (c_data from) in
    in_cache (c_set_data to x);;
    in_cache (c_bwrite to);;
    in_cache (c_brelse from);;
    in_cache (c_brelse to)).

Definition commit : L unit :=
  let! l := the_log in
  if 0 <? lg_n l then
    write_log;;
    write_head;;
    install_trans false;;
    mod_log (set_n 0);;
    write_head
  else ret tt.

Definition end_op : L unit :=
  mod_log (fun l => set_ops (lg_outstanding l - 1) (lg_committing l) l);;
  let! l := the_log in
  if lg_committing l then panic "log.committing"
  else if lg_outstanding l =? 0 then
    mod_log (fun l => set_ops (lg_outstanding l) true l);;
    commit;;
    mod_log (fun l => set_ops (lg_outstanding l) false l)
  else ret tt.

(** The index at which [log_write] puts the block: where it already is, or the
    end. *)
Fixpoint log_index (blockno : Z) (bs : list Z) : Z :=
  match bs with
  | [] => 0
  | b :: bs => if b =? blockno then 0 else 1 + log_index blockno bs
  end.

Definition log_write (b : Z) : L unit :=
  let! l := the_log in
  if (LOGSIZE <=? lg_n l) || (lg_size l - 1 <=? lg_n l) then panic "too big a transaction"
  else if lg_outstanding l <? 1 then panic "log_write outside of trans"
  else
    let! blockno := in_cache (c_blockno b) in
    let i := log_index blockno (take (Z.to_nat (lg_n l)) (lg_block l)) in
    set_lh_block i blockno;;
    if i =? lg_n l then
      in_cache (c_bpin b);;
      mod_log (fun l => set_n (lg_n l + 1) l)
    else ret tt.

End log.

Arguments lst C : clear implicits.
