(* ===== verification/LogSteps.v ===== *)
(** * The header block of the log

    Lemmas on the integers of a block (Log.v), and the header as [write_head]
    builds it: it decodes to the numbers that were put in.  The second part is
    what the log does with the buffers it uses. *)

From stdpp Require Import base numbers list gmap strings.
From Stdlib Require Import ZArith Lia.
From S2P Require Import Prelude Blocks Monad Codec Bio BioCache Log.
Open Scope Z_scope.

Lemma put32_length d off v : 0 <= off -> off + 4 <= Z.of_nat (length d) -> length (put32 d off v) = length d.
Proof. intros. unfold put32. rewrite !length_app, length_take, length_drop, le_bytes_length. lia. Qed.

Lemma i32_mod z : - 2 ^ 31 <= z < 2 ^ 31 -> i32 (z mod 256 ^ Z.of_nat 4) = z.
Proof.
  intros. change (256 ^ Z.of_nat 4) with (2 ^ 32). unfold i32. rewrite Zplus_mod_idemp_l. by apply i32_small.
Qed.

Lemma get_put32_eq d off v : 0 <= off -> off + 4 <= Z.of_nat (length d) -> - 2 ^ 31 <= v < 2 ^ 31 ->
  get32 (put32 d off v) off = v.
Proof.
  intros. unfold get32, put32. rewrite drop_app_length' by (rewrite length_take; lia).
  rewrite take_app_length' by (by rewrite le_bytes_length). rewrite le_val_bytes. by apply i32_mod.
Qed.

Lemma get_put32_ne d off v off' : 0 <= off -> off + 4 <= Z.of_nat (length d) -> 0 <= off' ->
  off' + 4 <= off \/ off + 4 <= off' -> get32 (put32 d off v) off' = get32 d off'.
Proof.
  intros H1 H2 H3 [H|H]; unfold get32, put32; do 2 f_equal; apply list_eq; intros i;
    (destruct (decide (i < 4)%nat) as [Hi|Hi]; [|rewrite !lookup_take_ge by lia; done]);
    rewrite !lookup_take_lt, !lookup_drop by lia.
  - rewrite lookup_app_l by (rewrite length_take; lia). by rewrite lookup_take_lt by lia.
  - rewrite lookup_app_r by (rewrite length_take; lia).
    rewrite lookup_app_r by (rewrite le_bytes_length, length_take; lia).
    rewrite lookup_drop, le_bytes_length, length_take. f_equal. lia.
Qed.

(** The header block after [n] and the first [i] block numbers are stored. *)
Definition head_image (x : block) (n : Z) (bs : list Z) (i : Z) : block :=
  foldl (fun d j => put32 d (4 + 4 * j) (nth (Z.to_nat j) bs 0)) (put32 x 0 n) (range 0 i).

Lemma head_image_0 x n bs : head_image x n bs 0 = put32 x 0 n.
Proof. done. Qed.
Lemma head_image_S x n bs i : 0 <= i ->
  head_image x n bs (i + 1) = put32 (head_image x n bs i) (4 + 4 * i) (nth (Z.to_nat i) bs 0).
Proof.
  intros. unfold head_image. rewrite range_snoc by lia. replace (i + 1 - 1) with i by lia. by rewrite foldl_snoc.
Qed.

Section head.
Variables (x : block) (n : Z) (bs : list Z).
Hypothesis Hx : Z.of_nat (length x) = BSIZE.
Hypothesis Hn : 0 <= n <= LOGSIZE.
Hypothesis Hbs : Forall (fun b => - 2 ^ 31 <= b < 2 ^ 31) bs.

Lemma head_length i : 0 <= i <= LOGSIZE -> Z.of_nat (length (head_image x n bs i)) = BSIZE.
Proof.
  unfold LOGSIZE, MAXOPBLOCKS, BSIZE in *. intros [H1 H2]. revert H2. pattern i. apply natlike_ind; [..|done].
  - intros _. rewrite head_image_0, put32_length; lia.
  - intros j Hj IH Hi. unfold Z.succ in *. rewrite head_image_S, put32_length by (try rewrite IH; lia). apply IH. lia.
Qed.

Lemma head_image_n i : 0 <= i <= LOGSIZE -> get32 (head_image x n bs i) 0 = n.
Proof.
  intros [H1 H2]. revert H2. pattern i. apply natlike_ind; [..|done]; unfold LOGSIZE, MAXOPBLOCKS, BSIZE in *.
  - intros _. rewrite head_image_0, get_put32_eq; lia.
  - intros j Hj IH Hi. unfold Z.succ in *. pose proof (head_length j) as Hl.
    unfold LOGSIZE, MAXOPBLOCKS, BSIZE in Hl. rewrite head_image_S, get_put32_ne by lia. apply IH. lia.
Qed.

Lemma nth_range (j : nat) : - 2 ^ 31 <= nth j bs 0 < 2 ^ 31.
Proof.
  destruct (nth_in_or_default j bs 0) as [Hin| ->]; [|lia].
  apply list_elem_of_In in Hin. rewrite Forall_forall in Hbs. by apply Hbs.
Qed.

Lemma head_image_block i j : 0 <= j < i -> i <= LOGSIZE -> get32 (head_image x n bs i) (4 + 4 * j) = nth (Z.to_nat j) bs 0.
Proof.
  intros Hj. assert (0 <= i) as H0 by lia. revert Hj. pattern i. apply natlike_ind; [lia|..|done].
  intros k Hk IH Hj Hi. unfold Z.succ in *. pose proof (head_length k ltac:(lia)).
  pose proof (nth_range (Z.to_nat k)).
  unfold LOGSIZE, MAXOPBLOCKS, BSIZE in *. rewrite head_image_S by done. destruct (Z.eq_dec j k) as [->|Hne].
  - apply get_put32_eq; lia.
  - rewrite get_put32_ne by lia. apply IH; lia.
Qed.
End head.

(** * The steps of the log on the buffer cache

    What [write_log], [write_head], [install_trans] and [read_head] do to the
    blocks of a cache that satisfies [BufferCacheOK]: the view, the disk and
    the sequence of disk writes all advance by the same list of writes. *)

(** ** References *)

Definition refs_ok (R : gmap Z Z) : Prop := forall n r, R !! n = Some r -> 0 < r < 2 ^ 30.

Lemma ref_lookup R n k : ref R n !! k = if decide (k = n) then Some (default 0 (R !! n) + 1) else R !! k.
Proof. unfold ref. case_decide; [subst; apply lookup_insert_eq|by apply lookup_insert_ne]. Qed.

Lemma unref_ref' R n : 0 < default 1 (R !! n) -> unref (ref R n) n = R.
Proof.
  intros HR. unfold unref, ref. rewrite lookup_insert_eq. cbn [default from_option id].
  destruct (R !! n) as [r|] eqn:Hr; cbn [default from_option id].
  - simpl in HR. rewrite decide_False by lia. rewrite insert_insert_eq.
    replace (r + 1 - 1) with r by lia. by apply insert_id.
  - rewrite decide_True by lia. by apply delete_insert_id.
Qed.
Lemma unref_ref R n : refs_ok R -> unref (ref R n) n = R.
Proof. intros HR. apply unref_ref'. destruct (R !! n) eqn:Hn; simpl; [apply HR in Hn|]; lia. Qed.
Lemma unref_ref2 R n k : refs_ok R -> n <> k -> unref (ref (ref R n) k) k = ref R n.
Proof.
  intros HR Hne. apply unref_ref'. rewrite ref_lookup, decide_False by done.
  destruct (R !! k) eqn:Hn; simpl; [apply HR in Hn|]; lia.
Qed.
Lemma ref_comm R n k : n <> k -> ref (ref R n) k = ref (ref R k) n.
Proof.
  intros Hne. apply map_eq. intros j. rewrite !ref_lookup.
  destruct (decide (j = k)), (decide (j = n)); subst; try done; rewrite ?ref_lookup;
    repeat case_decide; subst; try done.
Qed.
Lemma ref_unref R n : refs_ok R -> is_Some (R !! n) -> ref (unref R n) n = R.
Proof.
  intros HR [r Hr]. pose proof (HR _ _ Hr). apply map_eq. intros k. unfold ref, unref. rewrite Hr. cbn [default from_option id].
  case_decide.
  - rewrite lookup_delete_eq, insert_delete_eq. cbn [default from_option id]. replace (0 + 1) with r by lia.
    by rewrite insert_id.
  - rewrite lookup_insert_eq, insert_insert_eq. cbn [default from_option id]. replace (r - 1 + 1) with r by lia.
    by rewrite insert_id.
Qed.
Lemma unref_lookup_ne R n k : k <> n -> unref R n !! k = R !! k.
Proof. intros. unfold unref. case_decide; by rewrite ?lookup_delete_ne, ?lookup_insert_ne by done. Qed.
Lemma refs_ok_unref R n : refs_ok R -> is_Some (R !! n) -> refs_ok (unref R n).
Proof.
  intros HR [r Hr] k x. pose proof (HR _ _ Hr). destruct (decide (k = n)) as [->|Hne]; [|rewrite unref_lookup_ne by done; apply HR].
  unfold unref. rewrite Hr. cbn [default from_option id]. case_decide.
  - by rewrite lookup_delete_eq.
  - rewrite lookup_insert_eq. intros [= <-]. lia.
Qed.
Lemma size_unref R n : is_Some (R !! n) -> (size (unref R n) <= size R)%nat.
Proof.
  intros Hn. unfold unref. case_decide; [apply map_subseteq_size, delete_subseteq|].
  destruct Hn as [x Hx]. by rewrite map_size_insert, Hx.
Qed.
Lemma size_ref R n : (size (ref R n) <= size R + 1)%nat.
Proof. unfold ref. rewrite map_size_insert. case_match; unfold id; lia. Qed.
Lemma few_ref R n V D H W : refs_ok R -> few_refs (mk_cview V D (ref R n) H W).
Proof.
  intros HR k r. cbn [cv_refs]. rewrite ref_lookup. case_decide.
  - intros [= <-]. destruct (R !! n) eqn:Hn; simpl; [apply HR in Hn|]; lia.
  - intros Hk%HR. lia.
Qed.
Lemma few_ok R V D H W : refs_ok R -> few_refs (mk_cview V D R H W).
Proof. intros HR k r Hk%HR. lia. Qed.

(** ** Writes *)

Definition apply_writes (F : blocks) (ws : list (Z * block)) : blocks :=
  foldl (fun F w => bupd F w.1 w.2) F ws.

(** The cache after writes that also change the view. *)
Definition push (v : cview) (ws : list (Z * block)) : cview :=
  mk_cview (apply_writes (cv_view v) ws) (apply_writes (cv_disk v) ws) (cv_refs v) (cv_held v) (cv_writes v ++ ws).
Definition with_refs (R : gmap Z Z) (v : cview) : cview :=
  mk_cview (cv_view v) (cv_disk v) R (cv_held v) (cv_writes v).

Lemma apply_writes_app F a b : apply_writes F (a ++ b) = apply_writes (apply_writes F a) b.
Proof. apply foldl_app. Qed.
Lemma push_app v a b : push (push v a) b = push v (a ++ b).
Proof. unfold push. cbn [cv_view cv_disk cv_refs cv_held cv_writes]. by rewrite !apply_writes_app, app_assoc. Qed.
Lemma push_nil v : push v [] = v.
Proof. destruct v. unfold push. simpl. by rewrite app_nil_r. Qed.
Lemma apply_writes_out F ws n : n ∉ ws.*1 -> apply_writes F ws n = F n.
Proof.
  revert F. induction ws as [|[k x] ws IH]; [done|]. intros F Hn. rewrite fmap_cons, not_elem_of_cons in Hn.
  cbn [apply_writes foldl]. fold (apply_writes (bupd F k x) ws). rewrite IH by apply Hn. apply bupd_ne. apply Hn.
Qed.
(** Every write to block [n] writes [x]. *)
Lemma apply_writes_in F ws n x : n ∈ ws.*1 -> (forall y, (n, y) ∈ ws -> y = x) -> apply_writes F ws n = x.
Proof.
  induction ws as [|[k y] ws IH] using rev_ind; [set_solver|]. intros Hn Hx. rewrite apply_writes_app. cbn [apply_writes foldl].
  destruct (decide (n = k)) as [->|Hne].
  - rewrite bupd_eq. apply Hx. set_solver.
  - rewrite bupd_ne by done. apply IH; [rewrite fmap_app in Hn; set_solver|]. intros z Hz. apply Hx. set_solver.
Qed.
Lemma apply_writes_same F G ws n : F n = G n -> apply_writes F ws n = apply_writes G ws n.
Proof.
  revert F G. induction ws as [|[k x] ws IH]; [done|]. intros F G H. cbn [apply_writes foldl].
  apply IH. unfold bupd. by case_decide.
Qed.

Section steps.
Context {C : Type} {BC : BufferCache C} {OK : BufferCacheOK C}.
Implicit Types (c : C) (lg : log) (v : cview).

(** ** The operations of the cache inside the log *)

Lemma wp_cache {A} (m : M C A) (Q : A -> lst C -> Prop) c lg :
  wp m (fun a c' => Q a (mk_lst c' lg)) c -> wp (in_cache m) Q (mk_lst c lg).
Proof. intros H. by apply wp_lift. Qed.

Lemma wp_block (Q : Z -> lst C -> Prop) i c lg b : znth (lg_block lg) i = Some b -> Q b (mk_lst c lg) ->
  wp (lh_block i) Q (mk_lst c lg).
Proof. intros Hi HQ. unfold lh_block, the_log. apply wp_bind, wp_gets. by apply (wp_deref _ b). Qed.

(** No buffer is locked, and the counts are small. *)
Definition idle v : Prop := cv_held v = ∅ /\ refs_ok (cv_refs v).

(** Two buffers are read, [n] and then [k], and both are released in the end. *)
Lemma two_breads n k v c lg (body : Z -> Z -> M (lst C) unit) (R : unit -> lst C -> Prop) :
  c_shows c v -> idle v -> n <> k -> Z.of_nat (size (cv_refs v)) < NBUF ->
  is_Some (cv_refs v !! k) \/ Z.of_nat (size (cv_refs v)) + 1 < NBUF ->
  (forall c' a b, c_shows c' (mk_cview (cv_view v) (cv_disk v) (ref (ref (cv_refs v) n) k) {[n := a; k := b]} (cv_writes v)) ->
    wp (body a b) R (mk_lst c' lg)) ->
  forall home, (forall Q c, Q k (mk_lst c lg) -> wp home Q (mk_lst c lg)) ->
  wp (let! a := in_cache (c_bread n) in
      let! h := home in
      let! b := in_cache (c_bread h) in
      body a b) R (mk_lst c lg).
Proof.
  intros Hs [Hh HR] Hne Hsz Hk Hbody home Hhome. destruct v as [V D Rf Hd W]. cbn [cv_view cv_disk cv_refs cv_held cv_writes] in *. subst Hd.
  apply wp_bind, wp_cache. eapply wp_mono; [apply (bread_ok n _ c Hs)|].
  - split; [done|by right].
  - by apply few_ok.
  - cbn [cv_view cv_disk cv_refs cv_held cv_writes]. intros a c1 Hs1. apply wp_bind, Hhome.
    apply wp_bind, wp_cache. eapply wp_mono; [apply (bread_ok k _ c1 Hs1)|].
    + split; cbn [cv_refs cv_held]; [by rewrite lookup_insert_ne|]. rewrite ref_lookup, decide_False by done.
      destruct Hk as [Hk|Hk]; [by left|right]. pose proof (size_ref Rf n). lia.
    + by apply few_ref.
    + cbn [cv_view cv_disk cv_refs cv_held cv_writes]. intros b c2 Hs2. apply Hbody.
      rewrite insert_insert_ne in Hs2 by done. by rewrite insert_empty in Hs2.
Qed.

Ltac cv := cbn [cv_view cv_disk cv_refs cv_held cv_writes].

(** A block copied to the log, and a block copied back. *)
Lemma copy_to_log n k v c lg a b : n <> k -> refs_ok (cv_refs v) -> cv_held v = ∅ -> is_Some (cv_refs v !! k) ->
  c_shows c (mk_cview (cv_view v) (cv_disk v) (ref (ref (cv_refs v) n) k) {[n := a; k := b]} (cv_writes v)) ->
  wp (let! x := in_cache (c_data b) in
      in_cache (c_set_data a x);;
      in_cache (c_bwrite a);;
      in_cache (c_brelse b);;
      in_cache (c_brelse a))
    (fun _ s => exists c', s = mk_lst c' lg /\ c_shows c' (push v [(n, cv_view v k)])) (mk_lst c lg).
Proof.
  intros Hne HR Hh [r Hr] Hs. destruct v as [V D R Hd W]. cbn [cv_view cv_disk cv_refs cv_held cv_writes] in *. subst Hd.
  pose proof (HR _ _ Hr) as Hr0.
  apply wp_bind, wp_cache. eapply wp_mono; [apply (data_ok k b _ c Hs); cv; by simplify_map_eq|]. intros x c1 [-> ->]. cv.
  apply wp_bind, wp_cache. eapply wp_mono; [apply (set_data_ok n a _ _ c Hs); cv; by simplify_map_eq|]. cv. intros _ c2 H2.
  apply wp_bind, wp_cache. eapply wp_mono; [apply (bwrite_ok n a _ c2 H2); cv; by simplify_map_eq|]. cv. intros _ c3 H3.
  rewrite bupd_eq in H3. apply wp_bind, wp_cache. eapply wp_mono; [apply (brelse_ok k b _ c3 H3); cv; [by simplify_map_eq|]|].
  { rewrite ref_lookup, decide_True, ref_lookup, decide_False, Hr by done. simpl. intros [= Hx]. lia. }
  cv. intros _ c4 H4. rewrite delete_insert_ne, delete_singleton_eq, insert_empty in H4 by done.
  rewrite unref_ref2 in H4 by done. apply wp_cache. eapply wp_mono; [apply (brelse_ok n a _ c4 H4); cv; [by simplify_map_eq|]|].
  { by rewrite !bupd_eq. }
  cv. intros _ c5 H5. rewrite delete_singleton_eq, unref_ref in H5 by done. by exists c5.
Qed.

Lemma copy_home (recovering : bool) n k v c lg a b : n <> k -> refs_ok (cv_refs v) -> cv_held v = ∅ ->
  cv_view v n = cv_disk v n -> (recovering = false -> is_Some (cv_refs v !! k)) ->
  c_shows c (mk_cview (cv_view v) (cv_disk v) (ref (ref (cv_refs v) n) k) {[n := a; k := b]} (cv_writes v)) ->
  wp (let! x := in_cache (c_data a) in
      in_cache (c_set_data b x);;
      in_cache (c_bwrite b);;
      (if recovering then ret tt else in_cache (c_bunpin b));;
      in_cache (c_brelse a);;
      in_cache (c_brelse b))
    (fun _ s => exists c', s = mk_lst c' lg /\
      c_shows c' (with_refs (if recovering then cv_refs v else unref (cv_refs v) k) (push v [(k, cv_view v n)])))
    (mk_lst c lg).
Proof.
  intros Hne HR Hh Hcl Hk Hs. destruct v as [V D R Hd W]. cbn [cv_view cv_disk cv_refs cv_held cv_writes] in *. subst Hd.
  apply wp_bind, wp_cache. eapply wp_mono; [apply (data_ok n a _ c Hs); cv; by simplify_map_eq|]. intros x c1 [-> ->]. cv.
  apply wp_bind, wp_cache. eapply wp_mono; [apply (set_data_ok k b _ _ c Hs); cv; by simplify_map_eq|]. cv. intros _ c2 H2.
  apply wp_bind, wp_cache. eapply wp_mono; [apply (bwrite_ok k b _ c2 H2); cv; by simplify_map_eq|]. cv. intros _ c3 H3.
  rewrite bupd_eq in H3. apply wp_bind.
  apply (wp_mono _ (fun _ s => exists c', s = mk_lst c' lg /\ c_shows c' (mk_cview (bupd V k (V n)) (bupd D k (V n))
    (ref (ref (if recovering then R else unref R k) n) k) {[n := a; k := b]} (W ++ [(k, V n)])))).
  { destruct recovering; [apply wp_ret; by exists c3|]. destruct (Hk eq_refl) as [r Hr]. pose proof (HR _ _ Hr).
    apply wp_cache. eapply wp_mono; [apply (bunpin_ok k b (r + 1) _ c3 H3); cv; [by simplify_map_eq| |lia]|].
    - by rewrite ref_lookup, decide_True, ref_lookup, decide_False, Hr.
    - cv. intros _ c4 H4. exists c4. split; [done|].
      rewrite ref_comm, ref_unref by (done || by exists r). by rewrite unref_ref2 in H4. }
  intros _ ? (c4 & -> & H4). set (R' := if recovering then R else unref R k) in *.
  assert (HR' : refs_ok R') by (unfold R'; destruct recovering; [done|]; apply refs_ok_unref; auto).
  apply wp_bind, wp_cache. eapply wp_mono; [apply (brelse_ok n a _ c4 H4); cv; [by simplify_map_eq|]|].
  { by rewrite !bupd_ne. }
  cv. intros _ c5 H5. rewrite ref_comm, unref_ref2, delete_insert_eq in H5 by done.
  rewrite delete_singleton_ne in H5 by done.
  apply wp_cache. eapply wp_mono; [apply (brelse_ok k b _ c5 H5); cv; [by simplify_map_eq|]|].
  { by rewrite !bupd_eq. }
  cv. intros _ c6 H6. rewrite delete_singleton_eq, unref_ref in H6 by done. by exists c6.
Qed.
End steps.
