(* ===== verification/LogCrash.v ===== *)
(** * Whole runs of the log: commit and recovery

    The loops of log.c, and from them [commit] and [recover_from_log]: what
    they write to the disk, in order. *)

From stdpp Require Import base numbers list gmap strings.
From Stdlib Require Import ZArith Lia.
From S2P Require Import Prelude Blocks Monad Codec Bio BioCache Log LogSteps.
Open Scope Z_scope.

(** Blocks outside the log, which has [nlog] blocks from [start]. *)
Definition home (nlog start b : Z) : Prop := b < start \/ start + nlog <= b.

Definition nthz (bs : list Z) (i : Z) : Z := nth (Z.to_nat i) bs 0.
Lemma znth_nthz bs i : 0 <= i < Z.of_nat (length bs) -> znth bs i = Some (nthz bs i).
Proof.
  intros Hi. unfold znth, nthz. destruct (Z.ltb_spec i 0); [lia|].
  rewrite nth_lookup. destruct (lookup_lt_is_Some_2 bs (Z.to_nat i)) as [x Hx]; [lia|]. by rewrite Hx.
Qed.

(** The writes of the three loops. *)
Definition log_writes (start : Z) (bs : list Z) (V : blocks) (n : Z) : list (Z * block) :=
  map (fun j => (start + j + 1, V (nthz bs j))) (range 0 n).
Definition home_writes (start : Z) (bs : list Z) (V : blocks) (n : Z) : list (Z * block) :=
  map (fun j => (nthz bs j, V (start + j + 1))) (range 0 n).
Definition unpinned (R : gmap Z Z) (bs : list Z) (n : Z) : gmap Z Z :=
  foldl (fun R j => unref R (nthz bs j)) R (range 0 n).

Lemma range_step i : 0 <= i -> range 0 (i + 1) = range 0 i ++ [i].
Proof. intros. rewrite range_snoc by lia. by replace (i + 1 - 1) with i by lia. Qed.
Lemma log_writes_S start bs V i : 0 <= i ->
  log_writes start bs V (i + 1) = log_writes start bs V i ++ [(start + i + 1, V (nthz bs i))].
Proof. intros. unfold log_writes. by rewrite range_step, map_app. Qed.
Lemma home_writes_S start bs V i : 0 <= i ->
  home_writes start bs V (i + 1) = home_writes start bs V i ++ [(nthz bs i, V (start + i + 1))].
Proof. intros. unfold home_writes. by rewrite range_step, map_app. Qed.
Lemma unpinned_S R bs i : 0 <= i -> unpinned R bs (i + 1) = unref (unpinned R bs i) (nthz bs i).
Proof. intros. unfold unpinned. by rewrite range_step, foldl_snoc. Qed.

Lemma log_writes_dom start bs V n k : k ∈ (log_writes start bs V n).*1 -> start + 1 <= k <= start + n.
Proof.
  unfold log_writes. rewrite <- list_fmap_compose. intros (j & -> & Hj%elem_of_range)%list_elem_of_fmap. simpl. lia.
Qed.
Lemma home_writes_dom start bs V n k : k ∈ (home_writes start bs V n).*1 -> exists j, 0 <= j < n /\ k = nthz bs j.
Proof.
  unfold home_writes. rewrite <- list_fmap_compose. intros (j & -> & Hj%elem_of_range)%list_elem_of_fmap. by exists j.
Qed.

(** The header in memory is meaningful: the blocks it names are outside the
    log. *)
Record log_ok (lg : log) : Prop := {
  lo_len : Z.of_nat (length (lg_block lg)) = LOGSIZE;
  lo_n : 0 <= lg_n lg <= LOGSIZE;
  lo_fit : lg_n lg < lg_size lg;
  lo_home : forall j, 0 <= j < lg_n lg -> home (lg_size lg) (lg_start lg) (nthz (lg_block lg) j);
}.

Section runs.
Context {C : Type} {BC : BufferCache C} {OK : BufferCacheOK C}.
Implicit Types (c : C) (lg : log) (v : cview).

(** A cache in which [free] more blocks can be had. *)
Definition roomy (free : Z) v : Prop := idle v /\ Z.of_nat (size (cv_refs v)) + free <= NBUF.

Lemma roomy_push free v ws : roomy free v -> roomy free (push v ws).
Proof. done. Qed.

Lemma write_log_spec c lg v : c_shows c v -> roomy 1 v -> log_ok lg ->
  (forall j, 0 <= j < lg_n lg -> is_Some (cv_refs v !! nthz (lg_block lg) j)) ->
  wp write_log (fun _ s => exists c', s = mk_lst c' lg /\
    c_shows c' (push v (log_writes (lg_start lg) (lg_block lg) (cv_view v) (lg_n lg)))) (mk_lst c lg).
Proof.
  intros Hs Hroom [Hlen Hn Hfit Hhome] Hpin. unfold write_log, the_log. apply wp_bind, wp_gets. cbn [l_log].
  apply (wp_forM (fun i s => exists c', s = mk_lst c' lg /\
    c_shows c' (push v (log_writes (lg_start lg) (lg_block lg) (cv_view v) i)))).
  - lia.
  - exists c. by rewrite push_nil.
  - intros i s Hi (c1 & -> & H1). set (ws := log_writes _ _ _ i) in *. set (b := nthz (lg_block lg) i).
    assert (Hb : b ∉ ws.*1).
    { intros Hd%log_writes_dom. pose proof (Hhome i Hi) as Hh. fold b in Hh. unfold home in Hh. lia. }
    destruct Hroom as [[Hheld HR] Hsz].
    assert (Hne : lg_start lg + i + 1 <> b) by (destruct (Hhome i Hi); unfold b; lia).
    eapply (two_breads (lg_start lg + i + 1) b (push v ws) c1 lg _ _ H1); [done|done|cbn [push cv_refs]; lia|left; by apply Hpin| |].
    + intros c2 x y H2. eapply wp_mono; [apply (copy_to_log _ _ (push v ws) _ _ _ _ Hne); [..|exact H2]|].
      * done.
      * done.
      * by apply Hpin.
      * intros _ s (c3 & -> & H3). exists c3. split; [done|]. rewrite push_app in H3. cbn [push cv_view] in H3.
        rewrite apply_writes_out in H3 by done. by rewrite log_writes_S by lia.
    + intros Q c2 HQ. apply (wp_block _ _ _ _ b); [|done]. apply znth_nthz. lia.
  - intros s (c' & -> & H'). by exists c'.
Qed.

Lemma write_head_spec c lg v : c_shows c v -> roomy 1 v -> log_ok lg ->
  wp write_head (fun _ s => exists c', s = mk_lst c' lg /\
    c_shows c' (push v [(lg_start lg, head_image (cv_view v (lg_start lg)) (lg_n lg) (lg_block lg) (lg_n lg))])) (mk_lst c lg).
Proof.
  intros Hs [[Hh HR] Hsz] [Hlen Hn _ _]. destruct v as [V D R Hd W]. cbn [cv_view cv_disk cv_refs cv_held cv_writes] in *. subst Hd.
  unfold write_head, the_log. apply wp_bind, wp_gets. cbn [l_log]. set (start := lg_start lg). set (n := lg_n lg).
  apply wp_bind, wp_cache. eapply wp_mono; [apply (bread_ok start _ c Hs); [|by apply few_ok]|].
  { split; [done|]. right. cbn [cv_refs]. lia. }
  cbn [cv_view cv_disk cv_refs cv_held cv_writes]. intros b c1 H1. rewrite insert_empty in H1.
  apply wp_bind, wp_cache. eapply wp_mono; [apply (data_ok start b _ c1 H1), lookup_singleton_eq|]. intros x _ [-> ->].
  cbn [cv_view]. apply wp_bind, wp_cache. eapply wp_mono; [apply (set_data_ok start b _ _ c1 H1), lookup_singleton_eq|].
  cbn [cv_view cv_disk cv_refs cv_held cv_writes]. intros _ c2 H2. apply wp_bind.
  apply (wp_forM (fun i s => exists c', s = mk_lst c' lg /\
    c_shows c' (mk_cview (bupd V start (head_image (V start) n (lg_block lg) i)) D (ref R start) {[start := b]} W))).
  - lia.
  - by exists c2.
  - intros i s Hi (c3 & -> & H3). apply wp_bind, (wp_block _ _ _ _ (nthz (lg_block lg) i)); [apply znth_nthz; lia|].
    apply wp_bind, wp_cache. eapply wp_mono; [apply (data_ok start b _ c3 H3), lookup_singleton_eq|]. intros x _ [-> ->].
    apply wp_cache. eapply wp_mono; [apply (set_data_ok start b _ _ c3 H3), lookup_singleton_eq|].
    cbn [cv_view cv_disk cv_refs cv_held cv_writes]. intros _ c4 H4. rewrite bupd_eq in H4. exists c4. split; [done|].
    rewrite head_image_S by lia. eapply shows_ext in H4; [exact H4|..]; [|done]. intros k. cbn [cv_view]. unfold bupd. by case_decide.
  - intros s (c3 & -> & H3). apply wp_bind, wp_cache. eapply wp_mono; [apply (bwrite_ok start b _ c3 H3), lookup_singleton_eq|].
    cbn [cv_view cv_disk cv_refs cv_held cv_writes]. intros _ c4 H4. rewrite bupd_eq in H4.
    apply wp_cache. eapply wp_mono; [apply (brelse_ok start b _ c4 H4); [apply lookup_singleton_eq|]|].
    { cbn [cv_view cv_disk]. by rewrite !bupd_eq. }
    cbn [cv_view cv_disk cv_refs cv_held cv_writes]. intros _ c5 H5.
    rewrite delete_singleton_eq, unref_ref in H5 by done. by exists c5.
Qed.

(** Blocks still pinned while the first [i] are unpinned. *)
Lemma unpinned_facts R bs n i : refs_ok R -> 0 <= i <= n -> n <= Z.of_nat (length bs) -> NoDup (take (Z.to_nat n) bs) ->
  (forall j, 0 <= j < n -> is_Some (R !! nthz bs j)) ->
  refs_ok (unpinned R bs i) /\ (size (unpinned R bs i) <= size R)%nat /\
  (forall j, i <= j < n -> is_Some (unpinned R bs i !! nthz bs j)).
Proof.
  intros HR [H0 Hi] Hn Hnd Hpin. revert Hi. pattern i. apply natlike_ind; [..|done].
  - intros _. split_and!; [done|done|]. intros j Hj. apply Hpin. lia.
  - intros k Hk IH Hi. unfold Z.succ in *. destruct (IH ltac:(lia)) as (I1 & I2 & I3). rewrite unpinned_S by lia.
    split_and!; [apply refs_ok_unref; [done|apply I3; lia]|etransitivity; [apply size_unref, I3; lia|done]|].
    intros j Hj. rewrite unref_lookup_ne; [apply I3; lia|]. intros Heq.
    assert (Z.to_nat j = Z.to_nat k); [|lia]. eapply (NoDup_lookup _ _ _ _ Hnd).
    + rewrite lookup_take_lt by lia. pose proof (znth_nthz bs j ltac:(lia)) as E. unfold znth in E.
      destruct (Z.ltb_spec j 0); [lia|]. exact E.
    + rewrite lookup_take_lt by lia. pose proof (znth_nthz bs k ltac:(lia)) as E. unfold znth in E.
      destruct (Z.ltb_spec k 0); [lia|]. rewrite Heq. exact E.
Qed.

(** [install_trans]; at a commit ([recovering = false]) the blocks are pinned. *)
Lemma install_spec (recovering : bool) c lg v : c_shows c v -> roomy (if recovering then 2 else 1) v -> log_ok lg ->
  (forall j, 0 <= j < lg_n lg -> cv_view v (lg_start lg + j + 1) = cv_disk v (lg_start lg + j + 1)) ->
  (recovering = false -> NoDup (take (Z.to_nat (lg_n lg)) (lg_block lg)) /\
    forall j, 0 <= j < lg_n lg -> is_Some (cv_refs v !! nthz (lg_block lg) j)) ->
  wp (install_trans recovering) (fun _ s => exists c', s = mk_lst c' lg /\
    c_shows c' (with_refs (if recovering then cv_refs v else unpinned (cv_refs v) (lg_block lg) (lg_n lg))
      (push v (home_writes (lg_start lg) (lg_block lg) (cv_view v) (lg_n lg))))) (mk_lst c lg).
Proof.
  intros Hs [[Hheld HR] Hsz] [Hlen Hn Hfit Hhome] Hclean Hpin. unfold install_trans, the_log. apply wp_bind, wp_gets. cbn [l_log].
  set (Rf i := if recovering then cv_refs v else unpinned (cv_refs v) (lg_block lg) i).
  assert (HRf : forall i, 0 <= i <= lg_n lg -> refs_ok (Rf i) /\ (size (Rf i) <= size (cv_refs v))%nat /\
    (recovering = false -> i < lg_n lg -> is_Some (Rf i !! nthz (lg_block lg) i))).
  { intros i Hi. unfold Rf. destruct recovering; [done|]. destruct (Hpin eq_refl) as [Hnd Hp].
    destruct (unpinned_facts (cv_refs v) (lg_block lg) (lg_n lg) i) as (I1 & I2 & I3); [done|lia|lia|done|done|].
    split_and!; [done|done|]. intros _ Hlt. apply I3. lia. }
  apply (wp_forM (fun i s => exists c', s = mk_lst c' lg /\
    c_shows c' (with_refs (Rf i) (push v (home_writes (lg_start lg) (lg_block lg) (cv_view v) i))))).
  - lia.
  - exists c. split; [done|]. unfold Rf. rewrite push_nil. destruct v, recovering; done.
  - intros i s Hi (c1 & -> & H1). set (ws := home_writes _ _ _ i) in *. set (b := nthz (lg_block lg) i).
    set (v1 := with_refs (Rf i) (push v ws)) in *. destruct (HRf i ltac:(lia)) as (I1 & I2 & I3).
    assert (Hout : forall j, 0 <= j < lg_n lg -> lg_start lg + j + 1 ∉ ws.*1).
    { intros j Hj (k & Hk & E)%home_writes_dom. destruct (Hhome k ltac:(lia)); lia. }
    assert (Hne : lg_start lg + i + 1 <> b) by (destruct (Hhome i Hi); unfold b; lia).
    eapply (two_breads (lg_start lg + i + 1) b v1 c1 lg _ _ H1); [done|done| | | |].
    + change (cv_refs v1) with (Rf i). destruct recovering; lia.
    + change (cv_refs v1) with (Rf i). destruct recovering; [right; lia|left; apply I3; [done|lia]].
    + intros c2 x y H2. eapply wp_mono; [apply (copy_home recovering _ _ v1 _ _ _ _ Hne); [done|done| | |exact H2]|].
      * cbn [v1 with_refs push cv_view cv_disk]. rewrite !apply_writes_out by (by apply Hout). by apply Hclean.
      * intros Hrec. apply I3; [done|lia].
      * intros _ s (c3 & -> & H3). exists c3. split; [done|].
        change (cv_view v1 (lg_start lg + i + 1)) with (apply_writes (cv_view v) ws (lg_start lg + i + 1)) in H3.
        rewrite apply_writes_out in H3 by (by apply Hout). rewrite home_writes_S by lia. rewrite <- push_app.
        replace (Rf (i + 1)) with (if recovering then cv_refs v1 else unref (cv_refs v1) b); [exact H3|].
        unfold Rf. destruct recovering; [done|]. by rewrite unpinned_S by lia.
    + intros Q c2 HQ. apply (wp_block _ _ _ _ b); [|done]. apply znth_nthz. lia.
  - intros s (c' & -> & H'). by exists c'.
Qed.
End runs.

(** * Crashes and recovery

    [holds nlog start F D]: recovery from disk [D] gives contents [F] to the blocks
    outside the log.  Each disk between two writes of [recover_from_log] holds
    what the first one did; the writes of [commit] split into those before the
    header is written, which leave the old contents to be recovered, and the
    rest, which are the writes of a recovery to the new contents. *)

(** ** The disk *)

Section disk.
Variables nlog start : Z.

(** The header on a disk. *)
Definition head_n (D : blocks) : Z := get32 (D start) 0.
Definition head_block (D : blocks) (j : Z) : Z := get32 (D start) (4 + 4 * j).

(** The writes of a recovery from [D]. *)
Definition recovery_writes (D : blocks) : list (Z * block) :=
  map (fun j => (head_block D j, D (start + j + 1))) (range 0 (head_n D)) ++ [(start, put32 (D start) 0 0)].

Record holds (F D : blocks) : Prop := {
  ho_len : Z.of_nat (length (D start)) = BSIZE;
  ho_n : 0 <= head_n D <= LOGSIZE;
  ho_fit : head_n D < nlog;
  ho_home : forall j, 0 <= j < head_n D -> home nlog start (head_block D j);
  ho_log : forall j, 0 <= j < head_n D -> D (start + j + 1) = F (head_block D j);
  ho_rest : forall b, home nlog start b -> (forall j, 0 <= j < head_n D -> head_block D j <> b) -> D b = F b;
}.

Lemma not_home b : start <= b < start + nlog -> ~ home nlog start b.
Proof. unfold home. lia. Qed.

Lemma start_not_home F D : holds F D -> ~ home nlog start start.
Proof. intros [_ H1 H2 _ _ _]. apply not_home. lia. Qed.

(** Writes to blocks outside the log that are named in the header. *)
Lemma holds_home_writes F D ws : holds F D ->
  (forall b, b ∈ ws.*1 -> exists j, 0 <= j < head_n D /\ b = head_block D j) -> holds F (apply_writes D ws).
Proof.
  intros [H1 H2 H6 H3 H4 H5] Hws.
  assert (Hlog : forall b, start <= b < start + nlog -> apply_writes D ws b = D b).
  { intros b Hb. apply apply_writes_out. intros (j & Hj & ->)%Hws. by apply (not_home _ Hb), H3. }
  assert (Hs : apply_writes D ws start = D start) by (apply Hlog; lia).
  assert (En : head_n (apply_writes D ws) = head_n D) by (unfold head_n; by rewrite Hs).
  assert (Eb : forall j, head_block (apply_writes D ws) j = head_block D j) by (intros; unfold head_block; by rewrite Hs).
  constructor; rewrite ?En, ?Hs; try done.
  - intros j Hj. rewrite Eb. by apply H3.
  - intros j Hj. rewrite Eb, Hlog by lia. by apply H4.
  - intros b Hb Hne. rewrite apply_writes_out.
    + apply H5; [done|]. intros j Hj. rewrite <- Eb. by apply Hne.
    + intros (j & Hj & ->)%Hws. apply (Hne j Hj). apply Eb.
Qed.

(** Clearing the header of a disk on which the blocks are in place. *)
Lemma holds_clear F D : holds F D -> (forall b, home nlog start b -> D b = F b) ->
  holds F (bupd D start (put32 (D start) 0 0)).
Proof.
  intros Hh HF. pose proof (start_not_home _ _ Hh) as Hst. destruct Hh as [H1 H2 H6 H3 H4 H5].
  assert (En : head_n (bupd D start (put32 (D start) 0 0)) = 0).
  { unfold head_n. rewrite bupd_eq. apply get_put32_eq; unfold BSIZE in *; lia. }
  constructor; rewrite ?En; try (intros; lia).
  - rewrite bupd_eq, put32_length by (unfold BSIZE in *; lia). done.
  - intros b Hb _. rewrite bupd_ne; [by apply HF|]. by intros ->.
Qed.

Lemma recovery_dom F D k b : holds F D ->
  b ∈ (take k (map (fun j => (head_block D j, D (start + j + 1))) (range 0 (head_n D)))).*1 ->
  exists j, 0 <= j < head_n D /\ b = head_block D j.
Proof.
  intros _ (w & -> & Hw)%list_elem_of_fmap. apply (subseteq_take k) in Hw.
  apply list_elem_of_fmap in Hw as (j & -> & Hj%elem_of_range). by exists j.
Qed.

(** Once the blocks are copied they are in place. *)
Lemma installed F D b : holds F D -> home nlog start b ->
  apply_writes D (map (fun j => (head_block D j, D (start + j + 1))) (range 0 (head_n D))) b = F b.
Proof.
  intros [H1 H2 H6 H3 H4 H5] Hb. set (ws := map _ _).
  destruct (decide (b ∈ ws.*1)) as [Hin|Hout].
  - apply apply_writes_in; [done|]. intros y (j & [= -> ->] & Hj%elem_of_range)%list_elem_of_fmap. by apply H4.
  - rewrite apply_writes_out by done. apply H5; [done|]. intros j Hj Heq. apply Hout.
    apply list_elem_of_fmap. exists (head_block D j, D (start + j + 1)). split; [done|].
    apply list_elem_of_fmap. exists j. split; [done|]. by apply elem_of_range.
Qed.

Lemma take_snoc_cases {A} k (l : list A) x : take k (l ++ [x]) = take k l \/ take k (l ++ [x]) = l ++ [x].
Proof.
  destruct (decide (k <= length l)%nat).
  - left. by rewrite take_app_le.
  - right. apply take_ge. rewrite length_app. simpl. lia.
Qed.

(** A crash during recovery loses nothing. *)
Lemma recovery_holds F D k : holds F D -> holds F (apply_writes D (take k (recovery_writes D))).
Proof.
  intros HF. unfold recovery_writes. set (ws := map _ _).
  destruct (take_snoc_cases k ws (start, put32 (D start) 0 0)) as [->| ->].
  - apply holds_home_writes; [done|]. intros b. by apply (recovery_dom F).
  - rewrite apply_writes_app. assert (HD : holds F (apply_writes D ws)).
    { apply holds_home_writes; [done|]. intros b. rewrite <- (firstn_all ws). by apply (recovery_dom F). }
    replace (D start) with (apply_writes D ws start).
    + apply holds_clear; [done|]. intros b Hb. by apply installed.
    + apply apply_writes_out. rewrite <- (firstn_all ws). intros (j & Hj & E)%(recovery_dom F); [|done].
      pose proof (ho_home _ _ HF j Hj) as Hh. rewrite <- E in Hh.
      by apply (start_not_home _ _ HF).
Qed.

(** Recovery puts the blocks in place and clears the header. *)
Lemma recovered F D : holds F D -> let D' := apply_writes D (recovery_writes D) in
  (forall b, home nlog start b -> D' b = F b) /\ head_n D' = 0.
Proof.
  intros HF. cbv zeta. unfold recovery_writes. rewrite apply_writes_app. cbn [apply_writes foldl fst snd]. split.
  - intros b Hb. rewrite bupd_ne; [by apply installed|]. intros ->. by apply (start_not_home _ _ HF).
  - unfold head_n. rewrite bupd_eq. pose proof (ho_len _ _ HF). apply get_put32_eq; unfold BSIZE in *; lia.
Qed.
End disk.

(** ** Running the code *)

Lemma roomy_fresh D W : roomy 2 (fresh D W).
Proof.
  unfold roomy, idle, refs_ok. cbn [fresh cv_refs cv_held]. split_and!; [done|intros n r; by rewrite lookup_empty|].
  rewrite map_size_empty. unfold NBUF, MAXOPBLOCKS. lia.
Qed.

(** The entries of [lh.block] are of type [int]. *)
Definition ints (l : list Z) : Prop := Forall (fun b => - 2 ^ 31 <= b < 2 ^ 31) l.
Lemma ints_zset l i x : ints l -> - 2 ^ 31 <= x < 2 ^ 31 -> ints (zset l i x).
Proof. intros Hl Hx. unfold zset. destruct (i <? 0); [done|]. by apply Forall_insert. Qed.

Section crash.
Context {C : Type} {BC : BufferCache C} {OK : BufferCacheOK C}.
Implicit Types (c : C) (lg : log) (v : cview).

Lemma roomy_le a b v : a <= b -> roomy b v -> roomy a v.
Proof. intros Hab [H1 H2]. split; [done|lia]. Qed.

Lemma wp_mod_log f (Q : unit -> lst C -> Prop) c lg : Q tt (mk_lst c (f lg)) -> wp (mod_log f) Q (mk_lst c lg).
Proof. intros HQ. by apply wp_modify. Qed.

Lemma read_head_spec c lg v : c_shows c v -> roomy 1 v -> cv_view v (lg_start lg) = cv_disk v (lg_start lg) ->
  Z.of_nat (length (lg_block lg)) = LOGSIZE -> 0 <= head_n (lg_start lg) (cv_view v) <= LOGSIZE ->
  wp read_head (fun _ s => exists c' bs, s = mk_lst c' (set_blocks bs (set_n (head_n (lg_start lg) (cv_view v)) lg)) /\
    c_shows c' v /\ Z.of_nat (length bs) = LOGSIZE /\ (ints (lg_block lg) -> ints bs) /\
    forall j, 0 <= j < head_n (lg_start lg) (cv_view v) -> nthz bs j = head_block (lg_start lg) (cv_view v) j) (mk_lst c lg).
Proof.
  intros Hs [[Hh HR] Hsz] Hcl Hlen Hn. destruct v as [V D R Hd W]. cbn [cv_view cv_disk cv_refs cv_held cv_writes] in *. subst Hd.
  unfold read_head, the_log. apply wp_bind, wp_gets. cbn [l_log]. set (start := lg_start lg) in *. set (n := head_n start V) in *.
  apply wp_bind, wp_cache. eapply wp_mono; [apply (bread_ok start _ c Hs); [|by apply few_ok]|].
  { split; [done|]. right. cbn [cv_refs]. lia. }
  cbn [cv_view cv_disk cv_refs cv_held cv_writes]. intros b c1 H1. rewrite insert_empty in H1.
  apply wp_bind, wp_cache. eapply wp_mono; [apply (data_ok start b _ c1 H1), lookup_singleton_eq|]. intros x _ [-> ->].
  cbn [cv_view]. change (get32 (V start) 0) with n. apply wp_bind, wp_mod_log, wp_bind.
  apply (wp_forM (fun i s => exists bs, s = mk_lst c1 (set_blocks bs (set_n n lg)) /\ Z.of_nat (length bs) = LOGSIZE /\
    (ints (lg_block lg) -> ints bs) /\ forall j, 0 <= j < i -> nthz bs j = head_block start V j)).
  - lia.
  - exists (lg_block lg). split_and!; [by destruct lg|done|done|lia].
  - intros i s Hi (bs & -> & Hbs & Hints & Hj). unfold set_lh_block.
    apply wp_bind, (wp_block _ _ _ _ (nthz bs i)); [apply znth_nthz; cbn [set_blocks lg_block]; lia|]. apply wp_mod_log.
    exists (zset bs i (head_block start V i)). split_and!; [done|by rewrite zset_length|intros Hl; apply ints_zset, i32_range; by apply Hints|].
    intros j Hj'. assert (E : znth (zset bs i (head_block start V i)) j = Some (head_block start V j)).
    { destruct (Z.eq_dec j i) as [->|Hne]; [apply znth_zset_eq; lia|]. rewrite znth_zset_ne by done.
      rewrite znth_nthz by lia. f_equal. apply Hj. lia. }
    rewrite znth_nthz in E by (rewrite zset_length; lia). congruence.
  - intros s (bs & -> & Hbs & Hints & Hj). apply wp_cache. eapply wp_mono; [apply (brelse_ok start b _ c1 H1); [apply lookup_singleton_eq|done]|].
    cbn [cv_view cv_disk cv_refs cv_held cv_writes]. intros _ c2 H2. rewrite delete_singleton_eq, unref_ref in H2 by done.
    by exists c2, bs.
Qed.

Lemma home_writes_head start bs V D n : (forall j, 0 <= j < n -> nthz bs j = head_block start D j) ->
  (forall j, 0 <= j < n -> V (start + j + 1) = D (start + j + 1)) ->
  home_writes start bs V n = map (fun j => (head_block start D j, D (start + j + 1))) (range 0 n).
Proof.
  intros Hb HV. unfold home_writes. apply map_ext_in. intros j Hj%list_elem_of_In%elem_of_range.
  by rewrite Hb, HV by lia.
Qed.

(** The in-memory log between transactions. *)
Definition log_idle (nlog start : Z) (lg : log) : Prop :=
  lg_size lg = nlog /\ 0 < nlog /\ lg_start lg = start /\ lg_n lg = 0 /\ Z.of_nat (length (lg_block lg)) = LOGSIZE.
Lemma log_idle_ok nlog start lg : log_idle nlog start lg -> log_ok lg.
Proof. intros (Hs & H0 & _ & Hn & Hl). constructor; [done|rewrite Hn; unfold LOGSIZE, MAXOPBLOCKS; lia|lia|lia]. Qed.

Lemma recover_spec F D W c lg : c_shows c (fresh D W) -> holds (lg_size lg) (lg_start lg) F D -> Z.of_nat (length (lg_block lg)) = LOGSIZE ->
  wp recover_from_log (fun _ s => exists c' bs, s = mk_lst c' (set_blocks bs (set_n 0 lg)) /\
    log_idle (lg_size lg) (lg_start lg) (set_blocks bs (set_n 0 lg)) /\ (ints (lg_block lg) -> ints bs) /\
    c_shows c' (push (fresh D W) (recovery_writes (lg_start lg) D))) (mk_lst c lg).
Proof.
  intros Hs HF Hlen. set (start := lg_start lg) in *. set (n := head_n start D).
  pose proof (ho_n _ _ _ _ HF) as Hn. unfold recover_from_log.
  apply wp_bind. eapply wp_mono; [apply (read_head_spec c lg _ Hs); [by apply (roomy_le 1 2), roomy_fresh|done|done|done]|].
  cbn [fresh cv_view]. fold start n. intros _ s (c1 & bs & -> & H1 & Hbs & Hints & Hblk). set (lg1 := set_blocks bs (set_n n lg)).
  assert (Hok : log_ok lg1).
  { constructor; cbn [lg1 set_blocks set_n lg_block lg_n lg_size lg_start]; [done|done|apply (ho_fit _ _ _ _ HF)|].
    intros j Hj. rewrite Hblk by done. by apply (ho_home _ _ _ _ HF). }
  apply wp_bind. eapply wp_mono; [apply (install_spec true c1 lg1 _ H1); [apply roomy_fresh|done|done|done]|].
  cbn [lg1 set_blocks set_n lg_block lg_n lg_start fresh cv_view cv_refs]. fold start. intros _ s (c2 & -> & H2).
  rewrite (home_writes_head _ _ _ D) in H2 by done. set (ws := map _ _) in H2.
  apply wp_bind, wp_mod_log. set (lg2 := set_n 0 lg1).
  assert (Hid : log_idle (lg_size lg) start lg2).
  { split_and!; [done| |done..]. pose proof (ho_fit _ _ _ _ HF). lia. }
  eapply wp_mono; [apply (write_head_spec c2 lg2 _ H2); [by apply (roomy_le 1 2), roomy_fresh|by apply (log_idle_ok (lg_size lg) start)]|].
  intros _ s (c3 & -> & H3). exists c3, bs. split; [done|]. split; [done|]. split; [done|].
  unfold recovery_writes. fold ws. rewrite <- push_app. change (lg_n lg2) with 0 in H3. rewrite head_image_0 in H3.
  change (lg_start lg2) with start in H3. cbn [with_refs push cv_view fresh] in H3. rewrite apply_writes_out in H3; [exact H3|].
  intros Hin. rewrite <- (firstn_all ws) in Hin. apply (recovery_dom (lg_size lg) _ F) in Hin as (j & Hj & E); [|done].
  pose proof (ho_home _ _ _ _ HF j Hj) as Hh. rewrite <- E in Hh. by apply (start_not_home _ _ _ _ HF).
Qed.

(** ** Commit *)

(** A transaction ready to commit: its blocks are pinned in the cache, the
    others are as on the disk, where the header is clear. *)
Record txn (nlog start : Z) (lg : log) (v : cview) : Prop := {
  tx_start : lg_start lg = start;
  tx_size : lg_size lg = nlog;
  tx_ok : log_ok lg;
  tx_ints : ints (lg_block lg);
  tx_nodup : NoDup (take (Z.to_nat (lg_n lg)) (lg_block lg));
  tx_pin : forall j, 0 <= j < lg_n lg -> is_Some (cv_refs v !! nthz (lg_block lg) j);
  tx_room : roomy 1 v;
  tx_clean : forall b, (forall j, 0 <= j < lg_n lg -> nthz (lg_block lg) j <> b) -> cv_view v b = cv_disk v b;
  tx_head : head_n start (cv_disk v) = 0;
  tx_len : Z.of_nat (length (cv_disk v start)) = BSIZE;
}.

Section committing.
Variables (nlog start : Z) (lg : log) (v : cview).
Hypothesis T : txn nlog start lg v.
Let V := cv_view v.
Let D := cv_disk v.
Let n := lg_n lg.
Let bs := lg_block lg.
Let lw := log_writes start bs V n.
Let h := head_image (D start) n bs n.
Let D1 := apply_writes D (lw ++ [(start, h)]).

Lemma txn_n : 0 <= n <= LOGSIZE /\ n < nlog.
Proof. rewrite <- (tx_size _ _ _ _ T). split; [apply (lo_n _ (tx_ok _ _ _ _ T))|apply (lo_fit _ (tx_ok _ _ _ _ T))]. Qed.

Lemma txn_log b : start <= b < start + nlog -> V b = D b.
Proof.
  intros Hb. apply (tx_clean _ _ _ _ T). intros j Hj <-. pose proof (lo_home _ (tx_ok _ _ _ _ T) j Hj) as Hh.
  rewrite (tx_start _ _ _ _ T), (tx_size _ _ _ _ T) in Hh. revert Hh. by apply not_home.
Qed.

(** Before the header is written the old contents would be recovered. *)
Lemma commit_before k : holds nlog start D (apply_writes D (take k lw)).
Proof.
  assert (Hout : forall b, ~ start + 1 <= b <= start + n -> apply_writes D (take k lw) b = D b).
  { intros b Hb. apply apply_writes_out. intros (w & -> & Hw)%list_elem_of_fmap. apply Hb, (log_writes_dom start bs V n).
    apply list_elem_of_fmap. exists w. split; [done|]. by apply (subseteq_take k). }
  assert (Hs : apply_writes D (take k lw) start = D start) by (apply Hout; lia).
  pose proof txn_n as [Hn Hfit].
  assert (En : head_n start (apply_writes D (take k lw)) = 0) by (unfold head_n; rewrite Hs; apply (tx_head _ _ _ _ T)).
  constructor; rewrite ?En, ?Hs; try (intros; lia).
  - apply (tx_len _ _ _ _ T).
  - intros b Hb _. apply Hout. unfold home in Hb. lia.
Qed.

Lemma commit_head : D1 start = h /\ head_n start D1 = n /\
  (forall j, 0 <= j < n -> head_block start D1 j = nthz bs j) /\
  (forall j, 0 <= j < n -> D1 (start + j + 1) = V (nthz bs j)).
Proof.
  assert (Hs : D1 start = h) by (unfold D1; rewrite apply_writes_app; apply bupd_eq).
  pose proof txn_n as [Hn Hfit]. pose proof (tx_len _ _ _ _ T) as Hl. fold D in Hl.
  split_and!; [done|unfold head_n; rewrite Hs; unfold h; by apply head_image_n|..].
  - intros j Hj. unfold head_block. rewrite Hs. unfold h. apply head_image_block; try done; [apply (tx_ints _ _ _ _ T)|lia].
  - intros j Hj. unfold D1. rewrite apply_writes_app. cbn [apply_writes foldl fst snd]. rewrite bupd_ne by lia.
    apply apply_writes_in.
    + apply list_elem_of_fmap. exists (start + j + 1, V (nthz bs j)). split; [done|]. apply list_elem_of_fmap.
      exists j. split; [done|]. by apply elem_of_range.
    + intros y (i & [= E ->] & _)%list_elem_of_fmap. by replace i with j by lia.
Qed.

(** With the header written the new contents would be. *)
Lemma commit_after : holds nlog start V D1.
Proof.
  destruct commit_head as (Hs & En & Eb & El). pose proof txn_n as [Hn Hfit].
  constructor; rewrite ?En; try done.
  - rewrite Hs. apply head_length; [apply (tx_len _ _ _ _ T)|done].
  - intros j Hj. rewrite Eb by done. rewrite <- (tx_start _ _ _ _ T), <- (tx_size _ _ _ _ T). by apply (lo_home _ (tx_ok _ _ _ _ T)).
  - intros j Hj. by rewrite Eb, El.
  - intros b Hb Hne. unfold D1. rewrite apply_writes_app. cbn [apply_writes foldl fst snd]. fold (apply_writes D lw).
    unfold home in Hb. rewrite bupd_ne by lia. rewrite apply_writes_out.
    + symmetry. apply (tx_clean _ _ _ _ T). intros j Hj. fold bs. rewrite <- Eb by done. by apply Hne.
    + intros Hd%log_writes_dom. lia.
Qed.

(** The writes of a commit, and what is recovered after each prefix. *)
Definition commit_writes : list (Z * block) := lw ++ (start, h) :: recovery_writes start D1.

Lemma commit_prefix k : holds nlog start D (apply_writes D (take k commit_writes)) \/
  holds nlog start V (apply_writes D (take k commit_writes)).
Proof.
  unfold commit_writes. rewrite take_app. destruct (k - length lw)%nat as [|m] eqn:Hk.
  - left. simpl. rewrite app_nil_r. apply commit_before.
  - right. rewrite (take_ge lw) by lia. cbn [take]. change ((start, h) :: take m ?l) with ([(start, h)] ++ take m l).
    rewrite app_assoc, apply_writes_app. apply recovery_holds, commit_after.
Qed.

(** What a commit writes outside the log are the new contents. *)
Lemma commit_values w : w ∈ commit_writes -> home nlog start w.1 -> w.2 = V w.1.
Proof.
  destruct commit_head as (_ & En & Eb & El). pose proof txn_n as [Hn Hfit]. unfold commit_writes, home. intros [Hw|[->|Hw]%elem_of_cons]%elem_of_app Hh.
  - pose proof (log_writes_dom start bs V n w.1) as Hd. destruct Hd; [apply list_elem_of_fmap; by exists w|lia].
  - cbn in Hh. lia.
  - unfold recovery_writes in Hw. rewrite En in Hw. apply elem_of_app in Hw as [(j & -> & Hj%elem_of_range)%list_elem_of_fmap|E%list_elem_of_singleton].
    + cbn [fst snd]. by rewrite Eb, El.
    + subst w. cbn in Hh. lia.
Qed.

Lemma commit_all : holds nlog start V (apply_writes D commit_writes) /\
  (forall b, home nlog start b -> apply_writes D commit_writes b = V b) /\ head_n start (apply_writes D commit_writes) = 0.
Proof.
  unfold commit_writes. change ((start, h) :: ?l) with ([(start, h)] ++ l). rewrite app_assoc, apply_writes_app.
  pose proof commit_after as Ha. split; [|by apply recovered].
  rewrite <- (firstn_all (recovery_writes start D1)). by apply recovery_holds.
Qed.
End committing.
End crash.
