(* ===== verification/LogGroup.v ===== *)
(** * Transactions

    [commit] issues the writes of [commit_writes]; [log_write] adds a block to
    the transaction; and a system call that changes blocks between [begin_op]
    and [end_op] is atomic: whenever the machine stops, and however often it
    stops again during recovery, the disk ends up with all of its changes or
    with none. *)

From stdpp Require Import base numbers list gmap strings.
From Stdlib Require Import ZArith Lia.
From S2P Require Import Prelude Blocks Monad Codec Bio BioCache Log LogSteps LogCrash.
Open Scope Z_scope.

Section txn.
Context {C : Type} {BC : BufferCache C} {OK : BufferCacheOK C}.
Implicit Types (c : C) (lg : log) (v : cview).

Lemma commit_spec nlog start lg v c : c_shows c v -> txn nlog start lg v -> 0 < lg_n lg ->
  wp commit (fun _ s => exists c', s = mk_lst c' (set_n 0 lg) /\
    c_shows c' (with_refs (unpinned (cv_refs v) (lg_block lg) (lg_n lg)) (push v (commit_writes start lg v))))
    (mk_lst c lg).
Proof.
  intros Hs T Hpos. pose proof (tx_ok _ _ _ _ T) as Hok. pose proof (tx_start _ _ _ _ T) as Hst.
  pose proof (txn_n _ _ _ _ T) as [Hn0 Hfit].
  pose proof (commit_head _ _ _ _ T) as (HD1 & Hn1 & Hb1 & Hl1).
  set (D1 := apply_writes _ _) in HD1, Hn1, Hb1, Hl1. set (h := head_image _ _ _ _) in HD1.
  unfold commit, the_log. apply wp_bind, wp_gets. cbn [l_log]. destruct (Z.ltb_spec 0 (lg_n lg)); [|lia].
  apply wp_bind. eapply wp_mono; [apply (write_log_spec c lg v Hs); [apply (tx_room _ _ _ _ T)|done|apply (tx_pin _ _ _ _ T)]|].
  rewrite Hst. set (lw := log_writes _ _ _ _). intros _ s (c1 & -> & H1).
  assert (Hs1 : cv_view (push v lw) start = cv_disk v start).
  { cbn [push cv_view]. rewrite apply_writes_out by (intros Hd%log_writes_dom; lia).
    apply (txn_log _ _ _ _ T). lia. }
  apply wp_bind. eapply wp_mono; [apply (write_head_spec c1 lg _ H1); [apply (tx_room _ _ _ _ T)|done]|].
  rewrite Hst, Hs1, push_app. fold h. intros _ s (c2 & -> & H2). set (v2 := push v (lw ++ [(start, h)])) in *.
  assert (Hlog2 : forall j, 0 <= j < lg_n lg -> cv_view v2 (start + j + 1) = D1 (start + j + 1)).
  { intros j Hj. apply apply_writes_same, (txn_log _ _ _ _ T). lia. }
  apply wp_bind. eapply wp_mono; [apply (install_spec false c2 lg v2 H2); [apply (tx_room _ _ _ _ T)|done|by rewrite Hst|]|].
  { intros _. split; [apply (tx_nodup _ _ _ _ T)|apply (tx_pin _ _ _ _ T)]. }
  rewrite Hst. rewrite (home_writes_head start _ _ D1); [|by intros; rewrite Hb1|done].
  set (hw := map _ _). intros _ s (c3 & -> & H3). apply wp_bind, wp_mod_log.
  assert (Hok0 : log_ok (set_n 0 lg)) by (apply (log_idle_ok nlog start); split_and!; [apply (tx_size _ _ _ _ T)|lia|done|done|apply Hok]).
  assert (Hroom3 : roomy 1 (with_refs (unpinned (cv_refs v2) (lg_block lg) (lg_n lg)) (push v2 hw))).
  { destruct (tx_room _ _ _ _ T) as [[Hheld HR] Hsz]. pose proof (lo_len _ Hok). pose proof (lo_n _ Hok).
    destruct (unpinned_facts (cv_refs v) (lg_block lg) (lg_n lg) (lg_n lg)) as (I1 & I2 & _);
      [done|lia|lia|apply (tx_nodup _ _ _ _ T)|apply (tx_pin _ _ _ _ T)|]. split; [done|]. cbn [v2 with_refs push cv_refs]. lia. }
  eapply wp_mono; [apply (write_head_spec c3 (set_n 0 lg) _ H3 Hroom3 Hok0)|]. cbn [set_n lg_n lg_start lg_block].
  intros _ s (c4 & -> & H4). exists c4. split; [done|]. rewrite head_image_0, Hst in H4.
  replace (cv_view (with_refs _ (push v2 hw)) start) with (D1 start) in H4.
  - change (commit_writes start lg v) with (lw ++ (start, h) :: recovery_writes start D1).
    unfold recovery_writes. rewrite Hn1. fold hw.
    change ((start, h) :: hw ++ ?l) with ([(start, h)] ++ hw ++ l). rewrite app_assoc, <- push_app.
    rewrite <- (push_app _ hw). exact H4.
  - symmetry. cbn [with_refs push cv_view]. rewrite apply_writes_out.
    + apply apply_writes_same, (txn_log _ _ _ _ T). lia.
    + rewrite <- (firstn_all hw). unfold hw. rewrite <- Hn1. intros (j & Hj & E)%(recovery_dom nlog start (cv_view v)); [|by apply commit_after].
      pose proof (ho_home _ _ _ _ (commit_after _ _ _ _ T) j Hj) as Hh. change (home nlog start (head_block start D1 j)) in Hh.
      rewrite <- E in Hh. unfold home in Hh. lia.
Qed.
End txn.

(** * Group commit

    System calls overlap: several may be between [begin_op] and [end_op], and
    the last one to end commits the changes of all.  [a_step] is the abstract
    account of this; the log implements it ([event_ok]), and a run of the log
    followed by a crash at any moment, by any number of crashes during
    recovery and by a recovery ends with the contents committed at some point
    of the run. *)

(** ** The abstract log *)

Record astate := mk_astate {
  a_committed : blocks;
  a_current : blocks;
  a_ops : Z;             (* calls in progress *)
  a_logged : list Z;     (* blocks changed since the last commit *)
}.

Inductive fs_event :=
| FsBegin
| FsWrite (n : Z) (f : block -> block)
| FsEnd.

Definition a_step (a : astate) (e : fs_event) : astate :=
  match e with
  | FsBegin => mk_astate (a_committed a) (a_current a) (a_ops a + 1) (a_logged a)
  | FsWrite n f => mk_astate (a_committed a) (bupd (a_current a) n (f (a_current a n))) (a_ops a)
      (if decide (n ∈ a_logged a) then a_logged a else a_logged a ++ [n])
  | FsEnd => if a_ops a - 1 =? 0 then mk_astate (a_current a) (a_current a) 0 []
      else mk_astate (a_committed a) (a_current a) (a_ops a - 1) (a_logged a)
  end.

(** [begin_op] finds room; a call writes blocks outside the log and not more
    than fit; only calls in progress end. *)
Definition a_allowed (nlog start : Z) (a : astate) (e : fs_event) : Prop :=
  match e with
  | FsBegin => Z.of_nat (length (a_logged a)) + (a_ops a + 1) * MAXOPBLOCKS <= LOGSIZE
  | FsWrite n _ => 1 <= a_ops a /\ home nlog start n /\ 0 <= n < 2 ^ 31 /\
      Z.of_nat (length (a_logged a)) < LOGSIZE /\ Z.of_nat (length (a_logged a)) < nlog - 1
  | FsEnd => 1 <= a_ops a
  end.

Fixpoint a_runs (nlog start : Z) (a : astate) (es : list fs_event) : Prop :=
  match es with
  | [] => True
  | e :: es => a_allowed nlog start a e /\ a_runs nlog start (a_step a e) es
  end.

Definition active (lg : log) : list Z := take (Z.to_nat (lg_n lg)) (lg_block lg).

Section group.
Context {C : Type} {BC : BufferCache C} {OK : BufferCacheOK C}.
Variables nlog start : Z.
Hypothesis Hnlog : 1 <= nlog <= NBUF.
Implicit Types (c : C) (lg : log) (v : cview) (a : astate).

(** The use of [log_write] that the comment above it describes. *)
Definition update (n : Z) (f : block -> block) : M (lst C) unit :=
  let! b := in_cache (c_bread n) in
  let! x := in_cache (c_data b) in
  in_cache (c_set_data b (f x));;
  log_write b;;
  in_cache (c_brelse b).

Definition do_event (e : fs_event) : M (lst C) unit :=
  match e with
  | FsBegin => begin_op
  | FsWrite n f => update n f
  | FsEnd => end_op
  end.

(** ** The simulation *)

Record sim a lg v : Prop := {
  sm_size : lg_size lg = nlog;
  sm_start : lg_start lg = start;
  sm_ok : log_ok lg;
  sm_ints : ints (lg_block lg);
  sm_logged : a_logged a = active lg;
  sm_nodup : NoDup (active lg);
  sm_refs : cv_refs v = gset_to_gmap 1 (list_to_set (active lg));
  sm_held : cv_held v = ∅;
  sm_ops : lg_outstanding lg = a_ops a /\ 0 <= a_ops a /\ lg_committing lg = false;
  sm_view : forall b, home nlog start b -> cv_view v b = a_current a b;
  sm_disk : forall b, home nlog start b -> cv_disk v b = a_committed a b;
  sm_clean : forall b, b ∉ active lg -> cv_view v b = cv_disk v b;
  sm_head : head_n start (cv_disk v) = 0;
  sm_len : Z.of_nat (length (cv_disk v start)) = BSIZE;
}.

Lemma active_length lg : log_ok lg -> Z.of_nat (length (active lg)) = lg_n lg.
Proof. intros [H1 H2 _ _]. unfold active. rewrite length_take. lia. Qed.
Lemma active_lookup lg j : log_ok lg -> 0 <= j < lg_n lg -> active lg !! Z.to_nat j = Some (nthz (lg_block lg) j).
Proof.
  intros [H1 H2 _ _] Hj. unfold active. rewrite lookup_take_lt by lia. pose proof (znth_nthz (lg_block lg) j ltac:(lia)) as E.
  unfold znth in E. destruct (Z.ltb_spec j 0); [lia|]. exact E.
Qed.
Lemma active_elem lg b : log_ok lg -> b ∈ active lg <-> exists j, 0 <= j < lg_n lg /\ nthz (lg_block lg) j = b.
Proof.
  intros Hok. pose proof (active_length lg Hok) as Hl. split.
  - intros [i Hi]%list_elem_of_lookup. pose proof (lookup_lt_Some _ _ _ Hi). exists (Z.of_nat i). split; [lia|].
    pose proof (active_lookup lg (Z.of_nat i) Hok ltac:(lia)) as E. rewrite Nat2Z.id in E. congruence.
  - intros (j & Hj & <-). apply list_elem_of_lookup. exists (Z.to_nat j). by apply active_lookup.
Qed.

Lemma gm_lookup (l : list Z) b : gset_to_gmap 1 (list_to_set l : gset Z) !! b = if decide (b ∈ l) then Some 1 else None.
Proof.
  case_decide as Hb.
  - apply lookup_gset_to_gmap_Some. split; [by apply elem_of_list_to_set|done].
  - apply lookup_gset_to_gmap_None. by rewrite elem_of_list_to_set.
Qed.

Lemma sim_room a lg v : sim a lg v -> roomy 1 v.
Proof.
  intros S. destruct (sm_ok _ _ _ S) as [H1 H2 H3 _]. unfold roomy, idle, refs_ok. rewrite (sm_held _ _ _ S), (sm_refs _ _ _ S).
  split_and!; [done| |].
  - intros n r. rewrite gm_lookup. case_decide; [|done]. intros [= <-]. lia.
  - rewrite <- size_dom, dom_gset_to_gmap, size_list_to_set by apply (sm_nodup _ _ _ S).
    rewrite active_length by apply (sm_ok _ _ _ S). pose proof (sm_size _ _ _ S). lia.
Qed.

Lemma sim_txn a lg v : sim a lg v -> txn nlog start lg v.
Proof.
  intros S. pose proof (sm_ok _ _ _ S) as Hok. constructor; try apply S.
  - intros j Hj. rewrite (sm_refs _ _ _ S), gm_lookup, decide_True; [done|]. apply active_elem; [done|]. by exists j.
  - by apply (sim_room a lg).
  - intros b Hb. apply (sm_clean _ _ _ S). intros (j & Hj & E)%active_elem; [|done]. by apply (Hb j Hj).
Qed.

Lemma holds_ext F G D : (forall b, home nlog start b -> F b = G b) -> holds nlog start F D -> holds nlog start G D.
Proof.
  intros E [H1 H2 H3 H4 H5 H6]. constructor; try done.
  - intros j Hj. rewrite H5 by done. by apply E, H4.
  - intros b Hb Hne. rewrite <- E by done. by apply H6.
Qed.

(** Between two events a crash leads back to the committed contents. *)
Lemma sim_holds a lg v : sim a lg v -> holds nlog start (a_committed a) (cv_disk v).
Proof.
  intros S. pose proof (commit_before _ _ _ _ (sim_txn _ _ _ S) 0) as H. simpl in H.
  eapply holds_ext; [|exact H]. apply (sm_disk _ _ _ S).
Qed.

(** ** The events *)

Lemma begin_spec a lg v c : c_shows c v -> sim a lg v -> a_allowed nlog start a FsBegin ->
  wp begin_op (fun _ s => exists lg', s = mk_lst c lg' /\ sim (a_step a FsBegin) lg' v) (mk_lst c lg).
Proof.
  intros Hs S Hal. destruct (sm_ops _ _ _ S) as (Ho & H0 & Hc). unfold begin_op, the_log. apply wp_bind, wp_gets. cbn [l_log].
  simpl in Hal. rewrite (sm_logged _ _ _ S), active_length in Hal by apply (sm_ok _ _ _ S).
  rewrite Hc, Ho. destruct (Z.ltb_spec LOGSIZE (lg_n lg + (a_ops a + 1) * MAXOPBLOCKS)); [lia|].
  apply wp_mod_log. eexists. split; [done|]. constructor; try apply S.
  - constructor; apply (sm_ok _ _ _ S).
  - simpl. split_and!; [lia|lia|done].
Qed.

Lemma log_index_in b l : b ∈ l -> 0 <= log_index b l < Z.of_nat (length l) /\ l !! Z.to_nat (log_index b l) = Some b.
Proof.
  induction l as [|x l IH]; [set_solver|]. intros Hb. cbn [log_index length]. destruct (Z.eqb_spec x b) as [->|Hne].
  - split; [lia|done].
  - apply elem_of_cons in Hb as [->|Hb]; [done|]. destruct (IH Hb) as [H1 H2]. split; [lia|].
    by replace (Z.to_nat (1 + log_index b l)) with (S (Z.to_nat (log_index b l))) by lia.
Qed.
Lemma log_index_out b l : b ∉ l -> log_index b l = Z.of_nat (length l).
Proof.
  induction l as [|x l IH]; [done|]. intros [Hx Hb]%not_elem_of_cons. cbn [log_index length].
  destruct (Z.eqb_spec x b) as [->|Hne]; [done|]. rewrite IH by done. lia.
Qed.

(** The log with one more block. *)
Definition log_add (n : Z) (lg : log) : log := set_n (lg_n lg + 1) (set_blocks (zset (lg_block lg) (lg_n lg) n) lg).

Lemma active_add n lg : log_ok lg -> lg_n lg < LOGSIZE -> active (log_add n lg) = active lg ++ [n].
Proof.
  intros [H1 H2 _ _] Hlt. unfold active, log_add, zset. cbn [set_n set_blocks lg_n lg_block].
  destruct (Z.ltb_spec (lg_n lg) 0); [lia|]. replace (Z.to_nat (lg_n lg + 1)) with (S (Z.to_nat (lg_n lg))) by lia.
  rewrite (take_S_r _ _ n) by (rewrite list_lookup_insert_eq; [done|lia]). by rewrite take_insert_ge by lia.
Qed.

Lemma log_add_ok n lg : log_ok lg -> home (lg_size lg) (lg_start lg) n -> lg_n lg < LOGSIZE -> lg_n lg + 1 < lg_size lg ->
  log_ok (log_add n lg).
Proof.
  intros Hok Hn Hlt Hfit. pose proof Hok as [H1 H2 H3 H4]. constructor; cbn [log_add set_n set_blocks lg_n lg_block lg_size lg_start].
  - by rewrite zset_length.
  - lia.
  - lia.
  - intros j Hj. assert (E : znth (zset (lg_block lg) (lg_n lg) n) j = Some (if decide (j = lg_n lg) then n else nthz (lg_block lg) j)).
    { case_decide; subst; [apply znth_zset_eq; lia|]. rewrite znth_zset_ne by lia. apply znth_nthz. lia. }
    rewrite znth_nthz in E by (rewrite zset_length; lia). injection E as ->. case_decide; [done|]. apply H4. lia.
Qed.

(** [log_write] of a block read by the caller. *)
Lemma log_write_spec n b v c lg : c_shows c v -> cv_held v !! n = Some b -> refs_ok (cv_refs v) -> log_ok lg ->
  1 <= lg_outstanding lg -> lg_n lg < LOGSIZE -> lg_n lg < lg_size lg - 1 ->
  wp (log_write b) (fun _ s => exists c', 
    s = mk_lst c' (if decide (n ∈ active lg) then lg else log_add n lg) /\
    c_shows c' (with_refs (if decide (n ∈ active lg) then cv_refs v else ref (cv_refs v) n) v)) (mk_lst c lg).
Proof.
  intros Hs Hb HR Hok Ho Hlt Hfit. unfold log_write, the_log. apply wp_bind, wp_gets. cbn [l_log].
  destruct (Z.leb_spec LOGSIZE (lg_n lg)); [lia|]. destruct (Z.leb_spec (lg_size lg - 1) (lg_n lg)); [lia|]. cbn [orb].
  destruct (Z.ltb_spec (lg_outstanding lg) 1); [lia|].
  apply wp_bind, wp_cache. eapply wp_mono; [apply (blockno_ok n b v c Hs Hb)|]. intros k c1 [-> ->]. fold (active lg).
  pose proof (active_length lg Hok) as Hal. case_decide as Hin.
  - destruct (log_index_in n _ Hin) as [Hi He]. set (i := log_index n (active lg)) in *. unfold set_lh_block.
    assert (En : znth (lg_block lg) i = Some n).
    { unfold znth. destruct (Z.ltb_spec i 0); [lia|]. unfold active in He. by rewrite lookup_take_lt in He by lia. }
    apply wp_bind, wp_bind, (wp_block _ _ _ _ n); [done|]. apply wp_mod_log. destruct (Z.eqb_spec i (lg_n lg)); [lia|].
    apply wp_ret. exists c. rewrite zset_id by done. split; [by destruct lg|by destruct v].
  - rewrite log_index_out, Hal by done. unfold set_lh_block. pose proof (lo_n _ Hok). pose proof (lo_len _ Hok).
    apply wp_bind, wp_bind, (wp_block _ _ _ _ (nthz (lg_block lg) (lg_n lg))); [apply znth_nthz; lia|]. apply wp_mod_log.
    rewrite Z.eqb_refl. apply wp_bind, wp_cache. eapply wp_mono; [apply (bpin_ok n b v c Hs Hb)|].
    { intros k r Hk%HR. lia. }
    intros [] c1 Hs1. apply wp_mod_log. by exists c1.
Qed.

(** The references once a block is logged. *)
Lemma logged_refs n (l : list Z) : 
  (if decide (n ∈ l) then gset_to_gmap 1 (list_to_set l : gset Z) else ref (gset_to_gmap 1 (list_to_set l : gset Z)) n) =
  gset_to_gmap 1 (list_to_set (if decide (n ∈ l) then l else l ++ [n]) : gset Z).
Proof.
  case_decide as Hin; [done|]. apply map_eq. intros k. rewrite ref_lookup, !gm_lookup.
  destruct (decide (k = n)) as [->|Hne].
  - rewrite (decide_False (P := n ∈ l)), decide_True by set_solver. done.
  - destruct (decide (k ∈ l)); [rewrite decide_True by set_solver|rewrite decide_False by set_solver]; done.
Qed.

Lemma active_update n lg : log_ok lg -> lg_n lg < LOGSIZE ->
  active (if decide (n ∈ active lg) then lg else log_add n lg) = if decide (n ∈ active lg) then active lg else active lg ++ [n].
Proof. intros Hok Hlt. case_decide; [done|]. by apply active_add. Qed.

(** The simulation after a block of the transaction has changed. *)
Lemma sim_update a lg v n f : sim a lg v -> a_allowed nlog start a (FsWrite n f) ->
  let lg' := if decide (n ∈ active lg) then lg else log_add n lg in
  sim (a_step a (FsWrite n f)) lg' (mk_cview (bupd (cv_view v) n (f (cv_view v n))) (cv_disk v)
    (gset_to_gmap 1 (list_to_set (active lg'))) ∅ (cv_writes v)).
Proof.
  intros S (Ho & Hn & Hi & Hl1 & Hl2) lg'. rewrite (sm_logged _ _ _ S), active_length in Hl1, Hl2 by apply (sm_ok _ _ _ S).
  assert (Ea : active lg' = if decide (n ∈ active lg) then active lg else active lg ++ [n]) by (apply active_update; [apply S|done]).
  assert (Hin : n ∈ active lg') by (rewrite Ea; case_decide; set_solver).
  assert (Hsub : forall b, b ∉ active lg' -> b ∉ active lg) by (intros b; rewrite Ea; case_decide; set_solver).
  constructor; cbn [cv_view cv_disk cv_refs cv_held a_step a_current a_committed a_ops a_logged]; try apply S; try done.
  - unfold lg'. case_decide; apply (sm_size _ _ _ S).
  - unfold lg'. case_decide; apply (sm_start _ _ _ S).
  - unfold lg'. case_decide; [apply S|]. rewrite <- (sm_size _ _ _ S), <- (sm_start _ _ _ S) in Hn. rewrite <- (sm_size _ _ _ S) in Hl2.
    apply log_add_ok; [apply S|done|done|lia].
  - unfold lg'. case_decide; [apply S|]. cbn [log_add set_n set_blocks lg_block].
    apply ints_zset; [apply S|lia].
  - by rewrite Ea, (sm_logged _ _ _ S).
  - rewrite Ea. pose proof (sm_nodup _ _ _ S). case_decide; [done|]. apply NoDup_app. split_and!; [done|set_solver|apply NoDup_singleton].
  - replace (lg_outstanding lg') with (lg_outstanding lg) by (unfold lg'; by case_decide).
    replace (lg_committing lg') with (lg_committing lg) by (unfold lg'; by case_decide). apply S.
  - intros b Hb. unfold bupd. destruct (decide (b = n)); [|by apply S]. by rewrite (sm_view _ _ _ S n).
  - intros b Hb. rewrite bupd_ne by (intros ->; done). apply (sm_clean _ _ _ S). by apply Hsub.
Qed.

Lemma refs_ok_ref R n : (forall k r, R !! k = Some r -> r = 1) -> refs_ok (ref R n).
Proof.
  intros HR k r. rewrite ref_lookup. case_decide; [|intros ->%HR; lia]. intros [= <-].
  destruct (R !! n) eqn:E; simpl; [apply HR in E|]; lia.
Qed.

Lemma update_spec a lg v c n f : c_shows c v -> sim a lg v -> a_allowed nlog start a (FsWrite n f) ->
  wp (update n f) (fun _ s => exists c' lg' v', s = mk_lst c' lg' /\ c_shows c' v' /\ sim (a_step a (FsWrite n f)) lg' v' /\
    cv_writes v' = cv_writes v /\ cv_disk v' = cv_disk v) (mk_lst c lg).
Proof.
  intros Hs S Hal. pose proof (sim_update a lg v n f S Hal) as S'. cbv zeta in S'. set (lg' := if decide _ then _ else _) in S'.
  destruct Hal as (Ho & Hn & Hi & Hl1 & Hl2). rewrite (sm_logged _ _ _ S), active_length in Hl1, Hl2 by apply (sm_ok _ _ _ S).
  destruct (sim_room _ _ _ S) as [[Hh HR] Hsz]. pose proof (sm_refs _ _ _ S) as ER. pose proof (sm_ops _ _ _ S) as (Eo & _ & _).
  assert (Hone : forall k r, cv_refs v !! k = Some r -> r = 1) by (intros k r; rewrite ER, gm_lookup; case_decide; by intros [= <-]).
  unfold update. apply wp_bind, wp_cache. eapply wp_mono; [apply (bread_ok n v c Hs); [|intros k r Hk%HR; lia]|].
  { split; [by rewrite Hh|]. right. lia. }
  intros b c1 H1. rewrite Hh, insert_empty in H1. apply wp_bind, wp_cache.
  eapply wp_mono; [apply (data_ok n b _ c1 H1), lookup_singleton_eq|]. intros x _ [-> ->]. cbn [cv_view].
  apply wp_bind, wp_cache. eapply wp_mono; [apply (set_data_ok n b _ _ c1 H1), lookup_singleton_eq|].
  cbn [cv_view cv_disk cv_refs cv_held cv_writes]. intros _ c2 H2. apply wp_bind.
  eapply wp_mono; [apply (log_write_spec n b _ c2 lg H2); [apply lookup_singleton_eq|by apply refs_ok_ref|apply S|lia|done|by rewrite (sm_size _ _ _ S)]|].
  unfold with_refs. cbn [cv_view cv_disk cv_refs cv_held cv_writes]. fold lg'. intros _ s (c3 & -> & H3).
  apply wp_cache. eapply wp_mono; [apply (brelse_ok n b _ c3 H3); [apply lookup_singleton_eq|]|].
  { cbn [cv_refs]. destruct (decide (n ∈ active lg)) as [Hin|Hin]; rewrite !ref_lookup, !decide_True, ?ER, ?gm_lookup by done.
    - rewrite decide_True by done. simpl. intros [= ?]. 
    - simpl. destruct (decide (n ∈ active lg)); simpl; intros [= ?]. }
  cbn [cv_view cv_disk cv_refs cv_held cv_writes]. rewrite delete_singleton_eq. intros _ c4 H4.
  exists c4, lg'. eexists. split_and!; [done|exact H4| |done|done].
  replace (unref _ n) with (gset_to_gmap 1 (list_to_set (active lg') : gset Z)); [exact S'|].
  unfold lg'. rewrite active_update, <- logged_refs by (apply S || done). rewrite <- ER. case_decide; symmetry.
  - by apply unref_ref.
  - apply unref_ref'. rewrite ref_lookup, decide_True by done. simpl. destruct (cv_refs v !! n) eqn:E; simpl; [apply HR in E|]; lia.
Qed.

(** After the commit no block is pinned, and the cache is as the disk. *)
Lemma unpin_all lg : log_ok lg -> NoDup (active lg) ->
  unpinned (gset_to_gmap 1 (list_to_set (active lg))) (lg_block lg) (lg_n lg) = ∅.
Proof.
  intros Hok Hnd. pose proof (active_length lg Hok) as Hl.
  assert (H : forall i, 0 <= i -> i <= lg_n lg ->
    unpinned (gset_to_gmap 1 (list_to_set (active lg))) (lg_block lg) i = gset_to_gmap 1 (list_to_set (drop (Z.to_nat i) (active lg)))).
  { intros i H0. pattern i. apply natlike_ind; [done| |done]. intros j Hj IH Hle. unfold Z.succ in *.
    rewrite unpinned_S, IH by lia. set (b := nthz (lg_block lg) j). 
    assert (Ed : drop (Z.to_nat j) (active lg) = b :: drop (Z.to_nat (j + 1)) (active lg)).
    { replace (Z.to_nat (j + 1)) with (S (Z.to_nat j)) by lia. apply drop_S. apply active_lookup; [done|lia]. }
    assert (Hb : b ∉ drop (Z.to_nat (j + 1)) (active lg)).
    { rewrite <- (take_drop (Z.to_nat j) (active lg)), Ed in Hnd. by apply NoDup_app in Hnd as (_ & _ & [? _]%NoDup_cons). }
    apply map_eq. intros k. rewrite Ed. unfold unref. rewrite gm_lookup, (decide_True (P := b ∈ _)) by (apply elem_of_cons; by left).
    cbn [default from_option id]. rewrite decide_True by lia.
    destruct (decide (k = b)) as [->|Hne].
    - rewrite lookup_delete_eq, gm_lookup. by rewrite decide_False.
    - rewrite lookup_delete_ne, !gm_lookup by done. destruct (decide (k ∈ drop (Z.to_nat (j + 1)) (active lg))).
      + by rewrite decide_True by (apply elem_of_cons; by right).
      + by rewrite decide_False by (intros [?|?]%elem_of_cons; done). }
  pose proof (lo_n _ Hok). rewrite H by lia. rewrite drop_ge by lia. done.
Qed.

Lemma apply_writes_both F G ws b : b ∈ ws.*1 -> apply_writes F ws b = apply_writes G ws b.
Proof.
  induction ws as [|[k x] ws IH] using rev_ind; [set_solver|]. intros Hb. rewrite !apply_writes_app. cbn [apply_writes foldl fst snd].
  unfold bupd. case_decide as Hk; [done|]. apply IH. rewrite fmap_app in Hb. set_solver.
Qed.

Lemma commit_clean lg v b : txn nlog start lg v -> apply_writes (cv_view v) (commit_writes start lg v) b = apply_writes (cv_disk v) (commit_writes start lg v) b.
Proof.
  intros T. destruct (decide (b ∈ active lg)) as [Hin|Hout].
  - apply apply_writes_both. apply active_elem in Hin as (j & Hj & <-); [|apply T].
    destruct (commit_head _ _ _ _ T) as (_ & Hn & Hb & _). unfold commit_writes, recovery_writes.
    rewrite Hn. rewrite fmap_app, fmap_cons, fmap_app. apply elem_of_app. right. apply elem_of_cons. right. apply elem_of_app. left.
    apply list_elem_of_fmap. eexists. split; [|apply list_elem_of_fmap; exists j; split; [done|by apply elem_of_range]].
    cbn [fst]. by rewrite Hb.
  - apply apply_writes_same, (tx_clean _ _ _ _ T). intros j Hj E. apply Hout, active_elem; [apply T|]. by exists j.
Qed.
End group.
