(* ===== verification/LogSafe.v ===== *)
(** * The log is crash safe

    [end_op] commits; every event of the log refines its abstract step; and
    whenever the machine stops, recovery returns to contents that were
    committed at some point of the run. *)

From stdpp Require Import base numbers list gmap strings.
From Stdlib Require Import ZArith Lia.
From S2P Require Import Prelude Blocks Monad Codec Bio BioCache BioBoot Log LogSteps LogCrash LogGroup.
Open Scope Z_scope.

Section safe.
Context {C : Type} {BC : BufferCache C} {OK : BufferCacheOK C}.
Variables nlog start : Z.
Hypothesis Hnlog : 1 <= nlog <= NBUF.
Implicit Types (c : C) (lg : log) (v : cview) (a : astate).

(** What an event does: its writes take the disk from the contents committed
    before to those committed after, with nothing else to be recovered. *)
Definition step_post a a' v (s : lst C) : Prop :=
  exists c' lg' v' ws, s = mk_lst c' lg' /\ c_shows c' v' /\ sim nlog start a' lg' v' /\
    cv_writes v' = cv_writes v ++ ws /\ cv_disk v' = apply_writes (cv_disk v) ws /\
    (forall w, w ∈ ws -> home nlog start w.1 -> w.2 = a_committed a' w.1) /\
    forall k, holds nlog start (a_committed a) (apply_writes (cv_disk v) (take k ws)) \/
              holds nlog start (a_committed a') (apply_writes (cv_disk v) (take k ws)).

(** An event that writes nothing. *)
Lemma step_quiet a a' v c' lg lg' v' : sim nlog start a lg v -> c_shows c' v' -> sim nlog start a' lg' v' ->
  cv_writes v' = cv_writes v -> cv_disk v' = cv_disk v -> step_post a a' v (mk_lst c' lg').
Proof.
  intros S Hs S' Hw Hd. exists c', lg', v', []. rewrite app_nil_r. split_and!; try done; [by intros w ?%elem_of_nil|]. intros k. left.
  rewrite take_nil. by apply (sim_holds nlog start Hnlog a lg).
Qed.

Lemma txn_ops lg v o b : txn nlog start lg v -> txn nlog start (set_ops o b lg) v.
Proof. intros [T1 T2 [L1 L2 L3 L4] T4 T5 T6 T7 T8 T9 T10]. by constructor. Qed.

(** [commit] on a transaction of the simulation. *)
Lemma commit_sim a lg v c o cm : c_shows c v -> sim nlog start a lg v ->
  wp commit (fun _ s => exists c' lg' v' ws, s = mk_lst c' lg' /\ c_shows c' v' /\
    lg_outstanding lg' = o /\ sim nlog start (mk_astate (a_current a) (a_current a) 0 []) (set_ops 0 false lg') v' /\
    cv_writes v' = cv_writes v ++ ws /\ cv_disk v' = apply_writes (cv_disk v) ws /\
    (forall w, w ∈ ws -> home nlog start w.1 -> w.2 = a_current a w.1) /\
    forall k, holds nlog start (a_committed a) (apply_writes (cv_disk v) (take k ws)) \/
              holds nlog start (a_current a) (apply_writes (cv_disk v) (take k ws))) (mk_lst c (set_ops o cm lg)).
Proof.
  intros Hs S. pose proof (sm_ok _ _ _ _ _ S) as Hok. pose proof (sim_txn _ _ Hnlog _ _ _ S) as T.
  destruct (Z.eq_dec (lg_n lg) 0) as [Hz|Hz].
  - unfold commit, the_log. apply wp_bind, wp_gets. cbn [l_log set_ops lg_n]. rewrite Hz. cbn [Z.ltb Z.compare]. apply wp_ret.
    assert (Ha : active lg = []) by (apply length_zero_iff_nil; pose proof (active_length lg Hok); lia).
    exists c, (set_ops o cm lg), v, []. rewrite app_nil_r. split_and!; try done.
    + constructor; cbn [a_committed a_current a_ops a_logged]; try apply S; try done.
      * destruct Hok. by constructor.
      * intros b Hb. rewrite <- (sm_clean _ _ _ _ _ S) by (rewrite Ha; set_solver). by apply S.
    + by intros w ?%elem_of_nil.
    + intros k. left. rewrite take_nil. by apply (sim_holds nlog start Hnlog a lg).
  - pose proof (lo_n _ Hok) as Hn. pose proof (txn_ops lg v o cm T) as T'.
    destruct (commit_all _ _ _ _ T') as (Hall & Hhome & Hhead).
    eapply wp_mono; [apply (commit_spec nlog start (set_ops o cm lg) v c Hs T'); cbn [set_ops lg_n]; lia|].
    set (ws := commit_writes _ _ _) in *. intros _ s (c' & -> & Hs'). exists c', (set_n 0 (set_ops o cm lg)). eexists _, ws.
    split_and!; [done|exact Hs'|done| |done|done| |].
    + constructor; cbn [a_committed a_current a_ops a_logged with_refs push cv_view cv_disk cv_refs cv_held cv_writes]; try apply S; try done.
      * apply (log_idle_ok nlog start). split_and!; [apply S|lia|apply S|done|apply Hok].
      * by apply NoDup_nil.
      * rewrite (sm_refs _ _ _ _ _ S). etransitivity; [exact (unpin_all lg Hok (sm_nodup _ _ _ _ _ S))|done].
      * intros b Hb. etransitivity; [exact (commit_clean nlog start Hnlog _ _ b T')|]. fold ws. rewrite Hhome by done. by apply S.
      * intros b Hb. rewrite Hhome by done. by apply S.
      * intros b _. exact (commit_clean nlog start Hnlog _ _ b T').
      * apply (ho_len _ _ _ _ Hall).
    + intros w Hw Hh. rewrite (commit_values _ _ _ _ T' w Hw Hh). by apply S.
    + intros k. destruct (commit_prefix _ _ _ _ T' k) as [H|H]; [left|right]; (eapply holds_ext; [|exact H]); apply S.
Qed.

Lemma end_spec a lg v c : c_shows c v -> sim nlog start a lg v -> a_allowed nlog start a FsEnd ->
  wp end_op (fun _ s => step_post a (a_step a FsEnd) v s) (mk_lst c lg).
Proof.
  intros Hs S Hal. simpl in Hal. destruct (sm_ops _ _ _ _ _ S) as (Ho & H0 & Hc). unfold end_op, the_log.
  apply wp_bind, wp_mod_log, wp_bind, wp_gets. cbn [l_log set_ops lg_committing lg_outstanding]. rewrite Hc, Ho. simpl a_step.
  destruct (Z.eqb_spec (a_ops a - 1) 0) as [Hz|Hz].
  - apply wp_bind, wp_mod_log, wp_bind. cbn [set_ops lg_outstanding]. rewrite Hz.
    change (set_ops 0 true (set_ops 0 false lg)) with (set_ops 0 true lg).
    eapply wp_mono; [apply (commit_sim a lg v c _ _ Hs S)|].
    intros _ s (c' & lg' & v' & ws & -> & Hs' & Ho' & S' & Hw & Hd & Hval & Hk). apply wp_mod_log. rewrite Ho'.
    by exists c', (set_ops 0 false lg'), v', ws.
  - apply wp_ret. apply (step_quiet _ _ _ _ lg _ v); try done. constructor; try apply S.
    + destruct (sm_ok _ _ _ _ _ S). by constructor.
    + simpl. split_and!; [lia|lia|done].
Qed.

Lemma event_ok a lg v c e : c_shows c v -> sim nlog start a lg v -> a_allowed nlog start a e ->
  wp (do_event e) (fun _ s => step_post a (a_step a e) v s) (mk_lst c lg).
Proof.
  intros Hs S Hal. destruct e as [|n f|]; simpl do_event.
  - eapply wp_mono; [apply (begin_spec nlog start a lg v c Hs S Hal)|]. intros _ s (lg' & -> & S').
    by apply (step_quiet _ _ _ _ lg _ v).
  - eapply wp_mono; [apply (update_spec nlog start Hnlog a lg v c n f Hs S Hal)|].
    intros _ s (c' & lg' & v' & -> & Hs' & S' & Hw & Hd). by apply (step_quiet _ _ _ _ lg _ v').
  - by apply (end_spec a lg).
Qed.

(** ** Runs *)

Lemma run_ok es : forall a lg v c, c_shows c v -> sim nlog start a lg v -> a_runs nlog start a es ->
  wp (forM es do_event) (fun _ s => exists c' lg' v' ws, s = mk_lst c' lg' /\ c_shows c' v' /\
    sim nlog start (foldl a_step a es) lg' v' /\ cv_writes v' = cv_writes v ++ ws /\ cv_disk v' = apply_writes (cv_disk v) ws /\
    forall k, exists i, (i <= length es)%nat /\
      holds nlog start (a_committed (foldl a_step a (take i es))) (apply_writes (cv_disk v) (take k ws))) (mk_lst c lg).
Proof.
  induction es as [|e es IH]; intros a lg v c Hs S Hr.
  - apply wp_ret. exists c, lg, v, []. rewrite app_nil_r. split_and!; try done. intros k. exists 0%nat. split; [done|].
    rewrite !take_nil. by apply (sim_holds nlog start Hnlog a lg).
  - destruct Hr as [Hal Hr]. apply wp_bind. eapply wp_mono; [apply (event_ok a lg v c e Hs S Hal)|].
    intros _ s (c1 & lg1 & v1 & ws1 & -> & Hs1 & S1 & Hw1 & Hd1 & _ & Hk1).
    eapply wp_mono; [apply (IH _ lg1 v1 c1 Hs1 S1 Hr)|]. intros _ s (c2 & lg2 & v2 & ws2 & -> & Hs2 & S2 & Hw2 & Hd2 & Hk2).
    exists c2, lg2, v2, (ws1 ++ ws2). split_and!; [done|done|done|by rewrite Hw2, Hw1, app_assoc|by rewrite Hd2, Hd1, apply_writes_app|].
    intros k. rewrite take_app. destruct (decide (k <= length ws1)%nat) as [Hle|Hgt].
    + replace (k - length ws1)%nat with 0%nat by lia. rewrite take_0, app_nil_r.
      destruct (Hk1 k) as [H|H]; [exists 0%nat|exists 1%nat]; cbn [length]; (split; [lia|exact H]).
    + rewrite (take_ge ws1) by lia. rewrite apply_writes_app, <- Hd1.
      destruct (Hk2 (k - length ws1)%nat) as (i & Hi & H). exists (Datatypes.S i). cbn [length]. split; [lia|exact H].
Qed.

(** ** Starting up *)

(** The [log] of a machine that starts: static data, all zero. *)
Definition boot_log : log := mk_log 0 0 0 false 0 (replicate (Z.to_nat LOGSIZE) 0).

Lemma boot_log_ints : ints boot_log.(lg_block).
Proof. apply Forall_replicate. lia. Qed.

Lemma initlog_spec F D W c : c_shows c (fresh D W) -> holds nlog start F D ->
  wp (initlog start nlog) (fun _ s => exists c' lg' v', s = mk_lst c' lg' /\ c_shows c' v' /\
    sim nlog start (mk_astate F F 0 []) lg' v' /\ cv_writes v' = W ++ recovery_writes start D /\
    cv_disk v' = apply_writes D (recovery_writes start D)) (mk_lst c boot_log).
Proof.
  intros Hs HF. unfold initlog. change (BSIZE <=? 4 + 4 * LOGSIZE) with false. cbv iota. apply wp_bind, wp_mod_log.
  set (lg := mk_log _ _ _ _ _ _).
  assert (Hlen : Z.of_nat (length (lg_block lg)) = LOGSIZE) by (cbn [lg lg_block boot_log]; rewrite length_replicate; done).
  eapply wp_mono; [apply (recover_spec F D W c lg Hs HF Hlen)|]. intros _ s (c' & bs & -> & Hid & Hints & Hs').
  eexists c', _, _. split; [done|]. split; [exact Hs'|]. split; [|done].
  destruct (recovered _ _ _ _ HF) as [Hhome Hhead]. change (lg_start lg) with start in *.
  constructor; cbn [push fresh cv_view cv_disk cv_refs cv_held a_current a_committed a_ops a_logged]; try done.
  - by apply (log_idle_ok nlog start).
  - cbn [set_blocks lg_block]. apply Hints, boot_log_ints.
  - by apply NoDup_nil.
  - rewrite <- (firstn_all (recovery_writes start D)). by apply (ho_len nlog start F), recovery_holds.
Qed.

(** Crashes: the machine stops during recovery, any number of times. *)
Inductive crashes : blocks -> blocks -> Prop :=
| crash_now D : crashes D D
| crash_again D D1 c s v k : crashes D D1 -> c_shows c (fresh D1 []) ->
    initlog start nlog (mk_lst c boot_log) = Done tt s -> c_shows (l_cache s) v ->
    crashes D (apply_writes D1 (take k (cv_writes v))).

Lemma crashes_hold F D D' : crashes D D' -> holds nlog start F D -> holds nlog start F D'.
Proof.
  induction 1 as [|D D1 c s v k _ IH Hc Hr Hv]; [done|]. intros HF. specialize (IH HF).
  pose proof (initlog_spec F D1 [] c Hc IH) as Hi. apply wp_Done in Hi as ([] & s' & Hr' & (c' & lg' & v' & -> & Hv' & _ & Hw & _)).
  rewrite Hr in Hr'. injection Hr' as ->. destruct (shows_fun _ _ _ Hv Hv') as [-> _]. rewrite Hw. by apply recovery_holds.
Qed.

(** C5: crash safety of the log.  After a start on any disk that recovers to
    contents [F], let any sequence of interleaved calls run (each within its
    reservation).  Then the cache has the effect of all their writes; and if the
    machine stops after any number [k] of the disk writes of the run, possibly
    stops again any number of times while it recovers, and then recovers, the
    blocks outside the log are as they were committed after some number [i] of
    the events: a transaction is there as a whole or not at all.  Nothing that
    was committed is lost once the run's writes are all on the disk. *)
Theorem log_crash_safe F D W c es :
  c_shows c (fresh D W) -> holds nlog start F D -> a_runs nlog start (mk_astate F F 0 []) es ->
  wp (initlog start nlog;; forM es do_event) (fun _ s => exists v ws, c_shows (l_cache s) v /\
      (forall b, home nlog start b -> cv_view v b = a_current (foldl a_step (mk_astate F F 0 []) es) b) /\
      cv_writes v = W ++ ws /\
      forall k D', crashes (apply_writes D (take k ws)) D' ->
        exists i, (i <= length es)%nat /\ ((length ws <= k)%nat -> i = length es) /\
        forall c0 W0, c_shows c0 (fresh D' W0) ->
          wp (initlog start nlog) (fun _ s' => exists v', c_shows (l_cache s') v' /\
            forall b, home nlog start b ->
              cv_disk v' b = a_committed (foldl a_step (mk_astate F F 0 []) (take i es)) b)
          (mk_lst c0 boot_log))
    (mk_lst c boot_log).
Proof.
  intros Hs HF Hr. set (a := mk_astate F F 0 []) in *.
  assert (Hrec : forall D1 D' i, holds nlog start (a_committed (foldl a_step a (take i es))) D1 -> crashes D1 D' ->
    forall c0 W0, c_shows c0 (fresh D' W0) -> wp (initlog start nlog) (fun _ s' => exists v', c_shows (l_cache s') v' /\
      forall b, home nlog start b -> cv_disk v' b = a_committed (foldl a_step a (take i es)) b) (mk_lst c0 boot_log)).
  { intros D1 D' i H1 Hc c0 W0 Hc0. eapply wp_mono; [apply (initlog_spec _ D' W0 c0 Hc0 (crashes_hold _ _ _ Hc H1))|].
    intros _ s (c' & lg' & v' & -> & Hs' & S' & _). exists v'. split; [done|]. intros b Hb. by rewrite (sm_disk _ _ _ _ _ S'). }
  apply wp_bind. eapply wp_mono; [apply (initlog_spec F D W c Hs HF)|]. intros _ s (c1 & lg1 & v1 & -> & Hs1 & S1 & Hw1 & Hd1).
  eapply wp_mono; [apply (run_ok es a lg1 v1 c1 Hs1 S1 Hr)|]. intros _ s (c2 & lg2 & v2 & ws & -> & Hs2 & S2 & Hw2 & Hd2 & Hk).
  exists v2, (recovery_writes start D ++ ws). split; [done|]. split; [apply S2|].
  split; [by rewrite Hw2, Hw1, app_assoc|]. intros k D' Hc.
  destruct (decide (length (recovery_writes start D ++ ws) <= k)%nat) as [Hall|Hpart].
  - exists (length es). split; [done|]. split; [done|]. rewrite take_ge, apply_writes_app, <- Hd1, <- Hd2 in Hc by done.
    apply (Hrec (cv_disk v2)); [|done]. rewrite firstn_all. by apply (sim_holds nlog start Hnlog _ lg2).
  - enough (exists i, (i <= length es)%nat /\ holds nlog start (a_committed (foldl a_step a (take i es)))
      (apply_writes D (take k (recovery_writes start D ++ ws)))) as (i & Hi & Hh).
    { exists i. split; [done|]. split; [lia|]. by apply (Hrec _ D' i Hh). }
    rewrite take_app. destruct (decide (k <= length (recovery_writes start D))%nat) as [Hle|Hgt].
    + exists 0%nat. split; [lia|]. replace (k - length _)%nat with 0%nat by lia. rewrite take_0, app_nil_r. by apply recovery_holds.
    + rewrite (take_ge (recovery_writes start D)) by lia. rewrite apply_writes_app, <- Hd1. apply Hk.
Qed.
End safe.

(** * The log on the linked buffers

    The theorem at a concrete run on the cache of Bio.v, and a run that shows
    how far the reservation of [begin_op] reaches with the log that mkfs makes
    ([nlog = LOGSIZE] blocks from block 2). *)

Lemma empty_disk_holds : holds 30 2 (dblock ∅) (dblock ∅).
Proof.
  assert (Hn : head_n 2 (dblock ∅) = 0).
  { unfold head_n, get32, dblock. rewrite lookup_empty. cbn [default from_option]. rewrite zblk_eq, drop_replicate, take_replicate, le_val_zero.
    done. }
  constructor; rewrite ?Hn; try (intros; lia); [|done|done].
  unfold dblock. rewrite lookup_empty. cbn [default from_option]. rewrite zblk_length. done.
Qed.

(** Two overlapping calls that write a block each. *)
Definition two_calls : list fs_event :=
  [FsBegin; FsWrite 40 (fun _ => replicate 1024 1); FsBegin; FsWrite 41 (fun x => x); FsEnd; FsEnd].

Lemma two_calls_run : a_runs 30 2 (mk_astate (dblock ∅) (dblock ∅) 0 []) two_calls.
Proof.
  cbn [two_calls a_runs a_allowed a_step a_ops a_logged length]. change (0 + 1 + 1 - 1 =? 0) with false. cbn [a_ops].
  unfold home, LOGSIZE, MAXOPBLOCKS. repeat split; repeat case_decide; cbn [length app]; lia.
Qed.

Lemma log_crash_safe_witness : exists c : bst, c_shows c (fresh (dblock ∅) []) /\
  wp (initlog 2 30;; forM two_calls do_event) (fun _ s => exists v ws, c_shows (l_cache s) v /\
      (forall b, home 30 2 b -> cv_view v b = a_current (foldl a_step (mk_astate (dblock ∅) (dblock ∅) 0 []) two_calls) b) /\
      cv_writes v = [] ++ ws /\
      forall k D', crashes (C := bst) 30 2 (apply_writes (dblock ∅) (take k ws)) D' ->
        exists i, (i <= length two_calls)%nat /\ ((length ws <= k)%nat -> i = length two_calls) /\
        forall (c0 : bst) W0, c_shows c0 (fresh D' W0) ->
          wp (initlog 2 30) (fun _ s' => exists v', c_shows (l_cache s') v' /\
            forall b, home 30 2 b ->
              cv_disk v' b = a_committed (foldl a_step (mk_astate (dblock ∅) (dblock ∅) 0 []) (take i two_calls)) b)
          (mk_lst c0 boot_log))
    (mk_lst c boot_log).
Proof.
  destruct booted as (c & _ & Hc). exists c. split; [exact Hc|].
  assert (Hn : 1 <= 30 <= NBUF) by (unfold NBUF, MAXOPBLOCKS; lia).
  exact (log_crash_safe 30 2 Hn (dblock ∅) (dblock ∅) [] c two_calls Hc empty_disk_holds two_calls_run).
Defined.

(** ** The reservation *)

Section full.
Context {C : Type} {BC : BufferCache C} {OK : BufferCacheOK C}.
Variables nlog start : Z.
Hypothesis Hnlog : 1 <= nlog <= NBUF.

(** One more write when all data blocks of the log are in use. *)
Lemma full_log_panics a lg v (c : C) n f : c_shows c v -> sim nlog start a lg v -> Z.of_nat (length (a_logged a)) = nlog - 1 ->
  exists s, update n f (mk_lst c lg) = Panic "too big a transaction" s.
Proof.
  intros Hs S Hl. rewrite (sm_logged _ _ _ _ _ S), active_length in Hl by apply (sm_ok _ _ _ _ _ S).
  destruct (sim_room nlog start Hnlog _ _ _ S) as [[Hh HR] Hsz].
  pose proof (bread_ok n v c Hs) as Hb. destruct (proj1 (wp_Done _ _ _) (Hb ltac:(split; [by rewrite Hh|right; lia]) ltac:(intros k r Hk%HR; lia)))
    as (b & c1 & E1 & H1). clear Hb. rewrite Hh, insert_empty in H1.
  destruct (proj1 (wp_Done _ _ _) (data_ok n b _ c1 H1 (lookup_singleton_eq _ _))) as (x & c2 & E2 & _ & ->).
  destruct (proj1 (wp_Done _ _ _) (set_data_ok n b (f x) _ c1 H1 (lookup_singleton_eq _ _))) as (u & c3 & E3 & _).
  exists (mk_lst c3 lg). unfold update, in_cache, lift, bind. cbn [l_cache l_log]. rewrite E1. cbn [l_cache l_log]. rewrite E2.
  cbn [l_cache l_log]. rewrite E3. unfold log_write, the_log, bind, gets. cbn [l_log].
  rewrite (sm_size _ _ _ _ _ S), Hl, (proj2 (Z.leb_le (nlog - 1) (nlog - 1))), orb_true_r by lia. done.
Qed.
End full.

(** Three calls in progress, which have changed 29 blocks between them. *)
Definition three_calls : list fs_event :=
  [FsBegin; FsBegin; FsBegin] ++ map (fun b => FsWrite b (fun x => x)) (range 40 69).

Lemma a_runs_app nlog start es1 : forall a es2, a_runs nlog start a (es1 ++ es2) <->
  a_runs nlog start a es1 /\ a_runs nlog start (foldl a_step a es1) es2.
Proof. induction es1 as [|e es1 IH]; intros a es2; simpl; [tauto|]. rewrite IH. tauto. Qed.

(** New blocks written one after another are logged in that order. *)
Lemma writes_run F G ops n l : 1 <= ops -> 0 <= n -> (forall b, b ∈ l -> b < 40) -> n + Z.of_nat (length l) <= 29 ->
  a_runs 30 2 (mk_astate F G ops l) (map (fun b => FsWrite b (fun x => x)) (range 40 (40 + n))) /\
  exists G', foldl a_step (mk_astate F G ops l) (map (fun b => FsWrite b (fun x => x)) (range 40 (40 + n))) =
    mk_astate F G' ops (l ++ range 40 (40 + n)).
Proof.
  intros Ho Hn Hl. pattern n. apply natlike_ind; [..|done]; clear n Hn.
  - intros _. rewrite range_nil by lia. split; [done|]. exists G. simpl. by rewrite app_nil_r.
  - intros n Hn IH Hlen. unfold Z.succ in *. destruct (IH ltac:(lia)) as (IH1 & G' & IH2).
    replace (40 + (n + 1)) with (40 + n + 1) by lia. rewrite (range_snoc 40) by lia. replace (40 + n + 1 - 1) with (40 + n) by lia.
    rewrite map_app, a_runs_app, foldl_app, IH2. split.
    + split; [done|]. simpl. split; [|done]. rewrite length_app, range_len. unfold home, LOGSIZE, MAXOPBLOCKS. split_and!; lia.
    + eexists. cbn [map foldl a_step a_committed a_current a_ops a_logged]. rewrite decide_False; [by rewrite app_assoc|].
      rewrite elem_of_app, elem_of_range. intros [H%Hl|H]; lia.
Qed.

(** the reservation of [begin_op] is larger than the log.  With the log of
    mkfs, [begin_op] admits three calls at once, for [MAXOPBLOCKS = 10] blocks
    each.  After they have changed 29 blocks the tenth block of the third call
    makes [log_write] panic, although it is within the reservation. *)
Theorem reservation_exceeds_log (c : bst) : c_shows c (fresh (dblock ∅) []) ->
  exists s s', (initlog 2 LOGSIZE;; forM three_calls do_event) (mk_lst c boot_log) = Done tt s /\
    update 69 (fun x => x) s = Panic "too big a transaction" s'.
Proof.
  intros Hc. set (a := mk_astate (dblock ∅) (dblock ∅) 0 []).
  assert (Hn : 1 <= 30 <= NBUF) by (unfold NBUF, MAXOPBLOCKS; lia).
  destruct (writes_run (dblock ∅) (dblock ∅) 3 29 []) as (Hr & G' & Hf); [lia|lia|set_solver|simpl; lia|].
  assert (Hruns : a_runs 30 2 a three_calls).
  { unfold three_calls. apply a_runs_app. split; [|exact Hr]. simpl. unfold LOGSIZE, MAXOPBLOCKS. split_and!; lia || done. }
  assert (Hfin : foldl a_step a three_calls = mk_astate (dblock ∅) G' 3 (range 40 69)).
  { unfold three_calls. rewrite foldl_app. exact Hf. }
  destruct (proj1 (wp_Done _ _ _) (initlog_spec 30 2 (dblock ∅) (dblock ∅) [] c Hc empty_disk_holds))
    as ([] & s1 & E1 & (c1 & lg1 & v1 & -> & Hs1 & S1 & _)).
  destruct (proj1 (wp_Done _ _ _) (run_ok 30 2 Hn three_calls a lg1 v1 c1 Hs1 S1 Hruns))
    as ([] & s2 & E2 & (c2 & lg2 & v2 & ws & -> & Hs2 & S2 & _)).
  rewrite Hfin in S2. destruct (full_log_panics 30 2 Hn _ lg2 v2 c2 69 (fun x => x) Hs2 S2) as (s' & E3).
  { cbn [a_logged]. rewrite range_len. lia. }
  exists (mk_lst c2 lg2), s'. split; [|done]. unfold bind. change LOGSIZE with 30. by rewrite E1.
Qed.

Lemma reservation_exceeds_log_witness : exists c : bst, c_shows c (fresh (dblock ∅) []) /\
  exists s s', (initlog 2 LOGSIZE;; forM three_calls do_event) (mk_lst c boot_log) = Done tt s /\
    update 69 (fun x => x) s = Panic "too big a transaction" s'.
Proof.
  destruct booted as (c & _ & Hc). exists c. split; [exact Hc|]. exact (reservation_exceeds_log c Hc).
Defined.
