(* ===== verification/Txn.v ===== *)
(** * Transactions as an interface

    What log.c and bio.c together promise to the file system (fs.c): [bread]
    gives the current contents of a block; between [begin_op] and [end_op]
    changed blocks are handed over with [log_write]; what was committed is what
    a crash leads back to.  [Transactions] names the operations and the
    observable state, [TransactionsOK] the laws; the log of Log.v over any
    buffer cache satisfies them.

    The file system may hold several buffers at a time ([bmap] holds the
    indirect block while it allocates), so the simulation of LogGroup.v is
    extended by the buffers that are held. *)

From stdpp Require Import base numbers list gmap strings.
From Stdlib Require Import ZArith Lia.
From S2P Require Import Prelude Blocks Monad Codec Bio BioCache Log LogSteps LogCrash LogGroup LogSafe.
Open Scope Z_scope.

(** The log area, the contents of the disk at the start, the contents committed
    since (the latest last), the current contents, the calls in progress, the
    blocks of the transaction and the buffer held for each block. *)
Record tview := mk_tview {
  tv_nlog : Z;
  tv_start : Z;
  tv_boot : blocks;
  tv_hist : list blocks;
  tv_committed : blocks;
  tv_cur : blocks;
  tv_ops : Z;
  tv_logged : list Z;
  tv_held : gmap Z Z;
}.
Definition with_cur (F : blocks) (t : tview) : tview :=
  mk_tview (tv_nlog t) (tv_start t) (tv_boot t) (tv_hist t) (tv_committed t) F (tv_ops t) (tv_logged t) (tv_held t).
Definition with_logged (l : list Z) (t : tview) : tview :=
  mk_tview (tv_nlog t) (tv_start t) (tv_boot t) (tv_hist t) (tv_committed t) (tv_cur t) (tv_ops t) l (tv_held t).
Definition with_held (h : gmap Z Z) (t : tview) : tview :=
  mk_tview (tv_nlog t) (tv_start t) (tv_boot t) (tv_hist t) (tv_committed t) (tv_cur t) (tv_ops t) (tv_logged t) h.
Definition with_ops (o : Z) (t : tview) : tview :=
  mk_tview (tv_nlog t) (tv_start t) (tv_boot t) (tv_hist t) (tv_committed t) (tv_cur t) o (tv_logged t) (tv_held t).
(** The transaction is committed. *)
Definition committed (t : tview) : tview :=
  mk_tview (tv_nlog t) (tv_start t) (tv_boot t) (tv_hist t ++ [tv_committed t]) (tv_cur t) (tv_cur t) 0 [] (tv_held t).

Definition add_logged (n : Z) (l : list Z) : list Z := if decide (n ∈ l) then l else l ++ [n].

(** [log_write] accepts another block. *)
Definition log_room (t : tview) : Prop :=
  Z.of_nat (length (tv_logged t)) < LOGSIZE /\ Z.of_nat (length (tv_logged t)) < tv_nlog t - 1.

Class Transactions (T : Type) := {
  t_bread : Z -> M T Z;
  t_data : Z -> M T block;
  t_set_data : Z -> block -> M T unit;
  t_log_write : Z -> M T unit;
  t_brelse : Z -> M T unit;
  t_begin_op : M T unit;
  t_end_op : M T unit;
  t_initlog : Z -> Z -> M T unit;
  t_shows : T -> tview -> Prop;
}.

Class TransactionsOK T {TX : Transactions T} : Prop := {
  t_bread_ok n t (s : T) : t_shows s t -> home (tv_nlog t) (tv_start t) n -> tv_held t !! n = None ->
    Z.of_nat (length (tv_logged t)) + Z.of_nat (size (tv_held t)) < NBUF ->
    wp (t_bread n) (fun b s' => t_shows s' (with_held (<[n := b]> (tv_held t)) t)) s;
  t_data_ok n b t (s : T) : t_shows s t -> tv_held t !! n = Some b ->
    wp (t_data b) (fun x s' => x = tv_cur t n /\ s' = s) s;
  t_set_data_ok n b x t (s : T) : t_shows s t -> tv_held t !! n = Some b ->
    wp (t_set_data b x) (fun _ s' => t_shows s' (with_cur (bupd (tv_cur t) n x) t)) s;
  t_log_write_ok n b t (s : T) : t_shows s t -> tv_held t !! n = Some b -> 1 <= tv_ops t -> 0 <= n < 2 ^ 31 -> log_room t ->
    wp (t_log_write b) (fun _ s' => t_shows s' (with_logged (add_logged n (tv_logged t)) t)) s;
  t_brelse_ok n b t (s : T) : t_shows s t -> tv_held t !! n = Some b ->
    n ∈ tv_logged t \/ tv_cur t n = tv_committed t n ->
    wp (t_brelse b) (fun _ s' => t_shows s' (with_held (delete n (tv_held t)) t)) s;
  t_begin_op_ok t (s : T) : t_shows s t ->
    Z.of_nat (length (tv_logged t)) + (tv_ops t + 1) * MAXOPBLOCKS <= LOGSIZE ->
    wp t_begin_op (fun _ s' => t_shows s' (with_ops (tv_ops t + 1) t)) s;
  t_end_op_ok t (s : T) : t_shows s t -> 1 <= tv_ops t -> tv_held t = ∅ ->
    wp t_end_op (fun _ s' => t_shows s' (if tv_ops t =? 1 then committed t else with_ops (tv_ops t - 1) t)) s;
  (** Blocks that are neither held nor in the transaction are as committed. *)
  t_clean (s : T) t n : t_shows s t -> home (tv_nlog t) (tv_start t) n -> n ∉ tv_logged t -> tv_held t !! n = None ->
    tv_cur t n = tv_committed t n;
  t_bound (s : T) t : t_shows s t -> 1 <= tv_nlog t <= NBUF /\ 0 <= tv_ops t /\ NoDup (tv_logged t) /\
    Z.of_nat (length (tv_logged t)) < tv_nlog t;
}.

(** ** The log provides transactions *)

Section instance.
Context {C : Type} {BC : BufferCache C} {OK : BufferCacheOK C}.
Implicit Types (c : C) (lg : log) (v : cview) (t : tview).

(** One reference for each block of the transaction and each buffer held. *)
Definition held_refs (l : list Z) (h : gmap Z Z) (k : Z) : Z :=
  (if decide (k ∈ l) then 1 else 0) + match h !! k with Some _ => 1 | None => 0 end.

Record tsim t lg v : Prop := {
  ts_size : lg_size lg = tv_nlog t;
  ts_start : lg_start lg = tv_start t;
  ts_nlog : 1 <= tv_nlog t <= NBUF;
  ts_ok : log_ok lg;
  ts_ints : ints (lg_block lg);
  ts_logged : tv_logged t = active lg;
  ts_nodup : NoDup (active lg);
  ts_refs : forall k, cv_refs v !! k = let r := held_refs (active lg) (tv_held t) k in if decide (r = 0) then None else Some r;
  ts_held : cv_held v = tv_held t;
  ts_heldhome : forall n, is_Some (tv_held t !! n) -> home (tv_nlog t) (tv_start t) n;
  ts_ops : lg_outstanding lg = tv_ops t /\ 0 <= tv_ops t /\ lg_committing lg = false;
  ts_view : forall b, home (tv_nlog t) (tv_start t) b -> cv_view v b = tv_cur t b;
  ts_disk : forall b, home (tv_nlog t) (tv_start t) b -> cv_disk v b = tv_committed t b;
  ts_clean : forall b, b ∉ active lg -> tv_held t !! b = None -> cv_view v b = cv_disk v b;
  ts_head : head_n (tv_start t) (cv_disk v) = 0;
  ts_len : Z.of_nat (length (cv_disk v (tv_start t))) = BSIZE;
}.

(** What a crash after any number of the disk writes so far leads back to. *)
Record tcrash t v : Prop := {
  tc_disk : cv_disk v = apply_writes (tv_boot t) (cv_writes v);
  tc_values : forall w, w ∈ cv_writes v -> home (tv_nlog t) (tv_start t) w.1 -> exists F, F ∈ tv_hist t ++ [tv_committed t] /\ w.2 = F w.1;
  tc_past : forall k, exists F, F ∈ tv_hist t ++ [tv_committed t] /\
    holds (tv_nlog t) (tv_start t) F (apply_writes (tv_boot t) (take k (cv_writes v)));
}.

Definition log_shows (s : lst C) t : Prop := exists v, c_shows (l_cache s) v /\ tsim t (l_log s) v /\ tcrash t v.

#[export] Instance log_transactions : Transactions (lst C) := {|
  t_bread n := in_cache (c_bread n);
  t_data b := in_cache (c_data b);
  t_set_data b x := in_cache (c_set_data b x);
  t_log_write := log_write;
  t_brelse b := in_cache (c_brelse b);
  t_begin_op := begin_op;
  t_end_op := end_op;
  t_initlog := initlog;
  t_shows := log_shows;
|}.

(** ** The laws *)

Lemma held_refs_bound l h k : 0 <= held_refs l h k <= 2.
Proof. unfold held_refs. case_decide; destruct (h !! k); lia. Qed.

Lemma tsim_lookup t lg v k r : tsim t lg v -> cv_refs v !! k = Some r -> r = held_refs (active lg) (tv_held t) k /\ 0 < r <= 2.
Proof.
  intros S. rewrite (ts_refs _ _ _ S). cbv zeta. pose proof (held_refs_bound (active lg) (tv_held t) k).
  case_decide; [done|]. intros [= <-]. lia.
Qed.
Lemma tsim_few t lg v : tsim t lg v -> few_refs v.
Proof. intros S n r Hr. apply (tsim_lookup t lg) in Hr; [lia|done]. Qed.
Lemma tsim_refs_ok t lg v : tsim t lg v -> refs_ok (cv_refs v).
Proof. intros S n r Hr. apply (tsim_lookup t lg) in Hr; [lia|done]. Qed.

Lemma tsim_size t lg v : tsim t lg v ->
  Z.of_nat (size (cv_refs v)) <= Z.of_nat (length (tv_logged t)) + Z.of_nat (size (tv_held t)).
Proof.
  intros S. rewrite (ts_logged _ _ _ S), <- !size_dom.
  assert (H : dom (cv_refs v) ⊆ list_to_set (active lg) ∪ dom (tv_held t)).
  { intros k [r Hr]%elem_of_dom. apply (tsim_lookup t lg) in Hr as [-> Hr]; [|done]. unfold held_refs in Hr.
    apply elem_of_union. destruct (decide (k ∈ active lg)); [left; by apply elem_of_list_to_set|right].
    apply elem_of_dom. destruct (tv_held t !! k); [done|lia]. }
  apply subseteq_size in H. rewrite size_union_alt in H.
  pose proof (subseteq_size (dom (tv_held t) ∖ list_to_set (active lg)) (dom (tv_held t)) ltac:(set_solver)).
  rewrite size_list_to_set in H by apply (ts_nodup _ _ _ S). lia.
Qed.

(** The references when the buffers held or the blocks logged change. *)
Lemma refs_ref (R : gmap Z Z) l h l' h' n :
  (forall k, R !! k = let r := held_refs l h k in if decide (r = 0) then None else Some r) ->
  (forall k, held_refs l' h' k = held_refs l h k + if decide (k = n) then 1 else 0) ->
  forall k, ref R n !! k = let r := held_refs l' h' k in if decide (r = 0) then None else Some r.
Proof.
  intros HR Hh k. cbv zeta in *. rewrite ref_lookup, Hh, !HR. pose proof (held_refs_bound l h k).
  destruct (decide (k = n)) as [->|].
  - rewrite (decide_False (P := _ + 1 = 0)) by lia. case_decide as E; simpl; [by rewrite E|done].
  - by rewrite Z.add_0_r.
Qed.
Lemma refs_unref (R : gmap Z Z) l h l' h' n :
  (forall k, R !! k = let r := held_refs l h k in if decide (r = 0) then None else Some r) ->
  (forall k, held_refs l h k = held_refs l' h' k + if decide (k = n) then 1 else 0) ->
  forall k, unref R n !! k = let r := held_refs l' h' k in if decide (r = 0) then None else Some r.
Proof.
  intros HR Hh k. cbv zeta in *. unfold unref. pose proof (Hh n) as Hn. rewrite decide_True in Hn by done.
  pose proof (held_refs_bound l' h' n). rewrite (HR n), (decide_False (P := held_refs l h n = 0)) by lia. cbn [default from_option id].
  destruct (decide (k = n)) as [->|Hne].
  - replace (held_refs l h n - 1) with (held_refs l' h' n) by lia. case_decide; [apply lookup_delete_eq|apply lookup_insert_eq].
  - specialize (Hh k). rewrite decide_False in Hh by done. rewrite Z.add_0_r in Hh.
    case_decide; rewrite ?lookup_delete_ne, ?lookup_insert_ne, HR, Hh by done; done.
Qed.

Lemma held_insert l (h : gmap Z Z) n b k : h !! n = None ->
  held_refs l (<[n := b]> h) k = held_refs l h k + if decide (k = n) then 1 else 0.
Proof.
  intros Hn. unfold held_refs. destruct (decide (k = n)) as [->|Hne].
  - rewrite lookup_insert_eq, Hn. lia.
  - rewrite lookup_insert_ne by done. lia.
Qed.
Lemma held_delete l (h : gmap Z Z) n b k : h !! n = Some b ->
  held_refs l h k = held_refs l (delete n h) k + if decide (k = n) then 1 else 0.
Proof.
  intros Hn. unfold held_refs. destruct (decide (k = n)) as [->|Hne].
  - rewrite lookup_delete_eq, Hn. lia.
  - rewrite lookup_delete_ne by done. lia.
Qed.
Lemma held_logged l h n k : n ∉ l -> held_refs (l ++ [n]) h k = held_refs l h k + if decide (k = n) then 1 else 0.
Proof.
  intros Hn. unfold held_refs. destruct (decide (k = n)) as [->|Hne].
  - rewrite decide_True, decide_False by set_solver. lia.
  - destruct (decide (k ∈ l)); [rewrite decide_True by set_solver|rewrite decide_False by set_solver]; lia.
Qed.

Lemma tcrash_same t v t' v' : tcrash t v -> tv_boot t' = tv_boot t -> tv_hist t' = tv_hist t -> tv_committed t' = tv_committed t ->
  tv_nlog t' = tv_nlog t -> tv_start t' = tv_start t ->
  cv_disk v' = cv_disk v -> cv_writes v' = cv_writes v -> tcrash t' v'.
Proof. intros [H1 H0 H2] E1 E2 E3 E4 E5 E6 E7. constructor; by rewrite ?E6, ?E7, ?E1, ?E2, ?E3, ?E4, ?E5. Qed.

Ltac tv := cbn [with_held with_cur with_logged with_ops tv_nlog tv_start tv_boot tv_hist tv_committed tv_cur tv_ops tv_logged tv_held
  cv_view cv_disk cv_refs cv_held cv_writes l_cache l_log with_refs] in *.

Lemma log_bread n t (s : lst C) : log_shows s t -> home (tv_nlog t) (tv_start t) n -> tv_held t !! n = None ->
  Z.of_nat (length (tv_logged t)) + Z.of_nat (size (tv_held t)) < NBUF ->
  wp (in_cache (c_bread n)) (fun b s' => log_shows s' (with_held (<[n := b]> (tv_held t)) t)) s.
Proof.
  destruct s as [c lg]. intros (v & Hs & S & X) Hn Hh Hr. apply wp_cache. tv.
  eapply wp_mono; [apply (bread_ok n v c Hs)|].
  - split; [by rewrite (ts_held _ _ _ S)|]. right. pose proof (tsim_size _ _ _ S). lia.
  - by apply (tsim_few t lg).
  - intros b c' Hs'. eexists. split; [exact Hs'|]. split; [|by apply (tcrash_same t v)].
    constructor; tv; try apply S.
    + apply (refs_ref _ (active lg) (tv_held t)); [apply S|]. intros k. by apply held_insert.
    + by rewrite (ts_held _ _ _ S).
    + intros k. destruct (decide (k = n)) as [->|]; [done|]. rewrite lookup_insert_ne by done. apply S.
    + intros b' Hb [Hb' _]%lookup_insert_None. by apply (ts_clean _ _ _ S).
Qed.

Lemma log_set_data n b x t (s : lst C) : log_shows s t -> tv_held t !! n = Some b ->
  wp (in_cache (c_set_data b x)) (fun _ s' => log_shows s' (with_cur (bupd (tv_cur t) n x) t)) s.
Proof.
  destruct s as [c lg]. intros (v & Hs & S & X) Hh. apply wp_cache. tv.
  eapply wp_mono; [apply (set_data_ok n b x v c Hs); by rewrite (ts_held _ _ _ S)|].
  intros [] c' Hs'. eexists. split; [exact Hs'|]. split; [|by apply (tcrash_same t v)].
  constructor; tv; try apply S.
  - intros k Hk. unfold bupd. case_decide; [done|]. by apply S.
  - intros k Hk Hk'. rewrite bupd_ne by congruence. by apply S.
Qed.

Lemma log_log_write n b t (s : lst C) : log_shows s t -> tv_held t !! n = Some b -> 1 <= tv_ops t -> 0 <= n < 2 ^ 31 -> log_room t ->
  wp (log_write b) (fun _ s' => log_shows s' (with_logged (add_logged n (tv_logged t)) t)) s.
Proof.
  destruct s as [c lg]. intros (v & Hs & S & X) Hh Ho Hn [Hr1 Hr2]. tv. pose proof (ts_ok _ _ _ S) as Hok.
  rewrite (ts_logged _ _ _ S), active_length in Hr1, Hr2 by done. destruct (ts_ops _ _ _ S) as (Eo & _ & _).
  eapply wp_mono; [apply (log_write_spec _ (ts_nlog _ _ _ S) n b v c lg Hs); [by rewrite (ts_held _ _ _ S)|by apply (tsim_refs_ok t lg)|done|lia|done|]|].
  { rewrite (ts_size _ _ _ S). lia. }
  intros _ s (c' & -> & Hs'). eexists. split; [exact Hs'|]. split; [|by apply (tcrash_same t v)].
  unfold add_logged. rewrite (ts_logged _ _ _ S). tv. case_decide as Hin; [constructor; tv; try apply S; done|].
  pose proof (active_add n lg Hok Hr1) as Ea. constructor; tv; rewrite ?Ea; try apply S; try done.
  - apply log_add_ok; rewrite ?(ts_size _ _ _ S), ?(ts_start _ _ _ S); try done; [|lia]. by apply (ts_heldhome _ _ _ S), (mk_is_Some _ b).
  - cbn [log_add set_n set_blocks lg_block]. apply ints_zset; [apply S|lia].
  - apply NoDup_app. split_and!; [apply S|set_solver|apply NoDup_singleton].
  - apply (refs_ref _ (active lg) (tv_held t)); [apply S|]. intros k. by apply held_logged.
  - intros k Hk Hk'. apply (ts_clean _ _ _ S); [set_solver|done].
Qed.

Lemma log_brelse n b t (s : lst C) : log_shows s t -> tv_held t !! n = Some b ->
  n ∈ tv_logged t \/ tv_cur t n = tv_committed t n ->
  wp (in_cache (c_brelse b)) (fun _ s' => log_shows s' (with_held (delete n (tv_held t)) t)) s.
Proof.
  destruct s as [c lg]. intros (v & Hs & S & X) Hh Hc. apply wp_cache. tv.
  pose proof (ts_heldhome _ _ _ S n (mk_is_Some _ b Hh)) as Hn.
  assert (Hcl : n ∉ active lg -> cv_view v n = cv_disk v n).
  { intros Hn'. rewrite (ts_view _ _ _ S), (ts_disk _ _ _ S) by done. destruct Hc as [Hc|Hc]; [|done].
    by rewrite (ts_logged _ _ _ S) in Hc. }
  eapply wp_mono; [apply (brelse_ok n b v c Hs); [by rewrite (ts_held _ _ _ S)|]|].
  { rewrite (ts_refs _ _ _ S). cbv zeta. unfold held_refs. rewrite Hh. intros Hr. apply Hcl. intros Hin.
    rewrite (decide_True (P := n ∈ active lg)) in Hr by done. case_decide; simplify_eq. }
  intros [] c' Hs'. eexists. split; [exact Hs'|]. split; [|by apply (tcrash_same t v)].
  constructor; tv; try apply S.
  - apply (refs_unref _ (active lg) (tv_held t)); [apply S|]. intros k. by apply (held_delete _ _ n b).
  - by rewrite (ts_held _ _ _ S).
  - intros k [x [_ Hx]%lookup_delete_Some]. by apply (ts_heldhome _ _ _ S), (mk_is_Some _ x).
  - intros k Hk Hk'. destruct (decide (k = n)) as [->|Hne]; [by apply Hcl|]. rewrite lookup_delete_ne in Hk' by done. by apply S.
Qed.

(** Without held buffers the simulation is the one of LogGroup.v. *)
Definition astate_of t : astate := mk_astate (tv_committed t) (tv_cur t) (tv_ops t) (tv_logged t).

Lemma tsim_sim t lg v : tsim t lg v -> tv_held t = ∅ -> sim (tv_nlog t) (tv_start t) (astate_of t) lg v.
Proof.
  intros S Hh. constructor; try apply S.
  - apply map_eq. intros k. rewrite (ts_refs _ _ _ S), gm_lookup, Hh. unfold held_refs. rewrite lookup_empty. cbv zeta. by destruct (decide (k ∈ active lg)).
  - by rewrite (ts_held _ _ _ S).
  - intros b Hb. apply (ts_clean _ _ _ S); [done|]. by rewrite Hh.
Qed.
Lemma sim_tsim t lg v : sim (tv_nlog t) (tv_start t) (astate_of t) lg v -> tv_held t = ∅ -> 1 <= tv_nlog t <= NBUF -> tsim t lg v.
Proof.
  intros S Hh Hn. constructor; rewrite ?Hh; try apply S; try done.
  - intros k. rewrite (sm_refs _ _ _ _ _ S), gm_lookup. unfold held_refs. rewrite lookup_empty. cbv zeta. by destruct (decide (k ∈ active lg)).
  - by intros n [? ?].
  - intros b Hb _. by apply S.
Qed.

Lemma log_begin t (s : lst C) : log_shows s t -> Z.of_nat (length (tv_logged t)) + (tv_ops t + 1) * MAXOPBLOCKS <= LOGSIZE ->
  wp begin_op (fun _ s' => log_shows s' (with_ops (tv_ops t + 1) t)) s.
Proof.
  destruct s as [c lg]. intros (v & Hs & S & X) Hr. tv. destruct (ts_ops _ _ _ S) as (Ho & H0 & Hc). unfold begin_op, the_log.
  apply wp_bind, wp_gets. tv. rewrite (ts_logged _ _ _ S), active_length in Hr by apply S.
  rewrite Hc, Ho. destruct (Z.ltb_spec LOGSIZE (lg_n lg + (tv_ops t + 1) * MAXOPBLOCKS)); [lia|].
  apply wp_mod_log. exists v. split; [done|]. split; [|by apply (tcrash_same t v)]. constructor; tv; try apply S.
  - constructor; apply (ts_ok _ _ _ S).
  - simpl. split_and!; [lia|lia|done].
Qed.

Lemma take_app_cases {A} k (l1 l2 : list A) : (k <= length l1)%nat /\ take k (l1 ++ l2) = take k l1 \/
  exists j, take k (l1 ++ l2) = l1 ++ take j l2.
Proof.
  destruct (decide (k <= length l1)%nat); [left; split; [done|by rewrite take_app_le]|right].
  exists (k - length l1)%nat. rewrite take_app. by rewrite (take_ge l1) by lia.
Qed.

(** The writes of a step that leads from one committed state to another. *)
Lemma tcrash_step t t' v v' ws : tcrash t v -> tv_boot t' = tv_boot t -> tv_nlog t' = tv_nlog t -> tv_start t' = tv_start t ->
  (forall F, F ∈ tv_hist t ++ [tv_committed t] -> F ∈ tv_hist t' ++ [tv_committed t']) ->
  cv_writes v' = cv_writes v ++ ws -> cv_disk v' = apply_writes (cv_disk v) ws ->
  (forall w, w ∈ ws -> home (tv_nlog t) (tv_start t) w.1 -> w.2 = tv_committed t' w.1) ->
  (forall k, holds (tv_nlog t) (tv_start t) (tv_committed t) (apply_writes (cv_disk v) (take k ws)) \/
             holds (tv_nlog t) (tv_start t) (tv_committed t') (apply_writes (cv_disk v) (take k ws))) -> tcrash t' v'.
Proof.
  intros [H1 H0 H2] E1 E2 E3 Hsub Ew Ed Hval Hk. constructor; rewrite ?E1.
  - by rewrite Ew, apply_writes_app, <- H1.
  - rewrite E2, E3, Ew. intros w [Hw|Hw]%elem_of_app Hh; [destruct (H0 w Hw Hh) as (F & HF & E); exists F; auto|].
    exists (tv_committed t'). split; [|by apply Hval]. apply elem_of_app. right. by apply list_elem_of_singleton.
  - rewrite E2, E3. intros k. rewrite Ew. destruct (take_app_cases k (cv_writes v) ws) as [[_ ->]|[j ->]].
    + destruct (H2 k) as (F & HF & Hh). exists F. auto.
    + rewrite apply_writes_app, <- H1. destruct (Hk j) as [H|H]; eexists; (split; [|exact H]).
      * apply Hsub, elem_of_app. right. by apply list_elem_of_singleton.
      * apply elem_of_app. right. by apply list_elem_of_singleton.
Qed.

Lemma log_end t (s : lst C) : log_shows s t -> 1 <= tv_ops t -> tv_held t = ∅ ->
  wp end_op (fun _ s' => log_shows s' (if tv_ops t =? 1 then committed t else with_ops (tv_ops t - 1) t)) s.
Proof.
  destruct s as [c lg]. intros (v & Hs & S & X) Ho Hh. tv. pose proof (ts_nlog _ _ _ S) as Hn.
  eapply wp_mono; [apply (end_spec _ _ Hn (astate_of t) lg v c Hs (tsim_sim _ _ _ S Hh) Ho)|].
  intros _ s (c' & lg' & v' & ws & -> & Hs' & S' & Hw & Hd & Hval & Hk). exists v'. tv. split; [done|].
  cbn [a_step astate_of a_ops a_committed a_current a_logged] in S', Hval, Hk.
  destruct (Z.eqb_spec (tv_ops t - 1) 0), (Z.eqb_spec (tv_ops t) 1); try lia; split.
  - by apply sim_tsim.
  - apply (tcrash_step t _ v v' ws); try done. intros F HF. apply elem_of_app. by left.
  - by apply sim_tsim.
  - by apply (tcrash_step t _ v v' ws).
Qed.

#[export] Instance log_transactions_ok : TransactionsOK (lst C).
Proof.
  constructor.
  - intros n t s. apply log_bread.
  - intros n b t [c lg] (v & Hs & S & X) Hh. apply wp_cache. tv.
    eapply wp_mono; [apply (data_ok n b v c Hs); by rewrite (ts_held _ _ _ S)|]. intros x c' [-> ->]. split; [|done].
    by apply (ts_view _ _ _ S), (ts_heldhome _ _ _ S), (mk_is_Some _ b).
  - intros n b x t s. apply log_set_data.
  - intros n b t s. apply log_log_write.
  - intros n b t s. apply log_brelse.
  - intros t s. apply log_begin.
  - intros t s. apply log_end.
  - intros s t n (v & Hs & S & X) Hn Hl Hh. rewrite <- (ts_view _ _ _ S), <- (ts_disk _ _ _ S) by done.
    apply S; [|done]. by rewrite <- (ts_logged _ _ _ S).
  - intros s t (v & Hs & S & X). rewrite (ts_logged _ _ _ S), active_length, <- (ts_size _ _ _ S) by apply S.
    split_and!; [rewrite (ts_size _ _ _ S); apply S|rewrite (ts_size _ _ _ S); apply S|apply (ts_ops _ _ _ S)|apply S|apply (lo_fit _ (ts_ok _ _ _ S))].
Qed.
End instance.
