(* ===== verification/Fs.v ===== *)
(** * The file system: kernel/fs.c

    Blocks, inodes, file contents, directories and path names, on the
    transactions of Txn.v and the user memory of UserMem.v.  The functions are
    those of the code, run by one process; [itable.lock] protects single steps
    and is not represented, the sleeplock of an inode is the bit [i_lock].

    A [struct inode*] is an index into the inode table, a null pointer [None].
    All blocks are on the one device there is.  A path is the string at the
    pointer, up to its NUL; an array [char name[DIRSIZ]] is the list of its
    bytes. *)

From stdpp Require Import base numbers list gmap strings.
From Stdlib Require Import ZArith Lia.
From S2P Require Import Prelude Blocks Monad Codec UserMem Bio BioCache Log Txn.
Open Scope Z_scope.

(** ** The format on the disk (kernel/fs.h) *)

Definition ROOTINO : Z := 1.
Definition FSMAGIC : Z := 270544960. (* 0x10203040 *)
Definition NDIRECT : Z := 12.
Definition NINDIRECT : Z := BSIZE / 4.
Definition MAXFILE : Z := NDIRECT + NINDIRECT.
Definition DINODE : Z := 64. (* sizeof(struct dinode) *)
Definition IPB : Z := BSIZE / DINODE.
Definition BPB : Z := BSIZE * 8.
Definition DIRSIZ : Z := 14.
Definition DIRENT : Z := 16. (* sizeof(struct dirent) *)
Definition NINODE : Z := 50.
Definition T_DIR : Z := 1.
Definition T_FILE : Z := 2.
Definition T_DEVICE : Z := 3.

Record superblock := mk_superblock {
  sb_magic : Z;
  sb_size : Z;
  sb_nblocks : Z;
  sb_ninodes : Z;
  sb_nlog : Z;
  sb_logstart : Z;
  sb_inodestart : Z;
  sb_bmapstart : Z;
}.

Definition c_superblock : codec superblock :=
  c_iso
    (fun s => (sb_magic s, (sb_size s, (sb_nblocks s, (sb_ninodes s, (sb_nlog s, (sb_logstart s, (sb_inodestart s, sb_bmapstart s))))))))
    (fun p => let '(a, (b, (c, (d, (e, (f, (g, h))))))) := p in mk_superblock a b c d e f g h)
    (c_uint 4 >> c_uint 4 >> c_uint 4 >> c_uint 4 >> c_uint 4 >> c_uint 4 >> c_uint 4 >> c_uint 4)%codec.

(** [struct dinode] *)
Record dinode := mk_dinode {
  d_type : Z;
  d_major : Z;
  d_minor : Z;
  d_nlink : Z;
  d_size : Z;
  d_addrs : list Z;
}.

Definition i16 (z : Z) : Z := (z + 2 ^ 15) mod 2 ^ 16 - 2 ^ 15.
Definition c_short : codec Z :=
  mk_codec 2 (fun z => le_bytes 2 (u16 z)) (fun l => i16 (le_val (take 2 l))) (fun _ => True) i16.

Definition c_dinode : codec dinode :=
  c_iso
    (fun d => (d_type d, (d_major d, (d_minor d, (d_nlink d, (d_size d, d_addrs d))))))
    (fun p => let '(a, (b, (c, (d, (e, f))))) := p in mk_dinode a b c d e f)
    (c_short >> c_short >> c_short >> c_short >> c_uint 4 >> c_array 13 (c_uint 4))%codec.

Definition IBLOCK (i : Z) (sb : superblock) : Z := i / IPB + sb_inodestart sb.
Definition BBLOCK (b : Z) (sb : superblock) : Z := b / BPB + sb_bmapstart sb.

(** Bytes [off, off + length l) of a block replaced. *)
Definition splice (x : block) (off : Z) (l : list Z) : block :=
  take (Z.to_nat off) x ++ l ++ drop (Z.to_nat off + length l) x.

(** Entry [i] of the array of [struct dinode] in a block, and the assignment of
    all its fields. *)
Definition get_dinode (x : block) (i : Z) : dinode := c_dec c_dinode (drop (Z.to_nat (DINODE * i)) x).
Definition put_dinode (x : block) (i : Z) (d : dinode) : block := splice x (DINODE * i) (c_enc c_dinode d).

(** Entry [i] of the array of [uint] in a block. *)
Definition get_uint (x : block) (i : Z) : Z := le_val (take 4 (drop (Z.to_nat (4 * i)) x)).
Definition put_uint (x : block) (i v : Z) : block := splice x (4 * i) (le_bytes 4 v).

(** ** Memory *)

(** [struct inode]: the fields of the copy of the disk inode are [i_d]. *)
Record inode := mk_inode {
  i_dev : Z;
  i_inum : Z;
  i_ref : Z;
  i_lock : bool;
  i_valid : bool;
  i_d : dinode;
}.
Definition set_ref (r : Z) (i : inode) : inode := mk_inode (i_dev i) (i_inum i) r (i_lock i) (i_valid i) (i_d i).
Definition set_lock (b : bool) (i : inode) : inode := mk_inode (i_dev i) (i_inum i) (i_ref i) b (i_valid i) (i_d i).
Definition set_ivalid (b : bool) (i : inode) : inode := mk_inode (i_dev i) (i_inum i) (i_ref i) (i_lock i) b (i_d i).
Definition set_d (d : dinode) (i : inode) : inode := mk_inode (i_dev i) (i_inum i) (i_ref i) (i_lock i) (i_valid i) d.
Definition set_size (n : Z) (d : dinode) : dinode := mk_dinode (d_type d) (d_major d) (d_minor d) (d_nlink d) n (d_addrs d).
Definition set_type (t : Z) (d : dinode) : dinode := mk_dinode t (d_major d) (d_minor d) (d_nlink d) (d_size d) (d_addrs d).
Definition set_nlink (n : Z) (d : dinode) : dinode := mk_dinode (d_type d) (d_major d) (d_minor d) n (d_size d) (d_addrs d).
Definition set_addrs (l : list Z) (d : dinode) : dinode := mk_dinode (d_type d) (d_major d) (d_minor d) (d_nlink d) (d_size d) l.

(** Where [readi] copies to and [writei] from. *)
Inductive dest := ToUser (va : Z) | ToKernel.
Inductive source := FromUser (va : Z) | FromKernel (bs : list Z).
Definition dest_plus (d : dest) (m : Z) : dest := match d with ToUser va => ToUser (u64 (va + m)) | ToKernel => ToKernel end.
Definition source_plus (s : source) (m : Z) : source :=
  match s with FromUser va => FromUser (u64 (va + m)) | FromKernel bs => FromKernel (drop (Z.to_nat m) bs) end.

(** ** Arrays of characters *)

(** [strncmp] and [strncpy] of kernel/string.c on arrays; [None] is an access
    past the end of one. *)
Fixpoint strncmp_arr (n : nat) (p q : list Z) : option Z :=
  match n with
  | O => Some 0
  | S n =>
    match p, q with
    | x :: p, y :: q => if negb (x =? 0) && (x =? y) then strncmp_arr n p q else Some (x - y)
    | _, _ => None
    end
  end.
Fixpoint strncpy_arr (n : nat) (t : list Z) : option (list Z) :=
  match n with
  | O => Some []
  | S n =>
    match t with
    | [] => None
    | x :: t => if x =? 0 then Some (replicate (S n) 0) else cons x <$> strncpy_arr n t
    end
  end.
Definition namecmp (s t : list Z) : option Z := strncmp_arr (Z.to_nat DIRSIZ) s t.

Definition SLASH : Z := 47.
Fixpoint skip_slashes (path : list Z) : list Z :=
  match path with
  | c :: rest => if c =? SLASH then skip_slashes rest else path
  | [] => []
  end.
(** The element at the front of a path, and what follows it. *)
Fixpoint elem_of_path (path : list Z) : list Z * list Z :=
  match path with
  | c :: rest => if c =? SLASH then ([], path) else let r := elem_of_path rest in (c :: r.1, r.2)
  | [] => ([], [])
  end.

Definition skipelem (path name : list Z) : option (list Z * list Z) :=
  let path := skip_slashes path in
  match path with
  | [] => None
  | _ =>
    let (s, path) := elem_of_path path in
    let len := Z.of_nat (length s) in
    let name := if DIRSIZ <=? len then take (Z.to_nat DIRSIZ) s else splice name 0 (s ++ [0]) in
    Some (skip_slashes path, name)
  end.

Section fs.
Context `{TX : Transactions T} `{UM : UserMemory U}.

Record fsst := mk_fsst {
  fs_tx : T;
  fs_user : U;
  fs_sb : superblock;
  fs_inodes : list inode;   (* itable.inode *)
  fs_cwd : Z;               (* myproc()->cwd *)
}.
Abbreviation FS := (M fsst).

Definition in_tx {A} (m : M T A) : FS A :=
  lift fs_tx (fun x s => mk_fsst x (fs_user s) (fs_sb s) (fs_inodes s) (fs_cwd s)) m.
Definition in_user {A} (m : M U A) : FS A :=
  lift fs_user (fun x s => mk_fsst (fs_tx s) x (fs_sb s) (fs_inodes s) (fs_cwd s)) m.
Definition the_sb : FS superblock := gets fs_sb.
Definition iat (ip : Z) : FS inode := let! s := gets fs_inodes in deref (znth s ip).
Definition set_inodes (l : list inode) : FS unit := modify (fun s => mk_fsst (fs_tx s) (fs_user s) (fs_sb s) l (fs_cwd s)).
Definition mod_inode (ip : Z) (f : inode -> inode) : FS unit :=
  let! i := iat ip in let! l := gets fs_inodes in set_inodes (zset l ip (f i)).

Definition bread (n : Z) : FS Z := in_tx (t_bread n).
Definition bdata (b : Z) : FS block := in_tx (t_data b).
Definition bstore (b : Z) (x : block) : FS unit := in_tx (t_set_data b x).
Definition log_put (b : Z) : FS unit := in_tx (t_log_write b).
Definition brel (b : Z) : FS unit := in_tx (t_brelse b).

(** ** Start *)

Definition readsb : FS superblock :=
  let! bp := bread 1 in
  let! x := bdata bp in
  brel bp;;
  ret (c_dec c_superblock x).

Definition fsinit : FS unit :=
  let! sb := readsb in
  modify (fun s => mk_fsst (fs_tx s) (fs_user s) sb (fs_inodes s) (fs_cwd s));;
  if negb (sb_magic sb =? FSMAGIC) then panic "invalid file system"
  else in_tx (t_initlog (i32 (sb_logstart sb)) (i32 (sb_nlog sb))).

Definition iinit : FS unit :=
  forM (range 0 NINODE) (fun i => mod_inode i (set_lock false)).

(** ** Blocks *)

Definition bzero (bno : Z) : FS unit :=
  let! bp := bread bno in
  bstore bp zblk;;
  log_put bp;;
  brel bp.

(** Bit [bi] of a block of the free map. *)
Definition bmask (bi : Z) : Z := Z.shiftl 1 (bi mod 8).
Definition bbyte (x : block) (bi : Z) : Z := nth (Z.to_nat (bi / 8)) x 0.
Definition bit_free (x : block) (bi : Z) : bool := Z.land (bbyte x bi) (bmask bi) =? 0.
Definition bit_set (x : block) (bi : Z) : block := zset x (bi / 8) (u8 (Z.lor (bbyte x bi) (bmask bi))).
Definition bit_clear (x : block) (bi : Z) : block := zset x (bi / 8) (u8 (Z.land (bbyte x bi) (Z.lnot (bmask bi)))).

(** The loop over [bi]: the first free bit. *)
Definition find_free (x : block) (b size : Z) : option Z := List.find (bit_free x) (range 0 (Z.min BPB (size - b))).

(** The values of [b] in the outer loop of [balloc]. *)
Definition chunks (size : Z) : list Z := map (Z.mul BPB) (range 0 ((size + BPB - 1) / BPB)).

Fixpoint balloc_loop (bs : list Z) : FS Z :=
  match bs with
  | [] => ret 0
  | b :: bs =>
    let! sb := the_sb in
    let! bp := bread (BBLOCK b sb) in
    let! x := bdata bp in
    match find_free x b (sb_size sb) with
    | Some bi =>
      bstore bp (bit_set x bi);;
      log_put bp;;
      brel bp;;
      bzero (b + bi);;
      ret (b + bi)
    | None => brel bp;; balloc_loop bs
    end
  end.
Definition balloc : FS Z := let! sb := the_sb in balloc_loop (chunks (sb_size sb)).

Definition bfree (b : Z) : FS unit :=
  let! sb := the_sb in
  let! bp := bread (BBLOCK b sb) in
  let! x := bdata bp in
  let bi := b mod BPB in
  if bit_free x bi then panic "freeing free block"
  else
    bstore bp (bit_clear x bi);;
    log_put bp;;
    brel bp.

(** ** Inodes *)

(** The entry of the inode, or the first one that is unused. *)
Fixpoint iget_scan (l : list inode) (k : Z) (empty : option Z) (dev inum : Z) : option Z * option Z :=
  match l with
  | [] => (None, empty)
  | i :: l =>
    if (0 <? i_ref i) && (i_dev i =? dev) && (i_inum i =? inum) then (Some k, empty)
    else iget_scan l (k + 1) (match empty with Some _ => empty | None => if i_ref i =? 0 then Some k else None end) dev inum
  end.

Definition iget (dev inum : Z) : FS Z :=
  let! l := gets fs_inodes in
  match iget_scan l 0 None dev inum with
  | (Some ip, _) => mod_inode ip (fun i => set_ref (i_ref i + 1) i);; ret ip
  | (None, None) => panic "iget: no inodes"
  | (None, Some ip) => mod_inode ip (fun i => mk_inode dev inum 1 (i_lock i) false (i_d i));; ret ip
  end.

Definition zero_dinode (type : Z) : dinode := mk_dinode type 0 0 0 0 (replicate 13 0).

Fixpoint ialloc_loop (dev type : Z) (inums : list Z) : FS (option Z) :=
  match inums with
  | [] => ret None
  | inum :: inums =>
    let! sb := the_sb in
    let! bp := bread (IBLOCK inum sb) in
    let! x := bdata bp in
    if d_type (get_dinode x (inum mod IPB)) =? 0 then
      bstore bp (put_dinode x (inum mod IPB) (zero_dinode type));;
      log_put bp;;
      brel bp;;
      let! ip := iget dev inum in ret (Some ip)
    else brel bp;; ialloc_loop dev type inums
  end.
Definition ialloc (dev type : Z) : FS (option Z) := let! sb := the_sb in ialloc_loop dev type (range 1 (sb_ninodes sb)).

Definition iupdate (ip : Z) : FS unit :=
  let! sb := the_sb in
  let! i := iat ip in
  let! bp := bread (IBLOCK (i_inum i) sb) in
  let! x := bdata bp in
  bstore bp (put_dinode x (i_inum i mod IPB) (i_d i));;
  log_put bp;;
  brel bp.

Definition idup (ip : Z) : FS Z := mod_inode ip (fun i => set_ref (i_ref i + 1) i);; ret ip.

Definition ilock (ip : Z) : FS unit :=
  let! i := iat ip in
  if i_ref i <? 1 then panic "ilock"
  else if i_lock i then blocked
  else
    mod_inode ip (set_lock true);;
    if i_valid i then ret tt
    else
      let! sb := the_sb in
      let! bp := bread (IBLOCK (i_inum i) sb) in
      let! x := bdata bp in
      let d := get_dinode x (i_inum i mod IPB) in
      mod_inode ip (set_d d);;
      brel bp;;
      mod_inode ip (set_ivalid true);;
      if d_type d =? 0 then panic "ilock: no type" else ret tt.

Definition iunlock (ip : Z) : FS unit :=
  let! i := iat ip in
  if negb (i_lock i) || (i_ref i <? 1) then panic "iunlock" else mod_inode ip (set_lock false).

(** ** Contents *)

Definition addr_at (ip k : Z) : FS Z := let! i := iat ip in deref (znth (d_addrs (i_d i)) k).
Definition set_addr (ip k a : Z) : FS unit :=
  mod_inode ip (fun i => set_d (set_addrs (zset (d_addrs (i_d i)) k a) (i_d i)) i).

(** [if ((addr = ip->addrs[k]) == 0) ip->addrs[k] = addr = balloc(ip->dev)] *)
Definition addr_alloc (ip k : Z) : FS Z :=
  let! addr := addr_at ip k in
  if addr =? 0 then
    let! addr := balloc in
    if addr =? 0 then ret 0 else set_addr ip k addr;; ret addr
  else ret addr.

(** The part of [bmap] after the indirect block is known. *)
Definition bmap_indirect (addr bn : Z) : FS Z :=
  let! bp := bread addr in
  let! a := bdata bp in
  let! addr :=
    (if get_uint a bn =? 0 then
       let! addr := balloc in
       (if addr =? 0 then ret tt
        else
          let! a := bdata bp in
          bstore bp (put_uint a bn addr);;
          log_put bp);;
       ret addr
     else ret (get_uint a bn)) in
  brel bp;;
  ret addr.

Definition bmap (ip bn : Z) : FS Z :=
  if bn <? NDIRECT then addr_alloc ip bn
  else
    let bn := bn - NDIRECT in
    if bn <? NINDIRECT then
      let! addr := addr_alloc ip NDIRECT in
      if addr =? 0 then ret 0 else bmap_indirect addr bn
    else panic "bmap: out of range".

Definition itrunc (ip : Z) : FS unit :=
  forM (range 0 NDIRECT) (fun i =>
    let! a := addr_at ip i in
    if a =? 0 then ret tt else bfree a;; set_addr ip i 0);;
  let! a := addr_at ip NDIRECT in
  (if a =? 0 then ret tt
   else
     let! bp := bread a in
     forM (range 0 NINDIRECT) (fun j =>
       let! x := bdata bp in
       if get_uint x j =? 0 then ret tt else bfree (get_uint x j));;
     brel bp;;
     bfree a;;
     set_addr ip NDIRECT 0);;
  mod_inode ip (fun i => set_d (set_size 0 (i_d i)) i);;
  iupdate ip.

Definition iput (ip : Z) : FS unit :=
  let! i := iat ip in
  (if (i_ref i =? 1) && i_valid i && (d_nlink (i_d i) =? 0) then
     (if i_lock i then blocked else mod_inode ip (set_lock true));;
     itrunc ip;;
     mod_inode ip (fun i => set_d (set_type 0 (i_d i)) i);;
     iupdate ip;;
     mod_inode ip (set_ivalid false);;
     mod_inode ip (set_lock false)
   else ret tt);;
  mod_inode ip (fun i => set_ref (i_ref i - 1) i).

Definition iunlockput (ip : Z) : FS unit := iunlock ip;; iput ip.

(** [struct stat] *)
Record stat := mk_stat { st_dev : Z; st_ino : Z; st_type : Z; st_nlink : Z; st_size : Z }.
Definition stati (ip : Z) : FS stat :=
  let! i := iat ip in
  ret (mk_stat (i32 (i_dev i)) (i_inum i) (d_type (i_d i)) (d_nlink (i_d i)) (d_size (i_d i))).

(** [either_copyout] and [either_copyin] (kernel/proc.c), with the bytes that go
    to the kernel buffer, or those that were read. *)
Definition either_copyout (dst : dest) (src : list Z) : FS (Z * list Z) :=
  match dst with
  | ToUser va => let! r := in_user (um_copyout va src) in ret (r, [])
  | ToKernel => ret (0, src)
  end.
Definition either_copyin (src : source) (len : Z) : FS (Z * list Z) :=
  match src with
  | FromUser va => in_user (um_copyin va len)
  | FromKernel bs => ret (0, take (Z.to_nat len) bs)
  end.

Definition bytes_at (x : block) (off m : Z) : list Z := take (Z.to_nat m) (drop (Z.to_nat off) x).

(** The loops run at most once for each block of the file. *)
Fixpoint readi_loop (fuel : nat) (ip : Z) (dst : dest) (off n tot : Z) (out : list Z) : FS (Z * list Z) :=
  match fuel with
  | O => blocked
  | S fuel =>
    if n <=? tot then ret (i32 tot, out)
    else
      let! addr := bmap ip (off / BSIZE) in
      if addr =? 0 then ret (i32 tot, out)
      else
        let! bp := bread addr in
        let m := Z.min (n - tot) (BSIZE - off mod BSIZE) in
        let! x := bdata bp in
        let! r := either_copyout dst (bytes_at x (off mod BSIZE) m) in
        if r.1 =? -1 then brel bp;; ret (-1, out ++ r.2)
        else
          brel bp;;
          readi_loop fuel ip (dest_plus dst m) (u32 (off + m)) n (u32 (tot + m)) (out ++ r.2)
  end.

Definition io_fuel : nat := Z.to_nat (MAXFILE + 2).

Definition readi (ip : Z) (dst : dest) (off n : Z) : FS (Z * list Z) :=
  let! i := iat ip in
  let size := d_size (i_d i) in
  if (size <? off) || (u32 (off + n) <? off) then ret (0, [])
  else readi_loop io_fuel ip dst off (if size <? u32 (off + n) then size - off else n) 0 [].

Fixpoint writei_loop (fuel : nat) (ip : Z) (src : source) (off n tot : Z) : FS (Z * Z) :=
  match fuel with
  | O => blocked
  | S fuel =>
    if n <=? tot then ret (tot, off)
    else
      let! addr := bmap ip (off / BSIZE) in
      if addr =? 0 then ret (tot, off)
      else
        let! bp := bread addr in
        let m := Z.min (n - tot) (BSIZE - off mod BSIZE) in
        let! r := either_copyin src m in
        let! x := bdata bp in
        bstore bp (splice x (off mod BSIZE) r.2);;
        if r.1 =? -1 then brel bp;; ret (tot, off)
        else
          log_put bp;;
          brel bp;;
          writei_loop fuel ip (source_plus src m) (u32 (off + m)) n (u32 (tot + m))
  end.

Definition writei (ip : Z) (src : source) (off n : Z) : FS Z :=
  let! i := iat ip in
  if (d_size (i_d i) <? off) || (u32 (off + n) <? off) then ret (-1)
  else if MAXFILE * BSIZE <? u32 (off + n) then ret (-1)
  else
    let! r := writei_loop io_fuel ip src off n 0 in
    let! i := iat ip in
    (if d_size (i_d i) <? r.2 then mod_inode ip (fun i => set_d (set_size r.2 (i_d i)) i) else ret tt);;
    iupdate ip;;
    ret (i32 r.1).

(** ** Directories *)

(** The offsets of the entries of a directory of a given size. *)
Definition offsets (size : Z) : list Z := map (Z.mul DIRENT) (range 0 ((size + DIRENT - 1) / DIRENT)).

Definition de_inum (de : list Z) : Z := le_val (take 2 de).
Definition de_name (de : list Z) : list Z := drop 2 de.

Definition read_dirent (dp off : Z) (msg : string) : FS (list Z) :=
  let! r := readi dp ToKernel off DIRENT in
  if negb (r.1 =? DIRENT) then panic msg else ret r.2.

Fixpoint dirlookup_loop (dp dev : Z) (name : list Z) (offs : list Z) : FS (option (Z * Z)) :=
  match offs with
  | [] => ret None
  | off :: offs =>
    let! de := read_dirent dp off "dirlookup read" in
    if de_inum de =? 0 then dirlookup_loop dp dev name offs
    else
      let! c := deref (namecmp name (de_name de)) in
      if c =? 0 then let! ip := iget dev (de_inum de) in ret (Some (ip, off))
      else dirlookup_loop dp dev name offs
  end.
Definition dirlookup (dp : Z) (name : list Z) : FS (option (Z * Z)) :=
  let! i := iat dp in
  if negb (d_type (i_d i) =? T_DIR) then panic "dirlookup not DIR"
  else dirlookup_loop dp (i_dev i) name (offsets (d_size (i_d i))).

(** The offset of an unused entry, or the end. *)
Fixpoint dirlink_loop (dp : Z) (offs : list Z) (last : Z) : FS Z :=
  match offs with
  | [] => ret last
  | off :: offs =>
    let! de := read_dirent dp off "dirlink read" in
    if de_inum de =? 0 then ret off else dirlink_loop dp offs (off + DIRENT)
  end.
Definition dirlink (dp : Z) (name : list Z) (inum : Z) : FS Z :=
  let! r := dirlookup dp name in
  match r with
  | Some (ip, _) => iput ip;; ret (-1)
  | None =>
    let! i := iat dp in
    let! off := dirlink_loop dp (offsets (d_size (i_d i))) 0 in
    let! nm := deref (strncpy_arr (Z.to_nat DIRSIZ) name) in
    let! w := writei dp (FromKernel (le_bytes 2 inum ++ nm)) off DIRENT in
    if negb (w =? DIRENT) then ret (-1) else ret 0
  end.

(** ** Paths *)

(** Each round takes at least one character from the path. *)
Fixpoint namex_loop (fuel : nat) (ip : Z) (path : list Z) (parent : bool) (name : list Z) : FS (option Z * list Z) :=
  match fuel with
  | O => blocked
  | S fuel =>
    match skipelem path name with
    | None => if parent then iput ip;; ret (None, name) else ret (Some ip, name)
    | Some (path, name) =>
      ilock ip;;
      let! i := iat ip in
      if negb (d_type (i_d i) =? T_DIR) then iunlockput ip;; ret (None, name)
      else if parent && (match path with [] => true | _ => false end) then iunlock ip;; ret (Some ip, name)
      else
        let! r := dirlookup ip name in
        match r with
        | None => iunlockput ip;; ret (None, name)
        | Some (next, _) => iunlockput ip;; namex_loop fuel next path parent name
        end
    end
  end.

Definition namex (path : list Z) (parent : bool) (name : list Z) : FS (option Z * list Z) :=
  let! cwd := gets fs_cwd in
  let! ip := (match path with c :: _ => if c =? SLASH then iget ROOTDEV ROOTINO else idup cwd | [] => idup cwd end) in
  namex_loop (S (length path)) ip path parent name.

(** The name buffer of [namei] is on the stack: [junk] is what it holds. *)
Definition namei (junk : list Z) (path : list Z) : FS (option Z) := let! r := namex path false junk in ret r.1.
Definition nameiparent (path name : list Z) : FS (option Z * list Z) := namex path true name.

End fs.
Arguments fsst T U : clear implicits.
