(* ===== verification/FsImage.v ===== *)
(** * The bytes of file system blocks

    Lemmas on the pieces of a block that fs.c reads and writes: byte ranges,
    block numbers, disk inodes, the bits of the free map. *)

From stdpp Require Import base numbers list gmap strings.
From Stdlib Require Import ZArith Lia.
From S2P Require Import Prelude Blocks Monad Codec Mem UserMem Bio BioCache Log Txn Fs.
Open Scope Z_scope.

(** The constants of the format as numbers. *)
Ltac consts :=
  change MAXFILE with 268 in *; change IPB with 16 in *; change DINODE with 64 in *; change BPB with 8192 in *; change BSIZE with 1024 in *;
  change NDIRECT with 12 in *; change NINDIRECT with 256 in *; change DIRENT with 16 in *; change DIRSIZ with 14 in *.

(** ** Byte ranges *)

Lemma splice_lookup x off l i : 0 <= off -> off + Z.of_nat (length l) <= Z.of_nat (length x) ->
  splice x off l !! i = if decide (Z.to_nat off <= i < Z.to_nat off + length l)%nat then l !! (i - Z.to_nat off)%nat else x !! i.
Proof.
  intros H1 H2. unfold splice. destruct (decide (i < Z.to_nat off)%nat).
  - rewrite lookup_app_l by (rewrite length_take; lia). rewrite lookup_take_lt by done. by rewrite decide_False by lia.
  - rewrite lookup_app_r by (rewrite length_take; lia). rewrite length_take, Nat.min_l by lia.
    destruct (decide (i < Z.to_nat off + length l)%nat).
    + rewrite lookup_app_l by lia. by rewrite decide_True by lia.
    + rewrite lookup_app_r, lookup_drop by lia. rewrite decide_False by lia. f_equal. lia.
Qed.
Lemma splice_length x off l : 0 <= off -> off + Z.of_nat (length l) <= Z.of_nat (length x) -> length (splice x off l) = length x.
Proof. intros. unfold splice. rewrite !length_app, length_take, length_drop. lia. Qed.
Lemma splice_wf x off l : wf_block x -> Forall is_byte l -> 0 <= off -> off + Z.of_nat (length l) <= BSIZE -> wf_block (splice x off l).
Proof.
  intros [Hl Hx] Hb H1 H2. split; [by rewrite splice_length by lia|]. unfold splice. apply Forall_app. split; [by apply Forall_take|].
  apply Forall_app. split; [done|by apply Forall_drop].
Qed.
Lemma bytes_lookup x off m i : bytes_at x off m !! i = if decide (i < Z.to_nat m)%nat then x !! (Z.to_nat off + i)%nat else None.
Proof.
  unfold bytes_at. case_decide; [by rewrite lookup_take_lt, lookup_drop by done|by rewrite lookup_take_ge by lia].
Qed.
Lemma bytes_length x off m : 0 <= off -> 0 <= m -> off + m <= Z.of_nat (length x) -> length (bytes_at x off m) = Z.to_nat m.
Proof. intros. unfold bytes_at. rewrite length_take, length_drop. lia. Qed.
Lemma bytes_splice_eq x off l : 0 <= off -> off + Z.of_nat (length l) <= Z.of_nat (length x) ->
  bytes_at (splice x off l) off (Z.of_nat (length l)) = l.
Proof.
  intros. unfold bytes_at, splice. rewrite drop_app_length' by (rewrite length_take; lia). by rewrite Nat2Z.id, take_app_length.
Qed.
Lemma bytes_splice_ne x off l o m : 0 <= off -> off + Z.of_nat (length l) <= Z.of_nat (length x) -> 0 <= o -> 0 <= m ->
  o + m <= off \/ off + Z.of_nat (length l) <= o -> bytes_at (splice x off l) o m = bytes_at x o m.
Proof.
  intros H1 H2 H3 H4 Hd. apply list_eq. intros i. rewrite !bytes_lookup. case_decide; [|done].
  rewrite splice_lookup, decide_False by lia. done.
Qed.

(** ** Block numbers *)

Lemma get_uint_bytes x i : get_uint x i = le_val (bytes_at x (4 * i) 4).
Proof. done. Qed.
Lemma get_put_uint_eq x i v : 0 <= i -> 4 * i + 4 <= Z.of_nat (length x) -> 0 <= v < 2 ^ 32 -> get_uint (put_uint x i v) i = v.
Proof.
  intros Hi Hl Hv. rewrite get_uint_bytes. unfold put_uint.
  pose proof (bytes_splice_eq x (4 * i) (le_bytes 4 v)) as E. rewrite le_bytes_length in E. change (Z.of_nat 4) with 4 in E.
  rewrite E by lia. rewrite le_val_bytes. by apply Z.mod_small.
Qed.
Lemma get_put_uint_ne x i v j : 0 <= i -> 4 * i + 4 <= Z.of_nat (length x) -> 0 <= j -> i <> j -> get_uint (put_uint x i v) j = get_uint x j.
Proof.
  intros. rewrite !get_uint_bytes. unfold put_uint. rewrite bytes_splice_ne; rewrite ?le_bytes_length; lia.
Qed.
Lemma put_uint_wf x i v : wf_block x -> 0 <= i -> 4 * i + 4 <= BSIZE -> wf_block (put_uint x i v).
Proof.
  intros. unfold put_uint. apply splice_wf; rewrite ?le_bytes_length; try lia; [done|]. apply le_bytes_is_bytes.
Qed.
Lemma le_val_range l : Forall is_byte l -> 0 <= le_val l < 256 ^ Z.of_nat (length l).
Proof.
  induction 1 as [|b l Hb _ IH]; [done|]. cbn [le_val length]. unfold is_byte in Hb. rewrite Nat2Z.inj_succ, Z.pow_succ_r by lia. lia.
Qed.
Lemma get_uint_range x i : wf_block x -> 0 <= get_uint x i < 2 ^ 32.
Proof.
  intros [_ Hx]. rewrite get_uint_bytes.
  assert (Hb : Forall is_byte (bytes_at x (4 * i) 4)) by (by apply Forall_take, Forall_drop).
  pose proof (le_val_range _ Hb). assert (Hl : (length (bytes_at x (4 * i) 4) <= 4)%nat) by (unfold bytes_at; rewrite length_take; lia).
  assert (256 ^ Z.of_nat (length (bytes_at x (4 * i) 4)) <= 256 ^ 4) by (apply Z.pow_le_mono_r; lia). lia.
Qed.
Lemma le_val_take_zero n k : le_val (take n (drop k zblk)) = 0.
Proof. by rewrite zblk_eq, drop_replicate, take_replicate, le_val_zero. Qed.
Lemma get_uint_zblk i : get_uint zblk i = 0.
Proof. apply le_val_take_zero. Qed.

(** ** Disk inodes *)

Class CodecLocal {A} (c : codec A) : Prop := dec_take : forall l, c_dec c (take (c_size c) l) = c_dec c l.

#[export] Instance c_uint_local n : CodecLocal (c_uint n).
Proof. intros l. cbn [c_uint c_size c_dec]. by rewrite take_take, Nat.min_id. Qed.
#[export] Instance c_short_local : CodecLocal c_short.
Proof. intros l. cbn [c_short c_size c_dec]. by rewrite take_take, Nat.min_id. Qed.
#[export] Instance c_pair_local {A B} (c1 : codec A) (c2 : codec B) : CodecLocal c1 -> CodecLocal c2 -> CodecLocal (c_pair c1 c2).
Proof.
  intros H1 H2 l. cbn [c_pair c_size c_dec]. f_equal.
  - rewrite <- dec_take, take_take, Nat.min_l by lia. apply dec_take.
  - rewrite skipn_firstn_comm. replace (c_size c1 + c_size c2 - c_size c1)%nat with (c_size c2) by lia. apply dec_take.
Qed.
#[export] Instance c_iso_local {A B} (f : B -> A) (g : A -> B) (c : codec A) : CodecLocal c -> CodecLocal (c_iso f g c).
Proof. intros H l. cbn [c_iso c_size c_dec]. by rewrite dec_take. Qed.
#[export] Instance c_array_local {A} n (c : codec A) : CodecLocal c -> CodecLocal (c_array n c).
Proof.
  intros H. unfold CodecLocal. cbn [c_array c_size c_dec]. induction n as [|n IH]; intros l; [done|]. cbn [dec_array Nat.mul]. f_equal.
  - rewrite <- dec_take, take_take, Nat.min_l by lia. apply dec_take.
  - rewrite skipn_firstn_comm. replace (c_size c + n * c_size c - c_size c)%nat with (n * c_size c)%nat by lia. apply IH.
Qed.

#[export] Instance c_short_ok : CodecOK c_short.
Proof.
  constructor; cbn [c_short c_size c_enc c_dec c_norm]; intros.
  - apply le_bytes_length.
  - rewrite take_app_length' by (by rewrite le_bytes_length). rewrite le_val_bytes. change (256 ^ Z.of_nat 2) with (2 ^ 16).
    unfold i16, u16. rewrite Z.mod_mod by lia. by rewrite Zplus_mod_idemp_l.
Qed.
#[export] Instance c_dinode_ok : CodecOK c_dinode.
Proof. unfold c_dinode. apply _. Qed.
#[export] Instance c_dinode_local : CodecLocal c_dinode.
Proof. unfold c_dinode. apply _. Qed.
#[export] Instance c_superblock_ok : CodecOK c_superblock.
Proof. unfold c_superblock. apply _. Qed.

(** An inode whose fields are values of their types. *)
Record dinode_ok (d : dinode) : Prop := {
  do_type : - 2 ^ 15 <= d_type d < 2 ^ 15;
  do_major : - 2 ^ 15 <= d_major d < 2 ^ 15;
  do_minor : - 2 ^ 15 <= d_minor d < 2 ^ 15;
  do_nlink : - 2 ^ 15 <= d_nlink d < 2 ^ 15;
  do_size : 0 <= d_size d < 2 ^ 32;
  do_len : length (d_addrs d) = 13%nat;
  do_addrs : Forall (fun a => 0 <= a < 2 ^ 32) (d_addrs d);
}.

Lemma i16_small z : - 2 ^ 15 <= z < 2 ^ 15 -> i16 z = z.
Proof. intros. unfold i16. rewrite Z.mod_small; lia. Qed.
Lemma i16_range z : - 2 ^ 15 <= i16 z < 2 ^ 15.
Proof. unfold i16. pose proof (Z.mod_pos_bound (z + 2 ^ 15) (2 ^ 16)). lia. Qed.

Lemma dinode_norm d : dinode_ok d -> c_wf c_dinode d /\ c_norm c_dinode d = d.
Proof.
  intros [H1 H2 H3 H4 H5 H6 H7]. destruct d as [a b c e f l]. cbn [d_type d_major d_minor d_nlink d_size d_addrs] in *.
  split; [|].
  - cbn. split_and!; try done. by apply Forall_true.
  - unfold c_dinode, c_iso, c_pair. cbn [c_norm c_short c_uint c_array fst snd d_type d_major d_minor d_nlink d_size d_addrs]. rewrite !i16_small by done.
    change (256 ^ Z.of_nat 4) with (2 ^ 32). rewrite Z.mod_small by done. f_equal.
    induction H7 as [|x l' Hx Hl IH] in H6 |- *; [done|]. clear H6. cbn [map]. 
    assert (E : map (fun z => z mod 2 ^ 32) l' = l').
    { clear IH. induction Hl; [done|]. cbn [map]. rewrite Z.mod_small by done. by f_equal. }
    rewrite Z.mod_small by done. by f_equal.
Qed.

Lemma dinode_size d : dinode_ok d -> length (c_enc c_dinode d) = 64%nat.
Proof. intros Hd. rewrite enc_length; [done|]. by apply dinode_norm. Qed.

Lemma put_dinode_length x i d : dinode_ok d -> wf_block x -> 0 <= i < IPB -> length (put_dinode x i d) = length x.
Proof.
  intros Hd [Hx _] Hi. unfold put_dinode. consts. apply splice_length; [lia|]. rewrite dinode_size by done. lia.
Qed.
Lemma get_dinode_bytes x i : get_dinode x i = c_dec c_dinode (bytes_at x (DINODE * i) DINODE).
Proof. unfold get_dinode, bytes_at. by rewrite <- dec_take. Qed.
Lemma get_put_dinode_eq x i d : dinode_ok d -> wf_block x -> 0 <= i < IPB -> get_dinode (put_dinode x i d) i = d.
Proof.
  intros Hd [Hx _] Hi. rewrite get_dinode_bytes. unfold put_dinode. pose proof (bytes_splice_eq x (DINODE * i) (c_enc c_dinode d)) as E.
  rewrite dinode_size in E by done. change (Z.of_nat 64) with DINODE in E. consts. rewrite E by lia.
  destruct (dinode_norm d Hd) as [Hw Hn]. rewrite <- (app_nil_r (c_enc _ _)), dec_enc by done. done.
Qed.
Lemma get_put_dinode_ne x i j d : dinode_ok d -> wf_block x -> 0 <= i < IPB -> 0 <= j -> i <> j ->
  get_dinode (put_dinode x i d) j = get_dinode x j.
Proof.
  intros Hd [Hx _] Hi Hj Hne. rewrite !get_dinode_bytes. unfold put_dinode. f_equal. consts.
  apply bytes_splice_ne; rewrite ?dinode_size by done; lia.
Qed.

Lemma dinode_bytes d : Forall is_byte (c_enc c_dinode d).
Proof.
  unfold c_dinode, c_iso, c_pair. cbn [c_enc c_short c_uint c_array fst snd].
  repeat (apply Forall_app; split; [apply le_bytes_is_bytes|]). generalize (d_addrs d). intros l. induction l as [|x l IH]; [done|].
  cbn [map concat]. apply Forall_app. split; [apply le_bytes_is_bytes|done].
Qed.
Lemma put_dinode_wf x i d : dinode_ok d -> wf_block x -> 0 <= i < IPB -> wf_block (put_dinode x i d).
Proof.
  intros Hd Hx Hi. unfold put_dinode. apply splice_wf; [done|apply dinode_bytes|consts; lia|].
  rewrite dinode_size by done. consts. lia.
Qed.

(** What is decoded from bytes is a value of the type. *)
Lemma dec_array_ok n l : Forall is_byte l -> length (dec_array (c_uint 4) n l) = n /\
  Forall (fun a => 0 <= a < 2 ^ 32) (dec_array (c_uint 4) n l).
Proof.
  revert l. induction n as [|n IH]; intros l Hl; [done|]. cbn [dec_array length].
  destruct (IH (drop (c_size (c_uint 4)) l) (Forall_drop _ _ _ Hl)) as [E F]. rewrite E. split; [done|]. constructor; [|done].
  cbn [c_uint c_dec]. pose proof (le_val_range (take 4 l) (Forall_take _ _ _ Hl)).
  assert (256 ^ Z.of_nat (length (take 4 l)) <= 256 ^ 4) by (apply Z.pow_le_mono_r; [lia|]; rewrite length_take; lia). lia.
Qed.
Lemma get_dinode_ok x i : wf_block x -> dinode_ok (get_dinode x i).
Proof.
  intros [_ Hx]. unfold get_dinode. assert (Hd : Forall is_byte (drop (Z.to_nat (DINODE * i)) x)) by (by apply Forall_drop).
  revert Hd. generalize (drop (Z.to_nat (DINODE * i)) x). intros l Hl.
  unfold c_dinode, c_iso, c_pair. cbn [c_dec c_short c_array c_size].
  constructor; cbn [d_type d_major d_minor d_nlink d_size d_addrs]; try apply i16_range.
  - cbn [c_uint c_dec]. set (l' := drop _ _).
    assert (Hl' : Forall is_byte (take 4 l')) by (apply Forall_take; by repeat apply Forall_drop).
    pose proof (le_val_range _ Hl'). assert (256 ^ Z.of_nat (length (take 4 l')) <= 256 ^ 4) by (apply Z.pow_le_mono_r; [lia|]; rewrite length_take; lia). lia.
  - apply dec_array_ok. by repeat apply Forall_drop.
  - apply dec_array_ok. by repeat apply Forall_drop.
Qed.

(** ** Bits *)

Definition bit (x : block) (bi : Z) : bool := Z.testbit (bbyte x bi) (bi mod 8).

Lemma bit_free_bit x bi : bit_free x bi = negb (bit x bi).
Proof.
  unfold bit_free, bit, bmask. pose proof (Z.mod_pos_bound bi 8 ltac:(lia)). rewrite Z.shiftl_1_l.
  destruct (Z.testbit (bbyte x bi) (bi mod 8)) eqn:E; simpl.
  - apply Z.eqb_neq. intros H0. apply (f_equal (fun z => Z.testbit z (bi mod 8))) in H0.
    rewrite Z.land_spec, E, Z.pow2_bits_true, Z.bits_0 in H0 by lia. done.
  - apply Z.eqb_eq. apply Z.bits_inj. intros k. rewrite Z.land_spec, Z.bits_0, Z.pow2_bits_eqb by lia.
    destruct (Z.eqb_spec (bi mod 8) k) as [<-|]; [by rewrite E|apply andb_false_r].
Qed.

Lemma bbyte_byte x bi : wf_block x -> is_byte (bbyte x bi).
Proof.
  intros [_ Hx]. unfold bbyte. destruct (nth_in_or_default (Z.to_nat (bi / 8)) x 0) as [H|E]; [|rewrite E; done].
  apply list_elem_of_In in H. rewrite Forall_forall in Hx. by apply Hx.
Qed.
Lemma byte_testbit z k : is_byte z -> 8 <= k -> Z.testbit z k = false.
Proof.
  intros Hz Hk. unfold is_byte in Hz. destruct (Z.eq_dec z 0) as [->|]; [apply Z.bits_0|]. apply Z.bits_above_log2; [lia|].
  assert (Z.log2 z < 8) by (apply Z.log2_lt_pow2; lia). lia.
Qed.
Lemma u8_testbit z k : 0 <= k < 8 -> Z.testbit (u8 z) k = Z.testbit z k.
Proof. intros. unfold u8. apply Z.mod_pow2_bits_low. lia. Qed.
Lemma u8_byte z : is_byte (u8 z).
Proof. unfold u8, is_byte. pose proof (Z.mod_pos_bound z (2 ^ 8)). lia. Qed.

(** A byte of the map replaced: what its bits are. *)
Lemma bit_update x bi v bj (f : bool) : wf_block x -> 0 <= bi < BPB -> 0 <= bj < BPB ->
  (forall k, 0 <= k < 8 -> Z.testbit v k = if Z.eqb k (bi mod 8) then f else Z.testbit (bbyte x bi) k) ->
  bit (zset x (bi / 8) (u8 v)) bj = if Z.eqb bj bi then f else bit x bj.
Proof.
  intros [Hl _] Hi Hj Hv. pose proof (Z.mod_pos_bound bj 8 ltac:(lia)). unfold bit, bbyte.
  assert (Hlen : 0 <= bi / 8 < Z.of_nat (length x)) by (consts; rewrite Hl; pose proof (Z.div_lt_upper_bound bi 8 1024); pose proof (Z.div_pos bi 8); lia).
  unfold zset. destruct (Z.ltb_spec (bi / 8) 0); [lia|].
  destruct (Z.eq_dec (bj / 8) (bi / 8)) as [E|E].
  - rewrite E. rewrite nth_lookup, list_lookup_insert_eq by lia. cbn [default from_option id]. rewrite u8_testbit, Hv by done.
    unfold bbyte. destruct (Z.eqb_spec (bj mod 8) (bi mod 8)), (Z.eqb_spec bj bi); try done; exfalso;
      pose proof (Z.div_mod bj 8); pose proof (Z.div_mod bi 8); lia.
  - rewrite !nth_lookup, list_lookup_insert_ne by (pose proof (Z.div_pos bj 8); lia).
    destruct (Z.eqb_spec bj bi) as [->|]; done.
Qed.
Lemma zset_wf x i v : wf_block x -> is_byte v -> wf_block (zset x i v).
Proof.
  intros [Hl Hx] Hv. split; [by rewrite zset_length|]. unfold zset. destruct (i <? 0); [done|]. by apply Forall_insert.
Qed.

Lemma bit_set_bit x bi bj : wf_block x -> 0 <= bi < BPB -> 0 <= bj < BPB -> bit (bit_set x bi) bj = (bj =? bi) || bit x bj.
Proof.
  intros Hx Hi Hj. unfold bit_set. pose proof (Z.mod_pos_bound bi 8 ltac:(lia)). rewrite (bit_update x bi _ bj true) by
    (try done; intros k Hk; unfold bmask; rewrite Z.lor_spec, Z.shiftl_1_l, Z.pow2_bits_eqb, (Z.eqb_sym k) by lia;
     destruct (Z.eqb_spec (bi mod 8) k); by rewrite ?orb_true_r, ?orb_false_r).
  by destruct (bj =? bi).
Qed.
Lemma bit_clear_bit x bi bj : wf_block x -> 0 <= bi < BPB -> 0 <= bj < BPB -> bit (bit_clear x bi) bj = negb (bj =? bi) && bit x bj.
Proof.
  intros Hx Hi Hj. unfold bit_clear. pose proof (Z.mod_pos_bound bi 8 ltac:(lia)). rewrite (bit_update x bi _ bj false) by
    (try done; intros k Hk; unfold bmask; rewrite Z.land_spec, Z.lnot_spec, Z.shiftl_1_l, Z.pow2_bits_eqb, (Z.eqb_sym k) by lia;
     destruct (Z.eqb_spec (bi mod 8) k); cbn [negb]; by rewrite ?andb_true_r, ?andb_false_r).
  by destruct (bj =? bi).
Qed.
Lemma bit_set_wf x bi : wf_block x -> wf_block (bit_set x bi).
Proof. intros. apply zset_wf; [done|apply u8_byte]. Qed.
Lemma bit_clear_wf x bi : wf_block x -> wf_block (bit_clear x bi).
Proof. intros. apply zset_wf; [done|apply u8_byte]. Qed.
