(* ===== verification/FsInv.v ===== *)
(** * Block accesses of the file system

    Rules for the block operations of Fs.v on the transactions of Txn.v, and the
    account of the blocks a call adds to its transaction: [cost B t] counts the
    blocks of the transaction outside a set [B] of blocks that are counted once
    ([B] holds the blocks of the free map and of the inode).  The second part is
    the invariant of the file system on the disk. *)

From stdpp Require Import base numbers list gmap strings.
From Stdlib Require Import ZArith Lia.
From S2P Require Import Prelude Blocks Monad Codec Mem UserMem Bio BioCache Log LogCrash LogGroup Txn Fs FsImage.
Open Scope Z_scope.

(** ** The budget *)

Definition logset (t : tview) : gset Z := list_to_set (tv_logged t).
Definition cost (B : gset Z) (t : tview) : Z := Z.of_nat (size (logset t ∖ B)).

(** [k] more blocks outside [B], and those of [B], fit into the transaction. *)
Record room (B : gset Z) (k : Z) (t : tview) : Prop := {
  ro_ops : 1 <= tv_ops t;
  ro_nonneg : 0 <= k;
  ro_size : cost B t + k + Z.of_nat (size B) < LOGSIZE /\ cost B t + k + Z.of_nat (size B) < tv_nlog t - 1;
}.

(** [t'] is [t] with other contents and at most [k] more blocks outside [B]. *)
Record evolves (B : gset Z) (k : Z) (t t' : tview) : Prop := {
  ev_same : t' = with_logged (tv_logged t') (with_cur (tv_cur t') t);
  ev_cost : cost B t' <= cost B t + k;
  ev_sub : forall n, n ∈ tv_logged t -> n ∈ tv_logged t';
}.

Lemma evolves_refl B k t : 0 <= k -> evolves B k t t.
Proof. intros. constructor; [by destruct t|lia|done]. Qed.
Lemma evolves_trans B k1 k2 k t t' t'' : evolves B k1 t t' -> evolves B k2 t' t'' -> k1 + k2 <= k -> evolves B k t t''.
Proof.
  intros [H1 H2 H3] [H4 H5 H6] Hk. constructor; [|lia|auto]. rewrite H4 at 1. rewrite H1 at 1. done.
Qed.
Lemma evolves_weaken B k k' t t' : evolves B k t t' -> k <= k' -> evolves B k' t t'.
Proof. intros [H1 H2 H3] Hk. constructor; [done|lia|done]. Qed.

Lemma room_evolves B k k' t t' : room B (k + k') t -> evolves B k t t' -> 0 <= k' -> room B k' t'.
Proof.
  intros [H1 H2 H3] [E H4 _] Hk. constructor; [by rewrite E|done|]. rewrite E. cbn [with_logged with_cur tv_nlog]. rewrite <- E. lia.
Qed.
Lemma room_weaken B k k' t : room B k t -> 0 <= k' <= k -> room B k' t.
Proof. intros [H1 H2 H3] Hk. constructor; [done|lia|lia]. Qed.
Lemma room_held B k t h : room B k t -> room B k (with_held h t).
Proof. intros [H1 H2 H3]. by constructor. Qed.
Lemma room_cur B k t F : room B k t -> room B k (with_cur F t).
Proof. intros [H1 H2 H3]. by constructor. Qed.

Lemma room_length B k t : NoDup (tv_logged t) -> room B k t ->
  Z.of_nat (length (tv_logged t)) + k < LOGSIZE /\ Z.of_nat (length (tv_logged t)) + k < tv_nlog t - 1.
Proof.
  intros Hnd [_ _ H]. rewrite <- (size_list_to_set (C := gset Z)) by done. fold (logset t).
  assert (size (logset t) <= size (logset t ∖ B) + size B)%nat.
  { rewrite <- size_union by set_solver. apply subseteq_size. intros x Hx. destruct (decide (x ∈ B)); set_solver. }
  unfold cost in H. lia.
Qed.
Lemma room_log B k t : NoDup (tv_logged t) -> room B k t -> log_room t.
Proof. intros Hnd Hr. pose proof (ro_nonneg _ _ _ Hr). apply room_length in Hr; [|done]. unfold log_room. lia. Qed.

Lemma logset_add n t : logset (with_logged (add_logged n (tv_logged t)) t) = {[n]} ∪ logset t.
Proof. unfold logset, add_logged. cbn [with_logged tv_logged]. case_decide; set_solver. Qed.

(** A block of the transaction is changed. *)
Lemma evolves_log B n F t : evolves B (if decide (n ∈ B) then 0 else 1) t (with_logged (add_logged n (tv_logged t)) (with_cur F t)).
Proof.
  constructor; [done| |].
  - unfold cost. change (logset (with_logged _ _)) with (logset (with_logged (add_logged n (tv_logged t)) t)). rewrite logset_add.
    case_decide as Hn.
    + assert (E : ({[n]} ∪ logset t) ∖ B = logset t ∖ B) by set_solver. rewrite E. lia.
    + assert (Hs : ({[n]} ∪ logset t) ∖ B ⊆ {[n]} ∪ logset t ∖ B) by set_solver. apply subseteq_size in Hs.
      pose proof (size_union_alt (C := gset Z) {[n]} (logset t ∖ B)) as E. rewrite size_singleton in E.
      pose proof (subseteq_size (logset t ∖ B ∖ {[n]}) (logset t ∖ B) ltac:(set_solver)). lia.
  - intros k Hk. cbn [with_logged tv_logged]. unfold add_logged. case_decide; set_solver.
Qed.
Lemma add_logged_in n l : n ∈ add_logged n l.
Proof. unfold add_logged. case_decide; set_solver. Qed.

Section rules.
Context {T U : Type} {TX : Transactions T} {TXok : TransactionsOK T} {UM : UserMemory U}.
Abbreviation fss := (fsst T U).

Definition with_tx (x : T) (s : fss) : fss := mk_fsst x (fs_user s) (fs_sb s) (fs_inodes s) (fs_cwd s).
Definition with_inodes (l : list inode) (s : fss) : fss := mk_fsst (fs_tx s) (fs_user s) (fs_sb s) l (fs_cwd s).
Definition with_user (u : U) (s : fss) : fss := mk_fsst (fs_tx s) u (fs_sb s) (fs_inodes s) (fs_cwd s).
Abbreviation shows s t := (t_shows (fs_tx s) t).

Lemma wp_in_tx {A} (m : M T A) (Q : A -> fss -> Prop) s : wp m (fun a x => Q a (with_tx x s)) (fs_tx s) -> wp (in_tx m) Q s.
Proof. apply wp_lift. Qed.

(** A block that can be read. *)
Record readable (n : Z) (t : tview) : Prop := {
  rb_home : home (tv_nlog t) (tv_start t) n;
  rb_held : tv_held t !! n = None;
  rb_bufs : Z.of_nat (length (tv_logged t)) + Z.of_nat (size (tv_held t)) < NBUF;
}.

Lemma room_readable B k t x n : t_shows x t -> room B k t -> home (tv_nlog t) (tv_start t) n -> tv_held t !! n = None ->
  (size (tv_held t) <= 1)%nat -> readable n t.
Proof.
  intros Hs Hr Hn Hh Hsz. destruct (t_bound x t Hs) as (Hb & _ & Hnd & _). pose proof (room_length _ _ _ Hnd Hr).
  pose proof (ro_nonneg _ _ _ Hr). constructor; [done|done|lia].
Qed.

Lemma quiet_readable x t n : t_shows x t -> tv_held t = ∅ -> home (tv_nlog t) (tv_start t) n -> readable n t.
Proof.
  intros Hs Hh Hn. destruct (t_bound x t Hs) as (Hb & _ & _ & Hl). constructor; [done|by rewrite Hh|]. rewrite Hh, map_size_empty. lia.
Qed.

Lemma wp_bread n t s (Q : Z -> fss -> Prop) : shows s t -> readable n t ->
  (forall b x, t_shows x (with_held (<[n := b]> (tv_held t)) t) -> Q b (with_tx x s)) -> wp (bread n) Q s.
Proof.
  intros Hs [H1 H2 H3] HQ. apply wp_in_tx. eapply wp_mono; [by apply (t_bread_ok n t)|]. intros b x. apply HQ.
Qed.
Lemma wp_bdata n b t s (Q : block -> fss -> Prop) : shows s t -> tv_held t !! n = Some b -> Q (tv_cur t n) s -> wp (bdata b) Q s.
Proof.
  intros Hs Hh HQ. apply wp_in_tx. eapply wp_mono; [by apply (t_data_ok n b t)|]. intros a x [-> ->]. by destruct s.
Qed.
Lemma wp_bstore n b y t s (Q : unit -> fss -> Prop) : shows s t -> tv_held t !! n = Some b ->
  (forall x, t_shows x (with_cur (bupd (tv_cur t) n y) t) -> Q tt (with_tx x s)) -> wp (bstore b y) Q s.
Proof.
  intros Hs Hh HQ. apply wp_in_tx. eapply wp_mono; [by apply (t_set_data_ok n b y t)|]. intros [] x. apply HQ.
Qed.
Lemma wp_log_put n b t s (Q : unit -> fss -> Prop) : shows s t -> tv_held t !! n = Some b -> 1 <= tv_ops t -> 0 <= n < 2 ^ 31 -> log_room t ->
  (forall x, t_shows x (with_logged (add_logged n (tv_logged t)) t) -> Q tt (with_tx x s)) -> wp (log_put b) Q s.
Proof.
  intros Hs Hh Ho Hn Hr HQ. apply wp_in_tx. eapply wp_mono; [by apply (t_log_write_ok n b t)|]. intros [] x. apply HQ.
Qed.
Lemma wp_brel n b t s (Q : unit -> fss -> Prop) : shows s t -> tv_held t !! n = Some b ->
  n ∈ tv_logged t \/ tv_cur t n = tv_committed t n ->
  (forall x, t_shows x (with_held (delete n (tv_held t)) t) -> Q tt (with_tx x s)) -> wp (brel b) Q s.
Proof.
  intros Hs Hh Hc HQ. apply wp_in_tx. eapply wp_mono; [by apply (t_brelse_ok n b t)|]. intros [] x. apply HQ.
Qed.

(** A block read, and at the end released unchanged. *)
Definition holding (n b : Z) (t : tview) : tview := with_held (<[n := b]> (tv_held t)) t.

Lemma wp_tget {A} n t s (K : Z -> block -> M fss A) (Q : A -> fss -> Prop) : shows s t -> readable n t ->
  (forall b x, t_shows x (holding n b t) -> wp (K b (tv_cur t n)) Q (with_tx x s)) ->
  wp (let! b := bread n in let! x := bdata b in K b x) Q s.
Proof.
  intros Hs Hr HK. apply wp_bind, (wp_bread n t); [done|done|]. intros b x Hx. apply wp_bind.
  apply (wp_bdata n b (holding n b t)); [done|apply lookup_insert_eq|]. by apply HK.
Qed.

(** The release of a block that has not changed since it was read. *)
Lemma wp_put n b t s (Q : unit -> fss -> Prop) : shows s (holding n b t) -> tv_held t !! n = None ->
  n ∈ tv_logged t \/ tv_cur t n = tv_committed t n -> (forall x, t_shows x t -> Q tt (with_tx x s)) -> wp (brel b) Q s.
Proof.
  intros Hs Hn Hc HQ. apply (wp_brel n b (holding n b t)); [done|apply lookup_insert_eq|done|]. intros x Hx. apply HQ.
  unfold holding, with_held in Hx. cbn [tv_nlog tv_start tv_boot tv_hist tv_committed tv_cur tv_ops tv_logged tv_held] in Hx.
  rewrite delete_insert_id in Hx by done. by destruct t.
Qed.

Lemma clean_or_logged x n t : t_shows x t -> readable n t -> n ∈ tv_logged t \/ tv_cur t n = tv_committed t n.
Proof. intros Hs [H1 H2 _]. destruct (decide (n ∈ tv_logged t)); [by left|right]. by apply (t_clean x). Qed.

(** The transaction after block [n] has been changed to [y]. *)
Definition changed (n : Z) (y : block) (t : tview) : tview :=
  with_logged (add_logged n (tv_logged t)) (with_cur (bupd (tv_cur t) n y) t).

Lemma evolves_changed B n y t : evolves B (if decide (n ∈ B) then 0 else 1) t (changed n y t).
Proof. apply evolves_log. Qed.

(** A block that is read, changed, logged and released. *)
Lemma wp_modified {A} B k n b y t s (K : M fss A) (Q : A -> fss -> Prop) : shows s (holding n b t) -> tv_held t !! n = None ->
  room B k t -> 0 <= n < 2 ^ 31 -> (forall x, t_shows x (changed n y t) -> wp K Q (with_tx x s)) ->
  wp (bstore b y;; log_put b;; brel b;; K) Q s.
Proof.
  intros Hs Hn Hr Hi HK. apply wp_bind, (wp_bstore n b y (holding n b t)); [done|apply lookup_insert_eq|]. intros x1 H1.
  destruct (t_bound _ _ Hs) as (_ & _ & Hnd & _). apply wp_bind, (wp_log_put n b (with_cur (bupd (tv_cur t) n y) (holding n b t))); [done|apply lookup_insert_eq|apply Hr|done| |].
  { by apply (room_log B k), room_cur, room_held. }
  intros x2 H2. apply wp_bind, (wp_put n b (changed n y t)); [exact H2|done|left; apply add_logged_in|]. intros x3 H3. by apply HK.
Qed.
Lemma wp_modified' B k n b y t s (Q : unit -> fss -> Prop) : shows s (holding n b t) -> tv_held t !! n = None ->
  room B k t -> 0 <= n < 2 ^ 31 -> (forall x, t_shows x (changed n y t) -> Q tt (with_tx x s)) ->
  wp (bstore b y;; log_put b;; brel b) Q s.
Proof.
  intros Hs Hn Hr Hi HK. apply wp_bind, (wp_bstore n b y (holding n b t)); [done|apply lookup_insert_eq|]. intros x1 H1.
  destruct (t_bound _ _ Hs) as (_ & _ & Hnd & _). apply wp_bind, (wp_log_put n b (with_cur (bupd (tv_cur t) n y) (holding n b t))); [done|apply lookup_insert_eq|apply Hr|done| |].
  { by apply (room_log B k), room_cur, room_held. }
  intros x2 H2. apply (wp_put n b (changed n y t)); [exact H2|done|left; apply add_logged_in|done].
Qed.

(** ** The inode table *)

Lemma wp_iat ip i s (Q : inode -> fss -> Prop) : znth (fs_inodes s) ip = Some i -> Q i s -> wp (iat ip) Q s.
Proof. intros Hi HQ. unfold iat. apply wp_bind, wp_gets. by apply (wp_deref _ i). Qed.
Lemma wp_mod_inode ip f i s (Q : unit -> fss -> Prop) : znth (fs_inodes s) ip = Some i ->
  Q tt (with_inodes (zset (fs_inodes s) ip (f i)) s) -> wp (mod_inode ip f) Q s.
Proof. intros Hi HQ. unfold mod_inode. apply wp_bind, (wp_iat ip i); [done|]. apply wp_bind, wp_gets. by apply wp_modify. Qed.

End rules.

(** * The invariant of the file system

    An inode has 269 places for block numbers: 12 direct blocks, the indirect
    block, and the 256 entries of the indirect block.  [slot] reads one of them.
    The invariant [fs_inv] says that no block is used in two places, that all
    are data blocks, and that the free map marks exactly the blocks in use.

    It is stated for the logical inodes [I], which for an inode that is in use
    is the copy in memory: while a file grows the copy on the disk is behind. *)

(** ** The layout of the disk *)

Definition datastart (sb : superblock) : Z := sb_bmapstart sb + sb_size sb / BPB + 1.

Record sb_ok (sb : superblock) : Prop := {
  so_log : 2 <= sb_logstart sb /\ 1 <= sb_nlog sb /\ sb_logstart sb + sb_nlog sb <= sb_inodestart sb;
  so_inodes : 2 <= sb_ninodes sb <= 2 ^ 16 /\ sb_inodestart sb + sb_ninodes sb / IPB + 1 <= sb_bmapstart sb;
  so_data : datastart sb <= sb_size sb < 2 ^ 31;
}.

Lemma BBLOCK_range sb b : sb_ok sb -> 0 <= b < sb_size sb -> sb_bmapstart sb <= BBLOCK b sb < datastart sb.
Proof.
  intros _ Hb. unfold BBLOCK, datastart. pose proof (Z.div_pos b BPB). pose proof (Z.div_le_mono b (sb_size sb) BPB). consts. lia.
Qed.
Lemma IBLOCK_range sb i : sb_ok sb -> 0 <= i < sb_ninodes sb -> sb_inodestart sb <= IBLOCK i sb < sb_bmapstart sb.
Proof.
  intros [_ H _] Hi. unfold IBLOCK. pose proof (Z.div_pos i IPB). pose proof (Z.div_le_mono i (sb_ninodes sb) IPB). consts. lia.
Qed.
Lemma above_log sb n : sb_ok sb -> sb_inodestart sb <= n -> home (sb_nlog sb) (sb_logstart sb) n.
Proof. intros [H _ _] Hn. right. lia. Qed.
Lemma sb_order sb : sb_ok sb -> 3 <= sb_inodestart sb /\ sb_inodestart sb < sb_bmapstart sb /\ sb_bmapstart sb < datastart sb.
Proof.
  intros [H1 [H2 H3] H4]. unfold datastart in *. assert (0 <= sb_ninodes sb / IPB) by (apply Z.div_pos; consts; lia).
  assert (0 < sb_size sb); [|assert (0 <= sb_size sb / BPB) by (apply Z.div_pos; consts; lia); lia].
  destruct (Z_lt_le_dec 0 (sb_size sb)); [done|]. exfalso. pose proof (Z.mul_div_le (sb_size sb) BPB). pose proof (Z.mod_pos_bound (sb_size sb) BPB).
  pose proof (Z.div_mod (sb_size sb) BPB). consts. lia.
Qed.

(** ** Places for block numbers *)

Definition NSLOT : Z := 269.
Definition daddr (d : dinode) (p : Z) : Z := nth (Z.to_nat p) (d_addrs d) 0.
Definition slot (F : blocks) (d : dinode) (p : Z) : Z :=
  if p <? 13 then daddr d p
  else if daddr d NDIRECT =? 0 then 0 else get_uint (F (daddr d NDIRECT)) (p - 13).
(** The place of block [bn] of a file. *)
Definition fslot (bn : Z) : Z := if bn <? NDIRECT then bn else bn + 1.

Definition used (sb : superblock) (F : blocks) (b : Z) : bool := bit (F (BBLOCK b sb)) (b mod BPB).
Definition disk_inode (sb : superblock) (F : blocks) (i : Z) : dinode := get_dinode (F (IBLOCK i sb)) (i mod IPB).

(** Block [bn] of a file; where there is none, it reads as zeros. *)
Definition fblk (F : blocks) (d : dinode) (bn : Z) : block :=
  let a := slot F d (fslot bn) in if a =? 0 then zblk else F a.

Section owned.
Variable sb : superblock.
Implicit Types (S : Z -> Z -> Z) (V : Z -> bool).

Definition place (i p : Z) : Prop := 0 <= i < sb_ninodes sb /\ 0 <= p < NSLOT.

(** The places [S i p] of the inodes, and the blocks [V] marked in the map. *)
Record owned S V : Prop := {
  ow_data : forall i p, place i p -> S i p <> 0 -> datastart sb <= S i p < sb_size sb /\ V (S i p) = true;
  ow_inj : forall i p j q, place i p -> place j q -> S i p = S j q -> S i p <> 0 -> i = j /\ p = q;
  ow_meta : forall b, 0 <= b < datastart sb -> V b = true;
  ow_leak : forall b, datastart sb <= b < sb_size sb -> V b = true -> exists i p, place i p /\ S i p = b;
}.

Lemma owned_ext S V S' V' : owned S V -> (forall i p, place i p -> S' i p = S i p) ->
  (forall b, 0 <= b < sb_size sb -> V' b = V b) -> datastart sb <= sb_size sb -> 0 <= datastart sb -> owned S' V'.
Proof.
  intros [H1 H2 H3 H4] HS HV Hd H0. constructor.
  - intros i p Hp Hn. rewrite HS in * by done. destruct (H1 i p Hp Hn) as [Ha Hb]. split; [done|]. rewrite HV by lia. done.
  - intros i p j q Hp Hq. rewrite !HS by done. by apply H2.
  - intros b Hb. rewrite HV by lia. by apply H3.
  - intros b Hb. rewrite HV by lia. intros Hv. destruct (H4 b Hb Hv) as (i & p & Hp & E). exists i, p. rewrite HS by done. done.
Qed.

(** A free block is put into an empty place. *)
Lemma owned_alloc S V S' V' i p r : owned S V -> place i p -> S i p = 0 -> datastart sb <= r < sb_size sb -> 0 < datastart sb -> V r = false ->
  (forall j q, place j q -> S' j q = if decide (j = i /\ q = p) then r else S j q) ->
  (forall b, 0 <= b < sb_size sb -> V' b = (b =? r) || V b) -> owned S' V'.
Proof.
  intros [H1 H2 H3 H4] Hip H0 Hr Hd Hf HS HV.
  assert (Hnew : forall j q, place j q -> S j q <> r).
  { intros j q Hp E. destruct (H1 j q Hp) as [_ Hv]; [lia|]. rewrite E in Hv. congruence. }
  constructor.
  - intros j q Hp. rewrite HS by done. case_decide; intros Hn.
    + split; [done|]. rewrite HV by lia. by rewrite Z.eqb_refl.
    + destruct (H1 j q Hp Hn) as [Ha Hb]. split; [done|]. rewrite HV, Hb by lia. apply orb_true_r.
  - intros j q j' q' Hp Hq. rewrite !HS by done. repeat case_decide; intros E Hn; try (destruct_and!; by subst).
    + by destruct (Hnew j' q').
    + by destruct (Hnew j q).
    + by apply H2.
  - intros b Hb. rewrite HV, H3 by lia. apply orb_true_r.
  - intros b Hb. rewrite HV by lia. destruct (Z.eqb_spec b r) as [->|Hne]; intros Hv.
    + exists i, p. split; [done|]. rewrite HS, decide_True by done. done.
    + destruct (H4 b Hb Hv) as (j & q & Hp & E). exists j, q. split; [done|]. rewrite HS by done. case_decide as Hc; [|done].
      destruct Hc as [-> ->]. lia.
Qed.

(** All places of an inode are emptied and their blocks freed. *)
Lemma owned_free S V S' V' i : owned S V -> 0 <= i < sb_ninodes sb -> 0 < datastart sb ->
  (forall j q, place j q -> S' j q = if decide (j = i) then 0 else S j q) ->
  (forall b, 0 <= b < sb_size sb -> V' b = true <-> V b = true /\ ~ exists p, 0 <= p < NSLOT /\ S i p = b /\ b <> 0) ->
  datastart sb <= sb_size sb -> owned S' V'.
Proof.
  intros [H1 H2 H3 H4] Hi Hd HS HV Hds. constructor.
  - intros j q Hp. rewrite HS by done. case_decide; [done|]. intros Hn. destruct (H1 j q Hp Hn) as [Ha Hb]. split; [done|].
    apply HV; [lia|]. split; [done|]. intros (p & Hp' & E & _). destruct (H2 j q i p Hp ltac:(done) ltac:(done) Hn). done.
  - intros j q j' q' Hp Hq. rewrite !HS by done. repeat case_decide; try done. by apply H2.
  - intros b Hb. apply HV; [lia|]. split; [by apply H3|]. intros (p & Hp & E & Hn). destruct (H1 i p ltac:(done)); lia.
  - intros b Hb Hv. apply HV in Hv as [Hv Hn]; [|lia]. destruct (H4 b Hb Hv) as (j & q & Hp & E). exists j, q. split; [done|].
    rewrite HS by done. case_decide as Hc; [|done]. subst j. exfalso. apply Hn. exists q. destruct Hp. split_and!; [lia|lia|done|lia].
Qed.
End owned.

(** ** The invariant *)

Record fs_inv (sb : superblock) (F : blocks) (I : Z -> dinode) : Prop := {
  fi_sb : sb_ok sb;
  fi_wf : forall n, sb_inodestart sb <= n < sb_size sb -> wf_block (F n);
  fi_inode : forall i, 0 <= i < sb_ninodes sb -> dinode_ok (I i);
  fi_size : forall i, 0 <= i < sb_ninodes sb -> d_size (I i) <= MAXFILE * BSIZE;
  fi_free : forall i p, 0 <= i < sb_ninodes sb -> d_type (I i) = 0 -> daddr (I i) p = 0;
  fi_owned : owned sb (fun i p => slot F (I i) p) (used sb F);
  fi_super : c_dec c_superblock (F 1) = sb;
}.

(** A file has no holes. *)
Definition full (F : blocks) (d : dinode) : Prop := forall bn, 0 <= bn -> bn * BSIZE < d_size d -> slot F d (fslot bn) <> 0.

(** ** Changes of one block *)

Section frame.
Variables (sb : superblock) (F : blocks) (I : Z -> dinode).
Hypothesis Inv : fs_inv sb F I.

Lemma inv_order : 3 <= sb_inodestart sb /\ sb_inodestart sb < sb_bmapstart sb /\ sb_bmapstart sb < datastart sb /\ datastart sb <= sb_size sb < 2 ^ 31.
Proof. pose proof (sb_order _ (fi_sb _ _ _ Inv)). pose proof (so_data _ (fi_sb _ _ _ Inv)). lia. Qed.

Lemma slot_data i p : place sb i p -> slot F (I i) p <> 0 -> datastart sb <= slot F (I i) p < sb_size sb /\ used sb F (slot F (I i) p) = true.
Proof. apply (ow_data _ _ _ (fi_owned _ _ _ Inv)). Qed.
Lemma slot_inj i p j q : place sb i p -> place sb j q -> slot F (I i) p = slot F (I j) q -> slot F (I i) p <> 0 -> i = j /\ p = q.
Proof. apply (ow_inj _ _ _ (fi_owned _ _ _ Inv)). Qed.

Lemma slot_12 (F' : blocks) d : slot F' d NDIRECT = daddr d NDIRECT.
Proof. done. Qed.
Lemma ind_data i : 0 <= i < sb_ninodes sb -> daddr (I i) NDIRECT <> 0 ->
  datastart sb <= daddr (I i) NDIRECT < sb_size sb /\ used sb F (daddr (I i) NDIRECT) = true.
Proof. intros Hi. apply (slot_data i NDIRECT). unfold place, NSLOT. consts. lia. Qed.

(** The slots of an inode depend only on its indirect block. *)
Lemma slot_agree (F' : blocks) d p : (daddr d NDIRECT <> 0 -> F' (daddr d NDIRECT) = F (daddr d NDIRECT)) -> slot F' d p = slot F d p.
Proof. intros H. unfold slot. destruct (p <? 13); [done|]. destruct (Z.eqb_spec (daddr d NDIRECT) 0); [done|]. by rewrite H. Qed.
Lemma used_agree (F' : blocks) b : F' (BBLOCK b sb) = F (BBLOCK b sb) -> used sb F' b = used sb F b.
Proof. unfold used. by intros ->. Qed.
End frame.

Lemma place_12 sb i : 0 <= i < sb_ninodes sb -> place sb i NDIRECT.
Proof. unfold place, NSLOT. consts. lia. Qed.
Lemma fslot_place sb i bn : 0 <= i < sb_ninodes sb -> 0 <= bn < MAXFILE -> place sb i (fslot bn).
Proof. unfold place, NSLOT, fslot. consts. destruct (Z.ltb_spec bn 12); lia. Qed.
Lemma fslot_inj bn bn' : fslot bn = fslot bn' -> bn = bn'.
Proof. unfold fslot. consts. destruct (Z.ltb_spec bn 12), (Z.ltb_spec bn' 12); lia. Qed.
Lemma fslot_12 bn : fslot bn <> NDIRECT.
Proof. unfold fslot. consts. destruct (Z.ltb_spec bn 12); lia. Qed.

(** ** The free map *)

Definition mark (sb : superblock) (F : blocks) (b : Z) : blocks := bupd F (BBLOCK b sb) (bit_set (F (BBLOCK b sb)) (b mod BPB)).
Definition unmark (sb : superblock) (F : blocks) (b : Z) : blocks := bupd F (BBLOCK b sb) (bit_clear (F (BBLOCK b sb)) (b mod BPB)).
(** What [balloc] does when it returns [r]. *)
Definition alloc_blk (sb : superblock) (F : blocks) (r : Z) : blocks := bupd (mark sb F r) r zblk.

Lemma same_bit b r : b mod BPB = r mod BPB -> b / BPB = r / BPB -> b = r.
Proof. intros H1 H2. consts. pose proof (Z.div_mod b 8192). pose proof (Z.div_mod r 8192). lia. Qed.
Lemma mod_BPB b : 0 <= b mod BPB < BPB.
Proof. apply Z.mod_pos_bound. consts. lia. Qed.

Lemma used_mark sb F b r : wf_block (F (BBLOCK r sb)) -> used sb (mark sb F r) b = (b =? r) || used sb F b.
Proof.
  intros Hw. unfold used, mark, bupd. pose proof (mod_BPB b). pose proof (mod_BPB r). case_decide as E.
  - rewrite bit_set_bit by done. rewrite E. f_equal. destruct (Z.eqb_spec (b mod BPB) (r mod BPB)), (Z.eqb_spec b r); subst; try done.
    exfalso. apply n. apply same_bit; [done|]. unfold BBLOCK in E. lia.
  - destruct (Z.eqb_spec b r) as [->|]; done.
Qed.
Lemma used_unmark sb F b r : wf_block (F (BBLOCK r sb)) -> used sb (unmark sb F r) b = negb (b =? r) && used sb F b.
Proof.
  intros Hw. unfold used, unmark, bupd. pose proof (mod_BPB b). pose proof (mod_BPB r). case_decide as E.
  - rewrite bit_clear_bit by done. rewrite E. do 2 f_equal. destruct (Z.eqb_spec (b mod BPB) (r mod BPB)), (Z.eqb_spec b r); subst; try done.
    exfalso. apply n. apply same_bit; [done|]. unfold BBLOCK in E. lia.
  - destruct (Z.eqb_spec b r) as [->|]; done.
Qed.
