(* ===== verification/FsAlloc.v ===== *)
(** * How files grow and are emptied

    The effect of [bmap] on the blocks: a free block, zeroed, is put into an
    empty place of an inode.  No contents change, because a place without a
    block reads as zeros.  And the effect of [itrunc]: all places of an inode
    are emptied and their blocks are free again. *)

From stdpp Require Import base numbers list gmap strings.
From Stdlib Require Import ZArith Lia.
From S2P Require Import Prelude Blocks Monad Codec Mem UserMem Bio BioCache Log LogCrash Txn Fs FsImage FsInv.
Open Scope Z_scope.

Definition fput {A} (f : Z -> A) (i : Z) (x : A) : Z -> A := fun j => if decide (j = i) then x else f j.
Lemma fput_eq {A} (f : Z -> A) i x : fput f i x i = x.
Proof. unfold fput. by rewrite decide_True. Qed.
Lemma fput_ne {A} (f : Z -> A) i x j : j <> i -> fput f i x j = f j.
Proof. intros. unfold fput. by rewrite decide_False. Qed.

(** From [F] and [I] blocks were added to inode [i]. *)
Record grown (sb : superblock) (i : Z) (F : blocks) (I : Z -> dinode) (F' : blocks) (I' : Z -> dinode) : Prop := {
  gr_inv : fs_inv sb F' I';
  gr_blk : forall j bn, 0 <= j < sb_ninodes sb -> 0 <= bn < MAXFILE -> fblk F' (I' j) bn = fblk F (I j) bn;
  gr_slot : forall j p, place sb j p -> slot F (I j) p <> 0 -> slot F' (I' j) p = slot F (I j) p;
  gr_disk : forall n, sb_inodestart sb <= n < sb_bmapstart sb -> F' n = F n;
  gr_others : forall j, j <> i -> I' j = I j;
  gr_self : I' i = set_addrs (d_addrs (I' i)) (I i);
}.

Lemma fgrown_refl sb i F I : fs_inv sb F I -> grown sb i F I F I.
Proof. intros Inv. constructor; try done. by destruct (I i). Qed.
Lemma fgrown_trans sb i F I F1 I1 F2 I2 : grown sb i F I F1 I1 -> grown sb i F1 I1 F2 I2 -> grown sb i F I F2 I2.
Proof.
  intros [A1 A2 A3 A4 A5 A6] [B1 B2 B3 B4 B5 B6]. constructor; [done| | | | |].
  - intros j bn Hj Hb. by rewrite B2, A2.
  - intros j p Hp Hn. rewrite B3; [by apply A3|done|]. by rewrite A3.
  - intros n Hn. by rewrite B4, A4.
  - intros j Hj. by rewrite B5, A5.
  - rewrite B6 at 1. rewrite A6 at 1. done.
Qed.
Lemma grown_size sb i F I F' I' j : grown sb i F I F' I' -> d_size (I' j) = d_size (I j) /\ d_type (I' j) = d_type (I j) /\ d_nlink (I' j) = d_nlink (I j).
Proof. intros G. destruct (decide (j = i)) as [->|Hne]; [by rewrite (gr_self _ _ _ _ _ _ G)|by rewrite (gr_others _ _ _ _ _ _ G)]. Qed.
Lemma grown_full sb i F I F' I' j : grown sb i F I F' I' -> 0 <= j < sb_ninodes sb -> d_size (I j) <= MAXFILE * BSIZE ->
  full F (I j) -> full F' (I' j).
Proof.
  intros G Hj Hs Hf bn H0 Hlt. destruct (grown_size _ _ _ _ _ _ j G) as (E & _). rewrite E in Hlt. specialize (Hf bn H0 Hlt).
  rewrite (gr_slot _ _ _ _ _ _ G); [done| |done]. apply fslot_place; [done|]. consts. lia.
Qed.

Section grow.
Variables (sb : superblock) (F : blocks) (I : Z -> dinode).
Hypothesis Inv : fs_inv sb F I.

Lemma grown_intro F' I' i p r : place sb i p -> slot F (I i) p = 0 -> datastart sb <= r < sb_size sb -> used sb F r = false ->
  (forall j q, place sb j q -> slot F' (I' j) q = if decide (j = i /\ q = p) then r else slot F (I j) q) ->
  (forall b, 0 <= b < sb_size sb -> used sb F' b = (b =? r) || used sb F b) ->
  (forall n, sb_inodestart sb <= n < sb_size sb -> wf_block (F' n)) -> F' r = zblk ->
  (forall n, datastart sb <= n < sb_size sb -> n <> r -> (forall j, 0 <= j < sb_ninodes sb -> n <> daddr (I j) NDIRECT) -> F' n = F n) ->
  (forall n, n < sb_bmapstart sb -> F' n = F n) ->
  (forall j, j <> i -> I' j = I j) -> I' i = set_addrs (d_addrs (I' i)) (I i) -> dinode_ok (I' i) -> d_type (I i) <> 0 ->
  grown sb i F I F' I'.
Proof.
  intros Hp H0 Hr Hu Hslot Hused Hwf Hz Hdat Hdisk Ho Hi Hok Hty. pose proof (inv_order _ _ _ Inv) as Hord.
  constructor; try done.
  - constructor; try done; [apply Inv| | | | |rewrite Hdisk by lia; apply Inv].
    + intros j Hj. destruct (decide (j = i)) as [->|]; [done|]. rewrite Ho by done. by apply Inv.
    + intros j Hj. destruct (decide (j = i)) as [->|]; [rewrite Hi; by apply (fi_size _ _ _ Inv)|]. rewrite Ho by done. by apply Inv.
    + intros j q Hj. destruct (decide (j = i)) as [->|]; [by rewrite Hi|]. rewrite Ho by done. by apply Inv.
    + apply (owned_alloc sb _ _ _ _ i p r (fi_owned _ _ _ Inv)); [done|done|done|lia|done|done|done].
  - intros j bn Hj Hb. unfold fblk. pose proof (fslot_place sb j bn Hj Hb) as Hpl. rewrite Hslot by done. case_decide as Hc.
    + destruct Hc as [-> E]. rewrite E, H0. rewrite Hz. by destruct (r =? 0).
    + destruct (Z.eqb_spec (slot F (I j) (fslot bn)) 0) as [|Hn]; [done|]. destruct (slot_data _ _ _ Inv j _ Hpl Hn) as [Hd Hu'].
      apply Hdat; [done|intros E; rewrite E in Hu'; congruence|]. intros j' Hj' E.
      destruct (slot_inj _ _ _ Inv j (fslot bn) j' NDIRECT Hpl (place_12 sb j' Hj') E Hn) as [_ E']. by apply fslot_12 in E'.
  - intros j q Hq Hn. rewrite Hslot by done. case_decide as Hc; [|done]. by destruct Hc as [-> ->].
  - intros n Hn. apply Hdisk. lia.
Qed.

Lemma alloc_other r n : n <> r -> n <> BBLOCK r sb -> alloc_blk sb F r n = F n.
Proof. intros H1 H2. unfold alloc_blk, mark. by rewrite !bupd_ne. Qed.
Lemma alloc_used r b : datastart sb <= r < sb_size sb -> 0 <= b < sb_size sb -> used sb (alloc_blk sb F r) b = (b =? r) || used sb F b.
Proof.
  intros Hr Hb. pose proof (inv_order _ _ _ Inv). pose proof (BBLOCK_range sb b (fi_sb _ _ _ Inv) Hb).
  pose proof (BBLOCK_range sb r (fi_sb _ _ _ Inv) ltac:(lia)).
  rewrite <- used_mark by (apply Inv; lia). unfold used, alloc_blk. by rewrite bupd_ne by lia.
Qed.
Lemma alloc_wf r n : datastart sb <= r < sb_size sb -> sb_inodestart sb <= n < sb_size sb -> wf_block (alloc_blk sb F r n).
Proof.
  intros Hr Hn. pose proof (inv_order _ _ _ Inv). pose proof (BBLOCK_range sb r (fi_sb _ _ _ Inv) ltac:(lia)).
  unfold alloc_blk, mark, bupd. repeat case_decide; [apply wf_zblk|apply bit_set_wf, Inv; lia|by apply Inv].
Qed.
Lemma alloc_data r n : datastart sb <= r < sb_size sb -> datastart sb <= n < sb_size sb -> n <> r -> alloc_blk sb F r n = F n.
Proof.
  intros Hr Hn Hne. pose proof (inv_order _ _ _ Inv). pose proof (BBLOCK_range sb r (fi_sb _ _ _ Inv) ltac:(lia)). apply alloc_other; lia.
Qed.
Lemma alloc_disk r n : datastart sb <= r < sb_size sb -> n < sb_bmapstart sb -> alloc_blk sb F r n = F n.
Proof.
  intros Hr Hn. pose proof (inv_order _ _ _ Inv). pose proof (BBLOCK_range sb r (fi_sb _ _ _ Inv) ltac:(lia)). apply alloc_other; lia.
Qed.

(** A new block does not touch the indirect block of any inode. *)
Lemma ind_not_new i r : 0 <= i < sb_ninodes sb -> daddr (I i) NDIRECT <> 0 -> used sb F r = false -> daddr (I i) NDIRECT <> r.
Proof. intros Hi Hn Hu E. destruct (ind_data _ _ _ Inv i Hi Hn) as [_ H]. rewrite E in H. congruence. Qed.
Lemma alloc_slot r i p : datastart sb <= r < sb_size sb -> used sb F r = false -> 0 <= i < sb_ninodes sb ->
  slot (alloc_blk sb F r) (I i) p = slot F (I i) p.
Proof.
  intros Hr Hu Hi. apply slot_agree. intros Hn. destruct (ind_data _ _ _ Inv i Hi Hn). apply alloc_data; [done|done|].
  by apply ind_not_new.
Qed.

Lemma addrs_ok i p r : 0 <= i < sb_ninodes sb -> 0 <= r < 2 ^ 32 -> dinode_ok (set_addrs (zset (d_addrs (I i)) p r) (I i)).
Proof.
  intros Hi Hr. destruct (fi_inode _ _ _ Inv i Hi). constructor; cbn [set_addrs d_type d_major d_minor d_nlink d_size d_addrs]; try done.
  - by rewrite zset_length.
  - unfold zset. destruct (p <? 0); [done|]. by apply Forall_insert.
Qed.
Lemma daddr_set d p r q : length (d_addrs d) = 13%nat -> 0 <= p < 13 -> 0 <= q -> daddr (set_addrs (zset (d_addrs d) p r) d) q = if decide (q = p) then r else daddr d q.
Proof.
  intros Hl Hp Hq. unfold daddr, zset. cbn [set_addrs d_addrs]. destruct (Z.ltb_spec p 0); [lia|]. rewrite !nth_lookup. case_decide as E.
  - subst. by rewrite list_lookup_insert_eq by lia.
  - by rewrite list_lookup_insert_ne by lia.
Qed.

(** A new block in one of the addresses of the inode. *)
Lemma slot_direct i p r : 0 <= i < sb_ninodes sb -> 0 <= p < 13 -> daddr (I i) p = 0 -> datastart sb <= r < sb_size sb -> used sb F r = false ->
  forall j q, place sb j q -> slot (alloc_blk sb F r) (fput I i (set_addrs (zset (d_addrs (I i)) p r) (I i)) j) q = if decide (j = i /\ q = p) then r else slot F (I j) q.
Proof.
  intros Hi Hp H0 Hr Hu j q [Hj Hq]. pose proof (do_len _ (fi_inode _ _ _ Inv i Hi)) as Hlen. unfold fput. case_decide as E; [subst j|].
  - unfold slot. rewrite !daddr_set by (done || lia). destruct (Z.ltb_spec q 13) as [Hlt|Hge].
    + destruct (decide (q = p)) as [->|]; [by rewrite decide_True|]. rewrite decide_False by (by intros [_ ?]). done.
    + rewrite (decide_False (P := _ /\ _)) by lia. destruct (decide (NDIRECT = p)) as [<-|Hne].
      * rewrite H0. simpl. destruct (r =? 0); [done|]. unfold alloc_blk. rewrite bupd_eq. apply get_uint_zblk.
      * destruct (Z.eqb_spec (daddr (I i) NDIRECT) 0) as [|Hn]; [done|]. destruct (ind_data _ _ _ Inv i Hi Hn).
        by rewrite alloc_data by (try done; by apply ind_not_new).
  - rewrite decide_False by (by intros [? _]). by apply alloc_slot.
Qed.
Lemma grow_direct i p r : 0 <= i < sb_ninodes sb -> 0 <= p < 13 -> daddr (I i) p = 0 -> d_type (I i) <> 0 ->
  datastart sb <= r < sb_size sb -> used sb F r = false ->
  grown sb i F I (alloc_blk sb F r) (fput I i (set_addrs (zset (d_addrs (I i)) p r) (I i))).
Proof.
  intros Hi Hp H0 Hty Hr Hu. pose proof (inv_order _ _ _ Inv).
  assert (Hpl : place sb i p) by (unfold place, NSLOT; lia). assert (Hs0 : slot F (I i) p = 0) by (unfold slot; destruct (Z.ltb_spec p 13); [done|lia]).
  apply (grown_intro _ _ i p r); try done.
  - by apply slot_direct.
  - intros b Hb. by apply alloc_used.
  - intros n Hn. by apply alloc_wf.
  - unfold alloc_blk. apply bupd_eq.
  - intros n Hn Hne _. by apply alloc_data.
  - intros n Hn. by apply alloc_disk.
  - intros j Hj. by apply fput_ne.
  - rewrite fput_eq. done.
  - rewrite fput_eq. apply addrs_ok; [done|lia].
Qed.

(** A new block in the indirect block. *)
Lemma slot_indirect i k r : let a := daddr (I i) NDIRECT in 0 <= i < sb_ninodes sb -> 0 <= k < NINDIRECT -> a <> 0 -> datastart sb <= r < sb_size sb -> used sb F r = false ->
  forall j q, place sb j q -> slot (bupd (alloc_blk sb F r) a (put_uint (F a) k r)) (I j) q = if decide (j = i /\ q = k + 13) then r else slot F (I j) q.
Proof.
  intros a Hi Hk Ha Hr Hu j q [Hj Hq]. pose proof (inv_order _ _ _ Inv). destruct (ind_data _ _ _ Inv i Hi Ha) as [Had _].
  assert (Hs : forall F' q, 0 <= q < NINDIRECT -> slot F' (I i) (q + 13) = get_uint (F' a) q).
  { intros F' q' Hq'. unfold slot. destruct (Z.ltb_spec (q' + 13) 13); [lia|]. fold a. destruct (Z.eqb_spec a 0); [done|]. f_equal. lia. }
  assert (Hla : Z.of_nat (length (F a)) = BSIZE) by (assert (Hwa : wf_block (F a)) by (apply Inv; lia); destruct Hwa as [-> _]; done).
  destruct (decide (j = i)) as [->|Hne].
  - destruct (Z_lt_le_dec q 13) as [Hlt|Hge].
    + rewrite decide_False by lia. unfold slot. destruct (Z.ltb_spec q 13); [done|lia].
    + replace q with (q - 13 + 13) by lia. unfold NSLOT in Hq. rewrite !Hs by (consts; lia). rewrite bupd_eq. destruct (decide (q - 13 = k)) as [E|E].
      * rewrite decide_True by lia. rewrite E. apply get_put_uint_eq; consts; lia.
      * rewrite decide_False by lia. apply get_put_uint_ne; consts; lia.
  - rewrite decide_False by (by intros [? _]). rewrite <- (alloc_slot r j q Hr Hu Hj). apply slot_agree. intros Hn. apply bupd_ne.
    intros E. destruct (slot_inj _ _ _ Inv j NDIRECT i NDIRECT) as [? _]; try done; by apply place_12.
Qed.
Lemma grow_indirect i k r : let a := daddr (I i) NDIRECT in 0 <= i < sb_ninodes sb -> 0 <= k < NINDIRECT -> a <> 0 ->
  get_uint (F a) k = 0 -> datastart sb <= r < sb_size sb -> used sb F r = false -> d_type (I i) <> 0 ->
  grown sb i F I (bupd (alloc_blk sb F r) a (put_uint (F a) k r)) I.
Proof.
  intros a Hi Hk Ha H0 Hr Hu Hty. pose proof (inv_order _ _ _ Inv). destruct (ind_data _ _ _ Inv i Hi Ha) as [Had _].
  assert (Hpl : place sb i (k + 13)) by (unfold place, NSLOT; consts; lia).
  assert (Hs : forall F' q, 0 <= q < NINDIRECT -> slot F' (I i) (q + 13) = get_uint (F' a) q).
  { intros F' q Hq. unfold slot. destruct (Z.ltb_spec (q + 13) 13); [lia|]. fold a. destruct (Z.eqb_spec a 0); [done|]. f_equal. lia. }
  assert (Hwa : wf_block (F a)) by (apply Inv; lia). pose proof (ind_not_new i r Hi Ha Hu) as Har. fold a in Har.
  assert (Hla : Z.of_nat (length (F a)) = BSIZE) by (destruct Hwa as [-> _]; done).
  apply (grown_intro _ _ i (k + 13) r); try done.
  - by rewrite Hs.
  - by apply slot_indirect.
  - intros b Hb. rewrite <- (alloc_used r b Hr Hb). apply used_agree. apply bupd_ne.
    pose proof (BBLOCK_range sb b (fi_sb _ _ _ Inv) Hb). lia.
  - intros n Hn. unfold bupd. case_decide; [|by apply alloc_wf]. apply put_uint_wf; [done|lia|consts; lia].
  - rewrite bupd_ne by done. unfold alloc_blk. apply bupd_eq.
  - intros n Hn Hne Hj. rewrite bupd_ne by (by apply Hj). by apply alloc_data.
  - intros n Hn. rewrite bupd_ne by lia. by apply alloc_disk.
  - by destruct (I i).
  - by apply Inv.
Qed.
End grow.

(** * Allocation: [balloc], [bfree], [bmap]

    What the allocation of blocks does, inside a transaction with room for it:
    [balloc] returns a free data block, zeroed, or 0 if there is none; [bmap]
    returns the block that holds a part of a file, and all contents stay. *)

Section alloc.
Context {T U : Type} {TX : Transactions T} {TXok : TransactionsOK T} {UM : UserMemory U}.
Abbreviation fss := (fsst T U).

(** The file system of [s] uses the log of the transaction [t]. *)
Record tx_at (s : fss) (t : tview) : Prop := {
  ta_shows : t_shows (fs_tx s) t;
  ta_nlog : tv_nlog t = sb_nlog (fs_sb s);
  ta_start : tv_start t = sb_logstart (fs_sb s);
}.

(** The blocks of the free map are in [B]. *)
Definition has_map (sb : superblock) (B : gset Z) : Prop := forall b, 0 <= b < sb_size sb -> BBLOCK b sb ∈ B.

(** At most one buffer is held, of a data block in use. *)
Definition held_ok (sb : superblock) (t : tview) : Prop :=
  (size (tv_held t) <= 1)%nat /\ forall n, is_Some (tv_held t !! n) -> datastart sb <= n < sb_size sb /\ used sb (tv_cur t) n = true.

Lemma ev_fields B k t t' : evolves B k t t' -> tv_nlog t' = tv_nlog t /\ tv_start t' = tv_start t /\ tv_held t' = tv_held t /\
  tv_ops t' = tv_ops t /\ tv_committed t' = tv_committed t /\ tv_hist t' = tv_hist t /\ tv_boot t' = tv_boot t.
Proof. intros [E _ _]. rewrite E. done. Qed.

Lemma tx_evolves B k s t t' x : tx_at s t -> evolves B k t t' -> t_shows x t' -> tx_at (with_tx x s) t'.
Proof. intros [H1 H2 H3] E Hs. destruct (ev_fields _ _ _ _ E) as (E1 & E2 & _). constructor; [done| |]; by rewrite ?E1, ?E2. Qed.

Lemma tx_inodes s t l : tx_at s t -> tx_at (with_inodes l s) t.
Proof. intros [H1 H2 H3]. by constructor. Qed.

Lemma evolves_n B k n y t : n ∈ B \/ 1 <= k -> 0 <= k -> evolves B k t (changed n y t).
Proof. intros Hn Hk. eapply evolves_weaken; [apply evolves_changed|]. case_decide; destruct Hn; try lia; done. Qed.

(** A block of the file system outside the log can be read. *)
Lemma fs_readable B k n s t : tx_at s t -> sb_ok (fs_sb s) -> sb_inodestart (fs_sb s) <= n -> room B k t ->
  tv_held t !! n = None -> (size (tv_held t) <= 1)%nat -> readable n t.
Proof.
  intros [H1 H2 H3] Hsb Hn Hr Hh Hsz. eapply room_readable; [done|done| |done|done]. rewrite H2, H3. by apply above_log.
Qed.

Lemma bzero_spec B k n s t (Q : unit -> fss -> Prop) : tx_at s t -> room B k t -> readable n t -> 0 <= n < 2 ^ 31 ->
  (forall x, t_shows x (changed n zblk t) -> Q tt (with_tx x s)) -> wp (bzero n) Q s.
Proof.
  intros Ht Hr Hn Hi HQ. unfold bzero. apply wp_bind, (wp_bread n t); [apply Ht|done|]. intros b x Hx.
  apply (wp_modified' B k n b zblk t); [done|apply Hn|done|done|]. intros y Hy. by apply HQ.
Qed.

Lemma find_free_Some x b size bi : find_free x b size = Some bi -> 0 <= bi < BPB /\ b + bi < size /\ bit x bi = false.
Proof.
  intros [Hin Hf]%find_some. apply list_elem_of_In, elem_of_range in Hin. rewrite bit_free_bit in Hf. apply negb_true_iff in Hf. split_and!; [lia..|done].
Qed.
Lemma find_free_None x b size bi : find_free x b size = None -> 0 <= bi < BPB -> b + bi < size -> bit x bi = true.
Proof.
  intros Hn Hbi Hlt. pose proof (find_none _ _ Hn bi) as H. rewrite bit_free_bit in H. apply negb_false_iff, H, list_elem_of_In, elem_of_range. lia.
Qed.
Lemma chunks_all size b : 0 <= b < size -> BPB * (b / BPB) ∈ chunks size.
Proof.
  intros Hb. apply list_elem_of_fmap. exists (b / BPB). split; [done|]. apply elem_of_range. consts. split; [apply Z.div_pos; lia|].
  apply Z.div_lt_upper_bound; [lia|]. pose proof (Z.mul_succ_div_gt (size + 8192 - 1) 8192). lia.
Qed.
Lemma chunks_in size b : 0 <= size -> b ∈ chunks size -> exists k, b = BPB * k /\ 0 <= b < size.
Proof.
  intros H0 (k & -> & [Hk1 Hk2]%elem_of_range)%list_elem_of_fmap. exists k. split; [done|]. consts.
  pose proof (Z.mul_div_le (size + 8192 - 1) 8192). lia.
Qed.
Lemma chunk_block sb b bi k : b = BPB * k -> 0 <= bi < BPB -> BBLOCK (b + bi) sb = BBLOCK b sb /\ (b + bi) mod BPB = bi.
Proof.
  intros -> Hbi. unfold BBLOCK. split.
  - f_equal. rewrite (Z.mul_comm BPB k), Z.div_add_l, Z.div_mul by (consts; lia). rewrite Z.div_small by done. lia.
  - rewrite (Z.mul_comm BPB k), Z.add_comm, Z.mod_add by (consts; lia). by apply Z.mod_small.
Qed.

(** The disk is full. *)
Definition all_used (sb : superblock) (F : blocks) : Prop := forall b, 0 <= b < sb_size sb -> used sb F b = true.

Definition alloc_post (B : gset Z) (sb : superblock) (s : fss) (t : tview) (r : Z) (s' : fss) : Prop :=
  exists x t', s' = with_tx x s /\ t_shows x t' /\ evolves B 1 t t' /\
    (r = 0 /\ t' = t /\ all_used sb (tv_cur t) \/ datastart sb <= r < sb_size sb /\ used sb (tv_cur t) r = false /\ tv_cur t' = alloc_blk sb (tv_cur t) r /\
     r ∈ tv_logged t').

Lemma balloc_spec B I t s : tx_at s t -> fs_inv (fs_sb s) (tv_cur t) I -> room B 1 t -> has_map (fs_sb s) B -> held_ok (fs_sb s) t ->
  wp balloc (alloc_post B (fs_sb s) s t) s.
Proof.
  intros Ht Inv Hr HB [Hh1 Hh2]. unfold balloc, the_sb. apply wp_bind, wp_gets. set (sb := fs_sb s) in *.
  pose proof (inv_order _ _ _ Inv) as Hord. pose proof (fi_sb _ _ _ Inv) as Hsb.
  assert (Hc : forall b, b ∈ chunks (sb_size sb) -> exists k, b = BPB * k /\ 0 <= b < sb_size sb) by (intros b; apply chunks_in; lia).
  assert (Hall : forall b, 0 <= b < sb_size sb -> used sb (tv_cur t) b = true \/ BPB * (b / BPB) ∈ chunks (sb_size sb)) by (intros; right; by apply chunks_all).
  revert Hc Hall Ht. generalize (chunks (sb_size sb)). intros bs Hc. assert (Es : fs_sb s = sb) by done. revert Es. clearbody sb.
  enough (H : forall s1, fs_sb s1 = sb -> (forall b, 0 <= b < sb_size sb -> used sb (tv_cur t) b = true \/ BPB * (b / BPB) ∈ bs) ->
    tx_at s1 t -> wp (balloc_loop bs) (alloc_post B sb s1 t) s1) by (intros; by apply H).
  clear s. induction bs as [|b bs IH]; intros s Es Hall Ht; cbn [balloc_loop].
  { apply wp_ret. exists (fs_tx s), t. split_and!; [by destruct s|apply Ht|by apply evolves_refl|left; split_and!; [done|done|]].
    intros b Hb. destruct (Hall b Hb) as [|[]%not_elem_of_nil]; done. }
  destruct (Hc b) as (k & Hk & Hb); [set_solver|]. unfold the_sb. apply wp_bind, wp_gets. rewrite Es.
  pose proof (BBLOCK_range sb b Hsb Hb) as Hbb.
  assert (Hrd : readable (BBLOCK b sb) t).
  { apply (fs_readable B 1 _ s); [done|by rewrite Es|rewrite Es; lia|done| |done]. destruct (tv_held t !! BBLOCK b sb) eqn:E; [|done].
    destruct (Hh2 _ (mk_is_Some _ _ E)). lia. }
  apply (wp_tget (BBLOCK b sb) t); [apply Ht|done|]. intros bp x Hx.
  destruct (find_free (tv_cur t (BBLOCK b sb)) b (sb_size sb)) as [bi|] eqn:Ef.
  - apply find_free_Some in Ef as (Hbi & Hlt & Hbit). destruct (chunk_block sb b bi k Hk Hbi) as [E1 E2]. set (r := b + bi) in *.
    assert (Hu : used sb (tv_cur t) r = false) by (unfold used; by rewrite E1, E2).
    assert (Hrr : datastart sb <= r < sb_size sb).
    { destruct (Z_lt_le_dec r (datastart sb)); [|lia]. pose proof (ow_meta _ _ _ (fi_owned _ _ _ Inv) r ltac:(lia)). congruence. }
    apply (wp_modified B 1 (BBLOCK b sb) bp _ t); [done|apply Hrd|done|lia|]. intros x1 H1. set (t1 := changed _ _ t) in *.
    assert (Ev1 : evolves B 0 t t1) by (apply evolves_n; [left; by apply HB|done]).
    assert (Hr1 : room B 1 t1) by (by apply (room_evolves B 0 1 t)).
    change (with_tx x1 (with_tx x s)) with (with_tx x1 s).
    apply wp_bind, (bzero_spec B 1 r _ t1); [by apply (tx_evolves B 0 s t)|done| |lia|].
    { apply (fs_readable B 1 _ (with_tx x1 s)); [by apply (tx_evolves B 0 s t)|cbn [with_tx fs_sb]; by rewrite Es|cbn [with_tx fs_sb]; rewrite Es; lia|done| |done].
      change (tv_held t1) with (tv_held t). destruct (tv_held t !! r) eqn:E; [|done]. destruct (Hh2 _ (mk_is_Some _ _ E)). congruence. }
    intros x2 H2. apply wp_ret. eexists x2, _. split_and!; [done|exact H2| |].
    + apply (evolves_trans B 0 1 _ t t1); [done|apply evolves_n; [by right|done]|lia].
    + right. split_and!; [lia|lia|done| |apply add_logged_in]. unfold alloc_blk, mark. rewrite E1, E2. done.
  - apply wp_bind, (wp_put (BBLOCK b sb) bp t); [done|apply Hrd|by apply (clean_or_logged (fs_tx s)); [apply Ht|]|]. intros x1 H1.
    change (with_tx x1 (with_tx x s)) with (with_tx x1 s). eapply wp_mono; [apply IH|].
    + intros b' Hb'. apply Hc. set_solver.
    + done.
    + intros b' Hb'. destruct (Hall b' Hb') as [|[E|]%elem_of_cons]; [by left| |by right]. left. pose proof (mod_BPB b').
      pose proof (Z.div_mod b' BPB ltac:(done)) as Hdm. unfold used. destruct (chunk_block sb b (b' mod BPB) (b' / BPB)) as [E1 _]; [done|done|].
      rewrite <- E, <- Hdm, E in E1. rewrite E1. by apply (find_free_None _ b (sb_size sb)); [|done|lia].
    + by apply (tx_evolves B 0 s t); [|apply evolves_refl|].
    + intros r s' (y & t' & -> & Hy). by exists y, t'.
Qed.

(** ** The inode table *)

(** The logical inodes: the copies in memory where there are any, those on the
    disk otherwise.  An entry in use is the only one of its inode. *)
Record itab (sb : superblock) (l : list inode) (F : blocks) (I : Z -> dinode) : Prop := {
  it_len : length l = Z.to_nat NINODE;
  it_ref : forall k i, znth l k = Some i -> 0 <= i_ref i;
  it_ent : forall k i, znth l k = Some i -> 0 < i_ref i -> i_dev i = ROOTDEV /\ 0 <= i_inum i < sb_ninodes sb /\
    (i_valid i = true -> i_d i = I (i_inum i));
  it_uniq : forall k k' i i', znth l k = Some i -> znth l k' = Some i' -> 0 < i_ref i -> 0 < i_ref i' -> i_inum i = i_inum i' -> k = k';
  it_disk : forall n, 0 <= n < sb_ninodes sb ->
    (forall k i, znth l k = Some i -> 0 < i_ref i -> i_valid i = true -> i_inum i <> n) -> I n = disk_inode sb F n;
}.

(** An entry in use whose copy of the inode has been read. *)
Record in_use (l : list inode) (ip : Z) (i : inode) : Prop := {
  iu_at : znth l ip = Some i;
  iu_ref : 0 < i_ref i;
  iu_valid : i_valid i = true;
}.

Lemma itab_frame sb l F F' I : itab sb l F I -> (forall n, 0 <= n < sb_ninodes sb -> disk_inode sb F' n = disk_inode sb F n) -> itab sb l F' I.
Proof. intros [H1 H0 H2 H3 H4] HF. constructor; try done. intros n Hn Hi. rewrite HF by done. by apply H4. Qed.

Lemma znth_zset {A} (l : list A) i x j y : znth l i = Some y -> znth (zset l i x) j = if decide (j = i) then Some x else znth l j.
Proof.
  intros Hi. apply znth_Some_lt in Hi. case_decide; [subst; by apply znth_zset_eq|]. by apply znth_zset_ne.
Qed.

(** A change of the copy in memory. *)
Lemma itab_set_d sb l F I ip i d : itab sb l F I -> in_use l ip i -> itab sb (zset l ip (set_d d i)) F (fput I (i_inum i) d).
Proof.
  intros [H1 H0 H2 H3 H4] [Hi Hr Hv]. assert (E : forall k, znth (zset l ip (set_d d i)) k = if decide (k = ip) then Some (set_d d i) else znth l k).
  { intros k. by apply (znth_zset _ _ _ _ i). }
  assert (Hsame : forall k j, znth (zset l ip (set_d d i)) k = Some j -> exists j', znth l k = Some j' /\ i_ref j = i_ref j' /\ i_inum j = i_inum j' /\
    i_dev j = i_dev j' /\ i_valid j = i_valid j' /\ (k = ip /\ i_d j = d \/ k <> ip /\ j = j')).
  { intros k j. rewrite E. case_decide; [intros [= <-]; subst; exists i; split_and!; try done; by left|]. intros Hj. exists j. split_and!; try done. by right. }
  constructor.
  - by rewrite zset_length.
  - intros k j (j' & Hj & Er & _)%Hsame. rewrite Er. by apply (H0 k).
  - intros k j (j' & Hj & Er & En & Ed & Ev & Hc)%Hsame Hk. rewrite Er, En, Ed, Ev in *. destruct (H2 k j' Hj Hk) as (A1 & A2 & A3). split_and!; [done|lia|lia|].
    intros Hval. unfold fput. destruct Hc as [[-> ->]|[Hne ->]].
    + assert (j' = i) as -> by congruence. by rewrite decide_True.
    + rewrite decide_False; [by apply A3|]. intros Hin. apply Hne. by apply (H3 k ip j' i).
  - intros k k' j j' (a & Ha & Er & En & _)%Hsame (b & Hb & Er' & En' & _)%Hsame. rewrite Er, Er', En, En'. by apply H3.
  - intros n Hn Hno. rewrite fput_ne.
    + apply H4; [done|]. intros k j Hj Hjr Hjv Hjn. destruct (decide (k = ip)) as [->|Hne].
      * apply (Hno ip (set_d d i)); [rewrite E; by rewrite decide_True|done|done|]. assert (j = i) as -> by congruence. done.
      * apply (Hno k j); [rewrite E; by rewrite decide_False|done|done|done].
    + intros ->. apply (Hno ip (set_d d i)); [rewrite E; by rewrite decide_True|done..].
Qed.

Lemma in_use_set_d l ip i d : in_use l ip i -> in_use (zset l ip (set_d d i)) ip (set_d d i).
Proof. intros [H1 H2 H3]. constructor; [|done|done]. apply znth_zset_eq. by apply znth_Some_lt in H1. Qed.

Lemma disk_inode_agree sb (F F' : blocks) : sb_ok sb -> (forall n, sb_inodestart sb <= n < sb_bmapstart sb -> F' n = F n) ->
  forall n, 0 <= n < sb_ninodes sb -> disk_inode sb F' n = disk_inode sb F n.
Proof. intros Hsb HF n Hn. unfold disk_inode. rewrite HF; [done|]. by apply IBLOCK_range. Qed.

(** ** [bmap] *)

(** What holds while a file system call works on the inode at [ip]. *)
Record fs_at (s : fss) (t : tview) (I : Z -> dinode) : Prop := {
  fa_tx : tx_at s t;
  fa_inv : fs_inv (fs_sb s) (tv_cur t) I;
  fa_tab : itab (fs_sb s) (fs_inodes s) (tv_cur t) I;
}.

Definition grow_post (B : gset Z) (k ip : Z) (i : inode) (p : Z) (s : fss) (t : tview) (I : Z -> dinode) (r : Z) (s' : fss) : Prop :=
  exists t' I', fs_at s' t' I' /\ evolves B k t t' /\ grown (fs_sb s) (i_inum i) (tv_cur t) I (tv_cur t') I' /\
    (exists x, s' = with_inodes (zset (fs_inodes s) ip (set_d (I' (i_inum i)) i)) (with_tx x s)) /\
    (r <> 0 -> slot (tv_cur t') (I' (i_inum i)) p = r /\ (evolves B 0 t t' \/ r ∈ tv_logged t' /\ tv_cur t' r = zblk)) /\
    (r = 0 -> all_used (fs_sb s) (tv_cur t')).

Lemma in_use_facts s t I ip i : fs_at s t I -> in_use (fs_inodes s) ip i -> i_dev i = ROOTDEV /\ 0 <= i_inum i < sb_ninodes (fs_sb s) /\ i_d i = I (i_inum i).
Proof. intros A [H1 H2 H3]. destruct (it_ent _ _ _ _ (fa_tab _ _ _ A) ip i H1 H2) as (E1 & E2 & E3). auto. Qed.

Lemma wp_addr_at s t I ip i p (Q : Z -> fss -> Prop) : fs_at s t I -> in_use (fs_inodes s) ip i -> 0 <= p < 13 ->
  Q (daddr (I (i_inum i)) p) s -> wp (addr_at ip p) Q s.
Proof.
  intros A Hu Hp HQ. destruct (in_use_facts _ _ _ _ _ A Hu) as (_ & Hn & Ed). unfold addr_at. apply wp_bind, (wp_iat ip i); [apply Hu|].
  apply (wp_deref _ (daddr (I (i_inum i)) p)); [|done]. pose proof (do_len _ (fi_inode _ _ _ (fa_inv _ _ _ A) _ Hn)) as Hl. rewrite Ed. unfold znth, daddr.
  destruct (Z.ltb_spec p 0); [lia|]. rewrite nth_lookup. destruct (lookup_lt_is_Some_2 (d_addrs (I (i_inum i))) (Z.to_nat p)) as [a Ha]; [lia|]. by rewrite Ha.
Qed.

Lemma addr_alloc_spec B ip i p t I s : fs_at s t I -> in_use (fs_inodes s) ip i -> 0 <= p < 13 -> d_type (I (i_inum i)) <> 0 ->
  room B 1 t -> has_map (fs_sb s) B -> tv_held t = ∅ ->
  wp (addr_alloc ip p) (grow_post B 1 ip i p s t I) s.
Proof.
  intros A Hu Hp Hty Hr HB Hh. destruct (in_use_facts _ _ _ _ _ A Hu) as (_ & Hn & Ed).
  assert (Hid : set_d (i_d i) i = i) by (by destruct i). set (n := i_inum i) in *.
  unfold addr_alloc. apply wp_bind, (wp_addr_at s t I ip i p); [done|done|done|]. fold n.
  assert (Hsame : forall r s1 x, s1 = with_tx x s -> fs_at s1 t I -> (r <> 0 -> slot (tv_cur t) (I n) p = r) ->
    (r = 0 -> all_used (fs_sb s) (tv_cur t)) -> grow_post B 1 ip i p s t I r s1).
  { intros r s1 x -> A1 Hs Hfull. exists t, I. split_and!; [done|by apply evolves_refl|apply fgrown_refl, A| | |done].
    2: { intros Hr0. split; [by apply Hs|left; by apply evolves_refl]. }
    exists x. fold n. rewrite <- Ed, Hid, zset_id by apply Hu. by destruct s. }
  assert (Hslot : forall F d, slot F d p = daddr d p) by (intros; unfold slot; destruct (Z.ltb_spec p 13); [done|lia]).
  destruct (Z.eqb_spec (daddr (I n) p) 0) as [H0|H0].
  - apply wp_bind. eapply wp_mono; [apply (balloc_spec B I t s); [apply A|apply A|done|done|]|].
    { split; rewrite Hh; [rewrite map_size_empty; lia|]. by intros k [? ?]. }
    intros r s1 (x & t' & -> & Hx & Ev & Hc). pose proof (tx_evolves _ _ _ _ _ _ (fa_tx _ _ _ A) Ev Hx) as Ht'.
    destruct Hc as [(-> & -> & Hall)|(Hrr & Hfree & EF & Hlg)].
    + simpl. apply wp_ret. apply (Hsame 0 _ x); [done| |done|done]. constructor; [done|apply A|apply A].
    + pose proof (inv_order _ _ _ (fa_inv _ _ _ A)). destruct (Z.eqb_spec r 0); [lia|].
      pose proof (grow_direct _ _ _ (fa_inv _ _ _ A) n p r Hn Hp H0 Hty Hrr Hfree) as G. set (d := set_addrs _ _) in G.
      apply wp_bind, (wp_mod_inode ip _ i); [apply Hu|]. apply wp_ret. rewrite Ed. fold d. exists t', (fput I n d).
      cbn [with_tx fs_inodes]. rewrite EF. split_and!; [|done|done|by exists x; rewrite fput_eq| |done].
      * constructor; [by apply tx_inodes|by rewrite EF; apply G|]. rewrite EF. cbn [with_inodes with_tx fs_sb fs_inodes].
        apply (itab_frame _ _ (tv_cur t)); [by apply itab_set_d; [apply A|]|]. apply disk_inode_agree; [apply A|]. apply G.
      * intros _. split; [|right; split; [done|unfold alloc_blk; apply bupd_eq]]. rewrite fput_eq, Hslot. unfold d. rewrite daddr_set; [by rewrite decide_True| |done|lia]. by apply (fi_inode _ _ _ (fa_inv _ _ _ A)).
  - apply wp_ret. apply (Hsame _ s (fs_tx s)); [by destruct s|done|by rewrite Hslot|done].
Qed.
End alloc.
