(* ===== verification/FsRead.v ===== *)
(** * [bmap]

    The block of a file at an index, allocated if need be.  The second part is
    what [readi] delivers. *)

From stdpp Require Import base numbers list gmap strings.
From Stdlib Require Import ZArith Lia.
From S2P Require Import Prelude Blocks Monad Codec Mem UserMem Bio BioCache Log LogCrash Txn Fs FsImage FsInv FsAlloc.
Open Scope Z_scope.

Section bmap.
Context {T U : Type} {TX : Transactions T} {TXok : TransactionsOK T} {UM : UserMemory U}.
Abbreviation fss := (fsst T U).
Implicit Types (s : fss) (t : tview) (I : Z -> dinode).

(** A block that is in the transaction already. *)
Lemma evolves_again B n y t : n ∈ tv_logged t -> evolves B 0 t (changed n y t).
Proof.
  intros Hn. constructor; [done| |].
  - unfold cost, logset, changed, add_logged. cbn [with_logged with_cur tv_logged]. rewrite decide_True by done. lia.
  - intros k Hk. unfold changed, add_logged. cbn [with_logged tv_logged]. by rewrite decide_True.
Qed.

(** The transaction while a buffer is held. *)
Lemma tx_holding s t x n b : tx_at s t -> t_shows x (holding n b t) -> tx_at (with_tx x s) (holding n b t).
Proof. intros [H1 H2 H3] Hx. by constructor. Qed.
Lemma tx_again s t x : tx_at s t -> t_shows x t -> tx_at (with_tx x s) t.
Proof. intros [H1 H2 H3] Hx. by constructor. Qed.
Lemma fs_again s t I x : fs_at s t I -> t_shows x t -> fs_at (with_tx x s) t I.
Proof. intros [H1 H2 H3] Hx. constructor; [by apply (tx_again s)|done|done]. Qed.
Lemma room_holding B k n b t : room B k t -> room B k (holding n b t).
Proof. intros [H1 H2 H3]. by constructor. Qed.

(** A data block in use can be read when nothing is held. *)
Lemma data_readable n s t I : fs_at s t I -> tv_held t = ∅ -> sb_inodestart (fs_sb s) <= n -> readable n t.
Proof.
  intros A Hh Hn. destruct (fa_tx _ _ _ A) as [H1 H2 H3]. eapply quiet_readable; [done|done|]. rewrite H2, H3. apply above_log; [apply A|done].
Qed.

(** The effect of [balloc] with a buffer held, seen without it. *)
Lemma unhold_evolves B k n b t t' : tv_held t !! n = None -> evolves B k (holding n b t) t' ->
  exists t1, t' = holding n b t1 /\ evolves B k t t1 /\ tv_held t1 = tv_held t.
Proof.
  intros Hn [E Hc Hs]. exists (with_logged (tv_logged t') (with_cur (tv_cur t') t)). split_and!; [by rewrite E at 1| |done].
  constructor; [done|done|done].
Qed.

Definition ind_case (B : gset Z) s t I (i : inode) (k addr : Z) (r : Z) (s' : fss) : Prop :=
  exists t' I', fs_at s' t' I' /\ grown (fs_sb s) (i_inum i) (tv_cur t) I (tv_cur t') I' /\ I' = I /\ (exists x, s' = with_tx x s) /\
    evolves B (if decide (addr ∈ tv_logged t) then 1 else 2) t t' /\
    (r <> 0 -> get_uint (tv_cur t' addr) k = r /\ (t' = t \/ r ∈ tv_logged t' /\ tv_cur t' r = zblk)) /\
    (r = 0 -> all_used (fs_sb s) (tv_cur t')).

Lemma bmap_indirect_spec B s t I ip i k addr : fs_at s t I -> in_use (fs_inodes s) ip i -> d_type (I (i_inum i)) <> 0 ->
  daddr (I (i_inum i)) NDIRECT = addr -> addr <> 0 -> 0 <= k < NINDIRECT ->
  room B (if decide (addr ∈ tv_logged t) then 1 else 2) t -> has_map (fs_sb s) B -> tv_held t = ∅ ->
  wp (bmap_indirect addr k) (ind_case B s t I i k addr) s.
Proof.
  intros A Hu Hty Ha Ha0 Hk Hr HB Hh. destruct (in_use_facts _ _ _ _ _ A Hu) as (_ & Hn & Ed). set (n := i_inum i) in *.
  pose proof (fa_inv _ _ _ A) as Inv. pose proof (inv_order _ _ _ Inv) as Hord.
  destruct (ind_data _ _ _ Inv n Hn) as [Had Hau]; [by rewrite Ha|]. rewrite Ha in Had, Hau.
  assert (Hnone : tv_held t !! addr = None) by (by rewrite Hh).
  assert (Hrd : readable addr t) by (apply (data_readable addr s t I A Hh); lia).
  assert (Hr1 : room B 1 t) by (eapply room_weaken; [exact Hr|]; case_decide; lia).
  assert (Hk0 : 0 <= (if decide (addr ∈ tv_logged t) then 1 else 2)) by (case_decide; lia).
  unfold bmap_indirect. apply (wp_tget addr t); [apply A|done|]. intros bp x Hx.
  assert (Hkeep : forall r y, t_shows y (holding addr bp t) -> (r <> 0 -> get_uint (tv_cur t addr) k = r) ->
    (r = 0 -> all_used (fs_sb s) (tv_cur t)) -> wp (brel bp;; ret r) (ind_case B s t I i k addr) (with_tx y s)).
  { intros r y Hy Hg Hfull. apply wp_bind, (wp_put addr bp t); [done|done|by apply (clean_or_logged (fs_tx s)); [apply A|]|]. intros z Hz.
    apply wp_ret. exists t, I. split_and!; [by apply (fs_again s)|by apply fgrown_refl|done|by exists z|by apply evolves_refl| |done].
    intros Hr0. split; [by apply Hg|by left]. }
  destruct (Z.eqb_spec (get_uint (tv_cur t addr) k) 0) as [H0|H0]; [|apply wp_bind, wp_ret; by apply Hkeep].
  apply wp_bind, wp_bind. eapply wp_mono; [apply (balloc_spec B I (holding addr bp t) (with_tx x s))|].
  { by apply tx_holding; [apply A|]. }
  { apply A. }
  { by apply room_holding. }
  { done. }
  { split; cbn [holding with_held tv_held tv_cur with_tx fs_sb]; rewrite Hh.
    - rewrite insert_empty, map_size_singleton. lia.
    - intros m [b [[-> _]|[_ []%lookup_empty_Some]]%lookup_insert_Some]. done. }
  cbn [with_tx fs_sb]. intros r s1 (y & t2 & -> & Hy & Ev & Hc). destruct Hc as [(-> & -> & Hall)|(Hrr & Hfree & EF & Hlg)].
  { simpl. apply wp_bind, wp_ret, wp_ret. by apply Hkeep. }
  destruct (unhold_evolves B 1 addr bp t t2 Hnone Ev) as (t1 & -> & Ev1 & Eh). cbn [holding with_held tv_cur] in EF, Hfree.
  destruct (Z.eqb_spec r 0); [lia|]. change (with_tx y (with_tx x s)) with (with_tx y s).
  assert (Har : addr <> r) by (intros ->; congruence).
  assert (Ea : tv_cur t1 addr = tv_cur t addr) by (change (tv_cur (holding addr bp t1)) with (tv_cur t1) in EF; rewrite EF; by apply (alloc_data _ _ _ Inv)).
  set (t3 := changed addr (put_uint (tv_cur t addr) k r) t1).
  assert (Ev3 : evolves B (if decide (addr ∈ tv_logged t) then 1 else 2) t t3).
  { destruct (decide (addr ∈ tv_logged t)) as [Hin|Hin].
    - apply (evolves_trans B 1 0 _ t t1); [done|apply evolves_again; by apply (ev_sub _ _ _ _ Ev1)|lia].
    - apply (evolves_trans B 1 1 _ t t1); [done|by apply evolves_n; [right|]|lia]. }
  assert (Ho : 1 <= tv_ops t1) by (destruct (ev_fields _ _ _ _ Ev1) as (_ & _ & _ & -> & _); apply Hr).
  assert (Hroom : log_room (holding addr bp t1)).
  { apply (room_log B 0); [by apply (t_bound y)|]. apply room_holding. by apply (room_evolves B 1 0 t). }
  apply wp_bind. apply wp_bind, (wp_bdata addr bp (holding addr bp t1)); [done|apply lookup_insert_eq|]. cbn [holding with_held tv_cur]. rewrite Ea.
  apply wp_bind, (wp_bstore addr bp _ (holding addr bp t1)); [done|apply lookup_insert_eq|]. intros z Hz.
  apply (wp_log_put addr bp (with_cur (bupd (tv_cur t1) addr (put_uint (tv_cur t addr) k r)) (holding addr bp t1))); [done|apply lookup_insert_eq|done|lia|done|].
  intros z2 Hz2. apply wp_ret, wp_bind, (wp_put addr bp t3); [exact Hz2| |left; apply add_logged_in|].
  { change (tv_held t1 !! addr = None). by rewrite Eh. }
  intros z3 Hz3. apply wp_ret. change (with_tx z3 _) with (with_tx z3 s).
  pose proof (grow_indirect _ _ _ Inv n k r) as G. cbv zeta in G. rewrite Ha in G. specialize (G Hn Hk Ha0 H0 Hrr Hfree Hty).
  change (tv_cur (holding addr bp t1)) with (tv_cur t1) in EF. rewrite <- EF in G. change (bupd (tv_cur t1) addr _) with (tv_cur t3) in G.
  exists t3, I. split_and!; [|done|done|by exists z3|done| |done].
  - constructor; [eapply tx_evolves; [apply A|exact Ev3|done]|apply G|]. apply (itab_frame _ _ (tv_cur t)); [apply A|].
    apply disk_inode_agree; [apply A|apply G].
  - intros _. split; [|right; split; [by apply (ev_sub B 1 _ _ (evolves_n B 1 addr _ t1 (or_intror (Z.le_refl 1)) Z.le_0_1))|]].
    2: { unfold t3, changed. cbn [with_logged with_cur tv_cur]. rewrite bupd_ne, EF by done. unfold alloc_blk. apply bupd_eq. }
    unfold t3, changed. cbn [with_logged with_cur tv_cur]. rewrite bupd_eq. apply get_put_uint_eq; [lia| |lia].
    destruct (fi_wf _ _ _ Inv addr) as [-> _]; [lia|]. consts. lia.
Qed.

Lemma bmap_spec B ip i bn t I s : fs_at s t I -> in_use (fs_inodes s) ip i -> 0 <= bn < MAXFILE -> d_type (I (i_inum i)) <> 0 ->
  room B 2 t -> has_map (fs_sb s) B -> tv_held t = ∅ ->
  wp (bmap ip bn) (grow_post B 2 ip i (fslot bn) s t I) s.
Proof.
  intros A Hu Hbn Hty Hr HB Hh. destruct (in_use_facts _ _ _ _ _ A Hu) as (_ & Hn & Ed). unfold bmap, fslot.
  destruct (Z.ltb_spec bn NDIRECT) as [Hd|Hd].
  - eapply wp_mono; [apply (addr_alloc_spec B ip i bn t I s); try done; [consts; lia|by apply (room_weaken B 2)]|].
    intros r s' (t' & I' & A' & Ev & G & X & Hs & Hf). exists t', I'. split_and!; [done|by apply (evolves_weaken B 1)|done|done|done|done].
  - destruct (Z.ltb_spec (bn - NDIRECT) NINDIRECT); [|consts; lia]. apply wp_bind.
    eapply wp_mono; [apply (addr_alloc_spec B ip i NDIRECT t I s); try done; by apply (room_weaken B 2)|].
    intros addr s1 (t1 & I1 & A1 & Ev & G & (x & Es) & Hs & Hfl). destruct (Z.eqb_spec addr 0) as [->|Ha].
    { apply wp_ret. exists t1, I1. split_and!; [done|by apply (evolves_weaken B 1)|done|by exists x|done|done]. }
    destruct (Hs Ha) as [Hsl Hlog]. clear Hs. rewrite slot_12 in Hsl. set (n := i_inum i) in *.
    assert (Eh : tv_held t1 = ∅) by (destruct (ev_fields _ _ _ _ Ev) as (_ & _ & -> & _); done).
    assert (Esb : fs_sb s1 = fs_sb s) by (by rewrite Es). set (i1 := set_d (I1 n) i).
    assert (Hu1 : in_use (fs_inodes s1) ip i1) by (rewrite Es; by apply in_use_set_d).
    assert (Hk : 0 <= bn - NDIRECT < NINDIRECT) by (consts; lia).
    assert (Hty1 : d_type (I1 n) <> 0) by (destruct (grown_size _ _ _ _ _ _ n G) as (_ & -> & _); done).
    assert (Hr1 : room B (if decide (addr ∈ tv_logged t1) then 1 else 2) t1).
    { case_decide as Hin; [by apply (room_evolves B 1 1 t)|]. destruct Hlog as [E0|[? _]]; [|done]. by apply (room_evolves B 0 2 t). }
    eapply wp_mono; [apply (bmap_indirect_spec B s1 t1 I1 ip i1 (bn - NDIRECT) addr); try done; by rewrite Esb|].
    intros r s2 (t2 & I2 & A2 & G2 & -> & (x2 & Es2) & Ev2 & Hs2 & Hf2). change (i_inum i1) with n in *. rewrite Esb in G2.
    exists t2, I1. split_and!; [done| | | | |by rewrite <- Esb].
    + destruct (decide (addr ∈ tv_logged t1)) as [Hin|Hin]; [by apply (evolves_trans B 1 1 _ t t1)|]. destruct Hlog as [E0|[? _]]; [|done].
      by apply (evolves_trans B 0 2 _ t t1).
    + by apply (fgrown_trans _ _ _ _ (tv_cur t1) I1).
    + exists x2. rewrite Es2, Es. done.
    + intros Hr0. destruct (Hs2 Hr0) as [Hg Hl]. split.
      * unfold slot. destruct (Z.ltb_spec (bn + 1) 13); [consts; lia|]. fold n. rewrite Hsl. destruct (Z.eqb_spec addr 0); [done|].
        replace (bn + 1 - 13) with (bn - NDIRECT) by (consts; lia). done.
      * destruct Hl as [->|]; [|by right]. destruct Hlog as [E0|[_ Hz]]; [by left|]. rewrite Hz, get_uint_zblk in Hg. by subst r.
Qed.

(** A block that is there already. *)
Lemma bmap_get ip i bn t I s (Q : Z -> fss -> Prop) : fs_at s t I -> in_use (fs_inodes s) ip i -> 0 <= bn < MAXFILE -> tv_held t = ∅ ->
  slot (tv_cur t) (I (i_inum i)) (fslot bn) <> 0 ->
  (forall x, t_shows x t -> Q (slot (tv_cur t) (I (i_inum i)) (fslot bn)) (with_tx x s)) -> wp (bmap ip bn) Q s.
Proof.
  intros A Hu Hbn Hh Hs HQ. destruct (in_use_facts _ _ _ _ _ A Hu) as (_ & Hn & Ed). unfold bmap, fslot, slot, addr_alloc in *.
  pose proof (ta_shows _ _ (fa_tx _ _ _ A)) as Hsh. specialize (HQ (fs_tx s)) as HQ0. destruct (Z.ltb_spec bn NDIRECT) as [Hd|Hd].
  - destruct (Z.ltb_spec bn 13); [|consts; lia]. apply wp_bind, (wp_addr_at s t I ip i); [done|done|consts; lia|].
    destruct (Z.eqb_spec (daddr (I (i_inum i)) bn) 0); [done|]. apply wp_ret. specialize (HQ0 Hsh). by destruct s.
  - destruct (Z.ltb_spec (bn + 1) 13); [consts; lia|]. set (a := daddr (I (i_inum i)) NDIRECT) in *. destruct (Z.eqb_spec a 0); [done|].
    destruct (Z.ltb_spec (bn - NDIRECT) NINDIRECT); [|consts; lia]. pose proof (inv_order _ _ _ (fa_inv _ _ _ A)).
    destruct (ind_data _ _ _ (fa_inv _ _ _ A) _ Hn) as [Ha _]; [done|]. fold a in Ha.
    apply wp_bind, wp_bind, (wp_addr_at s t I ip i); [done|done|consts; lia|]. fold a. destruct (Z.eqb_spec a 0); [done|]. apply wp_ret.
    destruct (Z.eqb_spec a 0); [done|]. unfold bmap_indirect. pose proof (data_readable a s t I A Hh ltac:(lia)) as Hrd.
    apply (wp_tget a t); [done|done|]. intros bp x Hx. replace (bn + 1 - 13) with (bn - NDIRECT) in * by (consts; lia).
    destruct (Z.eqb_spec (get_uint (tv_cur t a) (bn - NDIRECT)) 0); [done|]. apply wp_bind, wp_ret, wp_bind.
    apply (wp_put a bp t); [done|by rewrite Hh|by apply (clean_or_logged (fs_tx s))|]. intros y Hy. apply wp_ret. by apply (HQ y).
Qed.
End bmap.

(** * Reading files: [readi]

    The bytes of a file, and [readi] on every branch: it stops at the end of the
    file, copies what is there to the kernel or to user memory, and changes
    nothing. *)

(** ** The bytes of a file *)

Definition fbyte (F : blocks) (d : dinode) (off : Z) : Z := nth (Z.to_nat (off mod BSIZE)) (fblk F d (off / BSIZE)) 0.
Definition fbytes (F : blocks) (d : dinode) (off n : Z) : list Z := map (fbyte F d) (range off (off + n)).
(** The whole contents. *)
Definition fdata (F : blocks) (d : dinode) : list Z := fbytes F d 0 (d_size d).

Lemma map_range_lookup {A} (f : Z -> A) lo hi k : map f (range lo hi) !! k = if decide (Z.of_nat k < hi - lo) then Some (f (lo + Z.of_nat k)) else None.
Proof.
  change (map f) with (fmap (M := list) f). rewrite list_lookup_fmap. unfold range. case_decide as Hk.
  - rewrite lookup_seqZ_lt by lia. done.
  - rewrite lookup_seqZ_ge by lia. done.
Qed.
Lemma fbytes_length F d off n : length (fbytes F d off n) = Z.to_nat n.
Proof. unfold fbytes. rewrite length_map, range_len. f_equal. lia. Qed.
Lemma fbytes_app F d off n m : 0 <= n -> 0 <= m -> fbytes F d off (n + m) = fbytes F d off n ++ fbytes F d (off + n) m.
Proof.
  intros. unfold fbytes. rewrite (range_app off (off + n)) by lia. rewrite map_app. do 3 f_equal. lia.
Qed.
Lemma fbytes_ext F d F' d' off n : (forall x, off <= x < off + n -> fbyte F' d' x = fbyte F d x) -> fbytes F' d' off n = fbytes F d off n.
Proof. intros H. unfold fbytes. apply map_ext_in. intros x Hx%list_elem_of_In%elem_of_range. by apply H. Qed.

(** A part of one block. *)
Lemma block_bytes F d bn o m : wf_block (fblk F d bn) -> 0 <= o -> 0 <= m -> o + m <= BSIZE ->
  bytes_at (fblk F d bn) o m = fbytes F d (bn * BSIZE + o) m.
Proof.
  intros [Hl _] Ho Hm Hle. apply list_eq. intros k. unfold fbytes. rewrite bytes_lookup, map_range_lookup.
  destruct (decide (k < Z.to_nat m)%nat).
  - rewrite decide_True by lia. unfold fbyte. replace (bn * BSIZE + o + Z.of_nat k) with (o + Z.of_nat k + bn * BSIZE) by lia.
    rewrite Z.div_add, Z.mod_add by (consts; lia). rewrite Z.div_small, Z.mod_small by (consts; lia). rewrite Z.add_0_l.
    destruct (lookup_lt_is_Some_2 (fblk F d bn) (Z.to_nat o + k)) as [x Hx]; [consts; lia|]. rewrite Hx. f_equal.
    rewrite nth_lookup. replace (Z.to_nat (o + Z.of_nat k)) with (Z.to_nat o + k)%nat by lia. by rewrite Hx.
  - by rewrite decide_False by lia.
Qed.

Section read.
Context {T U : Type} {TX : Transactions T} {TXok : TransactionsOK T} {UM : UserMemory U} {UMok : UserMemoryOK U}.
Abbreviation fss := (fsst T U).
Implicit Types (s : fss) (t : tview) (I : Z -> dinode).

Lemma fblk_wf s t I n bn : fs_at s t I -> 0 <= n < sb_ninodes (fs_sb s) -> 0 <= bn < MAXFILE -> wf_block (fblk (tv_cur t) (I n) bn).
Proof.
  intros A Hn Hb. unfold fblk. destruct (Z.eqb_spec (slot (tv_cur t) (I n) (fslot bn)) 0) as [|H0]; [apply wf_zblk|].
  destruct (slot_data _ _ _ (fa_inv _ _ _ A) n _ (fslot_place _ n bn Hn Hb) H0) as [Hd _].
  pose proof (inv_order _ _ _ (fa_inv _ _ _ A)). apply (fi_wf _ _ _ (fa_inv _ _ _ A)). lia.
Qed.

(** ** Delivery *)

Definition delivered (dst : dest) (bs : list Z) (u u' : U) (out : list Z) : Prop :=
  match dst with
  | ToKernel => out = bs /\ u' = u
  | ToUser va => out = [] /\ um_changed va (Z.of_nat (length bs)) u u' /\ um_range u va (Z.of_nat (length bs)) /\ um_bytes u' va bs
  end.
Definition undelivered (dst : dest) (n : Z) (u u' : U) : Prop :=
  match dst with ToKernel => False | ToUser va => um_changed va n u u' /\ ~ um_range u va n end.
Definition dest_ok (dst : dest) (n : Z) : Prop := match dst with ToKernel => True | ToUser va => 0 <= va /\ va + n < 2 ^ 64 end.

Lemma either_copyout_spec dst bs s (Q : Z * list Z -> fss -> Prop) : um_ok (fs_user s) -> Forall is_byte bs ->
  dest_ok dst (Z.of_nat (length bs)) ->
  (forall u' out, um_ok u' -> delivered dst bs (fs_user s) u' out -> Q (0, out) (with_user u' s)) ->
  (forall u' out, um_ok u' -> undelivered dst (Z.of_nat (length bs)) (fs_user s) u' -> Q (-1, out) (with_user u' s)) ->
  wp (either_copyout dst bs) Q s.
Proof.
  intros Hu Hb Hd H1 H2. destruct dst as [va|]; cbn [either_copyout].
  - apply wp_bind. unfold in_user. apply wp_lift. destruct Hd as [Hd1 Hd2].
    eapply wp_mono; [apply (um_copyout_ok va bs (fs_user s) Hu); [done|lia]|].
    intros r u' [Hc [(-> & Hr & Hby)|[-> Hr]]]; apply wp_ret; [apply H1|apply H2]; try apply Hc; done.
  - apply wp_ret. specialize (H1 (fs_user s) bs Hu). unfold with_user in H1. destruct s. by apply H1.
Qed.

Lemma dest_plus_ok dst n m : dest_ok dst n -> 0 <= m <= n -> dest_ok (dest_plus dst m) (n - m) /\
  match dst with ToUser va => dest_plus dst m = ToUser (va + m) | ToKernel => True end.
Proof.
  destruct dst as [va|]; [|done]. cbn [dest_ok dest_plus]. intros [H1 H2] Hm. rewrite u64_small by lia. split; [|done]. lia.
Qed.

Lemma delivered_app dst b1 b2 u u1 u2 o1 o2 : dest_ok dst (Z.of_nat (length b1 + length b2)) ->
  delivered dst b1 u u1 o1 -> delivered (dest_plus dst (Z.of_nat (length b1))) b2 u1 u2 o2 -> delivered dst (b1 ++ b2) u u2 (o1 ++ o2).
Proof.
  intros Hd. destruct (dest_plus_ok dst _ (Z.of_nat (length b1)) Hd ltac:(lia)) as [_ E]. destruct dst as [va|]; [|by intros [-> ->] [-> ->]].
  rewrite E. cbn [delivered] in *. intros (-> & C1 & R1 & B1) (-> & C2 & R2 & B2). destruct Hd as [Hva Hd]. rewrite length_app, Nat2Z.inj_add.
  split_and!; [done| | |].
  - apply (um_changed_trans _ _ u u1 u2); (eapply um_changed_widen; [done|lia|lia]).
  - intros x Hx. destruct (Z_lt_le_dec x (va + Z.of_nat (length b1))); [apply R1; lia|].
    apply (um_range_changed va (Z.of_nat (length b1)) u u1 (va + Z.of_nat (length b1)) (Z.of_nat (length b2))) in R2; [|done]. apply R2. lia.
  - intros k x Hk. destruct (decide (k < length b1)%nat) as [Hlt|Hge].
    + rewrite lookup_app_l in Hk by done. assert (Hb : um_bytes u2 va b1); [|by apply Hb]. by eapply um_bytes_changed; [done|lia|left|].
    + rewrite lookup_app_r in Hk by lia. specialize (B2 _ _ Hk). rewrite <- B2. f_equal. lia.
Qed.
Lemma undelivered_app dst b1 n u u1 u2 o1 : dest_ok dst (Z.of_nat (length b1) + n) -> 0 <= n ->
  delivered dst b1 u u1 o1 -> undelivered (dest_plus dst (Z.of_nat (length b1))) n u1 u2 -> undelivered dst (Z.of_nat (length b1) + n) u u2.
Proof.
  intros Hd Hn. destruct (dest_plus_ok dst _ (Z.of_nat (length b1)) Hd ltac:(lia)) as [_ E]. destruct dst as [va|]; [|by intros [-> ->]].
  rewrite E. cbn [delivered undelivered] in *. intros (-> & C1 & R1 & B1) [C2 R2]. split.
  - apply (um_changed_trans _ _ u u1 u2); (eapply um_changed_widen; [done|lia|lia]).
  - intros R. apply R2. apply (um_range_changed _ _ _ _ _ _ C1). intros x Hx. apply R. lia.
Qed.
Lemma undelivered_more dst n m u u' : undelivered dst n u u' -> n <= m -> undelivered dst m u u'.
Proof.
  destruct dst as [va|]; [|done]. intros [C R] Hm. split; [by eapply um_changed_widen; [done|lia|lia]|]. intros R'. apply R. intros x Hx. apply R'. lia.
Qed.
Lemma delivered_nil dst u : um_ok u -> delivered dst [] u u [].
Proof.
  intros Hu. destruct dst as [va|]; [|done]. cbn [delivered length]. split_and!; [done|by apply um_changed_refl|intros x Hx; lia|done].
Qed.

(** ** The loop *)

Lemma fs_at_user s t I u : fs_at s t I -> fs_at (with_user u s) t I.
Proof. intros [[H1 H2 H3] H4 H5]. constructor; [by constructor|done|done]. Qed.

Definition read_post (dst : dest) (F : blocks) (d : dinode) (off n m : Z) (out : list Z) s t (r : Z * list Z) (s' : fss) : Prop :=
  exists x u', s' = with_user u' (with_tx x s) /\ t_shows x t /\ um_ok u' /\
    ((exists o, r = (m, out ++ o) /\ delivered dst (fbytes F d off n) (fs_user s) u' o) \/
     (exists o, r = (-1, o) /\ undelivered dst n (fs_user s) u')).

Lemma next_block off m n tot : 0 <= off -> tot < n -> m = Z.min (n - tot) (BSIZE - off mod BSIZE) ->
  0 < m /\ m <= n - tot /\ off mod BSIZE + m <= BSIZE /\ (tot + m < n -> (off + m) / BSIZE = off / BSIZE + 1).
Proof.
  intros H0 Hlt ->. pose proof (Z.mod_pos_bound off BSIZE ltac:(done)). pose proof (Z.div_mod off BSIZE ltac:(done)).
  split_and!; [lia|lia|lia|]. intros Hm. rewrite Z.min_r by lia. replace (off + (BSIZE - off mod BSIZE)) with ((off / BSIZE + 1) * BSIZE) by lia.
  apply Z.div_mul. done.
Qed.

Lemma readi_loop_spec fuel : forall ip i s t I dst off n tot out, fs_at s t I -> in_use (fs_inodes s) ip i -> tv_held t = ∅ -> um_ok (fs_user s) ->
  full (tv_cur t) (I (i_inum i)) -> 0 <= tot <= n -> 0 <= off -> off + (n - tot) <= d_size (I (i_inum i)) -> n < 2 ^ 31 ->
  dest_ok dst (n - tot) -> (1 <= fuel)%nat -> (tot < n -> MAXFILE - off / BSIZE + 1 <= Z.of_nat fuel) ->
  wp (readi_loop fuel ip dst off n tot out) (read_post dst (tv_cur t) (I (i_inum i)) off (n - tot) n out s t) s.
Proof.
  induction fuel as [|fuel IH]; [lia|]. intros ip i s t I dst off n tot out A Hu Hh Hum Hf Htot Hoff Hend Hn Hd _ Hfuel.
  destruct (in_use_facts _ _ _ _ _ A Hu) as (_ & Hi & _). set (d := I (i_inum i)) in *. set (F := tv_cur t) in *.
  pose proof (fi_size _ _ _ (fa_inv _ _ _ A) _ Hi) as Hsz. fold d in Hsz. cbn [readi_loop].
  destruct (Z.leb_spec n tot) as [Hge|Hlt].
  { apply wp_ret. replace (n - tot) with 0 by lia. exists (fs_tx s), (fs_user s). split_and!; [by destruct s|apply A|done|]. left. exists [].
    rewrite i32_small, app_nil_r by lia. split; [f_equal; lia|]. unfold fbytes. rewrite range_nil by lia. by apply delivered_nil. }
  set (m := Z.min (n - tot) (BSIZE - off mod BSIZE)). destruct (next_block off m n tot Hoff Hlt eq_refl) as (Hm0 & Hm1 & Hm2 & Hm3).
  pose proof (Z.mod_pos_bound off BSIZE ltac:(done)) as Hmod. pose proof (Z.div_mod off BSIZE ltac:(done)) as Hdiv.
  assert (Hbn : 0 <= off / BSIZE < MAXFILE). { split; [apply Z.div_pos; [done|consts; lia]|]. apply Z.div_lt_upper_bound; consts; lia. }
  assert (Hs : slot F d (fslot (off / BSIZE)) <> 0) by (apply Hf; [lia|consts; lia]).
  apply wp_bind, (bmap_get ip i _ t I s); [done|done|done|done|done|]. intros x Hx. fold d. fold F. set (a := slot F d (fslot (off / BSIZE))) in *.
  destruct (Z.eqb_spec a 0); [done|]. destruct (slot_data _ _ _ (fa_inv _ _ _ A) _ _ (fslot_place _ _ _ Hi Hbn) Hs) as [Ha _]. fold d F a in Ha.
  pose proof (inv_order _ _ _ (fa_inv _ _ _ A)) as Hord. pose proof (data_readable a s t I A Hh ltac:(lia)) as Hrd.
  apply wp_bind, (wp_bread a t); [done|done|]. intros bp y Hy. apply wp_bind, (wp_bdata a bp (holding a bp t)); [done|apply lookup_insert_eq|].
  cbn [holding with_held tv_cur]. fold F. assert (Ea : F a = fblk F d (off / BSIZE)) by (unfold fblk; fold a; by destruct (Z.eqb_spec a 0)).
  set (bs := bytes_at (F a) (off mod BSIZE) m).
  assert (Ebs : bs = fbytes F d off m).
  { unfold bs. rewrite Ea, block_bytes; [f_equal; lia|by apply (fblk_wf s t I)|lia|lia|lia]. }
  assert (Lbs : Z.of_nat (length bs) = m) by (rewrite Ebs, fbytes_length; lia).
  assert (Hby : Forall is_byte bs). { unfold bs, bytes_at. apply Forall_take, Forall_drop. rewrite Ea. by apply (fblk_wf s t I). }
  destruct (dest_plus_ok dst (n - tot) m Hd ltac:(lia)) as [Hd2 _].
  assert (Hrel : forall u z (R : unit -> fss -> Prop), t_shows z (holding a bp t) -> (forall z', t_shows z' t -> R tt (with_user u (with_tx z' s))) -> wp (brel bp) R (with_user u (with_tx z s))).
  { intros u z R Hz HR. apply (wp_put a bp t); [done|by rewrite Hh|apply (clean_or_logged (fs_tx s)); [apply A|done]|done]. }
  apply wp_bind, either_copyout_spec; [done|done| | |].
  { rewrite Lbs. destruct dst; [|done]. simpl in *. lia. }
  - intros u' o Hu' Hdel. cbn [fst snd]. change (0 =? -1) with false. cbv iota. apply wp_bind. apply (Hrel u' y); [done|]. intros z Hz.
    rewrite (u32_small (off + m)), (u32_small (tot + m)) by (consts; lia). set (s1 := with_user u' (with_tx z s)).
    eapply wp_mono; [apply (IH ip i s1 t I (dest_plus dst m) (off + m) n (tot + m) (out ++ o)); try done|].
    + by apply fs_at_user, (fs_again s).
    + lia.
    + lia.
    + fold d. lia.
    + by replace (n - (tot + m)) with (n - tot - m) by lia.
    + destruct (Z_lt_le_dec (tot + m) n); [specialize (Hfuel Hlt); consts; lia|]. specialize (Hfuel Hlt). lia.
    + intros Hlt'. specialize (Hfuel Hlt). rewrite Hm3 by done. lia.
    + intros r s' (x' & u2 & -> & Hx' & Hu2 & Hr). exists x', u2. split_and!; [done|done|done|]. cbn [s1 with_user fs_user] in Hr. cbn [with_tx fs_user] in Hdel.
      fold d F in Hr. replace (n - tot) with (m + (n - (tot + m))) by lia. destruct Hr as [(o2 & -> & Hd3)|(o2 & -> & Hd3)]; [left|right].
      * exists (o ++ o2). split; [by rewrite app_assoc|]. rewrite fbytes_app by lia. rewrite <- Ebs. rewrite <- Lbs in Hd3 at 1.
        apply (delivered_app dst _ _ _ u'); [|done|done]. rewrite Nat2Z.inj_add, Lbs, fbytes_length. destruct dst; [|done]. simpl in *. lia.
      * exists o2. split; [done|]. rewrite <- Lbs at 1. rewrite <- Lbs in Hd3 at 1. apply (undelivered_app dst bs _ _ u' _ o); [|lia|done|done].
        rewrite Lbs. destruct dst; [|done]. simpl in *. lia.
  - intros u' o Hu' Hdel. cbn [fst snd]. change (-1 =? -1) with true. cbv iota. apply wp_bind. apply (Hrel u' y); [done|]. intros z Hz.
    apply wp_ret. exists z, u'. split_and!; [done|done|done|]. right. eexists. split; [done|]. rewrite Lbs in Hdel. by apply (undelivered_more _ m).
Qed.

(** The number of bytes from [off] that [readi] returns. *)
Definition avail (d : dinode) (off n : Z) : Z := Z.max 0 (Z.min n (d_size d - off)).

Lemma readi_spec ip i s t I dst off n : fs_at s t I -> in_use (fs_inodes s) ip i -> tv_held t = ∅ -> um_ok (fs_user s) ->
  full (tv_cur t) (I (i_inum i)) -> 0 <= off -> 0 <= n -> off + n < 2 ^ 32 -> dest_ok dst n ->
  wp (readi ip dst off n) (let m := avail (I (i_inum i)) off n in
    read_post dst (tv_cur t) (I (i_inum i)) off m m [] s t) s.
Proof.
  intros A Hu Hh Hum Hf Hoff Hn Hov Hd. destruct (in_use_facts _ _ _ _ _ A Hu) as (_ & Hi & Ed). unfold readi.
  apply wp_bind, (wp_iat ip i); [apply Hu|]. rewrite Ed. set (d := I (i_inum i)) in *. rewrite u32_small by lia.
  pose proof (fi_size _ _ _ (fa_inv _ _ _ A) _ Hi) as Hsz. fold d in Hsz. unfold avail. cbv zeta.
  destruct (Z.ltb_spec (off + n) off); [lia|]. rewrite orb_false_r. destruct (Z.ltb_spec (d_size d) off) as [Hgt|Hle].
  - replace (Z.max 0 (Z.min n (d_size d - off))) with 0 by lia. apply wp_ret. exists (fs_tx s), (fs_user s). split_and!; [by destruct s|apply A|done|].
    left. exists []. split; [done|]. unfold fbytes. rewrite range_nil by lia. by apply delivered_nil.
  - set (n' := if d_size d <? off + n then d_size d - off else n).
    assert (En : n' = Z.max 0 (Z.min n (d_size d - off))) by (unfold n'; destruct (Z.ltb_spec (d_size d) (off + n)); lia).
    rewrite <- En. rewrite <- (Z.sub_0_r n') at 2. apply readi_loop_spec; try done; rewrite ?Z.sub_0_r; try (consts; lia).
    + unfold n'. fold d. destruct (Z.ltb_spec (d_size d) (off + n)); lia.
    + destruct dst; [|done]. simpl in *. lia.
    + unfold io_fuel. consts. lia.
    + intros _. unfold io_fuel. pose proof (Z.div_pos off BSIZE Hoff ltac:(done)). consts. lia.
Qed.
End read.
