(* ===== verification/FsWritei.v ===== *)
(** * Writing files: [iupdate], [writei]

    [writei] puts bytes into a file, extends it, and changes no other file.  It
    writes less than it was asked to only if the disk is full.  A write of [b]
    blocks adds at most [2 * b] blocks to the transaction besides the blocks of
    the free map and of the inode. *)

From stdpp Require Import base numbers list gmap strings.
From Stdlib Require Import ZArith Lia.
From S2P Require Import Prelude Blocks Monad Codec Mem UserMem Bio BioCache Log LogCrash Txn Fs FsImage FsInv FsAlloc FsRead.
Open Scope Z_scope.

(** ** Pure changes *)

(** The bytes [data] from [off] on were put into inode [i]. *)
Record filled (sb : superblock) (i off : Z) (data : list Z) (F : blocks) (I : Z -> dinode) (F' : blocks) (I' : Z -> dinode) : Prop := {
  fl_inv : fs_inv sb F' I';
  fl_byte : forall x, 0 <= x < MAXFILE * BSIZE -> fbyte F' (I' i) x =
    if decide (off <= x < off + Z.of_nat (length data)) then nth (Z.to_nat (x - off)) data 0 else fbyte F (I i) x;
  fl_blk : forall j bn, j <> i -> 0 <= j < sb_ninodes sb -> 0 <= bn < MAXFILE -> fblk F' (I j) bn = fblk F (I j) bn;
  fl_slot : forall j p, place sb j p -> slot F (I j) p <> 0 -> slot F' (I' j) p = slot F (I j) p;
  fl_new : forall x, off <= x < off + Z.of_nat (length data) -> slot F' (I' i) (fslot (x / BSIZE)) <> 0;
  fl_disk : forall n, sb_inodestart sb <= n < sb_bmapstart sb -> F' n = F n;
  fl_others : forall j, j <> i -> I' j = I j;
  fl_self : I' i = set_addrs (d_addrs (I' i)) (I i);
}.

Lemma fbyte_blk F d F' d' x : fblk F' d' (x / BSIZE) = fblk F d (x / BSIZE) -> fbyte F' d' x = fbyte F d x.
Proof. unfold fbyte. by intros ->. Qed.
Lemma file_block x : 0 <= x < MAXFILE * BSIZE -> 0 <= x / BSIZE < MAXFILE.
Proof. intros. split; [apply Z.div_pos; consts; lia|apply Z.div_lt_upper_bound; consts; lia]. Qed.

Lemma filled_grown sb i off F I F' I' : grown sb i F I F' I' -> 0 <= i < sb_ninodes sb -> filled sb i off [] F I F' I'.
Proof.
  intros [H1 H2 H3 H4 H5 H6] Hi. constructor; try done; cbn [length].
  - intros x Hx. rewrite decide_False by lia. apply fbyte_blk, H2; [done|by apply file_block].
  - intros j bn Hj Hji Hb. rewrite <- (H5 j Hj) at 1. by apply H2.
  - intros x Hx. lia.
Qed.

Lemma filled_trans sb i off d1 d2 F I F1 I1 F2 I2 : 0 <= i < sb_ninodes sb -> 0 <= off ->
  off + Z.of_nat (length d1) <= MAXFILE * BSIZE -> filled sb i off d1 F I F1 I1 ->
  filled sb i (off + Z.of_nat (length d1)) d2 F1 I1 F2 I2 -> filled sb i off (d1 ++ d2) F I F2 I2.
Proof.
  intros Hi H0 Hle [A1 A2 A3 A4 A5 A6 A7 A8] [B1 B2 B3 B4 B5 B6 B7 B8]. constructor; [done| | | | | | |].
  - intros x Hx. rewrite B2, A2 by done. rewrite length_app, Nat2Z.inj_add. rewrite !nth_lookup.
    destruct (decide (off + Z.of_nat (length d1) <= x < off + Z.of_nat (length d1) + Z.of_nat (length d2))).
    + rewrite decide_True by lia. rewrite lookup_app_r by lia. do 2 f_equal. lia.
    + destruct (decide (off <= x < off + Z.of_nat (length d1))); [rewrite decide_True by lia|by rewrite decide_False by lia].
      by rewrite lookup_app_l by lia.
  - intros j bn Hj Hji Hb. rewrite <- (A7 j Hj) at 1. rewrite B3 by done. rewrite (A7 j Hj). by apply A3.
  - intros j p Hp Hn. rewrite B4; [by apply A4|done|]. by rewrite A4.
  - intros x Hx. rewrite length_app in Hx. destruct (Z_lt_le_dec x (off + Z.of_nat (length d1))) as [Hlt|Hge].
    + specialize (A5 x ltac:(lia)). rewrite B4; [done| |done]. apply fslot_place; [done|apply file_block; lia].
    + apply B5. lia.
  - intros n Hn. by rewrite B6, A6.
  - intros j Hj. by rewrite B7, A7.
  - rewrite B8 at 1. rewrite A8 at 1. done.
Qed.

(** Blocks of one file are not blocks of another. *)
Lemma data_change sb F I i bn y : fs_inv sb F I -> 0 <= i < sb_ninodes sb -> 0 <= bn < MAXFILE -> slot F (I i) (fslot bn) <> 0 -> wf_block y ->
  let F' := bupd F (slot F (I i) (fslot bn)) y in
  fs_inv sb F' I /\ (forall j p, 0 <= j < sb_ninodes sb -> slot F' (I j) p = slot F (I j) p) /\
  (forall j bn', 0 <= j < sb_ninodes sb -> 0 <= bn' < MAXFILE -> fblk F' (I j) bn' = if decide (j = i /\ bn' = bn) then y else fblk F (I j) bn') /\
  (forall n, sb_inodestart sb <= n < sb_bmapstart sb -> F' n = F n).
Proof.
  intros Inv Hi Hb Hs Hy F'. set (a := slot F (I i) (fslot bn)) in *. pose proof (inv_order _ _ _ Inv) as Hord.
  pose proof (fslot_place sb i bn Hi Hb) as Hpl. destruct (slot_data _ _ _ Inv i _ Hpl Hs) as [Ha Hu]. fold a in Ha, Hu.
  assert (Hslot : forall j p, 0 <= j < sb_ninodes sb -> slot F' (I j) p = slot F (I j) p).
  { intros j p Hj. apply slot_agree. intros Hn. apply bupd_ne. intros E.
    destruct (slot_inj _ _ _ Inv j NDIRECT i (fslot bn) (place_12 sb j Hj) Hpl E Hn) as [_ E']. by apply (fslot_12 bn). }
  assert (Hused : forall b, 0 <= b < sb_size sb -> used sb F' b = used sb F b).
  { intros b Hb'. apply used_agree, bupd_ne. pose proof (BBLOCK_range sb b (fi_sb _ _ _ Inv) Hb'). lia. }
  split_and!.
  - constructor; try apply Inv.
    + intros n Hn. unfold F', bupd. case_decide; [done|by apply Inv].
    + apply (owned_ext sb _ _ _ _ (fi_owned _ _ _ Inv)); [|done|lia|lia]. intros j p [Hj Hp]. by apply Hslot.
    + unfold F'. rewrite bupd_ne by lia. apply Inv.
  - done.
  - intros j bn' Hj Hb'. unfold fblk. rewrite Hslot by done. case_decide as Hc.
    + destruct Hc as [-> ->]. fold a. destruct (Z.eqb_spec a 0); [done|]. apply bupd_eq.
    + destruct (Z.eqb_spec (slot F (I j) (fslot bn')) 0) as [|Hn]; [done|]. apply bupd_ne. intros E. apply Hc.
      destruct (slot_inj _ _ _ Inv j _ i _ (fslot_place sb j bn' Hj Hb') Hpl E Hn) as [-> E']. by apply fslot_inj in E'.
  - intros n Hn. apply bupd_ne. lia.
Qed.

Lemma filled_write sb F I i bn o l : fs_inv sb F I -> 0 <= i < sb_ninodes sb -> 0 <= bn < MAXFILE -> slot F (I i) (fslot bn) <> 0 ->
  0 <= o -> o + Z.of_nat (length l) <= BSIZE -> Forall is_byte l ->
  let a := slot F (I i) (fslot bn) in filled sb i (bn * BSIZE + o) l F I (bupd F a (splice (F a) o l)) I.
Proof.
  intros Inv Hi Hb Hs Ho Hl Hby a. pose proof (inv_order _ _ _ Inv).
  destruct (slot_data _ _ _ Inv i _ (fslot_place sb i bn Hi Hb) Hs) as [Ha _]. fold a in Ha.
  assert (Hwf : wf_block (F a)) by (apply (fi_wf _ _ _ Inv); lia).
  destruct (data_change sb F I i bn (splice (F a) o l) Inv Hi Hb Hs ltac:(by apply splice_wf)) as (D1 & D2 & D3 & D4). fold a in D1, D2, D3, D4.
  constructor; try done.
  - intros x Hx. unfold fbyte. rewrite D3 by (done || by apply file_block). pose proof (Z.div_mod x BSIZE ltac:(done)) as Hdm.
    pose proof (Z.mod_pos_bound x BSIZE ltac:(done)) as Hmod. destruct Hwf as [Hlen _].
    destruct (decide (i = i /\ x / BSIZE = bn)) as [[_ E]|Hne].
    + rewrite !nth_lookup, splice_lookup by (rewrite ?Hlen; consts; lia). rewrite E.
      assert (Ef : fblk F (I i) bn = F a) by (unfold fblk; fold a; by destruct (Z.eqb_spec a 0)). rewrite Ef. rewrite E in Hdm.
      destruct (decide (bn * BSIZE + o <= x < bn * BSIZE + o + Z.of_nat (length l))).
      * rewrite decide_True by lia. do 2 f_equal. lia.
      * by rewrite decide_False by lia.
    + rewrite decide_False; [done|]. intros Hr. apply Hne. split; [done|]. symmetry. apply (Z.div_unique x BSIZE bn (x - bn * BSIZE)); lia.
  - intros j bn' Hj Hji Hb'. rewrite D3 by done. rewrite decide_False by (intros [? _]; done). done.
  - intros j p [Hj Hp] Hn. by apply D2.
  - intros x Hx. rewrite D2 by done. replace (x / BSIZE) with bn; [done|]. apply (Z.div_unique x BSIZE bn (x - bn * BSIZE)); lia.
  - by destruct (I i).
Qed.

(** A change of an inode block. *)
Lemma inv_inodes sb F I n y : fs_inv sb F I -> sb_inodestart sb <= n < sb_bmapstart sb -> wf_block y -> fs_inv sb (bupd F n y) I.
Proof.
  intros Inv Hn Hy. pose proof (inv_order _ _ _ Inv). constructor; try apply Inv.
  - intros k Hk. unfold bupd. case_decide; [done|by apply Inv].
  - apply (owned_ext sb _ _ _ _ (fi_owned _ _ _ Inv)); [| |lia|lia].
    + intros i p [Hi Hp]. apply slot_agree. intros Hne. destruct (ind_data _ _ _ Inv i Hi Hne). apply bupd_ne. lia.
    + intros b Hb. apply used_agree, bupd_ne. pose proof (BBLOCK_range sb b (fi_sb _ _ _ Inv) Hb). lia.
  - rewrite bupd_ne by lia. apply Inv.
Qed.
Lemma fblk_inodes sb F I n y j bn : fs_inv sb F I -> sb_inodestart sb <= n < sb_bmapstart sb -> 0 <= j < sb_ninodes sb -> 0 <= bn < MAXFILE ->
  slot (bupd F n y) (I j) (fslot bn) = slot F (I j) (fslot bn) /\ fblk (bupd F n y) (I j) bn = fblk F (I j) bn.
Proof.
  intros Inv Hn Hj Hb. pose proof (inv_order _ _ _ Inv).
  assert (E : slot (bupd F n y) (I j) (fslot bn) = slot F (I j) (fslot bn)).
  { apply slot_agree. intros Hne. destruct (ind_data _ _ _ Inv j Hj Hne). apply bupd_ne. lia. }
  split; [done|]. unfold fblk. rewrite E. destruct (Z.eqb_spec (slot F (I j) (fslot bn)) 0) as [|Hne]; [done|].
  destruct (slot_data _ _ _ Inv j _ (fslot_place sb j bn Hj Hb) Hne). apply bupd_ne. lia.
Qed.

(** The inode on the disk is brought up to date. *)
Definition put_inode (sb : superblock) (F : blocks) (n : Z) (d : dinode) : blocks :=
  bupd F (IBLOCK n sb) (put_dinode (F (IBLOCK n sb)) (n mod IPB) d).

Lemma mod_IPB n : 0 <= n mod IPB < IPB.
Proof. apply Z.mod_pos_bound. consts. lia. Qed.
Lemma disk_put_inode sb F n d m : wf_block (F (IBLOCK n sb)) -> dinode_ok d -> 0 <= m -> 0 <= n ->
  disk_inode sb (put_inode sb F n d) m = if decide (m = n) then d else disk_inode sb F m.
Proof.
  intros Hw Hd Hm Hn. unfold disk_inode, put_inode, bupd. pose proof (mod_IPB n). pose proof (mod_IPB m). case_decide as E.
  - case_decide as E2; [subst; by rewrite get_put_dinode_eq|]. rewrite E. apply get_put_dinode_ne; [done|done|done|lia|].
    intros E3. apply E2. unfold IBLOCK in E. pose proof (Z.div_mod m IPB ltac:(done)). pose proof (Z.div_mod n IPB ltac:(done)). lia.
  - by rewrite decide_False by (intros ->; done).
Qed.

(** * [iupdate] and [writei], run *)

(** ** Changes of the fields of an inode *)

Lemma slot_addrs F d d' p : d_addrs d' = d_addrs d -> slot F d' p = slot F d p.
Proof. intros E. unfold slot, daddr. by rewrite E. Qed.
Lemma fblk_addrs F d d' bn : d_addrs d' = d_addrs d -> fblk F d' bn = fblk F d bn.
Proof. intros E. unfold fblk. by rewrite (slot_addrs F d d'). Qed.

Lemma inv_fields sb F I i d : fs_inv sb F I -> d_addrs d = d_addrs (I i) -> dinode_ok d -> d_size d <= MAXFILE * BSIZE ->
  (d_type d = 0 -> forall p, daddr d p = 0) -> fs_inv sb F (fput I i d).
Proof.
  intros Inv Ea Hok Hs H0. pose proof (inv_order _ _ _ Inv). constructor; try apply Inv.
  - intros j Hj. unfold fput. case_decide; [done|by apply Inv].
  - intros j Hj. unfold fput. case_decide; [done|by apply Inv].
  - intros j p Hj. unfold fput. case_decide; [intros E; by apply H0|by apply Inv].
  - apply (owned_ext sb _ _ _ _ (fi_owned _ _ _ Inv)); [|done|lia|lia]. intros j p _. unfold fput. case_decide; [subst|done]. by apply slot_addrs.
Qed.

(** The number of blocks a range of bytes touches. *)
Definition span (off n : Z) : Z := if n <=? 0 then 0 else (off + n - 1) / BSIZE - off / BSIZE + 1.

Lemma span_step off n m : 0 <= off -> 0 < n -> m = Z.min n (BSIZE - off mod BSIZE) -> 1 + span (off + m) (n - m) <= span off n.
Proof.
  intros Hoff Hn Em. pose proof (next_block off m n 0 Hoff Hn ltac:(by rewrite Z.sub_0_r)) as (Hm0 & Hm1 & Hm2 & Hm3). rewrite Z.sub_0_r in Hm1.
  rewrite Z.add_0_l in Hm3. unfold span. destruct (Z.leb_spec n 0); [lia|]. destruct (Z.leb_spec (n - m) 0).
  - pose proof (Z.div_le_mono off (off + n - 1) BSIZE ltac:(done) ltac:(lia)). lia.
  - rewrite Hm3 by lia. replace (off + m + (n - m) - 1) with (off + n - 1) by lia. lia.
Qed.
Lemma span_nonneg off n : 0 <= off -> 0 <= span off n.
Proof.
  intros. unfold span. destruct (Z.leb_spec n 0); [done|]. pose proof (Z.div_le_mono off (off + n - 1) BSIZE ltac:(done) ltac:(lia)). lia.
Qed.

(** ** The effect of [writei] *)

Record wrote (sb : superblock) (n off : Z) (data : list Z) (F : blocks) (I : Z -> dinode) (F' : blocks) (I' : Z -> dinode) : Prop := {
  wr_inv : fs_inv sb F' I';
  wr_byte : forall x, 0 <= x < MAXFILE * BSIZE -> fbyte F' (I' n) x =
    if decide (off <= x < off + Z.of_nat (length data)) then nth (Z.to_nat (x - off)) data 0 else fbyte F (I n) x;
  wr_blk : forall j bn, j <> n -> 0 <= j < sb_ninodes sb -> 0 <= bn < MAXFILE -> fblk F' (I j) bn = fblk F (I j) bn;
  wr_slot : forall j p, place sb j p -> slot F (I j) p <> 0 -> slot F' (I' j) p = slot F (I j) p;
  wr_others : forall j, j <> n -> I' j = I j;
  wr_self : I' n = set_size (Z.max (d_size (I n)) (off + Z.of_nat (length data))) (set_addrs (d_addrs (I' n)) (I n));
  wr_full : full F (I n) -> full F' (I' n);
  wr_sync : disk_inode sb F' n = I' n;
  wr_disk : forall m, m <> n -> 0 <= m < sb_ninodes sb -> disk_inode sb F' m = disk_inode sb F m;
}.

Lemma wrote_intro sb n off data F I F1 I1 d : 0 <= n < sb_ninodes sb -> 0 <= off <= d_size (I n) -> off + Z.of_nat (length data) <= MAXFILE * BSIZE ->
  filled sb n off data F I F1 I1 -> d = set_size (Z.max (d_size (I n)) (off + Z.of_nat (length data))) (I1 n) -> fs_inv sb F1 (fput I1 n d) ->
  wrote sb n off data F I (put_inode sb F1 n d) (fput I1 n d).
Proof.
  intros Hn Hoff Hlen [A1 A2 A3 A4 A5 A6 A7 A8] Ed Inv. set (I2 := fput I1 n d) in *. pose proof (inv_order _ _ _ Inv) as Hord.
  pose proof (IBLOCK_range sb n (fi_sb _ _ _ Inv) Hn) as Hib. pose proof (fi_inode _ _ _ Inv n Hn) as Hok. unfold I2 in Hok. rewrite fput_eq in Hok.
  assert (Hwf : wf_block (F1 (IBLOCK n sb))) by (apply Inv; lia).
  assert (Hy : wf_block (put_dinode (F1 (IBLOCK n sb)) (n mod IPB) d)) by (apply put_dinode_wf; [done|done|apply mod_IPB]).
  assert (Ea : d_addrs (I2 n) = d_addrs (I1 n)) by (unfold I2; rewrite fput_eq, Ed; done).
  assert (HI : forall j, j <> n -> I2 j = I j) by (intros j Hj; unfold I2; rewrite fput_ne by done; by apply A7).
  assert (HA : forall F' j p, slot F' (I2 j) p = slot F' (I1 j) p).
  { intros F' j p. destruct (decide (j = n)) as [->|]; [by apply slot_addrs|]. unfold I2. by rewrite fput_ne. }
  assert (HB : forall F' j bn, fblk F' (I2 j) bn = fblk F' (I1 j) bn).
  { intros F' j p. destruct (decide (j = n)) as [->|]; [by apply fblk_addrs|]. unfold I2. by rewrite fput_ne. }
  assert (Hput : forall j bn, 0 <= j < sb_ninodes sb -> 0 <= bn < MAXFILE ->
    slot (put_inode sb F1 n d) (I2 j) (fslot bn) = slot F1 (I2 j) (fslot bn) /\ fblk (put_inode sb F1 n d) (I2 j) bn = fblk F1 (I2 j) bn).
  { intros j bn Hj Hb. by apply (fblk_inodes sb F1 I2). }
  assert (Hsl : forall j p, 0 <= j < sb_ninodes sb -> slot (put_inode sb F1 n d) (I2 j) p = slot F1 (I2 j) p).
  { intros j p Hj. apply slot_agree. intros Hne. destruct (ind_data _ _ _ Inv j Hj Hne). apply bupd_ne. lia. }
  constructor.
  - by apply inv_inodes.
  - intros x Hx. rewrite <- A2 by done. rewrite (fbyte_blk F1 (I2 n)) by (apply Hput; [done|by apply file_block]). apply fbyte_blk, HB.
  - intros j bn Hj Hji Hb. rewrite <- (HI j Hj) at 1. destruct (Hput j bn Hji Hb) as [_ ->]. rewrite HB, A7 by done. by apply A3.
  - intros j p Hp Hne. rewrite Hsl, HA by apply Hp. by apply A4.
  - done.
  - rewrite Ea. unfold I2. rewrite fput_eq, Ed. rewrite A8 at 1. done.
  - intros Hf bn Hb Hlt. rewrite Hsl, HA by done. unfold I2 in Hlt. rewrite fput_eq, Ed in Hlt. cbn [set_size d_size] in Hlt.
    destruct (Z_lt_le_dec (bn * BSIZE) (d_size (I n))) as [Hin|Hout].
    + specialize (Hf bn Hb Hin). rewrite A4; [done| |done]. apply fslot_place; [done|]. pose proof (fi_size _ _ _ A1 n Hn) as Hs. rewrite A8 in Hs.
      cbn [set_addrs d_size] in Hs. consts. lia.
    + specialize (A5 (bn * BSIZE)). rewrite Z.div_mul in A5 by done. apply A5. lia.
  - rewrite disk_put_inode by (done || lia). unfold I2. by rewrite decide_True, fput_eq.
  - intros m Hm Hmi. rewrite disk_put_inode by (done || lia). rewrite decide_False by done. apply disk_inode_agree; [apply Inv|done|done].
Qed.

Section writei.
Context {T U : Type} {TX : Transactions T} {TXok : TransactionsOK T} {UM : UserMemory U} {UMok : UserMemoryOK U}.
Abbreviation fss := (fsst T U).
Implicit Types (s : fss) (t : tview) (I : Z -> dinode).

Lemma iupdate_spec B k ip i s t I (Q : unit -> fss -> Prop) : fs_at s t I -> in_use (fs_inodes s) ip i -> tv_held t = ∅ -> room B k t ->
  IBLOCK (i_inum i) (fs_sb s) ∈ B \/ 1 <= k ->
  (forall x t', fs_at (with_tx x s) t' I -> evolves B k t t' -> tv_cur t' = put_inode (fs_sb s) (tv_cur t) (i_inum i) (I (i_inum i)) ->
    Q tt (with_tx x s)) -> wp (iupdate ip) Q s.
Proof.
  intros A Hu Hh Hr Hk HQ. destruct (in_use_facts _ _ _ _ _ A Hu) as (_ & Hn & Ed). pose proof (fa_inv _ _ _ A) as Inv. pose proof (inv_order _ _ _ Inv) as Hord.
  unfold iupdate, the_sb. apply wp_bind, wp_gets, wp_bind, (wp_iat ip i); [apply Hu|]. set (n := i_inum i) in *. set (sb := fs_sb s) in *.
  pose proof (IBLOCK_range sb n (fi_sb _ _ _ Inv) Hn) as Hib. pose proof (data_readable (IBLOCK n sb) s t I A Hh ltac:(fold sb; lia)) as Hrd.
  apply (wp_tget (IBLOCK n sb) t); [apply A|done|]. intros bp x Hx. apply (wp_modified' B k (IBLOCK n sb) bp _ t); [done|by rewrite Hh|done|lia|].
  intros y Hy. change (with_tx y (with_tx x s)) with (with_tx y s). rewrite Ed in *.
  assert (Hwf : wf_block (tv_cur t (IBLOCK n sb))) by (apply Inv; lia). pose proof (fi_inode _ _ _ Inv n Hn) as Hok.
  set (t' := changed _ _ t) in *. assert (EF : tv_cur t' = put_inode sb (tv_cur t) n (I n)) by done.
  assert (Ev : evolves B k t t') by (apply evolves_n; [destruct Hk; [by left|by right]|apply Hr]).
  apply (HQ y t'); [|done|done]. constructor; [eapply tx_evolves; [apply A|exact Ev|done]| |]; cbn [with_tx fs_sb fs_inodes]; fold sb; rewrite EF.
  - apply inv_inodes; [done|done|]. apply put_dinode_wf; [done|done|apply mod_IPB].
  - destruct (fa_tab _ _ _ A) as [T1 T0 T2 T3 T4]. constructor; try done. intros m Hm Hno. rewrite T4 by done. symmetry.
    rewrite disk_put_inode by (done || lia). rewrite decide_False; [done|]. intros ->. by apply (Hno ip i (iu_at _ _ _ Hu) (iu_ref _ _ _ Hu) (iu_valid _ _ _ Hu)).
Qed.

(** ** Sources *)

Record source_ok (src : source) (n : Z) (data : list Z) (u : U) : Prop := {
  sc_len : Z.of_nat (length data) = n;
  sc_bytes : Forall is_byte data;
  sc_src : match src with
    | FromKernel bs => take (length data) bs = data
    | FromUser va => um_range u va n /\ um_bytes u va data /\ 0 <= va /\ va + n < 2 ^ 64
    end;
}.

Lemma either_copyin_spec src n data s (Q : Z * list Z -> fss -> Prop) : um_ok (fs_user s) -> source_ok src n data (fs_user s) ->
  Q (0, data) s -> wp (either_copyin src n) Q s.
Proof.
  intros Hu [Hl Hb Hs] HQ. destruct src as [va|bs]; cbn [either_copyin].
  - destruct Hs as (Hr & Hby & Hva & Hlt). unfold in_user. apply wp_lift. eapply wp_mono; [apply (um_copyin_ok va n (fs_user s) Hu); lia|].
    intros [r l] u' [-> [(Er & _ & Hll & _ & Hul)|[_ Hno]]]; [|done]. cbn [fst snd] in *. subst r.
    assert (l = data) as -> by (apply (um_bytes_inj (fs_user s) va); [lia|done|done]). by destruct s.
  - apply wp_ret. subst n. by rewrite Nat2Z.id, Hs.
Qed.

Lemma source_split src n data m u : source_ok src n data u -> 0 <= m <= n ->
  source_ok src m (take (Z.to_nat m) data) u /\ source_ok (source_plus src m) (n - m) (drop (Z.to_nat m) data) u.
Proof.
  intros [Hl Hb Hs] Hm. split; constructor; rewrite ?length_take, ?length_drop; try lia; try (by apply Forall_take || by apply Forall_drop).
  - destruct src as [va|bs].
    + destruct Hs as (Hr & Hby & Hva & Hlt). split_and!; [intros x Hx; apply Hr; lia| |lia|lia].
      intros k b Hk. apply Hby. rewrite <- Hk. symmetry. apply lookup_take_lt. apply lookup_lt_Some in Hk. rewrite length_take in Hk. lia.
    + rewrite Nat.min_l by lia. rewrite <- Hs, take_take. f_equal. lia.
  - destruct src as [va|bs]; cbn [source_plus].
    + destruct Hs as (Hr & Hby & Hva & Hlt). rewrite u64_small by lia. split_and!; [intros x Hx; apply Hr; lia| |lia|lia].
      intros k b Hk. rewrite lookup_drop in Hk. specialize (Hby _ _ Hk). rewrite <- Hby. f_equal. lia.
    + rewrite <- Hs at 2. by rewrite <- skipn_firstn_comm.
Qed.

(** ** The loop *)

(** A write stops short only at the start of a block, when none is free. *)
Definition short_write (sb : superblock) (off w : Z) (F : blocks) : Prop := all_used sb F /\ (w = 0 \/ (off + w) mod BSIZE = 0).

Definition write_post (B : gset Z) ip (i : inode) (off n tot : Z) (data : list Z) s t I (r : Z * Z) (s' : fss) : Prop :=
  exists t' I' w, fs_at s' t' I' /\ evolves B (2 * span off n) t t' /\
    filled (fs_sb s) (i_inum i) off (take (Z.to_nat w) data) (tv_cur t) I (tv_cur t') I' /\
    (exists x, s' = with_inodes (zset (fs_inodes s) ip (set_d (I' (i_inum i)) i)) (with_tx x s)) /\
    r = (tot + w, off + w) /\ 0 <= w <= n /\ (w < n -> short_write (fs_sb s) off w (tv_cur t')).

Lemma same_entry s ip i : in_use (fs_inodes s) ip i -> zset (fs_inodes s) ip (set_d (i_d i) i) = fs_inodes s.
Proof. intros [H _ _]. apply zset_id. by destruct i. Qed.

(** One block of the loop, after [bmap]. *)
Lemma write_block_spec B ip i bn o data s t t0 I (K E : M fss (Z * Z)) (Q : Z * Z -> fss -> Prop) src m :
  let a := slot (tv_cur t) (I (i_inum i)) (fslot bn) in
  fs_at s t I -> in_use (fs_inodes s) ip i -> tv_held t = ∅ -> um_ok (fs_user s) -> a <> 0 -> 0 <= bn < MAXFILE ->
  evolves B 2 t0 t -> evolves B 0 t0 t \/ a ∈ tv_logged t -> room B 2 t0 ->
  source_ok src m data (fs_user s) -> 0 <= o -> o + m <= BSIZE ->
  (forall x t', fs_at (with_tx x s) t' I -> evolves B 2 t0 t' ->
     filled (fs_sb s) (i_inum i) (bn * BSIZE + o) data (tv_cur t) I (tv_cur t') I -> wp K Q (with_tx x s)) ->
  wp (let! bp := bread a in let! r := either_copyin src m in let! x := bdata bp in
      bstore bp (splice x o r.2);; if r.1 =? -1 then brel bp;; E else log_put bp;; brel bp;; K) Q s.
Proof.
  intros a A Hu Hh Hum Ha Hbn Ev Hlog Hroom Hsrc Ho Hlen HK. rewrite <- (sc_len _ _ _ _ Hsrc) in Hlen. destruct (in_use_facts _ _ _ _ _ A Hu) as (_ & Hi & _).
  pose proof (fa_inv _ _ _ A) as Inv. pose proof (inv_order _ _ _ Inv) as Hord.
  destruct (slot_data _ _ _ Inv _ _ (fslot_place _ _ _ Hi Hbn) Ha) as [Hda _]. fold a in Hda.
  pose proof (data_readable a s t I A Hh ltac:(lia)) as Hrd. apply wp_bind, (wp_bread a t); [apply A|done|]. intros bp x Hx.
  apply wp_bind, (either_copyin_spec src _ data); [done|done|]. cbn [fst snd]. change (0 =? -1) with false. cbv iota.
  apply wp_bind, (wp_bdata a bp (holding a bp t)); [done|apply lookup_insert_eq|]. cbn [holding with_held tv_cur].
  assert (Hr0 : room B 0 t) by (by apply (room_evolves B 2 0 t0)).
  apply (wp_modified B 0 a bp _ t); [done|by rewrite Hh|done|lia|]. intros y Hy. change (with_tx y (with_tx x s)) with (with_tx y s).
  set (t' := changed _ _ t) in *.
  assert (Ev' : evolves B 2 t0 t').
  { destruct Hlog as [E0|Hin]; [apply (evolves_trans B 0 1 _ t0 t); [done|by apply evolves_n; [right|]|lia]|].
    by apply (evolves_trans B 2 0 _ t0 t); [|apply evolves_again|]. }
  pose proof (filled_write (fs_sb s) (tv_cur t) I (i_inum i) bn o data Inv Hi Hbn Ha Ho Hlen (sc_bytes _ _ _ _ Hsrc)) as Fl.
  cbv zeta in Fl. fold a in Fl. change (bupd _ _ _) with (tv_cur t') in Fl. apply (HK y t'); [|done|done].
  constructor; [|apply Fl|].
  - destruct (fa_tx _ _ _ A) as [X1 X2 X3]. by constructor.
  - apply (itab_frame _ _ (tv_cur t)); [apply A|]. apply disk_inode_agree; [apply A|apply Fl].
Qed.

Lemma next_aligned off m n : 0 <= off -> m = Z.min n (BSIZE - off mod BSIZE) -> m < n -> (off + m) mod BSIZE = 0.
Proof.
  intros Ho Em Hm. pose proof (Z.div_mod off BSIZE ltac:(done)). replace (off + m) with ((off / BSIZE + 1) * BSIZE) by lia. by apply Z.mod_mul.
Qed.

Lemma writei_loop_spec B fuel : forall ip i s t I src off n tot data, fs_at s t I -> in_use (fs_inodes s) ip i -> tv_held t = ∅ -> um_ok (fs_user s) ->
  d_type (I (i_inum i)) <> 0 -> source_ok src (n - tot) data (fs_user s) -> room B (2 * span off (n - tot)) t -> has_map (fs_sb s) B ->
  0 <= tot <= n -> 0 <= off -> off + (n - tot) <= MAXFILE * BSIZE -> n <= MAXFILE * BSIZE ->
  (1 <= fuel)%nat -> (tot < n -> MAXFILE - off / BSIZE + 1 <= Z.of_nat fuel) ->
  wp (writei_loop fuel ip src off n tot) (write_post B ip i off (n - tot) tot data s t I) s.
Proof.
  induction fuel as [|fuel IH]; [lia|]. intros ip i s t I src off n tot data A Hu Hh Hum Hty Hsrc Hroom HB Htot Hoff Hend Hn _ Hfuel.
  destruct (in_use_facts _ _ _ _ _ A Hu) as (_ & Hi & Ed). cbn [writei_loop]. pose proof (span_nonneg off (n - tot) Hoff) as Hsp.
  destruct (Z.leb_spec n tot) as [Hge|Hlt].
  { apply wp_ret. exists t, I, 0. split_and!; try lia; [done|by apply evolves_refl; lia|by apply filled_grown; [apply fgrown_refl, A|]| |f_equal; lia].
    exists (fs_tx s). rewrite <- Ed, same_entry by done. by destruct s. }
  set (m := Z.min (n - tot) (BSIZE - off mod BSIZE)). destruct (next_block off m n tot Hoff Hlt eq_refl) as (Hm0 & Hm1 & Hm2 & Hm3).
  pose proof (span_step off (n - tot) m Hoff ltac:(lia) eq_refl) as Hstep.
  pose proof (span_nonneg (off + m) (n - tot - m) ltac:(lia)) as Hsp2.
  pose proof (Z.mod_pos_bound off BSIZE ltac:(done)) as Hmod. pose proof (Z.div_mod off BSIZE ltac:(done)) as Hdiv.
  assert (Hbn : 0 <= off / BSIZE < MAXFILE) by (apply file_block; lia).
  apply wp_bind. eapply wp_mono; [apply (bmap_spec B ip i (off / BSIZE) t I s); try done; apply (room_weaken B (2 * span off (n - tot))); [done|lia]|].
  intros a s1 (t1 & I1 & A1 & Ev & G & (x & Es) & Hs & Hf). set (k := i_inum i) in *. destruct (Z.eqb_spec a 0) as [->|Ha].
  { apply wp_ret. exists t1, I1, 0. split_and!; try lia; [done|by apply (evolves_weaken B 2); [|lia]|by apply filled_grown|by exists x|f_equal; lia|].
    intros _. split; [by apply Hf|by left]. }
  destruct (Hs Ha) as [Hsl Hlog]. clear Hs Hf. set (i1 := set_d (I1 k) i).
  assert (Esb : fs_sb s1 = fs_sb s) by (by rewrite Es). assert (Eu : fs_user s1 = fs_user s) by (by rewrite Es).
  assert (Hu1 : in_use (fs_inodes s1) ip i1) by (rewrite Es; by apply in_use_set_d).
  destruct (ev_fields _ _ _ _ Ev) as (_ & _ & Eh & _). destruct (source_split src _ data m (fs_user s) Hsrc ltac:(lia)) as [Hs1 Hs2].
  rewrite <- Hsl. apply (write_block_spec B ip i1 (off / BSIZE) (off mod BSIZE) (take (Z.to_nat m) data) s1 t1 t I1);
    change (i_inum i1) with k; rewrite ?Hsl, ?Eu; try done.
  { by rewrite Eh. }
  { destruct Hlog as [?|[? _]]; [by left|by right]. }
  { apply (room_weaken B (2 * span off (n - tot))); [done|lia]. }
  { lia. }
  intros y t2 A2 Ev2 Fl2. rewrite Esb in Fl2. rewrite (u32_small (off + m)), (u32_small (tot + m)) by (consts; lia).
  replace (off / BSIZE * BSIZE + off mod BSIZE) with off in Fl2 by lia. destruct (ev_fields _ _ _ _ Ev2) as (_ & _ & Eh2 & _).
  assert (Fl : filled (fs_sb s) k off (take (Z.to_nat m) data) (tv_cur t) I (tv_cur t2) I1).
  { change (take (Z.to_nat m) data) with ([] ++ take (Z.to_nat m) data). apply (filled_trans _ _ _ _ _ _ _ (tv_cur t1) I1); cbn [length]; [done|done|consts; lia|by apply filled_grown|].
    by rewrite Z.add_0_r. }
  eapply wp_mono; [apply (IH ip i1 (with_tx y s1) t2 I1 (source_plus src m) (off + m) n (tot + m) (drop (Z.to_nat m) data)); try done|].
  - by rewrite Eh2.
  - by rewrite <- Eu in Hum.
  - change (i_inum i1) with k. destruct (grown_size _ _ _ _ _ _ k G) as (_ & -> & _). done.
  - cbn [with_tx fs_user]. rewrite Eu. by replace (n - (tot + m)) with (n - tot - m) by lia.
  - replace (n - (tot + m)) with (n - tot - m) by lia. apply (room_evolves B 2 _ t); [|done|lia]. apply (room_weaken B (2 * span off (n - tot))); [done|lia].
  - cbn [with_tx fs_sb]. by rewrite Esb.
  - lia.
  - lia.
  - lia.
  - destruct (Z_lt_le_dec (tot + m) n); specialize (Hfuel Hlt); consts; lia.
  - intros Hlt'. specialize (Hfuel Hlt). rewrite Hm3 by done. lia.
  - replace (n - (tot + m)) with (n - tot - m) by lia.
    intros r s' (t3 & I3 & w & A3 & Ev3 & Fl3 & (z & Ez) & -> & Hw & Hfull). change (i_inum i1) with k in *. cbn [with_tx fs_sb] in Fl3, Hfull. rewrite Esb in Fl3, Hfull.
    exists t3, I3, (m + w). pose proof (sc_len _ _ _ _ Hsrc) as Hld. split_and!; [done| | | |f_equal; lia|lia|lia| ].
    + eapply evolves_trans; [exact Ev2|exact Ev3|lia].
    + replace (take (Z.to_nat (m + w)) data) with (take (Z.to_nat m) data ++ take (Z.to_nat w) (drop (Z.to_nat m) data)).
      * apply (filled_trans _ _ _ _ _ _ _ (tv_cur t2) I1); rewrite ?length_take; [done|done|lia|done|]. replace (Z.of_nat (Nat.min (Z.to_nat m) (length data))) with m by lia. done.
      * replace (Z.to_nat (m + w)) with (Z.to_nat m + Z.to_nat w)%nat by lia. apply take_take_drop.
    + exists z. rewrite Ez, Es. unfold with_inodes, with_tx. cbn [fs_tx fs_user fs_sb fs_inodes fs_cwd]. f_equal. rewrite zset_zset. done.
    + intros Hlt'. destruct (Hfull ltac:(lia)) as [Hall Hcut]. split; [done|right]. rewrite Z.add_assoc. destruct Hcut as [->|Hcut]; [|done].
      rewrite Z.add_0_r. apply (next_aligned off m (n - tot)); lia.
Qed.

Definition writei_post (B : gset Z) ip (i : inode) (off n : Z) (data : list Z) s t I (r : Z) (s' : fss) : Prop :=
  exists t' I', fs_at s' t' I' /\ evolves B (2 * span off n) t t' /\ 0 <= r <= n /\
    wrote (fs_sb s) (i_inum i) off (take (Z.to_nat r) data) (tv_cur t) I (tv_cur t') I' /\
    (exists x, s' = with_inodes (zset (fs_inodes s) ip (set_d (I' (i_inum i)) i)) (with_tx x s)) /\
    (r < n -> short_write (fs_sb s) off r (tv_cur t')).

Lemma writei_spec B ip i s t I src off n data : fs_at s t I -> in_use (fs_inodes s) ip i -> tv_held t = ∅ -> um_ok (fs_user s) ->
  d_type (I (i_inum i)) <> 0 -> source_ok src n data (fs_user s) -> room B (2 * span off n) t -> has_map (fs_sb s) B ->
  IBLOCK (i_inum i) (fs_sb s) ∈ B -> 0 <= off <= d_size (I (i_inum i)) -> 0 <= n -> off + n <= MAXFILE * BSIZE ->
  wp (writei ip src off n) (writei_post B ip i off n data s t I) s.
Proof.
  intros A Hu Hh Hum Hty Hsrc Hroom HB HI Hoff Hn Hend. destruct (in_use_facts _ _ _ _ _ A Hu) as (_ & Hi & Ed). set (k := i_inum i) in *.
  unfold writei. apply wp_bind, (wp_iat ip i); [apply Hu|]. rewrite Ed. destruct (Z.ltb_spec (d_size (I k)) off); [lia|].
  rewrite u32_small by (consts; lia). destruct (Z.ltb_spec (off + n) off); [lia|]. cbn [orb].
  destruct (Z.ltb_spec (MAXFILE * BSIZE) (off + n)); [lia|]. apply wp_bind.
  pose proof (Z.div_pos off BSIZE ltac:(lia) ltac:(done)) as Hdp.
  eapply wp_mono; [apply (writei_loop_spec B io_fuel ip i s t I src off n 0 data); rewrite ?Z.sub_0_r; try done; unfold io_fuel; consts; lia|].
  rewrite Z.sub_0_r. intros r s1 (t1 & I1 & w & A1 & Ev & Fl & (x & Es) & -> & Hw & Hfull). cbn [fst snd]. rewrite Z.add_0_l. fold k in Fl, Es.
  set (i1 := set_d (I1 k) i). assert (Hu1 : in_use (fs_inodes s1) ip i1) by (rewrite Es; by apply in_use_set_d).
  assert (Lw : Z.of_nat (length (take (Z.to_nat w) data)) = w) by (rewrite length_take; pose proof (sc_len _ _ _ _ Hsrc); lia).
  apply wp_bind, (wp_iat ip i1); [apply Hu1|]. cbn [i1 set_d i_d]. pose proof (fl_self _ _ _ _ _ _ _ _ Fl) as Eself.
  assert (Esz : d_size (I1 k) = d_size (I k)) by (by rewrite Eself). rewrite Esz.
  set (d := set_size (Z.max (d_size (I k)) (off + w)) (I1 k)). set (i2 := set_d d i).
  assert (Inv2 : fs_inv (fs_sb s) (tv_cur t1) (fput I1 k d)).
  { pose proof (fi_inode _ _ _ (fl_inv _ _ _ _ _ _ _ _ Fl) k Hi) as [D1 D2 D3 D4 D5 D6 D7]. pose proof (fi_size _ _ _ (fa_inv _ _ _ A) k Hi).
    apply inv_fields; [apply Fl|done| | |]; unfold d; cbn [set_size d_size d_type]; [constructor; try done; cbn [set_size d_size]; consts; lia|consts; lia|].
    intros E p. rewrite Eself in E. done. }
  assert (Hset : forall (Q : unit -> fss -> Prop), Q tt (with_inodes (zset (fs_inodes s) ip i2) s1) ->
    wp (if d_size (I k) <? off + w then mod_inode ip (fun i => set_d (set_size (off + w) (i_d i)) i) else ret tt) Q s1).
  { intros Q HQ. destruct (Z.ltb_spec (d_size (I k)) (off + w)).
    - apply (wp_mod_inode ip _ i1); [apply Hu1|]. rewrite Es at 1. cbn [with_inodes with_tx fs_inodes]. rewrite zset_zset.
      replace (set_d (set_size (off + w) (i_d i1)) i1) with i2; [done|]. unfold i2, d, i1. by rewrite Z.max_r by lia.
    - apply wp_ret. replace (with_inodes (zset (fs_inodes s) ip i2) s1) with s1 in HQ; [done|]. rewrite Es. unfold with_inodes, with_tx. cbn [fs_tx fs_user fs_sb fs_cwd].
      replace i2 with (set_d (I1 k) i); [done|]. unfold i2, d. rewrite Z.max_l by lia. rewrite <- Esz. by destruct (I1 k). }
  apply wp_bind, Hset. set (s2 := with_inodes _ s1).
  assert (Esb : fs_sb s2 = fs_sb s) by (unfold s2; by rewrite Es).
  assert (A2 : fs_at s2 t1 (fput I1 k d)).
  { constructor; [apply tx_inodes, A1|by rewrite Esb|]. rewrite Esb. unfold s2. cbn [with_inodes fs_inodes].
    pose proof (itab_set_d _ _ _ _ ip i1 d (fa_tab _ _ _ A1) Hu1) as Ht. change (i_inum i1) with k in Ht. rewrite Es in Ht. cbn [with_inodes with_tx fs_inodes fs_sb] in Ht.
    by rewrite zset_zset in Ht. }
  destruct (ev_fields _ _ _ _ Ev) as (_ & _ & Eh & _).
  apply wp_bind, (iupdate_spec B 0 ip i2 s2 t1 (fput I1 k d)); [done| |by rewrite Eh| |left; by rewrite Esb|].
  { apply in_use_set_d. apply Hu. }
  { apply (room_evolves B (2 * span off n) 0 t); [by rewrite Z.add_0_r|done|done]. }
  change (i_inum i2) with k. rewrite Esb. intros y t3 A3 Ev3 EF. apply wp_ret. rewrite fput_eq in EF. rewrite i32_small by (consts; lia).
  exists t3, (fput I1 k d). split_and!; [done|eapply evolves_trans; [exact Ev|exact Ev3|lia]|lia|lia| | |].
  - rewrite EF. fold k. apply wrote_intro; rewrite ?Lw; try done; lia.
  - exists y. fold k. rewrite fput_eq. unfold s2. rewrite Es. done.
  - intros Hlt. destruct (Hfull Hlt) as [Hall Hcut]. split; [|done]. intros b Hb. specialize (Hall b Hb). rewrite <- Hall, EF. apply used_agree. apply bupd_ne.
    pose proof (BBLOCK_range _ b (fi_sb _ _ _ Inv2) Hb). pose proof (IBLOCK_range _ k (fi_sb _ _ _ Inv2) Hi). lia.
Qed.

(** The requests [writei] refuses. *)
Lemma writei_refuses ip i s src off n : znth (fs_inodes s) ip = Some i -> 0 <= off < 2 ^ 32 -> 0 <= n < 2 ^ 32 ->
  d_size (i_d i) < off \/ MAXFILE * BSIZE < off + n -> writei ip src off n s = Done (-1) s.
Proof.
  intros Hi Hoff Hn Hc. assert (H : wp (writei ip src off n) (fun r s' => r = -1 /\ s' = s) s).
  { unfold writei. apply wp_bind, (wp_iat ip i); [done|]. destruct (Z.ltb_spec (d_size (i_d i)) off); [by apply wp_ret|]. cbn [orb].
    destruct Hc as [|Hc]; [lia|]. destruct (Z.ltb_spec (u32 (off + n)) off) as [|Hge]; [by apply wp_ret|].
    assert (Hs : u32 (off + n) = off + n).
    { unfold u32 in *. destruct (Z_lt_le_dec (off + n) (2 ^ 32)); [apply Z.mod_small; lia|].
      rewrite <- (Z.mod_unique (off + n) (2 ^ 32) 1 (off + n - 2 ^ 32)) in Hge by lia. lia. }
    rewrite Hs. destruct (Z.ltb_spec (MAXFILE * BSIZE) (off + n)); [by apply wp_ret|lia]. }
  apply wp_Done in H as (a & s' & H & -> & ->). done.
Qed.
End writei.
