(* ===== verification/FsTrunc.v ===== *)
(** * Emptying files: [bfree], [itrunc]

    [itrunc] frees every block of an inode, those of the indirect block and the
    indirect block itself included, and never frees a block twice. *)

From stdpp Require Import base numbers list gmap strings.
From Stdlib Require Import ZArith Lia.
From S2P Require Import Prelude Blocks Monad Codec Mem UserMem Bio BioCache Log LogCrash Txn Fs FsImage FsInv FsAlloc FsRead FsWritei.
Open Scope Z_scope.

(** ** Pure changes *)

(** [F'] is [F] with the blocks of [S] marked as free. *)
Record freed (sb : superblock) (F : blocks) (S : list Z) (F' : blocks) : Prop := {
  fr_same : forall n, ~ (sb_bmapstart sb <= n < datastart sb) -> F' n = F n;
  fr_wf : forall n, sb_bmapstart sb <= n < datastart sb -> wf_block (F' n);
  fr_used : forall b, 0 <= b < sb_size sb -> used sb F' b = true <-> used sb F b = true /\ b ∉ S;
}.

Lemma freed_refl sb F : (forall n, sb_bmapstart sb <= n < datastart sb -> wf_block (F n)) -> freed sb F [] F.
Proof. intros Hw. constructor; try done. intros b Hb. set_solver. Qed.
Lemma freed_step sb F S F' b : sb_ok sb -> freed sb F S F' -> 0 <= b < sb_size sb -> freed sb F (S ++ [b]) (unmark sb F' b).
Proof.
  intros Hsb [H1 H2 H3] Hb. pose proof (BBLOCK_range sb b Hsb Hb) as Hbb. constructor.
  - intros n Hn. unfold unmark. rewrite bupd_ne by lia. by apply H1.
  - intros n Hn. unfold unmark, bupd. case_decide; [apply bit_clear_wf|]; apply H2; lia.
  - intros k Hk. rewrite used_unmark by (by apply H2). rewrite andb_true_iff, negb_true_iff, Z.eqb_neq, H3 by done. set_solver.
Qed.

(** The addresses of a list that are in use. *)
Definition nonzero (l : list Z) : list Z := filter (fun a => a <> 0) l.

Definition ind_entries (F : blocks) (d : dinode) (k : Z) : list Z := map (fun j => get_uint (F (daddr d NDIRECT)) j) (range 0 k).
(** All blocks of an inode. *)
Definition all_slots (F : blocks) (d : dinode) : list Z :=
  nonzero (map (daddr d) (range 0 NDIRECT)) ++
  (if daddr d NDIRECT =? 0 then [] else nonzero (ind_entries F d NINDIRECT) ++ [daddr d NDIRECT]).

Lemma elem_nonzero (f : Z -> Z) lo hi b : b ∈ nonzero (map f (range lo hi)) <-> b <> 0 /\ exists p, lo <= p < hi /\ f p = b.
Proof.
  unfold nonzero. rewrite list_elem_of_filter, list_elem_of_fmap. setoid_rewrite elem_of_range. naive_solver.
Qed.
Lemma elem_all_slots F d b : b ∈ all_slots F d <-> b <> 0 /\ exists p, 0 <= p < NSLOT /\ slot F d p = b.
Proof.
  unfold all_slots. rewrite elem_of_app, elem_nonzero. unfold slot, NSLOT. consts. split.
  - intros [(Hb & p & Hp & E)|Hin].
    + split; [done|]. exists p. split; [lia|]. by destruct (Z.ltb_spec p 13); [|lia].
    + destruct (Z.eqb_spec (daddr d 12) 0) as [|Hne]; [set_solver|]. apply elem_of_app in Hin as [Hin|Hin].
      * unfold ind_entries in Hin. apply elem_nonzero in Hin as (Hb & p & Hp & E). split; [done|]. exists (p + 13). split; [lia|].
        destruct (Z.ltb_spec (p + 13) 13); [lia|]. by replace (p + 13 - 13) with p by lia.
      * apply list_elem_of_singleton in Hin as ->. split; [done|]. exists 12. split; [lia|done].
  - intros (Hb & p & Hp & E). destruct (Z.ltb_spec p 13) as [Hlt|Hge].
    + destruct (Z.eq_dec p 12) as [->|]; [right|left; split; [done|]; exists p; split; [lia|done]].
      destruct (Z.eqb_spec (daddr d 12) 0); [congruence|]. apply elem_of_app. right. by apply list_elem_of_singleton.
    + destruct (Z.eqb_spec (daddr d 12) 0) as [|Hne]; [congruence|]. right. apply elem_of_app. left. unfold ind_entries. apply elem_nonzero.
      split; [done|]. exists (p - 13). split; [lia|done].
Qed.

Definition empty_inode (d : dinode) : dinode := set_size 0 (set_addrs (replicate 13 0) d).

Lemma empty_ok d : dinode_ok d -> dinode_ok (empty_inode d).
Proof.
  intros [H1 H2 H3 H4 H5 H6 H7]. constructor; cbn [empty_inode set_size set_addrs d_type d_major d_minor d_nlink d_size d_addrs]; try done.
  apply Forall_replicate. lia.
Qed.
Lemma daddr_empty d p : daddr (empty_inode d) p = 0.
Proof.
  unfold daddr. cbn [empty_inode set_size set_addrs d_addrs]. rewrite nth_lookup.
  destruct (replicate 13 0 !! Z.to_nat p) eqn:E; [by apply lookup_replicate in E as [-> _]|done].
Qed.
Lemma slot_empty F d p : slot F (empty_inode d) p = 0.
Proof. unfold slot. rewrite !daddr_empty. by destruct (p <? 13). Qed.

Lemma inv_trunc sb F I n F' : fs_inv sb F I -> 0 <= n < sb_ninodes sb -> freed sb F (all_slots F (I n)) F' ->
  fs_inv sb F' (fput I n (empty_inode (I n))).
Proof.
  intros Inv Hn [H1 H2 H3]. pose proof (inv_order _ _ _ Inv) as Hord. constructor.
  - apply Inv.
  - intros k Hk. destruct (decide (sb_bmapstart sb <= k < datastart sb)); [by apply H2|]. rewrite H1 by done. by apply Inv.
  - intros i Hi. unfold fput. case_decide; [apply empty_ok|]; by apply Inv.
  - intros i Hi. unfold fput. case_decide; [done|]. by apply Inv.
  - intros i p Hi. unfold fput. case_decide; [intros _; apply daddr_empty|]. by apply Inv.
  - apply (owned_free sb _ _ _ _ n (fi_owned _ _ _ Inv)); [done|lia| | |lia].
    + intros j q [Hj Hq]. unfold fput. case_decide; [apply slot_empty|]. apply slot_agree. intros Hne. destruct (ind_data _ _ _ Inv j Hj Hne). apply H1. lia.
    + intros b Hb. rewrite H3 by done. rewrite elem_all_slots. naive_solver.
  - rewrite H1 by lia. apply Inv.
Qed.
Lemma trunc_blk sb F I n F' j bn : fs_inv sb F I -> 0 <= j < sb_ninodes sb -> 0 <= bn < MAXFILE -> freed sb F (all_slots F (I n)) F' ->
  slot F' (I j) (fslot bn) = slot F (I j) (fslot bn) /\ fblk F' (I j) bn = fblk F (I j) bn.
Proof.
  intros Inv Hj Hb [H1 _ _]. pose proof (inv_order _ _ _ Inv) as Hord.
  assert (E : slot F' (I j) (fslot bn) = slot F (I j) (fslot bn)) by (apply slot_agree; intros Hne; destruct (ind_data _ _ _ Inv j Hj Hne); apply H1; lia).
  split; [done|]. unfold fblk. rewrite E. destruct (Z.eqb_spec (slot F (I j) (fslot bn)) 0) as [|Hne]; [done|].
  destruct (slot_data _ _ _ Inv j _ (fslot_place sb j bn Hj Hb) Hne). apply H1. lia.
Qed.

(** ** Running them *)

Lemma nonzero_snoc (f : Z -> Z) i : 0 <= i ->
  nonzero (map f (range 0 (i + 1))) = nonzero (map f (range 0 i)) ++ (if f i =? 0 then [] else [f i]).
Proof.
  intros Hi. rewrite range_snoc by lia. replace (i + 1 - 1) with i by lia. rewrite map_app. unfold nonzero. rewrite filter_app. f_equal.
  cbn [map]. rewrite filter_cons, filter_nil. destruct (Z.eqb_spec (f i) 0); [by rewrite decide_False by (intros H; by apply H)|by rewrite decide_True].
Qed.

(** The first [i] addresses cleared. *)
Definition cleared (d : dinode) (i : Z) : list Z := replicate (Z.to_nat i) 0 ++ drop (Z.to_nat i) (d_addrs d).

Lemma cleared_at d i : length (d_addrs d) = 13%nat -> 0 <= i < 13 -> znth (cleared d i) i = Some (daddr d i).
Proof.
  intros Hl Hi. unfold znth, cleared, daddr. destruct (Z.ltb_spec i 0); [lia|]. rewrite lookup_app_r by (rewrite length_replicate; lia).
  rewrite length_replicate, Nat.sub_diag, lookup_drop, Nat.add_0_r, nth_lookup.
  destruct (lookup_lt_is_Some_2 (d_addrs d) (Z.to_nat i)) as [a Ha]; [lia|]. by rewrite Ha.
Qed.
Lemma cleared_S d i : length (d_addrs d) = 13%nat -> 0 <= i < 13 -> zset (cleared d i) i 0 = cleared d (i + 1).
Proof.
  intros Hl Hi. unfold zset, cleared. destruct (Z.ltb_spec i 0); [lia|]. replace (Z.to_nat (i + 1)) with (S (Z.to_nat i)) by lia.
  rewrite <- (length_replicate (Z.to_nat i) 0) at 1. rewrite <- (Nat.add_0_r (length (replicate (Z.to_nat i) 0))), insert_app_r.
  destruct (lookup_lt_is_Some_2 (d_addrs d) (Z.to_nat i)) as [a Ha]; [lia|]. rewrite (drop_S _ a) by done. cbn [insert list_insert].
  rewrite replicate_S_end, <- app_assoc. done.
Qed.
Lemma cleared_0 d i : length (d_addrs d) = 13%nat -> 0 <= i < 13 -> daddr d i = 0 -> cleared d (i + 1) = cleared d i.
Proof. intros Hl Hi H0. rewrite <- cleared_S by done. apply zset_id. rewrite cleared_at by done. by rewrite H0. Qed.

Section trunc.
Context {T U : Type} {TX : Transactions T} {TXok : TransactionsOK T} {UM : UserMemory U} {UMok : UserMemoryOK U}.
Abbreviation fss := (fsst T U).
Implicit Types (s : fss) (t : tview) (I : Z -> dinode).

Lemma bfree_spec B s t b (Q : unit -> fss -> Prop) : tx_at s t -> sb_ok (fs_sb s) -> has_map (fs_sb s) B -> room B 0 t ->
  0 <= b < sb_size (fs_sb s) -> used (fs_sb s) (tv_cur t) b = true -> (size (tv_held t) <= 1)%nat -> tv_held t !! BBLOCK b (fs_sb s) = None ->
  (forall x t', t_shows x t' -> evolves B 0 t t' -> tv_cur t' = unmark (fs_sb s) (tv_cur t) b -> Q tt (with_tx x s)) -> wp (bfree b) Q s.
Proof.
  intros Ht Hsb HB Hr Hb Hu Hsz Hh HQ. unfold bfree, the_sb. apply wp_bind, wp_gets. set (sb := fs_sb s) in *.
  pose proof (BBLOCK_range sb b Hsb Hb) as Hbb. pose proof (sb_order sb Hsb). pose proof (so_data sb Hsb).
  assert (Hrd : readable (BBLOCK b sb) t) by (apply (fs_readable B 0 _ s); try done; fold sb; lia).
  apply (wp_tget (BBLOCK b sb) t); [apply Ht|done|]. intros bp x Hx. cbv zeta. rewrite bit_free_bit. unfold used in Hu. rewrite Hu. cbn [negb].
  apply (wp_modified' B 0 (BBLOCK b sb) bp _ t); [done|done|done|lia|]. intros y Hy. apply (HQ y _ Hy); [|done].
  apply evolves_n; [left; by apply HB|done].
Qed.

(** The state while [itrunc] works on the inode at [ip]: [S] is free already and
    the addresses of the inode are [l]. *)
Definition truncating (B : gset Z) s0 t0 ip (i : inode) (h : gmap Z Z) (l S : list Z) (s : fss) : Prop :=
  exists x t, s = with_inodes (zset (fs_inodes s0) ip (set_d (set_addrs l (i_d i)) i)) (with_tx x s0) /\ t_shows x t /\
    tv_held t = h /\ evolves B 0 t0 (with_held (tv_held t0) t) /\ freed (fs_sb s0) (tv_cur t0) S (tv_cur t).

Section run.
Variables (B : gset Z) (s0 : fss) (t0 : tview) (I : Z -> dinode) (ip : Z) (i : inode).
Hypothesis A : fs_at s0 t0 I.
Hypothesis Hu : in_use (fs_inodes s0) ip i.
Hypothesis Hh : tv_held t0 = ∅.
Hypothesis Hr : room B 0 t0.
Hypothesis HB : has_map (fs_sb s0) B.
Let sb := fs_sb s0.
Let n := i_inum i.
Let d := I n.
Let F := tv_cur t0.
Abbreviation truncs := (truncating B s0 t0 ip i).

Let Inv : fs_inv sb F I := fa_inv _ _ _ A.
Lemma trunc_facts : 0 <= n < sb_ninodes sb /\ i_d i = d /\ length (d_addrs d) = 13%nat.
Proof.
  destruct (in_use_facts _ _ _ _ _ A Hu) as (_ & Hn & Ed). split_and!; [apply Hn|apply Hn|done|]. apply (fi_inode _ _ _ Inv), Hn.
Qed.

Lemma trunc_tx h l S s : truncs h l S s -> exists t, tx_at s t /\ tv_held t = h /\ room B 0 t /\ freed sb F S (tv_cur t) /\
  evolves B 0 t0 (with_held (tv_held t0) t) /\ fs_sb s = sb /\ znth (fs_inodes s) ip = Some (set_d (set_addrs l (i_d i)) i) /\
  (forall x t', t_shows x t' -> evolves B 0 t t' -> forall S', freed sb F S' (tv_cur t') -> truncs h l S' (with_tx x s)).
Proof.
  intros (x & t & -> & Hx & Eh & Ev & Fr). exists t. destruct (fa_tx _ _ _ A) as [T1 T2 T3]. destruct (ev_fields _ _ _ _ Ev) as (E1 & E2 & _).
  cbn [with_held tv_nlog tv_start] in E1, E2. split_and!; try done.
  - constructor; [done| |]; cbn [with_inodes with_tx fs_sb]; by rewrite ?E1, ?E2.
  - pose proof (room_evolves B 0 0 t0 _ Hr Ev ltac:(done)) as R. apply (room_held _ _ _ (tv_held t)) in R. by destruct t.
  - cbn [with_inodes fs_inodes]. apply znth_zset_eq. by apply (znth_Some_lt _ _ i), Hu.
  - intros y t' Hy Ev' S' Fr'. destruct (ev_fields _ _ _ _ Ev') as (_ & _ & E3 & _). exists y, t'. split_and!; [done|done|by rewrite E3| |done].
    apply (evolves_trans B 0 0 0 _ _ _ Ev); [|lia]. destruct Ev' as [V1 V2 V3]. constructor; [|done|done]. rewrite V1 at 1. done.
Qed.

(** The blocks of the inode are data blocks in use. *)
Lemma slot_used p : 0 <= p < NSLOT -> slot F d p <> 0 -> datastart sb <= slot F d p < sb_size sb /\ used sb F (slot F d p) = true.
Proof. intros Hp. destruct trunc_facts as (Hn & _ & _). by apply (slot_data sb F I Inv n p). Qed.

Lemma trunc_bfree h l S s b : truncs h l S s -> datastart sb <= b < sb_size sb -> used sb F b = true -> b ∉ S -> (size h <= 1)%nat ->
  (forall k, is_Some (h !! k) -> datastart sb <= k) -> wp (bfree b) (fun _ => truncs h l (S ++ [b])) s.
Proof.
  intros Ht Hb Hub HS Hsz Hk. pose proof (inv_order _ _ _ Inv) as Hord. destruct (trunc_tx _ _ _ _ Ht) as (t & Htx & Eh & Hrt & Fr & Ev & Esb & _ & Hnext).
  apply (bfree_spec B s t b); rewrite ?Esb; try done; [apply Inv|lia| |by rewrite Eh| |].
  - by apply (fr_used _ _ _ _ Fr); [lia|].
  - rewrite Eh. destruct (h !! BBLOCK b sb) eqn:E; [|done]. pose proof (Hk _ (mk_is_Some _ _ E)).
    pose proof (BBLOCK_range sb b (fi_sb _ _ _ Inv) ltac:(lia)). lia.
  - intros x t' Hx Ev' EF. apply (Hnext x t'); [done|done|]. rewrite EF. apply freed_step; [apply Inv|done|lia].
Qed.

Lemma trunc_addr h l S s k a (Q : Z -> fss -> Prop) : truncs h l S s -> znth l k = Some a -> Q a s -> wp (addr_at ip k) Q s.
Proof.
  intros Ht Hk HQ. destruct (trunc_tx _ _ _ _ Ht) as (t & _ & _ & _ & _ & _ & _ & Hi & _). unfold addr_at. apply wp_bind, (wp_iat ip _ _ _ Hi).
  by apply (wp_deref _ a).
Qed.
Lemma trunc_set h l S s k : truncs h l S s -> wp (set_addr ip k 0) (fun _ => truncs h (zset l k 0) S) s.
Proof.
  intros Ht. destruct (trunc_tx _ _ _ _ Ht) as (t & _ & _ & _ & _ & _ & _ & Hi & _). unfold set_addr. apply (wp_mod_inode ip _ _ _ _ Hi).
  destruct Ht as (x & t' & -> & Hx & Eh & Ev & Fr). exists x, t'. split_and!; try done. unfold with_inodes. cbn [fs_inodes with_inodes]. by rewrite zset_zset.
Qed.

(** The direct blocks. *)
Lemma trunc_direct s : truncs ∅ (cleared d 0) [] s ->
  wp (forM (range 0 NDIRECT) (fun k => let! a := addr_at ip k in if a =? 0 then ret tt else bfree a;; set_addr ip k 0))
    (fun _ => truncs ∅ (cleared d NDIRECT) (nonzero (map (daddr d) (range 0 NDIRECT)))) s.
Proof.
  intros Ht. destruct trunc_facts as (Hn & Ed & Hl). apply (wp_forM (fun k => truncs ∅ (cleared d k) (nonzero (map (daddr d) (range 0 k))))).
  - done.
  - done.
  - intros k s' Hk Ht'. apply wp_bind, (trunc_addr _ _ _ _ k (daddr d k) _ Ht'); [apply cleared_at; [done|consts; lia]|].
    rewrite nonzero_snoc by lia. destruct (Z.eqb_spec (daddr d k) 0) as [H0|H0].
    + apply wp_ret. rewrite app_nil_r, cleared_0; [done|done|consts; lia|done].
    + assert (Es : slot F d k = daddr d k) by (unfold slot; destruct (Z.ltb_spec k 13); [done|consts; lia]).
      assert (Hks : 0 <= k < NSLOT) by (unfold NSLOT; consts; lia).
      destruct (slot_used k) as [Hb Hub]; [done|by rewrite Es|]. rewrite Es in Hb, Hub.
      apply wp_bind. eapply wp_mono; [apply (trunc_bfree _ _ _ _ (daddr d k) Ht'); try done|].
      * rewrite elem_nonzero. intros (_ & p & Hp & E). assert (Hps : 0 <= p < NSLOT) by lia.
        assert (Es' : slot F d p = daddr d p) by (unfold slot; destruct (Z.ltb_spec p 13); [done|consts; lia]).
        destruct (slot_inj sb F I Inv n p n k) as [_ E2]; try done; [unfold d in *; fold F; congruence|fold d; rewrite Es'; lia|]. lia.
      * rewrite map_size_empty. lia.
      * by intros j [? ?].
      * intros [] s2 H2. eapply wp_mono; [apply (trunc_set _ _ _ _ k H2)|]. intros [] s3 H3. by rewrite cleared_S in H3 by (done || consts; lia).
  - done.
Qed.

(** The entries of the indirect block. *)
Lemma trunc_entries s bp S : let a := daddr d NDIRECT in a <> 0 -> truncs {[a := bp]} (cleared d NDIRECT) S s ->
  (forall k, 0 <= k < NINDIRECT -> slot F d (k + 13) <> 0 -> slot F d (k + 13) ∉ S) ->
  wp (forM (range 0 NINDIRECT) (fun j => let! x := bdata bp in if get_uint x j =? 0 then ret tt else bfree (get_uint x j)))
    (fun _ => truncs {[a := bp]} (cleared d NDIRECT) (S ++ nonzero (ind_entries F d NINDIRECT))) s.
Proof.
  intros a' Ha Ht HS. destruct trunc_facts as (Hn & Ed & Hl). destruct (slot_used NDIRECT) as [Hda _]; [done|done|]. rewrite slot_12 in Hda. fold a' in Hda.
  pose proof (inv_order _ _ _ Inv) as Hord.
  assert (Es : forall k, 0 <= k < NINDIRECT -> slot F d (k + 13) = get_uint (F a') k).
  { intros k Hk. unfold slot. destruct (Z.ltb_spec (k + 13) 13); [lia|]. fold a'. destruct (Z.eqb_spec a' 0); [done|]. f_equal. lia. }
  apply (wp_forM (fun k => truncs {[a' := bp]} (cleared d NDIRECT) (S ++ nonzero (ind_entries F d k)))).
  - done.
  - unfold ind_entries. rewrite range_nil by lia. cbn [map]. unfold nonzero. rewrite filter_nil, app_nil_r. done.
  - intros k s' Hk Ht'. destruct (trunc_tx _ _ _ _ Ht') as (t & Htx & Eh & _ & Fr & _ & _ & _ & _).
    apply wp_bind, (wp_bdata a' bp t); [apply Htx|rewrite Eh; apply lookup_singleton_eq|]. rewrite (fr_same _ _ _ _ Fr) by lia. fold F.
    unfold ind_entries. rewrite nonzero_snoc, app_assoc by lia. fold (ind_entries F d k). fold a'. cbv beta.
    destruct (Z.eqb_spec (get_uint (F a') k) 0) as [H0|H0]; [apply wp_ret; by rewrite app_nil_r|].
    assert (Hks : 0 <= k + 13 < NSLOT) by (unfold NSLOT; consts; lia). rewrite <- Es in * by done.
    destruct (slot_used (k + 13) Hks H0) as [Hb Hub]. apply (trunc_bfree _ _ _ _ _ Ht'); try done.
    + rewrite not_elem_of_app. split; [by apply HS|]. unfold ind_entries. rewrite elem_nonzero. fold a'. intros (_ & p & Hp & E).
      rewrite <- Es in E by lia. destruct (slot_inj sb F I Inv n (p + 13) n (k + 13)) as [_ E2]; try done; [unfold place, NSLOT; consts; lia|fold d; congruence|]. lia.
    + rewrite map_size_singleton. lia.
    + intros j [b [<- _]%lookup_singleton_Some]. lia.
  - done.
Qed.

(** The indirect block and its entries. *)
Lemma trunc_indirect s : let a := daddr d NDIRECT in a <> 0 ->
  truncs ∅ (cleared d NDIRECT) (nonzero (map (daddr d) (range 0 NDIRECT))) s ->
  wp (let! bp := bread a in
      forM (range 0 NINDIRECT) (fun j => let! x := bdata bp in if get_uint x j =? 0 then ret tt else bfree (get_uint x j));;
      brel bp;; bfree a;; set_addr ip NDIRECT 0) (fun _ => truncs ∅ (cleared d 13) (all_slots F d)) s.
Proof.
  intros a Ha Ht. set (S := nonzero _) in *. destruct trunc_facts as (Hn & Ed & Hl). destruct (slot_used NDIRECT) as [Hda Hua]; [done|done|]. rewrite slot_12 in Hda, Hua. fold a in Hda, Hua.
  pose proof (inv_order _ _ _ Inv) as Hord. destruct (trunc_tx _ _ _ _ Ht) as (t & Htx & Eh & Hrt & Fr & Ev & Esb & _ & _).
  assert (HSd : forall p, 12 <= p < NSLOT -> slot F d p <> 0 -> slot F d p ∉ S).
  { intros p Hp Hne. unfold S. rewrite elem_nonzero. intros (_ & q & Hq & E). assert (Eq : slot F d q = daddr d q) by (unfold slot; destruct (Z.ltb_spec q 13); [done|consts; lia]).
    destruct (slot_inj sb F I Inv n q n p) as [_ E2]; try done; [unfold place, NSLOT; consts; lia|unfold place, NSLOT in *; lia|fold d; congruence|fold d; congruence|]. consts. lia. }
  assert (Hrd : readable a t) by (apply (fs_readable B 0 _ s); rewrite ?Esb, ?Eh; try done; [apply Inv|lia|rewrite map_size_empty; lia]).
  apply wp_bind, (wp_bread a t); [apply Htx|done|]. intros bp x Hx. apply wp_bind.
  eapply wp_mono; [apply (trunc_entries _ bp S Ha)|].
  { destruct Ht as (x0 & t1 & -> & Hx1 & Eh1 & Ev1 & Fr1). pose proof (ta_shows _ _ Htx) as Hs. exists x, (holding a bp t). split_and!; [done|done| | |].
    - cbn [holding with_held tv_held]. by rewrite Eh.
    - destruct Ev as [V1 V2 V3]. by constructor.
    - done. }
  { intros k Hk Hne. apply HSd; [unfold NSLOT; consts; lia|done]. }
  fold a. intros [] s1 (x1 & t1 & -> & Hx1 & Eh1 & Ev1 & Fr1). apply wp_bind.
  apply (wp_brel a bp t1); [done|rewrite Eh1; apply lookup_singleton_eq| |].
  { rewrite (fr_same _ _ _ _ Fr1) by (fold sb; lia). destruct (clean_or_logged (fs_tx s0) a t0) as [Hc|Hc]; [apply A|apply (data_readable a s0 t0 I A Hh); fold sb; lia| |].
    - left. by apply (ev_sub _ _ _ _ Ev1 a).
    - right. destruct (ev_fields _ _ _ _ Ev1) as (_ & _ & _ & _ & E & _). cbn [with_held tv_committed] in E. by rewrite E. }
  intros x2 Hx2. rewrite Eh1, delete_singleton_eq in Hx2.
  assert (Ht2 : truncs ∅ (cleared d NDIRECT) (S ++ nonzero (ind_entries F d NINDIRECT)) (with_tx x2 (with_inodes (zset (fs_inodes s0) ip (set_d (set_addrs (cleared d NDIRECT) (i_d i)) i)) (with_tx x1 s0)))).
  { exists x2, (with_held ∅ t1). split_and!; [done|done|done| |done]. destruct Ev1 as [V1 V2 V3]. by constructor. }
  apply wp_bind. eapply wp_mono; [apply (trunc_bfree _ _ _ _ a Ht2); try done|].
  - rewrite not_elem_of_app. split; [apply (HSd NDIRECT); [unfold NSLOT; consts; lia|done]|]. unfold ind_entries. rewrite elem_nonzero. fold a. intros (_ & k & Hk & E).
    assert (Es : slot F d (k + 13) = a). { unfold slot. destruct (Z.ltb_spec (k + 13) 13); [lia|]. fold a. destruct (Z.eqb_spec a 0); [done|]. by replace (k + 13 - 13) with k by lia. }
    destruct (slot_inj sb F I Inv n (k + 13) n NDIRECT) as [_ E2]; try done; [unfold place, NSLOT; consts; lia|fold d; congruence|]. consts. lia.
  - rewrite map_size_empty. lia.
  - by intros k [? ?].
  - intros [] s2 H2. eapply wp_mono; [apply (trunc_set _ _ _ _ NDIRECT H2)|]. intros [] s3 H3. rewrite cleared_S in H3 by (done || consts; lia).
    unfold all_slots. fold S. fold a. destruct (Z.eqb_spec a 0); [done|]. rewrite app_assoc. exact H3.
Qed.
End run.

(** The effect on the rest of the file system. *)
Record others_same (sb : superblock) (n : Z) (F : blocks) (I : Z -> dinode) (F' : blocks) (I' : Z -> dinode) : Prop := {
  os_inode : forall j, j <> n -> I' j = I j;
  os_blk : forall j bn, j <> n -> 0 <= j < sb_ninodes sb -> 0 <= bn < MAXFILE -> fblk F' (I j) bn = fblk F (I j) bn;
  os_slot : forall j p, j <> n -> place sb j p -> slot F' (I j) p = slot F (I j) p;
  os_disk : forall m, m <> n -> 0 <= m < sb_ninodes sb -> disk_inode sb F' m = disk_inode sb F m;
}.

Lemma itrunc_spec B ip i s t I (Q : unit -> fss -> Prop) : fs_at s t I -> in_use (fs_inodes s) ip i -> tv_held t = ∅ -> room B 0 t -> has_map (fs_sb s) B ->
  IBLOCK (i_inum i) (fs_sb s) ∈ B ->
  (forall x t', let n := i_inum i in let d := empty_inode (I n) in let s' := with_inodes (zset (fs_inodes s) ip (set_d d i)) (with_tx x s) in
    fs_at s' t' (fput I n d) -> evolves B 0 t t' -> others_same (fs_sb s) n (tv_cur t) I (tv_cur t') (fput I n d) ->
    disk_inode (fs_sb s) (tv_cur t') n = d -> Q tt s') ->
  wp (itrunc ip) Q s.
Proof.
  intros A Hu Hh Hr HB HI HQ. destruct (in_use_facts _ _ _ _ _ A Hu) as (_ & Hn & Ed). pose proof (fa_inv _ _ _ A) as Inv. pose proof (inv_order _ _ _ Inv) as Hord.
  set (n := i_inum i) in *. set (d := I n) in *. pose proof (do_len _ (fi_inode _ _ _ Inv n Hn)) as Hl. fold d in Hl.
  assert (H0 : truncating B s t ip i ∅ (cleared d 0) [] s).
  { exists (fs_tx s), t. split_and!; [|apply A|done|by destruct t; apply evolves_refl|apply freed_refl; intros; apply Inv; lia].
    unfold cleared. cbn [replicate app drop]. change (Z.to_nat 0) with 0%nat. rewrite Ed. unfold drop. cbn [replicate app].
    replace (set_addrs (d_addrs d) d) with (i_d i) by (rewrite Ed; by destruct d). rewrite (same_entry s ip i Hu). by destruct s. }
  unfold itrunc. apply wp_bind. eapply wp_mono; [by apply (trunc_direct B s t I ip i A Hu Hr HB s H0)|]. intros [] s1 H1. fold n d in H1.
  apply wp_bind, (trunc_addr B s t I ip i A Hu Hr _ _ _ _ NDIRECT (daddr d NDIRECT) _ H1); [apply cleared_at; [done|consts; lia]|].
  apply wp_bind. eapply wp_mono with (Q := fun _ => truncating B s t ip i ∅ (cleared d 13) (all_slots (tv_cur t) d)).
  { destruct (Z.eqb_spec (daddr d NDIRECT) 0) as [E0|E0].
    - apply wp_ret. unfold all_slots. rewrite E0. cbn [Z.eqb]. rewrite app_nil_r. change 13 with (NDIRECT + 1). by rewrite cleared_0 by (done || consts; lia).
    - by apply (trunc_indirect B s t I ip i A Hu Hh Hr HB). }
  intros [] s2 (x & t2 & -> & Hx & Eh & Ev & Fr). set (F' := tv_cur t2) in *.
  assert (Ec : cleared d 13 = replicate 13 0). { unfold cleared. rewrite drop_ge by (rewrite Hl; done). apply app_nil_r. }
  apply wp_bind, (wp_mod_inode ip _ (set_d (set_addrs (cleared d 13) (i_d i)) i)).
  { cbn [with_inodes fs_inodes]. apply znth_zset_eq. by apply (znth_Some_lt _ _ i), Hu. }
  cbn [with_inodes fs_inodes set_d i_d]. rewrite zset_zset, Ec, Ed. change (set_size 0 (set_addrs (replicate 13 0) d)) with (empty_inode d).
  set (e := empty_inode d) in *. set (i2 := set_d e i). pose proof (inv_trunc _ _ _ n F' Inv Hn Fr) as Inv2. fold d e in Inv2.
  assert (Eh' : with_held (tv_held t) t2 = t2) by (rewrite Hh, <- Eh; by destruct t2). rewrite Eh' in Ev.
  assert (A2 : fs_at (with_inodes (zset (fs_inodes s) ip i2) (with_tx x s)) t2 (fput I n e)).
  { constructor; [apply tx_inodes; eapply tx_evolves; [apply A|exact Ev|done]|done|]. cbn [with_inodes fs_sb fs_inodes with_tx].
    apply (itab_frame _ _ (tv_cur t)); [by apply (itab_set_d _ _ _ _ ip i); [apply A|]|]. apply disk_inode_agree; [apply Inv|]. intros k Hk. apply (fr_same _ _ _ _ Fr). lia. }
  apply (iupdate_spec B 0 ip i2 (with_inodes (zset (fs_inodes s) ip i2) (with_tx x s)) t2 (fput I n e)); [done|by apply in_use_set_d|done|by apply (room_evolves B 0 0 t)|by left|].
  change (i_inum i2) with n. cbn [with_inodes with_tx fs_sb]. rewrite fput_eq. intros y t3 A3 Ev3 EF.
  pose proof (IBLOCK_range _ n (fi_sb _ _ _ Inv) Hn) as Hib. assert (Hwf : wf_block (F' (IBLOCK n (fs_sb s)))) by (apply Inv2; lia).
  assert (Hok : dinode_ok e) by (by apply empty_ok, Inv).
  apply (HQ y t3); [done|by apply (evolves_trans B 0 0 0 t t2)| |].
  - constructor; rewrite ?EF; fold F'.
    + intros j Hj. by apply fput_ne.
    + intros j bn Hj Hji Hb. destruct (fblk_inodes (fs_sb s) F' (fput I n e) (IBLOCK n (fs_sb s)) (put_dinode (F' (IBLOCK n (fs_sb s))) (n mod IPB) e) j bn Inv2 Hib Hji Hb) as [_ E].
      rewrite fput_ne in E by done. unfold put_inode. rewrite E. by apply (trunc_blk _ _ _ _ _ j bn Inv Hji Hb Fr).
    + intros j p Hj [Hji Hp]. unfold put_inode. apply slot_agree. intros Hia. destruct (ind_data _ _ _ Inv j Hji Hia). rewrite bupd_ne by lia. apply (fr_same _ _ _ _ Fr). lia.
    + intros m Hm Hmi. rewrite disk_put_inode by (done || lia). rewrite decide_False by done. apply disk_inode_agree; [apply Inv| |done].
      intros k Hk. apply (fr_same _ _ _ _ Fr). lia.
  - rewrite EF. fold F'. rewrite disk_put_inode by (done || lia). by rewrite decide_True.
Qed.
End trunc.
