(* ===== verification/FsInode.v ===== *)
(** * The inode table: [iget], [ilock], [ialloc], [iput]

    References to inodes, locking, allocation on the disk and freeing when the
    last link and the last reference are gone. *)

From stdpp Require Import base numbers list gmap strings.
From Stdlib Require Import ZArith Lia.
From S2P Require Import Prelude Blocks Monad Codec Mem UserMem Bio BioCache Log LogCrash Txn Fs FsImage FsInv FsAlloc FsRead FsWritei FsTrunc.
Open Scope Z_scope.

(** ** Scanning the table *)

Definition is_inode (dev inum : Z) (i : inode) : Prop := 0 < i_ref i /\ i_dev i = dev /\ i_inum i = inum.
Definition has_free (l : list inode) : Prop := exists k i, znth l k = Some i /\ i_ref i = 0.

Lemma iget_scan_spec l dev inum : forall k e, 0 <= k ->
  match iget_scan l k e dev inum with
  | (Some ip, _) => exists i, znth l (ip - k) = Some i /\ is_inode dev inum i
  | (None, e') => (forall j i, znth l j = Some i -> ~ is_inode dev inum i) /\
      match e with
      | Some x => e' = Some x
      | None => match e' with
                | Some ip => exists i, znth l (ip - k) = Some i /\ i_ref i = 0
                | None => forall j i, znth l j = Some i -> i_ref i <> 0
                end
      end
  end.
Proof.
  induction l as [|i l IH]; intros k e Hk; cbn [iget_scan].
  { split; [by intros [] ?|]. destruct e; [done|]. by intros [] ?. }
  destruct ((0 <? i_ref i) && (i_dev i =? dev) && (i_inum i =? inum)) eqn:E.
  { exists i. rewrite Z.sub_diag. split; [done|]. apply andb_true_iff in E as [[E1%Z.ltb_lt E2%Z.eqb_eq]%andb_true_iff E3%Z.eqb_eq]. done. }
  assert (Hno : ~ is_inode dev inum i).
  { intros (H1%Z.ltb_lt & H2%Z.eqb_eq & H3%Z.eqb_eq). by rewrite H1, H2, H3 in E. }
  set (e1 := match e with Some _ => e | None => _ end). specialize (IH (k + 1) e1 ltac:(lia)).
  destruct (iget_scan l (k + 1) e1 dev inum) as [[ip|] e'].
  - destruct IH as (j & Hj & Hi). exists j. split; [|done]. rewrite znth_cons. pose proof (znth_Some_lt _ _ _ Hj). destruct (Z.eqb_spec (ip - k) 0); [lia|].
    by replace (ip - k - 1) with (ip - (k + 1)) by lia.
  - destruct IH as [H1 H2]. split.
    + intros j x. rewrite znth_cons. destruct (j =? 0); [by intros [= <-]|apply H1].
    + destruct e as [x|]; [done|]. unfold e1 in H2. destruct (Z.eqb_spec (i_ref i) 0) as [E0|E0].
      * subst e'. exists i. rewrite Z.sub_diag. done.
      * destruct e' as [ip|].
        -- destruct H2 as (x & Hx & H0). exists x. split; [|done]. rewrite znth_cons. pose proof (znth_Some_lt _ _ _ Hx). destruct (Z.eqb_spec (ip - k) 0); [lia|].
           by replace (ip - k - 1) with (ip - (k + 1)) by lia.
        -- intros j x. rewrite znth_cons. destruct (j =? 0); [by intros [= <-]|apply H2].
Qed.

(** ** Entries that change *)

(** A change of one entry that keeps the inode it stands for. *)
Lemma itab_update sb l F I ip i i' : itab sb l F I -> znth l ip = Some i -> i_dev i' = i_dev i -> i_inum i' = i_inum i -> 0 < i_ref i -> 0 <= i_ref i' ->
  (0 < i_ref i' -> i_valid i' = true -> i_d i' = I (i_inum i)) ->
  (i_valid i = true -> i_ref i' = 0 \/ i_valid i' = false -> I (i_inum i) = disk_inode sb F (i_inum i)) ->
  itab sb (zset l ip i') F I.
Proof.
  intros [T1 T0 T2 T3 T4] Hi Ed En Hr Hr' Hv Hd. assert (E : forall k, znth (zset l ip i') k = if decide (k = ip) then Some i' else znth l k) by (intros; by apply (znth_zset _ _ _ _ i)).
  destruct (T2 ip i Hi Hr) as (A1 & A2 & A3). constructor.
  - by rewrite zset_length.
  - intros k j. rewrite E. case_decide; [by intros [= <-]|apply T0].
  - intros k j. rewrite E. case_decide; [intros [= <-] Hj; rewrite Ed, En; split_and!; [done|lia|lia|by apply Hv]|apply T2].
  - intros k k' j j'. rewrite !E. repeat case_decide; subst; try done; [intros [= <-] Hj H1 H2 En'; rewrite En in En'; by apply (T3 ip k' i j')| |apply T3].
    intros Hj [= <-] H1 H2 En'. rewrite En in En'. by apply (T3 k ip j i).
  - intros n Hn Hno. destruct (decide (i_valid i = true /\ i_inum i = n)) as [[Hval <-]|Hne].
    + apply Hd; [done|]. destruct (i_valid i') eqn:Ev; [left|by right]. destruct (Z_lt_le_dec 0 (i_ref i')); [|lia]. exfalso.
      apply (Hno ip i'); [rewrite E; by rewrite decide_True|done|done|done].
    + apply T4; [done|]. intros k j Hj Hjr Hjv Hjn. destruct (decide (k = ip)) as [->|Hk]; [apply Hne; assert (j = i) as -> by congruence; done|].
      apply (Hno k j); [rewrite E; by rewrite decide_False|done..].
Qed.

(** A new entry takes the place of an unused one. *)
Lemma itab_new sb l F I ip i i' : itab sb l F I -> znth l ip = Some i -> i_ref i = 0 -> i_dev i' = ROOTDEV -> 0 <= i_inum i' < sb_ninodes sb ->
  i_ref i' = 1 -> i_valid i' = false -> (forall k j, znth l k = Some j -> ~ is_inode ROOTDEV (i_inum i') j) -> itab sb (zset l ip i') F I.
Proof.
  intros [T1 T0 T2 T3 T4] Hi H0 Hd Hn Hr Hv Hno. assert (E : forall k, znth (zset l ip i') k = if decide (k = ip) then Some i' else znth l k) by (intros; by apply (znth_zset _ _ _ _ i)).
  constructor.
  - by rewrite zset_length.
  - intros k j. rewrite E. case_decide; [intros [= <-]; lia|apply T0].
  - intros k j. rewrite E. case_decide; [intros [= <-] _; split_and!; [done|lia|lia|congruence]|apply T2].
  - intros k k' j j'. rewrite !E. repeat case_decide; subst; try done; [| |apply T3].
    + intros [= <-] Hj _ H2 En. exfalso. apply (Hno k' j' Hj). destruct (T2 k' j' Hj H2) as (? & _). split_and!; done.
    + intros Hj [= <-] H1 _ En. exfalso. apply (Hno k j Hj). destruct (T2 k j Hj H1) as (? & _). split_and!; done.
  - intros n Hnn Hall. apply T4; [done|]. intros k j Hj Hjr Hjv. destruct (decide (k = ip)) as [->|Hk]; [assert (j = i) as -> by congruence; lia|].
    apply (Hall k j); [rewrite E; by rewrite decide_False|done|done].
Qed.

Section inodes.
Context {T U : Type} {TX : Transactions T} {TXok : TransactionsOK T} {UM : UserMemory U} {UMok : UserMemoryOK U}.
Abbreviation fss := (fsst T U).
Implicit Types (s : fss) (t : tview) (I : Z -> dinode).

Lemma fs_at_inodes s t I l : fs_at s t I -> itab (fs_sb s) l (tv_cur t) I -> fs_at (with_inodes l s) t I.
Proof. intros [H1 H2 H3] Hl. constructor; [by apply tx_inodes|done|done]. Qed.

(** ** References *)

(** [iget] returns the entry of the inode, or a new one. *)
Lemma iget_spec s t I inum (Q : Z -> fss -> Prop) : fs_at s t I -> 0 <= inum < sb_ninodes (fs_sb s) -> has_free (fs_inodes s) ->
  (forall ip i, let i' := set_ref (i_ref i + 1) i in let s' := with_inodes (zset (fs_inodes s) ip i') s in
     znth (fs_inodes s) ip = Some i -> is_inode ROOTDEV inum i -> fs_at s' t I -> Q ip s') ->
  (forall ip i, let i' := mk_inode ROOTDEV inum 1 (i_lock i) false (i_d i) in let s' := with_inodes (zset (fs_inodes s) ip i') s in
     znth (fs_inodes s) ip = Some i -> i_ref i = 0 -> (forall k j, znth (fs_inodes s) k = Some j -> ~ is_inode ROOTDEV inum j) -> fs_at s' t I -> Q ip s') ->
  wp (iget ROOTDEV inum) Q s.
Proof.
  intros A Hn (fk & fi & Hfk & Hf0) H1 H2. unfold iget. apply wp_bind, wp_gets. pose proof (iget_scan_spec (fs_inodes s) ROOTDEV inum 0 None ltac:(lia)) as Hs.
  pose proof (fa_tab _ _ _ A) as Tab. destruct (iget_scan (fs_inodes s) 0 None ROOTDEV inum) as [[ip|] e].
  - destruct Hs as (i & Hi & Hin). rewrite Z.sub_0_r in Hi. apply wp_bind, (wp_mod_inode ip _ i); [done|]. apply wp_ret. apply (H1 ip i); [done|done|].
    apply fs_at_inodes; [done|]. apply (itab_update _ _ _ _ ip i); [done|done|done|done|apply Hin|cbn [set_ref i_ref]; destruct Hin; lia| |].
    + intros _ Hv. by apply (it_ent _ _ _ _ Tab ip i Hi); [apply Hin|].
    + cbn [set_ref i_ref i_valid]. intros Hv [?|?]; [destruct Hin; lia|congruence].
  - destruct Hs as [Hno He]. destruct e as [ip|]; [|by destruct (He fk fi Hfk)]. destruct He as (i & Hi & H0). rewrite Z.sub_0_r in Hi.
    apply wp_bind, (wp_mod_inode ip _ i); [done|]. apply wp_ret. apply (H2 ip i); [done|done|done|]. apply fs_at_inodes; [done|].
    by apply (itab_new _ _ _ _ ip i).
Qed.

Lemma idup_spec s t I ip i (Q : Z -> fss -> Prop) : fs_at s t I -> znth (fs_inodes s) ip = Some i -> 0 < i_ref i ->
  (let s' := with_inodes (zset (fs_inodes s) ip (set_ref (i_ref i + 1) i)) s in fs_at s' t I -> Q ip s') -> wp (idup ip) Q s.
Proof.
  intros A Hi Hr HQ. unfold idup. apply wp_bind, (wp_mod_inode ip _ i); [done|]. apply wp_ret, HQ. apply fs_at_inodes; [done|].
  pose proof (fa_tab _ _ _ A) as Tab. apply (itab_update _ _ _ _ ip i); [done|done|done|done|done|cbn [set_ref i_ref]; lia| |].
  - intros _ Hv. by apply (it_ent _ _ _ _ Tab ip i Hi).
  - cbn [set_ref i_ref i_valid]. intros Hv [?|?]; [lia|congruence].
Qed.

(** ** Locks *)

Definition locked (i : inode) (d : dinode) : inode := mk_inode (i_dev i) (i_inum i) (i_ref i) true true d.

Lemma ilock_spec s t I ip i (Q : unit -> fss -> Prop) : fs_at s t I -> znth (fs_inodes s) ip = Some i -> 0 < i_ref i -> i_lock i = false ->
  tv_held t = ∅ -> d_type (I (i_inum i)) <> 0 ->
  (forall x, let s' := with_inodes (zset (fs_inodes s) ip (locked i (I (i_inum i)))) (with_tx x s) in fs_at s' t I -> Q tt s') -> wp (ilock ip) Q s.
Proof.
  intros A Hi Hr Hl Hh Hty HQ. pose proof (fa_tab _ _ _ A) as Tab. destruct (it_ent _ _ _ _ Tab ip i Hi Hr) as (Hd & Hn & Hv).
  unfold ilock. apply wp_bind, (wp_iat ip i); [done|]. destruct (Z.ltb_spec (i_ref i) 1); [lia|]. rewrite Hl. apply wp_bind, (wp_mod_inode ip _ i); [done|].
  assert (Hset : forall i' i2, zset (zset (fs_inodes s) ip i') ip i2 = zset (fs_inodes s) ip i2) by (intros; apply zset_zset).
  destruct (i_valid i) eqn:Ev.
  - apply wp_ret. specialize (HQ (fs_tx s)). assert (Es : with_tx (fs_tx s) s = s) by (by destruct s). rewrite Es in HQ.
    replace (set_lock true i) with (locked i (I (i_inum i))) by (unfold locked, set_lock; rewrite <- Hv by done; by rewrite Ev). apply HQ.
    apply fs_at_inodes; [done|]. apply (itab_update _ _ _ _ ip i); [done|done|done|done|done|cbn; lia|done|]. intros _ [Hc|Hc]; cbn in Hc; [lia|done].
  - assert (Edisk : I (i_inum i) = disk_inode (fs_sb s) (tv_cur t) (i_inum i)).
    { apply (it_disk _ _ _ _ Tab); [done|]. intros k j Hj Hjr Hjv Hjn. assert (k = ip) as -> by (by apply (it_uniq _ _ _ _ Tab k ip j i)). congruence. }
    unfold the_sb. apply wp_bind, wp_gets. cbn [with_inodes fs_sb]. set (sb := fs_sb s) in *. set (n := i_inum i) in *.
    pose proof (IBLOCK_range sb n (fi_sb _ _ _ (fa_inv _ _ _ A)) Hn) as Hib. pose proof (data_readable (IBLOCK n sb) s t I A Hh ltac:(fold sb; lia)) as Hrd.
    apply (wp_tget (IBLOCK n sb) t); [apply A|done|]. intros bp x Hx. unfold disk_inode in Edisk. rewrite <- Edisk. cbv zeta.
    apply wp_bind, (wp_mod_inode ip _ (set_lock true i)).
    { cbn [with_tx with_inodes fs_inodes]. apply znth_zset_eq. by apply (znth_Some_lt _ _ i). }
    cbn [with_tx with_inodes fs_inodes]. rewrite Hset. apply wp_bind, (wp_put (IBLOCK n sb) bp t); [exact Hx|by rewrite Hh|by apply (clean_or_logged (fs_tx s)); [apply A|]|].
    intros y Hy. apply wp_bind, (wp_mod_inode ip _ (set_d (I n) (set_lock true i))).
    { cbn [with_tx with_inodes fs_inodes]. apply znth_zset_eq. by apply (znth_Some_lt _ _ i). }
    cbn [with_tx with_inodes fs_inodes]. rewrite Hset. destruct (Z.eqb_spec (d_type (I n)) 0); [done|]. apply wp_ret. apply (HQ y).
    apply fs_at_inodes; [by apply (fs_again s)|]. apply (itab_update _ _ _ _ ip i); [done|done|done|done|done|cbn; lia|done|]. intros _ [Hc|Hc]; cbn in Hc; [lia|done].
Qed.

Lemma iunlock_spec s t I ip i (Q : unit -> fss -> Prop) : fs_at s t I -> in_use (fs_inodes s) ip i -> i_lock i = true ->
  (let s' := with_inodes (zset (fs_inodes s) ip (set_lock false i)) s in fs_at s' t I -> Q tt s') -> wp (iunlock ip) Q s.
Proof.
  intros A Hu Hl HQ. pose proof (iu_ref _ _ _ Hu). destruct (in_use_facts _ _ _ _ _ A Hu) as (_ & _ & Ed). unfold iunlock. apply wp_bind, (wp_iat ip i); [apply Hu|].
  rewrite Hl. cbn [negb orb]. destruct (Z.ltb_spec (i_ref i) 1); [lia|]. apply (wp_mod_inode ip _ i); [apply Hu|]. apply HQ. apply fs_at_inodes; [done|].
  pose proof (fa_tab _ _ _ A) as Tab. apply (itab_update _ _ _ _ ip i); [done|apply Hu|done|done|done|cbn; lia|done|]. intros Hv [Hc|Hc]; cbn in Hc; [lia|congruence].
Qed.

(** ** [iput] *)

(** A reference that is not the last one to an inode without links. *)
Lemma iput_drop s t I ip i (Q : unit -> fss -> Prop) : fs_at s t I -> znth (fs_inodes s) ip = Some i -> 0 < i_ref i ->
  (i_ref i <> 1 \/ i_valid i = false \/ d_nlink (I (i_inum i)) <> 0 /\ disk_inode (fs_sb s) (tv_cur t) (i_inum i) = I (i_inum i)) ->
  (let s' := with_inodes (zset (fs_inodes s) ip (set_ref (i_ref i - 1) i)) s in fs_at s' t I -> Q tt s') -> wp (iput ip) Q s.
Proof.
  intros A Hi Hr Hc HQ. pose proof (fa_tab _ _ _ A) as Tab. destruct (it_ent _ _ _ _ Tab ip i Hi Hr) as (_ & Hn & Hv).
  unfold iput. apply wp_bind, (wp_iat ip i); [done|]. apply wp_bind.
  replace ((i_ref i =? 1) && i_valid i && (d_nlink (i_d i) =? 0)) with false.
  - apply wp_ret. apply (wp_mod_inode ip _ i); [done|]. apply HQ. apply fs_at_inodes; [done|].
    apply (itab_update _ _ _ _ ip i); [done|done|done|done|done|cbn; lia|by intros _ ?; apply Hv|].
    cbn [set_ref i_ref i_valid]. intros Hval [?|?]; [|congruence]. destruct Hc as [?|[?|[_ ->]]]; [lia|congruence|done].
  - symmetry. destruct (Z.eqb_spec (i_ref i) 1); [|done]. destruct (i_valid i); [|done]. rewrite Hv by done. destruct (Z.eqb_spec (d_nlink (I (i_inum i))) 0); [|done].
    destruct Hc as [?|[?|[? _]]]; done.
Qed.

(** ** Fields of an inode *)

Lemma fs_at_ext s t I I' : fs_at s t I -> (forall n, I' n = I n) -> fs_at s t I'.
Proof.
  intros [H1 [X1 X2 X3 X4 X5 X6 X7] [Y1 Y0 Y2 Y3 Y4]] E. constructor; [done| |].
  - pose proof (sb_order _ X1). pose proof (so_data _ X1). constructor; [done|done|intros i; rewrite E; by apply X3|intros i; rewrite E; by apply X4|intros i; rewrite E; by apply X5| |done].
    apply (owned_ext _ _ _ _ _ X6); [|done|lia|lia]. intros i p _. by rewrite E.
  - constructor; try done; [intros k i Hi Hr; rewrite E; by apply (Y2 k)|intros n Hn Hno; rewrite E; by apply Y4].
Qed.

Lemma others_trans sb n F I F1 I1 F2 I2 : others_same sb n F I F1 I1 -> others_same sb n F1 I1 F2 I2 -> others_same sb n F I F2 I2.
Proof.
  intros A C. constructor.
  - intros j Hj. by rewrite (os_inode _ _ _ _ _ _ C), (os_inode _ _ _ _ _ _ A).
  - intros j bn Hj Hn Hb. rewrite <- (os_blk _ _ _ _ _ _ A) by done. pose proof (os_blk _ _ _ _ _ _ C j bn Hj Hn Hb) as E. by rewrite (os_inode _ _ _ _ _ _ A) in E.
  - intros j p Hj Hp. rewrite <- (os_slot _ _ _ _ _ _ A j p Hj Hp). pose proof (os_slot _ _ _ _ _ _ C j p Hj Hp) as E2. by rewrite (os_inode _ _ _ _ _ _ A) in E2.
  - intros m Hm Hr. by rewrite (os_disk _ _ _ _ _ _ C), (os_disk _ _ _ _ _ _ A).
Qed.

Lemma inode_wf sb F I n : fs_inv sb F I -> 0 <= n < sb_ninodes sb -> wf_block (F (IBLOCK n sb)).
Proof. intros Inv Hn. apply Inv. pose proof (IBLOCK_range sb n (fi_sb _ _ _ Inv) Hn). pose proof (inv_order _ _ _ Inv). lia. Qed.

(** Writing an inode to the disk changes no other file. *)
Lemma others_put sb F I n d : fs_inv sb F I -> 0 <= n < sb_ninodes sb -> dinode_ok d -> others_same sb n F I (put_inode sb F n d) (fput I n d).
Proof.
  intros Inv Hn Hd. pose proof (IBLOCK_range sb n (fi_sb _ _ _ Inv) Hn) as Hib. pose proof (inv_order _ _ _ Inv). constructor.
  - intros j Hj. by apply fput_ne.
  - intros j bn Hj Hji Hb. unfold put_inode. by apply (fblk_inodes sb F I).
  - intros j p Hj [Hji Hp]. unfold put_inode. apply slot_agree. intros Hne. destruct (ind_data _ _ _ Inv j Hji Hne). apply bupd_ne. lia.
  - intros m Hm Hr. rewrite (disk_put_inode sb F n d m); [by rewrite decide_False|by apply (inode_wf _ _ I)|done|lia|lia].
Qed.

(** A change of the fields of an inode that keeps its blocks. *)
Record same_blocks (d d' : dinode) : Prop := {
  sk_addrs : d_addrs d' = d_addrs d;
  sk_size : d_size d' = d_size d;
  sk_ok : dinode_ok d -> dinode_ok d';
  sk_free : d_type d' = 0 -> d_type d <> 0 -> forall p, daddr d p = 0;
}.
Lemma inv_same_blocks sb F I n d : fs_inv sb F I -> 0 <= n < sb_ninodes sb -> same_blocks (I n) d -> fs_inv sb F (fput I n d).
Proof.
  intros Inv Hn [H1 H2 H3 H4]. apply inv_fields; [done|done|by apply H3, Inv|rewrite H2; by apply Inv|].
  intros E p. unfold daddr. rewrite H1. destruct (decide (d_type (I n) = 0)); [by apply (fi_free _ _ _ Inv)|by apply H4].
Qed.

(** The assignment of a field followed by [iupdate]. *)
Lemma inode_update_spec B k ip i f s t I (Q : unit -> fss -> Prop) : fs_at s t I -> in_use (fs_inodes s) ip i -> tv_held t = ∅ -> room B k t ->
  IBLOCK (i_inum i) (fs_sb s) ∈ B \/ 1 <= k -> same_blocks (I (i_inum i)) (f (I (i_inum i))) ->
  (forall x t', let n := i_inum i in let d := f (I n) in let s' := with_inodes (zset (fs_inodes s) ip (set_d d i)) (with_tx x s) in
    fs_at s' t' (fput I n d) -> evolves B k t t' -> others_same (fs_sb s) n (tv_cur t) I (tv_cur t') (fput I n d) ->
    disk_inode (fs_sb s) (tv_cur t') n = d -> Q tt s') ->
  wp (mod_inode ip (fun i => set_d (f (i_d i)) i);; iupdate ip) Q s.
Proof.
  intros A Hu Hh Hr Hk Hf HQ. destruct (in_use_facts _ _ _ _ _ A Hu) as (_ & Hn & Ed). set (n := i_inum i) in *. set (sb := fs_sb s) in *. set (d := f (I n)) in *.
  apply wp_bind, (wp_mod_inode ip _ i); [apply Hu|]. rewrite Ed. fold d. set (s1 := with_inodes _ s). pose proof (in_use_set_d _ _ _ d Hu) as Hu1.
  pose proof (inv_same_blocks _ _ _ n d (fa_inv _ _ _ A) Hn Hf) as Inv1.
  assert (A1 : fs_at s1 t (fput I n d)). { constructor; [apply tx_inodes, A|done|]. apply itab_set_d; [apply A|done]. }
  assert (Hok : dinode_ok d) by (apply Hf, (fa_inv _ _ _ A); done).
  apply (iupdate_spec B k ip (set_d d i) s1 t (fput I n d)); [done|done|done|done|done|]. change (i_inum (set_d d i)) with n. change (fs_sb s1) with sb. rewrite fput_eq.
  intros x t' A2 Ev EF. apply (HQ x t'); [done|done| |]; rewrite EF; [apply others_put; [apply A|done|done]|].
  rewrite disk_put_inode; [by rewrite decide_True|apply (inode_wf _ _ I); [apply A|done]|done|lia|lia].
Qed.

Definition free_inode (d : dinode) : dinode := set_type 0 (empty_inode d).

Lemma free_same d : same_blocks (empty_inode d) (free_inode d).
Proof. constructor; [done|done|intros []; by constructor|intros; apply daddr_empty]. Qed.

Lemma in_use_zset s ip i i' : in_use (fs_inodes s) ip i -> 0 < i_ref i' -> i_valid i' = true -> in_use (zset (fs_inodes s) ip i') ip i'.
Proof. intros Hu Hr Hv. constructor; [|done|done]. apply znth_zset_eq, (znth_Some_lt _ _ i), Hu. Qed.

(** The last reference to an inode without links: the inode is freed. *)
Lemma iput_free B s t I ip i (Q : unit -> fss -> Prop) : fs_at s t I -> in_use (fs_inodes s) ip i -> i_ref i = 1 -> i_lock i = false ->
  d_nlink (I (i_inum i)) = 0 -> tv_held t = ∅ -> room B 0 t -> has_map (fs_sb s) B -> IBLOCK (i_inum i) (fs_sb s) ∈ B ->
  (forall x t' i', let n := i_inum i in let d := free_inode (I n) in let s' := with_inodes (zset (fs_inodes s) ip i') (with_tx x s) in
    i_ref i' = 0 -> i_lock i' = false -> fs_at s' t' (fput I n d) -> evolves B 0 t t' -> others_same (fs_sb s) n (tv_cur t) I (tv_cur t') (fput I n d) ->
    disk_inode (fs_sb s) (tv_cur t') n = d -> Q tt s') ->
  wp (iput ip) Q s.
Proof.
  intros A Hu H1 Hl Hlink Hh Hr HB HI HQ. destruct (in_use_facts _ _ _ _ _ A Hu) as (Hdev & Hn & Ed). unfold iput. apply wp_bind, (wp_iat ip i); [apply Hu|].
  rewrite H1, (iu_valid _ _ _ Hu), Ed, Hlink, Hl. cbn [Z.eqb andb]. set (n := i_inum i) in *. set (sb := fs_sb s) in *.
  apply wp_bind, wp_bind, (wp_mod_inode ip _ i); [apply Hu|]. set (i1 := set_lock true i). set (s1 := with_inodes _ s).
  pose proof (in_use_zset s ip i i1 Hu (iu_ref _ _ _ Hu) (iu_valid _ _ _ Hu)) as Hu1.
  assert (A1 : fs_at s1 t I).
  { apply fs_at_inodes; [done|]. apply (itab_update _ _ _ _ ip i); [apply A|apply Hu|done|done|lia|cbn; lia|done|]. intros Hv [Hc|Hc]; cbn in Hc; [lia|congruence]. }
  apply wp_bind, (itrunc_spec B ip i1 s1 t I); [done..|]. intros x t2 n' d2 s2 A2 Ev Os _. change n' with n in *. clear n'.
  pose proof (in_use_set_d _ ip i1 d2 Hu1) as Hu2. assert (Ei2 : fs_inodes s2 = zset (zset (fs_inodes s) ip i1) ip (set_d d2 i1)) by done.
  destruct (ev_fields _ _ _ _ Ev) as (_ & _ & Eh & _). change (i_inum i1) with n in *. rewrite <- Ei2 in Hu2.
  apply (wp_bind_assoc (mod_inode ip _) (fun _ => iupdate ip)), wp_bind.
  apply (inode_update_spec B 0 ip (set_d d2 i1) (set_type 0) s2 t2 (fput I n d2)); [done|done|by rewrite Eh|by apply (room_evolves B 0 0 t)|by left|change (i_inum _) with n; rewrite fput_eq; apply free_same|].
  cbv zeta. change (i_inum (set_d d2 i1)) with n. rewrite fput_eq. change (set_type 0 d2) with (free_inode (I n)). set (d3 := free_inode (I n)) in *. intros y t4.
  set (s4 := with_inodes _ (with_tx y s2)). intros A4 Ev4 Os4 Hd4.
  set (i3 := set_d d3 i1). assert (Ei4 : fs_inodes s4 = zset (fs_inodes s) ip i3) by (unfold s4; cbn [with_inodes fs_inodes]; rewrite Ei2, !zset_zset; done).
  assert (Hlt : 0 <= ip < Z.of_nat (length (fs_inodes s))) by (apply (znth_Some_lt _ _ i), Hu).
  apply wp_bind, (wp_mod_inode ip _ i3); [rewrite Ei4; by apply znth_zset_eq|]. rewrite Ei4, zset_zset.
  apply (wp_mod_inode ip _ (set_ivalid false i3)); [by apply znth_zset_eq|]. cbn [with_inodes fs_inodes]. rewrite zset_zset.
  apply (wp_mod_inode ip _ (set_lock false (set_ivalid false i3))); [by apply znth_zset_eq|]. cbn [with_inodes fs_inodes]. rewrite zset_zset.
  assert (EI : forall j, fput I n d3 j = fput (fput I n d2) n d3 j) by (intros j; unfold fput; by case_decide).
  apply (HQ y t4 (set_ref (i_ref i - 1) (set_lock false (set_ivalid false i3)))); [cbn; lia|done| |by apply (evolves_trans B 0 0 0 t t2)| |done].
  - apply (fs_at_ext _ _ _ _) with (2 := EI). apply (fs_at_inodes s4); [done|]. rewrite <- (zset_zset _ ip i3), <- Ei4.
    apply (itab_update _ _ _ _ ip i3); [apply A4|rewrite Ei4; by apply znth_zset_eq|done|done|cbn; lia|cbn; lia|cbn; lia|].
    intros _ _. change (i_inum i3) with n. by rewrite fput_eq.
  - pose proof (others_trans _ _ _ _ _ _ _ _ Os Os4) as Ot. destruct Ot as [O1 O2 O3 O4]. constructor; try done. intros j Hj. by apply fput_ne.
Qed.

(** ** [ialloc] *)

(** Between system calls every referenced inode has a type and only
    referenced entries are locked. *)
Record typed (l : list inode) I : Prop := {
  ty_live : forall k i, znth l k = Some i -> 0 < i_ref i -> d_type (I (i_inum i)) <> 0;
  ty_lock : forall k i, znth l k = Some i -> i_ref i = 0 -> i_lock i = false;
}.

Lemma addrs_zero d : dinode_ok d -> (forall p, daddr d p = 0) -> d_addrs d = replicate 13 0.
Proof.
  intros Hok H0. symmetry. apply replicate_as_elem_of. split; [by apply Hok|]. intros x [k Hk]%list_elem_of_lookup.
  specialize (H0 (Z.of_nat k)). unfold daddr in H0. by rewrite Nat2Z.id, nth_lookup, Hk in H0.
Qed.

Lemma zero_dinode_ok type : - 2 ^ 15 <= type < 2 ^ 15 -> dinode_ok (zero_dinode type).
Proof. intros Ht. constructor; cbn [zero_dinode d_type d_major d_minor d_nlink d_size d_addrs]; try lia; [done|]. by apply Forall_replicate. Qed.

(** Writing the new inode to a free place. *)
Lemma inv_new sb F I n type : fs_inv sb F I -> 0 <= n < sb_ninodes sb -> d_type (I n) = 0 -> - 2 ^ 15 <= type < 2 ^ 15 ->
  fs_inv sb (put_inode sb F n (zero_dinode type)) (fput I n (zero_dinode type)).
Proof.
  intros Inv Hn H0 Ht. pose proof (zero_dinode_ok type Ht) as Hok. apply inv_inodes; [|by apply IBLOCK_range; [apply Inv|]|].
  - apply inv_fields; [done| |done|done|]; [|intros _ p; by apply (daddr_empty (zero_dinode type))].
    symmetry. apply addrs_zero; [by apply Inv|]. intros p. by apply (fi_free _ _ _ Inv).
  - apply put_dinode_wf; [done|by apply (inode_wf _ _ I)|apply mod_IPB].
Qed.

Lemma itab_write sb l F F' I n d : itab sb l F I -> typed l I -> d_type (I n) = 0 ->
  (forall m, 0 <= m < sb_ninodes sb -> disk_inode sb F' m = if decide (m = n) then d else disk_inode sb F m) -> itab sb l F' (fput I n d).
Proof.
  intros [T1 T0 T2 T3 T4] [Ty _] H0 HF. constructor; try done.
  - intros k i Hi Hr. destruct (T2 k i Hi Hr) as (A1 & A2 & A3). split_and!; [done|lia|lia|]. intros Hv. rewrite fput_ne; [by apply A3|].
    intros En. by apply (Ty k i Hi Hr); rewrite En.
  - intros m Hm Hno. rewrite HF by done. unfold fput. case_decide; [done|by apply T4].
Qed.

Definition alloc_inode_post (B : gset Z) (type : Z) s t I (r : option Z) (s' : fss) : Prop :=
  match r with
  | Some ip => exists x t' n i, let d := zero_dinode type in let i' := mk_inode ROOTDEV n 1 false false (i_d i) in
      s' = with_inodes (zset (fs_inodes s) ip i') (with_tx x s) /\ 1 <= n < sb_ninodes (fs_sb s) /\ d_type (I n) = 0 /\
      znth (fs_inodes s) ip = Some i /\ i_ref i = 0 /\ fs_at s' t' (fput I n d) /\ evolves B 1 t t' /\
      others_same (fs_sb s) n (tv_cur t) I (tv_cur t') (fput I n d) /\ disk_inode (fs_sb s) (tv_cur t') n = d
  | None => (exists x, s' = with_tx x s /\ fs_at s' t I) /\ forall n, 1 <= n < sb_ninodes (fs_sb s) -> d_type (disk_inode (fs_sb s) (tv_cur t) n) <> 0
  end.

Lemma ialloc_loop_spec B type s t I : fs_at s t I -> tv_held t = ∅ -> room B 1 t -> has_free (fs_inodes s) -> typed (fs_inodes s) I ->
  - 2 ^ 15 <= type < 2 ^ 15 -> (forall n, 0 <= n < sb_ninodes (fs_sb s) -> d_type (disk_inode (fs_sb s) (tv_cur t) n) = 0 -> d_type (I n) = 0) ->
  forall inums x pre, fs_at (with_tx x s) t I -> pre ++ inums = range 1 (sb_ninodes (fs_sb s)) ->
  (forall n, n ∈ pre -> d_type (disk_inode (fs_sb s) (tv_cur t) n) <> 0) ->
  wp (ialloc_loop ROOTDEV type inums) (alloc_inode_post B type s t I) (with_tx x s).
Proof.
  intros A Hh Hr Hfree Hty Ht Hsync. set (sb := fs_sb s) in *. pose proof (fa_inv _ _ _ A) as Inv.
  induction inums as [|n inums IH]; intros x pre Ax El Hpre; cbn [ialloc_loop].
  { apply wp_ret. split; [by exists x|]. rewrite app_nil_r in El. intros n Hn. apply Hpre. rewrite El. by apply elem_of_range. }
  assert (Hn : 1 <= n < sb_ninodes sb). { apply elem_of_range. rewrite <- El. apply elem_of_app. right. by left. }
  unfold the_sb. apply wp_bind, wp_gets. cbn [with_tx fs_sb]. fold sb. pose proof (IBLOCK_range sb n (fi_sb _ _ _ Inv) ltac:(lia)) as Hib. pose proof (inv_order _ _ _ Inv) as Hord. fold sb in Hord.
  pose proof (data_readable (IBLOCK n sb) s t I A Hh ltac:(fold sb; lia)) as Hrd. apply (wp_tget (IBLOCK n sb) t); [apply Ax|exact Hrd|].
  intros bp y Hy. change (with_tx y (with_tx x s)) with (with_tx y s). fold (disk_inode sb (tv_cur t) n). destruct (Z.eqb_spec (d_type (disk_inode sb (tv_cur t) n)) 0) as [E0|E0].
  - apply (wp_modified B 1 (IBLOCK n sb) bp _ t); [done|by rewrite Hh|done|lia|]. intros z Hz. change (with_tx z (with_tx y s)) with (with_tx z s).
    set (d := zero_dinode type) in *. set (t' := changed _ _ t) in *. assert (EF : tv_cur t' = put_inode sb (tv_cur t) n d) by done.
    assert (Hd0 : d_type (I n) = 0) by (apply Hsync; [lia|done]). pose proof (zero_dinode_ok type Ht) as Hok. fold d in Hok.
    assert (Ev : evolves B 1 t t') by (apply evolves_n; [right; lia|apply Hr]).
    assert (A' : fs_at (with_tx z s) t' (fput I n d)).
    { constructor; [apply (tx_evolves B 1 s t); [apply A|exact Ev|exact Hz]| |]; cbn [with_tx fs_sb fs_inodes]; fold sb; rewrite EF.
      - apply inv_new; [done|lia|done|done].
      - apply (itab_write _ _ (tv_cur t)); [apply A|done|done|]. intros m Hm. apply disk_put_inode; [by apply (inode_wf _ _ I); [|lia]|done|lia|lia]. }
    assert (Os : others_same sb n (tv_cur t) I (tv_cur t') (fput I n d)) by (rewrite EF; apply others_put; [done|lia|done]).
    assert (Hdi : disk_inode sb (tv_cur t') n = d).
    { rewrite EF, disk_put_inode; [by rewrite decide_True|by apply (inode_wf _ _ I); [|lia]|done|lia|lia]. }
    apply wp_bind, (iget_spec (with_tx z s) t' (fput I n d)); [done|cbn; fold sb; lia|done| |].
    + intros ip i i' s' Hi (Hr' & _ & Hin) _. exfalso. apply (ty_live _ _ Hty ip i Hi Hr'). by rewrite Hin.
    + intros ip i i' s' Hi Hr0 _ A2. apply wp_ret. exists z, t', n, i. cbv zeta. pose proof (ty_lock _ _ Hty ip i Hi Hr0) as Hl. unfold s', i' in *. rewrite Hl in *.
      split_and!; try done; fold sb; try lia.
  - apply wp_bind, (wp_put (IBLOCK n sb) bp t); [exact Hy|by rewrite Hh|by apply (clean_or_logged (fs_tx s)); [apply A|]|]. intros z Hz. change (with_tx z (with_tx y s)) with (with_tx z s).
    apply (IH z (pre ++ [n])); [by apply (fs_again s)|by rewrite <- app_assoc|]. intros m [?|E%list_elem_of_singleton]%elem_of_app; [by apply Hpre|by rewrite E].
Qed.

(** [ialloc] takes a free inode of the disk, or finds that there is none. *)
Lemma ialloc_spec B type s t I : fs_at s t I -> tv_held t = ∅ -> room B 1 t -> has_free (fs_inodes s) -> typed (fs_inodes s) I ->
  - 2 ^ 15 <= type < 2 ^ 15 -> (forall n, 0 <= n < sb_ninodes (fs_sb s) -> d_type (disk_inode (fs_sb s) (tv_cur t) n) = 0 -> d_type (I n) = 0) ->
  wp (ialloc ROOTDEV type) (alloc_inode_post B type s t I) s.
Proof.
  intros A Hh Hr Hfree Hty Ht Hsync. unfold ialloc, the_sb. apply wp_bind, wp_gets. assert (Es : with_tx (fs_tx s) s = s) by (by destruct s).
  pose proof (ialloc_loop_spec B type s t I A Hh Hr Hfree Hty Ht Hsync (range 1 (sb_ninodes (fs_sb s))) (fs_tx s) []) as H. rewrite Es in H. apply H; [done|done|].
  by intros n ?%elem_of_nil.
Qed.
End inodes.
