(* ===== verification/FsDir.v ===== *)
(** * Directories: [dirlookup] and [dirlink]

    A directory is a file of sixteen-byte entries.  Read as a finite map from
    names to inode numbers, [dirlookup] is its lookup and [dirlink] adds one
    binding. *)

From stdpp Require Import base numbers list gmap strings.
From Stdlib Require Import ZArith Lia.
From S2P Require Import Prelude Blocks Monad Codec Mem UserMem Bio BioCache Log LogCrash Txn Fs FsImage FsInv FsAlloc FsRead FsWritei FsTrunc FsInode.
Open Scope Z_scope.

(** ** Names *)

(** The characters of a name in an array of [n] bytes. *)
Fixpoint cname (n : nat) (p : list Z) : list Z :=
  match n, p with
  | S n, x :: p => if x =? 0 then [] else x :: cname n p
  | _, _ => []
  end.
Definition entry_name (p : list Z) : list Z := cname (Z.to_nat DIRSIZ) p.

(** The array fills its [n] bytes or has a zero byte. *)
Definition terminated (n : nat) (p : list Z) : Prop := (n <= length p)%nat \/ 0 ∈ p.

Lemma terminated_cons n x p : terminated (S n) (x :: p) -> x <> 0 -> terminated n p.
Proof. intros [H|[H|H]%elem_of_cons] Hx; [left; cbn in H; lia|done|by right]. Qed.

Lemma strncmp_arr_names n : forall p q, terminated n p -> terminated n q ->
  exists c, strncmp_arr n p q = Some c /\ (c = 0 <-> cname n p = cname n q).
Proof.
  induction n as [|n IH]; intros p q Hp Hq; cbn [strncmp_arr cname]; [by exists 0|].
  destruct p as [|x p]; [by destruct Hp as [H|H%elem_of_nil]; [cbn in H; lia|]|].
  destruct q as [|y q]; [by destruct Hq as [H|H%elem_of_nil]; [cbn in H; lia|]|].
  destruct (Z.eqb_spec x 0) as [->|Hx]; cbn [negb andb].
  - exists (0 - y). split; [done|]. destruct (Z.eqb_spec y 0); split; try done; lia.
  - destruct (Z.eqb_spec x y) as [<-|Hne].
    + destruct (Z.eqb_spec x 0); [done|]. destruct (IH p q) as (c & E & Hc); [by apply (terminated_cons _ x)..|]. exists c. split; [done|].
      rewrite Hc. split; [by intros ->|by intros [= ->]].
    + exists (x - y). split; [done|]. split; [lia|]. destruct (Z.eqb_spec y 0); [done|]. intros [= ? ?]. lia.
Qed.

Lemma strncpy_arr_name n : forall p, terminated n p -> exists q, strncpy_arr n p = Some q /\ length q = n /\ cname n q = cname n p /\ (Forall is_byte p -> Forall is_byte q).
Proof.
  induction n as [|n IH]; intros p Hp; cbn [strncpy_arr cname]; [by exists []|].
  destruct p as [|x p]; [by destruct Hp as [H|H%elem_of_nil]; [cbn in H; lia|]|]. destruct (Z.eqb_spec x 0) as [->|Hx].
  - exists (replicate (S n) 0). split_and!; [done|by rewrite length_replicate|done|]. intros _. by apply Forall_replicate.
  - destruct (IH p (terminated_cons _ _ _ Hp Hx)) as (q & E & Hl & Hc & Hb). rewrite E. exists (x :: q). cbn [fmap option_fmap option_map length cname].
    destruct (Z.eqb_spec x 0); [done|]. split_and!; [done|lia|by rewrite Hc|]. intros Hf. inversion Hf; subst. constructor; [done|]. by apply Hb.
Qed.

(** ** The contents of a directory *)

Definition dirent_at (F : blocks) (d : dinode) (k : Z) : list Z := fbytes F d (DIRENT * k) DIRENT.
Definition entry (F : blocks) (d : dinode) (k : Z) : Z * list Z := (de_inum (dirent_at F d k), entry_name (de_name (dirent_at F d k))).
Definition entries (d : dinode) : Z := d_size d / DIRENT.

(** The first entry with a name among some entries. *)
Fixpoint find_entry (F : blocks) (d : dinode) (name : list Z) (ks : list Z) : option (Z * Z) :=
  match ks with
  | [] => None
  | k :: ks => if decide ((entry F d k).1 <> 0 /\ (entry F d k).2 = name) then Some (k, (entry F d k).1) else find_entry F d name ks
  end.
Definition lookup_name (F : blocks) (d : dinode) (name : list Z) : option (Z * Z) := find_entry F d name (range 0 (entries d)).

Record dir_ok (sb : superblock) (F : blocks) (d : dinode) : Prop := {
  dr_type : d_type d = T_DIR;
  dr_full : full F d;
  dr_size : d_size d mod DIRENT = 0;
  dr_inum : forall k, 0 <= k < entries d -> (entry F d k).1 < sb_ninodes sb;
}.

Lemma find_entry_none F d name ks : find_entry F d name ks = None -> forall k, k ∈ ks -> (entry F d k).1 <> 0 -> (entry F d k).2 <> name.
Proof.
  induction ks as [|k ks IH]; cbn [find_entry]; [by intros _ k ?%elem_of_nil|]. case_decide as Hc; [done|]. intros E j [->|Hj]%elem_of_cons Hj0 Hj1; [by apply Hc|by apply (IH E j)].
Qed.
Lemma find_entry_some F d name ks k n : find_entry F d name ks = Some (k, n) -> k ∈ ks /\ n <> 0 /\ entry F d k = (n, name).
Proof.
  induction ks as [|j ks IH]; cbn [find_entry]; [done|]. case_decide as Hc.
  - intros [= <- <-]. split_and!; [by left|apply Hc|]. rewrite (surjective_pairing (entry F d j)). by rewrite (proj2 Hc).
  - intros E. destruct (IH E) as (H1 & H2). split; [by right|done].
Qed.
Lemma find_entry_ext F d F' d' name ks : (forall k, k ∈ ks -> entry F' d' k = entry F d k) -> find_entry F' d' name ks = find_entry F d name ks.
Proof. induction ks as [|k ks IH]; intros H; cbn [find_entry]; [done|]. rewrite (H k) by (by left). rewrite IH; [done|]. intros j Hj. apply H. by right. Qed.
Lemma find_entry_app F d name ks js : find_entry F d name (ks ++ js) = match find_entry F d name ks with Some r => Some r | None => find_entry F d name js end.
Proof. induction ks as [|k ks IH]; cbn [find_entry app]; [done|]. by case_decide. Qed.

(** The binding that filling a free entry adds. *)
Lemma find_entry_set F d F' d' name n ks k : k ∈ ks -> entry F' d' k = (n, name) -> n <> 0 -> (forall j, j ∈ ks -> j <> k -> entry F' d' j = entry F d j) ->
  (entry F d k).1 = 0 -> find_entry F d name ks = None -> NoDup ks ->
  forall nm, find_entry F' d' nm ks = if decide (nm = name) then Some (k, n) else find_entry F d nm ks.
Proof.
  intros Hk Ek Hn Hother H0 Hnone Hnd nm. induction ks as [|j ks IH]; [by apply elem_of_nil in Hk|]. inversion Hnd as [|? ? Hj Hnd']; subst. cbn [find_entry] in *.
  destruct (decide (j = k)) as [->|Hjk].
  - rewrite Ek. cbn [fst snd]. assert (Erest : forall x, find_entry F' d' x ks = find_entry F d x ks).
    { intros x. apply find_entry_ext. intros i Hi. apply Hother; [by right|]. by intros ->. }
    destruct (decide (n <> 0 /\ name = nm)) as [[_ <-]|Hc]; [by rewrite decide_True|]. rewrite (decide_False (P := nm = name)) by (intros ->; by apply Hc).
    rewrite decide_False by (rewrite H0; tauto). apply Erest.
  - rewrite Hother by (done || by left). destruct (decide ((entry F d j).1 <> 0 /\ (entry F d j).2 = name)) as [|Hc]; [done|].
    apply elem_of_cons in Hk as [->|Hk]; [done|]. destruct (decide ((entry F d j).1 <> 0 /\ (entry F d j).2 = nm)) as [[H1 H2]|Hc2].
    + rewrite decide_False; [done|]. intros ->. by apply Hc.
    + apply IH; [done|intros i Hi; apply Hother; by right|done|done].
Qed.

Lemma offsets_entries d : d_size d mod DIRENT = 0 -> offsets (d_size d) = map (Z.mul DIRENT) (range 0 (entries d)).
Proof.
  intros H. unfold offsets, entries. do 2 f_equal. unfold DIRENT in *. rewrite (Z.div_mod (d_size d) 16) at 1 by done. rewrite H.
  replace (16 * (d_size d / 16) + 0 + 16 - 1) with (15 + (d_size d / 16) * 16) by lia. rewrite Z.div_add by done. by rewrite (Z.div_small 15).
Qed.

(** ** Adding an entry *)

Lemma fbytes_wrote sb n off data F I F' I' : wrote sb n off data F I F' I' -> 0 <= off -> off + Z.of_nat (length data) <= MAXFILE * BSIZE ->
  fbytes F' (I' n) off (Z.of_nat (length data)) = data.
Proof.
  intros W Ho Hend. apply list_eq. intros k. unfold fbytes. rewrite map_range_lookup. case_decide as Hk.
  - rewrite (wr_byte _ _ _ _ _ _ _ _ W) by lia. rewrite decide_True by lia. replace (off + Z.of_nat k - off) with (Z.of_nat k) by lia.
    rewrite Nat2Z.id. symmetry. rewrite nth_lookup. destruct (data !! k) eqn:E; [done|]. apply lookup_ge_None in E. lia.
  - symmetry. apply lookup_ge_None. lia.
Qed.
Lemma fbytes_kept sb n off data F I F' I' o m : wrote sb n off data F I F' I' -> 0 <= o -> o + m <= MAXFILE * BSIZE ->
  o + m <= off \/ off + Z.of_nat (length data) <= o -> fbytes F' (I' n) o m = fbytes F (I n) o m.
Proof. intros W Ho Hend Hd. apply fbytes_ext. intros x Hx. rewrite (wr_byte _ _ _ _ _ _ _ _ W) by lia. by rewrite decide_False by lia. Qed.

Section link.
Context (sb : superblock) (n k inum : Z) (name : list Z) (F : blocks) (I : Z -> dinode) (F' : blocks) (I' : Z -> dinode).
Hypothesis (W : wrote sb n (DIRENT * k) (le_bytes 2 inum ++ name) F I F' I') (Hname : length name = Z.to_nat DIRSIZ) (Hinum : 0 < inum < 2 ^ 16).
Hypothesis (Hd : dir_ok sb F (I n)) (Hk : 0 <= k <= entries (I n)) (Hend : DIRENT * k + DIRENT <= MAXFILE * BSIZE) (Hsz : d_size (I n) <= MAXFILE * BSIZE).

Lemma link_len : Z.of_nat (length (le_bytes 2 inum ++ name)) = DIRENT.
Proof. rewrite length_app, Hname, le_bytes_length. done. Qed.

Lemma link_new : entry F' (I' n) k = (inum, entry_name name).
Proof.
  unfold entry, dirent_at. pose proof (fbytes_wrote _ _ _ _ _ _ _ _ W) as E. rewrite link_len in E. rewrite E by (unfold DIRENT in *; lia).
  unfold de_inum, de_name. rewrite take_app_length', drop_app_length' by (by rewrite le_bytes_length). rewrite le_val_bytes. f_equal. apply Z.mod_small. lia.
Qed.

Lemma link_other j : 0 <= j < entries (I n) -> j <> k -> entry F' (I' n) j = entry F (I n) j.
Proof.
  intros Hj Hne. unfold entry, dirent_at. pose proof (Z.mul_div_le (d_size (I n)) DIRENT ltac:(done)). unfold entries, DIRENT in *.
  rewrite (fbytes_kept _ _ _ _ _ _ _ _ _ _ W); [done|lia|lia|]. pose proof link_len. unfold DIRENT in *. lia.
Qed.

Lemma link_size : d_size (I n) = DIRENT * entries (I n).
Proof. pose proof (dr_size _ _ _ Hd). unfold entries. pose proof (Z.div_mod (d_size (I n)) DIRENT ltac:(done)). lia. Qed.

Lemma link_entries : d_size (I' n) = DIRENT * Z.max (entries (I n)) (k + 1).
Proof. rewrite (wr_self _ _ _ _ _ _ _ _ W). cbn [set_size d_size]. rewrite link_len, link_size. unfold DIRENT. lia. Qed.
Lemma link_count : entries (I' n) = Z.max (entries (I n)) (k + 1).
Proof. unfold entries at 1. rewrite link_entries, Z.mul_comm. by apply Z.div_mul. Qed.

Lemma link_dir_ok : inum < sb_ninodes sb -> dir_ok sb F' (I' n).
Proof.
  intros Hn. constructor.
  - rewrite (wr_self _ _ _ _ _ _ _ _ W). apply Hd.
  - apply W, Hd.
  - rewrite link_entries, Z.mul_comm. by apply Z.mod_mul.
  - rewrite link_count. intros j Hj. destruct (decide (j = k)) as [->|Hne]; [by rewrite link_new|]. rewrite link_other by lia. apply Hd. lia.
Qed.

(** Exactly one binding is new. *)
Lemma link_lookup : (k < entries (I n) -> (entry F (I n) k).1 = 0) -> lookup_name F (I n) (entry_name name) = None ->
  forall nm, lookup_name F' (I' n) nm = if decide (nm = entry_name name) then Some (k, inum) else lookup_name F (I n) nm.
Proof.
  intros H0 Hnone nm. unfold lookup_name in *. rewrite link_count. destruct (Z_lt_le_dec k (entries (I n))) as [Hlt|Hge].
  - rewrite Z.max_l by lia. apply (find_entry_set F (I n)); [apply elem_of_range; lia|apply link_new|lia| |by apply H0|done|apply range_NoDup].
    intros j Hj%elem_of_range. by apply link_other.
  - assert (k = entries (I n)) as Ek by lia. rewrite Z.max_r, (range_app 0 k (k + 1)) by lia. rewrite find_entry_app, Ek.
    rewrite (find_entry_ext F (I n) F' (I' n)) by (intros j Hj%elem_of_range; apply link_other; lia).
    rewrite (range_cons (entries (I n)) (entries (I n) + 1)), (range_nil (entries (I n) + 1)) by lia. rewrite <- Ek. cbn [find_entry]. rewrite link_new. cbn [fst snd]. rewrite Ek.
    destruct (decide (nm = entry_name name)) as [->|Hne]; [rewrite Hnone; by rewrite decide_True by (split; [lia|done])|].
    rewrite decide_False by (intros [_ ?]; done). by destruct (find_entry F (I n) nm _).
Qed.
End link.

(** A write of no bytes leaves the directory as it is. *)
Lemma unlinked_same sb n off F I F' I' : wrote sb n off [] F I F' I' -> off <= d_size (I n) -> d_size (I n) <= MAXFILE * BSIZE -> dir_ok sb F (I n) ->
  dir_ok sb F' (I' n) /\ (forall nm, lookup_name F' (I' n) nm = lookup_name F (I n) nm) /\
  entries (I' n) = entries (I n) /\ forall k, 0 <= k < entries (I n) -> entry F' (I' n) k = entry F (I n) k.
Proof.
  intros W Ho Hsz Hd. assert (Es : d_size (I' n) = d_size (I n)). { rewrite (wr_self _ _ _ _ _ _ _ _ W). cbn [set_size d_size length]. lia. }
  assert (Ek : entries (I' n) = entries (I n)) by (unfold entries; by rewrite Es).
  assert (Ee : forall k, 0 <= k < entries (I n) -> entry F' (I' n) k = entry F (I n) k).
  { intros k Hk. unfold entry, dirent_at. pose proof (Z.mul_div_le (d_size (I n)) DIRENT ltac:(done)). unfold entries, DIRENT in *.
    rewrite (fbytes_ext F (I n)); [done|]. intros x Hx. rewrite (wr_byte _ _ _ _ _ _ _ _ W) by lia. cbn [length]. by rewrite decide_False by lia. }
  split_and!; [| |done|done].
  - constructor; [rewrite (wr_self _ _ _ _ _ _ _ _ W); apply Hd|apply W, Hd|rewrite Es; apply Hd|]. rewrite Ek. intros k Hk. rewrite Ee by done. by apply Hd.
  - intros nm. unfold lookup_name. rewrite Ek. apply find_entry_ext. intros k Hk%elem_of_range. by apply Ee.
Qed.

(** The entry [iget] returns. *)
Definition got (n : Z) (l : list inode) (ip : Z) (l' : list inode) : Prop :=
  exists i i', znth l ip = Some i /\ l' = zset l ip i' /\ i_dev i' = ROOTDEV /\ i_inum i' = n /\
    (is_inode ROOTDEV n i /\ i' = set_ref (i_ref i + 1) i \/
     i_ref i = 0 /\ i' = mk_inode ROOTDEV n 1 (i_lock i) false (i_d i) /\ forall k j, znth l k = Some j -> ~ is_inode ROOTDEV n j).

Section dirs.
Context {T U : Type} {TX : Transactions T} {TXok : TransactionsOK T} {UM : UserMemory U} {UMok : UserMemoryOK U}.
Abbreviation fss := (fsst T U).
Implicit Types (s : fss) (t : tview) (I : Z -> dinode).

Lemma iget_got s t I n (Q : Z -> fss -> Prop) : fs_at s t I -> 0 <= n < sb_ninodes (fs_sb s) -> has_free (fs_inodes s) ->
  (forall ip l', got n (fs_inodes s) ip l' -> fs_at (with_inodes l' s) t I -> Q ip (with_inodes l' s)) -> wp (iget ROOTDEV n) Q s.
Proof.
  intros A Hn Hf HQ. apply (iget_spec s t I n); [done|done|done| |].
  - intros ip i i' s' Hi Hin A'. apply HQ; [|done]. exists i, i'. split_and!; try done; try apply Hin. by left.
  - intros ip i i' s' Hi Hr Hno A'. apply HQ; [|done]. exists i, i'. split_and!; try done. right. done.
Qed.

Lemma with_tx_again (x y : T) s : with_tx x (with_tx y s) = with_tx x s.
Proof. done. Qed.

Lemma read_dirent_spec dp i s t I k msg (Q : list Z -> fss -> Prop) : fs_at s t I -> in_use (fs_inodes s) dp i -> tv_held t = ∅ -> um_ok (fs_user s) ->
  full (tv_cur t) (I (i_inum i)) -> 0 <= k < entries (I (i_inum i)) ->
  (forall x, fs_at (with_tx x s) t I -> Q (dirent_at (tv_cur t) (I (i_inum i)) k) (with_tx x s)) -> wp (read_dirent dp (DIRENT * k) msg) Q s.
Proof.
  intros A Hu Hh Hum Hf Hk HQ. destruct (in_use_facts _ _ _ _ _ A Hu) as (_ & Hi & _). set (d := I (i_inum i)) in *.
  pose proof (fi_size _ _ _ (fa_inv _ _ _ A) _ Hi) as Hsz. fold d in Hsz.
  assert (Hle : DIRENT * k + DIRENT <= d_size d). { unfold entries, DIRENT in *. pose proof (Z.mul_div_le (d_size d) 16 ltac:(done)). lia. }
  unfold read_dirent. apply wp_bind. eapply wp_mono; [apply (readi_spec dp i s t I ToKernel (DIRENT * k) DIRENT); try done; fold d; unfold DIRENT in *; consts; lia|].
  fold d. unfold avail. rewrite Z.min_l, Z.max_r by (unfold DIRENT in *; lia). intros r s' (x & u & -> & Hx & _ & [(o & -> & -> & ->)|(o & _ & [])]).
  cbn [fst snd]. rewrite Z.eqb_refl. cbn [negb]. apply wp_ret. assert (Es : with_user (fs_user s) (with_tx x s) = with_tx x s) by (by destruct s). rewrite Es.
  apply HQ. by apply (fs_again s).
Qed.

Lemma dirent_terminated F d k : terminated (Z.to_nat DIRSIZ) (de_name (dirent_at F d k)).
Proof. left. unfold de_name, dirent_at. rewrite length_drop, fbytes_length. unfold DIRSIZ, DIRENT. lia. Qed.

Lemma fbyte_is_byte s t I n x : fs_at s t I -> 0 <= n < sb_ninodes (fs_sb s) -> 0 <= x < MAXFILE * BSIZE -> is_byte (fbyte (tv_cur t) (I n) x).
Proof.
  intros A Hn Hx. unfold fbyte. destruct (fblk_wf s t I n (x / BSIZE) A Hn) as [Hl Hb].
  { split; [by apply Z.div_pos; [lia|]|apply Z.div_lt_upper_bound; [done|lia]]. }
  rewrite Forall_lookup in Hb. rewrite nth_lookup. destruct (_ !! _) as [b|] eqn:E; [by apply (Hb _ _ E)|done].
Qed.
Lemma fbytes_is_byte s t I n off m : fs_at s t I -> 0 <= n < sb_ninodes (fs_sb s) -> 0 <= off -> off + m <= MAXFILE * BSIZE -> Forall is_byte (fbytes (tv_cur t) (I n) off m).
Proof.
  intros A Hn Ho Hm. apply Forall_forall. intros b Hb. apply list_elem_of_In, in_map_iff in Hb as (x & <- & Hx%list_elem_of_In%elem_of_range).
  apply (fbyte_is_byte s t I n x A Hn). lia.
Qed.
Lemma le_val_nonneg l : Forall is_byte l -> 0 <= le_val l.
Proof. induction 1 as [|b l [Hb _] _ IH]; cbn [le_val]; lia. Qed.
Lemma entry_inum_nonneg s t I n k : fs_at s t I -> 0 <= n < sb_ninodes (fs_sb s) -> 0 <= k < entries (I n) -> 0 <= (entry (tv_cur t) (I n) k).1.
Proof.
  intros A Hn Hk. apply le_val_nonneg, Forall_take. pose proof (fi_size _ _ _ (fa_inv _ _ _ A) n Hn). apply (fbytes_is_byte s t I n); [done|done|unfold DIRENT; lia|].
  unfold entries, DIRENT in *. pose proof (Z.mul_div_le (d_size (I n)) 16 ltac:(done)). lia.
Qed.

Definition lookup_post (name : list Z) s t I (d : dinode) (r : option (Z * Z)) (s' : fss) : Prop :=
  match lookup_name (tv_cur t) d (entry_name name) with
  | None => r = None /\ exists x, s' = with_tx x s /\ fs_at s' t I
  | Some (k, n) => exists ip x l', r = Some (ip, DIRENT * k) /\ got n (fs_inodes s) ip l' /\ s' = with_inodes l' (with_tx x s) /\ fs_at s' t I
  end.

Lemma dirlookup_loop_spec dp i name s t I : fs_at s t I -> in_use (fs_inodes s) dp i -> tv_held t = ∅ -> um_ok (fs_user s) ->
  dir_ok (fs_sb s) (tv_cur t) (I (i_inum i)) -> terminated (Z.to_nat DIRSIZ) name -> has_free (fs_inodes s) ->
  forall ks pre x, fs_at (with_tx x s) t I -> pre ++ ks = range 0 (entries (I (i_inum i))) ->
  find_entry (tv_cur t) (I (i_inum i)) (entry_name name) pre = None ->
  wp (dirlookup_loop dp ROOTDEV name (map (Z.mul DIRENT) ks)) (lookup_post name s t I (I (i_inum i))) (with_tx x s).
Proof.
  intros A Hu Hh Hum Hd Hname Hfree. destruct (in_use_facts _ _ _ _ _ A Hu) as (_ & Hi & _). set (d := I (i_inum i)) in *.
  induction ks as [|k ks IH]; intros pre x Ax El Hpre; cbn [map dirlookup_loop].
  { apply wp_ret. rewrite app_nil_r in El. unfold lookup_post, lookup_name. rewrite <- El, Hpre. split; [done|]. by exists x. }
  assert (Hk : 0 <= k < entries d). { apply elem_of_range. rewrite <- El. apply elem_of_app. right. by left. }
  apply wp_bind, (read_dirent_spec dp i (with_tx x s) t I k); [done|done|done|done|apply Hd|done|]. fold d. intros y Ay. rewrite with_tx_again in *.
  change (de_inum (dirent_at (tv_cur t) d k)) with (entry (tv_cur t) d k).1.
  assert (Hskip : ~ ((entry (tv_cur t) d k).1 <> 0 /\ (entry (tv_cur t) d k).2 = entry_name name) ->
    wp (dirlookup_loop dp ROOTDEV name (map (Z.mul DIRENT) ks)) (lookup_post name s t I d) (with_tx y s)).
  { intros Hne. apply (IH (pre ++ [k])); [done|by rewrite <- app_assoc|]. rewrite find_entry_app, Hpre. cbn [find_entry]. by rewrite decide_False. }
  destruct (Z.eqb_spec (entry (tv_cur t) d k).1 0) as [E0|E0]; [apply Hskip; tauto|].
  destruct (strncmp_arr_names _ name _ Hname (dirent_terminated (tv_cur t) d k)) as (c & Ec & Hc). unfold namecmp. rewrite Ec.
  apply wp_bind. apply (wp_deref _ c); [done|]. destruct (Z.eqb_spec c 0) as [->|Hc0].
  - pose proof (entry_inum_nonneg s t I _ k A Hi Hk) as H0. pose proof (dr_inum _ _ _ Hd k Hk) as H1. fold d in H0.
    apply wp_bind, (iget_got (with_tx y s) t I); [done|done|done|]. intros ip l' Hg Al. apply wp_ret. unfold lookup_post, lookup_name. rewrite <- El, find_entry_app, Hpre.
    cbn [find_entry]. rewrite decide_True by (split; [done|]; symmetry; by apply Hc). exists ip, y, l'. done.
  - apply Hskip. intros [_ E]. apply Hc0, Hc. by symmetry.
Qed.

(** [dirlookup] finds the first entry with the name. *)
Lemma dirlookup_spec dp i name s t I : fs_at s t I -> in_use (fs_inodes s) dp i -> tv_held t = ∅ -> um_ok (fs_user s) ->
  dir_ok (fs_sb s) (tv_cur t) (I (i_inum i)) -> terminated (Z.to_nat DIRSIZ) name -> has_free (fs_inodes s) ->
  wp (dirlookup dp name) (lookup_post name s t I (I (i_inum i))) s.
Proof.
  intros A Hu Hh Hum Hd Hname Hfree. destruct (in_use_facts _ _ _ _ _ A Hu) as (Hdev & Hi & Ed). unfold dirlookup. apply wp_bind, (wp_iat dp i); [apply Hu|].
  rewrite Ed, (dr_type _ _ _ Hd), Hdev, offsets_entries by apply Hd. cbn [negb]. rewrite Z.eqb_refl. cbn [negb].
  assert (Es : with_tx (fs_tx s) s = s) by (by destruct s).
  pose proof (dirlookup_loop_spec dp i name s t I A Hu Hh Hum Hd Hname Hfree (range 0 (entries (I (i_inum i)))) [] (fs_tx s)) as H. rewrite Es in H. by apply H.
Qed.

(** A file that is not a directory. *)
Lemma dirlookup_not_dir dp i name s : znth (fs_inodes s) dp = Some i -> d_type (i_d i) <> T_DIR -> dirlookup dp name s = Panic "dirlookup not DIR" s.
Proof.
  intros Hi Ht. unfold dirlookup, bind. destruct (iat dp s) eqn:E; unfold iat, bind, gets, deref in E; cbn in E; rewrite Hi in E; try done.
  injection E as <- <-. destruct (Z.eqb_spec (d_type (i_d i)) T_DIR); done.
Qed.

(** The first free entry, or the end. *)
Lemma dirlink_loop_spec dp i s t I : fs_at s t I -> in_use (fs_inodes s) dp i -> tv_held t = ∅ -> um_ok (fs_user s) ->
  dir_ok (fs_sb s) (tv_cur t) (I (i_inum i)) -> forall m k x, fs_at (with_tx x s) t I -> 0 <= k -> k + Z.of_nat m = entries (I (i_inum i)) ->
  wp (dirlink_loop dp (map (Z.mul DIRENT) (range k (entries (I (i_inum i))))) (DIRENT * k)) (fun r s' => exists y k', s' = with_tx y s /\ fs_at s' t I /\
    r = DIRENT * k' /\ 0 <= k' <= entries (I (i_inum i)) /\ (k' < entries (I (i_inum i)) -> (entry (tv_cur t) (I (i_inum i)) k').1 = 0)) (with_tx x s).
Proof.
  intros A Hu Hh Hum Hd. set (d := I (i_inum i)) in *. induction m as [|m IH]; intros k x Ax Hk Hm.
  { rewrite range_nil by lia. apply wp_ret. exists x, k. split_and!; try done; lia. }
  rewrite range_cons by lia. cbn [map dirlink_loop]. apply wp_bind, (read_dirent_spec dp i (with_tx x s) t I k); [done|done|done|done|apply Hd|fold d; lia|]. fold d.
  intros y Ay. rewrite with_tx_again in *. change (de_inum (dirent_at (tv_cur t) d k)) with (entry (tv_cur t) d k).1.
  destruct (Z.eqb_spec (entry (tv_cur t) d k).1 0) as [E0|E0]; [apply wp_ret; exists y, k; split_and!; try done; lia|].
  replace (DIRENT * k + DIRENT) with (DIRENT * (k + 1)) by lia. apply IH; [done|lia|lia].
Qed.

(** ** Giving a reference back *)

(** Two tables with the same entries in use. *)
Definition same_live (l l' : list inode) : Prop :=
  length l' = length l /\ forall k i i', znth l k = Some i -> znth l' k = Some i' -> i = i' \/ i_ref i = 0 /\ i_ref i' = 0 /\ i_lock i' = i_lock i.

Lemma got_lt n l ip l' : got n l ip l' -> 0 <= ip < Z.of_nat (length l).
Proof. intros (i & i' & Hi & _). by apply (znth_Some_lt _ _ i). Qed.

Lemma got_entry n l ip l' : got n l ip l' -> exists i', znth l' ip = Some i' /\ i_inum i' = n /\ i_dev i' = ROOTDEV /\ 0 < i_ref i' /\ (i_ref i' = 1 -> i_valid i' = false).
Proof.
  intros Hg. pose proof (got_lt _ _ _ _ Hg) as Hlt. destruct Hg as (i & i' & Hi & -> & Hd & Hn & Hc). exists i'. rewrite znth_zset_eq by done.
  split_and!; [done|done|done| |]; destruct Hc as [[[Hr _] ->]|(Hr & -> & _)]; cbn [set_ref i_ref i_valid]; try lia; done.
Qed.

(** [iput] of a reference that [iget] just made. *)
Lemma iput_got n l ip s t I (Q : unit -> fss -> Prop) : fs_at s t I -> got n l ip (fs_inodes s) ->
  (forall l', same_live l l' -> fs_at (with_inodes l' s) t I -> Q tt (with_inodes l' s)) -> wp (iput ip) Q s.
Proof.
  intros A Hg HQ. pose proof (got_lt _ _ _ _ Hg) as Hlt. destruct (got_entry _ _ _ _ Hg) as (i' & Hi' & Hn & Hd & Hr & Hv).
  apply (iput_drop s t I ip i'); [done|done|done| |].
  { destruct (decide (i_ref i' = 1)); [right; left; by apply Hv|by left]. }
  intros s' A'. apply HQ; [|done]. destruct Hg as (i & i2 & Hi & El & _ & _ & Hc). rewrite El in Hi' |- *. rewrite znth_zset_eq in Hi' by done. injection Hi' as ->.
  rewrite zset_zset. split; [by rewrite zset_length|]. intros k j j' Hj. rewrite (znth_zset _ _ _ _ i) by done. case_decide as Hk; [|intros Hj'; left; congruence].
  intros [= <-]. subst k. assert (j = i) as -> by congruence. destruct Hc as [[_ ->]|(H0 & -> & _)].
  - left. destruct i. unfold set_ref. cbn. f_equal. lia.
  - right. cbn. done.
Qed.

Definition link_post (B : gset Z) dp (i : inode) (name : list Z) (inum : Z) s t I (r : Z) (s' : fss) : Prop :=
  let n := i_inum i in let nm := entry_name name in
  match lookup_name (tv_cur t) (I n) nm with
  | Some _ => r = -1 /\ exists x l', s' = with_inodes l' (with_tx x s) /\ same_live (fs_inodes s) l' /\ fs_at s' t I
  | None => exists x t' I' k data, s' = with_inodes (zset (fs_inodes s) dp (set_d (I' n) i)) (with_tx x s) /\ fs_at s' t' I' /\ evolves B 2 t t' /\
      wrote (fs_sb s) n (DIRENT * k) data (tv_cur t) I (tv_cur t') I' /\ dir_ok (fs_sb s) (tv_cur t') (I' n) /\
      (forall j, 0 <= j < entries (I' n) -> (r = 0 /\ entry (tv_cur t') (I' n) j = (inum, nm)) \/
         (j < entries (I n) /\ entry (tv_cur t') (I' n) j = entry (tv_cur t) (I n) j)) /\
      (r = 0 /\ (forall q, lookup_name (tv_cur t') (I' n) q = if decide (q = nm) then Some (k, inum) else lookup_name (tv_cur t) (I n) q) \/
       r = -1 /\ all_used (fs_sb s) (tv_cur t') /\ (forall q, lookup_name (tv_cur t') (I' n) q = lookup_name (tv_cur t) (I n) q))
  end.

Lemma span_dirent k : 0 <= k -> span (DIRENT * k) DIRENT = 1.
Proof.
  intros Hk. unfold span, DIRENT. cbn [Z.leb Z.compare]. unfold BSIZE. pose proof (Z.div_mod (16 * k) 1024 ltac:(done)) as E. pose proof (Z.mod_pos_bound (16 * k) 1024 ltac:(done)) as Hm.
  assert (Hm16 : (16 * k) mod 1024 <= 1008).
  { replace 1024 with (16 * 64) by done. rewrite Z.mul_mod_distr_l by done. pose proof (Z.mod_pos_bound k 64 ltac:(done)). lia. }
  replace (16 * k + 16 - 1) with ((16 * k) mod 1024 + 15 + (16 * k / 1024) * 1024) by lia. rewrite Z.div_add by done. rewrite (Z.div_small (_ + 15)) by lia. lia.
Qed.
Lemma dirent_short k w : 0 <= k -> 0 <= w < DIRENT -> w = 0 \/ (DIRENT * k + w) mod BSIZE = 0 -> w = 0.
Proof.
  intros Hk Hw [?|E]; [done|]. unfold DIRENT, BSIZE in *. apply Z.mod_divide in E as [q E]; [|done]. lia.
Qed.

(** [dirlink] adds the binding, unless the name is taken or the disk is full. *)
Lemma dirlink_spec B dp i name inum s t I : fs_at s t I -> in_use (fs_inodes s) dp i -> tv_held t = ∅ -> um_ok (fs_user s) ->
  dir_ok (fs_sb s) (tv_cur t) (I (i_inum i)) -> terminated (Z.to_nat DIRSIZ) name -> Forall is_byte name -> has_free (fs_inodes s) ->
  room B 2 t -> has_map (fs_sb s) B -> IBLOCK (i_inum i) (fs_sb s) ∈ B -> 0 < inum < sb_ninodes (fs_sb s) -> inum < 2 ^ 16 ->
  d_size (I (i_inum i)) + DIRENT <= MAXFILE * BSIZE -> wp (dirlink dp name inum) (link_post B dp i name inum s t I) s.
Proof.
  intros A Hu Hh Hum Hd Hname Hbytes Hfree Hroom HB HI Hin Hin16 Hsz. destruct (in_use_facts _ _ _ _ _ A Hu) as (_ & Hi & Ed).
  unfold dirlink. apply wp_bind. eapply wp_mono; [by apply (dirlookup_spec dp i name s t I)|]. intros r s1. unfold lookup_post, link_post. cbv zeta.
  set (n := i_inum i) in *. set (d := I n) in *. set (F := tv_cur t) in *. destruct (lookup_name F d (entry_name name)) as [[k' n']|] eqn:El.
  - intros (ip & x & l' & -> & Hg & -> & A1). apply wp_bind, (iput_got n' (fs_inodes s) ip _ t I); [done|done|]. intros l2 Hl A2. apply wp_ret. split; [done|].
    by exists x, l2.
  - intros (-> & x & -> & A1). apply wp_bind, (wp_iat dp i); [apply Hu|]. rewrite Ed. fold n d. rewrite offsets_entries by apply Hd.
    assert (Hent : 0 <= entries d) by (apply Z.div_pos; [apply (fi_inode _ _ _ (fa_inv _ _ _ A) n Hi)|done]).
    apply wp_bind. eapply wp_mono; [apply (dirlink_loop_spec dp i s t I A Hu Hh Hum Hd (Z.to_nat (entries d)) 0 x A1); fold n d; lia|]. fold n d F.
    intros off s2 (y & k & -> & A2 & -> & Hk & Hfreek). destruct (strncpy_arr_name _ name Hname) as (q & Eq & Hlq & Hcq & Hbq).
    apply wp_bind, (wp_deref _ q); [done|]. set (data := le_bytes 2 inum ++ q).
    assert (Hld : Z.of_nat (length data) = DIRENT) by (unfold data; by rewrite length_app, le_bytes_length, Hlq).
    pose proof (Z.mul_div_le (d_size d) DIRENT ltac:(done)) as Hdl. fold (entries d) in Hdl. assert (Hkd : DIRENT * k <= d_size d) by (unfold DIRENT in *; lia).
    apply wp_bind. eapply wp_mono; [apply (writei_spec B dp i (with_tx y s) t I (FromKernel data) (DIRENT * k) DIRENT data); try done; fold n d|].
    + rewrite (dr_type _ _ _ Hd). done.
    + constructor; [done| |by rewrite firstn_all]. apply Forall_app; split; [apply le_bytes_is_bytes|by apply Hbq].
    + by rewrite span_dirent by lia.
    + unfold DIRENT in *; lia.
    + lia.
    + intros w s3 (t' & I' & A3 & Ev & Hw & W & (z & Es) & Hshort). cbn [with_tx fs_sb fs_inodes] in *. fold n F in W, Es. rewrite span_dirent in Ev by lia.
      assert (Hpost : exists v, v = (if negb (w =? DIRENT) then -1 else 0) /\ wp (if negb (w =? DIRENT) then ret (-1) else ret 0) (fun r s' => r = v /\ s' = s3) s3).
      { eexists. split; [done|]. by destruct (negb _). }
      destruct Hpost as (v & Ev' & Hwp). eapply wp_mono; [exact Hwp|]. intros r s' [-> ->]. subst v.
      exists z, t', I', k, (take (Z.to_nat w) data). rewrite with_tx_again in Es. split_and!; [done|done|done|done| | |].
      all: destruct (Z.eqb_spec w DIRENT) as [->|Hne]; cbn [negb]; [rewrite take_ge in W by lia|destruct (Hshort ltac:(lia)) as [Hall Hcut];
        rewrite (dirent_short k w ltac:(lia) ltac:(lia) Hcut) in W; change (take (Z.to_nat 0) data) with (@nil Z) in W; destruct (unlinked_same _ _ _ _ _ _ _ W Hkd ltac:(fold d; lia) Hd) as (Hd' & Hl' & Hen & Hee)].
      * apply (link_dir_ok _ _ k inum q F I); try done; try lia; fold d; unfold DIRENT in *; lia.
      * done.
      * intros j Hj. rewrite (link_count _ _ k inum q F I _ _ W) in Hj by done. destruct (decide (j = k)) as [->|Hjk].
        -- left. split; [done|]. rewrite (link_new _ _ k inum q F I _ _ W) by (try done; fold d; unfold DIRENT in *; lia). unfold entry_name. by rewrite Hcq.
        -- right. assert (j < entries d) by (fold d in Hj; lia). split; [done|]. apply (link_other _ _ k inum q F I _ _ W); try done; fold d; unfold DIRENT in *; lia.
      * intros j Hj. rewrite Hen in Hj. right. split; [apply Hj|by apply Hee].
      * left. split; [done|]. intros nm. pose proof (link_lookup _ _ k inum q F I _ _ W) as H. unfold entry_name in *. rewrite Hcq in H. apply H; try done; fold d; unfold DIRENT in *; lia.
      * right. done.
Qed.
End dirs.
