(* ===== verification/FsNamex.v ===== *)
(** * Paths: [skipelem], [namex], [namei], [nameiparent]

    A path is its list of elements; [namex] walks it from the root or the
    current directory, and the table of inodes ends with one reference more,
    to the inode the path names. *)

From stdpp Require Import base numbers list gmap strings.
From Stdlib Require Import ZArith Lia.
From S2P Require Import Prelude Blocks Monad Codec Mem UserMem Bio BioCache Log LogCrash Txn Fs FsImage FsInv FsAlloc FsRead FsWritei FsTrunc FsInode FsDir.
Open Scope Z_scope.

(** ** The elements of a path *)

Definition flush (cur : list Z) : list (list Z) := match cur with [] => [] | _ => [cur] end.
(** The elements, given the characters read of the current one. *)
Fixpoint elements_from (cur path : list Z) : list (list Z) :=
  match path with
  | [] => flush cur
  | c :: path => if c =? SLASH then flush cur ++ elements_from [] path else elements_from (cur ++ [c]) path
  end.
Definition elements (path : list Z) : list (list Z) := elements_from [] path.

Lemma elements_skip path : elements (skip_slashes path) = elements path.
Proof.
  unfold elements. induction path as [|c path IH]; [done|]. cbn [skip_slashes elements_from flush app]. destruct (Z.eqb_spec c SLASH) as [->|Hc]; [done|].
  cbn [elements_from]. destruct (Z.eqb_spec c SLASH); done.
Qed.
Lemma elements_elem path : forall cur, elements_from cur path = flush (cur ++ (elem_of_path path).1) ++ elements (elem_of_path path).2.
Proof.
  induction path as [|c path IH]; intros cur; cbn [elements_from elem_of_path].
  - unfold elements. cbn. by rewrite !app_nil_r.
  - destruct (Z.eqb_spec c SLASH) as [->|Hc]; cbn [fst snd]; [by rewrite app_nil_r|]. rewrite IH. by rewrite <- app_assoc.
Qed.
Lemma skip_slashes_head path c p : skip_slashes path = c :: p -> c <> SLASH.
Proof. induction path as [|x path IH]; cbn [skip_slashes]; [done|]. destruct (Z.eqb_spec x SLASH); [done|]. by intros [= <- <-]. Qed.
Lemma skip_slashes_len path : (length (skip_slashes path) <= length path)%nat.
Proof. induction path as [|x path IH]; cbn [skip_slashes length]; [done|]. destruct (x =? SLASH); cbn; lia. Qed.
Lemma elem_of_path_len path : (length (elem_of_path path).1 + length (elem_of_path path).2 = length path)%nat.
Proof. induction path as [|x path IH]; cbn [elem_of_path length]; [done|]. destruct (x =? SLASH); cbn; lia. Qed.
Lemma elem_of_path_in path x : x ∈ (elem_of_path path).1 -> x ∈ path.
Proof.
  induction path as [|c path IH]; cbn [elem_of_path]; [done|]. destruct (c =? SLASH); cbn [fst]; [by intros ?%elem_of_nil|].
  intros [->|H]%elem_of_cons; [by left|right; by apply IH].
Qed.
Lemma skip_in p x : x ∈ skip_slashes p -> x ∈ p.
Proof. induction p as [|c p IH]; cbn [skip_slashes]; [done|]. destruct (c =? SLASH); [intros; right; by apply IH|done]. Qed.
Lemma skip_skip l : skip_slashes (skip_slashes l) = skip_slashes l.
Proof. induction l as [|x l IH]; cbn [skip_slashes]; [done|]. destruct (x =? SLASH) eqn:Ex; [done|]. cbn [skip_slashes]. by rewrite Ex. Qed.
Lemma skip_rest_in path x : x ∈ skip_slashes (elem_of_path path).2 -> x ∈ path.
Proof.
  intros H%skip_in. revert H. induction path as [|c path IH]; cbn [elem_of_path]; [done|]. destruct (c =? SLASH); cbn [snd]; [done|]. intros. right. by apply IH.
Qed.

Lemma elements_nil path : elements path = [] -> skip_slashes path = [].
Proof.
  rewrite <- elements_skip. destruct (skip_slashes path) as [|c p] eqn:E; [done|]. unfold elements. rewrite elements_elem. apply skip_slashes_head in E.
  cbn [elem_of_path]. destruct (Z.eqb_spec c SLASH); done.
Qed.

(** The name that [skipelem] leaves in the buffer. *)
Lemma cname_take n s : (forall x, x ∈ s -> x <> 0) -> cname n s = take n s.
Proof.
  revert s. induction n as [|n IH]; intros [|x s] H; cbn [cname take]; try done. destruct (Z.eqb_spec x 0) as [->|Hx]; [by destruct (H 0); [left|]|].
  rewrite IH; [done|]. intros y Hy. apply H. by right.
Qed.
Lemma cname_zero n s junk : (forall x, x ∈ s -> x <> 0) -> (length s <= n)%nat -> cname n (s ++ 0 :: junk) = s.
Proof.
  revert s. induction n as [|n IH]; intros [|x s] H Hl; cbn [cname app]; try done; [cbn in Hl; lia|].
  destruct (Z.eqb_spec x 0) as [->|Hx]; [by destruct (H 0); [left|]|]. rewrite IH; [done| |cbn in Hl; lia]. intros y Hy. apply H. by right.
Qed.

(** One element of the path at a time. *)
Lemma skipelem_elements path name : length name = Z.to_nat DIRSIZ -> (forall x, x ∈ path -> x <> 0) ->
  match skipelem path name with
  | None => elements path = []
  | Some (path', name') => exists e, elements path = e :: elements path' /\ entry_name name' = take (Z.to_nat DIRSIZ) e /\
      length name' = Z.to_nat DIRSIZ /\ (forall x, x ∈ path' -> x <> 0) /\ (length path' < length path)%nat /\ (path' = [] <-> elements path' = [])
  end.
Proof.
  intros Hn Hp. unfold skipelem. pose proof (elements_skip path) as Ee. pose proof (skip_slashes_len path) as Hlen. destruct (skip_slashes path) as [|c p] eqn:E; [done|].
  pose proof (skip_slashes_head _ _ _ E) as Hc. set (q := c :: p) in *.
  assert (Hq : forall x, x ∈ q -> x <> 0).
  { intros x Hx. apply Hp, skip_in. by rewrite E. }
  pose proof (elements_elem q []) as E1. pose proof (elem_of_path_len q) as E2. pose proof (elem_of_path_in q) as Hin. pose proof (skip_rest_in q) as Hr.
  assert (Hne : (elem_of_path q).1 <> []). { unfold q. cbn [elem_of_path]. destruct (Z.eqb_spec c SLASH); done. }
  destruct (elem_of_path q) as [s rest]. cbn [fst snd app] in *. exists s. split_and!.
  - unfold elements in *. rewrite <- Ee, E1. unfold flush. destruct s; [done|]. cbn [app]. f_equal. symmetry. apply elements_skip.
  - assert (Hs : forall x, x ∈ s -> x <> 0) by (intros; by apply Hq, Hin). unfold entry_name. destruct (Z.leb_spec DIRSIZ (Z.of_nat (length s))) as [Hge|Hlt].
    + rewrite cname_take; [by rewrite take_take, Nat.min_id|]. intros x Hx. apply Hs. apply elem_of_take in Hx as (? & ? & ?). by eapply list_elem_of_lookup_2.
    + rewrite take_ge by lia. unfold splice. change (Z.to_nat 0) with 0%nat. rewrite firstn_O. cbn [app Nat.add]. rewrite <- app_assoc. cbn [app]. apply cname_zero; [done|lia].
  - destruct (Z.leb_spec DIRSIZ (Z.of_nat (length s))) as [Hge|Hlt]; [rewrite length_take; lia|]. unfold splice. change (Z.to_nat 0) with 0%nat. rewrite firstn_O. cbn [app Nat.add].
    rewrite !length_app, length_drop, Hn, ?length_app. cbn [length]. unfold DIRSIZ in *. lia.
  - intros x Hx. by apply Hq, Hr.
  - pose proof (skip_slashes_len rest). assert (length s <> 0)%nat by (by destruct s). cbn [length] in *. lia.
  - split; [by intros ->|]. intros H%elements_nil. by rewrite skip_skip in H.
Qed.

(** * Walking a path: [namex]

    The references the table of inodes holds, counted per inode, and the walk
    of [namex] against the directories read as maps. *)

(** ** Counting references *)

Definition ref_of (n : Z) (i : inode) : Z := if i_inum i =? n then i_ref i else 0.
Fixpoint refs (l : list inode) (n : Z) : Z := match l with [] => 0 | i :: l => ref_of n i + refs l n end.
Definition idle (i : inode) : Z := if i_ref i =? 0 then 1 else 0.
Fixpoint nfree (l : list inode) : Z := match l with [] => 0 | i :: l => idle i + nfree l end.
Definition one (b : bool) : Z := if b then 1 else 0.

Lemma zset_cons (x : inode) l k v : zset (x :: l) k v = if k =? 0 then v :: l else if k <? 0 then x :: l else x :: zset l (k - 1) v.
Proof.
  unfold zset. destruct (Z.eqb_spec k 0) as [->|]; [done|]. destruct (Z.ltb_spec k 0).
  - done.
  - destruct (Z.ltb_spec (k - 1) 0); [lia|]. replace (Z.to_nat k) with (S (Z.to_nat (k - 1))) by lia. done.
Qed.

Lemma refs_zset l n i i' : forall ip, znth l ip = Some i -> refs (zset l ip i') n = refs l n - ref_of n i + ref_of n i'.
Proof.
  induction l as [|x l IH]; intros ip; [by destruct ip|]. rewrite znth_cons, zset_cons. destruct (Z.eqb_spec ip 0); [intros [= ->]; cbn [refs]; lia|].
  intros Hi. pose proof (znth_Some_lt _ _ _ Hi). destruct (Z.ltb_spec ip 0); [lia|]. cbn [refs]. rewrite IH by done. lia.
Qed.
Lemma nfree_zset l i i' : forall ip, znth l ip = Some i -> nfree (zset l ip i') = nfree l - idle i + idle i'.
Proof.
  induction l as [|x l IH]; intros ip; [by destruct ip|]. rewrite znth_cons, zset_cons. destruct (Z.eqb_spec ip 0); [intros [= ->]; cbn [nfree]; lia|].
  intros Hi. pose proof (znth_Some_lt _ _ _ Hi). destruct (Z.ltb_spec ip 0); [lia|]. cbn [nfree]. rewrite IH by done. lia.
Qed.
Lemma nfree_has_free l : 0 < nfree l -> has_free l.
Proof.
  induction l as [|x l IH]; cbn [nfree]; [lia|]. unfold idle. destruct (Z.eqb_spec (i_ref x) 0) as [E|E]; [intros _; by exists 0, x|].
  intros H. destruct IH as (k & i & Hi & H0); [lia|]. exists (k + 1), i. split; [|done]. rewrite znth_cons. pose proof (znth_Some_lt _ _ _ Hi).
  destruct (Z.eqb_spec (k + 1) 0); [lia|]. by replace (k + 1 - 1) with k by lia.
Qed.
Lemma refs_none l n : (forall k i, znth l k = Some i -> 0 <= i_ref i /\ (i_inum i = n -> i_ref i = 0)) -> refs l n = 0.
Proof.
  induction l as [|x l IH]; intros H; cbn [refs]; [done|]. rewrite IH.
  - unfold ref_of. destruct (H 0 x) as [_ Hx]; [done|]. destruct (Z.eqb_spec (i_inum x) n); [by rewrite Hx|done].
  - intros k i Hi. apply (H (k + 1)). rewrite znth_cons. pose proof (znth_Some_lt _ _ _ Hi). destruct (Z.eqb_spec (k + 1) 0); [lia|]. by replace (k + 1 - 1) with k by lia.
Qed.

(** In a table without duplicates the count is the reference count of the entry. *)
Lemma refs_entry sb l F I ip i : itab sb l F I -> znth l ip = Some i -> 0 < i_ref i -> refs l (i_inum i) = i_ref i.
Proof.
  intros Tab Hi Hr. pose proof (refs_zset l (i_inum i) i (set_ref 0 i) ip Hi) as E. rewrite (refs_none (zset l ip (set_ref 0 i))) in E.
  - unfold ref_of in E. cbn [set_ref i_inum i_ref] in E. rewrite Z.eqb_refl in E. lia.
  - intros k j. rewrite (znth_zset _ _ _ _ i) by done. case_decide; [by intros [= <-]|]. intros Hj. pose proof (it_ref _ _ _ _ Tab k j Hj). split; [done|].
    intros En. destruct (decide (i_ref j = 0)); [done|]. destruct H. by apply (it_uniq _ _ _ _ Tab k ip j i); try lia.
Qed.
Lemma refs_fresh sb l F I n : itab sb l F I -> (forall k j, znth l k = Some j -> ~ is_inode ROOTDEV n j) -> refs l n = 0.
Proof.
  intros Tab Hno. apply refs_none. intros k j Hj. pose proof (it_ref _ _ _ _ Tab k j Hj). split; [done|]. intros En. destruct (decide (i_ref j = 0)); [done|].
  exfalso. apply (Hno k j Hj). destruct (it_ent _ _ _ _ Tab k j Hj ltac:(lia)) as (? & _). split_and!; [lia|done|done].
Qed.

(** What [iget] does to the counts. *)
Lemma got_counts sb l F I n ip l' : itab sb l F I -> got n l ip l' ->
  (forall m, refs l' m = refs l m + one (m =? n)) /\ nfree l' = nfree l - one (refs l n =? 0).
Proof.
  intros Tab (i & i' & Hi & -> & _ & En & [[Hin ->]|(H0 & -> & Hno)]).
  - cbn [set_ref i_inum] in En. pose proof (refs_entry _ _ _ _ _ _ Tab Hi ltac:(apply Hin)) as Er. rewrite En in Er. split.
    + intros m. rewrite (refs_zset _ _ i) by done. unfold ref_of. cbn [set_ref i_inum i_ref]. rewrite En, (Z.eqb_sym n m). unfold one. destruct (m =? n); lia.
    + rewrite (nfree_zset _ i) by done. destruct Hin as [Hr _]. unfold idle. cbn [set_ref i_ref]. rewrite Er. unfold one.
      destruct (Z.eqb_spec (i_ref i + 1) 0), (Z.eqb_spec (i_ref i) 0); lia.
  - rewrite (refs_fresh _ _ _ _ n Tab Hno). split.
    + intros m. rewrite (refs_zset _ _ i) by done. unfold ref_of. cbn [i_inum i_ref]. rewrite H0, (Z.eqb_sym n m). unfold one. destruct (m =? n), (i_inum i =? m); lia.
    + rewrite (nfree_zset _ i) by done. unfold idle. cbn [i_ref]. rewrite H0. cbn. lia.
Qed.

(** ** The reference walk *)

Fixpoint walk (F : blocks) (I : Z -> dinode) (n : Z) (es : list (list Z)) : option Z :=
  match es with
  | [] => Some n
  | e :: es =>
    if d_type (I n) =? T_DIR then
      match lookup_name F (I n) (take (Z.to_nat DIRSIZ) e) with Some (_, m) => walk F I m es | None => None end
    else None
  end.
(** The directory that holds the last element, and the name it has there. *)
Fixpoint walk_parent (F : blocks) (I : Z -> dinode) (n : Z) (es : list (list Z)) : option (Z * list Z) :=
  match es with
  | [] => None
  | e :: es =>
    if d_type (I n) =? T_DIR then
      match es with
      | [] => Some (n, take (Z.to_nat DIRSIZ) e)
      | _ => match lookup_name F (I n) (take (Z.to_nat DIRSIZ) e) with Some (_, m) => walk_parent F I m es | None => None end
      end
    else None
  end.

(** The directories that have links, and what they name. *)
Record tree_ok (sb : superblock) (F : blocks) (I : Z -> dinode) : Prop := {
  tr_dir : forall n, 0 <= n < sb_ninodes sb -> d_type (I n) = T_DIR -> d_nlink (I n) <> 0 -> dir_ok sb F (I n);
  tr_target : forall n k, 0 <= n < sb_ninodes sb -> d_type (I n) = T_DIR -> d_nlink (I n) <> 0 -> 0 <= k < entries (I n) ->
    (entry F (I n) k).1 <> 0 -> d_type (I (entry F (I n) k).1) <> 0 /\ d_nlink (I (entry F (I n) k).1) <> 0;
  tr_sync : forall n, 0 <= n < sb_ninodes sb -> disk_inode sb F n = I n;
}.
Definition quiet (l : list inode) : Prop := forall k i, znth l k = Some i -> i_lock i = false.

Definition same_counts (l l' : list inode) : Prop := (forall m, refs l' m = refs l m) /\ nfree l' = nfree l.
Definition plus_one (l l' : list inode) (n : Z) : Prop := (forall m, refs l' m = refs l m + one (m =? n)) /\ nfree l' = nfree l - one (refs l n =? 0).
Definition minus_one (l l' : list inode) (n : Z) : Prop := (forall m, refs l' m = refs l m - one (m =? n)) /\ nfree l' = nfree l + one (refs l n =? 1).

Lemma plus_minus l l1 l2 n : plus_one l l1 n -> minus_one l1 l2 n -> (forall m, 0 <= refs l m) -> same_counts l l2.
Proof.
  intros [A1 A2] [B1 B2] H0. split; [intros m; rewrite B1, A1; lia|]. rewrite B2, A2, A1, Z.eqb_refl. specialize (H0 n). unfold one.
  destruct (Z.eqb_spec (refs l n) 0), (Z.eqb_spec (refs l n + 1) 1); lia.
Qed.
Lemma plus_plus_minus l l1 l2 l3 n m : plus_one l l1 n -> plus_one l1 l2 m -> minus_one l2 l3 n -> (forall m, 0 <= refs l m) -> plus_one l l3 m.
Proof.
  intros [A1 A2] [B1 B2] [C1 C2] H0. split; [intros k; rewrite C1, B1, A1; lia|]. rewrite C2, B2, A2, B1, !A1, Z.eqb_refl. pose proof (H0 n). pose proof (H0 m). unfold one.
  destruct (decide (m = n)) as [->|Hne]; [rewrite ?Z.eqb_refl|destruct (Z.eqb_spec n m), (Z.eqb_spec m n); try lia]; repeat match goal with |- context [?a =? ?b] => destruct (Z.eqb_spec a b) end; lia.
Qed.
Lemma same_plus l l1 l2 n : same_counts l l1 -> plus_one l1 l2 n -> plus_one l l2 n.
Proof. intros [A1 A2] [B1 B2]. split; [intros m; by rewrite B1, A1|]. by rewrite B2, A2, A1. Qed.
Lemma plus_same l l1 l2 n : plus_one l l1 n -> same_counts l1 l2 -> plus_one l l2 n.
Proof. intros [A1 A2] [B1 B2]. split; [intros m; by rewrite B1, A1|]. by rewrite B2, A2. Qed.

(** A change of an entry that keeps its inode and its reference count. *)
Lemma same_counts_set l ip i i' : znth l ip = Some i -> i_inum i' = i_inum i -> i_ref i' = i_ref i -> same_counts l (zset l ip i').
Proof.
  intros Hi En Er. split; [intros m; rewrite (refs_zset _ _ i) by done; unfold ref_of; rewrite En, Er; lia|].
  rewrite (nfree_zset _ i) by done. unfold idle. rewrite Er. lia.
Qed.

(** The locks. *)
Definition quiet_but (ip : Z) (l : list inode) : Prop := forall k i, k <> ip -> znth l k = Some i -> i_lock i = false.

Lemma quiet_set l ip i i' : znth l ip = Some i -> quiet_but ip l -> i_lock i' = false -> quiet (zset l ip i').
Proof. intros Hi Hq Hl k j. rewrite (znth_zset _ _ _ _ i) by done. case_decide; [by intros [= <-]|by apply Hq]. Qed.
Lemma quiet_but_set l ip i i' : znth l ip = Some i -> quiet_but ip l -> quiet_but ip (zset l ip i').
Proof. intros Hi Hq k j Hk. rewrite (znth_zset _ _ _ _ i) by done. rewrite decide_False by done. by apply Hq. Qed.

(** [iget] of some inode keeps an entry in use, apart from its count. *)
Lemma got_keep n l ip' l' ip i : got n l ip' l' -> in_use l ip i -> quiet_but ip l ->
  exists i', in_use l' ip i' /\ i_inum i' = i_inum i /\ i_lock i' = i_lock i /\ quiet_but ip l'.
Proof.
  intros (j & j' & Hj & -> & _ & _ & Hc) [Hi Hr Hv] Hq. assert (E : forall k, znth (zset l ip' j') k = if decide (k = ip') then Some j' else znth l k) by (intros; by apply (znth_zset _ _ _ _ j)).
  assert (Hlock : i_lock j' = i_lock j) by (by destruct Hc as [[_ ->]|(_ & -> & _)]).
  assert (Hq' : quiet_but ip (zset l ip' j')). { intros k a Hk. rewrite E. case_decide; [intros [= <-]; rewrite Hlock; apply (Hq k); [done|by subst]|by apply Hq]. }
  destruct (decide (ip = ip')) as [->|Hne].
  - assert (j = i) as -> by congruence. destruct Hc as [[_ ->]|(H0 & _)]; [|lia]. exists (set_ref (i_ref i + 1) i). split_and!; [|done|done|done].
    constructor; [rewrite E; by rewrite decide_True|cbn [set_ref i_ref]; lia|done].
  - exists i. split_and!; [|done|done|done]. constructor; [rewrite E; by rewrite decide_False|done|done].
Qed.

Section namex.
Context {T U : Type} {TX : Transactions T} {TXok : TransactionsOK T} {UM : UserMemory U} {UMok : UserMemoryOK U}.
Abbreviation fss := (fsst T U).
Implicit Types (s : fss) (t : tview) (I : Z -> dinode).

Lemma refs_nonneg sb l F I m : itab sb l F I -> 0 <= refs l m.
Proof.
  intros Tab. assert (H : forall k i, znth l k = Some i -> 0 <= i_ref i) by apply Tab. clear Tab. induction l as [|x l IH]; cbn [refs]; [done|].
  assert (0 <= ref_of m x) by (unfold ref_of; destruct (i_inum x =? m); [by apply (H 0)|done]).
  assert (0 <= refs l m); [|lia]. apply IH. intros k i Hi. apply (H (k + 1) i). rewrite znth_cons. pose proof (znth_Some_lt _ _ _ Hi).
  destruct (Z.eqb_spec (k + 1) 0); [lia|]. by replace (k + 1 - 1) with k by lia.
Qed.

(** Giving back a reference to an inode that has links. *)
Lemma iput_linked s t I ip i (Q : unit -> fss -> Prop) : fs_at s t I -> znth (fs_inodes s) ip = Some i -> 0 < i_ref i ->
  d_nlink (I (i_inum i)) <> 0 -> disk_inode (fs_sb s) (tv_cur t) (i_inum i) = I (i_inum i) ->
  (let l' := zset (fs_inodes s) ip (set_ref (i_ref i - 1) i) in minus_one (fs_inodes s) l' (i_inum i) -> fs_at (with_inodes l' s) t I -> Q tt (with_inodes l' s)) -> wp (iput ip) Q s.
Proof.
  intros A Hi Hr Hl Hd HQ. apply (iput_drop s t I ip i); [done|done|done|by right; right|]. intros s' A'. apply HQ; [|done].
  pose proof (refs_entry _ _ _ _ ip i (fa_tab _ _ _ A) Hi Hr) as Er. split.
  - intros m. rewrite (refs_zset _ _ i) by done. unfold ref_of, one. cbn [set_ref i_inum i_ref]. rewrite (Z.eqb_sym m). destruct (i_inum i =? m); lia.
  - rewrite (nfree_zset _ i) by done. rewrite Er. unfold idle, one. cbn [set_ref i_ref]. destruct (Z.eqb_spec (i_ref i) 0), (Z.eqb_spec (i_ref i - 1) 0), (Z.eqb_spec (i_ref i) 1); lia.
Qed.

(** [iunlockput] of an inode that has links. *)
Lemma iunlockput_linked s t I ip i (Q : unit -> fss -> Prop) : fs_at s t I -> in_use (fs_inodes s) ip i -> i_lock i = true ->
  d_nlink (I (i_inum i)) <> 0 -> disk_inode (fs_sb s) (tv_cur t) (i_inum i) = I (i_inum i) ->
  (let l' := zset (fs_inodes s) ip (set_ref (i_ref i - 1) (set_lock false i)) in minus_one (fs_inodes s) l' (i_inum i) -> fs_at (with_inodes l' s) t I -> Q tt (with_inodes l' s)) ->
  wp (iunlockput ip) Q s.
Proof.
  intros A Hu Hl Hn Hd HQ. unfold iunlockput. apply wp_bind, (iunlock_spec s t I ip i); [done|done|done|]. intros s1 A1. pose proof (iu_ref _ _ _ Hu) as Hr.
  pose proof (same_counts_set _ ip i (set_lock false i) (iu_at _ _ _ Hu) eq_refl eq_refl) as [C1 C2].
  apply (iput_linked s1 t I ip (set_lock false i)); [done|apply znth_zset_eq, (znth_Some_lt _ _ i), Hu|done|done|done|]. unfold s1. cbn [with_inodes fs_inodes]. rewrite zset_zset.
  intros [M1 M2] A2. apply HQ; [|done]. split; [intros m; etrans; [apply M1|by rewrite C1]|etrans; [apply M2|by rewrite C2, C1]].
Qed.

Definition dest_of (parent : bool) (F : blocks) I (n : Z) (es : list (list Z)) : option Z :=
  if parent then fst <$> walk_parent F I n es else walk F I n es.

(** One reference more, to the inode the path names; none if there is no such inode. *)
Definition namex_post (parent : bool) (n : Z) (es : list (list Z)) (l0 : list inode) s t I (r : option Z * list Z) (s' : fss) : Prop :=
  exists x l', s' = with_inodes l' (with_tx x s) /\ fs_at s' t I /\ quiet l' /\
    match dest_of parent (tv_cur t) I n es with
    | None => r.1 = None /\ same_counts l0 l'
    | Some m => exists ip i, r.1 = Some ip /\ znth l' ip = Some i /\ i_inum i = m /\ 0 < i_ref i /\ plus_one l0 l' m /\
        (parent = true -> length r.2 = Z.to_nat DIRSIZ /\ walk_parent (tv_cur t) I n es = Some (m, entry_name r.2))
    end.

(** The walk with the current directory locked. *)
Record walking (l0 : list inode) (ip : Z) (i : inode) s t I : Prop := {
  wk_at : fs_at s t I;
  wk_use : in_use (fs_inodes s) ip i;
  wk_lock : i_lock i = true;
  wk_count : plus_one l0 (fs_inodes s) (i_inum i);
  wk_quiet : quiet_but ip (fs_inodes s);
  wk_link : d_nlink (I (i_inum i)) <> 0;
  wk_sync : disk_inode (fs_sb s) (tv_cur t) (i_inum i) = I (i_inum i);
}.

Lemma walk_lock l0 ip i s t I (Q : unit -> fss -> Prop) : fs_at s t I -> tree_ok (fs_sb s) (tv_cur t) I -> tv_held t = ∅ -> quiet (fs_inodes s) ->
  znth (fs_inodes s) ip = Some i -> 0 < i_ref i -> plus_one l0 (fs_inodes s) (i_inum i) -> d_type (I (i_inum i)) <> 0 -> d_nlink (I (i_inum i)) <> 0 ->
  (forall x l', let i1 := locked i (I (i_inum i)) in let s' := with_inodes l' (with_tx x s) in walking l0 ip i1 s' t I -> Q tt s') -> wp (ilock ip) Q s.
Proof.
  intros A Tr Hh Hq Hi Hr Hp Hty Hnl HQ. destruct (it_ent _ _ _ _ (fa_tab _ _ _ A) ip i Hi Hr) as (_ & Hn & _).
  apply (ilock_spec s t I ip i); [done|done|done|by apply (Hq ip)|done|done|]. intros x s1 A1. apply HQ. constructor; try done.
  - constructor; [apply znth_zset_eq, (znth_Some_lt _ _ i), Hi|done|done].
  - apply (plus_same _ (fs_inodes s)); [done|]. by apply (same_counts_set _ ip i).
  - apply (quiet_but_set _ ip i); [done|]. intros k j _. apply Hq.
  - by apply Tr.
Qed.

(** The walk gives up. *)
Lemma walk_fail l0 ip i s t I name : walking l0 ip i s t I -> (forall m, 0 <= refs l0 m) ->
  wp (iunlockput ip;; ret (None, name)) (fun (r : option Z * list Z) s' => r.1 = None /\ exists l', s' = with_inodes l' s /\ fs_at s' t I /\ quiet l' /\ same_counts l0 l') s.
Proof.
  intros [A Hu Hl Hc Hq Hn Hs] H0. apply wp_bind, (iunlockput_linked s t I ip i); [done..|]. intros l' Hm A'. apply wp_ret. split; [done|]. exists l'. split_and!; [done|done| |].
  - apply (quiet_set _ ip i); [apply Hu|done|done].
  - by apply (plus_minus l0 (fs_inodes s) l' (i_inum i)).
Qed.

(** The walk goes on to an inode just found. *)
Lemma walk_next l0 ip i s t I m next l2 y : walking l0 ip i s t I -> (forall m, 0 <= refs l0 m) -> got m (fs_inodes s) next l2 -> fs_at (with_inodes l2 (with_tx y s)) t I ->
  wp (iunlockput ip) (fun _ s' => exists l3 j, s' = with_inodes l3 (with_tx y s) /\ fs_at s' t I /\ quiet l3 /\ znth l3 next = Some j /\ i_inum j = m /\ 0 < i_ref j /\ plus_one l0 l3 m)
    (with_inodes l2 (with_tx y s)).
Proof.
  intros [A Hu Hl Hc Hq Hn Hs] H0 Hg A2. destruct (got_keep _ _ _ _ _ _ Hg Hu Hq) as (i2 & Hu2 & En2 & El2 & Hq2).
  pose proof (got_counts _ _ _ _ _ _ _ (fa_tab _ _ _ A) Hg) as Hg'. apply (iunlockput_linked _ t I ip i2); [exact A2|exact Hu2|by rewrite El2|by rewrite En2|by rewrite En2|].
  cbn [with_inodes fs_inodes]. rewrite En2. set (l3 := zset l2 ip _). intros Hm A3. destruct (got_entry _ _ _ _ Hg) as (jn & Hjn & Ejn & _ & Hjr & _).
  assert (Hj3 : exists j3, znth l3 next = Some j3 /\ i_inum j3 = m /\ 0 < i_ref j3).
  { unfold l3. rewrite (znth_zset _ _ _ _ i2) by apply Hu2. case_decide as Enext; [|by exists jn]. eexists. split; [done|]. cbn [set_ref set_lock i_inum i_ref]. subst next.
    assert (i2 = jn) as -> by (destruct Hu2; congruence). split; [done|]. destruct Hg as (a & b & Ha & Eb & _ & _ & Hc'). destruct Hu as [Hua Hur _]. assert (a = i) as -> by congruence.
    destruct Hc' as [[_ ->]|(? & _)]; [|lia]. rewrite Eb, znth_zset_eq in Hjn by (by apply (znth_Some_lt _ _ i)). injection Hjn as <-. cbn [set_ref i_ref]. lia. }
  destruct Hj3 as (j3 & Hj3 & Ej3 & Hr3). exists l3, j3. split_and!; try done.
  - apply (quiet_set _ ip i2); [apply Hu2|done|done].
  - by apply (plus_plus_minus l0 (fs_inodes s) l2 l3 (i_inum i) m).
Qed.

Lemma namex_fail parent n es l0 l x s t I r s' : dest_of parent (tv_cur t) I n es = None ->
  (r.1 = None /\ exists l', s' = with_inodes l' (with_inodes l (with_tx x s)) /\ fs_at s' t I /\ quiet l' /\ same_counts l0 l') -> namex_post parent n es l0 s t I r s'.
Proof. intros E (Hr & l' & -> & A & Hq & Hc). exists x, l'. split_and!; [done|done|done|]. by rewrite E. Qed.

Lemma namex_more parent n es n' es' l0 l x s t I r s' : dest_of parent (tv_cur t) I n es = dest_of parent (tv_cur t) I n' es' ->
  (parent = true -> walk_parent (tv_cur t) I n es = walk_parent (tv_cur t) I n' es') ->
  namex_post parent n' es' l0 (with_inodes l (with_tx x s)) t I r s' -> namex_post parent n es l0 s t I r s'.
Proof.
  intros E1 E2 (y & l' & -> & A & Hq & Hm). exists y, l'. split_and!; [done|done|done|]. rewrite E1. destruct (dest_of parent (tv_cur t) I n' es') as [m|]; [|done].
  destruct Hm as (ip & i & H1 & H2 & H3 & H4 & H5 & H6). exists ip, i. split_and!; try done. intros Hp. destruct (H6 Hp) as [H7 H8]. split; [done|]. by rewrite E2.
Qed.

(** One step of the reference walk. *)
Lemma dest_not_dir parent F I n e es : d_type (I n) <> T_DIR -> dest_of parent F I n (e :: es) = None.
Proof. intros H. unfold dest_of. cbn [walk walk_parent]. destruct (Z.eqb_spec (d_type (I n)) T_DIR); [done|]. by destruct parent. Qed.
Lemma dest_missing parent F I n e es : lookup_name F (I n) (take (Z.to_nat DIRSIZ) e) = None -> (parent = true -> es <> []) -> dest_of parent F I n (e :: es) = None.
Proof.
  intros H Hp. unfold dest_of. cbn [walk walk_parent]. rewrite H. destruct (_ =? _); [|by destruct parent]. destruct parent; [|done].
  destruct es; [by destruct Hp|done].
Qed.
Lemma dest_step parent F I n e es k m : d_type (I n) = T_DIR -> lookup_name F (I n) (take (Z.to_nat DIRSIZ) e) = Some (k, m) -> (parent = true -> es <> []) ->
  dest_of parent F I n (e :: es) = dest_of parent F I m es /\ (parent = true -> walk_parent F I n (e :: es) = walk_parent F I m es).
Proof.
  intros Ed H Hp. unfold dest_of. cbn [walk walk_parent]. rewrite H, Ed, Z.eqb_refl. destruct parent; [|done]. destruct es; [by destruct Hp|]. done.
Qed.

Lemma namex_loop_spec parent l0 fuel : forall path name ip i s t I, fs_at s t I -> tree_ok (fs_sb s) (tv_cur t) I -> um_ok (fs_user s) -> tv_held t = ∅ ->
  quiet (fs_inodes s) -> znth (fs_inodes s) ip = Some i -> 0 < i_ref i -> plus_one l0 (fs_inodes s) (i_inum i) -> (forall m, 0 <= refs l0 m) -> 2 <= nfree l0 ->
  d_type (I (i_inum i)) <> 0 -> d_nlink (I (i_inum i)) <> 0 -> length name = Z.to_nat DIRSIZ -> (forall x, x ∈ path -> x <> 0) -> (length path < fuel)%nat ->
  wp (namex_loop fuel ip path parent name) (namex_post parent (i_inum i) (elements path) l0 s t I) s.
Proof.
  induction fuel as [|fuel IH]; [lia|]. intros path name ip i s t I A Tr Hum Hh Hq Hi Hr Hp H0 Hf Hty Hnl Hlen Hz Hfuel. cbn [namex_loop].
  destruct (it_ent _ _ _ _ (fa_tab _ _ _ A) ip i Hi Hr) as (_ & Hn & _). set (n := i_inum i) in *. assert (Es : with_inodes (fs_inodes s) (with_tx (fs_tx s) s) = s) by (by destruct s).
  pose proof (skipelem_elements path name Hlen Hz) as Hsk. destruct (skipelem path name) as [[path' name']|].
  - destruct Hsk as (e & Ee & Hname' & Hlen' & Hz' & Hdec & Hnil). rewrite Ee. apply wp_bind, (walk_lock l0 ip i s t I); [done..|].
    intros x l1 i1 s1 Wk. pose proof (wk_use _ _ _ _ _ _ Wk) as Hu1. apply wp_bind, (wp_iat ip i1); [apply Hu1|]. change (i_d i1) with (I n). change (i_inum i1) with n in *.
    destruct (Z.eqb_spec (d_type (I n)) T_DIR) as [Ed|Ed]; cbn [negb].
    2: { eapply wp_mono; [by apply (walk_fail l0 ip i1 s1 t I name')|]. intros r s' Hr'. eapply namex_fail; [by apply dest_not_dir|exact Hr']. }
    destruct (parent && match path' with [] => true | _ => false end) eqn:Epar.
    { apply andb_true_iff in Epar as [-> Epath]. destruct path' as [|]; [|done]. apply wp_bind, (iunlock_spec s1 t I ip i1); [apply Wk|done|done|]. intros s2 A2. apply wp_ret.
      unfold s2. exists x, (zset l1 ip (set_lock false i1)). split_and!; [done|done|apply (quiet_set _ ip i1); [apply Hu1|apply Wk|done]|].
      assert (Ew : walk_parent (tv_cur t) I n (e :: elements []) = Some (n, entry_name name')). { cbn. rewrite Ed. cbn. by rewrite Hname'. }
      unfold dest_of. rewrite Ew. cbn [fmap option_fmap option_map fst]. exists ip, (set_lock false i1). split_and!; try done.
      { apply znth_zset_eq, (znth_Some_lt _ _ i1), Hu1. }
      apply (plus_same _ l1); [apply Wk|]. by apply (same_counts_set _ ip i1); [apply Hu1| |]. }
    assert (Hpar : parent = true -> elements path' <> []). { intros ->. cbn in Epar. intros E%Hnil. by rewrite E in Epar. }
    apply wp_bind. eapply wp_mono; [apply (dirlookup_spec ip i1 name' s1 t I); try done; [apply Wk|by apply Tr|left; lia|]|].
    { apply nfree_has_free. rewrite (proj2 (wk_count _ _ _ _ _ _ Wk)). unfold one. destruct (_ =? _); lia. }
    change (i_inum i1) with n. unfold lookup_post. rewrite Hname'. intros r s2. destruct (lookup_name (tv_cur t) (I n) (take (Z.to_nat DIRSIZ) e)) as [[k m]|] eqn:El.
    + intros (next & y & l2 & -> & Hg & -> & A2). pose proof El as (Hk%elem_of_range & Hm0 & Eent)%find_entry_some.
      destruct (tr_target _ _ _ Tr n k Hn Ed Hnl Hk) as [Tt Tn]; [by rewrite Eent|]. rewrite Eent in Tt, Tn. cbn [fst] in Tt, Tn.
      apply wp_bind. eapply wp_mono; [by apply (walk_next l0 ip i1 s1 t I m next l2 y)|]. intros [] s3 (l3 & j & -> & A3 & Hq3 & Hj & Ej & Hrj & Hc3).
      eapply wp_mono; [apply (IH path' name' next j _ t I); try done; rewrite ?Ej; try done; lia|]. intros r s' Hpost. rewrite Ej in Hpost.
      destruct (dest_step parent (tv_cur t) I n e (elements path') k m Ed El Hpar) as [D1 D2]. eapply namex_more; [exact D1|exact D2|exact Hpost].
    + intros (-> & y & -> & A2). eapply wp_mono; [apply (walk_fail l0 ip i1 _ t I name'); [|done]; constructor; try done; apply Wk|].
      intros r s' Hr'. eapply namex_fail; [by apply dest_missing|exact Hr'].
  - rewrite Hsk. destruct parent.
    + apply wp_bind, (iput_linked s t I ip i); [done|done|done|done|by apply Tr|]. intros l' Hm A'. apply wp_ret.
      apply (namex_fail _ _ _ _ (fs_inodes s) (fs_tx s)); [done|]. split; [done|]. exists l'. rewrite Es. split_and!; [done|done| |by apply (plus_minus l0 (fs_inodes s) l' n)].
      apply (quiet_set _ ip i); [done|intros k j _; apply Hq|exact (Hq ip i Hi)].
    + apply wp_ret. exists (fs_tx s), (fs_inodes s). rewrite Es. split_and!; [done|done|done|]. exists ip, i. done.
Qed.

(** What the walk relies on: a quiet table with two free entries, and a root
    and a current directory that have links. *)
Record namex_ready (s : fss) (c : inode) t I : Prop := {
  nr_at : fs_at s t I;
  nr_tree : tree_ok (fs_sb s) (tv_cur t) I;
  nr_user : um_ok (fs_user s);
  nr_held : tv_held t = ∅;
  nr_quiet : quiet (fs_inodes s);
  nr_free : 2 <= nfree (fs_inodes s);
  nr_root : 0 <= ROOTINO < sb_ninodes (fs_sb s) /\ d_type (I ROOTINO) <> 0 /\ d_nlink (I ROOTINO) <> 0;
  nr_cwd : znth (fs_inodes s) (fs_cwd s) = Some c /\ 0 < i_ref c /\ d_type (I (i_inum c)) <> 0 /\ d_nlink (I (i_inum c)) <> 0;
}.
Definition start_of (path : list Z) (c : inode) : Z := match path with x :: _ => if x =? SLASH then ROOTINO else i_inum c | [] => i_inum c end.

Lemma idup_got s t I ip i (Q : Z -> fss -> Prop) : fs_at s t I -> znth (fs_inodes s) ip = Some i -> 0 < i_ref i ->
  (forall l', got (i_inum i) (fs_inodes s) ip l' -> fs_at (with_inodes l' s) t I -> Q ip (with_inodes l' s)) -> wp (idup ip) Q s.
Proof.
  intros A Hi Hr HQ. destruct (it_ent _ _ _ _ (fa_tab _ _ _ A) ip i Hi Hr) as (Hd & _). apply (idup_spec s t I ip i); [done|done|done|]. intros s' A'. apply HQ; [|done].
  exists i, (set_ref (i_ref i + 1) i). split_and!; try done. left. done.
Qed.

Lemma namex_spec parent path name s c t I : namex_ready s c t I -> length name = Z.to_nat DIRSIZ -> (forall x, x ∈ path -> x <> 0) ->
  wp (namex path parent name) (namex_post parent (start_of path c) (elements path) (fs_inodes s) s t I) s.
Proof.
  intros [A Tr Hum Hh Hq Hf (Hroot & Hrt & Hrl) (Hc & Hcr & Hct & Hcl)] Hlen Hz. set (n := start_of path c).
  assert (Hn : d_type (I n) <> 0 /\ d_nlink (I n) <> 0). { unfold n, start_of. destruct path as [|x]; [done|]. by destruct (x =? SLASH). }
  assert (H0 : forall m, 0 <= refs (fs_inodes s) m) by (intros; apply (refs_nonneg (fs_sb s) _ (tv_cur t) I), A).
  unfold namex. apply wp_bind, wp_gets, wp_bind.
  assert (Hstart : wp (match path with x :: _ => if x =? SLASH then iget ROOTDEV ROOTINO else idup (fs_cwd s) | [] => idup (fs_cwd s) end)
    (fun ip s' => exists l', s' = with_inodes l' s /\ got n (fs_inodes s) ip l' /\ fs_at s' t I) s).
  { assert (Hd : forall Q : Z -> fss -> Prop, (forall ip l', got (i_inum c) (fs_inodes s) ip l' -> fs_at (with_inodes l' s) t I -> Q ip (with_inodes l' s)) -> wp (idup (fs_cwd s)) Q s).
    { intros Q HQ. apply (idup_got s t I (fs_cwd s) c); [done|done|done|]. intros l'. apply HQ. }
    unfold n, start_of. destruct path as [|x path]; [apply Hd; intros ip l' ? ?; by exists l'|]. destruct (x =? SLASH); [|apply Hd; intros ip l' ? ?; by exists l'].
    apply (iget_got s t I); [done|done|by apply nfree_has_free; lia|]. intros ip l' ? ?. by exists l'. }
  eapply wp_mono; [exact Hstart|]. intros ip s1 (l' & -> & Hg & A1). pose proof (got_counts _ _ _ _ _ _ _ (fa_tab _ _ _ A) Hg) as Hcnt.
  destruct (got_entry _ _ _ _ Hg) as (i & Hi & En & _ & Hr & _).
  eapply wp_mono; [apply (namex_loop_spec parent (fs_inodes s) _ path name ip i (with_inodes l' s) t I); rewrite ?En; try done|].
  - intros k j Hj. change (znth l' k = Some j) in Hj. destruct Hg as (a & b & Ha & El & _ & _ & Hab). rewrite El, (znth_zset _ _ _ _ a) in Hj by done. case_decide; [|by apply (Hq k)].
    injection Hj as <-. assert (i_lock b = i_lock a) as -> by (by destruct Hab as [[_ ->]|(_ & -> & _)]). by apply (Hq ip).
  - apply Hn.
  - apply Hn.
  - lia.
  - intros r s'. rewrite En. assert (Es : with_inodes l' s = with_inodes l' (with_tx (fs_tx s) s)) by (by destruct s). rewrite Es. by apply namex_more.
Qed.
End namex.
