(* ===== verification/File.v ===== *)
(** * Open files: kernel/file.c

    The table of open files, and reading and writing through one: a pipe, a
    device or an inode.  What lies behind a pipe or a device is reached through
    the interface [Streams]. *)

From stdpp Require Import base numbers list gmap strings.
From Stdlib Require Import ZArith Lia.
From S2P Require Import Prelude Blocks Monad Codec Mem UserMem Bio Log LogGroup Txn Fs.
Open Scope Z_scope.

Definition NFILE : Z := 100.
Definition NDEV : Z := 10.

Inductive ftype := FD_NONE | FD_PIPE | FD_INODE | FD_DEVICE.
#[export] Instance ftype_eq_dec : EqDecision ftype.
Proof. solve_decision. Defined.

(** [struct file]; a pipe is known by its address, an inode by its place in the
    table. *)
Record file := mk_file {
  f_type : ftype;
  f_ref : Z;
  f_readable : bool;
  f_writable : bool;
  f_pipe : Z;
  f_ip : Z;
  f_off : Z;
  f_major : Z;
}.
Definition set_fref (r : Z) (f : file) : file := mk_file (f_type f) r (f_readable f) (f_writable f) (f_pipe f) (f_ip f) (f_off f) (f_major f).
Definition set_ftype (t : ftype) (f : file) : file := mk_file t (f_ref f) (f_readable f) (f_writable f) (f_pipe f) (f_ip f) (f_off f) (f_major f).
Definition set_off (o : Z) (f : file) : file := mk_file (f_type f) (f_ref f) (f_readable f) (f_writable f) (f_pipe f) (f_ip f) o (f_major f).

(** Pipes and devices: the calls of pipe.c on the pipe at an address, the page
    of a new pipe, and the functions of [devsw]. *)
Class Streams (W U : Type) := {
  w_piperead : Z -> Z -> Z -> M (W * U) Z;
  w_pipewrite : Z -> Z -> Z -> M (W * U) Z;
  w_pipeclose : Z -> bool -> M (W * U) unit;
  w_newpipe : M (W * U) (option Z);
  w_devread : Z -> option (Z -> Z -> M (W * U) Z);
  w_devwrite : Z -> option (Z -> Z -> M (W * U) Z);
}.

(** [struct stat] in memory; its four bytes of padding are what the stack held. *)
Definition stat_bytes (pad : list Z) (st : stat) : list Z :=
  le_bytes 4 (st_dev st) ++ le_bytes 4 (st_ino st) ++ le_bytes 2 (st_type st) ++ le_bytes 2 (st_nlink st) ++ pad ++ le_bytes 8 (st_size st).

Section file.
Context `{TX : Transactions T} `{UM : UserMemory U} `{ST : Streams W U}.

Record ost := mk_ost {
  o_fs : fsst T U;
  o_streams : W;
  o_files : list file;          (* ftable.file *)
  o_ofile : list (option Z);    (* myproc()->ofile *)
}.
Abbreviation OF := (M ost).

Definition in_fs {A} (m : M (fsst T U) A) : OF A := lift o_fs (fun x s => mk_ost x (o_streams s) (o_files s) (o_ofile s)) m.
Definition in_streams {A} (m : M (W * U) A) : OF A :=
  lift (fun s => (o_streams s, fs_user (o_fs s)))
    (fun x s => mk_ost (mk_fsst (fs_tx (o_fs s)) x.2 (fs_sb (o_fs s)) (fs_inodes (o_fs s)) (fs_cwd (o_fs s))) x.1 (o_files s) (o_ofile s)) m.
Definition fat (f : Z) : OF file := let! l := gets o_files in deref (znth l f).
Definition set_files (l : list file) : OF unit := modify (fun s => mk_ost (o_fs s) (o_streams s) l (o_ofile s)).
Definition mod_file (f : Z) (g : file -> file) : OF unit := let! x := fat f in let! l := gets o_files in set_files (zset l f (g x)).

Definition begin_op : OF unit := in_fs (in_tx t_begin_op).
Definition end_op : OF unit := in_fs (in_tx t_end_op).

(** The first entry without references. *)
Fixpoint unused_file (l : list file) (k : Z) : option Z :=
  match l with
  | [] => None
  | f :: l => if f_ref f =? 0 then Some k else unused_file l (k + 1)
  end.
Definition filealloc : OF (option Z) :=
  let! l := gets o_files in
  match unused_file l 0 with
  | None => ret None
  | Some f => mod_file f (set_fref 1);; ret (Some f)
  end.

Definition filedup (f : Z) : OF Z :=
  let! x := fat f in
  if f_ref x <? 1 then panic "filedup" else mod_file f (fun x => set_fref (f_ref x + 1) x);; ret f.

Definition fileclose (f : Z) : OF unit :=
  let! x := fat f in
  if f_ref x <? 1 then panic "fileclose"
  else
    mod_file f (fun x => set_fref (f_ref x - 1) x);;
    if 0 <? f_ref x - 1 then ret tt
    else
      let! ff := fat f in
      mod_file f (fun x => set_ftype FD_NONE (set_fref 0 x));;
      match f_type ff with
      | FD_PIPE => in_streams (w_pipeclose (f_pipe ff) (f_writable ff))
      | FD_INODE | FD_DEVICE => begin_op;; in_fs (iput (f_ip ff));; end_op
      | FD_NONE => ret tt
      end.

Definition filestat (pad : list Z) (f addr : Z) : OF Z :=
  let! x := fat f in
  match f_type x with
  | FD_INODE | FD_DEVICE =>
    in_fs (ilock (f_ip x));;
    let! st := in_fs (stati (f_ip x)) in
    in_fs (iunlock (f_ip x));;
    let! r := in_fs (in_user (um_copyout addr (stat_bytes pad st))) in
    if r <? 0 then ret (-1) else ret 0
  | _ => ret (-1)
  end.

Definition fileread (f addr n : Z) : OF Z :=
  let! x := fat f in
  if negb (f_readable x) then ret (-1)
  else
    match f_type x with
    | FD_PIPE => in_streams (w_piperead (f_pipe x) addr n)
    | FD_DEVICE =>
      if (f_major x <? 0) || (NDEV <=? f_major x) then ret (-1)
      else match w_devread (f_major x) with None => ret (-1) | Some read => in_streams (read addr n) end
    | FD_INODE =>
      in_fs (ilock (f_ip x));;
      let! r := in_fs (readi (f_ip x) (ToUser addr) (f_off x) (u32 n)) in
      (if 0 <? r.1 then mod_file f (fun x => set_off (u32 (f_off x + r.1)) x) else ret tt);;
      in_fs (iunlock (f_ip x));;
      ret r.1
    | FD_NONE => panic "fileread"
    end.

(** At most this many bytes in one transaction. *)
Definition write_max : Z := ((MAXOPBLOCKS - 1 - 1 - 2) / 2) * BSIZE.

(** One round of [filewrite]: the calls between [begin_op] and [end_op]. *)
Definition write_body (f addr n1 : Z) : OF Z :=
  let! x := fat f in
  in_fs (ilock (f_ip x));;
  let! x := fat f in
  let! r := in_fs (writei (f_ip x) (FromUser addr) (f_off x) n1) in
  (if 0 <? r then mod_file f (fun x => set_off (u32 (f_off x + r)) x) else ret tt);;
  in_fs (iunlock (f_ip x));;
  ret r.
(** The round: one transaction. *)
Definition write_chunk (f addr n1 : Z) : OF Z :=
  begin_op;;
  let! r := write_body f addr n1 in
  end_op;;
  ret r.
(** The rounds from byte [i] on; the result is the final [i]. *)
Fixpoint filewrite_loop (rounds : nat) (f addr n i : Z) : OF Z :=
  match rounds with
  | O => blocked
  | S rounds =>
    if i <? n then
      let n1 := Z.min (n - i) write_max in
      let! r := write_chunk f (u64 (addr + i)) n1 in
      if r =? n1 then filewrite_loop rounds f addr n (i + r) else ret i
    else ret i
  end.
(** Every round but the last writes [write_max] bytes. *)
Definition write_rounds (n : Z) : nat := Z.to_nat (n / write_max + 2).

Definition filewrite (f addr n : Z) : OF Z :=
  let! x := fat f in
  if negb (f_writable x) then ret (-1)
  else
    match f_type x with
    | FD_PIPE => in_streams (w_pipewrite (f_pipe x) addr n)
    | FD_DEVICE =>
      if (f_major x <? 0) || (NDEV <=? f_major x) then ret (-1)
      else match w_devwrite (f_major x) with None => ret (-1) | Some write => in_streams (write addr n) end
    | FD_INODE =>
      let! i := filewrite_loop (write_rounds n) f addr n 0 in
      ret (if i =? n then n else -1)
    | FD_NONE => panic "filewrite"
    end.
End file.
Arguments ost T U W : clear implicits.
