(* ===== verification/FileWrite.v ===== *)
(** * [filewrite] and [fileread] on an inode

    A write of any length is a sequence of transactions, each of which fits
    the log; the file ends with the bytes written at the offset. *)

From stdpp Require Import base numbers list gmap strings.
From Stdlib Require Import ZArith Lia.
From S2P Require Import Prelude Blocks Monad Codec Mem UserMem Bio BioCache Log LogCrash LogGroup Txn Fs FsImage FsInv FsAlloc FsRead FsWritei FsTrunc FsInode FsDir File.
Open Scope Z_scope.

(** ** Writes in sequence *)

Lemma wrote_trans sb n off d1 d2 F I F1 I1 F2 I2 : wrote sb n off d1 F I F1 I1 -> wrote sb n (off + Z.of_nat (length d1)) d2 F1 I1 F2 I2 ->
  0 <= n < sb_ninodes sb -> wrote sb n off (d1 ++ d2) F I F2 I2.
Proof.
  intros A B Hn. constructor.
  - apply B.
  - intros x Hx. rewrite (wr_byte _ _ _ _ _ _ _ _ B), (wr_byte _ _ _ _ _ _ _ _ A), length_app by done. repeat case_decide; try lia; try done; [|by rewrite app_nth1 by lia].
    rewrite app_nth2 by lia. f_equal. lia.
  - intros j bn Hj Hi Hb. rewrite <- (wr_blk _ _ _ _ _ _ _ _ A) by done. pose proof (wr_blk _ _ _ _ _ _ _ _ B j bn Hj Hi Hb) as E.
    by rewrite (wr_others _ _ _ _ _ _ _ _ A) in E.
  - intros j p Hp H0. pose proof (wr_slot _ _ _ _ _ _ _ _ A j p Hp H0) as E. rewrite <- E. apply B; [done|]. by rewrite E.
  - intros j Hj. by rewrite (wr_others _ _ _ _ _ _ _ _ B), (wr_others _ _ _ _ _ _ _ _ A).
  - rewrite (wr_self _ _ _ _ _ _ _ _ B) at 1. rewrite (wr_self _ _ _ _ _ _ _ _ A). cbn [set_size set_addrs d_size d_addrs]. unfold set_size, set_addrs. cbn. f_equal.
    rewrite length_app. lia.
  - intros Hf. by apply B, A.
  - apply B.
  - intros m Hm Hr. by rewrite (wr_disk _ _ _ _ _ _ _ _ B), (wr_disk _ _ _ _ _ _ _ _ A).
Qed.

(** ** Between transactions *)

Record idle_tx (t : tview) : Prop := {
  id_ops : tv_ops t = 0;
  id_logged : tv_logged t = [];
  id_held : tv_held t = ∅;
  id_commit : tv_committed t = tv_cur t;
}.

(** The blocks a write of a file may log besides its data blocks. *)
Definition meta_blocks (sb : superblock) (n : Z) : gset Z := {[IBLOCK n sb; sb_bmapstart sb]}.

Lemma meta_map sb n : 0 <= sb_size sb <= BPB -> has_map sb (meta_blocks sb n).
Proof.
  intros Hs b Hb. unfold meta_blocks, BBLOCK. assert (b / BPB = 0) as -> by (apply Z.div_small; lia). set_solver.
Qed.
Lemma meta_size sb n : Z.of_nat (size (meta_blocks sb n)) <= 2.
Proof.
  unfold meta_blocks. pose proof (size_union_alt {[IBLOCK n sb]} ({[sb_bmapstart sb]} : gset Z)) as E. rewrite E, size_singleton.
  pose proof (subseteq_size ({[sb_bmapstart sb]} ∖ {[IBLOCK n sb]}) ({[sb_bmapstart sb]} : gset Z) ltac:(set_solver)) as H. rewrite size_singleton in H. lia.
Qed.

Lemma idle_cost B t : tv_logged t = [] -> cost B t = 0.
Proof. intros E. unfold cost, logset. rewrite E. cbn. by assert ((∅ : gset Z) ∖ B = ∅) as -> by set_solver. Qed.

(** The blocks logged are those counted, and [B]. *)
Lemma logged_bound B k t t' : evolves B k t t' -> NoDup (tv_logged t') -> tv_logged t = [] -> Z.of_nat (length (tv_logged t')) <= k + Z.of_nat (size B).
Proof.
  intros Ev Hnd E. pose proof (ev_cost _ _ _ _ Ev) as Hc. rewrite (idle_cost B t E) in Hc. unfold cost in Hc.
  rewrite <- (size_list_to_set (C := gset Z)) by done. fold (logset t'). pose proof (size_union_alt B (logset t')) as Eu.
  pose proof (subseteq_size (logset t') (B ∪ logset t') ltac:(set_solver)). lia.
Qed.

Lemma span_chunk off n : 0 <= off -> n <= write_max -> span off n <= 4.
Proof.
  intros Ho Hn. unfold span. destruct (Z.leb_spec n 0); [lia|]. change write_max with (3 * BSIZE) in Hn.
  pose proof (Z.div_mod off BSIZE ltac:(done)). pose proof (Z.mod_pos_bound off BSIZE ltac:(done)).
  assert ((off + n - 1) / BSIZE < off / BSIZE + 4); [|lia]. apply Z.div_lt_upper_bound; [done|]. lia.
Qed.

Section write.
Context {T U W : Type} {TX : Transactions T} {TXok : TransactionsOK T} {UM : UserMemory U} {UMok : UserMemoryOK U} {ST : Streams W U}.
Abbreviation fss := (fsst T U).
Abbreviation oss := (ost T U W).
Implicit Types (s : fss) (os : oss) (t : tview) (I : Z -> dinode).

Definition with_fs s os : oss := mk_ost s (o_streams os) (o_files os) (o_ofile os).
Definition with_files l os : oss := mk_ost (o_fs os) (o_streams os) l (o_ofile os).

Lemma wp_in_fs {A} (m : M fss A) os (Q : A -> oss -> Prop) : wp m (fun a s => Q a (with_fs s os)) (o_fs os) -> wp (in_fs m) Q os.
Proof. intros H. by apply wp_lift. Qed.
Lemma wp_fat f x os (Q : file -> oss -> Prop) : znth (o_files os) f = Some x -> Q x os -> wp (fat f) Q os.
Proof. intros Hx HQ. unfold fat. apply wp_bind, wp_gets. by apply (wp_deref _ x). Qed.
Lemma wp_mod_file f g x os (Q : unit -> oss -> Prop) : znth (o_files os) f = Some x -> Q tt (with_files (zset (o_files os) f (g x)) os) -> wp (mod_file f g) Q os.
Proof. intros Hx HQ. unfold mod_file. apply wp_bind, (wp_fat f x); [done|]. apply wp_bind, wp_gets. by apply wp_modify. Qed.

(** The contents stay, the state of the transaction changes. *)
Lemma fs_at_tx s t I x t' : fs_at s t I -> t_shows x t' -> tv_cur t' = tv_cur t -> tv_nlog t' = tv_nlog t -> tv_start t' = tv_start t -> fs_at (with_tx x s) t' I.
Proof. intros [[H1 H2 H3] Hi Ht] Hx E1 E2 E3. constructor; [constructor; cbn [with_tx fs_tx fs_sb]; congruence| |]; by rewrite E1. Qed.

Lemma wp_begin s t I (Q : unit -> fss -> Prop) : fs_at s t I -> idle_tx t ->
  (forall x, fs_at (with_tx x s) (with_ops 1 t) I -> Q tt (with_tx x s)) -> wp (in_tx t_begin_op) Q s.
Proof.
  intros A [E1 E2 E3 _] HQ. apply wp_lift. eapply wp_mono; [apply (t_begin_op_ok t); [apply A|rewrite E1, E2; done]|]. intros [] x Hx. rewrite E1 in Hx. apply HQ. by apply (fs_at_tx s t).
Qed.
Lemma wp_end s t I (Q : unit -> fss -> Prop) : fs_at s t I -> tv_ops t = 1 -> tv_held t = ∅ ->
  (forall x, fs_at (with_tx x s) (committed t) I -> Q tt (with_tx x s)) -> wp (in_tx t_end_op) Q s.
Proof.
  intros A E1 E3 HQ. apply wp_lift. eapply wp_mono; [apply (t_end_op_ok t); [apply A|lia|done]|]. intros [] x Hx. rewrite E1 in Hx. apply HQ. by apply (fs_at_tx s t).
Qed.

(** An open file on an inode, with the file system at rest. *)
Record open_file (f : Z) (x : file) (i : inode) os t I : Prop := {
  of_file : znth (o_files os) f = Some x;
  of_inode : znth (fs_inodes (o_fs os)) (f_ip x) = Some i;
  of_ref : 0 < i_ref i;
  of_lock : i_lock i = false;
  of_at : fs_at (o_fs os) t I;
  of_type : d_type (I (i_inum i)) <> 0;
  of_user : um_ok (fs_user (o_fs os));
  of_idle : idle_tx t;
  of_sync : forall m, 0 <= m < sb_ninodes (fs_sb (o_fs os)) -> disk_inode (fs_sb (o_fs os)) (tv_cur t) m = I m;
  of_map : sb_size (fs_sb (o_fs os)) <= BPB;
  of_log : MAXOPBLOCKS + 1 < tv_nlog t;
}.
(** What a transaction on the file leaves alone. *)
Record same_rest (f : Z) os os' : Prop := {
  sr_streams : o_streams os' = o_streams os;
  sr_ofile : o_ofile os' = o_ofile os;
  sr_user : fs_user (o_fs os') = fs_user (o_fs os);
  sr_sb : fs_sb (o_fs os') = fs_sb (o_fs os);
  sr_cwd : fs_cwd (o_fs os') = fs_cwd (o_fs os);
  sr_files : forall g, g <> f -> znth (o_files os') g = znth (o_files os) g;
}.

Lemma meta_room sb n t : idle_tx t -> MAXOPBLOCKS + 1 < tv_nlog t -> room (meta_blocks sb n) 8 (with_ops 1 t).
Proof.
  intros [E1 E2 E3 _] Hn. pose proof (meta_size sb n). constructor; [done|lia|]. rewrite (idle_cost _ (with_ops 1 t)) by done. change LOGSIZE with 30. unfold MAXOPBLOCKS in *. cbn [with_ops tv_nlog]. lia.
Qed.

(** A transaction of [filewrite]: the bytes written and the contents committed. *)
Definition chunk_post f x i (off n1 : Z) (data : list Z) os t I (r : Z) os' : Prop :=
  exists t' I' i' t1, 0 <= r <= n1 /\ open_file f (set_off (off + r) x) i' os' t' I' /\ same_rest f os os' /\ i_inum i' = i_inum i /\
    wrote (fs_sb (o_fs os)) (i_inum i) off (take (Z.to_nat r) data) (tv_cur t) I (tv_cur t') I' /\
    t' = committed t1 /\ tv_hist t1 = tv_hist t /\ tv_committed t1 = tv_committed t /\ tv_boot t1 = tv_boot t /\
    Z.of_nat (length (tv_logged t1)) <= MAXOPBLOCKS /\
    (r < n1 -> short_write (fs_sb (o_fs os)) off r (tv_cur t')).

(** The transaction before [end_op]: one call is in progress, the contents
    committed are the ones at the start, and [end_op] commits this view. *)
Definition body_post f x i (off n1 : Z) (data : list Z) os t I (r : Z) os1 : Prop :=
  exists t1 I1, fs_at (o_fs os1) t1 I1 /\ tv_ops t1 = 1 /\ tv_held t1 = ∅ /\
    tv_hist t1 = tv_hist t /\ tv_committed t1 = tv_committed t /\ tv_boot t1 = tv_boot t /\
    Z.of_nat (length (tv_logged t1)) <= MAXOPBLOCKS /\
    wrote (fs_sb (o_fs os)) (i_inum i) off (take (Z.to_nat r) data) (tv_cur t) I (tv_cur t1) I1 /\
    0 <= r <= n1 /\ (r < n1 -> short_write (fs_sb (o_fs os)) off r (tv_cur t1)) /\
    wp end_op (fun _ os2 => exists i', open_file f (set_off (off + r) x) i' os2 (committed t1) I1 /\ same_rest f os os2 /\ i_inum i' = i_inum i) os1.

(** The offset is advanced and the inode unlocked: [end_op] remains. *)
Lemma body_done f x i n1 data os t I r s5 t3 I3 : open_file f x i os t I -> 0 <= r <= n1 -> n1 <= write_max -> 0 <= f_off x ->
  fs_at s5 t3 I3 -> evolves (meta_blocks (fs_sb (o_fs os)) (i_inum i)) (2 * span (f_off x) n1) (with_ops 1 t) t3 -> NoDup (tv_logged t3) ->
  wrote (fs_sb (o_fs os)) (i_inum i) (f_off x) (take (Z.to_nat r) data) (tv_cur t) I (tv_cur t3) I3 ->
  (r < n1 -> short_write (fs_sb (o_fs os)) (f_off x) r (tv_cur t3)) ->
  fs_inodes s5 = zset (fs_inodes (o_fs os)) (f_ip x) (set_lock false (locked i (I3 (i_inum i)))) -> fs_user s5 = fs_user (o_fs os) ->
  fs_sb s5 = fs_sb (o_fs os) -> fs_cwd s5 = fs_cwd (o_fs os) ->
  body_post f x i (f_off x) n1 data os t I r (with_fs s5 (with_files (zset (o_files os) f (set_off (f_off x + r) x)) os)).
Proof.
  intros [Hx Hi Hr Hl A Hty Hum Hid Hsync Hmap Hlog] Hrr Hn Ho A5 Ev Hnd Wr Hshort Ei Eu Esb Ecw. set (n := i_inum i) in *.
  destruct (ev_fields _ _ _ _ Ev) as (En & Est & Eh & Eo & Ecom & Ehist & Eboot).
  exists t3, I3. split_and!; try done; try lia; [rewrite Eh; apply Hid| |].
  - etrans; [apply (logged_bound _ _ _ _ Ev); [done|apply Hid]|]. pose proof (meta_size (fs_sb (o_fs os)) n). pose proof (span_chunk (f_off x) n1 Ho Hn). unfold MAXOPBLOCKS. lia.
  - apply wp_in_fs, (wp_end _ t3 I3); [exact A5|by rewrite Eo|rewrite Eh; apply Hid|]. intros x6 A6. exists (set_lock false (locked i (I3 n))). split_and!; [| |done].
    + constructor; cbn [with_tx with_fs with_files o_fs o_files fs_inodes fs_user fs_sb]; try done.
      * apply znth_zset_eq. by apply (znth_Some_lt _ _ x).
      * rewrite Ei. apply znth_zset_eq. by apply (znth_Some_lt _ _ i).
      * change (d_type (I3 n) <> 0). rewrite (wr_self _ _ _ _ _ _ _ _ Wr). done.
      * by rewrite Eu.
      * constructor; [done|done| |done]. cbn [committed tv_held]. rewrite Eh. apply Hid.
      * rewrite Esb. intros m Hm. cbn [committed tv_cur]. destruct (decide (m = n)) as [->|Hmn]; [apply Wr|].
        rewrite (wr_disk _ _ _ _ _ _ _ _ Wr), (wr_others _ _ _ _ _ _ _ _ Wr) by done. by apply Hsync.
      * by rewrite Esb.
      * cbn [committed tv_nlog]. by rewrite En.
    + constructor; [done|done|exact Eu|exact Esb|exact Ecw|]. cbn [with_fs with_files o_files].
      intros g Hg. rewrite (znth_zset _ _ _ _ x) by done. by rewrite decide_False.
Qed.

Lemma write_body_spec f x i addr n1 data os t I : open_file f x i os t I -> source_ok (FromUser addr) n1 data (fs_user (o_fs os)) ->
  0 < n1 <= write_max -> 0 <= f_off x <= d_size (I (i_inum i)) -> f_off x + n1 <= MAXFILE * BSIZE ->
  wp (begin_op;; write_body f addr n1) (body_post f x i (f_off x) n1 data os t I) os.
Proof.
  intros Of Hsrc Hn Ho He. pose proof Of as [Hx Hi Hr Hl A Hty Hum Hid Hsync Hmap Hlog]. set (n := i_inum i) in *. set (ip := f_ip x) in *. set (sb := fs_sb (o_fs os)) in *.
  assert (Hsz : 0 <= sb_size sb) by (pose proof (inv_order _ _ _ (fa_inv _ _ _ A)); fold sb in H; lia).
  unfold write_body, begin_op. apply wp_bind, wp_in_fs, (wp_begin _ t I); [done|done|]. intros x1 A1. set (t1 := with_ops 1 t) in *.
  apply wp_bind, (wp_fat f x); [done|]. apply wp_bind, wp_in_fs, (ilock_spec _ t1 I ip i); [exact A1|done|done|done|apply Hid|done|].
  intros x2 s2 A2. fold n in s2, A2. set (i2 := locked i (I n)) in *. apply wp_bind, (wp_fat f x); [done|]. fold ip.
  assert (Hu2 : in_use (fs_inodes s2) ip i2). { constructor; [apply znth_zset_eq, (znth_Some_lt _ _ i), Hi|done|done]. }
  pose proof (span_chunk (f_off x) n1 ltac:(lia) ltac:(lia)) as Hsp. pose proof (span_nonneg (f_off x) n1 ltac:(lia)) as Hsp0.
  apply wp_bind, wp_in_fs. eapply wp_mono; [apply (writei_spec (meta_blocks sb n) ip i2 s2 t1 I (FromUser addr) (f_off x) n1 data); try done; [apply Hid|..]|].
  { apply (room_weaken _ 8); [by apply meta_room|lia]. }
  { by apply meta_map. }
  { unfold meta_blocks. change (fs_sb s2) with sb. change (i_inum i2) with n. set_solver. }
  { lia. }
  intros r s3 (t3 & I3 & A3 & Ev & Hrr & Wr & (x3 & Es3) & Hshort). change (i_inum i2) with n in *. change (fs_sb s2) with sb in *.
  set (i3 := set_d (I3 n) i2) in *. destruct (ev_fields _ _ _ _ Ev) as (_ & _ & Eh & Eo & _).
  assert (Hu3 : in_use (fs_inodes s3) ip i3) by (rewrite Es3; by apply in_use_set_d). set (x' := set_off (f_off x + r) x).
  set (os3 := with_fs s3 os). assert (Hf : wp (if 0 <? r then mod_file f (fun x => set_off (u32 (f_off x + r)) x) else ret tt) (fun _ os' => os' = with_files (zset (o_files os) f x') os3) os3).
  { destruct (Z.ltb_spec 0 r).
    - apply (wp_mod_file f _ x); [done|]. rewrite u32_small by (consts; lia). done.
    - apply wp_ret. unfold x'. replace r with 0 by lia. rewrite Z.add_0_r. replace (set_off (f_off x) x) with x by (by destruct x). by rewrite zset_id. }
  apply wp_bind. eapply wp_mono; [exact Hf|]. intros [] os4 ->. apply wp_bind, wp_in_fs, (iunlock_spec s3 t3 I3 ip i3); [done|done|done|]. intros s5 A5.
  apply wp_ret. assert (Hnd : NoDup (tv_logged t3)) by (by eapply t_bound, A3).
  assert (Ei : fs_inodes s5 = zset (fs_inodes (o_fs os)) ip (set_lock false (locked i (I3 n)))) by (unfold s5; rewrite Es3; cbn [with_inodes with_tx fs_inodes s2]; by rewrite !zset_zset).
  by apply (body_done f x i n1 data os t I r s5 t3 I3 Of); try done; try lia; try (unfold s5; by rewrite Es3).
Qed.

Lemma write_chunk_spec f x i addr n1 data os t I : open_file f x i os t I -> source_ok (FromUser addr) n1 data (fs_user (o_fs os)) ->
  0 < n1 <= write_max -> 0 <= f_off x <= d_size (I (i_inum i)) -> f_off x + n1 <= MAXFILE * BSIZE ->
  wp (write_chunk f addr n1) (chunk_post f x i (f_off x) n1 data os t I) os.
Proof.
  intros Of Hs Hn Ho He. unfold write_chunk. apply wp_bind_assoc, wp_bind. eapply wp_mono; [by apply (write_body_spec f x i addr n1 data os t I)|].
  intros r os1 (t1 & I1 & A1 & _ & _ & Eh & Ec & Eb & Hl & Wr & Hr & Hsh & He1). apply wp_bind. eapply wp_mono; [exact He1|]. intros [] os2 (i' & Of2 & Sr & Ei). apply wp_ret.
  exists (committed t1), I1, i', t1. split_and!; try done; lia.
Qed.

Lemma wrote_nil s t I n off : fs_at s t I -> 0 <= n < sb_ninodes (fs_sb s) -> off <= d_size (I n) -> disk_inode (fs_sb s) (tv_cur t) n = I n ->
  wrote (fs_sb s) n off [] (tv_cur t) I (tv_cur t) I.
Proof.
  intros A Hn Ho Hs. constructor; try done; [apply A| |].
  - intros x Hx. cbn [length]. by rewrite decide_False by lia.
  - cbn [length]. replace (Z.max (d_size (I n)) (off + Z.of_nat 0)) with (d_size (I n)) by lia. by destruct (I n).
Qed.

(** A committed state with the first [w] bytes written. *)
Definition partly_written (sb : superblock) (n off : Z) (data : list Z) (F : blocks) I (G : blocks) : Prop :=
  exists w J, 0 <= w <= Z.of_nat (length data) /\ wrote sb n off (take (Z.to_nat w) data) F I G J /\ forall m, 0 <= m < sb_ninodes sb -> disk_inode sb G m = J m.
(** Every state committed since is one. *)
Definition history (sb : superblock) (n off : Z) (data : list Z) t I t' : Prop :=
  forall G, G ∈ tv_hist t' ++ [tv_committed t'] -> G ∈ tv_hist t ++ [tv_committed t] \/ partly_written sb n off data (tv_cur t) I G.

(** [w] bytes of [data] written from the state [os0], [t0], [I0]. *)
Record progress f x (n off : Z) (data : list Z) os0 t0 I0 (w : Z) i os t I : Prop := {
  pg_open : open_file f (set_off (off + w) x) i os t I;
  pg_rest : same_rest f os0 os;
  pg_inum : i_inum i = n;
  pg_wrote : wrote (fs_sb (o_fs os0)) n off (take (Z.to_nat w) data) (tv_cur t0) I0 (tv_cur t) I;
  pg_hist : history (fs_sb (o_fs os0)) n off data t0 I0 t;
  pg_boot : tv_boot t = tv_boot t0;
}.

Lemma same_rest_trans f a b c : same_rest f a b -> same_rest f b c -> same_rest f a c.
Proof. intros [A1 A2 A3 A4 A5 A6] [B1 B2 B3 B4 B5 B6]. constructor; try congruence. intros g Hg. by rewrite B6, A6. Qed.

Lemma take_split (w r : Z) (data : list Z) : 0 <= w -> 0 <= r -> take (Z.to_nat (w + r)) data = take (Z.to_nat w) data ++ take (Z.to_nat r) (drop (Z.to_nat w) data).
Proof. intros. rewrite Z2Nat.inj_add by done. symmetry. apply take_take_drop. Qed.

(** One more chunk. *)
Lemma progress_step f x n off data os0 t0 I0 w i os t I n1 chunk r os' : progress f x n off data os0 t0 I0 w i os t I ->
  0 <= w -> w + n1 <= Z.of_nat (length data) -> 0 <= n < sb_ninodes (fs_sb (o_fs os0)) -> chunk = take (Z.to_nat n1) (drop (Z.to_nat w) data) ->
  chunk_post f (set_off (off + w) x) i (off + w) n1 chunk os t I r os' ->
  0 <= r <= n1 /\ exists i' t' I', progress f x n off data os0 t0 I0 (w + r) i' os' t' I' /\ (r < n1 -> all_used (fs_sb (o_fs os0)) (tv_cur t')).
Proof.
  intros [Po Pr Pn Pw Ph Pb] Hw Hlen Hn Ec (t' & I' & i' & t1 & Hr & Po' & Pr' & Ei & Wr & -> & Eh & Ecom & Eb & _ & Hshort). split; [done|].
  rewrite (sr_sb _ _ _ Pr) in *. rewrite Pn in *.
  assert (Ew : wrote (fs_sb (o_fs os0)) n off (take (Z.to_nat (w + r)) data) (tv_cur t0) I0 (tv_cur (committed t1)) I').
  { rewrite take_split by lia. apply (wrote_trans _ _ _ _ _ _ _ (tv_cur t) I); [done| |done].
    rewrite length_take, Nat.min_l, Z2Nat.id by lia. rewrite Ec, take_take, Nat.min_l in Wr by lia. done. }
  exists i', (committed t1), I'. split; [|intros Hlt; by apply Hshort]. constructor; try done.
  - by rewrite Z.add_assoc.
  - by apply (same_rest_trans f os0 os).
  - intros G HG. cbn [committed tv_hist tv_committed] in HG. rewrite Eh, Ecom in HG. apply elem_of_app in HG as [HG|HG]; [by apply Ph|].
    apply list_elem_of_singleton in HG as ->. right. exists (w + r), I'. split_and!; [lia|lia|done|]. pose proof (of_sync _ _ _ _ _ _ Po') as Hs.
    rewrite (sr_sb _ _ _ Pr'), (sr_sb _ _ _ Pr) in Hs. apply Hs.
  - cbn [committed tv_boot]. by rewrite Eb.
Qed.

Lemma filewrite_loop_spec f x n off addr len data os0 t0 I0 : source_ok (FromUser addr) len data (fs_user (o_fs os0)) -> 0 <= n < sb_ninodes (fs_sb (o_fs os0)) ->
  0 <= off <= d_size (I0 n) -> off + len <= MAXFILE * BSIZE -> forall rounds w i os t I, progress f x n off data os0 t0 I0 w i os t I ->
  0 <= w <= len -> (1 <= rounds)%nat -> len - w <= (Z.of_nat rounds - 1) * write_max ->
  wp (filewrite_loop rounds f addr len w) (fun r os' => exists w' i' t' I', progress f x n off data os0 t0 I0 w' i' os' t' I' /\
    (r = len /\ w' = len \/ r < len /\ r <= w' < len /\ all_used (fs_sb (o_fs os0)) (tv_cur t'))) os.
Proof.
  intros Hsrc Hn Ho He. pose proof (sc_len _ _ _ _ Hsrc) as Hlen. induction rounds as [|rounds IH]; [lia|]. intros w i os t I P Hw _ Hr. cbn [filewrite_loop].
  destruct (Z.ltb_spec w len) as [Hlt|Hge]; [|apply wp_ret; exists w, i, t, I; split; [done|left; lia]].
  set (n1 := Z.min (len - w) write_max). assert (Hmax : write_max = 3072) by done. assert (Hn1 : 0 < n1 <= write_max) by lia. pose proof (pg_open _ _ _ _ _ _ _ _ _ _ _ _ _ P) as Po.
  destruct (source_split (FromUser addr) len data w _ Hsrc ltac:(lia)) as [_ Hs1]. destruct (source_split _ _ _ n1 _ Hs1 ltac:(lia)) as [Hs2 _].
  cbn [source_plus] in Hs2. rewrite <- (sr_user _ _ _ (pg_rest _ _ _ _ _ _ _ _ _ _ _ _ _ P)) in Hs2.
  apply wp_bind. eapply wp_mono; [apply (write_chunk_spec f (set_off (off + w) x) i _ n1 _ os t I Po Hs2 Hn1); cbn [set_off f_off]; [|lia]|].
  { rewrite (pg_inum _ _ _ _ _ _ _ _ _ _ _ _ _ P), (wr_self _ _ _ _ _ _ _ _ (pg_wrote _ _ _ _ _ _ _ _ _ _ _ _ _ P)). cbn [set_size d_size]. rewrite length_take. lia. }
  cbn [set_off f_off]. intros r os1 Hpost.
  destruct (progress_step f x n off data os0 t0 I0 w i os t I n1 _ r os1 P ltac:(lia) ltac:(lia) Hn eq_refl Hpost) as (Hr' & i1 & t1 & I1 & P1 & Hfull).
  destruct (Z.eqb_spec r n1) as [->|Hne].
  - eapply wp_mono; [apply (IH (w + n1) i1 os1 t1 I1 P1); [lia|lia|]|done]. destruct (Z_lt_le_dec (len - w) write_max); lia.
  - apply wp_ret. exists (w + r), i1, t1, I1. split; [done|]. right. split_and!; [lia|lia|lia|]. apply Hfull. lia.
Qed.

(** ** The whole call *)

Lemma progress_start f x i data os t I : open_file f x i os t I -> f_off x <= d_size (I (i_inum i)) -> progress f x (i_inum i) (f_off x) data os t I 0 i os t I.
Proof.
  intros Of Ho. pose proof Of as [Hx Hi Hr Hl A Hty Hum Hid Hsync Hmap Hlog]. destruct (it_ent _ _ _ _ (fa_tab _ _ _ A) _ i Hi Hr) as (_ & Hn & _).
  constructor; try done.
  - rewrite Z.add_0_r. by destruct x.
  - change (take (Z.to_nat 0) data) with (@nil Z). apply wrote_nil; [done|done|done|by apply Hsync].
  - intros G HG. by left.
Qed.

Lemma filewrite_spec f x i addr len data os t I : open_file f x i os t I -> f_type x = FD_INODE -> f_writable x = true ->
  source_ok (FromUser addr) len data (fs_user (o_fs os)) -> 0 <= f_off x <= d_size (I (i_inum i)) -> f_off x + len <= MAXFILE * BSIZE ->
  wp (filewrite f addr len) (fun r os' => exists w i' t' I', progress f x (i_inum i) (f_off x) data os t I w i' os' t' I' /\
    (r = len /\ w = len \/ r = -1 /\ w < len /\ all_used (fs_sb (o_fs os)) (tv_cur t'))) os.
Proof.
  intros Of Et Ew Hsrc Ho He. pose proof Of as [Hx Hi Hr Hl A Hty Hum Hid Hsync Hmap Hlog]. destruct (it_ent _ _ _ _ (fa_tab _ _ _ A) _ i Hi Hr) as (_ & Hn & _).
  pose proof (sc_len _ _ _ _ Hsrc) as Hlen. assert (Hmax : write_max = 3072) by done. unfold filewrite. apply wp_bind, (wp_fat f x); [done|]. rewrite Ew, Et. cbn [negb].
  pose proof (Z.div_pos len write_max ltac:(lia) ltac:(done)) as Hdp. pose proof (Z.mod_pos_bound len write_max ltac:(done)). pose proof (Z.div_mod len write_max ltac:(done)).
  apply wp_bind. eapply wp_mono; [apply (filewrite_loop_spec f x (i_inum i) (f_off x) addr len data os t I Hsrc Hn Ho He (write_rounds len) 0 i os t I); [apply progress_start; [done|lia]|lia|unfold write_rounds; lia|unfold write_rounds; lia]|].
  intros r os' (w & i' & t' & I' & P & [[-> ->]|(H1 & H2 & H3)]); apply wp_ret.
  - exists len, i', t', I'. split; [done|]. left. by rewrite Z.eqb_refl.
  - exists w, i', t', I'. split; [done|]. right. destruct (Z.eqb_spec r len); [lia|]. split_and!; [done|lia|done].
Qed.
End write.
