(* ===== verification/FsCrash.v ===== *)
(** * Start: [fsinit]

    [fsinit] reads the superblock, checks its magic number and has the log
    recovered; on a disk that recovers to a consistent file system the file
    system is then at rest with these contents.  The second part is a
    write to a file across crashes. *)

From stdpp Require Import base numbers list gmap strings.
From Stdlib Require Import ZArith Lia.
From S2P Require Import Prelude Blocks Monad Codec Mem UserMem Bio BioCache Log LogSteps LogCrash LogGroup LogSafe Txn Fs FsImage FsInv FsAlloc FsRead FsWritei FsTrunc FsInode FsDir File FileWrite.
Open Scope Z_scope.

(** The inodes on the disk make a consistent file system. *)
Definition consistent (sb : superblock) (F : blocks) : Prop := fs_inv sb F (disk_inode sb F).

Lemma inv_ext sb F I I' : fs_inv sb F I -> (forall n, 0 <= n < sb_ninodes sb -> I' n = I n) -> fs_inv sb F I'.
Proof.
  intros [X1 X2 X3 X4 X5 X6 X7] E. pose proof (sb_order _ X1). pose proof (so_data _ X1).
  constructor; [done|done|intros i Hi; rewrite E by done; by apply X3|intros i Hi; rewrite E by done; by apply X4|intros i p Hi; rewrite E by done; by apply X5| |done].
  apply (owned_ext _ _ _ _ _ X6); [|done|lia|lia]. intros i p [Hi _]. by rewrite E.
Qed.

(** The inode table before [fsinit]: at most the root directory, the current
    directory of the first process, is in use, and it has not been read. *)
Record boot_table (l : list inode) : Prop := {
  bt_len : length l = Z.to_nat NINODE;
  bt_lock : forall k i, znth l k = Some i -> i_lock i = false /\ 0 <= i_ref i;
  bt_root : forall k i, znth l k = Some i -> 0 < i_ref i -> i_dev i = ROOTDEV /\ i_inum i = ROOTINO /\ i_valid i = false;
  bt_uniq : forall k k' i i', znth l k = Some i -> znth l k' = Some i' -> 0 < i_ref i -> 0 < i_ref i' -> k = k';
}.

Lemma boot_itab sb l F : sb_ok sb -> boot_table l -> itab sb l F (disk_inode sb F).
Proof.
  intros Hsb [Hl H0 H1 H2]. pose proof (so_inodes _ Hsb) as Hi. constructor; try done.
  - intros k i Hk. by apply (H0 k).
  - intros k i Hk Hr. destruct (H1 k i Hk Hr) as (-> & -> & ->). unfold ROOTINO. split_and!; [done|lia|lia|done].
  - intros k k' i i' Hk Hk' Hr Hr' _. by apply (H2 k k' i i').
Qed.

Section boot.
Context {C U : Type} {BC : BufferCache C} {OK : BufferCacheOK C} {UM : UserMemory U} {UMok : UserMemoryOK U}.
Abbreviation fss := (fsst (lst C) U).

(** A machine that starts on disk [D]. *)
Definition cold (D : blocks) (s : fss) : Prop :=
  exists c, fs_tx s = mk_lst c boot_log /\ c_shows c (fresh D []) /\ boot_table (fs_inodes s) /\ um_ok (fs_user s).

Definition booted_view (sb : superblock) (D F : blocks) : tview := mk_tview (sb_nlog sb) (sb_logstart sb) D [] F F 0 [] ∅.

(** The superblock is read before the log is set up. *)
Lemma readsb_cold D s (Q : superblock -> fss -> Prop) : cold D s ->
  (forall c', c_shows c' (fresh D []) -> Q (c_dec c_superblock (D 1)) (with_tx (mk_lst c' boot_log) s)) -> wp readsb Q s.
Proof.
  intros (c & Etx & Hs & _) HQ. unfold readsb, bread, bdata, brel, in_tx. cbn [t_bread t_data t_brelse log_transactions].
  apply wp_bind, wp_lift. rewrite Etx. apply wp_cache. eapply wp_mono; [apply (bread_ok 1 (fresh D []) c Hs)|].
  - split; [done|]. right. done.
  - intros k r Hr. by cbn [fresh cv_refs] in Hr.
  - intros b c1 H1. cbn [fresh cv_view cv_disk cv_refs cv_held cv_writes] in H1. apply wp_bind, wp_lift, wp_cache.
    eapply wp_mono; [apply (data_ok 1 b _ c1 H1), lookup_insert_eq|]. intros x c2 [-> ->]. cbn [cv_view].
    apply wp_bind, wp_lift, wp_cache. eapply wp_mono; [apply (brelse_ok 1 b _ c1 H1); [apply lookup_insert_eq|done]|].
    intros [] c3 H3. apply wp_ret. apply HQ. cbn [fresh cv_view cv_disk cv_refs cv_held cv_writes] in H3.
    unfold ref, unref in H3. rewrite lookup_empty, lookup_insert_eq in H3. cbn [default from_option id] in H3. rewrite decide_True in H3 by done.
    by rewrite !delete_insert_id in H3 by done.
Qed.

Lemma recovery_values nlog start F D w : holds nlog start F D -> w ∈ recovery_writes start D -> home nlog start w.1 -> w.2 = F w.1.
Proof.
  intros HF. unfold recovery_writes. intros [(j & -> & Hj%elem_of_range)%list_elem_of_fmap|E%list_elem_of_singleton]%elem_of_app.
  - intros _. cbn [fst snd]. by apply (ho_log _ _ _ _ HF).
  - subst w. intros Hh. by destruct (start_not_home _ _ _ _ HF).
Qed.

(** [fsinit] on a disk that recovers to a consistent file system. *)
Lemma fsinit_spec sb D F s : cold D s -> c_dec c_superblock (D 1) = sb -> sb_magic sb = FSMAGIC -> 1 <= sb_nlog sb <= NBUF ->
  consistent sb F -> holds (sb_nlog sb) (sb_logstart sb) F D ->
  wp fsinit (fun _ s' => fs_at s' (booted_view sb D F) (disk_inode sb F) /\ fs_sb s' = sb /\ fs_inodes s' = fs_inodes s /\ fs_cwd s' = fs_cwd s /\ fs_user s' = fs_user s) s.
Proof.
  intros (c & Etx & Hc & Htab & Hum) Esb Hmagic Hn Hcons Hholds. pose proof (sb_order _ (fi_sb _ _ _ Hcons)) as Hord. pose proof (so_data _ (fi_sb _ _ _ Hcons)) as Hdata.
  pose proof (so_log _ (fi_sb _ _ _ Hcons)) as Hlog. unfold fsinit.
  apply wp_bind, (readsb_cold D); [by exists c|]. intros c1 H1. rewrite Esb. apply wp_bind, wp_modify. rewrite Hmagic, Z.eqb_refl. cbn [negb].
  rewrite !i32_small by (unfold NBUF, MAXOPBLOCKS in *; lia). apply wp_lift. cbn [fs_tx with_tx t_initlog log_transactions].
  eapply wp_mono; [apply (initlog_spec (sb_nlog sb) (sb_logstart sb) F D [] c1 H1 Hholds)|]. intros [] tx (c2 & lg & v & -> & H2 & Sim & Hw & Hd). cbn [app] in Hw.
  split; [|done]. constructor.
  - constructor; [|done|done]. exists v. split; [done|]. split; [by apply sim_tsim|]. constructor; cbn [booted_view tv_boot tv_hist tv_committed tv_nlog tv_start].
    + by rewrite Hw.
    + rewrite Hw. intros w Hin Hh. exists F. split; [by apply list_elem_of_singleton|]. by apply (recovery_values (sb_nlog sb) (sb_logstart sb) F D).
    + intros k. exists F. split; [by apply list_elem_of_singleton|]. rewrite Hw. by apply recovery_holds.
  - exact Hcons.
  - apply boot_itab; [apply Hcons|done].
Qed.
End boot.

(** * Crashes: the file system over the log

    What a machine finds when it starts again after a crash in the middle of
    [filewrite]: a consistent file system in which the file holds a prefix of
    the bytes written, and every other file is as it was. *)

(** ** What the files hold *)

(** The bytes from [off] on replaced. *)
Definition overwrite (l : list Z) (off : Z) (bs : list Z) : list Z := take (Z.to_nat off) l ++ bs ++ drop (Z.to_nat off + length bs) l.

Lemma fdata_lookup F d k : 0 <= d_size d -> fdata F d !! k = if decide (Z.of_nat k < d_size d) then Some (fbyte F d (Z.of_nat k)) else None.
Proof. intros H. unfold fdata, fbytes. rewrite map_range_lookup, Z.sub_0_r. by rewrite !Z.add_0_l. Qed.
Lemma fdata_length F d : 0 <= d_size d -> Z.of_nat (length (fdata F d)) = d_size d.
Proof. intros H. unfold fdata. rewrite fbytes_length. lia. Qed.

Lemma wrote_self sb n off data F I F' I' : wrote sb n off data F I F' I' -> fs_inv sb F I -> 0 <= n < sb_ninodes sb -> 0 <= off <= d_size (I n) ->
  off + Z.of_nat (length data) <= MAXFILE * BSIZE -> fdata F' (I' n) = overwrite (fdata F (I n)) off data.
Proof.
  intros Wr Inv Hn Ho He. assert (Es : d_size (I' n) = Z.max (d_size (I n)) (off + Z.of_nat (length data))) by (by rewrite (wr_self _ _ _ _ _ _ _ _ Wr)).
  pose proof (fi_size _ _ _ Inv n Hn) as Hsz. pose proof (fdata_length F (I n) ltac:(lia)) as Hl. apply list_eq. intros k. rewrite fdata_lookup by lia. unfold overwrite.
  assert (Hold : forall k, fdata F (I n) !! k = if decide (Z.of_nat k < d_size (I n)) then Some (fbyte F (I n) (Z.of_nat k)) else None) by (intros; apply fdata_lookup; lia).
  rewrite Es. destruct (decide (Z.of_nat k < off)) as [H1|H1].
  - rewrite decide_True by lia. rewrite lookup_app_l by (rewrite length_take; lia). rewrite lookup_take_lt by lia. rewrite Hold, decide_True by lia.
    rewrite (wr_byte _ _ _ _ _ _ _ _ Wr) by lia. by rewrite decide_False by lia.
  - rewrite lookup_app_r by (rewrite length_take; lia). rewrite length_take, Nat.min_l by lia. destruct (decide (Z.of_nat k < off + Z.of_nat (length data))) as [H2|H2].
    + rewrite decide_True by lia. rewrite lookup_app_l by lia. rewrite (wr_byte _ _ _ _ _ _ _ _ Wr) by lia. rewrite decide_True by lia.
      destruct (data !! (k - Z.to_nat off)%nat) as [y|] eqn:E; [|apply lookup_ge_None in E; lia]. rewrite nth_lookup. by replace (Z.to_nat (Z.of_nat k - off)) with (k - Z.to_nat off)%nat by lia; rewrite E.
    + rewrite lookup_app_r by lia. rewrite lookup_drop. replace (Z.to_nat off + length data + (k - Z.to_nat off - length data))%nat with k by lia. rewrite Hold.
      case_decide as H3; case_decide as H4; try lia; [|done]. rewrite (wr_byte _ _ _ _ _ _ _ _ Wr) by lia. by rewrite decide_False by lia.
Qed.

Lemma wrote_other sb n off data F I F' I' m : wrote sb n off data F I F' I' -> fs_inv sb F I -> 0 <= m < sb_ninodes sb -> m <> n -> fdata F' (I' m) = fdata F (I m).
Proof.
  intros Wr Inv Hm Hne. rewrite (wr_others _ _ _ _ _ _ _ _ Wr) by done. unfold fdata. apply fbytes_ext. intros x Hx. unfold fbyte.
  rewrite (wr_blk _ _ _ _ _ _ _ _ Wr); [done|done|done|]. pose proof (fi_size _ _ _ Inv m Hm). split; [by apply Z.div_pos; [lia|]|]. apply Z.div_lt_upper_bound; [done|lia].
Qed.

(** The contents of a file, read off the disk. *)
Definition contents (sb : superblock) (F : blocks) (n : Z) : list Z := fdata F (disk_inode sb F n).

(** The files after the first [w] bytes of [data] are written. *)
Definition written (sb : superblock) (n off : Z) (bs : list Z) (F G : blocks) : Prop :=
  consistent sb G /\ contents sb G n = overwrite (contents sb F n) off bs /\ forall m, 0 <= m < sb_ninodes sb -> m <> n -> contents sb G m = contents sb F m.

Lemma wrote_written sb n off bs F I G J : wrote sb n off bs F I G J -> fs_inv sb F I -> 0 <= n < sb_ninodes sb -> 0 <= off <= d_size (I n) ->
  off + Z.of_nat (length bs) <= MAXFILE * BSIZE -> (forall m, 0 <= m < sb_ninodes sb -> disk_inode sb F m = I m) ->
  (forall m, 0 <= m < sb_ninodes sb -> disk_inode sb G m = J m) -> written sb n off bs F G.
Proof.
  intros Wr Inv Hn Ho He HF HG. unfold contents. split_and!.
  - apply (inv_ext _ _ J); [apply Wr|done].
  - unfold contents. rewrite HF, HG by done. by apply (wrote_self sb n off bs F I).
  - intros m Hm Hne. unfold contents. rewrite HF, HG by done. by apply (wrote_other sb n off bs F I).
Qed.

(** ** Crashes *)

Lemma apply_writes_at ws : forall (F : blocks) b, apply_writes F ws b = F b \/ exists w, w ∈ ws /\ w.1 = b /\ apply_writes F ws b = w.2.
Proof.
  induction ws as [|[n y] ws IH] using rev_ind; intros F b; [by left|]. rewrite apply_writes_app. cbn [apply_writes foldl fst snd]. fold (apply_writes F ws). unfold bupd. case_decide as E.
  - right. exists (n, y). split_and!; [apply elem_of_app; right; by apply list_elem_of_singleton|done|done].
  - destruct (IH F b) as [H|(w & H1 & H2 & H3)]; [by left|right]. exists w. split_and!; [apply elem_of_app; by left|done|done].
Qed.

Section crash.
Context {C : Type} {BC : BufferCache C} {OK : BufferCacheOK C}.

(** A crash during recovery: each block is as before or as recovered. *)
Lemma crashes_at nlog start F D D' b : crashes nlog start (C := C) D D' -> holds nlog start F D -> home nlog start b -> D' b = D b \/ D' b = F b.
Proof.
  intros Hc. induction Hc as [|D D1 c s v k Hc IH Hs Hr Hv]; intros HF Hb; [by left|]. specialize (IH HF Hb). pose proof (crashes_hold nlog start F D D1 Hc HF) as H1.
  pose proof (initlog_spec nlog start F D1 [] c Hs H1) as Hi. apply wp_Done in Hi as ([] & s' & Hr' & (c' & lg' & v' & -> & Hv' & _ & Hw & _)).
  rewrite Hr in Hr'. injection Hr' as ->. destruct (shows_fun _ _ _ Hv Hv') as [-> _]. rewrite Hw. cbn [app].
  destruct (apply_writes_at (take k (recovery_writes start D1)) D1 b) as [->|(w & Hin & Ew & ->)]; [done|]. right. rewrite <- Ew. apply (recovery_values nlog start F D1); [done| |by rewrite Ew].
  by apply (subseteq_take k).
Qed.

(** After a crash at any point one of the states committed so far is recovered;
    the last one if no write was lost. *)
Lemma crash_state (x : lst C) t v k D' : t_shows x t -> tv_held t = ∅ -> c_shows (l_cache x) v -> crashes (tv_nlog t) (tv_start t) (C := C) (apply_writes (tv_boot t) (take k (cv_writes v))) D' ->
  exists G, G ∈ tv_hist t ++ [tv_committed t] /\ holds (tv_nlog t) (tv_start t) G D' /\ ((length (cv_writes v) <= k)%nat -> G = tv_committed t) /\
    forall b, home (tv_nlog t) (tv_start t) b -> D' b = tv_boot t b \/ exists G', G' ∈ tv_hist t ++ [tv_committed t] /\ D' b = G' b.
Proof.
  intros (v0 & Hv0 & Sim & X) Hh Hv Hc. destruct (shows_fun _ _ _ Hv Hv0) as [Ew _]. rewrite Ew in *.
  assert (HG : exists G, G ∈ tv_hist t ++ [tv_committed t] /\ holds (tv_nlog t) (tv_start t) G (apply_writes (tv_boot t) (take k (cv_writes v0))) /\ ((length (cv_writes v0) <= k)%nat -> G = tv_committed t)).
  { destruct (decide (length (cv_writes v0) <= k)%nat) as [Hk|Hk].
    - exists (tv_committed t). split_and!; [apply elem_of_app; right; by apply list_elem_of_singleton| |done]. rewrite take_ge, <- (tc_disk _ _ X) by done.
      apply (sim_holds _ _ (ts_nlog _ _ _ Sim) (astate_of t) (l_log x)). by apply tsim_sim.
    - destruct (tc_past _ _ X k) as (G & H1 & H2). exists G. split_and!; [done|done|lia]. }
  destruct HG as (G & HG & Hho & Hlast). exists G. split_and!; [done|by eapply crashes_hold|done|]. intros b Hb.
  destruct (crashes_at _ _ G _ _ b Hc Hho Hb) as [->| ->]; [|right; by exists G].
  destruct (apply_writes_at (take k (cv_writes v0)) (tv_boot t) b) as [->|(w & Hin & Ewb & ->)]; [by left|right]. rewrite <- Ewb in Hb |- *.
  apply (tc_values _ _ X w); [by apply (subseteq_take k)|done].
Qed.
End crash.

Section filewrite.
Context {C U W : Type} {BC : BufferCache C} {OK : BufferCacheOK C} {UM : UserMemory U} {UMok : UserMemoryOK U} {ST : Streams W U}.
Abbreviation fss := (fsst (lst C) U).
Abbreviation oss := (ost (lst C) U W).
Implicit Types (s : fss) (os : oss) (t : tview) (I : Z -> dinode).

(** A run since the start in which every committed state is consistent. *)
Record sound_run (sb : superblock) t : Prop := {
  sn_magic : sb_magic sb = FSMAGIC;
  sn_boot : c_dec c_superblock (tv_boot t 1) = sb;
  sn_past : forall G, G ∈ tv_hist t ++ [tv_committed t] -> consistent sb G;
}.

(** The machine starts again on disk [D'] with contents [G]. *)
Definition recovers (sb : superblock) (D' G : blocks) : Prop := forall s, cold D' s ->
  wp fsinit (fun _ s' => exists t', fs_at s' t' (disk_inode sb G) /\ idle_tx t' /\ tv_cur t' = G) s.

Lemma crash_recovers s t I v k D' : fs_at s t I -> tv_held t = ∅ -> sound_run (fs_sb s) t -> c_shows (l_cache (fs_tx s)) v ->
  crashes (tv_nlog t) (tv_start t) (C := C) (apply_writes (tv_boot t) (take k (cv_writes v))) D' ->
  exists G, G ∈ tv_hist t ++ [tv_committed t] /\ ((length (cv_writes v) <= k)%nat -> G = tv_committed t) /\ recovers (fs_sb s) D' G.
Proof.
  intros A Hh [Hm Hb Hp] Hv Hc. pose proof (ta_shows _ _ (fa_tx _ _ _ A)) as Hsh. destruct (t_bound _ _ Hsh) as (Hn & _).
  destruct (crash_state _ t v k D' Hsh Hh Hv Hc) as (G & HG & Hho & Hlast & Hblk). exists G. split_and!; [done|done|]. intros s0 Hcold.
  pose proof (Hp G HG) as Hcons. pose proof (so_log _ (fi_sb _ _ _ Hcons)) as Hlog. destruct (fa_tx _ _ _ A) as [_ En Es]. rewrite En, Es in *.
  assert (Hsb : c_dec c_superblock (D' 1) = fs_sb s).
  { destruct (Hblk 1) as [->|(G' & HG' & ->)]; [unfold home; lia|done|]. apply (Hp G' HG'). }
  eapply wp_mono; [by apply (fsinit_spec (fs_sb s) D' G s0)|]. intros [] s1 (A1 & _). exists (booted_view (fs_sb s) D' G). done.
Qed.

(** C6: A write to a file is crash safe: after a crash at any disk write of the
    call, crashes during recovery included, the machine boots into a consistent
    file system.  It is a state committed before, or it has the first bytes of
    the data in place of the old ones and every other file as it was; once the
    call has returned the length of the data and no disk write is lost, it has
    all of the data.  The data are in readable memory, and the file stays within
    the largest size. *)
Theorem filewrite_crash_safe f x i addr len data os t I : open_file f x i os t I -> f_type x = FD_INODE -> f_writable x = true ->
  source_ok (FromUser addr) len data (fs_user (o_fs os)) -> 0 <= f_off x <= d_size (I (i_inum i)) -> f_off x + len <= MAXFILE * BSIZE ->
  sound_run (fs_sb (o_fs os)) t ->
  let sb := fs_sb (o_fs os) in let n := i_inum i in
  wp (filewrite f addr len) (fun r os' => exists v, c_shows (l_cache (fs_tx (o_fs os'))) v /\
    forall k D', crashes (sb_nlog sb) (sb_logstart sb) (C := C) (apply_writes (tv_boot t) (take k (cv_writes v))) D' ->
    exists G, recovers sb D' G /\
      (G ∈ tv_hist t ++ [tv_committed t] \/ exists w, 0 <= w <= len /\ written sb n (f_off x) (take (Z.to_nat w) data) (tv_cur t) G) /\
      ((length (cv_writes v) <= k)%nat -> r = len -> written sb n (f_off x) data (tv_cur t) G)) os.
Proof.
  intros Of Et Ew Hsrc Ho He Hs sb n. pose proof Of as [Hx Hi Hr Hl A Hty Hum Hid Hsync Hmap Hlog]. destruct (it_ent _ _ _ _ (fa_tab _ _ _ A) _ i Hi Hr) as (_ & Hn & _).
  pose proof (sc_len _ _ _ _ Hsrc) as Hlen. fold sb n in Hs, Hsync, Hn, Ho.
  assert (Hwr : forall w G J, 0 <= w <= len -> wrote sb n (f_off x) (take (Z.to_nat w) data) (tv_cur t) I G J -> (forall m, 0 <= m < sb_ninodes sb -> disk_inode sb G m = J m) ->
    written sb n (f_off x) (take (Z.to_nat w) data) (tv_cur t) G).
  { intros w G J Hw Wr HG. apply (wrote_written sb n (f_off x) _ (tv_cur t) I G J); [done|apply A|done|done| |done|done]. rewrite length_take. lia. }
  eapply wp_mono; [by apply (filewrite_spec f x i addr len data os t I)|]. intros r os' (w & i' & t' & I' & [Po Pr Pn Pw Ph Pb] & Hres). fold sb n in Pw, Ph, Hres.
  pose proof (sr_sb _ _ _ Pr) as Esb. fold sb in Esb. pose proof Po as [_ _ _ _ A' _ _ Hid' Hsync' _ _]. rewrite Esb in Hsync'.
  destruct (fa_tx _ _ _ A') as [(v & Hv & _) En Es]. exists v. split; [done|]. intros k D' Hc. rewrite <- Esb, <- En, <- Es, <- Pb in Hc.
  assert (Hs' : sound_run (fs_sb (o_fs os')) t').
  { rewrite Esb. destruct Hs as [S1 S2 S3]. constructor; [done|by rewrite Pb|]. intros G [HG|(w0 & J & Hw0 & Wr & HJ)]%Ph; [by apply S3|]. apply (Hwr w0 G J); [lia|done|done]. }
  destruct (crash_recovers (o_fs os') t' I' v k D' A' (id_held _ Hid') Hs' Hv Hc) as (G & HG & Hlast & Hrec). rewrite Esb in Hrec. exists G. split_and!; [done| |].
  - destruct (Ph G HG) as [H|(w0 & J & Hw0 & Wr & HJ)]; [by left|right]. exists w0. split; [lia|]. apply (Hwr w0 G J); [lia|done|done].
  - intros Hk ->. rewrite (Hlast Hk), (id_commit _ Hid'). destruct Hres as [[_ ->]|(? & _)]; [|lia].
    pose proof (Hwr len (tv_cur t') I' ltac:(lia) Pw Hsync') as H. by rewrite take_ge in H by lia.
Qed.
End filewrite.
