(* ===== verification/FsProps.v ===== *)
(** * What the file system promises

    The operations of kernel/fs.c taken together: what is written is read back,
    a link is found by lookup, a path leads where the directories say, the last
    reference to an unlinked inode gives its blocks back, and one call of
    [write] fits into one transaction. *)

From stdpp Require Import base numbers list gmap strings.
From Stdlib Require Import ZArith Lia.
From S2P Require Import Prelude Blocks Monad Codec Mem UserMem Bio BioCache Log LogCrash LogGroup Txn Fs FsImage FsInv FsAlloc FsRead FsWritei FsTrunc FsInode FsDir FsNamex File FileWrite FsCrash.
Open Scope Z_scope.

Section fs.
Context `{TX : Transactions T} `{TXok : !TransactionsOK T} `{UM : UserMemory U} `{UMok : !UserMemoryOK U}.
Abbreviation fss := (fsst T U).
Implicit Types (s : fss) (t : tview) (I : Z -> dinode).

(** C14: From a source that can be read in full, the bytes that [writei] accepts are
    read back by [readi], no other file changes, and if they are fewer than were
    given all blocks of the disk are in use. *)
Theorem writei_readi B ip i s t I src off n data : fs_at s t I -> in_use (fs_inodes s) ip i -> tv_held t = ∅ -> um_ok (fs_user s) ->
  d_type (I (i_inum i)) <> 0 -> full (tv_cur t) (I (i_inum i)) -> source_ok src n data (fs_user s) -> room B (2 * span off n) t -> has_map (fs_sb s) B ->
  IBLOCK (i_inum i) (fs_sb s) ∈ B -> 0 <= off <= d_size (I (i_inum i)) -> 0 <= n -> off + n <= MAXFILE * BSIZE ->
  wp (let! r := writei ip src off n in let! q := readi ip ToKernel off r in ret (r, q)) (fun rq s' => exists t' I', let r := rq.1 in
    fs_at s' t' I' /\ 0 <= r <= n /\ rq.2 = (r, take (Z.to_nat r) data) /\ (r < n -> all_used (fs_sb s) (tv_cur t')) /\
    d_size (I' (i_inum i)) = Z.max (d_size (I (i_inum i))) (off + r) /\
    forall m, 0 <= m < sb_ninodes (fs_sb s) -> m <> i_inum i -> fdata (tv_cur t') (I' m) = fdata (tv_cur t) (I m)) s.
Proof.
  intros A Hu Hh Hum Hty Hf Hsrc Hroom HB HI Hoff Hn Hend. destruct (in_use_facts _ _ _ _ _ A Hu) as (_ & Hi & _). pose proof (sc_len _ _ _ _ Hsrc) as Hlen.
  apply wp_bind. eapply wp_mono; [by apply (writei_spec B ip i s t I src off n data)|]. intros r s1 (t1 & I1 & A1 & Ev & Hr & Wr & (x & ->) & Hshort).
  set (k := i_inum i) in *. pose proof (wr_self _ _ _ _ _ _ _ _ Wr) as Eself. set (bs := take (Z.to_nat r) data) in *.
  assert (Lbs : Z.of_nat (length bs) = r) by (unfold bs; rewrite length_take; lia). assert (Esz : d_size (I1 k) = Z.max (d_size (I k)) (off + r)) by (rewrite Eself; cbn [set_size d_size]; lia).
  destruct (ev_fields _ _ _ _ Ev) as (_ & _ & Eh & _). set (i1 := set_d (I1 k) i). apply wp_bind.
  eapply wp_mono; [apply (readi_spec ip i1 _ t1 I1 ToKernel off r A1)|].
  - destruct Hu as [H1 H2 H3]. constructor; [|done|done]. cbn [with_inodes fs_inodes]. by rewrite (znth_zset _ _ _ _ i), decide_True.
  - by rewrite Eh.
  - done.
  - by apply (wr_full _ _ _ _ _ _ _ _ Wr).
  - lia.
  - lia.
  - consts. lia.
  - done.
  - change (i_inum i1) with k. intros q s2 (x2 & u2 & -> & Hx2 & Hu2 & Hq). apply wp_ret. exists t1, I1. cbn [fst snd]. split_and!; [|lia|lia| |intros Hlt; by apply Hshort|done|].
    + destruct Hq as [(o & _ & _ & ->)|(o & _ & [])]. exact (fs_at_tx _ t1 I1 x2 t1 A1 Hx2 eq_refl eq_refl eq_refl).
    + unfold avail in Hq. replace (Z.max 0 (Z.min r (d_size (I1 k) - off))) with r in Hq by lia. destruct Hq as [(o & -> & -> & _)|(o & _ & [])]. cbn [app]. f_equal.
      rewrite <- Lbs at 1. apply (fbytes_wrote _ _ _ _ _ _ _ _ Wr); lia.
    + intros m Hm Hne. rewrite (wr_others _ _ _ _ _ _ _ _ Wr) by done. pose proof (wrote_other _ _ _ _ _ _ _ _ m Wr (fa_inv _ _ _ A) Hm Hne) as H. by rewrite (wr_others _ _ _ _ _ _ _ _ Wr) in H by done.
Qed.

(** C28: A link is found by lookup; every other name leads where it led before. *)
Theorem dirlink_dirlookup B dp i name inum s t I : fs_at s t I -> in_use (fs_inodes s) dp i -> tv_held t = ∅ -> um_ok (fs_user s) ->
  dir_ok (fs_sb s) (tv_cur t) (I (i_inum i)) -> terminated (Z.to_nat DIRSIZ) name -> Forall is_byte name -> has_free (fs_inodes s) ->
  room B 2 t -> has_map (fs_sb s) B -> IBLOCK (i_inum i) (fs_sb s) ∈ B -> 0 < inum < sb_ninodes (fs_sb s) -> inum < 2 ^ 16 ->
  d_size (I (i_inum i)) + DIRENT <= MAXFILE * BSIZE -> let bound F J q := snd <$> lookup_name F (J (i_inum i)) q in
  wp (dirlink dp name inum) (fun r s' => exists t' I', fs_at s' t' I' /\ dir_ok (fs_sb s) (tv_cur t') (I' (i_inum i)) /\
    (r = 0 /\ bound (tv_cur t) I (entry_name name) = None /\
       (forall q, bound (tv_cur t') I' q = if decide (q = entry_name name) then Some inum else bound (tv_cur t) I q) \/
     r = -1 /\ (bound (tv_cur t) I (entry_name name) <> None \/ all_used (fs_sb s) (tv_cur t')) /\ (forall q, bound (tv_cur t') I' q = bound (tv_cur t) I q))) s.
Proof.
  intros A Hu Hh Hum Hd Hname Hb Hfree Hroom HB HI Hin Hin16 Hsz bound. eapply wp_mono; [by apply (dirlink_spec B dp i name inum s t I)|]. intros r s1. unfold link_post. cbv zeta.
  unfold bound. destruct (lookup_name (tv_cur t) (I (i_inum i)) (entry_name name)) as [[k m]|] eqn:El.
  - intros (-> & x & l & -> & _ & A1). exists t, I. split_and!; [done|done|]. right. split_and!; [done|by left|done].
  - intros (x & t1 & I1 & k & data & -> & A1 & _ & _ & Hd1 & _ & Hr). exists t1, I1. split_and!; [done|done|]. destruct Hr as [(-> & Hq)|(-> & Hfull & Hq)]; [left|right].
    + split_and!; [done|done|]. intros q. rewrite Hq. by destruct (decide _).
    + split_and!; [done|by right|]. intros q. by rewrite Hq.
Qed.

(** C15: [namei] follows the elements of the path from directory to directory: it
    returns one new reference to the inode there, or nothing, and it keeps no
    other reference, no lock and no buffer. *)
Theorem namei_walks path junk s c t I : namex_ready s c t I -> length junk = Z.to_nat DIRSIZ -> (forall x, x ∈ path -> x <> 0) ->
  wp (namei junk path) (fun r s' => fs_at s' t I /\ quiet (fs_inodes s') /\
    match walk (tv_cur t) I (start_of path c) (elements path) with
    | None => r = None /\ forall m, refs (fs_inodes s') m = refs (fs_inodes s) m
    | Some n => exists ip i, r = Some ip /\ znth (fs_inodes s') ip = Some i /\ i_inum i = n /\
        forall m, refs (fs_inodes s') m = refs (fs_inodes s) m + one (m =? n)
    end) s.
Proof.
  intros Hr Hj Hp. unfold namei. apply wp_bind. eapply wp_mono; [by apply (namex_spec false path junk s c t I)|]. intros [r nm] s1 (x & l & -> & A & Hq & Hm). apply wp_ret.
  cbn [fst snd dest_of] in *. split_and!; [done|done|]. destruct (walk _ _ _ _) as [n|]; [|by destruct Hm as [-> [? _]]].
  destruct Hm as (ip & i & -> & Hi & Hn & _ & [Hc _] & _). by exists ip, i.
Qed.

(** Blocks in use are those of the files. *)
Lemma used_owned sb F I b : fs_inv sb F I -> datastart sb <= b < sb_size sb -> used sb F b = true <-> exists j p, place sb j p /\ slot F (I j) p = b.
Proof.
  intros Inv Hb. pose proof (inv_order _ _ _ Inv). split; [by apply (fi_owned _ _ _ Inv)|]. intros (j & p & Hp & E). rewrite <- E. apply (slot_data sb F I Inv j p Hp). lia.
Qed.

(** C29: The last reference to an inode without links: its blocks, and no others, become free. *)
Theorem iput_frees B s t I ip i : fs_at s t I -> in_use (fs_inodes s) ip i -> i_ref i = 1 -> i_lock i = false ->
  d_nlink (I (i_inum i)) = 0 -> tv_held t = ∅ -> room B 0 t -> has_map (fs_sb s) B -> IBLOCK (i_inum i) (fs_sb s) ∈ B ->
  let n := i_inum i in
  wp (iput ip) (fun _ s' => exists t' I', fs_at s' t' I' /\ d_type (I' n) = 0 /\ disk_inode (fs_sb s) (tv_cur t') n = I' n /\
    (forall b, datastart (fs_sb s) <= b < sb_size (fs_sb s) -> used (fs_sb s) (tv_cur t') b = true <->
       used (fs_sb s) (tv_cur t) b = true /\ forall p, 0 <= p < NSLOT -> slot (tv_cur t) (I n) p <> b) /\
    forall m, 0 <= m < sb_ninodes (fs_sb s) -> m <> n -> I' m = I m /\ fdata (tv_cur t') (I' m) = fdata (tv_cur t) (I m)) s.
Proof.
  intros A Hu Hr Hl Hnl Hh Hroom HB HI n. destruct (in_use_facts _ _ _ _ _ A Hu) as (_ & Hn & _). pose proof (fa_inv _ _ _ A) as Inv. pose proof (inv_order _ _ _ Inv) as Hord.
  apply (iput_free B s t I ip i); try done. intros x t' i' n' d s' _ _ A' _ Os Hd. change n' with n in *. exists t', (fput I n d). split; [done|]. rewrite fput_eq. split_and!; [done|done| |].
  - intros b Hb. pose proof (fa_inv _ _ _ A') as Inv'. cbn [s' with_inodes with_tx fs_sb] in Inv'. rewrite (used_owned _ _ _ b Inv' Hb), (used_owned _ _ _ b Inv Hb). split.
    + intros (j & p & Hp & E). destruct (decide (j = n)) as [->|Hj].
      { rewrite fput_eq in E. assert (H0 : forall q, daddr d q = 0) by (intros q; exact (daddr_empty (I n) q)). unfold slot in E. rewrite !H0 in E. cbn [Z.eqb] in E. destruct (_ <? 13); lia. }
      rewrite (os_inode _ _ _ _ _ _ Os) in E by done. rewrite (os_slot _ _ _ _ _ _ Os) in E by done. split; [by exists j, p|]. intros q Hq Eq.
      destruct (slot_inj _ _ _ Inv j p n q Hp) as [? _]; [done|congruence|lia|done].
    + intros [(j & p & Hp & E) Hno]. destruct (decide (j = n)) as [->|Hj]; [by destruct (Hno p); [apply Hp|]|]. exists j, p. split; [done|].
      rewrite (os_inode _ _ _ _ _ _ Os) by done. by rewrite (os_slot _ _ _ _ _ _ Os).
  - intros m Hm Hne. rewrite (os_inode _ _ _ _ _ _ Os) by done. split; [done|]. apply fbytes_ext. intros y Hy. apply fbyte_blk, (os_blk _ _ _ _ _ _ Os); [done|done|]. apply FsWritei.file_block.
    pose proof (fi_size _ _ _ Inv m Hm). lia.
Qed.
End fs.

Section files.
Context {C U W : Type} {BC : BufferCache C} {OK : BufferCacheOK C} {UM : UserMemory U} {UMok : UserMemoryOK U} {ST : Streams W U}.
Abbreviation log_of os := (l_log (fs_tx (o_fs os))).

(** What the log shows is in its header. *)
Lemma log_count (s : lst C) t : t_shows s t -> lg_outstanding (l_log s) = tv_ops t /\ lg_n (l_log s) = Z.of_nat (length (tv_logged t)).
Proof.
  intros (v & _ & S & _). split; [apply S|]. rewrite (ts_logged _ _ _ S). destruct (ts_ok _ _ _ S) as [Hl Hn _ _]. unfold active. rewrite length_take. lia.
Qed.

(** C30: One round of [filewrite] is one transaction that fits.  When [end_op] is
    reached, the header of the log counts at most the [MAXOPBLOCKS] blocks that
    [begin_op] reserves for one call, this call is the only one in progress, and
    nothing has been committed since the round began; the current contents have
    the bytes written, and [end_op] commits exactly these contents.  The source
    is readable in full; then fewer bytes are written only on a full disk. *)
Theorem write_chunk_fits f x i addr n1 data (os : ost (lst C) U W) t I : open_file f x i os t I -> source_ok (FromUser addr) n1 data (fs_user (o_fs os)) ->
  0 < n1 <= write_max -> 0 <= f_off x <= d_size (I (i_inum i)) -> f_off x + n1 <= MAXFILE * BSIZE -> let sb := fs_sb (o_fs os) in
  wp (begin_op;; write_body f addr n1) (fun r os1 => exists t1 I',
    0 <= lg_n (log_of os1) <= MAXOPBLOCKS /\ lg_outstanding (log_of os1) = 1 /\
    fs_at (o_fs os1) t1 I' /\ tv_hist t1 = tv_hist t /\ tv_committed t1 = tv_cur t /\
    0 <= r <= n1 /\ (r < n1 -> all_used sb (tv_cur t1)) /\
    wrote sb (i_inum i) (f_off x) (take (Z.to_nat r) data) (tv_cur t) I (tv_cur t1) I' /\
    wp end_op (fun _ os2 => lg_n (log_of os2) = 0 /\ exists t2 i', open_file f (set_off (f_off x + r) x) i' os2 t2 I' /\
      tv_hist t2 = tv_hist t ++ [tv_cur t] /\ tv_committed t2 = tv_cur t1 /\ tv_cur t2 = tv_cur t1) os1) os.
Proof.
  intros Of Hs Hn Ho He sb. eapply wp_mono; [by apply (write_body_spec f x i addr n1 data os t I)|].
  intros r os1 (t1 & I1 & A1 & Eo & _ & Eh & Ec & _ & Hl & Wr & Hr & Hsh & He1). rewrite (id_commit _ (of_idle _ _ _ _ _ _ Of)) in Ec.
  destruct (log_count _ _ (ta_shows _ _ (fa_tx _ _ _ A1))) as [Eo1 En1]. exists t1, I1. split_and!; try done; try lia; [intros Hlt; by apply Hsh|].
  eapply wp_mono; [exact He1|]. intros [] os2 (i' & Of2 & _). destruct (log_count _ _ (ta_shows _ _ (fa_tx _ _ _ (of_at _ _ _ _ _ _ Of2)))) as [_ En2]. split; [exact En2|].
  exists (committed t1), i'. cbn [committed tv_hist tv_committed tv_cur]. by rewrite Eh, Ec.
Qed.
End files.
