(* ===== verification/Mkfs.v ===== *)
(** * The image builder: mkfs/mkfs.c

    The program that makes the first disk image: it writes the superblock, the
    root directory and the given files, allocating inodes and blocks in order,
    and at the end the bitmap.  The image is a file of [FSSIZE] blocks; reading
    and writing it on the host succeeds. *)

From stdpp Require Import base numbers list gmap strings.
From Stdlib Require Import ZArith Lia.
From S2P Require Import Prelude Blocks Monad Codec Mem Bio BioCache Log LogCrash Fs.
Open Scope Z_scope.

Definition NINODES : Z := 200.
Definition FSSIZE : Z := 2000.

Definition nbitmap : Z := FSSIZE / (BSIZE * 8) + 1.
Definition ninodeblocks : Z := NINODES / IPB + 1.
Definition nlog : Z := LOGSIZE.
Definition nmeta : Z := 2 + nlog + ninodeblocks + nbitmap.
Definition nblocks : Z := FSSIZE - nmeta.

(** Byte order conversion: the bytes of the result, in memory, are those of
    [x] from the lowest on; the host is little-endian. *)
Definition xint (x : Z) : Z := le_val (le_bytes 4 x).
Definition xshort (x : Z) : Z := le_val (le_bytes 2 x).

Definition the_superblock : superblock :=
  mk_superblock FSMAGIC (xint FSSIZE) (xint nblocks) (xint NINODES) (xint nlog) (xint 2) (xint (2 + nlog)) (xint (2 + nlog + ninodeblocks)).

Record mkst := mk_mkst {
  m_img : blocks;
  m_freeinode : Z;
  m_freeblock : Z;
}.
Abbreviation MK := (M mkst).

Definition rsect (sec : Z) : MK block := gets (fun s => m_img s sec).
Definition wsect (sec : Z) (buf : block) : MK unit := modify (fun s => mk_mkst (bupd (m_img s) sec buf) (m_freeinode s) (m_freeblock s)).
(** [freeblock++] *)
Definition next_block : MK Z :=
  let! b := gets m_freeblock in
  modify (fun s => mk_mkst (m_img s) (m_freeinode s) (u32 (m_freeblock s + 1)));;
  ret b.

Definition winode (inum : Z) (ip : dinode) : MK unit :=
  let bn := IBLOCK inum the_superblock in
  let! buf := rsect bn in
  wsect bn (put_dinode buf (inum mod IPB) ip).
Definition rinode (inum : Z) : MK dinode :=
  let! buf := rsect (IBLOCK inum the_superblock) in
  ret (get_dinode buf (inum mod IPB)).

Definition mkfs_ialloc (type : Z) : MK Z :=
  let! inum := gets m_freeinode in
  modify (fun s => mk_mkst (m_img s) (u32 (m_freeinode s + 1)) (m_freeblock s));;
  winode inum (mk_dinode (i16 (xshort type)) 0 0 (i16 (xshort 1)) (xint 0) (replicate 13 0));;
  ret inum.

Definition mkfs_balloc (used : Z) : MK unit :=
  if negb (used <? BSIZE * 8) then panic "assert"
  else wsect (sb_bmapstart the_superblock) (foldl bit_set zblk (range 0 used)).

(** Entry [k] of the indirect block [ia], allocated if there is none. *)
Definition indirect_entry (ia k : Z) : MK Z :=
  let! indirect := rsect ia in
  let! indirect :=
    if get_uint indirect k =? 0 then
      (let! b := next_block in
       let indirect := put_uint indirect k (xint b) in
       wsect ia indirect;; ret indirect)
    else ret indirect in
  ret (xint (get_uint indirect k)).
(** Address [k] of an inode, allocated if there is none. *)
Definition inode_entry (din : dinode) (k : Z) : MK dinode :=
  if nth (Z.to_nat k) (d_addrs din) 0 =? 0 then let! b := next_block in ret (set_addrs (zset (d_addrs din) k (xint b)) din)
  else ret din.
(** The block [fbn] of an inode, allocated if there is none. *)
Definition file_block (din : dinode) (fbn : Z) : MK (dinode * Z) :=
  if fbn <? NDIRECT then
    let! din := inode_entry din fbn in
    ret (din, xint (nth (Z.to_nat fbn) (d_addrs din) 0))
  else
    let! din := inode_entry din NDIRECT in
    let! x := indirect_entry (xint (nth (Z.to_nat NDIRECT) (d_addrs din) 0)) (fbn - NDIRECT) in
    ret (din, x).

(** Every round but the first and the last writes a whole block. *)
Fixpoint iappend_loop (rounds : nat) (din : dinode) (p : list Z) (off n : Z) : MK (dinode * Z) :=
  match rounds with
  | O => blocked
  | S rounds =>
    if 0 <? n then
      let fbn := off / BSIZE in
      if negb (fbn <? MAXFILE) then panic "assert"
      else
        let! r := file_block din fbn in
        let n1 := Z.min n ((fbn + 1) * BSIZE - off) in
        let! buf := rsect r.2 in
        wsect r.2 (splice buf (off - fbn * BSIZE) (take (Z.to_nat n1) p));;
        iappend_loop rounds r.1 (drop (Z.to_nat n1) p) (u32 (off + n1)) (n - n1)
    else ret (din, off)
  end.
Definition iappend (inum : Z) (p : list Z) : MK unit :=
  let n := Z.of_nat (length p) in
  let! din := rinode inum in
  let! r := iappend_loop (Z.to_nat (n / BSIZE + 3)) din p (xint (d_size din)) n in
  winode inum (set_size (xint r.2) r.1).

(** [struct dirent] with a name of at most [DIRSIZ] characters. *)
Definition mk_dirent (inum : Z) (name : list Z) : list Z := le_bytes 2 (xshort inum) ++ name.
Definition dot : list Z := 46 :: replicate 13 0.
Definition dotdot : list Z := 46 :: 46 :: replicate 12 0.

(** The bytes of a file, [read] in blocks. *)
Fixpoint read_blocks (rounds : nat) (inum : Z) (bs : list Z) : MK unit :=
  match rounds with
  | O => blocked
  | S rounds =>
    let buf := take (Z.to_nat BSIZE) bs in
    if 0 <? Z.of_nat (length buf) then iappend inum buf;; read_blocks rounds inum (drop (Z.to_nat BSIZE) bs)
    else ret tt
  end.

(** The name in the file system: without [user/] and without a leading [_]. *)
Definition USER_ : list Z := [117; 115; 101; 114; 47].
Definition shortname (arg : list Z) : list Z := if decide (take 5 arg = USER_) then drop 5 arg else arg.
Definition entry_of (s : list Z) : list Z := match s with c :: rest => if c =? 95 then rest else s | [] => s end.

Definition add_file (rootino : Z) (file : list Z * list Z) : MK unit :=
  let s := shortname file.1 in
  if existsb (Z.eqb 47) s then panic "assert"
  else
    let! inum := mkfs_ialloc T_FILE in
    let! name := deref (strncpy_arr (Z.to_nat DIRSIZ) (entry_of s ++ [0])) in
    iappend rootino (mk_dirent inum name);;
    read_blocks (Z.to_nat (Z.of_nat (length file.2) / BSIZE + 2)) inum file.2.

(** The program on the names and contents of the files. *)
Definition mkfs_main (files : list (list Z * list Z)) : MK unit :=
  modify (fun s => mk_mkst (m_img s) 1 nmeta);;
  forM (range 0 FSSIZE) (fun i => wsect i zblk);;
  wsect 1 (splice zblk 0 (c_enc c_superblock the_superblock));;
  let! rootino := mkfs_ialloc T_DIR in
  if negb (rootino =? ROOTINO) then panic "assert"
  else
    iappend rootino (mk_dirent rootino dot);;
    iappend rootino (mk_dirent rootino dotdot);;
    forM files (add_file rootino);;
    let! din := rinode rootino in
    let off := xint (d_size din) in
    let off := u32 ((off / BSIZE + 1) * BSIZE) in
    winode rootino (set_size (xint off) din);;
    let! used := gets m_freeblock in
    mkfs_balloc used.
