(* ===== verification/MkfsFiles.v ===== *)
(** * What mkfs writes

    The image that mkfs leaves behind is a consistent file system with the given
    files in it.  While mkfs runs, the bitmap block is not written yet; the
    invariant is that the image with the bitmap of the blocks handed out so far
    is a consistent file system. *)

From stdpp Require Import base numbers list gmap strings.
From Stdlib Require Import ZArith Lia.
From S2P Require Import Prelude Blocks Monad Codec Mem UserMem Bio BioCache Log LogCrash Txn Fs FsImage FsInv FsAlloc FsRead FsWritei FsTrunc FsInode FsDir FsCrash Mkfs.
Open Scope Z_scope.

Abbreviation sb := the_superblock.

(** ** The layout *)

Lemma the_superblock_eq : sb = mk_superblock FSMAGIC 2000 1954 200 30 2 32 45.
Proof. vm_compute. reflexivity. Qed.
Lemma the_datastart : datastart sb = 46.
Proof. vm_compute. reflexivity. Qed.
Lemma the_superblock_ok : sb_ok sb.
Proof. rewrite the_superblock_eq. constructor; vm_compute; repeat split; discriminate. Qed.
Lemma the_nmeta : nmeta = 46.
Proof. vm_compute. reflexivity. Qed.

Lemma xint_small x : 0 <= x < 2 ^ 32 -> xint x = x.
Proof. intros H. unfold xint. rewrite le_val_bytes. by apply Z.mod_small. Qed.
Lemma xshort_small x : 0 <= x < 2 ^ 16 -> xshort x = x.
Proof. intros H. unfold xshort. rewrite le_val_bytes. by apply Z.mod_small. Qed.

(** ** The bitmap *)

Definition bitmap (k : Z) : block := foldl bit_set zblk (range 0 k).

Lemma bitmap_succ k : 0 <= k -> bitmap (k + 1) = bit_set (bitmap k) k.
Proof. intros Hk. unfold bitmap. rewrite range_snoc, foldl_app by lia. cbn [foldl]. by replace (k + 1 - 1) with k by lia. Qed.

Lemma nth_zblk j : nth j zblk 0 = 0.
Proof. rewrite nth_lookup. rewrite zblk_eq. destruct (_ !! j) as [x|] eqn:E; [|done]. by apply lookup_replicate in E as [-> _]. Qed.
Lemma bit_zblk b : bit zblk b = false.
Proof. unfold bit, bbyte. rewrite nth_zblk. apply Z.testbit_0_l. Qed.

Lemma bitmap_ok k : 0 <= k <= BPB -> wf_block (bitmap k) /\ forall b, 0 <= b < BPB -> bit (bitmap k) b = (b <? k).
Proof.
  intros [Hk Hle]. revert Hle. pattern k. apply natlike_ind; [|clear k Hk|done].
  - intros _. split; [apply wf_zblk|]. intros b Hb. destruct (Z.ltb_spec b 0); [lia|]. apply bit_zblk. 
  - intros k Hk IH Hle. destruct IH as [Hwf Hbit]; [lia|]. unfold Z.succ. rewrite bitmap_succ by done. split; [by apply bit_set_wf|].
    intros b Hb. rewrite bit_set_bit by (done || lia). rewrite Hbit by done. destruct (Z.eqb_spec b k), (Z.ltb_spec b k), (Z.ltb_spec b (k + 1)); try lia; done.
Qed.

(** ** The invariant *)

(** The image with the bitmap of the blocks handed out. *)
Definition finished (F : blocks) (k : Z) : blocks := bupd F (sb_bmapstart sb) (bitmap k).

Record img_at (s : mkst) (G : blocks) : Prop := {
  ma_img : forall n, G n = finished (m_img s) (m_freeblock s) n;
  ma_free : datastart sb <= m_freeblock s <= FSSIZE;
  ma_zero : forall b, m_freeblock s <= b < FSSIZE -> m_img s b = zblk;
  ma_head : forall b, 0 <= b < sb_inodestart sb -> b <> 1 -> m_img s b = zblk;
}.
Record mk_at (s : mkst) (G : blocks) (I : Z -> dinode) : Prop := {
  ma_at : img_at s G;
  ma_inv : fs_inv sb G I;
}.

Lemma mk_used s G b : img_at s G -> 0 <= b < FSSIZE -> used sb G b = (b <? m_freeblock s).
Proof.
  intros A Hb. pose proof (ma_free _ _ A) as Hf. unfold used. rewrite (ma_img _ _ A). unfold BBLOCK. unfold FSSIZE in *. rewrite (Z.div_small b BPB), (Z.mod_small b BPB) by (consts; lia).
  unfold finished. rewrite bupd_eq. apply bitmap_ok; rewrite the_datastart in Hf; consts; lia.
Qed.
Lemma mk_block s G n : img_at s G -> n <> sb_bmapstart sb -> G n = m_img s n.
Proof. intros A Hn. rewrite (ma_img _ _ A). unfold finished. by apply bupd_ne. Qed.

Definition set_free (k : Z) (s : mkst) : mkst := mk_mkst (m_img s) (m_freeinode s) k.
Definition set_img (F : blocks) (s : mkst) : mkst := mk_mkst F (m_freeinode s) (m_freeblock s).

(** Handing out a block. *)
Lemma img_alloc s G : img_at s G -> m_freeblock s < FSSIZE -> img_at (set_free (m_freeblock s + 1) s) (alloc_blk sb G (m_freeblock s)).
Proof.
  intros A Hk. pose proof (ma_free _ _ A) as Hf. set (k := m_freeblock s) in *. rewrite the_datastart in Hf. constructor; cbn [set_free m_img m_freeblock]; [| | |apply A].
  - intros n. unfold alloc_blk, mark, finished, BBLOCK. unfold FSSIZE in *. rewrite (Z.div_small k BPB), (Z.mod_small k BPB) by (consts; lia). rewrite !Z.add_0_l, bitmap_succ by lia.
    unfold bupd. case_decide as E1.
    + subst n. rewrite decide_False by (rewrite the_superblock_eq; cbn; lia). symmetry. apply (ma_zero _ _ A). unfold FSSIZE. fold k. lia.
    + case_decide as E2; [|rewrite (ma_img _ _ A); by apply bupd_ne]. rewrite (ma_img _ _ A). unfold finished. by rewrite bupd_eq.
  - rewrite the_datastart. unfold FSSIZE in *. lia.
  - intros b Hb. apply (ma_zero _ _ A). fold k. lia.
Qed.

(** Writing a block that was handed out, or one of the inodes. *)
Lemma img_write s G b y : img_at s G -> sb_inodestart sb <= b < m_freeblock s -> b <> sb_bmapstart sb -> img_at (set_img (bupd (m_img s) b y) s) (bupd G b y).
Proof.
  intros A Hb Hne. constructor; cbn [set_img m_img m_freeblock]; [|apply A| |].
  - intros n. unfold finished, bupd. case_decide as E; [subst n; by rewrite decide_False|]. rewrite (ma_img _ _ A). unfold finished, bupd. done.
  - intros c Hc. rewrite bupd_ne by lia. by apply A.
  - intros c Hc Hc1. rewrite bupd_ne by lia. by apply (ma_head _ _ A).
Qed.

(** ** Blocks of a file *)

(** The blocks of a file of [z] bytes: its data and the indirect block. *)
Definition nb (z : Z) : Z := (z + BSIZE - 1) / BSIZE + (if NDIRECT * BSIZE <? z then 1 else 0).

(** Exactly the blocks of the first [z] bytes are there. *)
Record tight (G : blocks) (d : dinode) (z : Z) : Prop := {
  ti_slot : forall bn, 0 <= bn < MAXFILE -> slot G d (fslot bn) = 0 <-> z <= bn * BSIZE;
  ti_ind : daddr d NDIRECT = 0 <-> z <= NDIRECT * BSIZE;
}.
Lemma tight_ext G d G' d' z : tight G d z -> (forall p, 0 <= p < NSLOT -> slot G' d' p = slot G d p) -> tight G' d' z.
Proof.
  intros [H1 H2] E. constructor.
  - intros bn Hb. rewrite E; [by apply H1|]. unfold fslot, NSLOT. consts. destruct (bn <? 12) eqn:?; lia.
  - specialize (E NDIRECT ltac:(unfold NSLOT; consts; lia)). unfold slot in E. cbn in E. by rewrite E.
Qed.

(** The number of new blocks when a file grows within one block. *)
Lemma nb_step off off' : 0 <= off -> off < off' <= (off / BSIZE + 1) * BSIZE ->
  nb off' = nb off + (if off mod BSIZE =? 0 then 1 else 0) + (if off =? NDIRECT * BSIZE then 1 else 0).
Proof.
  intros Ho Hb. unfold nb. pose proof (Z.div_mod off BSIZE ltac:(done)) as E. pose proof (Z.mod_pos_bound off BSIZE ltac:(done)) as Hm. consts.
  assert (E' : (off' + 1024 - 1) / 1024 = off / 1024 + 1). { symmetry. apply (Z.div_unique _ _ _ (off' + 1024 - 1 - 1024 * (off / 1024 + 1))); lia. }
  assert (E0 : (off + 1024 - 1) / 1024 = off / 1024 + (if off mod 1024 =? 0 then 0 else 1)).
  { symmetry. apply (Z.div_unique _ _ _ (off + 1024 - 1 - 1024 * (off / 1024 + (if off mod 1024 =? 0 then 0 else 1)))); destruct (Z.eqb_spec (off mod 1024) 0); lia. }
  rewrite E', E0. destruct (Z.eqb_spec (off mod 1024) 0), (Z.eqb_spec off (12 * 1024)), (Z.ltb_spec (12 * 1024) off'), (Z.ltb_spec (12 * 1024) off); lia.
Qed.

Lemma wp_next_block s (Q : Z -> mkst -> Prop) : 0 <= m_freeblock s < FSSIZE -> Q (m_freeblock s) (set_free (m_freeblock s + 1) s) -> wp next_block Q s.
Proof.
  intros Hk HQ. unfold next_block. apply wp_bind, wp_gets, wp_bind, wp_modify. rewrite u32_small by (unfold FSSIZE in *; lia). by apply wp_ret.
Qed.

(** One file gets the blocks it needs for byte [off]; the others keep theirs. *)
Definition block_post (n off off' : Z) s (G : blocks) (I : Z -> dinode) (r : dinode * Z) s' : Prop :=
  exists G' I', mk_at s' G' I' /\ grown sb n G I G' I' /\ r = (I' n, slot G' (I' n) (fslot (off / BSIZE))) /\
    m_freeblock s' = m_freeblock s + nb off' - nb off /\ m_freeinode s' = m_freeinode s /\ tight G' (I' n) off' /\
    forall j p, j <> n -> place sb j p -> slot G' (I' j) p = slot G (I j) p.

(** The blocks that are there after one is added. *)
Lemma tight_add G d G' d' off off' : tight G d off -> 0 <= off < MAXFILE * BSIZE -> off < off' <= (off / BSIZE + 1) * BSIZE -> off mod BSIZE = 0 ->
  slot G' d' (fslot (off / BSIZE)) <> 0 -> (off = NDIRECT * BSIZE -> daddr d' NDIRECT <> 0) ->
  (forall bn, 0 <= bn < MAXFILE -> bn <> off / BSIZE -> slot G' d' (fslot bn) = slot G d (fslot bn)) ->
  (off <> NDIRECT * BSIZE -> daddr d' NDIRECT = daddr d NDIRECT) -> tight G' d' off'.
Proof.
  intros [H1 H2] Ho Hb Hm Hn Hi Hs Hd. pose proof (Z.div_mod off BSIZE ltac:(done)) as E. constructor.
  - intros bn Hbn. destruct (decide (bn = off / BSIZE)) as [->|Hne]; [split; [done|consts; lia]|]. rewrite Hs, H1 by done. consts. nia.
  - destruct (decide (off = NDIRECT * BSIZE)) as [Eq|Hne]; [split; [by intros ?%(Hi Eq)|lia]|]. rewrite Hd, H2 by done. consts. nia.
Qed.
Lemma tight_same G d off off' : tight G d off -> 0 <= off -> off < off' <= (off / BSIZE + 1) * BSIZE -> off mod BSIZE <> 0 -> tight G d off'.
Proof.
  intros [H1 H2] Ho Hb Hm. pose proof (Z.div_mod off BSIZE ltac:(done)) as E. pose proof (Z.mod_pos_bound off BSIZE ltac:(done)). constructor.
  - intros bn Hbn. rewrite H1 by done. consts. nia.
  - rewrite H2. consts. nia.
Qed.

Section file_block.
Variables (s : mkst) (G : blocks) (I : Z -> dinode) (n off off' : Z).
Hypothesis (A : mk_at s G I) (Hn : 0 <= n < sb_ninodes sb) (Hty : d_type (I n) <> 0) (Ht : tight G (I n) off).
Hypothesis (Ho : 0 <= off < MAXFILE * BSIZE) (Hb : off < off' <= (off / BSIZE + 1) * BSIZE) (Hcap : m_freeblock s + nb off' - nb off <= FSSIZE).

Lemma fbn_range : 0 <= off / BSIZE < MAXFILE.
Proof. split; [by apply Z.div_pos; [lia|]|]. apply Z.div_lt_upper_bound; [done|]. lia. Qed.
Lemma fresh_block : m_freeblock s < FSSIZE -> datastart sb <= m_freeblock s < sb_size sb /\ used sb G (m_freeblock s) = false.
Proof.
  intros Hk. pose proof (ma_free _ _ (ma_at _ _ _ A)) as Hf. split; [rewrite the_superblock_eq in *; cbn [sb_size]; unfold FSSIZE in *; lia|].
  rewrite the_datastart in Hf. rewrite (mk_used s G) by (apply A || lia). apply Z.ltb_irrefl.
Qed.
Lemma addr_small p : 0 <= p < 13 -> 0 <= daddr (I n) p < 2 ^ 32.
Proof.
  intros Hp. pose proof (do_addrs _ (fi_inode _ _ _ (ma_inv _ _ _ A) n Hn)) as Ha. pose proof (do_len _ (fi_inode _ _ _ (ma_inv _ _ _ A) n Hn)) as Hl.
  rewrite Forall_forall in Ha. apply Ha. unfold daddr. apply list_elem_of_In, nth_In. lia.
Qed.
Lemma mk_same_block : off mod BSIZE <> 0 -> block_post n off off' s G I (I n, slot G (I n) (fslot (off / BSIZE))) s.
Proof.
  intros Hm. exists G, I. pose proof (nb_step off off' ltac:(lia) Hb) as E. split_and!; [done|apply fgrown_refl, A|done| |done|by apply (tight_same _ _ off); [|lia| |]|done].
  destruct (Z.eqb_spec (off mod BSIZE) 0); [done|]. destruct (Z.eqb_spec off (NDIRECT * BSIZE)) as [E'|]; [|lia]. by rewrite E' in Hm.
Qed.

(** The address of a block is there unless the byte starts a new block. *)
Lemma new_block : slot G (I n) (fslot (off / BSIZE)) = 0 <-> off mod BSIZE = 0.
Proof.
  rewrite (ti_slot _ _ _ Ht) by apply fbn_range. pose proof (Z.div_mod off BSIZE ltac:(done)). pose proof (Z.mod_pos_bound off BSIZE ltac:(done)). consts. lia.
Qed.

(** A new block in an address of the inode. *)
Lemma inode_entry_new p s0 G0 I0 (Q : dinode -> mkst -> Prop) : mk_at s0 G0 I0 -> d_type (I0 n) <> 0 -> 0 <= p < 13 -> daddr (I0 n) p = 0 -> m_freeblock s0 < FSSIZE ->
  (let k := m_freeblock s0 in let d' := set_addrs (zset (d_addrs (I0 n)) p k) (I0 n) in let G' := alloc_blk sb G0 k in let I' := fput I0 n d' in
   mk_at (set_free (k + 1) s0) G' I' -> grown sb n G0 I0 G' I' -> datastart sb <= k < FSSIZE -> (forall q, 0 <= q -> daddr d' q = if decide (q = p) then k else daddr (I0 n) q) ->
   (forall j q, place sb j q -> slot G' (I' j) q = if decide (j = n /\ q = p) then k else slot G0 (I0 j) q) -> Q d' (set_free (k + 1) s0)) ->
  wp (inode_entry (I0 n) p) Q s0.
Proof.
  intros A0 Hty0 Hp E0 Hk HQ. pose proof (ma_free _ _ (ma_at _ _ _ A0)) as Hf. rewrite the_datastart in Hf. unfold inode_entry. fold (daddr (I0 n) p). rewrite E0. cbn [Z.eqb].
  apply wp_bind, wp_next_block; [lia|]. apply wp_ret. rewrite xint_small by (unfold FSSIZE in *; lia). set (k := m_freeblock s0) in *.
  assert (Hr : datastart sb <= k < sb_size sb) by (rewrite the_datastart, the_superblock_eq; cbn [sb_size]; unfold FSSIZE in *; lia).
  assert (Hu : used sb G0 k = false) by (rewrite (mk_used s0 G0) by (apply A0 || lia); apply Z.ltb_irrefl).
  pose proof (grow_direct _ _ _ (ma_inv _ _ _ A0) n p k Hn Hp E0 Hty0 Hr Hu) as Gr. apply HQ; [constructor; [apply img_alloc; [apply A0|done]|apply Gr]|done|rewrite the_datastart; lia| |].
  - intros q Hq. apply daddr_set; [apply (fi_inode _ _ _ (ma_inv _ _ _ A0) n Hn)|done|done].
  - by apply (slot_direct _ _ _ (ma_inv _ _ _ A0) n p k Hn).
Qed.

(** A new block in the indirect block. *)
Lemma indirect_entry_new e s0 G0 I0 (Q : Z -> mkst -> Prop) : mk_at s0 G0 I0 -> d_type (I0 n) <> 0 -> 0 <= e < NINDIRECT -> daddr (I0 n) NDIRECT <> 0 ->
  slot G0 (I0 n) (e + 13) = 0 -> m_freeblock s0 < FSSIZE ->
  (forall s' G', let k := m_freeblock s0 in mk_at s' G' I0 -> grown sb n G0 I0 G' I0 -> m_freeblock s' = k + 1 -> m_freeinode s' = m_freeinode s0 -> datastart sb <= k ->
   (forall j q, place sb j q -> slot G' (I0 j) q = if decide (j = n /\ q = e + 13) then k else slot G0 (I0 j) q) -> Q k s') ->
  wp (indirect_entry (daddr (I0 n) NDIRECT) e) Q s0.
Proof.
  intros A0 Hty0 He Ha E0 Hk HQ. pose proof (ma_free _ _ (ma_at _ _ _ A0)) as Hf. rewrite the_datastart in Hf. set (a := daddr (I0 n) NDIRECT) in *. pose proof (ma_inv _ _ _ A0) as Inv0.
  destruct (ind_data _ _ _ Inv0 n Hn Ha) as [Had Hau]. fold a in Had, Hau. pose proof (inv_order _ _ _ Inv0) as Hord. assert (Hak : a < m_freeblock s0).
  { rewrite (mk_used s0 G0) in Hau; [by apply Z.ltb_lt|apply A0|rewrite the_superblock_eq in Had; cbn [sb_size] in Had; unfold FSSIZE; rewrite <- the_superblock_eq, the_datastart in Had; lia]. }
  assert (Eu : get_uint (G0 a) e = 0). { rewrite <- E0. unfold slot. destruct (Z.ltb_spec (e + 13) 13); [lia|]. fold a. destruct (Z.eqb_spec a 0); [done|]. f_equal. lia. }
  unfold indirect_entry. apply wp_bind, wp_gets. rewrite <- (mk_block s0 G0 a (ma_at _ _ _ A0)) by lia. rewrite Eu. cbn [Z.eqb].
  apply wp_bind, wp_bind, wp_next_block; [lia|]. set (k := m_freeblock s0) in *. rewrite (xint_small k) by (unfold FSSIZE in *; lia).
  apply wp_bind, wp_modify, wp_ret, wp_ret. assert (Hwf : wf_block (G0 a)) by (apply Inv0; lia). assert (Hla : Z.of_nat (length (G0 a)) = BSIZE) by (destruct Hwf as [-> _]; done).
  rewrite get_put_uint_eq by (consts; unfold FSSIZE in *; lia). rewrite xint_small by (unfold FSSIZE in *; lia).
  assert (Hr : datastart sb <= k < sb_size sb) by (rewrite the_datastart, the_superblock_eq; cbn [sb_size]; unfold FSSIZE in *; lia).
  assert (Hu : used sb G0 k = false) by (rewrite (mk_used s0 G0) by (apply A0 || lia); apply Z.ltb_irrefl).
  pose proof (grow_indirect _ _ _ Inv0 n e k Hn He Ha Eu Hr Hu Hty0) as Gr. fold a in Gr.
  apply (HQ _ (bupd (alloc_blk sb G0 k) a (put_uint (G0 a) e k))); [|done|done|done|rewrite the_datastart; lia|by apply (slot_indirect _ _ _ Inv0 n e k Hn)].
  constructor; [|apply Gr]. apply (img_write (set_free (k + 1) s0)); [by apply img_alloc; [apply A0|]|cbn [set_free m_freeblock]; lia|lia].
Qed.
Lemma direct_block : off / BSIZE < NDIRECT -> wp (file_block (I n) (off / BSIZE)) (block_post n off off' s G I) s.
Proof.
  intros Hd. pose proof fbn_range as Hf. unfold file_block. destruct (Z.ltb_spec (off / BSIZE) NDIRECT); [|lia]. set (b := off / BSIZE) in *.
  assert (Es : forall F d, slot F d (fslot b) = daddr d b). { intros F d. unfold fslot. destruct (Z.ltb_spec b NDIRECT); [|lia]. unfold slot. consts. destruct (Z.ltb_spec b 13); [done|lia]. }
  pose proof new_block as Hnew. fold b in Hnew. rewrite Es in Hnew. pose proof (nb_step off off' ltac:(lia) Hb) as Enb.
  assert (Hne : off <> NDIRECT * BSIZE). { intros E. unfold b in Hd. rewrite E, Z.div_mul in Hd by done. lia. }
  destruct (Z.eqb_spec off (NDIRECT * BSIZE)); [done|]. apply wp_bind. destruct (Z.eq_dec (daddr (I n) b) 0) as [E0|E0].
  - assert (Hm : off mod BSIZE = 0) by (by apply Hnew). rewrite Hm in Enb. cbn [Z.eqb] in Enb.
    apply (inode_entry_new b s G I); [done|done|consts; lia|done|lia|]. intros k d' G' I' A' Gr Hk Ed Sl. apply wp_ret. fold (daddr d' b). rewrite the_datastart in Hk.
    exists G', I'. unfold I' at 2 3 4 5. rewrite !fput_eq, Es. split_and!; [done|done| |cbn [set_free m_freeblock]; fold k; lia|done| |].
    + rewrite xint_small; [done|]. rewrite Ed, decide_True by (done || lia). unfold FSSIZE in *. lia.
    + apply (tight_add G (I n) _ _ off); try done.
      * fold b. rewrite Es, Ed, decide_True by (done || lia). lia.
      * intros bn Hbn Hnb. pose proof (Sl n (fslot bn) (fslot_place sb n bn Hn Hbn)) as H1. unfold I' in H1. rewrite fput_eq in H1. rewrite H1. rewrite decide_False; [done|].
        intros [_ E]. apply Hnb. fold b. apply fslot_inj. rewrite E. unfold fslot. destruct (Z.ltb_spec b NDIRECT); [done|lia].
      * intros _. rewrite Ed by (consts; lia). by rewrite decide_False by (consts; lia).
    + intros j p Hj Hp. rewrite Sl by done. by rewrite decide_False by (by intros [? _]).
  - unfold inode_entry. fold (daddr (I n) b). destruct (Z.eqb_spec (daddr (I n) b) 0); [done|]. apply wp_ret, wp_ret. fold (daddr (I n) b).
    rewrite xint_small by (apply addr_small; consts; lia). rewrite <- (Es G). apply mk_same_block. by rewrite <- Hnew.
Qed.

Lemma indirect_slot F d : NDIRECT <= off / BSIZE -> slot F d (fslot (off / BSIZE)) = slot F d (off / BSIZE - NDIRECT + 13).
Proof. intros H. unfold fslot. destruct (Z.ltb_spec (off / BSIZE) NDIRECT); [lia|]. f_equal. consts. lia. Qed.

(** The indirect block is there. *)
Lemma indirect_old : NDIRECT <= off / BSIZE -> off <> NDIRECT * BSIZE -> wp (file_block (I n) (off / BSIZE)) (block_post n off off' s G I) s.
Proof.
  intros Hd Hne. pose proof fbn_range as Hf. unfold file_block. destruct (Z.ltb_spec (off / BSIZE) NDIRECT); [lia|]. pose proof new_block as Hnew. rewrite indirect_slot in Hnew by done.
  pose proof (nb_step off off' ltac:(lia) Hb) as Enb. set (b := off / BSIZE) in *. destruct (Z.eqb_spec off (NDIRECT * BSIZE)); [done|].
  assert (Hia : daddr (I n) NDIRECT <> 0). { rewrite (ti_ind _ _ _ Ht). pose proof (Z.mul_div_le off BSIZE ltac:(done)). fold b in H0. consts. lia. }
  apply wp_bind. unfold inode_entry. fold (daddr (I n) NDIRECT). destruct (Z.eqb_spec (daddr (I n) NDIRECT) 0); [done|]. apply wp_ret. fold (daddr (I n) NDIRECT).
  rewrite xint_small by (apply addr_small; consts; lia). apply wp_bind. destruct (Z.eq_dec (slot G (I n) (b - NDIRECT + 13)) 0) as [E0|E0].
  - assert (Hm : off mod BSIZE = 0) by (by apply Hnew). rewrite Hm in Enb. cbn [Z.eqb] in Enb.
    apply (indirect_entry_new (b - NDIRECT) s G I); [done|done|unfold MAXFILE in Hf; lia|done|done|lia|]. intros s' G' k A' Gr Ek Ei Hk Sl. apply wp_ret.
    assert (Hpl : place sb n (b - NDIRECT + 13)) by (unfold place, NSLOT; consts; lia). rewrite the_datastart in Hk. fold b in Hb |- *.
    assert (Enew : slot G' (I n) (b - NDIRECT + 13) = k) by (rewrite Sl by done; by rewrite decide_True).
    exists G', I. rewrite indirect_slot by done. fold b. split_and!; [done|done|by rewrite Enew|rewrite Ek; fold k; lia|done| |].
    + apply (tight_add G (I n) _ _ off); try done; fold b; rewrite ?indirect_slot by done; fold b; [by rewrite Enew; lia|].
      intros bn Hbn Hnb. rewrite Sl by (by apply fslot_place). rewrite decide_False; [done|]. intros [_ E]. apply Hnb. apply fslot_inj. rewrite E. unfold fslot. destruct (Z.ltb_spec b NDIRECT); [lia|consts; lia].
    + intros j p Hj Hp. rewrite Sl by done. by rewrite decide_False by (by intros [? _]).
  - pose proof (ma_inv _ _ _ A) as Inv. destruct (ind_data _ _ _ Inv n Hn Hia) as [Had _]. pose proof (inv_order _ _ _ Inv). set (a := daddr (I n) NDIRECT) in *.
    assert (Eu : get_uint (G a) (b - NDIRECT) = slot G (I n) (b - NDIRECT + 13)). { unfold slot. destruct (Z.ltb_spec (b - NDIRECT + 13) 13); [lia|]. fold a. destruct (Z.eqb_spec a 0); [done|]. f_equal. lia. }
    unfold indirect_entry. apply wp_bind, wp_gets. rewrite <- (mk_block s G a (ma_at _ _ _ A)) by lia. rewrite Eu. destruct (Z.eqb_spec (slot G (I n) (b - NDIRECT + 13)) 0); [done|].
    apply wp_bind, wp_ret, wp_ret, wp_ret. rewrite xint_small by (apply get_uint_range, Inv; lia). rewrite Eu. pose proof mk_same_block as Hs. rewrite indirect_slot in Hs by done. apply Hs. by rewrite <- Hnew.
Qed.

(** The first block after the direct ones: the indirect block is new as well. *)
Lemma indirect_first : off = NDIRECT * BSIZE -> wp (file_block (I n) (off / BSIZE)) (block_post n off off' s G I) s.
Proof.
  intros Eo. pose proof (nb_step off off' ltac:(lia) Hb) as Enb. assert (Efbn : off / BSIZE = NDIRECT) by (rewrite Eo; by apply Z.div_mul). assert (Em : off mod BSIZE = 0) by (rewrite Eo; by apply Z.mod_mul).
  rewrite Em in Enb. destruct (Z.eqb_spec off (NDIRECT * BSIZE)); [|done]. cbn [Z.eqb] in Enb. unfold file_block. rewrite Efbn. change (NDIRECT <? NDIRECT) with false. cbv iota. rewrite Z.sub_diag.
  assert (Hia : daddr (I n) NDIRECT = 0) by (apply (ti_ind _ _ _ Ht); lia).
  apply wp_bind, (inode_entry_new NDIRECT s G I); [done|done|consts; lia|done|lia|]. intros k d' G1 I1 A1 Gr1 Hk Ed Sl1. rewrite the_datastart in Hk. fold (daddr d' NDIRECT).
  assert (Ed12 : daddr d' NDIRECT = k) by (rewrite Ed by (consts; lia); by rewrite decide_True). rewrite xint_small by (rewrite Ed12; unfold FSSIZE in *; lia).
  assert (E1 : I1 n = d') by apply fput_eq. rewrite <- E1. apply wp_bind.
  assert (Hpl : place sb n 13) by (unfold place, NSLOT; consts; lia).
  apply (indirect_entry_new 0 (set_free (k + 1) s) G1 I1); [done|by rewrite E1|consts; lia|rewrite E1, Ed12; lia| |cbn [set_free m_freeblock]; lia|].
  { rewrite Z.add_0_l, Sl1 by done. rewrite decide_False by (intros [_ ?]; done). unfold slot. change (13 <? 13) with false. cbv iota. by rewrite Hia. }
  intros s' G2 k2 A2 Gr2 Ek Ei Hk2 Sl2. apply wp_ret. rewrite Z.add_0_l in Sl2. cbn [set_free m_freeblock m_freeinode] in Ek, Ei, k2.
  assert (Enew : slot G2 (I1 n) 13 = k2) by (rewrite Sl2 by done; by rewrite decide_True).
  assert (Hslots : forall j q, place sb j q -> ~ (j = n /\ (q = 12 \/ q = 13)) -> slot G2 (I1 j) q = slot G (I j) q).
  { intros j q Hp Hne. rewrite Sl2, decide_False by (done || intros [? ?]; apply Hne; auto). rewrite Sl1, decide_False by (done || intros [? ?]; apply Hne; auto). done. }
  exists G2, I1. rewrite Efbn. change (fslot NDIRECT) with 13. split_and!; [done|by apply (fgrown_trans _ _ _ _ G1 I1)|by rewrite Enew|rewrite Ek; unfold k in *; lia|done| |].
  - apply (tight_add G (I n) _ _ off); try done; rewrite ?Efbn; change (fslot NDIRECT) with 13.
    + rewrite Enew. lia.
    + intros _. rewrite E1, Ed12. lia.
    + intros bn Hbn Hnb. apply Hslots; [by apply fslot_place|]. intros [_ [E|E]]; [by apply (fslot_12 bn)|]. apply Hnb, fslot_inj. by rewrite E.
  - intros j p Hj Hp. apply Hslots; [done|]. by intros [? _].
Qed.

Lemma file_block_spec : wp (file_block (I n) (off / BSIZE)) (block_post n off off' s G I) s.
Proof.
  destruct (Z_lt_le_dec (off / BSIZE) NDIRECT); [by apply direct_block|]. destruct (Z.eq_dec off (NDIRECT * BSIZE)); [by apply indirect_first|by apply indirect_old].
Qed.
End file_block.

(** * What mkfs writes: the files

    The operations of mkfs against their reference: a list of files, each with
    its type and its bytes. *)

(** ** [iappend] *)

Definition append_post (n off : Z) (p : list Z) s (G : blocks) (I : Z -> dinode) (r : dinode * Z) s' : Prop :=
  exists G' I', let len := Z.of_nat (length p) in mk_at s' G' I' /\ filled sb n off p G I G' I' /\ r = (I' n, off + len) /\
    m_freeblock s' = m_freeblock s + nb (off + len) - nb off /\ m_freeinode s' = m_freeinode s /\ tight G' (I' n) (off + len) /\
    forall j q, j <> n -> place sb j q -> slot G' (I' j) q = slot G (I j) q.

Lemma nb_mono a b : 0 <= a <= b -> nb a <= nb b.
Proof.
  intros H. unfold nb. consts. pose proof (Z.div_le_mono (a + 1024 - 1) (b + 1024 - 1) 1024 ltac:(done) ltac:(lia)).
  destruct (Z.ltb_spec (12 * 1024) a), (Z.ltb_spec (12 * 1024) b); lia.
Qed.

(** One round: the bytes that go into one block. *)
Lemma append_round {A} n s G I l off (K : dinode -> MK A) (Q : A -> mkst -> Prop) : let fbn := off / BSIZE in let len := Z.of_nat (length l) in
  mk_at s G I -> 0 <= n < sb_ninodes sb -> d_type (I n) <> 0 -> tight G (I n) off -> Forall is_byte l -> 0 <= off -> 0 < len -> off + len <= (fbn + 1) * BSIZE -> fbn < MAXFILE ->
  m_freeblock s + nb (off + len) - nb off <= FSSIZE ->
  (forall s' r, append_post n off l s G I r s' -> wp (K r.1) Q s') ->
  wp (let! r := file_block (I n) fbn in let! buf := rsect r.2 in wsect r.2 (splice buf (off - fbn * BSIZE) l);; K r.1) Q s.
Proof.
  intros fbn len A0 Hn Hty Ht Hl Ho Hlen Hend Hf Hcap HK. pose proof (Z.div_mod off BSIZE ltac:(done)) as Ediv. pose proof (Z.mod_pos_bound off BSIZE ltac:(done)) as Hmod. fold fbn in Ediv.
  assert (Hfb : 0 <= fbn) by (apply Z.div_pos; [lia|done]).
  apply wp_bind. eapply wp_mono; [apply (file_block_spec s G I n off (off + len)); try done; fold fbn; consts; lia|].
  intros r s1 (G1 & I1 & A1 & Gr & -> & Ek & Ei & Ht1 & Hs1). fold fbn. cbn [fst snd]. pose proof (fslot_place sb n fbn Hn ltac:(lia)) as Hpl.
  assert (Hslot : slot G1 (I1 n) (fslot fbn) <> 0). { rewrite (ti_slot _ _ _ Ht1) by lia. consts. lia. }
  pose proof (ma_inv _ _ _ A1) as Inv1. pose proof (inv_order _ _ _ Inv1) as Hord. destruct (slot_data _ _ _ Inv1 n _ Hpl Hslot) as [Ha Hau].
  set (a := slot G1 (I1 n) (fslot fbn)) in *.
  assert (Hak : a < m_freeblock s1). { rewrite (mk_used s1 G1) in Hau; [by apply Z.ltb_lt|apply A1|]. rewrite the_superblock_eq in Ha at 2. cbn [sb_size] in Ha. unfold FSSIZE. lia. }
  apply wp_bind, wp_gets. rewrite <- (mk_block s1 G1 a (ma_at _ _ _ A1)) by lia. apply wp_bind, wp_modify. set (y := splice (G1 a) _ _).
  assert (Hy : wf_block y) by (apply splice_wf; [apply Inv1; lia|done|lia|fold len; consts; lia]).
  destruct (data_change sb G1 I1 n fbn y Inv1 Hn ltac:(lia) Hslot Hy) as (_ & Hs2 & _). fold a in Hs2.
  assert (Fl : filled sb n off l G I (bupd G1 a y) I1).
  { change l with ([] ++ l). apply (filled_trans _ _ _ _ _ _ _ G1 I1); cbn [length]; [done|done|consts; lia|by apply filled_grown|]. rewrite Z.add_0_r.
    pose proof (filled_write sb G1 I1 n fbn (off - fbn * BSIZE) l Inv1 Hn ltac:(lia) Hslot ltac:(consts; lia) ltac:(fold len; consts; lia) Hl) as H.
    cbv zeta in H. fold a y in H. by replace (fbn * BSIZE + (off - fbn * BSIZE)) with off in H by lia. }
  apply (HK _ (I1 n, off + len)). exists (bupd G1 a y), I1. split_and!; [|done|done|done|done| |].
  - constructor; [apply img_write; [apply A1|lia|lia]|apply Fl].
  - apply (tight_ext G1 (I1 n)); [done|]. intros p _. by apply Hs2.
  - intros j q Hj [Hjr Hq]. rewrite Hs2 by done. by apply Hs1.
Qed.

Lemma iappend_loop_spec n : 0 <= n < sb_ninodes sb -> forall rounds s G I p off, mk_at s G I -> d_type (I n) <> 0 -> tight G (I n) off -> Forall is_byte p ->
  let len := Z.of_nat (length p) in 0 <= off -> off + len <= MAXFILE * BSIZE -> m_freeblock s + nb (off + len) - nb off <= FSSIZE ->
  (1 <= rounds)%nat -> (0 < len -> (off + len - 1) / BSIZE - off / BSIZE + 2 <= Z.of_nat rounds) ->
  wp (iappend_loop rounds (I n) p off len) (append_post n off p s G I) s.
Proof.
  intros Hn. induction rounds as [|rounds IH]; [lia|]. intros s G I p off A Hty Ht Hp len Ho He Hcap _ Hr. cbn [iappend_loop].
  destruct (Z.ltb_spec 0 len) as [Hl|Hl].
  - specialize (Hr Hl). pose proof (Z.div_mod off BSIZE ltac:(done)) as Ediv. pose proof (Z.mod_pos_bound off BSIZE ltac:(done)) as Hmod. set (fbn := off / BSIZE) in *.
    destruct (Z.ltb_spec fbn MAXFILE) as [Hf|Hf]; [cbn [negb]|consts; lia]. set (n1 := Z.min len ((fbn + 1) * BSIZE - off)). assert (Hn1 : 0 < n1 <= len) by (unfold n1; consts; lia).
    pose proof (nb_mono (off + n1) (off + len) ltac:(lia)) as Hmono. assert (Hlp : Z.of_nat (length (take (Z.to_nat n1) p)) = n1) by (rewrite length_take; unfold len in *; lia).
    apply (append_round n s G I (take (Z.to_nat n1) p) off (fun din => iappend_loop rounds din (drop (Z.to_nat n1) p) (u32 (off + n1)) (len - n1))); fold fbn; rewrite ?Hlp; try done; try lia; [by apply Forall_take|].
    intros s1 r (G1 & I1 & A1 & Fl & -> & Ek & Ei & Ht1 & Hs1). rewrite Hlp in *. cbn [fst]. rewrite u32_small by (consts; lia).
    assert (Hld : Z.of_nat (length (drop (Z.to_nat n1) p)) = len - n1) by (rewrite length_drop; unfold len in *; lia). rewrite <- Hld.
    eapply wp_mono; [apply (IH s1 G1 I1 (drop (Z.to_nat n1) p) (off + n1)); rewrite ?Hld; try done; try lia|].
    + by rewrite (fl_self _ _ _ _ _ _ _ _ Fl).
    + by apply Forall_drop.
    + replace (off + n1 + (len - n1)) with (off + len) by lia. lia.
    + assert (Hb : off / BSIZE <= (off + len - 1) / BSIZE) by (apply Z.div_le_mono; [done|lia]). fold fbn in Hb. consts. lia.
    + intros Hlt. assert (E : (off + n1) / BSIZE = fbn + 1). { replace (off + n1) with ((fbn + 1) * BSIZE) by (unfold n1 in *; lia). by apply Z.div_mul. }
      rewrite E. replace (off + n1 + (len - n1) - 1) with (off + len - 1) by lia. lia.
    + intros r s' (G' & I' & A' & Fl' & -> & Ek' & Ei' & Ht' & Hs'). rewrite Hld in *. replace (off + n1 + (len - n1)) with (off + len) in * by lia.
      exists G', I'. fold len. split_and!; [done| |done|lia|by rewrite Ei'|done|intros j q Hj Hq; by rewrite Hs', Hs1].
      rewrite <- (take_drop (Z.to_nat n1) p). apply (filled_trans _ _ _ _ _ _ _ G1 I1); rewrite ?Hlp; try done. lia.
  - assert (p = []) as -> by (destruct p; [done|cbn in *; lia]). apply wp_ret. exists G, I. cbn [length]. rewrite Z.add_0_r. split_and!; try done; [by apply filled_grown; [apply fgrown_refl, A|]|lia].
Qed.

(** ** The files so far *)

Fixpoint total (L : list (Z * list Z)) : Z := match L with [] => 0 | f :: L => nb (Z.of_nat (length f.2)) + total L end.

(** File [k] of the list has inode [k + 1]. *)
Record file_at (G : blocks) (d : dinode) (ty : Z) (bs : list Z) : Prop := {
  fe_type : d_type d = ty /\ ty <> 0;
  fe_nlink : d_nlink d = 1;
  fe_size : d_size d = Z.of_nat (length bs);
  fe_data : fdata G d = bs;
  fe_tight : tight G d (Z.of_nat (length bs));
  fe_tail : forall x, Z.of_nat (length bs) <= x < MAXFILE * BSIZE -> fbyte G d x = 0;
}.
Record files_at s (G : blocks) (I : Z -> dinode) (L : list (Z * list Z)) : Prop := {
  ls_mk : mk_at s G I;
  ls_sync : forall m, 0 <= m < sb_ninodes sb -> disk_inode sb G m = I m;
  ls_count : m_freeinode s = 1 + Z.of_nat (length L) /\ m_freeinode s <= NINODES;
  ls_blocks : m_freeblock s = datastart sb + total L;
  ls_file : forall k ty bs, L !! k = Some (ty, bs) -> file_at G (I (1 + Z.of_nat k)) ty bs;
  ls_rest : forall m, 0 <= m < sb_ninodes sb -> m = 0 \/ 1 + Z.of_nat (length L) <= m -> I m = zero_dinode 0;
}.

Lemma total_insert L k f f' : L !! k = Some f -> total (<[k := f']> L) = total L - nb (Z.of_nat (length f.2)) + nb (Z.of_nat (length f'.2)).
Proof.
  revert k. induction L as [|g L IH]; intros [|k] H; try done.
  - injection H as ->. change (<[0%nat := f']> (f :: L)) with (f' :: L). cbn [total]. lia.
  - change (<[S k := f']> (g :: L)) with (g :: <[k := f']> L). cbn [total]. rewrite (IH k H). lia.
Qed.
Lemma total_app L L' : total (L ++ L') = total L + total L'.
Proof. induction L as [|f L IH]; cbn [app total]; lia. Qed.

Lemma slot_put_inode F I n d j p : fs_inv sb F I -> 0 <= n < sb_ninodes sb -> 0 <= j < sb_ninodes sb -> slot (put_inode sb F n d) (I j) p = slot F (I j) p.
Proof.
  intros Inv Hn Hj. unfold put_inode. apply slot_agree. intros Hne. destruct (ind_data _ _ _ Inv j Hj Hne). apply bupd_ne.
  pose proof (IBLOCK_range sb n (fi_sb _ _ _ Inv) Hn). pose proof (inv_order _ _ _ Inv). lia.
Qed.

(** [winode] on the image and on the contents. *)
Lemma winode_spec s G I n d (Q : unit -> mkst -> Prop) : img_at s G -> fs_inv sb G I -> 0 <= n < sb_ninodes sb ->
  (img_at (set_img (bupd (m_img s) (IBLOCK n sb) (put_dinode (G (IBLOCK n sb)) (n mod IPB) d)) s) (put_inode sb G n d) ->
   Q tt (set_img (bupd (m_img s) (IBLOCK n sb) (put_dinode (G (IBLOCK n sb)) (n mod IPB) d)) s)) -> wp (winode n d) Q s.
Proof.
  intros A Inv Hn HQ. pose proof (IBLOCK_range sb n (fi_sb _ _ _ Inv) Hn). pose proof (inv_order _ _ _ Inv). pose proof (ma_free _ _ A).
  unfold winode. apply wp_bind, wp_gets. rewrite <- (mk_block s G) by (done || lia). apply wp_modify. apply HQ. unfold put_inode. apply img_write; [done|lia|lia].
Qed.
Lemma rinode_spec s G I n (Q : dinode -> mkst -> Prop) : img_at s G -> fs_inv sb G I -> 0 <= n < sb_ninodes sb -> Q (disk_inode sb G n) s -> wp (rinode n) Q s.
Proof.
  intros A Inv Hn HQ. pose proof (IBLOCK_range sb n (fi_sb _ _ _ Inv) Hn). pose proof (inv_order _ _ _ Inv).
  unfold rinode. apply wp_bind, wp_gets. rewrite <- (mk_block s G) by (done || lia). by apply wp_ret.
Qed.

Lemma append_rounds off len : 0 <= off -> 0 < len -> (off + len - 1) / BSIZE - off / BSIZE + 2 <= len / BSIZE + 3.
Proof.
  intros Ho Hl. pose proof (Z.div_mod off BSIZE ltac:(done)). pose proof (Z.mod_pos_bound off BSIZE ltac:(done)). pose proof (Z.div_mod len BSIZE ltac:(done)). pose proof (Z.mod_pos_bound len BSIZE ltac:(done)).
  assert ((off + len - 1) / BSIZE < off / BSIZE + len / BSIZE + 2); [|lia]. apply Z.div_lt_upper_bound; [done|]. consts. lia.
Qed.

(** The contents of a file after bytes are added at its end. *)
Lemma append_overwrite l bs : overwrite l (Z.of_nat (length l)) bs = l ++ bs.
Proof. unfold overwrite. rewrite Nat2Z.id, firstn_all, drop_ge by lia. by rewrite app_nil_r. Qed.

Lemma ls_range s G I L k f : files_at s G I L -> L !! k = Some f -> 0 <= 1 + Z.of_nat k < sb_ninodes sb.
Proof. intros A Hk. apply lookup_lt_Some in Hk. pose proof (ls_count _ _ _ _ A). rewrite the_superblock_eq. cbn [sb_ninodes]. unfold NINODES in *. lia. Qed.

(** Bytes added to the end of one file. *)
Lemma files_append s G I L k ty bs p s2 G2 I2 : let n := 1 + Z.of_nat k in let off := Z.of_nat (length bs) in let len := Z.of_nat (length p) in let L' := <[k := (ty, bs ++ p)]> L in
  files_at s G I L -> L !! k = Some (ty, bs) -> off + len <= MAXFILE * BSIZE -> wrote sb n off p G I G2 I2 -> img_at s2 G2 -> m_freeinode s2 = m_freeinode s ->
  m_freeblock s2 = datastart sb + total L' -> tight G2 (I2 n) (off + len) -> (forall j q, j <> n -> place sb j q -> slot G2 (I2 j) q = slot G (I j) q) -> files_at s2 G2 I2 L'.
Proof.
  intros n off len L' A Hk Hlen Wr A2 Ei Efb Ht2 Hs. pose proof (ls_range _ _ _ _ _ _ A Hk) as Hn. fold n in Hn. pose proof (ma_inv _ _ _ (ls_mk _ _ _ _ A)) as Inv.
  destruct (ls_file _ _ _ _ A k ty bs Hk) as [[Ety Hty] Enl Esz Edat Hti Hta]. fold n off in Ety, Enl, Esz, Edat, Hti. pose proof (wr_self _ _ _ _ _ _ _ _ Wr) as Eself.
  assert (Elen : length L' = length L) by apply length_insert. constructor.
  - constructor; [done|apply Wr].
  - intros m Hm. destruct (decide (m = n)) as [->|Hne]; [apply Wr|]. rewrite (wr_disk _ _ _ _ _ _ _ _ Wr), (wr_others _ _ _ _ _ _ _ _ Wr) by done. by apply A.
  - rewrite Ei, Elen. apply A.
  - done.
  - intros j ty' bs' Hj. destruct (decide (j = k)) as [->|Hne].
    + unfold L' in Hj. rewrite list_lookup_insert_eq in Hj by (by eapply lookup_lt_Some). injection Hj as <- <-. fold n. constructor.
      * rewrite Eself. done.
      * rewrite Eself. done.
      * rewrite Eself. cbn [set_size d_size]. rewrite Esz, length_app. fold len. lia.
      * rewrite (wrote_self _ _ _ _ _ _ _ _ Wr Inv Hn ltac:(lia) ltac:(fold len; lia)), Edat. apply append_overwrite.
      * rewrite length_app, Nat2Z.inj_add. done.
      * intros x. rewrite length_app. intros Hx. rewrite (wr_byte _ _ _ _ _ _ _ _ Wr) by (split; [lia|apply Hx]). fold len. rewrite decide_False by (unfold off, len; lia). apply Hta. lia.
    + unfold L' in Hj. rewrite list_lookup_insert_ne in Hj by done. assert (Hjn : 1 + Z.of_nat j <> n) by (unfold n; lia). pose proof (ls_range _ _ _ _ _ _ A Hj) as Hjr.
      destruct (ls_file _ _ _ _ A j ty' bs' Hj) as [E1 E2 E3 E4 E5 E6]. pose proof (wr_others _ _ _ _ _ _ _ _ Wr _ Hjn) as Eo. rewrite Eo. constructor; try done.
      * pose proof (wrote_other _ _ _ _ _ _ _ _ _ Wr Inv Hjr Hjn) as H. rewrite Eo in H. by rewrite H.
      * apply (tight_ext G (I (1 + Z.of_nat j))); [done|]. intros q Hq. rewrite <- Eo at 1. by apply Hs.
      * intros x Hx. rewrite <- (E6 x Hx). apply fbyte_blk, (wr_blk _ _ _ _ _ _ _ _ Wr); [done|done|apply FsWritei.file_block; lia].
  - intros m Hm Hr. rewrite Elen in Hr. apply lookup_lt_Some in Hk. rewrite (wr_others _ _ _ _ _ _ _ _ Wr) by (unfold n; lia). by apply A.
Qed.

(** [iappend] adds bytes to the end of a file. *)
Lemma iappend_spec s G I L k ty bs p : files_at s G I L -> L !! k = Some (ty, bs) -> Forall is_byte p -> Z.of_nat (length (bs ++ p)) <= MAXFILE * BSIZE ->
  let L' := <[k := (ty, bs ++ p)]> L in datastart sb + total L' <= FSSIZE -> wp (iappend (1 + Z.of_nat k) p) (fun _ s' => exists G' I', files_at s' G' I' L') s.
Proof.
  intros A Hk Hp Hlen L' Hcap. pose proof (ls_range _ _ _ _ _ _ A Hk) as Hn. pose proof (ls_mk _ _ _ _ A) as Am. pose proof (ma_inv _ _ _ Am) as Inv.
  destruct (ls_file _ _ _ _ A k ty bs Hk) as [[Ety Hty] Enl Esz Edat Hti Hta]. set (n := 1 + Z.of_nat k) in *. rewrite length_app in Hlen. set (off := Z.of_nat (length bs)) in *. set (len := Z.of_nat (length p)).
  assert (Etot : total L' = total L - nb off + nb (off + len)). { unfold L'. rewrite (total_insert L k (ty, bs)) by done. cbn [snd]. rewrite length_app, Nat2Z.inj_add. done. }
  pose proof (ls_blocks _ _ _ _ A) as Efb. unfold iappend. apply wp_bind, (rinode_spec s G I); [apply Am|done|done|]. rewrite (ls_sync _ _ _ _ A) by done. rewrite Esz. fold off len.
  assert (Hoff : 0 <= off <= MAXFILE * BSIZE) by lia. rewrite xint_small by (consts; lia). apply wp_bind. pose proof (Z.div_pos len BSIZE ltac:(lia) ltac:(done)) as Hdp.
  eapply wp_mono; [apply (iappend_loop_spec n Hn _ s G I p off Am ltac:(congruence) Hti Hp ltac:(lia)); fold len; [lia|lia|lia|intros Hl; pose proof (append_rounds off len ltac:(lia) Hl); lia]|].
  intros r s1 (G1 & I1 & A1 & Fl & -> & Ek & Ei & Ht1 & Hs1). fold len in Ek, Ht1 |- *. cbn [fst snd]. rewrite xint_small by (consts; lia). set (d := set_size (off + len) (I1 n)).
  assert (Ed : d = set_size (Z.max (d_size (I n)) (off + len)) (I1 n)) by (unfold d; rewrite Esz; f_equal; lia).
  pose proof (fl_self _ _ _ _ _ _ _ _ Fl) as Eself. pose proof (fi_inode _ _ _ (ma_inv _ _ _ A1) n Hn) as [D1 D2 D3 D4 D5 D6 D7].
  assert (Inv2 : fs_inv sb G1 (fput I1 n d)).
  { apply inv_fields; [apply A1|done|constructor; try done; cbn [d set_size d_size]; consts; lia|cbn [d set_size d_size]; lia|]. cbn [d set_size d_type]. intros E p'. rewrite Eself in E. cbn in E. congruence. }
  assert (Hsl : forall j q, 0 <= j < sb_ninodes sb -> slot (put_inode sb G1 n d) (fput I1 n d j) q = slot G1 (I1 j) q).
  { intros j q Hj. rewrite (slot_put_inode G1 (fput I1 n d)) by done. unfold fput. case_decide; [subst; by apply slot_addrs|done]. }
  apply (winode_spec s1 G1 I1); [apply A1|apply A1|done|]. intros A2. exists (put_inode sb G1 n d), (fput I1 n d).
  apply (files_append s G I L k ty bs p); fold n off len; try done; [lia|apply wrote_intro; try done; lia|cbn [set_img m_freeblock]; fold L'; lia| |].
  - apply (tight_ext G1 (I1 n)); [done|]. intros q _. by apply Hsl.
  - intros j q Hj Hq. rewrite Hsl by apply Hq. by apply Hs1.
Qed.

(** [ialloc] starts a new, empty file. *)
Lemma mkfs_ialloc_spec s G I L type : files_at s G I L -> 1 + Z.of_nat (length L) < NINODES -> 0 < type < 2 ^ 15 ->
  wp (mkfs_ialloc type) (fun r s' => r = 1 + Z.of_nat (length L) /\ exists G' I', files_at s' G' I' (L ++ [(type, [])])) s.
Proof.
  intros A Hc Hty. pose proof (ls_mk _ _ _ _ A) as Am. pose proof (ma_inv _ _ _ Am) as Inv. destruct (ls_count _ _ _ _ A) as [Ec _].
  set (n := 1 + Z.of_nat (length L)) in *. assert (Hn : 0 <= n < sb_ninodes sb) by (rewrite the_superblock_eq; cbn [sb_ninodes]; unfold NINODES in *; lia).
  unfold mkfs_ialloc. apply wp_bind, wp_gets, wp_bind, wp_modify. rewrite Ec. fold n. rewrite u32_small by (unfold NINODES in *; lia).
  rewrite (xshort_small type), (xshort_small 1), (xint_small 0) by lia. set (d := mk_dinode _ _ _ _ _ _).
  assert (Ei16 : forall z, - 2 ^ 15 <= z < 2 ^ 15 -> i16 z = z) by (intros z Hz; unfold i16; rewrite Z.mod_small by lia; lia).
  assert (E : d = mk_dinode type 0 0 1 0 (replicate 13 0)) by (unfold d; by rewrite !Ei16 by lia). clearbody d. subst d. set (d := mk_dinode _ _ _ _ _ _).
  assert (Hd : dinode_ok d) by (constructor; cbn [d d_type d_major d_minor d_nlink d_size d_addrs]; try lia; [done|by apply Forall_replicate]).
  pose proof (ls_rest _ _ _ _ A n Hn ltac:(lia)) as Ezero.
  assert (Inv2 : fs_inv sb G (fput I n d)) by (apply inv_fields; [done|by rewrite Ezero|done|done|cbn; lia]).
  set (s1 := mk_mkst _ _ _). assert (A1 : img_at s1 G) by (destruct (ma_at _ _ _ Am); by constructor).
  apply wp_bind, (winode_spec s1 G I); [done|done|done|]. intros A2. apply wp_ret. split; [done|]. exists (put_inode sb G n d), (fput I n d).
  assert (Hib : sb_inodestart sb <= IBLOCK n sb < sb_bmapstart sb) by (by apply IBLOCK_range; [apply Inv|]).
  assert (Hwf : wf_block (G (IBLOCK n sb))) by (by apply (inode_wf _ _ I)). pose proof (others_put sb G I n d Inv Hn Hd) as Os.
  assert (Hdi : disk_inode sb (put_inode sb G n d) n = d) by (rewrite disk_put_inode by (done || lia); by rewrite decide_True).
  assert (Inv3 : fs_inv sb (put_inode sb G n d) (fput I n d)) by (apply inv_inodes; [done|done|apply put_dinode_wf; [done|done|apply mod_IPB]]).
  constructor.
  - by constructor.
  - intros m Hm. destruct (decide (m = n)) as [->|Hne]; [by rewrite fput_eq|]. rewrite (os_disk _ _ _ _ _ _ Os), (os_inode _ _ _ _ _ _ Os) by done. by apply A.
  - cbn [set_img m_freeinode s1]. rewrite length_app. cbn [length]. unfold n in *. lia.
  - cbn [set_img m_freeblock s1]. rewrite (ls_blocks _ _ _ _ A), total_app. cbn [total snd length]. change (nb (Z.of_nat 0)) with 0. lia.
  - intros k ty bs Hk. apply lookup_app_Some in Hk as [Hk|[Hge Hk]].
    + pose proof (ls_range _ _ _ _ _ _ A Hk) as Hkr. apply lookup_lt_Some in Hk as Hlt. assert (Hne : 1 + Z.of_nat k <> n) by (unfold n; lia). destruct (ls_file _ _ _ _ A k ty bs Hk) as [E1 E2 E3 E4 E5 E6].
      rewrite (os_inode _ _ _ _ _ _ Os) by done. constructor; try done.
      * rewrite <- E4. unfold fdata. apply fbytes_ext. intros x Hx. apply fbyte_blk, (os_blk _ _ _ _ _ _ Os); [done|done|]. pose proof (fi_size _ _ _ Inv _ Hkr). apply FsWritei.file_block. lia.
      * apply (tight_ext G (I (1 + Z.of_nat k))); [done|]. intros q _. by apply (slot_put_inode G I).
      * intros x Hx. rewrite <- (E6 x Hx). apply fbyte_blk, (os_blk _ _ _ _ _ _ Os); [done|done|apply FsWritei.file_block; lia].
    + apply list_lookup_singleton_Some in Hk as [Hk [= <- <-]]. assert (1 + Z.of_nat k = n) as -> by (unfold n; lia). rewrite fput_eq. assert (Hda : forall q, daddr d q = 0) by (intros q; by apply (daddr_empty (zero_dinode 0))).
      assert (Hsl : forall G q, slot G d q = 0) by (intros G' q; unfold slot; rewrite !Hda; cbn [Z.eqb]; by destruct (_ <? 13)).
      constructor; try done; [cbn; lia| |]; cbn [length].
      * constructor; [|rewrite Hda; consts; lia]. intros bn Hbn. rewrite Hsl. consts. lia.
      * intros x _. unfold fbyte, fblk. rewrite Hsl. cbn [Z.eqb]. apply nth_zblk.
  - intros m Hm Hr. rewrite length_app in Hr. cbn [length] in Hr. rewrite fput_ne by (unfold n; lia). apply A; [done|lia].
Qed.
