(* ===== verification/MkfsMain.v ===== *)
(** * What mkfs writes: the whole program

    The reference of mkfs is a list of files; the image it writes is a
    consistent file system whose inodes hold these files. *)

From stdpp Require Import base numbers list gmap strings.
From Stdlib Require Import ZArith Lia.
From S2P Require Import Prelude Blocks Monad Codec Mem UserMem Bio BioCache Log LogSteps LogCrash Txn Fs FsImage FsInv FsAlloc FsRead FsWritei FsTrunc FsInode FsDir FsCrash Mkfs MkfsFiles.
Open Scope Z_scope.

(** ** The reference *)

Definition dir_name (arg : list Z) : list Z := default [] (strncpy_arr (Z.to_nat DIRSIZ) (entry_of (shortname arg) ++ [0])).
Definition add_ref (L : list (Z * list Z)) (file : list Z * list Z) : list (Z * list Z) :=
  match L with
  | [] => []
  | root :: rest => (root.1, root.2 ++ mk_dirent (1 + Z.of_nat (length L)) (dir_name file.1)) :: (rest ++ [(T_FILE, file.2)])
  end.
(** The entries of the root directory, its contents, and all files. *)
Definition root_entries (files : list (list Z * list Z)) : list (Z * list Z) :=
  (ROOTINO, dot) :: (ROOTINO, dotdot) :: imap (fun k f => (2 + Z.of_nat k, dir_name f.1)) files.
Definition root_bytes (files : list (list Z * list Z)) : list Z := concat (map (fun e => mk_dirent e.1 e.2) (root_entries files)).
Definition mkfs_ref (files : list (list Z * list Z)) : list (Z * list Z) := (T_DIR, root_bytes files) :: map (fun f => (T_FILE, f.2)) files.

(** What mkfs is called with. *)
Record files_ok (files : list (list Z * list Z)) : Prop := {
  fk_count : Z.of_nat (length files) + 2 < NINODES;
  fk_name : forall f, f ∈ files -> ~ (47 ∈ shortname f.1) /\ Forall is_byte f.1;
  fk_data : forall f, f ∈ files -> Forall is_byte f.2 /\ Z.of_nat (length f.2) <= MAXFILE * BSIZE;
  fk_fits : datastart sb + total (mkfs_ref files) <= FSSIZE;
}.

(** ** One file *)

Lemma read_blocks_spec k ty : forall rounds s G I L bs c, files_at s G I L -> L !! k = Some (ty, bs) -> Forall is_byte c -> Z.of_nat (length (bs ++ c)) <= MAXFILE * BSIZE ->
  let L' := <[k := (ty, bs ++ c)]> L in datastart sb + total L' <= FSSIZE -> Z.of_nat (length c) < (Z.of_nat rounds - 1) * BSIZE + 1 -> (1 <= rounds)%nat ->
  wp (read_blocks rounds (1 + Z.of_nat k) c) (fun _ s' => exists G' I', files_at s' G' I' L') s.
Proof.
  induction rounds as [|rounds IH]; [lia|]. intros s G I L bs c A Hk Hc Hlen L' Hcap Hr _. cbn [read_blocks].
  set (b := take (Z.to_nat BSIZE) c). destruct (Z.ltb_spec 0 (Z.of_nat (length b))) as [Hl|Hl].
  - assert (Hb : Z.of_nat (length b) = Z.min BSIZE (Z.of_nat (length c))) by (unfold b; rewrite length_take; consts; lia).
    assert (Ec : c = b ++ drop (Z.to_nat BSIZE) c) by (symmetry; apply take_drop). rewrite length_app in Hlen. set (L1 := <[k := (ty, bs ++ b)]> L).
    assert (Hcap1 : datastart sb + total L1 <= datastart sb + total L').
    { unfold L1, L'. rewrite !(total_insert L k (ty, bs)) by done. cbn [snd]. rewrite !length_app. pose proof (nb_mono (Z.of_nat (length bs + length b)) (Z.of_nat (length bs + length c)) ltac:(lia)). lia. }
    apply wp_bind. eapply wp_mono; [apply (iappend_spec s G I L k ty bs b A Hk); [by apply Forall_take|rewrite length_app; lia|fold L1; lia]|].
    intros [] s1 (G1 & I1 & A1). fold L1 in A1. apply lookup_lt_Some in Hk as Hlt.
    assert (Hk1 : L1 !! k = Some (ty, bs ++ b)) by (unfold L1; by apply list_lookup_insert_eq).
    assert (EL : <[k := (ty, (bs ++ b) ++ drop (Z.to_nat BSIZE) c)]> L1 = L') by (unfold L1, L'; rewrite list_insert_insert_eq, <- app_assoc, <- Ec; done).
    eapply wp_mono; [apply (IH s1 G1 I1 L1 (bs ++ b) (drop (Z.to_nat BSIZE) c) A1 Hk1); [by apply Forall_drop| |by rewrite EL| |]|].
    + rewrite <- app_assoc, <- Ec, length_app. lia.
    + rewrite length_drop. consts. lia.
    + consts. lia.
    + intros [] s2. by rewrite EL.
  - apply wp_ret. assert (c = []) as ->. { destruct c; [done|]. unfold b in Hl. rewrite length_take in Hl. cbn [length] in Hl. consts. lia. }
    exists G, I. unfold L'. rewrite app_nil_r. by rewrite list_insert_id.
Qed.

Lemma terminated_snoc n s : terminated n (s ++ [0]).
Proof. right. apply elem_of_app. right. by apply list_elem_of_singleton. Qed.
Lemma dir_name_ok arg : Forall is_byte arg -> exists q, strncpy_arr (Z.to_nat DIRSIZ) (entry_of (shortname arg) ++ [0]) = Some q /\ dir_name arg = q /\ length q = Z.to_nat DIRSIZ /\ Forall is_byte q.
Proof.
  intros Hb. destruct (strncpy_arr_name (Z.to_nat DIRSIZ) (entry_of (shortname arg) ++ [0]) (terminated_snoc _ _)) as (q & E & Hl & _ & Hq).
  exists q. split_and!; [done|unfold dir_name; by rewrite E|done|]. apply Hq. apply Forall_app. split; [|by repeat constructor].
  assert (Hs : Forall is_byte (shortname arg)) by (unfold shortname; case_decide; [by apply Forall_drop|done]).
  unfold entry_of. destruct (shortname arg) as [|c rest]; [done|]. destruct (c =? 95); [by inv Hs|done].
Qed.

Lemma mk_dirent_ok n q : length q = Z.to_nat DIRSIZ -> Forall is_byte q -> length (mk_dirent n q) = 16%nat /\ Forall is_byte (mk_dirent n q).
Proof. intros Hl Hb. unfold mk_dirent. rewrite length_app, le_bytes_length, Hl. split; [done|]. apply Forall_app. split; [apply le_bytes_is_bytes|done]. Qed.

(** The list while files are added: the root directory has an entry for each file and for dot and dotdot. *)
Definition rooted (L : list (Z * list Z)) : Prop := exists rb rest, L = (T_DIR, rb) :: rest /\ Z.of_nat (length rb) = 16 * (Z.of_nat (length L) + 1).

Lemma rooted_add L f : rooted L -> Forall is_byte f.1 -> rooted (add_ref L f) /\ length (add_ref L f) = S (length L) /\ total L <= total (add_ref L f).
Proof.
  intros (rb & rest & -> & Hl) Hb. cbn [add_ref fst snd]. destruct (dir_name_ok f.1 Hb) as (q & _ & -> & Hq & Hqb).
  destruct (mk_dirent_ok (1 + Z.of_nat (length ((T_DIR, rb) :: rest))) q Hq Hqb) as [Hd _]. set (e := mk_dirent _ _) in *.
  split_and!; [|cbn [length]; rewrite length_app; cbn [length]; lia|].
  - exists (rb ++ e), (rest ++ [(T_FILE, f.2)]). split; [done|]. cbn [length] in *. rewrite !length_app, Hd. cbn [length]. lia.
  - cbn [total snd]. rewrite total_app, length_app. cbn [total snd]. pose proof (nb_mono (Z.of_nat (length rb)) (Z.of_nat (length rb + length e)) ltac:(lia)).
    pose proof (nb_mono 0 (Z.of_nat (length f.2)) ltac:(lia)) as H0. change (nb 0) with 0 in H0. lia.
Qed.
Lemma mkfs_ref_snoc files f : add_ref (mkfs_ref files) f = mkfs_ref (files ++ [f]).
Proof.
  unfold mkfs_ref, add_ref. cbn [fst snd length]. rewrite length_map, map_app. f_equal. f_equal. unfold root_bytes, root_entries. rewrite imap_app, !map_cons, map_app.
  cbn [concat imap map]. rewrite concat_app. cbn [map concat fst snd]. rewrite app_nil_r, !app_assoc. do 2 f_equal. lia.
Qed.
Lemma rooted_ref files : (forall f, f ∈ files -> Forall is_byte f.1) -> rooted (mkfs_ref files).
Proof.
  induction files as [|f files IH] using rev_ind; intros Hb; [by eexists _, []|]. rewrite <- mkfs_ref_snoc. apply rooted_add; [|apply Hb; set_solver]. apply IH. intros g Hg. apply Hb. set_solver.
Qed.
Lemma total_ref files more : (forall f, f ∈ files ++ more -> Forall is_byte f.1) -> total (mkfs_ref files) <= total (mkfs_ref (files ++ more)).
Proof.
  revert files. induction more as [|f more IH]; intros files Hb; [rewrite app_nil_r; lia|]. rewrite cons_middle, app_assoc in Hb |- *. etrans; [|by apply IH].
  rewrite <- mkfs_ref_snoc. apply rooted_add; [apply rooted_ref; intros g Hg; apply Hb; set_solver|apply Hb; set_solver].
Qed.

Lemma add_file_spec s G I L f : files_at s G I L -> rooted L -> 1 + Z.of_nat (length L) < NINODES -> ~ (47 ∈ shortname f.1) -> Forall is_byte f.1 ->
  Forall is_byte f.2 -> Z.of_nat (length f.2) <= MAXFILE * BSIZE -> datastart sb + total (add_ref L f) <= FSSIZE ->
  wp (add_file ROOTINO f) (fun _ s' => exists G' I', files_at s' G' I' (add_ref L f)) s.
Proof.
  intros A HL Hc Hs Hn Hb Hlen Hcap. unfold add_file.
  assert (Es : existsb (Z.eqb 47) (shortname f.1) = false).
  { destruct (existsb _ _) eqn:E; [|done]. apply existsb_exists in E as (x & Hx & Ex%Z.eqb_eq). subst x. by rewrite <- list_elem_of_In in Hx. }
  rewrite Es. apply wp_bind. eapply wp_mono; [apply (mkfs_ialloc_spec s G I L T_FILE A Hc); unfold T_FILE; lia|].
  intros inum s1 (-> & G1 & I1 & A1). destruct (dir_name_ok f.1 Hn) as (q & Eq & Ed & Hq & Hqb). rewrite Eq. apply wp_bind, (wp_deref _ q); [done|].
  set (e := mk_dirent (1 + Z.of_nat (length L)) q). destruct (mk_dirent_ok (1 + Z.of_nat (length L)) q Hq Hqb) as [Hel Heb]. fold e in Hel, Heb.
  destruct HL as (rb & rest & -> & Hrl). set (L := (T_DIR, rb) :: rest) in *. cbn [add_ref L fst snd] in Hcap. rewrite Ed in Hcap. fold L in Hcap. fold e in Hcap.
  assert (Et : total ((T_DIR, rb ++ e) :: rest ++ [(T_FILE, [])]) <= total ((T_DIR, rb ++ e) :: rest ++ [(T_FILE, f.2)])).
  { cbn [total snd]. rewrite !total_app. cbn [total snd length]. change (Z.of_nat 0) with 0. pose proof (nb_mono 0 (Z.of_nat (length f.2)) ltac:(lia)). lia. }
  apply wp_bind. eapply wp_mono; [apply (iappend_spec s1 G1 I1 _ 0 T_DIR rb e A1 eq_refl Heb)|].
  - rewrite length_app, Hel. unfold NINODES in Hc. consts. lia.
  - change (<[0%nat := _]> _) with ((T_DIR, rb ++ e) :: rest ++ [(T_FILE, [])]). lia.
  - intros [] s2 (G2 & I2 & A2). change (<[0%nat := _]> _) with ((T_DIR, rb ++ e) :: rest ++ [(T_FILE, [])]) in A2.
    assert (Ei : <[length L := (T_FILE, [] ++ f.2)]> ((T_DIR, rb ++ e) :: rest ++ [(T_FILE, [])]) = (T_DIR, rb ++ e) :: rest ++ [(T_FILE, f.2)]).
    { cbn [L length]. change (<[S (length rest) := ?x]> (?y :: ?l)) with (y :: <[length rest := x]> l). f_equal. rewrite insert_app_r_alt by lia. by rewrite Nat.sub_diag. }
    assert (Ea : add_ref L f = (T_DIR, rb ++ e) :: rest ++ [(T_FILE, f.2)]) by (cbn [add_ref L fst snd]; by rewrite Ed).
    rewrite Ea, <- Ei. apply (read_blocks_spec (length L) T_FILE _ s2 G2 I2 _ [] f.2 A2); [|done|done|rewrite Ei; lia| |].
    + change (((T_DIR, rb ++ e) :: (rest ++ [(T_FILE, [])])) !! length L) with ((rest ++ [(T_FILE, @nil Z)]) !! length rest). by apply list_lookup_middle.
    + pose proof (Z.div_pos (Z.of_nat (length f.2)) BSIZE ltac:(lia) ltac:(done)). pose proof (Z.div_mod (Z.of_nat (length f.2)) BSIZE ltac:(done)).
      pose proof (Z.mod_pos_bound (Z.of_nat (length f.2)) BSIZE ltac:(done)). rewrite Z2Nat.id by lia. consts. lia.
    + pose proof (Z.div_pos (Z.of_nat (length f.2)) BSIZE ltac:(lia) ltac:(done)). lia.
Qed.

(** ** The start *)

Lemma zero_inode i : 0 <= i < IPB -> get_dinode zblk i = zero_dinode 0.
Proof.
  intros Hi. rewrite get_dinode_bytes. replace (bytes_at zblk (DINODE * i) DINODE) with (replicate 64 0); [vm_compute; reflexivity|].
  unfold bytes_at. rewrite zblk_eq, drop_replicate, take_replicate. f_equal. consts. lia.
Qed.
Lemma zero_slot F p : slot F (zero_dinode 0) p = 0.
Proof.
  assert (H : forall q, daddr (zero_dinode 0) q = 0) by (intros q; by apply (daddr_empty (zero_dinode 0))). unfold slot. rewrite !H. cbn [Z.eqb]. by destruct (_ <? 13).
Qed.

Lemma start_files F : (forall n, 0 <= n < FSSIZE -> n <> 1 -> F n = zblk) -> F 1 = splice zblk 0 (c_enc c_superblock sb) ->
  files_at (mk_mkst F 1 (datastart sb)) (finished F (datastart sb)) (fun _ => zero_dinode 0) [].
Proof.
  intros H0 H1. set (s := mk_mkst _ _ _). set (G := finished _ _). assert (A : img_at s G).
  { constructor; [done|cbn [s m_freeblock]; rewrite the_datastart; unfold FSSIZE; lia| |].
    - cbn [s m_img m_freeblock]. rewrite the_datastart. intros b Hb. apply H0; lia.
    - intros b Hb Hne. apply H0; [|done]. rewrite the_superblock_eq in Hb. cbn [sb_inodestart] in Hb. unfold FSSIZE. lia. }
  assert (Hz : forall n, 0 <= n < FSSIZE -> n <> 1 -> n <> 45 -> G n = zblk). { intros n Hn Hn1 Hn2. unfold G, finished. rewrite bupd_ne by (rewrite the_superblock_eq; done). by apply H0. }
  assert (Inv : fs_inv sb G (fun _ => zero_dinode 0)).
  { constructor; [apply the_superblock_ok| | | |by intros; apply (daddr_empty (zero_dinode 0))| |].
    - intros n. rewrite the_superblock_eq at 1 2. cbn [sb_inodestart sb_size]. intros Hn. destruct (decide (n = 45)) as [->|Hne]; [|rewrite Hz by (unfold FSSIZE; lia); apply wf_zblk].
      change (G 45) with (bitmap (datastart sb)). apply bitmap_ok. rewrite the_datastart. consts. lia.
    - intros i _. by apply zero_dinode_ok.
    - intros i _. cbn. consts. lia.
    - constructor.
      + intros i p _ H. by rewrite zero_slot in H.
      + intros i p j q _ _ _ H. by rewrite zero_slot in H.
      + intros b. rewrite the_datastart. intros Hb. rewrite (mk_used s G) by (done || unfold FSSIZE; lia). cbn [s m_freeblock]. rewrite the_datastart. lia.
      + intros b. rewrite the_datastart. rewrite the_superblock_eq at 1. cbn [sb_size]. intros Hb. rewrite (mk_used s G) by (done || unfold FSSIZE; lia). cbn [s m_freeblock]. rewrite the_datastart. lia.
    - unfold G, finished. rewrite bupd_ne by (rewrite the_superblock_eq; done). rewrite H1. vm_compute. reflexivity. }
  constructor; [done| |by cbn; unfold NINODES; lia|cbn [s m_freeblock total]; lia|done|done].
  intros m Hm. unfold disk_inode. pose proof (IBLOCK_range sb m the_superblock_ok Hm) as Hb. rewrite the_superblock_eq in Hb at 1 4. cbn [sb_inodestart sb_bmapstart] in Hb.
  rewrite Hz by (unfold FSSIZE; lia). apply zero_inode, mod_IPB.
Qed.

(** ** The image *)

Record image_of (files : list (list Z * list Z)) (F : blocks) : Prop := {
  im_consistent : consistent sb F;
  im_log : forall b, 0 <= b < sb_inodestart sb -> b <> 1 -> F b = zblk;
  im_root : d_type (disk_inode sb F ROOTINO) = T_DIR /\ d_nlink (disk_inode sb F ROOTINO) = 1 /\
    let len := Z.of_nat (length (root_bytes files)) in contents sb F ROOTINO = root_bytes files ++ replicate (Z.to_nat (BSIZE - len mod BSIZE)) 0;
  im_full : full F (disk_inode sb F ROOTINO) <-> Z.of_nat (length (root_bytes files)) mod BSIZE <> 0;
  im_file : forall k name data, files !! k = Some (name, data) -> let n := 2 + Z.of_nat k in
    d_type (disk_inode sb F n) = T_FILE /\ d_nlink (disk_inode sb F n) = 1 /\ contents sb F n = data;
  im_free : forall n, 0 <= n < sb_ninodes sb -> n = 0 \/ 2 + Z.of_nat (length files) <= n -> d_type (disk_inode sb F n) = 0;
}.

(** Only the blocks of the image matter. *)
Section pointwise.
Variables (F F' : blocks).
Hypothesis E : forall n, 0 <= n < FSSIZE -> F' n = F n.
Hypothesis Hc : consistent sb F.

Lemma image_range n : sb_inodestart sb <= n < sb_size sb -> 0 <= n < FSSIZE.
Proof. rewrite the_superblock_eq. cbn [sb_inodestart sb_size]. unfold FSSIZE. lia. Qed.
Lemma disk_inode_pw n : 0 <= n < sb_ninodes sb -> disk_inode sb F' n = disk_inode sb F n.
Proof. intros Hn. unfold disk_inode. rewrite E; [done|]. apply image_range. pose proof (IBLOCK_range sb n the_superblock_ok Hn). pose proof (inv_order _ _ _ Hc). lia. Qed.
Lemma slot_pw n p : 0 <= n < sb_ninodes sb -> slot F' (disk_inode sb F n) p = slot F (disk_inode sb F n) p.
Proof.
  intros Hn. apply slot_agree. intros Ha. apply E, image_range. destruct (ind_data _ _ _ Hc n Hn Ha). pose proof (inv_order _ _ _ Hc). lia.
Qed.
Lemma fdata_pw n : 0 <= n < sb_ninodes sb -> fdata F' (disk_inode sb F n) = fdata F (disk_inode sb F n).
Proof.
  intros Hn. unfold fdata. apply fbytes_ext. intros x Hx. apply fbyte_blk. unfold fblk. rewrite slot_pw by done. pose proof (fi_size _ _ _ Hc n Hn).
  assert (Hb : 0 <= x / BSIZE < MAXFILE) by (apply FsWritei.file_block; lia).
  destruct (Z.eqb_spec (slot F (disk_inode sb F n) (fslot (x / BSIZE))) 0) as [E0|E0]; [done|].
  destruct (slot_data _ _ _ Hc n _ (fslot_place sb n _ Hn Hb) E0) as [Ha _]. apply E, image_range. pose proof (inv_order _ _ _ Hc). lia.
Qed.
Lemma consistent_pw : consistent sb F'.
Proof.
  pose proof Hc as [X1 X2 X3 X4 X5 X6 X7]. pose proof (sb_order _ X1). pose proof (so_data _ X1). constructor; try done.
  - intros n Hn. rewrite E by (by apply image_range). by apply X2.
  - intros i Hi. rewrite disk_inode_pw by done. by apply X3.
  - intros i Hi. rewrite disk_inode_pw by done. by apply X4.
  - intros i p Hi. rewrite disk_inode_pw by done. by apply X5.
  - apply (owned_ext _ _ _ _ _ X6); [intros i p [Hi _]; by rewrite disk_inode_pw, slot_pw| |lia|lia].
    intros b Hb. unfold used. rewrite E; [done|]. apply image_range. pose proof (BBLOCK_range sb b X1 Hb). pose proof (inv_order _ _ _ Hc). lia.
  - rewrite E; [done|]. unfold FSSIZE. lia.
Qed.
End pointwise.

Lemma image_pw files F F' : (forall n, 0 <= n < FSSIZE -> F' n = F n) -> Z.of_nat (length files) + 2 < NINODES -> image_of files F -> image_of files F'.
Proof.
  intros E Hl [X1 X2 X3 X4 X5 X6]. assert (Hr : 0 <= ROOTINO < sb_ninodes sb) by (rewrite the_superblock_eq; cbn [sb_ninodes]; unfold ROOTINO; lia). constructor.
  - by apply (consistent_pw F).
  - intros b Hb Hne. rewrite E; [by apply X2|]. rewrite the_superblock_eq in Hb. cbn [sb_inodestart] in Hb. unfold FSSIZE. lia.
  - unfold contents. rewrite (disk_inode_pw F), (fdata_pw F) by done. apply X3.
  - rewrite (disk_inode_pw F) by done. rewrite <- X4. unfold full. pose proof (slot_pw F F' E X1 ROOTINO) as Es. split; intros H bn H0 H1; [rewrite <- Es by done|rewrite Es by done]; by apply H.
  - intros k name data Hk n. unfold contents. apply lookup_lt_Some in Hk as Hlt.
    assert (Hn : 0 <= n < sb_ninodes sb) by (rewrite the_superblock_eq; cbn [sb_ninodes]; unfold n, NINODES in *; lia). rewrite (disk_inode_pw F), (fdata_pw F) by done. by apply (X5 k name).
  - intros n Hn Hf. rewrite (disk_inode_pw F) by done. by apply X6.
Qed.

(** The size of the root directory is a number of whole blocks. *)
Lemma finish_image s G I files : files_at s G I (mkfs_ref files) -> Z.of_nat (length (root_bytes files)) < (MAXFILE - 1) * BSIZE ->
  let len := Z.of_nat (length (root_bytes files)) in let d := set_size ((len / BSIZE + 1) * BSIZE) (I ROOTINO) in image_of files (put_inode sb G ROOTINO d).
Proof.
  intros A Hlen len d. pose proof (ma_inv _ _ _ (ls_mk _ _ _ _ A)) as Inv. pose proof (ma_at _ _ _ (ls_mk _ _ _ _ A)) as Ai.
  pose proof (Z.div_mod len BSIZE ltac:(done)) as Ediv. pose proof (Z.mod_pos_bound len BSIZE ltac:(done)) as Hmod. fold len in Hlen. assert (Hq : 0 <= len / BSIZE) by (apply Z.div_pos; [lia|done]).
  assert (Hn : 0 <= ROOTINO < sb_ninodes sb) by (rewrite the_superblock_eq; cbn [sb_ninodes]; unfold ROOTINO; lia).
  destruct (ls_file _ _ _ _ A 0%nat T_DIR (root_bytes files) eq_refl) as [[Ety Hty] Enl Esz Edat Hti Hta]. change (1 + Z.of_nat 0) with ROOTINO in *. fold len in Esz, Hti, Hta.
  pose proof (fi_inode _ _ _ Inv ROOTINO Hn) as [D1 D2 D3 D4 D5 D6 D7].
  assert (Hd : dinode_ok d) by (constructor; try done; cbn [d set_size d_size]; consts; lia).
  pose proof (others_put sb G I ROOTINO d Inv Hn Hd) as Os. assert (Hwf : wf_block (G (IBLOCK ROOTINO sb))) by (by apply (inode_wf _ _ I)).
  pose proof (IBLOCK_range sb ROOTINO the_superblock_ok Hn) as Hib. pose proof (inv_order _ _ _ Inv) as Hord.
  assert (Hdi : forall m, 0 <= m < sb_ninodes sb -> disk_inode sb (put_inode sb G ROOTINO d) m = fput I ROOTINO d m).
  { intros m Hm. rewrite disk_put_inode by (done || lia). unfold fput. case_decide; [done|]. by apply A. }
  assert (Hsl : forall p, slot (put_inode sb G ROOTINO d) d p = slot G (I ROOTINO) p). { intros p. rewrite <- (slot_put_inode G I ROOTINO d ROOTINO p) by done. done. }
  assert (Hblk : forall bn, 0 <= bn < MAXFILE -> fblk (put_inode sb G ROOTINO d) d bn = fblk G (I ROOTINO) bn).
  { intros bn Hbn. unfold fblk. rewrite Hsl. destruct (Z.eqb_spec (slot G (I ROOTINO) (fslot bn)) 0) as [E|E]; [done|]. unfold put_inode. apply bupd_ne.
    destruct (slot_data _ _ _ Inv ROOTINO _ (fslot_place sb ROOTINO bn Hn Hbn) E) as [Ha _]. lia. }
  constructor.
  - apply (inv_ext _ _ (fput I ROOTINO d)); [|by intros m Hm; rewrite Hdi]. apply inv_inodes; [|done|apply put_dinode_wf; [done|done|apply mod_IPB]].
    apply inv_fields; [done|done|done|cbn [d set_size d_size]; consts; lia|]. cbn [d set_size d_type]. congruence.
  - intros b Hb Hne. unfold put_inode. rewrite bupd_ne by lia. rewrite (mk_block s G) by (done || lia). by apply (ma_head _ _ Ai).
  - unfold contents. rewrite Hdi, fput_eq by done. split_and!; [done|done|]. fold len.
    apply list_eq. intros k. assert (Hold : root_bytes files !! k = if decide (Z.of_nat k < len) then Some (fbyte G (I ROOTINO) (Z.of_nat k)) else None) by (rewrite <- Edat, fdata_lookup, Esz by lia; done).
    rewrite fdata_lookup by (cbn [d set_size d_size]; consts; lia). cbn [d set_size d_size]. fold d. destruct (decide (Z.of_nat k < len)) as [Hk|Hk].
    + rewrite lookup_app_l, Hold, decide_True by (consts; lia). f_equal. apply fbyte_blk, Hblk, FsWritei.file_block. consts. lia.
    + rewrite lookup_app_r by lia. destruct (decide (Z.of_nat k < (len / BSIZE + 1) * BSIZE)) as [Hk2|Hk2].
      * rewrite lookup_replicate_2 by (consts; lia). f_equal. rewrite <- (Hta (Z.of_nat k)) by (consts; lia). apply fbyte_blk, Hblk, FsWritei.file_block. consts. lia.
      * symmetry. apply lookup_ge_None. rewrite length_replicate. consts. lia.
  - rewrite Hdi, fput_eq by done. fold len. unfold full. cbn [d set_size d_size]. fold d. split.
    + intros H. specialize (H (len / BSIZE) Hq ltac:(consts; lia)). rewrite Hsl, (ti_slot _ _ _ Hti) in H by (consts; lia). consts. lia.
    + intros H bn Hb0 Hb1. rewrite Hsl, (ti_slot _ _ _ Hti) by (consts; lia). consts. lia.
  - intros k name data Hk n. apply lookup_lt_Some in Hk as Hlt. assert (Ek : mkfs_ref files !! S k = Some (T_FILE, data)).
    { change (mkfs_ref files !! S k) with (((fun f => (T_FILE, f.2)) <$> files) !! k). by rewrite list_lookup_fmap, Hk. }
    pose proof (ls_range _ _ _ _ _ _ A Ek) as Hr. destruct (ls_file _ _ _ _ A _ _ _ Ek) as [[E1 _] E2 E3 E4 _ _]. replace (1 + Z.of_nat (S k)) with n in * by (unfold n; lia).
    assert (Hne : n <> ROOTINO) by (unfold n, ROOTINO; lia). unfold contents. rewrite Hdi, fput_ne by done. split_and!; [done|done|]. rewrite <- E4. apply fbytes_ext.
    intros x Hx. apply fbyte_blk, (os_blk _ _ _ _ _ _ Os); [done|done|]. apply FsWritei.file_block. pose proof (fi_size _ _ _ Inv n Hr). lia.
  - intros n Hr Hf. rewrite Hdi by done. rewrite fput_ne by (unfold ROOTINO; lia). rewrite (ls_rest _ _ _ _ A n Hr); [done|]. unfold mkfs_ref. cbn [length]. rewrite length_map. lia.
Qed.

(** ** The program *)

Lemma add_files_spec : forall todo pre s G I, files_at s G I (mkfs_ref pre) -> files_ok (pre ++ todo) ->
  wp (forM todo (add_file ROOTINO)) (fun _ s' => exists G' I', files_at s' G' I' (mkfs_ref (pre ++ todo))) s.
Proof.
  induction todo as [|f todo IH]; intros pre s G I A Hok; cbn [forM]; [apply wp_ret; rewrite app_nil_r; eauto|].
  destruct Hok as [Hc Hn Hd Hf]. assert (Hin : f ∈ pre ++ f :: todo) by set_solver. destruct (Hn f Hin) as [Hs Hb]. destruct (Hd f Hin) as [Hdb Hdl].
  assert (Hpre : forall g, g ∈ pre -> Forall is_byte g.1) by (intros g Hg; apply (Hn g); set_solver).
  rewrite cons_middle, app_assoc in Hc, Hn, Hd, Hf |- *. pose proof (total_ref (pre ++ [f]) todo ltac:(intros g Hg; by apply Hn)) as Ht.
  apply wp_bind. eapply wp_mono; [apply (add_file_spec s G I (mkfs_ref pre) f A (rooted_ref pre Hpre)); try done|].
  - unfold mkfs_ref. cbn [length]. rewrite length_map. rewrite !length_app in Hc. cbn [length] in Hc. lia.
  - rewrite mkfs_ref_snoc. lia.
  - intros [] s1 (G1 & I1 & A1). rewrite mkfs_ref_snoc in A1. apply (IH (pre ++ [f]) s1 G1 I1 A1). by constructor.
Qed.

(** An empty root directory. *)
Lemma wipe_spec s (Q : unit -> mkst -> Prop) : m_freeinode s = 1 -> m_freeblock s = datastart sb ->
  (forall F, (forall n, 0 <= n < FSSIZE -> F n = zblk) -> Q tt (mk_mkst F 1 (datastart sb))) -> wp (forM (range 0 FSSIZE) (fun i => wsect i zblk)) Q s.
Proof.
  intros H1 H2 HQ. apply (wp_forM (fun i s' => m_freeinode s' = 1 /\ m_freeblock s' = datastart sb /\ forall n, 0 <= n < i -> m_img s' n = zblk)).
  - unfold FSSIZE. lia.
  - split_and!; [done|done|lia].
  - intros i s1 Hi (E1 & E2 & E3). apply wp_modify. cbn [m_freeinode m_freeblock m_img]. split_and!; [done|done|]. intros n Hn. unfold bupd. case_decide; [done|]. apply E3. lia.
  - intros [F fi fb] (E1 & E2 & E3). cbn [m_freeinode m_freeblock m_img] in *. subst fi fb. by apply HQ.
Qed.

Lemma ref_length files : files_ok files -> Z.of_nat (length (root_bytes files)) = 16 * (Z.of_nat (length files) + 2).
Proof.
  intros Hok. destruct (rooted_ref files) as (rb & rest & [= <- <-] & Hl); [intros f Hf; by apply (fk_name _ Hok)|]. rewrite Hl. unfold mkfs_ref. cbn [length]. rewrite length_map. lia.
Qed.

(** The root directory with its first two entries. *)
Lemma root_spec {A} s (K : Z -> MK A) (Q : A -> mkst -> Prop) : files_at s (finished (m_img s) (datastart sb)) (fun _ => zero_dinode 0) [] ->
  (forall s' G' I', files_at s' G' I' (mkfs_ref []) -> wp (K ROOTINO) Q s') ->
  wp (let! rootino := mkfs_ialloc T_DIR in if negb (rootino =? ROOTINO) then panic "assert" else
    iappend rootino (mk_dirent rootino dot);; iappend rootino (mk_dirent rootino dotdot);; K rootino) Q s.
Proof.
  intros A0 HK. apply wp_bind. eapply wp_mono; [apply (mkfs_ialloc_spec s _ _ [] T_DIR A0); cbn [length]; unfold NINODES, T_DIR; lia|]. intros r s1 (-> & G1 & I1 & A1). cbn [length app] in *.
  change (1 + Z.of_nat 0 =? ROOTINO) with true. cbn [negb]. change (1 + Z.of_nat 0) with ROOTINO in *.
  assert (Hdot : forall q, length q = 14%nat -> Forall is_byte q -> Forall is_byte (mk_dirent ROOTINO q)) by (intros q Hq Hb; by apply mk_dirent_ok).
  apply wp_bind. eapply wp_mono; [apply (iappend_spec s1 G1 I1 _ 0 T_DIR [] (mk_dirent ROOTINO dot) A1 eq_refl)|].
  { apply Hdot; [done|]. by repeat constructor. } { done. } { change (total _) with 1. rewrite the_datastart. unfold FSSIZE. lia. }
  intros [] s2 (G2 & I2 & A2). apply wp_bind. eapply wp_mono; [apply (iappend_spec s2 G2 I2 _ 0 T_DIR _ (mk_dirent ROOTINO dotdot) A2 eq_refl)|].
  { apply Hdot; [done|]. by repeat constructor. } { done. } { change (total _) with 1. rewrite the_datastart. unfold FSSIZE. lia. }
  intros [] s3 (G3 & I3 & A3). by apply (HK s3 G3 I3).
Qed.

(** The last steps: the size of the root directory and the bitmap. *)
Lemma finish_spec s G I files : files_at s G I (mkfs_ref files) -> files_ok files ->
  wp (let! din := rinode ROOTINO in let off := xint (d_size din) in let off := u32 ((off / BSIZE + 1) * BSIZE) in
      winode ROOTINO (set_size (xint off) din);; let! used := gets m_freeblock in mkfs_balloc used) (fun _ s' => image_of files (m_img s')) s.
Proof.
  intros A Hok. pose proof (fk_count _ Hok) as Hc. unfold NINODES in Hc. pose proof (ref_length files Hok) as Hlen. pose proof (ls_mk _ _ _ _ A) as Am. pose proof (ma_inv _ _ _ Am) as Inv.
  assert (Hn : 0 <= ROOTINO < sb_ninodes sb) by (rewrite the_superblock_eq; cbn [sb_ninodes]; unfold ROOTINO; lia).
  apply wp_bind, (rinode_spec s G I); [apply Am|done|done|]. rewrite (ls_sync _ _ _ _ A) by done. pose proof (fe_size _ _ _ _ (ls_file _ _ _ _ A 0%nat T_DIR (root_bytes files) eq_refl)) as Esz.
  change (1 + Z.of_nat 0) with ROOTINO in Esz. rewrite Esz. set (len := Z.of_nat (length (root_bytes files))) in *. cbv zeta. rewrite (xint_small len) by lia.
  pose proof (Z.div_mod len BSIZE ltac:(done)). pose proof (Z.mod_pos_bound len BSIZE ltac:(done)). rewrite u32_small, xint_small by (consts; lia).
  apply wp_bind, (winode_spec s G I); [apply Am|done|done|]. set (s1 := set_img _ _). intros A1. apply wp_bind, wp_gets. unfold mkfs_balloc. pose proof (ma_free _ _ A1) as Hf. unfold FSSIZE in Hf.
  destruct (Z.ltb_spec (m_freeblock s1) (BSIZE * 8)); [cbn [negb]|consts; lia]. apply wp_modify. cbn [m_img].
  apply (image_pw files (put_inode sb G ROOTINO (set_size ((len / BSIZE + 1) * BSIZE) (I ROOTINO)))); [|unfold NINODES; lia|by apply (finish_image s G I); [|fold len; consts; lia]].
  intros n _. symmetry. apply (ma_img _ _ A1).
Qed.

(** mkfs writes a consistent file system with an empty log, whose root
    directory has an entry for each file, and whose inodes hold the files. *)
Lemma mkfs_image_spec files s : files_ok files -> wp (mkfs_main files) (fun _ s' => image_of files (m_img s')) s.
Proof.
  intros Hok. unfold mkfs_main. apply wp_bind, wp_modify. apply wp_bind, wipe_spec; [done|done|].
  intros F HF. apply wp_bind, wp_modify. cbn [m_img m_freeinode m_freeblock].
  apply (root_spec _ (fun rootino => forM files (add_file rootino);; let! din := rinode rootino in let off := xint (d_size din) in let off := u32 ((off / BSIZE + 1) * BSIZE) in
    winode rootino (set_size (xint off) din);; let! used := gets m_freeblock in mkfs_balloc used)).
  - cbn [m_img]. apply (start_files (bupd F 1 _)); [intros n Hn Hne; rewrite bupd_ne by done; by apply HF|apply bupd_eq].
  - intros s1 G1 I1 A1. apply wp_bind. eapply wp_mono; [apply (add_files_spec files [] s1 G1 I1 A1 Hok)|].
    intros [] s2 (G2 & I2 & A2). by apply (finish_spec s2 G2 I2).
Qed.

Lemma wp_elim {S A} (m : M S A) (Q : A -> S -> Prop) s a s' : wp m Q s -> m s = Done a s' -> Q a s'.
Proof. unfold wp. intros H E. by rewrite E in H. Qed.

Lemma mkfs_image_done files m0 m1 : files_ok files -> mkfs_main files m0 = Done tt m1 -> image_of files (m_img m1).
Proof. intros Hok Hrun. exact (wp_elim (mkfs_main files) (fun _ s' => image_of files (m_img s')) m0 tt m1 (mkfs_image_spec files m0 Hok) Hrun). Qed.
