(* ===== verification/MkfsBoot.v ===== *)
(** * From mkfs to the first path name

    The disk that mkfs wrote is the one the kernel boots from: its log is empty,
    [fsinit] accepts it, and [namei] finds every file under the name mkfs gave
    it. *)

From stdpp Require Import base numbers list gmap strings.
From Stdlib Require Import ZArith Lia.
From S2P Require Import Prelude Blocks Monad Codec Mem UserMem Bio BioCache Log LogSteps LogCrash LogSafe Txn Fs FsImage FsInv FsAlloc FsRead FsWritei FsTrunc FsInode FsDir FsNamex FsCrash Mkfs MkfsFiles MkfsMain.
Open Scope Z_scope.

(** ** The entries of the root directory *)

(** The name a file has in the file system. *)
Definition fname (f : list Z * list Z) : list Z := take (Z.to_nat DIRSIZ) (entry_of (shortname f.1)).

Record names_ok (files : list (list Z * list Z)) : Prop := {
  nk_unique : NoDup ([46] :: [46; 46] :: map fname files);
  nk_name : forall f, f ∈ files -> entry_of (shortname f.1) <> [] /\ ~ (0 ∈ f.1);
}.

Lemma fbytes_fdata F d off n : 0 <= off -> 0 <= n -> off + n <= d_size d -> fbytes F d off n = take (Z.to_nat n) (drop (Z.to_nat off) (fdata F d)).
Proof.
  intros Ho Hn He. unfold fdata. replace (d_size d) with (off + (n + (d_size d - off - n))) by lia. rewrite fbytes_app by lia. rewrite drop_app_length' by (by rewrite fbytes_length).
  rewrite Z.add_0_l, fbytes_app by lia. by rewrite take_app_length' by (by rewrite fbytes_length).
Qed.

Lemma concat_slice {A} (m : nat) (ls : list (list A)) r : Forall (fun l => length l = m) ls -> forall k l, ls !! k = Some l -> take m (drop (m * k) (concat ls ++ r)) = l.
Proof.
  induction 1 as [|x ls Hx Hls IH]; intros k l Hk; [done|]. destruct k as [|k].
  - injection Hk as ->. rewrite Nat.mul_0_r, drop_0. cbn [concat]. rewrite <- app_assoc. by rewrite take_app_length' by done.
  - rewrite Nat.mul_succ_r, Nat.add_comm, <- drop_drop. cbn [concat]. rewrite <- app_assoc, drop_app_length' by done. by apply IH.
Qed.

Lemma de_mk_dirent n q : 0 <= n < 2 ^ 16 -> de_inum (mk_dirent n q) = n /\ de_name (mk_dirent n q) = q.
Proof.
  intros Hn. unfold de_inum, de_name, mk_dirent. rewrite xshort_small by done. rewrite take_app_length', drop_app_length' by (by rewrite le_bytes_length). split; [|done].
  rewrite le_val_bytes. by apply Z.mod_small.
Qed.

Lemma cname_snoc n : forall e, ~ (0 ∈ e) -> cname n (e ++ [0]) = take n e.
Proof.
  induction n as [|n IH]; intros [|x e] He; cbn [cname app take]; try done. destruct (Z.eqb_spec x 0) as [->|Hx]; [set_solver|]. rewrite IH; [done|set_solver].
Qed.
Lemma entry_of_sub c arg : c ∈ entry_of (shortname arg) -> c ∈ arg.
Proof.
  intros H. assert (Hs : c ∈ shortname arg). { unfold entry_of in H. destruct (shortname arg) as [|x r]; [done|]. destruct (x =? 95); [by right|done]. }
  unfold shortname in Hs. case_decide; [|done]. rewrite <- (take_drop 5 arg). apply elem_of_app. by right.
Qed.

Section root.
Variables (files : list (list Z * list Z)) (F : blocks).
Hypothesis Hok : files_ok files.
Hypothesis Hn : names_ok files.
Hypothesis Him : image_of files F.
Let d := disk_inode sb F ROOTINO.

Lemma root_size : d_size d = (Z.of_nat (length (root_bytes files)) / BSIZE + 1) * BSIZE.
Proof.
  destruct (im_root _ _ Him) as (_ & _ & E). assert (Hs : 0 <= d_size d) by (pose proof (fi_inode _ _ _ (im_consistent _ _ Him) ROOTINO ltac:(rewrite the_superblock_eq; cbn; unfold ROOTINO; lia)) as [? ? ? ? ? ? ?]; unfold d; lia).
  rewrite <- (fdata_length F d Hs). unfold contents in E. fold d in E. rewrite E, length_app, length_replicate.
  pose proof (Z.div_mod (Z.of_nat (length (root_bytes files))) BSIZE ltac:(done)). pose proof (Z.mod_pos_bound (Z.of_nat (length (root_bytes files))) BSIZE ltac:(done)). consts. lia.
Qed.

Lemma root_entry_ok k n q : root_entries files !! k = Some (n, q) -> length q = Z.to_nat DIRSIZ /\ 0 < n < sb_ninodes sb /\
  (k = 0%nat /\ n = ROOTINO /\ entry_name q = [46] \/ k = 1%nat /\ n = ROOTINO /\ entry_name q = [46; 46] \/
   exists j f, k = S (S j) /\ files !! j = Some f /\ n = 2 + Z.of_nat j /\ entry_name q = fname f).
Proof.
  pose proof (fk_count _ Hok) as Hc. unfold NINODES in Hc. rewrite the_superblock_eq. cbn [sb_ninodes]. unfold root_entries. destruct k as [|[|k]]; cbn [lookup].
  - intros [= <- <-]. split_and!; [done|done|done|]. left. done.
  - intros [= <- <-]. split_and!; [done|done|done|]. right. left. done.
  - intros H. apply (list_lookup_imap_Some _ files) in H as (f & Hk & [= -> ->]). apply lookup_lt_Some in Hk as Hlt. pose proof (list_elem_of_lookup_2 _ _ _ Hk) as Hin.
    destruct (fk_name _ Hok f Hin) as [_ Hb]. destruct (nk_name _ Hn f Hin) as [_ Hz].
    destruct (dir_name_ok f.1 Hb) as (q & Eq & -> & Hl & _). split_and!; [done|lia|lia|]. right. right. exists k, f. split_and!; try done.
    destruct (strncpy_arr_name _ _ (terminated_snoc (Z.to_nat DIRSIZ) (entry_of (shortname f.1)))) as (q' & Eq' & _ & Ec & _). rewrite Eq in Eq'. injection Eq' as <-.
    unfold entry_name. rewrite Ec. apply cname_snoc. intros H0. by apply Hz, entry_of_sub.
Qed.
Lemma root_entries_length : length (root_entries files) = (2 + length files)%nat.
Proof. unfold root_entries. cbn [length]. by rewrite length_imap. Qed.

Lemma root_entry k : 0 <= k < entries d -> entry F d k = match root_entries files !! Z.to_nat k with Some (n, q) => (n, entry_name q) | None => (0, []) end.
Proof.
  intros Hk. unfold entry, dirent_at. assert (Hs : DIRENT * k + DIRENT <= d_size d). { unfold entries in Hk. pose proof (Z.mul_div_le (d_size d) DIRENT ltac:(done)). consts. lia. }
  rewrite fbytes_fdata by (consts; lia). destruct (im_root _ _ Him) as (_ & _ & E). unfold contents in E. fold d in E. rewrite E. clear E. set (z := replicate _ 0). unfold root_bytes.
  set (es := root_entries files) in *. assert (Hall : Forall (fun l => length l = Z.to_nat DIRENT) (map (fun e => mk_dirent e.1 e.2) es)).
  { apply Forall_forall. intros l. change (map ?f es) with (f <$> es). intros ([n q] & -> & (j & Hj)%list_elem_of_lookup)%list_elem_of_fmap. destruct (root_entry_ok j n q Hj) as (Hl & _ & _).
    cbn [fst snd]. unfold mk_dirent. rewrite length_app, le_bytes_length, Hl. done. }
  replace (Z.to_nat (DIRENT * k)) with (Z.to_nat DIRENT * Z.to_nat k)%nat by (consts; lia). destruct (es !! Z.to_nat k) as [[n q]|] eqn:Ek.
  - rewrite (concat_slice _ _ z Hall _ (mk_dirent n q)); [|change (map ?f es) with (f <$> es); by rewrite list_lookup_fmap, Ek].
    destruct (root_entry_ok _ n q Ek) as (_ & Hr & _). rewrite the_superblock_eq in Hr. cbn [sb_ninodes] in Hr. destruct (de_mk_dirent n q ltac:(lia)) as [-> ->]. done.
  - apply lookup_ge_None in Ek. unfold es in Ek. rewrite root_entries_length in Ek. pose proof (ref_length files Hok) as Hlen. unfold root_bytes in Hlen. fold es in Hlen.
    set (c := concat _) in *. replace (take _ _) with (replicate (Z.to_nat DIRENT) 0); [done|]. rewrite drop_app_ge by (consts; lia). unfold z. rewrite drop_replicate, take_replicate. f_equal.
    rewrite root_size in Hs. unfold root_bytes in Hs. fold es c in Hs. pose proof (Z.div_mod (Z.of_nat (length c)) BSIZE ltac:(done)). pose proof (Z.mod_pos_bound (Z.of_nat (length c)) BSIZE ltac:(done)).
    unfold root_bytes. fold es c. consts. lia.
Qed.

Lemma entries_root : Z.of_nat (length (root_entries files)) <= entries d.
Proof.
  unfold entries. rewrite root_size, root_entries_length, ref_length by done. apply Z.div_le_lower_bound; [done|].
  pose proof (Z.div_mod (16 * (Z.of_nat (length files) + 2)) BSIZE ltac:(done)). pose proof (Z.mod_pos_bound (16 * (Z.of_nat (length files) + 2)) BSIZE ltac:(done)). consts. lia.
Qed.

(** Every file is found under its name. *)
Lemma root_lookup j f : files !! j = Some f -> exists k, lookup_name F d (fname f) = Some (k, 2 + Z.of_nat j).
Proof.
  intros Hj. pose proof entries_root as He. rewrite root_entries_length in He. apply lookup_lt_Some in Hj as Hlt.
  assert (Ek : exists q, root_entries files !! S (S j) = Some (2 + Z.of_nat j, q)).
  { exists (dir_name f.1). unfold root_entries. change ((_ :: _ :: ?l) !! S (S j)) with (l !! j). by rewrite list_lookup_imap, Hj. }
  destruct Ek as [q Ek]. destruct (root_entry_ok _ _ _ Ek) as (_ & _ & [(? & _)|[(? & _)|(j' & f' & [= <-] & Hj' & _ & Eq)]]); [done|done|]. rewrite Hj in Hj'. injection Hj' as <-.
  pose proof (root_entry (Z.of_nat (S (S j))) ltac:(lia)) as Ee. rewrite Nat2Z.id, Ek, Eq in Ee.
  destruct (lookup_name F d (fname f)) as [[k n]|] eqn:E.
  - apply find_entry_some in E as (Hk%elem_of_range & Hn0 & En). exists k. rewrite root_entry in En by done. pose proof (nk_unique _ Hn) as Hu.
    destruct (root_entries files !! Z.to_nat k) as [[n' q']|] eqn:Ek'; [|by injection En as <- _]. injection En as -> En. do 2 f_equal.
    inv Hu as [|? ? H1 Hu1]. inv Hu1 as [|? ? H2 Hu2]. assert (Hin : fname f ∈ map fname files) by (change (map ?g ?l) with (g <$> l); apply list_elem_of_fmap; exists f; split; [done|by eapply list_elem_of_lookup_2]).
    destruct (root_entry_ok _ _ _ Ek') as (_ & _ & [(_ & _ & E1)|[(_ & _ & E1)|(j' & f' & _ & Hj' & -> & E1)]]); rewrite E1 in En; [rewrite <- En in Hin; set_solver..|].
    assert (j' = j); [|lia]. eapply (NoDup_lookup _ _ _ (fname f) Hu2); change (map ?g ?l) with (g <$> l); rewrite list_lookup_fmap; [by rewrite Hj'; cbn; rewrite En|by rewrite Hj].
  - exfalso. apply (find_entry_none _ _ _ _ E (Z.of_nat (S (S j)))); [apply elem_of_range; lia|rewrite Ee; cbn [fst]; lia|by rewrite Ee].
Qed.

(** The tree of directories that mkfs writes, if the root directory has no hole. *)
(** The root is the only directory. *)
Lemma only_root n : 0 <= n < sb_ninodes sb -> d_type (disk_inode sb F n) = T_DIR -> n = ROOTINO.
Proof.
  intros Hr Hty. destruct (decide (n = ROOTINO)) as [|Hne]; [done|]. destruct (decide (n = 0 \/ 2 + Z.of_nat (length files) <= n)) as [Hf|Hf]; [by rewrite (im_free _ _ Him n Hr Hf) in Hty|].
  unfold ROOTINO in Hne. destruct (lookup_lt_is_Some_2 files (Z.to_nat (n - 2)) ltac:(lia)) as [[nm dat] Hk]. destruct (im_file _ _ Him _ _ _ Hk) as (E & _).
  replace (2 + Z.of_nat (Z.to_nat (n - 2))) with n in E by lia. by rewrite E in Hty.
Qed.
Lemma root_tree : Z.of_nat (length (root_bytes files)) mod BSIZE <> 0 -> tree_ok sb F (disk_inode sb F).
Proof.
  intros Hm. destruct (im_root _ _ Him) as (Ht & Hl & _). pose proof (fk_count _ Hok) as Hc. unfold NINODES in Hc.
  pose proof only_root as Hdir.
  constructor; [| |done].
  - intros n Hr Hty _. rewrite (Hdir n Hr Hty). constructor; [done|by apply (im_full _ _ Him)| |].
    + fold d. rewrite root_size. change BSIZE with (64 * DIRENT). rewrite Z.mul_assoc. by apply Z.mod_mul.
    + intros k Hk. rewrite root_entry by done. destruct (root_entries files !! Z.to_nat k) as [[m q]|] eqn:Ek; [by apply (root_entry_ok _ _ _ Ek)|]. rewrite the_superblock_eq. cbn. lia.
  - intros n k Hr Hty _. rewrite (Hdir n Hr Hty). fold d. intros Hk. rewrite root_entry by done. destruct (root_entries files !! Z.to_nat k) as [[m q]|] eqn:Ek; [|done]. intros _. cbn [fst].
    destruct (root_entry_ok _ _ _ Ek) as (_ & _ & [(_ & -> & _)|[(_ & -> & _)|(j & [nm dat] & _ & Hj & -> & _)]]); [by rewrite Ht, Hl..|].
    destruct (im_file _ _ Him _ _ _ Hj) as (E1 & E2 & _). by rewrite E1, E2.
Qed.
End root.

(** ** Booting from the image *)

Lemma image_log files F : image_of files F -> holds (sb_nlog sb) (sb_logstart sb) F F.
Proof.
  intros Him. assert (E : F (sb_logstart sb) = zblk) by (apply (im_log _ _ Him); rewrite the_superblock_eq; cbn; lia).
  assert (En : head_n (sb_logstart sb) F = 0) by (unfold head_n; rewrite E, zblk_eq; vm_compute; reflexivity).
  constructor; rewrite ?En; [|vm_compute; done|vm_compute; done|lia|lia|done]. rewrite E. by destruct wf_zblk as [-> _].
Qed.

Section boot.
Context {C U : Type} {BC : BufferCache C} {OK : BufferCacheOK C} {UM : UserMemory U} {UMok : UserMemoryOK U}.
Abbreviation fss := (fsst (lst C) U).
Implicit Types (s : fss).

(** A machine that was switched on with disk [D]: no inode is in use. *)
Definition powered (D : blocks) s : Prop := cold D s /\ forall k i, znth (fs_inodes s) k = Some i -> i_ref i = 0.
Definition with_cwd (ip : Z) s : fss := mk_fsst (fs_tx s) (fs_user s) (fs_sb s) (fs_inodes s) ip.

(** The current directory of the first process, looked up before the file
    system is there. *)
Lemma first_cwd D junk s (Q : option Z -> fss -> Prop) : powered D s ->
  (forall ip i l, cold D (with_inodes l s) -> znth l ip = Some i -> 0 < i_ref i -> i_inum i = ROOTINO -> nfree l = nfree (fs_inodes s) - 1 -> Q (Some ip) (with_inodes l s)) ->
  wp (namei junk [SLASH]) Q s.
Proof.
  intros [(c & Etx & Hc & [Hl H0 H1 H2] & Hum) Hz] HQ. unfold namei, namex. apply wp_bind, wp_bind, wp_gets, wp_bind. change (SLASH =? SLASH) with true. cbv iota. unfold iget. apply wp_bind, wp_gets.
  pose proof (iget_scan_spec (fs_inodes s) ROOTDEV ROOTINO 0 None ltac:(lia)) as Hs. destruct (iget_scan _ _ _ _ _) as [[ip|] e].
  { destruct Hs as (i & Hi & Hr & _). rewrite (Hz _ _ Hi) in Hr. lia. }
  destruct Hs as [_ He]. destruct e as [ip|]; [|].
  - destruct He as (i & Hi & Hr). rewrite Z.sub_0_r in Hi. apply wp_bind, (wp_mod_inode ip _ i); [done|]. apply wp_ret. apply wp_ret. set (i' := mk_inode _ _ _ _ _ _). set (l := zset _ ip i').
    assert (Hget : forall k j, znth l k = Some j -> k = ip /\ j = i' \/ k <> ip /\ znth (fs_inodes s) k = Some j).
    { intros k j Hk. destruct (decide (k = ip)) as [->|Hne]; [|right]; unfold l in Hk; rewrite (znth_zset _ ip i' _ i Hi) in Hk; case_decide; [left; split; congruence|done|done|done]. }
    apply (HQ ip i' l); [|unfold l; rewrite (znth_zset _ ip i' _ i Hi); by rewrite decide_True|done|done|].
    + exists c. split_and!; try done. cbn [with_inodes fs_inodes]. constructor.
      * unfold l. by rewrite zset_length.
      * intros k j [[_ ->]|[_ Hk]]%Hget; [split; [exact (proj1 (H0 ip i Hi))|done]|exact (H0 k j Hk)].
      * intros k j [[_ ->]|[_ Hk]]%Hget Hrj; [done|exact (H1 k j Hk Hrj)].
      * intros k k' j j' [[-> _]|[_ Hk]]%Hget [[-> _]|[_ Hk']]%Hget Hrj Hrj'; [done|by rewrite (Hz _ _ Hk') in Hrj'|by rewrite (Hz _ _ Hk) in Hrj..].
    + unfold l. rewrite (nfree_zset _ i) by done. unfold idle. rewrite Hr. cbn. lia.
  - exfalso. destruct (fs_inodes s) as [|x l] eqn:El; [done|]. apply (He 0 x eq_refl). by apply (Hz 0).
Qed.

Lemma nfree_all l : (forall k i, znth l k = Some i -> i_ref i = 0) -> nfree l = Z.of_nat (length l).
Proof.
  induction l as [|x l IH]; intros H; [done|]. cbn [nfree length]. rewrite IH; [unfold idle; rewrite (H 0 x eq_refl); cbn; lia|].
  intros k i Hk. apply (H (k + 1)). pose proof (znth_Some_lt _ _ _ Hk). rewrite znth_cons. destruct (Z.eqb_spec (k + 1) 0); [lia|]. by replace (k + 1 - 1) with k by lia.
Qed.

Lemma image_fsinit files D s : image_of files D -> cold D s ->
  wp fsinit (fun _ s' => fs_at s' (booted_view sb D D) (disk_inode sb D) /\ fs_sb s' = sb /\ fs_inodes s' = fs_inodes s /\ fs_cwd s' = fs_cwd s /\ fs_user s' = fs_user s) s.
Proof.
  intros Him Hc. apply fsinit_spec; [done|apply (im_consistent _ _ Him)|by rewrite the_superblock_eq|rewrite the_superblock_eq; vm_compute; done|apply Him|by apply (image_log files)].
Qed.

Lemma path_elements e : e <> [] -> ~ (SLASH ∈ e) -> elements (SLASH :: e) = [e].
Proof.
  intros Hne Hs. unfold elements. cbn [elements_from flush app]. rewrite Z.eqb_refl.
  assert (H : forall cur, elements_from cur e = flush (cur ++ e)); [|rewrite H; by destruct e].
  clear Hne. induction e as [|c e IH]; intros cur; cbn [elements_from]; [by rewrite app_nil_r|]. destruct (Z.eqb_spec c SLASH) as [->|Hc]; [set_solver|].
  rewrite IH by set_solver. by rewrite <- app_assoc.
Qed.

(** The first process gets its current directory, then [fsinit] runs. *)
Definition boot_fs (junk : list Z) : M fss unit := let! r := namei junk [SLASH] in let! cwd := deref r in modify (with_cwd cwd);; fsinit.

(** The references before [fsinit]. *)
Lemma boot_refs l m : boot_table l -> 0 < refs l m -> m = ROOTINO.
Proof.
  intros [_ H0 H1 _] Hr. destruct (decide (m = ROOTINO)) as [|Hne]; [done|]. rewrite refs_none in Hr; [lia|]. intros k i Hk. split; [by apply (H0 k)|]. intros E.
  destruct (decide (i_ref i = 0)) as [|Hn]; [done|]. pose proof (proj2 (H0 k i Hk)). destruct (H1 k i Hk) as (_ & Hi & _); [lia|]. congruence.
Qed.

Lemma boot_ready files D junk s : files_ok files -> names_ok files -> (Z.of_nat (length files) + 2) mod 64 <> 0 -> image_of files D -> powered D s ->
  wp (boot_fs junk) (fun _ s' => exists c, namex_ready s' c (booted_view sb D D) (disk_inode sb D) /\ fs_sb s' = sb /\ fs_user s' = fs_user s /\
    nfree (fs_inodes s') = NINODE - 1 /\ forall m, 0 < refs (fs_inodes s') m -> m = ROOTINO) s.
Proof.
  intros Hok Hnm Hmod Him Hp. unfold boot_fs. apply wp_bind, (first_cwd D); [done|]. intros cwd c l Hcold Hc Hcr Hci Hfree. apply wp_bind, (wp_deref _ cwd); [done|]. apply wp_bind, wp_modify.
  assert (Hcold' : cold D (with_cwd cwd (with_inodes l s))) by (destruct Hcold as (c1 & H); by exists c1).
  eapply wp_mono; [apply (image_fsinit files D _ Him Hcold')|]. intros [] s1 (A & Esb & Einodes & Ecwd & Eu). cbn [with_cwd with_inodes fs_inodes fs_cwd fs_user] in *.
  destruct Hp as [(c0 & _ & _ & Hbt & Hum) Hz]. rewrite (nfree_all _ Hz), (bt_len _ Hbt) in Hfree. destruct Hcold as (c1 & _ & _ & Hbt1 & _). cbn [with_inodes fs_inodes] in Hbt1.
  destruct (im_root _ _ Him) as (Ht & Hl & _). exists c. split; [|split_and!; [done|done|by rewrite Einodes|rewrite Einodes; intros m; by apply boot_refs]]. constructor; rewrite ?Einodes, ?Esb, ?Ecwd, ?Hci.
  - done.
  - apply (root_tree files); [done|done|done|]. rewrite ref_length by done. change BSIZE with (16 * 64). rewrite Z.mul_mod_distr_l by done. lia.
  - by rewrite Eu.
  - done.
  - intros k i Hk. by apply (bt_lock _ Hbt1 k).
  - rewrite Hfree. unfold NINODE. lia.
  - rewrite Ht, Hl. rewrite the_superblock_eq. done.
  - by rewrite Ht, Hl.
Qed.

Lemma image_namei files D j f junk s c : files_ok files -> names_ok files -> image_of files D -> files !! j = Some f -> length junk = Z.to_nat DIRSIZ ->
  let t := booted_view sb D D in let I := disk_inode sb D in namex_ready s c t I ->
  wp (namei junk (SLASH :: entry_of (shortname f.1)))
    (fun r s' => exists ip i, r = Some ip /\ fs_at s' t I /\ znth (fs_inodes s') ip = Some i /\ 0 < i_ref i /\ i_inum i = 2 + Z.of_nat j /\
      quiet (fs_inodes s') /\ fs_sb s' = fs_sb s /\ fs_user s' = fs_user s /\ refs (fs_inodes s') (i_inum i) = refs (fs_inodes s) (i_inum i) + 1) s.
Proof.
  intros Hok Hnm Him Hj Hjunk t I Hready. destruct (im_root _ _ Him) as (Ht & _).
  pose proof (list_elem_of_lookup_2 _ _ _ Hj) as Hin. destruct (nk_name _ Hnm f Hin) as [Hne Hz0]. destruct (fk_name _ Hok f Hin) as [Hs _]. set (e := entry_of (shortname f.1)) in *.
  assert (Hse : ~ (SLASH ∈ e)). { intros H. apply Hs. unfold e, entry_of in H. destruct (shortname f.1) as [|x r]; [done|]. destruct (x =? 95); [by right|done]. }
  unfold namei. apply wp_bind. eapply wp_mono; [apply (namex_spec false (SLASH :: e) junk s c t I Hready Hjunk)|].
  { intros z [Hz1|Hz1]%elem_of_cons ->; [done|]. by apply Hz0, entry_of_sub. }
  intros r s2 (x & l' & -> & A2 & Hq & Hr). rewrite path_elements in Hr by done. cbn [start_of] in Hr. rewrite Z.eqb_refl in Hr. cbn [dest_of walk] in Hr.
  destruct (root_lookup files D Hok Hnm Him j f Hj) as [k Hlk]. unfold fname in Hlk. fold e in Hlk. fold I in Hlk, Ht. rewrite Ht, Z.eqb_refl in Hr. change (tv_cur t) with D in Hr. rewrite Hlk in Hr.
  destruct Hr as (ip & i & Hr1 & Hi & Hinum & Hri & [Hrf _] & _). apply wp_ret. exists ip, i. cbn [with_inodes with_tx fs_inodes fs_sb fs_user]. split_and!; try done.
  rewrite Hrf, Hinum, Z.eqb_refl. done.
Qed.

(** C13: The machine is switched on with the disk that mkfs wrote: the path of a file
    leads to its inode and its contents.  The files fit the disk ([files_ok]),
    their names differ and are not empty ([names_ok]), and the entries of the root
    directory do not fill its last block (see [mkfs_root_hole]). *)
Theorem mkfs_boot_namei files j f m0 m1 D junk s : files_ok files -> names_ok files -> (Z.of_nat (length files) + 2) mod 64 <> 0 -> files !! j = Some f ->
  mkfs_main files m0 = Done tt m1 -> (forall n, 0 <= n < FSSIZE -> D n = m_img m1 n) -> powered D s -> length junk = Z.to_nat DIRSIZ ->
  wp (boot_fs junk;; namei junk (SLASH :: entry_of (shortname f.1)))
    (fun r s' => exists ip i t I, r = Some ip /\ fs_at s' t I /\ znth (fs_inodes s') ip = Some i /\ 0 < i_ref i /\ i_inum i = 2 + Z.of_nat j /\
      d_type (I (i_inum i)) = T_FILE /\ fdata (tv_cur t) (I (i_inum i)) = f.2) s.
Proof.
  intros Hok Hnm Hmod Hj Hrun HD Hp Hjunk. pose proof (image_pw files _ D HD (fk_count _ Hok) (mkfs_image_done files m0 m1 Hok Hrun)) as Him. clear Hrun HD.
  apply wp_bind. eapply wp_mono; [by apply (boot_ready files D)|]. intros [] s1 (c & Hready & _).
  eapply wp_mono; [by apply (image_namei files D j f junk s1 c)|]. intros r s2 (ip & i & Hr & A & Hi & Hri & Hinum & _). destruct f as [nm dat].
  destruct (im_file _ _ Him j nm dat Hj) as (F1 & _ & F3). exists ip, i, (booted_view sb D D), (disk_inode sb D). rewrite Hinum. done.
Qed.
End boot.

(** ** mkfs *)

(** C31: Given files that fit the disk ([files_ok], which mkfs does not check
    itself), mkfs writes a consistent file system with an empty log, whose root
    directory has an entry for each file, and whose inodes hold the files. *)
Theorem mkfs_image files s : files_ok files -> wp (mkfs_main files) (fun _ s' => image_of files (m_img s')) s.
Proof. apply mkfs_image_spec. Qed.

(** With 62 files, or 64 more, the entries of the root directory fill its last
    block, and the size that mkfs gives it covers a block it does not have. *)
Theorem mkfs_root_hole files s : files_ok files -> (Z.of_nat (length files) + 2) mod 64 = 0 ->
  wp (mkfs_main files) (fun _ s' => let d := disk_inode sb (m_img s') ROOTINO in exists bn, 0 <= bn /\ bn * BSIZE < d_size d /\ slot (m_img s') d (fslot bn) = 0) s.
Proof.
  intros Hok Hm. eapply wp_mono; [by apply mkfs_image_spec|]. intros [] s1 Him. cbv zeta. pose proof (root_size files _ Him) as Hs. pose proof (im_full _ _ Him) as Hf. rewrite ref_length in Hs, Hf by done.
  set (F := m_img s1) in *. set (d := disk_inode sb F ROOTINO) in *. pose proof (fk_count _ Hok) as Hc. unfold NINODES in Hc.
  destruct (decide (Exists (fun bn => slot F d (fslot bn) = 0) (range 0 (d_size d / BSIZE)))) as [He|He].
  - apply Exists_exists in He as (bn & Hbn%elem_of_range & E). exists bn. split_and!; [lia| |done]. pose proof (Z.mul_div_le (d_size d) BSIZE ltac:(done)). consts. lia.
  - exfalso. apply (proj1 Hf); [|change BSIZE with (16 * 64); rewrite Z.mul_mod_distr_l by done; lia]. intros bn Hb0 Hb1 E. apply He, Exists_exists. exists bn. split; [|done]. apply elem_of_range.
    split; [lia|]. rewrite Hs in Hb1 |- *. rewrite Z.div_mul by done. consts. lia.
Qed.
