(* ===== verification/FsWitness.v ===== *)
(** * A file system with one file

    The theorems on the file system at a concrete machine: mkfs writes a disk
    with the program [_sh], the kernel boots from it with the buffer cache of
    kernel/bio.c and the log of kernel/log.c. *)

From stdpp Require Import base numbers list gmap strings.
From Stdlib Require Import ZArith Lia.
From S2P Require Import Prelude Blocks Monad Codec Mem UserMem Pipe PipeSystem Bio BioCache BioBoot Log LogSteps LogCrash LogSafe Txn Fs FsImage FsInv FsAlloc FsRead FsWritei FsTrunc FsInode FsDir FsNamex File FileWrite FsCrash FsProps Mkfs MkfsFiles MkfsMain MkfsBoot.
Open Scope Z_scope.

(** [user/_sh], with two bytes of contents. *)
Definition ex_files : list (list Z * list Z) := [([117; 115; 101; 114; 47; 95; 115; 104], [7; 9])].
Definition ex_mk : mkst := mk_mkst (fun _ => zblk) 0 0.

Lemma ex_files_ok : files_ok ex_files.
Proof.
  constructor.
  - done.
  - intros f ->%list_elem_of_singleton. split; [|by repeat constructor]. vm_compute. intros H. repeat (apply elem_of_cons in H as [H|H]; [done|]). by apply elem_of_nil in H.
  - intros f ->%list_elem_of_singleton. split; [by repeat constructor|done].
  - vm_compute. done.
Qed.
Lemma ex_names_ok : names_ok ex_files.
Proof.
  constructor.
  - apply (bool_decide_unpack _). vm_compute. done.
  - intros f ->%list_elem_of_singleton. split; [done|]. cbn [fst]. set_solver.
Qed.

Lemma disk_of (F : blocks) N : 0 <= N -> exists d : gmap Z block, forall n, 0 <= n < N -> dblock d n = F n.
Proof.
  intros HN. pattern N. apply natlike_ind; [by exists ∅; lia| |done]. intros k Hk [d Hd]. exists (<[k := F k]> d). intros n Hn. unfold dblock. destruct (decide (n = k)) as [->|Hne].
  - by rewrite lookup_insert_eq.
  - rewrite lookup_insert_ne by done. apply Hd. lia.
Qed.

Definition ex_inode : inode := mk_inode 0 0 0 false false (zero_dinode 0).
Definition ex_table : list inode := replicate (Z.to_nat NINODE) ex_inode.
Definition ex_state (c : bst) : fsst (lst bst) mem := mk_fsst (mk_lst c boot_log) ex_umem sb ex_table 0.

Lemma ex_umem_ok : um_ok ex_umem.
Proof. apply mem_ok_write; [by intros x b|repeat constructor; lia]. Qed.
Lemma ex_table_at k i : znth ex_table k = Some i -> i = ex_inode.
Proof. unfold ex_table, znth. destruct (k <? 0); [done|]. intros [-> _]%lookup_replicate. done. Qed.

Lemma ex_powered : exists m1 D c, mkfs_main ex_files ex_mk = Done tt m1 /\ (forall n, 0 <= n < FSSIZE -> D n = m_img m1 n) /\ powered D (ex_state c).
Proof.
  destruct (proj1 (wp_Done _ _ _) (mkfs_image_spec ex_files ex_mk ex_files_ok)) as ([] & m1 & Hm & _). destruct (disk_of (m_img m1) FSSIZE) as [d Hd]; [clear Hm; done|].
  destruct (proj1 (wp_Done _ _ _) (binit_spec d)) as ([] & c & _ & Hc). exists m1, (dblock d), c. split; [exact Hm|]. clear Hm. split; [exact Hd|]. split.
  - exists c. split_and!; [done|done| |apply ex_umem_ok]. constructor; [done| | |].
    + intros k i ->%ex_table_at. done.
    + by intros k i ->%ex_table_at.
    + by intros k k' i i' ->%ex_table_at.
  - by intros k i ->%ex_table_at.
Qed.

Abbreviation view D := (booted_view sb D D).
Abbreviation inodes D := (disk_inode sb D).

(** The booted machine, with no inode in use. *)
Lemma ex_booted : exists D (s : fsst (lst bst) mem), image_of ex_files D /\ fs_at s (view D) (inodes D) /\ fs_sb s = sb /\ fs_inodes s = ex_table /\ fs_user s = ex_umem.
Proof.
  destruct ex_powered as (m1 & D & c & Hm & HD & [Hc _]). pose proof (image_pw ex_files _ D HD (fk_count _ ex_files_ok) (mkfs_image_done ex_files ex_mk m1 ex_files_ok Hm)) as Him. clear Hm HD.
  destruct (proj1 (wp_Done _ _ _) (image_fsinit ex_files D _ Him Hc)) as ([] & s & _ & A & E1 & E2 & _ & E4). exists D, s. done.
Qed.

(** One inode in use. *)
Lemma ex_get n : 0 <= n < 200 -> exists D (s : fsst (lst bst) mem) ip i, image_of ex_files D /\ fs_at s (view D) (inodes D) /\ fs_sb s = sb /\ fs_user s = ex_umem /\
  znth (fs_inodes s) ip = Some i /\ i_inum i = n /\ i_ref i = 1 /\ i_lock i = false /\ has_free (fs_inodes s).
Proof.
  intros Hn. destruct ex_booted as (D & s & Him & A & Esb & Et & Eu). assert (Hnone : forall k i, znth (fs_inodes s) k = Some i -> i = ex_inode) by (rewrite Et; apply ex_table_at).
  assert (H : wp (iget ROOTDEV n) (fun ip s' => exists i l, s' = with_inodes l s /\ l = zset ex_table ip i /\ fs_at s' (view D) (inodes D) /\
    znth ex_table ip = Some ex_inode /\ i_inum i = n /\ i_ref i = 1 /\ i_lock i = false) s).
  { apply (iget_spec s (view D) (inodes D) n); [done|by rewrite Esb, the_superblock_eq|by exists 0, ex_inode; rewrite Et| |].
    - intros ip i i' s' ->%Hnone [H _]. done.
    - intros ip i i' s' Hi _ _ A'. rewrite Et in Hi. pose proof (ex_table_at _ _ Hi) as ->. exists i', (zset (fs_inodes s) ip i'). split_and!; [done|by rewrite Et|exact A'|exact Hi|done|done|done]. }
  apply wp_Done in H as (ip & s' & _ & i & l & -> & -> & A' & Hi & H1 & H2 & H3). exists D, (with_inodes (zset ex_table ip i) s), ip, i.
  pose proof (znth_zset ex_table ip i) as Hz. split_and!; try done; [cbn [with_inodes fs_inodes]; by rewrite (Hz _ _ Hi), decide_True|].
  cbn [with_inodes fs_inodes]. exists (if decide (ip = 0) then 1 else 0), ex_inode. split; [|done]. rewrite (Hz _ _ Hi). case_decide; case_decide; done || lia.
Qed.

(** The inode locked, in a transaction. *)
Lemma ex_locked n : 0 <= n < 200 -> (forall D, image_of ex_files D -> d_type (inodes D n) <> 0) ->
  exists D (s : fsst (lst bst) mem) ip i, image_of ex_files D /\ fs_at s (with_ops 1 (view D)) (inodes D) /\ fs_sb s = sb /\ fs_user s = ex_umem /\
  in_use (fs_inodes s) ip i /\ i_inum i = n /\ i_ref i = 1 /\ i_lock i = true /\ has_free (fs_inodes s).
Proof.
  intros Hn Hty. destruct (ex_get n Hn) as (D & s & ip & i & Him & A & Esb & Eu & Hi & En & Hr & Hl & (k & j & Hk & Hj)). assert (Hne : k <> ip) by (intros ->; rewrite Hi in Hk; injection Hk as ->; lia).
  assert (H : wp (in_tx t_begin_op;; ilock ip) (fun _ s' => exists x, s' = with_inodes (zset (fs_inodes s) ip (locked i (inodes D n))) (with_tx x s) /\ fs_at s' (with_ops 1 (view D)) (inodes D)) s).
  { apply wp_bind, (wp_begin s (view D) (inodes D)); [done|done|]. intros x1 A1. apply (ilock_spec _ (with_ops 1 (view D)) (inodes D) ip i); [done|done|lia|done|done|rewrite En; by apply Hty|].
    intros x2 s' A2. exists x2. split; [unfold s'; by rewrite En|exact A2]. }
  apply wp_Done in H as ([] & s' & _ & x & -> & A'). exists D, (with_inodes (zset (fs_inodes s) ip (locked i (inodes D n))) (with_tx x s)), ip, (locked i (inodes D n)). split_and!; [done|exact A'|done|done| |done|done|done|].
  - constructor; [|cbn [locked i_ref]; lia|done]. cbn [with_inodes fs_inodes]. by rewrite (znth_zset _ _ _ _ i Hi), decide_True.
  - exists k, j. cbn [with_inodes fs_inodes]. by rewrite (znth_zset _ _ _ _ i Hi), decide_False.
Qed.

Lemma ex_file D : image_of ex_files D -> d_type (inodes D 2) = T_FILE /\ d_nlink (inodes D 2) = 1 /\ contents sb D 2 = [7; 9].
Proof. intros Him. exact (im_file _ _ Him 0%nat _ _ eq_refl). Qed.
Lemma ex_size D : image_of ex_files D -> d_size (inodes D 2) = 2.
Proof.
  intros Him. destruct (ex_file D Him) as (_ & _ & E). unfold contents in E. pose proof (fi_inode _ _ _ (im_consistent _ _ Him) 2 ltac:(rewrite the_superblock_eq; cbn; lia)) as [? ? ? ? ? ? ?].
  rewrite <- (fdata_length D); [|lia]. by rewrite E.
Qed.
Lemma ex_source : source_ok (FromUser 100) 4 [1; 2; 3; 4] ex_umem.
Proof.
  constructor; [done|by repeat constructor|]. split_and!; [|apply write_bytes_at|done|done]. apply flat_there_spec. vm_compute. reflexivity.
Qed.

Lemma ex_full D : image_of ex_files D -> full D (inodes D 2).
Proof.
  intros Him bn Hb0 Hb1. rewrite ex_size in Hb1 by done. assert (bn = 0) as -> by (consts; lia). destruct (ex_file D Him) as (_ & _ & E). unfold contents in E.
  pose proof (fdata_lookup D (inodes D 2) 0 ltac:(by rewrite ex_size)) as H. rewrite E, ex_size in H by done. injection H as H. intros E0. unfold fbyte, fblk in H.
  change (Z.of_nat 0 / BSIZE) with 0 in H. rewrite E0 in H. cbn [Z.eqb] in H. by rewrite nth_zblk in H.
Qed.
Lemma ex_room D n : room (meta_blocks sb n) 8 (with_ops 1 (view D)).
Proof. apply meta_room; [done|]. cbn [booted_view tv_nlog]. rewrite the_superblock_eq. done. Qed.
Lemma ex_map n : has_map sb (meta_blocks sb n).
Proof. apply meta_map. rewrite the_superblock_eq. done. Qed.

Lemma writei_readi_witness : exists D (s : fsst (lst bst) mem) ip i, image_of ex_files D /\ i_inum i = 2 /\
  wp (let! r := writei ip (FromUser 100) 2 4 in let! q := readi ip ToKernel 2 r in ret (r, q)) (fun rq s' => exists t' I', let r := rq.1 in
    fs_at s' t' I' /\ 0 <= r <= 4 /\ rq.2 = (r, take (Z.to_nat r) [1; 2; 3; 4]) /\ (r < 4 -> all_used (fs_sb s) (tv_cur t')) /\
    d_size (I' (i_inum i)) = Z.max (d_size (inodes D (i_inum i))) (2 + r) /\
    forall m, 0 <= m < sb_ninodes (fs_sb s) -> m <> i_inum i -> fdata (tv_cur t') (I' m) = fdata D (inodes D m)) s.
Proof.
  destruct (ex_locked 2) as (D & s & ip & i & Him & A & Esb & Eu & Hu & En & _); [lia|intros D Him; by rewrite (proj1 (ex_file D Him))|]. exists D, s, ip, i. split; [exact Him|]. split; [exact En|].
  apply (writei_readi (meta_blocks sb 2) ip i s (with_ops 1 (view D)) (inodes D) (FromUser 100) 2 4 [1; 2; 3; 4]); rewrite ?Esb, ?Eu, ?En; [exact A|exact Hu|reflexivity|apply ex_umem_ok| | |apply ex_source| | | | |lia|].
  - by rewrite (proj1 (ex_file D Him)).
  - by apply ex_full.
  - apply (room_weaken _ 8); [apply ex_room|]. change (span 2 4) with 1. lia.
  - apply ex_map.
  - unfold meta_blocks. set_solver.
  - rewrite ex_size by done. lia.
  - done.
Defined.

Lemma dirlink_dirlookup_witness : exists D (s : fsst (lst bst) mem) dp i, image_of ex_files D /\ i_inum i = ROOTINO /\
  let name := [97] ++ replicate 13 0 in let bound F (J : Z -> dinode) q := snd <$> lookup_name F (J (i_inum i)) q in
  wp (dirlink dp name 2) (fun r s' => exists t' I', fs_at s' t' I' /\ dir_ok (fs_sb s) (tv_cur t') (I' (i_inum i)) /\
    (r = 0 /\ bound D (inodes D) (entry_name name) = None /\
       (forall q, bound (tv_cur t') I' q = if decide (q = entry_name name) then Some 2 else bound D (inodes D) q) \/
     r = -1 /\ (bound D (inodes D) (entry_name name) <> None \/ all_used (fs_sb s) (tv_cur t')) /\ (forall q, bound (tv_cur t') I' q = bound D (inodes D) q))) s.
Proof.
  destruct (ex_locked ROOTINO) as (D & s & dp & i & Him & A & Esb & Eu & Hu & En & _ & _ & Hfree); [unfold ROOTINO; lia|intros D Him; by destruct (im_root _ _ Him) as [-> _]|].
  exists D, s, dp, i. split; [exact Him|]. split; [exact En|]. destruct (im_root _ _ Him) as (Ht & Hl & _).
  pose proof (root_tree ex_files D ex_files_ok ex_names_ok Him ltac:(vm_compute; done)) as Htree.
  apply (dirlink_dirlookup (meta_blocks sb ROOTINO) dp i ([97] ++ replicate 13 0) 2 s (with_ops 1 (view D)) (inodes D)); rewrite ?Esb, ?Eu, ?En; [exact A|exact Hu|reflexivity|apply ex_umem_ok| | | |exact Hfree| | | | | |].
  - apply (tr_dir _ _ _ Htree); [by rewrite the_superblock_eq|done|by rewrite Hl].
  - left. reflexivity.
  - by repeat constructor.
  - apply (room_weaken _ 8); [apply ex_room|lia].
  - apply ex_map.
  - unfold meta_blocks. set_solver.
  - rewrite the_superblock_eq. done.
  - lia.
  - rewrite (root_size ex_files D Him). vm_compute. done.
Defined.

Lemma namei_walks_witness : exists (s : fsst (lst bst) mem) c D, image_of ex_files D /\
  wp (namei (replicate 14 0) [47; 115; 104]) (fun r s' => fs_at s' (view D) (inodes D) /\ quiet (fs_inodes s') /\
    match walk D (inodes D) (start_of [47; 115; 104] c) (elements [47; 115; 104]) with
    | None => r = None /\ forall m, refs (fs_inodes s') m = refs (fs_inodes s) m
    | Some n => exists ip i, r = Some ip /\ znth (fs_inodes s') ip = Some i /\ i_inum i = n /\
        forall m, refs (fs_inodes s') m = refs (fs_inodes s) m + one (m =? n)
    end) s.
Proof.
  destruct ex_powered as (m1 & D & c & Hm & HD & Hp). pose proof (image_pw ex_files _ D HD (fk_count _ ex_files_ok) (mkfs_image_done ex_files ex_mk m1 ex_files_ok Hm)) as Him. clear Hm HD.
  destruct (proj1 (wp_Done _ _ _) (boot_ready ex_files D [] _ ex_files_ok ex_names_ok ltac:(done) Him Hp)) as ([] & s & _ & cwd & Hready & _). exists s, cwd, D. split; [exact Him|].
  apply (namei_walks [47; 115; 104] (replicate 14 0) s cwd (view D) (inodes D) Hready); [reflexivity|]. intros x Hx ->. repeat (apply elem_of_cons in Hx as [Hx|Hx]; [done|]). by apply elem_of_nil in Hx.
Defined.

(** The file without its link, held by one process. *)
Lemma ex_unlinked : exists (s : fsst (lst bst) mem) ip i t I, fs_at s t I /\ in_use (fs_inodes s) ip i /\ i_inum i = 2 /\ i_ref i = 1 /\ i_lock i = false /\
  d_nlink (I 2) = 0 /\ tv_held t = ∅ /\ fs_sb s = sb /\ room (meta_blocks sb 2) 0 t.
Proof.
  destruct (ex_locked 2) as (D & s & ip & i & Him & A & Esb & Eu & Hu & En & Hr & Hl & _); [lia|intros D Him; by rewrite (proj1 (ex_file D Him))|].
  pose proof (iu_at _ _ _ Hu) as Hi. set (f := fun d => mk_dinode (d_type d) (d_major d) (d_minor d) 0 (d_size d) (d_addrs d)).
  assert (H : wp ((mod_inode ip (fun i => set_d (f (i_d i)) i);; iupdate ip);; iunlock ip) (fun _ s' => exists i' t I, fs_at s' t I /\ in_use (fs_inodes s') ip i' /\ i_inum i' = 2 /\ i_ref i' = 1 /\
    i_lock i' = false /\ d_nlink (I 2) = 0 /\ tv_held t = ∅ /\ fs_sb s' = sb /\ room (meta_blocks sb 2) 0 t) s).
  { apply wp_bind. apply (inode_update_spec (meta_blocks sb 2) 0 ip i f s (with_ops 1 (view D)) (inodes D)); [exact A|exact Hu|reflexivity|by apply (room_weaken _ 8); [apply ex_room|]|rewrite Esb, En; left; unfold meta_blocks; set_solver| |].
    - constructor; [done|done|by intros []|]. intros Hty. cbn [f d_type] in Hty. rewrite En, (proj1 (ex_file D Him)) in Hty. done.
    - intros x t' n d s' A' Ev _ _. pose proof (in_use_set_d _ _ _ d Hu) as Hu1. apply (iunlock_spec s' t' (fput (inodes D) n d) ip (set_d d i)); [exact A'|exact Hu1|exact Hl|]. intros s2 A2.
      exists (set_lock false (set_d d i)), t', (fput (inodes D) n d). destruct (ev_fields _ _ _ _ Ev) as (_ & _ & Eh & _). split_and!; [exact A2| |exact En|exact Hr|done| |by rewrite Eh|exact Esb|].
      + constructor; [|cbn [set_lock set_d i_ref]; lia|apply Hu]. cbn [s2 with_inodes fs_inodes]. rewrite (znth_zset _ _ _ _ (set_d d i)); [by rewrite decide_True|apply Hu1].
      + unfold n. rewrite En, fput_eq. done.
      + apply (room_evolves _ 0 0 (with_ops 1 (view D))); [by apply (room_weaken _ 8); [apply ex_room|]|exact Ev|lia]. }
  apply wp_Done in H as ([] & s' & _ & i' & t & I & H). by exists s', ip, i', t, I.
Qed.

Lemma iput_frees_witness : exists (s : fsst (lst bst) mem) ip i t I, fs_at s t I /\ let n := i_inum i in
  wp (iput ip) (fun _ s' => exists t' I', fs_at s' t' I' /\ d_type (I' n) = 0 /\ disk_inode (fs_sb s) (tv_cur t') n = I' n /\
    (forall b, datastart (fs_sb s) <= b < sb_size (fs_sb s) -> used (fs_sb s) (tv_cur t') b = true <->
       used (fs_sb s) (tv_cur t) b = true /\ forall p, 0 <= p < NSLOT -> slot (tv_cur t) (I n) p <> b) /\
    forall m, 0 <= m < sb_ninodes (fs_sb s) -> m <> n -> I' m = I m /\ fdata (tv_cur t') (I' m) = fdata (tv_cur t) (I m)) s.
Proof.
  destruct ex_unlinked as (s & ip & i & t & I & A & Hu & En & Hr & Hl & Hnl & Hh & Esb & Hroom). exists s, ip, i, t, I. split; [exact A|].
  apply (iput_frees (meta_blocks sb 2) s t I ip i); rewrite ?Esb, ?En; [exact A|exact Hu|exact Hr|exact Hl|exact Hnl|exact Hh|exact Hroom|apply ex_map|]. unfold meta_blocks. set_solver.
Defined.

(** No pipes and no devices. *)
#[local] Instance no_streams : Streams unit mem := {|
  w_piperead _ _ _ := ret (-1); w_pipewrite _ _ _ := ret (-1); w_pipeclose _ _ := ret tt; w_newpipe := ret None; w_devread _ := None; w_devwrite _ := None;
|}.
Definition ex_open (ip : Z) : file := mk_file FD_INODE 1 true true 0 ip 2 0.

Lemma ex_opened : exists D (os : ost (lst bst) mem unit) ip i, image_of ex_files D /\ open_file 0 (ex_open ip) i os (view D) (inodes D) /\
  i_inum i = 2 /\ fs_user (o_fs os) = ex_umem /\ fs_sb (o_fs os) = sb.
Proof.
  destruct (ex_get 2) as (D & s & ip & i & Him & A & Esb & Eu & Hi & En & Hr & Hl & _); [lia|]. exists D, (mk_ost s tt [ex_open ip] []), ip, i. split; [exact Him|]. split; [|done].
  constructor; cbn [o_files o_fs]; rewrite ?Esb, ?Eu, ?En; [done|exact Hi|lia|done|exact A|by rewrite (proj1 (ex_file D Him))|apply ex_umem_ok|done|done|by rewrite the_superblock_eq|].
  cbn [booted_view tv_nlog]. by rewrite the_superblock_eq.
Qed.

Lemma ex_sound D : image_of ex_files D -> sound_run sb (view D).
Proof.
  intros Him. constructor; [by rewrite the_superblock_eq|apply (fi_super _ _ _ (im_consistent _ _ Him))|]. intros G ->%list_elem_of_singleton. apply (im_consistent _ _ Him).
Qed.

Lemma filewrite_crash_safe_witness : exists D (os : ost (lst bst) mem unit), image_of ex_files D /\
  wp (filewrite 0 100 4) (fun r os' => exists v, c_shows (l_cache (fs_tx (o_fs os'))) v /\
    forall k D', crashes (sb_nlog sb) (sb_logstart sb) (C := bst) (apply_writes D (take k (cv_writes v))) D' ->
    exists G, recovers (C := bst) (U := mem) sb D' G /\
      (G ∈ [D] \/ exists w, 0 <= w <= 4 /\ written sb 2 2 (take (Z.to_nat w) [1; 2; 3; 4]) D G) /\
      ((length (cv_writes v) <= k)%nat -> r = 4 -> written sb 2 2 [1; 2; 3; 4] D G)) os.
Proof.
  destruct ex_opened as (D & os & ip & i & Him & Of & En & Eu & Esb). exists D, os. split; [exact Him|].
  pose proof (filewrite_crash_safe 0 (ex_open ip) i 100 4 [1; 2; 3; 4] os (view D) (inodes D) Of) as H. rewrite En, Eu, Esb in H.
  apply H; [reflexivity|reflexivity|apply ex_source|rewrite ex_size by exact Him; cbn; lia|done|by apply ex_sound].
Defined.

Lemma write_chunk_fits_witness : exists D (os : ost (lst bst) mem unit) ip i, image_of ex_files D /\ open_file 0 (ex_open ip) i os (view D) (inodes D) /\
  wp (begin_op;; write_body 0 100 4) (fun r os1 => exists t1 I',
    0 <= lg_n (l_log (fs_tx (o_fs os1))) <= MAXOPBLOCKS /\ lg_outstanding (l_log (fs_tx (o_fs os1))) = 1 /\
    fs_at (o_fs os1) t1 I' /\ tv_hist t1 = tv_hist (view D) /\ tv_committed t1 = D /\
    0 <= r <= 4 /\ (r < 4 -> all_used sb (tv_cur t1)) /\ wrote sb (i_inum i) 2 (take (Z.to_nat r) [1; 2; 3; 4]) D (inodes D) (tv_cur t1) I' /\
    wp end_op (fun _ os2 => lg_n (l_log (fs_tx (o_fs os2))) = 0 /\ exists t2 i', open_file 0 (set_off (2 + r) (ex_open ip)) i' os2 t2 I' /\
      tv_hist t2 = tv_hist (view D) ++ [D] /\ tv_committed t2 = tv_cur t1 /\ tv_cur t2 = tv_cur t1) os1) os.
Proof.
  destruct ex_opened as (D & os & ip & i & Him & Of & En & Eu & Esb). exists D, os, ip, i. split; [exact Him|]. split; [exact Of|].
  pose proof (write_chunk_fits 0 (ex_open ip) i 100 4 [1; 2; 3; 4] os (view D) (inodes D) Of) as H. rewrite Eu, Esb in H.
  assert (Ho : 0 <= f_off (ex_open ip) <= d_size (inodes D (i_inum i))) by (rewrite En, ex_size by exact Him; cbn; lia).
  exact (H ex_source ltac:(clear; by vm_compute) Ho ltac:(done)).
Defined.

Lemma mkfs_boot_namei_witness : exists (D : blocks) (s : fsst (lst bst) mem), powered D s /\
  wp (boot_fs (replicate 14 0);; namei (replicate 14 0) (SLASH :: entry_of (shortname [117; 115; 101; 114; 47; 95; 115; 104])))
    (fun r s' => exists ip i t I, r = Some ip /\ fs_at s' t I /\ znth (fs_inodes s') ip = Some i /\ 0 < i_ref i /\ i_inum i = 2 + Z.of_nat 0 /\
      d_type (I (i_inum i)) = T_FILE /\ fdata (tv_cur t) (I (i_inum i)) = [7; 9]) s.
Proof.
  destruct ex_powered as (m1 & D & c & Hm & HD & Hp). exists D, (ex_state c). split; [exact Hp|].
  assert (Hmod : (Z.of_nat (length ex_files) + 2) mod 64 <> 0) by (clear; vm_compute; discriminate).
  exact (mkfs_boot_namei ex_files 0 _ ex_mk m1 D (replicate 14 0) (ex_state c) ex_files_ok ex_names_ok Hmod eq_refl Hm HD Hp eq_refl).
Defined.

Lemma mkfs_image_witness : wp (mkfs_main ex_files) (fun _ s' => image_of ex_files (m_img s')) ex_mk.
Proof. exact (mkfs_image ex_files ex_mk ex_files_ok). Defined.

(** Sixty-two empty files, named by one character each. *)
Definition many_files : list (list Z * list Z) := map (fun k => ([k], [])) (range 60 122).
Lemma many_files_ok : files_ok many_files.
Proof.
  constructor.
  - vm_compute. reflexivity.
  - intros f (k & -> & Hk%elem_of_range)%list_elem_of_fmap. cbn [fst]. split; [|repeat constructor; lia]. unfold shortname. rewrite decide_False by done. intros H%list_elem_of_singleton. lia.
  - intros f (k & -> & Hk)%list_elem_of_fmap. split; [constructor|done].
  - vm_compute. done.
Qed.
Lemma mkfs_root_hole_witness : wp (mkfs_main many_files) (fun _ s' => let d := disk_inode sb (m_img s') ROOTINO in
  exists bn, 0 <= bn /\ bn * BSIZE < d_size d /\ slot (m_img s') d (fslot bn) = 0) ex_mk.
Proof. exact (mkfs_root_hole many_files ex_mk many_files_ok eq_refl). Defined.
