(* ===== verification/SysFile.v ===== *)
(** * File system calls: kernel/sysfile.c

    The handlers of the calls on files, and [pipealloc] of kernel/pipe.c, on
    the open files of File.v and the file system of Fs.v.  The arguments of a
    call come from the interface [SysArgs], whose operations stand for [argint],
    [argaddr] and [argstr] of kernel/syscall.c (Syscall.v).

    A [char name[DIRSIZ]] or [char path[MAXPATH]] of a handler is on its stack:
    [junk] is what the name buffer holds before it is written.  A handler
    returns the value it leaves in register a0. *)

From stdpp Require Import base numbers list gmap strings.
From Stdlib Require Import ZArith Lia.
From S2P Require Import Prelude Blocks Monad State Locks Kalloc Codec Mem Strings Vm VmWalk VmSpace UserMem Syscall SysRaid Bio Log LogGroup Txn Fs File.
Open Scope Z_scope.

Definition NOFILE : Z := 16.
Definition MAXPATH : Z := 128.
Definition O_RDONLY : Z := 0.
Definition O_WRONLY : Z := 1.
Definition O_RDWR : Z := 2.
Definition O_CREATE : Z := 512.  (* 0x200 *)
Definition O_TRUNC : Z := 1024.  (* 0x400 *)

(** Arguments of a system call; [a_str n max] is the result of [argstr] and the
    bytes it stored. *)
Class SysArgs (U : Type) := {
  a_int : Z -> M U Z;
  a_addr : Z -> M U Z;
  a_str : Z -> Z -> M U (Z * list Z);
}.

(** The string in a buffer. *)
Definition cstr (buf : list Z) : list Z := take (Z.to_nat (buf_strlen buf)) buf.
(** The test [x & bit]. *)
Definition has_bit (x bit : Z) : bool := negb (Z.land x bit =? 0).

Section sysfile.
Context `{TX : Transactions T} `{UM : UserMemory U} `{ST : Streams W U} `{SA : SysArgs U}.
Variable junk : list Z.
Abbreviation OF := (M (ost T U W)).
Abbreviation FS := (M (fsst T U)).

Definition args {A} (m : M U A) : OF A := in_fs (Fs.in_user m).

(** ** Descriptors *)

Definition argfd (n : Z) : OF (option (Z * Z)) :=
  let! fd := args (a_int n) in
  if (fd <? 0) || (NOFILE <=? fd) then ret None
  else
    let! l := gets o_ofile in
    let! o := deref (znth l fd) in
    ret (match o with None => None | Some f => Some (fd, f) end).

Definition set_ofile (l : list (option Z)) : OF unit := modify (fun s => mk_ost (o_fs s) (o_streams s) (o_files s) l).
(** [p->ofile[fd] = o] *)
Definition put_fd (fd : Z) (o : option Z) : OF unit := let! l := gets o_ofile in let! x := deref (znth l fd) in set_ofile (zset l fd o).

Fixpoint unused_fd {A} (l : list (option A)) (k : Z) : option Z :=
  match l with
  | [] => None
  | None :: _ => Some k
  | Some _ :: l => unused_fd l (k + 1)
  end.
Definition fdalloc (f : Z) : OF Z :=
  let! l := gets o_ofile in
  match unused_fd l 0 with
  | None => ret (-1)
  | Some fd => put_fd fd (Some f);; ret fd
  end.

Definition sys_dup : OF Z :=
  let! a := argfd 0 in
  match a with
  | None => ret ERR
  | Some (_, f) =>
    let! fd := fdalloc f in
    if fd <? 0 then ret ERR else let! f := filedup f in ret fd
  end.

Definition sys_read : OF Z :=
  let! p := args (a_addr 1) in
  let! n := args (a_int 2) in
  let! a := argfd 0 in
  match a with
  | None => ret ERR
  | Some (_, f) => let! r := fileread f p n in ret (u64 r)
  end.

Definition sys_write : OF Z :=
  let! p := args (a_addr 1) in
  let! n := args (a_int 2) in
  let! a := argfd 0 in
  match a with
  | None => ret ERR
  | Some (_, f) => let! r := filewrite f p n in ret (u64 r)
  end.

Definition sys_close : OF Z :=
  let! a := argfd 0 in
  match a with
  | None => ret ERR
  | Some (fd, f) => put_fd fd None;; fileclose f;; ret 0
  end.

Definition sys_fstat (pad : list Z) : OF Z :=
  let! st := args (a_addr 1) in
  let! a := argfd 0 in
  match a with
  | None => ret ERR
  | Some (_, f) => let! r := filestat pad f st in ret (u64 r)
  end.

(** ** Links *)

Definition inc_nlink (d : dinode) : dinode := set_nlink (i16 (d_nlink d + 1)) d.
Definition dec_nlink (d : dinode) : dinode := set_nlink (i16 (d_nlink d - 1)) d.
Definition on_inode (ip : Z) (f : dinode -> dinode) : FS unit := mod_inode ip (fun i => set_d (f (i_d i)) i).

(** From [ip->nlink++] on. *)
Definition link_to (ip : Z) (new : list Z) : FS Z :=
  (on_inode ip inc_nlink;; iupdate ip);;
  iunlock ip;;
  let! d := nameiparent new junk in
  let! ok :=
    match d.1 with
    | None => ret false
    | Some dp =>
      ilock dp;;
      let! di := iat dp in
      let! ii := iat ip in
      let! r := (if negb (i_dev di =? i_dev ii) then ret (-1) else dirlink dp d.2 (i_inum ii)) in
      iunlockput dp;;
      ret (0 <=? r)
    end in
  if ok : bool then iput ip;; ret 0
  else
    ilock ip;;
    (on_inode ip dec_nlink;; iupdate ip);;
    iunlockput ip;;
    ret ERR.

Definition sys_link : OF Z :=
  let! old := args (a_str 0 MAXPATH) in
  if old.1 <? 0 then ret ERR
  else
    let! new := args (a_str 1 MAXPATH) in
    if new.1 <? 0 then ret ERR
    else
      begin_op;;
      let! r := in_fs (
        let! o := namei junk (cstr old.2) in
        match o with
        | None => ret ERR
        | Some ip =>
          ilock ip;;
          let! i := iat ip in
          if d_type (i_d i) =? T_DIR then iunlockput ip;; ret ERR else link_to ip (cstr new.2)
        end) in
      end_op;;
      ret r.

Fixpoint isdirempty_loop (dp : Z) (offs : list Z) : FS bool :=
  match offs with
  | [] => ret true
  | off :: offs =>
    let! de := read_dirent dp off "isdirempty: readi" in
    if negb (de_inum de =? 0) then ret false else isdirempty_loop dp offs
  end.
(** The entries after "." and "..". *)
Definition isdirempty (dp : Z) : FS bool :=
  let! i := iat dp in isdirempty_loop dp (drop 2 (offsets (d_size (i_d i)))).

Definition dot_name : list Z := [46; 0].
Definition dotdot_name : list Z := [46; 46; 0].

(** From [ip = dirlookup(dp, name, &off)] on, both locked. *)
Definition unlink_entry (dp ip off : Z) : FS Z :=
  let! i := iat ip in
  if d_nlink (i_d i) <? 1 then panic "unlink: nlink < 1"
  else
    let! busy := (if d_type (i_d i) =? T_DIR then let! e := isdirempty ip in ret (negb e) else ret false) in
    if busy : bool then iunlockput ip;; iunlockput dp;; ret ERR
    else
      let! w := writei dp (FromKernel (replicate (Z.to_nat DIRENT) 0)) off DIRENT in
      if negb (w =? DIRENT) then panic "unlink: writei"
      else
        let! i := iat ip in
        (if d_type (i_d i) =? T_DIR then on_inode dp dec_nlink;; iupdate dp else ret tt);;
        iunlockput dp;;
        (on_inode ip dec_nlink;; iupdate ip);;
        iunlockput ip;;
        ret 0.
Definition unlink_path (path : list Z) : FS Z :=
  let! d := nameiparent path junk in
  match d.1 with
  | None => ret ERR
  | Some dp =>
    ilock dp;;
    let! c1 := deref (namecmp d.2 dot_name) in
    let! c2 := deref (namecmp d.2 dotdot_name) in
    if (c1 =? 0) || (c2 =? 0) then iunlockput dp;; ret ERR
    else
      let! r := dirlookup dp d.2 in
      match r with
      | None => iunlockput dp;; ret ERR
      | Some (ip, off) => ilock ip;; unlink_entry dp ip off
      end
  end.
Definition sys_unlink : OF Z :=
  let! path := args (a_str 0 MAXPATH) in
  if path.1 <? 0 then ret ERR
  else
    begin_op;;
    let! r := in_fs (unlink_path (cstr path.2)) in
    end_op;;
    ret r.

(** ** Creating and opening *)

Definition new_fields (major minor : Z) (d : dinode) : dinode := mk_dinode (d_type d) major minor 1 (d_size d) (d_addrs d).

(** From [ilock(ip)] on, for the new inode [ip] in the locked directory [dp]. *)
Definition create_in (dp ip : Z) (name : list Z) (type major minor : Z) : FS (option Z) :=
  ilock ip;;
  (on_inode ip (new_fields major minor);; iupdate ip);;
  let! i := iat ip in
  let! d := iat dp in
  let! ok :=
    (if type =? T_DIR then
       let! r := dirlink ip dot_name (i_inum i) in
       if r <? 0 then ret false
       else let! r := dirlink ip dotdot_name (i_inum d) in ret (negb (r <? 0))
     else ret true) in
  let! ok := (if ok : bool then let! r := dirlink dp name (i_inum i) in ret (negb (r <? 0)) else ret false) in
  if ok : bool then
    (if type =? T_DIR then on_inode dp inc_nlink;; iupdate dp else ret tt);;
    iunlockput dp;;
    ret (Some ip)
  else
    (on_inode ip (set_nlink 0);; iupdate ip);;
    iunlockput ip;;
    iunlockput dp;;
    ret None.

Definition create (path : list Z) (type major minor : Z) : FS (option Z) :=
  let! d := nameiparent path junk in
  match d.1 with
  | None => ret None
  | Some dp =>
    ilock dp;;
    let! r := dirlookup dp d.2 in
    match r with
    | Some (ip, _) =>
      iunlockput dp;;
      ilock ip;;
      let! i := iat ip in
      if (type =? T_FILE) && ((d_type (i_d i) =? T_FILE) || (d_type (i_d i) =? T_DEVICE)) then ret (Some ip)
      else iunlockput ip;; ret None
    | None =>
      let! di := iat dp in
      let! a := ialloc (i_dev di) type in
      match a with
      | None => iunlockput dp;; ret None
      | Some ip => create_in dp ip d.2 type major minor
      end
    end
  end.

(** The inode that [sys_open] opens, locked. *)
Definition open_inode (path : list Z) (omode : Z) : FS (option Z) :=
  let! o :=
    (if has_bit omode O_CREATE then create path T_FILE 0 0
     else
       let! o := namei junk path in
       match o with
       | None => ret None
       | Some ip =>
         ilock ip;;
         let! i := iat ip in
         if (d_type (i_d i) =? T_DIR) && negb (omode =? O_RDONLY) then iunlockput ip;; ret None else ret (Some ip)
       end) in
  match o with
  | None => ret None
  | Some ip =>
    let! i := iat ip in
    if (d_type (i_d i) =? T_DEVICE) && ((d_major (i_d i) <? 0) || (NDEV <=? d_major (i_d i))) then iunlockput ip;; ret None
    else ret (Some ip)
  end.

Definition open_as (ip omode : Z) (i : inode) (f : file) : file :=
  if d_type (i_d i) =? T_DEVICE then
    mk_file FD_DEVICE (f_ref f) (negb (has_bit omode O_WRONLY)) (has_bit omode O_WRONLY || has_bit omode O_RDWR) (f_pipe f) ip (f_off f) (d_major (i_d i))
  else
    mk_file FD_INODE (f_ref f) (negb (has_bit omode O_WRONLY)) (has_bit omode O_WRONLY || has_bit omode O_RDWR) (f_pipe f) ip 0 (f_major f).

(** A file and a descriptor for it. *)
Definition alloc_fd : OF (option (Z * Z)) :=
  let! o := filealloc in
  match o with
  | None => ret None
  | Some f =>
    let! fd := fdalloc f in
    if fd <? 0 then fileclose f;; ret None else ret (Some (f, fd))
  end.

Definition sys_open : OF Z :=
  let! omode := args (a_int 1) in
  let! path := args (a_str 0 MAXPATH) in
  if path.1 <? 0 then ret ERR
  else
    begin_op;;
    let! o := in_fs (open_inode (cstr path.2) omode) in
    match o with
    | None => end_op;; ret ERR
    | Some ip =>
      let! a := alloc_fd in
      match a with
      | None => in_fs (iunlockput ip);; end_op;; ret ERR
      | Some (f, fd) =>
        let! i := in_fs (iat ip) in
        mod_file f (open_as ip omode i);;
        (if has_bit omode O_TRUNC && (d_type (i_d i) =? T_FILE) then in_fs (itrunc ip) else ret tt);;
        in_fs (iunlock ip);;
        end_op;;
        ret fd
      end
    end.

(** [create], the inode of which is not kept. *)
Definition make_node (type major minor : Z) : OF Z :=
  let! path := args (a_str 0 MAXPATH) in
  if path.1 <? 0 then end_op;; ret ERR
  else
    let! o := in_fs (create (cstr path.2) type major minor) in
    match o with
    | None => end_op;; ret ERR
    | Some ip => in_fs (iunlockput ip);; end_op;; ret 0
    end.
Definition sys_mkdir : OF Z := begin_op;; make_node T_DIR 0 0.
Definition sys_mknod : OF Z :=
  begin_op;;
  let! major := args (a_int 1) in
  let! minor := args (a_int 2) in
  make_node T_DEVICE (i16 major) (i16 minor).

Definition set_cwd (ip : Z) : FS unit := modify (fun s => mk_fsst (fs_tx s) (fs_user s) (fs_sb s) (fs_inodes s) ip).
Definition sys_chdir : OF Z :=
  begin_op;;
  let! path := args (a_str 0 MAXPATH) in
  let! o := (if path.1 <? 0 then ret None else in_fs (namei junk (cstr path.2))) in
  match o with
  | None => end_op;; ret ERR
  | Some ip =>
    in_fs (ilock ip);;
    let! i := in_fs (iat ip) in
    if negb (d_type (i_d i) =? T_DIR) then in_fs (iunlockput ip);; end_op;; ret ERR
    else
      in_fs (iunlock ip);;
      let! cwd := in_fs (gets fs_cwd) in
      in_fs (iput cwd);;
      end_op;;
      in_fs (set_cwd ip);;
      ret 0
  end.

(** ** Pipes *)

Definition pipe_end (pi : Z) (writable : bool) (f : file) : file :=
  mk_file FD_PIPE (f_ref f) (negb writable) writable pi (f_ip f) (f_off f) (f_major f).
Definition close_opt (o : option Z) : OF unit := match o with None => ret tt | Some f => fileclose f end.

Definition pipealloc : OF (option (Z * Z)) :=
  let! f0 := filealloc in
  match f0 with
  | None => ret None
  | Some r =>
    let! f1 := filealloc in
    match f1 with
    | None => close_opt f0;; ret None
    | Some w =>
      let! o := in_streams w_newpipe in
      match o with
      | None => close_opt f0;; close_opt f1;; ret None
      | Some pi => mod_file r (pipe_end pi false);; mod_file w (pipe_end pi true);; ret (Some (r, w))
      end
    end
  end.

Definition sys_pipe : OF Z :=
  let! fdarray := args (a_addr 0) in
  let! p := pipealloc in
  match p with
  | None => ret ERR
  | Some (rf, wf) =>
    let! fd0 := fdalloc rf in
    let! fd1 := (if fd0 <? 0 then ret (-1) else fdalloc wf) in
    if (fd0 <? 0) || (fd1 <? 0) then
      (if 0 <=? fd0 then put_fd fd0 None else ret tt);;
      fileclose rf;; fileclose wf;; ret ERR
    else
      let! c0 := args (um_copyout fdarray (le_bytes 4 fd0)) in
      let! c1 := (if c0 <? 0 then ret (-1) else args (um_copyout (u64 (fdarray + 4)) (le_bytes 4 fd1))) in
      if (c0 <? 0) || (c1 <? 0) then
        put_fd fd0 None;; put_fd fd1 None;;
        fileclose rf;; fileclose wf;; ret ERR
      else ret 0
  end.
End sysfile.

Lemma unused_fd_at {A} (l : list (option A)) : forall k fd, unused_fd l k = Some fd -> k <= fd /\ znth l (fd - k) = Some None.
Proof.
  induction l as [|[y|] l IH]; intros k fd; cbn [unused_fd]; [done| |].
  - intros H. destruct (IH _ _ H) as (Hk & Hx). split; [lia|]. rewrite znth_cons. destruct (Z.eqb_spec (fd - k) 0); [lia|].
    by replace (fd - k - 1) with (fd - (k + 1)) by lia.
  - intros [= <-]. split; [lia|]. by replace (k - k) with 0 by lia.
Qed.
