(* ===== verification/SysCreate.v ===== *)
(** * Creating a file: [create] and [sys_open]

    [create] of a file or device adds one binding to one directory and one empty
    inode, or changes nothing; [open] with [O_CREATE] makes this one
    transaction and returns a descriptor. *)

From stdpp Require Import base numbers list gmap strings.
From Stdlib Require Import ZArith Lia.
From S2P Require Import Prelude Blocks Monad Codec Mem UserMem Bio BioCache Log LogCrash LogGroup Txn Fs FsImage FsInv FsAlloc FsRead FsWritei FsTrunc FsInode FsDir FsNamex File FileWrite SysFile.
Open Scope Z_scope.

(** ** Files that stay as they are *)

Record kept (sb : superblock) (F : blocks) (I : Z -> dinode) (F' : blocks) (I' : Z -> dinode) (j : Z) : Prop := {
  kp_inode : I' j = I j;
  kp_blk : forall bn, 0 <= bn < MAXFILE -> fblk F' (I j) bn = fblk F (I j) bn;
  kp_slot : forall p, place sb j p -> slot F (I j) p <> 0 -> slot F' (I j) p = slot F (I j) p;
  kp_disk : disk_inode sb F' j = disk_inode sb F j;
}.

Section kept.
Context (sb : superblock).
Implicit Types (F : blocks) (I : Z -> dinode).

Lemma file_kept_trans F I F1 I1 F2 I2 j : kept sb F I F1 I1 j -> kept sb F1 I1 F2 I2 j -> kept sb F I F2 I2 j.
Proof.
  intros [A1 A2 A3 A4] [B1 B2 B3 B4]. rewrite A1 in *. constructor; [done| | |by rewrite B4].
  - intros bn Hb. by rewrite B2, A2.
  - intros p Hp H0. rewrite B3; [by apply A3|done|]. by rewrite A3.
Qed.
Lemma kept_others n F I F' I' j : others_same sb n F I F' I' -> j <> n -> 0 <= j < sb_ninodes sb -> kept sb F I F' I' j.
Proof.
  intros O Hj Hr. constructor; [by apply O|intros; by apply O|intros p Hp _; by apply O|by apply O].
Qed.
Lemma kept_wrote n off data F I F' I' j : wrote sb n off data F I F' I' -> j <> n -> 0 <= j < sb_ninodes sb -> kept sb F I F' I' j.
Proof.
  intros W Hj Hr. pose proof (wr_others _ _ _ _ _ _ _ _ W j Hj) as E.
  constructor; [done|intros; by apply W| |by apply W]. intros p Hp H0. rewrite <- E at 1. by apply W.
Qed.

(** No block becomes free when a file without blocks changes. *)
Lemma all_used_others n F I F' I' : fs_inv sb F I -> fs_inv sb F' I' -> others_same sb n F I F' I' -> (forall p, daddr (I n) p = 0) -> all_used sb F -> all_used sb F'.
Proof.
  intros Inv [_ _ _ _ _ [G1 _ G3 _] _] O H0 Ha b Hb. destruct (Z.lt_ge_cases b (datastart sb)) as [Hlt|Hge]; [apply G3; lia|].
  pose proof (inv_order _ _ _ Inv) as Hord. destruct Inv as [_ _ _ _ _ [_ _ _ H4] _].
  destruct (H4 b ltac:(lia) (Ha b Hb)) as (j & p & Hp & E). destruct (decide (j = n)) as [->|Hj].
  - unfold slot in E. rewrite !H0 in E. cbn [Z.eqb] in E. destruct (p <? 13); lia.
  - rewrite <- (os_slot _ _ _ _ _ _ O), <- (os_inode _ _ _ _ _ _ O) in E by done. rewrite <- E. apply G1; [done|]. lia.
Qed.

Lemma kept_bytes F I F' I' j off m : kept sb F I F' I' j -> 0 <= off -> off + m <= MAXFILE * BSIZE -> fbytes F' (I' j) off m = fbytes F (I j) off m.
Proof. intros [-> Hb _ _] Ho Hm. apply fbytes_ext. intros x Hx. apply fbyte_blk, Hb, file_block. lia. Qed.
Lemma kept_data F I F' I' j : kept sb F I F' I' j -> d_size (I j) <= MAXFILE * BSIZE -> fdata F' (I' j) = fdata F (I j).
Proof. intros K Hs. unfold fdata. rewrite (kept_bytes F I F' I') by (try done; rewrite (kp_inode _ _ _ _ _ _ K); lia). by rewrite (kp_inode _ _ _ _ _ _ K). Qed.

Lemma kept_entries F I F' I' j : kept sb F I F' I' j -> entries (I' j) = entries (I j).
Proof. intros K. by rewrite (kp_inode _ _ _ _ _ _ K). Qed.
Lemma kept_entry F I F' I' j k : kept sb F I F' I' j -> d_size (I j) <= MAXFILE * BSIZE -> 0 <= k < entries (I j) -> entry F' (I' j) k = entry F (I j) k.
Proof.
  intros K Hs Hk. unfold entry, dirent_at. pose proof (Z.mul_div_le (d_size (I j)) DIRENT ltac:(done)). unfold entries, DIRENT in *.
  by rewrite (kept_bytes F I F' I') by (try done; lia).
Qed.
Lemma kept_lookup F I F' I' j nm : kept sb F I F' I' j -> d_size (I j) <= MAXFILE * BSIZE -> lookup_name F' (I' j) nm = lookup_name F (I j) nm.
Proof.
  intros K Hs. unfold lookup_name. rewrite (kept_entries F I F' I') by done. apply find_entry_ext. intros k Hk%elem_of_range. by apply kept_entry.
Qed.
Lemma kept_dir_ok F I F' I' j : kept sb F I F' I' j -> 0 <= j < sb_ninodes sb -> d_size (I j) <= MAXFILE * BSIZE -> dir_ok sb F (I j) -> dir_ok sb F' (I' j).
Proof.
  intros K Hj Hs [H1 H2 H3 H4]. pose proof (kp_inode _ _ _ _ _ _ K) as E. constructor.
  - by rewrite E.
  - rewrite E. intros bn Hb Hlt. rewrite (kp_slot _ _ _ _ _ _ K); [by apply H2| |by apply H2]. apply fslot_place; [done|]. unfold BSIZE in *. lia.
  - by rewrite E.
  - intros k Hk. rewrite (kept_entries F I F' I') in Hk by done. rewrite (kept_entry F I F' I') by done. by apply H4.
Qed.

(** One directory and one inode that no name leads to change. *)
Record stepped (pd m : Z) (nm : list Z) F I F' I' : Prop := {
  sp_others : forall j, 0 <= j < sb_ninodes sb -> j <> pd -> j <> m -> kept sb F I F' I' j;
  sp_free : d_type (I m) = 0;
  sp_nodir : d_type (I' m) <> T_DIR;
  sp_dir : dir_ok sb F' (I' pd);
  sp_link : d_nlink (I' pd) = d_nlink (I pd);
  sp_entry : forall j, 0 <= j < entries (I' pd) -> (entry F' (I' pd) j = (m, nm) /\ d_type (I' m) <> 0 /\ d_nlink (I' m) <> 0) \/
    (j < entries (I pd) /\ entry F' (I' pd) j = entry F (I pd) j);
  sp_disk : disk_inode sb F' pd = I' pd /\ disk_inode sb F' m = I' m;
}.

Lemma stepped_tree pd m nm F I F' I' : tree_ok sb F I -> (forall j, 0 <= j < sb_ninodes sb -> d_size (I j) <= MAXFILE * BSIZE) ->
  (forall n k, 0 <= n < sb_ninodes sb -> 0 <= k < entries (I n) -> 0 <= (entry F (I n) k).1) ->
  0 <= pd < sb_ninodes sb -> 0 <= m < sb_ninodes sb -> d_type (I pd) = T_DIR -> d_nlink (I pd) <> 0 -> stepped pd m nm F I F' I' -> tree_ok sb F' I'.
Proof.
  intros [T1 T2 T3] Hsz Hpos Hpd Hm Hty Hnl [S1 S2 S3 S4 S5 S6 [S7 S8]].
  assert (Hpm : pd <> m) by (intros ->; rewrite S2 in Hty; done).
  assert (Hold : forall n k, 0 <= n < sb_ninodes sb -> d_type (I n) = T_DIR -> d_nlink (I n) <> 0 -> 0 <= k < entries (I n) -> (entry F (I n) k).1 <> 0 ->
    d_type (I' (entry F (I n) k).1) <> 0 /\ d_nlink (I' (entry F (I n) k).1) <> 0).
  { intros n k Hn Ht Hl Hk H0. destruct (T2 n k Hn Ht Hl Hk H0) as [A1 A2]. set (x := (entry F (I n) k).1) in *.
    assert (Hx : 0 <= x < sb_ninodes sb) by (split; [by apply Hpos|by apply (dr_inum _ _ _ (T1 n Hn Ht Hl))]).
    destruct (decide (x = pd)) as [E|Hxp]; [rewrite E, (dr_type _ _ _ S4), S5; done|].
    rewrite (kp_inode _ _ _ _ _ _ (S1 x Hx Hxp ltac:(congruence))). done. }
  assert (Hcase : forall n, 0 <= n < sb_ninodes sb -> d_type (I' n) = T_DIR -> d_nlink (I' n) <> 0 -> n = pd \/
    (kept sb F I F' I' n /\ d_type (I n) = T_DIR /\ d_nlink (I n) <> 0)).
  { intros n Hn Ht Hl. destruct (decide (n = pd)) as [->|Hnp]; [by left|right]. destruct (decide (n = m)) as [->|Hnm]; [done|].
    pose proof (S1 n Hn Hnp Hnm) as K. rewrite (kp_inode _ _ _ _ _ _ K) in Ht, Hl. done. }
  constructor.
  - intros n Hn Ht Hl. destruct (Hcase n Hn Ht Hl) as [->|(K & Ht' & Hl')]; [done|]. apply (kept_dir_ok F I); auto.
  - intros n k Hn Ht Hl Hk H0. destruct (Hcase n Hn Ht Hl) as [->|(K & Ht' & Hl')].
    + destruct (S6 k Hk) as [(E & H1 & H2)|[Hlt E]]; [by rewrite E|]. rewrite E in *. apply Hold; try done. lia.
    + rewrite (kept_entries F I F' I') in Hk by done. rewrite (kept_entry F I F' I') in * by auto. by apply Hold.
  - intros n Hn. destruct (decide (n = pd)) as [->|Hnp]; [done|]. destruct (decide (n = m)) as [->|Hnm]; [done|].
    destruct (S1 n Hn Hnp Hnm) as [-> _ _ ->]. by apply T3.
Qed.

(** What a name in a directory leads to. *)
Lemma lookup_target F I n q k x : tree_ok sb F I -> (forall n k, 0 <= n < sb_ninodes sb -> 0 <= k < entries (I n) -> 0 <= (entry F (I n) k).1) ->
  0 <= n < sb_ninodes sb -> d_type (I n) = T_DIR -> d_nlink (I n) <> 0 -> lookup_name F (I n) q = Some (k, x) ->
  0 <= x < sb_ninodes sb /\ d_type (I x) <> 0 /\ d_nlink (I x) <> 0.
Proof.
  intros Tr Hpos Hn Ht Hl (Hk%elem_of_range & H0 & E)%find_entry_some. pose proof (Hpos n k Hn Hk) as Hp.
  pose proof (dr_inum _ _ _ (tr_dir _ _ _ Tr n Hn Ht Hl) k Hk) as Hr. destruct (tr_target _ _ _ Tr n k Hn Ht Hl Hk) as [A B]; [by rewrite E|].
  rewrite E in *. done.
Qed.

(** Where a name led, it still leads. *)
Lemma walk_parent_grows F I F' I' pd nm : tree_ok sb F I -> (forall n k, 0 <= n < sb_ninodes sb -> 0 <= k < entries (I n) -> 0 <= (entry F (I n) k).1) ->
  (forall n, 0 <= n < sb_ninodes sb -> d_type (I n) = T_DIR -> d_type (I' n) = T_DIR /\
    forall q k x, lookup_name F (I n) q = Some (k, x) -> exists k', lookup_name F' (I' n) q = Some (k', x)) ->
  forall es n, 0 <= n < sb_ninodes sb -> d_nlink (I n) <> 0 -> walk_parent F I n es = Some (pd, nm) -> walk_parent F' I' n es = Some (pd, nm).
Proof.
  intros Tr Hpos Hl. induction es as [|e es IH]; intros n Hn Hnl; [done|]. cbn [walk_parent]. destruct (Z.eqb_spec (d_type (I n)) T_DIR) as [E|]; [|done].
  destruct (Hl n Hn E) as [-> Hlk]. change (T_DIR =? T_DIR) with true. cbv iota. destruct es as [|e' es]; [done|].
  destruct (lookup_name F (I n) (take (Z.to_nat DIRSIZ) e)) as [[k x]|] eqn:El; [|done]. destruct (Hlk _ _ _ El) as [k' ->].
  destruct (lookup_target _ _ _ _ _ _ Tr Hpos Hn E Hnl El) as (Hx & _ & Hxl). by apply IH.
Qed.
Lemma walk_grows F I F' I' : tree_ok sb F I -> (forall n k, 0 <= n < sb_ninodes sb -> 0 <= k < entries (I n) -> 0 <= (entry F (I n) k).1) ->
  (forall n, 0 <= n < sb_ninodes sb -> d_type (I n) = T_DIR -> d_type (I' n) = T_DIR /\
    forall q k x, lookup_name F (I n) q = Some (k, x) -> exists k', lookup_name F' (I' n) q = Some (k', x)) ->
  forall es n m, 0 <= n < sb_ninodes sb -> d_nlink (I n) <> 0 -> walk F I n es = Some m -> walk F' I' n es = Some m.
Proof.
  intros Tr Hpos Hl. induction es as [|e es IH]; intros n m Hn Hnl; [done|]. cbn [walk]. destruct (Z.eqb_spec (d_type (I n)) T_DIR) as [E|]; [|done].
  destruct (Hl n Hn E) as [-> Hlk]. change (T_DIR =? T_DIR) with true. cbv iota.
  destruct (lookup_name F (I n) (take (Z.to_nat DIRSIZ) e)) as [[k x]|] eqn:El; [|done]. destruct (Hlk _ _ _ El) as [k' ->].
  destruct (lookup_target _ _ _ _ _ _ Tr Hpos Hn E Hnl El) as (Hx & _ & Hxl). by apply IH.
Qed.
Lemma walk_same F I F' I' : tree_ok sb F I -> (forall n k, 0 <= n < sb_ninodes sb -> 0 <= k < entries (I n) -> 0 <= (entry F (I n) k).1) ->
  (forall n, 0 <= n < sb_ninodes sb -> d_type (I n) <> 0 -> d_type (I' n) = d_type (I n) /\
    (d_type (I n) = T_DIR -> forall q, lookup_name F' (I' n) q = lookup_name F (I n) q)) ->
  forall es n, 0 <= n < sb_ninodes sb -> d_type (I n) <> 0 -> d_nlink (I n) <> 0 -> walk F' I' n es = walk F I n es.
Proof.
  intros Tr Hpos Hl. induction es as [|e es IH]; intros n Hn Hty Hnl; [done|]. cbn [walk]. destruct (Hl n Hn Hty) as [-> Hlk].
  destruct (Z.eqb_spec (d_type (I n)) T_DIR) as [E|]; [|done]. rewrite Hlk by done.
  destruct (lookup_name F (I n) (take (Z.to_nat DIRSIZ) e)) as [[k x]|] eqn:El; [|done].
  destruct (lookup_target _ _ _ _ _ _ Tr Hpos Hn E Hnl El) as (Hx & Hxt & Hxl). by apply IH.
Qed.
Lemma stepped_lookup pd m nm F I F' I' n : stepped pd m nm F I F' I' -> 0 <= n < sb_ninodes sb -> d_size (I n) <= MAXFILE * BSIZE -> d_type (I pd) = T_DIR -> d_type (I n) <> 0 ->
  d_type (I' n) = d_type (I n) /\ (n <> pd -> forall q, lookup_name F' (I' n) q = lookup_name F (I n) q).
Proof.
  intros S Hn Hs Hpd Hty. destruct (decide (n = pd)) as [->|Hne]; [split; [|done]; by rewrite Hpd, (dr_type _ _ _ (sp_dir _ _ _ _ _ _ _ S))|].
  assert (Hnm : n <> m) by (intros ->; by rewrite (sp_free _ _ _ _ _ _ _ S) in Hty). pose proof (sp_others _ _ _ _ _ _ _ S n Hn Hne Hnm) as K.
  split; [by rewrite (kp_inode _ _ _ _ _ _ K)|]. intros _ q. by apply kept_lookup.
Qed.
Lemma walk_parent_dir F I pd nm : tree_ok sb F I -> (forall n k, 0 <= n < sb_ninodes sb -> 0 <= k < entries (I n) -> 0 <= (entry F (I n) k).1) ->
  forall es n, 0 <= n < sb_ninodes sb -> d_nlink (I n) <> 0 -> walk_parent F I n es = Some (pd, nm) -> 0 <= pd < sb_ninodes sb /\ d_type (I pd) = T_DIR /\ d_nlink (I pd) <> 0.
Proof.
  intros Tr Hpos. induction es as [|e es IH]; intros n Hn Hnl; [done|]. cbn [walk_parent]. destruct (Z.eqb_spec (d_type (I n)) T_DIR) as [E|]; [|done].
  destruct es as [|e' es]; [by intros [= <- <-]|]. destruct (lookup_name F (I n) (take (Z.to_nat DIRSIZ) e)) as [[k x]|] eqn:El; [|done].
  destruct (lookup_target _ _ _ _ _ _ Tr Hpos Hn E Hnl El) as (Hx & _ & Hxl). by apply IH.
Qed.
Lemma walk_of_parent F I pd nm : forall es n, walk_parent F I n es = Some (pd, nm) -> walk F I n es = snd <$> lookup_name F (I pd) nm.
Proof.
  induction es as [|e es IH]; intros n; [done|]. cbn [walk_parent walk]. destruct (d_type (I n) =? T_DIR); [|done]. destruct es as [|e' es].
  - intros [= -> ->]. cbn [walk]. by destruct (lookup_name F (I pd) nm) as [[k x]|].
  - destruct (lookup_name F (I n) _) as [[k x]|]; [|done]. apply IH.
Qed.

(** A new name [nm] in [pd] for [m], which is no directory: the paths that end in
    this name lead to [m], and every other path leads where it led, or nowhere. *)
Lemma walk_exact F I F' I' pd nm m : tree_ok sb F I -> (forall n k, 0 <= n < sb_ninodes sb -> 0 <= k < entries (I n) -> 0 <= (entry F (I n) k).1) ->
  (forall n, 0 <= n < sb_ninodes sb -> d_type (I n) <> 0 -> d_type (I' n) = d_type (I n) /\
    (d_type (I n) = T_DIR -> forall q, snd <$> lookup_name F' (I' n) q = if decide (n = pd /\ q = nm) then Some m else snd <$> lookup_name F (I n) q)) ->
  lookup_name F (I pd) nm = None -> d_type (I' m) <> T_DIR ->
  forall es n, 0 <= n < sb_ninodes sb -> d_type (I n) <> 0 -> d_nlink (I n) <> 0 ->
    walk F' I' n es = if decide (walk_parent F I n es = Some (pd, nm)) then Some m else walk F I n es.
Proof.
  intros Tr Hpos Hl Hno Hm. induction es as [|e es IH]; intros n Hn Hty Hnl; [done|]. cbn [walk walk_parent]. destruct (Hl n Hn Hty) as [-> Hlk].
  destruct (Z.eqb_spec (d_type (I n)) T_DIR) as [E|]; [|done]. specialize (Hlk E (take (Z.to_nat DIRSIZ) e)). set (nm' := take (Z.to_nat DIRSIZ) e) in *.
  destruct (decide (n = pd /\ nm' = nm)) as [[-> Enm]|Hne].
  - rewrite Enm in *. rewrite Hno. destruct (lookup_name F' (I' pd) nm) as [[k' x']|]; [|done]. injection Hlk as ->. destruct es as [|e' es]; [by rewrite decide_True|].
    cbn [walk]. by destruct (Z.eqb_spec (d_type (I' m)) T_DIR).
  - destruct (lookup_name F (I n) nm') as [[k x]|] eqn:El; destruct (lookup_name F' (I' n) nm') as [[k' x']|]; try done.
    + injection Hlk as ->. destruct es as [|e' es]; [rewrite decide_False; [done|]; intros [= -> ->]; by apply Hne|].
      destruct (lookup_target _ _ _ _ _ _ Tr Hpos Hn E Hnl El) as (Hx & Hxt & Hxl). by apply IH.
    + destruct es; [|done]. rewrite decide_False; [done|]. intros [= -> ->]; by apply Hne.
Qed.
End kept.

(** ** Room in the transaction *)

Lemma room_grow B k t b : room B (k + 1) t -> 0 <= k -> room ({[b]} ∪ B) k t.
Proof.
  intros [H1 H2 H3] Hk. constructor; [done|done|].
  assert (cost ({[b]} ∪ B) t <= cost B t) by (unfold cost; apply inj_le, subseteq_size; set_solver).
  assert (size ({[b]} ∪ B) <= size B + 1)%nat.
  { pose proof (size_union_alt ({[b]} : gset Z) B) as E. rewrite E, size_singleton. pose proof (subseteq_size (B ∖ {[b]}) B ltac:(set_solver)). lia. }
  lia.
Qed.
Lemma has_map_grow sb B b : has_map sb B -> has_map sb ({[b]} ∪ B).
Proof. intros H x Hx. specialize (H x Hx). set_solver. Qed.

(** ** The name that [nameiparent] leaves in the buffer *)

Lemma splice_bytes x off l : Forall is_byte x -> Forall is_byte l -> Forall is_byte (splice x off l).
Proof. intros Hx Hl. unfold splice. apply Forall_app; split; [by apply Forall_take|]. apply Forall_app; split; [done|by apply Forall_drop]. Qed.
Lemma skip_slashes_bytes p : Forall is_byte p -> Forall is_byte (skip_slashes p).
Proof. rewrite !Forall_forall. intros H x Hx. by apply H, skip_in. Qed.
Lemma skipelem_bytes path name path' name' : Forall is_byte path -> Forall is_byte name -> skipelem path name = Some (path', name') ->
  Forall is_byte path' /\ Forall is_byte name'.
Proof.
  intros Hp Hn. unfold skipelem. apply skip_slashes_bytes in Hp. destruct (skip_slashes path) as [|c p]; [done|].
  pose proof (elem_of_path_in (c :: p)) as Hin. pose proof (skip_rest_in (c :: p)) as Hr. destruct (elem_of_path (c :: p)) as [s rest]. cbn [fst snd] in *.
  intros [= <- <-]. assert (Hs : Forall is_byte s) by (rewrite Forall_forall in *; intros x Hx; by apply Hp, Hin).
  split; [rewrite Forall_forall in *; intros x Hx; by apply Hp, Hr|]. destruct (DIRSIZ <=? _); [by apply Forall_take|].
  apply splice_bytes; [done|]. apply Forall_app; split; [done|]. constructor; [done|constructor].
Qed.

Lemma bind_done {S A B} (m : M S A) (k : A -> M S B) (s : S) b s' : bind m k s = Done b s' -> exists a s1, m s = Done a s1 /\ k a s1 = Done b s'.
Proof. unfold bind. destruct (m s) as [a s1| | |]; try done. eauto. Qed.
Lemma wp_and {S A} (m : M S A) (Q R : A -> S -> Prop) s : wp m Q s -> (forall a s', m s = Done a s' -> R a s') -> wp m (fun a s' => Q a s' /\ R a s') s.
Proof. unfold wp. destruct (m s); auto. Qed.

Section create.
Context {T U : Type} {TX : Transactions T} {TXok : TransactionsOK T} {UM : UserMemory U} {UMok : UserMemoryOK U}.
Abbreviation fss := (fsst T U).
Implicit Types (s : fss) (t : tview) (I : Z -> dinode).

Lemma namex_loop_bytes fuel : forall ip path parent name s r s', Forall is_byte path -> Forall is_byte name ->
  namex_loop (T := T) (U := U) fuel ip path parent name s = Done r s' -> Forall is_byte r.2.
Proof.
  induction fuel as [|fuel IH]; intros ip path parent name s r s' Hp Hn; [done|]. cbn [namex_loop].
  destruct (skipelem path name) as [[path' name']|] eqn:E.
  - destruct (skipelem_bytes _ _ _ _ Hp Hn E) as [Hp' Hn'].
    intros ([] & s1 & _ & H)%bind_done. apply bind_done in H as (i & s2 & _ & H). destruct (negb _).
    { apply bind_done in H as ([] & s3 & _ & H). by injection H as <- <-. }
    destruct (parent && _). { apply bind_done in H as ([] & s3 & _ & H). by injection H as <- <-. }
    apply bind_done in H as ([[next off]|] & s3 & _ & H); apply bind_done in H as ([] & s4 & _ & H); [exact (IH _ _ _ _ _ _ _ Hp' Hn' H)|by injection H as <- <-].
  - destruct parent; [|by intros [= <- <-]]. intros ([] & s1 & _ & H)%bind_done. by injection H as <- <-.
Qed.
Lemma nameiparent_bytes path name s r s' : Forall is_byte path -> Forall is_byte name -> nameiparent (T := T) (U := U) path name s = Done r s' -> Forall is_byte r.2.
Proof.
  intros Hp Hn H. unfold nameiparent, namex in H. apply bind_done in H as (cwd & s1 & _ & H). apply bind_done in H as (ip & s2 & _ & H).
  exact (namex_loop_bytes _ _ _ _ _ _ _ _ Hp Hn H).
Qed.

(** The state of the transaction apart from the contents. *)
Definition same_tx t t' : Prop := exists l F, t' = with_logged l (with_cur F t).
Lemma same_tx_refl t : same_tx t t.
Proof. exists (tv_logged t), (tv_cur t). by destruct t. Qed.
Lemma same_tx_evolves B k t t1 t2 : same_tx t t1 -> evolves B k t1 t2 -> same_tx t t2.
Proof. intros (l & F & ->) [E _ _]. rewrite E. by eexists _, _. Qed.

(** A new binding [nm] in directory [pd] to the new inode [m] with contents [d]. *)
Record made sb pd m nm (d : dinode) (F : blocks) I (F' : blocks) I' : Prop := {
  mk_step : stepped sb pd m nm F I F' I';
  mk_new : I' m = d;
  mk_bound : forall q, snd <$> lookup_name F' (I' pd) q = if decide (q = nm) then Some m else snd <$> lookup_name F (I pd) q;
}.
(** All inodes are in use; or all blocks are, and nothing has changed but an
    inode that is free again and the addresses of the directory. *)
Definition unmade sb pd nm (F : blocks) I (F' : blocks) I' : Prop :=
  (F' = F /\ I' = I /\ forall n, 1 <= n < sb_ninodes sb -> d_type (I n) <> 0) \/
  (all_used sb F' /\ exists m, 0 <= m < sb_ninodes sb /\ stepped sb pd m nm F I F' I' /\ d_type (I' m) = 0 /\ forall q, lookup_name F' (I' pd) q = lookup_name F (I pd) q).

(** A new inode locked next to its directory. *)
Record newborn l0 dp i ip j s t I : Prop := {
  nb_at : fs_at s t I;
  nb_dir : in_use (fs_inodes s) dp i;
  nb_dirlock : i_lock i = true;
  nb_new : in_use (fs_inodes s) ip j;
  nb_lock : i_lock j = true;
  nb_ref : i_ref j = 1;
  nb_ne : ip <> dp;
  nb_quiet : forall k a, k <> ip -> k <> dp -> znth (fs_inodes s) k = Some a -> i_lock a = false;
  nb_count : exists l1, plus_one l0 l1 (i_inum i) /\ plus_one l1 (fs_inodes s) (i_inum j);
  nb_link : d_nlink (I (i_inum i)) <> 0;
}.

Lemma newborn_set l0 dp i ip j s t I x t' I' d : newborn l0 dp i ip j s t I -> let s' := with_inodes (zset (fs_inodes s) ip (set_d d j)) (with_tx x s) in
  fs_at s' t' I' -> d_nlink (I' (i_inum i)) <> 0 -> newborn l0 dp i ip (set_d d j) s' t' I'.
Proof.
  intros [H1 H2 H3 H4 H5 H6 H7 H8 (l1 & H9 & H10) H11] s' A' Hl. pose proof (iu_at _ _ _ H4) as Hj.
  assert (E : forall k, znth (fs_inodes s') k = if decide (k = ip) then Some (set_d d j) else znth (fs_inodes s) k) by (intros k; by apply (znth_zset _ _ _ _ j)).
  constructor; try done.
  - destruct H2 as [A B C]. constructor; [|done|done]. rewrite E. by rewrite decide_False.
  - destruct H4 as [A B C]. constructor; [|done|done]. rewrite E. by rewrite decide_True.
  - intros k a Hk Hk2. rewrite E. rewrite decide_False by done. by apply H8.
  - exists l1. split; [done|]. apply (plus_same _ (fs_inodes s)); [done|]. by apply (same_counts_set _ ip j).
Qed.
Lemma newborn_dir l0 dp i ip j s t I x t' I' d : newborn l0 dp i ip j s t I -> let s' := with_inodes (zset (fs_inodes s) dp (set_d d i)) (with_tx x s) in
  fs_at s' t' I' -> d_nlink (I' (i_inum i)) <> 0 -> newborn l0 dp (set_d d i) ip j s' t' I'.
Proof.
  intros [H1 H2 H3 H4 H5 H6 H7 H8 (l1 & H9 & H10) H11] s' A' Hl. pose proof (iu_at _ _ _ H2) as Hj.
  assert (E : forall k, znth (fs_inodes s') k = if decide (k = dp) then Some (set_d d i) else znth (fs_inodes s) k) by (intros k; by apply (znth_zset _ _ _ _ i)).
  constructor; try done.
  - destruct H2 as [A B C]. constructor; [|done|done]. rewrite E. by rewrite decide_True.
  - destruct H4 as [A B C]. constructor; [|done|done]. rewrite E. by rewrite decide_False.
  - intros k a Hk Hk2. rewrite E. rewrite decide_False by done. by apply H8.
  - exists l1. split; [done|]. apply (plus_same _ (fs_inodes s)); [done|]. by apply (same_counts_set _ dp i).
Qed.

(** The directory is unlocked and the new inode is the result. *)
Lemma newborn_done l0 dp i ip j s t I : newborn l0 dp i ip j s t I -> (forall m, 0 <= refs l0 m) -> disk_inode (fs_sb s) (tv_cur t) (i_inum i) = I (i_inum i) ->
  wp (iunlockput dp) (fun _ s' => exists l', s' = with_inodes l' s /\ fs_at s' t I /\ in_use l' ip j /\ quiet_but ip l' /\ plus_one l0 l' (i_inum j)) s.
Proof.
  intros [H1 H2 H3 H4 H5 H6 H7 H8 (l1 & H9 & H10) H11] H0 Hd. apply (iunlockput_linked s t I dp i); [done..|]. intros l' Hm A'. exists l'.
  assert (E : forall k, znth l' k = if decide (k = dp) then Some (set_ref (i_ref i - 1) (set_lock false i)) else znth (fs_inodes s) k) by (intros k; by apply (znth_zset _ _ _ _ i), H2).
  split_and!; [done|done| | |].
  - destruct H4 as [A B C]. constructor; [|done|done]. rewrite E. by rewrite decide_False.
  - intros k a Hk. rewrite E. case_decide; [by intros [= <-]|]. by apply H8.
  - by apply (plus_plus_minus l0 l1 (fs_inodes s) l' (i_inum i)).
Qed.

Lemma nlink_same d n : - 2 ^ 15 <= n < 2 ^ 15 -> d_type d <> 0 -> same_blocks d (set_nlink n d).
Proof.
  intros Hn Ht. constructor; [done|done| |].
  - intros [D1 D2 D3 D4 D5 D6 D7]. constructor; done || exact Hn.
  - intros E. cbn [set_nlink d_type] in E. done.
Qed.
Lemma minus_one_last sb F I l ip j j' : itab sb l F I -> znth l ip = Some j -> i_ref j = 1 -> i_ref j' = 0 -> minus_one l (zset l ip j') (i_inum j).
Proof.
  intros Tab Hj Hr Hr'. pose proof (refs_entry _ _ _ _ _ _ Tab Hj ltac:(lia)) as Er. split.
  - intros k. rewrite (refs_zset _ _ j) by done. unfold ref_of. rewrite Hr, Hr', (Z.eqb_sym k). unfold one. destruct (i_inum j =? k), (i_inum j' =? k); lia.
  - rewrite (nfree_zset _ j) by done. rewrite Er, Hr. unfold idle. rewrite Hr, Hr'. cbn. lia.
Qed.

(** The new inode is freed again. *)
Definition dropped B l0 m s t I (s' : fss) : Prop := exists x l' t' I', s' = with_inodes l' (with_tx x s) /\ fs_at s' t' I' /\ evolves B 0 t t' /\
  others_same (fs_sb s) m (tv_cur t) I (tv_cur t') I' /\ d_type (I' m) = 0 /\ disk_inode (fs_sb s) (tv_cur t') m = I' m /\ quiet l' /\ same_counts l0 l'.
Lemma newborn_fail B l0 dp i ip j s t I : newborn l0 dp i ip j s t I -> (forall m, 0 <= refs l0 m) -> disk_inode (fs_sb s) (tv_cur t) (i_inum i) = I (i_inum i) ->
  tv_held t = ∅ -> room B 0 t -> has_map (fs_sb s) B -> IBLOCK (i_inum j) (fs_sb s) ∈ B -> d_type (I (i_inum j)) <> 0 -> i_inum i <> i_inum j ->
  wp ((on_inode ip (set_nlink 0);; iupdate ip);; iunlockput ip;; iunlockput dp;; ret None) (fun (r : option Z) s' => r = None /\ dropped B l0 (i_inum j) s t I s') s.
Proof.
  intros N H0 Hd Hh Hroom HB HI Hty Hne. pose proof N as [H1 H2 H3 H4 H5 H6 H7 H8 (l1 & H9 & H10) H11]. set (m := i_inum j) in *. set (pd := i_inum i) in *.
  destruct (in_use_facts _ _ _ _ _ H1 H2) as (_ & Hpd & _).
  apply wp_bind, (inode_update_spec B 0 ip j (set_nlink 0) s t I); [done|done|done|done|by left|by apply nlink_same|]. fold m.
  intros x1 t1 n1 d1 s1 A1 Ev1 O1 D1. unfold n1 in *. fold m in d1, s1, A1, O1, D1 |- *. set (I1 := fput I m d1) in *. clear n1.
  assert (Epd : I1 pd = I pd) by (by apply (os_inode _ _ _ _ _ _ O1)).
  assert (N1 : newborn l0 dp i ip (set_d d1 j) s1 t1 I1) by (apply (newborn_set l0 dp i ip j s t I); [done|done|by fold pd; rewrite Epd]).
  destruct N1 as [_ U2 _ U4 _ _ _ U8 (l2 & U9 & U10) _]. destruct (ev_fields _ _ _ _ Ev1) as (_ & _ & Eh1 & _).
  pose proof (room_evolves B 0 0 t t1 ltac:(done) Ev1 ltac:(lia)) as Hroom1.
  apply wp_bind. unfold iunlockput. apply wp_bind, (iunlock_spec s1 t1 I1 ip (set_d d1 j)); [done|done|done|]. intros s2 A2. set (j2 := set_lock false (set_d d1 j)) in *.
  assert (Hj2 : in_use (fs_inodes s2) ip j2) by (constructor; [apply znth_zset_eq, (znth_Some_lt _ _ (set_d d1 j)), U4|cbn; lia|apply U4]).
  pose proof (same_counts_set (fs_inodes s1) ip (set_d d1 j) j2 (iu_at _ _ _ U4) eq_refl eq_refl) as C2.
  apply (iput_free B s2 t1 I1 ip j2); [done|done|done|done| |by rewrite Eh1|done|done|done|].
  { change (i_inum j2) with m. unfold I1. by rewrite fput_eq. }
  intros x3 t3 j3 n3 d3 s3 Hj3 Hl3 A3 Ev3 O3 D3. change n3 with m in *. change (i_inum j2) with m in *. set (I3 := fput I1 m d3) in *. clear n3.
  pose proof (minus_one_last _ _ _ _ ip j2 j3 (fa_tab _ _ _ A2) (iu_at _ _ _ Hj2) ltac:(cbn; done) Hj3) as Hm1. change (i_inum j2) with m in Hm1.
  assert (E3 : forall k, znth (fs_inodes s3) k = if decide (k = ip) then Some j3 else znth (fs_inodes s1) k).
  { intros k. unfold s3, s2. cbn [with_inodes with_tx fs_inodes]. rewrite zset_zset. apply (znth_zset _ _ _ _ (set_d d1 j)), U4. }
  assert (Epd3 : I3 pd = I pd) by (rewrite (os_inode _ _ _ _ _ _ O3) by done; done).
  apply wp_bind, (iunlockput_linked s3 t3 I3 dp i); [done| |done|by fold pd; rewrite Epd3| |].
  { destruct U2 as [B1 B2 B3]. constructor; [|done|done]. rewrite E3. by rewrite decide_False. }
  { fold pd. rewrite Epd3. etrans; [apply (os_disk _ _ _ _ _ _ O3); [done|exact Hpd]|]. etrans; [apply (os_disk _ _ _ _ _ _ O1); [done|exact Hpd]|done]. }
  intros l4 Hm4 A4. apply wp_ret. split; [done|]. exists x3, l4, t3, I3. split_and!; [done|done|by apply (evolves_trans B 0 0 0 t t1 t3)|by apply (others_trans _ _ _ _ (tv_cur t1) I1)| | | |].
  - unfold I3. by rewrite fput_eq.
  - etrans; [exact D3|]. unfold I3. by rewrite fput_eq.
  - intros k a. unfold l4. rewrite (znth_zset _ _ _ _ i) by (rewrite E3, decide_False by done; apply U2). case_decide; [by intros [= <-]|]. rewrite E3.
    case_decide; [by intros [= <-]|by apply U8].
  - assert (P2 : plus_one l2 (fs_inodes s2) m) by (by apply (plus_same _ (fs_inodes s1))).
    assert (Hs2 : forall k, 0 <= refs l2 k) by (intros k; destruct U9 as [E _]; rewrite E; specialize (H0 k); unfold one; destruct (_ =? _); lia).
    pose proof (plus_minus _ _ _ _ P2 Hm1 Hs2) as S3.
    apply (plus_minus l0 (fs_inodes s3) l4 pd); [|done|done]. by apply (plus_same _ l2).
Qed.

(** What [create] does when the name is not bound. *)
Definition created l0 pd nm d s t I (r : option Z) (s' : fss) : Prop :=
  exists x l' t' I', s' = with_inodes l' (with_tx x s) /\ fs_at s' t' I' /\ same_tx t t' /\
    match r with
    | Some ip => exists j, in_use l' ip j /\ i_lock j = true /\ quiet_but ip l' /\ plus_one l0 l' (i_inum j) /\ 0 <= i_inum j < sb_ninodes (fs_sb s) /\
        made (fs_sb s) pd (i_inum j) nm d (tv_cur t) I (tv_cur t') I'
    | None => quiet l' /\ same_counts l0 l' /\ unmade (fs_sb s) pd nm (tv_cur t) I (tv_cur t') I'
    end.

(** After the fields of the new inode are written: the binding. *)
Definition link_made l0 i ip j nm d s t I (r : option Z) (s' : fss) : Prop :=
  exists x l' t' I', s' = with_inodes l' (with_tx x s) /\ fs_at s' t' I' /\ same_tx t t' /\
      let F := tv_cur t in let F' := tv_cur t' in let pd := i_inum i in let m := i_inum j in
      (forall q, 0 <= q < sb_ninodes (fs_sb s) -> q <> pd -> q <> m -> kept (fs_sb s) F I F' I' q) /\ dir_ok (fs_sb s) F' (I' pd) /\ d_nlink (I' pd) = d_nlink (I pd) /\
      disk_inode (fs_sb s) F' pd = I' pd /\ disk_inode (fs_sb s) F' m = I' m /\
      (forall k, 0 <= k < entries (I' pd) -> (r <> None /\ entry F' (I' pd) k = (m, nm)) \/ (k < entries (I pd) /\ entry F' (I' pd) k = entry F (I pd) k)) /\
      match r with
      | Some ip' => ip' = ip /\ I' m = d /\ (exists j', in_use l' ip j' /\ i_lock j' = true /\ i_inum j' = m) /\ quiet_but ip l' /\ plus_one l0 l' m /\
          forall q, snd <$> lookup_name F' (I' pd) q = if decide (q = nm) then Some m else snd <$> lookup_name F (I pd) q
      | None => quiet l' /\ same_counts l0 l' /\ d_type (I' m) = 0 /\ all_used (fs_sb s) F' /\ forall q, lookup_name F' (I' pd) q = lookup_name F (I pd) q
      end.
Lemma create_link_spec B l0 dp i ip j name d s t I : newborn l0 dp i ip j s t I -> (forall m, 0 <= refs l0 m) -> disk_inode (fs_sb s) (tv_cur t) (i_inum i) = I (i_inum i) ->
  disk_inode (fs_sb s) (tv_cur t) (i_inum j) = I (i_inum j) -> tv_held t = ∅ -> um_ok (fs_user s) -> room B 2 t -> has_map (fs_sb s) B ->
  IBLOCK (i_inum i) (fs_sb s) ∈ B -> IBLOCK (i_inum j) (fs_sb s) ∈ B -> dir_ok (fs_sb s) (tv_cur t) (I (i_inum i)) -> length name = Z.to_nat DIRSIZ ->
  Forall is_byte name -> has_free (fs_inodes s) -> 0 < i_inum j -> d_size (I (i_inum i)) + DIRENT <= MAXFILE * BSIZE -> lookup_name (tv_cur t) (I (i_inum i)) (entry_name name) = None ->
  I (i_inum j) = d -> d_type d <> 0 -> d_type d <> T_DIR -> d_nlink d <> 0 -> (forall p, daddr d p = 0) ->
  wp (let! ok := (let! r := dirlink dp name (i_inum j) in ret (negb (r <? 0))) in
      if ok : bool then iunlockput dp;; ret (Some ip)
      else (on_inode ip (set_nlink 0);; iupdate ip);; iunlockput ip;; iunlockput dp;; ret None)
    (link_made l0 i ip j (entry_name name) d s t I) s.
Proof.
  intros N H0 Hdp Hdm Hh Hum Hroom HB HIp HIm Hdir Hlen Hbytes Hfree Hm0 Hsz Hlk Hd Ht1 Ht2 Hnl Hno. pose proof N as [H1 H2 H3 H4 H5 H6 H7 H8 _ H11].
  destruct (in_use_facts _ _ _ _ _ H1 H2) as (_ & Hpd & _). destruct (in_use_facts _ _ _ _ _ H1 H4) as (_ & Hm & _).
  assert (Hne : i_inum i <> i_inum j).
  { intros E. apply H7. symmetry. eapply (it_uniq _ _ _ _ (fa_tab _ _ _ H1) dp ip i j); [apply H2|apply H4|apply H2|apply H4|done]. }
  pose proof (so_inodes _ (fi_sb _ _ _ (fa_inv _ _ _ H1))) as [Hni _]. apply wp_bind, wp_bind.
  eapply wp_mono; [apply (dirlink_spec B dp i name (i_inum j) s t I); try done; [by left; rewrite Hlen|lia|lia]|].
  intros r s1. unfold link_post. cbv zeta. rewrite Hlk. intros (x & t1 & I1 & k & data & -> & A1 & Ev & W & Hd1 & Hent & Hr). set (s1 := with_inodes _ _) in *.
  destruct (ev_fields _ _ _ _ Ev) as (_ & _ & Eh & _). apply wp_ret.
  assert (El : d_nlink (I1 (i_inum i)) = d_nlink (I (i_inum i))) by (rewrite (wr_self _ _ _ _ _ _ _ _ W); done).
  assert (N1 : newborn l0 dp (set_d (I1 (i_inum i)) i) ip j s1 t1 I1) by (apply (newborn_dir l0 dp i ip j s t I); [done|done|by rewrite El]).
  assert (Em : I1 (i_inum j) = d) by (by rewrite (wr_others _ _ _ _ _ _ _ _ W)).
  assert (Dm : disk_inode (fs_sb s) (tv_cur t1) (i_inum j) = I1 (i_inum j)) by (rewrite (wr_disk _ _ _ _ _ _ _ _ W), (wr_others _ _ _ _ _ _ _ _ W) by done; done).
  assert (K1 : forall q, 0 <= q < sb_ninodes (fs_sb s) -> q <> i_inum i -> kept (fs_sb s) (tv_cur t) I (tv_cur t1) I1 q) by (intros; by eapply kept_wrote).
  destruct Hr as [(-> & Hq)|(-> & Hfull & Hq)].
  - change (negb (0 <? 0)) with true. cbv iota. apply wp_bind. eapply wp_mono; [apply (newborn_done l0 dp _ ip j s1 t1 I1 N1 H0); apply W|].
    intros [] s2 (l' & -> & A2 & U2 & Q2 & P2). apply wp_ret. exists x, l', t1, I1. cbv zeta. split_and!; try done.
    + eapply same_tx_evolves; [apply same_tx_refl|done].
    + intros q Hq1 Hq2 _. by apply K1.
    + apply W.
    + intros k' Hk'. destruct (Hent k' Hk') as [[_ ?]|?]; [by left|by right].
    + by exists j.
    + intros q. rewrite Hq. by destruct (decide _).
  - change (negb (-1 <? 0)) with false. cbv iota.
    eapply wp_mono; [apply (newborn_fail B l0 dp _ ip j s1 t1 I1 N1 H0); try done; [apply W|by rewrite Eh| |by rewrite Em]|].
    { apply (room_evolves B 2 0 t t1); [done|done|lia]. }
    intros r2 s2 (-> & x2 & l' & t2 & I2 & -> & A2 & Ev2 & O2 & Ht & Hd2 & Q2 & C2). change (fs_sb s1) with (fs_sb s) in *. exists x2, l', t2, I2. cbv zeta.
    pose proof (kept_others _ _ _ _ _ _ (i_inum i) O2 Hne Hpd) as Kp. pose proof (kp_inode _ _ _ _ _ _ Kp) as Ep.
    assert (Hs1 : d_size (I1 (i_inum i)) <= MAXFILE * BSIZE) by (apply (fi_size _ _ _ (fa_inv _ _ _ A1)); exact Hpd).
    split_and!; try done.
    + eapply same_tx_evolves; [eapply same_tx_evolves; [apply same_tx_refl|done]|done].
    + intros q Hq1 Hq2 Hq3. eapply file_kept_trans; [by apply K1|by eapply kept_others].
    + by apply (kept_dir_ok _ (tv_cur t1) I1).
    + by rewrite Ep.
    + rewrite (kp_disk _ _ _ _ _ _ Kp), Ep. apply W.
    + intros k' Hk'. rewrite (kept_entries _ _ _ _ _ _ Kp) in Hk'. rewrite (kept_entry _ _ _ _ _ _ _ Kp) by done.
      destruct (Hent k' Hk') as [[? _]|?]; [done|by right].
    + apply (all_used_others _ (i_inum j) (tv_cur t1) I1 _ I2); [apply A1|apply A2|done|by rewrite Em|done].
    + intros q. by rewrite (kept_lookup _ _ _ _ _ _ _ Kp).
Qed.

Lemma same_tx_trans t t1 t2 : same_tx t t1 -> same_tx t1 t2 -> same_tx t t2.
Proof. intros (l & F & ->) (l' & F' & ->). by exists l', F'. Qed.
Lemma link_made_created l0 i ip j nm d s t I x3 l3 t3 I3 r s' : same_tx t t3 -> fs_at s t I ->
  (forall q, 0 <= q < sb_ninodes (fs_sb s) -> q <> i_inum j -> kept (fs_sb s) (tv_cur t) I (tv_cur t3) I3 q) ->
  0 <= i_inum i < sb_ninodes (fs_sb s) -> 0 <= i_inum j < sb_ninodes (fs_sb s) -> i_inum i <> i_inum j ->
  d_type (I (i_inum j)) = 0 -> d_type d <> 0 -> d_type d <> T_DIR -> d_nlink d <> 0 ->
  link_made l0 i ip j nm d (with_inodes l3 (with_tx x3 s)) t3 I3 r s' -> created l0 (i_inum i) nm d s t I r s'.
Proof.
  intros S3 A K3 Hpd Hm Hne Hfree Ht Htd Hnl (x & l' & t' & I' & -> & A' & S' & Ko & Hdir & Hlnk & Dp & Dm & He & Hr).
  change (fs_sb (with_inodes l3 (with_tx x3 s))) with (fs_sb s) in *. pose proof (K3 _ Hpd Hne) as Kp. pose proof (kp_inode _ _ _ _ _ _ Kp) as Ep.
  pose proof (fi_size _ _ _ (fa_inv _ _ _ A) _ Hpd) as Hsz.
  assert (Hst : (d_type (I' (i_inum j)) <> T_DIR) -> (r <> None -> d_type (I' (i_inum j)) <> 0 /\ d_nlink (I' (i_inum j)) <> 0) ->
    stepped (fs_sb s) (i_inum i) (i_inum j) nm (tv_cur t) I (tv_cur t') I').
  { intros Hnd Hsome. constructor; try done.
    - intros q Hq Hq1 Hq2. eapply file_kept_trans; [by apply K3|by apply Ko].
    - by rewrite Hlnk, Ep.
    - intros k Hk. destruct (He k Hk) as [[H1 H2]|[H1 H2]]; [left; split; [done|by apply Hsome]|right].
      rewrite (kept_entries _ _ _ _ _ _ Kp) in H1. rewrite (kept_entry _ _ _ _ _ _ _ Kp) in H2 by lia. done. }
  exists x, l', t', I'. split_and!; [done|done|by eapply same_tx_trans|]. destruct r as [ip'|].
  - destruct Hr as (-> & Em & (j' & Uj & Hl & Ej) & Q & P & Hq). exists j'. rewrite Ej. split_and!; try done; try lia. constructor; [|done|].
    + apply Hst; by rewrite Em.
    + intros q. by rewrite Hq, (kept_lookup _ _ _ _ _ _ _ Kp).
  - destruct Hr as (Q & C & Hm0 & Hall & Hq). split_and!; [done|done|right]. split; [done|]. exists (i_inum j). split; [done|]. split; [by apply Hst; [rewrite Hm0|]|]. split; [done|].
    intros q. by rewrite Hq, (kept_lookup _ _ _ _ _ _ _ Kp).
Qed.

Lemma typed_refs sb F l I dp : itab sb l F I -> (forall m, 0 < refs l m -> d_type (I m) <> 0) -> quiet_but dp l -> (forall i, znth l dp = Some i -> 0 < i_ref i) -> typed l I.
Proof.
  intros Tab Hr Hq Hd. constructor.
  - intros k i Hi Hk. apply Hr. by rewrite (refs_entry _ _ _ _ k i Tab).
  - intros k i Hi Hk. apply (Hq k); [|done]. intros ->. specialize (Hd i Hi). lia.
Qed.
Lemma plus_one_new sb F I l ip i j : itab sb l F I -> znth l ip = Some i -> i_ref i = 0 -> i_ref j = 1 -> refs l (i_inum j) = 0 -> plus_one l (zset l ip j) (i_inum j).
Proof.
  intros Tab Hi Hr Hj H0. split.
  - intros k. rewrite (refs_zset _ _ i) by done. unfold ref_of, one. rewrite Hr, Hj, (Z.eqb_sym k). destruct (i_inum i =? k), (i_inum j =? k); lia.
  - rewrite (nfree_zset _ i) by done. rewrite H0. unfold idle. rewrite Hr, Hj. cbn. lia.
Qed.
Lemma fields_same type major minor : type <> 0 -> - 2 ^ 15 <= major < 2 ^ 15 -> - 2 ^ 15 <= minor < 2 ^ 15 -> same_blocks (zero_dinode type) (new_fields major minor (zero_dinode type)).
Proof.
  intros Ht H1 H2. constructor; [done|done| |].
  - intros [D1 D2 D3 D4 D5 D6 D7]. constructor; done.
  - intros E. done.
Qed.

(** The directory is locked and does not have the name. *)
Lemma create_new_spec l0 dp i name type major minor s t I : walking l0 dp i s t I -> (forall m, 0 <= refs l0 m) -> (forall m, 0 < refs l0 m -> d_type (I m) <> 0) ->
  tree_ok (fs_sb s) (tv_cur t) I -> d_type (I (i_inum i)) = T_DIR -> tv_held t = ∅ -> um_ok (fs_user s) -> 2 <= nfree (fs_inodes s) ->
  room (meta_blocks (fs_sb s) (i_inum i)) 8 t -> sb_size (fs_sb s) <= BPB -> length name = Z.to_nat DIRSIZ -> Forall is_byte name ->
  d_size (I (i_inum i)) + DIRENT <= MAXFILE * BSIZE -> lookup_name (tv_cur t) (I (i_inum i)) (entry_name name) = None ->
  type = T_FILE \/ type = T_DEVICE -> - 2 ^ 15 <= major < 2 ^ 15 -> - 2 ^ 15 <= minor < 2 ^ 15 ->
  wp (let! di := iat dp in let! a := ialloc (i_dev di) type in match a with None => iunlockput dp;; ret None | Some ip => create_in dp ip name type major minor end)
    (created l0 (i_inum i) (entry_name name) (new_fields major minor (zero_dinode type)) s t I) s.
Proof.
  intros Wk H0 Href Tr Hty Hh Hum Hnf Hroom Hmap Hlen Hbytes Hsz Hlk Htype Hmaj Hmin. pose proof Wk as [A Hu Hl Hc Hq Hnl Hs].
  destruct (in_use_facts _ _ _ _ _ A Hu) as (Hdev & Hpd & _). set (pd := i_inum i) in *. set (sb := fs_sb s) in *. set (B := meta_blocks sb pd) in *.
  assert (Hsz0 : 0 <= sb_size sb) by (pose proof (inv_order _ _ _ (fa_inv _ _ _ A)) as H; fold sb in H; lia).
  assert (HB : has_map sb B) by (by apply meta_map). assert (HIB : IBLOCK pd sb ∈ B) by (unfold B, meta_blocks; set_solver).
  assert (Htt : type <> 0 /\ type <> T_DIR /\ - 2 ^ 15 <= type < 2 ^ 15) by (unfold T_FILE, T_DEVICE, T_DIR in *; lia). destruct Htt as (Ht0 & Htd & Htr).
  assert (Href' : forall m, 0 < refs (fs_inodes s) m -> d_type (I m) <> 0).
  { intros m. rewrite (proj1 Hc). unfold one. destruct (Z.eqb_spec m pd) as [->|]; [intros _; by rewrite Hty|]. rewrite Z.add_0_r. apply Href. }
  apply wp_bind, (wp_iat dp i); [apply Hu|]. rewrite Hdev. apply wp_bind.
  eapply wp_mono; [apply (ialloc_spec B type s t I A Hh); [by apply (room_weaken _ 8); [|lia]|by apply nfree_has_free; lia| |done|]|].
  { eapply (typed_refs _ _ _ _ dp); [apply A|done|done|]. intros i' Hi'. assert (i' = i) as -> by (destruct Hu; congruence). apply Hu. }
  { intros n Hn. fold sb in Hn |- *. by rewrite (tr_sync _ _ _ Tr). }
  intros [ip|] s1; cycle 1.
  { intros ((x & -> & A1) & Hno). apply wp_bind, (iunlockput_linked _ t I dp i); [done|done|done|done|by apply Tr|]. intros l' Hm A2. apply wp_ret.
    exists x, l', t, I. split_and!; [done|done|apply same_tx_refl| | |left; split_and!; [done|done|]].
    - apply (quiet_set _ dp i); [apply Hu|done|done].
    - by apply (plus_minus l0 (fs_inodes s) l' pd).
    - intros n Hn. rewrite <- (tr_sync _ _ _ Tr) by (fold sb in Hn; lia). by apply Hno. }
  intros (x & t1 & m & i0 & -> & Hm & Hfree & Hi0 & Hr0 & A1 & Ev1 & O1 & D1). set (d0 := zero_dinode type) in *. set (I1 := fput I m d0) in *.
  set (j1 := mk_inode ROOTDEV m 1 false false (i_d i0)) in *. set (s1 := with_inodes _ (with_tx x s)) in *.
  assert (Hpm : pd <> m) by (intros E; rewrite <- E, Hty in Hfree; done). assert (Hipd : ip <> dp) by (intros E; rewrite E in Hi0; destruct Hu as [E1 E2 _]; rewrite E1 in Hi0; injection Hi0 as ->; lia).
  assert (Hrm : refs (fs_inodes s) m = 0).
  { pose proof (refs_nonneg _ _ _ _ m (fa_tab _ _ _ A)). destruct (decide (refs (fs_inodes s) m = 0)); [done|]. by destruct (Href' m); [lia|]. }
  destruct (ev_fields _ _ _ _ Ev1) as (_ & _ & Eh1 & _). unfold create_in.
  assert (Hj1 : znth (fs_inodes s1) ip = Some j1) by (apply znth_zset_eq, (znth_Some_lt _ _ i0), Hi0).
  apply wp_bind, (ilock_spec s1 t1 I1 ip j1); [done|done|done|done|by rewrite Eh1|unfold I1; cbn [j1 i_inum]; by rewrite fput_eq|].
  intros x2 s2 A2. change (i_inum j1) with m in s2, A2. set (j2 := locked j1 (I1 m)) in *.
  assert (E2 : forall k, znth (fs_inodes s2) k = if decide (k = ip) then Some j2 else znth (fs_inodes s) k).
  { intros k. unfold s2, s1. cbn [with_inodes with_tx fs_inodes]. rewrite zset_zset. by apply (znth_zset _ _ _ _ i0). }
  assert (Epd : I1 pd = I pd) by (unfold I1; by rewrite fput_ne).
  assert (N2 : newborn l0 dp i ip j2 s2 t1 I1).
  { constructor; try done.
    - destruct Hu as [B1 B2 B3]. constructor; [rewrite E2; by rewrite decide_False|done|done].
    - constructor; [rewrite E2; by rewrite decide_True|done|done].
    - intros k a Hk Hk2. rewrite E2, decide_False by done. by apply Hq.
    - exists (fs_inodes s). split; [done|]. unfold s2, s1. cbn [with_inodes with_tx fs_inodes]. rewrite zset_zset. by apply (plus_one_new sb (tv_cur t) I _ ip i0); [apply A|..].
    - fold pd. by rewrite Epd. }
  set (B' := {[IBLOCK m sb]} ∪ B). assert (Hroom1 : room B' 6 t1) by (apply room_grow; [|lia]; apply (room_evolves B 1 7 t t1); [done|done|lia]).
  assert (HIm : IBLOCK m sb ∈ B') by (unfold B'; set_solver). assert (HIp : IBLOCK pd sb ∈ B') by (unfold B'; set_solver).
  apply wp_bind, (inode_update_spec B' 0 ip j2 (new_fields major minor) s2 t1 I1); [done|apply N2|by rewrite Eh1|by apply (room_weaken _ 6); [|lia]|by left| |].
  { cbn [j2 locked i_inum j1]. unfold I1. rewrite fput_eq. by apply fields_same. }
  set (d := new_fields major minor d0). intros x3 t3 n3 d3 s3 A3 Ev3 O3 D3. change n3 with m in *. assert (Ed3 : d3 = d) by (unfold d3, I1; by rewrite fput_eq).
  clearbody d3. rewrite Ed3 in D3. subst d3.
  set (I3 := fput I1 m d) in *. destruct (ev_fields _ _ _ _ Ev3) as (_ & _ & Eh3 & _). fold j1 j2 in s3, A3.
  assert (Kp : kept sb (tv_cur t) I (tv_cur t3) I3 pd).
  { exact (file_kept_trans sb _ _ _ _ _ _ pd (kept_others sb m _ _ _ _ pd O1 Hpm Hpd) (kept_others sb m _ _ _ _ pd O3 Hpm Hpd)). }
  pose proof (kp_inode _ _ _ _ _ _ Kp) as Ep3. pose proof (fi_size _ _ _ (fa_inv _ _ _ A) pd Hpd) as Hszp.
  assert (N3 : newborn l0 dp i ip (set_d d j2) s3 t3 I3) by (apply (newborn_set l0 dp i ip j2 s2 t1 I1); [done|done|by fold pd; rewrite Ep3]).
  apply wp_bind, (wp_iat ip (set_d d j2)); [apply N3|]. apply wp_bind, (wp_iat dp i); [apply N3|]. destruct (Z.eqb_spec type T_DIR); [done|]. apply wp_bind, wp_ret. cbv iota.
  assert (Hnf3 : has_free (fs_inodes s3)).
  { apply nfree_has_free. destruct (nb_count _ _ _ _ _ _ _ _ N3) as (l1 & P1 & P2). rewrite (proj2 P2), (proj2 P1). pose proof (proj2 Hc) as Hc2. change pd with (i_inum i) in Hc2. unfold one in *.
    destruct (refs l1 _ =? 0), (refs l0 (i_inum i) =? 0); lia. }
  eapply wp_mono; [apply (create_link_spec B' l0 dp i ip (set_d d j2) name d s3 t3 I3 N3 H0); try done; cbn [set_d j2 locked j1 i_inum]; fold pd|].
  all: change (fs_sb s3) with sb in *.
  - rewrite (kp_disk _ _ _ _ _ _ Kp), Ep3. by apply Tr.
  - unfold I3. by rewrite fput_eq.
  - by rewrite Eh3, Eh1.
  - apply (room_weaken _ 6); [|lia]. apply (room_evolves B' 0 6 t1 t3); [done|done|lia].
  - by apply has_map_grow.
  - apply (kept_dir_ok _ (tv_cur t) I); [done|done|done|by apply Tr].
  - lia.
  - by rewrite Ep3.
  - by rewrite (kept_lookup _ _ _ _ _ _ _ Kp).
  - unfold I3. by rewrite fput_eq.
  - intros p. by apply (daddr_empty (zero_dinode type)).
  - intros r s'. apply (link_made_created l0 i ip (set_d d j2) (entry_name name) d s t I x3 (fs_inodes s3) t3 I3); try done; fold sb pd; change (i_inum (set_d d j2)) with m.
    + eapply same_tx_evolves; [eapply same_tx_evolves; [apply same_tx_refl|done]|done].
    + intros q Hq1 Hq2. exact (file_kept_trans sb _ _ _ _ _ _ q (kept_others sb m _ _ _ _ q O1 Hq2 Hq1) (kept_others sb m _ _ _ _ q O3 Hq2 Hq1)).
    + fold sb in Hm; lia.
Qed.

(** ** The whole of [create] *)

Record create_ready (path : list Z) s c t I : Prop := {
  cr_names : namex_ready s c t I;
  cr_typed : forall m, 0 < refs (fs_inodes s) m -> d_type (I m) <> 0;
  cr_free : 3 <= nfree (fs_inodes s);
  cr_room : forall n, room (meta_blocks (fs_sb s) n) 8 t;
  cr_map : sb_size (fs_sb s) <= BPB;
  cr_path : Forall is_byte path /\ forall x, x ∈ path -> x <> 0;
  cr_dirs : forall n, 0 <= n < sb_ninodes (fs_sb s) -> d_type (I n) = T_DIR -> d_size (I n) + DIRENT <= MAXFILE * BSIZE;
}.

(** The inode [m] locked, with one reference more. *)
Definition held_new l0 l' (ip m : Z) : Prop := exists j, in_use l' ip j /\ i_lock j = true /\ i_inum j = m /\ quiet_but ip l' /\ plus_one l0 l' m.
(** The inodes that a walk can start from. *)
Definition good sb I (k : Z) : Prop := 0 <= k < sb_ninodes sb /\ d_type (I k) <> 0 /\ d_nlink (I k) <> 0.
Definition is_file (ty : Z) : Prop := ty = T_FILE \/ ty = T_DEVICE.

Definition create_post (path : list Z) (type : Z) (d : dinode) c s t I (r : option Z) (s' : fss) : Prop :=
  let n := start_of path c in let es := elements path in let sb := fs_sb s in let F := tv_cur t in
  exists x l' t' I', s' = with_inodes l' (with_tx x s) /\ fs_at s' t' I' /\ same_tx t t' /\ let F' := tv_cur t' in tree_ok sb F' I' /\
    match r with
    | Some ip => exists m, held_new (fs_inodes s) l' ip m /\ walk F' I' n es = Some m /\
        (forall k es' q, good sb I k -> walk F I k es' = Some q -> walk F' I' k es' = Some q) /\
        match walk F I n es with
        | Some _ => F' = F /\ I' = I /\ type = T_FILE /\ is_file (d_type (I m))
        | None => d_type (I m) = 0 /\ I' m = d /\
            (exists pd nm, walk_parent F I n es = Some (pd, nm) /\
              forall k es', good sb I k -> walk F' I' k es' = if decide (walk_parent F I k es' = Some (pd, nm)) then Some m else walk F I k es') /\
            forall q, 0 <= q < sb_ninodes sb -> q <> m -> d_type (I q) <> T_DIR -> I' q = I q /\ fdata F' (I' q) = fdata F (I q)
        end
    | None => quiet l' /\ same_counts (fs_inodes s) l' /\ (forall k es', good sb I k -> walk F' I' k es' = walk F I k es') /\
        (walk_parent F I n es = None \/ (exists m, walk F I n es = Some m /\ ~ (type = T_FILE /\ is_file (d_type (I m)))) \/
         (forall q, 1 <= q < sb_ninodes sb -> d_type (I q) <> 0) \/ all_used sb F')
    end.

Lemma fs_at_pos s t I : fs_at s t I -> forall n k, 0 <= n < sb_ninodes (fs_sb s) -> 0 <= k < entries (I n) -> 0 <= (entry (tv_cur t) (I n) k).1.
Proof. intros A n k. by apply entry_inum_nonneg. Qed.

Lemma start_good path s c t I : namex_ready s c t I -> good (fs_sb s) I (start_of path c).
Proof.
  intros [A _ _ _ _ _ Hroot (Hc & Hcr & Hct & Hcl)]. destruct (it_ent _ _ _ _ (fa_tab _ _ _ A) _ _ Hc Hcr) as (_ & Hr & _).
  unfold good, start_of. destruct path as [|x]; [done|]. by destruct (x =? SLASH).
Qed.

Lemma made_post path type d pd m nm c s t I x l' t' I' ip : create_ready path s c t I -> fs_at (with_inodes l' (with_tx x s)) t' I' -> same_tx t t' ->
  walk_parent (tv_cur t) I (start_of path c) (elements path) = Some (pd, nm) -> lookup_name (tv_cur t) (I pd) nm = None ->
  held_new (fs_inodes s) l' ip m -> 0 <= m < sb_ninodes (fs_sb s) -> made (fs_sb s) pd m nm d (tv_cur t) I (tv_cur t') I' ->
  create_post path type d c s t I (Some ip) (with_inodes l' (with_tx x s)).
Proof.
  intros R A' Ht Hw Hlk Hh Hm [St Em Hb]. pose proof (cr_names _ _ _ _ _ R) as N. pose proof (nr_at _ _ _ _ N) as A. pose proof (nr_tree _ _ _ _ N) as Tr.
  destruct (start_good path _ _ _ _ N) as (Hn & _ & Hnl). pose proof (fs_at_pos _ _ _ A) as Hpos. pose proof (fi_size _ _ _ (fa_inv _ _ _ A)) as Hsz.
  destruct (walk_parent_dir _ _ _ _ _ Tr Hpos _ _ Hn Hnl Hw) as (Hpd & Hty & Hpl).
  assert (Hgrow : forall n, 0 <= n < sb_ninodes (fs_sb s) -> d_type (I n) = T_DIR -> d_type (I' n) = T_DIR /\
    forall q k y, lookup_name (tv_cur t) (I n) q = Some (k, y) -> exists k', lookup_name (tv_cur t') (I' n) q = Some (k', y)).
  { intros n Hr Hd. destruct (stepped_lookup _ _ _ _ _ _ _ _ n St Hr (Hsz n Hr) Hty) as [E1 E2]; [by rewrite Hd|]. split; [by rewrite E1|]. intros q k y Hq.
    destruct (decide (n = pd)) as [->|Hne]; [|rewrite E2 by done; by exists k]. specialize (Hb q). rewrite Hq in Hb.
    destruct (decide (q = nm)) as [->|]; [by rewrite Hlk in Hq|]. destruct (lookup_name (tv_cur t') (I' pd) q) as [[k' y']|]; [|done]. injection Hb as ->. by exists k'. }
  exists x, l', t', I'. cbv zeta. split_and!; [done|done|done| |].
  - by apply (stepped_tree _ pd m nm (tv_cur t) I).
  - exists m. split_and!; [done| | |].
    + rewrite (walk_of_parent _ _ pd nm); [by rewrite Hb, decide_True|]. by apply (walk_parent_grows (fs_sb s) (tv_cur t) I).
    + intros k es' q (Hk & _ & Hkl). by apply (walk_grows (fs_sb s)).
    + rewrite (walk_of_parent _ _ pd nm _ _ Hw), Hlk. cbn [fmap option_fmap option_map]. split_and!; [apply St|done| |].
      { exists pd, nm. split; [done|]. intros k es' (Hk & Hkt & Hkl). apply (walk_exact (fs_sb s) _ _ _ _ pd nm m Tr Hpos); try done; [|apply St].
        intros n Hr Hnt. destruct (stepped_lookup _ _ _ _ _ _ _ _ n St Hr (Hsz n Hr) Hty Hnt) as [E1 E2]. split; [done|]. intros _ q.
        destruct (decide (n = pd)) as [->|Hne]; [rewrite Hb; by repeat case_decide; naive_solver|]. rewrite E2, decide_False by naive_solver. done. }
      intros q Hq Hqm Hqd.
      assert (Hqp : q <> pd) by congruence. pose proof (sp_others _ _ _ _ _ _ _ _ St q Hq Hqp Hqm) as K. split; [apply K|]. apply (kept_data _ _ _ _ _ _ K). by apply Hsz.
Qed.

Lemma unmade_post path type d pd nm c s t I x l' t' I' : create_ready path s c t I -> fs_at (with_inodes l' (with_tx x s)) t' I' -> same_tx t t' ->
  walk_parent (tv_cur t) I (start_of path c) (elements path) = Some (pd, nm) -> quiet l' -> same_counts (fs_inodes s) l' -> unmade (fs_sb s) pd nm (tv_cur t) I (tv_cur t') I' ->
  create_post path type d c s t I None (with_inodes l' (with_tx x s)).
Proof.
  intros R A' Ht Hw Hq Hc U0. pose proof (cr_names _ _ _ _ _ R) as N. pose proof (nr_at _ _ _ _ N) as A. pose proof (nr_tree _ _ _ _ N) as Tr.
  destruct (start_good path _ _ _ _ N) as (Hn & _ & Hnl). pose proof (fs_at_pos _ _ _ A) as Hpos. pose proof (fi_size _ _ _ (fa_inv _ _ _ A)) as Hsz.
  destruct (walk_parent_dir _ _ _ _ _ Tr Hpos _ _ Hn Hnl Hw) as (Hpd & Hty & Hpl).
  exists x, l', t', I'. cbv zeta. do 3 (split; [done|]). split; destruct U0 as [(EF & EI & Hall)|(Hall & m & Hm & St & Hf & Hl)].
  - rewrite EF, EI. done.
  - by apply (stepped_tree _ pd m nm (tv_cur t) I).
  - split_and!; [done|done| |by right; right; left]. intros. by rewrite EF, EI.
  - split_and!; [done|done| |by right; right; right]. intros k es' (Hk & Hkt & Hkl). apply (walk_same (fs_sb s)); try done.
    intros n Hr Hnt. destruct (stepped_lookup _ _ _ _ _ _ _ _ n St Hr (Hsz n Hr) Hty Hnt) as [E1 E2]. split; [done|]. intros _ q.
    destruct (decide (n = pd)) as [->|]; [by apply Hl|by apply E2].
Qed.

(** The cases in which nothing changes. *)
Lemma same_post path type d c s t I x l' r : create_ready path s c t I -> fs_at (with_inodes l' (with_tx x s)) t I ->
  match r with
  | Some ip => exists m, held_new (fs_inodes s) l' ip m /\ walk (tv_cur t) I (start_of path c) (elements path) = Some m /\ type = T_FILE /\ is_file (d_type (I m))
  | None => quiet l' /\ same_counts (fs_inodes s) l' /\ (walk_parent (tv_cur t) I (start_of path c) (elements path) = None \/
      exists m, walk (tv_cur t) I (start_of path c) (elements path) = Some m /\ ~ (type = T_FILE /\ is_file (d_type (I m))))
  end -> create_post path type d c s t I r (with_inodes l' (with_tx x s)).
Proof.
  intros R A' H. exists x, l', t, I. cbv zeta. do 2 (split; [done|]). split; [apply same_tx_refl|]. split; [apply R|]. destruct r as [ip|].
  - destruct H as (m & Hh & Hw & H1 & H2). exists m. rewrite Hw. done.
  - destruct H as (Hq & Hc & Hr). split_and!; [done|done|done|]. destruct Hr; [by left|by right; left].
Qed.

(** The name is bound: the inode is locked and its type decides. *)
Lemma create_found path type d c s t I l3 y next j m : create_ready path s c t I -> fs_at (with_inodes l3 (with_tx y s)) t I -> quiet l3 -> znth l3 next = Some j ->
  i_inum j = m -> 0 < i_ref j -> plus_one (fs_inodes s) l3 m -> d_type (I m) <> 0 -> d_nlink (I m) <> 0 -> walk (tv_cur t) I (start_of path c) (elements path) = Some m ->
  wp (ilock next;; let! i := iat next in
      if (type =? T_FILE) && ((d_type (i_d i) =? T_FILE) || (d_type (i_d i) =? T_DEVICE)) then ret (Some next) else iunlockput next;; ret None)
    (create_post path type d c s t I) (with_inodes l3 (with_tx y s)).
Proof.
  intros R A Hq Hj Ej Hr Hp Hty Hnl Hw. pose proof (cr_names _ _ _ _ _ R) as N.
  apply wp_bind, (walk_lock (fs_inodes s) next j _ t I); rewrite ?Ej; try done; [apply N|apply N|]. intros x l4 i1 s4 Wk. pose proof (wk_use _ _ _ _ _ _ Wk) as Hu.
  apply wp_bind, (wp_iat next i1); [apply Hu|]. change (i_d i1) with (I m). assert (Ei : i_inum i1 = m) by done.
  destruct ((type =? T_FILE) && _) eqn:Et.
  - apply wp_ret. apply (same_post path type d c s t I x l4 (Some next)); [done|apply Wk|]. exists m. split_and!; [|done|lia|unfold is_file; lia].
    exists i1. split_and!; try done; [apply Wk|]. rewrite <- Ei. apply Wk.
  - assert (H0 : forall q, 0 <= refs (fs_inodes s) q) by (intros q; apply (refs_nonneg (fs_sb s) _ (tv_cur t) I), N).
    destruct Wk as [A4 _ Hl Hc Hq4 Hn4 Hs4]. apply wp_bind, (iunlockput_linked s4 t I next i1); [done..|]. intros l5 Hm5 A5. apply wp_ret.
    apply (same_post path type d c s t I x l5 None); [done|done|]. split_and!.
    + apply (quiet_set _ next i1); [apply Hu|done|done].
    + exact (plus_minus _ _ _ _ Hc Hm5 H0).
    + right. exists m. split; [done|]. unfold is_file. lia.
Qed.

Lemma create_spec path junk type major minor s c t I : create_ready path s c t I -> length junk = Z.to_nat DIRSIZ -> Forall is_byte junk ->
  is_file type -> - 2 ^ 15 <= major < 2 ^ 15 -> - 2 ^ 15 <= minor < 2 ^ 15 ->
  wp (create junk path type major minor) (create_post path type (new_fields major minor (zero_dinode type)) c s t I) s.
Proof.
  intros R Hj Hjb Hty Hmaj Hmin. set (d := new_fields _ _ _). pose proof R as [N Href Hnf Hroom Hmap [Hpb Hpz] Hdirs]. pose proof N as [A Tr Hum Hh Hq _ _ _].
  assert (H0 : forall q, 0 <= refs (fs_inodes s) q) by (intros q; apply (refs_nonneg (fs_sb s) _ (tv_cur t) I), N).
  destruct (start_good path _ _ _ _ N) as (Hn & _ & Hnl). pose proof (fs_at_pos _ _ _ A) as Hpos.
  unfold create. apply wp_bind. eapply wp_mono; [apply (wp_and _ (namex_post true (start_of path c) (elements path) (fs_inodes s) s t I) (fun r _ => Forall is_byte r.2)); [by apply (namex_spec true path junk s c t I)|intros r s'; by apply nameiparent_bytes]|].
  intros [o nm] s1 [(x & l1 & -> & A1 & Hq1 & Hm) Hnb]. unfold dest_of in Hm. cbn [fst snd] in *.
  destruct (walk_parent (tv_cur t) I (start_of path c) (elements path)) as [[pd nm']|] eqn:Ew; cbn [fmap option_fmap option_map fst] in Hm.
  2: { destruct Hm as [-> Hc]. apply wp_ret. apply (same_post path type d c s t I x l1 None); [done|done|]. split_and!; [done|done|by left]. }
  destruct Hm as (dp & i & -> & Hi & Ei & Hr & Hc & Hlen). destruct (Hlen eq_refl) as [Hnlen [= Enm]]. clear Hlen. subst nm'.
  destruct (walk_parent_dir _ _ _ _ _ Tr Hpos _ _ Hn Hnl Ew) as (Hpd & Hpt & Hpl).
  apply wp_bind, (walk_lock (fs_inodes s) dp i _ t I); rewrite ?Ei; try done; [by rewrite Hpt|]. intros x2 l2 i1 s2 Wk. pose proof (wk_use _ _ _ _ _ _ Wk) as Hu.
  assert (Ei1 : i_inum i1 = pd) by done.
  assert (Hf2 : 2 <= nfree (fs_inodes s2)) by (rewrite (proj2 (wk_count _ _ _ _ _ _ Wk)); unfold one; destruct (_ =? _); lia).
  apply wp_bind. eapply wp_mono; [apply (dirlookup_spec dp i1 nm s2 t I); try done; [apply Wk|rewrite Ei1; by apply Tr|left; lia|apply nfree_has_free; lia]|].
  rewrite Ei1. unfold lookup_post. intros r s3. destruct (lookup_name (tv_cur t) (I pd) (entry_name nm)) as [[k m]|] eqn:El.
  - intros (next & y & l3 & -> & Hg & -> & A3). destruct (lookup_target _ _ _ _ _ _ _ Tr Hpos Hpd Hpt Hpl El) as (Hm & Hmt & Hml).
    apply wp_bind. eapply wp_mono; [by apply (walk_next (fs_inodes s) dp i1 s2 t I m next l3 y)|]. intros [] s4 (l4 & j & -> & A4 & Hq4 & Hj4 & Ej & Hrj & Hc4).
    apply (create_found path type d c s t I l4 y next j m); try done. rewrite (walk_of_parent _ _ pd (entry_name nm) _ _ Ew), El. done.
  - intros (-> & y & -> & A3). set (s3 := with_tx y s2) in *.
    eapply wp_mono; [apply (create_new_spec (fs_inodes s) dp i1 nm type major minor s3 t I); rewrite ?Ei1; try done|].
    + constructor; try done; apply Wk.
    + by apply Hdirs.
    + rewrite Ei1. intros r s4 (z & l4 & t4 & I4 & -> & A4 & Ht4 & Hres). destruct r as [ip|].
      * destruct Hres as (j & Uj & Hlj & Hqj & Pj & Hmj & Mk). apply (made_post path type d pd (i_inum j) (entry_name nm) c s t I z l4 t4 I4 ip); try done.
        exists j. done.
      * destruct Hres as (Hq4 & Hc4 & Un). by apply (unmade_post path type d pd (entry_name nm) c s t I z l4 t4 I4).
Qed.
End create.
