(* ===== verification/SysOpen.v ===== *)
(** * Opening a file: [sys_open] with [O_CREATE]

    One transaction makes the file, if there is none, and a descriptor for it.
    After a crash the path leads to the new file or nothing has changed. *)

From stdpp Require Import base numbers list gmap strings.
From Stdlib Require Import ZArith Lia.
From S2P Require Import Prelude Blocks Monad Codec Mem UserMem Bio BioCache Log LogSteps LogCrash LogGroup LogSafe Txn Fs FsImage FsInv FsAlloc FsRead FsWritei FsTrunc FsInode FsDir FsNamex File FileWrite FsCrash Syscall SysFile SysCreate Pipe PipeSystem BioBoot Mkfs MkfsFiles MkfsMain MkfsBoot FsWitness.
Open Scope Z_scope.

(** ** Free entries *)

Lemma unused_file_at l : forall k f, unused_file l k = Some f -> k <= f /\ exists x, znth l (f - k) = Some x /\ f_ref x = 0.
Proof.
  induction l as [|y l IH]; intros k f; cbn [unused_file]; [done|]. destruct (Z.eqb_spec (f_ref y) 0) as [E|E].
  - intros [= <-]. split; [lia|]. exists y. by replace (k - k) with 0 by lia.
  - intros H. destruct (IH _ _ H) as (Hk & x & Hx & Hr). split; [lia|]. exists x. rewrite znth_cons. destruct (Z.eqb_spec (f - k) 0); [lia|].
    by replace (f - k - 1) with (f - (k + 1)) by lia.
Qed.
Section open.
Context {T U W : Type} {TX : Transactions T} {TXok : TransactionsOK T} {UM : UserMemory U} {UMok : UserMemoryOK U} {ST : Streams W U} {SA : SysArgs U}.
Abbreviation fss := (fsst T U).
Abbreviation oss := (ost T U W).
Implicit Types (s : fss) (os : oss) (t : tview) (I : Z -> dinode).

Definition with_ofile l os : oss := mk_ost (o_fs os) (o_streams os) (o_files os) l.

Lemma wp_args {A} (m : M U A) a os (Q : A -> oss -> Prop) : m (fs_user (o_fs os)) = Done a (fs_user (o_fs os)) -> Q a os -> wp (args m) Q os.
Proof.
  intros E HQ. apply wp_in_fs, wp_lift. unfold wp. rewrite E. destruct os as [s st fl ofl]. by destruct s.
Qed.

(** A file and a descriptor, if there are free ones. *)
Lemma alloc_fd_spec f fd os (Q : option (Z * Z) -> oss -> Prop) : unused_file (o_files os) 0 = Some f -> unused_fd (o_ofile os) 0 = Some fd ->
  (forall x, znth (o_files os) f = Some x -> f_ref x = 0 -> znth (o_ofile os) fd = Some None ->
     Q (Some (f, fd)) (with_ofile (zset (o_ofile os) fd (Some f)) (with_files (zset (o_files os) f (set_fref 1 x)) os))) -> wp alloc_fd Q os.
Proof.
  intros Hf Hfd HQ. destruct (unused_file_at _ _ _ Hf) as (H0 & x & Hx & Hr). destruct (unused_fd_at _ _ _ Hfd) as (H1 & Ho). rewrite Z.sub_0_r in Hx, Ho.
  unfold alloc_fd, filealloc. apply wp_bind, wp_bind, wp_gets. rewrite Hf. apply wp_bind, (wp_mod_file f _ x); [done|]. apply wp_ret.
  unfold fdalloc. apply wp_bind, wp_bind, wp_gets. cbn [with_files o_ofile]. rewrite Hfd. apply wp_bind. unfold put_fd.
  apply wp_bind, wp_gets, wp_bind, (wp_deref _ None); [done|]. apply wp_modify, wp_ret. destruct (Z.ltb_spec fd 0); [lia|]. apply wp_ret. by apply HQ.
Qed.

(** ** The inode *)

Lemma walk_good s t I : fs_at s t I -> tree_ok (fs_sb s) (tv_cur t) I -> forall es n m, good (fs_sb s) I n -> walk (tv_cur t) I n es = Some m -> good (fs_sb s) I m.
Proof.
  intros A Tr. induction es as [|e es IH]; intros n m Hn; cbn [walk]; [by intros [= <-]|]. destruct (Z.eqb_spec (d_type (I n)) T_DIR) as [E|]; [|done].
  destruct (lookup_name (tv_cur t) (I n) _) as [[k x]|] eqn:El; [|done]. apply IH. destruct Hn as (Hn & _ & Hl). exact (lookup_target _ _ _ _ _ _ _ Tr (fs_at_pos _ _ _ A) Hn E Hl El).
Qed.

(** Every path leads where it led, and why there is nothing to open. *)
Record refused (sb : superblock) (path : list Z) c (F : blocks) I (F' : blocks) I' : Prop := {
  rf_paths : forall k es, good sb I k -> walk F' I' k es = walk F I k es;
  rf_why : walk_parent F I (start_of path c) (elements path) = None \/
    (exists m, walk F I (start_of path c) (elements path) = Some m /\ (~ is_file (d_type (I m)) \/ d_type (I m) = T_DEVICE /\ ~ 0 <= d_major (I m) < NDEV)) \/
    (forall q, 1 <= q < sb_ninodes sb -> d_type (I q) <> 0) \/ all_used sb F';
}.
Definition not_opened (path : list Z) c s t I (s' : fss) : Prop :=
  exists x l' t' I', s' = with_inodes l' (with_tx x s) /\ fs_at s' t' I' /\ same_tx t t' /\ tree_ok (fs_sb s) (tv_cur t') I' /\ quiet l' /\ same_counts (fs_inodes s) l' /\
    refused (fs_sb s) path c (tv_cur t) I (tv_cur t') I'.

Lemma create_none path d c s t I s' : create_post path T_FILE d c s t I None s' -> not_opened path c s t I s'.
Proof.
  unfold create_post. cbv zeta. intros (x & l' & t' & I' & H1 & H2 & H3 & H4 & H5 & H6 & H7 & H8). exists x, l', t', I'. do 6 (split; [assumption|]). constructor; [assumption|].
  destruct H8 as [H|[(m & Hw & Hm)|H]]; [by left| |by right; right]. right. left. exists m. split; [done|]. left. intros Hf. by apply Hm.
Qed.

Lemma open_inode_spec junk path omode s c t I : create_ready path s c t I -> length junk = Z.to_nat DIRSIZ -> Forall is_byte junk -> has_bit omode O_CREATE = true ->
  wp (open_inode junk path omode) (fun r s' => match r with
    | None => not_opened path c s t I s'
    | Some ip => create_post path T_FILE (new_fields 0 0 (zero_dinode T_FILE)) c s t I (Some ip) s'
    end) s.
Proof.
  intros R Hj Hjb Hc. unfold open_inode. rewrite Hc. apply wp_bind. eapply wp_mono; [apply (create_spec path junk T_FILE 0 0 s c t I); try done; by left|].
  intros [ip|] s1 Hp; [|apply wp_ret; by eapply create_none]. pose proof Hp as (x & l' & t' & I' & -> & A & Ht & Tr & m & (j & Uj & Hlj & Ej & Hq & Hp1) & Hw & Hk & Hcase).
  apply wp_bind, (wp_iat ip j); [apply Uj|]. destruct (in_use_facts _ _ _ _ _ A Uj) as (_ & Hr & Ed). rewrite Ed, Ej. rewrite Ej in Hr.
  destruct ((d_type (I' m) =? T_DEVICE) && _) eqn:Edev; [|by apply wp_ret].
  destruct (walk (tv_cur t) I (start_of path c) (elements path)) as [m0|] eqn:Ew.
  2: { destruct Hcase as (_ & Em & _). by rewrite Em in Edev. }
  destruct Hcase as (EF & EI & _ & Hf). pose proof (cr_names _ _ _ _ _ R) as N.
  assert (H0 : forall q, 0 <= refs (fs_inodes s) q) by (intros q; apply (refs_nonneg (fs_sb s) _ (tv_cur t) I), N).
  assert (Hml : d_nlink (I' m) <> 0).
  { rewrite EI. rewrite EF, EI in Hw. by apply (walk_good s t I (nr_at _ _ _ _ N) (nr_tree _ _ _ _ N) (elements path) (start_of path c) m (start_good path _ _ _ _ N)). }
  apply wp_bind, (iunlockput_linked _ t' I' ip j); [done|done|done|by rewrite Ej|by rewrite Ej; apply Tr|]. intros l2 Hm2 A2. apply wp_ret.
  rewrite EF, EI in *. exists x, l2, t', I. rewrite EF. do 4 (split; [done|]). split; [by apply (quiet_set _ ip j); [apply Uj| |]|].
  split; [rewrite Ej in Hm2; by apply (plus_minus (fs_inodes s) l' l2 m)|]. constructor; [done|]. right. left. exists m. split; [congruence|]. right. lia.
Qed.

(** ** The call *)

(** A file system at rest in which a file can be made. *)
Record open_ready (path : list Z) os c t I : Prop := {
  or_names : namex_ready (o_fs os) c t I;
  or_idle : idle_tx t;
  or_log : MAXOPBLOCKS + 1 < tv_nlog t;
  or_typed : forall m, 0 < refs (fs_inodes (o_fs os)) m -> d_type (I m) <> 0;
  or_free : 3 <= nfree (fs_inodes (o_fs os));
  or_map : sb_size (fs_sb (o_fs os)) <= BPB;
  or_path : Forall is_byte path /\ forall x, x ∈ path -> x <> 0;
  or_dirs : forall n, 0 <= n < sb_ninodes (fs_sb (o_fs os)) -> d_type (I n) = T_DIR -> d_size (I n) + DIRENT <= MAXFILE * BSIZE;
}.

Lemma open_create_ready path os c t I x : open_ready path os c t I -> fs_at (with_tx x (o_fs os)) (with_ops 1 t) I -> create_ready path (with_tx x (o_fs os)) c (with_ops 1 t) I.
Proof.
  intros [[N1 N2 N3 N4 N5 N6 N7 N8] Hid Hlog Hty Hf Hm Hp Hd] A. constructor; try done. intros n. by apply meta_room.
Qed.

(** The descriptor and the file that a call has made. *)
Record opened (path : list Z) (omode f fd : Z) c os t I os' t' I' : Prop := {
  op_fd : znth (o_ofile os') fd = Some (Some f);
  op_others : forall k, k <> fd -> znth (o_ofile os') k = znth (o_ofile os) k;
  op_file : exists x i, open_file f x i os' t' I' /\ f_readable x = negb (has_bit omode O_WRONLY) /\ f_writable x = has_bit omode O_WRONLY || has_bit omode O_RDWR /\ f_ref x = 1 /\
    let m := i_inum i in
    walk (tv_cur t') I' (start_of path c) (elements path) = Some m /\
    (d_type (I' m) = T_FILE -> f_type x = FD_INODE /\ f_off x = 0) /\
    match walk (tv_cur t) I (start_of path c) (elements path) with
    | Some _ => tv_cur t' = tv_cur t /\ I' = I
    | None => d_type (I m) = 0 /\ d_type (I' m) = T_FILE /\ fdata (tv_cur t') (I' m) = [] /\
        (exists pd nm, walk_parent (tv_cur t) I (start_of path c) (elements path) = Some (pd, nm) /\
          forall k es, good (fs_sb (o_fs os)) I k -> walk (tv_cur t') I' k es = if decide (walk_parent (tv_cur t) I k es = Some (pd, nm)) then Some m else walk (tv_cur t) I k es) /\
        forall q, 0 <= q < sb_ninodes (fs_sb (o_fs os)) -> q <> m -> d_type (I q) <> T_DIR -> I' q = I q /\ fdata (tv_cur t') (I' q) = fdata (tv_cur t) (I q)
    end;
  op_paths : forall k es q, good (fs_sb (o_fs os)) I k -> walk (tv_cur t) I k es = Some q -> walk (tv_cur t') I' k es = Some q;
}.

(** The state after the one transaction of the call. *)
Record one_step os t os' t' I' : Prop := {
  os_at : fs_at (o_fs os') t' I';
  os_idle : idle_tx t';
  os_tree : tree_ok (fs_sb (o_fs os)) (tv_cur t') I';
  os_quiet : quiet (fs_inodes (o_fs os'));
  os_sb : fs_sb (o_fs os') = fs_sb (o_fs os);
  os_user : fs_user (o_fs os') = fs_user (o_fs os);
  os_cwd : fs_cwd (o_fs os') = fs_cwd (o_fs os);
  os_hist : tv_hist t' = tv_hist t ++ [tv_committed t];
  os_boot : tv_boot t' = tv_boot t;
}.

Lemma commit_step os os1 t t1 I1 x y l : o_fs os1 = with_tx y (with_inodes l (with_tx x (o_fs os))) -> idle_tx t -> same_tx (with_ops 1 t) t1 -> fs_at (o_fs os1) (committed t1) I1 ->
  tree_ok (fs_sb (o_fs os)) (tv_cur t1) I1 -> quiet l -> one_step os t os1 (committed t1) I1.
Proof.
  intros E [D1 D2 D3 D4] (lg & F & ->) A Tr Hq. constructor; try rewrite E; try done. rewrite <- E. done.
Qed.

Lemma open_as_fields ip omode i x : let y := open_as ip omode i (set_fref 1 x) in f_ip y = ip /\ f_ref y = 1 /\ f_readable y = negb (has_bit omode O_WRONLY) /\
  f_writable y = has_bit omode O_WRONLY || has_bit omode O_RDWR /\ (d_type (i_d i) = T_FILE -> f_type y = FD_INODE /\ f_off y = 0).
Proof. unfold open_as. destruct (Z.eqb_spec (d_type (i_d i)) T_DEVICE) as [->|]; done. Qed.

Lemma opened_file path omode f fd c os t I os' t2 I2 x0 ip j m x y l' : open_ready path os c t I -> one_step os t os' (committed t2) I2 -> tv_nlog t2 = tv_nlog t ->
  znth (o_files os) f = Some x0 -> znth (o_ofile os) fd = Some None -> o_fs os' = with_tx y (with_inodes (zset l' ip (set_lock false j)) (with_tx x (o_fs os))) ->
  o_ofile os' = zset (o_ofile os) fd (Some f) -> znth (o_files os') f = Some (open_as ip omode j (set_fref 1 x0)) -> in_use l' ip j -> i_d j = I2 m -> i_inum j = m ->
  good (fs_sb (o_fs os)) I2 m -> walk (tv_cur t2) I2 (start_of path c) (elements path) = Some m ->
  (forall k es q, good (fs_sb (o_fs os)) I k -> walk (tv_cur t) I k es = Some q -> walk (tv_cur t2) I2 k es = Some q) ->
  match walk (tv_cur t) I (start_of path c) (elements path) with
  | Some _ => tv_cur t2 = tv_cur t /\ I2 = I
  | None => d_type (I m) = 0 /\ I2 m = new_fields 0 0 (zero_dinode T_FILE) /\
      (exists pd nm, walk_parent (tv_cur t) I (start_of path c) (elements path) = Some (pd, nm) /\
        forall k es, good (fs_sb (o_fs os)) I k -> walk (tv_cur t2) I2 k es = if decide (walk_parent (tv_cur t) I k es = Some (pd, nm)) then Some m else walk (tv_cur t) I k es) /\
      forall q, 0 <= q < sb_ninodes (fs_sb (o_fs os)) -> q <> m -> d_type (I q) <> T_DIR -> I2 q = I q /\ fdata (tv_cur t2) (I2 q) = fdata (tv_cur t) (I q)
  end -> opened path omode f fd c os t I os' (committed t2) I2.
Proof.
  intros R St Hnl Hx0 Hofd Efs Eof Hfile Uj Ed Ej (Hm & Hmt & Hml) Hw Hk Hcase. destruct (open_as_fields ip omode j x0) as (Fi & Fr & F1 & F2 & F3). constructor.
  - rewrite Eof. by apply znth_zset_eq, (znth_Some_lt _ _ None).
  - intros k Hne. rewrite Eof. rewrite (znth_zset _ _ _ _ None) by done. by rewrite decide_False.
  - exists (open_as ip omode j (set_fref 1 x0)), (set_lock false j). split_and!; try done.
    + constructor; rewrite ?(os_sb _ _ _ _ _ St), ?(os_user _ _ _ _ _ St); try done.
      * rewrite Fi, Efs. by apply znth_zset_eq, (znth_Some_lt _ _ j), Uj.
      * apply Uj.
      * apply St.
      * cbn [set_lock i_inum]. by rewrite Ej.
      * apply R.
      * apply St.
      * apply St.
      * apply R.
      * cbn [committed tv_nlog]. rewrite Hnl. apply R.
    + cbn [set_lock i_inum committed tv_cur]. cbv zeta. rewrite Ej, Hw. rewrite Ed in F3. split_and!; [done|done|].
      destruct (walk (tv_cur t) I _ _); [done|]. destruct Hcase as (H1 & H2 & H3 & H4). rewrite H2. done.
  - done.
Qed.

Lemma sys_open_spec junk os c t I omode n buf f fd : let path := cstr buf in open_ready path os c t I -> length junk = Z.to_nat DIRSIZ -> Forall is_byte junk ->
  a_int 1 (fs_user (o_fs os)) = Done omode (fs_user (o_fs os)) -> a_str 0 MAXPATH (fs_user (o_fs os)) = Done (n, buf) (fs_user (o_fs os)) -> 0 <= n ->
  has_bit omode O_CREATE = true -> has_bit omode O_TRUNC = false -> unused_file (o_files os) 0 = Some f -> unused_fd (o_ofile os) 0 = Some fd ->
  wp (sys_open junk) (fun r os' => exists t' I', one_step os t os' t' I' /\
    (r = fd /\ opened path omode f fd c os t I os' t' I' \/
     r = ERR /\ o_files os' = o_files os /\ o_ofile os' = o_ofile os /\ same_counts (fs_inodes (o_fs os)) (fs_inodes (o_fs os')) /\
       refused (fs_sb (o_fs os)) path c (tv_cur t) I (tv_cur t') I')) os.
Proof.
  intros path R Hj Hjb Ha Hp Hn Hcr Htr Hf Hfd. unfold sys_open. apply wp_bind, (wp_args _ omode); [done|]. apply wp_bind, (wp_args _ (n, buf)); [done|]. cbn [fst snd].
  destruct (Z.ltb_spec n 0); [lia|]. fold path. apply wp_bind, wp_in_fs, (wp_begin _ t I); [apply R|apply R|]. intros x A1.
  pose proof (open_create_ready _ _ _ _ _ _ R A1) as CR. apply wp_bind, wp_in_fs. eapply wp_mono; [by apply (open_inode_spec junk path omode _ c (with_ops 1 t) I)|].
  intros [ip|] s2 H2.
  - destruct H2 as (x2 & l' & t2 & I2 & -> & A2 & Ht2 & Tr2 & m & (j & Uj & Hlj & Ej & Hq2 & Hp2) & Hw & Hk & Hcase). pose proof Ht2 as (lg & F & Et2).
    apply wp_bind, (alloc_fd_spec f fd); [done|done|]. intros x0 Hx0 Hr0 Hofd. cbn [with_fs o_files o_ofile] in Hx0, Hofd.
    pose proof (in_use_facts _ _ _ _ _ A2 Uj) as (_ & Hm & Ed). rewrite Ej in Hm, Ed.
    apply wp_bind, wp_in_fs, (wp_iat ip j); [apply Uj|]. apply wp_bind, (wp_mod_file f _ (set_fref 1 x0)); [apply znth_zset_eq, (znth_Some_lt _ _ x0), Hx0|].
    rewrite Htr. cbn [andb]. apply wp_bind, wp_ret. apply wp_bind, wp_in_fs, (iunlock_spec _ t2 I2 ip j); [exact A2|exact Uj|exact Hlj|]. intros s3 A3.
    apply wp_bind, wp_in_fs, (wp_end _ t2 I2); [exact A3|by rewrite Et2|rewrite Et2; apply R|]. intros y A4. apply wp_ret. exists (committed t2), I2.
    set (l3 := zset l' ip (set_lock false j)) in *. match goal with |- one_step _ _ ?o _ _ /\ _ => set (os4 := o) in * end.
    assert (St : one_step os t os4 (committed t2) I2).
    { apply (commit_step os _ t t2 I2 x2 y l3); [done|apply R|done|exact A4|exact Tr2|]. apply (quiet_set _ ip j); [apply Uj|done|done]. }
    split; [exact St|]. left. split; [done|].
    apply (opened_file path omode f fd c os t I os4 t2 I2 x0 ip j m x2 y l' R St); [by rewrite Et2|exact Hx0|exact Hofd|done|done| |exact Uj|exact Ed|exact Ej| |exact Hw|exact Hk|].
    + apply znth_zset_eq, (znth_Some_lt _ _ (set_fref 1 x0)), znth_zset_eq, (znth_Some_lt _ _ x0), Hx0.
    + split; [exact Hm|]. change (tv_cur (with_ops 1 t)) with (tv_cur t) in Hcase. destruct (walk (tv_cur t) I (start_of path c) (elements path)) as [m0|] eqn:Ew.
      * destruct Hcase as (EF & -> & _). rewrite EF in Hw. apply (walk_good (o_fs os) t I (nr_at _ _ _ _ (or_names _ _ _ _ _ R)) (nr_tree _ _ _ _ (or_names _ _ _ _ _ R)) (elements path) (start_of path c)); [|done].
        apply (start_good path _ _ t), R.
      * by destruct Hcase as (_ & -> & _).
    + change (tv_cur (with_ops 1 t)) with (tv_cur t) in Hcase. destruct (walk (tv_cur t) I (start_of path c) (elements path)); [|exact Hcase]. by destruct Hcase as (-> & -> & _).
  - destruct H2 as (x2 & l' & t2 & I2 & -> & A2 & Ht2 & Tr2 & Hq2 & Hc2 & Rf). pose proof Ht2 as (lg & F & Et2).
    apply wp_bind, wp_in_fs, (wp_end _ t2 I2); [exact A2|by rewrite Et2|rewrite Et2; apply R|]. intros y A3. apply wp_ret. exists (committed t2), I2. split.
    + by apply (commit_step os _ t t2 I2 x2 y l'); [|apply R|..].
    + right. done.
Qed.
End open.

Section crash.
Context {C U W : Type} {BC : BufferCache C} {OK : BufferCacheOK C} {UM : UserMemory U} {UMok : UserMemoryOK U} {ST : Streams W U} {SA : SysArgs U}.
Implicit Types (os : ost (lst C) U W) (t : tview) (I : Z -> dinode).

Lemma one_step_sound os t os' t' I' : one_step os t os' t' I' -> sound_run (fs_sb (o_fs os)) t -> sound_run (fs_sb (o_fs os')) t'.
Proof.
  intros [A Hid Tr _ Esb _ _ Eh Eb] [S1 S2 S3]. rewrite Esb. constructor; [done|by rewrite Eb|]. intros G [HG|HG%list_elem_of_singleton]%elem_of_app; [apply S3; by rewrite <- Eh|].
  rewrite HG, (id_commit _ Hid). apply (inv_ext _ _ I'); [rewrite <- Esb; apply A|]. apply Tr.
Qed.

(** C7: [open] with [O_CREATE] and without [O_TRUNC], when the table of open files
    and the table of descriptors have a free entry, is one transaction.  The call
    returns the lowest free descriptor, for a file with one reference whose inode
    the path leads to: the inode the path led to before, and then nothing on the
    disk changes, or a new empty one; then exactly one name is new, that is, the
    paths that end in it lead to the new inode, every other path leads where it
    led, or nowhere if it led nowhere, and every other file is as it was.
    Otherwise it returns -1 and no path leads elsewhere: there is no such
    directory, a directory or a device without a driver has the name, or the
    inodes or the blocks are used up.  After a
    crash at any disk write of the call, crashes during recovery included, the
    machine boots into a state committed before or into the one the call made;
    into the latter once the call has returned and no disk write is lost. *)
Theorem open_crash_safe junk os c t I omode n buf f fd : let path := cstr buf in let sb := fs_sb (o_fs os) in
  open_ready path os c t I -> sound_run sb t -> length junk = Z.to_nat DIRSIZ -> Forall is_byte junk ->
  a_int 1 (fs_user (o_fs os)) = Done omode (fs_user (o_fs os)) -> a_str 0 MAXPATH (fs_user (o_fs os)) = Done (n, buf) (fs_user (o_fs os)) -> 0 <= n ->
  has_bit omode O_CREATE = true -> has_bit omode O_TRUNC = false -> unused_file (o_files os) 0 = Some f -> unused_fd (o_ofile os) 0 = Some fd ->
  wp (sys_open junk) (fun r os' => exists t' I' v, one_step os t os' t' I' /\ c_shows (l_cache (fs_tx (o_fs os'))) v /\
    (r = fd /\ opened path omode f fd c os t I os' t' I' \/
     r = ERR /\ o_files os' = o_files os /\ o_ofile os' = o_ofile os /\ same_counts (fs_inodes (o_fs os)) (fs_inodes (o_fs os')) /\ refused sb path c (tv_cur t) I (tv_cur t') I') /\
    forall k D', crashes (sb_nlog sb) (sb_logstart sb) (C := C) (apply_writes (tv_boot t) (take k (cv_writes v))) D' ->
    exists G, recovers (C := C) (U := U) sb D' G /\ (G ∈ tv_hist t ++ [tv_committed t] \/ G = tv_cur t') /\ ((length (cv_writes v) <= k)%nat -> G = tv_cur t')) os.
Proof.
  intros path sb R Hs Hj Hjb Ha Hp Hn Hcr Htr Hf Hfd. eapply wp_mono; [by apply (sys_open_spec junk os c t I omode n buf f fd)|].
  intros r os' (t' & I' & St & Hres). pose proof St as [A Hid _ _ Esb _ _ Eh Eb]. destruct (fa_tx _ _ _ A) as [(v & Hv & _) En Es]. exists t', I', v. do 3 (split; [done|]).
  intros k D' Hc. unfold sb in Hc. rewrite <- Esb, <- En, <- Es, <- Eb in Hc.
  destruct (crash_recovers (o_fs os') t' I' v k D' A (id_held _ Hid) (one_step_sound _ _ _ _ _ St Hs) Hv Hc) as (G & HG & Hlast & Hrec).
  exists G. rewrite Esb in Hrec. split; [done|]. rewrite <- (id_commit _ Hid). split; [|done]. rewrite Eh in HG.
  apply elem_of_app in HG as [HG|HG%list_elem_of_singleton]; [by left|by right].
Qed.
End crash.

(** ** A concrete call

    [open("/a", O_CREATE | O_RDWR)] on the machine that boots from the disk of
    FsWitness.v. *)

#[local] Existing Instance no_streams.
#[local] Instance ex_args : SysArgs mem := {| a_int _ := ret 514; a_addr _ := ret 0; a_str _ _ := ret (2, [47; 97; 0]) |}.

Lemma ex_open_ready : exists D (os : ost (lst bst) mem unit) c, image_of ex_files D /\ open_ready [47; 97] os c (view D) (inodes D) /\
  fs_sb (o_fs os) = the_superblock /\ o_files os = [ex_open 0; set_fref 0 (ex_open 0)] /\ o_ofile os = [Some 0; None].
Proof.
  destruct ex_powered as (m1 & D & c & Hm & HD & Hp). pose proof (image_pw ex_files _ D HD (fk_count _ ex_files_ok) (mkfs_image_done ex_files ex_mk m1 ex_files_ok Hm)) as Him. clear Hm HD.
  destruct (proj1 (wp_Done _ _ _) (boot_ready ex_files D [] _ ex_files_ok ex_names_ok ltac:(done) Him Hp)) as ([] & s & _ & cwd & Hready & Esb & _ & Hf & Hr).
  exists D, (mk_ost s tt [ex_open 0; set_fref 0 (ex_open 0)] [Some 0; None]), cwd. split; [exact Him|]. split; [|done]. destruct (im_root _ _ Him) as (Ht & _).
  constructor; cbn [o_fs]; rewrite ?Esb; [exact Hready|done| | | | | |].
  - cbn [booted_view tv_nlog]. by rewrite the_superblock_eq.
  - intros m ->%Hr. by rewrite Ht.
  - rewrite Hf. unfold NINODE. lia.
  - by rewrite the_superblock_eq.
  - split; [by repeat constructor|]. intros x Hx ->. repeat (apply elem_of_cons in Hx as [Hx|Hx]; [done|]). by apply elem_of_nil in Hx.
  - intros n Hn Hd. rewrite (only_root ex_files D Him n Hn Hd), (root_size ex_files D Him). vm_compute. done.
Qed.

Lemma open_crash_safe_witness : exists D (os : ost (lst bst) mem unit) c, image_of ex_files D /\ let t := view D in let I := inodes D in
  wp (sys_open (replicate 14 0)) (fun r os' => exists t' I' v, one_step os t os' t' I' /\ c_shows (l_cache (fs_tx (o_fs os'))) v /\
    (r = 1 /\ opened [47; 97] 514 1 1 c os t I os' t' I' \/
     r = ERR /\ o_files os' = o_files os /\ o_ofile os' = o_ofile os /\ same_counts (fs_inodes (o_fs os)) (fs_inodes (o_fs os')) /\
       refused the_superblock [47; 97] c (tv_cur t) I (tv_cur t') I') /\
    forall k D', crashes (sb_nlog the_superblock) (sb_logstart the_superblock) (C := bst) (apply_writes (tv_boot t) (take k (cv_writes v))) D' ->
    exists G, recovers (C := bst) (U := mem) the_superblock D' G /\ (G ∈ tv_hist t ++ [tv_committed t] \/ G = tv_cur t') /\ ((length (cv_writes v) <= k)%nat -> G = tv_cur t')) os.
Proof.
  destruct ex_open_ready as (D & os & c & Him & R & Esb & Ef & Eo). exists D, os, c. split; [exact Him|]. cbv zeta.
  pose proof (open_crash_safe (replicate 14 0) os c (view D) (inodes D) 514 2 [47; 97; 0] 1 1) as H. cbv zeta in H. rewrite Esb, Ef, Eo in H.
  rewrite Ef, Eo. apply H; [exact R|by apply ex_sound|done|by repeat constructor|done|done|done|done|done|done|done].
Defined.
