(* ===== verification/Sh.v ===== *)
(** * The shell: user/sh.c

    The parser of the shell on the buffer of one line, with pointers into the
    buffer as indices, and [runcmd] on the descriptors of the processes it
    forks.  The parser accepts exactly the lines of a grammar, and the strings
    it leaves in the buffer are those of the command the grammar assigns to
    the line.

    The command structures come from [malloc], which is taken to succeed; they
    are trees.  [parseexec] goes on to fill in the arguments of a structure
    that [parseredirs] has already wrapped: the model keeps the arguments and
    the redirections apart until both are complete. *)

From stdpp Require Import base numbers list gmap strings.
From Stdlib Require Import ZArith Lia.
From S2P Require Import Prelude Monad Syscall SysFile.
Open Scope Z_scope.

(** ** Commands *)

Definition MAXARGS : Z := 10.

(** A string in the buffer: its first character and the one after its last. *)
Abbreviation span := (Z * Z)%type.
(** A command, with its strings as elements of [A]. *)
Inductive cmd (A : Type) :=
| EXEC (argv : list A)
| REDIR (c : cmd A) (file : A) (mode fd : Z)
| PIPE (left right : cmd A)
| LIST (left right : cmd A)
| BACK (c : cmd A).
Arguments EXEC {A} argv. Arguments REDIR {A} c file mode fd. Arguments PIPE {A} left right. Arguments LIST {A} left right. Arguments BACK {A} c.
(** A redirection that waits for its command: file, mode and descriptor. *)
Abbreviation redir A := (A * Z * Z)%type.
Definition wrap {A} (c : cmd A) (rs : list (redir A)) : cmd A := fold_left (fun c r => REDIR c r.1.1 r.1.2 r.2) rs c.

Definition whitespace : list Z := [32; 9; 13; 10; 11].
Definition symbols : list Z := [60; 124; 62; 38; 59; 40; 41].
(** [strchr(s, c)] of a string without its terminator, as a truth value. *)
Definition strchr (s : list Z) (c : Z) : bool := existsb (Z.eqb c) s.

(** ** Tokens *)

Section parser.
Variables (buf : list Z) (es : Z).

(** [*s] *)
Definition char_at (s : Z) : M Z Z := deref (znth buf s).
(** [while(s < es && p( *s )) s++], with [n] characters left before [es]. *)
Fixpoint skip (p : Z -> bool) (n : nat) (s : Z) : M Z Z :=
  match n with
  | O => ret s
  | S n => let! c := char_at s in if p c then skip p n (s + 1) else ret s
  end.
Definition skip_while (p : Z -> bool) (s : Z) : M Z Z := skip p (Z.to_nat (es - s)) s.
Definition is_space (c : Z) : bool := strchr whitespace c.
Definition is_word (c : Z) : bool := negb (strchr whitespace c) && negb (strchr symbols c).

Definition gettoken : M Z (Z * span) :=
  let! s := gets id in
  let! s := skip_while is_space s in
  let q := s in
  let! c := char_at s in
  let! r :=
    (if c =? 0 then ret (c, s)
     else if strchr [124; 40; 41; 59; 38; 60] c then ret (c, s + 1)
     else if c =? 62 then
       let! d := char_at (s + 1) in
       if d =? 62 then ret (43, s + 2) else ret (62, s + 1)
     else let! s := skip_while is_word s in ret (97, s)) in
  let eq := r.2 in
  let! s := skip_while is_space eq in
  modify (fun _ => s);;
  ret (r.1, (q, eq)).

Definition peek (toks : list Z) : M Z bool :=
  let! s := gets id in
  let! s := skip_while is_space s in
  modify (fun _ => s);;
  let! c := char_at s in
  ret (negb (c =? 0) && strchr toks c).

(** ** Parsing *)

(** The redirections that [parseredirs] wraps around its command. *)
Fixpoint parseredirs (fuel : nat) : M Z (list (redir span)) :=
  match fuel with
  | O => blocked
  | S fuel =>
    let! more := peek [60; 62] in
    if more : bool then
      let! tok := gettoken in
      let! f := gettoken in
      if negb (f.1 =? 97) then panic "missing file for redirection"
      else
        let! rs := parseredirs fuel in
        ret (if tok.1 =? 60 then (f.2, O_RDONLY, 0) :: rs
             else if tok.1 =? 62 then (f.2, Z.lor (Z.lor O_WRONLY O_CREATE) O_TRUNC, 1) :: rs
             else if tok.1 =? 43 then (f.2, Z.lor O_WRONLY O_CREATE, 1) :: rs
             else rs)
    else ret []
  end.

(** The loop of [parseexec] with [argc] arguments so far: the other arguments,
    and the redirections. *)
Fixpoint parseargs (fuel : nat) (argc : Z) : M Z (list span * list (redir span)) :=
  match fuel with
  | O => blocked
  | S fuel =>
    let! stop := peek [124; 41; 38; 59] in
    if stop : bool then ret ([], [])
    else
      let! t := gettoken in
      if t.1 =? 0 then ret ([], [])
      else if negb (t.1 =? 97) then panic "syntax"
      else if MAXARGS <=? argc + 1 then panic "too many args"
      else
        let! rs := parseredirs fuel in
        let! a := parseargs fuel (argc + 1) in
        ret (t.2 :: a.1, rs ++ a.2)
  end.

(** The functions that call each other; [line] is [parseline]. *)
Definition parseblock (line : M Z (cmd span)) (fuel : nat) : M Z (cmd span) :=
  let! b := peek [40] in
  if negb b then panic "parseblock"
  else
    gettoken;;
    let! c := line in
    let! b := peek [41] in
    if negb b then panic "syntax - missing )"
    else
      gettoken;;
      let! rs := parseredirs fuel in
      ret (wrap c rs).
Definition parseexec (line : M Z (cmd span)) (fuel : nat) : M Z (cmd span) :=
  let! b := peek [40] in
  if b : bool then parseblock line fuel
  else
    let! rs := parseredirs fuel in
    let! a := parseargs fuel 0 in
    ret (wrap (EXEC a.1) (rs ++ a.2)).
Fixpoint parsepipe (line : M Z (cmd span)) (fuel : nat) : M Z (cmd span) :=
  match fuel with
  | O => blocked
  | S fuel =>
    let! c := parseexec line fuel in
    let! b := peek [124] in
    if b : bool then
      gettoken;;
      let! c' := parsepipe line fuel in
      ret (PIPE c c')
    else ret c
  end.
Fixpoint parsebacks (fuel : nat) (c : cmd span) : M Z (cmd span) :=
  match fuel with
  | O => blocked
  | S fuel =>
    let! b := peek [38] in
    if b : bool then gettoken;; parsebacks fuel (BACK c) else ret c
  end.
Fixpoint parseline (fuel : nat) : M Z (cmd span) :=
  match fuel with
  | O => blocked
  | S fuel =>
    let! c := parsepipe (parseline fuel) fuel in
    let! c := parsebacks fuel c in
    let! b := peek [59] in
    if b : bool then
      gettoken;;
      let! c' := parseline fuel in
      ret (LIST c c')
    else ret c
  end.
End parser.

(** [*s = 0] *)
Definition put_nul (s : Z) (buf : list Z) : list Z := zset buf s 0.
Fixpoint nulterminate (c : cmd span) (buf : list Z) : list Z :=
  match c with
  | EXEC argv => fold_left (fun buf a => put_nul a.2 buf) argv buf
  | REDIR c file _ _ => put_nul file.2 (nulterminate c buf)
  | PIPE l r | LIST l r => nulterminate r (nulterminate l buf)
  | BACK c => nulterminate c buf
  end.

(** Enough fuel for a line: every call but the first of each function is
    preceded by a token. *)
Definition parse_fuel (buf : list Z) : nat := length buf + 2.

(** [parsecmd] of the string at the start of the buffer: the command and the
    buffer as it leaves it. *)
Definition parsecmd (buf : list Z) : outcome Z (cmd span * list Z) :=
  let es := buf_strlen buf in
  (let! c := parseline buf es (parse_fuel buf) in
   peek buf es [];;
   let! s := gets id in
   if negb (s =? es) then panic "syntax" else ret (c, nulterminate c buf)) 0.

(** ** The language of the shell *)

Inductive tok := TWord (w : list Z) | TSym (c : Z) | TApp.
Definition text (t : tok) : list Z := match t with TWord w => w | TSym c => [c] | TApp => [62; 62] end.
Definition kind (t : tok) : Z := match t with TWord _ => 97 | TSym c => c | TApp => 43 end.
Definition tok_ok (t : tok) : Prop :=
  match t with TWord w => w <> [] /\ Forall (fun c => is_word c = true /\ c <> 0) w | TSym c => c ∈ symbols | TApp => True end.
(** A token ends where it is followed by [l]. *)
Definition ends (t : tok) (l : list Z) : Prop :=
  match t, l with
  | TWord _, c :: _ => c = 0 \/ is_word c = false
  | TSym 62, c :: _ => c <> 62
  | _, _ => True
  end.
(** The string [l] consists of the tokens and of whitespace. *)
Fixpoint spaced (ts : list tok) (l : list Z) : Prop :=
  match ts with
  | [] => exists w r, Forall (fun c => is_space c = true) w /\ l = w ++ 0 :: r
  | t :: ts => exists w r, Forall (fun c => is_space c = true) w /\ l = w ++ text t ++ r /\ tok_ok t /\ ends t r /\ spaced ts r
  end.

(** The redirection that a token begins. *)
Definition redir_of (t : tok) (f : list Z) : option (redir (list Z)) :=
  match t with
  | TSym 60 => Some (f, O_RDONLY, 0)
  | TSym 62 => Some (f, Z.lor (Z.lor O_WRONLY O_CREATE) O_TRUNC, 1)
  | TApp => Some (f, Z.lor O_WRONLY O_CREATE, 1)
  | _ => None
  end.
Inductive g_redirs : list (redir (list Z)) -> list tok -> Prop :=
| redirs_nil : g_redirs [] []
| redirs_cons t f r rs ts : redir_of t f = Some r -> g_redirs rs ts -> g_redirs (r :: rs) (t :: TWord f :: ts).
(** Arguments and redirections in any order. *)
Inductive g_args : list (list Z) -> list (redir (list Z)) -> list tok -> Prop :=
| args_nil : g_args [] [] []
| args_word w ws rs ts : g_args ws rs ts -> g_args (w :: ws) rs (TWord w :: ts)
| args_redir t f r ws rs ts : redir_of t f = Some r -> g_args ws rs ts -> g_args ws (r :: rs) (t :: TWord f :: ts).

Inductive g_line : cmd (list Z) -> list tok -> Prop :=
| line_one c ts : g_backs c ts -> g_line c ts
| line_seq c c' ts ts' : g_backs c ts -> g_line c' ts' -> g_line (LIST c c') (ts ++ TSym 59 :: ts')
with g_backs : cmd (list Z) -> list tok -> Prop :=
| backs_pipe c ts : g_pipe c ts -> g_backs c ts
| backs_and c ts : g_backs c ts -> g_backs (BACK c) (ts ++ [TSym 38])
with g_pipe : cmd (list Z) -> list tok -> Prop :=
| pipe_one c ts : g_exec c ts -> g_pipe c ts
| pipe_bar c c' ts ts' : g_exec c ts -> g_pipe c' ts' -> g_pipe (PIPE c c') (ts ++ TSym 124 :: ts')
with g_exec : cmd (list Z) -> list tok -> Prop :=
| exec_args ws rs ts : g_args ws rs ts -> Z.of_nat (length ws) < MAXARGS -> g_exec (wrap (EXEC ws) rs) ts
| exec_block c rs ts ts' : g_line c ts -> g_redirs rs ts' -> g_exec (wrap c rs) (TSym 40 :: ts ++ TSym 41 :: ts').

Scheme g_line_mind := Induction for g_line Sort Prop
with g_backs_mind := Induction for g_backs Sort Prop
with g_pipe_mind := Induction for g_pipe Sort Prop
with g_exec_mind := Induction for g_exec Sort Prop.
Combined Scheme g_ind from g_line_mind, g_backs_mind, g_pipe_mind, g_exec_mind.

(** The strings of a command in the buffer, each up to its terminator. *)
Fixpoint cmd_map {A B} (f : A -> B) (c : cmd A) : cmd B :=
  match c with
  | EXEC argv => EXEC (map f argv)
  | REDIR c file mode fd => REDIR (cmd_map f c) (f file) mode fd
  | PIPE l r => PIPE (cmd_map f l) (cmd_map f r)
  | LIST l r => LIST (cmd_map f l) (cmd_map f r)
  | BACK c => BACK (cmd_map f c)
  end.
Definition string_at (buf : list Z) (a : span) : list Z := cstr (drop (Z.to_nat a.1) buf).

(** ** The lexer *)

Lemma strlen_app w l : Forall (fun c => c <> 0) w -> buf_strlen (w ++ l) = Z.of_nat (length w) + buf_strlen l.
Proof. induction 1 as [|c w Hc Hw IH]; [done|]. cbn [app buf_strlen length]. destruct (Z.eqb_spec c 0); [done|]. lia. Qed.
Lemma strlen_nonneg l : 0 <= buf_strlen l.
Proof. induction l as [|c l IH]; cbn [buf_strlen]; [done|]. destruct (c =? 0); lia. Qed.
Lemma space_nonzero c : is_space c = true -> c <> 0.
Proof. by intros H ->. Qed.
Lemma spaces_nonzero w : Forall (fun c => is_space c = true) w -> Forall (fun c => is_space c = true /\ c <> 0) w.
Proof. intros H. eapply Forall_impl; [done|]. intros c Hc. split; [done|by apply space_nonzero]. Qed.
Lemma symbol_spec c : c ∈ symbols -> is_space c = false /\ is_word c = false /\ c <> 0 /\ (c = 62 \/ strchr [124; 40; 41; 59; 38; 60] c = true /\ c <> 62).
Proof. unfold symbols. intros H. repeat (apply elem_of_cons in H as [->|H]; [split_and!; [done|done|done|first [by left|by right]]|]). by apply elem_of_nil in H. Qed.
Lemma word_spec c : is_word c = true -> c <> 0 -> is_space c = false /\ strchr [124; 40; 41; 59; 38; 60] c = false /\ c <> 62 /\ forall toks, toks ⊆ symbols -> strchr toks c = false.
Proof.
  unfold is_word. intros [H1%negb_true_iff H2%negb_true_iff]%andb_true_iff H0.
  assert (Hs : forall x, x ∈ symbols -> x <> c). { intros x Hx ->. assert (strchr symbols c = true); [|congruence]. apply existsb_exists. exists c. split; [by apply list_elem_of_In|apply Z.eqb_refl]. }
  assert (Ht : forall toks, toks ⊆ symbols -> strchr toks c = false).
  { intros toks Hsub. destruct (strchr toks c) eqn:E; [|done]. apply existsb_exists in E as (x & Hx%list_elem_of_In & ->%Z.eqb_eq). by destruct (Hs x); [apply Hsub|]. }
  split_and!; [done|apply Ht; unfold symbols; set_solver| |done]. intros ->. by destruct (Hs 62); [unfold symbols; set_solver|].
Qed.

Lemma spaced_ne ts l : spaced ts l -> l <> [].
Proof.
  destruct ts as [|t ts]; cbn [spaced].
  - by intros ([|] & r & _ & ->).
  - intros ([|] & r & _ & -> & Hok & _); [|done]. destruct t as [[|]| |]; [by destruct Hok|done..].
Qed.

Section lexer.
Variables (buf : list Z) (es : Z).

(** The tokens left at position [s]. *)
Record here (s : Z) (ts : list tok) : Prop := {
  hr_pos : 0 <= s;
  hr_es : es = s + buf_strlen (drop (Z.to_nat s) buf);
  hr_toks : spaced ts (drop (Z.to_nat s) buf);
}.

Lemma char_at_drop s c l st : 0 <= s -> drop (Z.to_nat s) buf = c :: l -> char_at buf s st = Done c st.
Proof.
  intros Hs E. unfold char_at, znth. destruct (Z.ltb_spec s 0); [lia|]. assert (buf !! Z.to_nat s = Some c) as ->; [|done].
  rewrite <- (Nat.add_0_r (Z.to_nat s)), <- lookup_drop, E. done.
Qed.
Lemma drop_more s w r : 0 <= s -> drop (Z.to_nat s) buf = w ++ r -> drop (Z.to_nat (s + Z.of_nat (length w))) buf = r.
Proof. intros Hs E. replace (Z.to_nat (s + Z.of_nat (length w))) with (Z.to_nat s + length w)%nat by lia. by rewrite <- drop_drop, E, drop_app_length. Qed.

Lemma skip_spec p w : forall s r st, 0 <= s -> drop (Z.to_nat s) buf = w ++ r -> Forall (fun c => p c = true /\ c <> 0) w ->
  match r with c :: _ => c = 0 \/ p c = false | [] => False end -> es = s + buf_strlen (w ++ r) ->
  skip_while buf es p s st = Done (s + Z.of_nat (length w)) st.
Proof.
  unfold skip_while. induction w as [|c w IH]; intros s r st Hs E Hw Hr Hes.
  - destruct r as [|c r]; [done|]. cbn [length app] in *. rewrite Z.add_0_r. cbn [buf_strlen] in Hes. destruct (Z.eqb_spec c 0) as [->|Hc].
    + replace (Z.to_nat (es - s)) with 0%nat by lia. done.
    + destruct Hr as [|Hp]; [done|]. pose proof (strlen_nonneg r). destruct (Z.to_nat (es - s)) as [|n] eqn:En; [lia|]. cbn [skip]. unfold bind. by rewrite (char_at_drop s c r), Hp.
  - apply Forall_cons in Hw as [[Hp Hc] Hw']. cbn [app buf_strlen] in Hes. destruct (Z.eqb_spec c 0) as [|_]; [done|]. pose proof (strlen_nonneg (w ++ r)).
    destruct (Z.to_nat (es - s)) as [|n] eqn:En; [lia|]. cbn [skip]. unfold bind at 1. rewrite (char_at_drop s c (w ++ r)), Hp by done.
    specialize (IH (s + 1) r st). replace (Z.to_nat (es - (s + 1))) with n in IH by lia. rewrite IH; [cbn [length]; f_equal; lia|lia| |done|done|lia].
    exact (drop_more s [c] (w ++ r) Hs E).
Qed.

(** Whitespace in front of a token, or of the end. *)
Lemma skip_space s ts st : here s ts -> exists s', skip_while buf es is_space s st = Done s' st /\ s <= s' /\ here s' ts /\
  match ts with [] => exists r, drop (Z.to_nat s') buf = 0 :: r | t :: ts => exists r, drop (Z.to_nat s') buf = text t ++ r /\ tok_ok t /\ ends t r /\ spaced ts r end.
Proof.
  intros [H0 He Ht]. assert (Hsp : exists w r, Forall (fun c => is_space c = true) w /\ drop (Z.to_nat s) buf = w ++ r /\
    match ts with [] => exists r', r = 0 :: r' | t :: ts => exists r', r = text t ++ r' /\ tok_ok t /\ ends t r' /\ spaced ts r' end).
  { destruct ts as [|t ts]; [destruct Ht as (w & r & Hw & E); exists w, (0 :: r); eauto|]. destruct Ht as (w & r & Hw & E & H1 & H2 & H3). exists w, (text t ++ r). eauto 10. }
  destruct Hsp as (w & r & Hw & E & Hr). exists (s + Z.of_nat (length w)). pose proof (drop_more s w r H0 E) as Ed.
  assert (Hnz : Forall (fun c => c <> 0) w) by (eapply Forall_impl; [exact Hw|apply space_nonzero]).
  assert (Hfirst : match r with c :: _ => c = 0 \/ is_space c = false | [] => False end).
  { destruct ts as [|t ts]; [destruct Hr as [r' ->]; by left|]. destruct Hr as (r' & -> & Hok & _). destruct t as [wd|c|]; cbn [text app] in *; [|right; apply (symbol_spec c Hok)|by right].
    destruct Hok as [Hne Hf]. destruct wd as [|c wd]; [done|]. right. apply Forall_cons in Hf as [[H1 H2] _]. exact (proj1 (word_spec c H1 H2)). }
  split_and!; [apply (skip_spec is_space w s r); [done|done|by apply spaces_nonzero|done|by rewrite <- E]|lia| |].
  - constructor; [lia|rewrite Ed, He, E, (strlen_app w) by done; lia|]. rewrite Ed. destruct ts as [|t ts]; cbn [spaced].
    + destruct Hr as [r' ->]. exists [], r'. done.
    + destruct Hr as (r' & -> & H). exists [], r'. done.
  - rewrite Ed. by destruct ts.
Qed.

(** What [peek] sees. *)
Definition starts (toks : list Z) (ts : list tok) : bool := match ts with [] => false | t :: _ => match text t with c :: _ => strchr toks c | [] => false end end.

Lemma peek_spec toks s ts : here s ts -> exists s', peek buf es toks s = Done (starts toks ts) s' /\ here s' ts /\ (ts = [] -> s' = es).
Proof.
  intros H. destruct (skip_space s ts s H) as (s' & Es & _ & H' & Hl). exists s'. split; [|split; [done|]; intros ->; destruct Hl as (r & Ed); pose proof (hr_es _ _ H') as E; rewrite Ed in E; cbn [buf_strlen Z.eqb] in E; lia]. unfold peek, bind at 1. cbn [gets id]. unfold bind at 1. rewrite Es.
  unfold bind at 1, modify. unfold bind. assert (Hp : 0 <= s') by apply H'. destruct ts as [|t ts].
  - destruct Hl as (r & Ed). by rewrite (char_at_drop s' 0 r).
  - destruct Hl as (r & Ed & Hok & _). unfold starts. destruct (text t) as [|c tx] eqn:Et; [destruct t; [by destruct Hok|done|done]|].
    rewrite (char_at_drop s' c (tx ++ r)) by done. cbn [ret]. assert (c <> 0).
    { destruct t as [wd|d|]; cbn [text] in Et; [subst wd; destruct Hok as [_ Hf]; by inversion Hf as [|? ? [_ ?]]|injection Et as -> _; apply (symbol_spec c Hok)|by injection Et as <- _]. }
    destruct (Z.eqb_spec c 0); [done|]. done.
Qed.

(** A string of the buffer and its place. *)
Definition sub (a : span) : list Z := take (Z.to_nat (a.2 - a.1)) (drop (Z.to_nat a.1) buf).
Record word_at (a : span) : Prop := {
  wa_range : 0 <= a.1 < a.2;
  wa_chars : sub a <> [] /\ Forall (fun c => is_word c = true /\ c <> 0) (sub a);
  wa_end : match drop (Z.to_nat a.2) buf with c :: _ => c = 0 \/ is_word c = false | [] => False end;
}.

Lemma gettoken_end s : here s [] -> exists s' a, gettoken buf es s = Done (0, a) s' /\ here s' [].
Proof.
  intros H. destruct (skip_space s [] s H) as (s1 & E1 & _ & H1 & r & Ed). destruct (skip_space s1 [] s H1) as (s2 & E2 & _ & H2 & _). exists s2, (s1, s1). split; [|done].
  unfold gettoken. unfold bind at 1. cbn [gets id]. unfold bind at 1. rewrite E1. cbv zeta. unfold bind at 1. rewrite (char_at_drop s1 0 r) by (apply H1 || done).
  cbn [Z.eqb]. unfold bind at 1. cbn [ret fst snd]. unfold bind at 1. by rewrite E2.
Qed.
Lemma gettoken_spec s t ts : here s (t :: ts) -> exists s' a, gettoken buf es s = Done (kind t, a) s' /\ here s' ts /\ match t with TWord w => word_at a /\ sub a = w | _ => True end.
Proof.
  intros H. destruct (skip_space s (t :: ts) s H) as (s1 & E1 & _ & H1 & r & Ed & Hok & Hend & Hsp). pose proof (hr_pos _ _ H1) as Hp1.
  pose proof (drop_more s1 _ _ Hp1 Ed) as Ed2. set (e := s1 + Z.of_nat (length (text t))) in *.
  assert (Hnz : Forall (fun c => c <> 0) (text t)).
  { destruct t as [w|c|]; cbn [text]; [eapply Forall_impl; [apply Hok|]; by intros ? []|constructor; [apply (symbol_spec c Hok)|constructor]|by repeat constructor]. }
  assert (H2 : here e ts) by (constructor; [lia|rewrite Ed2, (hr_es _ _ H1), Ed, strlen_app by done; lia|by rewrite Ed2]).
  destruct (skip_space e ts s H2) as (s2 & E2 & _ & H3 & _). exists s2, (s1, e). split; [|split; [done|]].
  - unfold gettoken. unfold bind at 1. cbn [gets id]. unfold bind at 1. rewrite E1. cbv zeta. destruct t as [w|c|]; cbn [text kind] in *.
    + destruct w as [|c w]; [by destruct Hok|]. destruct Hok as [_ Hf]. pose proof Hf as [[Hw Hc] Hf']%Forall_cons. destruct (word_spec c Hw Hc) as (_ & Hsy & Hgt & _).
      unfold bind at 1. rewrite (char_at_drop s1 c (w ++ r)) by done. destruct (Z.eqb_spec c 0); [done|]. rewrite Hsy. destruct (Z.eqb_spec c 62); [done|].
      unfold bind at 1. unfold bind at 1. rewrite (skip_spec is_word (c :: w) s1 r); [|done|done|done| |by rewrite <- Ed; apply H1].
      * cbn [ret fst snd]. fold e. unfold bind at 1. by rewrite E2.
      * destruct r as [|d r]; [by apply spaced_ne in Hsp|done].
    + destruct (symbol_spec c Hok) as (_ & _ & Hc & Hsy). unfold bind at 1. rewrite (char_at_drop s1 c r) by done. destruct (Z.eqb_spec c 0); [done|].
      destruct Hsy as [->|[Hsy Hne]].
      * cbn [strchr existsb orb Z.eqb Pos.eqb]. unfold bind at 1. destruct r as [|d r]; [by apply spaced_ne in Hsp|].
        unfold bind at 1. rewrite (char_at_drop (s1 + 1) d r); [|lia|exact Ed2]. destruct (Z.eqb_spec d 62); [done|]. cbn [ret fst snd].
        change (s1 + 1) with e. unfold bind at 1. by rewrite E2.
      * rewrite Hsy. unfold bind at 1. cbn [ret fst snd]. change (s1 + 1) with e. unfold bind at 1. by rewrite E2.
    + unfold bind at 1. rewrite (char_at_drop s1 62 (62 :: r)) by done. cbn [strchr existsb orb Z.eqb Pos.eqb]. unfold bind at 1. unfold bind at 1.
      rewrite (char_at_drop (s1 + 1) 62 r); [|lia|exact (drop_more s1 [62] (62 :: r) Hp1 Ed)]. cbn [Z.eqb Pos.eqb ret fst snd]. change (s1 + 2) with e. unfold bind at 1. by rewrite E2.
  - destruct t as [w|c|]; [|done|done]. cbn [text] in *. assert (Esub : sub (s1, e) = w).
    { unfold sub, e. cbn [fst snd]. rewrite Ed. replace (Z.to_nat (s1 + Z.of_nat (length w) - s1)) with (length w) by lia. apply take_app_length. }
    split; [|done]. destruct Hok as [Hne Hf]. constructor; cbn [fst snd].
    + split; [done|]. unfold e. destruct w; [done|cbn [length]; lia].
    + by rewrite Esub.
    + rewrite Ed2. destruct r as [|d r]; [by apply spaced_ne in Hsp|done].
Qed.
End lexer.

(** ** The parser accepts only the language *)

(** The code returns with [Q], or reports an error. *)
Definition oks {S A} (m : M S A) (Q : A -> S -> Prop) (s : S) : Prop := match m s with Done a s' => Q a s' | Panic _ _ => True | _ => False end.
Lemma oks_bind {S A B} (m : M S A) (k : A -> M S B) Q s : oks m (fun a s' => oks (k a) Q s') s -> oks (bind m k) Q s.
Proof. unfold oks, bind. by destruct (m s). Qed.
Lemma oks_mono {S A} (m : M S A) (Q R : A -> S -> Prop) s : oks m Q s -> (forall a s', Q a s' -> R a s') -> oks m R s.
Proof. unfold oks. destruct (m s); auto. Qed.

Lemma oks_ret {S A} (a : A) (Q : A -> S -> Prop) s : Q a s -> oks (ret a) Q s.
Proof. done. Qed.
Lemma oks_panic {S A} msg (Q : A -> S -> Prop) s : oks (panic msg) Q s.
Proof. done. Qed.

Definition rmap {A B} (f : A -> B) (r : redir A) : redir B := (f r.1.1, r.1.2, r.2).
Lemma cmd_map_wrap {A B} (f : A -> B) rs : forall c, cmd_map f (wrap c rs) = wrap (cmd_map f c) (map (rmap f) rs).
Proof. induction rs as [|r rs IH]; intros c; [done|]. exact (IH (REDIR c r.1.1 r.1.2 r.2)). Qed.
(** All strings of a command. *)
Fixpoint spans {A} (c : cmd A) : list A :=
  match c with EXEC argv => argv | REDIR c f _ _ => f :: spans c | PIPE l r | LIST l r => spans l ++ spans r | BACK c => spans c end.
Lemma spans_wrap {A} (rs : list (redir A)) P : forall c, Forall P (spans c) -> Forall P (map (fun r => r.1.1) rs) -> Forall P (spans (wrap c rs)).
Proof. induction rs as [|r rs IH]; intros c Hc; [done|]. cbn [map]. intros [Hr Hrs]%Forall_cons. apply (IH (REDIR c r.1.1 r.1.2 r.2)); [by constructor|done]. Qed.

Lemma args_redirs rs ts : g_redirs rs ts -> forall ws rs' ts', g_args ws rs' ts' -> g_args ws (rs ++ rs') (ts ++ ts').
Proof. induction 1 as [|t f r rs ts Hr Hg IH]; intros ws rs' ts' Ha; [done|]. cbn [app]. econstructor; [done|]. by apply IH. Qed.

Section parse.
Variables (buf : list Z) (es : Z).
Abbreviation at_ := (here buf es).
Abbreviation word := (word_at buf).
Abbreviation str := (sub buf).

Lemma here_ok s t ts : at_ s (t :: ts) -> tok_ok t.
Proof. intros [_ _ (w & r & _ & _ & H & _)]. done. Qed.
Lemma kind_word t : tok_ok t -> kind t = 97 -> exists w, t = TWord w.
Proof. destruct t as [w|c|]; cbn [kind tok_ok]; [by exists w| |done]. intros Hc ->. unfold symbols in Hc. repeat (apply elem_of_cons in Hc as [Hc|Hc]; [done|]). by apply elem_of_nil in Hc. Qed.
Lemma kind_nonzero t : tok_ok t -> kind t <> 0.
Proof. destruct t as [w|c|]; cbn [kind tok_ok]; [done| |done]. intros Hc. apply (symbol_spec c Hc). Qed.
Lemma starts_word toks w ts : tok_ok (TWord w) -> toks ⊆ symbols -> starts toks (TWord w :: ts) = false.
Proof. intros [Hne Hf] Hs. cbn [starts text]. destruct w as [|c w]; [done|]. apply Forall_cons in Hf as [[H1 H2] _]. by apply word_spec. Qed.
(** The redirections. *)
Lemma starts_redir t ts : tok_ok t -> starts [60; 62] (t :: ts) = true -> t = TSym 60 \/ t = TSym 62 \/ t = TApp.
Proof.
  intros Hok Hs. destruct t as [w|c|]; [| |by auto].
  - rewrite starts_word in Hs; [done|done|]. unfold symbols. set_solver.
  - cbn [starts text strchr existsb orb] in Hs. destruct (Z.eqb_spec c 60) as [->|]; [by left|]. destruct (Z.eqb_spec c 62) as [->|]; [by right; left|done].
Qed.
Lemma starts_sym c t ts : tok_ok t -> c ∈ symbols -> c <> 62 -> starts [c] (t :: ts) = true -> t = TSym c.
Proof.
  intros Hok Hc Hne Hs. destruct t as [w|d|].
  - rewrite starts_word in Hs; [done|done|]. intros x ->%list_elem_of_singleton. done.
  - cbn [starts text strchr existsb orb] in Hs. destruct (Z.eqb_spec d c) as [->|]; done.
  - cbn [starts text strchr existsb orb] in Hs. destruct (Z.eqb_spec 62 c) as [<-|]; done.
Qed.

Lemma oks_peek toks s ts (Q : bool -> Z -> Prop) : at_ s ts -> (forall s', at_ s' ts -> Q (starts toks ts) s') -> oks (peek buf es toks) Q s.
Proof. intros H HQ. destruct (peek_spec _ _ toks s ts H) as (s' & E & H' & _). unfold oks. rewrite E. by apply HQ. Qed.
Lemma oks_gettoken s t ts (Q : Z * span -> Z -> Prop) : at_ s (t :: ts) ->
  (forall a s', at_ s' ts -> match t with TWord w => word a /\ str a = w | _ => True end -> Q (kind t, a) s') -> oks (gettoken buf es) Q s.
Proof. intros H HQ. destruct (gettoken_spec _ _ s t ts H) as (s' & a & E & H' & Ha). unfold oks. rewrite E. by apply HQ. Qed.
Lemma oks_gettoken_end s (Q : Z * span -> Z -> Prop) : at_ s [] -> (forall a s', at_ s' [] -> Q (0, a) s') -> oks (gettoken buf es) Q s.
Proof. intros H HQ. destruct (gettoken_end _ _ s H) as (s' & a & E & H'). unfold oks. rewrite E. by apply HQ. Qed.

Lemma parseredirs_sound fuel : forall s ts, at_ s ts -> (length ts < fuel)%nat ->
  oks (parseredirs buf es fuel) (fun rs s' => exists cs rest, ts = cs ++ rest /\ g_redirs (map (rmap str) rs) cs /\ Forall word (map (fun r => r.1.1) rs) /\ at_ s' rest) s.
Proof.
  induction fuel as [|fuel IH]; intros s ts H Hf; [lia|]. cbn [parseredirs]. apply oks_bind, (oks_peek _ s ts); [done|]. intros s1 H1.
  destruct (starts [60; 62] ts) eqn:Es; [|apply oks_ret; exists [], ts; split_and!; try done; constructor]. destruct ts as [|t ts]; [done|]. pose proof (here_ok _ _ _ H1) as Hok.
  pose proof (starts_redir t ts Hok Es) as Ht. apply oks_bind, (oks_gettoken s1 t ts); [done|]. intros a s2 H2 _.
  destruct ts as [|t2 ts]; [apply oks_bind, (oks_gettoken_end s2); [done|]; intros; apply oks_panic|]. pose proof (here_ok _ _ _ H2) as Hok2.
  apply oks_bind, (oks_gettoken s2 t2 ts); [done|]. intros b s3 H3 Hb. cbn [fst snd]. destruct (Z.eqb_spec (kind t2) 97) as [Ek|]; [|apply oks_panic]. cbn [negb].
  destruct (kind_word t2 Hok2 Ek) as [w ->]. destruct Hb as [Hb Eb]. cbn [length] in Hf. apply oks_bind. eapply oks_mono; [apply (IH s3 ts H3); lia|].
  intros rs s4 (cs & rest & -> & Hg & Hw & H4). apply oks_ret. exists (t :: TWord w :: cs), rest. split; [done|]. rewrite <- Eb.
  destruct Ht as [->|[->| ->]]; cbn [kind Z.eqb Pos.eqb map]; (split; [by econstructor|by split; [constructor|]]).
Qed.

Lemma parseargs_sound fuel : forall s ts argc, at_ s ts -> (length ts < fuel)%nat -> argc < MAXARGS ->
  oks (parseargs buf es fuel argc) (fun a s' => exists cs rest, ts = cs ++ rest /\ g_args (map str a.1) (map (rmap str) a.2) cs /\
    argc + Z.of_nat (length a.1) < MAXARGS /\ Forall word (a.1 ++ map (fun r => r.1.1) a.2) /\ at_ s' rest) s.
Proof.
  induction fuel as [|fuel IH]; intros s ts argc H Hf Ha; [lia|]. cbn [parseargs]. apply oks_bind, (oks_peek _ s ts); [done|]. intros s1 H1.
  destruct (starts _ ts); [apply oks_ret; exists [], ts; split_and!; try done; [constructor|cbn; lia]|]. destruct ts as [|t ts].
  - apply oks_bind, (oks_gettoken_end s1); [done|]. intros a s2 H2. apply oks_ret. exists [], []. split_and!; try done; [constructor|cbn; lia].
  - pose proof (here_ok _ _ _ H1) as Hok. apply oks_bind, (oks_gettoken s1 t ts); [done|]. intros a s2 H2 Hw. cbn [fst snd].
    destruct (Z.eqb_spec (kind t) 0) as [E|_]; [by destruct (kind_nonzero t)|]. destruct (Z.eqb_spec (kind t) 97) as [Ek|]; [|apply oks_panic]. cbn [negb].
    destruct (kind_word t Hok Ek) as [w ->]. destruct Hw as [Hw Ew]. destruct (Z.leb_spec MAXARGS (argc + 1)); [apply oks_panic|]. cbn [length] in Hf.
    apply oks_bind. eapply oks_mono; [apply (parseredirs_sound fuel s2 ts H2); lia|]. intros rs s3 (cs & rest & -> & Hg & Hws & H3). rewrite length_app in Hf.
    apply oks_bind. eapply oks_mono; [apply (IH s3 rest (argc + 1) H3); lia|]. intros a' s4 (cs' & rest' & -> & Hg' & Hn & Hws' & H4). apply oks_ret.
    exists (TWord w :: cs ++ cs'), rest'. cbn [fst snd]. rewrite !map_app. split_and!.
    + cbn [app]. by rewrite <- app_assoc.
    + cbn [map]. rewrite Ew. constructor. by apply args_redirs.
    + cbn [length]. lia.
    + cbn [app]. constructor; [done|]. apply Forall_app in Hws' as [H5 H6]. rewrite !Forall_app. done.
    + done.
Qed.

(** On fewer than [n] tokens a function of the parser returns a command of [G]. *)
Definition parses (n : nat) (m : M Z (cmd span)) (G : cmd (list Z) -> list tok -> Prop) : Prop := forall s ts, at_ s ts -> (length ts < n)%nat ->
  oks m (fun c s' => exists cs rest, ts = cs ++ rest /\ G (cmd_map str c) cs /\ Forall word (spans c) /\ at_ s' rest) s.

Lemma parseblock_sound line fuel n : parses n line g_line -> forall s ts, at_ s ts -> (length ts <= n)%nat -> (length ts < fuel)%nat ->
  oks (parseblock buf es line fuel) (fun c s' => exists cs rest, ts = cs ++ rest /\ g_exec (cmd_map str c) cs /\ Forall word (spans c) /\ at_ s' rest) s.
Proof.
  intros Hl s ts H Hn Hf. unfold parseblock. apply oks_bind, (oks_peek _ s ts); [done|]. intros s1 H1. destruct ts as [|t ts]; [apply oks_panic|].
  destruct (starts [40] (t :: ts)) eqn:Es; [|apply oks_panic]. cbn [negb]. pose proof (starts_sym 40 t _ (here_ok _ _ _ H1) ltac:(unfold symbols; set_solver) ltac:(done) Es) as ->.
  cbn [length] in Hn, Hf. apply oks_bind, (oks_gettoken s1 (TSym 40) ts); [done|]. intros a s2 H2 _. apply oks_bind. eapply oks_mono; [apply (Hl s2 ts H2); lia|].
  intros c s3 (cs & rest & -> & Hg & Hw & H3). rewrite length_app in Hn, Hf. apply oks_bind, (oks_peek _ s3 rest); [done|]. intros s4 H4. destruct rest as [|t rest]; [apply oks_panic|].
  destruct (starts [41] (t :: rest)) eqn:Es2; [|apply oks_panic]. cbn [negb]. pose proof (starts_sym 41 t _ (here_ok _ _ _ H4) ltac:(unfold symbols; set_solver) ltac:(done) Es2) as ->.
  cbn [length] in Hn, Hf. apply oks_bind, (oks_gettoken s4 (TSym 41) rest); [done|]. intros b s5 H5 _. apply oks_bind. eapply oks_mono; [apply (parseredirs_sound fuel s5 rest H5); lia|].
  intros rs s6 (cs' & rest' & -> & Hg' & Hws & H6). apply oks_ret. exists (TSym 40 :: cs ++ TSym 41 :: cs'), rest'. split_and!.
  - cbn [app]. by rewrite <- app_assoc.
  - rewrite cmd_map_wrap. by constructor.
  - by apply spans_wrap.
  - done.
Qed.
Lemma parseexec_sound line fuel n : parses n line g_line -> forall s ts, at_ s ts -> (length ts <= n)%nat -> (length ts < fuel)%nat ->
  oks (parseexec buf es line fuel) (fun c s' => exists cs rest, ts = cs ++ rest /\ g_exec (cmd_map str c) cs /\ Forall word (spans c) /\ at_ s' rest) s.
Proof.
  intros Hl s ts H Hn Hf. unfold parseexec. apply oks_bind, (oks_peek _ s ts); [done|]. intros s1 H1.
  destruct (starts [40] ts); [by apply (parseblock_sound line fuel n)|].
  apply oks_bind. eapply oks_mono; [apply (parseredirs_sound fuel s1 ts H1); lia|]. intros rs s2 (cs & rest & -> & Hg & Hw & H2). rewrite length_app in Hn, Hf.
  apply oks_bind. eapply oks_mono; [apply (parseargs_sound fuel s2 rest 0 H2); [lia|done]|]. intros a s3 (cs' & rest' & -> & Hg' & Hm & Hw' & H3). apply oks_ret.
  exists (cs ++ cs'), rest'. apply Forall_app in Hw' as [H5 H6]. split_and!.
  - by rewrite <- app_assoc.
  - rewrite cmd_map_wrap, map_app. cbn [cmd_map]. constructor; [by apply args_redirs|]. rewrite length_map. lia.
  - apply spans_wrap; [done|]. rewrite map_app. by apply Forall_app.
  - done.
Qed.
Lemma parsepipe_sound line n : parses n line g_line -> forall fuel s ts, at_ s ts -> (length ts <= n)%nat -> (S (length ts) < fuel)%nat ->
  oks (parsepipe buf es line fuel) (fun c s' => exists cs rest, ts = cs ++ rest /\ g_pipe (cmd_map str c) cs /\ Forall word (spans c) /\ at_ s' rest) s.
Proof.
  intros Hl. induction fuel as [|fuel IH]; intros s ts H Hn Hf; [lia|]. cbn [parsepipe]. apply oks_bind. eapply oks_mono; [apply (parseexec_sound line fuel n Hl s ts H Hn); lia|].
  intros c s1 (cs & rest & -> & Hg & Hw & H1). apply oks_bind, (oks_peek _ s1 rest); [done|]. intros s2 H2.
  destruct (starts [124] rest) eqn:Es; [|apply oks_ret; exists cs, rest; split_and!; [done|by constructor|done|done]]. destruct rest as [|t rest]; [done|].
  pose proof (starts_sym 124 t _ (here_ok _ _ _ H2) ltac:(unfold symbols; set_solver) ltac:(done) Es) as ->. rewrite length_app in Hn, Hf. cbn [length] in Hn, Hf.
  apply oks_bind, (oks_gettoken s2 (TSym 124) rest); [done|]. intros a s3 H3 _. apply oks_bind. eapply oks_mono; [apply (IH s3 rest H3); lia|].
  intros c' s4 (cs' & rest' & -> & Hg' & Hw' & H4). apply oks_ret. exists (cs ++ TSym 124 :: cs'), rest'. split_and!; [by rewrite <- app_assoc|by constructor|by apply Forall_app|done].
Qed.
Lemma parsebacks_sound fuel : forall s ts c cs0, at_ s ts -> (length ts < fuel)%nat -> g_backs (cmd_map str c) cs0 -> Forall word (spans c) ->
  oks (parsebacks buf es fuel c) (fun c s' => exists cs rest, ts = cs ++ rest /\ g_backs (cmd_map str c) (cs0 ++ cs) /\ Forall word (spans c) /\ at_ s' rest) s.
Proof.
  induction fuel as [|fuel IH]; intros s ts c cs0 H Hf Hg Hw; [lia|]. cbn [parsebacks]. apply oks_bind, (oks_peek _ s ts); [done|]. intros s1 H1.
  destruct (starts [38] ts) eqn:Es; [|apply oks_ret; exists [], ts; rewrite app_nil_r; done]. destruct ts as [|t ts]; [done|].
  pose proof (starts_sym 38 t _ (here_ok _ _ _ H1) ltac:(unfold symbols; set_solver) ltac:(done) Es) as ->. cbn [length] in Hf.
  apply oks_bind, (oks_gettoken s1 (TSym 38) ts); [done|]. intros a s2 H2 _. eapply oks_mono; [apply (IH s2 ts (BACK c) (cs0 ++ [TSym 38]) H2); [lia|by constructor|done]|].
  intros c' s3 (cs & rest & -> & Hg' & Hw' & H3). exists (TSym 38 :: cs), rest. rewrite <- app_assoc in Hg'. done.
Qed.
Lemma parseline_sound fuel : forall n, (n + 2 <= fuel)%nat -> parses n (parseline buf es fuel) g_line.
Proof.
  induction fuel as [|fuel IH]; intros n Hf s ts H Hn; [lia|]. cbn [parseline]. pose proof (IH (length ts) ltac:(lia)) as Hl.
  apply oks_bind. eapply oks_mono; [apply (parsepipe_sound _ _ Hl fuel s ts H); lia|]. intros c s1 (cs & rest & -> & Hg & Hw & H1). rewrite length_app in Hn, Hl.
  apply oks_bind. eapply oks_mono; [apply (parsebacks_sound fuel s1 rest c cs H1); [lia|by constructor|done]|]. intros c' s2 (cs' & rest' & -> & Hg' & Hw' & H2). rewrite length_app in Hn.
  apply oks_bind, (oks_peek _ s2 rest'); [done|]. intros s3 H3. rewrite app_assoc.
  destruct (starts [59] rest') eqn:Es; [|apply oks_ret; exists (cs ++ cs'), rest'; split_and!; [done|by constructor|done|done]]. destruct rest' as [|t rest']; [done|].
  pose proof (starts_sym 59 t _ (here_ok _ _ _ H3) ltac:(unfold symbols; set_solver) ltac:(done) Es) as ->. cbn [length] in Hn.
  apply oks_bind, (oks_gettoken s3 (TSym 59) rest'); [done|]. intros a s4 H4 _. apply oks_bind. eapply oks_mono; [apply (IH (S (length rest')) ltac:(lia) s4 rest' H4); lia|].
  intros c2 s5 (cs2 & rest2 & -> & Hg2 & Hw2 & H5). apply oks_ret. exists ((cs ++ cs') ++ TSym 59 :: cs2), rest2. split_and!; [by rewrite <- !app_assoc|by constructor|by apply Forall_app|done].
Qed.

(** ** The parser accepts the language *)

Lemma wp_peek toks s ts (Q : bool -> Z -> Prop) : at_ s ts -> (forall s', at_ s' ts -> Q (starts toks ts) s') -> wp (peek buf es toks) Q s.
Proof. intros H HQ. destruct (peek_spec _ _ toks s ts H) as (s' & E & H' & _). unfold wp. rewrite E. by apply HQ. Qed.
Lemma wp_gettoken s t ts (Q : Z * span -> Z -> Prop) : at_ s (t :: ts) ->
  (forall a s', at_ s' ts -> match t with TWord w => word a /\ str a = w | _ => True end -> Q (kind t, a) s') -> wp (gettoken buf es) Q s.
Proof. intros H HQ. destruct (gettoken_spec _ _ s t ts H) as (s' & a & E & H' & Ha). unfold wp. rewrite E. by apply HQ. Qed.

(** What follows is the end or begins with one of some symbols. *)
Definition heads (toks : list Z) (ts : list tok) : Prop := ts = [] \/ starts toks ts = true.
Lemma heads_not toks toks' ts : heads toks ts -> (forall c, strchr toks c = true -> strchr toks' c = false) -> starts toks' ts = false.
Proof. intros [->|H] Hd; [done|]. destruct ts as [|t ts]; [done|]. cbn [starts] in *. destruct (text t) as [|c l]; [done|]. by apply Hd. Qed.
Lemma heads_sub toks toks' ts : heads toks ts -> (forall c, strchr toks c = true -> strchr toks' c = true) -> heads toks' ts.
Proof. intros [->|H] Hd; [by left|right]. destruct ts as [|t ts]; [done|]. cbn [starts] in *. destruct (text t) as [|c l]; [done|]. by apply Hd. Qed.
End parse.
(** Membership in a concrete list of characters. *)
Ltac chars := let c := fresh "c" in let H := fresh "H" in
  intros c H; unfold strchr, existsb in H; rewrite ?orb_true_iff, ?Z.eqb_eq in H;
  repeat match goal with H : _ \/ _ |- _ => destruct H as [H|H] end; try discriminate; subst c; reflexivity.

Section complete.
Variables (buf : list Z) (es : Z).
Abbreviation at_ := (here buf es).
Abbreviation str := (sub buf).

Lemma redir_of_spec t f r : redir_of t f = Some r -> (t = TSym 60 \/ t = TSym 62 \/ t = TApp) /\ r.1.1 = f.
Proof.
  destruct t as [|c|]; cbn [redir_of]; [done| |by intros [= <-]; auto]. destruct (decide (c = 60)) as [->|]; [by intros [= <-]; auto|]. destruct (decide (c = 62)) as [->|]; [by intros [= <-]; auto|].
  repeat case_match; congruence.
Qed.
(** One redirection. *)
Lemma parseredirs_one t f r ts s fuel (Q : list (redir span) -> Z -> Prop) : redir_of t f = Some r -> at_ s (t :: TWord f :: ts) ->
  (forall r2 s2, rmap str r2 = r -> at_ s2 ts -> wp (parseredirs buf es fuel) (fun rs s' => Q (r2 :: rs) s') s2) -> wp (parseredirs buf es (S fuel)) Q s.
Proof.
  intros Hr H HQ. cbn [parseredirs]. apply wp_bind, (wp_peek _ _ _ s _ _ H). intros s1 H1. destruct (redir_of_spec _ _ _ Hr) as [Ht Ef].
  assert (starts [60; 62] (t :: TWord f :: ts) = true) as -> by (by destruct Ht as [->|[->| ->]]).
  apply wp_bind, (wp_gettoken _ _ s1 t (TWord f :: ts)); [done|]. intros a s2 H2 _. apply wp_bind, (wp_gettoken _ _ s2 (TWord f) ts); [done|]. intros b s3 H3 [_ Eb].
  cbn [kind fst snd Z.eqb Pos.eqb negb]. apply wp_bind.
  eapply wp_mono; [apply (HQ (b, r.1.2, r.2) s3); [unfold rmap; cbn [fst snd]; rewrite Eb, <- Ef; by destruct r as [[]]|done]|]. intros rs s4 Hq. apply wp_ret.
  destruct Ht as [->|[->| ->]]; cbn [redir_of kind Z.eqb Pos.eqb] in *; injection Hr as <-; exact Hq.
Qed.
Lemma redirs_complete rs ts : g_redirs rs ts -> forall rest s fuel, at_ s (ts ++ rest) -> (length (ts ++ rest) < fuel)%nat -> starts [60; 62] rest = false ->
  wp (parseredirs buf es fuel) (fun rs' s' => map (rmap str) rs' = rs /\ at_ s' rest) s.
Proof.
  induction 1 as [|t f r rs ts Hr Hg IH]; intros rest s [|fuel] H Hf Hn; try lia.
  - cbn [parseredirs]. apply wp_bind, (wp_peek _ _ _ s rest); [done|]. intros s1 H1. rewrite Hn. apply wp_ret. done.
  - cbn [app length] in *. apply (parseredirs_one t f r (ts ++ rest) s fuel); [done|done|]. intros r2 s2 <- H2.
    eapply wp_mono; [apply (IH rest s2 fuel H2); [lia|done]|]. intros rs' s4 [<- H4]. done.
Qed.

Lemma args_complete ws rs ts : g_args ws rs ts -> forall rest s f1 f2 argc, at_ s (ts ++ rest) -> (length (ts ++ rest) < f1)%nat -> (length (ts ++ rest) < f2)%nat ->
  heads [124; 38; 59; 41] rest -> argc + Z.of_nat (length ws) < MAXARGS ->
  wp (let! r1 := parseredirs buf es f1 in let! a := parseargs buf es f2 argc in ret (a.1, r1 ++ a.2))
    (fun a s' => map str a.1 = ws /\ map (rmap str) a.2 = rs /\ at_ s' rest) s.
Proof.
  induction 1 as [|w ws rs ts Hg IH|t f r ws rs ts Hr Hg IH]; intros rest s f1 f2 argc H Hf1 Hf2 Hh Hn.
  - apply wp_bind. eapply wp_mono; [apply (redirs_complete [] [] redirs_nil rest s f1 H Hf1), (heads_not _ _ _ Hh); chars|]. intros r1 s1 [E1 H1].
    apply wp_bind. destruct f2 as [|f2]; [lia|]. cbn [parseargs]. apply wp_bind, (wp_peek _ _ _ s1 rest); [done|]. intros s2 H2.
    assert (Hr1 : r1 = []) by (by destruct r1). destruct Hh as [->|Hh].
    + cbn [starts]. apply wp_bind. destruct (gettoken_end _ _ s2 H2) as (s3 & a & E & H3). unfold wp at 1. rewrite E. cbn [fst Z.eqb]. do 2 apply wp_ret. by rewrite Hr1.
    + assert (starts [124; 41; 38; 59] rest = true) as ->. { destruct rest as [|t rest]; [done|]. cbn [starts] in *. destruct (text t) as [|c l]; [done|]. revert c Hh. chars. }
      do 2 apply wp_ret. by rewrite Hr1.
  - apply wp_bind. pose proof (here_ok _ _ _ _ _ H) as Hok. assert (Hsub : forall l : list Z, (forall c, c ∈ l -> c ∈ symbols) -> starts l (TWord w :: ts ++ rest) = false) by (intros; by apply starts_word).
    eapply wp_mono; [apply (redirs_complete [] [] redirs_nil (TWord w :: ts ++ rest) s f1 H Hf1), Hsub; unfold symbols; set_solver|]. intros r1 s1 [E1 H1].
    apply wp_bind. destruct f2 as [|f2]; [lia|]. cbn [parseargs app length] in *. apply wp_bind, (wp_peek _ _ _ s1 _ _ H1). intros s2 H2. rewrite Hsub by (unfold symbols; set_solver).
    apply wp_bind, (wp_gettoken _ _ s2 (TWord w) (ts ++ rest)); [done|]. intros a s3 H3 [_ Ea]. cbn [kind fst snd Z.eqb Pos.eqb negb]. destruct (Z.leb_spec MAXARGS (argc + 1)); [lia|].
    pose proof (IH rest s3 f2 f2 (argc + 1) H3 ltac:(lia) ltac:(lia) Hh ltac:(lia)) as IH'. apply wp_bind. eapply wp_mono; [exact (wp_bind_inv _ _ _ _ IH')|]. intros rs2 s4 Hw.
    apply wp_bind. eapply wp_mono; [exact (wp_bind_inv _ _ _ _ Hw)|]. intros a2 s5 (E5 & E6 & H5). do 2 apply wp_ret. cbn [fst snd map] in *. rewrite E5, Ea.
    assert (Hr1 : r1 = []) by (by destruct r1). by rewrite Hr1.
  - destruct f1 as [|f1]; [lia|]. cbn [app length] in *.
    apply wp_bind, (parseredirs_one t f r (ts ++ rest) s f1); [done|done|]. intros r2 s2 <- H2.
    eapply wp_mono; [exact (wp_bind_inv _ _ _ _ (IH rest s2 f1 f2 argc H2 ltac:(lia) ltac:(lia) Hh Hn))|]. intros rs2 s3 Hw.
    apply wp_bind. eapply wp_mono; [exact (wp_bind_inv _ _ _ _ Hw)|]. intros a s4 (E3 & E4 & H4). apply wp_ret. cbn [fst snd map app] in *. by rewrite E4.
Qed.

(** The statements for the parts of the grammar. *)
Definition c_line c ts : Prop := forall rest s fuel, at_ s (ts ++ rest) -> (length (ts ++ rest) + 3 <= fuel)%nat -> heads [41] rest ->
  wp (parseline buf es fuel) (fun c' s' => cmd_map str c' = c /\ at_ s' rest) s.
Definition c_exec c ts : Prop := forall rest s lf fuel, at_ s (ts ++ rest) -> (length (ts ++ rest) + 2 <= lf)%nat -> (length (ts ++ rest) < fuel)%nat -> heads [124; 38; 59; 41] rest ->
  wp (parseexec buf es (parseline buf es lf) fuel) (fun c' s' => cmd_map str c' = c /\ at_ s' rest) s.
Definition c_pipe c ts : Prop := forall rest s lf fuel, at_ s (ts ++ rest) -> (length (ts ++ rest) + 2 <= lf)%nat -> (S (length (ts ++ rest)) < fuel)%nat -> heads [38; 59; 41] rest ->
  wp (parsepipe buf es (parseline buf es lf) fuel) (fun c' s' => cmd_map str c' = c /\ at_ s' rest) s.
Definition c_backs c ts : Prop := exists n c0 ts0, c_pipe c0 ts0 /\ c = Nat.iter n BACK c0 /\ ts = ts0 ++ replicate n (TSym 38).

Lemma exec_args_complete ws rs ts : g_args ws rs ts -> Z.of_nat (length ws) < MAXARGS -> c_exec (wrap (EXEC ws) rs) ts.
Proof.
  intros Hg Hn rest s lf fuel H Hlf Hf Hh. unfold parseexec. apply wp_bind, (wp_peek _ _ _ s _ _ H). intros s1 H1.
  assert (starts [40] (ts ++ rest) = false) as ->.
  { destruct Hg as [|w ws rs ts Hg|t f r ws rs ts Hr Hg].
    - apply (heads_not _ _ _ Hh). chars.
    - apply starts_word; [by apply here_ok in H|]. unfold symbols. set_solver.
    - destruct (redir_of_spec _ _ _ Hr) as [[->|[->| ->]] _]; done. }
  pose proof (args_complete ws rs ts Hg rest s1 fuel fuel 0 H1 Hf Hf Hh Hn) as Hw. apply wp_bind. eapply wp_mono; [exact (wp_bind_inv _ _ _ _ Hw)|]. intros r1 s2 Hw2.
  apply wp_bind. eapply wp_mono; [exact (wp_bind_inv _ _ _ _ Hw2)|]. intros a s3 (E1 & E2 & H3). apply wp_ret. cbn [fst snd] in *. rewrite cmd_map_wrap. cbn [cmd_map]. by rewrite E1, E2.
Qed.
Lemma exec_block_complete c rs ts ts' : c_line c ts -> g_redirs rs ts' -> c_exec (wrap c rs) (TSym 40 :: ts ++ TSym 41 :: ts').
Proof.
  intros Hl Hg rest s lf fuel H Hlf Hf Hh. cbn [app length] in *. rewrite <- app_assoc in *. cbn [app] in *.
  unfold parseexec. apply wp_bind, (wp_peek _ _ _ s _ _ H). intros s1 H1. cbn [starts text strchr existsb orb Z.eqb Pos.eqb].
  unfold parseblock. apply wp_bind, (wp_peek _ _ _ s1 _ _ H1). intros s2 H2. cbn [starts text strchr existsb orb Z.eqb Pos.eqb negb].
  apply wp_bind, (wp_gettoken _ _ s2 _ _ _ H2). intros a s3 H3 _. apply wp_bind. eapply wp_mono; [apply (Hl (TSym 41 :: ts' ++ rest) s3 lf H3); [lia|by right]|]. intros c' s4 [Ec H4].
  apply wp_bind, (wp_peek _ _ _ s4 _ _ H4). intros s5 H5. cbn [starts text strchr existsb orb Z.eqb Pos.eqb negb].
  apply wp_bind, (wp_gettoken _ _ s5 _ _ _ H5). intros b s6 H6 _. rewrite !length_app in Hf. cbn [length] in Hf. rewrite length_app in Hf.
  apply wp_bind. eapply wp_mono; [apply (redirs_complete rs ts' Hg rest s6 fuel H6); [rewrite length_app; lia|apply (heads_not _ _ _ Hh); chars]|].
  intros rs' s7 [Er H7]. apply wp_ret. by rewrite cmd_map_wrap, Ec, Er.
Qed.
Lemma pipe_one_complete c ts : c_exec c ts -> c_pipe c ts.
Proof.
  intros He rest s lf [|fuel] H Hlf Hf Hh; [lia|]. cbn [parsepipe]. apply wp_bind. eapply wp_mono; [apply (He rest s lf fuel H Hlf); [lia|apply (heads_sub _ _ _ Hh); chars]|]. intros c' s1 [Ec H1].
  apply wp_bind, (wp_peek _ _ _ s1 _ _ H1). intros s2 H2. rewrite (heads_not _ _ _ Hh) by chars. by apply wp_ret.
Qed.
Lemma pipe_bar_complete c c' ts ts' : c_exec c ts -> c_pipe c' ts' -> c_pipe (PIPE c c') (ts ++ TSym 124 :: ts').
Proof.
  intros He Hp rest s lf [|fuel] H Hlf Hf Hh; [lia|]. rewrite <- app_assoc in *. cbn [parsepipe]. pose proof Hlf as Hlf'. rewrite length_app in Hlf'. cbn [app length] in *.
  apply wp_bind. eapply wp_mono; [apply (He (TSym 124 :: ts' ++ rest) s lf fuel H Hlf); [lia|by right]|]. intros d s1 [Ec H1].
  apply wp_bind, (wp_peek _ _ _ s1 _ _ H1). intros s2 H2. cbn [starts text strchr existsb orb Z.eqb Pos.eqb]. rewrite length_app in Hf. cbn [length] in Hf.
  apply wp_bind, (wp_gettoken _ _ s2 _ _ _ H2). intros a s3 H3 _. apply wp_bind. eapply wp_mono; [apply (Hp rest s3 lf fuel H3); [lia|lia|done]|]. intros d' s4 [Ed H4]. apply wp_ret. cbn [cmd_map]. by rewrite Ec, Ed.
Qed.
Lemma parsebacks_complete n : forall c rest s fuel, at_ s (replicate n (TSym 38) ++ rest) -> (length (replicate n (TSym 38) ++ rest) < fuel)%nat -> heads [59; 41] rest ->
  wp (parsebacks buf es fuel c) (fun c' s' => cmd_map str c' = Nat.iter n BACK (cmd_map str c) /\ at_ s' rest) s.
Proof.
  induction n as [|n IH]; intros c rest s [|fuel] H Hf Hh; try lia; cbn [parsebacks replicate app length] in *; apply wp_bind, (wp_peek _ _ _ s _ _ H); intros s1 H1.
  - rewrite (heads_not _ _ _ Hh) by chars. by apply wp_ret.
  - cbn [starts text strchr existsb orb Z.eqb Pos.eqb]. apply wp_bind, (wp_gettoken _ _ s1 _ _ _ H1). intros a s2 H2 _.
    eapply wp_mono; [apply (IH (BACK c) rest s2 fuel H2); [lia|done]|]. intros c' s3 [E H3]. split; [|done]. rewrite E. symmetry. apply Nat.iter_succ_r.
Qed.
Lemma line_prefix n c0 ts0 rest s fuel : c_pipe c0 ts0 -> at_ s ((ts0 ++ replicate n (TSym 38)) ++ rest) -> (length ((ts0 ++ replicate n (TSym 38)) ++ rest) + 2 <= fuel)%nat -> heads [59; 41] rest ->
  wp (let! c := parsepipe buf es (parseline buf es fuel) fuel in parsebacks buf es fuel c) (fun c' s' => cmd_map str c' = Nat.iter n BACK c0 /\ at_ s' rest) s.
Proof.
  intros Hp H Hf Hh. rewrite <- app_assoc in *. apply wp_bind. eapply wp_mono; [apply (Hp _ s fuel fuel H); [lia|lia|]|].
  - destruct n; [apply (heads_sub _ _ _ Hh); chars|by right].
  - intros c s1 [<- H1]. rewrite length_app in Hf. apply parsebacks_complete; [done|lia|done].
Qed.
Lemma line_one_complete c ts : c_backs c ts -> c_line c ts.
Proof.
  intros (n & c0 & ts0 & Hp & -> & ->) rest s [|fuel] H Hf Hh; [lia|]. cbn [parseline]. apply wp_bind_assoc, wp_bind.
  eapply wp_mono; [apply (line_prefix n c0 ts0 rest s fuel Hp H); [lia|apply (heads_sub _ _ _ Hh); chars]|]. intros c s1 [Ec H1].
  apply wp_bind, (wp_peek _ _ _ s1 _ _ H1). intros s2 H2. rewrite (heads_not _ _ _ Hh) by chars. by apply wp_ret.
Qed.
Lemma line_seq_complete c c' ts ts' : c_backs c ts -> c_line c' ts' -> c_line (LIST c c') (ts ++ TSym 59 :: ts').
Proof.
  intros (n & c0 & ts0 & Hp & -> & ->) Hl rest s [|fuel] H Hf Hh; [lia|]. rewrite <- (app_assoc _ (TSym 59 :: ts')) in *. cbn [parseline]. apply wp_bind_assoc, wp_bind.
  eapply wp_mono; [apply (line_prefix n c0 ts0 ((TSym 59 :: ts') ++ rest) s fuel Hp H); [lia|by right]|]. intros c s1 [Ec H1].
  cbn [app] in H1. apply wp_bind, (wp_peek _ _ _ s1 _ _ H1). intros s2 H2. cbn [starts text strchr existsb orb Z.eqb Pos.eqb]. rewrite length_app in Hf. cbn [app length] in Hf.
  apply wp_bind, (wp_gettoken _ _ s2 _ _ _ H2). intros a s3 H3 _. apply wp_bind. eapply wp_mono; [apply (Hl rest s3 fuel H3); [lia|done]|]. intros d s4 [Ed H4]. apply wp_ret. cbn [cmd_map]. by rewrite Ec, Ed.
Qed.
Lemma backs_and_complete c ts : c_backs c ts -> c_backs (BACK c) (ts ++ [TSym 38]).
Proof. intros (n & c0 & ts0 & Hp & -> & ->). exists (S n), c0, ts0. split_and!; [done|done|]. by rewrite <- app_assoc, <- replicate_cons_app. Qed.

Lemma parseline_complete c ts : g_line c ts -> c_line c ts.
Proof.
  apply (g_line_mind (fun c ts _ => c_line c ts) (fun c ts _ => c_backs c ts) (fun c ts _ => c_pipe c ts) (fun c ts _ => c_exec c ts)); intros.
  - by apply line_one_complete.
  - by apply line_seq_complete.
  - exists 0%nat, c0, ts0. split_and!; [done|done|]. cbn [replicate]. by rewrite app_nil_r.
  - by apply backs_and_complete.
  - by apply pipe_one_complete.
  - by apply pipe_bar_complete.
  - by apply exec_args_complete.
  - by apply exec_block_complete.
Qed.
End complete.

(** ** The strings in the buffer *)

Lemma put_nul_lookup s buf i : 0 <= s -> put_nul s buf !! i = if decide (Z.of_nat i = s) then (fun _ => 0) <$> buf !! i else buf !! i.
Proof.
  intros Hs. unfold put_nul, zset. destruct (Z.ltb_spec s 0); [lia|]. case_decide as E.
  - replace (Z.to_nat s) with i by lia. destruct (buf !! i) as [x|] eqn:Ei; cbn [fmap option_fmap option_map]; [by apply list_lookup_insert_eq, (lookup_lt_Some _ _ x)|].
    apply lookup_ge_None in Ei. apply lookup_ge_None. by rewrite length_insert.
  - apply list_lookup_insert_ne. lia.
Qed.
(** [nulterminate] ends all strings and changes nothing else. *)
Definition cut (l : list span) (buf buf' : list Z) : Prop := forall i, buf' !! i = if decide (Z.of_nat i ∈ map snd l) then (fun _ => 0) <$> buf !! i else buf !! i.
Lemma cut_nil buf : cut [] buf buf.
Proof. intros i. rewrite decide_False; [done|]. apply not_elem_of_nil. Qed.
Lemma cut_app l l' buf buf1 buf2 : cut l buf buf1 -> cut l' buf1 buf2 -> cut (l ++ l') buf buf2.
Proof.
  intros H1 H2 i. rewrite H2, H1, map_app. destruct (decide (Z.of_nat i ∈ map snd l ++ map snd l')) as [H%elem_of_app|H].
  - repeat case_decide; try done; [by destruct (buf !! i)|tauto].
  - rewrite !decide_False; [done|intros ?; apply H, elem_of_app; by left|intros ?; apply H, elem_of_app; by right].
Qed.
Lemma cut_one a buf : 0 <= a.2 -> cut [a] buf (put_nul a.2 buf).
Proof. intros Ha i. rewrite put_nul_lookup by done. cbn [map]. pose proof (list_elem_of_singleton (Z.of_nat i) a.2). repeat case_decide; tauto. Qed.
Lemma cut_perm l l' buf buf' : (forall x, x ∈ l <-> x ∈ l') -> cut l buf buf' -> cut l' buf buf'.
Proof.
  intros Hl H i. rewrite H. assert (Hm : Z.of_nat i ∈ map snd l <-> Z.of_nat i ∈ map snd l') by (rewrite !list_elem_of_fmap; split; intros (x & ? & ?); exists x; split; [done|by apply Hl|done|by apply Hl]).
  repeat case_decide; tauto.
Qed.
Lemma nulterminate_cut c : Forall (fun a => 0 <= a.2) (spans c) -> forall buf, cut (spans c) buf (nulterminate c buf).
Proof.
  induction c as [argv|c IH f m d|l IHl r IHr|l IHl r IHr|c IH]; cbn [spans nulterminate].
  - induction 1 as [|a argv Ha Hf IH]; intros buf; [apply cut_nil|]. cbn [fold_left]. apply (cut_app [a] argv _ (put_nul a.2 buf)); [by apply cut_one|apply IH].
  - intros [Hf Hc]%Forall_cons buf. apply (cut_perm (spans c ++ [f])); [set_solver|]. eapply cut_app; [by apply IH|by apply cut_one].
  - intros [H1 H2]%Forall_app buf. eapply cut_app; [by apply IHl|by apply IHr].
  - intros [H1 H2]%Forall_app buf. eapply cut_app; [by apply IHl|by apply IHr].
  - done.
Qed.

Lemma cstr_word w r : Forall (fun c => c <> 0) w -> cstr (w ++ 0 :: r) = w.
Proof. intros Hw. unfold cstr. rewrite strlen_app by done. cbn [buf_strlen Z.eqb]. rewrite Z.add_0_r, Nat2Z.id. apply take_app_length. Qed.

Lemma string_at_cut l buf buf' a : Forall (word_at buf) l -> cut l buf buf' -> a ∈ l -> string_at buf' a = sub buf a.
Proof.
  intros Hl Hc Ha. pose proof (proj1 (Forall_forall _ _) Hl a Ha) as [Hr [Hne Hw] He]. unfold string_at. set (w := sub buf a) in *.
  destruct (drop (Z.to_nat a.2) buf) as [|e r] eqn:Ed; [done|]. assert (Hlt : (Z.to_nat a.2 < length buf)%nat) by (destruct (decide (Z.to_nat a.2 < length buf)%nat); [done|]; by rewrite drop_ge in Ed by lia).
  assert (Hlen : length w = Z.to_nat (a.2 - a.1)) by (unfold w, sub; rewrite length_take, length_drop; lia).
  assert (Hat : forall k, w !! k = if decide (k < length w)%nat then buf !! (Z.to_nat a.1 + k)%nat else None).
  { intros k. unfold w at 1, sub. case_decide; [by rewrite lookup_take_lt, lookup_drop by lia|]. apply lookup_take_ge. lia. }
  assert (Hnot : forall b, b ∈ l -> forall c, buf !! Z.to_nat b.2 = Some c -> c = 0 \/ is_word c = false).
  { intros b Hb c Hc'. pose proof (proj1 (Forall_forall _ _) Hl b Hb) as [_ _ Hbe]. destruct (drop (Z.to_nat b.2) buf) as [|d l'] eqn:Eb; [done|].
    rewrite <- (Nat.add_0_r (Z.to_nat b.2)), <- lookup_drop, Eb in Hc'. by injection Hc' as ->. }
  assert (Hd : drop (Z.to_nat a.1) buf' = w ++ 0 :: drop (S (Z.to_nat a.2)) buf').
  { apply list_eq. intros k. rewrite lookup_drop, Hc. destruct (decide (k < length w)%nat) as [Hk|Hk].
    - rewrite lookup_app_l by done. rewrite decide_False; [by rewrite Hat, decide_True by done|]. intros (b & E & Hb)%list_elem_of_fmap.
      destruct (w !! k) as [c|] eqn:Ek; [|apply lookup_ge_None in Ek; lia]. pose proof (proj1 (Forall_forall _ _) Hw c (list_elem_of_lookup_2 _ _ _ Ek)) as [Hcw Hc0].
      rewrite Hat, decide_True in Ek by done. replace (Z.to_nat a.1 + k)%nat with (Z.to_nat b.2) in Ek by lia. destruct (Hnot b Hb c Ek); congruence.
    - rewrite lookup_app_r by lia. destruct (k - length w)%nat as [|j] eqn:Ej.
      + replace (Z.to_nat a.1 + k)%nat with (Z.to_nat a.2) by lia. rewrite decide_True; [|apply list_elem_of_fmap; exists a; split; [lia|done]].
        destruct (buf !! Z.to_nat a.2) eqn:Ee; [done|apply lookup_ge_None in Ee; lia].
      + change ((0 :: drop (S (Z.to_nat a.2)) buf') !! S j) with (drop (S (Z.to_nat a.2)) buf' !! j). rewrite lookup_drop, Hc. by replace (Z.to_nat a.1 + k)%nat with (S (Z.to_nat a.2) + j)%nat by lia. }
  rewrite Hd. apply cstr_word. eapply Forall_impl; [exact Hw|]. by intros ? [].
Qed.

(** ** Every line has tokens *)

Lemma spaced_space c ts l : is_space c = true -> spaced ts l -> spaced ts (c :: l).
Proof.
  intros Hc. destruct ts as [|t ts]; cbn [spaced].
  - intros (w & r & Hw & ->). exists (c :: w), r. split; [by constructor|done].
  - intros (w & r & Hw & -> & H). exists (c :: w), r. split; [by constructor|]. split; [done|exact H].
Qed.
Lemma spaced_cons t ts l : tok_ok t -> ends t l -> spaced ts l -> spaced (t :: ts) (text t ++ l).
Proof. intros. exists [], l. done. Qed.
Lemma word_prefix l : 0 ∈ l -> exists w r, l = w ++ r /\ Forall (fun c => is_word c = true /\ c <> 0) w /\ 0 ∈ r /\ match r with c :: _ => c = 0 \/ is_word c = false | [] => False end.
Proof.
  induction l as [|c l IH]; intros H0; [by apply elem_of_nil in H0|]. destruct (decide (c = 0 \/ is_word c = false)) as [Hc|Hc]; [by exists [], (c :: l)|].
  apply elem_of_cons in H0 as [<-|H0]; [tauto|]. destruct (IH H0) as (w & r & -> & Hw & Hr). exists (c :: w), r. split; [done|]. split; [|done]. constructor; [|done].
  destruct (is_word c); [split; [done|tauto]|tauto].
Qed.
Lemma lex_exists n : forall l, (length l <= n)%nat -> 0 ∈ l -> exists ts, spaced ts l.
Proof.
  induction n as [|n IH]; intros l Hn H0; (destruct l as [|c l]; [by apply elem_of_nil in H0|]); cbn [length] in Hn; [lia|].
  destruct (decide (c = 0)) as [->|Hc0]; [by exists [], [], l|]. assert (Hl : 0 ∈ l) by (apply elem_of_cons in H0 as [?|?]; [done|done]).
  destruct (is_space c) eqn:Esp; [destruct (IH l ltac:(lia) Hl) as [ts Ht]; exists ts; by apply spaced_space|]. destruct (strchr symbols c) eqn:Esy.
  - assert (Hc : c ∈ symbols) by (apply existsb_exists in Esy as (x & Hx%list_elem_of_In & ->%Z.eqb_eq); done).
    destruct l as [|d l]; [by apply elem_of_nil in Hl|]. destruct (decide (c = 62 /\ d = 62)) as [[-> ->]|Hcd].
    + assert (Hl' : 0 ∈ l) by (apply elem_of_cons in Hl as [?|?]; done). cbn [length] in Hn. destruct (IH l ltac:(lia) Hl') as [ts Ht]. exists (TApp :: ts). by apply (spaced_cons TApp).
    + destruct (IH (d :: l) ltac:(lia) Hl) as [ts Ht]. exists (TSym c :: ts). apply (spaced_cons (TSym c)); [done| |done]. unfold ends. repeat case_match; try done. intros ->. apply Hcd. split; congruence.
  - destruct (word_prefix l Hl) as (w & r & -> & Hw & Hr & Hb). rewrite length_app in Hn. destruct (IH r ltac:(lia) Hr) as [ts Ht]. exists (TWord (c :: w) :: ts).
    apply (spaced_cons (TWord (c :: w))); [|by destruct r|done]. split; [done|]. constructor; [|done]. split; [|done]. unfold is_word. unfold is_space in Esp. by rewrite Esp, Esy.
Qed.
Lemma spaced_len ts : forall l, spaced ts l -> (length ts < length l)%nat.
Proof.
  induction ts as [|t ts IH]; intros l; cbn [spaced].
  - intros (w & r & _ & ->). rewrite length_app. cbn [length]. lia.
  - intros (w & r & _ & -> & Hok & _ & Hs). specialize (IH r Hs). rewrite !length_app. cbn [length]. destruct t as [[|]| |]; cbn [text length]; [by destruct Hok|lia..].
Qed.

Lemma cmd_map_ext {A B} (f g : A -> B) c : (forall a, a ∈ spans c -> f a = g a) -> cmd_map f c = cmd_map g c.
Proof.
  induction c as [argv|c IH x m d|l IHl r IHr|l IHl r IHr|c IH]; cbn [spans cmd_map]; intros H.
  - f_equal. apply map_ext_in. intros a Ha%list_elem_of_In. by apply H.
  - rewrite IH, H; [done|by left|]. intros a Ha. apply H. by right.
  - rewrite IHl, IHr; [done|intros a Ha; apply H, elem_of_app; by right|intros a Ha; apply H, elem_of_app; by left].
  - rewrite IHl, IHr; [done|intros a Ha; apply H, elem_of_app; by right|intros a Ha; apply H, elem_of_app; by left].
  - by rewrite IH.
Qed.
Lemma strings_cut buf c : Forall (word_at buf) (spans c) -> cmd_map (string_at (nulterminate c buf)) c = cmd_map (sub buf) c.
Proof.
  intros Hw. apply cmd_map_ext. intros a Ha. apply (string_at_cut (spans c)); [done| |done]. apply nulterminate_cut. eapply Forall_impl; [exact Hw|]. intros b [[? ?] _ _]. lia.
Qed.

Lemma here_start buf ts : spaced ts buf -> here buf (buf_strlen buf) 0 ts.
Proof. intros H. constructor; [done|done|done]. Qed.
Lemma here_end buf es ts : here buf es es ts -> ts = [].
Proof.
  intros [_ He Ht]. destruct ts as [|t ts]; [done|]. exfalso. destruct Ht as (w & r & Hw & E & Hok & _). rewrite E in He.
  assert (Hc : exists c l, w ++ text t ++ r = c :: l /\ c <> 0).
  { destruct w as [|c w]; [|exists c, (w ++ text t ++ r); split; [done|]; apply Forall_cons in Hw as [Hc _]; by apply space_nonzero].
    destruct t as [[|c wd]|c|]; cbn [text app]; [by destruct Hok| |exists c, r; split; [done|]; apply (symbol_spec c Hok)|by eexists _, _].
    exists c, (wd ++ r). split; [done|]. destruct Hok as [_ [[_ Hc] _]%Forall_cons]. done. }
  destruct Hc as (c & l & E2 & Hc). rewrite E2 in He. cbn [buf_strlen] in He. destruct (Z.eqb_spec c 0); [done|]. pose proof (strlen_nonneg l). lia.
Qed.

Lemma parsecmd_sound buf ts : spaced ts buf ->
  match parsecmd buf with
  | Done (c, buf') _ => buf' = nulterminate c buf /\ Forall (word_at buf) (spans c) /\ g_line (cmd_map (sub buf) c) ts
  | Panic _ _ => True
  | Blocked _ | Fault _ => False
  end.
Proof.
  intros Ht. pose proof (here_start _ _ Ht) as H. pose proof (spaced_len _ _ Ht) as Hlen. unfold parsecmd. cbv zeta. set (es := buf_strlen buf) in *. set (m := bind _ _).
  assert (Hm : oks m (fun r _ => r.2 = nulterminate r.1 buf /\ Forall (word_at buf) (spans r.1) /\ g_line (cmd_map (sub buf) r.1) ts) 0).
  { apply oks_bind. eapply oks_mono; [apply (parseline_sound buf es (parse_fuel buf) (S (length ts))); [unfold parse_fuel; lia|exact H|lia]|].
    intros c s1 (cs & rest & -> & Hg & Hw & H1). apply oks_bind, (oks_peek _ _ _ s1 _ _ H1). intros s2 H2. apply oks_bind. unfold oks at 1. cbn [gets id].
    destruct (Z.eqb_spec s2 es) as [->|]; [|apply oks_panic]. cbn [negb]. apply here_end in H2 as ->. rewrite app_nil_r. by apply oks_ret. }
  unfold oks in Hm. destruct (m 0) as [[c b] s| | |]; done.
Qed.
Lemma parsecmd_accepts buf ts c : spaced ts buf -> g_line c ts -> exists c' s, parsecmd buf = Done (c', nulterminate c' buf) s /\ cmd_map (sub buf) c' = c.
Proof.
  intros Ht Hg. pose proof (here_start _ _ Ht) as H. pose proof (spaced_len _ _ Ht) as Hlen. unfold parsecmd. cbv zeta. set (es := buf_strlen buf) in *.
  pose proof (parseline_complete buf es c ts Hg [] 0 (parse_fuel buf)) as Hl. rewrite app_nil_r in Hl. specialize (Hl H ltac:(unfold parse_fuel; lia) (or_introl eq_refl)).
  apply wp_Done in Hl as (c' & s1 & E1 & Ec & H1). destruct (peek_spec _ _ [] s1 [] H1) as (s2 & E2 & _ & Es). exists c', s2. split; [|done].
  unfold bind. rewrite E1, E2. cbn [gets id]. rewrite (Es eq_refl), Z.eqb_refl. done.
Qed.

(** C23: The shell's parser implements its grammar.  Every line consists of tokens
    and whitespace; [parsecmd] always ends, without reading or writing outside
    of the line; it returns a command if and only if the tokens are a sentence
    of the grammar, and the strings it has then terminated in the buffer are
    those of the command that the sentence stands for.  Otherwise it reports an
    error. *)
Theorem parsecmd_correct buf : 0 ∈ buf -> (exists ts, spaced ts buf) /\ forall ts, spaced ts buf ->
  match parsecmd buf with
  | Done (c, buf') _ => g_line (cmd_map (string_at buf') c) ts
  | Panic _ _ => forall c, ~ g_line c ts
  | Blocked _ | Fault _ => False
  end /\
  forall c, g_line c ts -> exists c' buf' s, parsecmd buf = Done (c', buf') s /\ cmd_map (string_at buf') c' = c.
Proof.
  intros H0. split; [by apply (lex_exists (length buf))|]. intros ts Ht. pose proof (parsecmd_sound buf ts Ht) as Hs. split.
  - destruct (parsecmd buf) as [[c buf'] s|msg s|s|s] eqn:E; [|intros c Hg; destruct (parsecmd_accepts buf ts c Ht Hg) as (c' & s' & E' & _); congruence|done|done].
    destruct Hs as (-> & Hw & Hg). by rewrite strings_cut.
  - intros c Hg. destruct (parsecmd_accepts buf ts c Ht Hg) as (c' & s & E & Ec). rewrite E in Hs. destruct Hs as (_ & Hw & _). exists c', (nulterminate c' buf), s. split; [done|]. by rewrite strings_cut.
Qed.

(** A line with all the constructs. *)
Definition ex_line : list Z := [99; 97; 116; 60; 102; 32; 45; 110; 124; 40; 119; 99; 38; 59; 108; 115; 41; 62; 62; 103; 10; 0].  (* cat<f -n|(wc&;ls)>>g *)
Lemma parsecmd_example : exists c buf' s, parsecmd ex_line = Done (c, buf') s /\
  cmd_map (string_at buf') c = PIPE (REDIR (EXEC [[99; 97; 116]; [45; 110]]) [102] O_RDONLY 0) (REDIR (LIST (BACK (EXEC [[119; 99]])) (EXEC [[108; 115]])) [103] 513 1).
Proof. eexists _, _, _. split; vm_compute; reflexivity. Qed.
Lemma parsecmd_correct_witness : (exists ts, spaced ts ex_line) /\ forall ts, spaced ts ex_line ->
  match parsecmd ex_line with
  | Done (c, buf') _ => g_line (cmd_map (string_at buf') c) ts
  | Panic _ _ => forall c, ~ g_line c ts
  | Blocked _ | Fault _ => False
  end /\
  forall c, g_line c ts -> exists c' buf' s, parsecmd ex_line = Done (c', buf') s /\ cmd_map (string_at buf') c' = c.
Proof. apply (parsecmd_correct ex_line). apply (bool_decide_unpack _). vm_compute. exact I. Defined.

(** ** Running a command

    What the processes of a command do with their descriptors: a process forks
    a child, waits, ends, or executes a program.  A pipe is named by the place
    of its command in the tree; [open_ok], [pipe_ok] and [fork_ok] say whether
    a call of the process at such a place succeeds. *)

Inductive dobj := DConsole | DFile (path : list Z) (mode : Z) | DPipe (id : list bool) (writable : bool).
Abbreviation fdtab := (list (option dobj)).
Inductive ptree :=
| PExec (argv : list (list Z)) (fds : fdtab)  (* exec(argv[0], argv), and exit(0) should it fail *)
| PExit (status : Z)
| PFork (child parent : ptree)
| PWait (fds : fdtab) (k : ptree).

Definition sys_close_fd (fd : Z) (fds : fdtab) : fdtab := zset fds fd None.
(** The lowest free descriptor. *)
Definition alloc_lowest (o : dobj) (fds : fdtab) : option (Z * fdtab) :=
  match unused_fd fds 0 with Some fd => Some (fd, zset fds fd (Some o)) | None => None end.
Definition dup_fd (fd : Z) (fds : fdtab) : fdtab :=
  match znth fds fd with
  | Some (Some o) => match alloc_lowest o fds with Some (_, fds) => fds | None => fds end
  | _ => fds
  end.

Section runcmd.
Variables (open_ok : list bool -> bool) (pipe_ok : list bool -> bool) (fork_ok : list bool -> bool).

Fixpoint runcmd (c : cmd (list Z)) (id : list bool) (fds : fdtab) : ptree :=
  match c with
  | EXEC [] => PExit 1
  | EXEC argv => PExec argv fds
  | REDIR c file mode fd =>
    let fds := sys_close_fd fd fds in
    match (if open_ok id then alloc_lowest (DFile file mode) fds else None) with
    | None => PExit 1
    | Some (_, fds) => runcmd c (id ++ [false]) fds
    end
  | LIST l r =>
    if fork_ok (id ++ [false]) then PFork (runcmd l (id ++ [false]) fds) (PWait fds (runcmd r (id ++ [true]) fds)) else PExit 1
  | PIPE l r =>
    match (if pipe_ok id then
             match alloc_lowest (DPipe id false) fds with
             | Some (p0, fds) => match alloc_lowest (DPipe id true) fds with Some (p1, fds) => Some (p0, p1, fds) | None => None end
             | None => None
             end
           else None) with
    | None => PExit 1
    | Some (p0, p1, fds) =>
      let ends := fun fds => sys_close_fd p1 (sys_close_fd p0 fds) in
      if fork_ok (id ++ [false]) then
        PFork (runcmd l (id ++ [false]) (ends (dup_fd p1 (sys_close_fd 1 fds))))
          (if fork_ok (id ++ [true]) then
             PFork (runcmd r (id ++ [true]) (ends (dup_fd p0 (sys_close_fd 0 fds))))
               (PWait (ends fds) (PWait (ends fds) (PExit 0)))
           else PExit 1)
      else PExit 1
    end
  | BACK c => if fork_ok (id ++ [false]) then PFork (runcmd c (id ++ [false]) fds) (PExit 0) else PExit 1
  end.
End runcmd.

(** The programs a tree executes, in the order of the command, and the
    descriptors of the processes that wait. *)
Fixpoint programs (t : ptree) : list (list (list Z) * fdtab) :=
  match t with PExec argv fds => [(argv, fds)] | PExit _ => [] | PFork c p => programs c ++ programs p | PWait _ k => programs k end.
Fixpoint waits (t : ptree) : list fdtab :=
  match t with PExec _ _ | PExit _ => [] | PFork c p => waits c ++ waits p | PWait fds k => fds :: waits k end.

(** What a command means: each program with its input and output. *)
Fixpoint meaning (c : cmd (list Z)) (id : list bool) (i o : dobj) : list (list (list Z) * dobj * dobj) :=
  match c with
  | EXEC [] => []
  | EXEC argv => [(argv, i, o)]
  | REDIR c file mode fd => if fd =? 0 then meaning c (id ++ [false]) (DFile file mode) o else meaning c (id ++ [false]) i (DFile file mode)
  | LIST l r => meaning l (id ++ [false]) i o ++ meaning r (id ++ [true]) i o
  | PIPE l r => meaning l (id ++ [false]) i (DPipe id true) ++ meaning r (id ++ [true]) (DPipe id false) o
  | BACK c => meaning c (id ++ [false]) i o
  end.
Fixpoint redirs_std {A} (c : cmd A) : Prop :=
  match c with EXEC _ => True | REDIR c _ _ fd => (fd = 0 \/ fd = 1) /\ redirs_std c | PIPE l r | LIST l r => redirs_std l /\ redirs_std r | BACK c => redirs_std c end.

(** Standard input, output and error, and nothing else. *)
Definition std (i o e : dobj) (n : nat) : fdtab := Some i :: Some o :: Some e :: replicate n None.

(** The descriptors around a pipe. *)
Section pipe_fds.
Variables (i o e r w : dobj) (k : nat).
Let fds : fdtab := Some i :: Some o :: Some e :: Some r :: Some w :: replicate k None.
Lemma pipe_fds : alloc_lowest r (std i o e (S (S k))) = Some (3, Some i :: Some o :: Some e :: Some r :: replicate (S k) None) /\
  alloc_lowest w (Some i :: Some o :: Some e :: Some r :: replicate (S k) None) = Some (4, fds).
Proof. done. Qed.
Lemma pipe_ends : sys_close_fd 4 (sys_close_fd 3 (dup_fd 4 (sys_close_fd 1 fds))) = std i w e (S (S k)) /\
  sys_close_fd 4 (sys_close_fd 3 (dup_fd 3 (sys_close_fd 0 fds))) = std r o e (S (S k)) /\ sys_close_fd 4 (sys_close_fd 3 fds) = std i o e (S (S k)).
Proof. done. Qed.
End pipe_fds.

Lemma runcmd_fds oo po fo c : redirs_std c -> forall id i o e k, let t := runcmd oo po fo c id (std i o e (S (S k))) in
  Forall (fun f => exists i o, f = std i o e (S (S k))) (map snd (programs t) ++ waits t).
Proof.
  induction c as [argv|c IH f m d|l IHl r IHr|l IHl r IHr|c IH]; cbn [redirs_std]; intros Hs id i o e k; cbn [runcmd].
  - destruct argv; [constructor|]. constructor; [by exists i, o|constructor].
  - destruct Hs as [[->| ->] Hs]; (destruct (oo id); [|constructor]); [apply (IH Hs _ (DFile f m) o e k)|apply (IH Hs _ i (DFile f m) e k)].
  - destruct Hs as [H1 H2]. destruct (po id); [|constructor]. pose proof (IHl H1 (id ++ [false]) i (DPipe id true) e k) as Fl. pose proof (IHr H2 (id ++ [true]) (DPipe id false) o e k) as Fr.
    destruct (pipe_fds i o e (DPipe id false) (DPipe id true) k) as [E1 E2]. destruct (pipe_ends i o e (DPipe id false) (DPipe id true) k) as (E3 & E4 & E5).
    rewrite E1, E2. cbv zeta iota. rewrite E3, E4, E5. destruct (fo (id ++ [false])); [|constructor]. cbv zeta in Fl, Fr. rewrite Forall_app in Fl, Fr.
    destruct (fo (id ++ [true])); cbn [programs waits]; rewrite !map_app, !Forall_app; split_and!; try tauto; try constructor; [by exists i, o|]. constructor; [by exists i, o|constructor].
  - destruct Hs as [H1 H2]. destruct (fo (id ++ [false])); [|constructor]. pose proof (IHl H1 (id ++ [false]) i o e k) as Fl. pose proof (IHr H2 (id ++ [true]) i o e k) as Fr.
    cbv zeta in Fl, Fr. rewrite Forall_app in Fl, Fr. cbn [programs waits]. rewrite !map_app, !Forall_app. split_and!; try tauto. constructor; [by exists i, o|tauto].
  - destruct (fo (id ++ [false])); [|constructor]. cbn [programs waits]. rewrite !app_nil_r. apply (IH Hs).
Qed.
Lemma runcmd_std c : redirs_std c -> forall id i o e k,
  let t := runcmd (fun _ => true) (fun _ => true) (fun _ => true) c id (std i o e (S (S k))) in
  programs t = map (fun p => (p.1.1, std p.1.2 p.2 e (S (S k)))) (meaning c id i o) /\ Forall (fun f => exists i o, f = std i o e (S (S k))) (waits t).
Proof.
  induction c as [argv|c IH f m d|l IHl r IHr|l IHl r IHr|c IH]; cbn [redirs_std]; intros Hs id i o e k.
  - cbn [runcmd]. destruct argv; done.
  - destruct Hs as [[->| ->] Hs]; cbn [runcmd]; [apply (IH Hs _ (DFile f m) o e k)|apply (IH Hs _ i (DFile f m) e k)].
  - destruct Hs as [H1 H2]. destruct (IHl H1 (id ++ [false]) i (DPipe id true) e k) as [P1 W1]. destruct (IHr H2 (id ++ [true]) (DPipe id false) o e k) as [P2 W2].
    destruct (pipe_fds i o e (DPipe id false) (DPipe id true) k) as [E1 E2]. destruct (pipe_ends i o e (DPipe id false) (DPipe id true) k) as (E3 & E4 & E5).
    cbn [runcmd]. rewrite E1, E2. cbv zeta iota. rewrite E3, E4, E5. cbn [programs waits meaning]. rewrite P1, P2, app_nil_r, map_app. split; [done|].
    rewrite !Forall_app. split_and!; [done|done|]. repeat (constructor; [by exists i, o|]). constructor.
  - destruct Hs as [H1 H2]. destruct (IHl H1 (id ++ [false]) i o e k) as [P1 W1]. destruct (IHr H2 (id ++ [true]) i o e k) as [P2 W2].
    cbn [runcmd programs waits meaning]. rewrite P1, P2, map_app. split; [done|]. apply Forall_app. split; [done|]. constructor; [by exists i, o|done].
  - destruct (IH Hs (id ++ [false]) i o e k) as [P W]. cbn [runcmd programs waits meaning]. rewrite P, !app_nil_r. done.
Qed.

(** The parser makes redirections of standard input and output only. *)
Lemma wrap_std {A} (rs : list (redir A)) : forall c, redirs_std c -> Forall (fun r => r.2 = 0 \/ r.2 = 1) rs -> redirs_std (wrap c rs).
Proof. induction rs as [|r rs IH]; intros c Hc; [done|]. intros [Hr Hrs]%Forall_cons. by apply (IH (REDIR c r.1.1 r.1.2 r.2)). Qed.
Lemma redir_of_std t f r : redir_of t f = Some r -> r.2 = 0 \/ r.2 = 1.
Proof. intros H. destruct (redir_of_spec _ _ _ H) as [[->|[->| ->]] _]; injection H as <-; auto. Qed.
Lemma grammar_std c ts : g_line c ts -> redirs_std c.
Proof.
  assert (Hr : forall rs ts, g_redirs rs ts -> Forall (fun r => r.2 = 0 \/ r.2 = 1) rs) by (induction 1; constructor; [by eapply redir_of_std|done]).
  assert (Ha : forall ws rs ts, g_args ws rs ts -> Forall (fun r => r.2 = 0 \/ r.2 = 1) rs) by (induction 1; [constructor|done|constructor; [by eapply redir_of_std|done]]).
  apply (g_line_mind (fun c ts _ => redirs_std c) (fun c ts _ => redirs_std c) (fun c ts _ => redirs_std c) (fun c ts _ => redirs_std c)); intros; cbn [redirs_std]; auto.
  - apply wrap_std; [done|by eapply Ha].
  - apply wrap_std; [done|by eapply Hr].
Qed.

(** C24: The shell connects the programs of a line as the command says: if all calls
    succeed, the processes it forks execute exactly the programs of the command,
    each with the input and output that the command gives it.  Whatever calls
    fail, every program that is executed has standard input, output and error
    and no other descriptor, and so has every process that waits: nobody keeps
    an end of a pipe open that others read or write. *)
Theorem shell_plumbing buf c buf' s i o e k oo po fo : parsecmd buf = Done (c, buf') s -> 0 ∈ buf ->
  let c := cmd_map (string_at buf') c in let fds := std i o e (S (S k)) in
  programs (runcmd (fun _ => true) (fun _ => true) (fun _ => true) c [] fds) = map (fun p => (p.1.1, std p.1.2 p.2 e (S (S k)))) (meaning c [] i o) /\
  let t := runcmd oo po fo c [] fds in Forall (fun f => exists i o, f = std i o e (S (S k))) (map snd (programs t) ++ waits t).
Proof.
  intros E H0 c' fds. destruct (lex_exists (length buf) buf ltac:(done) H0) as [ts Ht]. pose proof (parsecmd_sound buf ts Ht) as Hs. rewrite E in Hs. destruct Hs as (-> & Hw & Hg).
  assert (Hr : redirs_std c') by (apply (grammar_std c' ts); unfold c'; by rewrite strings_cut). split; [by apply runcmd_std|by apply runcmd_fds].
Qed.
Lemma shell_plumbing_witness : exists c buf' s, parsecmd ex_line = Done (c, buf') s /\
  let c := cmd_map (string_at buf') c in let fds := std DConsole DConsole DConsole 13 in
  programs (runcmd (fun _ => true) (fun _ => true) (fun _ => true) c [] fds) = map (fun p => (p.1.1, std p.1.2 p.2 DConsole 13)) (meaning c [] DConsole DConsole) /\
  let t := runcmd (fun _ => false) (fun _ => true) (fun _ => true) c [] fds in Forall (fun f => exists i o, f = std i o DConsole 13) (map snd (programs t) ++ waits t).
Proof.
  destruct (parsecmd ex_line) as [[c buf'] s| | |] eqn:E; [|exfalso; revert E; vm_compute; discriminate..]. exists c, buf', s. split; [reflexivity|].
  apply (shell_plumbing ex_line c buf' s DConsole DConsole DConsole 11 _ _ _ E). apply (bool_decide_unpack _). vm_compute. exact I.
Defined.

(** ** The shell's own descriptors *)

(** The first loop of [main]: the console is opened until its descriptor is not
    one of the first three, which is closed again. *)
Fixpoint open_console (fuel : nat) (fds : fdtab) : fdtab :=
  match fuel with
  | O => fds
  | S fuel =>
    match alloc_lowest DConsole fds with
    | None => fds
    | Some (fd, fds) => if 3 <=? fd then sys_close_fd fd fds else open_console fuel fds
    end
  end.

Lemma open_console_rest a b c l fuel : open_console (S fuel) (Some a :: Some b :: Some c :: l) = Some a :: Some b :: Some c :: l.
Proof.
  cbn [open_console]. unfold alloc_lowest. destruct (unused_fd _ 0) as [fd|] eqn:E; [|done].
  assert (H3 : 3 <= fd) by (cbn [unused_fd] in E; exact (proj1 (unused_fd_at _ _ _ E))). destruct (unused_fd_at _ _ _ E) as [_ Hn]. rewrite Z.sub_0_r in Hn.
  destruct (Z.leb_spec 3 fd); [|lia]. unfold sys_close_fd. rewrite zset_zset. by apply zset_id.
Qed.
(** Whatever the shell was started with, it runs with its three descriptors
    open, the console where one was missing, and no other one changed. *)
Theorem main_std a b c l : open_console 4 (a :: b :: c :: l) = Some (default DConsole a) :: Some (default DConsole b) :: Some (default DConsole c) :: l.
Proof. destruct a as [a|], b as [b|], c as [c|]; apply open_console_rest. Qed.

(** ** Lines of input *)

Definition NBUF_LINE : Z := 100.  (* sizeof(buf) in main *)

(** The loop of [gets] (user/ulib.c), with room for [n] more characters: the
    characters and the rest of the input. *)
Fixpoint gets_loop (n : nat) (input : list Z) : list Z * list Z :=
  match n, input with
  | O, _ => ([], input)
  | S _, [] => ([], [])
  | S n, c :: input =>
    if (c =? 10) || (c =? 13) then ([c], input)
    else let r := gets_loop n input in (c :: r.1, r.2)
  end.
Definition gets (buf : list Z) (max : Z) (input : list Z) : list Z * list Z :=
  let r := gets_loop (Z.to_nat (max - 1)) input in (r.1 ++ 0 :: drop (S (length r.1)) buf, r.2).
(** The buffer that [getcmd] fills; [None] at the end of the input. *)
Definition getcmd (input : list Z) : option (list Z) * list Z :=
  let r := gets (replicate (Z.to_nat NBUF_LINE) 0) NBUF_LINE input in
  (if default 0 (znth r.1 0) =? 0 then None else Some r.1, r.2).

(** What [main] does with a line: it changes its directory, or forks a child
    that runs the command and waits for it; [fork1] ends the shell when it has
    no process for the child. *)
Inductive action := AChdir (path : list Z) | ARun (r : outcome Z (cmd span * list Z)) | APanic.
Definition is_cd (buf : list Z) : bool :=
  (default 0 (znth buf 0) =? 99) && (default 0 (znth buf 1) =? 100) && (default 0 (znth buf 2) =? 32).
(** [cd] is done in the buffer: its last character, the newline, is chopped. *)
Definition cd_path (buf : list Z) : list Z := cstr (drop 3 (zset buf (buf_strlen buf - 1) 0)).
(** The loop of [main], from its [n]-th line on; the prompt is not modelled. *)
Fixpoint main_loop (fork_ok : nat -> bool) (fuel n : nat) (input : list Z) : list action :=
  match fuel with
  | O => []
  | S fuel =>
    match getcmd input with
    | (None, _) => []
    | (Some buf, input) =>
      if is_cd buf then AChdir (cd_path buf) :: main_loop fork_ok fuel (S n) input
      else if fork_ok n then ARun (parsecmd buf) :: main_loop fork_ok fuel (S n) input
      else [APanic]
    end
  end.
(** Each turn of the loop consumes a character at least. *)
Definition main_input (fork_ok : nat -> bool) (input : list Z) : list action := main_loop fork_ok (S (length input)) 0 input.

Definition line_ok (l : list Z) : Prop := Forall (fun c => c <> 0 /\ c <> 10 /\ c <> 13) l /\ Z.of_nat (length l) + 2 <= NBUF_LINE.
Definition line_buf (l : list Z) : list Z := l ++ 10 :: replicate (Z.to_nat NBUF_LINE - length l - 1) 0.

Lemma gets_line l : Forall (fun c => c <> 0 /\ c <> 10 /\ c <> 13) l -> forall n rest, (length l < n)%nat -> gets_loop n (l ++ 10 :: rest) = (l ++ [10], rest).
Proof.
  induction 1 as [|c l (H0 & H1 & H2) Hl IH]; intros [|n] rest Hn; cbn [length] in Hn; try lia; [done|]. cbn [app gets_loop].
  destruct (Z.eqb_spec c 10), (Z.eqb_spec c 13); try done. cbn [orb]. by rewrite IH by lia.
Qed.
Lemma getcmd_line l rest : line_ok l -> getcmd (l ++ 10 :: rest) = (Some (line_buf l), rest).
Proof.
  intros [Hl Hn]. unfold getcmd, gets. rewrite gets_line by (done || unfold NBUF_LINE in *; lia). cbn [fst snd].
  assert (E : (l ++ [10]) ++ 0 :: drop (S (length (l ++ [10]))) (replicate (Z.to_nat NBUF_LINE) 0) = line_buf l).
  { unfold line_buf. rewrite drop_replicate, length_app. cbn [length]. rewrite <- app_assoc. cbn [app].
    replace (Z.to_nat NBUF_LINE - length l - 1)%nat with (S (Z.to_nat NBUF_LINE - S (length l + 1)))%nat by (unfold NBUF_LINE in *; lia). done. }
  rewrite E. destruct l as [|c l]; [done|]. apply Forall_cons in Hl as [(H0 & _) _]. replace (default 0 (znth (line_buf (c :: l)) 0)) with c by done. by destruct (Z.eqb_spec c 0).
Qed.
Lemma chop_newline l : line_ok l -> exists r, zset (line_buf l) (buf_strlen (line_buf l) - 1) 0 = l ++ 0 :: r.
Proof.
  intros [Hl Hn]. unfold line_buf. rewrite strlen_app by (eapply Forall_impl; [exact Hl|]; cbn; tauto).
  destruct (Z.to_nat NBUF_LINE - length l - 1)%nat as [|k] eqn:Ek; [unfold NBUF_LINE in *; lia|]. cbn [replicate buf_strlen Z.eqb].
  exists (replicate (S k) 0). unfold zset. destruct (Z.ltb_spec (Z.of_nat (length l) + (1 + 0) - 1) 0); [lia|].
  replace (Z.to_nat (Z.of_nat (length l) + (1 + 0) - 1)) with (length l + 0)%nat by lia. by rewrite insert_app_r.
Qed.
Lemma cd_line p : line_ok (99 :: 100 :: 32 :: p) -> cd_path (line_buf (99 :: 100 :: 32 :: p)) = p.
Proof.
  intros Hl. destruct (chop_newline _ Hl) as [r E]. unfold cd_path. rewrite E. cbn [app drop]. destruct Hl as [Hl _].
  do 3 apply Forall_cons in Hl as [_ Hl]. apply cstr_word. eapply Forall_impl; [exact Hl|]; cbn; tauto.
Qed.

(** What a line asks for: [cd] of the rest of the line, or the command. *)
Definition line_action (l : list Z) : action :=
  match l with
  | 99 :: 100 :: 32 :: p => AChdir p
  | _ => ARun (parsecmd (line_buf l))
  end.
Lemma main_line l : line_ok l -> (if is_cd (line_buf l) then AChdir (cd_path (line_buf l)) else ARun (parsecmd (line_buf l))) = line_action l.
Proof.
  intros Hl. destruct (is_cd (line_buf l)) eqn:E.
  - unfold is_cd in E. apply andb_true_iff in E as [[E0 E1]%andb_true_iff E2]. apply Z.eqb_eq in E0, E1, E2.
    destruct l as [|a [|b [|c p]]]; cbn in E0, E1, E2; try lia; try discriminate. change (a = 99) in E0; change (b = 100) in E1; change (c = 32) in E2. subst. by rewrite cd_line.
  - unfold line_action. repeat case_match; done.
Qed.
Lemma main_loop_lines ls : Forall line_ok ls -> forall fuel n, (length ls < fuel)%nat ->
  main_loop (fun _ => true) fuel n (concat (map (fun l => l ++ [10]) ls)) = map line_action ls.
Proof.
  induction 1 as [|l ls Hl Hls IH]; intros [|fuel] n Hf; cbn [length] in Hf; try lia; cbn [concat map main_loop]; [done|].
  rewrite <- app_assoc. cbn [app]. rewrite getcmd_line by done. rewrite IH by lia. rewrite <- main_line by done. by destruct (is_cd _).
Qed.
(** The shell does what each line asks for, in the order of the lines, and
    nothing else. *)
Theorem main_lines ls : Forall line_ok ls -> main_input (fun _ => true) (concat (map (fun l => l ++ [10]) ls)) = map line_action ls.
Proof.
  intros Hls. apply main_loop_lines; [done|]. clear Hls. induction ls as [|l ls IH]; cbn [concat map length]; [lia|]. rewrite !length_app. cbn [length]. lia.
Qed.
(** The last character of a [cd] line that does not end in a newline, as one
    that fills the buffer or that the end of the input ends, is lost. *)
Example cd_loses_last : main_input (fun _ => true) [99; 100; 32; 97; 98] = [AChdir [97]].
Proof. reflexivity. Qed.
