(* ===== verification/Virtio.v ===== *)
(** * The virtio disk driver: kernel/virtio_disk.c

    One disk: its descriptors, rings and book-keeping ([struct disk]), the
    buffers it transfers, the sectors of the device, and the processes inside
    [virtio_disk_rw].  [virtio_disk_rw] runs up to its first sleep ([rw_begin]):
    if there are not three free descriptors it sleeps for them and tries again
    when [free_desc] wakes it ([rw_try]), otherwise it sleeps until the device
    has served the request and [virtio_disk_intr] wakes it; from there it runs to
    its end ([rw_end]).  [vdisk_lock] is held for the whole of each of these, so
    that they are the steps of the system.

    Addresses given to the device are the three kinds of objects the driver
    points descriptors at.  Memory barriers are no-ops. *)

From stdpp Require Import base numbers list gmap strings.
From Stdlib Require Import ZArith Lia.
From S2P Require Import Prelude Blocks Monad.
Open Scope Z_scope.

Definition NUM : Z := 16.
Definition VRING_DESC_F_NEXT : Z := 1.
Definition VRING_DESC_F_WRITE : Z := 2.
Definition VIRTIO_BLK_T_IN : Z := 0.
Definition VIRTIO_BLK_T_OUT : Z := 1.

Inductive daddr :=
| ANull
| AOps (i : Z)      (* &ops[i] *)
| AData (b : Z)     (* b->data *)
| AStatus (i : Z).  (* &info[i].status *)

Record virtq_desc := mk_desc { d_addr : daddr; d_len : Z; d_flags : Z; d_next : Z }.
Record virtio_blk_req := mk_req { q_type : Z; q_reserved : Z; q_sector : Z }.
Record vbuf := mk_vbuf { vb_disk : bool; vb_blockno : Z; vb_data : block }.

(** A process in [virtio_disk_rw], asleep on its buffer or woken. *)
Record vtask := mk_vtask { vt_pid : Z; vt_buf : Z; vt_idx : Z * Z * Z; vt_awake : bool }.

(** A process in [virtio_disk_rw] that found no three free descriptors: asleep on
    [&disk[id].free[0]], or woken and about to try again. *)
Record vwait := mk_vwait { vw_buf : Z; vw_write : bool; vw_sector : Z; vw_awake : bool }.

Record vst := mk_vst {
  v_desc : list virtq_desc;
  v_aidx : Z;                   (* avail->idx *)
  v_aring : list Z;             (* avail->ring *)
  v_uidx : Z;                   (* used->idx *)
  v_uring : list Z;             (* used->ring[].id *)
  v_free : list bool;
  v_used_idx : Z;
  v_info : list (option Z * Z); (* info[]: b and status *)
  v_ops : list virtio_blk_req;
  v_bufs : gmap Z vbuf;
  v_tasks : gmap Z vtask;       (* by idx[0] *)
  v_sectors : gmap Z (list Z);
  v_seen : Z;                   (* the device has read the avail ring up to here *)
  v_pending : list Z;           (* chains the device has been told of and not yet served *)
  v_waits : gmap Z vwait;       (* by process *)
}.
Abbreviation V := (M vst).

Definition with_free l s := mk_vst (v_desc s) (v_aidx s) (v_aring s) (v_uidx s) (v_uring s) l (v_used_idx s) (v_info s) (v_ops s) (v_bufs s) (v_tasks s) (v_sectors s) (v_seen s) (v_pending s) (v_waits s).
Definition with_desc l s := mk_vst l (v_aidx s) (v_aring s) (v_uidx s) (v_uring s) (v_free s) (v_used_idx s) (v_info s) (v_ops s) (v_bufs s) (v_tasks s) (v_sectors s) (v_seen s) (v_pending s) (v_waits s).
Definition with_info l s := mk_vst (v_desc s) (v_aidx s) (v_aring s) (v_uidx s) (v_uring s) (v_free s) (v_used_idx s) l (v_ops s) (v_bufs s) (v_tasks s) (v_sectors s) (v_seen s) (v_pending s) (v_waits s).
Definition with_ops l s := mk_vst (v_desc s) (v_aidx s) (v_aring s) (v_uidx s) (v_uring s) (v_free s) (v_used_idx s) (v_info s) l (v_bufs s) (v_tasks s) (v_sectors s) (v_seen s) (v_pending s) (v_waits s).
Definition with_vbufs l s := mk_vst (v_desc s) (v_aidx s) (v_aring s) (v_uidx s) (v_uring s) (v_free s) (v_used_idx s) (v_info s) (v_ops s) l (v_tasks s) (v_sectors s) (v_seen s) (v_pending s) (v_waits s).
Definition with_vtasks l s := mk_vst (v_desc s) (v_aidx s) (v_aring s) (v_uidx s) (v_uring s) (v_free s) (v_used_idx s) (v_info s) (v_ops s) (v_bufs s) l (v_sectors s) (v_seen s) (v_pending s) (v_waits s).
Definition with_avail i r s := mk_vst (v_desc s) i r (v_uidx s) (v_uring s) (v_free s) (v_used_idx s) (v_info s) (v_ops s) (v_bufs s) (v_tasks s) (v_sectors s) (v_seen s) (v_pending s) (v_waits s).
Definition with_seen n p s := mk_vst (v_desc s) (v_aidx s) (v_aring s) (v_uidx s) (v_uring s) (v_free s) (v_used_idx s) (v_info s) (v_ops s) (v_bufs s) (v_tasks s) (v_sectors s) n p (v_waits s).
Definition with_used_idx n s := mk_vst (v_desc s) (v_aidx s) (v_aring s) (v_uidx s) (v_uring s) (v_free s) n (v_info s) (v_ops s) (v_bufs s) (v_tasks s) (v_sectors s) (v_seen s) (v_pending s) (v_waits s).
Definition with_vwaits w s := mk_vst (v_desc s) (v_aidx s) (v_aring s) (v_uidx s) (v_uring s) (v_free s) (v_used_idx s) (v_info s) (v_ops s) (v_bufs s) (v_tasks s) (v_sectors s) (v_seen s) (v_pending s) w.

(** Array accesses; out of bounds they fault. *)
Definition free_at (i : Z) : V bool := let! l := gets v_free in deref (znth l i).
Definition set_free (i : Z) (x : bool) : V unit :=
  let! _ := free_at i in modify (fun s => with_free (zset (v_free s) i x) s).
Definition desc_at (i : Z) : V virtq_desc := let! l := gets v_desc in deref (znth l i).
Definition set_desc (i : Z) (d : virtq_desc) : V unit :=
  let! _ := desc_at i in modify (fun s => with_desc (zset (v_desc s) i d) s).
Definition info_at (i : Z) : V (option Z * Z) := let! l := gets v_info in deref (znth l i).
Definition set_info (i : Z) (x : option Z * Z) : V unit :=
  let! _ := info_at i in modify (fun s => with_info (zset (v_info s) i x) s).
Definition set_op (i : Z) (r : virtio_blk_req) : V unit :=
  let! l := gets v_ops in
  let! _ := deref (znth l i) in
  modify (fun s => with_ops (zset (v_ops s) i r) s).
Definition buf_at (b : Z) : V vbuf := let! m := gets v_bufs in deref (m !! b).
Definition set_buf (b : Z) (x : vbuf) : V unit :=
  let! _ := buf_at b in modify (fun s => with_vbufs (<[b := x]> (v_bufs s)) s).

(** ** Descriptors *)

Fixpoint alloc_from (l : list Z) : V Z :=
  match l with
  | [] => ret (-1)
  | i :: l =>
    let! f := free_at i in
    if f then set_free i false;; ret i else alloc_from l
  end.
Definition alloc_desc : V Z := alloc_from (range 0 NUM).

(** [wakeup(&disk[id].free[0])]: every process that waits for descriptors. *)
Definition wake_wait (w : vwait) : vwait := mk_vwait (vw_buf w) (vw_write w) (vw_sector w) true.
Definition wake_waits (s : vst) : vst := with_vwaits (wake_wait <$> v_waits s) s.

Definition free_desc (i : Z) : V unit :=
  if NUM <=? i then panic ": free_desc 1"
  else
    let! f := free_at i in
    if f then panic ": free_desc 2"
    else
      set_desc i (mk_desc ANull 0 0 0);;
      set_free i true;;
      modify wake_waits.

Fixpoint free_chain_loop (fuel : nat) (i : Z) : V unit :=
  match fuel with
  | O => fault
  | S fuel =>
    let! d := desc_at i in
    free_desc i;;
    if Z.land (d_flags d) VRING_DESC_F_NEXT =? 0 then ret tt else free_chain_loop fuel (d_next d)
  end.
(** A chain has no descriptor twice: freeing one a second time panics. *)
Definition free_chain (i : Z) : V unit := free_chain_loop (S (Z.to_nat NUM)) i.

(** [alloc3_desc]; [None] is the result -1. *)
Definition alloc3_desc : V (option (Z * Z * Z)) :=
  let! i0 := alloc_desc in
  if i0 <? 0 then ret None
  else
    let! i1 := alloc_desc in
    if i1 <? 0 then free_desc i0;; ret None
    else
      let! i2 := alloc_desc in
      if i2 <? 0 then free_desc i0;; free_desc i1;; ret None
      else ret (Some (i0, i1, i2)).

(** ** Requests *)

(** Writing the notify register: the device reads the new entries of the avail
    ring. *)
Definition notify : V unit :=
  modify (fun s => with_seen (v_aidx s)
    (v_pending s ++ map (fun k => v_aring s !!! Z.to_nat ((v_seen s + k) mod NUM)) (range 0 (u16 (v_aidx s - v_seen s)))) s).

(** One round of the loop of [virtio_disk_rw]: the process sleeps until there may
    be descriptors ([false]), or has three, tells the device and sleeps until
    the request is served. *)
Definition rw_try (pid b : Z) (write : bool) (sector : Z) : V bool :=
  modify (fun s => with_vwaits (delete pid (v_waits s)) s);;
  let! r := alloc3_desc in
  match r with
  | None => modify (fun s => with_vwaits (<[pid := mk_vwait b write sector false]> (v_waits s)) s);; ret false
  | Some (i0, i1, i2) =>
    set_op i0 (mk_req (if write then VIRTIO_BLK_T_OUT else VIRTIO_BLK_T_IN) 0 sector);;
    set_desc i0 (mk_desc (AOps i0) 16 VRING_DESC_F_NEXT i1);;
    set_desc i1 (mk_desc (AData b) BSIZE (Z.lor (if write then 0 else VRING_DESC_F_WRITE) VRING_DESC_F_NEXT) i2);;
    let! inf := info_at i0 in
    set_info i0 (fst inf, 255);;
    set_desc i2 (mk_desc (AStatus i0) 1 VRING_DESC_F_WRITE 0);;
    let! x := buf_at b in
    set_buf b (mk_vbuf true (vb_blockno x) (vb_data x));;
    set_info i0 (Some b, 255);;
    modify (fun s => with_avail (u16 (v_aidx s + 1)) (zset (v_aring s) (v_aidx s mod NUM) i0) s);;
    notify;;
    modify (fun s => with_vtasks (<[i0 := mk_vtask pid b (i0, i1, i2) false]> (v_tasks s)) s);;
    ret true
  end.
(** [virtio_disk_rw] up to its first sleep. *)
Definition rw_begin (pid b : Z) (write : bool) : V bool :=
  let! x := buf_at b in
  rw_try pid b write (u32 (vb_blockno x * (BSIZE / 512))).

(** The rest of [virtio_disk_rw], once the process runs again. *)
Definition rw_end (i0 : Z) : V unit :=
  let! inf := info_at i0 in
  set_info i0 (None, snd inf);;
  free_chain i0;;
  modify (fun s => with_vtasks (delete i0 (v_tasks s)) s).

Definition wakeup_buf (b : Z) : V unit :=
  modify (fun s => with_vtasks ((fun t => if vt_buf t =? b then mk_vtask (vt_pid t) (vt_buf t) (vt_idx t) true else t) <$> v_tasks s) s).

(** The loop of the interrupt handler; at most [rounds] entries. *)
Fixpoint virtio_disk_intr_loop (rounds : nat) : V unit :=
  let! ui := gets v_used_idx in
  let! di := gets v_uidx in
  if ui =? di then ret tt
  else
    match rounds with
    | O => fault
    | S rounds =>
      let! ring := gets v_uring in
      let! idx := deref (znth ring (ui mod NUM)) in
      let! inf := info_at idx in
      if negb (snd inf =? 0) then panic ": virtio_disk_intr status"
      else
        let! b := deref (fst inf) in
        let! x := buf_at b in
        set_buf b (mk_vbuf false (vb_blockno x) (vb_data x));;
        wakeup_buf b;;
        modify (fun s => with_used_idx (u16 (v_used_idx s + 1)) s);;
        virtio_disk_intr_loop rounds
    end.
(** The indices are of type [uint16]: there are fewer than 2^16 entries. *)
Definition virtio_disk_intr : V unit := virtio_disk_intr_loop (Z.to_nat (2 ^ 16)).
