(* ===== verification/VirtioWorld.v ===== *)
(** * Descriptors of the virtio driver

    What allocating and freeing descriptors does to the free map: three
    distinct free descriptors are taken or none, and a chain of three that is
    freed becomes free again, without a panic.  The
    second part is the system of driver, device and callers, the abstract disk
    and the invariant. *)

From stdpp Require Import base numbers list gmap strings.
From Stdlib Require Import ZArith Lia.
From S2P Require Import Prelude Blocks Monad Virtio.
Open Scope Z_scope.

(** All arrays have [NUM] entries. *)
Record arrays (s : vst) : Prop := {
  ar_desc : Z.of_nat (length (v_desc s)) = NUM;
  ar_aring : Z.of_nat (length (v_aring s)) = NUM;
  ar_uring : Z.of_nat (length (v_uring s)) = NUM;
  ar_free : Z.of_nat (length (v_free s)) = NUM;
  ar_info : Z.of_nat (length (v_info s)) = NUM;
  ar_ops : Z.of_nat (length (v_ops s)) = NUM;
}.

(** Accesses to an array of the state. *)
Lemma wp_free_at i f (Q : bool -> vst -> Prop) s : znth (v_free s) i = Some f -> Q f s -> wp (free_at i) Q s.
Proof. intros Hi HQ. unfold free_at. apply wp_bind, wp_gets. by apply (wp_deref _ f). Qed.
Lemma wp_set_free i x f (Q : unit -> vst -> Prop) s : znth (v_free s) i = Some f ->
  Q tt (with_free (zset (v_free s) i x) s) -> wp (set_free i x) Q s.
Proof. intros Hi HQ. unfold set_free. apply wp_bind, (wp_free_at i f); [done|]. by apply wp_modify. Qed.
Lemma wp_desc_at i d (Q : virtq_desc -> vst -> Prop) s : znth (v_desc s) i = Some d -> Q d s -> wp (desc_at i) Q s.
Proof. intros Hi HQ. unfold desc_at. apply wp_bind, wp_gets. by apply (wp_deref _ d). Qed.
Lemma wp_set_desc i d (Q : unit -> vst -> Prop) s : arrays s -> 0 <= i < NUM ->
  Q tt (with_desc (zset (v_desc s) i d) s) -> wp (set_desc i d) Q s.
Proof.
  intros Ha Hi HQ. destruct (znth_is_Some (v_desc s) i) as [d0 Hd]; [rewrite (ar_desc _ Ha); lia|].
  unfold set_desc. apply wp_bind, (wp_desc_at i d0); [done|]. by apply wp_modify.
Qed.
Lemma wp_info_at i x (Q : option Z * Z -> vst -> Prop) s : znth (v_info s) i = Some x -> Q x s -> wp (info_at i) Q s.
Proof. intros Hi HQ. unfold info_at. apply wp_bind, wp_gets. by apply (wp_deref _ x). Qed.
Lemma wp_set_info i x (Q : unit -> vst -> Prop) s : arrays s -> 0 <= i < NUM ->
  Q tt (with_info (zset (v_info s) i x) s) -> wp (set_info i x) Q s.
Proof.
  intros Ha Hi HQ. destruct (znth_is_Some (v_info s) i) as [d0 Hd]; [rewrite (ar_info _ Ha); lia|].
  unfold set_info. apply wp_bind, (wp_info_at i d0); [done|]. by apply wp_modify.
Qed.
Lemma wp_set_op i r (Q : unit -> vst -> Prop) s : arrays s -> 0 <= i < NUM ->
  Q tt (with_ops (zset (v_ops s) i r) s) -> wp (set_op i r) Q s.
Proof.
  intros Ha Hi HQ. destruct (znth_is_Some (v_ops s) i) as [d0 Hd]; [rewrite (ar_ops _ Ha); lia|].
  unfold set_op. apply wp_bind, wp_gets, wp_bind, (wp_deref _ d0); [done|]. by apply wp_modify.
Qed.
Lemma wp_buf_at b x (Q : vbuf -> vst -> Prop) s : v_bufs s !! b = Some x -> Q x s -> wp (buf_at b) Q s.
Proof. intros Hi HQ. unfold buf_at. apply wp_bind, wp_gets. by apply (wp_deref _ x). Qed.
Lemma wp_set_buf b x y (Q : unit -> vst -> Prop) s : v_bufs s !! b = Some y ->
  Q tt (with_vbufs (<[b := x]> (v_bufs s)) s) -> wp (set_buf b x) Q s.
Proof. intros Hi HQ. unfold set_buf. apply wp_bind, (wp_buf_at b y); [done|]. by apply wp_modify. Qed.

Lemma alloc_from_spec l (Q : Z -> vst -> Prop) s : arrays s -> (forall i, i ∈ l -> 0 <= i < NUM) ->
  ((forall i, i ∈ l -> znth (v_free s) i = Some false) -> Q (-1) s) ->
  (forall i, i ∈ l -> znth (v_free s) i = Some true -> Q i (with_free (zset (v_free s) i false) s)) ->
  wp (alloc_from l) Q s.
Proof.
  intros Ha Hl Hnone Hsome. induction l as [|i l IH].
  - apply wp_ret, Hnone. set_solver.
  - simpl. destruct (znth_is_Some (v_free s) i) as [f Hf]; [rewrite (ar_free _ Ha); apply Hl; set_solver|].
    apply wp_bind, (wp_free_at i f); [done|]. destruct f.
    + apply wp_bind, (wp_set_free i false true); [done|]. apply wp_ret. apply Hsome; [set_solver|done].
    + apply IH; [set_solver| |set_solver]. intros Hall. apply Hnone. intros k [->|Hk]%elem_of_cons; [done|by apply Hall].
Qed.

Lemma alloc_desc_spec (Q : Z -> vst -> Prop) s : arrays s ->
  ((forall i, 0 <= i < NUM -> znth (v_free s) i = Some false) -> Q (-1) s) ->
  (forall i, 0 <= i < NUM -> znth (v_free s) i = Some true -> Q i (with_free (zset (v_free s) i false) s)) ->
  wp alloc_desc Q s.
Proof.
  intros Ha Hnone Hsome. apply alloc_from_spec; [done|by intros i Hi%elem_of_range| |].
  - intros Hall. apply Hnone. intros i Hi. apply Hall. by apply elem_of_range.
  - intros i Hi%elem_of_range. by apply Hsome.
Qed.

Lemma free_desc_spec i (Q : unit -> vst -> Prop) s : arrays s -> 0 <= i < NUM -> znth (v_free s) i = Some false ->
  Q tt (wake_waits (with_free (zset (v_free s) i true) (with_desc (zset (v_desc s) i (mk_desc ANull 0 0 0)) s))) -> wp (free_desc i) Q s.
Proof.
  intros Ha Hi Hf HQ. unfold free_desc. destruct (Z.leb_spec NUM i); [lia|].
  apply wp_bind, (wp_free_at i false); [done|]. apply wp_bind, wp_set_desc; [done|done|].
  apply wp_bind, (wp_set_free i true false); [done|]. by apply wp_modify.
Qed.

Ltac solve_arrays :=
  match goal with H : arrays _ |- arrays _ => destruct H; constructor; cbn; subst; rewrite ?zset_length; done end.

Lemma zset_comm {A} (l : list A) i j x y : i <> j -> zset (zset l i x) j y = zset (zset l j y) i x.
Proof.
  intros Hne. unfold zset. destruct (Z.ltb_spec i 0), (Z.ltb_spec j 0); try done. apply list_insert_insert_ne. lia.
Qed.

Lemma wake_twice (W : gmap Z vwait) : wake_wait <$> (wake_wait <$> W) = wake_wait <$> W.
Proof. by rewrite <- map_fmap_compose. Qed.

(** Changes to descriptors that are free; processes may be woken. *)
Definition same_used_desc (s s' : vst) : Prop :=
  exists l W, s' = with_vwaits W (with_desc l s) /\ length l = length (v_desc s) /\
    (forall i, znth (v_free s) i = Some false -> znth l i = znth (v_desc s) i) /\ (W = v_waits s \/ W = wake_wait <$> v_waits s).

Lemma same_used_refl s : same_used_desc s s.
Proof. exists (v_desc s), (v_waits s). split; [by destruct s|]. split_and!; [done|done|by left]. Qed.

(** Fewer than three descriptors are free. *)
Definition few_free (l : list bool) : Prop :=
  forall i j k, i <> j -> i <> k -> j <> k -> znth l i = Some true -> znth l j = Some true -> znth l k = Some true -> False.
Lemma few_two l i0 i1 : (forall i, 0 <= i < Z.of_nat (length l) -> i <> i0 -> i <> i1 -> znth l i = Some false) -> few_free l.
Proof.
  intros H i j k N1 N2 N3 Hi Hj Hk. pose proof (znth_Some_lt _ _ _ Hi). pose proof (znth_Some_lt _ _ _ Hj). pose proof (znth_Some_lt _ _ _ Hk).
  destruct (decide (i = i0)) as [->|]; [|destruct (decide (i = i1)) as [->|]; [|by rewrite H in Hi]].
  - destruct (decide (j = i1)) as [->|]; [rewrite H in Hk by congruence; done|rewrite H in Hj by congruence; done].
  - destruct (decide (j = i0)) as [->|]; [rewrite H in Hk by congruence; done|rewrite H in Hj by congruence; done].
Qed.
Lemma few_mono l l' : few_free l -> (forall i, znth l' i = Some true -> znth l i = Some true) -> few_free l'.
Proof. intros H Hl i j k N1 N2 N3 Hi Hj Hk. by apply (H i j k); auto. Qed.

Lemma alloc3_spec (Q : option (Z * Z * Z) -> vst -> Prop) s : arrays s ->
  (forall s', same_used_desc s s' -> few_free (v_free s) -> Q None s') ->
  (forall i0 i1 i2, 0 <= i0 < NUM -> 0 <= i1 < NUM -> 0 <= i2 < NUM -> i0 <> i1 -> i0 <> i2 -> i1 <> i2 ->
    znth (v_free s) i0 = Some true -> znth (v_free s) i1 = Some true -> znth (v_free s) i2 = Some true ->
    Q (Some (i0, i1, i2)) (with_free (zset (zset (zset (v_free s) i0 false) i1 false) i2 false) s)) ->
  wp alloc3_desc Q s.
Proof.
  intros Ha Hnone Hsome. unfold alloc3_desc. pose proof (ar_free _ Ha) as Hl.
  apply wp_bind, alloc_desc_spec; [done| |].
  { intros Hall. apply wp_ret, Hnone; [apply same_used_refl|]. apply (few_two _ 0 0). intros i Hi _ _. apply Hall. lia. }
  intros i0 H0 F0. destruct (Z.ltb_spec i0 0); [lia|]. set (f0 := zset (v_free s) i0 false).
  apply wp_bind, alloc_desc_spec; [subst f0; solve_arrays| |].
  { intros Hall. cbn [Z.ltb Z.compare]. apply wp_bind, free_desc_spec; [subst f0; solve_arrays|done|by apply znth_zset_eq; lia|].
    apply wp_ret, Hnone.
    - eexists _, _. split_and!; [cbn [wake_waits with_vwaits with_free with_desc v_free v_desc]; unfold f0; rewrite zset_zset, zset_id by done; by destruct s|apply zset_length| |by right].
      intros i Hi. cbn [with_free v_desc]. apply znth_zset_ne. congruence.
    - apply (few_two _ i0 i0). intros i Hi Hne _. rewrite <- (Hall i) by lia. cbn [with_free v_free]. unfold f0. by rewrite znth_zset_ne. }
  intros i1 H1 F1. cbn [with_free v_free] in F1 |- *. destruct (Z.ltb_spec i1 0); [lia|].
  assert (N1 : i0 <> i1) by (intros <-; unfold f0 in F1; rewrite znth_zset_eq in F1 by lia; done).
  assert (F1' : znth (v_free s) i1 = Some true) by (unfold f0 in F1; by rewrite znth_zset_ne in F1).
  set (f1 := zset f0 i1 false). assert (Ha1 : arrays (with_free f1 s)).
  { subst f1 f0. solve_arrays. }
  apply wp_bind, alloc_desc_spec; [exact Ha1| |].
  { intros Hall. cbn [Z.ltb Z.compare]. apply wp_bind, free_desc_spec; [exact Ha1|done| |].
    { cbn [with_free v_free]. unfold f1. rewrite znth_zset_ne by done. apply znth_zset_eq. lia. }
    apply wp_bind, free_desc_spec; [subst f1 f0; solve_arrays|done| |].
    { cbn [wake_waits with_vwaits with_free with_desc v_free]. rewrite znth_zset_ne by done. apply znth_zset_eq. unfold f0. rewrite zset_length. lia. }
    apply wp_ret, Hnone.
    - exists (zset (zset (v_desc s) i0 (mk_desc ANull 0 0 0)) i1 (mk_desc ANull 0 0 0)), (wake_wait <$> v_waits s). split_and!; [| | |by right].
      + cbn [wake_waits with_vwaits with_free with_desc v_free v_desc v_waits].
        assert (E : zset (zset f1 i0 true) i1 true = v_free s).
        { unfold f1, f0. rewrite (zset_comm _ i1 i0) by done. rewrite !zset_zset. by rewrite (zset_id _ i0), zset_id. }
        rewrite E. unfold wake_waits. cbn [v_waits with_free with_desc with_vwaits]. rewrite wake_twice. by destruct s.
      + by rewrite !zset_length.
      + intros i Hi. by rewrite !znth_zset_ne by congruence.
    - apply (few_two _ i0 i1). intros i Hi Hne Hne1. rewrite <- (Hall i) by lia. cbn [with_free v_free]. unfold f1, f0. by rewrite !znth_zset_ne. }
  intros i2 I2 F2. cbn [with_free v_free] in F2 |- *. destruct (Z.ltb_spec i2 0); [lia|]. apply wp_ret.
  assert (N2 : i1 <> i2) by (intros <-; unfold f1 in F2; rewrite znth_zset_eq in F2 by (unfold f0; rewrite zset_length; lia); done).
  unfold f1 in F2. rewrite znth_zset_ne in F2 by done.
  assert (N3 : i0 <> i2) by (intros <-; unfold f0 in F2; rewrite znth_zset_eq in F2 by lia; done).
  unfold f0 in F2. rewrite znth_zset_ne in F2 by done. by apply Hsome.
Qed.

(** Freeing the chain of a request. *)
Lemma free_chain_spec i0 i1 i2 d0 d1 d2 (Q : unit -> vst -> Prop) s : arrays s -> NoDup [i0; i1; i2] ->
  0 <= i0 < NUM -> 0 <= i1 < NUM -> 0 <= i2 < NUM ->
  znth (v_free s) i0 = Some false -> znth (v_free s) i1 = Some false -> znth (v_free s) i2 = Some false ->
  znth (v_desc s) i0 = Some d0 -> znth (v_desc s) i1 = Some d1 -> znth (v_desc s) i2 = Some d2 ->
  Z.land (d_flags d0) VRING_DESC_F_NEXT <> 0 -> d_next d0 = i1 ->
  Z.land (d_flags d1) VRING_DESC_F_NEXT <> 0 -> d_next d1 = i2 -> Z.land (d_flags d2) VRING_DESC_F_NEXT = 0 ->
  let nil := mk_desc ANull 0 0 0 in
  Q tt (wake_waits (with_free (zset (zset (zset (v_free s) i0 true) i1 true) i2 true)
    (with_desc (zset (zset (zset (v_desc s) i0 nil) i1 nil) i2 nil) s))) ->
  wp (free_chain i0) Q s.
Proof.
  intros Ha Hnd H0 H1 H2 F0 F1 F2 D0 D1 D2 L0 X0 L1 X1 L2 nil HQ.
  assert (N01 : i0 <> i1) by (apply NoDup_cons in Hnd as [? _]; set_solver).
  assert (N02 : i0 <> i2) by (apply NoDup_cons in Hnd as [? _]; set_solver).
  assert (N12 : i1 <> i2) by (apply NoDup_cons in Hnd as [_ [? _]%NoDup_cons]; set_solver).
  unfold free_chain. change (S (Z.to_nat NUM)) with (S (S (S 14))). cbn [free_chain_loop].
  apply wp_bind, (wp_desc_at i0 d0); [done|]. apply wp_bind, free_desc_spec; [done|done|done|].
  destruct (Z.eqb_spec (Z.land (d_flags d0) VRING_DESC_F_NEXT) 0); [done|]. rewrite X0.
  apply wp_bind, (wp_desc_at i1 d1); [cbn; by rewrite znth_zset_ne|].
  apply wp_bind, free_desc_spec; [solve_arrays|done|cbn; by rewrite znth_zset_ne|].
  destruct (Z.eqb_spec (Z.land (d_flags d1) VRING_DESC_F_NEXT) 0); [done|]. rewrite X1.
  apply wp_bind, (wp_desc_at i2 d2); [cbn; by rewrite !znth_zset_ne|].
  apply wp_bind, free_desc_spec; [solve_arrays|done|cbn; by rewrite !znth_zset_ne|].
  rewrite L2. apply wp_ret. unfold wake_waits. cbn [v_waits with_free with_desc with_vwaits]. rewrite !wake_twice. exact HQ.
Qed.

(** * The disk, the driver and its callers as a system

    [complete] is what it means that the device has served a chain; the device
    itself is a relation about which only this is assumed.  [vstep] are the
    steps of the system; [inv] holds in all its states. *)

(** ** Sectors *)

Definition sect (m : gmap Z (list Z)) (k : Z) : list Z := default (replicate 512 0) (m !! k).
Definition dev_read (m : gmap Z (list Z)) (sec n : Z) : block := concat (map (fun j => sect m (sec + j)) (range 0 n)).
Definition dev_write (m : gmap Z (list Z)) (sec n : Z) (x : block) : gmap Z (list Z) :=
  foldl (fun m j => <[sec + j := take 512 (drop (Z.to_nat (512 * j)) x)]> m) m (range 0 n).

(** Block [n] of the disk. *)
Definition blk (m : gmap Z (list Z)) (n : Z) : block := dev_read m (2 * n) 2.
Definition sectors_ok (m : gmap Z (list Z)) : Prop := forall k x, m !! k = Some x -> length x = 512%nat.

Lemma range_2 : range 0 2 = [0; 1].
Proof. done. Qed.
Lemma blk_eq m n : blk m n = sect m (2 * n) ++ sect m (2 * n + 1).
Proof. unfold blk, dev_read. rewrite range_2. cbn [map concat]. rewrite app_nil_r. by replace (2 * n + 0) with (2 * n) by lia. Qed.
Lemma sect_length m k : sectors_ok m -> length (sect m k) = 512%nat.
Proof. intros Hm. unfold sect. destruct (m !! k) eqn:E; cbn [default from_option id]; [by apply Hm in E|apply length_replicate]. Qed.
Lemma blk_length m n : sectors_ok m -> Z.of_nat (length (blk m n)) = BSIZE.
Proof. intros Hm. by rewrite blk_eq, length_app, !sect_length. Qed.
Lemma dev_write_eq m n x :
  dev_write m (2 * n) 2 x = <[2 * n + 1 := take 512 (drop 512 x)]> (<[2 * n := take 512 x]> m).
Proof. unfold dev_write. rewrite range_2. cbn [foldl]. by replace (2 * n + 0) with (2 * n) by lia. Qed.
Lemma blk_write m n x k : Z.of_nat (length x) = BSIZE ->
  blk (dev_write m (2 * n) 2 x) k = if decide (k = n) then x else blk m k.
Proof.
  intros Hx. rewrite !blk_eq, dev_write_eq. unfold sect. case_decide as Hk.
  - subst. rewrite lookup_insert_ne, !lookup_insert_eq by lia. cbn [default from_option id].
    rewrite (take_ge (drop 512 x)) by (rewrite length_drop; unfold BSIZE in *; lia). apply take_drop.
  - by rewrite !lookup_insert_ne by lia.
Qed.
Lemma sectors_ok_write m n x : sectors_ok m -> Z.of_nat (length x) = BSIZE -> sectors_ok (dev_write m (2 * n) 2 x).
Proof.
  intros Hm Hx k y. rewrite dev_write_eq. unfold BSIZE in *. destruct (decide (k = 2 * n + 1)) as [->|H1].
  - rewrite lookup_insert_eq. intros [= <-]. rewrite length_take, length_drop. lia.
  - rewrite lookup_insert_ne by done. destruct (decide (k = 2 * n)) as [->|H2].
    + rewrite lookup_insert_eq. intros [= <-]. rewrite length_take. lia.
    + rewrite lookup_insert_ne by done. apply Hm.
Qed.

(** ** The device *)

(** Serving the chain that starts at [head]: the device follows the chain,
    transfers the sectors, writes status 0 and puts the head into the used
    ring. *)
Definition complete (head : Z) (s : vst) : option vst :=
  d0 ← znth (v_desc s) head;
  d1 ← znth (v_desc s) (d_next d0);
  d2 ← znth (v_desc s) (d_next d1);
  match d_addr d0, d_addr d1, d_addr d2 with
  | AOps o, AData b, AStatus j =>
    op ← znth (v_ops s) o;
    x ← v_bufs s !! b;
    inf ← znth (v_info s) j;
    let n := d_len d1 / 512 in
    let out := q_type op =? VIRTIO_BLK_T_OUT in
    Some (mk_vst (v_desc s) (v_aidx s) (v_aring s) (u16 (v_uidx s + 1)) (zset (v_uring s) (v_uidx s mod NUM) head)
      (v_free s) (v_used_idx s) (zset (v_info s) j (fst inf, 0)) (v_ops s)
      (if out then v_bufs s else <[b := mk_vbuf (vb_disk x) (vb_blockno x) (dev_read (v_sectors s) (q_sector op) n)]> (v_bufs s))
      (v_tasks s)
      (if out then dev_write (v_sectors s) (q_sector op) n (vb_data x) else v_sectors s)
      (v_seen s) (list_difference (v_pending s) [head]) (v_waits s))
  | _, _, _ => None
  end.

(** ** Steps *)

Inductive vevent :=
| EBegin (pid n : Z) (write : bool) (x : block)
| EEnd (pid : Z) (x : block).

Section world.
Variable device : vst -> vst -> Prop.

(** The caller has the buffer to itself, and it is for a block of the disk. *)
Definition may_begin (s : vst) (pid b : Z) (x : vbuf) : Prop :=
  v_bufs s !! b = Some x /\ 0 <= vb_blockno x < 2 ^ 31 /\ Z.of_nat (length (vb_data x)) = BSIZE /\
  (forall i t, v_tasks s !! i = Some t -> vt_buf t <> b /\ vt_pid t <> pid) /\
  forall p w, v_waits s !! p = Some w -> vw_buf w <> b /\ p <> pid.

(** [kill] makes a sleeping process runnable.  A process that waits for
    descriptors then tries again. *)
Definition kill_wait (pid : Z) (s : vst) : vst := with_vwaits (alter wake_wait pid (v_waits s)) s.

(** A process calls [virtio_disk_rw]; a process that was woken tries again to
    get descriptors; the device serves a chain; the interrupt handler runs; a
    process whose request was served finishes; a process that waits for
    descriptors is killed.  The kill of a process that waits for its request is
    not a step: see [killed_waiter_faults]. *)
Inductive vstep : vst -> list vevent -> vst -> Prop :=
| vs_begin pid b write x r s s' : may_begin s pid b x -> rw_begin pid b write s = Done r s' ->
    vstep s [EBegin pid (vb_blockno x) write (vb_data x)] s'
| vs_retry pid w r s s' : v_waits s !! pid = Some w -> vw_awake w = true ->
    rw_try pid (vw_buf w) (vw_write w) (vw_sector w) s = Done r s' -> vstep s [] s'
| vs_device s s' : device s s' -> vstep s [] s'
| vs_intr s s' : virtio_disk_intr s = Done tt s' -> vstep s [] s'
| vs_end i t x s s' :
    v_tasks s !! i = Some t -> vt_awake t = true -> v_bufs s !! vt_buf t = Some x ->
    rw_end i s = Done tt s' -> vstep s [EEnd (vt_pid t) (vb_data x)] s'
| vs_kill pid s : vstep s [] (kill_wait pid s).
End world.

(** ** The abstract disk

    Blocks, and requests that are served in one step at some time between
    their begin and their end. *)

Record areq := mk_areq { ar_n : Z; ar_write : bool; ar_data : block; ar_served : bool }.
Record adisk := mk_adisk { ad_blocks : Z -> block; ad_reqs : gmap Z areq }.

Inductive astep : adisk -> list vevent -> adisk -> Prop :=
| as_begin pid n w x a : ad_reqs a !! pid = None ->
    astep a [EBegin pid n w x] (mk_adisk (ad_blocks a) (<[pid := mk_areq n w x false]> (ad_reqs a)))
| as_read pid n x a : ad_reqs a !! pid = Some (mk_areq n false x false) ->
    astep a [] (mk_adisk (ad_blocks a) (<[pid := mk_areq n false (ad_blocks a n) true]> (ad_reqs a)))
| as_write pid n x a : ad_reqs a !! pid = Some (mk_areq n true x false) ->
    astep a [] (mk_adisk (fun k => if decide (k = n) then x else ad_blocks a k) (<[pid := mk_areq n true x true]> (ad_reqs a)))
| as_end pid n w x a : ad_reqs a !! pid = Some (mk_areq n w x true) ->
    astep a [EEnd pid x] (mk_adisk (ad_blocks a) (delete pid (ad_reqs a)))
| as_stutter a : astep a [] a.

(** ** The invariant *)

Definition idxs (t : vtask) : list Z := let '(a, b, c) := vt_idx t in [a; b; c].

(** A request in the driver: its chain of descriptors, and where it is: told to
    the device, served, or its process woken. *)
Record task_ok (s : vst) (served : list Z) (i : Z) (t : vtask) (i1 i2 : Z) (x : vbuf) (w : bool) (st : Z) : Prop := {
  to_idx : vt_idx t = (i, i1, i2);
  to_nodup : NoDup [i; i1; i2];
  to_desc0 : znth (v_desc s) i = Some (mk_desc (AOps i) 16 VRING_DESC_F_NEXT i1);
  to_desc1 : znth (v_desc s) i1 = Some (mk_desc (AData (vt_buf t)) BSIZE (Z.lor (if w then 0 else VRING_DESC_F_WRITE) VRING_DESC_F_NEXT) i2);
  to_desc2 : znth (v_desc s) i2 = Some (mk_desc (AStatus i) 1 VRING_DESC_F_WRITE 0);
  to_op : znth (v_ops s) i = Some (mk_req (if w then VIRTIO_BLK_T_OUT else VIRTIO_BLK_T_IN) 0 (2 * vb_blockno x));
  to_info : znth (v_info s) i = Some (Some (vt_buf t), st);
  to_buf : v_bufs s !! vt_buf t = Some x;
  to_blockno : 0 <= vb_blockno x < 2 ^ 31;
  to_data : Z.of_nat (length (vb_data x)) = BSIZE;
  to_stage : (st = 255 /\ vt_awake t = false /\ i ∈ v_pending s) \/ (st = 0 /\ vt_awake t = false /\ i ∈ served) \/
    (st = 0 /\ vt_awake t = true);
}.

(** A request that waits for descriptors, asleep only while there are not three. *)
Record wait_ok (s : vst) (a : adisk) (pid : Z) (w : vwait) (x : vbuf) : Prop := {
  wo_buf : v_bufs s !! vw_buf w = Some x;
  wo_blockno : 0 <= vb_blockno x < 2 ^ 31;
  wo_data : Z.of_nat (length (vb_data x)) = BSIZE;
  wo_sector : vw_sector w = 2 * vb_blockno x;
  wo_req : ad_reqs a !! pid = Some (mk_areq (vb_blockno x) (vw_write w) (vb_data x) false);
  wo_tasks : forall i t, v_tasks s !! i = Some t -> vt_buf t <> vw_buf w /\ vt_pid t <> pid;
  wo_asleep : vw_awake w = false -> few_free (v_free s);
}.

(** [inv] also relates the state to the abstract disk [a]. *)
Record inv (s : vst) (served : list Z) (a : adisk) : Prop := {
  iv_arrays : arrays s;
  iv_tasks : forall i t, v_tasks s !! i = Some t -> exists i1 i2 x w st, task_ok s served i t i1 i2 x w st /\
    ad_reqs a !! vt_pid t = Some (mk_areq (vb_blockno x) w (vb_data x) (st =? 0));
  iv_waits : forall pid w, v_waits s !! pid = Some w -> exists x, wait_ok s a pid w x;
  iv_wbufs : forall p q w u, v_waits s !! p = Some w -> v_waits s !! q = Some u -> vw_buf w = vw_buf u -> p = q;
  iv_reqs : forall pid r, ad_reqs a !! pid = Some r -> (exists i t, v_tasks s !! i = Some t /\ vt_pid t = pid) \/ is_Some (v_waits s !! pid);
  iv_blocks : forall n, 0 <= n < 2 ^ 31 -> ad_blocks a n = blk (v_sectors s) n;
  iv_free : forall k, 0 <= k < NUM -> znth (v_free s) k = Some false <-> exists i t, v_tasks s !! i = Some t /\ k ∈ idxs t;
  iv_owner : forall i j t u k, v_tasks s !! i = Some t -> v_tasks s !! j = Some u -> k ∈ idxs t -> k ∈ idxs u -> i = j;
  iv_bufs : forall i j t u, v_tasks s !! i = Some t -> v_tasks s !! j = Some u -> vt_buf t = vt_buf u \/ vt_pid t = vt_pid u -> i = j;
  iv_pending : NoDup (v_pending s) /\ forall i, i ∈ v_pending s -> exists t, v_tasks s !! i = Some t /\
    znth (v_info s) i = Some (Some (vt_buf t), 255);
  iv_served : NoDup served /\ forall i, i ∈ served -> exists t, v_tasks s !! i = Some t /\ vt_awake t = false /\
    znth (v_info s) i = Some (Some (vt_buf t), 0);
  iv_used : 0 <= v_used_idx s < 2 ^ 16 /\ v_uidx s = u16 (v_used_idx s + Z.of_nat (length served)) /\
    forall k, 0 <= k < Z.of_nat (length served) ->
      znth (v_uring s) ((v_used_idx s + k) mod NUM) = served !! Z.to_nat k;
  iv_seen : v_seen s = v_aidx s /\ 0 <= v_aidx s < 2 ^ 16;
  iv_sectors : sectors_ok (v_sectors s);
}.

Lemma task_frame s s' served served' i t i1 i2 x w st : task_ok s served i t i1 i2 x w st ->
  (forall k, k ∈ [i; i1; i2] -> znth (v_desc s') k = znth (v_desc s) k) ->
  znth (v_ops s') i = znth (v_ops s) i -> znth (v_info s') i = znth (v_info s) i ->
  v_bufs s' !! vt_buf t = v_bufs s !! vt_buf t -> (i ∈ v_pending s -> i ∈ v_pending s') -> (i ∈ served -> i ∈ served') ->
  task_ok s' served' i t i1 i2 x w st.
Proof.
  intros [T1 T2 T3 T4 T5 T6 T7 T8 T9 T10 T11] Hd Ho Hi Hb Hp Hs.
  constructor; rewrite ?Hd, ?Ho, ?Hi, ?Hb by set_solver; try done. naive_solver.
Qed.

Lemma wait_frame s s' a a' pid w w' x : wait_ok s a pid w x -> vw_buf w' = vw_buf w -> vw_write w' = vw_write w -> vw_sector w' = vw_sector w ->
  v_bufs s' !! vw_buf w = v_bufs s !! vw_buf w -> ad_reqs a' !! pid = ad_reqs a !! pid ->
  (forall i t, v_tasks s' !! i = Some t -> vt_buf t <> vw_buf w /\ vt_pid t <> pid) ->
  (vw_awake w' = false -> vw_awake w = false /\ forall k, znth (v_free s') k = Some true -> znth (v_free s) k = Some true) -> wait_ok s' a' pid w' x.
Proof.
  intros [W1 W2 W3 W4 W5 W6 W7] Eb Ew Es Hb Hr Ht Hf. constructor; rewrite ?Eb, ?Ew, ?Es, ?Hb, ?Hr; try done.
  intros E. destruct (Hf E) as [E' Hfree]. by apply (few_mono (v_free s)); [apply W7|].
Qed.

Lemma idxs_eq s served i t i1 i2 x w st : task_ok s served i t i1 i2 x w st -> idxs t = [i; i1; i2].
Proof. intros T. unfold idxs. by rewrite (to_idx _ _ _ _ _ _ _ _ _ T). Qed.

Lemma idx_range s served i t i1 i2 x w st : arrays s -> task_ok s served i t i1 i2 x w st ->
  0 <= i < NUM /\ 0 <= i1 < NUM /\ 0 <= i2 < NUM.
Proof.
  intros Ha T. rewrite <- (ar_desc _ Ha).
  split_and!; eapply znth_Some_lt; apply T.
Qed.

(** What is known of a task is determined by the state. *)
Lemma task_fun s served i t i1 i2 x w st i1' i2' x' w' st' : task_ok s served i t i1 i2 x w st ->
  task_ok s served i t i1' i2' x' w' st' -> i1' = i1 /\ i2' = i2 /\ x' = x /\ w' = w /\ st' = st.
Proof.
  intros [T1 _ _ _ _ T2 T3 T4 _ _ _] [U1 _ _ _ _ U2 U3 U4 _ _ _]. rewrite T1 in U1. rewrite T4 in U4. rewrite T3 in U3.
  rewrite T2 in U2. destruct w, w'; simplify_eq/=; done.
Qed.
