(* ===== verification/VirtioSteps.v ===== *)
(** * The steps of the disk system preserve its invariant

    Each step of the driver, of the device and of the interrupt handler keeps
    [inv], with the abstract disk making the corresponding step; and the
    driver's code neither panics nor faults on the way. *)

From stdpp Require Import base numbers list gmap strings.
From Stdlib Require Import ZArith Lia.
From S2P Require Import Prelude Blocks Monad Virtio VirtioWorld.
Open Scope Z_scope.

Lemma task_busy s served a i t k : inv s served a -> v_tasks s !! i = Some t -> k ∈ idxs t ->
  0 <= k < NUM /\ znth (v_free s) k = Some false.
Proof.
  intros I Ht Hk. destruct (iv_tasks _ _ _ I i t Ht) as (i1 & i2 & x & w & st & T & _).
  assert (Hr : 0 <= k < NUM).
  { rewrite (idxs_eq _ _ _ _ _ _ _ _ _ T) in Hk. pose proof (idx_range _ _ _ _ _ _ _ _ _ (iv_arrays _ _ _ I) T). set_solver by lia. }
  split; [done|]. apply (iv_free _ _ _ I k Hr). by exists i, t.
Qed.

(** ** A request that has to wait *)
Lemma wait_inv s s' served a : inv s served a -> same_used_desc s s' -> inv s' served a.
Proof.
  intros I (l & W & -> & Hl & Hsame & HW). destruct (iv_arrays _ _ _ I) as [A1 A2 A3 A4 A5 A6].
  assert (Hold : forall p w, W !! p = Some w -> exists u, v_waits s !! p = Some u /\ (w = u \/ w = wake_wait u)).
  { destruct HW as [->| ->]; intros p w Hw; [by exists w; split; [|left]|]. rewrite lookup_fmap in Hw. destruct (v_waits s !! p) as [u|]; [|done]. injection Hw as <-. exists u. by split; [|right]. }
  constructor; try apply I.
  - constructor; cbn; try done. by rewrite Hl.
  - intros i t Ht. destruct (iv_tasks _ _ _ I i t Ht) as (i1 & i2 & x & w & st & T & Hreq).
    exists i1, i2, x, w, st. split; [|done]. eapply task_frame; [exact T| |done..].
    intros k Hk. apply Hsame. rewrite <- (idxs_eq _ _ _ _ _ _ _ _ _ T) in Hk. by apply (task_busy s served a i t k).
  - intros p w (u & Hu & E)%Hold. destruct (iv_waits _ _ _ I p u Hu) as [x Wo]. exists x.
    apply (wait_frame s _ a a p u w x Wo); try done; [by destruct E as [->| ->]..|apply Wo|]. destruct E as [->| ->]; [|done]. done.
  - intros p q w1 w2 (u1 & Hu1 & E1)%Hold (u2 & Hu2 & E2)%Hold E. apply (iv_wbufs _ _ _ I p q u1 u2 Hu1 Hu2). destruct E1 as [->| ->], E2 as [->| ->]; done.
  - intros pid r [H|H]%(iv_reqs _ _ _ I); [by left|right]. cbn [with_vwaits v_waits]. destruct HW as [->| ->]; [done|]. rewrite lookup_fmap. by apply fmap_is_Some.
Qed.

(** ** A request starts to wait, or a process that waited goes on *)
Lemma sleep_inv s served a pid b write x : inv s served a -> may_begin s pid b x -> few_free (v_free s) ->
  inv (with_vwaits (<[pid := mk_vwait b write (2 * vb_blockno x) false]> (v_waits s)) s) served
    (mk_adisk (ad_blocks a) (<[pid := mk_areq (vb_blockno x) write (vb_data x) false]> (ad_reqs a))).
Proof.
  intros I (Hb & Hn & Hlen & Ht & Hw) Hf. constructor; try apply I; cbn [with_vwaits v_waits ad_reqs].
  - destruct (iv_arrays _ _ _ I). by constructor.
  - intros i t Hi. destruct (iv_tasks _ _ _ I i t Hi) as (i1 & i2 & y & w & st & T & Hreq). exists i1, i2, y, w, st.
    split; [by eapply task_frame|]. rewrite lookup_insert_ne; [done|]. intros E. by destruct (Ht i t Hi).
  - intros p w [[<- <-]|[Hne Hp]]%lookup_insert_Some.
    + exists x. constructor; cbn [vw_buf vw_write vw_sector ad_reqs]; rewrite ?lookup_insert_eq; try done.
    + destruct (iv_waits _ _ _ I p w Hp) as [y Wo]. exists y. apply (wait_frame s _ a _ p w w y Wo); try done; [by cbn [ad_reqs]; rewrite lookup_insert_ne|apply Wo].
  - intros p q w u [[<- <-]|[Hp Hw1]]%lookup_insert_Some [[<- <-]|[Hq Hw2]]%lookup_insert_Some E; try done.
    + by destruct (Hw q u Hw2).
    + by destruct (Hw p w Hw1).
    + by apply (iv_wbufs _ _ _ I p q w u).
  - intros p r [[<- _]|[Hne Hp]]%lookup_insert_Some; [right; by rewrite lookup_insert_eq|]. apply (iv_reqs _ _ _ I) in Hp as [H|H]; [by left|right].
    by rewrite lookup_insert_ne.
Qed.

(** The process runs again: its request is not the driver's until it is begun. *)
Lemma resume_inv s served a pid w : inv s served a -> v_waits s !! pid = Some w ->
  inv (with_vwaits (delete pid (v_waits s)) s) served (mk_adisk (ad_blocks a) (delete pid (ad_reqs a))).
Proof.
  intros I Hw. destruct (iv_waits _ _ _ I pid w Hw) as [x Wx]. constructor; try apply I; cbn [with_vwaits v_waits ad_reqs].
  - destruct (iv_arrays _ _ _ I). by constructor.
  - intros i t Hi. destruct (iv_tasks _ _ _ I i t Hi) as (i1 & i2 & y & w' & st & T & Hreq). exists i1, i2, y, w', st.
    split; [by eapply task_frame|]. rewrite lookup_delete_ne; [done|]. intros E. by destruct (wo_tasks _ _ _ _ _ Wx i t Hi).
  - intros p u [Hne Hp]%lookup_delete_Some. destruct (iv_waits _ _ _ I p u Hp) as [y Wo]. exists y.
    apply (wait_frame s _ a _ p u u y Wo); try done; [by cbn [ad_reqs]; rewrite lookup_delete_ne|apply Wo].
  - intros p q w1 w2 [_ H1]%lookup_delete_Some [_ H2]%lookup_delete_Some. by apply (iv_wbufs _ _ _ I).
  - intros p r [Hne Hp]%lookup_delete_Some. apply (iv_reqs _ _ _ I) in Hp as [H|H]; [by left|right]. by rewrite lookup_delete_ne.
Qed.
Lemma resume_begin s served a pid w x : inv s served a -> v_waits s !! pid = Some w -> wait_ok s a pid w x ->
  may_begin (with_vwaits (delete pid (v_waits s)) s) pid (vw_buf w) x.
Proof.
  intros I Hw [W1 W2 W3 W4 W5 W6 W7]. split_and!; try done; [lia|lia|]. cbn [with_vwaits v_waits]. intros p u [Hne Hu]%lookup_delete_Some. split; [|done].
  intros E. apply Hne. symmetry. by apply (iv_wbufs _ _ _ I p pid u w).
Qed.
Lemma kill_inv s served a pid : inv s served a -> inv (kill_wait pid s) served a.
Proof.
  intros I. assert (Hold : forall p w, v_waits (kill_wait pid s) !! p = Some w -> exists u, v_waits s !! p = Some u /\ (w = u \/ w = wake_wait u)).
  { intros p w. cbn [kill_wait with_vwaits v_waits]. destruct (decide (p = pid)) as [->|]; [|rewrite lookup_alter_ne by done; intros Hp; exists w; by split; [|left]].
    rewrite lookup_alter_eq. destruct (v_waits s !! pid) as [u|]; [|done]. intros [= <-]. exists u. by split; [|right]. }
  constructor; try apply I.
  - destruct (iv_arrays _ _ _ I). by constructor.
  - intros i t Hi. destruct (iv_tasks _ _ _ I i t Hi) as (i1 & i2 & y & w' & st & T & Hreq). exists i1, i2, y, w', st. split; [by eapply task_frame|done].
  - intros p w (u & Hu & E)%Hold. destruct (iv_waits _ _ _ I p u Hu) as [x Wo]. exists x.
    apply (wait_frame s _ a a p u w x Wo); try done; [by destruct E as [->| ->]..|apply Wo|]. by destruct E as [->| ->].
  - intros p q w1 w2 (u1 & Hu1 & E1)%Hold (u2 & Hu2 & E2)%Hold E. apply (iv_wbufs _ _ _ I p q u1 u2 Hu1 Hu2). destruct E1 as [->| ->], E2 as [->| ->]; done.
  - intros p r [H|H]%(iv_reqs _ _ _ I); [by left|right]. cbn [kill_wait with_vwaits v_waits]. destruct (decide (p = pid)) as [->|]; [rewrite lookup_alter_eq; by apply fmap_is_Some|by rewrite lookup_alter_ne].
Qed.

(** Descriptors taken are free no more. *)
Lemma taken_free l i k : znth (zset l i false) k = Some true -> znth l k = Some true.
Proof.
  intros H. pose proof (znth_Some_lt _ _ _ H) as Hk. rewrite zset_length in Hk. destruct (decide (k = i)) as [->|]; [|by rewrite znth_zset_ne in H].
  by rewrite znth_zset_eq in H.
Qed.

(** ** A new request *)
Section begin.
Variables (s : vst) (served : list Z) (a : adisk) (pid b : Z) (write : bool) (x : vbuf) (i0 i1 i2 : Z).
Hypothesis I : inv s served a.
Hypothesis Hb : v_bufs s !! b = Some x.
Hypothesis Hn : 0 <= vb_blockno x < 2 ^ 31.
Hypothesis Hlen : Z.of_nat (length (vb_data x)) = BSIZE.
Hypothesis Hnew : forall i t, v_tasks s !! i = Some t -> vt_buf t <> b /\ vt_pid t <> pid.
Hypothesis Hwait : forall p w, v_waits s !! p = Some w -> vw_buf w <> b /\ p <> pid.
Hypothesis R0 : 0 <= i0 < NUM.
Hypothesis R1 : 0 <= i1 < NUM.
Hypothesis R2 : 0 <= i2 < NUM.
Hypothesis Hnd : NoDup [i0; i1; i2].
Hypothesis Hf : forall k, k ∈ [i0; i1; i2] -> znth (v_free s) k = Some true.

Definition begun : vst :=
  mk_vst (zset (zset (zset (v_desc s) i0 (mk_desc (AOps i0) 16 VRING_DESC_F_NEXT i1)) i1
      (mk_desc (AData b) BSIZE (Z.lor (if write then 0 else VRING_DESC_F_WRITE) VRING_DESC_F_NEXT) i2)) i2
      (mk_desc (AStatus i0) 1 VRING_DESC_F_WRITE 0))
    (u16 (v_aidx s + 1)) (zset (v_aring s) (v_aidx s mod NUM) i0) (v_uidx s) (v_uring s)
    (zset (zset (zset (v_free s) i0 false) i1 false) i2 false) (v_used_idx s) (zset (v_info s) i0 (Some b, 255))
    (zset (v_ops s) i0 (mk_req (if write then VIRTIO_BLK_T_OUT else VIRTIO_BLK_T_IN) 0 (2 * vb_blockno x)))
    (<[b := mk_vbuf true (vb_blockno x) (vb_data x)]> (v_bufs s))
    (<[i0 := mk_vtask pid b (i0, i1, i2) false]> (v_tasks s)) (v_sectors s) (u16 (v_aidx s + 1)) (v_pending s ++ [i0]) (v_waits s).

Lemma free_not_busy k : k ∈ [i0; i1; i2] -> forall i t, v_tasks s !! i = Some t -> k ∉ idxs t.
Proof. intros Hk i t Ht Hin. destruct (task_busy _ _ _ _ _ _ I Ht Hin) as [_ E]. rewrite (Hf k Hk) in E. done. Qed.

Lemma head_free : v_tasks s !! i0 = None.
Proof.
  destruct (v_tasks s !! i0) as [t|] eqn:Ht; [|done]. destruct (iv_tasks _ _ _ I i0 t Ht) as (j1 & j2 & y & w & st & T & _).
  exfalso. apply (free_not_busy i0 ltac:(set_solver) i0 t Ht). rewrite (idxs_eq _ _ _ _ _ _ _ _ _ T). set_solver.
Qed.

Lemma begun_other i t j1 j2 y w st : v_tasks s !! i = Some t -> task_ok s served i t j1 j2 y w st ->
  task_ok begun served i t j1 j2 y w st.
Proof.
  intros Ht T. destruct (Hnew i t Ht) as [Hnb _]. pose proof (idxs_eq _ _ _ _ _ _ _ _ _ T) as Ei.
  assert (Hne : forall k j, k ∈ [i0; i1; i2] -> j ∈ [i; j1; j2] -> k <> j).
  { intros k j Hk Hj ->. rewrite <- Ei in Hj. by apply (free_not_busy j Hk i t Ht). }
  eapply task_frame; [exact T|..]; cbn [begun v_desc v_ops v_info v_bufs v_pending].
  - intros k Hk. rewrite !znth_zset_ne; [done|..]; apply Hne; set_solver.
  - apply znth_zset_ne, Hne; set_solver.
  - apply znth_zset_ne, Hne; set_solver.
  - apply lookup_insert_ne. congruence.
  - set_solver.
  - done.
Qed.

Lemma begun_new : task_ok begun served i0 (mk_vtask pid b (i0, i1, i2) false) i1 i2 (mk_vbuf true (vb_blockno x) (vb_data x)) write 255.
Proof.
  destruct (iv_arrays _ _ _ I) as [A1 A2 A3 A4 A5 A6].
  assert (N01 : i0 <> i1) by (apply NoDup_cons in Hnd as [? _]; set_solver).
  assert (N02 : i0 <> i2) by (apply NoDup_cons in Hnd as [? _]; set_solver).
  assert (N12 : i1 <> i2) by (apply NoDup_cons in Hnd as [_ [? _]%NoDup_cons]; set_solver).
  constructor; cbn [begun v_desc v_ops v_info v_bufs v_pending vt_idx vt_buf vb_blockno vb_data vt_awake]; try done.
  - rewrite !znth_zset_ne by done. apply znth_zset_eq. lia.
  - rewrite znth_zset_ne by done. apply znth_zset_eq. rewrite zset_length. lia.
  - apply znth_zset_eq. rewrite !zset_length. lia.
  - apply znth_zset_eq. lia.
  - apply znth_zset_eq. lia.
  - apply lookup_insert_eq.
  - left. split_and!; [done|done|set_solver].
Qed.

Lemma begun_free k : 0 <= k < NUM ->
  znth (v_free begun) k = Some false <-> k ∈ [i0; i1; i2] \/ znth (v_free s) k = Some false.
Proof.
  intros Hk. pose proof (ar_free _ (iv_arrays _ _ _ I)) as A. cbn [begun v_free].
  destruct (decide (k = i2)) as [->|N2]; [rewrite znth_zset_eq by (rewrite !zset_length; lia); set_solver|].
  rewrite znth_zset_ne by done.
  destruct (decide (k = i1)) as [->|N1]; [rewrite znth_zset_eq by (rewrite !zset_length; lia); set_solver|].
  rewrite znth_zset_ne by done.
  destruct (decide (k = i0)) as [->|N0]; [rewrite znth_zset_eq by lia; set_solver|].
  rewrite znth_zset_ne by done. set_solver.
Qed.

Lemma begun_inv : inv begun served (mk_adisk (ad_blocks a) (<[pid := mk_areq (vb_blockno x) write (vb_data x) false]> (ad_reqs a))).
Proof.
  pose proof head_free as Hh. set (nt := mk_vtask pid b (i0, i1, i2) false).
  assert (Hcases : forall i t, v_tasks begun !! i = Some t -> (i = i0 /\ t = nt) \/ (i <> i0 /\ v_tasks s !! i = Some t)).
  { intros i t. cbn [begun v_tasks]. destruct (decide (i = i0)) as [->|Hne]; [rewrite lookup_insert_eq; intros [= <-]; by left|].
    rewrite lookup_insert_ne by done. by right. }
  assert (Hin : forall i t, v_tasks s !! i = Some t -> v_tasks begun !! i = Some t).
  { intros i t Ht. cbn [begun v_tasks]. rewrite lookup_insert_ne; [done|]. congruence. }
  assert (Hin0 : v_tasks begun !! i0 = Some nt) by (cbn [begun v_tasks]; apply lookup_insert_eq).
  constructor; try apply I.
  - destruct (iv_arrays _ _ _ I). constructor; cbn [begun v_desc v_aring v_uring v_free v_info v_ops]; rewrite ?zset_length; done.
  - intros i t [[-> ->]|[Hne Ht]]%Hcases.
    + eexists i1, i2, _, write, 255. split; [apply begun_new|]. cbn [nt vt_pid ad_reqs]. rewrite lookup_insert_eq. done.
    + destruct (iv_tasks _ _ _ I i t Ht) as (j1 & j2 & y & w & st & T & Hreq). exists j1, j2, y, w, st.
      split; [by apply begun_other|]. cbn [ad_reqs]. rewrite lookup_insert_ne; [done|]. intros ->. by apply (Hnew i t Ht).
  - intros p u Hp. change (v_waits begun) with (v_waits s) in Hp. destruct (Hwait p u Hp) as [Hwb Hwp]. destruct (iv_waits _ _ _ I p u Hp) as [y Wo]. exists y.
    apply (wait_frame s _ a _ p u u y Wo); try done; cbn [ad_reqs begun v_bufs v_free].
    + by rewrite lookup_insert_ne.
    + by rewrite lookup_insert_ne.
    + intros i t [[-> ->]|[Hne Ht]]%Hcases; [by cbn [nt vt_buf vt_pid]; split; apply not_eq_sym|by apply (wo_tasks _ _ _ _ _ Wo i)].
    + intros E. split; [done|]. intros k Hk. by do 3 apply taken_free in Hk.
  - intros p r. cbn [ad_reqs]. destruct (decide (p = pid)) as [->|Hp].
    + intros _. left. by exists i0, nt.
    + rewrite lookup_insert_ne by done. intros [(i & t & Ht & <-)|H]%(iv_reqs _ _ _ I); [left|by right]. exists i, t. split; [by apply Hin|done].
  - intros k Hk. rewrite begun_free by done. rewrite (iv_free _ _ _ I k Hk). split.
    + intros [Hk'|(i & t & Ht & Hi)]; [by exists i0, nt|]. exists i, t. split; [by apply Hin|done].
    + intros (i & t & [[-> ->]|[Hne Ht]]%Hcases & Hi); [by left|right]. by exists i, t.
  - intros i j t u k [[-> ->]|[Hi Ht]]%Hcases [[-> ->]|[Hj Hu]]%Hcases Hk1 Hk2; try done.
    + by apply (free_not_busy k Hk1 j u Hu) in Hk2.
    + by apply (free_not_busy k Hk2 i t Ht) in Hk1.
    + by apply (iv_owner _ _ _ I i j t u k).
  - intros i j t u [[-> ->]|[Hi Ht]]%Hcases [[-> ->]|[Hj Hu]]%Hcases Hor; try done.
    + destruct (Hnew j u Hu). cbn in Hor. naive_solver.
    + destruct (Hnew i t Ht). cbn in Hor. naive_solver.
    + by apply (iv_bufs _ _ _ I i j t u).
  - destruct (iv_pending _ _ _ I) as [Hnp Hp]. cbn [begun v_pending v_info]. split.
    + apply NoDup_app. split_and!; [done| |apply NoDup_singleton]. intros i (t & Ht & _)%Hp. assert (i <> i0) by congruence. set_solver.
    + intros i [Hi|Hi]%elem_of_app.
      * destruct (Hp i Hi) as (t & Ht & Hinf). exists t. split; [by apply Hin|]. rewrite znth_zset_ne; [done|]. congruence.
      * apply list_elem_of_singleton in Hi as ->. exists nt. split; [done|]. apply znth_zset_eq.
        by rewrite (ar_info _ (iv_arrays _ _ _ I)).
  - destruct (iv_served _ _ _ I) as [Hns Hs]. split; [done|]. intros i Hi. destruct (Hs i Hi) as (t & Ht & Haw & Hinf).
    exists t. cbn [begun v_info]. split_and!; [by apply Hin|done|]. rewrite znth_zset_ne; [done|]. congruence.
  - cbn [begun v_seen v_aidx]. split; [done|]. apply Z.mod_pos_bound. lia.
Qed.
End begin.

Lemma sector_small n : 0 <= n < 2 ^ 31 -> u32 (n * (BSIZE / 512)) = 2 * n.
Proof. intros. change (BSIZE / 512) with 2. rewrite u32_small; lia. Qed.

(** The entry of the avail ring that the device reads at a notification. *)
Lemma new_entry (ring : list Z) ai i0 : Z.of_nat (length ring) = NUM -> 0 <= ai < 2 ^ 16 ->
  map (fun k => zset ring (ai mod NUM) i0 !!! Z.to_nat ((ai + k) mod NUM)) (range 0 (u16 (u16 (ai + 1) - ai))) = [i0].
Proof.
  intros Hl Hai. replace (u16 (u16 (ai + 1) - ai)) with 1.
  - change (range 0 1) with [0]. cbn [map]. rewrite Z.add_0_r. f_equal. apply list_lookup_total_correct.
    pose proof (Z.mod_pos_bound ai NUM ltac:(done)). pose proof (znth_zset_eq ring (ai mod NUM) i0 ltac:(lia)) as E.
    unfold znth in E. destruct (Z.ltb_spec (ai mod NUM) 0); [lia|]. exact E.
  - unfold u16. rewrite Zminus_mod_idemp_l. by replace (ai + 1 - ai) with 1 by lia.
Qed.

(** The request in the abstract disk. *)
Definition requested (pid : Z) (write : bool) (x : vbuf) (a : adisk) : adisk :=
  mk_adisk (ad_blocks a) (<[pid := mk_areq (vb_blockno x) write (vb_data x) false]> (ad_reqs a)).

(** The round leaves the process waiting, which it does only when there are not
    three descriptors, or in the queue of the device. *)
Lemma rw_try_run s served a pid b write x : inv s served a -> may_begin (with_vwaits (delete pid (v_waits s)) s) pid b x ->
  forall a0, inv (with_vwaits (delete pid (v_waits s)) s) served a0 ->
  wp (rw_try pid b write (2 * vb_blockno x)) (fun r s' => inv s' served (requested pid write x a0) /\
    if r then v_waits s' = delete pid (v_waits s) else few_free (v_free s)) s.
Proof.
  intros I0 Hm a0 I. unfold rw_try. apply wp_bind, wp_modify. set (s0 := with_vwaits _ s) in *. pose proof Hm as (Hb & Hn & Hlen & Hnew & Hwait).
  pose proof (iv_arrays _ _ _ I) as Ha. apply wp_bind, alloc3_spec; [done| |].
  { intros s' Hs' Hf. apply wp_bind, wp_modify, wp_ret. split; [|done]. pose proof (wait_inv s0 s' served a0 I Hs') as I'.
    destruct Hs' as (l & W & -> & _ & _ & HW). apply (sleep_inv _ served a0 pid b write x I'); [|done]. split_and!; [done|lia|lia|done|done|].
    intros p w Hp. destruct HW as [->| ->]; [by apply Hwait|]. cbn [with_vwaits v_waits] in Hp. rewrite lookup_fmap in Hp.
    destruct (v_waits s0 !! p) as [u|] eqn:E; [|done]. injection Hp as <-. exact (Hwait p u E). }
  intros i0 i1 i2 R0 R1 R2 N01 N02 N12 F0 F1 F2. set (fr := zset _ i2 false).
  apply wp_bind, wp_set_op; [subst fr; solve_arrays|done|].
  apply wp_bind, wp_set_desc; [subst fr; solve_arrays|done|]. apply wp_bind, wp_set_desc; [subst fr; solve_arrays|done|].
  destruct (znth_is_Some (v_info s0) i0) as [inf Hinf]; [rewrite (ar_info _ Ha); lia|].
  apply wp_bind, (wp_info_at i0 inf); [done|]. apply wp_bind, wp_set_info; [subst fr; solve_arrays|done|].
  apply wp_bind, wp_set_desc; [subst fr; solve_arrays|done|]. apply wp_bind, (wp_buf_at b x); [done|]. apply wp_bind, (wp_set_buf b _ x); [done|].
  apply wp_bind, wp_set_info; [subst fr; solve_arrays|done|].
  apply wp_bind, wp_modify, wp_bind, wp_modify, wp_bind, wp_modify, wp_ret. split; [|done].
  destruct (iv_seen _ _ _ I) as [Hseen Hai]. cbn in Hseen, Hai. cbn. rewrite zset_zset, Hseen.
  rewrite new_entry by first [exact (ar_aring _ Ha)|exact Hai].
  assert (Hnd : NoDup [i0; i1; i2]) by (repeat (apply NoDup_cons; split; [set_solver|]); by apply NoDup_nil).
  assert (Hf : forall k, k ∈ [i0; i1; i2] -> znth (v_free s0) k = Some true) by set_solver.
  exact (begun_inv s0 served a0 pid b write x i0 i1 i2 I Hb Hn Hlen Hnew Hwait R0 R1 R2 Hnd Hf).
Qed.

Lemma rw_begin_spec s served a pid b write x : inv s served a -> may_begin s pid b x ->
  wp (rw_begin pid b write) (fun r s' => inv s' served (requested pid write x a)) s.
Proof.
  intros I Hm. pose proof Hm as (Hb & Hn & _ & _ & Hw). unfold rw_begin. apply wp_bind, (wp_buf_at b x); [done|]. rewrite sector_small by done.
  assert (E : with_vwaits (delete pid (v_waits s)) s = s).
  { rewrite delete_id; [by destruct s|]. destruct (v_waits s !! pid) as [w|] eqn:E; [|done]. by destruct (Hw pid w E). }
  eapply wp_mono; [apply (rw_try_run s served a pid b write x I); rewrite E; eassumption|]. by intros r s' [H _].
Qed.

Lemma rw_retry_spec s served a pid w : inv s served a -> v_waits s !! pid = Some w ->
  wp (rw_try pid (vw_buf w) (vw_write w) (vw_sector w)) (fun r s' => inv s' served a /\
    if r then v_waits s' = delete pid (v_waits s) else few_free (v_free s)) s.
Proof.
  intros I Hw. destruct (iv_waits _ _ _ I pid w Hw) as [x Wo]. rewrite (wo_sector _ _ _ _ _ Wo).
  eapply wp_mono; [exact (rw_try_run s served a pid (vw_buf w) (vw_write w) x I (resume_begin _ _ _ _ _ _ I Hw Wo) _ (resume_inv _ _ _ _ _ I Hw))|].
  intros r s' [H1 H2]. split; [|done]. unfold requested in H1. cbn [ad_reqs ad_blocks] in H1. rewrite insert_delete_eq, insert_id in H1 by apply Wo. by destruct a.
Qed.

(** ** The device serves a request *)

Lemma short_list (l : list Z) : NoDup l -> (forall i, i ∈ l -> 0 <= i < NUM) -> Z.of_nat (length l) <= NUM.
Proof.
  intros Hnd Hl. assert (H : l ⊆+ range 0 NUM) by (apply NoDup_submseteq; [done|]; intros i Hi%Hl; by apply elem_of_range).
  apply submseteq_length in H. rewrite range_len in H. unfold NUM in *. lia.
Qed.

(** An entry added to the used ring. *)
Lemma ring_push ring u (served : list Z) head : Z.of_nat (length ring) = NUM -> Z.of_nat (length served) < NUM ->
  0 <= u < 2 ^ 16 ->
  (forall k, 0 <= k < Z.of_nat (length served) -> znth ring ((u + k) mod NUM) = served !! Z.to_nat k) ->
  forall k, 0 <= k < Z.of_nat (length (served ++ [head])) ->
    znth (zset ring (u16 (u + Z.of_nat (length served)) mod NUM) head) ((u + k) mod NUM) = (served ++ [head]) !! Z.to_nat k.
Proof.
  intros Hr Hlen Hu Hold k Hk. rewrite length_app in Hk. cbn [length] in Hk. set (n := Z.of_nat (length served)) in *.
  assert (E : u16 (u + n) mod NUM = (u + n) mod NUM).
  { unfold u16, NUM. change (2 ^ 16) with (16 * 2 ^ 12). rewrite Z.rem_mul_r by lia.
    rewrite Z.mul_comm, Z_mod_plus_full. apply Z.mod_mod. lia. }
  rewrite E. pose proof (Z.mod_pos_bound (u + n) NUM ltac:(done)). destruct (Z.eq_dec k n) as [->|Hne].
  - rewrite znth_zset_eq by lia. unfold n. rewrite Nat2Z.id. by rewrite lookup_app_r, Nat.sub_diag by lia.
  - rewrite znth_zset_ne.
    + rewrite Hold by lia. rewrite lookup_app_l by lia. done.
    + unfold NUM in *. intros Em. assert ((n - k) mod 16 = 0).
      { replace (n - k) with ((u + n) - (u + k)) by lia. rewrite Zminus_mod, Em, Z.sub_diag. done. }
      rewrite Z.mod_small in H0 by lia. lia.
Qed.

Section device.
Variables (s : vst) (served : list Z) (a : adisk) (head : Z).
Hypothesis I : inv s served a.
Hypothesis Hhead : head ∈ v_pending s.

(** The state after serving the request of task [t]. *)
Definition served_state (t : vtask) (x : vbuf) (w : bool) : vst :=
  mk_vst (v_desc s) (v_aidx s) (v_aring s) (u16 (v_uidx s + 1)) (zset (v_uring s) (v_uidx s mod NUM) head)
    (v_free s) (v_used_idx s) (zset (v_info s) head (Some (vt_buf t), 0)) (v_ops s)
    (if w then v_bufs s else <[vt_buf t := mk_vbuf (vb_disk x) (vb_blockno x) (blk (v_sectors s) (vb_blockno x))]> (v_bufs s))
    (v_tasks s)
    (if w then dev_write (v_sectors s) (2 * vb_blockno x) 2 (vb_data x) else v_sectors s)
    (v_seen s) (list_difference (v_pending s) [head]) (v_waits s).

Lemma complete_served t i1 i2 x w st : task_ok s served head t i1 i2 x w st ->
  complete head s = Some (served_state t x w).
Proof.
  intros [T1 T2 T3 T4 T5 T6 T7 T8 _ _ _]. unfold complete. rewrite T3. cbn [mbind option_bind d_next d_addr].
  rewrite T4. cbn [mbind option_bind d_next d_addr d_len]. rewrite T5. cbn [mbind option_bind d_addr].
  rewrite T6. cbn [mbind option_bind]. rewrite T8. cbn [mbind option_bind]. rewrite T7. cbn [mbind option_bind fst q_type q_sector].
  change (BSIZE / 512) with 2. by destruct w.
Qed.

Lemma served_other t x w i u j1 j2 y v st : v_tasks s !! head = Some t -> v_tasks s !! i = Some u -> i <> head ->
  task_ok s served i u j1 j2 y v st -> task_ok (served_state t x w) (served ++ [head]) i u j1 j2 y v st.
Proof.
  intros Ht Hu Hne T. assert (Hb : vt_buf u <> vt_buf t) by (intros E; apply Hne; by apply (iv_bufs _ _ _ I i head u t Hu Ht); left).
  eapply task_frame; [exact T|..]; cbn [served_state v_desc v_ops v_info v_bufs v_pending]; try done.
  - by apply znth_zset_ne.
  - destruct w; [done|]. by apply lookup_insert_ne.
  - intros Hi. apply list_elem_of_difference. set_solver.
  - set_solver.
Qed.

Lemma served_new t i1 i2 x w : vt_awake t = false -> task_ok s served head t i1 i2 x w 255 ->
  task_ok (served_state t x w) (served ++ [head]) head t i1 i2
    (if w then x else mk_vbuf (vb_disk x) (vb_blockno x) (blk (v_sectors s) (vb_blockno x))) w 0.
Proof.
  intros Haw T. destruct (idx_range _ _ _ _ _ _ _ _ _ (iv_arrays _ _ _ I) T) as (R & _).
  destruct T as [T1 T2 T3 T4 T5 T6 T7 T8 T9 T10 T11].
  constructor; cbn [served_state v_desc v_ops v_info v_bufs v_pending]; try done.
  - rewrite T6. by destruct w.
  - apply znth_zset_eq. rewrite (ar_info _ (iv_arrays _ _ _ I)). lia.
  - destruct w; [done|]. apply lookup_insert_eq.
  - by destruct w.
  - destruct w; [done|]. apply blk_length, I.
  - right. left. split_and!; [done|done|set_solver].
Qed.

Lemma served_count : Z.of_nat (length served) < NUM /\ (head ∉ served).
Proof.
  destruct (iv_served _ _ _ I) as [Hns Hs]. destruct (iv_pending _ _ _ I) as [_ Hp]. destruct (Hp head Hhead) as (t & Ht & Hi).
  assert (Hnot : head ∉ served) by (intros (u & _ & _ & Hu)%Hs; rewrite Hi in Hu; done). split; [|done].
  assert (Hl : Z.of_nat (length (head :: served)) <= NUM).
  { apply short_list; [by apply NoDup_cons|]. intros i Hin. assert (Hex : exists u, v_tasks s !! i = Some u).
    { apply elem_of_cons in Hin as [->|Hin]; [by exists t|]. destruct (Hs i Hin) as (u & Hu & _). by exists u. }
    destruct Hex as [u Hu]. destruct (iv_tasks _ _ _ I i u Hu) as (j1 & j2 & y & v & st & T & _).
    by apply (idx_range _ _ _ _ _ _ _ _ _ (iv_arrays _ _ _ I) T). }
  cbn [length] in Hl. lia.
Qed.

(** The abstract disk after the request of process [pid] is served. *)
Definition serve (pid : Z) (x : vbuf) (w : bool) : adisk :=
  if w then mk_adisk (fun k => if decide (k = vb_blockno x) then vb_data x else ad_blocks a k)
    (<[pid := mk_areq (vb_blockno x) true (vb_data x) true]> (ad_reqs a))
  else mk_adisk (ad_blocks a) (<[pid := mk_areq (vb_blockno x) false (ad_blocks a (vb_blockno x)) true]> (ad_reqs a)).

Lemma served_inv t i1 i2 x w : v_tasks s !! head = Some t -> vt_awake t = false -> task_ok s served head t i1 i2 x w 255 ->
  inv (served_state t x w) (served ++ [head]) (serve (vt_pid t) x w).
Proof.
  intros Ht Haw T. destruct served_count as [Hcount Hnot]. destruct (iv_pending _ _ _ I) as [Hnp Hp].
  destruct (iv_served _ _ _ I) as [Hns Hs]. pose proof (iv_arrays _ _ _ I) as Ha.
  destruct (idx_range _ _ _ _ _ _ _ _ _ Ha T) as (R & _). destruct (iv_used _ _ _ I) as (Hu & Hui & Hring).
  assert (Hpid : forall i u, v_tasks s !! i = Some u -> i <> head -> vt_pid u <> vt_pid t).
  { intros i u Hu' Hne E. apply Hne. by apply (iv_bufs _ _ _ I i head u t Hu' Ht); right. }
  constructor; try apply I.
  - destruct Ha. constructor; cbn; rewrite ?zset_length; done.
  - intros i u Hiu. change (v_tasks (served_state t x w)) with (v_tasks s) in Hiu. destruct (decide (i = head)) as [->|Hne].
    + rewrite Ht in Hiu. injection Hiu as <-. eexists i1, i2, _, w, 0. split; [by apply served_new|]. unfold serve.
      destruct w; cbn [ad_reqs vb_blockno vb_data]; rewrite lookup_insert_eq; [done|]. do 2 f_equal. apply I, T.
    + destruct (iv_tasks _ _ _ I i u Hiu) as (j1 & j2 & y & v & st & T' & Hreq). exists j1, j2, y, v, st.
      split; [by apply served_other|]. unfold serve. pose proof (Hpid i u Hiu Hne).
      destruct w; cbn [ad_reqs]; by rewrite lookup_insert_ne.
  - intros p u Hp'. change (v_waits (served_state t x w)) with (v_waits s) in Hp'. destruct (iv_waits _ _ _ I p u Hp') as [y Wo]. exists y.
    destruct (wo_tasks _ _ _ _ _ Wo head t Ht) as [N1 N2]. apply (wait_frame s _ a _ p u u y Wo); try done; [| |apply Wo].
    + destruct w; [done|]. cbn [served_state v_bufs]. by rewrite lookup_insert_ne.
    + unfold serve. destruct w; cbn [ad_reqs]; by rewrite lookup_insert_ne.
  - intros p r. unfold serve. intros Hr. destruct (decide (p = vt_pid t)) as [->|Hp']; [left; by exists head, t|].
    apply (iv_reqs _ _ _ I p r). destruct w; cbn [ad_reqs] in Hr; by rewrite lookup_insert_ne in Hr.
  - intros n Hn. unfold serve. destruct w; cbn [ad_blocks served_state v_sectors]; [|by apply I].
    rewrite blk_write by apply T. case_decide; [done|]. by apply I.
  - cbn [served_state v_pending v_info]. split; [by apply NoDup_list_difference|].
    intros i [Hi Hne]%list_elem_of_difference. destruct (Hp i Hi) as (u & Hu' & Hinf). exists u. split; [done|].
    rewrite znth_zset_ne; [done|]. set_solver.
  - split; [apply NoDup_app; split_and!; [done|set_solver|apply NoDup_singleton]|]. cbn [served_state v_info].
    intros i [Hi|Hi]%elem_of_app.
    + destruct (Hs i Hi) as (u & Hu' & Haw' & Hinf). exists u. split_and!; [done|done|]. rewrite znth_zset_ne; [done|]. set_solver.
    + apply list_elem_of_singleton in Hi as ->. exists t. split_and!; [done|done|]. apply znth_zset_eq. rewrite (ar_info _ Ha). lia.
  - cbn [served_state v_used_idx v_uidx v_uring]. rewrite Hui. split_and!; [lia|lia| |].
    + unfold u16. rewrite Zplus_mod_idemp_l, length_app. f_equal. cbn [length]. lia.
    + apply ring_push; [apply Ha|done|done|exact Hring].
  - destruct w; cbn [served_state v_sectors]; [|apply I]. apply sectors_ok_write; [apply I|apply T].
Qed.

Lemma device_inv s' : complete head s = Some s' -> exists a', astep a [] a' /\ inv s' (served ++ [head]) a'.
Proof.
  intros Hc. destruct (iv_pending _ _ _ I) as [_ Hp]. destruct (Hp head Hhead) as (t & Ht & Hinf).
  destruct (iv_tasks _ _ _ I head t Ht) as (i1 & i2 & x & w & st & T & Hreq).
  assert (st = 255) as -> by (pose proof (to_info _ _ _ _ _ _ _ _ _ T) as E; rewrite Hinf in E; congruence).
  assert (Haw : vt_awake t = false) by (destruct (to_stage _ _ _ _ _ _ _ _ _ T) as [(_ & E & _)|[(E & _)|(E & _)]]; done).
  rewrite (complete_served t i1 i2 x w 255 T) in Hc. injection Hc as <-. exists (serve (vt_pid t) x w).
  split; [|by apply (served_inv t i1 i2)]. unfold serve. cbn in Hreq. destruct w; [by eapply as_write|by eapply as_read].
Qed.
End device.

(** * Completion: the interrupt handler and the end of a request

    [virtio_disk_intr] wakes the processes of all served requests; a woken
    process frees its descriptors and leaves.  With this the driver, the device
    and its callers refine the abstract disk. *)

Definition wake_on (b : Z) (t : vtask) : vtask :=
  if vt_buf t =? b then mk_vtask (vt_pid t) (vt_buf t) (vt_idx t) true else t.

Lemma wake_same b t : vt_buf (wake_on b t) = vt_buf t /\ vt_pid (wake_on b t) = vt_pid t /\ idxs (wake_on b t) = idxs t.
Proof. unfold wake_on. by destruct (vt_buf t =? b). Qed.
Lemma wake_ne b t : vt_buf t <> b -> wake_on b t = t.
Proof. intros Hne. unfold wake_on. destruct (Z.eqb_spec (vt_buf t) b); done. Qed.

Section wake.
Variables (s : vst) (served : list Z) (a : adisk) (i i1 i2 : Z) (t : vtask) (x : vbuf) (w : bool).
Hypothesis I : inv s (i :: served) a.
Hypothesis Ht : v_tasks s !! i = Some t.
Hypothesis T : task_ok s (i :: served) i t i1 i2 x w 0.

Definition woken_state : vst :=
  with_used_idx (u16 (v_used_idx s + 1)) (with_vtasks (wake_on (vt_buf t) <$> v_tasks s)
    (with_vbufs (<[vt_buf t := mk_vbuf false (vb_blockno x) (vb_data x)]> (v_bufs s)) s)).

Lemma woken_lookup j u : v_tasks woken_state !! j = Some u -> exists u0, v_tasks s !! j = Some u0 /\ u = wake_on (vt_buf t) u0.
Proof. cbn [woken_state with_used_idx with_vtasks v_tasks]. rewrite lookup_fmap, fmap_Some. intros (u0 & Hu & ->). by exists u0. Qed.
Lemma woken_lookup_2 j u0 : v_tasks s !! j = Some u0 -> v_tasks woken_state !! j = Some (wake_on (vt_buf t) u0).
Proof. intros Hu. cbn [woken_state with_used_idx with_vtasks v_tasks]. by rewrite lookup_fmap, Hu. Qed.

Lemma other_buf j u : v_tasks s !! j = Some u -> j <> i -> vt_buf u <> vt_buf t.
Proof. intros Hu Hne E. apply Hne. by apply (iv_bufs _ _ _ I j i u t Hu Ht); left. Qed.

Lemma woken_task j u0 : v_tasks s !! j = Some u0 -> exists j1 j2 y v st,
  task_ok woken_state served j (wake_on (vt_buf t) u0) j1 j2 y v st /\
  ad_reqs a !! vt_pid u0 = Some (mk_areq (vb_blockno y) v (vb_data y) (st =? 0)).
Proof.
  intros Hu. destruct (decide (j = i)) as [->|Hne].
  - rewrite Ht in Hu. injection Hu as <-. exists i1, i2, (mk_vbuf false (vb_blockno x) (vb_data x)), w, 0. split.
    + destruct T as [T1 T2 T3 T4 T5 T6 T7 T8 T9 T10 T11].
      unfold wake_on. rewrite Z.eqb_refl. constructor; cbn; try done; [apply lookup_insert_eq|by right; right].
    + destruct (iv_tasks _ _ _ I i t Ht) as (j1 & j2 & y & v & st & T' & Hreq).
      destruct (task_fun _ _ _ _ _ _ _ _ _ _ _ _ _ _ T T') as (-> & -> & -> & -> & ->). done.
  - rewrite wake_ne by (by apply (other_buf j)). destruct (iv_tasks _ _ _ I j u0 Hu) as (j1 & j2 & y & v & st & T' & Hreq).
    exists j1, j2, y, v, st. split; [|done]. eapply task_frame; [exact T'|..]; cbn; try done.
    + apply lookup_insert_ne. intros E. by apply (other_buf j u0 Hu Hne).
    + set_solver.
Qed.

Lemma woken_inv : inv woken_state served a.
Proof.
  destruct (iv_used _ _ _ I) as (Hu & Hui & Hring). cbn [length] in *.
  constructor; try apply I.
  - destruct (iv_arrays _ _ _ I). by constructor.
  - intros j u (u0 & Hu0 & ->)%woken_lookup. destruct (woken_task j u0 Hu0) as (j1 & j2 & y & v & st & T' & Hreq).
    exists j1, j2, y, v, st. split; [done|]. by rewrite (proj1 (proj2 (wake_same _ _))).
  - intros p u Hp. change (v_waits woken_state) with (v_waits s) in Hp. destruct (iv_waits _ _ _ I p u Hp) as [y Wo]. exists y.
    apply (wait_frame s _ a _ p u u y Wo); try done.
    + destruct (wo_tasks _ _ _ _ _ Wo i t Ht) as [N1 N2]. cbn. by rewrite lookup_insert_ne.
    + intros j v (v0 & Hv0 & ->)%woken_lookup. destruct (wake_same (vt_buf t) v0) as (-> & -> & _). by apply (wo_tasks _ _ _ _ _ Wo j).
  - intros pid r [(j & u & Hj & <-)|H]%(iv_reqs _ _ _ I); [left|by right]. exists j, (wake_on (vt_buf t) u). split; [by apply woken_lookup_2|apply wake_same].
  - intros k Hk. change (v_free woken_state) with (v_free s). rewrite (iv_free _ _ _ I k Hk). split.
    + intros (j & u & Hj & Hin). exists j, (wake_on (vt_buf t) u). split; [by apply woken_lookup_2|].
      by rewrite (proj2 (proj2 (wake_same _ _))).
    + intros (j & u & (u0 & Hu0 & ->)%woken_lookup & Hin). exists j, u0. split; [done|]. by rewrite (proj2 (proj2 (wake_same _ _))) in Hin.
  - intros j k u v n (u0 & Hu0 & ->)%woken_lookup (v0 & Hv0 & ->)%woken_lookup. rewrite !(proj2 (proj2 (wake_same _ _))).
    by apply (iv_owner _ _ _ I).
  - intros j k u v (u0 & Hu0 & ->)%woken_lookup (v0 & Hv0 & ->)%woken_lookup. destruct (wake_same (vt_buf t) u0) as (-> & -> & _).
    destruct (wake_same (vt_buf t) v0) as (-> & -> & _). by apply (iv_bufs _ _ _ I).
  - destruct (iv_pending _ _ _ I) as [Hnp Hp]. split; [done|]. intros j Hj. destruct (Hp j Hj) as (u & Hu' & Hinf).
    exists (wake_on (vt_buf t) u). split; [by apply woken_lookup_2|]. destruct (wake_same (vt_buf t) u) as (-> & _). done.
  - destruct (iv_served _ _ _ I) as [[Hni Hns]%NoDup_cons Hs]. split; [done|]. intros j Hj.
    destruct (Hs j ltac:(set_solver)) as (u & Hu' & Haw & Hinf). exists u. assert (j <> i) by set_solver.
    split_and!; [|done|done]. rewrite (woken_lookup_2 j u Hu'). by rewrite wake_ne by (by apply (other_buf j)).
  - cbn [woken_state with_used_idx v_used_idx v_uidx v_uring]. split_and!; [apply Z.mod_pos_bound; lia|apply Z.mod_pos_bound; lia|..].
    + change (v_uidx (with_vtasks _ _)) with (v_uidx s). rewrite Hui. unfold u16. rewrite Zplus_mod_idemp_l. f_equal. lia.
    + intros k Hk. change (v_uring (with_vtasks _ _)) with (v_uring s).
      replace ((u16 (v_used_idx s + 1) + k) mod NUM) with ((v_used_idx s + (k + 1)) mod NUM).
      * rewrite Hring by lia. by replace (Z.to_nat (k + 1)) with (S (Z.to_nat k)) by lia.
      * unfold u16, NUM. change (2 ^ 16) with (16 * 2 ^ 12). rewrite <- (Zplus_mod_idemp_l ((v_used_idx s + 1) mod _)).
        rewrite Z.rem_mul_r by lia. rewrite (Z.mul_comm 16), Z_mod_plus_full, Z.mod_mod by lia.
        rewrite Zplus_mod_idemp_l. f_equal. lia.
Qed.
End wake.

Lemma served_short s served a : inv s served a -> Z.of_nat (length served) <= NUM.
Proof.
  intros I. destruct (iv_served _ _ _ I) as [Hnd Hs]. apply short_list; [done|]. intros j Hj. destruct (Hs j Hj) as (u & Hu & _).
  destruct (iv_tasks _ _ _ I j u Hu) as (? & ? & ? & ? & ? & T & _). by apply (idx_range _ _ _ _ _ _ _ _ _ (iv_arrays _ _ _ I) T).
Qed.

(** Entries that wait to be acknowledged show in the indices. *)
Lemma uidx_differs s (served : list Z) : 0 <= v_used_idx s < 2 ^ 16 ->
  v_uidx s = u16 (v_used_idx s + Z.of_nat (S (length served))) -> Z.of_nat (S (length served)) <= NUM -> v_used_idx s <> v_uidx s.
Proof.
  intros Hu Hui Hlen E. rewrite Hui in E. unfold u16, NUM in *.
  assert (H : Z.of_nat (S (length served)) mod 2 ^ 16 = 0); [|rewrite Z.mod_small in H; lia].
  replace (Z.of_nat (S (length served))) with ((v_used_idx s + Z.of_nat (S (length served))) - v_used_idx s) by lia.
  rewrite Zminus_mod, <- E. rewrite (Z.mod_small (v_used_idx s)) by lia. by rewrite Z.sub_diag.
Qed.

Lemma intr_loop_spec served : forall rounds s a, inv s served a -> (length served <= rounds)%nat ->
  wp (virtio_disk_intr_loop rounds) (fun _ s' => inv s' [] a) s.
Proof.
  induction served as [|i served IH]; intros rounds s a I Hr.
  - destruct (iv_used _ _ _ I) as (Hu & Hui & _). cbn [length Z.of_nat] in Hui. rewrite Z.add_0_r in Hui.
    unfold u16 in Hui. rewrite Z.mod_small in Hui by lia.
    destruct rounds; simpl; (apply wp_bind, wp_gets, wp_bind, wp_gets; rewrite Hui, Z.eqb_refl; by apply wp_ret).
  - destruct rounds as [|rounds]; [simpl in Hr; lia|]. destruct (iv_used _ _ _ I) as (Hu & Hui & Hring).
    destruct (iv_served _ _ _ I) as [Hnd Hs]. destruct (Hs i ltac:(set_solver)) as (t & Ht & Haw & Hinf).
    pose proof (served_short _ _ _ I) as Hlen.
    destruct (iv_tasks _ _ _ I i t Ht) as (i1 & i2 & x & w & st & T & _).
    assert (st = 0) as -> by (pose proof (to_info _ _ _ _ _ _ _ _ _ T) as E; rewrite Hinf in E; congruence).
    cbn [virtio_disk_intr_loop]. apply wp_bind, wp_gets, wp_bind, wp_gets. cbn [length] in *.
    destruct (Z.eqb_spec (v_used_idx s) (v_uidx s)) as [E|_]; [by destruct (uidx_differs s served)|].
    apply wp_bind, wp_gets, wp_bind, (wp_deref _ i); [rewrite <- (Z.add_0_r (v_used_idx s)); apply (Hring 0); lia|].
    apply wp_bind, (wp_info_at i _ _ _ Hinf). cbn [snd fst Z.eqb negb]. apply wp_bind, (wp_deref _ (vt_buf t)); [done|].
    apply wp_bind, (wp_buf_at _ x); [apply T|]. apply wp_bind, (wp_set_buf _ _ x); [apply T|].
    apply wp_bind, wp_modify, wp_bind, wp_modify. apply IH; [|lia].
    exact (woken_inv s served a i i1 i2 t x w I Ht T).
Qed.

Lemma intr_spec s served a : inv s served a -> wp virtio_disk_intr (fun _ s' => inv s' [] a) s.
Proof.
  intros I. apply (intr_loop_spec served); [done|]. pose proof (served_short _ _ _ I). unfold NUM in *. lia.
Qed.

(** ** The end of a request *)
Section finish.
Variables (s : vst) (served : list Z) (a : adisk) (i i1 i2 : Z) (t : vtask) (x : vbuf) (w : bool) (st : Z).
Hypothesis I : inv s served a.
Hypothesis Ht : v_tasks s !! i = Some t.
Hypothesis T : task_ok s served i t i1 i2 x w st.
Hypothesis Haw : vt_awake t = true.

Let nil := mk_desc ANull 0 0 0.
Definition finished : vst :=
  with_vtasks (delete i (v_tasks s))
    (wake_waits (with_free (zset (zset (zset (v_free s) i true) i1 true) i2 true)
      (with_desc (zset (zset (zset (v_desc s) i nil) i1 nil) i2 nil)
        (with_info (zset (v_info s) i (None, st)) s)))).

Lemma finished_lookup j u : v_tasks finished !! j = Some u -> j <> i /\ v_tasks s !! j = Some u.
Proof. cbn. rewrite lookup_delete_Some. intros [Hne Hu]. done. Qed.
Lemma finished_lookup_2 j u : v_tasks s !! j = Some u -> j <> i -> v_tasks finished !! j = Some u.
Proof. intros Hu Hne. cbn. by rewrite lookup_delete_ne. Qed.

Lemma finished_free k : 0 <= k < NUM ->
  znth (v_free finished) k = Some false <-> (k ∉ [i; i1; i2]) /\ znth (v_free s) k = Some false.
Proof.
  intros Hk. pose proof (ar_free _ (iv_arrays _ _ _ I)) as A. cbn [finished wake_waits with_vwaits with_vtasks with_free v_free].
  destruct (decide (k = i2)) as [->|N2]; [rewrite znth_zset_eq by (rewrite !zset_length; lia); set_solver|].
  rewrite znth_zset_ne by done.
  destruct (decide (k = i1)) as [->|N1]; [rewrite znth_zset_eq by (rewrite !zset_length; lia); set_solver|].
  rewrite znth_zset_ne by done.
  destruct (decide (k = i)) as [->|N0]; [rewrite znth_zset_eq by lia; set_solver|].
  rewrite znth_zset_ne by done. set_solver.
Qed.

Lemma finished_inv : inv finished served (mk_adisk (ad_blocks a) (delete (vt_pid t) (ad_reqs a))).
Proof.
  pose proof (idxs_eq _ _ _ _ _ _ _ _ _ T) as Ei.
  assert (Hinf : forall j, j <> i -> znth (v_info finished) j = znth (v_info s) j) by (intros j Hj; cbn; by apply znth_zset_ne).
  assert (Hi : (i ∉ v_pending s) /\ (i ∉ served)).
  { split; intros Hin.
    - destruct (proj2 (iv_pending _ _ _ I) i Hin) as (u & Hu & E). rewrite (to_info _ _ _ _ _ _ _ _ _ T) in E.
      destruct (to_stage _ _ _ _ _ _ _ _ _ T) as [(_ & E' & _)|[(E' & _)|(E' & _)]]; congruence.
    - destruct (proj2 (iv_served _ _ _ I) i Hin) as (u & Hu & E & _). rewrite Ht in Hu. congruence. }
  constructor; try apply I.
  - destruct (iv_arrays _ _ _ I). constructor; cbn; rewrite ?zset_length; done.
  - intros j u [Hne Hu]%finished_lookup. destruct (iv_tasks _ _ _ I j u Hu) as (j1 & j2 & y & v & st' & T' & Hreq).
    exists j1, j2, y, v, st'. pose proof (idxs_eq _ _ _ _ _ _ _ _ _ T') as Ej.
    assert (Hd : forall k n, k ∈ [i; i1; i2] -> n ∈ [j; j1; j2] -> k <> n).
    { intros k n Hk Hn ->. rewrite <- Ei in Hk. rewrite <- Ej in Hn. apply Hne. by apply (iv_owner _ _ _ I j i u t n). }
    split.
    + eapply task_frame; [exact T'|..]; try done; [|by apply Hinf]. intros k Hk. cbn. rewrite !znth_zset_ne; [done|..]; apply Hd; set_solver.
    + cbn [ad_reqs]. rewrite lookup_delete_ne; [done|]. intros E. apply Hne. by apply (iv_bufs _ _ _ I j i u t Hu Ht); right.
  - intros p u Hp. change (v_waits finished) with (wake_wait <$> v_waits s) in Hp. rewrite lookup_fmap in Hp.
    destruct (v_waits s !! p) as [u0|] eqn:Hp0; [|done]. injection Hp as <-. destruct (iv_waits _ _ _ I p u0 Hp0) as [y Wo]. exists y.
    apply (wait_frame s _ a _ p u0 _ y Wo); try done.
    + cbn [ad_reqs]. rewrite lookup_delete_ne; [done|]. by apply (wo_tasks _ _ _ _ _ Wo i t Ht).
    + intros j v [_ Hv]%finished_lookup. by apply (wo_tasks _ _ _ _ _ Wo j).
  - intros p q w1 w2. change (v_waits finished) with (wake_wait <$> v_waits s). rewrite !lookup_fmap. intros (u1 & H1 & ->)%fmap_Some (u2 & H2 & ->)%fmap_Some.
    by apply (iv_wbufs _ _ _ I p q u1 u2).
  - intros pid r. cbn [ad_reqs]. rewrite lookup_delete_Some. intros [Hne [(j & u & Hj & E)|H]%(iv_reqs _ _ _ I)].
    2: { right. change (v_waits finished) with (wake_wait <$> v_waits s). rewrite lookup_fmap. by apply fmap_is_Some. }
    left. exists j, u. split; [|done]. apply finished_lookup_2; [done|]. intros ->. rewrite Ht in Hj. congruence.
  - intros k Hk. rewrite finished_free by done. rewrite (iv_free _ _ _ I k Hk). split.
    + intros [Hnk (j & u & Hj & Hin)]. exists j, u. split; [|done]. apply finished_lookup_2; [done|]. intros ->.
      rewrite Ht in Hj. injection Hj as <-. by rewrite Ei in Hin.
    + intros (j & u & [Hne Hu]%finished_lookup & Hin). split; [|by exists j, u]. rewrite <- Ei. intros Hin'. apply Hne.
      by apply (iv_owner _ _ _ I j i u t k).
  - intros j k u v n [_ Hu]%finished_lookup [_ Hv]%finished_lookup. by apply (iv_owner _ _ _ I).
  - intros j k u v [_ Hu]%finished_lookup [_ Hv]%finished_lookup. by apply (iv_bufs _ _ _ I).
  - destruct (iv_pending _ _ _ I) as [Hnp Hp]. split; [done|]. intros j Hj. destruct (Hp j Hj) as (u & Hu & E).
    assert (j <> i) by (intros ->; by apply (proj1 Hi)). exists u. split; [by apply finished_lookup_2|by rewrite Hinf].
  - destruct (iv_served _ _ _ I) as [Hns Hs]. split; [done|]. intros j Hj. destruct (Hs j Hj) as (u & Hu & E1 & E2).
    assert (j <> i) by (intros ->; by apply (proj2 Hi)). exists u. split_and!; [by apply finished_lookup_2|done|by rewrite Hinf].
Qed.

End finish.

(** [rw_end] frees the chain of a request. *)
Lemma rw_end_run s served i i1 i2 t x w st : arrays s -> task_ok s served i t i1 i2 x w st ->
  (forall k, k ∈ [i; i1; i2] -> znth (v_free s) k = Some false) ->
  wp (rw_end i) (fun _ s' => s' = finished s i i1 i2 st) s.
Proof.
  intros Ha T F. destruct (idx_range _ _ _ _ _ _ _ _ _ Ha T) as (R0 & R1 & R2). unfold rw_end.
  apply wp_bind, (wp_info_at i _ _ _ (to_info _ _ _ _ _ _ _ _ _ T)). apply wp_bind, wp_set_info; [done|done|].
  apply wp_bind. eapply (free_chain_spec i i1 i2); try apply T; try done; try (apply F; set_solver); cbn.
  - solve_arrays.
  - by destruct w.
Qed.

Lemma task_desc_busy s served a i t i1 i2 x w st : inv s served a -> v_tasks s !! i = Some t ->
  task_ok s served i t i1 i2 x w st -> forall k, k ∈ [i; i1; i2] -> znth (v_free s) k = Some false.
Proof. intros I Ht T k Hk. rewrite <- (idxs_eq _ _ _ _ _ _ _ _ _ T) in Hk. by apply (task_busy s served a i t k). Qed.

Lemma rw_end_spec s served a i t : inv s served a -> v_tasks s !! i = Some t -> vt_awake t = true ->
  exists n w x, v_bufs s !! vt_buf t = Some x /\ ad_reqs a !! vt_pid t = Some (mk_areq n w (vb_data x) true) /\
  wp (rw_end i) (fun _ s' => inv s' served (mk_adisk (ad_blocks a) (delete (vt_pid t) (ad_reqs a)))) s.
Proof.
  intros I Ht Haw. destruct (iv_tasks _ _ _ I i t Ht) as (i1 & i2 & x & w & st & T & Hreq). exists (vb_blockno x), w, x.
  assert (st = 0) as -> by (destruct (to_stage _ _ _ _ _ _ _ _ _ T) as [(_ & E & _)|[(_ & E & _)|(E & _)]]; congruence).
  split_and!; [apply T|done|]. eapply wp_mono.
  { exact (rw_end_run s served i i1 i2 t x w 0 (iv_arrays _ _ _ I) T (task_desc_busy _ _ _ _ _ _ _ _ _ _ I Ht T)). }
  intros _ s' ->. exact (finished_inv s served a i i1 i2 t x w 0 I Ht T Haw).
Qed.
