(* ===== verification/VirtioSystem.v ===== *)
(** * The disk driver refines an atomic disk

    Runs of the system of VirtioWorld.v: the events seen by the callers are
    those of the abstract disk, the driver never panics or faults, and every
    request can be brought to its end, also when its process first has to wait
    for descriptors.  A process that sleeps until its request is served and is
    woken by [kill] instead of the interrupt handler breaks this. *)

From stdpp Require Import base numbers list gmap strings.
From Stdlib Require Import ZArith Lia.
From S2P Require Import Prelude Blocks Monad Virtio VirtioWorld VirtioSteps.
Open Scope Z_scope.

Inductive vruns (device : vst -> vst -> Prop) (s : vst) : list vevent -> vst -> Prop :=
| vruns_nil : vruns device s [] s
| vruns_step es es' s1 s2 : vruns device s es s1 -> vstep device s1 es' s2 -> vruns device s (es ++ es') s2.

Inductive aruns (a : adisk) : list vevent -> adisk -> Prop :=
| aruns_nil : aruns a [] a
| aruns_step es es' a1 a2 : aruns a es a1 -> astep a1 es' a2 -> aruns a (es ++ es') a2.

(** The driver after [virtio_disk_init]: zeroed queues, all descriptors free. *)
Definition boot_vst (bufs : gmap Z vbuf) (sectors : gmap Z (list Z)) (info : list (option Z * Z)) (ops : list virtio_blk_req) : vst :=
  mk_vst (replicate 16 (mk_desc ANull 0 0 0)) 0 (replicate 16 0) 0 (replicate 16 0) (replicate 16 true) 0 info ops bufs ∅ sectors 0 [] ∅.

Lemma boot_inv bufs sectors info ops : Z.of_nat (length info) = NUM -> Z.of_nat (length ops) = NUM -> sectors_ok sectors ->
  inv (boot_vst bufs sectors info ops) [] (mk_adisk (blk sectors) ∅).
Proof.
  intros Hi Ho Hs. constructor; cbn [boot_vst v_tasks ad_reqs ad_blocks v_pending v_seen v_aidx v_used_idx v_uidx v_sectors v_free]; try done.
  - intros k Hk. split; [|intros (i & t & Ht & _); by rewrite lookup_empty in Ht].
    rewrite znth_replicate by (unfold NUM in Hk; lia). done.
  - split; [by apply NoDup_nil|]. set_solver.
  - split; [by apply NoDup_nil|]. set_solver.
  - split_and!; try done. cbn [length]. lia.
Qed.

Section system.
Variable device : vst -> vst -> Prop.
(** A step of the device serves one of the chains it was told of. *)
Hypothesis device_serves : forall s s', device s s' -> exists head, head ∈ v_pending s /\ complete head s = Some s'.

Lemma vstep_inv s served a es s' : inv s served a -> vstep device s es s' ->
  exists served' a', astep a es a' /\ inv s' served' a'.
Proof.
  intros I Hstep. destruct Hstep as [pid b write x r s s' Hm Hr|pid w r s s' Hw _ Hr|s s' Hd|s s' Hr|i t x s s' Ht Haw Hb Hr|pid s].
  - destruct (proj1 (wp_Done _ _ _) (rw_begin_spec s served a pid b write x I Hm)) as (r' & s1 & Hr' & HI).
    rewrite Hr in Hr'. injection Hr' as <- <-. exists served. eexists. split; [|exact HI].
    apply as_begin. destruct (ad_reqs a !! pid) as [q|] eqn:E; [|done]. destruct Hm as (_ & _ & _ & Hnew & Hw).
    destruct (iv_reqs _ _ _ I pid q E) as [(i & t & Ht & Hp)|[w Hp]]; [by destruct (Hnew i t Ht)|by destruct (Hw pid w Hp)].
  - destruct (proj1 (wp_Done _ _ _) (rw_retry_spec s served a pid w I Hw)) as (r' & s1 & Hr' & HI & _).
    rewrite Hr in Hr'. injection Hr' as <- <-. exists served, a. split; [constructor|done].
  - destruct (device_serves s s' Hd) as (head & Hh & Hc). destruct (device_inv s served a head I Hh s' Hc) as (a' & Ha & HI).
    by exists (served ++ [head]), a'.
  - destruct (proj1 (wp_Done _ _ _) (intr_spec s served a I)) as ([] & s1 & Hr' & HI). rewrite Hr in Hr'. injection Hr' as <-.
    exists [], a. split; [constructor|done].
  - destruct (rw_end_spec s served a i t I Ht Haw) as (n & w & y & Hy & Hreq & Hw). rewrite Hb in Hy. injection Hy as <-.
    destruct (proj1 (wp_Done _ _ _) Hw) as ([] & s1 & Hr' & HI). rewrite Hr in Hr'. injection Hr' as <-. exists served. eexists.
    split; [by eapply as_end|done].
  - exists served, a. split; [constructor|by apply kill_inv].
Qed.

Lemma vruns_inv s served a es s' : inv s served a -> vruns device s es s' ->
  exists served' a', aruns a es a' /\ inv s' served' a'.
Proof.
  intros I. induction 1 as [|es es' s1 s2 _ IH Hstep]; [exists served, a; split; [constructor|done]|].
  destruct IH as (served1 & a1 & Ha1 & I1). destruct (vstep_inv s1 served1 a1 es' s2 I1 Hstep) as (served2 & a2 & Ha2 & I2).
  exists served2, a2. split; [by eapply aruns_step|done].
Qed.

(** C8: the driver refines an atomic disk, as long as no process is killed while
    it sleeps until its request is served ([vstep] has no such step; what happens
    then is [killed_waiter_faults]).  However requests, processes that wait for
    descriptors, the device and interrupts interleave, with any number of
    requests in flight and served in any order, the events the callers see (what
    they asked for, what they got) are those of a disk that serves each request
    in one step between its begin and its end; the blocks are those of that disk;
    and in every state reached the interrupt handler, a new request, the next
    try of a process that waits for descriptors and the end of a woken request
    run without panic or fault. *)
Theorem virtio_disk_refines bufs sectors info ops es s :
  Z.of_nat (length info) = NUM -> Z.of_nat (length ops) = NUM -> sectors_ok sectors ->
  vruns device (boot_vst bufs sectors info ops) es s ->
  exists a, aruns (mk_adisk (blk sectors) ∅) es a /\ (forall n, 0 <= n < 2 ^ 31 -> ad_blocks a n = blk (v_sectors s) n) /\
    (exists s', virtio_disk_intr s = Done tt s') /\
    (forall pid b write x, may_begin s pid b x -> exists r s', rw_begin pid b write s = Done r s') /\
    (forall pid w, v_waits s !! pid = Some w -> exists r s', rw_try pid (vw_buf w) (vw_write w) (vw_sector w) s = Done r s') /\
    (forall i t, v_tasks s !! i = Some t -> vt_awake t = true -> exists s', rw_end i s = Done tt s').
Proof.
  intros Hi Ho Hs Hr. destruct (vruns_inv _ _ _ _ _ (boot_inv bufs sectors info ops Hi Ho Hs) Hr) as (served & a & Ha & I).
  exists a. split; [done|]. split; [apply I|]. split_and!.
  - destruct (proj1 (wp_Done _ _ _) (intr_spec s served a I)) as ([] & s1 & Hr' & _). by exists s1.
  - intros pid b write x Hm. destruct (proj1 (wp_Done _ _ _) (rw_begin_spec s served a pid b write x I Hm)) as (r & s1 & Hr' & _).
    by exists r, s1.
  - intros pid w Hw. destruct (proj1 (wp_Done _ _ _) (rw_retry_spec s served a pid w I Hw)) as (r & s1 & Hr' & _). by exists r, s1.
  - intros i t Ht Haw. destruct (rw_end_spec s served a i t I Ht Haw) as (n & w & y & _ & _ & Hw).
    destruct (proj1 (wp_Done _ _ _) Hw) as ([] & s1 & Hr' & _). by exists s1.
Qed.

(** ** Progress *)

(** The device does not stop while it has a chain that it can serve. *)
Hypothesis device_live : forall s head s1, head ∈ v_pending s -> complete head s = Some s1 -> exists s', device s s'.

Lemma can_serve s served a : inv s served a -> v_pending s <> [] -> exists s', device s s'.
Proof.
  intros I Hp. destruct (v_pending s) as [|head l] eqn:E; [done|]. assert (Hh : head ∈ v_pending s) by (rewrite E; left).
  destruct (proj2 (iv_pending _ _ _ I) head Hh) as (t & Ht & _).
  destruct (iv_tasks _ _ _ I head t Ht) as (i1 & i2 & x & w & st & T & _).
  by apply (device_live s head _ Hh (complete_served s served head t i1 i2 x w st T)).
Qed.

Lemma vruns_trans s es1 s1 es2 s2 : vruns device s es1 s1 -> vruns device s1 es2 s2 -> vruns device s (es1 ++ es2) s2.
Proof.
  intros H1. induction 1 as [|es es' s3 s4 _ IH Hstep]; [by rewrite app_nil_r|]. rewrite app_assoc. by eapply vruns_step.
Qed.
Lemma vruns_one s es s' : vstep device s es s' -> vruns device s es s'.
Proof. intros H. apply (vruns_step device s [] es s s'); [constructor|done]. Qed.

Lemma difference_shorter (l : list Z) h : NoDup l -> h ∈ l -> (length (list_difference l [h]) < length l)%nat.
Proof.
  intros Hnd Hh. assert (H : h :: list_difference l [h] ⊆+ l); [|apply submseteq_length in H; exact H].
  apply NoDup_submseteq.
  - apply NoDup_cons. split; [rewrite list_elem_of_difference; set_solver|by apply NoDup_list_difference].
  - intros i [->|[Hi _]%list_elem_of_difference]%elem_of_cons; done.
Qed.

(** The device can serve everything it was told of. *)
Lemma drain n : forall s served a, inv s served a -> (length (v_pending s) <= n)%nat ->
  exists s' served' a', vruns device s [] s' /\ inv s' served' a' /\ v_pending s' = [] /\ v_waits s' = v_waits s.
Proof.
  induction n as [|n IH]; intros s served a I Hn.
  - exists s, served, a. split_and!; [constructor|done| |done]. by apply length_zero_iff_nil; lia.
  - destruct (decide (v_pending s = [])) as [E|E]; [by exists s, served, a; split_and!; [constructor|..]|].
    destruct (can_serve s served a I E) as [s1 Hd]. destruct (device_serves s s1 Hd) as (head & Hh & Hc).
    destruct (device_inv s served a head I Hh s1 Hc) as (a1 & _ & I1).
    destruct (iv_pending _ _ _ I) as [Hnd Hp]. destruct (Hp head Hh) as (t & Ht & _).
    destruct (iv_tasks _ _ _ I head t Ht) as (i1 & i2 & x & w & st & T & _).
    rewrite (complete_served s served head t i1 i2 x w st T) in Hc. injection Hc as Hc.
    assert (Hlt : (length (v_pending s1) < length (v_pending s))%nat) by (rewrite <- Hc; by apply difference_shorter).
    destruct (IH s1 _ a1 I1 ltac:(lia)) as (s2 & served2 & a2 & Hr & I2 & E2 & W2). exists s2, served2, a2.
    split_and!; [|done|done|by rewrite W2, <- Hc]. apply (vruns_trans s [] s1 [] s2); [|done]. by apply vruns_one, vs_device.
Qed.

(** When nothing is pending and nothing is left to be acknowledged, every
    process in the driver is awake. *)
Lemma all_awake s a i t : inv s [] a -> v_pending s = [] -> v_tasks s !! i = Some t -> vt_awake t = true.
Proof.
  intros I E Ht. destruct (iv_tasks _ _ _ I i t Ht) as (i1 & i2 & x & w & st & T & _).
  destruct (to_stage _ _ _ _ _ _ _ _ _ T) as [(_ & _ & Hin)|[(_ & _ & Hin)|[_ H]]]; [| |done].
  - rewrite E in Hin. set_solver.
  - set_solver.
Qed.

Lemma finish_all n : forall s a, inv s [] a -> v_pending s = [] -> (size (v_tasks s) <= n)%nat ->
  exists es s' a', vruns device s es s' /\ inv s' [] a' /\ v_tasks s' = ∅ /\ size (v_waits s') = size (v_waits s).
Proof.
  induction n as [|n IH]; intros s a I E Hn.
  - exists [], s, a. split_and!; [constructor|done| |done]. apply map_size_empty_inv. lia.
  - destruct (decide (v_tasks s = ∅)) as [Em|Em]; [exists [], s, a; by split_and!; [constructor|..]|].
    apply map_choose in Em as (i & t & Ht). pose proof (all_awake s a i t I E Ht) as Haw.
    destruct (iv_tasks _ _ _ I i t Ht) as (i1 & i2 & x & w & st & T & _).
    destruct (proj1 (wp_Done _ _ _) (rw_end_run s [] i i1 i2 t x w st (iv_arrays _ _ _ I) T (task_desc_busy _ _ _ _ _ _ _ _ _ _ I Ht T)))
      as ([] & s1 & Hr & ->).
    assert (Hsz : (size (v_tasks (finished s i i1 i2 st)) < size (v_tasks s))%nat).
    { cbn. rewrite map_size_delete, Ht. assert (size (v_tasks s) <> 0%nat); [|lia].
      intros E0%map_size_empty_inv. by rewrite E0, lookup_empty in Ht. }
    destruct (IH (finished s i i1 i2 st) _ (finished_inv s [] a i i1 i2 t x w st I Ht T Haw) E ltac:(lia)) as (es & s' & a' & Hr' & I' & He & Hw).
    exists ([EEnd (vt_pid t) (vb_data x)] ++ es), s', a'. split_and!; [|done|done|by rewrite Hw; cbn; rewrite map_size_fmap]. apply (vruns_trans s _ (finished s i i1 i2 st) _ s'); [|done].
    apply vruns_one. apply (vs_end device i t x); [done|done|apply T|done].
Qed.

Lemma intr_keeps_pending p W rounds : keeps (fun s => v_pending s = p /\ v_waits s = W) (virtio_disk_intr_loop rounds).
Proof.
  induction rounds as [|rounds IH]; cbn [virtio_disk_intr_loop]; unfold set_buf, buf_at, info_at, wakeup_buf;
    repeat match goal with
    | |- keeps _ (bind _ _) => apply keeps_bind; [|intros ?]
    | |- keeps _ (gets _) => apply keeps_gets
    | |- keeps _ (ret _) => apply keeps_ret
    | |- keeps _ (deref _) => apply keeps_deref
    | |- keeps _ (panic _) => apply keeps_panic
    | |- keeps _ fault => apply keeps_fault
    | |- keeps _ (modify _) => apply keeps_modify; by intros s
    | |- keeps _ (if _ then _ else _) => apply keeps_if
    | |- _ => exact IH
    end.
Qed.

Lemma intr_pending s p W : v_pending s = p /\ v_waits s = W -> all_outcomes (fun s => v_pending s = p /\ v_waits s = W) (virtio_disk_intr s).
Proof. unfold virtio_disk_intr. generalize (Z.to_nat (2 ^ 16)). intros rounds. apply intr_keeps_pending. Qed.

(** Every request that has its descriptors can be brought to its end. *)
Lemma finish_round s served a : inv s served a ->
  exists es s' a', vruns device s es s' /\ inv s' [] a' /\ v_tasks s' = ∅ /\ size (v_waits s') = size (v_waits s).
Proof.
  intros I. destruct (drain (length (v_pending s)) s served a I ltac:(lia)) as (s1 & served1 & a1 & Hr1 & I1 & E1 & W1).
  destruct (proj1 (wp_Done _ _ _) (intr_spec s1 served1 a1 I1)) as ([] & s2 & Hr2 & I2).
  assert (E2 : v_pending s2 = [] /\ v_waits s2 = v_waits s1).
  { pose proof (intr_pending s1 [] (v_waits s1) (conj E1 eq_refl)) as Hk. rewrite Hr2 in Hk. exact Hk. }
  destruct E2 as [E2 W2]. destruct (finish_all (size (v_tasks s2)) s2 a1 I2 E2 ltac:(lia)) as (es3 & s3 & a3 & Hr3 & I3 & E3 & W3).
  exists (([] ++ []) ++ es3), s3, a3. split_and!; [|done|done|congruence]. apply (vruns_trans s _ s2); [|done].
  apply (vruns_step device s [] [] s1 s2 Hr1). by apply vs_intr.
Qed.

(** When no request has descriptors, all are free: a process that waits for them
    is awake, and its next try succeeds. *)
Lemma all_free s a : inv s [] a -> v_tasks s = ∅ -> ~ few_free (v_free s).
Proof.
  intros I E Hf. assert (H : forall k, 0 <= k < NUM -> znth (v_free s) k = Some true).
  { intros k Hk. destruct (znth_is_Some (v_free s) k) as [[] Hx]; [rewrite (ar_free _ (iv_arrays _ _ _ I)); lia|done|].
    apply (iv_free _ _ _ I k Hk) in Hx as (i & t & Ht & _). by rewrite E, lookup_empty in Ht. }
  apply (Hf 0 1 2); try done; apply H; done.
Qed.
Lemma retry_succeeds s a pid w : inv s [] a -> v_tasks s = ∅ -> v_waits s !! pid = Some w ->
  exists s', vruns device s [] s' /\ inv s' [] a /\ v_waits s' = delete pid (v_waits s).
Proof.
  intros I E Hw. pose proof (all_free s a I E) as Hf. destruct (iv_waits _ _ _ I pid w Hw) as [x Wo].
  destruct (proj1 (wp_Done _ _ _) (rw_retry_spec s [] a pid w I Hw)) as ([] & s' & Hr & HI & Hd); [|done]. exists s'. split_and!; [|done|done].
  apply vruns_one, (vs_retry device pid w true); [done| |done]. destruct (vw_awake w) eqn:Ea; [done|]. exfalso. by apply Hf, Wo.
Qed.
Lemma finish_waits n : forall s served a, inv s served a -> (size (v_waits s) <= n)%nat ->
  exists es s', vruns device s es s' /\ v_tasks s' = ∅ /\ v_waits s' = ∅.
Proof.
  induction n as [|n IH]; intros s served a I Hn; destruct (finish_round s served a I) as (es1 & s1 & a1 & Hr1 & I1 & E1 & W1).
  - exists es1, s1. split_and!; [done|done|]. apply map_size_empty_inv. lia.
  - destruct (decide (v_waits s1 = ∅)) as [Em|Em]; [by exists es1, s1|]. apply map_choose in Em as (pid & w & Hw).
    destruct (retry_succeeds s1 a1 pid w I1 E1 Hw) as (s2 & Hr2 & I2 & W2).
    assert (Hsz : (size (v_waits s2) <= n)%nat).
    { rewrite W2, map_size_delete, Hw. lia. }
    destruct (IH s2 [] a1 I2 Hsz) as (es3 & s3 & Hr3 & E3 & W3). exists ((es1 ++ []) ++ es3), s3. split_and!; [|done|done].
    apply (vruns_trans s _ s2); [|done]. by apply (vruns_trans s es1 s1 [] s2).
Qed.

(** C36: no request is stuck.  If the device serves what it is told of, and no
    process is killed while it sleeps until its request is served, then in every
    state that can be reached a process sleeps for descriptors only while fewer
    than three are free, and there is a continuation, by steps of the device, the
    interrupt handler and the processes in the driver, in which every request has
    been finished, also those that had to wait for descriptors. *)
Theorem virtio_disk_progress bufs sectors info ops es s :
  Z.of_nat (length info) = NUM -> Z.of_nat (length ops) = NUM -> sectors_ok sectors ->
  vruns device (boot_vst bufs sectors info ops) es s ->
  (forall pid w, v_waits s !! pid = Some w -> vw_awake w = false -> few_free (v_free s)) /\
  exists es' s', vruns device s es' s' /\ v_tasks s' = ∅ /\ v_waits s' = ∅.
Proof.
  intros Hi Ho Hs Hr. destruct (vruns_inv _ _ _ _ _ (boot_inv bufs sectors info ops Hi Ho Hs) Hr) as (served & a & _ & I). split.
  - intros pid w Hw. destruct (iv_waits _ _ _ I pid w Hw) as [x Wo]. apply Wo.
  - by apply (finish_waits (size (v_waits s)) s served a).
Qed.
End system.

(** ** A killed process *)

(** [kill] of a process that sleeps until its request is served. *)
Definition kill_task (i : Z) (s : vst) : vst :=
  with_vtasks (alter (fun t => mk_vtask (vt_pid t) (vt_buf t) (vt_idx t) true) i (v_tasks s)) s.

(** a process that is killed while it waits for the disk brings the kernel
    down.  [virtio_disk_rw] sleeps once and does not check [b->disk]: if the
    device has served the request but its interrupt is still to come, the killed
    process frees its descriptors and clears [info[].b], and the interrupt
    handler then follows a null pointer. *)
Theorem killed_waiter_faults s served a i t :
  inv s (i :: served) a -> v_tasks s !! i = Some t ->
  exists s1 s2, rw_end i (kill_task i s) = Done tt s1 /\ virtio_disk_intr s1 = Fault s2.
Proof.
  intros I Ht. destruct (iv_tasks _ _ _ I i t Ht) as (i1 & i2 & x & w & st & T & _).
  destruct (proj2 (iv_served _ _ _ I) i ltac:(set_solver)) as (t' & Ht' & Haw & Hinf).
  assert (st = 0) as -> by (pose proof (to_info _ _ _ _ _ _ _ _ _ T) as E; rewrite Ht' in Ht; rewrite Hinf in E; congruence).
  set (u := mk_vtask (vt_pid t) (vt_buf t) (vt_idx t) true).
  assert (T' : task_ok (kill_task i s) served i u i1 i2 x w 0).
  { destruct T as [T1 T2 T3 T4 T5 T6 T7 T8 T9 T10 T11]. constructor; try done. by right; right. }
  pose proof (iv_arrays _ _ _ I) as Ha. assert (Ha' : arrays (kill_task i s)) by (destruct Ha; by constructor).
  destruct (proj1 (wp_Done _ _ _) (rw_end_run (kill_task i s) served i i1 i2 u x w 0 Ha' T' (task_desc_busy _ _ _ _ _ _ _ _ _ _ I Ht T)))
    as ([] & s1 & Hr & ->).
  exists (finished (kill_task i s) i i1 i2 0), (finished (kill_task i s) i i1 i2 0). split; [exact Hr|].
  destruct (idx_range _ _ _ _ _ _ _ _ _ Ha T) as (R & _). destruct (iv_used _ _ _ I) as (Hu & Hui & Hring).
  pose proof (served_short _ _ _ I) as Hlen. cbn [length] in *.
  assert (Hne : (v_used_idx s =? v_uidx s) = false) by (apply Z.eqb_neq; by apply (uidx_differs s served)).
  assert (Hfirst : znth (v_uring s) (v_used_idx s mod NUM) = Some i).
  { rewrite <- (Z.add_0_r (v_used_idx s)). apply (Hring 0). lia. }
  assert (Hnone : znth (v_info (finished (kill_task i s) i i1 i2 0)) i = Some (None, 0)).
  { cbn. apply znth_zset_eq. rewrite (ar_info _ Ha). lia. }
  unfold virtio_disk_intr. change (Z.to_nat (2 ^ 16)) with (S (Z.to_nat (2 ^ 16 - 1))). generalize (Z.to_nat (2 ^ 16 - 1)). intros rounds.
  cbn [virtio_disk_intr_loop]. unfold bind, gets at 1 2.
  change (v_used_idx (finished _ _ _ _ _)) with (v_used_idx s). change (v_uidx (finished _ _ _ _ _)) with (v_uidx s).
  rewrite Hne. unfold gets at 1. change (v_uring (finished _ _ _ _ _)) with (v_uring s). rewrite Hfirst. cbn [deref].
  assert (Hi : info_at i (finished (kill_task i s) i i1 i2 0) = Done (None, 0) (finished (kill_task i s) i i1 i2 0)).
  { unfold info_at, bind, gets. by rewrite Hnone. }
  unfold ret at 1. rewrite Hi. done.
Qed.

(** * A run of the disk system

    The theorems of VirtioSystem.v for a process that writes block 7, and a
    device that serves the chains it was told of. *)

Definition any_device (s s' : vst) : Prop := exists head, head ∈ v_pending s /\ complete head s = Some s'.
Lemma any_device_serves s s' : any_device s s' -> exists head, head ∈ v_pending s /\ complete head s = Some s'.
Proof. done. Qed.
Lemma any_device_live s head s1 : head ∈ v_pending s -> complete head s = Some s1 -> exists s', any_device s s'.
Proof. intros Hh Hc. exists s1. by exists head. Qed.

Definition ex_info : list (option Z * Z) := replicate 16 (None, 0).
Definition ex_ops : list virtio_blk_req := replicate 16 (mk_req 0 0 0).
(** A block of ones. *)
Definition ones : block := replicate 1024 1.
Opaque ones.
Lemma ones_length : Z.of_nat (length ones) = BSIZE.
Proof. Transparent ones. unfold ones. by rewrite length_replicate. Qed.
Opaque ones.
Definition ex_vst : vst := boot_vst {[5 := mk_vbuf false 7 ones]} ∅ ex_info ex_ops.

Lemma ex_sectors : sectors_ok ∅.
Proof. intros k x. by rewrite lookup_empty. Qed.
Lemma ex_inv : inv ex_vst [] (mk_adisk (blk ∅) ∅).
Proof. apply boot_inv; [done|done|apply ex_sectors]. Qed.
Lemma ex_may_begin : may_begin ex_vst 1 5 (mk_vbuf false 7 ones).
Proof.
  split_and!; [done|done|done|apply ones_length| |]; intros i t; cbn [ex_vst boot_vst v_tasks v_waits]; by rewrite lookup_empty.
Qed.

Lemma ex_begin : exists s, rw_begin 1 5 true ex_vst = Done true s /\ v_pending s = [0] /\
  v_tasks s !! 0 = Some (mk_vtask 1 5 (0, 1, 2) false).
Proof. eexists. split; [vm_compute; reflexivity|]. split; reflexivity. Qed.

(** The request is served and the interrupt still to come. *)
Lemma ex_served : exists s a, vruns any_device ex_vst [EBegin 1 7 true ones] s /\ inv s [0] a /\
  v_tasks s !! 0 = Some (mk_vtask 1 5 (0, 1, 2) false).
Proof.
  destruct ex_begin as (s1 & Hr & Hp & Ht).
  destruct (proj1 (wp_Done _ _ _) (rw_begin_spec _ _ _ 1 5 true _ ex_inv ex_may_begin)) as (r & s1' & Hr' & I1).
  rewrite Hr in Hr'. injection Hr' as <- <-. assert (Hh : 0 ∈ v_pending s1) by (rewrite Hp; left).
  destruct (iv_tasks _ _ _ I1 0 _ Ht) as (i1 & i2 & x & w & st & T & _).
  pose proof (complete_served _ _ _ _ _ _ _ _ _ T) as Hc. set (s2 := served_state s1 0 _ x w) in Hc.
  destruct (device_inv _ _ _ _ I1 Hh s2 Hc) as (a2 & _ & I2). exists s2, a2. split; [|split; [exact I2|exact Ht]].
  apply (vruns_step any_device ex_vst [EBegin 1 7 true ones] [] s1).
  - apply (vruns_step any_device ex_vst [] [EBegin 1 7 true ones] ex_vst); [constructor|].
    exact (vs_begin any_device 1 5 true _ _ _ _ ex_may_begin Hr).
  - apply vs_device. exists 0. split; [exact Hh|exact Hc].
Qed.

Lemma virtio_disk_refines_witness : exists s a, vruns any_device ex_vst [EBegin 1 7 true ones] s /\
  aruns (mk_adisk (blk ∅) ∅) [EBegin 1 7 true ones] a.
Proof.
  destruct ex_served as (s & a0 & Hr & _).
  destruct (virtio_disk_refines any_device any_device_serves {[5 := mk_vbuf false 7 ones]} ∅ ex_info ex_ops _ s eq_refl eq_refl ex_sectors Hr)
    as (a & Ha & _). exists s, a. split; [exact Hr|exact Ha].
Defined.

(** Six processes at once: there are descriptors for five, the sixth waits. *)
Definition crowd_bufs : gmap Z vbuf := list_to_map (map (fun p => (p, mk_vbuf false p ones)) (range 1 7)).
Fixpoint crowd (n : nat) : vst :=
  match n with
  | O => boot_vst crowd_bufs ∅ ex_info ex_ops
  | S m => match rw_begin (Z.of_nat n) (Z.of_nat n) true (crowd m) with Done _ s' => s' | _ => crowd m end
  end.
Definition absent (p : Z) (s : vst) : bool :=
  bool_decide (map_Forall (fun _ t => vt_buf t <> p /\ vt_pid t <> p) (v_tasks s)) &&
  bool_decide (map_Forall (fun q w => vw_buf w <> p /\ q <> p) (v_waits s)).
Lemma absent_begin p s x : v_bufs s !! p = Some x -> 0 <= vb_blockno x < 2 ^ 31 -> vb_data x = ones -> absent p s = true -> may_begin s p p x.
Proof.
  intros Hb Hn Hx [H1%bool_decide_eq_true H2%bool_decide_eq_true]%andb_true_iff. split_and!; [done|lia|lia|rewrite Hx; apply ones_length| |].
  - intros i t Ht. exact (H1 i t Ht).
  - intros q w Hw. exact (H2 q w Hw).
Qed.
Lemma crowd_bufs_at n : (n < 6)%nat -> v_bufs (crowd n) !! Z.of_nat (S n) = Some (mk_vbuf false (Z.of_nat (S n)) ones) /\ absent (Z.of_nat (S n)) (crowd n) = true.
Proof. intros Hn. do 6 (destruct n as [|n]; [split; vm_compute; reflexivity|]). lia. Qed.
Lemma crowd_run n : (n <= 6)%nat -> exists es a, vruns any_device (crowd 0) es (crowd n) /\ inv (crowd n) [] a.
Proof.
  induction n as [|n IH]; intros Hn.
  { exists [], (mk_adisk (blk ∅) ∅). split; [constructor|]. apply boot_inv; [done|done|apply ex_sectors]. }
  destruct (IH ltac:(lia)) as (es & a & Hr & I). destruct (crowd_bufs_at n ltac:(lia)) as [Hb Ha]. set (p := Z.of_nat (S n)) in *.
  assert (Hm : may_begin (crowd n) p p (mk_vbuf false p ones)) by (apply absent_begin; [done|cbn; lia|done|done]).
  destruct (proj1 (wp_Done _ _ _) (rw_begin_spec _ _ _ p p true _ I Hm)) as (r & s' & Hs & I').
  assert (E : crowd (S n) = s') by (cbn [crowd]; fold p; by rewrite Hs). rewrite E. eexists _, _. split; [|exact I'].
  eapply (vruns_step any_device (crowd 0) es _ (crowd n) s' Hr). exact (vs_begin any_device p p true _ r _ _ Hm Hs).
Qed.

Lemma virtio_disk_progress_witness : exists es s es' s', vruns any_device (crowd 0) es s /\ size (v_tasks s) = 5%nat /\
  v_waits s !! 6 = Some (mk_vwait 6 true 12 false) /\ few_free (v_free s) /\ vruns any_device s es' s' /\ v_tasks s' = ∅ /\ v_waits s' = ∅.
Proof.
  destruct (crowd_run 6 ltac:(lia)) as (es & a & Hr & _). assert (Hw : v_waits (crowd 6) !! 6 = Some (mk_vwait 6 true 12 false)) by (vm_compute; reflexivity).
  destruct (virtio_disk_progress any_device any_device_serves any_device_live crowd_bufs ∅ ex_info ex_ops es (crowd 6)
    eq_refl eq_refl ex_sectors Hr) as (Hf & es' & s' & Hr' & E1 & E2). exists es, (crowd 6), es', s'.
  split; [exact Hr|]. split; [vm_compute; reflexivity|]. split; [exact Hw|]. split; [exact (Hf 6 _ Hw eq_refl)|]. split; [exact Hr'|]. split; [exact E1|exact E2].
Defined.

Lemma killed_waiter_faults_witness : exists s s1 s2, vruns any_device ex_vst [EBegin 1 7 true ones] s /\
  rw_end 0 (kill_task 0 s) = Done tt s1 /\ virtio_disk_intr s1 = Fault s2.
Proof.
  destruct ex_served as (s & a & Hr & I & Ht). destruct (killed_waiter_faults s [] a 0 _ I Ht) as (s1 & s2 & H1 & H2).
  exists s, s1, s2. split; [exact Hr|split; [exact H1|exact H2]].
Defined.
