(* ===== verification/PairProtocol.v ===== *)
(** * Mirrored pairs under concurrency

    [readdiskpair], [writediskpair] and the repair of a mirrored disk
    (kernel/raid.c), run by any number of processes on one [struct DiskPair],
    with disks failing in between.  A process runs the mutex-protected parts of
    these functions in one step each, and the accesses to the disks one at a
    time.  [diskpair->mutex] and the channel processes sleep on are represented
    by the steps themselves: a sleeping process runs again after a wakeup.  The
    sleeplocks of the disks are taken only by a process for which [writing] or
    [reading[i]] is set and are not represented. *)

From stdpp Require Import base numbers list gmap strings.
From Stdlib Require Import ZArith Lia.
From S2P Require Import Prelude Blocks.
Open Scope Z_scope.

(** The disks of the pair are [false] (disk[0]) and [true] (disk[1]). *)
Abbreviation side := bool.
Definition sset {A} (f : side -> A) (i : side) (x : A) : side -> A := fun j => if Bool.eqb j i then x else f j.
Lemma sset_eq {A} (f : side -> A) i x : sset f i x i = x.
Proof. unfold sset. by rewrite eqb_reflx. Qed.
Lemma sset_ne {A} (f : side -> A) i j x : j <> i -> sset f i x j = f j.
Proof. intros Hne. unfold sset. by destruct i, j. Qed.

Record pair := mk_pair {
  p_writing : bool;
  p_reading : side -> bool;
  p_valid : side -> bool;
  p_disk : side -> Z -> block;
}.
Definition put_writing b p := mk_pair b (p_reading p) (p_valid p) (p_disk p).
Definition put_reading i b p := mk_pair (p_writing p) (sset (p_reading p) i b) (p_valid p) (p_disk p).
Definition put_valid i b p := mk_pair (p_writing p) (p_reading p) (sset (p_valid p) i b) (p_disk p).
Definition put_block i n x p :=
  mk_pair (p_writing p) (p_reading p) (p_valid p) (sset (p_disk p) i (fun k => if decide (k = n) then x else p_disk p i k)).

(** ** The mutex-protected parts *)

Inductive entry (A : Type) := Refused | Sleeps | Enters (a : A).
Arguments Refused {A}. Arguments Sleeps {A}. Arguments Enters {A} a.

(** An iteration of the loop of [readdiskpair]. *)
Definition enter_read (p : pair) : entry (side * pair) :=
  if negb (p_valid p false) && negb (p_valid p true) then Refused
  else if p_writing p then Sleeps
  else if negb (p_reading p false) && p_valid p false then Enters (false, put_reading false true p)
  else if negb (p_reading p true) && p_valid p true then Enters (true, put_reading true true p)
  else Sleeps.
Definition leave_read (i : side) (p : pair) : pair := put_reading i false p.

(** An iteration of the loop of [writediskpair]. *)
Definition enter_write (p : pair) : entry pair :=
  if negb (p_valid p false) && negb (p_valid p true) then Refused
  else if p_writing p then Sleeps
  else if p_reading p false || p_reading p true then Sleeps
  else Enters (put_writing true p).
Definition leave_write (p : pair) : pair := put_writing false p.
(** The write of one disk of the pair. *)
Definition write_side (i : side) (n : Z) (x : block) (p : pair) : pair := if p_valid p i then put_block i n x p else p.

(** An iteration of the loop of [raidrepair]. *)
Definition enter_repair (p : pair) : entry pair :=
  if p_writing p || p_reading p false || p_reading p true then Sleeps else Enters (put_writing true p).
(** Block [n] of disk [d] is read from the other disk and written. *)
Definition copy_block (d : side) (n : Z) (p : pair) : pair := put_block d n (p_disk p (negb d) n) p.

(** ** Processes *)

Inductive pproc :=
| RWait (n : Z)                  (* wants to read block n *)
| RGot (n : Z) (i : side)        (* reading[i] is set *)
| RHas (n : Z) (i : side) (x : block)
| WWait (n : Z) (x : block)
| WGot (n : Z) (x : block)       (* writing is set *)
| WHalf (n : Z) (x : block)      (* disk[0] has been written *)
| WBoth (n : Z) (x : block)
| FWait (d : side)               (* a repair that has found the other disk valid *)
| FCopy (d : side) (k : Z)       (* writing is set, blocks below k are copied *)
| FValid (d : side).             (* the disk is valid again *)

Inductive pevent := PRead (n : Z) (x : block) | PWrite (n : Z) (x : block).

Record pworld := mk_pworld { w_pair : pair; w_procs : gmap Z (pproc * bool) }. (* bool: asleep *)

Definition wake_all (ps : gmap Z (pproc * bool)) : gmap Z (pproc * bool) := (fun q => (fst q, false)) <$> ps.
Definition set_proc (pid : Z) (q : pproc) (p : pair) (w : pworld) : pworld := mk_pworld p (<[pid := (q, false)]> (w_procs w)).
Definition sleep_proc (pid : Z) (q : pproc) (w : pworld) : pworld := mk_pworld (w_pair w) (<[pid := (q, true)]> (w_procs w)).
(** Leaving: the process is done and the sleepers are woken. *)
Definition end_proc (pid : Z) (p : pair) (w : pworld) : pworld := mk_pworld p (wake_all (delete pid (w_procs w))).

(** A repair in progress. *)
Definition is_repair (q : pproc) : bool := match q with FWait _ | FCopy _ _ | FValid _ => true | _ => false end.

Definition no_repair (w : pworld) : Prop := forall pid q, w_procs w !! pid = Some q -> is_repair (fst q) = false.

Section protocol.
Variable last : Z.   (* diskblockn(), the last block of a disk *)
Variable may_repair : pworld -> Prop.   (* when a repair may start *)

Inductive pstep : pworld -> list pevent -> pworld -> Prop :=
(* reads *)
| ps_read pid n w : w_procs w !! pid = None -> 0 <= n <= last -> pstep w [] (set_proc pid (RWait n) (w_pair w) w)
| ps_read_refused pid n w : w_procs w !! pid = Some (RWait n, false) -> enter_read (w_pair w) = Refused ->
    pstep w [] (mk_pworld (w_pair w) (delete pid (w_procs w)))
| ps_read_sleeps pid n w : w_procs w !! pid = Some (RWait n, false) -> enter_read (w_pair w) = Sleeps ->
    pstep w [] (sleep_proc pid (RWait n) w)
| ps_read_enters pid n i p w : w_procs w !! pid = Some (RWait n, false) -> enter_read (w_pair w) = Enters (i, p) ->
    pstep w [] (set_proc pid (RGot n i) p w)
| ps_read_block pid n i w : w_procs w !! pid = Some (RGot n i, false) ->
    pstep w [PRead n (p_disk (w_pair w) i n)] (set_proc pid (RHas n i (p_disk (w_pair w) i n)) (w_pair w) w)
| ps_read_ends pid n i x w : w_procs w !! pid = Some (RHas n i x, false) -> pstep w [] (end_proc pid (leave_read i (w_pair w)) w)
(* writes *)
| ps_write pid n x w : w_procs w !! pid = None -> 0 <= n <= last -> pstep w [] (set_proc pid (WWait n x) (w_pair w) w)
| ps_write_refused pid n x w : w_procs w !! pid = Some (WWait n x, false) -> enter_write (w_pair w) = Refused ->
    pstep w [] (mk_pworld (w_pair w) (delete pid (w_procs w)))
| ps_write_sleeps pid n x w : w_procs w !! pid = Some (WWait n x, false) -> enter_write (w_pair w) = Sleeps ->
    pstep w [] (sleep_proc pid (WWait n x) w)
| ps_write_enters pid n x p w : w_procs w !! pid = Some (WWait n x, false) -> enter_write (w_pair w) = Enters p ->
    pstep w [] (set_proc pid (WGot n x) p w)
| ps_write_first pid n x w : w_procs w !! pid = Some (WGot n x, false) ->
    pstep w [] (set_proc pid (WHalf n x) (write_side false n x (w_pair w)) w)
| ps_write_second pid n x w : w_procs w !! pid = Some (WHalf n x, false) ->
    pstep w [] (set_proc pid (WBoth n x) (write_side true n x (w_pair w)) w)
| ps_write_ends pid n x w : w_procs w !! pid = Some (WBoth n x, false) ->
    pstep w [PWrite n x] (end_proc pid (leave_write (w_pair w)) w)
(* a disk fails; one disk of the pair is left *)
| ps_fail i w : p_valid (w_pair w) (negb i) = true -> pstep w [] (mk_pworld (put_valid i false (w_pair w)) (w_procs w))
(* a repair *)
| ps_repair pid d w : w_procs w !! pid = None -> p_valid (w_pair w) d = false -> p_valid (w_pair w) (negb d) = true ->
    may_repair w ->
    pstep w [] (set_proc pid (FWait d) (w_pair w) w)
| ps_repair_sleeps pid d w : w_procs w !! pid = Some (FWait d, false) -> enter_repair (w_pair w) = Sleeps ->
    pstep w [] (sleep_proc pid (FWait d) w)
| ps_repair_enters pid d p w : w_procs w !! pid = Some (FWait d, false) -> enter_repair (w_pair w) = Enters p ->
    pstep w [] (set_proc pid (FCopy d 0) p w)
| ps_repair_copies pid d k w : w_procs w !! pid = Some (FCopy d k, false) -> k <= last ->
    pstep w [] (set_proc pid (FCopy d (k + 1)) (copy_block d k (w_pair w)) w)
| ps_repair_valid pid d k w : w_procs w !! pid = Some (FCopy d k, false) -> last < k ->
    pstep w [] (set_proc pid (FValid d) (put_valid d true (w_pair w)) w)
| ps_repair_ends pid d w : w_procs w !! pid = Some (FValid d, false) -> pstep w [] (end_proc pid (leave_write (w_pair w)) w).

Inductive pruns (w : pworld) : list pevent -> pworld -> Prop :=
| pruns_nil : pruns w [] w
| pruns_step es es' w1 w2 : pruns w es w1 -> pstep w1 es' w2 -> pruns w (es ++ es') w2.
End protocol.

(** ** Schedules

    The steps as a function of who runs. *)

Inductive paction := AStart (pid : Z) (q : pproc) | ARun (pid : Z) | AFail (i : side).

Definition run_proc (last pid : Z) (q : pproc) (w : pworld) : option (list pevent * pworld) :=
  let p := w_pair w in
  match q with
  | RWait n => match enter_read p with
    | Refused => Some ([], mk_pworld p (delete pid (w_procs w)))
    | Sleeps => Some ([], sleep_proc pid q w)
    | Enters (i, p') => Some ([], set_proc pid (RGot n i) p' w)
    end
  | RGot n i => Some ([PRead n (p_disk p i n)], set_proc pid (RHas n i (p_disk p i n)) p w)
  | RHas n i x => Some ([], end_proc pid (leave_read i p) w)
  | WWait n x => match enter_write p with
    | Refused => Some ([], mk_pworld p (delete pid (w_procs w)))
    | Sleeps => Some ([], sleep_proc pid q w)
    | Enters p' => Some ([], set_proc pid (WGot n x) p' w)
    end
  | WGot n x => Some ([], set_proc pid (WHalf n x) (write_side false n x p) w)
  | WHalf n x => Some ([], set_proc pid (WBoth n x) (write_side true n x p) w)
  | WBoth n x => Some ([PWrite n x], end_proc pid (leave_write p) w)
  | FWait d => match enter_repair p with
    | Refused => None
    | Sleeps => Some ([], sleep_proc pid q w)
    | Enters p' => Some ([], set_proc pid (FCopy d 0) p' w)
    end
  | FCopy d k => if k <=? last then Some ([], set_proc pid (FCopy d (k + 1)) (copy_block d k p) w)
    else Some ([], set_proc pid (FValid d) (put_valid d true p) w)
  | FValid d => Some ([], end_proc pid (leave_write p) w)
  end.

Definition run_action (last : Z) (a : paction) (w : pworld) : option (list pevent * pworld) :=
  match a with
  | AStart pid q =>
    match w_procs w !! pid, q with
    | None, RWait n | None, WWait n _ => if (0 <=? n) && (n <=? last) then Some ([], set_proc pid q (w_pair w) w) else None
    | None, FWait d => if negb (p_valid (w_pair w) d) && p_valid (w_pair w) (negb d) then Some ([], set_proc pid q (w_pair w) w) else None
    | _, _ => None
    end
  | ARun pid => match w_procs w !! pid with Some (q, false) => run_proc last pid q w | _ => None end
  | AFail i => if p_valid (w_pair w) (negb i) then Some ([], mk_pworld (put_valid i false (w_pair w)) (w_procs w)) else None
  end.

Fixpoint run_actions (last : Z) (acts : list paction) (w : pworld) : option (list pevent * pworld) :=
  match acts with
  | [] => Some ([], w)
  | a :: acts =>
    '(es, w1) ← run_action last a w;
    '(es', w2) ← run_actions last acts w1;
    Some (es ++ es', w2)
  end.

Lemma run_proc_sound last may_repair pid q w es w' : w_procs w !! pid = Some (q, false) -> run_proc last pid q w = Some (es, w') ->
  pstep last may_repair w es w'.
Proof.
  intros Hp Hr. destruct q as [n|n i|n i x|n x|n x|n x|n x|d|d k|d]; cbn [run_proc] in Hr.
  - destruct (enter_read (w_pair w)) as [| |[i p]] eqn:E; injection Hr as <- <-;
      [by eapply ps_read_refused|by apply ps_read_sleeps|by eapply ps_read_enters].
  - injection Hr as <- <-. by eapply ps_read_block.
  - injection Hr as <- <-. by eapply ps_read_ends.
  - destruct (enter_write (w_pair w)) as [| |p] eqn:E; injection Hr as <- <-;
      [by eapply ps_write_refused|by apply ps_write_sleeps|by eapply ps_write_enters].
  - injection Hr as <- <-. by eapply ps_write_first.
  - injection Hr as <- <-. by eapply ps_write_second.
  - injection Hr as <- <-. by eapply ps_write_ends.
  - destruct (enter_repair (w_pair w)) as [| |p] eqn:E; [done|..]; injection Hr as <- <-;
      [by apply ps_repair_sleeps|by eapply ps_repair_enters].
  - destruct (Z.leb_spec k last); injection Hr as <- <-; [by apply ps_repair_copies|by eapply ps_repair_valid].
  - injection Hr as <- <-. by eapply ps_repair_ends.
Qed.

Lemma run_action_sound last may_repair a w es w' : (forall pid d, a = AStart pid (FWait d) -> may_repair w) ->
  run_action last a w = Some (es, w') -> pstep last may_repair w es w'.
Proof.
  intros Hm Hr. destruct a as [pid q|pid|i]; cbn [run_action] in Hr.
  - destruct (w_procs w !! pid) eqn:Hp; [done|]. destruct q as [n| | |n x| | | |d| |]; try done.
    + destruct (Z.leb_spec 0 n), (Z.leb_spec n last); cbn [andb] in Hr; try done. injection Hr as <- <-. by apply ps_read.
    + destruct (Z.leb_spec 0 n), (Z.leb_spec n last); cbn [andb] in Hr; try done. injection Hr as <- <-. by apply ps_write.
    + destruct (p_valid (w_pair w) d) eqn:E1, (p_valid (w_pair w) (negb d)) eqn:E2; cbn in Hr; try done. injection Hr as <- <-.
      apply ps_repair; try done. by apply (Hm pid d).
  - destruct (w_procs w !! pid) as [[q []]|] eqn:Hp; try done. by apply (run_proc_sound _ _ _ _ _ _ _ Hp).
  - destruct (p_valid (w_pair w) (negb i)) eqn:E; [|done]. injection Hr as <- <-. by apply ps_fail.
Qed.
