(* ===== verification/PairSafe.v ===== *)
(** * Mirrored pairs: reads see the latest write

    The invariant of the protocol of PairProtocol.v, kept by every step, and
    what follows from it. *)

From stdpp Require Import base numbers list gmap strings.
From Stdlib Require Import ZArith Lia.
From S2P Require Import Prelude Blocks PairProtocol.
Open Scope Z_scope.

Section safe.
Variable last : Z.

Definition bset (C : Z -> block) (n : Z) (x : block) : Z -> block := fun k => if decide (k = n) then x else C k.
Definition agree (A B : Z -> block) : Prop := forall n, 0 <= n <= last -> A n = B n.

(** Which processes have [writing] or [reading[i]] set for them. *)
Definition writes (q : pproc) : bool := match q with WGot _ _ | WHalf _ _ | WBoth _ _ | FCopy _ _ | FValid _ => true | _ => false end.
Definition reads (q : pproc) : option side := match q with RGot _ i | RHas _ i _ => Some i | _ => None end.
Definition block_of (q : pproc) : option Z :=
  match q with RWait n | RGot n _ | RHas n _ _ | WWait n _ | WGot n _ | WHalf n _ | WBoth n _ => Some n | _ => None end.
Definition repairs (q : pproc) : option side := match q with FWait d | FCopy d _ => Some d | _ => None end.

(** What is on the disks, given the process that has [writing]. *)
Definition contents_ok (C : Z -> block) (p : pair) (q : option pproc) : Prop :=
  match q with
  | Some (WHalf n x) => (p_valid p false = true -> agree (p_disk p false) (bset C n x)) /\
      (p_valid p true = true -> agree (p_disk p true) C)
  | Some (WBoth n x) => forall i, p_valid p i = true -> agree (p_disk p i) (bset C n x)
  | Some (FCopy d k) => agree (p_disk p (negb d)) C /\ 0 <= k /\ forall n, 0 <= n < k -> n <= last -> p_disk p d n = C n
  | _ => forall i, p_valid p i = true \/ p_reading p i = true -> agree (p_disk p i) C
  end.

Record pinv (w : pworld) (C : Z -> block) (ow : option (Z * pproc)) (rd : side -> option Z) : Prop := {
  pi_writer : forall pid q b, w_procs w !! pid = Some (q, b) -> writes q = true -> ow = Some (pid, q);
  pi_writing : match ow with
    | None => p_writing (w_pair w) = false
    | Some (pid, q) => p_writing (w_pair w) = true /\ w_procs w !! pid = Some (q, false) /\ writes q = true /\ forall i, rd i = None
    end;
  pi_reader : forall pid q b i, w_procs w !! pid = Some (q, b) -> reads q = Some i -> rd i = Some pid;
  pi_reading : forall i, match rd i with
    | None => p_reading (w_pair w) i = false
    | Some pid => p_reading (w_pair w) i = true /\ exists q, w_procs w !! pid = Some (q, false) /\ reads q = Some i
    end;
  pi_valid : p_valid (w_pair w) false = true \/ p_valid (w_pair w) true = true;
  pi_blocks : forall pid q b n, w_procs w !! pid = Some (q, b) -> block_of q = Some n -> 0 <= n <= last;
  pi_repair : forall pid q b d, w_procs w !! pid = Some (q, b) -> repairs q = Some d -> p_valid (w_pair w) d = false;
  pi_one : forall pid pid' q q', w_procs w !! pid = Some q -> w_procs w !! pid' = Some q' ->
    is_repair (fst q) = true -> is_repair (fst q') = true -> pid = pid';
  pi_contents : contents_ok C (w_pair w) (snd <$> ow);
}.

(** A process that has nothing set. *)
Definition waiting (q : pproc) : Prop := writes q = false /\ reads q = None.

(** Lookups after a process has changed. *)
Lemma proc_cases pid pid' q q' (ps : gmap Z (pproc * bool)) :
  <[pid := q]> ps !! pid' = Some q' -> (pid' = pid /\ q' = q) \/ (pid' <> pid /\ ps !! pid' = Some q').
Proof. rewrite lookup_insert_Some. naive_solver. Qed.

(** A step by which a waiting process waits on or a new one starts. *)
Lemma wait_pinv w C ow rd pid q b : pinv w C ow rd -> waiting q ->
  (w_procs w !! pid = None \/ exists q0 b0, w_procs w !! pid = Some (q0, b0) /\ waiting q0) ->
  (forall n, block_of q = Some n -> 0 <= n <= last) ->
  (forall d, repairs q = Some d -> p_valid (w_pair w) d = false) ->
  (is_repair q = true -> forall pid' q', pid' <> pid -> w_procs w !! pid' = Some q' -> is_repair (fst q') = false) ->
  pinv (mk_pworld (w_pair w) (<[pid := (q, b)]> (w_procs w))) C ow rd.
Proof.
  intros [P1 P2 P3 P4 P5 P6 P7 P8 P9] [Hw Hr] Hold Hn Hd H1.
  assert (Hkeep : forall pid' q' b', w_procs w !! pid' = Some (q', b') -> ~ waiting q' ->
    <[pid := (q, b)]> (w_procs w) !! pid' = Some (q', b')).
  { intros pid' q' b' Hl Hnw. rewrite lookup_insert_ne; [done|]. intros ->.
    destruct Hold as [E|(q0 & b0 & E & Hq0)]; [congruence|]. rewrite E in Hl. injection Hl as -> ->. done. }
  constructor; cbn [w_pair w_procs]; try done.
  - intros pid' q' b' [[-> [= -> ->]]|[_ Hl]]%proc_cases Hq'; [congruence|by apply (P1 pid' q' b')].
  - destruct ow as [[pw qw]|]; [|done]. destruct P2 as (A1 & A2 & A3 & A4). split_and!; try done. apply Hkeep; [done|].
    unfold waiting. rewrite A3. by intros [].
  - intros pid' q' b' i [[-> [= -> ->]]|[_ Hl]]%proc_cases Hq'; [congruence|by apply (P3 pid' q' b' i)].
  - intros i. specialize (P4 i). destruct (rd i) as [pr|]; [|done]. destruct P4 as (A1 & q' & A2 & A3). split; [done|].
    exists q'. split; [|done]. apply Hkeep; [done|]. unfold waiting. rewrite A3. by intros [].
  - intros pid' q' b' n [[-> [= -> ->]]|[_ Hl]]%proc_cases Hq'; [by apply Hn|by apply (P6 pid' q' b' n)].
  - intros pid' q' b' d [[-> [= -> ->]]|[_ Hl]]%proc_cases Hq'; [by apply Hd|by apply (P7 pid' q' b' d)].
  - intros p1 p2 q1 q2 [[-> ->]|[Hne1 Hl1]]%proc_cases [[-> ->]|[Hne2 Hl2]]%proc_cases R1 R2; try done.
    + by rewrite (H1 R1 p2 q2) in R2.
    + by rewrite (H1 R2 p1 q1) in R1.
    + by apply (P8 p1 p2 q1 q2).
Qed.

(** A waiting process that gives up. *)
Lemma refused_pinv w C ow rd pid q b : pinv w C ow rd -> w_procs w !! pid = Some (q, b) -> waiting q ->
  pinv (mk_pworld (w_pair w) (delete pid (w_procs w))) C ow rd.
Proof.
  intros [P1 P2 P3 P4 P5 P6 P7 P8 P9] Hpid [Hw Hr].
  constructor; cbn [w_pair w_procs]; try done.
  - intros pid' q' b' [_ Hl]%lookup_delete_Some. by apply (P1 pid' q' b').
  - destruct ow as [[pw qw]|]; [|done]. destruct P2 as (A1 & A2 & A3 & A4). split_and!; try done.
    apply lookup_delete_Some. split; [|done]. intros ->. congruence.
  - intros pid' q' b' i [_ Hl]%lookup_delete_Some. by apply (P3 pid' q' b' i).
  - intros i. specialize (P4 i). destruct (rd i) as [pr|]; [|done]. destruct P4 as (A1 & q' & A2 & A3). split; [done|].
    exists q'. split; [|done]. apply lookup_delete_Some. split; [|done]. intros ->. congruence.
  - intros pid' q' b' n [_ Hl]%lookup_delete_Some. by apply (P6 pid' q' b' n).
  - intros pid' q' b' d [_ Hl]%lookup_delete_Some. by apply (P7 pid' q' b' d).
  - intros p1 p2 q1 q2 [_ Hl1]%lookup_delete_Some [_ Hl2]%lookup_delete_Some. by apply (P8 p1 p2 q1 q2).
Qed.

(** Waking the sleepers. *)
Lemma wake_pinv p ps C ow rd : pinv (mk_pworld p ps) C ow rd -> pinv (mk_pworld p (wake_all ps)) C ow rd.
Proof.
  intros [P1 P2 P3 P4 P5 P6 P7 P8 P9]. cbn [w_pair w_procs] in *. unfold wake_all.
  assert (Hc : forall pid q, ((fun q => (fst q, false)) <$> ps) !! pid = Some q -> exists b, ps !! pid = Some (fst q, b) /\ snd q = false).
  { intros pid q. rewrite lookup_fmap, fmap_Some. intros ([q0 b] & Hl & ->). by exists b. }
  assert (Hk : forall pid q b, ps !! pid = Some (q, b) -> ((fun q => (fst q, false)) <$> ps) !! pid = Some (q, false)).
  { intros pid q b Hl. by rewrite lookup_fmap, Hl. }
  constructor; cbn [w_pair w_procs]; try done.
  - intros pid q b (b' & Hl & _)%Hc. by apply (P1 pid q b').
  - destruct ow as [[pw qw]|]; [|done]. destruct P2 as (A1 & A2 & A3 & A4). split_and!; try done. by apply (Hk pw qw false).
  - intros pid q b i (b' & Hl & _)%Hc. by apply (P3 pid q b' i).
  - intros i. specialize (P4 i). destruct (rd i) as [pr|]; [|done]. destruct P4 as (A1 & q' & A2 & A3). split; [done|].
    exists q'. split; [by apply (Hk pr q' false)|done].
  - intros pid q b n (b' & Hl & _)%Hc. by apply (P6 pid q b' n).
  - intros pid q b d (b' & Hl & _)%Hc. by apply (P7 pid q b' d).
  - intros p1 p2 q1 q2 (b1 & Hl1 & _)%Hc (b2 & Hl2 & _)%Hc. by apply (P8 p1 p2 _ _ Hl1 Hl2).
Qed.

(** ** Readers *)

Lemma read_enter_pinv w C ow rd pid n i p : pinv w C ow rd -> w_procs w !! pid = Some (RWait n, false) ->
  enter_read (w_pair w) = Enters (i, p) ->
  pinv (set_proc pid (RGot n i) p w) C ow (sset rd i (Some pid)).
Proof.
  intros [P1 P2 P3 P4 P5 P6 P7 P8 P9] Hpid He.
  assert (Hx : p_writing (w_pair w) = false /\ p_reading (w_pair w) i = false /\ p_valid (w_pair w) i = true /\ p = put_reading i true (w_pair w)).
  { unfold enter_read in He. destruct (p_writing (w_pair w)), (p_reading (w_pair w) false) eqn:E1, (p_reading (w_pair w) true) eqn:E2,
      (p_valid (w_pair w) false) eqn:E3, (p_valid (w_pair w) true) eqn:E4; simplify_eq/=; done. }
  destruct Hx as (Hw & Hr & Hv & ->). assert (Hrd : rd i = None).
  { specialize (P4 i). destruct (rd i); [|done]. destruct P4 as [E _]. congruence. }
  assert (ow = None) as -> by (destruct ow as [[pw qw]|]; [|done]; destruct P2 as [E _]; congruence).
  assert (Hne : forall pid' q', w_procs w !! pid' = Some (q', false) -> (exists j, reads q' = Some j) -> pid' <> pid).
  { intros pid' q' Hl [j Hj] ->. rewrite Hpid in Hl. by injection Hl as <-. }
  unfold set_proc. constructor; cbn [w_pair w_procs put_reading p_writing p_reading p_valid p_disk]; try done.
  - intros pid' q' b' [[-> [= -> ->]]|[_ Hl]]%proc_cases; [done|by apply (P1 pid' q' b')].
  - intros pid' q' b' j [[-> [= -> ->]]|[Hp Hl]]%proc_cases; [intros [= <-]; apply sset_eq|]. intros Hj.
    pose proof (P3 pid' q' b' j Hl Hj). rewrite sset_ne; [done|]. congruence.
  - intros j. destruct (decide (j = i)) as [->|Hj].
    + rewrite !sset_eq. split; [done|]. exists (RGot n i). split; [apply lookup_insert_eq|done].
    + rewrite !sset_ne by done. specialize (P4 j). destruct (rd j) as [pr|]; [|done]. destruct P4 as (A1 & q' & A2 & A3).
      split; [done|]. exists q'. split; [|done]. rewrite lookup_insert_ne; [done|]. apply not_eq_sym. by apply (Hne pr q'); [|exists j].
  - intros pid' q' b' k [[-> [= -> ->]]|[_ Hl]]%proc_cases; [intros [= <-]; by apply (P6 pid (RWait n) false)|by apply (P6 pid' q' b' k)].
  - intros pid' q' b' d [[-> [= -> ->]]|[_ Hl]]%proc_cases; [done|by apply (P7 pid' q' b' d)].
  - intros p1 p2 q1 q2 [[-> ->]|[_ Hl1]]%proc_cases [[-> ->]|[_ Hl2]]%proc_cases; try done. by apply (P8 p1 p2 q1 q2).
  - intros j Hj. cbn in Hj. apply P9. destruct (decide (j = i)) as [->|Hne']; [by left|]. by rewrite sset_ne in Hj.
Qed.

(** While a process has [reading[i]], disk [i] has the contents. *)
Lemma reader_contents w C ow rd pid q b i : pinv w C ow rd -> w_procs w !! pid = Some (q, b) -> reads q = Some i ->
  ow = None /\ agree (p_disk (w_pair w) i) C.
Proof.
  intros [P1 P2 P3 P4 P5 P6 P7 P8 P9] Hpid Hi. pose proof (P3 pid q b i Hpid Hi) as Hrd.
  assert (ow = None) as -> by (destruct ow as [[pw qw]|]; [|done]; destruct P2 as (_ & _ & _ & E); rewrite E in Hrd; done).
  split; [done|]. apply P9. right. specialize (P4 i). rewrite Hrd in P4. apply P4.
Qed.

Lemma read_block_pinv w C ow rd pid n i x : pinv w C ow rd -> w_procs w !! pid = Some (RGot n i, false) ->
  pinv (set_proc pid (RHas n i x) (w_pair w) w) C ow rd.
Proof.
  intros [P1 P2 P3 P4 P5 P6 P7 P8 P9] Hpid. unfold set_proc. constructor; cbn [w_pair w_procs]; try done.
  - intros pid' q' b' [[-> [= -> ->]]|[_ Hl]]%proc_cases; [done|by apply (P1 pid' q' b')].
  - destruct ow as [[pw qw]|]; [|done]. destruct P2 as (A1 & A2 & A3 & A4). split_and!; try done.
    rewrite lookup_insert_ne; [done|]. intros ->. rewrite Hpid in A2. by injection A2 as <-.
  - intros pid' q' b' j [[-> [= -> ->]]|[Hp Hl]]%proc_cases; [|by apply (P3 pid' q' b' j)]. intros [= <-]. by apply (P3 pid (RGot n i) false).
  - intros j. specialize (P4 j). destruct (rd j) as [pr|] eqn:Hj; [|done]. destruct P4 as (A1 & q' & A2 & A3). split; [done|].
    destruct (decide (pr = pid)) as [->|Hne]; [|exists q'; by rewrite lookup_insert_ne].
    exists (RHas n i x). rewrite lookup_insert_eq. split; [done|]. rewrite Hpid in A2. by injection A2 as <-.
  - intros pid' q' b' k [[-> [= -> ->]]|[_ Hl]]%proc_cases; [intros [= <-]; by apply (P6 pid (RGot n i) false)|by apply (P6 pid' q' b' k)].
  - intros pid' q' b' d [[-> [= -> ->]]|[_ Hl]]%proc_cases; [done|by apply (P7 pid' q' b' d)].
  - intros p1 p2 q1 q2 [[-> ->]|[_ Hl1]]%proc_cases [[-> ->]|[_ Hl2]]%proc_cases; try done. by apply (P8 p1 p2 q1 q2).
Qed.

Lemma read_end_pinv w C ow rd pid n i x : pinv w C ow rd -> w_procs w !! pid = Some (RHas n i x, false) ->
  pinv (end_proc pid (leave_read i (w_pair w)) w) C ow (sset rd i None).
Proof.
  intros I Hpid. destruct (reader_contents _ _ _ _ _ _ _ _ I Hpid eq_refl) as [-> _]. destruct I as [P1 P2 P3 P4 P5 P6 P7 P8 P9].
  apply wake_pinv. constructor; cbn [w_pair w_procs leave_read put_reading p_writing p_reading p_valid p_disk]; try done.
  - intros pid' q' b' [_ Hl]%lookup_delete_Some. by apply (P1 pid' q' b').
  - intros pid' q' b' j [Hp Hl]%lookup_delete_Some Hj. pose proof (P3 pid' q' b' j Hl Hj) as E. rewrite sset_ne; [done|].
    intros ->. rewrite (P3 pid (RHas n i x) false i Hpid eq_refl) in E. congruence.
  - intros j. destruct (decide (j = i)) as [->|Hj]; [by rewrite !sset_eq|]. rewrite !sset_ne by done. specialize (P4 j).
    destruct (rd j) as [pr|]; [|done]. destruct P4 as (A1 & q' & A2 & A3). split; [done|]. exists q'. split; [|done].
    apply lookup_delete_Some. split; [|done]. intros ->. rewrite Hpid in A2. injection A2 as <-. simpl in A3. congruence.
  - intros pid' q' b' k [_ Hl]%lookup_delete_Some. by apply (P6 pid' q' b' k).
  - intros pid' q' b' d [_ Hl]%lookup_delete_Some. by apply (P7 pid' q' b' d).
  - intros p1 p2 q1 q2 [_ Hl1]%lookup_delete_Some [_ Hl2]%lookup_delete_Some. by apply (P8 p1 p2 q1 q2).
  - intros j Hj. cbn in Hj. apply P9. destruct (decide (j = i)) as [->|Hne].
    + rewrite sset_eq in Hj. destruct Hj as [Hj|?]; [by left|done].
    + by rewrite sset_ne in Hj.
Qed.

(** ** Writers and repairs *)

Lemma enter_pinv w C ow rd pid q0 q : pinv w C ow rd -> w_procs w !! pid = Some (q0, false) -> waiting q0 ->
  p_writing (w_pair w) = false -> (forall i, p_reading (w_pair w) i = false) ->
  writes q = true -> reads q = None -> block_of q = block_of q0 -> repairs q = repairs q0 -> is_repair q = is_repair q0 ->
  contents_ok C (put_writing true (w_pair w)) (Some q) ->
  pinv (set_proc pid q (put_writing true (w_pair w)) w) C (Some (pid, q)) rd.
Proof.
  intros [P1 P2 P3 P4 P5 P6 P7 P8 P9] Hpid [Hw0 Hr0] Hw Hr Wq Rq Bq Dq Iq Hc.
  assert (ow = None) as -> by (destruct ow as [[pw qw]|]; [|done]; destruct P2 as [E _]; congruence).
  assert (Hrd : forall i, rd i = None) by (intros i; specialize (P4 i); destruct (rd i); [destruct P4 as [E _]; rewrite Hr in E|]; done).
  unfold set_proc. constructor; cbn [w_pair w_procs put_writing p_writing p_reading p_valid p_disk]; try done.
  - intros pid' q' b' [[-> [= -> ->]]|[_ Hl]]%proc_cases Hq'; [done|]. by pose proof (P1 pid' q' b' Hl Hq').
  - split_and!; try done. apply lookup_insert_eq.
  - intros pid' q' b' j [[-> [= -> ->]]|[_ Hl]]%proc_cases Hj; [congruence|by apply (P3 pid' q' b' j)].
  - intros i. specialize (P4 i). by rewrite Hrd in *.
  - intros pid' q' b' k [[-> [= -> ->]]|[_ Hl]]%proc_cases; [rewrite Bq; by apply (P6 pid q0 false)|by apply (P6 pid' q' b' k)].
  - intros pid' q' b' d [[-> [= -> ->]]|[_ Hl]]%proc_cases; [rewrite Dq; by apply (P7 pid q0 false)|by apply (P7 pid' q' b' d)].
  - intros p1 p2 q1 q2 [[-> ->]|[_ Hl1]]%proc_cases [[-> ->]|[_ Hl2]]%proc_cases; cbn [fst]; rewrite ?Iq; try done.
    + intros H1 H2. by apply (P8 pid p2 _ _ Hpid Hl2).
    + intros H1 H2. by apply (P8 p1 pid _ _ Hl1 Hpid).
    + by apply (P8 p1 p2 q1 q2).
Qed.

(** A step of the process that has [writing]. *)
Lemma writer_pinv w C ow rd pid q0 q p : pinv w C ow rd -> w_procs w !! pid = Some (q0, false) -> writes q0 = true ->
  writes q = true -> reads q = None -> block_of q = block_of q0 -> is_repair q = is_repair q0 ->
  p_writing p = true -> p_reading p = p_reading (w_pair w) -> p_valid p false = true \/ p_valid p true = true ->
  (forall d, repairs q = Some d -> p_valid p d = false) ->
  (forall d, p_valid (w_pair w) d = false -> p_valid p d = false \/ is_repair q0 = true) ->
  contents_ok C p (Some q) -> pinv (set_proc pid q p w) C (Some (pid, q)) rd.
Proof.
  intros [P1 P2 P3 P4 P5 P6 P7 P8 P9] Hpid Wq0 Wq Rq Bq Iq Hw Hr Hv Hd Hvs Hc.
  pose proof (P1 pid q0 false Hpid Wq0) as ->. destruct P2 as (_ & _ & _ & Hrd).
  unfold set_proc. constructor; cbn [w_pair w_procs]; try done.
  - intros pid' q' b' [[-> [= -> ->]]|[Hne Hl]]%proc_cases Hq'; [done|]. pose proof (P1 pid' q' b' Hl Hq'). congruence.
  - split_and!; try done. apply lookup_insert_eq.
  - intros pid' q' b' j [[-> [= -> ->]]|[_ Hl]]%proc_cases Hj; [congruence|by apply (P3 pid' q' b' j)].
  - intros i. specialize (P4 i). rewrite Hrd in *. by rewrite Hr.
  - intros pid' q' b' k [[-> [= -> ->]]|[_ Hl]]%proc_cases; [rewrite Bq; by apply (P6 pid q0 false)|by apply (P6 pid' q' b' k)].
  - intros pid' q' b' d [[-> [= -> ->]]|[Hne Hl]]%proc_cases; [by apply Hd|]. intros Hq'. destruct (Hvs d (P7 pid' q' b' d Hl Hq')) as [E|E]; [done|].
    exfalso. apply Hne. apply (P8 pid' pid _ _ Hl Hpid); [|done]. by destruct q'.
  - intros p1 p2 q1 q2 [[-> ->]|[_ Hl1]]%proc_cases [[-> ->]|[_ Hl2]]%proc_cases; cbn [fst]; rewrite ?Iq; try done.
    + intros H1 H2. by apply (P8 pid p2 _ _ Hpid Hl2).
    + intros H1 H2. by apply (P8 p1 pid _ _ Hl1 Hpid).
    + by apply (P8 p1 p2 q1 q2).
Qed.

Lemma leave_pinv w C C' ow rd pid q : pinv w C ow rd -> w_procs w !! pid = Some (q, false) -> writes q = true ->
  contents_ok C' (put_writing false (w_pair w)) None ->
  pinv (end_proc pid (leave_write (w_pair w)) w) C' None rd.
Proof.
  intros [P1 P2 P3 P4 P5 P6 P7 P8 P9] Hpid Wq Hc. pose proof (P1 pid q false Hpid Wq) as ->. destruct P2 as (_ & _ & _ & Hrd).
  apply wake_pinv. constructor; cbn [w_pair w_procs leave_write put_writing p_writing p_reading p_valid p_disk]; try done.
  - intros pid' q' b' [Hne Hl]%lookup_delete_Some Hq'. pose proof (P1 pid' q' b' Hl Hq'). congruence.
  - intros pid' q' b' j [_ Hl]%lookup_delete_Some. by apply (P3 pid' q' b' j).
  - intros i. specialize (P4 i). by rewrite Hrd in *.
  - intros pid' q' b' k [_ Hl]%lookup_delete_Some. by apply (P6 pid' q' b' k).
  - intros pid' q' b' d [_ Hl]%lookup_delete_Some. by apply (P7 pid' q' b' d).
  - intros p1 p2 q1 q2 [_ Hl1]%lookup_delete_Some [_ Hl2]%lookup_delete_Some. by apply (P8 p1 p2 q1 q2).
Qed.

(** A disk fails. *)
Lemma fail_pinv w C ow rd i : pinv w C ow rd -> p_valid (w_pair w) (negb i) = true ->
  pinv (mk_pworld (put_valid i false (w_pair w)) (w_procs w)) C ow rd.
Proof.
  intros [P1 P2 P3 P4 P5 P6 P7 P8 P9] Hv. assert (Hsub : forall j, sset (p_valid (w_pair w)) i false j = true -> p_valid (w_pair w) j = true).
  { intros j. destruct (decide (j = i)) as [->|Hne]; [by rewrite sset_eq|by rewrite sset_ne]. }
  constructor; cbn [w_pair w_procs put_valid p_writing p_reading p_valid p_disk]; try done.
  - destruct i; [left|right]; by rewrite sset_ne.
  - intros pid q b d Hl Hq. destruct (sset (p_valid (w_pair w)) i false d) eqn:E; [|done]. apply Hsub in E. by rewrite (P7 pid q b d Hl Hq) in E.
  - destruct ow as [[pw []]|]; cbn in *; try (intros j [Hj|Hj]; apply P9; auto); try (intros j Hj; apply P9; auto); try done.
    split; intros Hj; apply P9; auto.
Qed.

(** ** The pair as a register *)

(** The contents after a history, and a history in which every read returns
    the contents at its time. *)
Definition after (C : Z -> block) (es : list pevent) : Z -> block :=
  foldl (fun C e => match e with PWrite n x => bset C n x | PRead _ _ => C end) C es.
Fixpoint consistent (C : Z -> block) (es : list pevent) : Prop :=
  match es with
  | [] => True
  | PRead n x :: es => x = C n /\ consistent C es
  | PWrite n x :: es => consistent (bset C n x) es
  end.

Lemma consistent_app es1 : forall C es2, consistent C (es1 ++ es2) <-> consistent C es1 /\ consistent (after C es1) es2.
Proof.
  induction es1 as [|[n x|n x] es1 IH]; intros C es2; cbn [app consistent after foldl]; [tauto|rewrite IH; tauto|apply IH].
Qed.
Lemma after_app C es1 es2 : after C (es1 ++ es2) = after (after C es1) es2.
Proof. apply foldl_app. Qed.

Lemma write_side_facts i n x p : p_writing (write_side i n x p) = p_writing p /\ p_reading (write_side i n x p) = p_reading p /\
  p_valid (write_side i n x p) = p_valid p.
Proof. unfold write_side. by destruct (p_valid p i). Qed.
Lemma write_side_disk i n x p j : p_disk (write_side i n x p) j =
  if Bool.eqb j i && p_valid p i then bset (p_disk p i) n x else p_disk p j.
Proof.
  unfold write_side, put_block, bset. destruct (p_valid p i) eqn:E; cbn [p_disk]; unfold sset; destruct (Bool.eqb j i); done.
Qed.
Lemma agree_bset A B n x : agree A B -> agree (bset A n x) (bset B n x).
Proof. intros H k Hk. unfold bset. case_decide; [done|]. by apply H. Qed.

Lemma first_contents C p n x : contents_ok C p (Some (WGot n x)) -> contents_ok C (write_side false n x p) (Some (WHalf n x)).
Proof.
  intros H. destruct (write_side_facts false n x p) as (_ & _ & E). cbn. rewrite E, !write_side_disk. cbn.
  split; intros Hv; [rewrite Hv; apply agree_bset|]; apply H; by left.
Qed.
Lemma second_contents C p n x : contents_ok C p (Some (WHalf n x)) -> contents_ok C (write_side true n x p) (Some (WBoth n x)).
Proof.
  intros [H1 H2]. destruct (write_side_facts true n x p) as (_ & _ & E). intros i. rewrite E. rewrite write_side_disk. destruct i; cbn.
  - intros Hv. rewrite Hv. by apply agree_bset, H2.
  - apply H1.
Qed.
Lemma copy_contents C p d k : contents_ok C p (Some (FCopy d k)) -> k <= last -> contents_ok C (copy_block d k p) (Some (FCopy d (k + 1))).
Proof.
  intros (H1 & H2 & H3) Hk. cbn. unfold copy_block, put_block. cbn [p_disk p_valid]. split_and!; [|lia|].
  - rewrite sset_ne by (by destruct d). done.
  - intros n Hn Hl. rewrite sset_eq. case_decide; [subst; apply H1; lia|]. apply H3; lia.
Qed.
Lemma valid_contents C p d k : contents_ok C p (Some (FCopy d k)) -> last < k -> (forall i, p_reading p i = false) ->
  contents_ok C (put_valid d true p) (Some (FValid d)).
Proof.
  intros (H1 & H2 & H3) Hk Hr i Hv n Hn. cbn in *. rewrite Hr in Hv. destruct (decide (i = d)) as [->|Hne]; [apply H3; lia|].
  destruct (decide (i = negb d)) as [->|Hne']; [by apply H1|by destruct i, d].
Qed.

Lemma no_readers w C ow rd pid q b : pinv w C ow rd -> w_procs w !! pid = Some (q, b) -> writes q = true ->
  ow = Some (pid, q) /\ p_writing (w_pair w) = true /\ (forall i, p_reading (w_pair w) i = false) /\ contents_ok C (w_pair w) (Some q).
Proof.
  intros [P1 P2 P3 P4 P5 P6 P7 P8 P9] Hpid Wq. pose proof (P1 pid q b Hpid Wq) as ->. destruct P2 as (A1 & _ & _ & A4).
  split_and!; [done|done| |done]. intros i. specialize (P4 i). by rewrite A4 in P4.
Qed.

Lemma pstep_pinv w C ow rd es w' : pinv w C ow rd -> pstep last no_repair w es w' ->
  exists ow' rd', consistent C es /\ pinv w' (after C es) ow' rd'.
Proof.
  intros I Hs. destruct Hs as [pid n w Hp Hn|pid n w Hp He|pid n w Hp He|pid n i p w Hp He|pid n i w Hp|pid n i x w Hp
    |pid n x w Hp Hn|pid n x w Hp He|pid n x w Hp He|pid n x p w Hp He|pid n x w Hp|pid n x w Hp|pid n x w Hp
    |i w Hv|pid d w Hp Hv1 Hv2 Hno|pid d w Hp He|pid d p w Hp He|pid d k w Hp Hk|pid d k w Hp Hk|pid d w Hp].
  - exists ow, rd. split; [done|]. apply wait_pinv; try done; [by left|by intros ? [= <-]].
  - exists ow, rd. split; [done|]. by apply (refused_pinv w C ow rd pid (RWait n) false).
  - exists ow, rd. split; [done|]. apply wait_pinv; try done; [right; by exists (RWait n), false|].
    intros ? [= <-]. by apply (pi_blocks _ _ _ _ I pid (RWait n) false).
  - exists ow, (sset rd i (Some pid)). split; [done|]. by apply read_enter_pinv.
  - exists ow, rd. destruct (reader_contents _ _ _ _ _ _ _ _ I Hp eq_refl) as [_ Hag]. split.
    + cbn. split; [|done]. apply Hag. by apply (pi_blocks _ _ _ _ I pid (RGot n i) false).
    + by apply read_block_pinv.
  - exists ow, (sset rd i None). split; [done|]. by apply (read_end_pinv w C ow rd pid n i x).
  - exists ow, rd. split; [done|]. apply wait_pinv; try done; [by left|by intros ? [= <-]].
  - exists ow, rd. split; [done|]. by apply (refused_pinv w C ow rd pid (WWait n x) false).
  - exists ow, rd. split; [done|]. apply wait_pinv; try done; [right; by exists (WWait n x), false|].
    intros ? [= <-]. by apply (pi_blocks _ _ _ _ I pid (WWait n x) false).
  - unfold enter_write in He. destruct (p_writing (w_pair w)) eqn:E1, (p_reading (w_pair w) false) eqn:E2, (p_reading (w_pair w) true) eqn:E3;
      destruct (negb (p_valid (w_pair w) false) && negb (p_valid (w_pair w) true)); simplify_eq/=.
    exists (Some (pid, WGot n x)), rd. split; [done|]. apply (enter_pinv w C ow rd pid (WWait n x)); try done; [by intros []|].
    assert (ow = None) as -> by (destruct ow as [[pw qw]|]; [|done]; destruct (pi_writing _ _ _ _ I) as [E _]; congruence). apply I.
  - destruct (no_readers _ _ _ _ _ _ _ I Hp eq_refl) as (_ & W & R & Hc). destruct (write_side_facts false n x (w_pair w)) as (F1 & F2 & F3).
    exists (Some (pid, WHalf n x)), rd. split; [done|]. apply (writer_pinv w C ow rd pid (WGot n x)); rewrite ?F1, ?F2, ?F3; try done; [apply I|by left|].
    by apply first_contents.
  - destruct (no_readers _ _ _ _ _ _ _ I Hp eq_refl) as (_ & W & R & Hc). destruct (write_side_facts true n x (w_pair w)) as (F1 & F2 & F3).
    exists (Some (pid, WBoth n x)), rd. split; [done|]. apply (writer_pinv w C ow rd pid (WHalf n x)); rewrite ?F1, ?F2, ?F3; try done; [apply I|by left|].
    by apply second_contents.
  - destruct (no_readers _ _ _ _ _ _ _ I Hp eq_refl) as (_ & W & R & Hc). exists None, rd. split; [done|].
    apply (leave_pinv w C _ ow rd pid (WBoth n x)); try done. intros i [Hv|Hr]; [by apply Hc|]. cbn in Hr. by rewrite R in Hr.
  - exists ow, rd. split; [done|]. by apply fail_pinv.
  - exists ow, rd. split; [done|]. apply wait_pinv; try done; [by left|by intros ? [= <-]|]. intros _ pid' q' _ Hl. by apply (Hno pid').
  - exists ow, rd. split; [done|]. apply wait_pinv; try done; [right; by exists (FWait d), false| |].
    + intros ? [= <-]. by apply (pi_repair _ _ _ _ I pid (FWait d) false).
    + intros _ pid' q' Hne Hl. destruct (is_repair (fst q')) eqn:E; [|done]. exfalso. apply Hne. by apply (pi_one _ _ _ _ I pid' pid _ _ Hl Hp).
  - unfold enter_repair in He. destruct (p_writing (w_pair w)) eqn:E1, (p_reading (w_pair w) false) eqn:E2, (p_reading (w_pair w) true) eqn:E3; simplify_eq/=.
    exists (Some (pid, FCopy d 0)), rd. split; [done|]. apply (enter_pinv w C ow rd pid (FWait d)); try done; [by intros []|].
    assert (ow = None) as -> by (destruct ow as [[pw qw]|]; [|done]; destruct (pi_writing _ _ _ _ I) as [E _]; congruence).
    cbn. split_and!; [|done|lia]. apply (pi_contents _ _ _ _ I). left.
    pose proof (pi_repair _ _ _ _ I pid (FWait d) false d Hp eq_refl) as Hd. destruct (pi_valid _ _ _ _ I), d; cbn; congruence.
  - destruct (no_readers _ _ _ _ _ _ _ I Hp eq_refl) as (_ & W & R & Hc). exists (Some (pid, FCopy d (k + 1))), rd. split; [done|].
    apply (writer_pinv w C ow rd pid (FCopy d k)); try done; [apply I| |by left|by apply copy_contents].
    intros ? [= <-]. by apply (pi_repair _ _ _ _ I pid (FCopy d k) false).
  - destruct (no_readers _ _ _ _ _ _ _ I Hp eq_refl) as (_ & W & R & Hc). exists (Some (pid, FValid d)), rd. split; [done|].
    apply (writer_pinv w C ow rd pid (FCopy d k)); try done; [|by right|by apply (valid_contents _ _ _ k)].
    destruct d; [right|left]; apply sset_eq.
  - destruct (no_readers _ _ _ _ _ _ _ I Hp eq_refl) as (_ & W & R & Hc). exists None, rd. split; [done|].
    by apply (leave_pinv w C _ ow rd pid (FValid d)).
Qed.

(** C3: a mirrored pair is an atomic disk.  Any number of processes read and
    write blocks of the pair, one process at a time repairs a disk, and disks
    fail at any moment, as long as one of the two is left.  Then every read
    returns what the last completed write of the block stored, or the initial
    contents. *)
Theorem pair_reads_latest w C es w' :
  w_procs w = ∅ -> p_writing (w_pair w) = false -> (forall i, p_reading (w_pair w) i = false) ->
  p_valid (w_pair w) false = true \/ p_valid (w_pair w) true = true ->
  (forall i n, p_valid (w_pair w) i = true -> 0 <= n <= last -> p_disk (w_pair w) i n = C n) ->
  pruns last no_repair w es w' -> consistent C es.
Proof.
  intros Hp Hw Hr Hv Hc Hruns.
  assert (I : pinv w C None (fun _ => None)).
  { constructor; rewrite ?Hp; try done. intros i [Hi|Hi]; [|by rewrite Hr in Hi]. intros n Hn. by apply Hc. }
  enough (exists ow rd, consistent C es /\ pinv w' (after C es) ow rd) as (ow & rd & H & _) by done.
  induction Hruns as [|es es' w1 w2 _ IH Hs]; [by exists None, (fun _ => None)|].
  destruct IH as (ow & rd & H1 & I1). destruct (pstep_pinv w1 _ ow rd es' w2 I1 Hs) as (ow' & rd' & H2 & I2).
  exists ow', rd'. rewrite consistent_app, after_app. done.
Qed.
End safe.

(** * Runs of a mirrored pair

    The theorem of PairSafe.v for a write and a read during a repair, and a
    schedule of two repairs of the same disk that loses a write. *)

Lemma pruns_trans last mr w es1 w1 es2 w2 : pruns last mr w es1 w1 -> pruns last mr w1 es2 w2 -> pruns last mr w (es1 ++ es2) w2.
Proof.
  intros H1. induction 1 as [|es es' w3 w4 _ IH Hs]; [by rewrite app_nil_r|]. rewrite app_assoc. by eapply pruns_step.
Qed.

Lemma run_actions_sound last mr acts : (forall pid d, AStart pid (FWait d) ∈ acts -> forall w, mr w) ->
  forall w es w', run_actions last acts w = Some (es, w') -> pruns last mr w es w'.
Proof.
  intros Hm. induction acts as [|a acts IH]; intros w es w' Hr; cbn [run_actions] in Hr.
  - injection Hr as <- <-. constructor.
  - apply bind_Some in Hr as ([es1 w1] & H1 & ([es2 w2] & H2 & [= <- <-])%bind_Some).
    apply (pruns_trans _ _ _ _ w1).
    + apply (pruns_step _ _ w [] es1 w w1); [constructor|]. apply (run_action_sound last mr a); [|done].
      intros pid d ->. apply (Hm pid d). left.
    + apply IH; [|done]. intros pid d Hin. apply (Hm pid d). by right.
Qed.

(** Disk 0 has failed; disk 1 has the contents. *)
Definition ex_contents : Z -> block := fun _ => [1].
Definition ex_pworld : pworld :=
  mk_pworld (mk_pair false (fun _ => false) (fun i => i) (fun i _ => if i then [1] else [0])) ∅.

(** While disk 0 is repaired by process 1, process 2 writes block 0 and
    process 3 reads it, from the repaired disk. *)
Definition ex_schedule : list paction :=
  [AStart 2 (WWait 0 [2]); AStart 3 (RWait 0); ARun 1; ARun 2; ARun 3; ARun 1; ARun 1; ARun 1; ARun 2; ARun 2; ARun 2; ARun 2; ARun 3; ARun 3; ARun 3].

Lemma ex_schedule_runs : exists w', run_actions 0 ex_schedule (set_proc 1 (FWait false) (w_pair ex_pworld) ex_pworld) =
  Some ([PWrite 0 [2]; PRead 0 [2]], w').
Proof. eexists. vm_compute. reflexivity. Qed.

Lemma pair_reads_latest_witness : exists w', pruns 0 no_repair ex_pworld [PWrite 0 [2]; PRead 0 [2]] w' /\
  consistent ex_contents [PWrite 0 [2]; PRead 0 [2]].
Proof.
  destruct ex_schedule_runs as (w' & Hw).
  assert (Hr : pruns 0 no_repair ex_pworld [PWrite 0 [2]; PRead 0 [2]] w').
  { apply (pruns_trans 0 no_repair ex_pworld [] (set_proc 1 (FWait false) (w_pair ex_pworld) ex_pworld)).
    - apply (pruns_step _ _ ex_pworld [] [] ex_pworld); [constructor|]. apply ps_repair; [reflexivity|reflexivity|reflexivity|].
      intros pid q H. cbn [ex_pworld w_procs] in H. rewrite lookup_empty in H. done.
    - apply (run_actions_sound 0 no_repair ex_schedule); [|exact Hw]. intros pid d H.
      repeat (apply elem_of_cons in H as [H|H]; [discriminate H|]). by apply not_elem_of_nil in H. }
  exists w'. split; [exact Hr|].
  apply (pair_reads_latest 0 ex_pworld ex_contents [PWrite 0 [2]; PRead 0 [2]] w');
    [reflexivity|reflexivity|reflexivity|right; reflexivity|intros [] n H _; [reflexivity|discriminate H]|exact Hr].
Defined.

(** Processes 1 and 2 repair disk 0; after process 1 is done disk 1 fails and
    process 3 writes block 0; then process 2 copies disk 1. *)
Definition double_repair : list paction :=
  [AStart 1 (FWait false); AStart 2 (FWait false); ARun 1; ARun 1; ARun 1; ARun 1; AFail true; AStart 3 (WWait 0 [2]);
   ARun 3; ARun 3; ARun 3; ARun 3; ARun 2; ARun 2; ARun 2; ARun 2; AStart 4 (RWait 0); ARun 4; ARun 4].

(** two repairs of the same disk at a time can lose a completed write.
    [raidrepair] checks that the disk is not valid and that the other one is
    before it waits for the pair, and not again after.  In this run the second
    repair starts copying when the disk is already repaired and in use and the
    other one has failed: the block written in between is overwritten with
    its old contents. *)
Theorem double_repair_loses_write : exists w', pruns 0 (fun _ => True) ex_pworld [PWrite 0 [2]; PRead 0 [1]] w' /\
  ~ consistent ex_contents [PWrite 0 [2]; PRead 0 [1]].
Proof.
  assert (Hr : exists w', run_actions 0 double_repair ex_pworld = Some ([PWrite 0 [2]; PRead 0 [1]], w')).
  { eexists. vm_compute. reflexivity. }
  destruct Hr as (w' & Hw). exists w'. split; [by apply (run_actions_sound 0 _ double_repair)|]. cbn. by intros [].
Qed.
