(* ===== verification/Proc.v ===== *)
(** * Processes: kernel/proc.c

    The process table with the code of [fork], [exit], [wait], [kill],
    [sleep], [wakeup], [yield] and the scheduler, run by all processors at the
    same time.

    A processor runs the code of its process, or of its scheduler, in pieces.
    A piece that takes and releases the lock of one entry of the table is one
    step, which has to wait while that lock is held: a process holds its own
    [p->lock] from the moment it changes its state in [sleep], [yield] or
    [exit] until the scheduler it switches to releases the lock.  Loops over the
    table look at one entry per step.  [wait_lock] is held over many steps and
    is part of the state.

    A position says where a process is in this code; the position of a process
    that is not on a processor is where it goes on.  The memory, registers,
    files and current directory of a process are its image; [child] is the copy
    that [fork] makes.  Whether there is memory for a new process, and whether
    [copyout] succeeds in [wait], is an argument of the step. *)

From stdpp Require Import base numbers list gmap strings.
From Stdlib Require Import ZArith Lia.
From S2P Require Import Prelude.
Open Scope Z_scope.

Definition NPROC : Z := 64.
Definition NCPU : Z := 8.

Definition pset {A} (f : Z -> A) (k : Z) (x : A) : Z -> A := fun j => if j =? k then x else f j.

Inductive procstate := UNUSED | USED | SLEEPING | RUNNABLE | RUNNING | ZOMBIE.
#[export] Instance procstate_eq_dec : EqDecision procstate.
Proof. solve_decision. Defined.

(** What a process sleeps on: nothing, an entry of the table, or an address of
    another part of the kernel. *)
Inductive pchan := NoChan | ProcChan (k : Z) | OtherChan (a : Z).
#[export] Instance pchan_eq_dec : EqDecision pchan.
Proof. solve_decision. Defined.

(** Where a process is. *)
Inductive pos :=
| AtUser (r : Z)                     (* outside of this code; the last result *)
| InFork (k : Z)                     (* allocproc looks at entry k *)
| ForkParent (np pid : Z)            (* acquire(&wait_lock); np->parent = p *)
| ForkRun (np pid : Z)               (* np->state = RUNNABLE *)
| InExit (st : Z)                    (* acquire(&wait_lock) *)
| Reparent (st k : Z)                (* reparent looks at entry k *)
| ReparentWake (st k j : Z)          (* its wakeup(initproc) looks at entry j *)
| ExitWake (st : Z) (c : pchan) (j : Z) (* wakeup(p->parent), of c, looks at entry j *)
| ExitZombie (st : Z)
| InWait                             (* acquire(&wait_lock) *)
| WaitScan (havekids : bool) (k : Z) (* wait looks at entry k *)
| WaitEnd (havekids : bool)
| WaitSleep                          (* sleep(p, &wait_lock) *)
| InKill (pid k : Z)                 (* kill looks at entry k *)
| SleepOn (a : Z)                    (* sleep on another channel *)
| InWakeup (a j : Z)                 (* wakeup of another channel looks at entry j *)
| Switching (next : pos)             (* in swtch, holding p->lock *)
| Woken (next : pos)                 (* sleep after sched: p->chan = 0 *)
| Dead.

(** What the code outside of this file calls. *)
Inductive pcall := CFork | CExit (st : Z) | CWait | CKill (pid : Z) | CSleep (a : Z) | CWakeup (a : Z) | CSetKilled.

(** The outcome of a step: the process spins on a lock that is held, or has
    nothing to do; the kernel panics; or the state changes. *)
Inductive pstep (A : Type) := Waits | PPanics (msg : string) | Moves (s : A).
Arguments Waits {A}. Arguments PPanics {A} msg. Arguments Moves {A} s.

Section proc.
Context {I : Type} (child : I -> I).

Record pentry := mk_pentry {
  pe_state : procstate;
  pe_chan : pchan;
  pe_killed : Z;
  pe_xstate : Z;
  pe_pid : Z;
  pe_parent : option Z;
  pe_img : option I;
}.
Definition set_state x e := mk_pentry x (pe_chan e) (pe_killed e) (pe_xstate e) (pe_pid e) (pe_parent e) (pe_img e).
Definition set_chan x e := mk_pentry (pe_state e) x (pe_killed e) (pe_xstate e) (pe_pid e) (pe_parent e) (pe_img e).
Definition set_killed x e := mk_pentry (pe_state e) (pe_chan e) x (pe_xstate e) (pe_pid e) (pe_parent e) (pe_img e).
Definition set_xstate x e := mk_pentry (pe_state e) (pe_chan e) (pe_killed e) x (pe_pid e) (pe_parent e) (pe_img e).
Definition set_pid x e := mk_pentry (pe_state e) (pe_chan e) (pe_killed e) (pe_xstate e) x (pe_parent e) (pe_img e).
Definition set_parent x e := mk_pentry (pe_state e) (pe_chan e) (pe_killed e) (pe_xstate e) (pe_pid e) x (pe_img e).
Definition set_pimg x e := mk_pentry (pe_state e) (pe_chan e) (pe_killed e) (pe_xstate e) (pe_pid e) (pe_parent e) x.

Record psys := mk_psys {
  pt_proc : Z -> pentry;        (* proc *)
  pt_pos : Z -> pos;
  pt_next : Z;                  (* nextpid *)
  pt_wait : option Z;           (* the process that holds wait_lock *)
  pt_cpu : Z -> option Z;       (* cpus[c].proc *)
  pt_scan : Z -> Z;             (* the entry the scheduler of cpu c looks at *)
  pt_init : Z;                  (* initproc *)
  pt_exited : list (Z * Z);     (* process and status of every exit so far *)
  pt_reaped : list (Z * Z);     (* what wait has returned so far *)
}.
Definition put_entry k e s := mk_psys (pset (pt_proc s) k e) (pt_pos s) (pt_next s) (pt_wait s) (pt_cpu s) (pt_scan s) (pt_init s) (pt_exited s) (pt_reaped s).
Definition put_pos k x s := mk_psys (pt_proc s) (pset (pt_pos s) k x) (pt_next s) (pt_wait s) (pt_cpu s) (pt_scan s) (pt_init s) (pt_exited s) (pt_reaped s).
Definition put_next x s := mk_psys (pt_proc s) (pt_pos s) x (pt_wait s) (pt_cpu s) (pt_scan s) (pt_init s) (pt_exited s) (pt_reaped s).
Definition put_wait x s := mk_psys (pt_proc s) (pt_pos s) (pt_next s) x (pt_cpu s) (pt_scan s) (pt_init s) (pt_exited s) (pt_reaped s).
Definition put_cpu c x s := mk_psys (pt_proc s) (pt_pos s) (pt_next s) (pt_wait s) (pset (pt_cpu s) c x) (pt_scan s) (pt_init s) (pt_exited s) (pt_reaped s).
Definition put_scan c x s := mk_psys (pt_proc s) (pt_pos s) (pt_next s) (pt_wait s) (pt_cpu s) (pset (pt_scan s) c x) (pt_init s) (pt_exited s) (pt_reaped s).
Definition put_init x s := mk_psys (pt_proc s) (pt_pos s) (pt_next s) (pt_wait s) (pt_cpu s) (pt_scan s) x (pt_exited s) (pt_reaped s).
Definition add_exited x s := mk_psys (pt_proc s) (pt_pos s) (pt_next s) (pt_wait s) (pt_cpu s) (pt_scan s) (pt_init s) (pt_exited s ++ [x]) (pt_reaped s).
Definition add_reaped x s := mk_psys (pt_proc s) (pt_pos s) (pt_next s) (pt_wait s) (pt_cpu s) (pt_scan s) (pt_init s) (pt_exited s) (pt_reaped s ++ [x]).

Definition mod_entry k (f : pentry -> pentry) s := put_entry k (f (pt_proc s k)) s.
Definition state_of s k : procstate := pe_state (pt_proc s k).

(** ** One entry of the table *)

Definition freeproc (_ : pentry) : pentry := mk_pentry UNUSED NoChan 0 0 0 None None.
(** A new process in an entry that was [UNUSED]: [allocproc] and the part of
    [fork] that runs with the lock of the entry held. *)
Definition alloc_entry (pid : Z) (img : option I) (e : pentry) : pentry := set_pimg img (set_pid pid (set_state USED e)).
Definition wake_entry (c : pchan) (e : pentry) : pentry :=
  if bool_decide (pe_state e = SLEEPING) && bool_decide (pe_chan e = c) then set_state RUNNABLE e else e.
Definition kill_entry (e : pentry) : pentry :=
  let e := set_killed 1 e in if bool_decide (pe_state e = SLEEPING) then set_state RUNNABLE e else e.
Definition sleep_entry (c : pchan) (e : pentry) : pentry := set_state SLEEPING (set_chan c e).
Definition zombie_entry (st : Z) (e : pentry) : pentry := set_state ZOMBIE (set_xstate st e).

(** ** Steps *)

Definition allocpid (s : psys) : Z * psys := (pt_next s, put_next (i32 (pt_next s + 1)) s).

(** [p->lock] of an entry is held. *)
Definition locked (s : psys) (k : Z) : bool := match pt_pos s k with Switching _ => true | _ => false end.
(** A piece of code that takes the lock of entry [k]. *)
Definition with_lock (s : psys) (k : Z) (r : psys) : pstep psys := if locked s k then Waits else Moves r.
(** [acquire(&wait_lock)]. *)
Definition with_wait (s : psys) (r : psys) : pstep psys := match pt_wait s with None => Moves r | Some _ => Waits end.

(** [wakeup(c)] at entry [j], by process [p], which goes on at [next].  The
    caller holds no lock of an entry, so the test of [wakeup] for a process that
    the caller is creating is never true. *)
Definition wakeup_at (p : Z) (c : pchan) (j : Z) (next : pos) (s : psys) : pstep psys :=
  if j =? p then Moves (put_pos p next s)
  else with_lock s j (put_pos p next (mod_entry j (wake_entry c) s)).

Definition fork_at (ok : bool) (p k : Z) (s : psys) : pstep psys :=
  if NPROC <=? k then Moves (put_pos p (AtUser (-1)) s)
  else if locked s k then Waits
  else if bool_decide (state_of s k = UNUSED) then
    let (pid, s) := allocpid s in
    if ok then Moves (put_pos p (ForkParent k pid) (mod_entry k (alloc_entry pid (child <$> pe_img (pt_proc s p))) s))
    else Moves (put_pos p (AtUser (-1)) (mod_entry k freeproc s))
  else Moves (put_pos p (InFork (k + 1)) s).

(** A pointer to a process as a channel. *)
Definition chan_of (q : option Z) : pchan := match q with Some q => ProcChan q | None => NoChan end.

Definition reparent_at (p st k : Z) (s : psys) : pstep psys :=
  if NPROC <=? k then Moves (put_pos p (ExitWake st (chan_of (pe_parent (pt_proc s p))) 0) s)
  else if bool_decide (pe_parent (pt_proc s k) = Some p) then
    Moves (put_pos p (ReparentWake st k 0) (mod_entry k (set_parent (Some (pt_init s))) s))
  else Moves (put_pos p (Reparent st (k + 1)) s).

Definition wait_at (ok : bool) (p : Z) (havekids : bool) (k : Z) (s : psys) : pstep psys :=
  if NPROC <=? k then Moves (put_pos p (WaitEnd havekids) s)
  else if bool_decide (pe_parent (pt_proc s k) = Some p) then
    if locked s k then Waits
    else
      let e := pt_proc s k in
      if bool_decide (pe_state e = ZOMBIE) then
        if ok then Moves (put_wait None (put_pos p (AtUser (pe_pid e)) (add_reaped (pe_pid e, pe_xstate e) (mod_entry k freeproc s))))
        else Moves (put_wait None (put_pos p (AtUser (-1)) s))
      else Moves (put_pos p (WaitScan true (k + 1)) s)
  else Moves (put_pos p (WaitScan havekids (k + 1)) s).

Definition kill_at (p pid k : Z) (s : psys) : pstep psys :=
  if NPROC <=? k then Moves (put_pos p (AtUser (-1)) s)
  else if locked s k then Waits
  else if bool_decide (pe_pid (pt_proc s k) = pid) then Moves (put_pos p (AtUser 0) (mod_entry k kill_entry s))
  else Moves (put_pos p (InKill pid (k + 1)) s).

(** The next piece of the code of process [p]. *)
Definition run (ok : bool) (p : Z) (s : psys) : pstep psys :=
  match pt_pos s p with
  | InFork k => fork_at ok p k s
  | ForkParent np pid => with_wait s (put_pos p (ForkRun np pid) (mod_entry np (set_parent (Some p)) s))
  | ForkRun np pid => with_lock s np (put_pos p (AtUser pid) (put_pos np (AtUser 0) (mod_entry np (set_state RUNNABLE) s)))
  | InExit st => with_wait s (put_pos p (Reparent st 0) (put_wait (Some p) s))
  | Reparent st k => reparent_at p st k s
  | ReparentWake st k j =>
    if NPROC <=? j then Moves (put_pos p (Reparent st (k + 1)) s)
    else wakeup_at p (ProcChan (pt_init s)) j (ReparentWake st k (j + 1)) s
  | ExitWake st c j =>
    if NPROC <=? j then Moves (put_pos p (ExitZombie st) s) else wakeup_at p c j (ExitWake st c (j + 1)) s
  | ExitZombie st =>
    Moves (put_wait None (put_pos p (Switching Dead) (add_exited (pe_pid (pt_proc s p), st) (mod_entry p (zombie_entry st) s))))
  | InWait => with_wait s (put_pos p (WaitScan false 0) (put_wait (Some p) s))
  | WaitScan havekids k => wait_at ok p havekids k s
  | WaitEnd havekids =>
    if negb havekids || negb (pe_killed (pt_proc s p) =? 0) then Moves (put_wait None (put_pos p (AtUser (-1)) s))
    else Moves (put_pos p WaitSleep s)
  | WaitSleep => Moves (put_wait None (put_pos p (Switching (Woken InWait)) (mod_entry p (sleep_entry (ProcChan p)) s)))
  | InKill pid k => kill_at p pid k s
  | SleepOn a => Moves (put_pos p (Switching (Woken (AtUser 0))) (mod_entry p (sleep_entry (OtherChan a)) s))
  | InWakeup a j =>
    if NPROC <=? j then Moves (put_pos p (AtUser 0) s) else wakeup_at p (OtherChan a) j (InWakeup a (j + 1)) s
  | AtUser _ | Switching _ | Woken _ | Dead => Waits
  end.

(** The code outside of this file, running in process [p], calls into it. *)
Definition call_pos (c : pcall) : pos :=
  match c with
  | CFork => InFork 0
  | CExit st => InExit st
  | CWait => InWait
  | CKill pid => InKill pid 0
  | CSleep a => SleepOn a
  | CWakeup a => InWakeup a 0
  | CSetKilled => AtUser 0
  end.
Definition user_call (c : pcall) (p : Z) (s : psys) : pstep psys :=
  match pt_pos s p, c with
  | AtUser _, CExit _ => if p =? pt_init s then PPanics "init exiting" else Moves (put_pos p (call_pos c) s)
  | AtUser _, CSetKilled => Moves (put_pos p (AtUser 0) (mod_entry p (set_killed 1) s))
  | AtUser _, _ => Moves (put_pos p (call_pos c) s)
  | _, _ => Waits
  end.

(** The places where interrupts are on: the process holds no lock there. *)
Definition preemptible (x : pos) : bool :=
  match x with AtUser _ | InFork _ | ForkParent _ _ | ForkRun _ _ | InExit _ | InWait | InKill _ _ => true | _ => false end.
(** A timer interrupt at such a place: the process calls [yield]. *)
Definition yield (p : Z) (s : psys) : pstep psys :=
  if preemptible (pt_pos s p) then Moves (put_pos p (Switching (pt_pos s p)) (mod_entry p (set_state RUNNABLE) s)) else Waits.

(** The scheduler: it looks at the next entry and runs a process that is
    runnable.  The process goes on after its own call of [swtch] and releases
    its lock. *)
Definition resume (k : Z) (s : psys) : psys :=
  match pt_pos s k with Woken next => put_pos k next (mod_entry k (set_chan NoChan) s) | _ => s end.
Definition scheduler (c : Z) (s : psys) : pstep psys :=
  let k := pt_scan s c in
  if NPROC <=? k then Moves (put_scan c 0 s)
  else if locked s k then Waits
  else if bool_decide (state_of s k = RUNNABLE) then Moves (resume k (put_cpu c (Some k) (mod_entry k (set_state RUNNING) s)))
  else Moves (put_scan c (k + 1) s).
(** The process on cpu [c] has switched to the scheduler, which releases its lock. *)
Definition sched_return (c p : Z) (next : pos) (s : psys) : psys := put_scan c (p + 1) (put_cpu c None (put_pos p next s)).

(** ** The machine *)

Inductive pevent :=
| Step (c : Z) (ok : bool)     (* cpu c goes on *)
| UserCall (c : Z) (k : pcall) (* the process on cpu c makes a call *)
| Timer (c : Z)                (* a timer interrupt on cpu c *)
| Intr (k a : Z).              (* an interrupt handler wakes entry k, sleeping on a *)

Definition pexec (ev : pevent) (s : psys) : pstep psys :=
  match ev with
  | Step c ok =>
    match pt_cpu s c with
    | None => scheduler c s
    | Some p => match pt_pos s p with Switching next => Moves (sched_return c p next s) | _ => run ok p s end
    end
  | UserCall c k => match pt_cpu s c with Some p => user_call k p s | None => Waits end
  | Timer c => match pt_cpu s c with Some p => yield p s | None => Waits end
  | Intr k a => with_lock s k (mod_entry k (wake_entry (OtherChan a)) s)
  end.

(** Events of the machine: there are [NCPU] cpus and [NPROC] entries. *)
Definition pevent_ok (ev : pevent) : Prop :=
  match ev with Step c _ | UserCall c _ | Timer c => 0 <= c < NCPU | Intr k _ => 0 <= k < NPROC end.

(** ** The start *)

Definition procinit : psys :=
  mk_psys (fun _ => mk_pentry UNUSED NoChan 0 0 0 None None) (fun _ => Dead) 1 None (fun _ => None) (fun _ => 0) 0 [] [].
(** The first process: entry 0, with the image that [userinit] builds. *)
Definition userinit (img : I) : psys :=
  let (pid, s) := allocpid procinit in
  put_pos 0 (AtUser 0) (put_init 0 (mod_entry 0 (fun e => set_state RUNNABLE (alloc_entry pid (Some img) e)) s)).

Inductive preach (img : I) : psys -> Prop :=
| preach_init : preach img (userinit img)
| preach_step s ev s' : preach img s -> pevent_ok ev -> pexec ev s = Moves s' -> preach img s'.

(** A run of the machine through a list of events. *)
Fixpoint pruns (evs : list pevent) (s : psys) : option psys :=
  match evs with
  | [] => Some s
  | ev :: evs => match pexec ev s with Moves s' => pruns evs s' | _ => None end
  end.
End proc.
Arguments pentry I : clear implicits.
Arguments psys I : clear implicits.
