(* ===== verification/ProcInv.v ===== *)
(** * Processes: the invariant of the process table

    What holds between the entries of the table, the locks, the processors and
    the code each process is in, and that every step of Proc.v keeps it. *)

From stdpp Require Import base numbers list gmap strings.
From Stdlib Require Import ZArith Lia.
From S2P Require Import Prelude Proc.
Open Scope Z_scope.

Lemma pset_eq {A} (f : Z -> A) k x : pset f k x k = x.
Proof. unfold pset. by rewrite Z.eqb_refl. Qed.
Lemma pset_ne {A} (f : Z -> A) k x j : j <> k -> pset f k x j = f j.
Proof. intros Hn. unfold pset. by rewrite (proj2 (Z.eqb_neq j k)). Qed.

(** Where a process is, or will go on when it runs again. *)
Fixpoint base_pos (x : pos) : pos := match x with Switching n | Woken n => base_pos n | _ => x end.
(** The places where a process holds [wait_lock]. *)
Definition holding_wait (x : pos) : bool :=
  match x with
  | Reparent _ _ | ReparentWake _ _ _ | ExitWake _ _ _ | ExitZombie _ | WaitScan _ _ | WaitEnd _ | WaitSleep => true
  | _ => false
  end.

(** The places of a process in [exit]. *)
Definition exiting (x : pos) : bool :=
  match x with InExit _ | Reparent _ _ | ReparentWake _ _ _ | ExitWake _ _ _ | ExitZombie _ => true | _ => false end.
(** The process that [q] is creating. *)
Definition making (x : pos) : option (Z * Z) := match x with ForkParent k pid | ForkRun k pid => Some (k, pid) | _ => None end.
(** The places of a process that is on a cpu and not in [swtch]. *)
Definition active (x : pos) : bool := match x with Switching _ | Woken _ | Dead => false | _ => true end.

(** The state of an entry, where its process is, and whether it is on a cpu. *)
Definition entry_ok (st : procstate) (x : pos) (on : Prop) : Prop :=
  match x with
  | Switching n =>
    on /\ ((st = RUNNABLE /\ preemptible n = true) \/ (st = SLEEPING /\ exists m, n = Woken m /\ preemptible m = true)
           \/ (st = ZOMBIE /\ n = Dead))
  | Dead => ~ on /\ (st = UNUSED \/ st = USED \/ st = ZOMBIE)
  | Woken m => ~ on /\ (st = RUNNABLE \/ st = SLEEPING) /\ preemptible m = true
  | _ => (on /\ st = RUNNING) \/ (~ on /\ st = RUNNABLE /\ preemptible x = true)
  end.

Section inv.
Context {I : Type} (child : I -> I).
Implicit Types s : psys I.

Definition on_cpu s k : Prop := exists c, pt_cpu s c = Some k.

Definition parent_of s k : option Z := pe_parent (pt_proc s k).
Definition at_pos s k : pos := base_pos (pt_pos s k).
Definition live (st : procstate) : Prop := st = SLEEPING \/ st = RUNNABLE \/ st = RUNNING.
(** Asleep in [wait]. *)
Definition waiting s p : Prop := state_of s p = SLEEPING /\ pe_chan (pt_proc s p) = ProcChan p.
(** A child of [p] that [wait] would find. *)
Definition zombie_child s p k : Prop := parent_of s k = Some p /\ state_of s k = ZOMBIE.

(** Entries, places and cpus. *)
Record cpus_ok s : Prop := {
  co_cpu : forall c k, pt_cpu s c = Some k -> 0 <= c < NCPU /\ pt_scan s c = k;
  co_one : forall c c' k, pt_cpu s c = Some k -> pt_cpu s c' = Some k -> c = c';
  co_scan : forall c, 0 <= pt_scan s c;
  co_entry : forall k, entry_ok (state_of s k) (pt_pos s k) (on_cpu s k);
  co_out : forall k, state_of s k <> UNUSED -> 0 <= k < NPROC;
}.

(** The holder of [wait_lock]. *)
Definition wait_ok s : Prop := forall p, holding_wait (pt_pos s p) = true <-> pt_wait s = Some p.

(** Processes that are being created. *)
Record fork_ok s : Prop := {
  fo_used : forall q k pid, making (at_pos s q) = Some (k, pid) -> state_of s k = USED /\ pe_pid (pt_proc s k) = pid;
  fo_one : forall q q' k pid pid', making (at_pos s q) = Some (k, pid) -> making (at_pos s q') = Some (k, pid') -> q = q';
  fo_all : forall k, state_of s k = USED -> exists q pid, making (at_pos s q) = Some (k, pid);
  fo_new : forall q k pid, at_pos s q = ForkParent k pid -> parent_of s k = None;
  fo_set : forall q k pid, at_pos s q = ForkRun k pid -> parent_of s k = Some q;
  fo_scan : forall q i, at_pos s q = InFork i -> 0 <= i;
}.

(** Parents. *)
Record parents_ok s : Prop := {
  po_live : forall k q, parent_of s k = Some q -> state_of s k <> UNUSED /\ live (state_of s q);
  po_some : forall k, live (state_of s k) \/ state_of s k = ZOMBIE -> k <> pt_init s -> parent_of s k <> None;
  po_init : live (state_of s (pt_init s));
  po_exits : exiting (at_pos s (pt_init s)) = false;
  po_reparent : forall p st k j, pt_pos s p = Reparent st k -> j < k -> parent_of s j <> Some p;
  po_rewake : forall p st k i j, pt_pos s p = ReparentWake st k i -> j <= k -> parent_of s j <> Some p;
  po_exitwake : forall p st c i j, pt_pos s p = ExitWake st c i -> parent_of s j <> Some p;
  po_exitzombie : forall p st j, pt_pos s p = ExitZombie st -> parent_of s j <> Some p;
}.

(** Wakeups. *)
Record wakes_ok s : Prop := {
  wo_chan : forall k j, pe_chan (pt_proc s k) = ProcChan j -> j = k;
  wo_zombie : forall p k, zombie_child s p k -> waiting s p ->
    exists x st i j, pt_pos s x = ReparentWake st i j /\ p = pt_init s /\ j <= p;
  wo_exitwake : forall x st c j, pt_pos s x = ExitWake st c j ->
    c = chan_of (parent_of s x) /\ forall p, parent_of s x = Some p -> p < j -> ~ waiting s p;
  wo_exitzombie : forall x st p, pt_pos s x = ExitZombie st -> parent_of s x = Some p -> ~ waiting s p;
  wo_scan : forall p h k j, pt_pos s p = WaitScan h k -> j < k -> ~ zombie_child s p j;
  wo_end : forall p h j, pt_pos s p = WaitEnd h -> ~ zombie_child s p j;
  wo_sleep : forall p j, pt_pos s p = WaitSleep -> ~ zombie_child s p j;
}.

Record pinv s : Prop := {
  pi_cpus : cpus_ok s;
  pi_wait : wait_ok s;
  pi_fork : fork_ok s;
  pi_parents : parents_ok s;
  pi_wakes : wakes_ok s;
}.

(** ** Facts of a single state *)

Lemma running_active s p : pinv s -> on_cpu s p -> active (pt_pos s p) = true -> state_of s p = RUNNING.
Proof. intros Hi Ho Ha. pose proof (co_entry s (pi_cpus s Hi) p) as He. destruct (pt_pos s p); simpl in *; naive_solver. Qed.

Lemma locked_false s k : locked s k = false -> forall n, pt_pos s k <> Switching n.
Proof. unfold locked. intros Hl n Hn. by rewrite Hn in Hl. Qed.

Lemma base_active x : active x = true -> base_pos x = x.
Proof. by destruct x. Qed.
Lemma base_preemptible x : preemptible x = true -> base_pos x = x.
Proof. by destruct x. Qed.

Lemma holder_unique s p q : pinv s -> holding_wait (pt_pos s p) = true -> holding_wait (pt_pos s q) = true -> p = q.
Proof. intros Hi Hp%(pi_wait s Hi) Hq%(pi_wait s Hi). congruence. Qed.

Lemma live_ne st : live st -> st <> UNUSED /\ st <> USED /\ st <> ZOMBIE.
Proof. intros [->|[->| ->]]; done. Qed.

(** ** What a step changes *)

(** A step that moves no process in its code, wakes processes or hands them to
    a cpu. *)
Record quiet s s' : Prop := {
  qu_at : forall k, at_pos s' k = at_pos s k;
  qu_place : forall k, holding_wait (pt_pos s' k) = true \/ holding_wait (pt_pos s k) = true -> pt_pos s' k = pt_pos s k;
  qu_parent : forall k, parent_of s' k = parent_of s k;
  qu_pid : forall k, state_of s k = USED -> pe_pid (pt_proc s' k) = pe_pid (pt_proc s k);
  qu_state : forall k, state_of s' k = state_of s k \/ (live (state_of s k) /\ live (state_of s' k));
  qu_chan : forall k, pe_chan (pt_proc s' k) = pe_chan (pt_proc s k) \/ pe_chan (pt_proc s' k) = NoChan;
  qu_waiting : forall k, waiting s' k -> waiting s k;
  qu_rest : pt_wait s' = pt_wait s /\ pt_init s' = pt_init s;
}.
Section quiet.
Context (s s' : psys I) (Hi : pinv s) (Hq : quiet s s').

Lemma quiet_live k : live (state_of s' k) <-> live (state_of s k).
Proof. destruct (qu_state _ _ Hq k) as [->|[]]; done. Qed.
Lemma quiet_state k st : ~ live st -> state_of s' k = st <-> state_of s k = st.
Proof. intros Hn. destruct (qu_state _ _ Hq k) as [->|[]]; [done|]. split; intros <-; done. Qed.
Lemma quiet_parent k : parent_of s' k = parent_of s k.
Proof. by apply qu_parent. Qed.
Lemma quiet_zombie p k : zombie_child s' p k <-> zombie_child s p k.
Proof. unfold zombie_child. rewrite quiet_parent, quiet_state; [done|]. by intros [|[]]. Qed.
Lemma quiet_pos k x : holding_wait x = true -> pt_pos s' k = x <-> pt_pos s k = x.
Proof. intros Hx. pose proof (qu_place _ _ Hq k) as Hk. split; intros <-; [symmetry|]; eauto. Qed.
Lemma quiet_wait : wait_ok s'.
Proof.
  intros p. destruct (qu_rest _ _ Hq) as [-> _]. rewrite <- (pi_wait s Hi p). pose proof (qu_place _ _ Hq p) as Hp.
  split; intros Hh; [rewrite <- Hp|rewrite Hp]; auto.
Qed.
Lemma quiet_fork : fork_ok s'.
Proof.
  destruct (pi_fork s Hi) as [H1 H2 H3 H4 H5 H6]. assert (~ live USED) by (by intros [|[]]). split.
  - intros q k pid. rewrite (qu_at _ _ Hq), quiet_state by done. intros Hm. destruct (H1 _ _ _ Hm) as [Hu Hp]. by rewrite (qu_pid _ _ Hq).
  - intros q q' k pid pid'. rewrite !(qu_at _ _ Hq). apply H2.
  - intros k. rewrite quiet_state by done. setoid_rewrite (qu_at _ _ Hq). apply H3.
  - intros q k pid. rewrite (qu_at _ _ Hq), quiet_parent. apply H4.
  - intros q k pid. rewrite (qu_at _ _ Hq), quiet_parent. apply H5.
  - intros q i. rewrite (qu_at _ _ Hq). apply H6.
Qed.
Lemma quiet_parents : parents_ok s'.
Proof.
  destruct (pi_parents s Hi) as [H1 H2 H3 H4 H5 H6 H7 H8]. destruct (qu_rest _ _ Hq) as [_ Hn].
  split; rewrite ?Hn; intros *; rewrite ?quiet_parent, ?quiet_live, ?(qu_at _ _ Hq);
    rewrite ?quiet_pos by done; rewrite ?quiet_state by (by intros [|[]]); eauto.
Qed.
Lemma quiet_wakes : wakes_ok s'.
Proof.
  destruct (pi_wakes s Hi) as [H1 H2 H3 H4 H5 H6 H7]. destruct (qu_rest _ _ Hq) as [_ Hn].
  split; rewrite ?Hn; intros *; rewrite ?quiet_parent, ?quiet_zombie; rewrite ?quiet_pos by done; eauto using qu_waiting.
  - destruct (qu_chan _ _ Hq k) as [->| ->]; [apply H1|done].
  - intros Hz Hw%(qu_waiting _ _ Hq). destruct (H2 _ _ Hz Hw) as (x & st & i & j & Hx & Hp).
    exists x, st, i, j. by rewrite quiet_pos.
  - intros Hx. destruct (H3 _ _ _ _ Hx) as [Hc Hw]. split; [done|]. intros q Hpq Hj ?%(qu_waiting _ _ Hq). by eapply Hw.
  - intros Hx Hp ?%(qu_waiting _ _ Hq). by eapply H4.
Qed.
Lemma pinv_quiet : cpus_ok s' -> pinv s'.
Proof. split; eauto using quiet_wait, quiet_fork, quiet_parents, quiet_wakes. Qed.
End quiet.

(** Only what the table and the places are at each index matters. *)
Lemma pinv_ext s s' :
  (forall k, pt_proc s' k = pt_proc s k) -> (forall k, pt_pos s' k = pt_pos s k) -> pt_wait s' = pt_wait s ->
  pt_cpu s' = pt_cpu s -> pt_scan s' = pt_scan s -> pt_init s' = pt_init s -> pinv s -> pinv s'.
Proof.
  intros He Hp Hw Hc Hs Hn Hi.
  assert (Hst : forall k, state_of s' k = state_of s k) by (intros k; unfold state_of; by rewrite He).
  apply (pinv_quiet s); [done|split; try done|].
  - intros k. unfold at_pos. by rewrite Hp.
  - intros k. unfold parent_of. by rewrite He.
  - intros k. by rewrite He.
  - auto.
  - intros k. rewrite He. auto.
  - intros k. unfold waiting. by rewrite Hst, He.
  - destruct (pi_cpus _ Hi) as [C1 C2 C3 C4 C5].
    split; intros *; unfold on_cpu; rewrite ?Hst, ?Hp, ?Hc, ?Hs; eauto.
Qed.

(** What has to hold for process [p] to go to place [b]. *)
Definition place_ok s p (b : pos) : Prop :=
  match b with
  | InFork i => 0 <= i
  | InExit _ => p <> pt_init s
  | Reparent st k => p <> pt_init s /\ forall j, j < k -> parent_of s j <> Some p
  | ReparentWake st k i => p <> pt_init s /\ forall j, j <= k -> parent_of s j <> Some p
  | ExitWake st c i =>
    p <> pt_init s /\ (forall j, parent_of s j <> Some p) /\ c = chan_of (parent_of s p)
    /\ forall q, parent_of s p = Some q -> q < i -> ~ waiting s q
  | ExitZombie st => p <> pt_init s /\ (forall j, parent_of s j <> Some p) /\ forall q, parent_of s p = Some q -> ~ waiting s q
  | WaitScan h k => forall j, j < k -> ~ zombie_child s p j
  | WaitEnd _ | WaitSleep => forall j, ~ zombie_child s p j
  | _ => True
  end.
(** The wakeup of [initproc] that a process owes. *)
Definition owes s (x : pos) : Prop := exists st i j, x = ReparentWake st i j /\ j <= pt_init s.
(** Who holds [wait_lock] after process [p] goes from [a] to [b]. *)
Definition wait_after (w : option Z) (p : Z) (a b : pos) : option Z :=
  if holding_wait b then Some p else if holding_wait a then None else w.

Ltac views := unfold waiting, zombie_child, state_of, parent_of, at_pos, on_cpu, mod_entry in *; simpl in *; unfold pset in *.
Ltac zcase :=
  repeat match goal with
  | H : context [?x =? ?y] |- _ => destruct (Z.eqb_spec x y); subst; simpl in *
  | |- context [?x =? ?y] => destruct (Z.eqb_spec x y); subst; simpl in *
  end.

(** A process that is on a cpu goes to another place of its code. *)
Section move.
Context (s : psys I) (p : Z) (b : pos).
Context (Hi : pinv s) (Hon : on_cpu s p) (Ha : active (pt_pos s p) = true) (Hb : active b = true).
Context (Hma : making (pt_pos s p) = None) (Hmb : making b = None) (Hpl : place_ok s p b).
Let s' := put_wait (wait_after (pt_wait s) p (pt_pos s p) b) (put_pos p b s).

Lemma move_cpus : cpus_ok s'.
Proof.
  pose proof (running_active _ _ Hi Hon Ha) as Hrun. destruct (pi_cpus s Hi) as [H1 H2 H3 H4 H5].
  split; eauto. intros k. specialize (H4 k). unfold s'. views. zcase; [|done]. rewrite Hrun in *.
  destruct b; simpl in *; try done; by left.
Qed.
Lemma move_wait : (holding_wait b = true -> holding_wait (pt_pos s p) = false -> pt_wait s = None) -> wait_ok s'.
Proof.
  intros Hw q. pose proof (pi_wait s Hi) as Hwait. pose proof (Hwait p) as Hp. specialize (Hwait q).
  unfold s', wait_after. simpl. unfold pset. destruct (Z.eqb_spec q p) as [->|Hn].
  - destruct (holding_wait b), (holding_wait (pt_pos s p)); naive_solver.
  - rewrite Hwait. destruct (holding_wait b), (holding_wait (pt_pos s p)); naive_solver.
Qed.
Lemma move_at q : q <> p -> at_pos s' q = at_pos s q.
Proof. intros Hn. unfold at_pos, s'. simpl. by rewrite pset_ne. Qed.
Lemma move_at_p : at_pos s' p = b.
Proof. unfold at_pos, s'. simpl. rewrite pset_eq. by apply base_active. Qed.
Lemma move_making q k pid : making (at_pos s' q) = Some (k, pid) <-> making (at_pos s q) = Some (k, pid).
Proof.
  destruct (decide (q = p)) as [->|Hn]; [|by rewrite move_at].
  rewrite move_at_p. unfold at_pos. rewrite base_active by done. rewrite Hma, Hmb. done.
Qed.
Lemma move_fork : fork_ok s'.
Proof.
  destruct (pi_fork s Hi) as [H1 H2 H3 H4 H5 H6]. split.
  - intros q k pid. rewrite move_making. apply H1.
  - intros q q' k pid pid'. rewrite !move_making. apply H2.
  - setoid_rewrite move_making. apply H3.
  - intros q k pid. destruct (decide (q = p)) as [->|Hn]; [rewrite move_at_p; intros ->; done|]. rewrite move_at by done. apply H4.
  - intros q k pid. destruct (decide (q = p)) as [->|Hn]; [rewrite move_at_p; intros ->; done|]. rewrite move_at by done. apply H5.
  - intros q i. destruct (decide (q = p)) as [->|Hn]; [rewrite move_at_p; intros E; by rewrite E in Hpl|]. rewrite move_at by done. apply H6.
Qed.
Lemma move_parents : parents_ok s'.
Proof.
  destruct (pi_parents s Hi) as [H1 H2 H3 H4 H5 H6 H7 H8]. split; eauto.
  - destruct (decide (pt_init s = p)) as [E|Hn]; [|by rewrite move_at].
    change (pt_init s') with (pt_init s). rewrite E, move_at_p. rewrite E in *. destruct b; naive_solver.
  - intros q st k j. simpl. unfold pset. destruct (Z.eqb_spec q p) as [->|]; [intros ->; apply Hpl|apply H5].
  - intros q st k i j. simpl. unfold pset. destruct (Z.eqb_spec q p) as [->|]; [intros ->; apply Hpl|apply H6].
  - intros q st c i j. simpl. unfold pset. destruct (Z.eqb_spec q p) as [->|]; [intros ->; apply Hpl|apply H7].
  - intros q st j. simpl. unfold pset. destruct (Z.eqb_spec q p) as [->|]; [intros ->; apply Hpl|apply H8].
Qed.
Lemma move_wakes : (waiting s (pt_init s) -> owes s (pt_pos s p) -> owes s b) -> wakes_ok s'.
Proof.
  intros How. destruct (pi_wakes s Hi) as [H1 H2 H3 H4 H5 H6 H7]. split; eauto.
  - intros q k Hz Hq. destruct (H2 q k Hz Hq) as (x & st & i & j & Hx & -> & Hj).
    destruct (decide (x = p)) as [->|Hn].
    + destruct (How Hq) as (st' & i' & j' & -> & Hj'); [by rewrite Hx; do 3 eexists|].
      exists p, st', i', j'. simpl. by rewrite pset_eq.
    + exists x, st, i, j. simpl. by rewrite pset_ne.
  - intros q st c j. simpl. unfold pset. destruct (Z.eqb_spec q p) as [->|]; [intros ->; apply Hpl|apply H3].
  - intros q st j. simpl. unfold pset. destruct (Z.eqb_spec q p) as [->|]; [intros ->; apply Hpl|apply H4].
  - intros q h k j. simpl. unfold pset. destruct (Z.eqb_spec q p) as [->|]; [intros ->; apply Hpl|apply H5].
  - intros q h j. simpl. unfold pset. destruct (Z.eqb_spec q p) as [->|]; [intros ->; apply Hpl|apply H6].
  - intros q j. simpl. unfold pset. destruct (Z.eqb_spec q p) as [->|]; [intros ->; apply Hpl|apply H7].
Qed.

Lemma pinv_move :
  (holding_wait b = true -> holding_wait (pt_pos s p) = false -> pt_wait s = None) ->
  (waiting s (pt_init s) -> owes s (pt_pos s p) -> owes s b) -> pinv s'.
Proof. split; eauto using move_cpus, move_wait, move_fork, move_parents, move_wakes. Qed.
End move.

(** A process changes its state and switches to the scheduler. *)
Section switch.
Context (s : psys I) (p : Z) (e : pentry I) (n : pos).
Context (Hi : pinv s) (Hon : on_cpu s p) (Ha : active (pt_pos s p) = true).
Context (He : entry_ok (pe_state e) (Switching n) True).
Context (Hpar : pe_parent e = parent_of s p) (Hpid : pe_pid e = pe_pid (pt_proc s p)).
Context (Hbase : base_pos n = pt_pos s p \/ (making (pt_pos s p) = None /\ making (base_pos n) = None /\ forall i, base_pos n <> InFork i)).
Context (Hex : exiting (base_pos n) = true -> exiting (pt_pos s p) = true).
Context (Hz : pe_state e = ZOMBIE -> exists st, pt_pos s p = ExitZombie st).
Context (Hch : forall j, pe_chan e = ProcChan j -> j = p).
Context (Hsl : pe_state e = SLEEPING -> pe_chan e = ProcChan p -> pt_pos s p = WaitSleep).
Context (How : ~ owes s (pt_pos s p)).
Let s' := put_wait (wait_after (pt_wait s) p (pt_pos s p) (Switching n)) (put_pos p (Switching n) (put_entry p e s)).

Lemma switch_state : live (pe_state e) \/ pe_state e = ZOMBIE.
Proof. unfold live. simpl in He. naive_solver. Qed.
Lemma switch_state_ne k : k <> p -> state_of s' k = state_of s k.
Proof. intros Hn. unfold state_of. simpl. by rewrite pset_ne. Qed.
Lemma switch_state_p : state_of s' p = pe_state e.
Proof. unfold state_of. simpl. by rewrite pset_eq. Qed.
Lemma switch_parent k : parent_of s' k = parent_of s k.
Proof. unfold parent_of. simpl. unfold pset. by destruct (Z.eqb_spec k p) as [->|]. Qed.
Lemma switch_pos_ne k : k <> p -> pt_pos s' k = pt_pos s k.
Proof. intros Hn. simpl. by rewrite pset_ne. Qed.
Lemma switch_pos_p : pt_pos s' p = Switching n.
Proof. simpl. by rewrite pset_eq. Qed.
Lemma switch_place x y : pt_pos s' x = y -> holding_wait y = true -> x <> p /\ pt_pos s x = y.
Proof.
  destruct (decide (x = p)) as [->|Hn]; [rewrite switch_pos_p|rewrite switch_pos_ne by done; done]. by intros <-.
Qed.
Lemma switch_waiting q : waiting s' q -> (q <> p /\ waiting s q) \/ (q = p /\ pt_pos s p = WaitSleep).
Proof.
  unfold waiting, state_of. simpl. unfold pset. destruct (Z.eqb_spec q p) as [->|]; [|by left].
  intros [H1 H2]. right. eauto.
Qed.
Lemma switch_zombie q k : zombie_child s' q k ->
  (k <> p /\ zombie_child s q k) \/ (k = p /\ parent_of s p = Some q /\ exists st, pt_pos s p = ExitZombie st).
Proof.
  unfold zombie_child. rewrite switch_parent. destruct (decide (k = p)) as [->|Hn].
  - rewrite switch_state_p. intros [H1 H2]. right. eauto.
  - rewrite switch_state_ne by done. by left.
Qed.

Lemma switch_cpus : cpus_ok s'.
Proof.
  pose proof (running_active _ _ Hi Hon Ha) as Hrun. destruct (pi_cpus s Hi) as [H1 H2 H3 H4 H5].
  split; eauto.
  - intros k. destruct (decide (k = p)) as [->|Hn].
    + rewrite switch_state_p, switch_pos_p. simpl in *. destruct He as [_ He']. by split.
    + rewrite switch_state_ne, switch_pos_ne by done. apply H4.
  - intros k. destruct (decide (k = p)) as [->|Hn]; [intros _; apply H5; by rewrite Hrun|].
    rewrite switch_state_ne by done. apply H5.
Qed.
Lemma switch_wait : wait_ok s'.
Proof.
  intros q. pose proof (pi_wait s Hi) as Hwait. pose proof (Hwait p) as Hp. specialize (Hwait q).
  unfold s', wait_after. simpl. unfold pset. destruct (Z.eqb_spec q p) as [->|Hn].
  - simpl. destruct (holding_wait (pt_pos s p)); naive_solver.
  - rewrite Hwait. destruct (holding_wait (pt_pos s p)); naive_solver.
Qed.
Lemma switch_at q : q <> p -> at_pos s' q = at_pos s q.
Proof. intros Hn. unfold at_pos. by rewrite switch_pos_ne. Qed.
Lemma switch_making q k pid : making (at_pos s' q) = Some (k, pid) <-> making (at_pos s q) = Some (k, pid).
Proof.
  destruct (decide (q = p)) as [->|Hn]; [|by rewrite switch_at].
  unfold at_pos. rewrite switch_pos_p. rewrite (base_active (pt_pos s p)) by done. simpl.
  destruct Hbase as [->|(-> & -> & _)]; done.
Qed.
Lemma switch_made q k pid : making (at_pos s q) = Some (k, pid) -> at_pos s' q = at_pos s q.
Proof.
  destruct (decide (q = p)) as [->|Hn]; [|by rewrite switch_at].
  unfold at_pos. rewrite switch_pos_p. rewrite (base_active (pt_pos s p)) by done. simpl.
  destruct Hbase as [->|(-> & _)]; done.
Qed.
Lemma switch_fork : fork_ok s'.
Proof.
  pose proof (running_active _ _ Hi Hon Ha) as Hrun. destruct (pi_fork s Hi) as [H1 H2 H3 H4 H5 H6].
  assert (Hsm : forall q k pid, making (at_pos s' q) = Some (k, pid) -> k <> p /\ at_pos s' q = at_pos s q).
  { intros q k pid Hm%switch_making. split; [|by eapply switch_made]. intros ->.
    destruct (H1 _ _ _ Hm) as [Hu _]. congruence. }
  split.
  - intros q k pid Hm. destruct (Hsm _ _ _ Hm) as [Hk Hq]. rewrite Hq in Hm. rewrite switch_state_ne by done.
    simpl. rewrite pset_ne by done. by apply (H1 q).
  - intros q q' k pid pid'. rewrite !switch_making. apply H2.
  - intros k Hk. assert (k <> p) as Hn.
    { intros ->. rewrite switch_state_p in Hk. destruct switch_state as [[|[|]]|]; congruence. }
    rewrite switch_state_ne in Hk by done. setoid_rewrite switch_making. by apply H3.
  - intros q k pid Hq. destruct (Hsm q k pid) as [_ E]; [by rewrite Hq|]. rewrite E in Hq. rewrite switch_parent. by eapply H4.
  - intros q k pid Hq. destruct (Hsm q k pid) as [_ E]; [by rewrite Hq|]. rewrite E in Hq. rewrite switch_parent. by eapply H5.
  - intros q i. destruct (decide (q = p)) as [->|Hn]; [|rewrite switch_at by done; apply H6].
    pose proof (H6 p i) as H. unfold at_pos in *. rewrite switch_pos_p. rewrite (base_active _ Ha) in H. simpl.
    destruct Hbase as [->|(_ & _ & Hf)]; [done|]. intros E. by destruct (Hf i).
Qed.
Lemma switch_parents : parents_ok s'.
Proof.
  pose proof (running_active _ _ Hi Hon Ha) as Hrun. destruct (pi_parents s Hi) as [H1 H2 H3 H4 H5 H6 H7 H8].
  assert (Hini : forall st, pt_pos s p = ExitZombie st -> p <> pt_init s).
  { intros st Hst ->. unfold at_pos in H4. by rewrite Hst in H4. }
  split; try setoid_rewrite switch_parent; change (pt_init s') with (pt_init s).
  - intros k q Hkq. destruct (H1 k q Hkq) as [Hk Hq]. split.
    + destruct (decide (k = p)) as [->|Hn]; [|by rewrite switch_state_ne].
      rewrite switch_state_p. destruct switch_state as [[|[|]]|]; congruence.
    + destruct (decide (q = p)) as [->|Hn]; [|by rewrite switch_state_ne].
      rewrite switch_state_p. destruct switch_state as [|Hs]; [done|]. destruct (Hz Hs) as [st Hst].
      by destruct (H8 _ _ k Hst).
  - intros k Hk. apply H2. destruct (decide (k = p)) as [->|Hn]; [|by rewrite switch_state_ne in Hk].
    left. unfold live. auto.
  - destruct (decide (pt_init s = p)) as [E|Hn]; [|by rewrite switch_state_ne].
    rewrite E, switch_state_p. destruct switch_state as [|Hs]; [done|]. destruct (Hz Hs) as [st Hst]. by destruct (Hini _ Hst).
  - destruct (decide (pt_init s = p)) as [E|Hn]; [|by rewrite switch_at].
    unfold at_pos in *. rewrite E in *. rewrite switch_pos_p. simpl. rewrite (base_active _ Ha) in H4.
    destruct (exiting (base_pos n)); [by rewrite Hex in H4|done].
  - intros q st k j [_ Hq]%switch_place; [by eapply H5|done].
  - intros q st k i j [_ Hq]%switch_place; [by eapply H6|done].
  - intros q st c i j [_ Hq]%switch_place; [by eapply H7|done].
  - intros q st j [_ Hq]%switch_place; [by eapply H8|done].
Qed.
Lemma switch_wakes : wakes_ok s'.
Proof.
  destruct (pi_wakes s Hi) as [H1 H2 H3 H4 H5 H6 H7].
  assert (Hu : forall x, x <> p -> holding_wait (pt_pos s x) = true -> holding_wait (pt_pos s p) = true -> False).
  { intros x Hn Hx Hp. apply Hn. by apply (holder_unique s). }
  split.
  - intros k j. simpl. unfold pset. destruct (Z.eqb_spec k p) as [->|]; [apply Hch|apply H1].
  - intros q k [[Hk Hzk]|(-> & Hq & st & Hst)]%switch_zombie [[Hnq Hwq]|[-> Hw]]%switch_waiting.
    + destruct (H2 q k Hzk Hwq) as (x & st & i & j & Hx & Hinit & Hj). exists x, st, i, j. split; [|done].
      rewrite switch_pos_ne; [done|]. intros ->. apply How. rewrite Hx. do 3 eexists. split; [done|]. by rewrite <- Hinit.
    + by destruct (H7 _ k Hw).
    + by destruct (H4 _ _ _ Hst Hq).
    + congruence.
  - intros x st c j [Hn Hx]%switch_place; [|done]. destruct (H3 _ _ _ _ Hx) as [Hc Hw]. rewrite switch_parent. split; [done|].
    intros q Hq Hj [[_ Hwq]|[-> Hp]]%switch_waiting; [by eapply Hw|].
    apply (Hu x); [done|by rewrite Hx|by rewrite Hp].
  - intros x st q [Hn Hx]%switch_place; [|done]. rewrite switch_parent.
    intros Hq [[_ Hwq]|[-> Hp]]%switch_waiting; [by eapply H4|]. apply (Hu x); [done|by rewrite Hx|by rewrite Hp].
  - intros q h k j [Hn Hx]%switch_place Hj [[_ Hzk]|(-> & _ & st & Hst)]%switch_zombie; [by eapply H5| |done].
    apply (Hu q); [done|by rewrite Hx|by rewrite Hst].
  - intros q h j [Hn Hx]%switch_place [[_ Hzk]|(-> & _ & st & Hst)]%switch_zombie; [by eapply H6| |done].
    apply (Hu q); [done|by rewrite Hx|by rewrite Hst].
  - intros q j [Hn Hx]%switch_place [[_ Hzk]|(-> & _ & st & Hst)]%switch_zombie; [by eapply H7| |done].
    apply (Hu q); [done|by rewrite Hx|by rewrite Hst].
Qed.
Lemma pinv_switch : pinv s'.
Proof. split; eauto using switch_cpus, switch_wait, switch_fork, switch_parents, switch_wakes. Qed.
End switch.

(** ** Entries *)

Lemma entry_ok_ready x on : entry_ok SLEEPING x on -> (forall n, x <> Switching n) -> entry_ok RUNNABLE x on.
Proof. intros Hx Hn. destruct x; simpl in *; naive_solver. Qed.
(** An entry changes in nothing the invariant speaks of, or a process that is
    asleep becomes runnable. *)
Lemma pinv_entry s j e :
  pinv s -> locked s j = false ->
  pe_state e = state_of s j \/ (state_of s j = SLEEPING /\ pe_state e = RUNNABLE) ->
  pe_parent e = parent_of s j -> (state_of s j = USED -> pe_pid e = pe_pid (pt_proc s j)) ->
  pe_chan e = pe_chan (pt_proc s j) \/ pe_chan e = NoChan ->
  pinv (put_entry j e s).
Proof.
  intros Hi Hl Hs Hpar Hpid Hch. apply (pinv_quiet s); [done|split|]; try done.
  - intros k. views. by zcase.
  - intros k. views. zcase; auto.
  - intros k. unfold live. views. zcase; naive_solver.
  - intros k. views. zcase; auto.
  - intros k. views. zcase; [|auto]. intros [E Ec]. rewrite Ec in Hch. destruct Hch as [<-|]; [|done]. split; [|done].
    destruct Hs as [<-|[? Hs]]; [done|congruence].
  - destruct (pi_cpus _ Hi) as [C1 C2 C3 C4 C5]. split; try done; intros k.
    + specialize (C4 k). pose proof (locked_false _ _ Hl). views. zcase; [|done].
      destruct Hs as [->|[E ->]]; [done|]. rewrite E in C4. by apply entry_ok_ready.
    + specialize (C5 k). views. zcase; [|done]. destruct Hs as [->|[E ->]]; [done|]. intros _. apply C5. congruence.
Qed.
Lemma pinv_wake s c j : pinv s -> locked s j = false -> pinv (mod_entry j (wake_entry c) s).
Proof.
  intros Hi Hl. unfold mod_entry, wake_entry. repeat case_bool_decide; simpl; apply pinv_entry; auto.
Qed.
Lemma pinv_kill s j : pinv s -> locked s j = false -> pinv (mod_entry j kill_entry s).
Proof. intros Hi Hl. unfold mod_entry, kill_entry. case_bool_decide; apply pinv_entry; auto. Qed.

(** ** The scheduler *)

Lemma pinv_scan s c v : pinv s -> pt_cpu s c = None -> 0 <= v -> pinv (put_scan c v s).
Proof.
  intros Hi Hc Hv. apply (pinv_quiet s); [done|split|]; auto. destruct (pi_cpus _ Hi) as [C1 C2 C3 C4 C5]. split; try done.
  - intros c' k Hk. specialize (C1 c' k Hk). views. zcase; [congruence|done].
  - intros c'. views. by zcase.
Qed.

Lemma entry_ok_on st x (on on' : Prop) : (on <-> on') -> entry_ok st x on -> entry_ok st x on'.
Proof. intros E. destruct x; simpl; by rewrite E. Qed.
Lemma cpu_pset (f : Z -> option Z) c v j :
  f c <> Some j -> v <> Some j -> (exists c', f c' = Some j) <-> exists c', pset f c v c' = Some j.
Proof. intros H1 H2. unfold pset. split; intros [c' Hc]; exists c'; destruct (Z.eqb_spec c' c); congruence. Qed.
(** The place at which a process that gets a cpu goes on. *)
Definition resumed (x : pos) : pos := match x with Woken n => n | _ => x end.
Lemma entry_ok_run x on on' :
  entry_ok RUNNABLE x on -> (forall n, x <> Switching n) -> on' -> entry_ok RUNNING (resumed x) on' /\ ~ on.
Proof. intros Hx Hn Ho. destruct x as [| | | | | | | | | | | | | | | | |m|]; simpl in *; try naive_solver. destruct m; naive_solver. Qed.
Lemma resumed_base x : base_pos (resumed x) = base_pos x.
Proof. by destruct x. Qed.
Lemma resumed_holding x on : entry_ok RUNNABLE x on -> holding_wait (resumed x) = false.
Proof. destruct x as [| | | | | | | | | | | | | | | | |m|]; simpl; try naive_solver. destruct m; naive_solver. Qed.

Section dispatch.
Context (s : psys I) (c k : Z).
Let s' := resume k (put_cpu c (Some k) (mod_entry k (set_state RUNNING) s)).
Lemma dispatch_pos j : pt_pos s' j = if j =? k then resumed (pt_pos s k) else pt_pos s j.
Proof. unfold s', resume. simpl. destruct (pt_pos s k) eqn:E; views; by zcase. Qed.
Lemma dispatch_state j : state_of s' j = if j =? k then RUNNING else state_of s j.
Proof. unfold s', resume. simpl. destruct (pt_pos s k) eqn:E; views; by zcase. Qed.
Lemma dispatch_entry j : parent_of s' j = parent_of s j /\ pe_pid (pt_proc s' j) = pe_pid (pt_proc s j).
Proof. unfold s', resume. simpl. destruct (pt_pos s k) eqn:E; views; by zcase. Qed.
Lemma dispatch_chan j : pe_chan (pt_proc s' j) = pe_chan (pt_proc s j) \/ (j = k /\ pe_chan (pt_proc s' j) = NoChan).
Proof. unfold s', resume. simpl. destruct (pt_pos s k) eqn:E; views; zcase; auto. Qed.
Lemma dispatch_rest :
  pt_wait s' = pt_wait s /\ pt_init s' = pt_init s /\ pt_cpu s' = pset (pt_cpu s) c (Some k) /\ pt_scan s' = pt_scan s.
Proof. unfold s', resume. simpl. by destruct (pt_pos s k). Qed.

Lemma pinv_dispatch :
  pinv s -> 0 <= c < NCPU -> pt_cpu s c = None -> pt_scan s c = k -> locked s k = false -> state_of s k = RUNNABLE -> pinv s'.
Proof.
  intros Hi Hc Hcpu Hsc Hl Hst. pose proof (locked_false _ _ Hl) as Hnl. destruct dispatch_rest as (Rw & Ri & Rc & Rs).
  pose proof (co_entry _ (pi_cpus _ Hi) k) as Hk. rewrite Hst in Hk.
  apply (pinv_quiet s); [done|split; try done|].
  - intros j. unfold at_pos. rewrite dispatch_pos. destruct (Z.eqb_spec j k) as [->|]; [apply resumed_base|done].
  - intros j. rewrite dispatch_pos. destruct (Z.eqb_spec j k) as [->|]; [|done].
    rewrite (resumed_holding _ _ Hk). intros [|Hh]; [done|]. by destruct (pt_pos s k).
  - intros j. apply dispatch_entry.
  - intros j _. apply dispatch_entry.
  - intros j. rewrite dispatch_state. destruct (Z.eqb_spec j k) as [->|]; [|by left]. rewrite Hst. unfold live. auto.
  - intros j. destruct (dispatch_chan j) as [|[]]; auto.
  - intros j. unfold waiting. rewrite dispatch_state. destruct (Z.eqb_spec j k); [by intros [? _]|].
    by destruct (dispatch_chan j) as [->|[]].
  - destruct (pi_cpus _ Hi) as [C1 C2 C3 C4 C5]. unfold on_cpu in *.
    assert (Hoff : forall c', pt_cpu s c' <> Some k).
    { intros c' E. destruct (entry_ok_run _ _ True Hk Hnl) as [_ Hn]; [done|]. by apply Hn; exists c'. }
    split; rewrite ?Rc, ?Rs; unfold pset.
    + intros c' j. destruct (Z.eqb_spec c' c) as [->|]; [intros [= <-]|]; auto.
    + intros c1 c2 j. destruct (Z.eqb_spec c1 c) as [->|], (Z.eqb_spec c2 c) as [->|]; try done; [| |apply C2].
      * intros [= <-] E. by destruct (Hoff _ E).
      * intros E [= <-]. by destruct (Hoff _ E).
    + done.
    + intros j. rewrite dispatch_state, dispatch_pos. unfold on_cpu. rewrite Rc. destruct (Z.eqb_spec j k) as [->|Hn].
      * eapply entry_ok_run; [done|done|]. exists c. by rewrite pset_eq.
      * eapply entry_ok_on; [|apply C4]. apply cpu_pset; congruence.
    + intros j. rewrite dispatch_state. destruct (Z.eqb_spec j k) as [->|]; [|apply C5]. intros _. apply C5. by rewrite Hst.
Qed.
End dispatch.

Lemma entry_ok_off st n on on' : entry_ok st (Switching n) on -> ~ on' -> entry_ok st n on' /\ holding_wait n = false.
Proof.
  simpl. intros [_ [(-> & Hn)|[(-> & m & -> & Hm)|(-> & ->)]]] Ho; simpl; [|by auto|by auto].
  destruct n; try done; simpl; auto.
Qed.
Lemma pinv_return s c p n : pinv s -> pt_cpu s c = Some p -> pt_pos s p = Switching n -> pinv (sched_return c p n s).
Proof.
  intros Hi Hc Hp. pose proof (pi_cpus _ Hi) as [C1 C2 C3 C4 C5]. pose proof (C4 p) as Hk. rewrite Hp in Hk.
  assert (Hoff : forall c', pset (pt_cpu s) c None c' <> Some p).
  { intros c'. unfold pset. destruct (Z.eqb_spec c' c) as [->|Hn]; [done|]. intros E. by eapply Hn, C2. }
  destruct (entry_ok_off _ _ _ (on_cpu (sched_return c p n s) p) Hk) as [Hn Hh]; [intros [c' Hc']; exact (Hoff c' Hc')|].
  apply (pinv_quiet s); [done|split; try done|].
  - intros k. unfold at_pos. simpl. unfold pset. destruct (Z.eqb_spec k p) as [->|]; [by rewrite Hp|done].
  - intros k. simpl. unfold pset. destruct (Z.eqb_spec k p) as [->|]; [|done]. rewrite Hh, Hp. by intros [|].
  - auto.
  - auto.
  - split; simpl.
    + intros c' k Hk'. unfold pset in *. destruct (Z.eqb_spec c' c); [done|auto].
    + intros c1 c2 k. unfold pset. destruct (Z.eqb_spec c1 c), (Z.eqb_spec c2 c); try done. apply C2.
    + intros c'. unfold pset. destruct (Z.eqb_spec c' c); [|done]. destruct (C1 _ _ Hc) as [_ <-]. specialize (C3 c). lia.
    + intros k. destruct (decide (k = p)) as [->|Hne]; [by rewrite pset_eq|]. rewrite pset_ne by done.
      eapply entry_ok_on; [|apply C4]. apply (cpu_pset (pt_cpu s) c None); [rewrite Hc|]; congruence.
    + apply C5.
Qed.

(** ** [fork] *)

Lemma dead_entry s k : pinv s -> state_of s k = UNUSED \/ state_of s k = USED -> pt_pos s k = Dead /\ ~ on_cpu s k.
Proof.
  intros Hi Hs. pose proof (co_entry _ (pi_cpus _ Hi) k) as H.
  destruct Hs as [E|E]; rewrite E in H; destruct (pt_pos s k); simpl in *; naive_solver.
Qed.

(** A process goes on in [fork], and the entry [k] that it fills changes. *)
Section forks.
Context (s : psys I) (p k : Z) (b y : pos) (e : pentry I).
Context (Hi : pinv s) (Hon : on_cpu s p) (Ha : active (pt_pos s p) = true) (Hh : preemptible (pt_pos s p) = true).
Context (Hb : preemptible b = true) (Hx : exiting b = false).
Context (Hk : 0 <= k < NPROC) (Hold : state_of s k = UNUSED \/ state_of s k = USED).
Context (Hnew : (pe_state e = USED /\ y = Dead) \/ (pe_state e = RUNNABLE /\ y = AtUser 0)).
Context (Hpar : (pe_state e = USED /\ pe_parent e = None) \/ pe_parent e = Some p) (Hch : pe_chan e = pe_chan (pt_proc s k)).
Let s' := put_pos p b (put_pos k y (put_entry k e s)).

Lemma forks_run : state_of s p = RUNNING.
Proof. by apply running_active. Qed.
Lemma forks_ne : k <> p.
Proof. intros ->. pose proof forks_run. destruct Hold; congruence. Qed.
Lemma forks_old : pt_pos s k = Dead /\ ~ on_cpu s k.
Proof. by apply dead_entry. Qed.
Lemma forks_state j : state_of s' j = if j =? k then pe_state e else state_of s j.
Proof. views. by zcase. Qed.
Lemma forks_parent j : parent_of s' j = if j =? k then pe_parent e else parent_of s j.
Proof. views. by zcase. Qed.
Lemma forks_pos j : j <> p -> j <> k -> pt_pos s' j = pt_pos s j.
Proof. intros H1 H2. simpl. by rewrite !pset_ne. Qed.
Lemma forks_pos_p : pt_pos s' p = b.
Proof. simpl. by rewrite pset_eq. Qed.
Lemma forks_pos_k : pt_pos s' k = y.
Proof. pose proof forks_ne. simpl. by rewrite pset_ne, pset_eq. Qed.
Lemma forks_place j x : pt_pos s' j = x -> holding_wait x = true -> j <> p /\ j <> k /\ pt_pos s j = x.
Proof.
  intros Hj Hx'. destruct (decide (j = p)) as [->|Hp].
  - rewrite forks_pos_p in Hj. subst x. by destruct b.
  - destruct (decide (j = k)) as [->|Hjk]; [|by rewrite forks_pos in Hj].
    rewrite forks_pos_k in Hj. subst x. by destruct Hnew as [[_ ->]|[_ ->]].
Qed.
Lemma forks_zombie q j : zombie_child s' q j <-> zombie_child s q j.
Proof.
  unfold zombie_child. rewrite forks_state, forks_parent. destruct (Z.eqb_spec j k) as [->|]; [|done].
  destruct Hnew as [[-> _]|[-> _]], Hold as [->| ->]; split; by intros [].
Qed.
Lemma forks_waiting q : waiting s' q <-> waiting s q.
Proof.
  unfold waiting. rewrite forks_state. simpl. unfold pset. destruct (Z.eqb_spec q k) as [->|]; [|done].
  destruct Hnew as [[-> _]|[-> _]], Hold as [->| ->]; split; by intros [].
Qed.
Lemma forks_childless j : parent_of s j <> Some k.
Proof. intros Hj. destruct (po_live _ (pi_parents _ Hi) _ _ Hj) as [_ (? & ? & _)%live_ne]. by destruct Hold. Qed.

Lemma forks_cpus : cpus_ok s'.
Proof.
  destruct (pi_cpus _ Hi) as [C1 C2 C3 C4 C5]. split; try done.
  - intros j. rewrite forks_state. change (on_cpu s' j) with (on_cpu s j). destruct (Z.eqb_spec j k) as [->|Hjk].
    + rewrite forks_pos_k. destruct forks_old as [_ Hoff]. destruct Hnew as [[-> ->]|[-> ->]]; simpl; auto.
    + destruct (decide (j = p)) as [->|Hjp]; [|by rewrite forks_pos]. rewrite forks_pos_p, forks_run.
      destruct b; try done; simpl; auto.
  - intros j. rewrite forks_state. destruct (Z.eqb_spec j k) as [->|]; [done|apply C5].
Qed.
Lemma forks_wait : wait_ok s'.
Proof.
  intros q. change (pt_wait s') with (pt_wait s). rewrite <- (pi_wait _ Hi q). split.
  - intros Hq. destruct (forks_place q _ eq_refl Hq) as (_ & _ & Hp). by rewrite Hp.
  - intros Hq. rewrite forks_pos; [done| |].
    + intros ->. by destruct (pt_pos s p).
    + intros ->. by rewrite (proj1 forks_old) in Hq.
Qed.
Lemma forks_parents : parents_ok s'.
Proof.
  destruct (pi_parents _ Hi) as [H1 H2 H3 H4 H5 H6 H7 H8].
  assert (Hli : pt_init s <> k) by (intros E; rewrite E in H3; apply live_ne in H3 as (? & ? & _); by destruct Hold).
  assert (Hother : forall q j x, pt_pos s' q = x -> holding_wait x = true -> parent_of s' j = Some q -> parent_of s j = Some q).
  { intros q j x Hq Hx1. destruct (forks_place _ _ Hq Hx1) as (Hqp & _ & _). rewrite forks_parent.
    destruct (Z.eqb_spec j k) as [->|]; [|done]. destruct Hpar as [[_ ->]| ->]; [done|congruence]. }
  split; change (pt_init s') with (pt_init s).
  - intros j q. rewrite forks_parent, !forks_state. destruct (Z.eqb_spec q k) as [->|Hqk].
    + destruct (Z.eqb_spec j k); [|by intros ?%forks_childless]. pose proof forks_ne.
      destruct Hpar as [[_ ->]| ->]; [done|congruence].
    + destruct (Z.eqb_spec j k) as [->|]; [|apply H1]. intros Hjq. pose proof forks_run as Hr.
      destruct Hpar as [[_ E]|E]; [congruence|]. assert (q = p) as -> by congruence. rewrite Hr. unfold live.
      split; [|auto]. destruct Hnew as [[-> _]|[-> _]]; done.
  - intros j. rewrite forks_parent, forks_state. destruct (Z.eqb_spec j k) as [->|]; [|apply H2].
    intros Hl _. destruct Hpar as [[E _]| ->]; [|done]. rewrite E in Hl. by destruct Hl as [(_ & ? & _)%live_ne|].
  - rewrite forks_state. destruct (Z.eqb_spec (pt_init s) k); done.
  - unfold at_pos in *. destruct (decide (pt_init s = p)) as [E|Hn]; [|by rewrite forks_pos].
    rewrite E, forks_pos_p. by rewrite base_preemptible.
  - intros q st i j Hq Hj E%(Hother q j _ Hq eq_refl). destruct (forks_place _ _ Hq eq_refl) as (_ & _ & Hq'). by eapply H5.
  - intros q st i i' j Hq Hj E%(Hother q j _ Hq eq_refl). destruct (forks_place _ _ Hq eq_refl) as (_ & _ & Hq'). by eapply H6.
  - intros q st c i j Hq E%(Hother q j _ Hq eq_refl). destruct (forks_place _ _ Hq eq_refl) as (_ & _ & Hq'). by eapply H7.
  - intros q st j Hq E%(Hother q j _ Hq eq_refl). destruct (forks_place _ _ Hq eq_refl) as (_ & _ & Hq'). by eapply H8.
Qed.
Lemma forks_wakes : wakes_ok s'.
Proof.
  destruct (pi_wakes _ Hi) as [H1 H2 H3 H4 H5 H6 H7].
  assert (Hp : forall x, x <> k -> parent_of s' x = parent_of s x).
  { intros x Hxk. rewrite forks_parent. by destruct (Z.eqb_spec x k). }
  split; change (pt_init s') with (pt_init s).
  - intros j c. simpl. unfold pset. destruct (Z.eqb_spec j k) as [->|]; [rewrite Hch|]; apply H1.
  - intros q j Hz%forks_zombie Hw%forks_waiting. destruct (H2 _ _ Hz Hw) as (x & st & i & l & Hx1 & Hr).
    exists x, st, i, l. split; [|done]. rewrite forks_pos; [done| |]; intros ->; [by rewrite Hx1 in Hh|].
    by rewrite (proj1 forks_old) in Hx1.
  - intros x st c j Hx1. destruct (forks_place _ _ Hx1 eq_refl) as (_ & Hxk & Hx2). rewrite Hp by done.
    destruct (H3 _ _ _ _ Hx2) as [Hc Hw]. split; [done|]. intros q Hq Hj ?%forks_waiting. by eapply Hw.
  - intros x st q Hx1. destruct (forks_place _ _ Hx1 eq_refl) as (_ & Hxk & Hx2). rewrite Hp by done.
    intros Hq ?%forks_waiting. by eapply H4.
  - intros q h i j Hq Hj ?%forks_zombie. destruct (forks_place _ _ Hq eq_refl) as (_ & _ & Hq'). by eapply H5.
  - intros q h j Hq ?%forks_zombie. destruct (forks_place _ _ Hq eq_refl) as (_ & _ & Hq'). by eapply H6.
  - intros q j Hq ?%forks_zombie. destruct (forks_place _ _ Hq eq_refl) as (_ & _ & Hq'). by eapply H7.
Qed.

(** The entry that [p] is creating, before and after the step. *)
Context (Hold_p : making (pt_pos s p) = None /\ state_of s k = UNUSED \/ exists pid, making (pt_pos s p) = Some (k, pid)).
Context (Hnew_p : making b = None /\ pe_state e <> USED \/ making b = Some (k, pe_pid e) /\ pe_state e = USED).
Context (Hpar_p : (forall i pid, b = ForkParent i pid -> pe_parent e = None) /\ (forall i pid, b = ForkRun i pid -> pe_parent e = Some p)).
Context (Hscan_p : forall i, b <> InFork i).

Lemma forks_at q x : making x <> None -> q <> p -> at_pos s' q = x <-> at_pos s q = x.
Proof.
  intros Hx1 Hq. unfold at_pos. destruct (decide (q = k)) as [->|Hk1]; [|by rewrite forks_pos].
  rewrite forks_pos_k, (proj1 forks_old). simpl. split; intros <-; [|done]. exfalso. apply Hx1.
  by destruct Hnew as [[_ ->]|[_ ->]].
Qed.
Lemma forks_other q pid : q <> p -> making (at_pos s q) <> Some (k, pid).
Proof.
  intros Hq Hm. destruct (pi_fork _ Hi) as [H1 H2 _ _ _ _]. destruct Hold_p as [[_ E]|[pid' Hp]].
  - destruct (H1 _ _ _ Hm). congruence.
  - apply Hq. eapply H2; [done|]. unfold at_pos. by rewrite base_active.
Qed.
Lemma forks_fork : fork_ok s'.
Proof.
  destruct (pi_fork _ Hi) as [H1 H2 H3 H4 H5 H6].
  assert (Hap : at_pos s' p = b) by (unfold at_pos; rewrite forks_pos_p; by apply base_preemptible).
  assert (Hop : at_pos s p = pt_pos s p) by (unfold at_pos; by apply base_active).
  assert (Hm : forall q i pid, making (at_pos s' q) = Some (i, pid) ->
    (q = p /\ i = k /\ pid = pe_pid e /\ pe_state e = USED) \/ (q <> p /\ i <> k /\ at_pos s' q = at_pos s q)).
  { intros q i pid Hq. destruct (decide (q = p)) as [->|Hn].
    - left. rewrite Hap in Hq. destruct Hnew_p as [[E _]|[E Hu]]; rewrite E in Hq; [done|]. by injection Hq as <- <-.
    - right. assert (E : at_pos s' q = at_pos s q) by (symmetry; eapply forks_at; [by rewrite Hq|done|done]).
      split; [done|]. split; [|done]. intros ->. rewrite E in Hq. by eapply forks_other. }
  split.
  - intros q i pid Hq. rewrite forks_state. destruct (Hm _ _ _ Hq) as [(-> & -> & -> & Hu)|(Hqp & Hik & E)]; simpl.
    + by rewrite Z.eqb_refl, pset_eq.
    + rewrite E in Hq. rewrite pset_ne by done. destruct (Z.eqb_spec i k); [done|]. by apply (H1 q).
  - intros q q' i pid pid' Hq Hq'. destruct (Hm _ _ _ Hq) as [(-> & -> & _)|(? & ? & E)], (Hm _ _ _ Hq') as [(-> & ? & _)|(? & ? & E')]; try done.
    rewrite E in Hq. rewrite E' in Hq'. by eapply H2.
  - intros i. rewrite forks_state. destruct (Z.eqb_spec i k) as [->|Hik].
    + intros Hu. exists p, (pe_pid e). rewrite Hap. by destruct Hnew_p as [[_ ?]|[? _]].
    + intros (q & pid & Hq)%H3. exists q, pid. destruct (decide (q = p)) as [->|Hn].
      * rewrite Hop in Hq. destruct Hold_p as [[E _]|[pid' E]]; rewrite E in Hq; [done|congruence].
      * assert (E : at_pos s' q = at_pos s q) by (apply forks_at; [by rewrite Hq|done|done]). by rewrite E.
  - intros q i pid Hq. rewrite forks_parent. destruct (Hm q i pid) as [(-> & -> & _)|(Hn & Hik & E)]; [by rewrite Hq| |].
    + rewrite Z.eqb_refl. rewrite Hap in Hq. by eapply Hpar_p.
    + rewrite E in Hq. destruct (Z.eqb_spec i k); [done|]. by eapply H4.
  - intros q i pid Hq. rewrite forks_parent. destruct (Hm q i pid) as [(-> & -> & _)|(Hn & Hik & E)]; [by rewrite Hq| |].
    + rewrite Z.eqb_refl. rewrite Hap in Hq. by eapply Hpar_p.
    + rewrite E in Hq. destruct (Z.eqb_spec i k); [done|]. by eapply H5.
  - intros q i Hq. destruct (decide (q = p)) as [->|Hn]; [rewrite Hap in Hq; by destruct (Hscan_p i)|].
    apply (H6 q). unfold at_pos in *. destruct (decide (q = k)) as [->|Hk1]; [|by rewrite forks_pos in Hq].
    rewrite forks_pos_k in Hq. by destruct Hnew as [[_ ->]|[_ ->]].
Qed.
Lemma pinv_forks : pinv s'.
Proof. split; eauto using forks_cpus, forks_wait, forks_fork, forks_parents, forks_wakes. Qed.
End forks.

(** ** [wait] frees a child *)

Section free.
Context (s : psys I) (k : Z) (Hi : pinv s) (Hz : state_of s k = ZOMBIE) (Hl : locked s k = false).
Let s' := mod_entry k freeproc s.

Lemma free_state j : state_of s' j = if j =? k then UNUSED else state_of s j.
Proof. views. by zcase. Qed.
Lemma free_parent j : parent_of s' j = if j =? k then None else parent_of s j.
Proof. views. by zcase. Qed.
Lemma free_parent_some j q : parent_of s' j = Some q -> j <> k /\ parent_of s j = Some q.
Proof. rewrite free_parent. by destruct (Z.eqb_spec j k). Qed.
Lemma free_dead : pt_pos s k = Dead /\ ~ on_cpu s k.
Proof.
  pose proof (co_entry _ (pi_cpus _ Hi) k) as H. pose proof (locked_false _ _ Hl). rewrite Hz in H.
  destruct (pt_pos s k); simpl in *; naive_solver.
Qed.
Lemma free_waiting p : waiting s' p -> waiting s p.
Proof.
  unfold waiting. rewrite free_state. simpl. unfold pset. destruct (Z.eqb_spec p k); [by intros []|done].
Qed.
Lemma free_zombie p j : zombie_child s' p j -> zombie_child s p j.
Proof.
  intros [(Hj & Hp)%free_parent_some Hs]. split; [done|]. rewrite free_state in Hs. by destruct (Z.eqb_spec j k).
Qed.
Lemma free_fork : fork_ok s'.
Proof.
  destruct (pi_fork _ Hi) as [H1 H2 H3 H4 H5 H6].
  assert (Hn : forall q i pid, making (at_pos s q) = Some (i, pid) -> i <> k) by (intros q i pid [? _]%H1 ->; congruence).
  split.
  - intros q i pid Hq. pose proof (Hn _ _ _ Hq). rewrite free_state. simpl. rewrite pset_ne by done.
    destruct (Z.eqb_spec i k); [done|]. by apply (H1 q).
  - apply H2.
  - intros i. rewrite free_state. destruct (Z.eqb_spec i k); [done|]. apply H3.
  - intros q i pid Hq. rewrite free_parent. destruct (Z.eqb_spec i k); [done|]. by eapply H4.
  - intros q i pid Hq. rewrite free_parent. destruct (Z.eqb_spec i k) as [->|]; [|by eapply H5].
    change (at_pos s q = ForkRun k pid) in Hq. destruct (Hn q k pid); [by rewrite Hq|done].
  - apply H6.
Qed.
Lemma free_parents : parents_ok s'.
Proof.
  destruct (pi_parents _ Hi) as [H1 H2 H3 H4 H5 H6 H7 H8].
  assert (Hli : pt_init s <> k) by (intros E; rewrite E, Hz in H3; by apply live_ne in H3 as (? & ? & ?)).
  split; try done.
  - intros j q (Hj & Hp)%free_parent_some. destruct (H1 _ _ Hp) as [Hs Hq]. rewrite !free_state.
    destruct (Z.eqb_spec j k); [done|]. destruct (Z.eqb_spec q k) as [->|]; [|done].
    rewrite Hz in Hq. by apply live_ne in Hq as (? & ? & ?).
  - intros j. rewrite free_state, free_parent. destruct (Z.eqb_spec j k); [|apply H2].
    intros [H|H]; [by apply live_ne in H as (? & ? & ?)|done].
  - rewrite free_state. simpl. by destruct (Z.eqb_spec (pt_init s) k).
  - intros p st i j Hp Hj (_ & E)%free_parent_some. by eapply H5.
  - intros p st i i' j Hp Hj (_ & E)%free_parent_some. by eapply H6.
  - intros p st c i j Hp (_ & E)%free_parent_some. by eapply H7.
  - intros p st j Hp (_ & E)%free_parent_some. by eapply H8.
Qed.
Lemma free_wakes : wakes_ok s'.
Proof.
  destruct (pi_wakes _ Hi) as [H1 H2 H3 H4 H5 H6 H7].
  assert (Hx : forall x st c j, pt_pos s x = ExitWake st c j \/ pt_pos s x = ExitZombie st -> x <> k).
  { intros x st c j H ->. rewrite (proj1 free_dead) in H. by destruct H. }
  split.
  - intros j c. simpl. unfold pset. destruct (Z.eqb_spec j k); [done|apply H1].
  - intros p j ?%free_zombie ?%free_waiting. eauto.
  - intros x st c j H. change (pt_pos s x = ExitWake st c j) in H. destruct (H3 _ _ _ _ H) as [Hc Hw].
    rewrite free_parent. destruct (Z.eqb_spec x k) as [->|]; [by destruct (Hx k st c j (or_introl H))|].
    split; [done|]. intros p Hp Hj ?%free_waiting. by eapply Hw.
  - intros x st p H (_ & Hp)%free_parent_some ?%free_waiting. by eapply H4.
  - intros p h i j Hp Hj ?%free_zombie. by eapply H5.
  - intros p h j Hp ?%free_zombie. by eapply H6.
  - intros p j Hp ?%free_zombie. by eapply H7.
Qed.
Lemma pinv_free : pinv s'.
Proof.
  split; eauto using free_fork, free_parents, free_wakes; [|apply Hi]. destruct (pi_cpus _ Hi) as [C1 C2 C3 C4 C5].
  split; try done; intros j; rewrite free_state; destruct (Z.eqb_spec j k) as [->|]; try done; [|apply C5].
  destruct free_dead as [Hd Ho]. simpl. rewrite Hd. simpl. auto.
Qed.
End free.

(** ** [reparent] gives a child to the first process *)

Lemma pinv_give s p k st i :
  pinv s -> pt_pos s p = ReparentWake st i 0 -> parent_of s k = Some p -> pinv (mod_entry k (set_parent (Some (pt_init s))) s).
Proof.
  intros Hi Hp Hk. set (s' := mod_entry _ _ _).
  assert (Hst : forall j, state_of s' j = state_of s j) by (intros j; views; by zcase).
  assert (Hpa : forall j q, parent_of s' j = Some q -> (j = k /\ q = pt_init s) \/ parent_of s j = Some q).
  { intros j q. views. zcase; [|auto]. intros [= <-]. auto. }
  assert (Hpn : forall j, parent_of s' j = None <-> parent_of s j = None) by (intros j; views; zcase; [rewrite Hk; done|done]).
  assert (Hwt : forall q, waiting s' q <-> waiting s q) by (intros q; views; by zcase).
  assert (Hh : forall x y, pt_pos s x = y -> holding_wait y = true -> x = p).
  { intros x y Hx Hy. apply (holder_unique s); [done|by rewrite Hx|by rewrite Hp]. }
  destruct Hi as [[C1 C2 C3 C4 C5] Hwait [F1 F2 F3 F4 F5 F6] [P1 P2 P3 P4 P5 P6 P7 P8] [W1 W2 W3 W4 W5 W6 W7]].
  assert (Hin : forall q x, pt_pos s q = x -> exiting x = true -> base_pos x = x -> q <> pt_init s).
  { intros q x Hq Hx Hb ->. unfold at_pos in P4. rewrite Hq, Hb in P4. congruence. }
  split; [split|done|split|split|split]; try done; try (intros *; rewrite ?Hst; eauto; fail).
  - intros q j pid Hq. rewrite Hst. destruct (F1 _ _ _ Hq). views. by zcase.
  - intros q j pid Hq. rewrite Hpn. by eapply F4.
  - intros q j pid Hq. pose proof (F5 _ _ _ Hq) as E. views. zcase; [|done]. rewrite Hk in E. injection E as ->.
    by rewrite Hp in Hq.
  - intros j q [[-> ->]|E]%Hpa; rewrite !Hst; [|by apply P1]. split; [|done]. by apply (P1 k p).
  - intros j. rewrite Hst, Hpn. apply P2.
  - intros q st' l j Hq Hj [[_ E]|E]%Hpa; [by eapply Hin|by eapply P5].
  - intros q st' l m j Hq Hj [[_ E]|E]%Hpa; [by eapply Hin|by eapply P6].
  - intros q st' c l j Hq [[_ E]|E]%Hpa; [by eapply Hin|by eapply P7].
  - intros q st' j Hq [[_ E]|E]%Hpa; [by eapply Hin|by eapply P8].
  - intros j c. views. zcase; apply W1.
  - intros q j [[[-> ->]|E]%Hpa Hj] Hw%Hwt; rewrite Hst in Hj; [|by apply (W2 q j)].
    exists p, st, i, 0. split; [done|]. split; [done|]. apply C5. by apply live_ne in P3 as [? _].
  - intros x st' c j Hx. rewrite (Hh _ _ Hx eq_refl) in Hx. simpl in Hx. congruence.
  - intros x st' q Hx. rewrite (Hh _ _ Hx eq_refl) in Hx. simpl in Hx. congruence.
  - intros x h l j Hx. rewrite (Hh _ _ Hx eq_refl) in Hx. simpl in Hx. congruence.
  - intros x h j Hx. rewrite (Hh _ _ Hx eq_refl) in Hx. simpl in Hx. congruence.
  - intros x j Hx. rewrite (Hh _ _ Hx eq_refl) in Hx. simpl in Hx. congruence.
Qed.

(** ** Steps of a process *)

Lemma pinv_same s p a b :
  pinv s -> on_cpu s p -> pt_pos s p = a -> active a = true -> active b = true -> making a = None -> making b = None ->
  holding_wait a = holding_wait b -> place_ok s p b -> (waiting s (pt_init s) -> owes s a -> owes s b) -> pinv (put_pos p b s).
Proof.
  intros Hi Ho <- Ha Hb Hma Hmb Hh Hpl How. pose proof (pinv_move s p b Hi Ho Ha Hb Hma Hmb Hpl) as H.
  replace (wait_after _ _ _ _) with (pt_wait s) in H; [apply H; [congruence|done]|].
  unfold wait_after. rewrite <- Hh. destruct (holding_wait (pt_pos s p)) eqn:E; [|done]. by apply (pi_wait _ Hi).
Qed.
Lemma pinv_acquire s p a b :
  pinv s -> on_cpu s p -> pt_pos s p = a -> active a = true -> active b = true -> making a = None -> making b = None ->
  holding_wait a = false -> holding_wait b = true -> pt_wait s = None -> place_ok s p b -> (owes s a -> owes s b) ->
  pinv (put_pos p b (put_wait (Some p) s)).
Proof.
  intros Hi Ho <- Ha Hb Hma Hmb Hh1 Hh2 Hw Hpl How. pose proof (pinv_move s p b Hi Ho Ha Hb Hma Hmb Hpl) as H.
  unfold wait_after in H. rewrite Hh2 in H. by apply H.
Qed.
Lemma pinv_release s p a b :
  pinv s -> on_cpu s p -> pt_pos s p = a -> active a = true -> active b = true -> making a = None -> making b = None ->
  holding_wait a = true -> holding_wait b = false -> place_ok s p b -> ~ owes s a ->
  pinv (put_wait None (put_pos p b s)).
Proof.
  intros Hi Ho <- Ha Hb Hma Hmb Hh1 Hh2 Hpl How. pose proof (pinv_move s p b Hi Ho Ha Hb Hma Hmb Hpl) as H.
  unfold wait_after in H. rewrite Hh1, Hh2 in H. by apply H.
Qed.
Lemma owes_only s x : owes s x -> exists st i j, x = ReparentWake st i j.
Proof. intros (st & i & j & -> & _). eauto. Qed.

Ltac no_debt :=
  unfold not; intros; match goal with H : owes _ _ |- _ => destruct (owes_only _ _ H) as (? & ? & ? & ?); discriminate end.
Ltac same_place Hp := eapply pinv_same; [eassumption|eassumption|exact Hp|reflexivity..|try done|try no_debt].

Lemma dead_pos s p b k e :
  p <> k -> pt_pos s k = Dead -> pinv (put_pos p b (put_pos k Dead (put_entry k e s))) -> pinv (put_pos p b (put_entry k e s)).
Proof.
  intros Hn Hk. apply pinv_ext; try done. intros j. simpl. unfold pset.
  destruct (Z.eqb_spec j p); [done|]. by destruct (Z.eqb_spec j k) as [->|].
Qed.
Lemma free_orphan s k : pinv s -> state_of s k = UNUSED -> parent_of s k = None.
Proof.
  intros Hi Hk. destruct (parent_of s k) eqn:E; [|done]. by destruct (po_live _ (pi_parents _ Hi) _ _ E).
Qed.

Lemma locked_put s p b k : locked s k = false -> active b = true -> locked (put_pos p b s) k = false.
Proof. unfold locked. simpl. unfold pset. intros Hl Hb. destruct (Z.eqb_spec k p); [by destruct b|done]. Qed.

Lemma step_fork s p k ok s' :
  pinv s -> on_cpu s p -> pt_pos s p = InFork k -> fork_at child ok p k s = Moves s' -> pinv s'.
Proof.
  intros Hi Ho Hp. assert (Hk : 0 <= k) by (apply (fo_scan _ (pi_fork _ Hi) p); unfold at_pos; by rewrite Hp).
  assert (Ha : active (pt_pos s p) = true) by (by rewrite Hp).
  unfold fork_at. case_match eqn:E1; [|case_match eqn:E2; [done|case_bool_decide as E3; [simpl; destruct ok|]]]; intros [= <-].
  - same_place Hp.
  - apply Z.leb_gt in E1. pose proof (running_active _ _ Hi Ho Ha) as Hr. apply (pinv_ext (put_pos p (ForkParent k (pt_next s)) (put_entry k (alloc_entry (pt_next s) (child <$> pe_img (pt_proc s p)) (pt_proc s k)) s))); try done.
    pose proof (free_orphan _ _ Hi E3) as Hpar.
    apply dead_pos; [intros ->; congruence|by apply dead_entry; auto|].
    apply pinv_forks; auto; rewrite ?Hp; simpl; auto; try done.
  - apply (pinv_ext (mod_entry k freeproc (put_pos p (AtUser (-1)) s))); try done.
    apply pinv_entry; auto; [same_place Hp|by apply locked_put|symmetry; exact (free_orphan s k Hi E3)|].
    intros E. unfold state_of in *. simpl in E. congruence.
  - same_place Hp. simpl. lia.
Qed.

Lemma step_fork_parent s p np pid s' :
  pinv s -> on_cpu s p -> pt_pos s p = ForkParent np pid ->
  with_wait s (put_pos p (ForkRun np pid) (mod_entry np (set_parent (Some p)) s)) = Moves s' -> pinv s'.
Proof.
  intros Hi Ho Hp. unfold with_wait. case_match; [done|]. intros [= <-].
  assert (Ha : active (pt_pos s p) = true) by (by rewrite Hp). pose proof (running_active _ _ Hi Ho Ha) as Hr.
  destruct (fo_used _ (pi_fork _ Hi) p np pid) as [Hu Hpid]; [unfold at_pos; by rewrite Hp|].
  apply dead_pos; [intros ->; congruence|apply dead_entry; auto|].
  apply pinv_forks; auto; rewrite ?Hp; simpl; eauto; try done.
  - apply (co_out _ (pi_cpus _ Hi)). congruence.
  - rewrite Hpid. auto.
Qed.
Lemma step_fork_run s p np pid s' :
  pinv s -> on_cpu s p -> pt_pos s p = ForkRun np pid ->
  with_lock s np (put_pos p (AtUser pid) (put_pos np (AtUser 0) (mod_entry np (set_state RUNNABLE) s))) = Moves s' -> pinv s'.
Proof.
  intros Hi Ho Hp. unfold with_lock. case_match; [done|]. intros [= <-].
  assert (Ha : active (pt_pos s p) = true) by (by rewrite Hp).
  assert (Hat : at_pos s p = ForkRun np pid) by (unfold at_pos; by rewrite Hp).
  destruct (fo_used _ (pi_fork _ Hi) p np pid) as [Hu Hpid]; [by rewrite Hat|].
  pose proof (fo_set _ (pi_fork _ Hi) _ _ _ Hat) as Hpar.
  apply pinv_forks; auto; rewrite ?Hp; simpl; eauto; try done.
  - apply (co_out _ (pi_cpus _ Hi)). congruence.
Qed.

Lemma wake_waiting s c j q : waiting (mod_entry j (wake_entry c) s) q -> waiting s q.
Proof. unfold wake_entry. views. zcase; [|done]. repeat case_bool_decide; simpl; by intros []. Qed.
Lemma wake_not_waiting s j : ~ waiting (mod_entry j (wake_entry (ProcChan j)) s) j.
Proof. unfold wake_entry. views. zcase; [|done]. repeat case_bool_decide; simpl; intros []; naive_solver. Qed.
Lemma wake_parent s c j q : parent_of (mod_entry j (wake_entry c) s) q = parent_of s q.
Proof. unfold wake_entry. views. zcase; [|done]. by repeat case_bool_decide. Qed.

(** One entry of a [wakeup] by process [p] at [a], which goes on at [b]. *)
Lemma step_wakeup s p c j a b s' :
  pinv s -> on_cpu s p -> pt_pos s p = a -> active a = true -> active b = true -> making a = None -> making b = None ->
  holding_wait a = holding_wait b ->
  (j = p -> place_ok s p b /\ (owes s a -> owes s b)) ->
  (let s1 := mod_entry j (wake_entry c) s in place_ok s1 p b /\ (waiting s1 (pt_init s) -> owes s a -> owes s b)) ->
  wakeup_at p c j b s = Moves s' -> pinv s'.
Proof.
  intros Hi Ho Hp Ha Hb Hma Hmb Hh H1 H2. unfold wakeup_at, with_lock. destruct (Z.eqb_spec j p) as [->|Hn].
  - intros [= <-]. destruct (H1 eq_refl). by eapply pinv_same.
  - case_match eqn:El; [done|]. intros [= <-]. destruct H2. eapply pinv_same; eauto. by apply pinv_wake.
Qed.

(** A process in [exit] is not the first one. *)
Lemma exiting_init s p : pinv s -> active (pt_pos s p) = true -> exiting (pt_pos s p) = true -> p <> pt_init s.
Proof.
  intros Hi Ha He ->. pose proof (po_exits _ (pi_parents _ Hi)) as H. unfold at_pos in H.
  rewrite base_active in H by done. congruence.
Qed.
Lemma init_range s : pinv s -> 0 <= pt_init s < NPROC.
Proof. intros Hi. apply (co_out _ (pi_cpus _ Hi)). by destruct (live_ne _ (po_init _ (pi_parents _ Hi))). Qed.
Lemma parent_range s k q : pinv s -> parent_of s k = Some q -> 0 <= k < NPROC /\ 0 <= q < NPROC.
Proof.
  intros Hi Hk. destruct (po_live _ (pi_parents _ Hi) _ _ Hk) as [H1 [H2 _]%live_ne].
  split; by apply (co_out _ (pi_cpus _ Hi)).
Qed.

Lemma step_reparent s p st k s' :
  pinv s -> on_cpu s p -> pt_pos s p = Reparent st k -> reparent_at p st k s = Moves s' -> pinv s'.
Proof.
  intros Hi Ho Hp. pose proof (fun j => po_reparent _ (pi_parents _ Hi) _ _ _ j Hp) as Hno.
  assert (Hni : p <> pt_init s) by (apply exiting_init; [done|by rewrite Hp..]).
  unfold reparent_at. case_match eqn:E1; [|case_bool_decide as E2]; intros [= <-].
  - same_place Hp. simpl. apply Z.leb_le in E1.
    assert (Hnone : forall j, parent_of s j <> Some p).
    { intros j Hj. destruct (parent_range _ _ _ Hi Hj) as [Hr _]. apply (Hno j); [lia|done]. }
    split; [done|]. split; [done|]. split; [done|]. intros q Hq Hlt. destruct (parent_range _ _ _ Hi Hq). lia.
  - pose proof (init_range _ Hi).
    assert (H1 : pinv (put_pos p (ReparentWake st (k - 1) 0) s)).
    { same_place Hp. simpl. split; [done|]. intros j Hj. apply Hno. lia. }
    pose proof (pinv_give _ p k st (k - 1) H1) as H2. simpl in H2. rewrite pset_eq in H2. specialize (H2 eq_refl E2).
    set (s1 := mod_entry k _ _) in H2.
    assert (H3 : pinv (put_pos p (ReparentWake st k 0) s1)).
    { eapply pinv_same; [exact H2|done|apply pset_eq|done..| |].
      - simpl. split; [done|]. intros j Hj. unfold s1. views. zcase; [congruence|]. apply Hno. lia.
      - intros _ _. exists st, k, 0. simpl. split; [done|lia]. }
    revert H3. apply pinv_ext; try done. intros j. simpl. unfold pset. by destruct (Z.eqb_spec j p).
  - same_place Hp. simpl. split; [done|]. intros j Hj. destruct (decide (j = k)) as [->|]; [done|]. apply Hno. lia.
Qed.

Lemma step_reparent_wake s p st k j s' :
  pinv s -> on_cpu s p -> pt_pos s p = ReparentWake st k j ->
  (if NPROC <=? j then Moves (put_pos p (Reparent st (k + 1)) s)
   else wakeup_at p (ProcChan (pt_init s)) j (ReparentWake st k (j + 1)) s) = Moves s' -> pinv s'.
Proof.
  intros Hi Ho Hp. pose proof (fun j => po_rewake _ (pi_parents _ Hi) p _ _ _ j Hp) as Hno.
  assert (Hni : p <> pt_init s) by (apply exiting_init; [done|by rewrite Hp..]). pose proof (init_range _ Hi).
  case_match eqn:E1.
  - intros [= <-]. apply Z.leb_le in E1. eapply pinv_same; [done|done|exact Hp|done..| |].
    + simpl. split; [done|]. intros i Hji. apply Hno. lia.
    + intros _ (st' & i' & j' & [= -> -> ->] & Hj). lia.
  - intros Hs'. refine (step_wakeup _ _ _ _ _ _ _ Hi Ho Hp _ _ _ _ _ _ _ Hs'); try done.
    + intros ->. split; [by split|]. intros (st' & i' & j' & [= -> -> ->] & Hj). exists st', i', (j' + 1). split; [done|lia].
    + split.
      * split; [done|]. intros i. rewrite wake_parent. apply Hno.
      * intros Hw (st' & i' & j' & [= -> -> ->] & Hj). exists st', i', (j' + 1). split; [done|].
        destruct (decide (j' = pt_init s)) as [->|]; [|lia]. by apply wake_not_waiting in Hw.
Qed.

Lemma step_exit_wake s p st c j s' :
  pinv s -> on_cpu s p -> pt_pos s p = ExitWake st c j ->
  (if NPROC <=? j then Moves (put_pos p (ExitZombie st) s) else wakeup_at p c j (ExitWake st c (j + 1)) s) = Moves s' -> pinv s'.
Proof.
  intros Hi Ho Hp. pose proof (fun j => po_exitwake _ (pi_parents _ Hi) p _ _ _ j Hp) as Hno.
  destruct (wo_exitwake _ (pi_wakes _ Hi) _ _ _ _ Hp) as [Hc Hw].
  assert (Hni : p <> pt_init s) by (apply exiting_init; [done|by rewrite Hp..]). case_match eqn:E1.
  - intros [= <-]. apply Z.leb_le in E1. same_place Hp. split; [done|]. split; [done|].
    intros q Hq. destruct (parent_range _ _ _ Hi Hq). apply Hw; [done|lia].
  - intros Hs'. refine (step_wakeup _ _ _ _ _ _ _ Hi Ho Hp _ _ _ _ _ _ _ Hs'); try done.
    + intros ->. split; [|no_debt]. do 3 (split; [done|]). intros q Hq Hlt.
      destruct (decide (q = p)) as [->|]; [|apply Hw; [done|lia]]. by destruct (Hno p).
    + split; [|no_debt]. split; [done|]. split; [intros i; rewrite wake_parent; apply Hno|]. rewrite wake_parent. split; [done|].
      intros q Hq Hlt. destruct (decide (q = j)) as [->|].
      * rewrite Hc, Hq. apply wake_not_waiting.
      * intros Hq'%wake_waiting. revert Hq'. apply Hw; [done|lia].
Qed.

(** A process at [a] switches to the scheduler and goes on at [n] later. *)
Lemma step_switch s p a e n :
  pinv s -> on_cpu s p -> pt_pos s p = a -> active a = true ->
  entry_ok (pe_state e) (Switching n) True -> pe_parent e = parent_of s p -> pe_pid e = pe_pid (pt_proc s p) ->
  base_pos n = a \/ (making a = None /\ making (base_pos n) = None /\ forall i, base_pos n <> InFork i) ->
  (exiting (base_pos n) = true -> exiting a = true) -> (pe_state e = ZOMBIE -> exists st, a = ExitZombie st) ->
  (forall j, pe_chan e = ProcChan j -> j = p) -> (pe_state e = SLEEPING -> pe_chan e = ProcChan p -> a = WaitSleep) -> ~ owes s a ->
  pinv (put_wait (if holding_wait a then None else pt_wait s) (put_pos p (Switching n) (put_entry p e s))).
Proof. intros Hi Ho <- Ha He Hpar Hpid Hb Hx Hz Hc Hs How. by apply pinv_switch. Qed.

Lemma step_zombie s p st :
  pinv s -> on_cpu s p -> pt_pos s p = ExitZombie st ->
  pinv (put_wait None (put_pos p (Switching Dead) (add_exited (pe_pid (pt_proc s p), st) (mod_entry p (zombie_entry st) s)))).
Proof.
  intros Hi Ho Hp. eapply pinv_ext; [..|eapply (step_switch s p _ (zombie_entry st (pt_proc s p)) Dead Hi Ho Hp)]; try done; simpl; auto.
  - eauto.
  - apply (wo_chan _ (pi_wakes _ Hi)).
  - no_debt.
Qed.
Lemma step_sleep s p a c n :
  pinv s -> on_cpu s p -> pt_pos s p = a -> active a = true -> making a = None -> making n = None -> preemptible n = true ->
  exiting n = false -> (forall i, n <> InFork i) -> (forall j, c = ProcChan j -> j = p) -> (c = ProcChan p -> a = WaitSleep) -> ~ owes s a ->
  pinv (put_wait (if holding_wait a then None else pt_wait s) (put_pos p (Switching (Woken n)) (mod_entry p (sleep_entry c) s))).
Proof.
  intros Hi Ho Hp Ha Hma Hmn Hn Hx Hf Hc Hw How.
  apply (step_switch s p a (sleep_entry c (pt_proc s p)) (Woken n)); auto; simpl; rewrite ?base_preemptible by done; eauto; try congruence.
  split; [done|]. right. left. eauto.
Qed.

Lemma step_wait s p ok h k s' :
  pinv s -> on_cpu s p -> pt_pos s p = WaitScan h k -> wait_at ok p h k s = Moves s' -> pinv s'.
Proof.
  intros Hi Ho Hp. pose proof (fun j => wo_scan _ (pi_wakes _ Hi) _ _ _ j Hp) as Hno.
  unfold wait_at. case_match eqn:E1; [|case_bool_decide as E2; [case_match eqn:E3; [done|case_bool_decide as E4; [destruct ok|]]|]]; intros [= <-].
  - apply Z.leb_le in E1. same_place Hp. simpl. intros j Hj. destruct (parent_range _ _ _ Hi (proj1 Hj)). apply (Hno j); [lia|done].
  - assert (Hf : pinv (mod_entry k freeproc s)) by (by apply pinv_free).
    eapply pinv_ext; [..|eapply (pinv_release (mod_entry k freeproc s) p _ (AtUser (pe_pid (pt_proc s k))) Hf Ho Hp)]; try done. no_debt.
  - eapply (pinv_release s p _ _ Hi Ho Hp); try done. no_debt.
  - same_place Hp. simpl. intros j Hj [Hz1 Hz2]. destruct (decide (j = k)) as [->|]; [done|]. apply (Hno j); [lia|done].
  - same_place Hp. simpl. intros j Hj [Hz1 Hz2]. destruct (decide (j = k)) as [->|]; [done|]. apply (Hno j); [lia|done].
Qed.
Lemma step_wait_end s p h s' :
  pinv s -> on_cpu s p -> pt_pos s p = WaitEnd h ->
  (if negb h || negb (pe_killed (pt_proc s p) =? 0) then Moves (put_wait None (put_pos p (AtUser (-1)) s))
   else Moves (put_pos p WaitSleep s)) = Moves s' -> pinv s'.
Proof.
  intros Hi Ho Hp. case_match; intros [= <-].
  - eapply (pinv_release s p _ _ Hi Ho Hp); try done. no_debt.
  - same_place Hp. simpl. intros j. by apply (wo_end _ (pi_wakes _ Hi) _ _ _ Hp).
Qed.

Lemma step_kill s p pid k s' : pinv s -> on_cpu s p -> pt_pos s p = InKill pid k -> kill_at p pid k s = Moves s' -> pinv s'.
Proof.
  intros Hi Ho Hp. unfold kill_at. case_match eqn:E1; [|case_match eqn:E2; [done|case_bool_decide]]; intros [= <-].
  - same_place Hp.
  - pose proof (pinv_kill _ _ Hi E2) as Hk. eapply pinv_same; [exact Hk|exact Ho|exact Hp|done..|no_debt].
  - same_place Hp.
Qed.

(** Every step of a process keeps the invariant. *)
Lemma step_run s p ok s' : pinv s -> on_cpu s p -> run child ok p s = Moves s' -> pinv s'.
Proof.
  intros Hi Ho. unfold run. destruct (pt_pos s p) as [r|k|np pid|np pid|st|st k|st k j|st c j|st| |h k|h| |pid k|a|a j|n|n|] eqn:Hp; try done.
  - by apply step_fork.
  - by apply step_fork_parent.
  - by apply step_fork_run.
  - unfold with_wait. case_match eqn:Hw; [done|]. intros [= <-].
    assert (Hni : p <> pt_init s) by (apply exiting_init; [done|by rewrite Hp..]).
    eapply (pinv_acquire s p _ _ Hi Ho Hp); try done; [|no_debt]. split; [done|].
    intros j Hj Hj'. destruct (parent_range _ _ _ Hi Hj'). lia.
  - by apply step_reparent.
  - by apply step_reparent_wake.
  - by apply step_exit_wake.
  - intros [= <-]. by apply step_zombie.
  - unfold with_wait. case_match eqn:Hw; [done|]. intros [= <-].
    eapply (pinv_acquire s p _ _ Hi Ho Hp); try done; [|no_debt].
    intros j Hj [Hj' _]. destruct (parent_range _ _ _ Hi Hj'). lia.
  - by apply step_wait.
  - by apply step_wait_end.
  - intros [= <-]. apply (step_sleep s p WaitSleep (ProcChan p) InWait); try done; [congruence|no_debt].
  - by apply step_kill.
  - intros [= <-]. apply (step_sleep s p (SleepOn a) (OtherChan a) (AtUser 0)); try done. no_debt.
  - case_match; [intros [= <-]; same_place Hp|]. intros Hs'. refine (step_wakeup _ _ _ _ _ _ _ Hi Ho Hp _ _ _ _ _ _ _ Hs'); try done.
    + intros _. split; [done|no_debt].
    + split; [done|no_debt].
Qed.

Lemma step_call s p c s' : pinv s -> on_cpu s p -> user_call c p s = Moves s' -> pinv s'.
Proof.
  intros Hi Ho. unfold user_call. destruct (pt_pos s p) eqn:Hp; try done.
  destruct c; simpl; try (intros [= <-]; same_place Hp; done).
  - destruct (Z.eqb_spec p (pt_init s)); [done|]. intros [= <-]. same_place Hp.
  - intros [= <-]. assert (Hl : locked s p = false) by (unfold locked; by rewrite Hp).
    assert (Hk : pinv (mod_entry p (set_killed 1) s)) by (apply pinv_entry; auto).
    eapply pinv_same; [exact Hk|exact Ho|exact Hp|done..|no_debt].
Qed.
Lemma step_yield s p s' : pinv s -> on_cpu s p -> yield p s = Moves s' -> pinv s'.
Proof.
  intros Hi Ho. unfold yield. case_match eqn:Hpr; [|done]. intros [= <-].
  eapply pinv_ext; [..|eapply (step_switch s p _ (set_state RUNNABLE (pt_proc s p)) (pt_pos s p) Hi Ho eq_refl)]; try done; simpl; auto.
  - by destruct (pt_pos s p).
  - by destruct (pt_pos s p).
  - left. by apply base_preemptible.
  - by rewrite base_preemptible.
  - apply (wo_chan _ (pi_wakes _ Hi)).
  - intros (st & i & j & E & _). by rewrite E in Hpr.
Qed.

Lemma pinv_step s ev s' : pinv s -> pevent_ok ev -> pexec child ev s = Moves s' -> pinv s'.
Proof.
  intros Hi Hev. destruct ev as [c ok|c k|c|k a]; simpl in *.
  - destruct (pt_cpu s c) as [p|] eqn:Hc.
    + assert (Ho : on_cpu s p) by (by exists c). destruct (pt_pos s p) eqn:Hp; try (by apply step_run).
      intros [= <-]. by apply pinv_return.
    + unfold scheduler. case_match eqn:E1; [|case_match eqn:E2; [done|case_bool_decide]]; intros [= <-].
      * by apply pinv_scan.
      * by apply pinv_dispatch.
      * apply pinv_scan; [done|done|]. pose proof (co_scan _ (pi_cpus _ Hi) c). lia.
  - destruct (pt_cpu s c) as [p|] eqn:Hc; [|done]. apply step_call; [done|]. by exists c.
  - destruct (pt_cpu s c) as [p|] eqn:Hc; [|done]. apply step_yield; [done|]. by exists c.
  - unfold with_lock. case_match; [done|]. intros [= <-]. by apply pinv_wake.
Qed.

Lemma pinv_init img : pinv (userinit img).
Proof.
  assert (Hst : forall k, state_of (userinit img) k = if k =? 0 then RUNNABLE else UNUSED).
  { intros k. unfold userinit. simpl. views. by zcase. }
  assert (Hpos : forall k, pt_pos (userinit img) k = if k =? 0 then AtUser 0 else Dead).
  { intros k. unfold userinit. simpl. views. by zcase. }
  assert (Hpar : forall k, parent_of (userinit img) k = None).
  { intros k. unfold userinit. simpl. views. by zcase. }
  assert (Hch : forall k, pe_chan (pt_proc (userinit img) k) = NoChan).
  { intros k. unfold userinit. simpl. views. by zcase. }
  assert (Hcpu : forall c, pt_cpu (userinit img) c = None) by done.
  assert (Hrest : pt_wait (userinit img) = None /\ pt_init (userinit img) = 0 /\ forall c, pt_scan (userinit img) c = 0) by done.
  generalize dependent (userinit img). intros s Hst Hpos Hpar Hch Hcpu (Hw & Hn & Hs).
  assert (Hpl : forall k, pt_pos s k = AtUser 0 \/ pt_pos s k = Dead).
  { intros k. rewrite Hpos. destruct (k =? 0); auto. }
  assert (Hat : forall k, at_pos s k = AtUser 0 \/ at_pos s k = Dead).
  { intros k. unfold at_pos. destruct (Hpl k) as [-> | ->]; auto. }
  assert (Hoff : forall k, ~ on_cpu s k) by (intros k [c Hc]; congruence).
  split; [split|intros p|split|split|split]; try (intros c k; congruence); rewrite ?Hn.
  - intros c. by rewrite Hs.
  - intros k. rewrite Hst, Hpos. specialize (Hoff k). destruct (k =? 0); simpl; auto.
  - intros k. rewrite Hst. destruct (Z.eqb_spec k 0) as [->|]; [done|done].
  - rewrite Hw. by destruct (Hpl p) as [-> | ->].
  - intros q k pid. by destruct (Hat q) as [-> | ->].
  - intros q q' k pid pid'. by destruct (Hat q) as [-> | ->].
  - intros k. rewrite Hst. by destruct (k =? 0).
  - intros q k pid. by destruct (Hat q) as [-> | ->].
  - intros q i. by destruct (Hat q) as [-> | ->].
  - intros k Hl Hk. rewrite Hst in Hl. destruct (Z.eqb_spec k 0); [done|]. destruct Hl as [[]%live_ne|]; done.
  - rewrite Hst. simpl. unfold live. auto.
  - by destruct (Hat 0) as [-> | ->].
  - intros p k [E _]. congruence.
  - intros x st c j. by destruct (Hpl x) as [-> | ->].
  - intros p h k j. by destruct (Hpl p) as [-> | ->].
  - intros p h j. by destruct (Hpl p) as [-> | ->].
  - intros p j. by destruct (Hpl p) as [-> | ->].
Qed.

(** The invariant holds in every state the machine can reach. *)
Lemma preach_inv img s : preach child img s -> pinv s.
Proof. induction 1; [apply pinv_init|by eapply pinv_step]. Qed.
End inv.
