(* ===== verification/ProcProps.v ===== *)
(** * Processes: what the process table guarantees

    Consequences of the invariant of ProcInv.v for every reachable state, the
    flaws of [kill] and [wait], and the theorems on concrete runs. *)

From stdpp Require Import base numbers list gmap strings sorting.
From Stdlib Require Import ZArith Lia.
From S2P Require Import Prelude Proc ProcInv.
Open Scope Z_scope.

Section props.
Context {I : Type} (child : I -> I).
Implicit Types s : psys I.

(** ** Exit statuses *)

(** The process and the exit status that a zombie keeps for its parent. *)
Definition status_of s k : option (Z * Z) :=
  if bool_decide (state_of s k = ZOMBIE) then Some (pe_pid (pt_proc s k), pe_xstate (pt_proc s k)) else None.
Definition zombies s : list (Z * Z) := omap (status_of s) (seqZ 0 NPROC).

(** What a step does to the statuses: nothing, a process exits, or [wait]
    returns one. *)
Inductive status_step s s' : Prop :=
| ss_same : (forall k, status_of s' k = status_of s k) -> pt_exited s' = pt_exited s -> pt_reaped s' = pt_reaped s -> status_step s s'
| ss_exit k v : 0 <= k < NPROC -> (forall j, status_of s' j = if j =? k then Some v else status_of s j) -> status_of s k = None ->
    pt_exited s' = pt_exited s ++ [v] -> pt_reaped s' = pt_reaped s -> status_step s s'
| ss_reap k v : 0 <= k < NPROC -> (forall j, status_of s' j = if j =? k then None else status_of s j) -> status_of s k = Some v ->
    pt_exited s' = pt_exited s -> pt_reaped s' = pt_reaped s ++ [v] -> status_step s s'.

Lemma status_entry s s' k e :
  pt_proc s' = pset (pt_proc s) k e ->
  (pe_state e = ZOMBIE <-> state_of s k = ZOMBIE) -> (state_of s k = ZOMBIE -> pe_pid e = pe_pid (pt_proc s k) /\ pe_xstate e = pe_xstate (pt_proc s k)) ->
  pt_exited s' = pt_exited s -> pt_reaped s' = pt_reaped s -> status_step s s'.
Proof.
  intros He H1 H2 H3 H4. apply ss_same; try done. intros j. unfold status_of, state_of in *. rewrite He. unfold pset.
  destruct (Z.eqb_spec j k) as [->|]; [|done]. repeat case_bool_decide; try tauto. destruct H2 as [-> ->]; done.
Qed.
Lemma status_same s s' : pt_proc s' = pt_proc s -> pt_exited s' = pt_exited s -> pt_reaped s' = pt_reaped s -> status_step s s'.
Proof. intros H1 H2 H3. apply ss_same; try done. intros k. unfold status_of, state_of. by rewrite H1. Qed.

Lemma run_not_zombie s p : pinv s -> on_cpu s p -> active (pt_pos s p) = true -> state_of s p <> ZOMBIE.
Proof. intros Hi Ho Ha. by rewrite (running_active _ _ Hi Ho Ha). Qed.

Ltac entry k := eapply (status_entry _ _ k); [reflexivity|simpl|simpl|reflexivity|reflexivity].

Lemma status_wake s c j : wake_entry c (pt_proc s j) = pt_proc s j \/ (state_of s j = SLEEPING /\ pe_state (wake_entry c (pt_proc s j)) = RUNNABLE).
Proof. unfold wake_entry. repeat case_bool_decide; simpl; auto. Qed.
Lemma status_wake_entry s s' c j :
  pt_proc s' = pset (pt_proc s) j (wake_entry c (pt_proc s j)) -> pt_exited s' = pt_exited s -> pt_reaped s' = pt_reaped s -> status_step s s'.
Proof.
  intros H1 H2 H3. eapply (status_entry _ _ j); try done; unfold state_of; destruct (status_wake s c j) as [E|[E1 E2]];
    unfold state_of in *; rewrite ?E, ?E1, ?E2; try done; by split.
Qed.
Lemma status_wakeup s p c j b s' : wakeup_at p c j b s = Moves s' -> status_step s s'.
Proof.
  unfold wakeup_at, with_lock. case_match; [|case_match; [done|]]; intros [= <-]; [by apply status_same|by eapply status_wake_entry].
Qed.

Lemma status_run s p ok s' : pinv s -> on_cpu s p -> run child ok p s = Moves s' -> status_step s s'.
Proof.
  intros Hi Ho. unfold run. destruct (pt_pos s p) as [r|k|np pid|np pid|st|st k|st k j|st c j|st| |h k|h| |pid k|a|a j|n|n|] eqn:Hp; try done.
  all: assert (Hr : state_of s p = RUNNING) by (apply running_active; [done|done|by rewrite Hp]).
  - unfold fork_at. case_match eqn:E1; [|case_match eqn:E2; [done|case_bool_decide as E3; [simpl; destruct ok|]]]; intros [= <-].
    + by apply status_same.
    + entry k; unfold state_of in *; rewrite E3; done.
    + entry k; unfold state_of in *; rewrite E3; done.
    + by apply status_same.
  - unfold with_wait. case_match; [done|]. intros [= <-]. by entry np.
  - unfold with_lock. case_match; [done|]. intros [= <-].
    destruct (fo_used _ (pi_fork _ Hi) p np pid) as [Hu _]; [unfold at_pos; by rewrite Hp|]. entry np; rewrite Hu; done.
  - unfold with_wait. case_match; [done|]. intros [= <-]. by apply status_same.
  - unfold reparent_at. case_match; [|case_bool_decide]; intros [= <-]; [by apply status_same|by entry k|by apply status_same].
  - case_match; [intros [= <-]; by apply status_same|]. apply status_wakeup.
  - case_match; [intros [= <-]; by apply status_same|]. apply status_wakeup.
  - intros [= <-]. eapply (ss_exit _ _ p); [|intros j|..|done|done].
    + apply (co_out _ (pi_cpus _ Hi)). congruence.
    + unfold status_of, state_of. simpl. unfold pset. by destruct (Z.eqb_spec j p).
    + unfold status_of. by rewrite Hr.
  - unfold with_wait. case_match; [done|]. intros [= <-]. by apply status_same.
  - unfold wait_at. case_match eqn:E1; [|case_bool_decide as E2; [case_match eqn:E3; [done|case_bool_decide as E4; [destruct ok|]]|]]; intros [= <-];
      try by apply status_same.
    eapply (ss_reap _ _ k); [|intros j|..|done|done].
    + apply (co_out _ (pi_cpus _ Hi)). unfold state_of. congruence.
    + unfold status_of, state_of. simpl. unfold pset. by destruct (Z.eqb_spec j k).
    + unfold status_of, state_of. by rewrite bool_decide_true.
  - case_match; intros [= <-]; by apply status_same.
  - intros [= <-]. entry p; rewrite Hr; done.
  - unfold kill_at. case_match eqn:E1; [|case_match eqn:E2; [done|case_bool_decide]]; intros [= <-]; [by apply status_same| |by apply status_same].
    entry k; unfold kill_entry; simpl; case_bool_decide as E4; simpl; try done; unfold state_of; rewrite E4; done.
  - intros [= <-]. entry p; rewrite Hr; done.
  - case_match; [intros [= <-]; by apply status_same|]. apply status_wakeup.
Qed.

Lemma status_dispatch s c k : state_of s k = RUNNABLE -> status_step s (resume k (put_cpu c (Some k) (mod_entry k (set_state RUNNING) s))).
Proof.
  intros Hk. apply ss_same; [|unfold resume; simpl; by destruct (pt_pos s k)..].
  intros j. unfold status_of. rewrite dispatch_state. destruct (Z.eqb_spec j k) as [->|Hn]; [by rewrite Hk|].
  unfold resume. simpl. destruct (pt_pos s k); simpl; by rewrite !pset_ne.
Qed.
Lemma status_pexec s ev s' : pinv s -> pexec child ev s = Moves s' -> status_step s s'.
Proof.
  intros Hi. destruct ev as [c ok|c k|c|k a]; simpl.
  - destruct (pt_cpu s c) as [p|] eqn:Hc.
    + assert (Ho : on_cpu s p) by (by exists c). destruct (pt_pos s p) eqn:Hp; try (by apply status_run).
      intros [= <-]. by apply status_same.
    + unfold scheduler. case_match eqn:E1; [|case_match eqn:E2; [done|case_bool_decide]]; intros [= <-];
        [by apply status_same|by apply status_dispatch|by apply status_same].
  - destruct (pt_cpu s c) as [p|] eqn:Hc; [|done]. unfold user_call. destruct (pt_pos s p); try done.
    destruct k; try (intros [= <-]; by apply status_same); [|intros [= <-]; by entry p].
    case_match; [done|]. intros [= <-]. by apply status_same.
  - destruct (pt_cpu s c) as [p|] eqn:Hc; [|done]. unfold yield. case_match eqn:Hpr; [|done]. intros [= <-].
    assert (Hr : state_of s p = RUNNING) by (apply running_active; [done|by exists c|by destruct (pt_pos s p)]).
    entry p; rewrite Hr; done.
  - unfold with_lock. case_match; [done|]. intros [= <-]. by eapply status_wake_entry.
Qed.

Lemma omap_agree {A} (f g : Z -> option A) (l : list Z) : (forall j, j ∈ l -> g j = f j) -> omap g l = omap f l.
Proof.
  induction l as [|x l IH]; [done|]. intros H. csimpl. rewrite H by (by left). rewrite IH; [done|].
  intros j Hj. apply H. by right.
Qed.
Lemma omap_set {A} (f g : Z -> option A) (l : list Z) k :
  NoDup l -> k ∈ l -> (forall j, j <> k -> g j = f j) -> f k = None -> omap g l ≡ₚ option_list (g k) ++ omap f l.
Proof.
  intros Hd Hk Hg Hf. induction l as [|x l IH]; [by apply not_elem_of_nil in Hk|].
  apply NoDup_cons in Hd as [Hx Hd]. csimpl. destruct (decide (x = k)) as [->|Hn].
  - rewrite Hf. rewrite (omap_agree f g l) by (intros j Hj; apply Hg; by intros ->). by destruct (g k).
  - rewrite (Hg x Hn). apply elem_of_cons in Hk as [->|Hk]; [done|]. destruct (f x) as [v|]; [|by apply IH].
    rewrite IH by done. apply Permutation_middle.
Qed.
Lemma perm_add {A} (a b c : list A) v : a ≡ₚ b ++ c -> a ++ [v] ≡ₚ b ++ v :: c.
Proof. intros ->. rewrite <- app_assoc. by rewrite (Permutation_app_comm c [v]). Qed.
Lemma status_perm s s' : status_step s s' -> pt_exited s ≡ₚ pt_reaped s ++ zombies s -> pt_exited s' ≡ₚ pt_reaped s' ++ zombies s'.
Proof.
  unfold zombies. intros [Hs -> ->|k v Hk Hs Hn -> ->|k v Hk Hs Hn -> ->] Hp.
  - rewrite Hp. by rewrite (omap_agree (status_of s) (status_of s')).
  - rewrite (omap_set (status_of s) (status_of s') _ k); [|apply NoDup_seqZ|by apply elem_of_seqZ| |done].
    + rewrite Hs, Z.eqb_refl. by apply perm_add.
    + intros j Hj. rewrite Hs. by destruct (Z.eqb_spec j k).
  - rewrite Hp. rewrite (omap_set (status_of s') (status_of s) _ k); [|apply NoDup_seqZ|by apply elem_of_seqZ| |].
    + rewrite Hn. by rewrite <- (assoc_L (++)).
    + intros j Hj. rewrite Hs. by destruct (Z.eqb_spec j k).
    + by rewrite Hs, Z.eqb_refl.
Qed.

(** C9: Every exit status is returned by [wait] exactly once or still waits to be
    returned: at every moment of every run of the kernel on all its processors
    the exits so far are, as a multiset of process ids and statuses, the ones
    that [wait] has returned together with those of the zombies in the table. *)
Theorem exit_status_once img s : preach child img s -> pt_exited s ≡ₚ pt_reaped s ++ zombies s.
Proof.
  induction 1 as [|s ev s' Hr IH Hev Hs].
  - reflexivity.
  - eapply status_perm; [|exact IH]. eapply status_pexec; [by eapply preach_inv|exact Hs].
Qed.

(** ** [wait] *)

(** C10: No wakeup of a parent is lost: in every reachable state in which no process
    holds [wait_lock], a process that sleeps in [wait] has no child that has
    exited.  ([exit] wakes the parent before it marks the child a zombie, and
    [reparent] wakes the first process after it hands it a zombie.) *)
Theorem wait_no_lost_wakeup img s p k : preach child img s -> pt_wait s = None -> waiting s p -> ~ zombie_child s p k.
Proof.
  intros Hr%preach_inv Hw Hp Hz. destruct (wo_zombie _ (pi_wakes _ Hr) _ _ Hz Hp) as (x & st & i & j & Hx & _).
  assert (E : pt_wait s = Some x) by (apply (pi_wait _ Hr); by rewrite Hx). congruence.
Qed.

(** C22: Nobody is orphaned: in every reachable state a process that is alive, or
    has exited and was not waited for, is the first process or has a parent that
    is alive, so its status can be collected; and an entry that is being filled
    belongs to one running [fork]. *)
Theorem process_has_parent img s k :
  preach child img s -> state_of s k <> UNUSED ->
  k = pt_init s \/ (exists q, parent_of s k = Some q /\ live (state_of s q))
  \/ (state_of s k = USED /\ exists q pid, at_pos s q = ForkParent k pid).
Proof.
  intros Hr%preach_inv Hk. destruct (decide (k = pt_init s)) as [->|Hn]; [auto|right].
  destruct (parent_of s k) as [q|] eqn:Hq; [left; exists q; by destruct (po_live _ (pi_parents _ Hr) _ _ Hq)|].
  right. assert (Hu : state_of s k = USED).
  { destruct (state_of s k) eqn:E; try done; exfalso; apply (po_some _ (pi_parents _ Hr) k); rewrite ?E; unfold live; auto. }
  split; [done|]. destruct (fo_all _ (pi_fork _ Hr) _ Hu) as (q & pid & Hm). exists q, pid.
  destruct (at_pos s q) eqn:E; try done; simpl in Hm; injection Hm as -> ->; [done|].
  apply (fo_set _ (pi_fork _ Hr)) in E. congruence.
Qed.

(** ** Process ids and images *)

Definition used s k : Prop := state_of s k <> UNUSED.
Definition kept s s' k : Prop :=
  used s' k -> used s k /\ pe_pid (pt_proc s' k) = pe_pid (pt_proc s k) /\ pe_img (pt_proc s' k) = pe_img (pt_proc s k).
(** What a step does to ids and images: the ids and images of all processes
    stay, or a running process creates a process. *)
Inductive ids_step s s' : Prop :=
| is_kept : (pt_next s' = pt_next s \/ pt_next s' = i32 (pt_next s + 1)) -> (forall k, kept s s' k) -> ids_step s s'
| is_new p k : pt_next s' = i32 (pt_next s + 1) -> used s p -> ~ used s k -> (forall j, j <> k -> kept s s' j) ->
    pe_pid (pt_proc s' k) = pt_next s -> pe_img (pt_proc s' k) = child <$> pe_img (pt_proc s p) -> ids_step s s'.

Lemma ids_entry s s' k e :
  pt_proc s' = pset (pt_proc s) k e -> (pe_state e <> UNUSED -> used s k /\ pe_pid e = pe_pid (pt_proc s k) /\ pe_img e = pe_img (pt_proc s k)) ->
  pt_next s' = pt_next s \/ pt_next s' = i32 (pt_next s + 1) -> ids_step s s'.
Proof.
  intros H1 H2 H3. apply is_kept; [done|]. intros j. unfold kept, used, state_of in *. rewrite H1. unfold pset.
  destruct (Z.eqb_spec j k) as [->|]; auto.
Qed.
Lemma ids_same s s' : pt_proc s' = pt_proc s -> pt_next s' = pt_next s -> ids_step s s'.
Proof. intros H1 H2. apply is_kept; [auto|]. intros j. unfold kept, used, state_of. rewrite H1. auto. Qed.

Ltac ids k := eapply (ids_entry _ _ k); [reflexivity|simpl; auto|simpl; auto].

Lemma ids_wake_entry s s' c j :
  pt_proc s' = pset (pt_proc s) j (wake_entry c (pt_proc s j)) -> pt_next s' = pt_next s -> ids_step s s'.
Proof.
  intros H1 H2. eapply (ids_entry _ _ j); [done| |auto]. unfold used, wake_entry, state_of.
  case_bool_decide as E1; case_bool_decide as E2; simpl; auto. by rewrite E1.
Qed.
Lemma ids_wakeup s p c j b s' : wakeup_at p c j b s = Moves s' -> ids_step s s'.
Proof.
  unfold wakeup_at, with_lock. case_match; [|case_match; [done|]]; intros [= <-]; [by apply ids_same|by eapply ids_wake_entry].
Qed.

Lemma ids_run s p ok s' : pinv s -> on_cpu s p -> run child ok p s = Moves s' -> ids_step s s'.
Proof.
  intros Hi Ho. unfold run. destruct (pt_pos s p) as [r|k|np pid|np pid|st|st k|st k j|st c j|st| |h k|h| |pid k|a|a j|n|n|] eqn:Hp; try done.
  all: assert (Hr : used s p) by (unfold used; rewrite running_active; [done|done|done|by rewrite Hp]).
  - unfold fork_at. case_match eqn:E1; [|case_match eqn:E2; [done|case_bool_decide as E3; [simpl; destruct ok|]]]; intros [= <-].
    + by apply ids_same.
    + apply (is_new _ _ p k); simpl; rewrite ?pset_eq; auto.
      intros j Hj. unfold kept, used, state_of. simpl. by rewrite pset_ne.
    + by ids k.
    + by apply ids_same.
  - unfold with_wait. case_match; [done|]. intros [= <-]. by ids np.
  - unfold with_lock. case_match; [done|]. intros [= <-].
    destruct (fo_used _ (pi_fork _ Hi) p np pid) as [Hu _]; [unfold at_pos; by rewrite Hp|]. ids np. unfold used. by rewrite Hu.
  - unfold with_wait. case_match; [done|]. intros [= <-]. by apply ids_same.
  - unfold reparent_at. case_match; [|case_bool_decide]; intros [= <-]; [by apply ids_same|by ids k|by apply ids_same].
  - case_match; [intros [= <-]; by apply ids_same|]. apply ids_wakeup.
  - case_match; [intros [= <-]; by apply ids_same|]. apply ids_wakeup.
  - intros [= <-]. by ids p.
  - unfold with_wait. case_match; [done|]. intros [= <-]. by apply ids_same.
  - unfold wait_at. case_match eqn:E1; [|case_bool_decide as E2; [case_match eqn:E3; [done|case_bool_decide as E4; [destruct ok|]]|]]; intros [= <-];
      [by apply ids_same|by ids k|by apply ids_same..].
  - case_match; intros [= <-]; by apply ids_same.
  - intros [= <-]. by ids p.
  - unfold kill_at. case_match eqn:E1; [|case_match eqn:E2; [done|case_bool_decide]]; intros [= <-]; [by apply ids_same| |by apply ids_same].
    ids k. unfold used, state_of, kill_entry; simpl; case_bool_decide as E4; simpl; [by rewrite E4|done].
  - intros [= <-]. by ids p.
  - case_match; [intros [= <-]; by apply ids_same|]. apply ids_wakeup.
Qed.
Lemma ids_dispatch s c k : state_of s k = RUNNABLE -> ids_step s (resume k (put_cpu c (Some k) (mod_entry k (set_state RUNNING) s))).
Proof.
  intros Hk. apply is_kept; [unfold resume; simpl; destruct (pt_pos s k); auto|].
  intros j. unfold kept, used. rewrite dispatch_state. destruct (dispatch_entry s c k j) as [_ ->].
  destruct (Z.eqb_spec j k) as [->|Hn]; [rewrite Hk; intros _|intros Hu]; (split; [done|split; [done|]]);
    unfold resume; simpl; destruct (pt_pos s k); simpl; by rewrite ?pset_eq, ?pset_ne.
Qed.
Lemma ids_pexec s ev s' : pinv s -> pexec child ev s = Moves s' -> ids_step s s'.
Proof.
  intros Hi. destruct ev as [c ok|c k|c|k a]; simpl.
  - destruct (pt_cpu s c) as [p|] eqn:Hc.
    + assert (Ho : on_cpu s p) by (by exists c). destruct (pt_pos s p) eqn:Hp; try (by apply ids_run).
      intros [= <-]. by apply ids_same.
    + unfold scheduler. case_match eqn:E1; [|case_match eqn:E2; [done|case_bool_decide]]; intros [= <-];
        [by apply ids_same|by apply ids_dispatch|by apply ids_same].
  - destruct (pt_cpu s c) as [p|] eqn:Hc; [|done]. unfold user_call. destruct (pt_pos s p); try done.
    destruct k; try (intros [= <-]; by apply ids_same); [|intros [= <-]; by ids p].
    case_match; [done|]. intros [= <-]. by apply ids_same.
  - destruct (pt_cpu s c) as [p|] eqn:Hc; [|done]. unfold yield. case_match eqn:Hpr; [|done]. intros [= <-].
    assert (Hr : used s p) by (unfold used; rewrite running_active; [done|done|by exists c|by destruct (pt_pos s p)]).
    by ids p.
  - unfold with_lock. case_match; [done|]. intros [= <-]. by eapply ids_wake_entry.
Qed.

(** Ids that were given out are below [nextpid] and different. *)
Record ids_ok s : Prop := {
  io_next : 1 <= pt_next s;
  io_range : forall k, used s k -> 1 <= pe_pid (pt_proc s k) < pt_next s;
  io_inj : forall j k, used s j -> used s k -> pe_pid (pt_proc s j) = pe_pid (pt_proc s k) -> j = k;
}.
Lemma ids_step_ok s s' : ids_step s s' -> pt_next s + 1 < 2 ^ 31 -> ids_ok s -> ids_ok s' /\ pt_next s' <= pt_next s + 1.
Proof.
  intros Hs Hb [H1 H2 H3]. assert (Hi : i32 (pt_next s + 1) = pt_next s + 1) by (apply i32_small; lia).
  destruct Hs as [Hn Hk|p k Hn _ Hu Hk Hpid _]; rewrite Hi in Hn.
  - split; [|lia]. split; [lia| |].
    + intros k Hk'. destruct (Hk k Hk') as (Hu & -> & _). specialize (H2 k Hu). lia.
    + intros j k Hj' Hk'. destruct (Hk j Hj') as (? & -> & _), (Hk k Hk') as (? & -> & _). by apply H3.
  - split; [|lia].
    assert (Hold : forall j, j <> k -> used s' j -> 1 <= pe_pid (pt_proc s' j) < pt_next s).
    { intros j Hj Hj'. destruct (Hk j Hj Hj') as (Huj & -> & _). by apply H2. }
    split; [lia| |].
    + intros j Hj'. destruct (decide (j = k)) as [->|Hj]; [lia|]. specialize (Hold j Hj Hj'). lia.
    + intros j l Hj' Hl'. destruct (decide (j = k)) as [->|Hj], (decide (l = k)) as [->|Hl]; try done.
      * specialize (Hold l Hl Hl'). lia.
      * specialize (Hold j Hj Hj'). lia.
      * destruct (Hk j Hj Hj') as (? & -> & _), (Hk l Hl Hl') as (? & -> & _). by apply H3.
Qed.

Lemma userinit_ids img : ids_ok (userinit img) /\ pt_next (userinit img) = 2.
Proof.
  assert (Hu : forall k, used (userinit img) k -> k = 0).
  { intros k. unfold used, state_of, userinit. simpl. unfold pset. by destruct (Z.eqb_spec k 0). }
  split; [|done]. split; [done| |].
  - intros k ->%Hu. done.
  - intros j k ->%Hu ->%Hu. done.
Qed.
Lemma pruns_reach img evs s s' : preach child img s -> Forall pevent_ok evs -> pruns child evs s = Some s' -> preach child img s'.
Proof.
  revert s. induction evs as [|ev evs IH]; intros s Hs Hev; simpl; [by intros [= <-]|].
  apply Forall_cons in Hev as [H1 H2]. destruct (pexec child ev s) as [| |s1] eqn:E; try done. apply IH; [|done]. by eapply preach_step.
Qed.
Lemma pruns_ids img evs s s' :
  preach child img s -> ids_ok s -> pt_next s + Z.of_nat (length evs) < 2 ^ 31 -> Forall pevent_ok evs ->
  pruns child evs s = Some s' -> ids_ok s'.
Proof.
  revert s. induction evs as [|ev evs IH]; intros s Hs Hi Hb Hev; simpl; [by intros [= <-]|].
  apply Forall_cons in Hev as [H1 H2]. destruct (pexec child ev s) as [| |s1] eqn:E; try done. cbn [length] in Hb.
  destruct (ids_step_ok s s1) as [Hi1 Hn]; [eapply ids_pexec; [by eapply preach_inv|done]|lia|done|].
  apply IH; try done; [by eapply preach_step|lia].
Qed.

(** Process ids identify processes as long as [nextpid] has not wrapped: after
    any run of fewer than 2^31 - 2 steps, two entries of the table in use have
    different ids, and no id is 0, the id of a free entry. *)
Theorem pids_unique img evs s j k :
  Forall pevent_ok evs -> Z.of_nat (length evs) < 2 ^ 31 - 2 -> pruns child evs (userinit img) = Some s ->
  used s j -> used s k -> 1 <= pe_pid (pt_proc s j) /\ (j <> k -> pe_pid (pt_proc s j) <> pe_pid (pt_proc s k)).
Proof.
  intros Hev Hb Hs Hj Hk. destruct (userinit_ids img) as [Hi Hn].
  assert (Ho : ids_ok s) by (apply (pruns_ids img evs (userinit img)); [apply preach_init|done|rewrite Hn; lia|done|done]).
  split; [by apply (io_range _ Ho)|]. intros Hne E. by apply Hne, (io_inj _ Ho).
Qed.

Lemma preach_image img s k : preach child img s -> used s k -> pe_img (pt_proc s k) <> None.
Proof.
  intros Hr. revert k. induction Hr as [|s ev s' Hr IH Hev Hs]; intros k Hk.
  - unfold used, state_of, userinit in *. simpl in *. unfold pset in *. by destruct (Z.eqb_spec k 0).
  - destruct (ids_pexec s ev s') as [_ Hkp|p k' _ Hp _ Hkp _ Him]; [by eapply preach_inv|done| |].
    + destruct (Hkp k Hk) as (Hu & _ & ->). by apply IH.
    + destruct (decide (k = k')) as [->|Hn].
      * rewrite Him. specialize (IH p Hp). by destruct (pe_img (pt_proc s p)).
      * destruct (Hkp k Hn Hk) as (Hu & _ & ->). by apply IH.
Qed.

(** ** Processors *)

Lemma entry_running st x (on : Prop) : entry_ok st x on -> st = RUNNING <-> on /\ (forall n, x <> Switching n).
Proof.
  destruct x; simpl; intros He; split; intros H; destruct_and?; try (split; [|done]); destruct_or?; destruct_and?; subst; try done; try tauto;
    try (by match goal with H : forall n, Switching _ <> Switching n |- _ => destruct (H _ eq_refl) end).
Qed.
Lemma entry_on st x (on : Prop) : entry_ok st x on -> on -> st <> UNUSED.
Proof. destruct x; simpl; intros He Ho ->; destruct_and?; destruct_or?; destruct_and?; done. Qed.

(** C20: A process runs on one processor at a time: in every reachable state an
    entry that is the current process of a processor is the current process of no
    other one, and it is in state [RUNNING] or about to switch away with its lock
    held; a process is in state [RUNNING] only on a processor; and its memory
    has not been freed. *)
Theorem process_on_one_cpu img s :
  preach child img s ->
  (forall c c' k, pt_cpu s c = Some k -> pt_cpu s c' = Some k -> c = c') /\
  (forall k, state_of s k = RUNNING <-> on_cpu s k /\ locked s k = false) /\
  (forall k, on_cpu s k -> pe_img (pt_proc s k) <> None).
Proof.
  intros Hr. pose proof (preach_inv _ _ _ Hr) as Hi. split; [apply (co_one _ (pi_cpus _ Hi))|]. split.
  - intros k. rewrite (entry_running _ _ _ (co_entry _ (pi_cpus _ Hi) k)). unfold locked.
    destruct (pt_pos s k); split; intros [? H]; try done. by destruct (H _ eq_refl).
  - intros k Ho. apply (preach_image _ _ _ Hr). by eapply entry_on; [apply (co_entry _ (pi_cpus _ Hi))|].
Qed.

(** A processor that can go on. *)
Definition some_moves s : Prop := exists c s', 0 <= c < NCPU /\ pexec child (Step c true) s = Moves s'.

Lemma locked_moves s k : pinv s -> locked s k = true -> some_moves s.
Proof.
  intros Hi Hl. unfold locked in Hl. destruct (pt_pos s k) as [| | | | | | | | | | | | | | | |n| |] eqn:Hp; try done.
  pose proof (co_entry _ (pi_cpus _ Hi) k) as He. rewrite Hp in He. destruct He as [[c Hc] _].
  exists c, (sched_return c k n s). split; [by apply (co_cpu _ (pi_cpus _ Hi) c k)|]. simpl. by rewrite Hc, Hp.
Qed.
Lemma with_lock_moves s k (r : psys I) : locked s k = true \/ with_lock s k r = Moves r.
Proof. unfold with_lock. destruct (locked s k); auto. Qed.
Lemma wakeup_moves s p c j b : locked s j = true \/ exists s', wakeup_at p c j b s = Moves s'.
Proof. unfold wakeup_at, with_lock. destruct (j =? p), (locked s j); eauto. Qed.
Lemma holder_moves s q : pinv s -> holding_wait (pt_pos s q) = true -> some_moves s.
Proof.
  intros Hi Hh.
  assert (Hrun : (exists k, locked s k = true) \/ exists s', run child true q s = Moves s').
  { unfold run. destruct (pt_pos s q) as [r|k|np pid|np pid|st|st k|st k j|st c j|st| |h k|h| |pid k|a|a j|n|n|]; try done; eauto.
    - right. unfold reparent_at. repeat case_match; eauto.
    - case_match; [eauto|]. destruct (wakeup_moves s q (ProcChan (pt_init s)) j (ReparentWake st k (j + 1))); eauto.
    - case_match; [eauto|]. destruct (wakeup_moves s q c j (ExitWake st c (j + 1))); eauto.
    - unfold wait_at. destruct (locked s k) eqn:E; [eauto|]. right. repeat case_match; eauto.
    - right. case_match; eauto. }
  destruct Hrun as [[k Hk]|[s' Hs']]; [by eapply locked_moves|].
  pose proof (co_entry _ (pi_cpus _ Hi) q) as He. assert (on_cpu s q) as [c Hc].
  { destruct (pt_pos s q); simpl in *; try done; naive_solver. }
  exists c, s'. split; [by apply (co_cpu _ (pi_cpus _ Hi) c q)|]. simpl. rewrite Hc. destruct (pt_pos s q); done.
Qed.

(** C21: The kernel does not deadlock on the locks of the table and [wait_lock]: in
    every reachable state, if a processor is idle or its process is inside the
    code of this component, then that processor or another one can take a
    step. *)
Theorem proc_no_deadlock img s c :
  preach child img s -> 0 <= c < NCPU -> (forall p r, pt_cpu s c = Some p -> pt_pos s p <> AtUser r) -> some_moves s.
Proof.
  intros Hr Hc Hp. pose proof (preach_inv _ _ _ Hr) as Hi.
  assert (Hstep : (exists k, locked s k = true) \/ pt_wait s <> None \/ exists s', pexec child (Step c true) s = Moves s').
  { simpl. destruct (pt_cpu s c) as [p|] eqn:E; [|unfold scheduler; destruct (locked s (pt_scan s c)) eqn:El; [eauto|right; right; repeat case_match; eauto]].
    specialize (fun r => Hp p r eq_refl). assert (Ho : on_cpu s p) by (by exists c).
    pose proof (co_entry _ (pi_cpus _ Hi) p) as He.
    unfold run, with_wait. destruct (pt_pos s p) as [r|k|np pid|np pid|st|st k|st k j|st c' j|st| |h k|h| |pid k|a|a j|n|n|] eqn:Hpos; eauto;
      try (destruct (pt_wait s); eauto; fail).
    - by destruct (Hp r).
    - unfold fork_at. destruct (locked s k) eqn:El; [eauto|]. right; right. repeat case_match; eauto.
    - destruct (with_lock_moves s np (put_pos p (AtUser pid) (put_pos np (AtUser 0) (mod_entry np (set_state RUNNABLE) s)))); eauto.
    - right; right. unfold reparent_at. repeat case_match; eauto.
    - case_match; [eauto|]. destruct (wakeup_moves s p (ProcChan (pt_init s)) j (ReparentWake st k (j + 1))); eauto.
    - case_match; [eauto|]. destruct (wakeup_moves s p c' j (ExitWake st c' (j + 1))); eauto.
    - unfold wait_at. destruct (locked s k) eqn:El; [eauto|]. right; right. repeat case_match; eauto.
    - right; right. case_match; eauto.
    - unfold kill_at. destruct (locked s k) eqn:El; [eauto|]. right; right. repeat case_match; eauto.
    - case_match; [eauto|]. destruct (wakeup_moves s p (OtherChan a) j (InWakeup a (j + 1))); eauto.
    - simpl in He. by destruct He.
    - simpl in He. by destruct He. }
  destruct Hstep as [[k Hk]|[Hw|[s' Hs']]]; [by eapply locked_moves| |by exists c, s'].
  destruct (pt_wait s) as [q|] eqn:E; [|done]. eapply (holder_moves s q); [done|]. by apply (pi_wait _ Hi).
Qed.

(** ** The scheduler *)

(** How many entries the scan looks at before it gets from [i] to [p]. *)
Definition scan_dist (i p : Z) : Z := if i <=? p then p - i else Z.max 0 (NPROC - i) + 1 + p.
Lemma scan_reaches c p m s :
  (forall k, locked s k = false) -> 0 <= p < NPROC -> state_of s p = RUNNABLE ->
  pt_cpu s c = None -> 0 <= pt_scan s c -> scan_dist (pt_scan s c) p <= Z.of_nat m ->
  exists n s' q, (n <= m + 1)%nat /\ pruns child (replicate n (Step c true)) s = Some s' /\ pt_cpu s' c = Some q /\ state_of s' q = RUNNING.
Proof.
  revert s. induction m as [|m IH]; intros s Hl Hp Hst Hc H0 Hd; set (i := pt_scan s c) in *.
  all: assert (Hrun : state_of s i = RUNNABLE -> i < NPROC -> exists s' q, pruns child [Step c true] s = Some s' /\ pt_cpu s' c = Some q /\ state_of s' q = RUNNING).
  1, 3: intros Hi Hlt; exists (resume i (put_cpu c (Some i) (mod_entry i (set_state RUNNING) s))), i; simpl; rewrite Hc; unfold scheduler;
    fold i; rewrite Hl, bool_decide_true by done; rewrite (proj2 (Z.leb_gt _ _)) by done; simpl;
    destruct (dispatch_rest s c i) as (_ & _ & -> & _); rewrite dispatch_state, Z.eqb_refl, pset_eq; done.
  - unfold scan_dist in Hd. destruct (Z.leb_spec i p); [|lia]. assert (i = p) as E by lia. rewrite E in Hrun.
    destruct (Hrun Hst) as (s' & q & H1 & H2); [lia|]. exists 1%nat, s', q. split; [lia|done].
  - destruct (decide (NPROC <= i)) as [Hge|Hlt]; [|destruct (decide (state_of s i = RUNNABLE)) as [Hi|Hi]].
    + destruct (IH (put_scan c 0 s)) as (n & s' & q & Hn & H1 & H2); try done; simpl; rewrite ?pset_eq; try done.
      * unfold scan_dist in *. destruct (Z.leb_spec i p), (Z.leb_spec 0 p); lia.
      * exists (S n), s', q. split; [lia|]. split; [|done]. cbn [replicate pruns pexec]. rewrite Hc. unfold scheduler. fold i.
        by rewrite (proj2 (Z.leb_le _ _)).
    + destruct (Hrun Hi) as (s' & q & H1 & H2); [lia|]. exists 1%nat, s', q. split; [lia|done].
    + destruct (IH (put_scan c (i + 1) s)) as (n & s' & q & Hn & H1 & H2); try done; simpl; rewrite ?pset_eq; [lia| |].
      * assert (i <> p) by congruence. unfold scan_dist in *. destruct (Z.leb_spec i p), (Z.leb_spec (i + 1) p); lia.
      * exists (S n), s', q. split; [lia|]. split; [|done]. cbn [replicate pruns pexec]. rewrite Hc. unfold scheduler. fold i.
        rewrite (proj2 (Z.leb_gt _ _)) by lia. by rewrite Hl, bool_decide_false.
Qed.

(** The scheduler of an idle processor finds work: from any reachable state with
    a runnable process in which no process is switching away, it runs a process
    after looking at no more than [NPROC] entries and starting its scan over at
    most once. *)
Theorem scheduler_finds img s c p :
  preach child img s -> (forall k, locked s k = false) -> pt_cpu s c = None -> state_of s p = RUNNABLE ->
  exists n s' q, Z.of_nat n <= NPROC + 1 /\ pruns child (replicate n (Step c true)) s = Some s' /\
    pt_cpu s' c = Some q /\ state_of s' q = RUNNING.
Proof.
  intros Hr Hl Hc Hp. pose proof (preach_inv _ _ _ Hr) as Hi. pose proof (co_scan _ (pi_cpus _ Hi) c) as H0.
  assert (Hpr : 0 <= p < NPROC) by (apply (co_out _ (pi_cpus _ Hi)); congruence).
  assert (Hd : scan_dist (pt_scan s c) p <= NPROC) by (unfold scan_dist, NPROC in *; destruct (Z.leb_spec (pt_scan s c) p); lia).
  destruct (scan_reaches c p (Z.to_nat NPROC) s) as (n & s' & q & Hn & H); [done..|rewrite Z2Nat.id by (unfold NPROC; lia); done|].
  exists n, s', q. split; [unfold NPROC in *; lia|done].
Qed.
End props.

(** ** Runs *)

(** Runs of a machine whose processes have images without content. *)
Definition go (evs : list pevent) : option (psys unit) := pruns (fun x => x) evs (userinit tt).
Definition steps (c : Z) (n : nat) : list pevent := replicate n (Step c true).
(** The first process creates a process in entry 1. *)
Definition fork_run : list pevent := steps 0 1 ++ [UserCall 0 CFork] ++ steps 0 4.

Lemma steps_ok c n : 0 <= c < NCPU -> Forall pevent_ok (steps c n).
Proof. intros Hc. by apply Forall_replicate. Qed.
Lemma fork_run_ok : Forall pevent_ok fork_run.
Proof. apply Forall_app; split; [by apply steps_ok|]. apply Forall_app; split; [by repeat constructor|]. by apply steps_ok. Qed.
Lemma go_reach evs s : Forall pevent_ok evs -> go evs = Some s -> preach (fun x => x) tt s.
Proof. intros Hev. apply pruns_reach; [constructor|done]. Qed.

(** [kill] of process 0 succeeds and harms a later process: a free entry of the
    table has id 0, so [kill(0)] marks it killed and returns 0; [allocproc] does
    not reset the mark, and the next process that [fork] makes in the entry
    is born killed. *)
Theorem kill_zero_marks_next_process :
  exists s, go (steps 0 1 ++ [UserCall 0 (CKill 0)] ++ steps 0 2 ++ [UserCall 0 CFork] ++ steps 0 4) = Some s /\
    pt_pos s 0 = AtUser 2 /\ pe_pid (pt_proc s 1) = 2 /\ state_of s 1 = RUNNABLE /\ pe_killed (pt_proc s 1) = 1.
Proof. eexists. split; [vm_compute; reflexivity|]. vm_compute. done. Qed.

(** A [kill] can be lost: when it comes after the test of [killed] in [wait] and
    before the process sleeps, the process goes to sleep although it was killed,
    and stays asleep as long as its child runs. *)
Theorem wait_misses_kill :
  exists s, go (fork_run ++ steps 1 2 ++ [UserCall 1 CFork] ++ steps 1 5 ++ [UserCall 1 CWait] ++ steps 1 67
                ++ [UserCall 0 (CKill 2)] ++ steps 0 2 ++ steps 1 2) = Some s /\
    pt_pos s 0 = AtUser 0 /\ pe_pid (pt_proc s 1) = 2 /\ waiting s 1 /\ pe_killed (pt_proc s 1) = 1 /\ state_of s 2 = RUNNABLE.
Proof. eexists. split; [vm_compute; reflexivity|]. vm_compute. done. Qed.

(** ** Instances *)

(** The process in entry 1 runs on cpu 1 and exits with status 7; the first
    process collects it. *)
Definition exit_run : list pevent := fork_run ++ steps 1 2 ++ [UserCall 1 (CExit 7)] ++ steps 1 133.
Definition reap_run : list pevent := exit_run ++ [UserCall 0 CWait] ++ steps 0 3.
(** The first process sleeps in [wait], with a child that is runnable. *)
Definition wait_run : list pevent := fork_run ++ [UserCall 0 CWait] ++ steps 0 69.

Ltac run_ok := repeat (apply Forall_app; split); first [by apply steps_ok | by apply fork_run_ok | by repeat constructor].
Lemma exit_run_ok : Forall pevent_ok exit_run.
Proof. unfold exit_run. run_ok. Qed.
Lemma reap_run_ok : Forall pevent_ok reap_run.
Proof. unfold reap_run. apply Forall_app. split; [apply exit_run_ok|run_ok]. Qed.
Lemma wait_run_ok : Forall pevent_ok wait_run.
Proof. unfold wait_run. run_ok. Qed.

Lemma go_eq evs : go evs = pruns (fun x => x) evs (userinit tt).
Proof. done. Qed.
(** A run leads to a state that passes a test. *)
Lemma go_passes evs (f : psys unit -> bool) :
  (match go evs with Some s => f s | None => false end) = true -> exists s, go evs = Some s /\ f s = true.
Proof. destruct (go evs) as [s|]; [eauto|done]. Qed.
Ltac passes evs f := let s := fresh "s" in let Hs := fresh "Hs" in let H := fresh "H" in
  destruct (go_passes evs f) as (s & Hs & H); [vm_compute; reflexivity|exists s; split; [exact Hs|]].

Lemma exit_status_once_witness :
  exists s, go reap_run = Some s /\ pt_reaped s = [(2, 7)] /\ pt_exited s ≡ₚ pt_reaped s ++ zombies s.
Proof.
  passes reap_run (fun s : psys unit => bool_decide (pt_reaped s = [(2, 7)])). split; [by apply bool_decide_eq_true in H|].
  apply (exit_status_once (fun x => x) tt s). exact (go_reach _ _ reap_run_ok Hs).
Defined.

Lemma wait_no_lost_wakeup_witness :
  exists s, go wait_run = Some s /\ parent_of s 1 = Some 0 /\ ~ zombie_child s 0 1.
Proof.
  passes wait_run (fun s : psys unit => bool_decide (pt_wait s = None) && bool_decide (state_of s 0 = SLEEPING)
    && bool_decide (pe_chan (pt_proc s 0) = ProcChan 0) && bool_decide (parent_of s 1 = Some 0)).
  apply andb_true_iff in H as [[[H1%bool_decide_eq_true H2%bool_decide_eq_true]%andb_true_iff H3%bool_decide_eq_true]%andb_true_iff H4%bool_decide_eq_true].
  split; [exact H4|].
  apply (wait_no_lost_wakeup (fun x => x) tt s 0 1); [exact (go_reach _ _ wait_run_ok Hs)|exact H1|exact (conj H2 H3)].
Defined.

Lemma process_has_parent_witness :
  exists s, go exit_run = Some s /\ state_of s 1 = ZOMBIE /\
    (1 = pt_init s \/ (exists q, parent_of s 1 = Some q /\ live (state_of s q))
     \/ (state_of s 1 = USED /\ exists q pid, at_pos s q = ForkParent 1 pid)).
Proof.
  passes exit_run (fun s : psys unit => bool_decide (state_of s 1 = ZOMBIE)). apply bool_decide_eq_true in H. split; [exact H|].
  apply (process_has_parent (fun x => x) tt s 1); [exact (go_reach _ _ exit_run_ok Hs)|congruence].
Defined.

Lemma pids_unique_witness :
  exists s, go exit_run = Some s /\ (1 <= pe_pid (pt_proc s 0) /\ (0 <> 1 -> pe_pid (pt_proc s 0) <> pe_pid (pt_proc s 1))).
Proof.
  passes exit_run (fun s : psys unit => negb (bool_decide (state_of s 0 = UNUSED)) && negb (bool_decide (state_of s 1 = UNUSED))).
  apply andb_true_iff in H as [H1%negb_true_iff%bool_decide_eq_false H2%negb_true_iff%bool_decide_eq_false].
  assert (Hl : Z.of_nat (length exit_run) < 2 ^ 31 - 2) by (vm_compute; reflexivity). rewrite go_eq in Hs.
  exact (pids_unique (fun x => x) tt exit_run s 0 1 exit_run_ok Hl Hs H1 H2).
Defined.

(** Parent and child run on two processors. *)
Definition two_run : list pevent := fork_run ++ steps 1 2.
Lemma process_on_one_cpu_witness :
  exists s, go two_run = Some s /\ pt_cpu s 0 = Some 0 /\ pt_cpu s 1 = Some 1 /\
    (forall c c' k, pt_cpu s c = Some k -> pt_cpu s c' = Some k -> c = c') /\
    (forall k, state_of s k = RUNNING <-> on_cpu s k /\ locked s k = false) /\
    (forall k, on_cpu s k -> pe_img (pt_proc s k) <> None).
Proof.
  passes two_run (fun s : psys unit => bool_decide (pt_cpu s 0 = Some 0) && bool_decide (pt_cpu s 1 = Some 1)).
  apply andb_true_iff in H as [H1%bool_decide_eq_true H2%bool_decide_eq_true]. split; [exact H1|]. split; [exact H2|].
  apply (process_on_one_cpu (fun x => x) tt s). refine (go_reach _ _ _ Hs). unfold two_run. run_ok.
Defined.

Lemma proc_no_deadlock_witness : exists s, go exit_run = Some s /\ some_moves (fun x => x) s.
Proof.
  passes exit_run (fun s : psys unit => bool_decide (pt_cpu s 1 = None)). apply bool_decide_eq_true in H.
  apply (proc_no_deadlock (fun x => x) tt s 1); [exact (go_reach _ _ exit_run_ok Hs)|by split|by rewrite H].
Defined.

Lemma idle_unlocked s : pinv s -> forallb (fun c => bool_decide (pt_cpu s c = None)) (seqZ 0 NCPU) = true -> forall k, @locked unit s k = false.
Proof.
  intros Hi Hc k. unfold locked. destruct (pt_pos s k) eqn:Hp; try done. pose proof (co_entry _ (pi_cpus _ Hi) k) as He.
  rewrite Hp in He. destruct He as [[c E] _]. destruct (co_cpu _ (pi_cpus _ Hi) _ _ E) as [Hr _].
  rewrite forallb_forall in Hc. specialize (Hc c). rewrite bool_decide_eq_true in Hc.
  rewrite Hc in E; [done|]. apply list_elem_of_In, elem_of_seqZ. lia.
Qed.
Lemma scheduler_finds_witness :
  exists s, go wait_run = Some s /\ exists n s' q, Z.of_nat n <= NPROC + 1 /\ pruns (fun x => x) (replicate n (Step 0 true)) s = Some s' /\
    pt_cpu s' 0 = Some q /\ state_of s' q = RUNNING.
Proof.
  passes wait_run (fun s : psys unit => forallb (fun c => bool_decide (pt_cpu s c = None)) (seqZ 0 NCPU) && bool_decide (pt_cpu s 0 = None)
    && bool_decide (state_of s 1 = RUNNABLE)).
  apply andb_true_iff in H as [[H1 H2%bool_decide_eq_true]%andb_true_iff H3%bool_decide_eq_true].
  pose proof (go_reach _ _ wait_run_ok Hs) as Hr.
  apply (scheduler_finds (fun x => x) tt s 0 1); [exact Hr|exact (idle_unlocked s (preach_inv _ _ _ Hr) H1)|exact H2|exact H3].
Defined.
