(* ===== verification/Umalloc.v ===== *)
(** * The allocator of the user library

    user/umalloc.c: [free], [morecore] and [malloc] on the memory of a process,
    with the headers where the code keeps them, in front of the blocks.  The
    free blocks form a ring in the order of their addresses, through the static
    header [base].  The theorems: the calls return and keep the ring sorted,
    disjoint and coalesced; against a client that uses only what it was given
    they behave as an abstract allocator, so that blocks never overlap and keep
    what is written to them. *)

From stdpp Require Import base numbers list gmap.
From Stdlib Require Import ZArith Lia.
From S2P Require Import Prelude Blocks Monad Codec Mem.
Open Scope Z_scope.

(** The memory of the process, [freep], the size of the process and, for each
    coming [sbrk], whether the kernel has memory for it. *)
Record heap := mk_heap { h_mem : mem; h_freep : Z; h_sz : Z; h_grants : list bool }.
Definition set_mem (m : mem) (s : heap) : heap := mk_heap m (h_freep s) (h_sz s) (h_grants s).
Abbreviation HM := (M heap).

Definition load32 (a : Z) : M mem Z :=
  let! l := foldM (range 0 4) [] (fun l i => let! b := load (a + i) in ret (l ++ [b])) in
  ret (le_val l).
Definition store32 (a v : Z) : M mem unit :=
  forM (zip (range 0 4) (le_bytes 4 v)) (fun p => store (a + p.1) p.2).

(** [union header]: a pointer and a [uint] size in units of a header. *)
Definition sizeof_Header : Z := 16.
Definition get_ptr (p : Z) : HM Z := lift h_mem set_mem (load64 p).
Definition get_size (p : Z) : HM Z := lift h_mem set_mem (load32 (p + 8)).
Definition set_ptr (p v : Z) : HM unit := lift h_mem set_mem (store64 p v).
Definition set_size (p v : Z) : HM unit := lift h_mem set_mem (store32 (p + 8) v).
Definition set_freep (p : Z) : HM unit := modify (fun s => mk_heap (h_mem s) p (h_sz s) (h_grants s)).

(** What [sbrk] does to the memory of the process (sys_sbrk, growproc): whole
    pages become accessible, filled with zeros, or are taken away.  All of the
    memory of the machine is 128 megabytes. *)
Definition PHYS : Z := 2 ^ 27.
Definition PGUP (a : Z) : Z := (a + 4095) / 4096 * 4096.
Definition sbrk (n : Z) : HM Z := fun s =>
  let sz := h_sz s in
  if 0 <? n then
    if default false (head (h_grants s)) && (sz + n <=? PHYS)
    then Done sz (mk_heap (write_bytes (h_mem s) (PGUP sz) (replicate (Z.to_nat (PGUP (sz + n) - PGUP sz)) 0)) (h_freep s) (sz + n) (tail (h_grants s)))
    else Done (u64 (-1)) (mk_heap (h_mem s) (h_freep s) sz (tail (h_grants s)))
  else
    let sz' := if sz + n <? 0 then sz else sz + n in
    Done sz (mk_heap (filter (fun p => ~ (PGUP sz' <= p.1 < PGUP sz)) (h_mem s)) (h_freep s) sz' (h_grants s)).

Section umalloc.
Variable base : Z.  (* the address of the static header *)

(** There are at most this many headers. *)
Definition walk_fuel (s : heap) : nat := Z.to_nat (h_sz s / sizeof_Header).

(** The place of a block in the ring. *)
Fixpoint free_loop (fuel : nat) (bp p : Z) : HM Z :=
  match fuel with
  | O => blocked
  | S fuel =>
    let! q := get_ptr p in
    if (p <? bp) && (bp <? q) then ret p
    else if (q <=? p) && ((p <? bp) || (bp <? q)) then ret p
    else free_loop fuel bp q
  end.
(** Link [p] to [q], or make one block of them if they are adjacent. *)
Definition join (p q : Z) : HM unit :=
  let! n := get_size p in
  if p + sizeof_Header * n =? q then
    let! k := get_size q in
    set_size p (u32 (n + k));;
    let! r := get_ptr q in
    set_ptr p r
  else set_ptr p q.
Definition free (ap : Z) : HM unit :=
  let bp := ap - sizeof_Header in
  let! fuel := gets walk_fuel in
  let! p := bind (gets h_freep) (free_loop fuel bp) in
  let! q := get_ptr p in
  join bp q;;
  join p bp;;
  set_freep p.

Definition morecore (nu : Z) : HM Z :=
  let nu := if nu <? 4096 then 4096 else nu in
  let! p := sbrk (i32 (u64 (nu * sizeof_Header))) in
  if p =? u64 (-1) then ret 0
  else
    set_size p nu;;
    free (p + sizeof_Header);;
    gets h_freep.

(** The first block with [nunits] units, or its last [nunits] units. *)
Definition take_units (nunits prevp p size : Z) : HM Z :=
  let! p :=
    (if size =? nunits then
       let! q := get_ptr p in
       set_ptr prevp q;; ret p
     else
       set_size p (u32 (size - nunits));;
       let! n := get_size p in
       set_size (p + sizeof_Header * n) nunits;;
       ret (p + sizeof_Header * n)) in
  set_freep prevp;;
  ret (p + sizeof_Header).
Fixpoint malloc_loop (fuel : nat) (nunits prevp p : Z) : HM Z :=
  match fuel with
  | O => blocked
  | S fuel =>
    let! size := get_size p in
    if nunits <=? size then take_units nunits prevp p size
    else
      let! fp := gets h_freep in
      if p =? fp then
        let! p := morecore nunits in
        if p =? 0 then ret 0 else bind (get_ptr p) (malloc_loop fuel nunits p)
      else bind (get_ptr p) (malloc_loop fuel nunits p)
  end.
(** Once around the ring, and once more after [morecore]. *)
Definition malloc (nbytes : Z) : HM Z :=
  let nunits := u32 ((nbytes + sizeof_Header - 1) / sizeof_Header + 1) in
  let! fp := gets h_freep in
  when (fp =? 0) (set_ptr base base;; set_freep base;; set_size base 0);;
  let! fuel := gets (fun s => (2 * walk_fuel s + 2)%nat) in
  let! prevp := gets h_freep in
  bind (get_ptr prevp) (malloc_loop fuel nunits prevp).
End umalloc.

(** ** Headers in memory *)

Definition rd32 (m : mem) (a : Z) : Z := le_val (read_bytes m a 4).
(** [m'] is [m] with bytes changed, in the [n] bytes at [a] only. *)
Definition same_but (a n : Z) (m m' : mem) : Prop :=
  (forall x, ~ (a <= x < a + n) -> m' !! x = m !! x) /\ (forall x, is_Some (m !! x) -> is_Some (m' !! x)).

Lemma same_but_mapped a n m m' b k : same_but a n m m' -> mapped m b k -> mapped m' b k.
Proof. intros [_ Hs] Hm x Hx. by apply Hs, Hm. Qed.
Lemma same_but_trans a n m m' m'' : same_but a n m m' -> same_but a n m' m'' -> same_but a n m m''.
Proof. intros [H1 H2] [H3 H4]. split; [|auto]. intros x Hx. by rewrite H3, H1. Qed.
Lemma same_but_le a n b k m m' : same_but b k m m' -> a <= b -> b + k <= a + n -> same_but a n m m'.
Proof. intros [H1 H2] ??. split; [|done]. intros x Hx. apply H1. lia. Qed.
Lemma rd64_same a n m m' p : same_but a n m m' -> p + 8 <= a \/ a + n <= p -> rd64 m' p = rd64 m p.
Proof. intros [Hs _] Hp. apply rd64_ext. intros x Hx. apply Hs. lia. Qed.
Lemma rd32_same a n m m' p : same_but a n m m' -> p + 4 <= a \/ a + n <= p -> rd32 m' p = rd32 m p.
Proof. intros [Hs _] Hp. unfold rd32. rewrite (read_bytes_ext m m'); [done|]. intros x Hx. apply Hs. lia. Qed.
Lemma same_but_write m a l n : Z.of_nat (length l) = n -> same_but a n m (write_bytes m a l).
Proof.
  intros <-. split; intros x Hx; [by apply write_bytes_out|]. rewrite write_bytes_lookup. case_decide; [|done]. apply lookup_lt_is_Some_2. lia.
Qed.

Lemma set_mem_id s : set_mem (h_mem s) s = s.
Proof. by destruct s. Qed.
Lemma wp_get_ptr p (Q : Z -> heap -> Prop) s : mapped (h_mem s) p 8 -> Q (rd64 (h_mem s) p) s -> wp (get_ptr p) Q s.
Proof. intros Hm HQ. apply wp_lift. unfold wp. rewrite load64_done by done. by rewrite set_mem_id. Qed.
Lemma wp_get_size p (Q : Z -> heap -> Prop) s : mapped (h_mem s) (p + 8) 4 -> Q (rd32 (h_mem s) (p + 8)) s -> wp (get_size p) Q s.
Proof.
  intros Hm HQ. apply wp_lift. unfold wp, load32. cbn [bind]. rewrite foldM_load by (rewrite ?Z.add_0_r; done || lia). cbn [ret]. rewrite Z.add_0_r. by rewrite set_mem_id.
Qed.
Lemma wp_set_ptr p v (Q : unit -> heap -> Prop) s : mapped (h_mem s) p 16 -> 0 <= v < 2 ^ 64 ->
  (forall m, rd64 m p = v -> rd32 m (p + 8) = rd32 (h_mem s) (p + 8) -> same_but p 16 (h_mem s) m -> Q tt (set_mem m s)) -> wp (set_ptr p v) Q s.
Proof.
  intros Hm Hv HQ. apply wp_lift. unfold wp. rewrite store64_done by (eapply mapped_le; [| |exact Hm]; lia).
  assert (Hs : same_but p 8 (h_mem s) (write_bytes (h_mem s) p (le_bytes 8 v))) by (apply same_but_write; by rewrite le_bytes_length).
  apply HQ; [by rewrite rd64_write_eq, u64_small|apply (rd32_same _ _ _ _ _ Hs); lia|eapply same_but_le; [exact Hs|lia..]].
Qed.
Lemma wp_set_size p v (Q : unit -> heap -> Prop) s : mapped (h_mem s) p 16 -> 0 <= v < 2 ^ 32 ->
  (forall m, rd32 m (p + 8) = v -> rd64 m p = rd64 (h_mem s) p -> same_but p 16 (h_mem s) m -> Q tt (set_mem m s)) -> wp (set_size p v) Q s.
Proof.
  intros Hm Hv HQ. apply wp_lift. unfold wp, store32.
  assert (E : forM (zip (range 0 4) (le_bytes 4 v)) (fun q => store (p + 8 + q.1) q.2) (h_mem s) = Done tt (write_bytes (h_mem s) (p + 8) (le_bytes 4 v))).
  { replace 4 with (0 + Z.of_nat (length (le_bytes 4 v))) at 1 by (by rewrite le_bytes_length).
    rewrite forM_store_bytes; [by rewrite Z.add_0_r|apply le_bytes_is_bytes|]. rewrite le_bytes_length. eapply mapped_le; [| |exact Hm]; lia. }
  rewrite E. assert (Hs : same_but (p + 8) 4 (h_mem s) (write_bytes (h_mem s) (p + 8) (le_bytes 4 v))) by (apply same_but_write; by rewrite le_bytes_length).
  apply HQ; [|apply (rd64_same _ _ _ _ _ Hs); lia|eapply same_but_le; [exact Hs|lia..]].
  unfold rd32. pose proof (bytes_at_read _ _ _ (write_bytes_at (h_mem s) (p + 8) (le_bytes 4 v))) as Hr.
  rewrite le_bytes_length in Hr. change (Z.of_nat 4) with 4 in Hr. rewrite Hr, le_val_bytes. apply Z.mod_small. lia.
Qed.

(** ** The ring of free blocks *)

Abbreviation block := (Z * Z)%type.  (* address of the header, units *)
Definition bend (b : block) : Z := b.1 + 16 * Z.max 1 b.2.
Definition next (e : Z) (l : list block) : Z := match l with [] => e | b :: _ => b.1 end.
(** The headers of [l], the last one pointing to [e]. *)
Fixpoint linked (m : mem) (l : list block) (e : Z) : Prop :=
  match l with
  | [] => True
  | b :: l => rd64 m b.1 = next e l /\ rd32 m (b.1 + 8) = b.2 /\ mapped m b.1 (bend b - b.1) /\ linked m l e
  end.
(** In the order of the addresses, disjoint and not adjacent, up to [hi]. *)
Fixpoint sorted (l : list block) (hi : Z) : Prop :=
  match l with
  | [] => True
  | b :: l => 0 <= b.2 /\ bend b <= next hi l /\ (l <> [] -> b.1 + 16 * b.2 < next hi l) /\ sorted l hi
  end.
Definition joined (b : block) (l : list block) : list block :=
  match l with
  | c :: l' => if b.1 + 16 * b.2 =? c.1 then (b.1, b.2 + c.2) :: l' else b :: l
  | [] => [b]
  end.

Lemma next_app e l1 b l2 : next e (l1 ++ b :: l2) = next b.1 l1.
Proof. by destruct l1. Qed.
Lemma linked_app m l1 l2 e : linked m (l1 ++ l2) e <-> linked m l1 (next e l2) /\ linked m l2 e.
Proof.
  induction l1 as [|b l1 IH]; cbn [app linked]; [tauto|]. rewrite IH. replace (next e (l1 ++ l2)) with (next (next e l2) l1) by (by destruct l1). tauto.
Qed.
(** A write to one header leaves the others. *)
Lemma linked_same m m' a l e : same_but a 16 m m' -> Forall (fun b => bend b <= a \/ a + 16 <= b.1) l -> linked m l e -> linked m' l e.
Proof.
  intros Hs. induction 1 as [|b l Hb Hl IH]; cbn [linked]; [done|]. intros (H1 & H2 & H3 & H4). assert (Hw : b.1 + 16 <= bend b) by (unfold bend; lia).
  rewrite (rd64_same _ _ _ _ _ Hs), (rd32_same _ _ _ _ _ Hs) by lia. split_and!; try done; [|by apply IH]. by eapply same_but_mapped.
Qed.
Lemma sorted_ge l hi lo : sorted l hi -> lo <= next hi l -> Forall (fun b => lo <= b.1 /\ bend b <= hi) l /\ (lo <= hi).
Proof.
  revert lo. induction l as [|b l IH]; intros lo; cbn [sorted next]; [by split|]. intros (H0 & H1 & _ & H2) Hlo.
  destruct (IH (bend b) H2 H1) as [HF Hh]. unfold bend in *. split; [|lia]. constructor; [lia|]. eapply Forall_impl; [exact HF|]. cbn. lia.
Qed.
Lemma sorted_app l1 b l2 hi : sorted (l1 ++ b :: l2) hi -> Forall (fun c => bend c <= b.1) l1 /\ sorted (b :: l2) hi.
Proof.
  induction l1 as [|c l1 IH]; cbn [app]; [by split|]. cbn [sorted]. rewrite next_app. intros (H0 & H1 & _ & H2). destruct (IH H2) as [HF Hb]. split; [|done].
  constructor; [|done]. destruct l1 as [|d l1]; [done|]. cbn [next] in H1. apply Forall_cons in HF as [Hd _]. unfold bend in *. lia.
Qed.
Lemma sorted_after b l hi : sorted (b :: l) hi -> Forall (fun c => bend b <= c.1 /\ bend c <= hi) l /\ bend b <= hi.
Proof. cbn [sorted]. intros (_ & H1 & _ & H2). by apply sorted_ge. Qed.
Lemma sorted_replace l1 b b' l2 l2' hi : b.1 = b'.1 -> sorted (l1 ++ b :: l2) hi -> sorted (b' :: l2') hi -> sorted (l1 ++ b' :: l2') hi.
Proof.
  intros E H Hb. induction l1 as [|c l1 IH]; cbn [app] in *; [done|]. destruct H as (H0 & H1 & H2 & H3). cbn [sorted]. rewrite next_app in *. rewrite <- E. split_and!; try done; [|by apply IH].
  intros _. apply H2. by destruct l1.
Qed.
Lemma sorted_hi l hi hi' : hi <= hi' -> sorted l hi -> sorted l hi'.
Proof.
  intros Hh. induction l as [|b l IH]; cbn [sorted]; [done|]. intros (H0 & H1 & H2 & H3). split_and!; [done| | |by apply IH]; destruct l; cbn [next] in *; try done; lia.
Qed.
Lemma joined_head b l : exists n l', joined b l = (b.1, n) :: l'.
Proof. destruct b as [p n], l as [|c l]; cbn [joined]; [by eexists _, _|]. case_match; by eexists _, _. Qed.
Lemma joined_sorted b l hi : 0 <= b.2 -> Forall (fun c => 1 <= c.2) l -> sorted l hi -> bend b <= next hi l -> sorted (joined b l) hi.
Proof.
  intros Hb Hl Hs Hn. destruct l as [|c l]; cbn [joined]; [cbn [sorted next] in *; by split_and!|]. apply Forall_cons in Hl as [Hc _]. cbn [next] in Hn.
  destruct (Z.eqb_spec (b.1 + 16 * b.2) c.1) as [E|E].
  - cbn [sorted] in *. destruct Hs as (H0 & H1 & H2 & H3). unfold bend in *. cbn [fst snd]. split_and!; [lia|lia| |done]. intros H. specialize (H2 H). lia.
  - cbn [sorted next]. split_and!; [done|done| |apply Hs..]. intros _. unfold bend in Hn. lia.
Qed.
(** Sizes and addresses fit their types. *)
Lemma sorted_small l hi b : sorted l hi -> hi <= PHYS -> 0 < next hi l -> b ∈ l -> 0 < b.1 /\ b.1 < 2 ^ 64 /\ 0 <= b.2 < 2 ^ 31.
Proof.
  intros Hs Hh H0 Hb. assert (Hp : 0 <= b.2) by (clear -Hs Hb; induction l as [|c l IH]; [by apply elem_of_nil in Hb|]; apply elem_of_cons in Hb as [->|Hb]; [apply Hs|]; apply IH; [apply Hs|done]).
  destruct (sorted_ge l hi (next hi l) Hs ltac:(lia)) as [HF _]. rewrite Forall_forall in HF. destruct (HF b Hb). unfold bend, PHYS in *. lia.
Qed.

Lemma wp_join p n l e (Q : unit -> heap -> Prop) s : let m := h_mem s in
  rd32 m (p + 8) = n -> mapped m p (bend (p, n) - p) -> 0 < p -> 0 <= n -> linked m l e -> Forall (fun c => 1 <= c.2 /\ bend (p, n) <= c.1 /\ c.1 < 2 ^ 64) l ->
  0 <= e < 2 ^ 64 -> (l = [] -> p + 16 * n <> e) -> n + match l with [] => 0 | c :: _ => c.2 end < 2 ^ 32 ->
  (forall m', linked m' (joined (p, n) l) e -> same_but p 16 m m' -> Q tt (set_mem m' s)) -> wp (join p (next e l)) Q s.
Proof.
  intros m Hn Hm Hp H0 Hl Ha He Hne Hsz HQ. assert (Hm' : mapped m p 16) by (eapply mapped_le; [| |exact Hm]; unfold bend; cbn; lia).
  assert (Hsame : forall m1 l', same_but p 16 m m1 -> (exists l0, l = l0 ++ l') -> linked m l' e -> linked m1 l' e).
  { intros m1 l' Hs [l0 ->] Hl'. eapply linked_same; [exact Hs| |exact Hl']. apply Forall_app in Ha as [_ Ha]. eapply Forall_impl; [exact Ha|]. unfold bend; cbn; lia. }
  unfold join. apply wp_bind, wp_get_size; [eapply mapped_le; [| |exact Hm']; lia|]. fold m. rewrite Hn.
  destruct l as [|c l]; cbn [next joined fst snd] in *.
  - destruct (Z.eqb_spec (p + sizeof_Header * n) e) as [E|_]; [by apply Hne in E|]. apply wp_set_ptr; [done..|].
    intros m1 E1 E2 Hs. apply HQ; [|done]. cbn [linked next fst snd]. fold m in E2. rewrite E1, E2. split_and!; try done. by eapply same_but_mapped.
  - apply Forall_cons in Ha as Hac. destruct Hac as [(Hc1 & Hc2 & Hc3) Ha']. destruct Hl as (L1 & L2 & L3 & L4). unfold sizeof_Header.
    destruct (Z.eqb_spec (p + 16 * n) c.1) as [E|E].
    + apply wp_bind, wp_get_size; [eapply mapped_le; [| |exact L3]; unfold bend; lia|]. fold m. rewrite L2, u32_small by lia. apply wp_bind, wp_set_size; [done|lia|].
      intros m1 E1 E2 Hs1. apply wp_bind, wp_get_ptr; cbn [h_mem set_mem]; [eapply same_but_mapped; [exact Hs1|]; eapply mapped_le; [| |exact L3]; unfold bend; lia|].
      rewrite (rd64_same _ _ _ _ _ Hs1) by (unfold bend in *; cbn in *; lia). fold m. rewrite L1. apply wp_set_ptr; cbn [h_mem set_mem]; [by eapply same_but_mapped| |].
      { destruct l as [|d l]; [done|]. apply Forall_cons in Ha' as [? _]. cbn [next]. unfold bend in *. cbn in *. lia. }
      intros m2 E3 E4 Hs2. assert (Hs := same_but_trans _ _ _ _ _ Hs1 Hs2). change (set_mem m2 (set_mem m1 s)) with (set_mem m2 s). apply HQ; [|done].
      cbn [linked fst snd]. rewrite E3, E4, E1. split_and!; try done; [|apply Hsame; [done|by exists [c]|done]].
      eapply same_but_mapped; [exact Hs|]. intros x Hx. unfold bend in *. cbn [fst snd] in *. destruct (decide (x < c.1)); [apply Hm|apply L3]; lia.
    + apply wp_set_ptr; [done|unfold bend in *; cbn in *; lia|]. intros m1 E1 E2 Hs. apply HQ; [|done].
      assert (Hl1 : linked m1 (c :: l) e) by (apply (Hsame m1 (c :: l)); [done|by exists []|by split_and!]).
      split; [done|]. split; [cbn [fst snd]; by rewrite E2|]. split; [by eapply same_but_mapped|done].
Qed.

(** ** The heap *)

Section heap.
Variable base : Z.

(** The free blocks [l] after [base]. *)
Record ring_ok (s : heap) (l : list block) : Prop := {
  rk_base : 0 < base;
  rk_size : h_sz s <= PHYS;
  rk_freep : exists n, (h_freep s, n) ∈ (base, 0) :: l;
  rk_units : Forall (fun b => 1 <= b.2) l;
  rk_linked : linked (h_mem s) ((base, 0) :: l) base;
  rk_sorted : sorted ((base, 0) :: l) (h_sz s) }.
Definition apart (a n : Z) (b : block) : Prop := a + 16 * n <= b.1 \/ bend b <= a.
(** A block that is not free. *)
Definition block_ok (s : heap) (l : list block) (a n : Z) : Prop :=
  1 <= n /\ base < a /\ a + 16 * n <= h_sz s /\ rd32 (h_mem s) (a + 8) = n /\ mapped (h_mem s) a (16 * n) /\ Forall (apart a n) ((base, 0) :: l).
(** The free blocks and the blocks in use. *)
Record heap_ok (s : heap) (l : list block) (live : gmap Z Z) : Prop := {
  hk_ring : ring_ok s l;
  hk_page : mapped (h_mem s) (h_sz s) (PGUP (h_sz s) - h_sz s);
  hk_live : forall a n, live !! a = Some n -> block_ok s l a n;
  hk_disjoint : forall a n a' n', live !! a = Some n -> live !! a' = Some n' -> a < a' -> a + 16 * n <= a' }.
(** The blocks in use have the contents they had. *)
Definition kept (live : gmap Z Z) (m m' : mem) : Prop :=
  forall a n x, live !! a = Some n -> a <= x < a + 16 * n -> m' !! x = m !! x.

Lemma block_kept s s' l l' a n : block_ok s l a n -> (forall x, a <= x < a + 16 * n -> h_mem s' !! x = h_mem s !! x) -> h_sz s <= h_sz s' ->
  Forall (apart a n) ((base, 0) :: l') -> block_ok s' l' a n.
Proof.
  intros (H1 & H2 & H3 & H4 & H5 & _) Hm Hz Ha. split_and!; try done; [lia| |].
  - rewrite <- H4. unfold rd32. f_equal. apply read_bytes_ext. intros x Hx. apply Hm. lia.
  - intros x Hx. rewrite Hm by done. by apply H5.
Qed.

(** The walk of [free] ends at the last block below the address. *)
Lemma free_loop_below bp l1 p l2 (Q : Z -> heap -> Prop) s fuel : linked (h_mem s) (l1 ++ p :: l2) base -> sorted (l1 ++ p :: l2) (h_sz s) -> base < bp ->
  Forall (fun b => b.1 < bp) (l1 ++ [p]) -> Forall (fun b => bp < b.1) l2 -> (length l1 < fuel)%nat -> base <= p.1 -> Q p.1 s -> wp (free_loop fuel bp (next p.1 l1)) Q s.
Proof.
  intros Hl Hs Hb. revert fuel Hl Hs. induction l1 as [|b l1 IH]; intros [|fuel] Hl Hs H1 H2 Hf Hp HQ; cbn [length] in Hf; try lia; cbn [free_loop next].
  - apply Forall_cons in H1 as [H1 _]. destruct Hl as (L1 & L2 & L3 & _). apply wp_bind, wp_get_ptr; [eapply mapped_le; [| |exact L3]; unfold bend; lia|]. rewrite L1.
    destruct l2 as [|c l2]; cbn [next].
    + destruct (Z.ltb_spec p.1 bp), (Z.ltb_spec bp base), (Z.leb_spec base p.1); try lia. done.
    + apply Forall_cons in H2 as [H2 _]. destruct (Z.ltb_spec p.1 bp), (Z.ltb_spec bp c.1); try lia. done.
  - cbn [app] in *. apply Forall_cons in H1 as [H1 H1']. destruct Hl as (L1 & L2 & L3 & L4). destruct Hs as (S0 & S1 & _ & S2). rewrite next_app in *.
    apply wp_bind, wp_get_ptr; [eapply mapped_le; [| |exact L3]; unfold bend; lia|]. rewrite L1.
    assert (Hq : next p.1 l1 < bp) by (destruct l1; cbn [next app] in *; by apply Forall_cons in H1' as [? _]).
    unfold bend in S1. destruct (Z.ltb_spec bp (next p.1 l1)), (Z.leb_spec (next p.1 l1) b.1); try lia. rewrite andb_false_r. cbn [andb]. apply IH; try done. lia.
Qed.
Lemma free_loop_above bp l2 (Q : Z -> heap -> Prop) s fuel j : linked (h_mem s) l2 base -> sorted l2 (h_sz s) -> base < bp -> Forall (fun b => bp < b.1) l2 ->
  (forall fuel, (j <= fuel)%nat -> wp (free_loop fuel bp base) Q s) -> (length l2 + j <= fuel)%nat -> wp (free_loop fuel bp (next base l2)) Q s.
Proof.
  intros Hl Hs Hb H2 Hj. revert fuel Hl Hs H2. induction l2 as [|c l2 IH]; intros fuel Hl Hs H2 Hf; cbn [next length] in *; [by apply Hj|].
  destruct fuel as [|fuel]; [lia|]. cbn [free_loop]. apply Forall_cons in H2 as [H2 H2']. destruct Hl as (L1 & L2 & L3 & L4). destruct Hs as (S0 & S1 & _ & S2).
  apply wp_bind, wp_get_ptr; [eapply mapped_le; [| |exact L3]; unfold bend; lia|]. rewrite L1. destruct (Z.ltb_spec c.1 bp); [lia|]. cbn [andb orb].
  assert (Hq : (next base l2 <=? c.1) && (bp <? next base l2) = false).
  { destruct l2 as [|d l2]; cbn [next] in *; unfold bend in S1; destruct (Z.leb_spec base c.1), (Z.ltb_spec bp base); try lia; try done; destruct (Z.leb_spec d.1 c.1); try lia; done. }
  rewrite Hq. apply IH; try done. lia.
Qed.
Lemma ring_split bp b l hi : Forall (fun b => b.1 <> bp) l -> sorted (b :: l) hi -> b.1 < bp ->
  exists l1 p l2, b :: l = l1 ++ p :: l2 /\ Forall (fun b => b.1 < bp) (l1 ++ [p]) /\ Forall (fun b => bp < b.1) l2.
Proof.
  intros Hl. revert b. induction Hl as [|c l Hc Hl IH]; intros b Hs Hb; [exists [], b, []; split; [done|by repeat constructor]|].
  destruct (decide (c.1 < bp)) as [Hlt|Hge].
  - destruct (IH c (proj2 (proj2 (proj2 Hs))) Hlt) as (l1 & p & l2 & E & H1 & H2). exists (b :: l1), p, l2. rewrite E. split; [done|]. split; [by constructor|done].
  - exists [], b, (c :: l). split; [done|]. split; [by repeat constructor|]. destruct Hs as (_ & _ & _ & Hs). destruct (sorted_after _ _ _ Hs) as [HF _].
    constructor; [lia|]. eapply Forall_impl; [exact HF|]. unfold bend. cbn. lia.
Qed.

Lemma sorted_suffix l1 l2 hi : sorted (l1 ++ l2) hi -> sorted l2 hi.
Proof. destruct l2; [done|]. intros Hs. by apply sorted_app in Hs as [_ Hs]. Qed.
Lemma ring_length l hi : sorted l hi -> 0 < next hi l -> 16 * Z.of_nat (length l) < hi.
Proof.
  intros Hs H0. assert (Hg : forall lo, lo <= next hi l -> lo + 16 * Z.of_nat (length l) <= hi).
  { clear H0. induction l as [|b l IH]; intros lo Hlo; cbn [length next] in *; [lia|]. destruct Hs as (_ & S1 & _ & S2). pose proof (IH S2 _ S1). unfold bend in *. lia. }
  specialize (Hg (next hi l) ltac:(lia)). lia.
Qed.
Lemma free_find bp l s (Q : Z -> heap -> Prop) : ring_ok s l -> base < bp -> Forall (fun b => b.1 <> bp) l ->
  (forall l1 p l2, (base, 0) :: l = l1 ++ p :: l2 -> Forall (fun b => b.1 < bp) (l1 ++ [p]) -> Forall (fun b => bp < b.1) l2 -> Q p.1 s) ->
  wp (free_loop (walk_fuel s) bp (h_freep s)) Q s.
Proof.
  intros [H0 Hz [n Hf] Hu Hl Hs] Hb Hne HQ. destruct (ring_split bp (base, 0) l _ Hne Hs Hb) as (l1 & p & l2 & E & H1 & H2). specialize (HQ _ _ _ E H1 H2).
  assert (Hlen : (length ((base, 0%Z) :: l) <= walk_fuel s)%nat).
  { pose proof (ring_length _ _ Hs H0). unfold walk_fuel, sizeof_Header. apply Nat2Z.inj_le. rewrite Z2Nat.id by (apply Z.div_pos; lia). apply Z.div_le_lower_bound; lia. }
  assert (Hp : base <= p.1). { destruct l1 as [|c l1]; injection E as <- ->; [done|]. apply (sorted_app ((base, 0) :: l1)) in Hs as [HF _]. apply Forall_cons in HF as [HF _]. unfold bend in HF. cbn in HF. lia. }
  rewrite E in *. rewrite length_app in Hlen. cbn [length] in Hlen.
  apply elem_of_app in Hf as [[a [b ->]]%list_elem_of_split|[<-|Hf]%elem_of_cons].
  - rewrite <- app_assoc in *. apply linked_app in Hl as [_ Hl]. apply sorted_suffix in Hs. apply Forall_app in H1 as [_ H1]. rewrite length_app in Hlen.
    apply (free_loop_below bp ((h_freep s, n) :: b) p l2); try done. cbn [length] in *. lia.
  - apply linked_app in Hl as [_ Hl]. apply sorted_suffix in Hs. apply Forall_app in H1 as [_ H1]. apply (free_loop_below bp [] (h_freep s, n) l2); try done. cbn [length]. lia.
  - apply list_elem_of_split in Hf as [a [b ->]]. assert (Hn : next p.1 l1 = base) by (destruct l1; by injection E as <- _).
    apply (free_loop_above bp ((h_freep s, n) :: b) Q s _ (S (length l1))); [by rewrite !app_comm_cons, app_assoc, linked_app in Hl; apply Hl| |done|by apply Forall_app in H2 as [_ H2]| |].
    { rewrite app_comm_cons, app_assoc in Hs. by apply sorted_suffix in Hs. }
    + intros fuel Hfuel. rewrite <- Hn. apply (free_loop_below bp l1 p (a ++ (h_freep s, n) :: b)); done.
    + rewrite length_app in Hlen. cbn [length] in *. lia.
Qed.

Lemma joined_apart a n b l : 1 <= n -> 0 <= b.2 -> Forall (fun c => 1 <= c.2 /\ bend b <= c.1) l -> apart a n b -> Forall (apart a n) l -> Forall (apart a n) (joined b l).
Proof.
  intros Hn Hb Hl Ha. destruct l as [|c l]; cbn [joined]; [by constructor|]. intros [Hc Hl']%Forall_cons. apply Forall_cons in Hl as [Hcb _].
  destruct (Z.eqb_spec (b.1 + 16 * b.2) c.1); constructor; [|done|done|by constructor]. unfold apart, bend in *. cbn [fst snd]. lia.
Qed.
Lemma joined_units b l : 1 <= b.2 -> Forall (fun c => 1 <= c.2) l -> Forall (fun c => 1 <= c.2) (joined b l).
Proof.
  intros Hb Hl. destruct l as [|c l]; cbn [joined]; [by constructor|]. apply Forall_cons in Hl as Hl'. destruct Hl' as [Hc Hl']. case_match; constructor; try done. cbn. lia.
Qed.
Lemma joined_length b l : (length (joined b l) <= S (length l))%nat.
Proof. destruct l; cbn [joined]; [done|]. case_match; cbn [length]; lia. Qed.
Lemma joined_holds b l n : n <= b.2 -> Forall (fun c => 1 <= c.2) l -> exists c, c ∈ joined b l /\ n <= c.2.
Proof.
  intros Hn Hl. destruct l as [|c l]; cbn [joined]; [exists b; by rewrite list_elem_of_singleton|]. apply Forall_cons in Hl as [Hc _]. case_match; eexists; (split; [by left|]); cbn; lia.
Qed.
(** The block that holds a released one is in the ring. *)
Lemma joined_keeps b l c n : c ∈ l -> n <= c.2 -> 0 <= b.2 -> exists d, d ∈ joined b l /\ n <= d.2.
Proof.
  intros Hc Hn Hb. destruct l as [|d l]; [by apply elem_of_nil in Hc|]. cbn [joined]. case_match.
  - apply elem_of_cons in Hc as [->|Hc]; [exists (b.1, b.2 + d.2); split; [by left|cbn; lia]|exists c; split; [by right|done]].
  - exists c. split; [by right|done].
Qed.

(** What [free] makes of the ring. *)
Definition released (l l' : list block) (b : block) : Prop :=
  Forall (fun c => 1 <= c.2) l' /\ (length l' <= S (length l))%nat /\ (exists c, c ∈ l' /\ b.2 <= c.2) /\
  forall a n, 1 <= n -> apart a n b -> Forall (apart a n) ((base, 0) :: l) -> Forall (apart a n) ((base, 0) :: l').

(** Only headers of free blocks are written. *)
Definition headers_only (l : list block) (m m' : mem) : Prop :=
  (forall x, Forall (fun b => ~ (b.1 <= x < bend b)) l -> m' !! x = m !! x) /\ (forall x, is_Some (m !! x) -> is_Some (m' !! x)).
Lemma same_but_region l a b m m' : same_but a 16 m m' -> b ∈ l -> b.1 <= a -> a + 16 <= bend b -> headers_only l m m'.
Proof. intros [H1 H2] Ha ??. split; [|done]. intros x Hx. apply H1. rewrite Forall_forall in Hx. specialize (Hx _ Ha). lia. Qed.
Lemma same_but_headers l a k m m' : same_but a 16 m m' -> (a, k) ∈ l -> headers_only l m m'.
Proof. intros Hs Ha. eapply same_but_region; [exact Hs|exact Ha|..]; unfold bend; cbn; lia. Qed.
Lemma headers_only_trans l m m' m'' : headers_only l m m' -> headers_only l m' m'' -> headers_only l m m''.
Proof. intros [H1 H2] [H3 H4]. split; [|auto]. intros x Hx. by rewrite H3, H1. Qed.

Section place.
Context (l l1 l2 : list block) (p : block) (a n hi : Z).
Hypothesis (E : (base, 0) :: l = l1 ++ p :: l2) (Hu : Forall (fun b => 1 <= b.2) l) (Hs : sorted ((base, 0) :: l) hi) (Hn : 1 <= n) (Hb : base < a).
Hypothesis (Ha : Forall (apart a n) ((base, 0) :: l)) (H1 : Forall (fun b => b.1 < a) (l1 ++ [p])) (H2 : Forall (fun b => a < b.1) l2) (Hhi : a + 16 * n <= hi).
Let L := joined (a, n) l2.

Lemma place_before : Forall (fun b => bend b <= p.1) l1 /\ bend p <= a /\ 0 <= p.2.
Proof.
  rewrite E in Hs, Ha. apply sorted_app in Hs as [HF HS]. split; [done|]. apply Forall_app in H1 as [_ [H1' _]%Forall_cons]. apply Forall_app in Ha as [_ [Ha' _]%Forall_cons].
  split; [|by destruct HS]. unfold apart in Ha'. lia.
Qed.
Lemma place_after : Forall (fun c => 1 <= c.2 /\ bend (a, n) <= c.1) l2 /\ bend (a, n) <= next hi l2 /\ sorted l2 hi.
Proof.
  assert (HF : Forall (fun c => 1 <= c.2 /\ bend (a, n) <= c.1) l2).
  { assert (Hu2 : Forall (fun b => 1 <= b.2) l2). { destruct l1 as [|b l1']; injection E as _ ->; [done|]. by apply Forall_app in Hu as [_ [_ Hu']%Forall_cons]. }
    rewrite E in Ha. apply Forall_app in Ha as [_ [_ Ha']%Forall_cons]. apply Forall_forall. intros c Hc. rewrite Forall_forall in Ha', H2, Hu2. specialize (Ha' c Hc). specialize (H2 c Hc). specialize (Hu2 c Hc). unfold apart, bend in *. cbn [fst snd]. lia. }
  split; [done|]. rewrite E in Hs. apply sorted_suffix in Hs. destruct Hs as (_ & _ & _ & HS). split; [|done]. destruct l2; cbn [next]; [unfold bend; cbn; lia|]. by apply Forall_cons in HF as [[_ HF] _].
Qed.
Lemma place_L : sorted L hi /\ Forall (fun c => 1 <= c.2 /\ bend p <= c.1) L /\ next base L = a /\ L <> [].
Proof.
  destruct place_after as (A1 & A2 & A3). destruct place_before as (B1 & B2 & B3). assert (HU : Forall (fun c => 1 <= c.2) l2) by (eapply Forall_impl; [exact A1|]; cbn; tauto).
  assert (HS : sorted L hi) by (by apply joined_sorted; [cbn; lia|..]). split; [done|]. destruct (joined_head (a, n) l2) as (k & L' & EL). fold L in EL.
  split; [|by rewrite EL]. assert (HUL : Forall (fun c => 1 <= c.2) L) by (by apply joined_units). destruct (sorted_ge L hi a HS) as [HG _]; [by rewrite EL|].
  apply Forall_forall. intros c Hc. rewrite Forall_forall in HUL, HG. split; [by apply HUL|]. destruct (HG c Hc). lia.
Qed.
Lemma place_released : exists l', (base, 0) :: l' = l1 ++ joined p L /\ released l l' (a, n) /\ sorted ((base, 0) :: l') hi.
Proof.
  destruct place_before as (B1 & B2 & B3). destruct place_L as (HS & HL & HN & Hne). destruct place_after as (A1 & A2 & A3).
  assert (HU2 : Forall (fun c => 1 <= c.2) l2) by (eapply Forall_impl; [exact A1|]; cbn; tauto).
  assert (HUL : Forall (fun c => 1 <= c.2) L) by (by apply joined_units).
  assert (Hsp : sorted (l1 ++ joined p L) hi).
  { destruct (joined_head p L) as (k & L' & EL). rewrite EL. rewrite E in Hs. apply (sorted_replace l1 p (p.1, k) l2); [done|done|]. rewrite <- EL. apply joined_sorted; try done. destruct L; [done|]. by apply Forall_cons in HL as [[_ HL] _]. }
  assert (Hap : forall b k, 1 <= k -> apart b k (a, n) -> Forall (apart b k) ((base, 0) :: l) -> Forall (apart b k) (l1 ++ joined p L)).
  { intros b k Hk Hbk Hl. rewrite E in Hl. apply Forall_app in Hl as [Hl1 [Hlp Hl2]%Forall_cons]. apply Forall_app. split; [done|]. apply joined_apart; try done. apply joined_apart; try done. cbn. lia. }
  destruct (joined_holds (a, n) l2 n ltac:(cbn; lia) HU2) as (c & Hc & Hcn). fold L in Hc. pose proof (joined_length (a, n) l2) as J1. pose proof (joined_length p L) as J2. fold L in J1.
  destruct l1 as [|b l1'].
  - injection E as <- ->. exists L. replace (joined (base, 0) L) with ((base, 0) :: L) in *.
    2: { destruct L as [|d L']; [done|]. cbn [joined fst snd next] in *. destruct (Z.eqb_spec (base + 16 * 0) d.1); [lia|done]. }
    split; [done|]. split; [|done]. split; [done|]. split; [done|]. split; [by exists c|done].
  - injection E as <- ->. exists (l1' ++ joined p L). split; [done|]. split; [|done]. apply Forall_app in Hu as [Hu1 [Hup _]%Forall_cons].
    split; [apply Forall_app; split; [done|by apply joined_units]|]. split; [rewrite !length_app; cbn [length]; lia|]. split; [|done].
    destruct (joined_keeps p L c n Hc Hcn B3) as (d & Hd & Hdn). exists d. split; [|done]. apply elem_of_app. by right.
Qed.
(** The two links that [free] makes. *)
Lemma wp_place s (Q : unit -> heap -> Prop) : hi <= PHYS -> 0 < base -> linked (h_mem s) ((base, 0) :: l) base -> rd32 (h_mem s) (a + 8) = n -> mapped (h_mem s) a (16 * n) ->
  (forall m, linked m (l1 ++ joined p L) base -> headers_only ((a, n) :: (base, 0) :: l) (h_mem s) m -> Q tt (set_mem m s)) -> wp (join a (next base l2);; join p.1 a) Q s.
Proof.
  intros Hz H0 Hl Hrd Hm HQ. destruct place_before as (B1 & B2 & B3). destruct place_after as (A1 & A2 & A3). destruct place_L as (HS & HL & HN & Hne).
  assert (Hpin : p ∈ (base, 0) :: l) by (rewrite E; apply elem_of_app; right; by left). destruct (sorted_small _ _ p Hs Hz H0 Hpin) as (P1 & P2 & P3).
  assert (Hsmall : forall R c, sorted R (hi) -> c ∈ R -> 0 < next (hi) R -> c.1 < 2 ^ 64 /\ 0 <= c.2 < 2 ^ 31) by (intros R c HR Hc HRb; by destruct (sorted_small R (hi) c HR Hz HRb Hc) as (_ & ? & ?)).
  assert (Hn2 : 0 < next (hi) l2) by (unfold bend in A2; cbn in A2; lia). assert (HnL : 0 < next (hi) L) by (destruct L; [done|]; cbn [next] in *; lia).
  assert (Hbase : 0 <= base < 2 ^ 64) by (unfold PHYS in *; lia). rewrite E in Hl. apply linked_app in Hl as [Hl1 (L1 & L2 & L3 & L4)]. cbn [next] in Hl1.
  apply wp_bind, (wp_join a n l2 base); [done| |lia|lia|done| |done|lia| |].
  { eapply mapped_le; [| |exact Hm]; unfold bend; cbn; lia. }
  { apply Forall_forall. intros c Hc. rewrite Forall_forall in A1. destruct (A1 c Hc), (Hsmall l2 c A3 Hc Hn2). done. }
  { destruct l2 as [|c l2']; [unfold PHYS in *; lia|]. destruct (Hsmall (c :: l2') c A3 ltac:(by left) Hn2). unfold PHYS in *. lia. }
  intros m1 Hm1 Hs1. fold L in Hm1. rewrite <- HN. assert (Hw : p.1 + 16 <= bend p) by (unfold bend; lia).
  apply (wp_join p.1 p.2 L base); cbn [h_mem set_mem]; [by rewrite (rd32_same _ _ _ _ _ Hs1) by lia| |done|done|done| |done|done| |].
  { rewrite <- surjective_pairing. by eapply same_but_mapped. }
  { rewrite <- surjective_pairing. apply Forall_forall. intros c Hc. rewrite Forall_forall in HL. destruct (HL c Hc), (Hsmall L c HS Hc HnL). done. }
  { destruct L as [|c L']; [lia|]. destruct (Hsmall (c :: L') c HS ltac:(by left) HnL). lia. }
  intros m2 Hm2 Hs2. rewrite <- surjective_pairing in Hm2. change (set_mem m2 (set_mem m1 s)) with (set_mem m2 s). apply HQ.
  - apply linked_app. split; [|done]. destruct (joined_head p L) as (k & L' & EL). rewrite EL. cbn [next fst].
    eapply linked_same; [exact Hs2| |]. { eapply Forall_impl; [exact B1|]. cbn. tauto. }
    eapply linked_same; [exact Hs1| |exact Hl1]. eapply Forall_impl; [exact B1|]. cbn. lia.
  - eapply headers_only_trans; [eapply same_but_headers; [exact Hs1|by left]|]. eapply (same_but_headers _ p.1 p.2); [exact Hs2|]. rewrite <- surjective_pairing. by right.
Qed.
End place.

Lemma wp_free l a n s (Q : unit -> heap -> Prop) : ring_ok s l -> block_ok s l a n ->
  (forall l' m p, let s' := mk_heap m p (h_sz s) (h_grants s) in ring_ok s' l' -> released l l' (a, n) -> headers_only ((a, n) :: (base, 0) :: l) (h_mem s) m -> Q tt s') ->
  wp (free (a + sizeof_Header)) Q s.
Proof.
  intros Hr (Hn & Hb & Hhi & Hrd & Hm & Ha) HQ. unfold free. replace (a + sizeof_Header - sizeof_Header) with a by lia. apply wp_bind, wp_gets, wp_bind, wp_bind, wp_gets.
  apply (free_find a l s); [done|done| |].
  { apply Forall_cons in Ha as [_ Ha]. eapply Forall_impl; [exact Ha|]. unfold apart, bend. intros c Hc Hca. lia. }
  intros l1 p l2 E H1 H2. destruct Hr as [H0 Hz Hf Hu Hl Hs]. edestruct (place_before l l1 l2 p a n) as (B1 & B2 & B3); [eassumption..|].
  edestruct (place_after l l1 l2 p a n) as (A1 & A2 & A3); [eassumption..|]. edestruct (place_L l l1 l2 p a n) as (HS & HL & HN & Hne); [eassumption..|].
  edestruct (place_released l l1 l2 p a n) as (l' & E' & Hrel & Hs'); [eassumption..|]. set (L := joined (a, n) l2) in *.
  pose proof Hl as Hl'. rewrite E in Hl'. apply linked_app in Hl' as [_ (L1 & L2 & L3 & L4)].
  apply wp_bind, wp_get_ptr; [eapply mapped_le; [| |exact L3]; unfold bend; lia|]. rewrite L1. apply (wp_bind_assoc (join a _) (fun _ => join p.1 a) (fun _ => set_freep p.1)).
  eapply wp_bind, (wp_place l l1 l2 p a n); [eassumption..|]. intros m Hm1 Hh. apply wp_modify. apply (HQ l'); [|done|done].
  constructor; cbn [h_mem h_freep h_sz]; try done; [|apply Hrel|by rewrite E']. rewrite E'. destruct (joined_head p L) as (k & L' & ->). exists k. apply elem_of_app. right. by left.
Qed.

(** ** The search of [malloc] *)

Section search.
Context (nu : Z) (l : list block) (s : heap) (Q : Z -> heap -> Prop) (j : nat).
Hypothesis (Hok : ring_ok s l) (Hnu : 1 <= nu).
Let R := (base, 0) :: l.
Hypothesis Hfit : forall l1 b c l2, R = l1 ++ b :: c :: l2 -> nu <= c.2 -> wp (take_units nu b.1 c.1 c.2) Q s.
Hypothesis Hmore : Forall (fun b => b.2 < nu) l -> forall fuel, (j <= fuel)%nat ->
  wp (let! p := morecore nu in if p =? 0 then ret 0 else bind (get_ptr p) (malloc_loop fuel nu p)) Q s.

(** One turn at the block [c], whose predecessor is [b]. *)
Lemma wp_turn fuel b c q : c ∈ R -> rd64 (h_mem s) c.1 = q ->
  (nu <= c.2 -> wp (take_units nu b c.1 c.2) Q s) ->
  (c.2 < nu -> c.1 = h_freep s -> wp (let! p := morecore nu in if p =? 0 then ret 0 else bind (get_ptr p) (malloc_loop fuel nu p)) Q s) ->
  (c.2 < nu -> c.1 <> h_freep s -> wp (malloc_loop fuel nu c.1 q) Q s) ->
  wp (malloc_loop (S fuel) nu b c.1) Q s.
Proof.
  intros Hc Hq H1 H2 H3. destruct Hok as [_ _ _ _ Hl _]. apply list_elem_of_split in Hc as (a & d & E). unfold R in E. rewrite E in Hl. apply linked_app in Hl as [_ (L1 & L2 & L3 & _)].
  cbn [malloc_loop]. apply wp_bind, wp_get_size; [eapply mapped_le; [| |exact L3]; unfold bend; lia|]. rewrite L2.
  destruct (Z.leb_spec nu c.2); [by apply H1|]. apply wp_bind, wp_gets. destruct (Z.eqb_spec c.1 (h_freep s)); [by apply H2|].
  apply wp_bind, wp_get_ptr; [eapply mapped_le; [| |exact L3]; unfold bend; lia|]. rewrite Hq. by apply H3.
Qed.
Lemma ring_next l1 b l2 : R = l1 ++ b :: l2 -> b ∈ R /\ rd64 (h_mem s) b.1 = next base l2.
Proof.
  intros E. split; [rewrite E; apply elem_of_app; right; by left|]. destruct Hok as [_ _ _ _ Hl _]. fold R in Hl. rewrite E in Hl. by apply linked_app in Hl as [_ (L1 & _)].
Qed.
Lemma ring_lt l1 b l2 c : R = l1 ++ b :: l2 -> c ∈ l2 -> b.1 < c.1.
Proof.
  intros E Hc. destruct Hok as [_ _ _ _ _ Hs]. fold R in Hs. rewrite E in Hs. apply sorted_suffix, sorted_after in Hs as [HF _]. rewrite Forall_forall in HF. destruct (HF c Hc). unfold bend in *. lia.
Qed.
(** From [b] to the block [freep] points to. *)
Lemma wp_walk_to fuel l1 b w f l2 : R = l1 ++ b :: w ++ f :: l2 -> f.1 = h_freep s -> Forall (fun c => c.2 < nu) (l1 ++ b :: l2) -> (S (length w) + j <= fuel)%nat -> wp (malloc_loop fuel nu b.1 (next f.1 w)) Q s.
Proof.
  revert fuel l1 b. induction w as [|c w IH]; intros [|fuel] l1 b E Hf Hno Hfuel; cbn [length] in Hfuel; try lia; cbn [app next] in *.
  - assert (E' : R = (l1 ++ [b]) ++ f :: l2) by (by rewrite <- app_assoc). destruct (ring_next _ _ _ E') as [Hin Hq]. eapply wp_turn; [done|exact Hq|by eapply Hfit| |done].
    intros Hlt _. apply Hmore; [|lia]. assert (Hall : Forall (fun c => c.2 < nu) R). { rewrite E. apply Forall_app in Hno as [? [? ?]%Forall_cons]. apply Forall_app. split; [done|]. by repeat constructor. }
    by apply Forall_cons in Hall as [_ Hall].
  - assert (E' : R = (l1 ++ [b]) ++ c :: w ++ f :: l2) by (by rewrite <- app_assoc). destruct (ring_next _ _ _ E') as [Hin Hq]. rewrite next_app in Hq. eapply wp_turn; [done|exact Hq|by eapply Hfit| |].
    + intros _ Ec. assert (Hlt := ring_lt _ _ _ f E' ltac:(apply elem_of_app; right; by left)). lia.
    + intros Hlt _. apply (IH fuel (l1 ++ [b])); [done|done| |lia]. apply Forall_app in Hno as [? [? ?]%Forall_cons]. rewrite <- app_assoc. apply Forall_app. split; [done|]. by repeat constructor.
Qed.
(** From [b] to the end of the ring. *)
Lemma wp_walk_end fuel l1 b w k : R = l1 ++ b :: w -> (exists f, f ∈ l1 ++ [b] /\ f.1 = h_freep s) -> (length w + k <= fuel)%nat ->
  (forall fuel p, Forall (fun c => c.2 < nu) w -> (k <= fuel)%nat -> wp (malloc_loop fuel nu p base) Q s) -> wp (malloc_loop fuel nu b.1 (next base w)) Q s.
Proof.
  revert fuel l1 b. induction w as [|c w IH]; intros fuel l1 b E (f & Hf & Ef) Hfuel Hk; cbn [length next] in *; [by apply Hk; [constructor|]|]. destruct fuel as [|fuel]; [lia|].
  assert (E' : R = (l1 ++ [b]) ++ c :: w) by (by rewrite <- app_assoc). destruct (ring_next _ _ _ E') as [Hin Hq]. eapply wp_turn; [done|exact Hq|by eapply Hfit| |].
  - intros _ Ec. apply list_elem_of_split in Hf as (x & y & Exy). rewrite Exy, <- app_assoc in E'. assert (Hlt := ring_lt _ _ _ c E' ltac:(apply elem_of_app; right; by left)). lia.
  - intros Hlt _. apply (IH fuel (l1 ++ [b])); [done|exists f; split; [apply elem_of_app; by left|done]|lia|]. intros fuel' p Hw. apply Hk. by constructor.
Qed.
Lemma wp_walk fuel : (S (length l) + j <= fuel)%nat -> wp (bind (get_ptr (h_freep s)) (malloc_loop fuel nu (h_freep s))) Q s.
Proof.
  intros Hfuel. pose proof Hok as [H0 _ [n Hf] _ Hl _]. apply list_elem_of_split in Hf as (l1 & l2 & E). fold R in Hl. destruct (ring_next _ _ _ E) as [Hin Hq]. cbn [fst] in Hq.
  apply wp_bind, wp_get_ptr. { unfold R in Hl, E. rewrite E in Hl. apply linked_app in Hl as [_ (_ & _ & L3 & _)]. eapply mapped_le; [| |exact L3]; unfold bend; cbn; lia. }
  rewrite Hq. assert (Hlen : length R = length (l1 ++ (h_freep s, n) :: l2)) by (unfold R; by rewrite E). rewrite length_app in Hlen. cbn [length] in Hlen.
  apply (wp_walk_end fuel l1 (h_freep s, n) l2 (S (length l1) + j)); [done| |unfold R in Hlen; cbn [length] in Hlen; lia|].
  { exists (h_freep s, n). split; [|done]. apply elem_of_app. right. by left. }
  clear fuel Hfuel. intros [|fuel] p Hno Hfuel; [lia|]. destruct (ring_next [] (base, 0) l eq_refl) as [Hb Hbq].
  apply (wp_turn fuel p (base, 0) _ Hb Hbq); cbn [fst snd]; [lia| |].
  - intros _ Ef. apply Hmore; [|lia]. destruct l1 as [|b l1]; injection E as E1 E2; [by subst l2|]. exfalso.
    assert (Hlt := ring_lt [] (base, 0) l (h_freep s, n) eq_refl). rewrite E2 in Hlt. specialize (Hlt ltac:(apply elem_of_app; right; by left)). cbn in Hlt. lia.
  - intros _ Ef. destruct l1 as [|b l1]; injection E as E1 E2; [done|]. rewrite E2, next_app. apply (wp_walk_to fuel [] (base, 0) l1 (h_freep s, n) l2); [by rewrite <- E2|done|constructor; [cbn; lia|done]|cbn [length] in *; lia].
Qed.
End search.

(** ** The heap around a change of the ring *)

Lemma headers_kept live l m m' : headers_only l m m' -> (forall a n, live !! a = Some n -> Forall (apart a n) l) -> kept live m m'.
Proof.
  intros [H1 _] Hl a n x Ha Hx. apply H1. eapply Forall_impl; [exact (Hl _ _ Ha)|]. unfold apart. cbn. lia.
Qed.
Lemma heap_step s s' l l' live : heap_ok s l live -> ring_ok s' l' -> h_sz s <= h_sz s' -> kept live (h_mem s) (h_mem s') -> mapped (h_mem s') (h_sz s') (PGUP (h_sz s') - h_sz s') ->
  (forall a n, live !! a = Some n -> block_ok s l a n -> Forall (apart a n) ((base, 0) :: l')) -> heap_ok s' l' live.
Proof.
  intros [Hr Hp Hl Hd] Hr' Hz Hk Hp' Ha. constructor; [done|done| |done]. intros a n Hn. eapply block_kept; [by apply Hl|intros x Hx; by eapply Hk|done|by apply Ha; [|apply Hl]].
Qed.
Lemma heap_alloc s l live a n : heap_ok s l live -> block_ok s l a n -> (forall a' n', live !! a' = Some n' -> apart a' n' (a, n)) -> heap_ok s l (<[a := n]> live) /\ live !! a = None.
Proof.
  intros [Hr Hp Hl Hd] Hb Ha. assert (Hn : live !! a = None).
  { destruct (live !! a) as [k|] eqn:E; [|done]. destruct (Hl _ _ E) as (? & _). specialize (Ha _ _ E). destruct Hb as (? & _). unfold apart, bend in Ha. cbn in Ha. lia. }
  split; [|done]. constructor; [done|done| |].
  - intros a' n'. rewrite lookup_insert. case_decide; [intros [= <-]; by subst|apply Hl].
  - intros a1 n1 a2 n2 H1 H2 Hlt. apply lookup_insert_Some in H1 as [[<- <-]|[N1 H1]], H2 as [[<- <-]|[N2 H2]]; [lia| | |by eapply Hd].
    + specialize (Ha _ _ H2). destruct (Hl _ _ H2) as (? & _), Hb as (? & _). unfold apart, bend in Ha. cbn in Ha. lia.
    + specialize (Ha _ _ H1). destruct (Hl _ _ H1) as (? & _), Hb as (? & _). unfold apart, bend in Ha. cbn in Ha. lia.
Qed.

(** A block leaves the ring. *)
Section unlink.
Context (l l1 l2 : list block) (b c : block) (hi : Z).
Hypothesis (E : (base, 0) :: l = l1 ++ b :: c :: l2) (Hu : Forall (fun b => 1 <= b.2) l) (Hs : sorted ((base, 0) :: l) hi).

Lemma unlink_facts : 1 <= c.2 /\ bend b <= c.1 /\ Forall (fun d => bend d <= b.1) l1 /\ Forall (fun d => bend c <= d.1) l2 /\ bend c <= hi /\ (l2 <> [] -> bend c < next hi l2) /\ base <= b.1.
Proof.
  assert (Hc : 1 <= c.2). { rewrite Forall_forall in Hu. apply Hu. destruct l1 as [|d l1']; injection E as E1 ->; [by left|]. apply elem_of_app. right. by right; left. }
  pose proof Hs as Hs'. rewrite E in Hs'. apply sorted_app in Hs' as [HF HS]. destruct (sorted_after _ _ _ HS) as [HA _]. apply Forall_cons in HA as [HA _].
  destruct HS as (_ & _ & _ & HS). destruct (sorted_after _ _ _ HS) as [HB HC]. destruct HS as (_ & _ & HS & _).
  split_and!; try done; [tauto|eapply Forall_impl; [exact HB|]; cbn; tauto|intros H; specialize (HS H); unfold bend; lia|].
  destruct l1 as [|d l1']; injection E as E1 ->; [by rewrite <- E1|]. apply Forall_cons in HF as [HF _]. rewrite <- E1 in HF. unfold bend in HF. cbn in HF. lia.
Qed.
Lemma unlink_ring : exists l', (base, 0) :: l' = l1 ++ b :: l2 /\ Forall (fun b => 1 <= b.2) l' /\ sorted ((base, 0) :: l') hi.
Proof.
  destruct unlink_facts as (F1 & F2 & F3 & F4 & F5 & F6 & F7).
  assert (HS : sorted (l1 ++ b :: l2) hi).
  { rewrite E in Hs. eapply (sorted_replace l1 b b); [done|exact Hs|]. apply sorted_suffix in Hs. destruct Hs as (S1 & S2 & S3 & S4). destruct S4 as (S4 & S5 & S6 & S7).
    cbn [next] in *. specialize (S3 ltac:(done)). split_and!; try done; unfold bend in *; [lia|]. intros H. lia. }
  destruct l1 as [|d l1']; injection E as E1 E2.
  - exists l2. rewrite E2 in Hu. apply Forall_cons in Hu as [_ Hu']. by rewrite <- E1 in *.
  - exists (l1' ++ b :: l2). rewrite <- E1 in *. rewrite E2 in Hu. split; [done|]. split; [|done]. apply Forall_app in Hu as [? [? [? ?]%Forall_cons]%Forall_cons]. apply Forall_app. split; [done|]. by constructor.
Qed.
(** Its first [k] units stay. *)
Lemma shrink_ring k : 1 <= k < c.2 -> exists l', (base, 0) :: l' = l1 ++ b :: (c.1, k) :: l2 /\ Forall (fun b => 1 <= b.2) l' /\ sorted ((base, 0) :: l') hi.
Proof.
  intros Hk. destruct unlink_facts as (F1 & F2 & F3 & F4 & F5 & F6 & F7).
  assert (HS : sorted (l1 ++ b :: (c.1, k) :: l2) hi).
  { rewrite E in Hs. change (b :: c :: l2) with ([b] ++ c :: l2) in Hs. change (b :: (c.1, k) :: l2) with ([b] ++ (c.1, k) :: l2). rewrite app_assoc in *. eapply (sorted_replace _ c (c.1, k)); [done|exact Hs|].
    apply sorted_suffix in Hs. destruct Hs as (S1 & S2 & S3 & S4). unfold bend in *. cbn [sorted fst snd]. split_and!; [lia|unfold bend; cbn; lia| |done]. intros H. specialize (S3 H). lia. }
  destruct l1 as [|d l1']; injection E as E1 E2.
  - exists ((c.1, k) :: l2). rewrite E2 in Hu. apply Forall_cons in Hu as [_ Hu']. rewrite <- E1 in *. split; [done|]. split; [constructor; [cbn; lia|done]|done].
  - exists (l1' ++ b :: (c.1, k) :: l2). rewrite <- E1 in *. rewrite E2 in Hu. split; [done|]. split; [|done]. apply Forall_app in Hu as [? [? [? ?]%Forall_cons]%Forall_cons]. apply Forall_app. split; [done|]. constructor; [done|]. constructor; [cbn; lia|done].
Qed.
End unlink.

Definition taken (nu : Z) (live : gmap Z Z) (s : heap) (r : Z) (s' : heap) : Prop :=
  let a := r - sizeof_Header in live !! a = None /\ kept live (h_mem s) (h_mem s') /\ 0 < a /\ exists l', heap_ok s' l' (<[a := nu]> live).

(** The end of both cases: the ring [R'] and the block [a] in the region of [c]. *)
Lemma taken_ok s l live l' c a nu m f : heap_ok s l live -> c ∈ (base, 0) :: l -> c.1 <= a -> a + 16 * nu = bend c -> 1 <= nu -> base < a -> Forall (fun b => 1 <= b.2) l' -> sorted ((base, 0) :: l') (h_sz s) ->
  linked m ((base, 0) :: l') base -> (exists k, (f, k) ∈ (base, 0) :: l') -> headers_only ((base, 0) :: l) (h_mem s) m -> rd32 m (a + 8) = nu -> mapped m a (16 * nu) -> Forall (apart a nu) ((base, 0) :: l') ->
  (forall b k, 1 <= k -> Forall (apart b k) ((base, 0) :: l) -> Forall (apart b k) ((base, 0) :: l')) ->
  taken nu live s (a + sizeof_Header) (mk_heap m f (h_sz s) (h_grants s)).
Proof.
  intros Hok Hc Hca Hend Hnu Hb Hu Hs Hl Hf Hh Hrd Hm Hap Happ. set (s' := mk_heap m f (h_sz s) (h_grants s)). unfold taken. replace (a + sizeof_Header - sizeof_Header) with a by lia. cbv zeta.
  assert (Hk : kept live (h_mem s) m) by (eapply headers_kept; [exact Hh|]; intros b k Hbk; by apply (hk_live _ _ _ Hok) in Hbk as (_ & _ & _ & _ & _ & ?)).
  pose proof (hk_ring _ _ _ Hok) as [H0 Hz _ _ _ Hs0].
  assert (Hok' : heap_ok s' l' live).
  { apply (heap_step s s' l l'); [done|by constructor|cbn; lia|done| |]; [|intros b k _ Hbk; apply Happ; apply Hbk]. intros x Hx. apply (proj2 Hh). by apply (hk_page _ _ _ Hok). }
  destruct (sorted_ge _ _ 0 Hs0 ltac:(cbn; lia)) as [HF _]. rewrite Forall_forall in HF. destruct (HF c Hc) as [_ Hchi].
  destruct (heap_alloc s' l' live a nu Hok') as [H1 H2]; [by split_and!; cbn; try done; lia| |].
  { intros b k Hbk. apply (hk_live _ _ _ Hok) in Hbk as (Hk1 & _ & _ & _ & _ & Hbk). rewrite Forall_forall in Hbk. specialize (Hbk c Hc). unfold apart, bend in *. cbn [fst snd]. lia. }
  split; [done|]. split; [done|]. split; [lia|]. by exists l'.
Qed.

Section take.
Context (nu : Z) (s : heap) (l l1 l2 : list block) (b c : block) (live : gmap Z Z) (Q : Z -> heap -> Prop).
Hypothesis (Hok : heap_ok s l live) (Hnu : 1 <= nu) (E : (base, 0) :: l = l1 ++ b :: c :: l2) (HQ : forall r s', taken nu live s r s' -> h_sz s' = h_sz s -> Q r s').

Lemma take_facts : (1 <= c.2 < 2 ^ 31 /\ bend b <= c.1 /\ base <= b.1 /\ bend c <= h_sz s /\ c.1 < 2 ^ 64 /\ 0 <= next base l2 < 2 ^ 64) /\
  (Forall (fun d => bend d <= b.1) l1 /\ Forall (fun d => bend c <= d.1) l2) /\ c ∈ (base, 0) :: l /\ b ∈ (base, 0) :: l.
Proof.
  pose proof (hk_ring _ _ _ Hok) as [H0 Hz _ Hu Hl Hs]. edestruct (unlink_facts l l1 l2 b c) as (F1 & F2 & F3 & F4 & F5 & F6 & F7); [eassumption..|].
  assert (Hin : c ∈ (base, 0) :: l) by (rewrite E; apply elem_of_app; right; by right; left). assert (Hbin : b ∈ (base, 0) :: l) by (rewrite E; apply elem_of_app; right; by left).
  destruct (sorted_small _ _ c Hs Hz H0 Hin) as (C1 & C2 & C3). split; [|done]. split_and!; try done; try lia; destruct l2 as [|d l2']; cbn [next]; try (unfold bend in *; lia);
    assert (Hd : d ∈ (base, 0) :: l) by (rewrite E; apply elem_of_app; right; by do 2 right; left); destruct (sorted_small _ _ d Hs Hz H0 Hd); lia.
Qed.
Lemma take_linked : linked (h_mem s) l1 b.1 /\ linked (h_mem s) [b] c.1 /\ linked (h_mem s) [c] (next base l2) /\ linked (h_mem s) l2 base.
Proof.
  pose proof (rk_linked _ _ (hk_ring _ _ _ Hok)) as Hl. rewrite E in Hl. apply linked_app in Hl as [L0 (L1 & L2 & L3 & L4 & L5 & L6 & L7)]. by split_and!.
Qed.
(** The whole block. *)
Lemma wp_take_all : c.2 = nu -> wp (take_units nu b.1 c.1 c.2) Q s.
Proof.
  intros En. destruct take_facts as ((F1 & F2 & F3 & F4 & F5 & F6) & (F7 & F8) & Hin & Hbin). destruct take_linked as (L0 & (L1 & L2 & L3 & _) & (L4 & L5 & L6 & _) & L7).
  pose proof (hk_ring _ _ _ Hok) as [H0 Hz _ Hu Hl Hs]. cbn [next] in *. unfold take_units. rewrite (proj2 (Z.eqb_eq _ _) En). apply wp_bind.
  apply wp_bind, wp_get_ptr; [eapply mapped_le; [| |exact L6]; unfold bend; lia|]. rewrite L4. apply wp_bind, wp_set_ptr; [eapply mapped_le; [| |exact L3]; unfold bend; lia|done|].
  intros m E1 E2 Hsm. apply wp_ret, wp_bind, wp_modify, wp_ret. apply HQ; [|done]. edestruct (unlink_ring l l1 l2 b c) as (l' & E' & Hu' & Hs'); [eassumption..|].
  apply (taken_ok s l live l' c c.1 nu m b.1); cbn [h_mem h_sz h_grants set_mem]; try done; try (unfold bend in *; lia).
  - rewrite E'. apply linked_app. split; [eapply linked_same; [exact Hsm| |exact L0]; eapply Forall_impl; [exact F7|]; cbn; tauto|].
    cbn [linked]. rewrite E1, E2, L2. split_and!; try done; [by eapply same_but_mapped|]. eapply linked_same; [exact Hsm| |exact L7]. eapply Forall_impl; [exact F8|]. cbn. unfold bend in *. lia.
  - exists b.2. rewrite <- surjective_pairing, E'. apply elem_of_app. right. by left.
  - eapply (same_but_headers _ b.1 b.2); [exact Hsm|by rewrite <- surjective_pairing].
  - rewrite (rd32_same _ _ _ _ _ Hsm) by (unfold bend in *; lia). by rewrite L5.
  - eapply same_but_mapped; [exact Hsm|]. eapply mapped_le; [| |exact L6]; unfold bend; lia.
  - rewrite E'. unfold apart. apply Forall_app. split; [eapply Forall_impl; [exact F7|]; cbn; unfold bend in *; lia|]. constructor; [lia|]. eapply Forall_impl; [exact F8|]. cbn. unfold bend. lia.
  - intros d k Hk. rewrite E, E'. rewrite !Forall_app, !Forall_cons. tauto.
Qed.
(** Its last units. *)
Lemma wp_take_end : nu < c.2 -> wp (take_units nu b.1 c.1 c.2) Q s.
Proof.
  intros En. destruct take_facts as ((F1 & F2 & F3 & F4 & F5 & F6) & (F7 & F8) & Hin & Hbin). destruct take_linked as (L0 & (L1 & L2 & L3 & _) & (L4 & L5 & L6 & _) & L7).
  pose proof (hk_ring _ _ _ Hok) as [H0 Hz _ Hu Hl Hs]. cbn [next] in *. unfold take_units. rewrite (proj2 (Z.eqb_neq c.2 nu)) by lia. set (k := c.2 - nu) in *. apply wp_bind.
  assert (Hb16 : b.1 + 16 <= c.1) by (unfold bend in *; lia). assert (Hc16 : c.1 + 16 <= c.1 + 16 * k) by lia.
  apply wp_bind. rewrite u32_small by lia. apply wp_set_size; [eapply mapped_le; [| |exact L6]; unfold bend; lia|lia|]. intros m1 E1 E2 Hs1.
  apply wp_bind, wp_get_size; [eapply same_but_mapped; [exact Hs1|]; eapply mapped_le; [| |exact L6]; unfold bend; lia|]. cbn [h_mem set_mem]. rewrite E1. unfold sizeof_Header at 1. set (a := c.1 + 16 * k) in *.
  apply wp_bind, wp_set_size; [eapply same_but_mapped; [exact Hs1|]; eapply mapped_le; [| |exact L6]; unfold bend; lia|lia|]. cbn [h_mem set_mem]. intros m2 E3 E4 Hs2.
  apply wp_ret, wp_bind, wp_modify, wp_ret. apply HQ; [|done]. edestruct (shrink_ring l l1 l2 b c (h_sz s) E Hu Hs k) as (l' & E' & Hu' & Hs'); [lia|].
  change (c.1 + sizeof_Header * k) with a.
  assert (Hac : bend c = a + 16 * nu) by (unfold bend; lia). assert (Hfr : forall L e, Forall (fun d => bend d <= c.1 \/ bend c <= d.1) L -> linked (h_mem s) L e -> linked m2 L e).
  { intros L e HL Hm. eapply linked_same; [exact Hs2| |eapply linked_same; [exact Hs1| |exact Hm]]; (eapply Forall_impl; [exact HL|]; cbn; lia). }
  assert (HL1 : Forall (fun d => bend d <= c.1) (l1 ++ [b])) by (apply Forall_app; split; [eapply Forall_impl; [exact F7|]; cbn; lia|by repeat constructor]).
  assert (Hs12 : forall x n, mapped (h_mem s) x n -> mapped m2 x n) by (intros x n Hm; eapply same_but_mapped; [exact Hs2|]; by eapply same_but_mapped).
  apply (taken_ok s l live l' c a nu m2 b.1); cbn [h_mem h_sz h_grants set_mem]; try done; try lia.
  - rewrite E'. change (l1 ++ b :: (c.1, k) :: l2) with (l1 ++ [b] ++ (c.1, k) :: l2). rewrite app_assoc. apply linked_app. split.
    + apply Hfr; [eapply Forall_impl; [exact HL1|]; cbn; tauto|]. apply linked_app. by split_and!.
    + split; [|split; [|split]]; cbn [fst snd]; [by rewrite (rd64_same _ _ _ _ _ Hs2), E2 by lia|by rewrite (rd32_same _ _ _ _ _ Hs2) by lia| |].
      * apply Hs12. eapply mapped_le; [| |exact L6]; unfold bend; cbn; lia.
      * apply Hfr; [eapply Forall_impl; [exact F8|]; cbn; tauto|done].
  - exists b.2. rewrite <- surjective_pairing, E'. apply elem_of_app. right. by left.
  - eapply headers_only_trans; (eapply same_but_region; [eassumption|exact Hin|lia|unfold bend; lia]).
  - apply Hs12. eapply mapped_le; [| |exact L6]; unfold bend; lia.
  - rewrite E'. change (l1 ++ b :: (c.1, k) :: l2) with (l1 ++ [b] ++ (c.1, k) :: l2). rewrite app_assoc. unfold apart. apply Forall_app. split; [eapply Forall_impl; [exact HL1|]; cbn; lia|].
    constructor; [unfold bend; cbn; lia|]. eapply Forall_impl; [exact F8|]. cbn. lia.
  - intros d n Hn. rewrite E, E', !Forall_app, !Forall_cons. unfold apart, bend. cbn [fst snd]. intros (? & ? & ? & ?). split_and!; try done. lia.
Qed.
End take.

(** ** [morecore] and [malloc] *)

Lemma PGUP_ge a : a <= PGUP a.
Proof. unfold PGUP. pose proof (Z.div_mod (a + 4095) 4096). pose proof (Z.mod_pos_bound (a + 4095) 4096). lia. Qed.
Lemma PGUP_le a b : a <= b -> PGUP a <= PGUP b.
Proof. intros. unfold PGUP. apply Z.mul_le_mono_nonneg_r; [lia|]. apply Z.div_le_mono; lia. Qed.
Lemma linked_ext m m' l e : (forall x b, b ∈ l -> b.1 <= x < bend b -> m' !! x = m !! x) -> linked m l e -> linked m' l e.
Proof.
  intros Hx. induction l as [|b l IH]; cbn [linked]; [done|]. intros (H1 & H2 & H3 & H4). assert (Hb : forall x, b.1 <= x < bend b -> m' !! x = m !! x) by (intros x ?; apply (Hx x b); [by left|done]).
  assert (Hw : b.1 + 16 <= bend b) by (unfold bend; lia). split_and!.
  - rewrite <- H1. apply rd64_ext. intros x ?. apply Hb. lia.
  - rewrite <- H2. unfold rd32. f_equal. apply read_bytes_ext. intros x ?. apply Hb. lia.
  - intros x ?. rewrite Hb by lia. apply H3. lia.
  - apply IH; [|done]. intros x c Hc. apply Hx. by right.
Qed.

(** Memory that [sbrk] adds. *)
Definition refused (s : heap) (n : Z) : Prop := default false (head (h_grants s)) = false \/ PHYS < h_sz s + n.
Lemma wp_sbrk n s (Q : Z -> heap -> Prop) : 0 < n -> (forall g, refused s n -> Q (u64 (-1)) (mk_heap (h_mem s) (h_freep s) (h_sz s) g)) ->
  (forall m g, h_sz s + n <= PHYS -> (forall x, x < h_sz s -> m !! x = h_mem s !! x) ->
     (mapped (h_mem s) (h_sz s) (PGUP (h_sz s) - h_sz s) -> mapped m (h_sz s) (PGUP (h_sz s + n) - h_sz s)) -> Q (h_sz s) (mk_heap m (h_freep s) (h_sz s + n) g)) -> wp (sbrk n) Q s.
Proof.
  intros Hn H1 H2. unfold wp, sbrk. destruct (Z.ltb_spec 0 n); [|lia]. destruct (default false _) eqn:Eg; [|apply H1; by left]. cbn [andb]. destruct (Z.leb_spec (h_sz s + n) PHYS); [|apply H1; right; lia].
  pose proof (PGUP_ge (h_sz s)). pose proof (PGUP_le (h_sz s) (h_sz s + n) ltac:(lia)). apply H2; [done| |].
  - intros x Hx. apply write_bytes_out. lia.
  - intros Hm x Hx. rewrite write_bytes_lookup, length_replicate. case_decide; [|apply Hm; lia]. exists 0. apply lookup_replicate_2. lia.
Qed.
(** The new memory as a block beside the ring. *)
Lemma grown_block s l live n m g p f : heap_ok s l live -> f = h_freep s -> 1 <= n -> h_sz s + 16 * n <= PHYS -> (forall x, x < h_sz s -> m !! x = h_mem s !! x) -> mapped m (h_sz s) (PGUP (h_sz s + 16 * n) - h_sz s) ->
  rd32 p (h_sz s + 8) = n -> same_but (h_sz s) 16 m p -> let s' := mk_heap p f (h_sz s + 16 * n) g in
  heap_ok s' l live /\ block_ok s' l (h_sz s) n /\ kept live (h_mem s) p /\ forall a k, live !! a = Some k -> apart a k (h_sz s, n).
Proof.
  intros Hok -> Hn Hz Hm Hmap Hrd Hs s'. pose proof (hk_ring _ _ _ Hok) as [H0 Hz0 Hf Hu Hl Hso]. destruct (sorted_ge _ _ 0 Hso ltac:(cbn; lia)) as [HF _]. rewrite Forall_forall in HF.
  assert (Hmp : forall x, x < h_sz s -> p !! x = h_mem s !! x) by (intros x Hx; rewrite (proj1 Hs) by lia; by apply Hm).
  assert (Hap : forall a k, live !! a = Some k -> apart a k (h_sz s, n)). { intros a k Ha. apply (hk_live _ _ _ Hok) in Ha as (_ & _ & ? & _). left. cbn. lia. }
  assert (Hk : kept live (h_mem s) p). { intros a k x Ha Hx. apply Hmp. apply (hk_live _ _ _ Hok) in Ha as (_ & _ & ? & _). lia. }
  pose proof (PGUP_ge (h_sz s + 16 * n)) as Hpg. assert (Hmapp : mapped p (h_sz s) (PGUP (h_sz s + 16 * n) - h_sz s)) by (by eapply same_but_mapped).
  assert (Hro : ring_ok s' l). { constructor; cbn [h_mem h_sz h_freep s']; try done; [|eapply sorted_hi; [|exact Hso]; lia]. eapply linked_ext; [|exact Hl]. intros x b Hb Hx. apply Hmp. destruct (HF b Hb). lia. }
  assert (Hbase : base < h_sz s) by (destruct (HF (base, 0) ltac:(by left)); unfold bend in *; cbn in *; lia).
  split; [|split; [|done]].
  - apply (heap_step s s' l l); [done|done|cbn; lia|done| |by intros a k _ (_ & _ & _ & _ & _ & ?)]. cbn [h_mem h_sz s']. eapply mapped_le; [| |exact Hmapp]; lia.
  - split_and!; cbn [h_mem h_sz s']; try done; try lia; [eapply mapped_le; [| |exact Hmapp]; lia|]. apply Forall_forall. intros b Hb. destruct (HF b Hb). by right.
Qed.

Lemma wp_morecore nu s l live (Q : Z -> heap -> Prop) : heap_ok s l live -> 1 <= nu < 2 ^ 27 ->
  (forall s', refused s (Z.max 65536 (16 * nu)) -> heap_ok s' l live -> kept live (h_mem s) (h_mem s') -> Q 0 s') ->
  (forall s' l', heap_ok s' l' live -> kept live (h_mem s) (h_mem s') -> (length l' <= S (length l))%nat -> (exists c, c ∈ l' /\ nu <= c.2) -> Q (h_freep s') s') -> wp (morecore nu) Q s.
Proof.
  intros Hok Hnu H1 H2. unfold morecore. set (n := if nu <? 4096 then 4096 else nu). assert (Hn : nu <= n < 2 ^ 27) by (unfold n; destruct (Z.ltb_spec nu 4096); lia).
  unfold sizeof_Header at 1. rewrite u64_small, i32_small by lia. apply wp_bind, wp_sbrk; [lia| |].
  - intros g Hg. rewrite Z.eqb_refl. apply wp_ret, H1; [|apply (heap_step s _ l l); [done| |cbn; lia|by intros a k x _ _|by apply (hk_page _ _ _ Hok)|by intros a k _ (_ & _ & _ & _ & _ & ?)]|by intros a k x _ _].
    { destruct Hg as [Hg|Hg]; [by left|right; unfold n in Hg; destruct (Z.ltb_spec nu 4096); lia]. }
    { destruct (hk_ring _ _ _ Hok). by constructor. }
  - intros m g Hz Hm Hmap. pose proof (hk_ring _ _ _ Hok) as [H0 Hz0 _ _ _ Hso]. specialize (Hmap (hk_page _ _ _ Hok)). pose proof (PGUP_ge (h_sz s + n * 16)) as Hpg.
    destruct (sorted_ge _ _ 0 Hso ltac:(cbn; lia)) as [_ Hsz0]. destruct (Z.eqb_spec (h_sz s) (u64 (-1))) as [E|_]; [exfalso; rewrite E in Hz0; by vm_compute in Hz0|].
    apply wp_bind, wp_set_size; [eapply mapped_le; [| |exact Hmap]; lia|lia|]. intros p E1 E2 Hs. cbn [h_mem set_mem h_freep h_sz h_grants] in *.
    replace (n * 16) with (16 * n) in * by lia. edestruct (grown_block s l live n m g p (h_freep s)) as (N1 & N2 & N3 & N4); [done|done|lia|done|done|done|done|done|].
    apply wp_bind, (wp_free l (h_sz s) n); [by apply N1|done|]. intros l' m' f s' Hr (R1 & R2 & R3 & R4) Hh. apply wp_gets.
    assert (Hk : kept live p m'). { eapply headers_kept; [exact Hh|]. intros a k Ha. constructor; [by apply N4|]. by apply (hk_live _ _ _ N1) in Ha as (_ & _ & _ & _ & _ & ?). }
    apply (H2 _ l'); [|intros a k x Ha Hx; by rewrite (Hk a k), (N3 a k)|done|destruct R3 as (c & ? & ?); exists c; cbn in *; split; [done|lia]].
    eapply heap_step; [exact N1|done|done|done| |]; [intros x Hx; by apply (proj2 Hh), (hk_page _ _ _ N1)|].
    intros a k Hl Ha. apply R4; [by destruct Ha|by apply N4|by destruct Ha as (_ & _ & _ & _ & _ & ?)].
Qed.

(** Before the first call, and from then on. *)
Record fresh (s : heap) : Prop := {
  fr_freep : h_freep s = 0;
  fr_base : 0 < base;
  fr_size : base + 16 <= h_sz s <= PHYS;
  fr_mapped : mapped (h_mem s) base 16;
  fr_page : mapped (h_mem s) (h_sz s) (PGUP (h_sz s) - h_sz s) }.
Definition heap_inv (s : heap) (live : gmap Z Z) : Prop := (fresh s /\ live = ∅) \/ exists l, heap_ok s l live.
Definition units_for (nbytes : Z) : Z := (nbytes + sizeof_Header - 1) / sizeof_Header + 1.
Definition malloc_max : Z := 2 ^ 31 - 32.

Lemma units_for_spec nbytes : 0 <= nbytes <= malloc_max -> 1 <= units_for nbytes < 2 ^ 27 /\ nbytes <= 16 * (units_for nbytes - 1) < nbytes + 16.
Proof.
  unfold units_for, malloc_max, sizeof_Header. intros H. pose proof (Z.div_mod (nbytes + 16 - 1) 16). pose proof (Z.mod_pos_bound (nbytes + 16 - 1) 16). lia.
Qed.
Lemma taken_trans nu live s s1 r s' : kept live (h_mem s) (h_mem s1) -> taken nu live s1 r s' -> taken nu live s r s'.
Proof. intros Hk (H1 & H2 & H3 & H4). split; [done|]. split; [|done]. intros a n x Ha Hx. by rewrite (H2 a n), (Hk a n). Qed.

Definition malloc_post (nu : Z) (l : list block) (live : gmap Z Z) (s : heap) (r : Z) (s' : heap) : Prop :=
  ((exists c, c ∈ l /\ nu <= c.2) -> r <> 0 /\ h_sz s' = h_sz s) /\
  (taken nu live s r s' \/ r = 0 /\ refused s (Z.max 65536 (16 * nu)) /\ kept live (h_mem s) (h_mem s') /\ exists l', heap_ok s' l' live).
Lemma wp_malloc_ring nu l live s fuel : heap_ok s l live -> 1 <= nu < 2 ^ 27 -> (2 * length l + 4 <= fuel)%nat ->
  wp (bind (get_ptr (h_freep s)) (malloc_loop fuel nu (h_freep s))) (malloc_post nu l live s) s.
Proof.
  intros Hok Hnu Hfuel. assert (Htk : forall s1 r s', taken nu live s1 r s' -> r <> 0) by (intros s1 r s' (_ & _ & H & _); unfold sizeof_Header in H; lia).
  apply (wp_walk nu l s _ (length l + 3)); [by apply Hok|lia| | |lia].
  - intros l1 b c l2 E Hc. assert (Hgo : forall r s', taken nu live s r s' -> h_sz s' = h_sz s -> malloc_post nu l live s r s') by (intros r s' Ht Hz; split; [intros _; split; [by eapply Htk|done]|by left]).
    destruct (Z.eq_dec c.2 nu); [eapply wp_take_all|eapply wp_take_end]; try done; try lia.
  - intros Hno fuel' Hf'. assert (Hnofit : ~ exists c, c ∈ l /\ nu <= c.2) by (intros (c & Hc & Hcn); rewrite Forall_forall in Hno; specialize (Hno c Hc); lia).
    apply wp_bind, (wp_morecore nu s l live); [done|done| |].
    + intros s' Hrf Hok' Hk. apply wp_ret. split; [by intros ?%Hnofit|]. right. by split_and!; try eexists.
    + intros s' l' Hok' Hk Hlen Hfit. pose proof (hk_ring _ _ _ Hok') as [H0 _ [n Hf] _ _ Hso]. destruct (sorted_ge _ _ base Hso ltac:(cbn; lia)) as [HF _]. rewrite Forall_forall in HF. destruct (HF _ Hf) as [Hfp _]. cbn in Hfp.
      destruct (Z.eqb_spec (h_freep s') 0); [lia|]. apply (wp_walk nu l' s' _ 0); [by apply Hok'|lia| |intros Hno'; destruct Hfit as (c & Hc & Hcn); rewrite Forall_forall in Hno'; specialize (Hno' c Hc); lia|lia].
      intros l1 b c l2 E Hc. assert (Hgo : forall r s'', taken nu live s' r s'' -> h_sz s'' = h_sz s' -> malloc_post nu l live s r s'') by (intros r s'' Ht _; split; [by intros ?%Hnofit|left; by eapply taken_trans]).
      destruct (Z.eq_dec c.2 nu); [eapply wp_take_all|eapply wp_take_end]; try done; try lia.
Qed.

Lemma ring_fuel s l live : heap_ok s l live -> (S (length l) <= walk_fuel s)%nat.
Proof.
  intros Hok. pose proof (hk_ring _ _ _ Hok) as [H0 _ _ _ _ Hs]. pose proof (ring_length _ _ Hs H0) as HL. cbn [length] in HL. unfold walk_fuel, sizeof_Header. apply Nat2Z.inj_le. rewrite Z2Nat.id by (apply Z.div_pos; lia). apply Z.div_le_lower_bound; lia.
Qed.
Lemma malloc_ready l live s nbytes : heap_ok s l live -> 0 <= nbytes <= malloc_max -> wp (malloc base nbytes) (malloc_post (units_for nbytes) l live s) s.
Proof.
  intros Hok Hn. destruct (units_for_spec nbytes Hn) as [Hu _]. pose proof (hk_ring _ _ _ Hok) as [H0 _ [n Hf] _ _ Hso]. destruct (sorted_ge _ _ base Hso ltac:(cbn; lia)) as [HF _]. rewrite Forall_forall in HF. destruct (HF _ Hf) as [Hfp _]. cbn in Hfp.
  unfold malloc. fold (units_for nbytes). rewrite u32_small by lia. cbv zeta. apply wp_bind, wp_gets, wp_bind, wp_when; [intros E%Z.eqb_eq; lia|]. intros _. apply wp_bind, wp_gets, wp_bind, wp_gets.
  apply wp_malloc_ring; [done|done|]. pose proof (ring_fuel _ _ _ Hok). lia.
Qed.
Lemma malloc_first s nbytes : fresh s -> 0 <= nbytes <= malloc_max -> wp (malloc base nbytes) (malloc_post (units_for nbytes) [] ∅ s) s.
Proof.
  intros [F1 F2 F3 F4 F5] Hn. destruct (units_for_spec nbytes Hn) as [Hu _].
  unfold malloc. fold (units_for nbytes). rewrite u32_small by lia. cbv zeta. apply wp_bind, wp_gets, wp_bind, wp_when; [|intros E%Z.eqb_neq; lia]. intros _.
  apply wp_bind, wp_set_ptr; [done|unfold PHYS in *; lia|]. intros m1 E1 E2 Hs1. apply wp_bind, wp_modify, wp_set_size; [by eapply same_but_mapped|lia|]. cbn [h_mem set_mem h_freep h_sz h_grants]. intros m2 E3 E4 Hs2.
  pose proof (same_but_trans _ _ _ _ _ Hs1 Hs2) as Hs. set (s' := set_mem m2 _). assert (Hok : heap_ok s' [] ∅).
  { constructor; [constructor; cbn [h_mem h_sz h_freep set_mem s']; try done; [lia|exists 0; by left| |]|by eapply same_but_mapped|by intros ??|by intros ??].
    - cbn [linked fst snd next]. rewrite E4, E1. split_and!; try done. eapply same_but_mapped; [exact Hs|]. eapply mapped_le; [| |exact F4]; unfold bend; cbn; lia.
    - cbn [sorted fst snd next]. unfold bend. cbn. split_and!; try done. lia. }
  apply wp_bind, wp_gets, wp_bind, wp_gets. wp_use (wp_malloc_ring (units_for nbytes) [] ∅ s' _ Hok Hu); [pose proof (ring_fuel _ _ _ Hok); cbn [length] in *; lia|].
  intros r s2 [HA HB]. split; [done|]. destruct HB as [HB|HB]; [left|destruct HB as (B1 & B2 & _ & B4); right; split; [done|split; [exact B2|split; [by intros ??|done]]]]. eapply taken_trans; [|exact HB]. by intros ??.
Qed.

(** ** The allocator that a program sees *)

(** What a program does with its memory. *)
Inductive op := OMalloc (nbytes : Z) | OFree (ap : Z) | OWrite (ap off b : Z) | ORead (ap off : Z) | OSbrk (n : Z).
Definition run_op (o : op) : HM Z :=
  match o with
  | OMalloc n => malloc base n
  | OFree ap => free ap;; ret 0
  | OWrite ap off b => lift h_mem set_mem (store (ap + off) b);; ret 0
  | ORead ap off => lift h_mem set_mem (load (ap + off))
  | OSbrk n => sbrk n
  end.

(** The blocks of a program: their sizes and what was written to them. *)
Abbreviation blocks := (gmap Z (Z * gmap Z Z)).
Definition allowed (A : blocks) (o : op) : Prop :=
  match o with
  | OMalloc n => 0 <= n <= malloc_max
  | OFree ap => is_Some (A !! ap)
  | OWrite ap off _ | ORead ap off => exists n c, A !! ap = Some (n, c) /\ 0 <= off < n
  | OSbrk n => 0 < n
  end.
Definition update (A : blocks) (o : op) (r : Z) : blocks :=
  match o with
  | OMalloc n => if r =? 0 then A else <[r := (n, ∅)]> A
  | OFree ap => delete ap A
  | OWrite ap off b => match A !! ap with Some (n, c) => <[ap := (n, <[off := u8 b]> c)]> A | None => A end
  | ORead _ _ | OSbrk _ => A
  end.
(** A new block overlaps no other; [malloc] fails only if the kernel refuses it
    memory; a byte is what was last written to it. *)
Definition result_ok (s : heap) (A : blocks) (o : op) (r : Z) : Prop :=
  match o with
  | OMalloc n =>
    if r =? 0 then refused s (Z.max 65536 (16 * units_for n))
    else A !! r = None /\ forall ap k c, A !! ap = Some (k, c) -> r + n <= ap \/ ap + k <= r
  | ORead ap off => forall n c b, A !! ap = Some (n, c) -> c !! off = Some b -> r = b
  | _ => True
  end.

Record refines (s : heap) (A : blocks) (live : gmap Z Z) : Prop := {
  rf_inv : heap_inv s live;
  rf_block : forall ap n c, A !! ap = Some (n, c) -> exists u, live !! (ap - 16) = Some u /\ 0 <= n <= 16 * (u - 1) /\
    forall off b, c !! off = Some b -> 0 <= off < n /\ h_mem s !! (ap + off) = Some b;
  rf_live : forall a u, live !! a = Some u -> is_Some (A !! (a + 16)) }.

Lemma contents_kept (A : blocks) live m m' : kept live m m' ->
  (forall ap n c, A !! ap = Some (n, c) -> exists u, live !! (ap - 16) = Some u /\ 0 <= n <= 16 * (u - 1) /\ forall off b, c !! off = Some b -> 0 <= off < n /\ m !! (ap + off) = Some b) ->
  forall ap n c, A !! ap = Some (n, c) -> exists u, live !! (ap - 16) = Some u /\ 0 <= n <= 16 * (u - 1) /\ forall off b, c !! off = Some b -> 0 <= off < n /\ m' !! (ap + off) = Some b.
Proof.
  intros Hk HA ap n c Ha. destruct (HA _ _ _ Ha) as (u & Hu & Hn & Hc). exists u. split; [done|]. split; [done|]. intros off b Hb. destruct (Hc _ _ Hb). split; [done|]. rewrite (Hk (ap - 16) u) by (done || lia). done.
Qed.
Lemma live_block s A live ap n c : refines s A live -> A !! ap = Some (n, c) -> exists l u, heap_ok s l live /\ live !! (ap - 16) = Some u /\ 0 <= n <= 16 * (u - 1) /\ block_ok s l (ap - 16) u.
Proof.
  intros [[[_ ->]|[l Hok]] Hb _] Ha; destruct (Hb _ _ _ Ha) as (u & Hu & Hn & _); [done|]. exists l, u. split_and!; try done; try lia. by apply (hk_live _ _ _ Hok).
Qed.

Lemma refines_malloc s A live n : refines s A live -> 0 <= n <= malloc_max -> wp (malloc base n) (fun r s' => result_ok s A (OMalloc n) r /\ exists live', refines s' (update A (OMalloc n) r) live') s.
Proof.
  intros HR Hn. destruct (units_for_spec n Hn) as [Hu Hun]. assert (Hm : exists l, wp (malloc base n) (malloc_post (units_for n) l live s) s).
  { destruct (rf_inv _ _ _ HR) as [[Hf ->]|[l Hok]]; [exists []; by apply malloc_first|exists l; by apply malloc_ready]. }
  destruct Hm as [l Hm]. eapply wp_mono; [exact Hm|]. intros r s' [_ [(T1 & T2 & T3 & l' & T4)|(-> & Hrf & Hk & l' & Hok)]]; cbn [result_ok update].
  - unfold sizeof_Header in *. destruct (Z.eqb_spec r 0); [lia|]. assert (Hnew : A !! r = None).
    { destruct (A !! r) as [[k c]|] eqn:E; [|done]. destruct (rf_block _ _ _ HR _ _ _ E) as (u & Hlu & _). by rewrite T1 in Hlu. }
    split; [split; [done|]|exists (<[r - 16 := units_for n]> live); constructor].
    + intros ap k c E. destruct (rf_block _ _ _ HR _ _ _ E) as (u & Hlu & Hk & _). assert (Hne : r - 16 <> ap - 16) by (intros Heq; rewrite Heq in T1; congruence).
      assert (L1 : <[r - 16 := units_for n]> live !! (r - 16) = Some (units_for n)) by apply lookup_insert_eq. assert (L2 : <[r - 16 := units_for n]> live !! (ap - 16) = Some u) by (by rewrite lookup_insert_ne).
      destruct (decide (r < ap)); [left; pose proof (hk_disjoint _ _ _ T4 _ _ _ _ L1 L2 ltac:(lia))|right; pose proof (hk_disjoint _ _ _ T4 _ _ _ _ L2 L1 ltac:(lia))]; lia.
    + right. by exists l'.
    + intros ap k c. rewrite lookup_insert. case_decide as Heq; [intros [= <- <-]; subst ap; exists (units_for n); rewrite lookup_insert_eq; split_and!; try done; lia|].
      intros E. rewrite lookup_insert_ne by lia. eapply (contents_kept A live); [exact T2|by apply HR|done].
    + intros a u. rewrite !lookup_insert. repeat case_decide; try done; try lia. intros Ha. by apply (rf_live _ _ _ HR) in Ha.
  - cbn. split; [done|]. exists live. constructor; [right; by exists l'|eapply contents_kept; [exact Hk|by apply HR]|by apply HR].
Qed.

(** [free] gives the block back to the ring. *)
Lemma wp_free_live s l live a u (Q : unit -> heap -> Prop) : heap_ok s l live -> live !! a = Some u ->
  (forall s' l', heap_ok s' l' (delete a live) -> kept (delete a live) (h_mem s) (h_mem s') -> h_sz s' = h_sz s -> (exists c, c ∈ l' /\ u <= c.2) -> Q tt s') -> wp (free (a + sizeof_Header)) Q s.
Proof.
  intros Hok Ha HQ. pose proof (hk_live _ _ _ Hok _ _ Ha) as Hb. apply (wp_free l a u); [by apply Hok|done|]. intros l' m p s' Hr (R1 & R2 & R3 & R4) Hh.
  assert (Hap : forall b k, delete a live !! b = Some k -> apart b k (a, u) /\ 1 <= k /\ Forall (apart b k) ((base, 0) :: l)).
  { intros b k Hbk. apply lookup_delete_Some in Hbk as [Hne Hbk]. destruct (hk_live _ _ _ Hok _ _ Hbk) as (K1 & _ & _ & _ & _ & K6). split_and!; try done. destruct Hb as (U1 & _). unfold apart, bend. cbn [fst snd].
    destruct (decide (a < b)); [right; pose proof (hk_disjoint _ _ _ Hok _ _ _ _ Ha Hbk ltac:(lia))|left; pose proof (hk_disjoint _ _ _ Hok _ _ _ _ Hbk Ha ltac:(lia))]; lia. }
  assert (Hk : kept (delete a live) (h_mem s) m) by (eapply headers_kept; [exact Hh|]; intros b k Hbk; destruct (Hap _ _ Hbk) as (? & _ & ?); by constructor).
  assert (Hd : heap_ok s l (delete a live)). { destruct Hok as [O1 O2 O3 O4]. constructor; [done|done| |]; intros b k; [intros [_ Hbk]%lookup_delete_Some; by apply O3|]. intros b' k' [_ H1]%lookup_delete_Some [_ H2]%lookup_delete_Some. by eapply O4. }
  apply (HQ s' l'); [|done|done|done]. eapply heap_step; [exact Hd|done|done|done|intros x Hx; by apply (proj2 Hh), (hk_page _ _ _ Hok)|]. intros b k Hbk _. destruct (Hap _ _ Hbk) as (? & ? & ?). by apply R4.
Qed.
Lemma refines_free s A live ap : refines s A live -> is_Some (A !! ap) -> wp (free ap) (fun _ s' => exists live', refines s' (delete ap A) live') s.
Proof.
  intros HR [[n c] Ha]. destruct (live_block _ _ _ _ _ _ HR Ha) as (l & u & Hok & Hu & _ & _). replace ap with (ap - 16 + sizeof_Header) at 1 by (unfold sizeof_Header; lia).
  apply (wp_free_live s l live (ap - 16) u); [done|done|]. intros s' l' Hok' Hk _ _. exists (delete (ap - 16) live). constructor; [right; by exists l'| |].
  - apply (contents_kept _ (delete (ap - 16) live) (h_mem s) _ Hk). intros ap' k c' [Hne Hap']%lookup_delete_Some. rewrite lookup_delete_ne by lia. by apply HR.
  - intros a v [Hne Hav]%lookup_delete_Some. rewrite lookup_delete_ne by lia. by apply HR in Hav.
Qed.
(** A write inside a block. *)
Lemma heap_ok_write s l live a u x b : heap_ok s l live -> live !! a = Some u -> a + 16 <= x < a + 16 * u -> let s' := set_mem (<[x := b]> (h_mem s)) s in
  heap_ok s' l live /\ forall y, y <> x -> h_mem s' !! y = h_mem s !! y.
Proof.
  intros Hok Ha Hx s'. assert (Hy : forall y, y <> x -> h_mem s' !! y = h_mem s !! y) by (intros y Hy; cbn; by rewrite lookup_insert_ne). split; [|done].
  destruct (hk_live _ _ _ Hok _ _ Ha) as (U1 & U2 & U3 & U4 & U5 & U6). destruct Hok as [[O1 O2 O3 O4 O5 O6] Hp Hl Hd]. rewrite Forall_forall in U6. constructor; [constructor; try done| | |done].
  - eapply linked_ext; [|exact O5]. intros y c Hc Hyc. apply Hy. specialize (U6 c Hc). unfold apart in U6. lia.
  - by apply mapped_insert.
  - intros a' k Hk. destruct (Hl _ _ Hk) as (K1 & K2 & K3 & K4 & K5 & K6). split_and!; try done; [|by apply mapped_insert]. rewrite <- K4. unfold rd32. f_equal. apply read_bytes_ext. intros y Hyy. apply Hy.
    destruct (decide (a' = a)) as [->|]; [simplify_eq; lia|]. destruct (decide (a < a')); [pose proof (Hd _ _ _ _ Ha Hk ltac:(lia))|pose proof (Hd _ _ _ _ Hk Ha ltac:(lia))]; lia.
Qed.
Lemma refines_write s A live ap off b n c : refines s A live -> A !! ap = Some (n, c) -> 0 <= off < n ->
  wp (lift h_mem set_mem (store (ap + off) b)) (fun _ s' => refines s' (<[ap := (n, <[off := u8 b]> c)]> A) live) s.
Proof.
  intros HR Ha Ho. destruct (live_block _ _ _ _ _ _ HR Ha) as (l & u & Hok & Hu & Hn & Hb). destruct Hb as (U1 & U2 & U3 & U4 & U5 & U6).
  destruct (heap_ok_write s l live (ap - 16) u (ap + off) (u8 b) Hok Hu ltac:(lia)) as [Hok' Hy]. apply wp_lift, wp_store; [apply U5; lia|]. constructor; [right; by exists l| |].
  - intros ap' k c' Hap'. apply lookup_insert_Some in Hap' as [[<- [= <- <-]]|[Hne Hap']].
    + exists u. split_and!; try done; try lia. intros o v. rewrite lookup_insert. case_decide; [subst; intros [= <-]; split; [done|]; cbn; apply lookup_insert_eq|]. intros Ho'. destruct (rf_block _ _ _ HR _ _ _ Ha) as (u' & _ & _ & Hc). destruct (Hc _ _ Ho'). split; [done|]. rewrite Hy by lia. done.
    + destruct (rf_block _ _ _ HR _ _ _ Hap') as (u' & Hu' & Hk & Hc). exists u'. split_and!; try done; try lia; try (intros; by apply Hc). intros o v Ho'. destruct (Hc _ _ Ho'). split; [done|]. rewrite Hy; [done|].
      destruct (decide (ap < ap')); [pose proof (hk_disjoint _ _ _ Hok _ _ _ _ Hu Hu' ltac:(lia))|pose proof (hk_disjoint _ _ _ Hok _ _ _ _ Hu' Hu ltac:(lia))]; lia.
  - intros a v Hv. apply (rf_live _ _ _ HR) in Hv. rewrite lookup_insert. by case_decide.
Qed.
Lemma refines_sbrk s A live n : refines s A live -> 0 < n -> wp (sbrk n) (fun _ s' => refines s' A live) s.
Proof.
  intros HR Hn. assert (Hstep : forall m z g, h_sz s <= z <= PHYS -> (forall x, x < h_sz s -> m !! x = h_mem s !! x) -> mapped m z (PGUP z - z) -> refines (mk_heap m (h_freep s) z g) A live).
  { intros m z g Hz Hm Hp. assert (Hinv : heap_inv (mk_heap m (h_freep s) z g) live /\ kept live (h_mem s) m).
    { destruct (rf_inv _ _ _ HR) as [[[F1 F2 F3 F4 F5] ->]|[l Hok]].
      - split; [left; split; [constructor; cbn; try done; try lia; intros x Hx; rewrite Hm by lia; by apply F4|done]|by intros ??].
      - pose proof (hk_ring _ _ _ Hok) as [O1 O2 O3 O4 O5 O6]. destruct (sorted_ge _ _ 0 O6 ltac:(cbn; lia)) as [HF _]. rewrite Forall_forall in HF.
        assert (Hk : kept live (h_mem s) m) by (intros a k x Ha Hx; apply Hm; apply (hk_live _ _ _ Hok) in Ha as (_ & _ & ? & _); lia). split; [|done]. right. exists l.
        apply (heap_step s _ l l); cbn [h_mem h_sz]; try done; [|lia|by intros a k _ (_ & _ & _ & _ & _ & ?)]. constructor; cbn [h_mem h_sz h_freep]; try done; [lia| |eapply sorted_hi; [|exact O6]; lia].
        eapply linked_ext; [|exact O5]. intros x b Hb Hx. apply Hm. destruct (HF b Hb). lia. }
    destruct Hinv as [Hinv Hk]. constructor; [done| |by apply HR]. eapply contents_kept; [exact Hk|by apply HR]. }
  assert (Hs : h_sz s <= PHYS /\ mapped (h_mem s) (h_sz s) (PGUP (h_sz s) - h_sz s)) by (destruct (rf_inv _ _ _ HR) as [[[? ? ? ? ?] _]|[l [[? ? ? ? ? ?] ? ? ?]]]; split; (done || lia)).
  apply wp_sbrk; [done| |]; [intros g _; apply Hstep; [lia|done|apply Hs]|]. intros m g Hz Hm Hp. apply Hstep; [lia|done|]. eapply mapped_le; [| |exact (Hp (proj2 Hs))]; lia.
Qed.

Lemma refines_op s A live o : refines s A live -> allowed A o -> wp (run_op o) (fun r s' => result_ok s A o r /\ exists live', refines s' (update A o r) live') s.
Proof.
  intros HR Ho. destruct o as [n|ap|ap off b|ap off|n]; cbn [run_op allowed result_ok update] in *.
  - by apply (refines_malloc s A live).
  - apply wp_bind. eapply wp_mono; [by apply (refines_free s A live)|]. intros r s' HR'. by apply wp_ret.
  - destruct Ho as (n & c & Ha & Hoff). rewrite Ha. apply wp_bind. eapply wp_mono; [by apply (refines_write s A live ap off b n c)|]. intros r s' HR'. apply wp_ret. split; [done|by exists live].
  - destruct Ho as (n & c & Ha & Hoff). destruct (live_block _ _ _ _ _ _ HR Ha) as (l & u & _ & Hu & Hn & (_ & _ & _ & _ & Hm & _)). destruct (Hm (ap + off) ltac:(lia)) as [v Hv].
    apply wp_lift, (wp_load _ v); [done|]. rewrite set_mem_id. split; [|by exists live]. intros n' c' b Ha' Hb. destruct (rf_block _ _ _ HR _ _ _ Ha') as (u' & _ & _ & Hc). destruct (Hc _ _ Hb) as [_ Hb']. congruence.
  - eapply wp_mono; [by apply (refines_sbrk s A live)|]. intros r s' HR'. split; [done|by exists live].
Qed.

(** The states a program reaches that uses only the blocks it was given, with
    what it did to get there. *)
Inductive history (s0 : heap) : list (op * Z) -> heap -> blocks -> Prop :=
| history_start : history s0 [] s0 ∅
| history_step t s A o r s' : history s0 t s A -> allowed A o -> run_op o s = Done r s' -> history s0 (t ++ [(o, r)]) s' (update A o r).
Lemma history_refines s0 t s A : fresh s0 -> history s0 t s A -> exists live, refines s A live.
Proof.
  intros Hf. induction 1 as [|t s A o r s' _ [live IH] Ho Hr].
  - exists ∅. constructor; [by left|by intros ???|by intros ??].
  - pose proof (refines_op _ _ _ _ IH Ho) as Hw. unfold wp in Hw. rewrite Hr in Hw. apply Hw.
Qed.
End heap.

(** C25: Against any program that uses only the blocks it was given and asks for at
    most [malloc_max] = 2^31 - 32 bytes at a time (above that the sizes do not fit
    the [int] of [sbrk]), malloc and free never fault and always return; a new block overlaps no block in use, malloc
    fails only when the kernel refuses it more memory, and a block keeps what is
    written to it until it is freed, whatever else is allocated, freed or
    obtained with sbrk in between. *)
Theorem malloc_history base s0 t s A o : fresh base s0 -> history base s0 t s A -> allowed A o ->
  exists r s', run_op base o s = Done r s' /\ result_ok s A o r.
Proof.
  intros Hf Hh Ho. destruct (history_refines base s0 t s A Hf Hh) as [live HR]. pose proof (refines_op base s A live o HR Ho) as Hw. apply wp_Done in Hw as (r & s' & Hr & Hok & _). by exists r, s'.
Qed.

(** Memory that is freed is used again: after [free] of a block of [n] bytes,
    [malloc] of [n] bytes succeeds without more memory from the kernel. *)
Theorem free_malloc base s0 t s A ap n c : fresh base s0 -> history base s0 t s A -> A !! ap = Some (n, c) -> n <= malloc_max ->
  wp (free ap;; malloc base n) (fun r s' => r <> 0 /\ h_sz s' = h_sz s) s.
Proof.
  intros Hf Hh Ha Hmax. destruct (history_refines base s0 t s A Hf Hh) as [live HR]. destruct (live_block base _ _ _ _ _ _ HR Ha) as (l & u & Hok & Hu & Hn & _).
  apply wp_bind. replace ap with (ap - 16 + sizeof_Header) by (unfold sizeof_Header; lia). eapply wp_free_live; [done|done|]. intros s1 l1 Hok1 _ Hz (d & Hd & Hdu).
  eapply wp_mono; [apply (malloc_ready base l1 (delete (ap - 16) live) s1 n Hok1); lia|]. intros r s2 [Hfit _]. rewrite <- Hz. apply Hfit. exists d. split; [done|].
  pose proof (units_for_spec n ltac:(lia)). lia.
Qed.

(** A process of two pages with [base] in the first. *)
Definition ex_heap : heap := mk_heap (write_bytes ∅ 4096 (replicate 16 0)) 0 8192 [true].
Lemma ex_fresh : fresh 4096 ex_heap.
Proof. constructor; [done|lia|cbn; unfold PHYS; lia| |intros x Hx; change (8192 <= x < 8192 + (8192 - 8192)) in Hx; lia]. intros x Hx. unfold ex_heap. cbn [h_mem]. rewrite write_bytes_lookup. cbn [length replicate]. rewrite decide_True by (cbn; lia). apply lookup_lt_is_Some_2. cbn. lia. Qed.
Lemma malloc_history_witness : exists r s', run_op 4096 (OMalloc 100) ex_heap = Done r s' /\
  exists r' s'', run_op 4096 (OMalloc 200) s' = Done r' s'' /\ result_ok s' (update ∅ (OMalloc 100) r) (OMalloc 200) r'.
Proof.
  destruct (malloc_history 4096 ex_heap [] ex_heap ∅ (OMalloc 100) ex_fresh (history_start 4096 ex_heap)) as (r & s' & Hr & _); [cbn; unfold malloc_max; lia|]. exists r, s'. split; [exact Hr|].
  apply (malloc_history 4096 ex_heap ([] ++ [(OMalloc 100, r)]) s'); [exact ex_fresh| |cbn; unfold malloc_max; lia]. apply (history_step _ _ [] ex_heap); [constructor|cbn; unfold malloc_max; lia|exact Hr].
Defined.

(** A request near 2^32 wraps around in the argument of [sbrk]: for
    [malloc(-1)] the size in the header of the new block is 2^28 + 1 units, and
    [morecore] asks for 16 bytes. *)
Example malloc_wraps : let nu := u32 (units_for (2 ^ 32 - 1)) in nu = 2 ^ 28 + 1 /\ i32 (u64 (nu * sizeof_Header)) = 16.
Proof. done. Qed.
