(* ===== verification/Console.v ===== *)
(** * The console

    kernel/console.c: input from the keyboard is edited in a ring of
    [INPUT_BUF_SIZE] characters and handed to the processes that read, a line at
    a time; any number of processes read while characters arrive.  What the code
    does under [cons.lock] is one step.  The theorems: the ring refines a
    terminal with a queue of finished input and a line that is being edited, and
    no process sleeps while there is input.

    kernel/uart.c: the characters that processes write go through a ring of
    [UART_TX_BUF_SIZE] characters to a device that takes them when it is ready.
    The theorems: they are sent in order, and none is left behind. *)

From stdpp Require Import base numbers list.
From Stdlib Require Import ZArith Lia.
From S2P Require Import Prelude.
Open Scope Z_scope.

Definition INPUT_BUF_SIZE : Z := 128.
Definition BACKSPACE : Z := 256.
Definition CTRL (x : Z) : Z := x - 64.

(** ** Input *)

(** A [consoleread]: what is left to read and the count it started with, the
    bytes of the buffer that can be written, and what was copied. *)
Record request := mk_request { q_n : Z; q_target : Z; q_ok : Z; q_got : list Z }.
Inductive reader :=
| Idle
| Asleep (q : request)  (* in sleep(&cons.r, &cons.lock) *)
| Woken (q : request)
| Returned (v : Z) (got : list Z).
(** [cons], what was echoed, the processes with their [killed] flags, and the
    characters that left the ring. *)
Record console := mk_console {
  c_buf : list Z; c_r : Z; c_w : Z; c_e : Z;
  c_echo : list Z; c_readers : list (reader * bool); c_taken : list Z }.

Definition consputc (c : Z) (out : list Z) : list Z :=
  if c =? BACKSPACE then out ++ [8; 32; 8] else out ++ [c].
Definition at_index (size : Z) (buf : list Z) (i : Z) : Z := default 0 (znth buf (i mod size)).
Definition wake (p : reader * bool) : reader * bool :=
  match p with (Asleep q, k) => (Woken q, k) | _ => p end.

Fixpoint kill_line (fuel : nat) (s : console) : console :=
  match fuel with
  | O => s
  | S fuel =>
    if negb (c_e s =? c_w s) && negb (at_index INPUT_BUF_SIZE (c_buf s) (u32 (c_e s - 1)) =? 10)
    then kill_line fuel (mk_console (c_buf s) (c_r s) (c_w s) (u32 (c_e s - 1)) (consputc BACKSPACE (c_echo s)) (c_readers s) (c_taken s))
    else s
  end.
Definition consoleintr (c : Z) (s : console) : console :=
  if c =? CTRL 80 then s  (* procdump *)
  else if c =? CTRL 85 then kill_line (Z.to_nat INPUT_BUF_SIZE) s
  else if (c =? CTRL 72) || (c =? 127) then
    if negb (c_e s =? c_w s)
    then mk_console (c_buf s) (c_r s) (c_w s) (u32 (c_e s - 1)) (consputc BACKSPACE (c_echo s)) (c_readers s) (c_taken s)
    else s
  else if negb (c =? 0) && (u32 (c_e s - c_r s) <? INPUT_BUF_SIZE) then
    let c := if c =? 13 then 10 else c in
    let buf := zset (c_buf s) (c_e s mod INPUT_BUF_SIZE) c in
    let e := u32 (c_e s + 1) in
    let out := consputc c (c_echo s) in
    if (c =? 10) || (c =? CTRL 68) || (u32 (e - c_r s) =? INPUT_BUF_SIZE)
    then mk_console buf (c_r s) e e out (map wake (c_readers s)) (c_taken s)
    else mk_console buf (c_r s) (c_w s) e out (c_readers s) (c_taken s)
  else s.

(** [consoleread] from the head of its loop until it sleeps or returns. *)
Fixpoint read_loop (fuel : nat) (killed : bool) (q : request) (s : console) : reader * console :=
  match fuel with
  | O => (Asleep q, s)
  | S fuel =>
    let return_ := fun q s => (Returned (i32 (u32 (q_target q - q_n q))) (q_got q), s) in
    if q_n q <=? 0 then return_ q s
    else if c_r s =? c_w s then if killed then (Returned (-1) (q_got q), s) else (Asleep q, s)
    else
      let c := at_index INPUT_BUF_SIZE (c_buf s) (c_r s) in
      let s' := mk_console (c_buf s) (u32 (c_r s + 1)) (c_w s) (c_e s) (c_echo s) (c_readers s) (c_taken s ++ [c]) in
      if c =? CTRL 68 then
        if q_n q <? q_target q
        then return_ q (mk_console (c_buf s) (u32 (u32 (c_r s + 1) - 1)) (c_w s) (c_e s) (c_echo s) (c_readers s) (c_taken s))
        else return_ q s'
      else if q_ok q <=? 0 then return_ q s'
      else
        let q := mk_request (q_n q - 1) (q_target q) (q_ok q - 1) (q_got q ++ [c]) in
        if c =? 10 then return_ q s' else read_loop fuel killed q s'
  end.
(** Each turn reads a character. *)
Definition consoleread (killed : bool) (q : request) (s : console) : reader * console := read_loop (S (Z.to_nat (q_n q))) killed q s.

Definition set_reader (i : nat) (p : reader * bool) (s : console) : console :=
  mk_console (c_buf s) (c_r s) (c_w s) (c_e s) (c_echo s) (<[i := p]> (c_readers s)) (c_taken s).
Inductive action :=
| AKey (c : Z)  (* uartintr calls consoleintr(c) *)
| ARead (i : nat) (n ok : Z)
| AResume (i : nat)
| AKill (i : nat).
Definition act (a : action) (s : console) : option console :=
  let run := fun i k q => let r := consoleread k q s in Some (set_reader i (r.1, k) r.2) in
  match a with
  | AKey c => if (0 <=? c) && (c <? 256) then Some (consoleintr c s) else None
  | ARead i n ok =>
    match c_readers s !! i with
    | Some (Idle, k) | Some (Returned _ _, k) => if (- 2 ^ 31 <=? n) && (n <? 2 ^ 31) then run i k (mk_request n (u32 n) ok []) else None
    | _ => None
    end
  | AResume i => match c_readers s !! i with Some (Woken q, k) => run i k q | _ => None end
  | AKill i =>
    match c_readers s !! i with
    | Some (p, _) => Some (set_reader i (wake (p, true)) s)
    | None => None
    end
  end.
Definition consoleinit (nreaders : nat) : console := mk_console (replicate 128 0) 0 0 0 [] (replicate nreaders (Idle, false)) [].

Fixpoint c_run (l : list action) (s : console) : option console :=
  match l with [] => Some s | a :: l => match act a s with Some s => c_run l s | None => None end end.

(** ** The terminal that the console implements *)

(** The finished input that was not read, the line that is being typed, and the
    readers with what they took. *)
Record terminal := mk_terminal { t_queue : list Z; t_line : list Z; t_readers : list (reader * bool); t_taken : list Z }.
Definition room (queue line : list Z) : bool := Z.of_nat (length queue + length line) <? INPUT_BUF_SIZE.
Definition key (c : Z) (t : terminal) : terminal :=
  let edit := fun line => mk_terminal (t_queue t) line (t_readers t) (t_taken t) in
  if c =? CTRL 80 then t
  else if c =? CTRL 85 then edit []
  else if (c =? CTRL 72) || (c =? 127) then edit (removelast (t_line t))
  else if negb (c =? 0) && room (t_queue t) (t_line t) then
    let c := if c =? 13 then 10 else c in
    let line := t_line t ++ [c] in
    if (c =? 10) || (c =? CTRL 68) || negb (room (t_queue t) line)
    then mk_terminal (t_queue t ++ line) [] (map wake (t_readers t)) (t_taken t)
    else edit line
  else t.
(** Reading at most [n] characters and copying at most [ok]: up to a newline, or
    to an end of file, which is taken only by a read that has got nothing.  What
    is copied, how much of the input is taken, and whether the read is done. *)
Fixpoint take_input (n ok : nat) (first : bool) (queue : list Z) : list Z * nat * bool :=
  match n, queue with
  | O, _ => ([], O, true)
  | S _, [] => ([], O, false)
  | S n, c :: queue =>
    if c =? CTRL 68 then ([], if first then 1%nat else O, true)
    else match ok with
         | O => ([], 1%nat, true)
         | S ok =>
           if c =? 10 then ([c], 1%nat, true)
           else let r := take_input n ok false queue in (c :: r.1.1, S r.1.2, r.2)
         end
  end.
Definition t_result (killed : bool) (q : request) (r : list Z * nat * bool) : reader :=
  let g := Z.of_nat (length r.1.1) in
  let got := q_got q ++ r.1.1 in
  if r.2 then Returned (Z.of_nat (length got)) got
  else if killed then Returned (-1) got
  else Asleep (mk_request (q_n q - g) (q_target q) (q_ok q - g) got).
Definition t_input (q : request) (t : terminal) : list Z * nat * bool :=
  take_input (Z.to_nat (q_n q)) (Z.to_nat (q_ok q)) (bool_decide (q_got q = [])) (t_queue t).
Definition t_advance (k : nat) (t : terminal) : terminal :=
  mk_terminal (drop k (t_queue t)) (t_line t) (t_readers t) (t_taken t ++ take k (t_queue t)).
Definition t_put (i : nat) (p : reader * bool) (t : terminal) : terminal :=
  mk_terminal (t_queue t) (t_line t) (<[i := p]> (t_readers t)) (t_taken t).
Definition t_read (i : nat) (killed : bool) (q : request) (t : terminal) : terminal :=
  let r := t_input q t in t_put i (t_result killed q r, killed) (t_advance r.1.2 t).
Definition t_act (a : action) (t : terminal) : terminal :=
  match a with
  | AKey c => key c t
  | ARead i n ok => match t_readers t !! i with Some (_, k) => t_read i k (mk_request n (u32 n) ok []) t | None => t end
  | AResume i => match t_readers t !! i with Some (Woken q, k) => t_read i k q t | _ => t end
  | AKill i =>
    match t_readers t !! i with
    | Some (p, _) => t_put i (wake (p, true)) t
    | None => t
    end
  end.
Definition t_init (nreaders : nat) : terminal := mk_terminal [] [] (replicate nreaders (Idle, false)) [].

(** ** The ring *)

Lemma u32_mod x : u32 x mod INPUT_BUF_SIZE = x mod INPUT_BUF_SIZE.
Proof. unfold u32, INPUT_BUF_SIZE. apply Z.mod_mod_divide. by exists (2 ^ 25). Qed.
Lemma at_index_u32 buf x : at_index INPUT_BUF_SIZE buf (u32 x) = at_index INPUT_BUF_SIZE buf x.
Proof. unfold at_index. by rewrite u32_mod. Qed.
Lemma u32_add x y : u32 (u32 x + y) = u32 (x + y).
Proof. unfold u32. by rewrite Zplus_mod_idemp_l. Qed.
Lemma u32_sub x y : u32 (u32 x - y) = u32 (x - y).
Proof. unfold u32. by rewrite Zminus_mod_idemp_l. Qed.
Lemma u32_diff x k : 0 <= k < 2 ^ 32 -> u32 (u32 (x + k) - x) = k.
Proof. intros Hk. rewrite u32_sub. replace (x + k - x) with k by lia. by apply u32_small. Qed.

(** The characters [l] from index [i] on. *)
Definition holds (size : Z) (buf : list Z) (i : Z) (l : list Z) : Prop := forall k x, l !! k = Some x -> at_index size buf (i + Z.of_nat k) = x.
Lemma holds_app size buf i l1 l2 : holds size buf i (l1 ++ l2) <-> holds size buf i l1 /\ holds size buf (i + Z.of_nat (length l1)) l2.
Proof.
  unfold holds. split.
  - intros Hh. split; intros k x Hk; [apply Hh; by apply lookup_app_l_Some|]. replace (i + Z.of_nat (length l1) + Z.of_nat k) with (i + Z.of_nat (length l1 + k)) by lia. apply Hh. by rewrite lookup_app_r, Nat.add_comm, Nat.add_sub by lia.
  - intros [H1 H2] k x Hk. apply lookup_app_Some in Hk as [Hk|[Hl Hk]]; [by apply H1|]. replace (i + Z.of_nat k) with (i + Z.of_nat (length l1) + Z.of_nat (k - length l1)) by lia. by apply H2.
Qed.
Lemma holds_cons size buf i c l : holds size buf i (c :: l) <-> at_index size buf i = c /\ holds size buf (i + 1) l.
Proof.
  change (c :: l) with ([c] ++ l). rewrite holds_app. split; intros [H1 H2]; (split; [|done]).
  - specialize (H1 0%nat c eq_refl). by rewrite Z.add_0_r in H1.
  - intros [|[|k]] x Hk; [|done..]. injection Hk as <-. by rewrite Z.add_0_r.
Qed.
Lemma at_index_zset size buf i j c : 0 < size -> Z.of_nat (length buf) = size -> at_index size (zset buf (i mod size) c) j = if (i mod size =? j mod size) then c else at_index size buf j.
Proof.
  intros Hs Hl. unfold at_index. pose proof (Z.mod_pos_bound i size Hs). destruct (Z.eqb_spec (i mod size) (j mod size)) as [E|E].
  - rewrite <- E, znth_zset_eq by lia. done.
  - by rewrite znth_zset_ne.
Qed.
(** A character more than the ring has. *)
Lemma holds_snoc size buf i l c : 0 < size -> Z.of_nat (length buf) = size -> Z.of_nat (length l) < size -> holds size buf i l -> holds size (zset buf ((i + Z.of_nat (length l)) mod size) c) i (l ++ [c]).
Proof.
  intros H0 Hb Hl Hh. apply holds_app. split; [|apply holds_cons; split; [by rewrite at_index_zset, Z.eqb_refl|by intros ? ?]].
  intros k x Hk. pose proof (lookup_lt_Some _ _ _ Hk). rewrite at_index_zset by done. destruct (Z.eqb_spec ((i + Z.of_nat (length l)) mod size) ((i + Z.of_nat k) mod size)) as [E|_]; [|by apply Hh].
  exfalso. pose proof (Z.div_mod (i + Z.of_nat (length l)) size ltac:(lia)) as D1. pose proof (Z.div_mod (i + Z.of_nat k) size ltac:(lia)) as D2.
  set (a := (i + Z.of_nat (length l)) / size) in *. set (b := (i + Z.of_nat k) / size) in *. assert (Z.of_nat (length l) - Z.of_nat k = size * (a - b)) by lia. destruct (Z.le_gt_cases (a - b) 0); nia.
Qed.

Record console_ok (s : console) (t : terminal) : Prop := {
  co_buf : Z.of_nat (length (c_buf s)) = INPUT_BUF_SIZE;
  co_r : 0 <= c_r s < 2 ^ 32;
  co_w : c_w s = u32 (c_r s + Z.of_nat (length (t_queue t)));
  co_e : c_e s = u32 (c_r s + Z.of_nat (length (t_queue t ++ t_line t)));
  co_size : Z.of_nat (length (t_queue t ++ t_line t)) <= INPUT_BUF_SIZE;
  co_holds : holds INPUT_BUF_SIZE (c_buf s) (c_r s) (t_queue t ++ t_line t);
  co_readers : c_readers s = t_readers t;
  co_taken : c_taken s = t_taken t }.
(** What the terminal keeps: a line under edit has no newline, a full ring has no
    line under edit, and a process sleeps only while there is no input. *)
Record terminal_ok (t : terminal) : Prop := {
  to_line : Forall (fun c => c <> 10) (t_line t);
  to_full : room (t_queue t) (t_line t) = false -> t_line t = [];
  to_reader : forall i p k, t_readers t !! i = Some (p, k) ->
    match p with
    | Asleep q => t_queue t = [] /\ k = false /\ 0 < q_n q /\ q_target q = q_n q + Z.of_nat (length (q_got q)) /\ q_target q < 2 ^ 31
    | Woken q => 0 < q_n q /\ q_target q = q_n q + Z.of_nat (length (q_got q)) /\ q_target q < 2 ^ 31
    | _ => True
    end }.

Section ring.
Context (s : console) (t : terminal) (Hc : console_ok s t).
Let n := Z.of_nat (length (t_queue t ++ t_line t)).

Lemma ring_diff : u32 (c_e s - c_r s) = n /\ ((c_e s =? c_w s) = bool_decide (t_line t = [])).
Proof.
  destruct Hc as [H1 H2 H3 H4 H5 H6 _ _]. fold n in H4, H5. unfold INPUT_BUF_SIZE in *. split; [rewrite H4; apply u32_diff; unfold n; lia|]. rewrite H3, H4.
  case_bool_decide as E; [unfold n; rewrite E, app_nil_r; apply Z.eqb_refl|]. apply Z.eqb_neq. intros Hu. apply (f_equal (fun x => u32 (x - c_r s))) in Hu. rewrite !u32_diff in Hu by (unfold n in *; rewrite length_app in *; lia).
  unfold n in Hu. rewrite length_app in Hu. destruct (t_line t); [done|]. cbn in Hu. lia.
Qed.
Lemma ring_last : t_line t <> [] -> exists l c, t_line t = l ++ [c] /\ at_index INPUT_BUF_SIZE (c_buf s) (u32 (c_e s - 1)) = c /\ u32 (c_e s - 1) = u32 (c_r s + Z.of_nat (length (t_queue t ++ l))).
Proof.
  intros Hne. destruct (exists_last Hne) as (l & c & E). exists l, c. split; [done|]. destruct Hc as [H1 H2 H3 H4 H5 H6 _ _]. rewrite E, app_assoc in H4, H6. apply holds_app in H6 as [_ H6]. apply holds_cons in H6 as [H6 _].
  assert (Eu : u32 (c_e s - 1) = u32 (c_r s + Z.of_nat (length (t_queue t ++ l)))) by (rewrite H4, u32_sub, (length_app _ [c]); f_equal; cbn [length]; lia). split; [by rewrite Eu, at_index_u32|done].
Qed.
End ring.

(** Erasing the last character. *)
Lemma erase_ok s t out : console_ok s t -> t_line t <> [] ->
  console_ok (mk_console (c_buf s) (c_r s) (c_w s) (u32 (c_e s - 1)) out (c_readers s) (c_taken s)) (mk_terminal (t_queue t) (removelast (t_line t)) (t_readers t) (t_taken t)).
Proof.
  intros Hc Hne. destruct (ring_last s t Hc Hne) as (l & c & E & _ & Eu). destruct Hc as [H1 H2 H3 H4 H5 H6 H7 H8]. rewrite E, removelast_last.
  rewrite E, app_assoc, ?length_app in *. apply holds_app in H6 as [H6 _]. constructor; cbn; rewrite ?length_app; try done. cbn [length] in H5. lia.
Qed.
Lemma kill_line_ok fuel : forall s t, console_ok s t -> Forall (fun c => c <> 10) (t_line t) -> (length (t_line t) <= fuel)%nat ->
  console_ok (kill_line fuel s) (mk_terminal (t_queue t) [] (t_readers t) (t_taken t)).
Proof.
  induction fuel as [|fuel IH]; intros s [q l rs tk] Hc Hl Hf; cbn [kill_line t_queue t_line t_readers t_taken] in *.
  - destruct l; [done|cbn in Hf; lia].
  - destruct (ring_diff _ _ Hc) as [_ ->]. cbn [t_line]. case_bool_decide as E; [by subst|]. cbn [negb andb]. destruct (ring_last _ _ Hc E) as (l' & c & El & Ec & _). cbn [t_line] in El. subst l. rewrite Ec.
    apply Forall_app in Hl as [Hl [Hcn _]%Forall_cons]. destruct (Z.eqb_spec c 10); [done|]. cbn [negb]. eapply (IH _ (mk_terminal q l' rs tk)); [|done|rewrite length_app in Hf; cbn [t_line length] in *; lia].
    pose proof (erase_ok _ _ (consputc BACKSPACE (c_echo s)) Hc E) as He. cbn [t_line t_queue t_readers t_taken] in He. by rewrite removelast_last in He.
Qed.
(** Storing a character. *)
Lemma store_ok s t c out (done_ : bool) : console_ok s t -> room (t_queue t) (t_line t) = true ->
  let rs := fun l => if done_ then map wake l else l in
  console_ok (mk_console (zset (c_buf s) (c_e s mod INPUT_BUF_SIZE) c) (c_r s) (if done_ then u32 (c_e s + 1) else c_w s) (u32 (c_e s + 1)) out (rs (c_readers s)) (c_taken s))
    (if done_ then mk_terminal (t_queue t ++ t_line t ++ [c]) [] (map wake (t_readers t)) (t_taken t) else mk_terminal (t_queue t) (t_line t ++ [c]) (t_readers t) (t_taken t)).
Proof.
  intros [H1 H2 H3 H4 H5 H6 H7 H8] Hr rs. unfold room in Hr. apply Z.ltb_lt in Hr. rewrite <- length_app in Hr. pose proof (holds_snoc INPUT_BUF_SIZE _ _ _ c eq_refl H1 Hr H6) as Hs. rewrite <- app_assoc in Hs.
  assert (Eb : zset (c_buf s) (c_e s mod INPUT_BUF_SIZE) c = zset (c_buf s) ((c_r s + Z.of_nat (length (t_queue t ++ t_line t))) mod INPUT_BUF_SIZE) c) by (by rewrite H4, u32_mod).
  assert (Ee : u32 (c_e s + 1) = u32 (c_r s + Z.of_nat (length (t_queue t ++ t_line t ++ [c])))) by (rewrite H4, u32_add, app_assoc, (length_app _ [c]); f_equal; cbn [length]; lia).
  assert (El : Z.of_nat (length (t_queue t ++ t_line t ++ [c])) <= INPUT_BUF_SIZE) by (rewrite app_assoc, (length_app _ [c]); cbn [length]; lia).
  rewrite Eb, Ee. destruct done_; constructor; cbn; rewrite ?zset_length, ?app_nil_r; try done; unfold rs; by rewrite H7.
Qed.
Lemma consoleintr_ok s t c : console_ok s t -> terminal_ok t -> console_ok (consoleintr c s) (key c t).
Proof.
  intros Hc Ht. destruct (ring_diff s t Hc) as [Ed Ee]. unfold consoleintr, key. destruct (c =? CTRL 80); [done|]. destruct (c =? CTRL 85).
  { apply kill_line_ok; [done|by apply Ht|]. pose proof (co_size _ _ Hc) as Hs. rewrite length_app in Hs. unfold INPUT_BUF_SIZE in *. lia. }
  destruct ((c =? CTRL 72) || (c =? 127)).
  { rewrite Ee. case_bool_decide as E; cbn [negb]; [|by apply erase_ok]. rewrite E. by destruct Hc, t; constructor; cbn in *; subst. }
  rewrite Ed. unfold room at 1. rewrite <- length_app. destruct (negb (c =? 0)) eqn:E0; [|done]. cbn [andb]. destruct (Z.ltb_spec (Z.of_nat (length (t_queue t ++ t_line t))) INPUT_BUF_SIZE) as [Hlt|Hge]; [|done].
  assert (Hroom : room (t_queue t) (t_line t) = true) by (unfold room; rewrite <- length_app; by apply Z.ltb_lt). set (c' := if c =? 13 then 10 else c).
  assert (Efull : (u32 (u32 (c_e s + 1) - c_r s) =? INPUT_BUF_SIZE) = negb (room (t_queue t) (t_line t ++ [c']))).
  { rewrite (co_e _ _ Hc), u32_add. rewrite <- Z.add_assoc, u32_diff by (unfold INPUT_BUF_SIZE in *; lia). unfold room. rewrite <- length_app, app_assoc, (length_app _ [c']). cbn [length].
    destruct (Z.eqb_spec (Z.of_nat (length (t_queue t ++ t_line t)) + 1) INPUT_BUF_SIZE), (Z.ltb_spec (Z.of_nat (length (t_queue t ++ t_line t) + 1)) INPUT_BUF_SIZE); (done || lia). }
  rewrite Efull. set (d := (c' =? 10) || (c' =? CTRL 68) || _). pose proof (store_ok s t c' (consputc c' (c_echo s)) d Hc Hroom) as Hst. by destruct d.
Qed.

(** A request in progress: [target - n] characters were copied. *)
Definition request_ok (q : request) : Prop :=
  (0 < q_n q -> q_target q = q_n q + Z.of_nat (length (q_got q)) /\ q_target q < 2 ^ 31) /\ i32 (u32 (q_target q - q_n q)) = Z.of_nat (length (q_got q)).

Lemma advance_ok s t c l : console_ok s t -> t_queue t = c :: l ->
  (c_r s =? c_w s) = false /\ at_index INPUT_BUF_SIZE (c_buf s) (c_r s) = c /\
  console_ok (mk_console (c_buf s) (u32 (c_r s + 1)) (c_w s) (c_e s) (c_echo s) (c_readers s) (c_taken s ++ [c])) (t_advance 1 t).
Proof.
  intros [H1 H2 H3 H4 H5 H6 H7 H8] E. unfold t_advance. rewrite E in *. cbn [app length drop take] in *. apply holds_cons in H6 as [H6 H6']. unfold INPUT_BUF_SIZE in *. split_and!; [|done|].
  - apply Z.eqb_neq. intros Er. rewrite H3 in Er. apply (f_equal (fun x => u32 (x - c_r s))) in Er. rewrite u32_diff, Z.sub_diag in Er by (rewrite length_app in H5; lia). change (u32 0) with 0 in Er. lia.
  - constructor; cbn; rewrite ?drop_0, ?take_0; unfold INPUT_BUF_SIZE; try done; [apply u32_range|rewrite H3, u32_add; f_equal; lia|rewrite H4, u32_add; f_equal; lia|lia| |by rewrite H8].
    intros k x Hk. specialize (H6' k x Hk). rewrite <- at_index_u32 in H6' |- *. by rewrite u32_add.
Qed.
Lemma advance_next k c l t : t_queue t = c :: l -> t_advance (S k) t = t_advance k (t_advance 1 t).
Proof. intros E. unfold t_advance. rewrite E. cbn. by rewrite <- app_assoc. Qed.
Lemma advance_none t : t_advance 0 t = t.
Proof. destruct t. unfold t_advance. cbn. by rewrite drop_0, app_nil_r. Qed.
Lemma request_next q c : request_ok q -> 0 < q_n q -> request_ok (mk_request (q_n q - 1) (q_target q) (q_ok q - 1) (q_got q ++ [c])).
Proof.
  intros [H1 _] Hn. destruct (H1 Hn) as [Ht Hb]. unfold request_ok. cbn. rewrite length_app. cbn [length]. split; [lia|]. rewrite u32_small by lia. rewrite i32_small by lia. lia.
Qed.
Lemma read_loop_ok fuel killed : forall q s t, console_ok s t -> request_ok q -> (Z.to_nat (q_n q) < fuel)%nat ->
  let r := t_input q t in let o := read_loop fuel killed q s in o.1 = t_result killed q r /\ console_ok o.2 (t_advance r.1.2 t).
Proof.
  induction fuel as [|fuel IH]; intros q s t Hc Hq Hf; [lia|]. cbv zeta. cbn [read_loop]. unfold t_input. destruct Hq as [Hq1 Hq2].
  assert (Hret : forall k, t_result killed q ([], k, true) = Returned (i32 (u32 (q_target q - q_n q))) (q_got q)) by (intros k; unfold t_result; cbn; by rewrite app_nil_r, Hq2).
  destruct (Z.leb_spec (q_n q) 0) as [Hn|Hn]. { replace (Z.to_nat (q_n q)) with 0%nat by lia. cbn [take_input fst snd]. rewrite Hret, advance_none. done. }
  destruct (Z.to_nat (q_n q)) as [|n] eqn:En; [lia|]. destruct (t_queue t) as [|c l] eqn:Eq; cbn [take_input].
  - pose proof (co_w _ _ Hc) as Hw. rewrite Eq in Hw. cbn [length] in Hw. change (Z.of_nat 0) with 0 in Hw. rewrite Z.add_0_r, u32_small in Hw by apply Hc. rewrite Hw, Z.eqb_refl. cbn [fst snd]. rewrite advance_none.
    unfold t_result. cbn. rewrite app_nil_r. destruct killed; [done|]. rewrite !Z.sub_0_r. by destruct q.
  - destruct (advance_ok s t c l Hc Eq) as (-> & -> & Hadv). destruct (Hq1 Hn) as [Ht Hb]. destruct (Z.eqb_spec c (CTRL 68)) as [Ec|Ec].
    + rewrite Hret. assert (Ef : (q_n q <? q_target q) = negb (bool_decide (q_got q = []))). { case_bool_decide as Eg; [rewrite Eg in Ht; cbn in Ht; apply Z.ltb_ge; lia|]. destruct (q_got q); [done|]. cbn in Ht. apply Z.ltb_lt. lia. }
      rewrite Ef. case_bool_decide; cbn [negb fst snd]; [done|]. split; [done|]. rewrite advance_none, u32_sub. replace (c_r s + 1 - 1) with (c_r s) by lia. rewrite u32_small by apply Hc. by destruct s.
    + destruct (Z.leb_spec (q_ok q) 0) as [Hk|Hk]; [replace (Z.to_nat (q_ok q)) with 0%nat by lia; cbn [fst snd]; by rewrite Hret|]. destruct (Z.to_nat (q_ok q)) as [|ok] eqn:Ek; [lia|].
      pose proof (request_next q c (conj Hq1 Hq2) Hn) as Hq'. destruct (Z.eqb_spec c 10) as [E10|E10]; cbn [fst snd].
      * split; [|done]. unfold t_result. cbn. destruct Hq' as [_ Hq']. cbn in Hq'. by rewrite Hq'.
      * set (q' := mk_request _ _ _ _) in *. destruct (IH q' _ _ Hadv Hq' ltac:(cbn; lia)) as [I1 I2]. unfold t_input in I1, I2. cbn [q_n q_ok q_got q' t_queue t_advance] in I1, I2. rewrite Eq in I1, I2. cbn [drop] in I1, I2.
        replace (Z.to_nat (q_n q - 1)) with n in I1, I2 by lia. replace (Z.to_nat (q_ok q - 1)) with ok in I1, I2 by lia. rewrite bool_decide_eq_false_2 in I1, I2 by (by destruct (q_got q)). rewrite drop_0 in I1, I2.
        rewrite (advance_next _ c l t Eq). split; [|done]. rewrite I1. unfold t_result. cbn [fst snd q_n q_target q_ok q_got q' length]. rewrite <- !app_assoc. cbn [app]. destruct (take_input n ok false l).2; [done|]. destruct killed; [done|]. f_equal. f_equal; lia.
Qed.

Lemma take_input_waits n : forall ok first q, (take_input n ok first q).2 = false ->
  (take_input n ok first q).1.2 = length q /\ length (take_input n ok first q).1.1 = length q /\ (length q < n)%nat.
Proof.
  induction n as [|n IH]; intros ok first [|c q]; cbn [take_input]; try done; [cbn; lia|]. destruct (c =? CTRL 68); [done|]. destruct ok as [|ok]; [done|]. destruct (c =? 10); [done|]. cbn [fst snd length].
  intros H. destruct (IH _ _ _ H) as (-> & -> & ?). lia.
Qed.
Lemma room_le q l l' : (length l <= length l')%nat -> room q l = false -> room q l' = false.
Proof. unfold room. rewrite !Z.ltb_ge. lia. Qed.
Lemma removelast_length (l : list Z) : (length (removelast l) <= length l)%nat.
Proof. induction l as [|c l IH]; [done|]. destruct l; [cbn; lia|]. cbn [removelast length] in *. lia. Qed.
Lemma key_ok c t : terminal_ok t -> terminal_ok (key c t).
Proof.
  intros [H1 H2 H3]. unfold key. destruct (c =? CTRL 80); [done|]. destruct (c =? CTRL 85); [by constructor; cbn|]. destruct ((c =? CTRL 72) || (c =? 127)).
  { constructor; cbn; [|intros Hr; rewrite H2; [done|]; eapply room_le; [apply removelast_length|done]|done].
    destruct (decide (t_line t = [])) as [->|E]; [constructor|]. destruct (exists_last E) as (l & x & El). rewrite El in *. rewrite removelast_last. by apply Forall_app in H1 as [H1 _]. }
  destruct (negb (c =? 0) && room (t_queue t) (t_line t)); [|done]. set (c' := if c =? 13 then 10 else c). destruct ((c' =? 10) || (c' =? CTRL 68) || negb (room (t_queue t) (t_line t ++ [c']))) eqn:Ed.
  - constructor; cbn; [constructor|done|]. intros i p k. change (map wake) with (fmap (M := list) wake). rewrite list_lookup_fmap. intros ([p' k'] & Hp & E)%fmap_Some. specialize (H3 i p' k' Hp). destruct p' as [|q|q|]; injection E as -> ->; try done. apply H3.
  - apply orb_false_iff in Ed as [[Ed1 Ed2]%orb_false_iff Ed3]. constructor; cbn; [|intros Hr; by rewrite Hr in Ed3|done]. apply Forall_app. split; [done|]. constructor; [by apply Z.eqb_neq|constructor].
Qed.
Lemma advance_queue_ok k t : terminal_ok t -> terminal_ok (t_advance k t).
Proof.
  intros [H1 H2 H3]. constructor; cbn; [done| |].
  - intros Hr. apply H2. unfold room in *. rewrite Z.ltb_ge in *. rewrite length_drop in Hr. lia.
  - intros i p k' Hp. specialize (H3 i p k' Hp). destruct p as [|q|q|]; try done. destruct H3 as (-> & H3). by rewrite drop_nil.
Qed.
Lemma put_ok i p k t : terminal_ok t -> match p with
    | Asleep q => t_queue t = [] /\ k = false /\ 0 < q_n q /\ q_target q = q_n q + Z.of_nat (length (q_got q)) /\ q_target q < 2 ^ 31
    | Woken q => 0 < q_n q /\ q_target q = q_n q + Z.of_nat (length (q_got q)) /\ q_target q < 2 ^ 31
    | _ => True
    end -> terminal_ok (t_put i (p, k) t).
Proof.
  intros [H1 H2 H3] Hp. constructor; cbn; [done|done|]. intros j p' k' Hj. apply list_lookup_insert_Some in Hj as [(-> & [= <- <-] & _)|[_ Hj]]; [done|by apply (H3 j)].
Qed.
Lemma read_ok i k q t : terminal_ok t -> request_ok q -> terminal_ok (t_read i k q t).
Proof.
  intros Ht [Hq1 Hq2]. unfold t_read. apply put_ok; [by apply advance_queue_ok|]. unfold t_result. destruct (t_input q t).2 eqn:E; [done|]. destruct k; [done|].
  destruct (take_input_waits _ _ _ _ E) as (E1 & E2 & E3). unfold t_input. rewrite E1, E2. cbn. rewrite length_app, E2. rewrite drop_ge by done. destruct (Hq1 ltac:(lia)). split_and!; (done || lia).
Qed.

(** ** The refinement *)

Definition t_run (l : list action) (t : terminal) : terminal := fold_left (fun t a => t_act a t) l t.

Lemma set_reader_ok i p s t : console_ok s t -> console_ok (set_reader i p s) (t_put i p t).
Proof. intros [H1 H2 H3 H4 H5 H6 H7 H8]. constructor; cbn; try done. by rewrite H7. Qed.
Lemma consoleread_ok i k q s t : console_ok s t -> terminal_ok t -> request_ok q -> let r := consoleread k q s in
  console_ok (set_reader i (r.1, k) r.2) (t_read i k q t) /\ terminal_ok (t_read i k q t).
Proof.
  intros Hc Ht Hq. cbv zeta. split; [|by apply read_ok]. destruct (read_loop_ok (S (Z.to_nat (q_n q))) k q s t Hc Hq ltac:(lia)) as [E1 E2]. unfold consoleread, t_read. rewrite E1. by apply set_reader_ok.
Qed.
Lemma act_ok a s t s' : console_ok s t -> terminal_ok t -> act a s = Some s' -> console_ok s' (t_act a t) /\ terminal_ok (t_act a t).
Proof.
  intros Hc Ht. pose proof (co_readers _ _ Hc) as Er. destruct a as [c|i n ok|i|i]; cbn [act t_act].
  - destruct ((0 <=? c) && (c <? 256)); [|done]. intros [= <-]. split; [by apply consoleintr_ok|by apply key_ok].
  - rewrite Er. destruct (t_readers t !! i) as [[p k]|]; [|done]. assert (Hgo : (if (- 2 ^ 31 <=? n) && (n <? 2 ^ 31) then let r := consoleread k (mk_request n (u32 n) ok []) s in Some (set_reader i (r.1, k) r.2) else None) = Some s' -> console_ok s' (t_read i k (mk_request n (u32 n) ok []) t) /\ terminal_ok (t_read i k (mk_request n (u32 n) ok []) t)); [|by destruct p].
    destruct (Z.leb_spec (- 2 ^ 31) n), (Z.ltb_spec n (2 ^ 31)); try done. intros [= <-]. apply consoleread_ok; [done|done|]. split; cbn; [intros Hn; rewrite u32_small by lia; lia|]. rewrite u32_sub, Z.sub_diag. done.
  - rewrite Er. destruct (t_readers t !! i) as [[[|q|q|] k]|] eqn:Ei; try done. intros [= <-]. apply consoleread_ok; [done|done|]. destruct (to_reader _ Ht _ _ _ Ei) as (Hn & Hq & Hb). split; [done|]. rewrite u32_small by lia. rewrite i32_small by lia. lia.
  - rewrite Er. destruct (t_readers t !! i) as [[p k]|] eqn:Ei; [|done]. intros [= <-]. split; [by apply set_reader_ok|]. pose proof (to_reader _ Ht _ _ _ Ei) as Hp. destruct p as [|q|q|]; (apply put_ok; [done|]); try done. apply Hp.
Qed.
Lemma console_run_ok l : forall s t s', console_ok s t -> terminal_ok t -> c_run l s = Some s' -> console_ok s' (t_run l t) /\ terminal_ok (t_run l t).
Proof.
  induction l as [|a l IH]; intros s t s' Hc Ht; cbn [c_run t_run fold_left]; [by intros [= <-]|]. destruct (act a s) as [s1|] eqn:Ea; [|done]. destruct (act_ok a s t s1 Hc Ht Ea) as [Hc1 Ht1]. by apply IH.
Qed.
Lemma init_ok n : console_ok (consoleinit n) (t_init n) /\ terminal_ok (t_init n).
Proof.
  split; constructor; cbn; try done; try lia. intros i p k Hp. apply lookup_replicate in Hp as [[= -> ->] _]. done.
Qed.

(** C26: The ring buffer of the console, with its 32-bit indices that wrap around,
    implements a terminal: however key strokes, reads by any number of processes
    and kills interleave, the ring has the finished input that was not read and
    the line under edit, what the processes got is what they get from the
    terminal, and a process sleeps in consoleread only while there is no input
    to read and it was not killed. *)
Theorem console_refines n l s : c_run l (consoleinit n) = Some s ->
  let t := t_run l (t_init n) in
  console_ok s t /\ c_readers s = t_readers t /\ c_taken s = t_taken t /\
  forall i q k, c_readers s !! i = Some (Asleep q, k) -> t_queue t = [] /\ c_r s = c_w s /\ k = false.
Proof.
  intros Hr t. destruct (init_ok n) as [Hc0 Ht0]. destruct (console_run_ok l _ _ _ Hc0 Ht0 Hr) as [Hc Ht]. fold t in Hc, Ht. split; [done|]. split; [apply Hc|]. split; [apply Hc|]. intros i q k Hi. rewrite (co_readers _ _ Hc) in Hi.
  destruct (to_reader _ Ht _ _ _ Hi) as (E & Hk & _). split; [done|]. split; [|done]. rewrite (co_w _ _ Hc), E. cbn. rewrite Z.add_0_r, u32_small; [done|apply Hc].
Qed.
(** [l], a backspace, [s], return, and two reads of which the second sleeps. *)
Definition ex_keys : list action := [ARead 0 10 10; AKey 108; AKey 8; AKey 115; AKey 13; AResume 0; ARead 1 10 10].
Lemma console_refines_witness : exists s, c_run ex_keys (consoleinit 2) = Some s /\ c_readers s !! 0%nat = Some (Returned 2 [115; 10], false) /\ console_ok s (t_run ex_keys (t_init 2)).
Proof.
  destruct (c_run ex_keys (consoleinit 2)) as [s|] eqn:E; [|exfalso; revert E; vm_compute; discriminate]. exists s. split; [reflexivity|]. destruct (console_refines 2 ex_keys s E) as (Hc & -> & _). split; [vm_compute; reflexivity|exact Hc].
Defined.

(** ** Output *)

Definition UART_TX_BUF_SIZE : Z := 32.

(** A [consolewrite]: the characters it has still to write, the first of them in
    [uartputc], and how many it wrote. *)
Inductive writer :=
| WNone
| WReady (l : list Z) (n : Z)
| WAsleep (l : list Z) (n : Z)  (* in sleep(&uart_tx_r, &uart_tx_lock) *)
| WWoken (l : list Z) (n : Z)
| WDone (n : Z).
(** The ring; how many more characters the device takes, and whether it has an
    interrupt pending; the characters written to it, with [true] for those of
    the ring; the processes; and the characters put into the ring. *)
Record uart := mk_uart {
  uart_tx_buf : list Z; uart_tx_w : Z; uart_tx_r : Z;
  u_slots : nat; u_irq : bool; u_sent : list (Z * bool);
  u_writers : list writer; u_put : list Z }.

Definition wake_writer (p : writer) : writer := match p with WAsleep l n => WWoken l n | _ => p end.
Fixpoint uartstart_loop (fuel : nat) (s : uart) : uart :=
  match fuel with
  | O => s
  | S fuel =>
    if uart_tx_w s =? uart_tx_r s then s
    else match u_slots s with
         | O => s  (* not LSR_TX_IDLE *)
         | S k =>
           let c := at_index UART_TX_BUF_SIZE (uart_tx_buf s) (uart_tx_r s) in
           uartstart_loop fuel (mk_uart (uart_tx_buf s) (uart_tx_w s) (u64 (uart_tx_r s + 1)) k (u_irq s) (u_sent s ++ [(c, true)]) (map wake_writer (u_writers s)) (u_put s))
         end
  end.
(** The ring has at most 32 characters to send. *)
Definition uartstart (s : uart) : uart := uartstart_loop (S (Z.to_nat UART_TX_BUF_SIZE)) s.

Definition set_writer (i : nat) (p : writer) (s : uart) : uart :=
  mk_uart (uart_tx_buf s) (uart_tx_w s) (uart_tx_r s) (u_slots s) (u_irq s) (u_sent s) (<[i := p]> (u_writers s)) (u_put s).
(** The process [i], with the characters [c :: l] to write, in [uartputc]. *)
Definition uartputc (i : nat) (c : Z) (l : list Z) (n : Z) (s : uart) : uart :=
  if uart_tx_w s =? u64 (uart_tx_r s + UART_TX_BUF_SIZE) then set_writer i (WAsleep (c :: l) n) s
  else
    uartstart (mk_uart (zset (uart_tx_buf s) (uart_tx_w s mod UART_TX_BUF_SIZE) c) (u64 (uart_tx_w s + 1)) (uart_tx_r s) (u_slots s) (u_irq s) (u_sent s)
      (<[i := WReady l (n + 1)]> (u_writers s)) (u_put s ++ [c])).
(** A turn of the loop of [consolewrite]. *)
Definition consolewrite (i : nat) (l : list Z) (n : Z) (s : uart) : uart :=
  match l with [] => set_writer i (WDone n) s | c :: l => uartputc i c l n s end.

(** It waits until the device is ready, without interrupts. *)
Definition uartputc_sync (c : Z) (s : uart) : option uart :=
  match u_slots s with
  | O => None
  | S k => Some (mk_uart (uart_tx_buf s) (uart_tx_w s) (uart_tx_r s) k (u_irq s) (u_sent s ++ [(c, false)]) (u_writers s) (u_put s))
  end.
(** The interrupt: the characters [rx] that the device received go to the
    console, and the ring goes on. *)
Definition uartintr (rx : list Z) (k : console) (s : uart) : console * uart :=
  (fold_left (fun k c => consoleintr c k) rx k,
   uartstart (mk_uart (uart_tx_buf s) (uart_tx_w s) (uart_tx_r s) (u_slots s) false (u_sent s) (u_writers s) (u_put s))).

Inductive uact :=
| UWrite (i : nat) (l : list Z)  (* consolewrite of characters that can be copied in *)
| UGo (i : nat)
| UKill (i : nat)  (* kill wakes a process, which looks again *)
| USync (c : Z)  (* uartputc_sync, for printf and for echo *)
| UDevice  (* the device becomes ready for a character and interrupts *)
| UIntr (rx : list Z) (k : console).  (* uartintr *)
Definition u_act (a : uact) (s : uart) : option uart :=
  match a with
  | UWrite i l => match u_writers s !! i with Some WNone | Some (WDone _) => Some (set_writer i (WReady l 0) s) | _ => None end
  | UGo i => match u_writers s !! i with Some (WReady l n) | Some (WWoken l n) => Some (consolewrite i l n s) | _ => None end
  | UKill i => match u_writers s !! i with Some p => Some (set_writer i (wake_writer p) s) | None => None end
  | USync c => uartputc_sync c s
  | UDevice => Some (mk_uart (uart_tx_buf s) (uart_tx_w s) (uart_tx_r s) (S (u_slots s)) true (u_sent s) (u_writers s) (u_put s))
  | UIntr rx k => if u_irq s then Some (uartintr rx k s).2 else None
  end.
Definition uart_init (nwriters : nat) : uart := mk_uart (replicate 32 0) 0 0 0 false [] (replicate nwriters WNone) [].
Inductive uart_reach (n : nat) : uart -> Prop :=
| uart_start : uart_reach n (uart_init n)
| uart_step a s s' : uart_reach n s -> u_act a s = Some s' -> uart_reach n s'.

(** What was sent from the ring. *)
Definition sent (s : uart) : list Z := map fst (filter (fun p => p.2 = true) (u_sent s)).
(** The ring holds the characters [q]. *)
Record uart_ring (s : uart) (q : list Z) : Prop := {
  ur_buf : Z.of_nat (length (uart_tx_buf s)) = UART_TX_BUF_SIZE;
  ur_r : 0 <= uart_tx_r s < 2 ^ 64;
  ur_w : uart_tx_w s = u64 (uart_tx_r s + Z.of_nat (length q));
  ur_size : Z.of_nat (length q) <= UART_TX_BUF_SIZE;
  ur_holds : holds UART_TX_BUF_SIZE (uart_tx_buf s) (uart_tx_r s) q;
  ur_put : u_put s = sent s ++ q;
  ur_asleep : forall i l n, u_writers s !! i = Some (WAsleep l n) -> l <> [] /\ Z.of_nat (length q) = UART_TX_BUF_SIZE }.

Lemma u64_mod x : u64 x mod UART_TX_BUF_SIZE = x mod UART_TX_BUF_SIZE.
Proof. unfold u64, UART_TX_BUF_SIZE. apply Z.mod_mod_divide. by exists (2 ^ 59). Qed.
Lemma u64_add x y : u64 (u64 x + y) = u64 (x + y).
Proof. unfold u64. by rewrite Zplus_mod_idemp_l. Qed.
Lemma u64_inj x k k' : 0 <= k <= UART_TX_BUF_SIZE -> 0 <= k' <= UART_TX_BUF_SIZE -> u64 (x + k) = u64 (x + k') -> k = k'.
Proof.
  intros Hk Hk' E. apply (f_equal (fun y => (y - x) mod 2 ^ 64)) in E. unfold u64, UART_TX_BUF_SIZE in *. rewrite !Zminus_mod_idemp_l in E. replace (x + k - x) with k in E by lia. replace (x + k' - x) with k' in E by lia. rewrite !Z.mod_small in E by lia. done.
Qed.
Lemma uart_empty s q : uart_ring s q -> (uart_tx_w s =? uart_tx_r s) = bool_decide (q = []).
Proof.
  intros [H1 H2 H3 H4 H5 H6 H7]. rewrite H3. case_bool_decide as E; [subst q; cbn; rewrite Z.add_0_r, u64_small by done; apply Z.eqb_refl|]. apply Z.eqb_neq. intros Eu. rewrite <- (u64_small (uart_tx_r s)) in Eu at 2 by done.
  replace (uart_tx_r s) with (uart_tx_r s + 0) in Eu at 2 by lia. apply u64_inj in Eu; [|lia|unfold UART_TX_BUF_SIZE; lia]. destruct q; [done|cbn in Eu; lia].
Qed.
Lemma wake_writers_asleep ws i l n : map wake_writer ws !! i = Some (WAsleep l n) -> False.
Proof. change (map wake_writer) with (fmap (M := list) wake_writer). rewrite list_lookup_fmap. intros ([] & _ & E)%fmap_Some; done. Qed.
(** The first character leaves the ring for the device. *)
Lemma uart_send s c q k : uart_ring s (c :: q) ->
  uart_ring (mk_uart (uart_tx_buf s) (uart_tx_w s) (u64 (uart_tx_r s + 1)) k (u_irq s) (u_sent s ++ [(at_index UART_TX_BUF_SIZE (uart_tx_buf s) (uart_tx_r s), true)]) (map wake_writer (u_writers s)) (u_put s)) q.
Proof.
  intros [H1 H2 H3 H4 H5 H6 H7]. apply holds_cons in H5 as [Hc H5]. cbn [length] in *. constructor; cbn; try done; [apply Z.mod_pos_bound; lia|rewrite H3, u64_add; f_equal; lia|lia| | |].
  - intros j x Hj. specialize (H5 j x Hj). unfold at_index in *. rewrite <- u64_mod, u64_add, u64_mod. done.
  - rewrite H6, Hc. unfold sent. cbn. rewrite filter_app, map_app. cbn. by rewrite <- app_assoc.
  - intros i l n Hi. by apply wake_writers_asleep in Hi.
Qed.
Lemma uartstart_ok fuel : forall s q, uart_ring s q -> (length q < fuel)%nat ->
  let s' := uartstart_loop fuel s in u_irq s' = u_irq s /\ exists q', uart_ring s' q' /\ (q' = [] \/ u_slots s' = 0%nat).
Proof.
  induction fuel as [|fuel IH]; intros s q Hq Hf; [lia|]. cbn [uartstart_loop]. rewrite (uart_empty s q Hq). case_bool_decide as E; [split; [done|]; exists q; auto|].
  destruct (u_slots s) as [|k] eqn:Es; [split; [done|]; exists q; auto|]. destruct q as [|c q]; [done|]. cbn [length] in Hf. exact (IH _ q (uart_send s c q k Hq) ltac:(lia)).
Qed.
Definition uart_busy (s : uart) (q : list Z) : Prop := q <> [] -> u_slots s = 0%nat \/ u_irq s = true.
Lemma uartstart_busy s q : uart_ring s q -> exists q', uart_ring (uartstart s) q' /\ uart_busy (uartstart s) q'.
Proof.
  intros Hq. pose proof (ur_size _ _ Hq). destruct (uartstart_ok (S (Z.to_nat UART_TX_BUF_SIZE)) s q Hq) as [_ (q' & Hq' & Hb)]; [unfold UART_TX_BUF_SIZE in *; lia|]. exists q'. split; [done|]. intros Hne. destruct Hb; [done|by left].
Qed.
Lemma set_writer_ok i p s q : uart_ring s q -> (forall l n, p = WAsleep l n -> l <> [] /\ Z.of_nat (length q) = UART_TX_BUF_SIZE) -> uart_ring (set_writer i p s) q.
Proof.
  intros [H1 H2 H3 H4 H5 H6 H7] Hp. constructor; cbn; try done. intros j l n Hj. apply list_lookup_insert_Some in Hj as [(-> & -> & _)|[_ Hj]]; [by eapply Hp|by eapply H7].
Qed.
Lemma uartputc_ok i c l n s q : uart_ring s q -> uart_busy s q -> exists q', uart_ring (uartputc i c l n s) q' /\ uart_busy (uartputc i c l n s) q'.
Proof.
  intros Hq Hb. unfold uartputc. destruct (Z.eqb_spec (uart_tx_w s) (u64 (uart_tx_r s + UART_TX_BUF_SIZE))) as [E|E].
  - exists q. split; [|done]. apply set_writer_ok; [done|]. intros l' n' [= <- <-]. split; [done|]. rewrite (ur_w _ _ Hq) in E. apply u64_inj in E; [done|pose proof (ur_size _ _ Hq); lia|unfold UART_TX_BUF_SIZE; lia].
  - apply (uartstart_busy _ (q ++ [c])). destruct Hq as [H1 H2 H3 H4 H5 H6 H7]. assert (Hlt : Z.of_nat (length q) < UART_TX_BUF_SIZE). { destruct (decide (Z.of_nat (length q) = UART_TX_BUF_SIZE)) as [El|]; [by rewrite H3, El in E|lia]. }
    constructor; cbn; rewrite ?zset_length, ?length_app; cbn [length]; try done; [rewrite H3, u64_add; f_equal; lia|lia| | |].
    + rewrite H3, u64_mod. by apply holds_snoc.
    + by rewrite H6, <- app_assoc.
    + intros j l' n' Hj. apply list_lookup_insert_Some in Hj as [(_ & E' & _)|[_ Hj]]; [done|]. destruct (H7 _ _ _ Hj). lia.
Qed.
Lemma u_act_ok a s s' q : uart_ring s q -> uart_busy s q -> u_act a s = Some s' -> exists q', uart_ring s' q' /\ uart_busy s' q'.
Proof.
  intros Hq Hb. destruct a as [i l|i|i|c| |rx k]; cbn [u_act].
  - destruct (u_writers s !! i) as [[]|]; try done; intros [= <-]; exists q; (split; [by apply set_writer_ok|done]).
  - assert (Hgo : forall l n, exists q', uart_ring (consolewrite i l n s) q' /\ uart_busy (consolewrite i l n s) q'). { intros [|c l] n; cbn [consolewrite]; [exists q; split; [by apply set_writer_ok|done]|by eapply uartputc_ok]. }
    destruct (u_writers s !! i) as [[]|]; try done; intros [= <-]; apply Hgo.
  - destruct (u_writers s !! i) as [p|]; [|done]. intros [= <-]. exists q. split; [|done]. apply set_writer_ok; [done|]. by destruct p.
  - unfold uartputc_sync. destruct (u_slots s) as [|k] eqn:Es; [done|]. intros [= <-]. exists q. split; [|intros Hne; right; by destruct (Hb Hne) as [E|E]; [rewrite Es in E|]]. destruct Hq as [H1 H2 H3 H4 H5 H6 H7]. constructor; cbn; try done. unfold sent. cbn. rewrite filter_app, map_app. cbn. by rewrite app_nil_r.
  - intros [= <-]. exists q. split; [|by right]. by destruct Hq; constructor.
  - destruct (u_irq s); [|done]. intros [= <-]. apply (uartstart_busy _ q). by destruct Hq; constructor.
Qed.

(** The characters of an interrupt are key strokes of the console. *)
Lemma uartintr_keys rx u : Forall (fun c => 0 <= c < 256) rx -> forall k, c_run (map AKey rx) k = Some (uartintr rx k u).1.
Proof.
  intros Hr. cbn. induction Hr as [|c rx Hc Hr IH]; intros k; [done|]. cbn [map c_run act fold_left]. destruct (Z.leb_spec 0 c), (Z.ltb_spec c 256); try lia. cbn [andb]. apply IH.
Qed.

(** C38: Console output is first in, first out and never gets stuck: whatever
    processes write, sleep and are woken, the characters put into the ring are
    those sent to the device, in order, followed by at most 32 that wait; a
    process sleeps only while the ring is full; and while characters wait, the
    device is busy or has an interrupt pending. *)
Theorem uart_fifo n s : uart_reach n s -> exists q, u_put s = sent s ++ q /\ Z.of_nat (length q) <= UART_TX_BUF_SIZE /\
  (forall i l k, u_writers s !! i = Some (WAsleep l k) -> Z.of_nat (length q) = UART_TX_BUF_SIZE) /\
  (q <> [] -> u_slots s = 0%nat \/ u_irq s = true).
Proof.
  intros Hr. assert (Hi : exists q, uart_ring s q /\ uart_busy s q).
  { induction Hr as [|a s s' _ (q & Hq & Hb) Ha]; [|by eapply u_act_ok]. exists []. split; [|by intros ?]. constructor; cbn; try done; try lia. intros i l k Hl. by apply lookup_replicate in Hl as [? _]. }
  destruct Hi as (q & [H1 H2 H3 H4 H5 H6 H7] & Hb). exists q. split_and!; try done. intros i l k Hl. by apply H7 in Hl as [_ ?].
Qed.
(** A process writes 40 characters: when 32 are in the ring it sleeps. *)
Fixpoint ex_uart (n : nat) : uart :=
  match n with
  | O => default (uart_init 1) (u_act (UWrite 0 (replicate 40 97)) (uart_init 1))
  | S n => default (uart_init 1) (u_act (UGo 0) (ex_uart n))
  end.
Lemma ex_uart_reach n : uart_reach 1 (ex_uart n).
Proof.
  induction n as [|n IH]; cbn [ex_uart]; (destruct (u_act _ _) as [s|] eqn:E; [|apply uart_start]).
  - exact (uart_step _ _ _ _ (uart_start 1) E).
  - exact (uart_step _ _ _ _ IH E).
Qed.
Lemma uart_fifo_witness : exists q, u_writers (ex_uart 33) !! 0%nat = Some (WAsleep (replicate 8 97) 32) /\ u_put (ex_uart 33) = replicate 32 97 /\
  u_put (ex_uart 33) = sent (ex_uart 33) ++ q /\ Z.of_nat (length q) = UART_TX_BUF_SIZE /\ (u_slots (ex_uart 33) = 0%nat \/ u_irq (ex_uart 33) = true).
Proof.
  assert (Hw : u_writers (ex_uart 33) !! 0%nat = Some (WAsleep (replicate 8 97) 32)) by (vm_compute; reflexivity).
  destruct (uart_fifo 1 (ex_uart 33) (ex_uart_reach 33)) as (q & Hq & _ & Hs & Hb). pose proof (Hs _ _ _ Hw) as Hl.
  exists q. split; [exact Hw|]. split; [vm_compute; reflexivity|]. split; [exact Hq|]. split; [exact Hl|]. apply Hb. intros ->. discriminate Hl.
Defined.
